(* ===== verification/_CoqProject ===== *)
-Q . S2P
Prelude.v
Bytes.v
Canonical.v
Wire.v
State.v
Identity.v
Manifest.v
Frame.v
Deps.v
Validator.v
ValidatorLaws.v
Crypto.v
Ids.v
PrefixChain.v
CutChain.v
Half.v
Stats.v
Chunk.v
ChunkLaws.v
Pack.v
Transform.v
Exec.v
ExecOps.v
Rotation.v
Quant.v
QuantCodec.v
Samples.v
CodecProperties.v
ValidatorProperties.v
IdentityProperties.v
ObjectProperties.v
NumericProperties.v
TransformProperties.v
RotationProperties.v
QuantProperties.v
HandoffJson.v
HandoffMac.v
HandoffManifest.v
HandoffLayout.v
HandoffValidation.v
HandoffLayoutLaws.v
HandoffValidationLaws.v
HandoffFrame.v
HandoffVerify.v
HandoffBundle.v
HandoffSession.v
HandoffSessionLaws.v
HandoffLiveness.v
HandoffSamples.v
HandoffProperties.v
HandoffV2Manifest.v
HandoffV2.v
HandoffV2Receiver.v
HandoffV2Properties.v
StorePolicy.v
StorePolicyLaws.v
CacheReplay.v
CacheReplayLaws.v
CacheOracle.v
CacheOptimality.v
PolicyProperties.v
RestorePlan.v
ScatterPlan.v
ChainLaws.v
RestorePins.v
RestoreExec.v
RestoreLaws.v
RestorePlanes.v
RestoreCandidates.v
RestoreParallel.v
ScatterTransfer.v
RestoreSamples.v
RestoreProperties.v
Capacity.v
PrefillLayout.v
PrefillDescriptor.v
PrefillSession.v
PrefillProperties.v
PrefillGguf.v
MlaExpansion.v
