(* ===== verification/Prelude.v ===== *)
(** * kvpack: a verification of the cache-pack format and of its live handoff

    kvpack stores the key/value cache of a language model as content-addressed
    chunk objects plus one authenticated manifest (the pack), and hands caches
    over live between machines.  The repository has three crates:

    - [crates/kvpack-core]: the format.  Canonical encodings, manifests and
      their validator, keys and content identities, chunk and pack objects,
      layout transforms, rotation descriptors, quantization, statistics;
    - [crates/kvpack-handoff]: the live handoff protocol.  Frames over a byte
      stream, begin/layer/seal manifests, an incremental verifier, permits,
      the atomic receiver;
    - [crates/kvpack]: the store.  SQLite index, publication, restore, garbage
      collection, telemetry.

    This development translates kvpack-core completely, the pure part of
    kvpack-handoff, and of kvpack the retention policy, the restore path, the
    capacity worksheet and the prefill layouts with relocation, definition by
    definition, and proves what makes them correct.

    ** How Rust is modelled

    A function that returns [Result<T, E>] is a function into [outcome E T]
    (this file).  Its third constructor [Panic] stands for an index out of
    range, an arithmetic overflow of a checked build, an [unwrap] on [None], and
    for exhausted recursion fuel, so that "never [Panic]" is a claim about
    termination as well.  Machine integers are [Z] with their range written
    out ([Bytes]: [u8] to [u64], checked and wrapping operations, big-endian
    codecs); byte strings are [list Z]; binary32 and binary64 arithmetic is
    the specification of the standard library ([Stdlib.Floats]) on bit
    patterns.  Mutable encoders, decoders and state machines pass their state.

    Code outside the repository is a parameter.  [Crypto] declares a class of
    the primitives (SHA-256, HMAC, HKDF, AEAD, randomness) with their
    documented lengths and the round trip of the AEAD; nothing is assumed of
    collisions, so a binding theorem concludes "equal, or this explicit pair of
    messages collides".  [Samples] instantiates it with toy functions,
    so that every theorem is applied to concrete values.

    ** Files and sources (under src/crates)

    - [Prelude], [Bytes]: outcomes, tactics, list and integer lemmas;
    - [Canonical], [Wire]: kvpack-core canonical.rs, error.rs, consts.rs,
      enums.rs;
    - [State], [Identity], [Manifest]: identity.rs, manifest.rs;
    - [Deps], [Validator], [ValidatorLaws]: validator.rs;
    - [Crypto], [Ids], [PrefixChain], [CutChain]: keys.rs, ids.rs;
    - [Frame], [Chunk], [ChunkLaws]: chunk.rs;
    - [Pack]: pack.rs;
    - [Half], [Stats]: half.rs, stats.rs;
    - [Transform], [Exec], [ExecOps]: transform.rs and transform/exec.rs;
    - [Rotation]: rotation.rs;
    - [Quant], [QuantCodec]: quant.rs;
    - [Samples]: concrete values for the witnesses;
    - the files named [*Properties]: the theorems, one group per file, each
      followed by its witnesses.

    For kvpack-handoff (laws are in the same file or in a [*Laws] file beside it):

    - [HandoffJson], [HandoffMac]: error.rs, canonical.rs, mac.rs;
    - [HandoffManifest], [HandoffLayout], [HandoffValidation]: manifest.rs,
      manifest/validation.rs;
    - [HandoffFrame]: frame.rs;
    - [HandoffVerify]: verify.rs;
    - [HandoffBundle]: bundle.rs, over a file system that injects faults;
    - [HandoffSession]: coordinator.rs, receiver/config.rs, receiver/sink.rs,
      receiver/interrupt.rs, receiver/session.rs; the class [PeerSocket] says
      where writing to the peer fails, and a session that waits for a layer
      permit no one gives back is the outcome [blocked];
    - [HandoffSessionLaws], [HandoffLiveness]: what any session, a failing one and
      a fault-free one does;
    - [HandoffV2Manifest], [HandoffV2], [HandoffV2Receiver]:
      handoff_v2.rs, its structures, its validation, signing and atomic receiver
      over an arbitrary engine;
    - [HandoffSamples]: a text layer with the laws of serde_json and a small
      transfer.

    For kvpack (the store):

    - [StorePolicy], [StorePolicyLaws]: store/policy.rs and
      the score, sketch and queue helpers of store/policy/replay.rs;
    - [CacheReplay], [CacheReplayLaws]: store/policy/replay.rs;
    - [CacheOracle], [CacheOptimality]:
      store/policy/oracle.rs;
    - [RestorePlan], [ScatterPlan]: restore.rs, restore/helpers.rs, sink.rs; the
      catalog and the files a plan reads are a snapshot, [StoreView];
    - [RestoreCandidates]: the candidates of restore.rs and store/resolve.rs;
    - [RestorePins]: store/read/pins.rs and store/holds.rs, with the pin table
      and the holds as the state [RestoreWorld]; the class [PinCatalog] says
      which lock, statement or commit of the table fails, so that a best-effort
      deletion may leave its row;
    - [RestoreExec]: restore/plan.rs and restore/shadow.rs over an arbitrary
      sink, the class [VerifiedRestoreSink]; dropping a Rust value that owns a
      pin is a call of [release_pin];
    - [RestoreParallel]: restore_operations_parallel as a transition system of
      workers, a bounded channel and a receiver;
    - [ScatterTransfer]: prepare_scatter_transfer and chunk_stats_sidecars;
    - [ChainLaws], [RestoreLaws], [RestorePlanes]: further lemmas;
      [RestoreSamples]: a store with a full manifest, a delta and four chunks;
    - [Capacity]: capacity.rs;
    - [PrefillLayout], [PrefillDescriptor]: prefill/mod.rs, prefill/v1.rs,
      prefill/v2/mod.rs and the types of gguf_layout/mod.rs; the borrowed and the
      owned form of a layout are one record;
    - [PrefillSession]: prefill/session.rs and prefill/relocate.rs;
    - [PrefillGguf]: gguf_layout/parse.rs, gguf_layout/derive.rs and the latent
      layouts of mla.rs, over the bytes of a model file;
    - [MlaExpansion]: the expansion descriptor and the expansion of mla.rs.

    serde_json's text layer is the class [JsonText] with the laws
    [JsonTextLaws] (parsing inverts printing up to the recursion limit of 128
    levels, which no manifest comes near); a derived [Serialize]/[Deserialize] pair is written out per
    manifest and its round trip proved.  A session is a state machine over
    the unread input, the bytes sent, the file system, the coordinator and an
    arbitrary sink; a mutex-protected object is a transition system.
    ** What the theorems show

    - [CodecProperties]: every decoder accepts exactly the encodings of
      well-formed values, so that an object has one byte string; encoders are
      total on well-formed values, decoders never panic.
    - [ValidatorProperties]: the validator is sound for a declarative
      predicate, an accepted manifest tiles every state with its chunks, the
      depth-first search decides acyclicity, and all of it terminates.
    - [IdentityProperties]: the streaming cut deriver refines the one-pass
      specification; identities name their content up to explicit collisions;
      stable keys survive epoch rotation.
    - [ObjectProperties]: packs and chunks round-trip, what a reader accepts is
      exactly what the tag and the digests bind, no input makes a reader
      panic.
    - [NumericProperties], [QuantProperties]: rounding of half precision (not
      strictly between 2^-25 and 2^-24, where it is not to nearest), the bit
      packing and grouping of quantized tensors.
    - [TransformProperties], [RotationProperties]: exact repack operations are
      undone by their inverses, the executor applies exactly the valid
      operations, descriptors are canonical and bind families.
    - [HandoffProperties]: frames and manifests are read back exactly; an
      accepted begin manifest plans every plane once within its bounds; the
      incremental verifier is the one-shot one; digests and tags bind a
      transfer; whatever the faults, a reported bundle reopens to the staged
      stream exactly when its manifests are within the 1 MiB the reader takes;
      a session with a receipt received, published and acknowledged
      one accepted stream, a failing session exposes nothing partial, and
      an accepted stream with manifests of that size is received by a sink
      that gives its permits back; permits never exceed the capacity.
    - [HandoffV2Properties]: BEGIN validation of protocol v2 decides its
      specification; the engine behind the atomic receiver sees one of six
      histories, with a seal only if [sign] computes it for what was delivered;
      a signed complete transfer commits; a seal binds one transfer.
    - [PolicyProperties]: the invariant of the TinyLFU policy over every
      sequence of its operations, with a sketch that never underestimates; its
      victim and its admissions are the least entries; the replay of a trace
      stays within the capacity under each of the five policies and is one of
      the cache histories of the trace; the oracle is the minimum over all of
      them, so no policy beats it.
    - [RestoreProperties]: authentication of a chain decides its specification;
      a built plan tiles every plane; candidates are ranked and buildable; a
      restore fills the planes with the decoded chunks, and gives back what it
      took when it fails or when the engine is freed, except rows of its own
      that the catalog fails to delete; a promoted shadow and a parallel run
      under any uncancelled schedule do what the sequential restore does, and
      the parallel one neither deadlocks nor runs on; holds stay within the
      limits; a scatter transfer describes exactly the plan.
    - [Capacity]: every figure of a worksheet is the least (or, for a cap, the
      greatest) one that meets its requirement, and overflow is reported only
      when no worksheet fits.
    - [PrefillProperties]: descriptor derivation is exact and its engine
      identity binds the layout; relocation rotates the rotary key planes and
      nothing else; a resumed session has the stored identities and windows.
    - [PrefillGguf], [MlaExpansion]: the parser accepts exactly the grammar, a
      layout (a latent one of at most 4096 layers) is derived from exactly the
      files that declare one, and passes validation; the expansion of latent records is the matrix product.
    ** Fuel and bounds

    Recursion that is not structural carries fuel taken from the input, and a
    theorem shows it is enough: the run-length decoder and [chunks_exact] use
    the length of the input, the dependency search the number of nodes plus
    one, [push_tokens] the number of tokens plus the number of cuts, the eviction
    loop the number of entries plus one, the submask loop the mask plus one, the
    walk over parent manifests the maximal delta depth plus one.  Facts about
    binary16 are checked on all 65,536 patterns by evaluation.  The bounds of
    the format (4 MiB chunks, 512 cuts, the manifest limits) are the
    constants of consts.rs, never smaller ones.

    ** Not modelled

    - serde's derived JSON forms of kvpack-core, [Debug]/[Display] text,
      zeroization on drop and constant-time comparison (no observable value);
    - of kvpack-handoff: sockets, TLS and its certificate pinning, threads and
      the sprayed session (receiver/spray.rs, receiver/tls.rs), clocks and durations, symlink checks and paths;
    - of kvpack: SQLite transactions, files, threads and telemetry are calls
      into libraries: publication, recovery, garbage collection, the remote
      tier and the export sessions, with the session artifact on top of them.
      The direct-I/O read path is left out of restores, and so is the poisoning
      of mutexes other than the catalog's;
      layouts read from a JSON sidecar are not modelled.  [f64::powf], [cos] and
      [sin] have an unspecified precision and are parameters of relocation; a
      [f32] or [f64] NaN has no payload.  Formatting and parsing of a [f64] in
      a scaling label follow the shortest round-trip form; the search for its
      digits has fuel for the seventeen digits a binary64 number needs. *)
From Stdlib Require Import ZArith Lia.
From stdpp Require Import base tactics numbers list strings option sorting.

#[global] Open Scope Z_scope.

(** ** Outcomes

    A Rust function that returns [Result<T, E>] is a function into
    [outcome E T].  [Panic] is the third way a Rust call can end: an index
    out of range, an [unwrap] on [None], a division by zero.  It also marks
    exhausted recursion fuel, so that a theorem "never [Panic]" covers both. *)
Inductive outcome (E A : Type) : Type :=
  | Ok (a : A)
  | Err (e : E)
  | Panic (why : string).
Arguments Ok {E A} a.
Arguments Err {E A} e.
Arguments Panic {E A} why.

#[global] Instance outcome_ret E : MRet (outcome E) := λ A a, Ok a.
#[global] Instance outcome_bind E : MBind (outcome E) := λ A B f m,
  match m with Ok a => f a | Err e => Err e | Panic w => Panic w end.
#[global] Instance outcome_fmap E : FMap (outcome E) := λ A B f m,
  match m with Ok a => Ok (f a) | Err e => Err e | Panic w => Panic w end.

(** [Option::ok_or] *)
Definition ok_or {E A} (o : option A) (e : E) : outcome E A :=
  match o with Some a => Ok a | None => Err e end.

(** [Result::map_err(..)] over a foreign error, as an option. *)
Definition expect {E A} (o : option A) (why : string) : outcome E A :=
  match o with Some a => Ok a | None => Panic why end.

Definition panics {E A} (m : outcome E A) : Prop :=
  match m with Panic _ => True | _ => False end.
Definition is_ok {E A} (m : outcome E A) : bool :=
  match m with Ok _ => true | _ => false end.

Section outcome.
Context {E A B : Type}.
Implicit Types (m : outcome E A) (f : A → outcome E B).

Lemma bind_Ok m f b : m ≫= f = Ok b ↔ ∃ a, m = Ok a ∧ f a = Ok b.
Proof. destruct m; naive_solver. Qed.
Lemma fmap_Ok (g : A → B) m b : g <$> m = Ok b ↔ ∃ a, m = Ok a ∧ b = g a.
Proof. destruct m; naive_solver. Qed.
Lemma ok_or_Ok (o : option A) (e : E) a : ok_or o e = Ok a ↔ o = Some a.
Proof. destruct o; naive_solver. Qed.
Lemma Ok_inj (a b : A) : Ok (E:=E) a = Ok b → a = b.
Proof. by intros [= ->]. Qed.
Lemma bind_no_panic m f :
  ¬ panics m → (∀ a, m = Ok a → ¬ panics (f a)) → ¬ panics (m ≫= f).
Proof. destruct m; simpl; auto. Qed.
Lemma ok_or_no_panic (o : option A) (e : E) : ¬ panics (ok_or o e).
Proof. destruct o; simpl; auto. Qed.
End outcome.

(** Inversion of a successful run: splits binds, [ok_or]s and the guards
    [if b then Err e else k] until only facts about the run are left. *)
Ltac inv_ok_step :=
  match goal with
  | H : mbind _ _ = Ok _ |- _ => apply bind_Ok in H as (? & ? & ?)
  | H : fmap _ _ = Ok _ |- _ => apply fmap_Ok in H as (? & ? & ?)
  | H : ok_or _ _ = Ok _ |- _ => apply ok_or_Ok in H
  | H : mret _ = Ok _ |- _ => unfold mret, outcome_ret in H
  | H : Ok _ = Ok _ |- _ => apply Ok_inj in H
  | H : Err _ = Ok _ |- _ => discriminate H
  | H : Panic _ = Ok _ |- _ => discriminate H
  | H : (if ?b then Err _ else _) = Ok _ |- _ =>
      let E := fresh "Hg" in destruct b eqn:E; [discriminate H|]
  | H : (if ?b then Panic _ else _) = Ok _ |- _ =>
      let E := fresh "Hg" in destruct b eqn:E; [discriminate H|]
  | H : (if ?b then _ else Err _) = Ok _ |- _ =>
      let E := fresh "Hg" in destruct b eqn:E; [|discriminate H]
  | H : (if ?b then _ else Panic _) = Ok _ |- _ =>
      let E := fresh "Hg" in destruct b eqn:E; [|discriminate H]
  end.
Ltac inv_ok := repeat inv_ok_step.

(** Boolean guards, as Rust writes them, to arithmetic facts. *)
Ltac bool_step :=
  match goal with
  | H : (_ && _)%bool = true |- _ => apply andb_prop in H as [? ?]
  | H : (_ || _)%bool = false |- _ => apply orb_false_elim in H as [? ?]
  | H : negb _ = true |- _ => apply negb_true_iff in H
  | H : negb _ = false |- _ => apply negb_false_iff in H
  | H : (_ =? _) = true |- _ => apply Z.eqb_eq in H
  | H : (_ =? _) = false |- _ => apply Z.eqb_neq in H
  | H : (_ <? _) = true |- _ => apply Z.ltb_lt in H
  | H : (_ <? _) = false |- _ => apply Z.ltb_ge in H
  | H : (_ <=? _) = true |- _ => apply Z.leb_le in H
  | H : (_ <=? _) = false |- _ => apply Z.leb_gt in H
  | H : bool_decide _ = true |- _ => apply bool_decide_eq_true in H
  | H : bool_decide _ = false |- _ => apply bool_decide_eq_false in H
  end.
Ltac bools := repeat bool_step.

(** ** Computations that do not panic

    Walks through binds, guards and results; the calls that need a proof of
    their own come from the hint database [no_panic] or are left as goals. *)
Create HintDb no_panic.
#[export] Hint Resolve ok_or_no_panic : no_panic.
Ltac no_panic_step :=
  match goal with
  | |- ¬ panics (Ok _) => by intros []
  | |- ¬ panics (Err _) => by intros []
  | |- ¬ panics (mret _) => by intros []
  | |- ¬ panics (mbind _ _) => apply bind_no_panic; [|intros ? ?]
  | |- ¬ panics (if ?b then _ else _) => destruct b eqn:?
  | |- ¬ panics (let '(_, _) := ?p in _) => destruct p
  | |- ¬ panics (match ?p with (_, _) => _ end) => destruct p
  | |- _ => solve [auto with no_panic]
  end.
Ltac no_panic := repeat no_panic_step.
