(* ===== verification/Bytes.v ===== *)
(** * Machine integers and byte slices

    Unsigned machine integers are [Z] values with their width written at each
    use; [usize] is 64 bits wide.  A byte slice or [Vec<u8>] is a list of [Z],
    of which [bytes_ok] says that every element is a [u8].  Indexing that Rust
    checks at run time ([&l[i..j]]) is an [outcome] that panics out of range;
    [slice::get] is the option-valued form. *)
From Stdlib Require Import ZArith Lia.
From stdpp Require Import base tactics numbers list strings option.
From S2P Require Import Prelude.

Abbreviation bytes := (list Z).

Definition u8_bound : Z := 256.
Definition u16_bound : Z := 65536.
Definition u32_bound : Z := 4294967296.
Definition u64_bound : Z := 18446744073709551616.

Definition in_u8 (v : Z) : Prop := 0 ≤ v < u8_bound.
Definition in_u16 (v : Z) : Prop := 0 ≤ v < u16_bound.
Definition in_u32 (v : Z) : Prop := 0 ≤ v < u32_bound.
Definition in_u64 (v : Z) : Prop := 0 ≤ v < u64_bound.

Definition bytes_ok (l : bytes) : Prop := Forall in_u8 l.

(** [.len()] *)
Definition zlen {A} (l : list A) : Z := Z.of_nat (length l).

(** A Rust slice is at most [isize::MAX] bytes long, so an index into it plus
    a 64-bit length prefix read from it cannot be confused by wrap-around. *)
Definition slice_len_ok (l : bytes) : Prop := zlen l < 9223372036854775808.

(** [u64::checked_add], [u64::checked_mul], [u64::checked_sub] and the
    [usize] versions, which have the same width. *)
Definition checked_add (a b : Z) : option Z :=
  if a + b <? u64_bound then Some (a + b) else None.
Definition checked_mul (a b : Z) : option Z :=
  if a * b <? u64_bound then Some (a * b) else None.
Definition checked_sub (a b : Z) : option Z :=
  if b <=? a then Some (a - b) else None.
(** [usize::saturating_add] *)
Definition saturating_add (a b : Z) : Z := Z.min (a + b) (u64_bound - 1).

(** [u16::try_from], [u32::try_from] and [u8::try_from] of a length. *)
Definition try_from (bound : Z) (v : Z) : option Z :=
  if v <? bound then Some v else None.

(** [usize::div_ceil] *)
Definition div_ceil (a b : Z) : Z := (a + b - 1) / b.

(** [take]/[drop] at a [Z] position. *)
Definition ztake {A} (n : Z) (l : list A) : list A := take (Z.to_nat n) l.
Definition zdrop {A} (n : Z) (l : list A) : list A := drop (Z.to_nat n) l.

(** [l.get(i..j)] *)
Definition get_range {A} (l : list A) (i j : Z) : option (list A) :=
  if (0 <=? i) && (i <=? j) && (j <=? zlen l) then Some (ztake (j - i) (zdrop i l))
  else None.

(** [&l[i..j]] *)
Definition slice {E A} (l : list A) (i j : Z) : outcome E (list A) :=
  expect (get_range l i j) "slice index out of range".

(** [l[i]] *)
Definition index {E A} (l : list A) (i : Z) : outcome E A :=
  if 0 <=? i then expect (l !! Z.to_nat i) "index out of bounds"
  else Panic "index out of bounds".

(** [to_le_bytes] and [from_le_bytes] for an [n]-byte integer. *)
Fixpoint le_bytes (n : nat) (v : Z) : bytes :=
  match n with
  | O => []
  | S n => v mod 256 :: le_bytes n (v / 256)
  end.
Fixpoint le_val (l : bytes) : Z :=
  match l with
  | [] => 0
  | b :: l => b + 256 * le_val l
  end.

(** [l[off..off + src.len()].copy_from_slice(src)] *)
Definition patch (l : bytes) (off : Z) (src : bytes) : bytes :=
  ztake off l ++ src ++ zdrop (off + zlen src) l.
Definition write {E} (l : bytes) (off : Z) (src : bytes) : outcome E bytes :=
  if (0 <=? off) && (off + zlen src <=? zlen l) then Ok (patch l off src)
  else Panic "range end index out of range".

Definition zeros (n : Z) : bytes := replicate (Z.to_nat n) 0.

(** [Vec::resize(n, 0)] *)
Definition vec_resize (l : bytes) (n : Z) : bytes :=
  if n <=? zlen l then ztake n l else l ++ zeros (n - zlen l).

(** [.iter().all(|byte| byte == 0)] and its negation [.any(|byte| byte != 0)] *)
Definition all_zero (l : bytes) : bool := forallb (λ b, b =? 0) l.
Definition any_nonzero (l : bytes) : bool := negb (all_zero l).

(** A [b"..."] literal. *)
Definition ascii_bytes (s : string) : bytes :=
  (λ c, Z.of_nat (Ascii.nat_of_ascii c)) <$> String.list_ascii_of_string s.

(** [==] and lexicographic [Ord] on byte strings. *)
Definition bytes_eqb (a b : bytes) : bool := bool_decide (a = b).
Fixpoint bytes_cmp (a b : bytes) : comparison :=
  match a, b with
  | [], [] => Eq
  | [], _ :: _ => Lt
  | _ :: _, [] => Gt
  | x :: a, y :: b =>
      match Z.compare x y with Eq => bytes_cmp a b | c => c end
  end.

Create HintDb bytes.

(** ** Lengths, prefixes and slices *)
Section lists.
Context {A : Type}.
Implicit Types (l : list A) (i j n : Z).

Lemma zlen_nonneg l : 0 ≤ zlen l.
Proof. unfold zlen; lia. Qed.
Lemma zlen_app l1 l2 : zlen (l1 ++ l2) = zlen l1 + zlen l2.
Proof. unfold zlen. rewrite length_app. lia. Qed.
Lemma zlen_cons (a : A) l : zlen (a :: l) = 1 + zlen l.
Proof. unfold zlen. simpl. lia. Qed.
Lemma zlen_nil : zlen (@nil A) = 0.
Proof. done. Qed.
Lemma zlen_ztake n l : 0 ≤ n ≤ zlen l → zlen (ztake n l) = n.
Proof. unfold zlen, ztake. rewrite length_take. lia. Qed.
Lemma zlen_zdrop n l : 0 ≤ n ≤ zlen l → zlen (zdrop n l) = zlen l - n.
Proof. unfold zlen, zdrop. rewrite length_drop. lia. Qed.
Lemma zlen_fmap {B} (f : A → B) l : zlen (f <$> l) = zlen l.
Proof. unfold zlen. by rewrite length_fmap. Qed.
Lemma ztake_zdrop n l : ztake n l ++ zdrop n l = l.
Proof. apply take_drop. Qed.
Lemma ztake_app_exact n l1 l2 : n = zlen l1 → ztake n (l1 ++ l2) = l1.
Proof. intros ->. unfold ztake, zlen. rewrite Nat2Z.id. apply take_app_length. Qed.
Lemma zdrop_app_exact n l1 l2 : n = zlen l1 → zdrop n (l1 ++ l2) = l2.
Proof. intros ->. unfold zdrop, zlen. rewrite Nat2Z.id. apply drop_app_length. Qed.
Lemma zdrop_zdrop i j l : 0 ≤ i → 0 ≤ j → zdrop i (zdrop j l) = zdrop (j + i) l.
Proof. intros. unfold zdrop. rewrite drop_drop. f_equal. lia. Qed.
Lemma zdrop_0 l : zdrop 0 l = l.
Proof. done. Qed.
Lemma ztake_0 l : ztake 0 l = [].
Proof. done. Qed.
Lemma ztake_all n l : zlen l ≤ n → ztake n l = l.
Proof. unfold zlen, ztake. intros. apply take_ge. lia. Qed.
Lemma zdrop_all n l : zlen l ≤ n → zdrop n l = [].
Proof. unfold zlen, zdrop. intros. apply drop_ge. lia. Qed.

Lemma get_range_Some l i j r :
  get_range l i j = Some r ↔
  0 ≤ i ∧ i ≤ j ∧ j ≤ zlen l ∧ r = ztake (j - i) (zdrop i l).
Proof.
  unfold get_range. split.
  - intros H. destruct (_ && _ && _)%bool eqn:E; [|done]. bools. naive_solver.
  - intros (?&?&?&->). by rewrite !(proj2 (Z.leb_le _ _)).
Qed.
Lemma get_range_app l1 l2 l3 i j :
  i = zlen l1 → j = zlen l1 + zlen l2 → get_range (l1 ++ l2 ++ l3) i j = Some l2.
Proof.
  intros -> ->. apply get_range_Some. rewrite !zlen_app.
  pose proof (zlen_nonneg l1). pose proof (zlen_nonneg l2). pose proof (zlen_nonneg l3).
  split_and!; [lia..|]. rewrite zdrop_app_exact by done.
  rewrite ztake_app_exact by lia. done.
Qed.
Lemma get_range_split l i j r : get_range l i j = Some r → zdrop i l = r ++ zdrop j l.
Proof.
  intros (?&?&?&->)%get_range_Some. rewrite <- (ztake_zdrop (j - i) (zdrop i l)) at 1.
  f_equal. rewrite zdrop_zdrop by lia. f_equal. lia.
Qed.
Lemma get_range_len l i j r : get_range l i j = Some r → zlen r = j - i.
Proof.
  intros (?&?&?&->)%get_range_Some. apply zlen_ztake. rewrite zlen_zdrop by lia. lia.
Qed.
Lemma slice_no_panic {E} l i j :
  0 ≤ i → i ≤ j → j ≤ zlen l → ¬ panics (slice (E:=E) l i j).
Proof.
  intros. unfold slice.
  assert (get_range l i j = Some (ztake (j - i) (zdrop i l))) as -> by
    by apply get_range_Some.
  by intros [].
Qed.
Lemma slice_Ok {E} l i j r :
  slice (E:=E) l i j = Ok r ↔ get_range l i j = Some r.
Proof. unfold slice, expect. destruct (get_range _ _ _); naive_solver. Qed.
End lists.

#[export] Hint Resolve zlen_nonneg : bytes.

(** Length side conditions: pushes [zlen] inside and calls [lia]. *)
Ltac zlen_facts :=
  repeat match goal with
  | |- context [zlen ?l] =>
      lazymatch goal with H : 0 ≤ zlen l |- _ => fail | _ => pose proof (zlen_nonneg l) end
  | H : context [zlen ?l] |- _ =>
      lazymatch goal with H : 0 ≤ zlen l |- _ => fail | _ => pose proof (zlen_nonneg l) end
  end.
Ltac zlia := rewrite ?zlen_app, ?zlen_cons, ?zlen_nil in *; zlen_facts; lia.

(** ** Well-formed byte strings *)
Lemma bytes_ok_app a b : bytes_ok (a ++ b) ↔ bytes_ok a ∧ bytes_ok b.
Proof. apply Forall_app. Qed.
Lemma bytes_ok_cons x a : bytes_ok (x :: a) ↔ in_u8 x ∧ bytes_ok a.
Proof. apply Forall_cons_iff. Qed.
Lemma bytes_ok_nil : bytes_ok [].
Proof. constructor. Qed.
Lemma bytes_ok_ztake n l : bytes_ok l → bytes_ok (ztake n l).
Proof. apply Forall_take. Qed.
Lemma bytes_ok_zdrop n l : bytes_ok l → bytes_ok (zdrop n l).
Proof. apply Forall_drop. Qed.
Lemma bytes_ok_zeros n : bytes_ok (zeros n).
Proof. apply Forall_replicate. unfold in_u8, u8_bound. lia. Qed.
Lemma zlen_zeros n : 0 ≤ n → zlen (zeros n) = n.
Proof. intros. unfold zlen, zeros. rewrite length_replicate. lia. Qed.
Lemma all_zero_zeros n : all_zero (zeros n) = true.
Proof. unfold zeros. by induction (Z.to_nat n). Qed.
Lemma all_zero_spec l : all_zero l = true ↔ l = zeros (zlen l).
Proof.
  unfold zeros, zlen. rewrite Nat2Z.id. induction l as [|b l IH]; [done|]. simpl.
  rewrite andb_true_iff, IH, Z.eqb_eq.
  split; [intros [-> <-]; done|intros [= Hb Hl]; auto].
Qed.
Lemma bytes_eqb_eq a b : bytes_eqb a b = true ↔ a = b.
Proof. apply bool_decide_eq_true. Qed.
Lemma bytes_eqb_refl a : bytes_eqb a a = true.
Proof. by apply bytes_eqb_eq. Qed.

(** A decision procedure for literals. *)
Definition bytes_okb (l : bytes) : bool := forallb (λ b, (0 <=? b) && (b <? u8_bound)) l.
Lemma bytes_okb_ok l : bytes_okb l = true → bytes_ok l.
Proof.
  unfold bytes_okb. induction l as [|b l IH]; simpl; intros H; [constructor|]. bools.
  constructor; [by split|by apply IH].
Qed.

#[export] Hint Resolve bytes_ok_nil bytes_ok_ztake bytes_ok_zdrop bytes_ok_zeros : bytes.
#[export] Hint Resolve <- bytes_ok_app bytes_ok_cons : bytes.

(** ** Little-endian integers *)
Lemma length_le_bytes n v : length (le_bytes n v) = n.
Proof. revert v. induction n; simpl; auto. Qed.
Lemma zlen_le_bytes n v : zlen (le_bytes n v) = Z.of_nat n.
Proof. unfold zlen. by rewrite length_le_bytes. Qed.
Lemma le_bytes_ok n v : bytes_ok (le_bytes n v).
Proof.
  revert v. induction n as [|n IH]; intros v; simpl; constructor; [|apply IH].
  unfold in_u8, u8_bound. apply Z.mod_pos_bound. lia.
Qed.
Lemma le_val_le_bytes n v : le_val (le_bytes n v) = v mod 256 ^ Z.of_nat n.
Proof.
  revert v. induction n as [|n IH]; intros v.
  - by rewrite Z.mod_1_r.
  - cbn [le_bytes le_val]. rewrite IH, Nat2Z.inj_succ, Z.pow_succ_r by lia.
    rewrite Z.rem_mul_r by lia. done.
Qed.
Lemma le_val_le_bytes_small n v :
  0 ≤ v < 256 ^ Z.of_nat n → le_val (le_bytes n v) = v.
Proof. intros. rewrite le_val_le_bytes. by apply Z.mod_small. Qed.
Lemma le_val_bound l : bytes_ok l → 0 ≤ le_val l < 256 ^ zlen l.
Proof.
  induction 1 as [|b l Hb _ IH]; [done|].
  unfold in_u8, u8_bound in Hb. rewrite zlen_cons, Z.pow_add_r by zlia. cbn [le_val].
  change (256 ^ 1) with 256. lia.
Qed.
Lemma le_bytes_le_val l : bytes_ok l → le_bytes (length l) (le_val l) = l.
Proof.
  induction 1 as [|b l Hb _ IH]; [done|]. unfold in_u8, u8_bound in Hb.
  cbn [length le_bytes le_val].
  rewrite (Z.mul_comm 256), Z.mod_add, Z.mod_small by lia.
  rewrite Z.div_add, Z.div_small, Z.add_0_l by lia. by rewrite IH.
Qed.
Lemma le_bytes_inj n v w :
  0 ≤ v < 256 ^ Z.of_nat n → 0 ≤ w < 256 ^ Z.of_nat n →
  le_bytes n v = le_bytes n w → v = w.
Proof.
  intros Hv Hw H. rewrite <- (le_val_le_bytes_small n v Hv), H.
  by apply le_val_le_bytes_small.
Qed.
#[export] Hint Resolve le_bytes_ok : bytes.

(** Two concatenations with equally long first parts agree part by part. *)
Lemma app_inj_zlen {A} (a b c d : list A) :
  zlen a = zlen c → a ++ b = c ++ d → a = c ∧ b = d.
Proof. unfold zlen. intros Hl H. apply app_inj_1 in H; [done|lia]. Qed.

(** ** Lexicographic comparison *)
Lemma bytes_cmp_eq a b : bytes_cmp a b = Eq ↔ a = b.
Proof.
  revert b. induction a as [|x a IH]; intros [|y b]; simpl; try naive_solver.
  destruct (Z.compare_spec x y); subst; try (split; [done|intros [=]; lia]).
  rewrite IH. naive_solver.
Qed.
Lemma bytes_cmp_antisym a b : bytes_cmp b a = CompOpp (bytes_cmp a b).
Proof.
  revert b. induction a as [|x a IH]; intros [|y b]; simpl; try done.
  rewrite (Z.compare_antisym x y). destruct (Z.compare_spec x y); simpl; auto.
Qed.
Lemma bytes_cmp_trans a b c : bytes_cmp a b = Lt → bytes_cmp b c = Lt → bytes_cmp a c = Lt.
Proof.
  revert b c. induction a as [|x a IH]; intros [|y b] [|z c]; simpl; try done.
  destruct (Z.compare_spec x y), (Z.compare_spec y z); subst; try done; intros H1 H2.
  - rewrite Z.compare_refl. eauto.
  - by rewrite (proj2 (Z.compare_lt_iff _ _)) by lia.
  - by rewrite (proj2 (Z.compare_lt_iff _ _)) by lia.
  - by rewrite (proj2 (Z.compare_lt_iff _ _)) by lia.
Qed.

(** ** Checked arithmetic *)
Lemma checked_add_Some a b c : checked_add a b = Some c ↔ c = a + b ∧ a + b < u64_bound.
Proof. unfold checked_add. destruct (Z.ltb_spec (a + b) u64_bound); naive_solver lia. Qed.
Lemma checked_mul_Some a b c : checked_mul a b = Some c ↔ c = a * b ∧ a * b < u64_bound.
Proof. unfold checked_mul. destruct (Z.ltb_spec (a * b) u64_bound); naive_solver lia. Qed.
Lemma checked_sub_Some a b c : checked_sub a b = Some c ↔ c = a - b ∧ b ≤ a.
Proof. unfold checked_sub. destruct (Z.leb_spec b a); naive_solver lia. Qed.
Lemma try_from_Some b v w : try_from b v = Some w ↔ w = v ∧ v < b.
Proof. unfold try_from. destruct (Z.ltb_spec v b); naive_solver lia. Qed.

(** ** Writes into a buffer *)
Lemma zlen_patch l off src : 0 ≤ off → off + zlen src ≤ zlen l → zlen (patch l off src) = zlen l.
Proof.
  intros. pose proof (zlen_nonneg src). unfold patch. rewrite !zlen_app, zlen_ztake, zlen_zdrop by lia. lia.
Qed.
Lemma write_Ok {E} l off src : 0 ≤ off → off + zlen src ≤ zlen l → write (E:=E) l off src = Ok (patch l off src).
Proof. intros. unfold write. by rewrite !(proj2 (Z.leb_le _ _)) by lia. Qed.
Lemma patch_app a old c off src :
  zlen a = off → zlen old = zlen src → patch (a ++ old ++ c) off src = a ++ src ++ c.
Proof.
  intros Ha Ho. unfold patch. rewrite ztake_app_exact by lia. do 2 f_equal.
  rewrite app_assoc. apply zdrop_app_exact. rewrite zlen_app. lia.
Qed.
Lemma patch_patch l off a b :
  0 ≤ off → zlen a = zlen b → off + zlen a ≤ zlen l → patch (patch l off a) off b = patch l off b.
Proof.
  intros Ho Hab Hl. unfold patch at 2. rewrite patch_app; [|by apply zlen_ztake; zlia|done].
  unfold patch. by rewrite Hab.
Qed.
(** Writing back what is there changes nothing. *)
Lemma patch_same l off src :
  get_range l off (off + zlen src) = Some src → patch l off src = l.
Proof.
  intros H. pose proof (get_range_split _ _ _ _ H) as Hs. unfold patch. rewrite <- Hs. apply ztake_zdrop.
Qed.
Lemma get_range_patch_same l off src :
  0 ≤ off → off + zlen src ≤ zlen l → get_range (patch l off src) off (off + zlen src) = Some src.
Proof.
  intros. unfold patch. apply get_range_app; rewrite zlen_ztake by zlia; lia.
Qed.
Lemma get_range_patch_other l off src i j :
  0 ≤ off → off + zlen src ≤ zlen l → j ≤ off ∨ off + zlen src ≤ i →
  get_range (patch l off src) i j = get_range l i j.
Proof.
  intros Ho Hl Hd. unfold get_range. rewrite zlen_patch by done.
  destruct (_ && _ && _)%bool eqn:Hc; [|done]. bools. f_equal. pose proof (zlen_nonneg src).
  unfold patch, ztake, zdrop, zlen in *. destruct Hd as [Hd|Hd].
  - rewrite skipn_app, firstn_app, take_drop_commute, length_drop, length_take.
    rewrite take_take. replace ((Z.to_nat (j - i) - (Z.to_nat off `min` length l - Z.to_nat i)))%nat with 0%nat by lia.
    rewrite take_0, app_nil_r, take_drop_commute. f_equal. f_equal. lia.
  - rewrite app_assoc, drop_app_ge by (rewrite length_app, length_take; lia).
    rewrite length_app, length_take, drop_drop. do 2 f_equal. lia.
Qed.
Lemma bytes_ok_patch l off src : bytes_ok l → bytes_ok src → bytes_ok (patch l off src).
Proof. intros. unfold patch. rewrite !bytes_ok_app. auto with bytes. Qed.
Lemma vec_resize_grow l n : zlen l ≤ n → vec_resize l n = l ++ zeros (n - zlen l).
Proof.
  intros H. unfold vec_resize. destruct (Z.leb_spec n (zlen l)); [|done].
  replace n with (zlen l) by lia. by rewrite Z.sub_diag, ztake_all, app_nil_r.
Qed.
#[export] Hint Resolve bytes_ok_patch : bytes.

(** A field of a concatenation, by its position in the list. *)
Lemma get_range_concat (fs : list bytes) n x i j :
  fs !! n = Some x → i = zlen (concat (take n fs)) → j = i + zlen x → get_range (concat fs) i j = Some x.
Proof.
  intros Hn -> ->. rewrite <- (take_drop_middle fs n x Hn) at 1. rewrite concat_app. simpl.
  by apply get_range_app.
Qed.

Arguments le_bytes : simpl never.
Arguments ascii_bytes : simpl never.

(** ** Sums *)
Definition zsum (l : list Z) : Z := foldr Z.add 0 l.
Lemma zsum_app a b : zsum (a ++ b) = zsum a + zsum b.
Proof. unfold zsum. induction a as [|x a IH]; simpl; lia. Qed.
Lemma zsum_perm a b : a ≡ₚ b → zsum a = zsum b.
Proof. unfold zsum. induction 1; simpl in *; lia. Qed.
#[export] Instance zlen_proper {A} : Proper ((≡ₚ) ==> (=)) (@zlen A).
Proof. intros a b Hab. unfold zlen. by rewrite Hab. Qed.
#[export] Instance zsum_proper : Proper ((≡ₚ) ==> (=)) zsum.
Proof. intros a b. apply zsum_perm. Qed.
Lemma zsum_const {A} (f : A → Z) (c : Z) l : (∀ x, x ∈ l → f x = c) → zsum (f <$> l) = zlen l * c.
Proof.
  induction l as [|x l IH]; intros Hf; [done|]. rewrite fmap_cons, zlen_cons. unfold zsum in *. simpl.
  rewrite (Hf x), IH; [lia| |by left]. intros y Hy. apply Hf. by right.
Qed.
Lemma zlen_bind {A B} (f : A → list B) l : zlen (l ≫= f) = zsum ((λ x, zlen (f x)) <$> l).
Proof.
  induction l as [|x l IH]; [done|]. cbn [mbind list_bind]. rewrite zlen_app, fmap_cons.
  unfold zsum in *. simpl. by rewrite <-IH.
Qed.
Lemma zsum_bind {A B} (g : B → Z) (f : A → list B) l :
  zsum (g <$> (l ≫= f)) = zsum ((λ x, zsum (g <$> f x)) <$> l).
Proof.
  induction l as [|x l IH]; [done|]. cbn [mbind list_bind]. rewrite fmap_app, zsum_app, IH. done.
Qed.
