(* ===== verification/Canonical.v ===== *)
(** * The canonical encoder and decoder (crates/kvpack-core/src/canonical.rs)

    [PackError] is error.rs.  An [Encoder] only ever appends to its buffer, so
    each of its methods is modelled by the bytes it appends; the fallible one
    ([string]) returns an outcome.  A [Decoder] is a byte slice and a cursor;
    its methods are computations of the state-and-error monad [Dec].

    The second half is a small program logic for decoders.  [parses m b x]:
    run on a buffer that continues with [b], the decoder [m] consumes exactly
    [b] and returns [x].  [sound m P]: whatever [m] reads, it does not panic,
    and when it returns [x] after consuming [b], [P x b] holds.  The class
    [Codec] is the contract between a wire type and the types that embed it. *)
From Stdlib Require Import ZArith Lia.
From stdpp Require Import base tactics numbers list strings option.
From S2P Require Import Prelude Bytes.

Inductive PackError : Type :=
  | UnknownEnum (what : string) (value : Z)
  | U64Range (what : string)
  | BadMagic (msg : string)
  | Checksum (msg : string)
  | Reserved (msg : string)
  | Truncated (msg : string)
  | Bounds (msg : string)
  | Semantics (msg : string)
  | Graph (msg : string)
  | Authentication (msg : string)
  | Codec_error (msg : string)
  | Poisoned (msg : string).

Abbreviation result := (outcome PackError).

(** [<[u8; n]>::try_from(slice).unwrap()] *)
Definition to_array {E} (n : Z) (l : bytes) : outcome E bytes :=
  if zlen l =? n then Ok l else Panic "try_into on a slice of another length".

(** ** Encoder *)
Definition put_u8 (v : Z) : bytes := le_bytes 1 v.
Definition put_u16 (v : Z) : bytes := le_bytes 2 v.
Definition put_u32 (v : Z) : bytes := le_bytes 4 v.
Definition put_u64 (v : Z) : bytes := le_bytes 8 v.
Definition put_id (v : bytes) : bytes := v.

Definition put_string (value : bytes) : result bytes :=
  len ← ok_or (try_from u16_bound (zlen value)) (Bounds "string is too long");
  mret (put_u16 len ++ value).

(** [for x in xs { x.encode(out)?; }] *)
Fixpoint enc_list {A} (enc : A → result bytes) (xs : list A) : result bytes :=
  match xs with
  | [] => Ok []
  | x :: xs => b ← enc x; bs ← enc_list enc xs; mret (b ++ bs)
  end.
(** The same loop over an infallible encoder. *)
Definition put_list {A} (enc : A → bytes) (xs : list A) : bytes := concat (enc <$> xs).

(** [std::str::from_utf8(..).is_ok()]: the well-formed byte sequences of the
    Unicode standard (no surrogates, no overlong forms, at most U+10FFFF). *)
Definition utf8_tail (lo hi b : Z) : bool := (lo <=? b) && (b <=? hi).
Definition utf8_cont (b : Z) : bool := utf8_tail 128 191 b.
Fixpoint utf8_valid (l : bytes) : bool :=
  match l with
  | [] => true
  | a :: l1 =>
      if a <? 128 then utf8_valid l1 else
      match l1 with
      | [] => false
      | b :: l2 =>
          if utf8_tail 194 223 a then utf8_cont b && utf8_valid l2 else
          match l2 with
          | [] => false
          | c :: l3 =>
              if utf8_tail 224 239 a then
                (if a =? 224 then utf8_tail 160 191 b
                 else if a =? 237 then utf8_tail 128 159 b else utf8_cont b)
                && utf8_cont c && utf8_valid l3
              else
              match l3 with
              | [] => false
              | d :: l4 =>
                  utf8_tail 240 244 a &&
                  (if a =? 240 then utf8_tail 144 191 b
                   else if a =? 244 then utf8_tail 128 143 b else utf8_cont b)
                  && utf8_cont c && utf8_cont d && utf8_valid l4
              end
          end
      end
  end.

(** ** Decoder *)
Record Decoder := mkDecoder { d_bytes : bytes; d_offset : Z }.

Definition Decoder_new (b : bytes) (magic : bytes) : result Decoder :=
  if zlen b <? 8 then Err (Truncated "truncated canonical object") else
  head ← slice b 0 8;
  if negb (bytes_eqb head magic) then Err (BadMagic "invalid canonical object magic")
  else Ok (mkDecoder b 8).

Definition Dec (A : Type) : Type := Decoder → result (A * Decoder).
#[global] Instance Dec_ret : MRet Dec := λ A a d, Ok (a, d).
#[global] Instance Dec_bind : MBind Dec := λ A B f m d,
  '(a, d') ← m d; f a d'.
Definition dec_fail {A} (e : PackError) : Dec A := λ d, Err e.
Definition dec_lift {A} (r : result A) : Dec A := λ d, a ← r; mret (a, d).

Definition dec_take (len : Z) : Dec bytes := λ d,
  stop ← ok_or (checked_add (d_offset d) len) (Bounds "canonical offset overflow");
  value ← ok_or (get_range (d_bytes d) (d_offset d) stop)
            (Truncated "truncated canonical object");
  mret (value, mkDecoder (d_bytes d) stop).
Definition dec_u8 : Dec Z := b ← dec_take 1; dec_lift (index b 0).
Definition dec_u16 : Dec Z := b ← dec_take 2; a ← dec_lift (to_array 2 b); mret (le_val a).
Definition dec_u32 : Dec Z := b ← dec_take 4; a ← dec_lift (to_array 4 b); mret (le_val a).
Definition dec_u64 : Dec Z := b ← dec_take 8; a ← dec_lift (to_array 8 b); mret (le_val a).
Definition dec_id : Dec bytes := b ← dec_take 32; dec_lift (to_array 32 b).
Definition dec_string : Dec bytes :=
  len ← dec_u16;
  value ← dec_take len;
  if negb (utf8_valid value) then dec_fail (Semantics "state name is not UTF-8")
  else mret value.
Definition Decoder_finish (d : Decoder) : result unit :=
  if negb (d_offset d =? zlen (d_bytes d)) then Err (Reserved "trailing canonical bytes")
  else Ok tt.

(** [for _ in 0..count { v.push(decode(input)?); }] *)
Fixpoint dec_repeat {A} (n : nat) (m : Dec A) : Dec (list A) :=
  match n with
  | O => mret []
  | S n => x ← m; xs ← dec_repeat n m; mret (x :: xs)
  end.

(** A 32-byte identifier. *)
Definition id_ok (id : bytes) : Prop := zlen id = 32 ∧ bytes_ok id.
Definition string_ok (s : bytes) : Prop :=
  zlen s < u16_bound ∧ bytes_ok s ∧ utf8_valid s = true.

(** ** Program logic *)
Definition consumed (d : Decoder) (b : bytes) (d' : Decoder) : Prop :=
  d_bytes d' = d_bytes d ∧ d_offset d' = d_offset d + zlen b ∧
  d_offset d' ≤ zlen (d_bytes d) ∧
  zdrop (d_offset d) (d_bytes d) = b ++ zdrop (d_offset d') (d_bytes d).
Definition dec_inv (d : Decoder) : Prop :=
  bytes_ok (d_bytes d) ∧ 0 ≤ d_offset d ≤ zlen (d_bytes d).

Definition sound {A} (m : Dec A) (P : A → bytes → Prop) : Prop :=
  ∀ d, dec_inv d →
  match m d with
  | Ok (x, d') => ∃ b, consumed d b d' ∧ P x b
  | Err _ => True
  | Panic _ => False
  end.

Definition parses {A} (m : Dec A) (b : bytes) (x : A) : Prop :=
  ∀ pre post, slice_len_ok (pre ++ b ++ post) →
  m (mkDecoder (pre ++ b ++ post) (zlen pre)) =
  Ok (x, mkDecoder (pre ++ b ++ post) (zlen pre + zlen b)).

(** The contract of a wire type: every well-formed value encodes, to bytes;
    its encoding decodes to it; and the decoder accepts nothing else. *)
Class Codec {A} (wf : A → Prop) (enc : A → result bytes) (dec : Dec A) : Prop := {
    codec_total : ∀ x, wf x → ∃ b, enc x = Ok b;
    codec_bytes : ∀ x b, wf x → enc x = Ok b → bytes_ok b;
    codec_parses : ∀ x b, wf x → enc x = Ok b → parses dec b x;
    codec_sound : sound dec (λ x b, wf x ∧ enc x = Ok b)
}.

Create HintDb dec.
Create HintDb codec.

Section rules.
Context {A B : Type}.
Implicit Types (m : Dec A) (f : A → Dec B).

Lemma consumed_nil d : dec_inv d → consumed d [] d.
Proof. intros [? ?]. repeat split; zlia. Qed.
Lemma consumed_inv d b d' : dec_inv d → consumed d b d' → dec_inv d' ∧ bytes_ok b.
Proof.
  intros [Hb ?] (He & Ho & ? & Hd). split.
  - split; [congruence|]. rewrite He. zlia.
  - apply (bytes_ok_zdrop (d_offset d)) in Hb. rewrite Hd in Hb.
    apply bytes_ok_app in Hb. tauto.
Qed.
Lemma consumed_app d1 b1 d2 b2 d3 :
  consumed d1 b1 d2 → consumed d2 b2 d3 → consumed d1 (b1 ++ b2) d3.
Proof.
  intros (E1 & O1 & L1 & D1) (E2 & O2 & L2 & D2).
  rewrite E1 in *. repeat split; [congruence|zlia|congruence|].
  rewrite D1, D2. by rewrite app_assoc.
Qed.

Lemma sound_ret (x : A) P : P x [] → sound (mret x) P.
Proof. intros H d Hd. exists []. auto using consumed_nil. Qed.
Lemma sound_fail (e : PackError) (P : A → bytes → Prop) : sound (dec_fail e) P.
Proof. by intros d _. Qed.
Lemma sound_bind m f (P : A → bytes → Prop) (Q : B → bytes → Prop) :
  sound m P →
  (∀ x b1, P x b1 → bytes_ok b1 → sound (f x) (λ y b2, Q y (b1 ++ b2))) →
  sound (m ≫= f) Q.
Proof.
  intros Hm Hf d Hd. specialize (Hm d Hd).
  unfold mbind at 1, Dec_bind. destruct (m d) as [[x d1]|e|w]; simpl; [|done..].
  destruct Hm as (b1 & C1 & HP). destruct (consumed_inv _ _ _ Hd C1) as [Hd1 Hb1].
  specialize (Hf x b1 HP Hb1 d1 Hd1). destruct (f x d1) as [[y d2]|e|w]; [|done..].
  destruct Hf as (b2 & C2 & HQ). exists (b1 ++ b2). eauto using consumed_app.
Qed.
Lemma sound_lift (r : result A) (P : A → bytes → Prop) :
  ¬ panics r → (∀ x, r = Ok x → P x []) → sound (dec_lift r) P.
Proof.
  intros Hn HP d Hd. unfold dec_lift. destruct r as [x|e|w]; simpl in *; [|done..].
  exists []. auto using consumed_nil.
Qed.
Lemma sound_weaken m (P Q : A → bytes → Prop) :
  sound m P → (∀ x b, P x b → bytes_ok b → Q x b) → sound m Q.
Proof.
  intros Hm HPQ d Hd. specialize (Hm d Hd).
  destruct (m d) as [[x d1]|e|w]; [|done..].
  destruct Hm as (b & C & HP). exists b. split; [done|].
  apply HPQ; [done|]. by apply (consumed_inv d b d1).
Qed.
Lemma sound_guard (c : bool) e m (P : A → bytes → Prop) :
  (c = false → sound m P) → sound (if c then dec_fail e else m) P.
Proof. destruct c; auto using sound_fail. Qed.

Lemma parses_ret (x : A) : parses (mret x) [] x.
Proof. intros pre post _. rewrite zlen_nil, Z.add_0_r. done. Qed.
Lemma parses_bind m f b1 b2 x (y : B) :
  parses m b1 x → parses (f x) b2 y → parses (m ≫= f) (b1 ++ b2) y.
Proof.
  intros Hm Hf pre post Hl. unfold mbind, Dec_bind.
  rewrite <- app_assoc in *. rewrite Hm by done. simpl.
  specialize (Hf (pre ++ b1) post). rewrite <- !app_assoc in Hf. rewrite zlen_app in Hf.
  rewrite Hf by done. rewrite !zlen_app. do 3 f_equal. lia.
Qed.
Lemma parses_bind_nil m f b x (y : B) :
  parses m [] x → parses (f x) b y → parses (m ≫= f) b y.
Proof. apply (parses_bind m f [] b). Qed.
Lemma parses_lift (r : result A) x : r = Ok x → parses (dec_lift r) [] x.
Proof. intros -> pre post _. unfold dec_lift. simpl. by rewrite zlen_nil, Z.add_0_r. Qed.
Lemma parses_guard (c : bool) e m b (x : A) :
  c = false → parses m b x → parses (if c then dec_fail e else m) b x.
Proof. by intros ->. Qed.
Lemma parses_nil_r m b x : parses m (b ++ []) x → parses m b x.
Proof. by rewrite app_nil_r. Qed.
End rules.

(** ** Primitive decoders *)
Lemma sound_take n : 0 ≤ n → sound (dec_take n) (λ v b, v = b ∧ zlen b = n).
Proof.
  intros Hn d Hd. unfold dec_take.
  destruct (checked_add _ _) as [stop|] eqn:Ha; simpl; [|done].
  apply checked_add_Some in Ha as [-> _].
  destruct (get_range _ _ _) as [v|] eqn:Hg; simpl; [|done].
  pose proof (get_range_len _ _ _ _ Hg). apply get_range_Some in Hg as (?&?&?&Hv).
  exists v. split; [|split; [done|lia]].
  repeat split; simpl; [lia|done|].
  rewrite Hv. replace (d_offset d + n - d_offset d) with n by lia.
  rewrite <- (ztake_zdrop n (zdrop (d_offset d) (d_bytes d))) at 1. f_equal.
  apply zdrop_zdrop; lia.
Qed.
Lemma parses_take n b : zlen b = n → parses (dec_take n) b b.
Proof.
  intros <- pre post Hl. unfold slice_len_ok in Hl. unfold dec_take; simpl.
  assert (checked_add (zlen pre) (zlen b) = Some (zlen pre + zlen b)) as ->.
  { apply checked_add_Some. unfold u64_bound. split; [done|zlia]. }
  simpl. by rewrite get_range_app by done.
Qed.

Lemma to_array_ok {E} n l : zlen l = n → to_array (E:=E) n l = Ok l.
Proof. intros <-. unfold to_array. by rewrite Z.eqb_refl. Qed.

Lemma sound_le n (m : Dec Z) :
  m = (b ← dec_take (Z.of_nat n); a ← dec_lift (to_array (Z.of_nat n) b); mret (le_val a)) →
  sound m (λ v b, 0 ≤ v < 256 ^ Z.of_nat n ∧ b = le_bytes n v).
Proof.
  intros ->. eapply sound_bind; [apply sound_take; lia|]. intros ? b [-> Hl] Hb. cbv beta.
  eapply sound_bind; [apply sound_lift with (P := λ x c, x = b ∧ c = [])|].
  { rewrite to_array_ok by done. by intros []. }
  { intros x. rewrite to_array_ok by done. naive_solver. }
  intros ? ? [-> ->] _. apply sound_ret. rewrite app_nil_r. split.
  - rewrite <- Hl. by apply le_val_bound.
  - rewrite <- (le_bytes_le_val b Hb) at 1. f_equal. unfold zlen in Hl. lia.
Qed.
Lemma parses_le n v (m : Dec Z) :
  m = (b ← dec_take (Z.of_nat n); a ← dec_lift (to_array (Z.of_nat n) b); mret (le_val a)) →
  0 ≤ v < 256 ^ Z.of_nat n → parses m (le_bytes n v) v.
Proof.
  intros -> Hv. rewrite <- (app_nil_r (le_bytes n v)).
  eapply parses_bind; [apply parses_take, zlen_le_bytes|]. cbv beta.
  eapply parses_bind_nil; [apply parses_lift, to_array_ok, zlen_le_bytes|]. cbv beta.
  rewrite le_val_le_bytes_small by done. apply parses_ret.
Qed.

Lemma sound_u8 : sound dec_u8 (λ v b, in_u8 v ∧ b = put_u8 v).
Proof.
  unfold dec_u8. eapply sound_bind; [apply sound_take; lia|]. intros ? b [-> Hl] Hb.
  destruct b as [|x [|y b]]; [done| |zlia].
  apply bytes_ok_cons in Hb as [Hx _]. apply sound_lift; simpl; [by intros []|].
  intros ? [= <-]. split; [done|]. unfold put_u8. change (le_bytes 1 x) with [x mod 256].
  unfold in_u8, u8_bound in Hx. by rewrite Z.mod_small by lia.
Qed.
Lemma sound_u16 : sound dec_u16 (λ v b, in_u16 v ∧ b = put_u16 v).
Proof. by apply (sound_le 2). Qed.
Lemma sound_u32 : sound dec_u32 (λ v b, in_u32 v ∧ b = put_u32 v).
Proof. by apply (sound_le 4). Qed.
Lemma sound_u64 : sound dec_u64 (λ v b, in_u64 v ∧ b = put_u64 v).
Proof. by apply (sound_le 8). Qed.
Lemma sound_id : sound dec_id (λ v b, id_ok v ∧ b = put_id v).
Proof.
  unfold dec_id. eapply sound_bind; [apply sound_take; lia|]. intros ? b [-> Hl] Hb.
  rewrite to_array_ok by done. apply sound_lift; [by intros []|].
  intros ? [= <-]. rewrite app_nil_r. done.
Qed.

Lemma parses_u8 v : in_u8 v → parses dec_u8 (put_u8 v) v.
Proof.
  intros Hv. unfold dec_u8. rewrite <- (app_nil_r (put_u8 v)).
  eapply parses_bind; [apply parses_take; done|]. apply parses_lift.
  unfold put_u8. change (le_bytes 1 v) with [v mod 256].
  unfold in_u8, u8_bound in Hv. by rewrite Z.mod_small by lia.
Qed.
Lemma parses_u16 v : in_u16 v → parses dec_u16 (put_u16 v) v.
Proof. by apply (parses_le 2). Qed.
Lemma parses_u32 v : in_u32 v → parses dec_u32 (put_u32 v) v.
Proof. by apply (parses_le 4). Qed.
Lemma parses_u64 v : in_u64 v → parses dec_u64 (put_u64 v) v.
Proof. by apply (parses_le 8). Qed.
Lemma parses_id v : id_ok v → parses dec_id (put_id v) v.
Proof.
  intros [Hl _]. unfold dec_id, put_id. rewrite <- (app_nil_r v) at 1.
  eapply parses_bind; [by apply parses_take|]. by apply parses_lift, to_array_ok.
Qed.
#[export] Hint Resolve sound_u8 sound_u16 sound_u32 sound_u64 sound_id : dec.
#[export] Hint Resolve parses_u8 parses_u16 parses_u32 parses_u64 parses_id : dec.

Ltac solve_codec_class := try match goal with |- Codec _ _ _ => apply _ end.
#[export] Hint Extern 2 (sound _ _) => eapply codec_sound; solve_codec_class : dec.
#[export] Hint Extern 2 (parses _ _ _) => eapply codec_parses; solve_codec_class : dec.

(** ** Proof automation for decoders *)

(** A guard that does not fire. *)
Ltac guard_false :=
  repeat first
    [ apply orb_false_intro | apply andb_true_intro; split
    | apply (proj2 (negb_false_iff _)) | apply Z.eqb_refl | apply bytes_eqb_refl
    | apply (proj2 (Z.eqb_eq _ _)) | apply (proj2 (Z.eqb_neq _ _))
    | apply (proj2 (Z.ltb_ge _ _)) | apply (proj2 (Z.ltb_lt _ _))
    | apply (proj2 (Z.leb_gt _ _)) | apply (proj2 (Z.leb_le _ _)) ];
  try done; try lia.

(** Run a decoder over the encoding it is specified to accept. *)
Ltac parse_step :=
  first
    [ apply parses_ret
    | apply parses_guard; [solve [guard_false]|]
    | eapply parses_bind; [solve [eauto with dec]|cbv beta]
    | eapply parses_bind_nil; [apply parses_lift; solve [eauto with dec]|cbv beta] ].
Ltac parse_all := apply parses_nil_r; rewrite <- ?app_assoc; repeat parse_step.

(** Follow the branches of a decoder on unknown input. *)
Ltac sound_step :=
  first
    [ apply sound_guard; let H := fresh "Hg" in intros H
    | apply sound_fail
    | eapply sound_bind; [solve [eauto with dec]|cbv beta; intros ? ? ? ?]
    | apply sound_ret ].
Ltac sound_all := repeat sound_step.

(** ** Strings and lists *)
Lemma put_string_Ok v b :
  put_string v = Ok b ↔ zlen v < u16_bound ∧ b = put_u16 (zlen v) ++ v.
Proof.
  unfold put_string. split.
  - intros H. inv_ok. apply try_from_Some in H as [-> ?]. done.
  - intros [H ->]. unfold try_from. by rewrite (proj2 (Z.ltb_lt _ _)) by done.
Qed.

#[export] Instance string_codec : Codec string_ok put_string dec_string.
Proof.
  split.
  - intros v (Hl & _). eexists. by apply put_string_Ok.
  - intros v b (_ & Hb & _) [_ ->]%put_string_Ok. unfold put_u16. auto with bytes.
  - intros v b (Hl & Hb & Hu) [_ ->]%put_string_Ok. unfold dec_string.
    eapply parses_bind; [apply parses_u16; split; [zlia|done]|]. cbv beta.
    rewrite <- (app_nil_r v) at 2. eapply parses_bind; [by apply parses_take|]. cbv beta.
    rewrite Hu. apply parses_ret.
  - unfold dec_string. eapply sound_bind; [apply sound_u16|]. intros n ? [Hn ->] _.
    eapply sound_bind; [apply sound_take, Hn|]. intros ? v [-> Hv] Hb. cbv beta.
    apply sound_guard. intros Hu. bools. apply sound_ret. rewrite app_nil_r. split.
    + split_and!; [rewrite Hv; apply Hn|done..].
    + apply put_string_Ok. rewrite Hv. split; [apply Hn|done].
Qed.

Section enc_list.
Context {A : Type} (wf : A → Prop) (enc : A → result bytes) (dec : Dec A).
Context `{HC : !Codec wf enc dec}.

Lemma enc_list_total xs : Forall wf xs → ∃ b, enc_list enc xs = Ok b.
Proof.
  induction 1 as [|x xs Hx _ (bs & IH)]; [by eexists|].
  destruct (codec_total x Hx) as [b Hb]. exists (b ++ bs). simpl. by rewrite Hb, IH.
Qed.
Lemma enc_list_bytes xs b : Forall wf xs → enc_list enc xs = Ok b → bytes_ok b.
Proof.
  intros H. revert b. induction H as [|x xs Hx _ IH]; simpl; intros b Hb; inv_ok; subst.
  - constructor.
  - eauto using codec_bytes with bytes.
Qed.
Lemma parses_list xs b n :
  Forall wf xs → enc_list enc xs = Ok b → n = length xs → parses (dec_repeat n dec) b xs.
Proof.
  intros H. revert b n. induction H as [|x xs Hx _ IH]; simpl; intros b n Hb ->; inv_ok; subst.
  - apply parses_ret.
  - cbn [dec_repeat]. eapply parses_bind; [by eapply codec_parses|]. cbv beta.
    match goal with |- parses _ ?b2 _ => rewrite <- (app_nil_r b2) end.
    eapply parses_bind; [by eapply IH|]. apply parses_ret.
Qed.
Lemma sound_list n :
  sound (dec_repeat n dec) (λ xs b, length xs = n ∧ Forall wf xs ∧ enc_list enc xs = Ok b).
Proof.
  induction n as [|n IH]; simpl.
  - apply sound_ret. auto.
  - eapply sound_bind; [apply codec_sound|]. intros x b [Hx Hb] _.
    eapply sound_bind; [apply IH|]. intros xs bs (Hl & Hxs & Hbs) _. apply sound_ret.
    rewrite app_nil_r. split_and!; [simpl; lia|by constructor|]. simpl. by rewrite Hb, Hbs.
Qed.
End enc_list.
#[export] Hint Extern 1 (sound (dec_repeat _ _) _) => eapply sound_list; solve_codec_class : dec.

(** Fixed-width integers and identifiers as codecs. *)
#[export] Instance u32_codec : Codec in_u32 (λ v, Ok (put_u32 v)) dec_u32.
Proof.
  split; [by eexists| |..].
  - intros x b _ [= <-]. apply le_bytes_ok.
  - intros x b H [= <-]. by apply parses_u32.
  - eapply sound_weaken; [apply sound_u32|]. naive_solver.
Qed.
#[export] Instance u64_codec : Codec in_u64 (λ v, Ok (put_u64 v)) dec_u64.
Proof.
  split; [by eexists| |..].
  - intros x b _ [= <-]. apply le_bytes_ok.
  - intros x b H [= <-]. by apply parses_u64.
  - eapply sound_weaken; [apply sound_u64|]. naive_solver.
Qed.
Lemma enc_list_put {A} (f : A → bytes) xs : enc_list (λ v, Ok (f v)) xs = Ok (put_list f xs).
Proof. induction xs as [|x xs IH]; [done|]. simpl. by rewrite IH. Qed.
Lemma put_list_bytes {A} (f : A → bytes) xs :
  (∀ x, x ∈ xs → bytes_ok (f x)) → bytes_ok (put_list f xs).
Proof.
  intros H. unfold put_list. induction xs as [|x xs IH]; [constructor|]. simpl.
  apply bytes_ok_app. split; [apply H; left|]. apply IH. intros. apply H. by right.
Qed.
Lemma zlen_put_list {A} (f : A → bytes) n xs :
  (∀ x, x ∈ xs → zlen (f x) = n) → zlen (put_list f xs) = n * zlen xs.
Proof.
  intros H. induction xs as [|x xs IH].
  - change (0 = n * 0). lia.
  - change (put_list f (x :: xs)) with (f x ++ put_list f xs). rewrite zlen_app, zlen_cons, IH, (H x); [lia|left|]. intros; apply H; by right.
Qed.

(** Encodings are injective, on byte strings a Rust slice can hold. *)
Lemma codec_inj {A} (wf : A → Prop) enc dec `{!Codec wf enc dec} x y b :
  wf x → wf y → enc x = Ok b → enc y = Ok b → slice_len_ok b → x = y.
Proof.
  intros Hx Hy Ex Ey Hl. pose proof (codec_parses x b Hx Ex [] []) as Px.
  pose proof (codec_parses y b Hy Ey [] []) as Py. rewrite app_nil_r in *.
  specialize (Px Hl). rewrite (Py Hl) in Px. congruence.
Qed.

(** ** Whole objects: magic, body, end of input *)
Lemma Decoder_new_Ok b magic d :
  Decoder_new b magic = Ok d ↔ 8 ≤ zlen b ∧ ztake 8 b = magic ∧ d = mkDecoder b 8.
Proof.
  unfold Decoder_new. split.
  - intros H. inv_ok. bools. apply slice_Ok, get_range_Some in H as (_&_&?&->).
    match goal with H : bytes_eqb _ _ = true |- _ => apply bytes_eqb_eq in H end.
    naive_solver.
  - intros (Hl & Hm & ->). rewrite (proj2 (Z.ltb_ge _ _)) by done.
    assert (slice (E:=PackError) b 0 8 = Ok (ztake 8 b)) as ->.
    { apply slice_Ok, get_range_Some. done. }
    simpl. by rewrite Hm, bytes_eqb_refl.
Qed.
Lemma Decoder_new_no_panic b magic : ¬ panics (Decoder_new b magic).
Proof.
  unfold Decoder_new. destruct (zlen b <? 8) eqn:E; [by intros []|]. bools.
  apply bind_no_panic; [apply slice_no_panic; lia|]. intros. by case_match; intros [].
Qed.
Lemma Decoder_finish_Ok d : Decoder_finish d = Ok tt ↔ d_offset d = zlen (d_bytes d).
Proof. unfold Decoder_finish. case_match; bools; naive_solver. Qed.

(** Decoding a whole object from its magic to its last byte. *)
Lemma run_parses {A} (m : Dec A) magic b x :
  zlen magic = 8 → slice_len_ok (magic ++ b) → parses m b x →
  Decoder_new (magic ++ b) magic = Ok (mkDecoder (magic ++ b) 8) ∧
  ∃ d, m (mkDecoder (magic ++ b) 8) = Ok (x, d) ∧ Decoder_finish d = Ok tt.
Proof.
  intros Hm Hl Hp. split.
  - apply Decoder_new_Ok. rewrite ztake_app_exact by done. split_and!; [zlia|done..].
  - specialize (Hp magic []). rewrite !app_nil_r in Hp. rewrite Hm in Hp. rewrite Hp by done.
    eexists; split; [done|]. apply Decoder_finish_Ok; simpl. zlia.
Qed.
Lemma run_sound {A} (m : Dec A) (P : A → bytes → Prop) b magic d0 x d1 :
  bytes_ok b → Decoder_new b magic = Ok d0 → sound m P →
  m d0 = Ok (x, d1) → Decoder_finish d1 = Ok tt →
  ∃ body, b = magic ++ body ∧ P x body.
Proof.
  intros Hb (Hl & Hm & ->)%Decoder_new_Ok Hs Hrun Hf%Decoder_finish_Ok.
  specialize (Hs (mkDecoder b 8)). rewrite Hrun in Hs.
  destruct Hs as (body & (He & Ho & _ & Hd) & HP); [split; simpl; [done|lia]|].
  simpl in *. rewrite He in Hf. rewrite Hf, (zdrop_all (zlen b)), app_nil_r in Hd by done.
  exists body. split; [|done]. rewrite <- (ztake_zdrop 8 b). by rewrite Hm, Hd.
Qed.
Lemma run_no_panic {A} (m : Dec A) (P : A → bytes → Prop) b magic d0 :
  bytes_ok b → Decoder_new b magic = Ok d0 → sound m P → ¬ panics (m d0).
Proof.
  intros Hb (Hl & Hm & ->)%Decoder_new_Ok Hs. specialize (Hs (mkDecoder b 8)).
  destruct (m _) as [[]|e|w]; simpl; try by intros [].
  intros _. apply Hs. split; simpl; [done|lia].
Qed.

(** Encoded fields are bytes. *)
Lemma try_from_ok bound v (e : PackError) : v < bound → ok_or (try_from bound v) e = Ok v.
Proof. intros H. unfold try_from. by rewrite (proj2 (Z.ltb_lt _ _)). Qed.
Lemma put_u8_bytes v : bytes_ok (put_u8 v). Proof. apply le_bytes_ok. Qed.
Lemma put_u16_bytes v : bytes_ok (put_u16 v). Proof. apply le_bytes_ok. Qed.
Lemma put_u32_bytes v : bytes_ok (put_u32 v). Proof. apply le_bytes_ok. Qed.
Lemma put_u64_bytes v : bytes_ok (put_u64 v). Proof. apply le_bytes_ok. Qed.
Lemma put_id_bytes v : id_ok v → bytes_ok (put_id v). Proof. by intros []. Qed.
#[export] Hint Resolve put_u8_bytes put_u16_bytes put_u32_bytes
  put_u64_bytes put_id_bytes : bytes.
Ltac bytes_ok_app_all :=
  repeat match goal with |- bytes_ok (_ ++ _) => apply bytes_ok_app; split end;
  auto with bytes.

(** ** Closing a [Codec] proof *)
Ltac range_lia :=
  unfold in_u8, in_u16, in_u32, in_u64, u8_bound, u16_bound, u32_bound, u64_bound in *; lia.

(** The counts that prefix a list on the wire. *)
Lemma length_Z_to_nat {A} (xs : list A) : Z.to_nat (zlen xs) = length xs.
Proof. unfold zlen. lia. Qed.
Lemma zlen_of_length {A} (xs : list A) n : length xs = Z.to_nat n → 0 ≤ n → zlen xs = n.
Proof. unfold zlen. lia. Qed.

(** After [sound_all]: name the consumed bytes by the fields that were read. *)
Ltac sound_fields :=
  destruct_and?; bools; subst;
  repeat match goal with
  | H : length ?xs = Z.to_nat ?n |- _ =>
      apply zlen_of_length in H; [subst n|solve [range_lia]]
  | H : enc_list (λ v, Ok _) _ = Ok _ |- _ => rewrite enc_list_put in H; apply Ok_inj in H
  end; subst.
Ltac encode_eqs :=
  repeat match goal with H : ?e = Ok _ |- context [?e] => rewrite H end;
  simpl; rewrite ?try_from_ok by (solve [range_lia]); simpl; rewrite ?app_nil_r.

(** ** Canonical objects

    The shape every [decode_canonical] has: open the object by its magic, run
    the body decoder, demand the end of input, then encode the value again and
    compare.  [canonical_decode_fast] is the same without the last step. *)
Definition canonical_decode {A} (magic : bytes) (m : Dec A) (enc : A → result bytes)
    (e : PackError) (b : bytes) : result A :=
  input ← Decoder_new b magic;
  '(value, input) ← m input;
  _ ← Decoder_finish input;
  again ← enc value;
  if negb (bytes_eqb again b) then Err e else Ok value.
Definition canonical_decode_fast {A} (magic : bytes) (m : Dec A) (b : bytes) : result A :=
  input ← Decoder_new b magic;
  '(value, input) ← m input;
  _ ← Decoder_finish input;
  mret value.

Section canonical_decode.
Context {A : Type} (magic : bytes) (wf : A → Prop) (body : A → result bytes) (m : Dec A).
Context (enc : A → result bytes) (e : PackError).
Context `{HC : !Codec wf body m}.
Hypothesis Hmagic : zlen magic = 8.
Hypothesis Henc : ∀ x, enc x = x' ← body x; mret (magic ++ x').

Lemma canonical_decode_encode x b :
  wf x → enc x = Ok b → slice_len_ok b → canonical_decode magic m enc e b = Ok x.
Proof.
  intros Hx Hb Hl. pose proof Hb as Hb'. rewrite Henc in Hb. inv_ok. subst b.
  destruct (run_parses m magic x0 x) as (Hn & d & Hr & Hf); [done..| |].
  { by eapply codec_parses. }
  unfold canonical_decode. rewrite Hn. simpl. rewrite Hr. simpl. rewrite Hf. simpl.
  rewrite Hb'. simpl. by rewrite bytes_eqb_refl.
Qed.
(** The final comparison never fires: the decoder is already injective. *)
Lemma canonical_decode_recheck b :
  bytes_ok b → canonical_decode magic m enc e b = canonical_decode_fast magic m b.
Proof.
  intros Hb. unfold canonical_decode, canonical_decode_fast.
  destruct (Decoder_new b magic) as [d0|?|?] eqn:Hn; [|done..]. simpl.
  destruct (m d0) as [[x d]|?|?] eqn:Hr; [|done..]. simpl.
  destruct (Decoder_finish d) as [[]|?|?] eqn:Hf; [|done..]. simpl.
  destruct (run_sound m _ b magic d0 x d Hb Hn codec_sound Hr Hf) as (body' & -> & _ & Hx).
  rewrite Henc, Hx. simpl. by rewrite bytes_eqb_refl.
Qed.
Lemma canonical_decode_Ok b x :
  bytes_ok b → canonical_decode magic m enc e b = Ok x → wf x ∧ enc x = Ok b.
Proof.
  intros Hb H. rewrite canonical_decode_recheck in H by done.
  unfold canonical_decode_fast in H. inv_ok. destruct x1 as [y d]. inv_ok. subst. destruct x1.
  destruct (run_sound m _ b magic _ x d Hb H codec_sound H0 H1) as (body' & -> & ? & Hy).
  by rewrite Henc, Hy.
Qed.
Lemma canonical_decode_no_panic b : bytes_ok b → ¬ panics (canonical_decode magic m enc e b).
Proof.
  intros Hb. rewrite canonical_decode_recheck by done. unfold canonical_decode_fast.
  apply bind_no_panic; [apply Decoder_new_no_panic|]. intros d0 Hd.
  apply bind_no_panic; [eapply run_no_panic; [done..|apply codec_sound]|]. intros [x d] _.
  apply bind_no_panic; [|by intros ? _ []]. unfold Decoder_finish. by case_match; intros [].
Qed.
End canonical_decode.

Arguments put_u8 : simpl never.
Arguments put_u16 : simpl never.
Arguments put_u32 : simpl never.
Arguments put_u64 : simpl never.
Arguments put_id : simpl never.
