(* ===== verification/Wire.v ===== *)
(** * Constants and closed wire enumerations
    (crates/kvpack-core/src/consts.rs and enums.rs)

    Each [wire_enum!] invocation is an inductive type with the two methods the
    macro generates.  [from_wire] fails closed on every other 16-bit value. *)
From Stdlib Require Import ZArith Lia.
From stdpp Require Import base tactics numbers list strings option.
From S2P Require Import Prelude Bytes Canonical.

Definition ALIGNMENT : Z := 4096.
Definition CHUNK_HEADER_BYTES : Z := ALIGNMENT.
Definition PACK_HEADER_BYTES : Z := ALIGNMENT.
Definition PACK_FOOTER_BYTES : Z := ALIGNMENT.
Definition MAX_CHUNK_PLAINTEXT : Z := 4 * 1024 * 1024.
Definition CODEC_FRAME_HEADER_BYTES : Z := 16.
Definition MAX_CODEC_OVERHEAD : Z :=
  CODEC_FRAME_HEADER_BYTES + div_ceil MAX_CHUNK_PLAINTEXT 128.
Definition MAX_CHUNK_OBJECT_BYTES : Z :=
  CHUNK_HEADER_BYTES + MAX_CHUNK_PLAINTEXT + MAX_CODEC_OVERHEAD + 16 + ALIGNMENT.
Definition MAX_RANK : Z := 8.
Definition MAX_DELTA_DEPTH : Z := 7.
Definition PREFIX_BLOCK_TOKENS : Z := 256.
Definition MAX_CUT_CHAIN_CUTS : Z := 512.
Definition MAX_STATE_NAME_BYTES : Z := 255.
Definition MAX_STATES : Z := 65536.
Definition MAX_ATOMIC_GROUPS : Z := MAX_STATES.
Definition MAX_CHUNKS_PER_STATE : Z := 65536.
Definition MAX_DEPENDENCIES_PER_STATE : Z := 64.
Definition MAX_MANIFEST_BYTES : Z := 256 * 1024 * 1024.
Definition ZERO_ID : bytes := zeros 32.

Definition PACK_MAGIC : bytes := ascii_bytes "KVPKP1" ++ [0; 0].
Definition CHUNK_MAGIC : bytes := ascii_bytes "KVCHK1" ++ [0; 0].
Definition FOOTER_MAGIC : bytes := ascii_bytes "KVCMT1" ++ [0; 0].
Definition MANIFEST_MAGIC : bytes := ascii_bytes "KVMNF1" ++ [0; 0].
Definition FAMILY_MAGIC : bytes := ascii_bytes "KVFAM1" ++ [0; 0].
Definition SCHEMA_MAGIC : bytes := ascii_bytes "KVRCS1" ++ [0; 0].
Definition STATE_SCHEMA_MAGIC : bytes := ascii_bytes "KVSTS1" ++ [0; 0].
Definition STATS_SIDECAR_MAGIC : bytes := ascii_bytes "KVSSC1" ++ [0; 0].
Definition QUANT_K_MAGIC : bytes := ascii_bytes "KVQK1" ++ [0; 0; 0].
Definition QUANT_V_MAGIC : bytes := ascii_bytes "KVQV1" ++ [0; 0; 0].
Definition RAW_FRAME_MAGIC : bytes := ascii_bytes "KVRAW1" ++ [0; 0].
Definition LOSSLESS_FRAME_MAGIC : bytes := ascii_bytes "KVRLE1" ++ [0; 0].
Definition WIRE_VERSION : Z := 1.
Definition FLAG_ENCRYPTED : Z := 1.
Definition KNOWN_FLAGS : Z := FLAG_ENCRYPTED.
Definition CHUNK_HEADER_SIDECAR_OFFSET : Z := 236.
Definition MAX_STATS_SIDECAR_BYTES : Z :=
  CHUNK_HEADER_BYTES - CHUNK_HEADER_SIDECAR_OFFSET - 2.

Inductive CacheKind := OrdinaryKv.
Definition CacheKind_from_wire (v : Z) : result CacheKind :=
  if v =? 1 then Ok OrdinaryKv else Err (UnknownEnum "cache kind" v).
Definition CacheKind_wire (k : CacheKind) : Z := 1.

Inductive DType := U8 | U32 | I8 | I16 | I32 | F16 | Bf16 | F32 | F64.
Definition DType_from_wire (v : Z) : result DType :=
  if v =? 1 then Ok U8 else if v =? 2 then Ok U32 else if v =? 3 then Ok I8
  else if v =? 4 then Ok I16 else if v =? 5 then Ok I32 else if v =? 6 then Ok F16
  else if v =? 7 then Ok Bf16 else if v =? 8 then Ok F32 else if v =? 9 then Ok F64
  else Err (UnknownEnum "dtype" v).
Definition DType_wire (d : DType) : Z :=
  match d with
  | U8 => 1 | U32 => 2 | I8 => 3 | I16 => 4 | I32 => 5
  | F16 => 6 | Bf16 => 7 | F32 => 8 | F64 => 9
  end.
(** The source's [Option<u64>]; every variant has a width. *)
Definition width_bytes (d : DType) : option Z :=
  match d with
  | U8 | I8 => Some 1
  | I16 | F16 | Bf16 => Some 2
  | U32 | I32 | F32 => Some 4
  | F64 => Some 8
  end.

Inductive Codec_kind := Raw | Lossless.
Definition Codec_from_wire (v : Z) : result Codec_kind :=
  if v =? 1 then Ok Raw else if v =? 2 then Ok Lossless else Err (UnknownEnum "codec" v).
Definition Codec_wire (c : Codec_kind) : Z := match c with Raw => 1 | Lossless => 2 end.

Inductive Layout := Contiguous | Strided.
Definition Layout_from_wire (v : Z) : result Layout :=
  if v =? 1 then Ok Contiguous else if v =? 2 then Ok Strided
  else Err (UnknownEnum "layout" v).
Definition Layout_wire (l : Layout) : Z := match l with Contiguous => 1 | Strided => 2 end.

Inductive RepresentationMode := Native | Portable.
Definition RepresentationMode_from_wire (v : Z) : result RepresentationMode :=
  if v =? 1 then Ok Native else if v =? 2 then Ok Portable
  else Err (UnknownEnum "representation mode" v).
Definition RepresentationMode_wire (m : RepresentationMode) : Z :=
  match m with Native => 1 | Portable => 2 end.

Inductive TokenAxisRule := Direct | Gather | TailWindow.
Definition TokenAxisRule_from_wire (v : Z) : result TokenAxisRule :=
  if v =? 1 then Ok Direct else if v =? 2 then Ok Gather else if v =? 3 then Ok TailWindow
  else Err (UnknownEnum "token axis rule" v).
Definition TokenAxisRule_wire (r : TokenAxisRule) : Z :=
  match r with Direct => 1 | Gather => 2 | TailWindow => 3 end.

#[export] Instance DType_eq_dec : EqDecision DType.
Proof. solve_decision. Defined.
#[export] Instance Codec_kind_eq_dec : EqDecision Codec_kind.
Proof. solve_decision. Defined.
#[export] Instance Layout_eq_dec : EqDecision Layout.
Proof. solve_decision. Defined.
#[export] Instance RepresentationMode_eq_dec : EqDecision RepresentationMode.
Proof. solve_decision. Defined.
#[export] Instance TokenAxisRule_eq_dec : EqDecision TokenAxisRule.
Proof. solve_decision. Defined.
#[export] Instance CacheKind_eq_dec : EqDecision CacheKind.
Proof. solve_decision. Defined.

(** ** Enumerations as 16-bit fields

    [wire_enum] is what the macro promises: the wire value fits 16 bits, decodes
    to the variant, and every accepted value is the wire value of its variant. *)
Class WireEnum {A} (wire : A → Z) (from_wire : Z → result A) : Prop := {
    wire_u16 : ∀ x, in_u16 (wire x);
    from_wire_wire : ∀ x, from_wire (wire x) = Ok x;
    from_wire_Ok : ∀ v x, from_wire v = Ok x → v = wire x;
    from_wire_no_panic : ∀ v, ¬ panics (from_wire v)
}.
Definition dec_enum {A} (from_wire : Z → result A) : Dec A :=
  v ← dec_u16; dec_lift (from_wire v).
Definition put_enum {A} (wire : A → Z) (x : A) : bytes := put_u16 (wire x).

Ltac solve_wire_enum :=
  split;
  [ intros []; split; vm_compute; congruence
  | by intros []
  | intros v x H; match type of H with ?f _ = _ => unfold f in H end;
    repeat case_match; bools; naive_solver
  | intros v; match goal with |- ¬ panics (?f _) => unfold f end;
    repeat case_match; by intros [] ].

#[export] Instance CacheKind_enum : WireEnum CacheKind_wire CacheKind_from_wire.
Proof. solve_wire_enum. Qed.
#[export] Instance DType_enum : WireEnum DType_wire DType_from_wire.
Proof. solve_wire_enum. Qed.
#[export] Instance Codec_enum : WireEnum Codec_wire Codec_from_wire.
Proof. solve_wire_enum. Qed.
#[export] Instance Layout_enum : WireEnum Layout_wire Layout_from_wire.
Proof. solve_wire_enum. Qed.
#[export] Instance RepresentationMode_enum :
  WireEnum RepresentationMode_wire RepresentationMode_from_wire.
Proof. solve_wire_enum. Qed.
#[export] Instance TokenAxisRule_enum : WireEnum TokenAxisRule_wire TokenAxisRule_from_wire.
Proof. solve_wire_enum. Qed.

Lemma parses_enum {A} (wire : A → Z) from_wire x `{!WireEnum wire from_wire} :
  parses (dec_enum from_wire) (put_enum wire x) x.
Proof.
  unfold dec_enum, put_enum. rewrite <- (app_nil_r (put_u16 _)).
  eapply parses_bind; [apply parses_u16, wire_u16|]. apply parses_lift, from_wire_wire.
Qed.
Lemma sound_enum {A} (wire : A → Z) from_wire `{!WireEnum wire from_wire} :
  sound (dec_enum from_wire) (λ x b, b = put_enum wire x).
Proof.
  unfold dec_enum. eapply sound_bind; [apply sound_u16|]. intros v ? [Hv ->] _.
  apply sound_lift; [apply from_wire_no_panic|]. intros x Hx%from_wire_Ok.
  by rewrite app_nil_r, Hx.
Qed.
#[export] Hint Extern 1 (parses (dec_enum _) _ _) => eapply parses_enum; apply _ : dec.
#[export] Hint Extern 1 (sound (dec_enum _) _) => eapply sound_enum; apply _ : dec.

Lemma put_enum_bytes {A} (wire : A → Z) x : bytes_ok (put_enum wire x).
Proof. apply le_bytes_ok. Qed.
#[export] Hint Resolve put_enum_bytes : bytes.
