(* ===== verification/State.v ===== *)
(** * Shapes and state keys (crates/kvpack-core/src/manifest.rs, first part)

    A [Shape] keeps Rust's fixed eight slots and the rank; unused slots are
    zero.  A [StateKey] orders by layer, then by the bytes of its name. *)
From Stdlib Require Import ZArith Lia.
From stdpp Require Import base tactics numbers list strings option.
From S2P Require Import Prelude Bytes Canonical Wire.

Record Shape := mkShape { sh_slots : list Z; sh_rank : Z }.

Definition Shape_new (dims : list Z) : result Shape :=
  if (zlen dims =? 0) || (MAX_RANK <? zlen dims) then
    Err (Bounds "state rank must be in 1..=8")
  else if existsb (λ d, d =? 0) dims then
    Err (Bounds "state dimensions must be nonzero")
  else Ok (mkShape (dims ++ zeros (MAX_RANK - zlen dims)) (zlen dims)).

Definition Shape_dims (s : Shape) : list Z := ztake (sh_rank s) (sh_slots s).

(** [iter().try_fold(1, |p, v| p.checked_mul(v).ok_or(error))] *)
Fixpoint product_from (acc : Z) (e : PackError) (values : list Z) : result Z :=
  match values with
  | [] => Ok acc
  | v :: values =>
      acc' ← ok_or (checked_mul acc v) e;
      product_from acc' e values
  end.

Definition element_count (s : Shape) : result Z :=
  product_from 1 (Bounds "shape element count overflows u64") (Shape_dims s).

Definition Shape_decode : Dec Shape :=
  rank ← dec_u8;
  if (rank =? 0) || (MAX_RANK <? rank) then dec_fail (Bounds "state rank must be in 1..=8")
  else
    dims ← dec_repeat (Z.to_nat rank) dec_u64;
    dec_lift (Shape_new dims).

Definition Shape_encode (s : Shape) : bytes :=
  put_u8 (sh_rank s) ++ put_list put_u64 (Shape_dims s).

Record StateKey := mkStateKey { layer : Z; state_name : bytes }.

Definition StateKey_encode (k : StateKey) : result bytes :=
  name ← put_string (state_name k);
  mret (put_u32 (layer k) ++ name).

Definition StateKey_decode : Dec StateKey :=
  l ← dec_u32;
  n ← dec_string;
  mret (mkStateKey l n).

Definition StateKey_cmp (a b : StateKey) : comparison :=
  match Z.compare (layer a) (layer b) with
  | Eq => bytes_cmp (state_name a) (state_name b)
  | c => c
  end.
Definition StateKey_ltb (a b : StateKey) : bool :=
  match StateKey_cmp a b with Lt => true | _ => false end.
Definition StateKey_geb (a b : StateKey) : bool := negb (StateKey_ltb a b).

#[export] Instance Shape_eq_dec : EqDecision Shape.
Proof. solve_decision. Defined.
#[export] Instance StateKey_eq_dec : EqDecision StateKey.
Proof. solve_decision. Defined.

(** ** Well-formedness: what the Rust types and constructors guarantee *)
Definition dim_ok (d : Z) : Prop := 0 < d ∧ in_u64 d.
Definition Shape_ok (s : Shape) : Prop :=
  0 < sh_rank s ≤ MAX_RANK ∧ zlen (sh_slots s) = MAX_RANK ∧
  Forall dim_ok (Shape_dims s) ∧
  sh_slots s = Shape_dims s ++ zeros (MAX_RANK - sh_rank s).
Definition StateKey_ok (k : StateKey) : Prop := in_u32 (layer k) ∧ string_ok (state_name k).

(** ** Shapes *)
Lemma existsb_zero_false dims : existsb (λ d, d =? 0) dims = false ↔ Forall (λ d, d ≠ 0) dims.
Proof.
  induction dims as [|d dims IH]; simpl; [split; [constructor|done]|].
  rewrite orb_false_iff, Z.eqb_neq, IH, Forall_cons_iff. done.
Qed.

Lemma Shape_new_Ok dims s :
  Shape_new dims = Ok s ↔
  0 < zlen dims ≤ MAX_RANK ∧ Forall (λ d, d ≠ 0) dims ∧
  s = mkShape (dims ++ zeros (MAX_RANK - zlen dims)) (zlen dims).
Proof.
  unfold Shape_new. split.
  - intros H. inv_ok. bools. apply existsb_zero_false in Hg0. split_and!; [zlia|zlia|done..].
  - intros (Hl & Hd & ->). rewrite (proj2 (orb_false_iff _ _)).
    + by rewrite (proj2 (existsb_zero_false _)).
    + by split; [apply Z.eqb_neq|apply Z.ltb_ge]; zlia.
Qed.
Lemma Shape_new_no_panic dims : ¬ panics (Shape_new dims).
Proof. unfold Shape_new. repeat case_match; by intros []. Qed.
Lemma Shape_dims_new dims s : Shape_new dims = Ok s → Shape_dims s = dims.
Proof. intros (_ & _ & ->)%Shape_new_Ok. unfold Shape_dims; simpl. by apply ztake_app_exact. Qed.
Lemma Shape_ok_rank s : Shape_ok s → zlen (Shape_dims s) = sh_rank s.
Proof. intros (H1 & H2 & _). apply zlen_ztake. lia. Qed.
(** The constructor accepts exactly the dimension lists of well-formed shapes. *)
Lemma Shape_new_dims s : Shape_ok s → Shape_new (Shape_dims s) = Ok s.
Proof.
  intros Hs. pose proof (Shape_ok_rank s Hs) as Hr. destruct Hs as (H1 & _ & H2 & H3).
  apply Shape_new_Ok. rewrite Hr. split; [done|split].
  - revert H2. apply Forall_impl. intros d [? _]. lia.
  - rewrite <- H3. by destruct s.
Qed.
Lemma Shape_new_ok dims s : Forall in_u64 dims → Shape_new dims = Ok s → Shape_ok s.
Proof.
  intros Hd Hs. pose proof (Shape_dims_new _ _ Hs) as He.
  apply Shape_new_Ok in Hs as (Hl & Hz & ->). unfold Shape_ok. rewrite He. simpl. split_and!; try lia.
  - rewrite zlen_app, zlen_zeros by lia. lia.
  - apply Forall_forall. intros d Hin. rewrite Forall_forall in Hd, Hz.
    specialize (Hd d Hin). specialize (Hz d Hin). unfold dim_ok, in_u64 in *. lia.
  - done.
Qed.

#[export] Instance Shape_codec : Codec Shape_ok (λ s, Ok (Shape_encode s)) Shape_decode.
Proof.
  split.
  - by eexists.
  - intros s b _ [= <-]. unfold Shape_encode, put_u8. apply bytes_ok_app.
    split; [apply le_bytes_ok|]. apply put_list_bytes. intros. apply le_bytes_ok.
  - intros s b Hs [= <-]. unfold Shape_decode, Shape_encode.
    pose proof (Shape_ok_rank s Hs). destruct Hs as (Hr & Hz & Hd & Hsl).
    eapply parses_bind; [apply parses_u8; unfold in_u8, u8_bound, MAX_RANK in *; lia|].
    cbv beta. apply parses_guard; [guard_false|]. rewrite <- (app_nil_r (put_list _ _)).
    eapply parses_bind.
    + apply (parses_list in_u64 (λ v, Ok (put_u64 v)) dec_u64); [|apply enc_list_put|unfold zlen in *; lia].
      revert Hd. apply Forall_impl. by intros d [_ ?].
    + by apply parses_lift, Shape_new_dims.
  - unfold Shape_decode. eapply sound_bind; [apply sound_u8|]. intros rank ? [Hr ->] _.
    apply sound_guard. intros Hg. bools.
    eapply sound_bind; [eapply sound_list, u64_codec|]. intros dims b (Hl & Hd & He) _.
    apply sound_lift; [apply Shape_new_no_panic|]. intros s Hs. split; [by eapply Shape_new_ok|].
    rewrite app_nil_r. unfold Shape_encode. rewrite (Shape_dims_new _ _ Hs).
    rewrite enc_list_put in He. injection He as <-.
    apply Shape_new_Ok in Hs as (_ & _ & ->). simpl. do 2 f_equal.
    unfold zlen. rewrite Hl. unfold in_u8 in Hr. f_equal. lia.
Qed.

(** ** State keys *)
#[export] Instance StateKey_codec : Codec StateKey_ok StateKey_encode StateKey_decode.
Proof.
  split.
  - intros k [_ [Hn _]]. unfold StateKey_encode. unfold put_string, try_from.
    rewrite (proj2 (Z.ltb_lt _ _)) by done. by eexists.
  - intros k b [_ Hk] H. unfold StateKey_encode in H. inv_ok. subst.
    eapply codec_bytes in H; [|done]. unfold put_u32. auto with bytes.
  - intros k b [Hl Hk] H. unfold StateKey_encode in H. inv_ok. subst.
    unfold StateKey_decode. destruct k; cbn [layer state_name] in *. parse_all.
  - unfold StateKey_decode. sound_all. destruct H as [? ->], H1 as [? He].
    split; [done|]. unfold StateKey_encode; simpl. rewrite He. simpl. by rewrite app_nil_r.
Qed.

Lemma StateKey_cmp_eq a b : StateKey_cmp a b = Eq ↔ a = b.
Proof.
  unfold StateKey_cmp. destruct a as [l n], b as [l' n']; simpl.
  destruct (Z.compare_spec l l'); subst; [rewrite bytes_cmp_eq; naive_solver|..];
    (split; [done|]); intros [=]; lia.
Qed.
Lemma StateKey_cmp_antisym a b : StateKey_cmp b a = CompOpp (StateKey_cmp a b).
Proof.
  unfold StateKey_cmp. rewrite (Z.compare_antisym (layer a)).
  destruct (Z.compare_spec (layer a) (layer b)); simpl; auto using bytes_cmp_antisym.
Qed.
Lemma StateKey_ltb_trans a b c : StateKey_ltb a b = true → StateKey_ltb b c = true → StateKey_ltb a c = true.
Proof.
  unfold StateKey_ltb. destruct (StateKey_cmp a b) eqn:H1, (StateKey_cmp b c) eqn:H2; try done.
  intros _ _. revert H1 H2. unfold StateKey_cmp.
  destruct (Z.compare_spec (layer a) (layer b)) as [E1|E1|E1];
    destruct (Z.compare_spec (layer b) (layer c)) as [E2|E2|E2];
    destruct (Z.compare_spec (layer a) (layer c)) as [E3|E3|E3]; try done; try lia.
  intros H1 H2. by rewrite (bytes_cmp_trans _ _ _ H1 H2).
Qed.
Lemma StateKey_ltb_irrefl a : StateKey_ltb a a = false.
Proof. unfold StateKey_ltb. by rewrite (proj2 (StateKey_cmp_eq a a)). Qed.
Lemma StateKey_ltb_total a b : StateKey_ltb a b = false → a = b ∨ StateKey_ltb b a = true.
Proof.
  unfold StateKey_ltb. rewrite (StateKey_cmp_antisym a b).
  destruct (StateKey_cmp a b) eqn:H; simpl; try done; [|by right].
  left. by apply StateKey_cmp_eq.
Qed.

(** ** Checked products *)
Lemma product_from_Ok acc e vs p :
  0 ≤ acc → Forall (λ v, 0 ≤ v) vs →
  product_from acc e vs = Ok p → p = foldr Z.mul acc vs.
Proof.
  intros Ha Hv. revert acc Ha. induction Hv as [|v vs Hv _ IH]; simpl; intros acc Ha H; inv_ok; [done|].
  match goal with H : checked_mul _ _ = Some _ |- _ => apply checked_mul_Some in H as [-> _] end.
  rewrite (IH (acc * v)) by (auto; nia). clear.
  induction vs as [|w vs IH]; simpl; [lia|]. rewrite IH. lia.
Qed.
Lemma product_from_no_panic acc e vs : ¬ panics (product_from acc e vs).
Proof.
  revert acc. induction vs as [|v vs IH]; simpl; intros acc; [by intros []|].
  apply bind_no_panic; auto using ok_or_no_panic.
Qed.
