(* ===== verification/Identity.v ===== *)
(** * Identity components (crates/kvpack-core/src/identity.rs)

    The semantic model, the input cut, the static representation family and
    its per-state compatibility record, with their canonical encodings. *)
From Stdlib Require Import ZArith Lia.
From stdpp Require Import base tactics numbers list strings option.
From S2P Require Import Prelude Bytes Canonical Wire State.

Record SemanticModelId := mkSemanticModelId {
    weights_config : bytes;
    adapters : bytes;
    tokenizer_template : bytes;
    position_semantics : bytes;
    qualified_math : bytes
}.

Record InputCutId := mkInputCutId {
    token_root : bytes;
    auxiliary_input_root : bytes;
    token_count : Z
}.

Record AuxiliaryInputId := mkAuxiliaryInputId { type_id : bytes; value_id : bytes }.

Inductive StaticDimension := Token | Fixed (value : Z).

Record FamilyState := mkFamilyState {
    fs_key : StateKey;
    fs_cache_kind : CacheKind;
    fs_dtype : DType;
    fs_codec : Codec_kind;
    fs_codec_version : Z;
    fs_layout : Layout;
    fs_token_axis_rule : TokenAxisRule;
    fs_token_axis : Z;
    fs_elements_per_token : Z;
    fs_dimensions : list StaticDimension;
    fs_dependencies : list StateKey
}.

Record RepresentationFamilyId := mkRepresentationFamilyId {
    engine_cache_abi : bytes;
    mode : RepresentationMode;
    page_size_tokens : Z;
    topology : bytes;
    shard_map : bytes;
    family_states : list FamilyState
}.

Definition encode_semantic (v : SemanticModelId) : bytes :=
  put_id (weights_config v) ++ put_id (adapters v) ++ put_id (tokenizer_template v) ++
  put_id (position_semantics v) ++ put_id (qualified_math v).

Definition decode_semantic : Dec SemanticModelId :=
  w ← dec_id; a ← dec_id; t ← dec_id; p ← dec_id; q ← dec_id;
  mret (mkSemanticModelId w a t p q).

Definition dimension_wire (d : StaticDimension) : Z :=
  match d with Token => 0 | Fixed value => value end.
Definition dec_dimension : Dec StaticDimension :=
  value ← dec_u64;
  mret (if value =? 0 then Token else Fixed value).

Definition FamilyState_encode (s : FamilyState) : result bytes :=
  key ← StateKey_encode (fs_key s);
  rank ← ok_or (try_from u8_bound (zlen (fs_dimensions s)))
           (Bounds "family state rank exceeds u8");
  deps ← ok_or (try_from u16_bound (zlen (fs_dependencies s)))
           (Bounds "too many state dependencies");
  dependencies ← enc_list StateKey_encode (fs_dependencies s);
  mret (key ++ put_enum CacheKind_wire (fs_cache_kind s) ++
        put_enum DType_wire (fs_dtype s) ++ put_enum Codec_wire (fs_codec s) ++
        put_u16 (fs_codec_version s) ++ put_enum Layout_wire (fs_layout s) ++
        put_enum TokenAxisRule_wire (fs_token_axis_rule s) ++
        put_u8 (fs_token_axis s) ++ put_u8 0 ++ put_u64 (fs_elements_per_token s) ++
        put_u8 rank ++ put_list (λ d, put_u64 (dimension_wire d)) (fs_dimensions s) ++
        put_u16 deps ++ dependencies).

Definition FamilyState_decode : Dec FamilyState :=
  key ← StateKey_decode;
  cache_kind ← dec_enum CacheKind_from_wire;
  dtype ← dec_enum DType_from_wire;
  codec ← dec_enum Codec_from_wire;
  codec_version ← dec_u16;
  layout ← dec_enum Layout_from_wire;
  token_axis_rule ← dec_enum TokenAxisRule_from_wire;
  token_axis ← dec_u8;
  reserved ← dec_u8;
  if negb (reserved =? 0) then dec_fail (Reserved "family state reserved byte is nonzero") else
  elements_per_token ← dec_u64;
  rank ← dec_u8;
  if (rank =? 0) || (MAX_RANK <? rank) then
    dec_fail (Bounds "family state rank is outside 1..=8") else
  dimensions ← dec_repeat (Z.to_nat rank) dec_dimension;
  dependency_count ← dec_u16;
  if MAX_DEPENDENCIES_PER_STATE <? dependency_count then
    dec_fail (Bounds "too many state dependencies") else
  dependencies ← dec_repeat (Z.to_nat dependency_count) StateKey_decode;
  mret (mkFamilyState key cache_kind dtype codec codec_version layout token_axis_rule
          token_axis elements_per_token dimensions dependencies).

Definition family_encode_body (f : RepresentationFamilyId) : result bytes :=
  count ← ok_or (try_from u32_bound (zlen (family_states f)))
            (Bounds "too many family states");
  states ← enc_list FamilyState_encode (family_states f);
  mret (put_id (engine_cache_abi f) ++ put_enum RepresentationMode_wire (mode f) ++
        put_u16 0 ++ put_u32 (page_size_tokens f) ++ put_id (topology f) ++
        put_id (shard_map f) ++ put_u32 count ++ states).

Definition family_decode_body : Dec RepresentationFamilyId :=
  engine_cache_abi ← dec_id;
  mode ← dec_enum RepresentationMode_from_wire;
  reserved ← dec_u16;
  if negb (reserved =? 0) then dec_fail (Reserved "family reserved field is nonzero") else
  page_size_tokens ← dec_u32;
  topology ← dec_id;
  shard_map ← dec_id;
  state_count ← dec_u32;
  if (state_count =? 0) || (MAX_STATES <? state_count) then
    dec_fail (Bounds "family state count is outside bounds") else
  states ← dec_repeat (Z.to_nat state_count) FamilyState_decode;
  mret (mkRepresentationFamilyId engine_cache_abi mode page_size_tokens topology
          shard_map states).

Definition family_encode_canonical (f : RepresentationFamilyId) : result bytes :=
  body ← family_encode_body f;
  mret (FAMILY_MAGIC ++ put_u16 WIRE_VERSION ++ put_u16 0 ++ body).

Definition family_decode_canonical (b : bytes) : result RepresentationFamilyId :=
  input ← Decoder_new b FAMILY_MAGIC;
  '(value, input) ←
    (version ← dec_u16;
     if negb (version =? WIRE_VERSION) then
       dec_fail (BadMagic "unsupported family version") else
     reserved ← dec_u16;
     if negb (reserved =? 0) then
       dec_fail (Reserved "family reserved field is nonzero") else
     family_decode_body) input;
  _ ← Decoder_finish input;
  again ← family_encode_canonical value;
  if negb (bytes_eqb again b) then Err (Reserved "family encoding is not canonical")
  else Ok value.

Definition validate_state_key (k : StateKey) : result unit :=
  if (zlen (state_name k) =? 0) || (MAX_STATE_NAME_BYTES <? zlen (state_name k))
     || existsb (λ b, b =? 0) (state_name k)
  then Err (Semantics "invalid state name") else Ok tt.

#[export] Instance StaticDimension_eq_dec : EqDecision StaticDimension.
Proof. solve_decision. Defined.
#[export] Instance FamilyState_eq_dec : EqDecision FamilyState.
Proof. solve_decision. Defined.
#[export] Instance RepresentationFamilyId_eq_dec : EqDecision RepresentationFamilyId.
Proof. solve_decision. Defined.
#[export] Instance SemanticModelId_eq_dec : EqDecision SemanticModelId.
Proof. solve_decision. Defined.
#[export] Instance InputCutId_eq_dec : EqDecision InputCutId.
Proof. solve_decision. Defined.
#[export] Instance AuxiliaryInputId_eq_dec : EqDecision AuxiliaryInputId.
Proof. solve_decision. Defined.

(** ** Well-formedness *)
Definition SemanticModelId_ok (v : SemanticModelId) : Prop :=
  id_ok (weights_config v) ∧ id_ok (adapters v) ∧ id_ok (tokenizer_template v) ∧
  id_ok (position_semantics v) ∧ id_ok (qualified_math v).
Definition InputCutId_ok (v : InputCutId) : Prop :=
  id_ok (token_root v) ∧ id_ok (auxiliary_input_root v) ∧ in_u64 (token_count v).
Definition StaticDimension_ok (d : StaticDimension) : Prop :=
  match d with Token => True | Fixed v => dim_ok v end.
Definition FamilyState_ok (s : FamilyState) : Prop :=
  StateKey_ok (fs_key s) ∧ in_u16 (fs_codec_version s) ∧ in_u8 (fs_token_axis s) ∧
  in_u64 (fs_elements_per_token s) ∧
  0 < zlen (fs_dimensions s) ≤ MAX_RANK ∧ Forall StaticDimension_ok (fs_dimensions s) ∧
  zlen (fs_dependencies s) ≤ MAX_DEPENDENCIES_PER_STATE ∧
  Forall StateKey_ok (fs_dependencies s).
Definition RepresentationFamilyId_ok (f : RepresentationFamilyId) : Prop :=
  id_ok (engine_cache_abi f) ∧ in_u32 (page_size_tokens f) ∧ id_ok (topology f) ∧
  id_ok (shard_map f) ∧ 0 < zlen (family_states f) ≤ MAX_STATES ∧
  Forall FamilyState_ok (family_states f).

(** ** Codecs *)
#[export] Instance SemanticModelId_codec :
  Codec SemanticModelId_ok (λ v, Ok (encode_semantic v)) decode_semantic.
Proof.
  split.
  - by eexists.
  - intros [] b ((?&?)&(?&?)&(?&?)&(?&?)&(?&?)) [= <-].
    unfold encode_semantic, put_id. auto 10 with bytes.
  - intros [] b (?&?&?&?&?) [= <-]. unfold encode_semantic, decode_semantic.
    cbn [weights_config adapters tokenizer_template position_semantics qualified_math] in *.
    parse_all.
  - unfold decode_semantic. sound_all. destruct_and!. subst. split; [done|].
    unfold encode_semantic; simpl. by rewrite app_nil_r.
Qed.

#[export] Instance dimension_codec :
  Codec StaticDimension_ok (λ d, Ok (put_u64 (dimension_wire d))) dec_dimension.
Proof.
  split.
  - by eexists.
  - intros d b _ [= <-]. apply le_bytes_ok.
  - intros d b Hd [= <-]. unfold dec_dimension. rewrite <- (app_nil_r (put_u64 _)).
    eapply parses_bind; [apply parses_u64; destruct d; [by split|apply Hd]|]. cbv beta.
    assert ((if dimension_wire d =? 0 then Token else Fixed (dimension_wire d)) = d) as ->.
    { destruct d as [|v]; simpl; [done|]. destruct Hd as [? _].
      by rewrite (proj2 (Z.eqb_neq _ _)) by lia. }
    apply parses_ret.
  - unfold dec_dimension. eapply sound_bind; [apply sound_u64|]. intros v ? [Hv ->] _.
    apply sound_ret. rewrite app_nil_r. destruct (Z.eqb_spec v 0) as [->|]; [done|].
    unfold in_u64 in Hv. split; [split; [lia|done]|done].
Qed.


Ltac family_fields :=
  cbn [fs_key fs_cache_kind fs_dtype fs_codec fs_codec_version fs_layout fs_token_axis_rule
       fs_token_axis fs_elements_per_token fs_dimensions fs_dependencies
       engine_cache_abi mode page_size_tokens topology shard_map family_states] in *.

Lemma FamilyState_encode_Ok s b :
  FamilyState_ok s → FamilyState_encode s = Ok b →
  ∃ key dependencies,
    StateKey_encode (fs_key s) = Ok key ∧
    enc_list StateKey_encode (fs_dependencies s) = Ok dependencies ∧
    b = key ++ put_enum CacheKind_wire (fs_cache_kind s) ++
        put_enum DType_wire (fs_dtype s) ++ put_enum Codec_wire (fs_codec s) ++
        put_u16 (fs_codec_version s) ++ put_enum Layout_wire (fs_layout s) ++
        put_enum TokenAxisRule_wire (fs_token_axis_rule s) ++
        put_u8 (fs_token_axis s) ++ put_u8 0 ++ put_u64 (fs_elements_per_token s) ++
        put_u8 (zlen (fs_dimensions s)) ++
        put_list (λ d, put_u64 (dimension_wire d)) (fs_dimensions s) ++
        put_u16 (zlen (fs_dependencies s)) ++ dependencies.
Proof.
  intros _ H. unfold FamilyState_encode in H. inv_ok.
  repeat match goal with H : try_from _ _ = Some _ |- _ => apply try_from_Some in H as [-> ?] end.
  eauto 10.
Qed.

#[export] Instance FamilyState_codec : Codec FamilyState_ok FamilyState_encode FamilyState_decode.
Proof.
  split.
  - intros s (Hk & _ & _ & _ & Hd & _ & Hn & Hdeps). unfold FamilyState_encode.
    destruct (codec_total (Codec:=StateKey_codec) _ Hk) as [k ->].
    destruct (enc_list_total _ _ StateKey_decode _ Hdeps) as [ds ->]. simpl.
    unfold MAX_RANK, MAX_DEPENDENCIES_PER_STATE in *.
    rewrite !try_from_ok by (unfold u8_bound, u16_bound; lia). by eexists.
  - intros s b Hs H. destruct (FamilyState_encode_Ok s b Hs H) as (k & ds & Ek & Ed & ->).
    destruct Hs as (Hk & _ & _ & _ & _ & _ & _ & Hdeps).
    apply (codec_bytes (Codec:=StateKey_codec)) in Ek; [|done].
    apply (enc_list_bytes _ _ StateKey_decode) in Ed; [|done].
    bytes_ok_app_all. apply put_list_bytes. auto with bytes.
  - intros s b Hs H. destruct (FamilyState_encode_Ok s b Hs H) as (k & ds & Ek & Ed & ->).
    destruct s. destruct Hs as (Hk & Hv & Ha & He & Hr & Hdims & Hn & Hdeps).
    unfold FamilyState_decode. family_fields. unfold MAX_RANK, MAX_DEPENDENCIES_PER_STATE in *.
    pose proof (zlen_nonneg fs_dependencies0).
    assert (in_u8 (zlen fs_dimensions0)) by (unfold in_u8, u8_bound; lia).
    assert (in_u16 (zlen fs_dependencies0)) by (unfold in_u16, u16_bound; lia).
    assert (in_u8 0) by (unfold in_u8, u8_bound; lia).
    pose proof (parses_list _ _ dec_dimension _ _ _ Hdims (enc_list_put _ _)
      (length_Z_to_nat fs_dimensions0)).
    pose proof (parses_list _ _ StateKey_decode _ _ _ Hdeps Ed (length_Z_to_nat fs_dependencies0)).
    parse_all.
  - unfold FamilyState_decode. sound_all. sound_fields.
    unfold FamilyState_ok, FamilyState_encode; family_fields.
    unfold MAX_RANK, MAX_DEPENDENCIES_PER_STATE in *. split.
    + pose proof (zlen_nonneg x10). split_and!; auto; lia.
    + by encode_eqs.
Qed.

#[export] Instance family_body_codec :
  Codec RepresentationFamilyId_ok family_encode_body family_decode_body.
Proof.
  split.
  - intros f (_ & _ & _ & _ & Hn & Hs). unfold family_encode_body.
    destruct (enc_list_total _ _ FamilyState_decode _ Hs) as [ss ->]. unfold MAX_STATES in *.
    rewrite try_from_ok by (unfold u32_bound; lia). by eexists.
  - intros f b (Ha & _ & Ht & Hm & _ & Hs) H. unfold family_encode_body in H. inv_ok. subst.
    apply (enc_list_bytes _ _ FamilyState_decode) in H0; [|done]. bytes_ok_app_all.
  - intros [] b (Ha & Hp & Ht & Hm & Hn & Hs) H. unfold family_encode_body in H. inv_ok. subst.
    family_fields. apply try_from_Some in H as [-> _]. unfold family_decode_body, MAX_STATES in *.
    assert (in_u32 (zlen family_states0)) by range_lia. assert (in_u16 0) by range_lia.
    pose proof (parses_list _ _ FamilyState_decode _ _ _ Hs H0 (length_Z_to_nat family_states0)).
    parse_all.
  - unfold family_decode_body. sound_all. sound_fields.
    unfold RepresentationFamilyId_ok, family_encode_body; family_fields.
    unfold MAX_STATES in *. split; [|by encode_eqs].
    pose proof (zlen_nonneg x6). split_and!; auto; lia.
Qed.

(** The version and reserved fields that precede the body of a canonical object. *)
Definition framed {A} (ev er : PackError) (m : Dec A) : Dec A :=
  version ← dec_u16;
  if negb (version =? WIRE_VERSION) then dec_fail ev else
  reserved ← dec_u16;
  if negb (reserved =? 0) then dec_fail er else m.
Definition put_framed {A} (enc : A → result bytes) (x : A) : result bytes :=
  body ← enc x; mret (put_u16 WIRE_VERSION ++ put_u16 0 ++ body).
#[export] Instance framed_codec {A} (wf : A → Prop) enc (m : Dec A) ev er `{!Codec wf enc m} :
  Codec wf (put_framed enc) (framed ev er m).
Proof.
  split.
  - intros x Hx. destruct (codec_total x Hx) as [b Hb]. unfold put_framed. rewrite Hb. by eexists.
  - intros x b Hx H. unfold put_framed in H. inv_ok. subst.
    apply codec_bytes in H; [|done]. bytes_ok_app_all.
  - intros x b Hx H. unfold put_framed in H. inv_ok. subst. unfold framed.
    assert (in_u16 0) by range_lia. assert (in_u16 WIRE_VERSION) by (unfold WIRE_VERSION; range_lia).
    do 4 parse_step. by eapply codec_parses.
  - unfold framed. do 4 sound_step. eapply sound_weaken; [apply codec_sound|].
    intros y b (Hy & Hb) _. sound_fields. split; [done|]. unfold put_framed. by encode_eqs.
Qed.

Section family_canonical.
Implicit Types (f : RepresentationFamilyId) (b : bytes).
Let ev := BadMagic "unsupported family version".
Let er := Reserved "family reserved field is nonzero".
Let e := Reserved "family encoding is not canonical".

Lemma family_encode_framed f :
  family_encode_canonical f = x ← put_framed family_encode_body f; mret (FAMILY_MAGIC ++ x).
Proof.
  unfold family_encode_canonical, put_framed. by destruct (family_encode_body f).
Qed.
Lemma family_decode_framed b :
  family_decode_canonical b =
  canonical_decode FAMILY_MAGIC (framed ev er family_decode_body) family_encode_canonical e b.
Proof. done. Qed.

Lemma family_decode_encode f b :
  RepresentationFamilyId_ok f → family_encode_canonical f = Ok b → slice_len_ok b →
  family_decode_canonical b = Ok f.
Proof.
  rewrite family_decode_framed. intros.
  eapply canonical_decode_encode; [apply _|done|apply family_encode_framed|done..].
Qed.
Lemma family_encode_decode b f :
  bytes_ok b → family_decode_canonical b = Ok f →
  RepresentationFamilyId_ok f ∧ family_encode_canonical f = Ok b.
Proof.
  rewrite family_decode_framed. intros.
  by eapply (canonical_decode_Ok _ _ (put_framed family_encode_body)
    (framed ev er family_decode_body)); [apply _|apply family_encode_framed|..].
Qed.
End family_canonical.
Lemma family_encode_total f :
  RepresentationFamilyId_ok f → ∃ b, family_encode_canonical f = Ok b ∧ bytes_ok b.
Proof.
  intros Hf. destruct (codec_total (Codec:=family_body_codec) f Hf) as [b Hb].
  unfold family_encode_canonical. rewrite Hb. eexists. split; [done|].
  apply (codec_bytes (Codec:=family_body_codec)) in Hb; [|done].
  bytes_ok_app_all; by apply bytes_okb_ok.
Qed.
Lemma family_encode_inj f g b :
  RepresentationFamilyId_ok f → RepresentationFamilyId_ok g →
  family_encode_canonical f = Ok b → family_encode_canonical g = Ok b → slice_len_ok b → f = g.
Proof.
  intros Hf Hg Ef Eg Hl. apply (family_decode_encode f b Hf) in Ef; [|done].
  apply (family_decode_encode g b Hg) in Eg; [|done]. congruence.
Qed.
