(* ===== verification/Manifest.v ===== *)
(** * The manifest wire format (crates/kvpack-core/src/manifest.rs)

    Data types, encoders and decoders of the state schema, the realized cut
    schema and the cut manifest, then the codec laws of each.  The state lists
    of a manifest are prefixed by their counts; each decoder bounds its count
    before it reads. *)
From Stdlib Require Import ZArith Lia.
From stdpp Require Import base tactics numbers list strings option.
From S2P Require Import Prelude Bytes Canonical Wire State Identity.

Record ChunkSpan := mkChunkSpan {
    cs_token_start : Z;
    cs_token_count : Z;
    cs_plaintext_offset : Z;
    cs_plaintext_bytes : Z
}.

Record ChunkRef := mkChunkRef {
    cr_chunk_id : bytes;
    cr_object_key : bytes;
    cr_object_digest : bytes;
    cr_key_epoch : Z;
    cr_plaintext_bytes : Z;
    cr_object_bytes : Z
}.

Record StateDeclaration := mkStateDeclaration {
    sd_key : StateKey;
    sd_full_shape : Shape;
    sd_segment_shape : Shape;
    sd_strides : list Z;
    sd_logical_start : Z;
    sd_logical_count : Z;
    sd_absolute_position : Z;
    sd_window : Z;
    sd_atomic_group : Z
}.

Record RealizedStateSchema := mkRealizedStateSchema {
    rs_key : StateKey;
    rs_full_shape : Shape;
    rs_segment_shape : Shape;
    rs_strides : list Z;
    rs_logical_start : Z;
    rs_logical_count : Z;
    rs_physical_offset_bytes : Z;
    rs_physical_span_bytes : Z;
    rs_complete_physical_bytes : Z;
    rs_absolute_position : Z;
    rs_window : Z;
    rs_chunk_spans : list ChunkSpan
}.

Record StateManifest := mkStateManifest { sm_key : StateKey; sm_chunks : list ChunkRef }.
Record AtomicGroup := mkAtomicGroup { ag_id : Z; ag_states : list StateKey }.

Inductive ManifestKind :=
  | Full
  | Delta (parent : bytes) (parent_cut : InputCutId) (depth : Z).

Definition ManifestKind_depth (k : ManifestKind) : Z :=
  match k with Full => 0 | Delta _ _ depth => depth end.
Definition ManifestKind_parent (k : ManifestKind) : option bytes :=
  match k with Full => None | Delta parent _ _ => Some parent end.
Definition ManifestKind_parent_cut (k : ManifestKind) : option InputCutId :=
  match k with Full => None | Delta _ cut _ => Some cut end.

Record RealizedCutSchemaId := mkRealizedCutSchemaId {
    rc_kind : ManifestKind;
    rc_states : list RealizedStateSchema;
    rc_atomic_groups : list AtomicGroup;
    rc_segment_restored_bytes : Z;
    rc_complete_restored_bytes : Z
}.

Record CutManifest := mkCutManifest {
    cm_tenant_namespace : bytes;
    cm_key_epoch : Z;
    cm_semantic_model : SemanticModelId;
    cm_input_cut : InputCutId;
    cm_family : RepresentationFamilyId;
    cm_realized_schema : RealizedCutSchemaId;
    cm_states : list StateManifest
}.

Definition encode_input_cut (v : InputCutId) : bytes :=
  put_id (token_root v) ++ put_id (auxiliary_input_root v) ++ put_u64 (token_count v).
Definition decode_input_cut : Dec InputCutId :=
  t ← dec_id; a ← dec_id; n ← dec_u64; mret (mkInputCutId t a n).

Definition ManifestKind_encode (k : ManifestKind) : bytes :=
  match k with
  | Full => put_u8 0 ++ put_u8 0 ++ put_u16 0
  | Delta parent parent_cut depth =>
      put_u8 1 ++ put_u8 depth ++ put_u16 0 ++ put_id parent ++ encode_input_cut parent_cut
  end.
Definition ManifestKind_decode : Dec ManifestKind :=
  tag ← dec_u8;
  depth ← dec_u8;
  reserved ← dec_u16;
  if negb (reserved =? 0) then
    dec_fail (Reserved "manifest-kind reserved field is nonzero") else
  if tag =? 0 then
    if negb (depth =? 0) then dec_fail (Reserved "full manifest carries a delta depth")
    else mret Full
  else if tag =? 1 then
    parent ← dec_id;
    parent_cut ← decode_input_cut;
    mret (Delta parent parent_cut depth)
  else dec_fail (UnknownEnum "manifest kind" tag).

(** ** Spans, references and state lists *)
Definition ChunkSpan_encode (s : ChunkSpan) : bytes :=
  put_u64 (cs_token_start s) ++ put_u64 (cs_token_count s) ++
  put_u64 (cs_plaintext_offset s) ++ put_u32 (cs_plaintext_bytes s).
Definition ChunkSpan_decode : Dec ChunkSpan :=
  a ← dec_u64; b ← dec_u64; c ← dec_u64; d ← dec_u32; mret (mkChunkSpan a b c d).

Definition ChunkRef_encode (c : ChunkRef) : bytes :=
  put_id (cr_chunk_id c) ++ put_id (cr_object_key c) ++ put_id (cr_object_digest c) ++
  put_u64 (cr_key_epoch c) ++ put_u32 (cr_plaintext_bytes c) ++ put_u32 (cr_object_bytes c).
Definition ChunkRef_decode : Dec ChunkRef :=
  a ← dec_id; b ← dec_id; c ← dec_id; d ← dec_u64; e ← dec_u32; f ← dec_u32;
  mret (mkChunkRef a b c d e f).

(** [out.u8(u8::try_from(strides.len())?); for stride in strides { out.u64(stride) }] *)
Definition strides_encode (strides : list Z) : result bytes :=
  n ← ok_or (try_from u8_bound (zlen strides)) (Bounds "too many state strides");
  mret (put_u8 n ++ put_list put_u64 strides).
Definition strides_decode : Dec (list Z) :=
  stride_count ← dec_u8;
  if MAX_RANK <? stride_count then dec_fail (Bounds "too many state strides") else
  dec_repeat (Z.to_nat stride_count) dec_u64.

Definition StateDeclaration_encode (s : StateDeclaration) : result bytes :=
  key ← StateKey_encode (sd_key s);
  strides ← strides_encode (sd_strides s);
  mret (key ++ Shape_encode (sd_full_shape s) ++ Shape_encode (sd_segment_shape s) ++
        strides ++ put_u64 (sd_logical_start s) ++ put_u64 (sd_logical_count s) ++
        put_u64 (sd_absolute_position s) ++ put_u64 (sd_window s) ++
        put_u32 (sd_atomic_group s)).
Definition StateDeclaration_decode : Dec StateDeclaration :=
  key ← StateKey_decode;
  full_shape ← Shape_decode;
  segment_shape ← Shape_decode;
  strides ← strides_decode;
  logical_start ← dec_u64;
  logical_count ← dec_u64;
  absolute_position ← dec_u64;
  window ← dec_u64;
  atomic_group ← dec_u32;
  mret (mkStateDeclaration key full_shape segment_shape strides logical_start logical_count
          absolute_position window atomic_group).

Definition canonical_schema_bytes (s : StateDeclaration) : result bytes :=
  body ← StateDeclaration_encode s;
  mret (STATE_SCHEMA_MAGIC ++ put_u16 WIRE_VERSION ++ put_u16 0 ++ body).
Definition decode_canonical_schema (b : bytes) : result StateDeclaration :=
  input ← Decoder_new b STATE_SCHEMA_MAGIC;
  '(value, input) ←
    (version ← dec_u16;
     if negb (version =? WIRE_VERSION) then
       dec_fail (BadMagic "unsupported state-schema version") else
     reserved ← dec_u16;
     if negb (reserved =? 0) then
       dec_fail (Reserved "state-schema reserved field is nonzero") else
     StateDeclaration_decode) input;
  _ ← Decoder_finish input;
  again ← canonical_schema_bytes value;
  if negb (bytes_eqb again b) then Err (Reserved "state-schema encoding is not canonical")
  else Ok value.

Definition RealizedStateSchema_encode (s : RealizedStateSchema) : result bytes :=
  key ← StateKey_encode (rs_key s);
  strides ← strides_encode (rs_strides s);
  count ← ok_or (try_from u32_bound (zlen (rs_chunk_spans s))) (Bounds "too many chunk spans");
  mret (key ++ Shape_encode (rs_full_shape s) ++ Shape_encode (rs_segment_shape s) ++
        strides ++ put_u64 (rs_logical_start s) ++ put_u64 (rs_logical_count s) ++
        put_u64 (rs_physical_offset_bytes s) ++ put_u64 (rs_physical_span_bytes s) ++
        put_u64 (rs_complete_physical_bytes s) ++ put_u64 (rs_absolute_position s) ++
        put_u64 (rs_window s) ++ put_u32 count ++
        put_list ChunkSpan_encode (rs_chunk_spans s)).
Definition RealizedStateSchema_decode : Dec RealizedStateSchema :=
  key ← StateKey_decode;
  full_shape ← Shape_decode;
  segment_shape ← Shape_decode;
  strides ← strides_decode;
  logical_start ← dec_u64;
  logical_count ← dec_u64;
  physical_offset_bytes ← dec_u64;
  physical_span_bytes ← dec_u64;
  complete_physical_bytes ← dec_u64;
  absolute_position ← dec_u64;
  window ← dec_u64;
  chunk_count ← dec_u32;
  if (chunk_count =? 0) || (MAX_CHUNKS_PER_STATE <? chunk_count) then
    dec_fail (Bounds "state chunk-span count is outside bounds") else
  chunk_spans ← dec_repeat (Z.to_nat chunk_count) ChunkSpan_decode;
  mret (mkRealizedStateSchema key full_shape segment_shape strides logical_start logical_count
          physical_offset_bytes physical_span_bytes complete_physical_bytes
          absolute_position window chunk_spans).

Definition AtomicGroup_encode (g : AtomicGroup) : result bytes :=
  count ← ok_or (try_from u32_bound (zlen (ag_states g)))
            (Bounds "too many atomic-group states");
  states ← enc_list StateKey_encode (ag_states g);
  mret (put_u32 (ag_id g) ++ put_u32 count ++ states).
Definition AtomicGroup_decode : Dec AtomicGroup :=
  id ← dec_u32;
  state_count ← dec_u32;
  if (state_count =? 0) || (MAX_STATES <? state_count) then
    dec_fail (Bounds "atomic-group state count is outside bounds") else
  states ← dec_repeat (Z.to_nat state_count) StateKey_decode;
  mret (mkAtomicGroup id states).

(** ** Realized cut schema *)
Definition schema_encode_body (s : RealizedCutSchemaId) : result bytes :=
  state_count ← ok_or (try_from u32_bound (zlen (rc_states s)))
                  (Bounds "too many realized states");
  states ← enc_list RealizedStateSchema_encode (rc_states s);
  group_count ← ok_or (try_from u32_bound (zlen (rc_atomic_groups s)))
                  (Bounds "too many atomic groups");
  groups ← enc_list AtomicGroup_encode (rc_atomic_groups s);
  mret (ManifestKind_encode (rc_kind s) ++ put_u32 state_count ++ states ++
        put_u32 group_count ++ groups ++ put_u64 (rc_segment_restored_bytes s) ++
        put_u64 (rc_complete_restored_bytes s)).
Definition schema_decode_body : Dec RealizedCutSchemaId :=
  kind ← ManifestKind_decode;
  state_count ← dec_u32;
  if (state_count =? 0) || (MAX_STATES <? state_count) then
    dec_fail (Bounds "realized state count is outside bounds") else
  states ← dec_repeat (Z.to_nat state_count) RealizedStateSchema_decode;
  group_count ← dec_u32;
  if (group_count =? 0) || (MAX_ATOMIC_GROUPS <? group_count) then
    dec_fail (Bounds "atomic-group count is outside bounds") else
  atomic_groups ← dec_repeat (Z.to_nat group_count) AtomicGroup_decode;
  segment_restored_bytes ← dec_u64;
  complete_restored_bytes ← dec_u64;
  mret (mkRealizedCutSchemaId kind states atomic_groups segment_restored_bytes
          complete_restored_bytes).
Definition schema_encode_canonical (s : RealizedCutSchemaId) : result bytes :=
  body ← schema_encode_body s;
  mret (SCHEMA_MAGIC ++ put_u16 WIRE_VERSION ++ put_u16 0 ++ body).
Definition schema_decode_canonical (b : bytes) : result RealizedCutSchemaId :=
  input ← Decoder_new b SCHEMA_MAGIC;
  '(value, input) ←
    (version ← dec_u16;
     if negb (version =? WIRE_VERSION) then
       dec_fail (BadMagic "unsupported realized-schema version") else
     reserved ← dec_u16;
     if negb (reserved =? 0) then
       dec_fail (Reserved "realized-schema reserved field is nonzero") else
     schema_decode_body) input;
  _ ← Decoder_finish input;
  again ← schema_encode_canonical value;
  if negb (bytes_eqb again b) then Err (Reserved "realized-schema encoding is not canonical")
  else Ok value.

(** ** Cut manifest *)
Definition StateManifest_encode (s : StateManifest) : result bytes :=
  key ← StateKey_encode (sm_key s);
  count ← ok_or (try_from u32_bound (zlen (sm_chunks s))) (Bounds "too many state chunks");
  mret (key ++ put_u32 count ++ put_list ChunkRef_encode (sm_chunks s)).
Definition StateManifest_decode : Dec StateManifest :=
  key ← StateKey_decode;
  chunk_count ← dec_u32;
  if (chunk_count =? 0) || (MAX_CHUNKS_PER_STATE <? chunk_count) then
    dec_fail (Bounds "state chunk count is outside bounds") else
  chunks ← dec_repeat (Z.to_nat chunk_count) ChunkRef_decode;
  mret (mkStateManifest key chunks).

Definition manifest_encode_body (m : CutManifest) : result bytes :=
  family ← family_encode_body (cm_family m);
  schema ← schema_encode_body (cm_realized_schema m);
  count ← ok_or (try_from u32_bound (zlen (cm_states m))) (Bounds "too many manifest states");
  states ← enc_list StateManifest_encode (cm_states m);
  mret (put_id (cm_tenant_namespace m) ++ put_u64 (cm_key_epoch m) ++
        encode_semantic (cm_semantic_model m) ++ encode_input_cut (cm_input_cut m) ++
        family ++ schema ++ put_u32 count ++ states).
Definition manifest_encode_canonical (m : CutManifest) : result bytes :=
  body ← manifest_encode_body m;
  mret (MANIFEST_MAGIC ++ put_u16 WIRE_VERSION ++ put_u16 0 ++ body).

Definition manifest_decode_body : Dec CutManifest :=
  tenant_namespace ← dec_id;
  key_epoch ← dec_u64;
  semantic_model ← decode_semantic;
  input_cut ← decode_input_cut;
  family ← family_decode_body;
  realized_schema ← schema_decode_body;
  state_count ← dec_u32;
  if (state_count =? 0) || (MAX_STATES <? state_count) then
    dec_fail (Bounds "manifest state count is outside bounds") else
  states ← dec_repeat (Z.to_nat state_count) StateManifest_decode;
  mret (mkCutManifest tenant_namespace key_epoch semantic_model input_cut family
          realized_schema states).
Definition manifest_decode_canonical (b : bytes) : result CutManifest :=
  if MAX_MANIFEST_BYTES <? zlen b then Err (Bounds "manifest exceeds production bound") else
  input ← Decoder_new b MANIFEST_MAGIC;
  '(value, input) ←
    (version ← dec_u16;
     if negb (version =? WIRE_VERSION) then
       dec_fail (BadMagic "unsupported manifest version") else
     reserved ← dec_u16;
     if negb (reserved =? 0) then
       dec_fail (Reserved "manifest reserved field is nonzero") else
     manifest_decode_body) input;
  _ ← Decoder_finish input;
  again ← manifest_encode_canonical value;
  if negb (bytes_eqb again b) then Err (Reserved "manifest encoding is not canonical")
  else Ok value.

Definition is_zero_id (id : bytes) : bool := all_zero id.

#[export] Instance ChunkSpan_eq_dec : EqDecision ChunkSpan.
Proof. solve_decision. Defined.
#[export] Instance ChunkRef_eq_dec : EqDecision ChunkRef.
Proof. solve_decision. Defined.
#[export] Instance ManifestKind_eq_dec : EqDecision ManifestKind.
Proof. solve_decision. Defined.
#[export] Instance AtomicGroup_eq_dec : EqDecision AtomicGroup.
Proof. solve_decision. Defined.
#[export] Instance StateManifest_eq_dec : EqDecision StateManifest.
Proof. solve_decision. Defined.
#[export] Instance RealizedStateSchema_eq_dec : EqDecision RealizedStateSchema.
Proof. solve_decision. Defined.
#[export] Instance RealizedCutSchemaId_eq_dec : EqDecision RealizedCutSchemaId.
Proof. solve_decision. Defined.
#[export] Instance CutManifest_eq_dec : EqDecision CutManifest.
Proof. solve_decision. Defined.

(** ** Well-formedness *)
Definition ChunkSpan_ok (s : ChunkSpan) : Prop :=
  in_u64 (cs_token_start s) ∧ in_u64 (cs_token_count s) ∧
  in_u64 (cs_plaintext_offset s) ∧ in_u32 (cs_plaintext_bytes s).
Definition ChunkRef_ok (c : ChunkRef) : Prop :=
  id_ok (cr_chunk_id c) ∧ id_ok (cr_object_key c) ∧ id_ok (cr_object_digest c) ∧
  in_u64 (cr_key_epoch c) ∧ in_u32 (cr_plaintext_bytes c) ∧ in_u32 (cr_object_bytes c).
Definition strides_ok (l : list Z) : Prop := zlen l ≤ MAX_RANK ∧ Forall in_u64 l.
Definition StateDeclaration_ok (s : StateDeclaration) : Prop :=
  StateKey_ok (sd_key s) ∧ Shape_ok (sd_full_shape s) ∧ Shape_ok (sd_segment_shape s) ∧
  strides_ok (sd_strides s) ∧ in_u64 (sd_logical_start s) ∧ in_u64 (sd_logical_count s) ∧
  in_u64 (sd_absolute_position s) ∧ in_u64 (sd_window s) ∧ in_u32 (sd_atomic_group s).
Definition RealizedStateSchema_ok (s : RealizedStateSchema) : Prop :=
  StateKey_ok (rs_key s) ∧ Shape_ok (rs_full_shape s) ∧ Shape_ok (rs_segment_shape s) ∧
  strides_ok (rs_strides s) ∧ in_u64 (rs_logical_start s) ∧ in_u64 (rs_logical_count s) ∧
  in_u64 (rs_physical_offset_bytes s) ∧ in_u64 (rs_physical_span_bytes s) ∧
  in_u64 (rs_complete_physical_bytes s) ∧ in_u64 (rs_absolute_position s) ∧
  in_u64 (rs_window s) ∧ 0 < zlen (rs_chunk_spans s) ≤ MAX_CHUNKS_PER_STATE ∧
  Forall ChunkSpan_ok (rs_chunk_spans s).
Definition StateManifest_ok (s : StateManifest) : Prop :=
  StateKey_ok (sm_key s) ∧ 0 < zlen (sm_chunks s) ≤ MAX_CHUNKS_PER_STATE ∧
  Forall ChunkRef_ok (sm_chunks s).
Definition AtomicGroup_ok (g : AtomicGroup) : Prop :=
  in_u32 (ag_id g) ∧ 0 < zlen (ag_states g) ≤ MAX_STATES ∧ Forall StateKey_ok (ag_states g).
Definition ManifestKind_ok (k : ManifestKind) : Prop :=
  match k with
  | Full => True
  | Delta parent cut depth => id_ok parent ∧ InputCutId_ok cut ∧ in_u8 depth
  end.
Definition RealizedCutSchemaId_ok (s : RealizedCutSchemaId) : Prop :=
  ManifestKind_ok (rc_kind s) ∧
  0 < zlen (rc_states s) ≤ MAX_STATES ∧ Forall RealizedStateSchema_ok (rc_states s) ∧
  0 < zlen (rc_atomic_groups s) ≤ MAX_ATOMIC_GROUPS ∧
  Forall AtomicGroup_ok (rc_atomic_groups s) ∧
  in_u64 (rc_segment_restored_bytes s) ∧ in_u64 (rc_complete_restored_bytes s).
Definition CutManifest_ok (m : CutManifest) : Prop :=
  id_ok (cm_tenant_namespace m) ∧ in_u64 (cm_key_epoch m) ∧
  SemanticModelId_ok (cm_semantic_model m) ∧ InputCutId_ok (cm_input_cut m) ∧
  RepresentationFamilyId_ok (cm_family m) ∧ RealizedCutSchemaId_ok (cm_realized_schema m) ∧
  0 < zlen (cm_states m) ≤ MAX_STATES ∧ Forall StateManifest_ok (cm_states m).

(** * Codec laws of the manifest format

    Each wire type of Manifest.v satisfies [Codec]; the laws compose from the
    leaves up to the whole manifest, and give its canonical-decoding theorems. *)
Ltac manifest_fields :=
  cbn [token_root auxiliary_input_root token_count
       cs_token_start cs_token_count cs_plaintext_offset cs_plaintext_bytes
       cr_chunk_id cr_object_key cr_object_digest cr_key_epoch cr_plaintext_bytes cr_object_bytes
       sd_key sd_full_shape sd_segment_shape sd_strides sd_logical_start sd_logical_count
       sd_absolute_position sd_window sd_atomic_group
       rs_key rs_full_shape rs_segment_shape rs_strides rs_logical_start rs_logical_count
       rs_physical_offset_bytes rs_physical_span_bytes rs_complete_physical_bytes
       rs_absolute_position rs_window rs_chunk_spans
       sm_key sm_chunks ag_id ag_states
       rc_kind rc_states rc_atomic_groups rc_segment_restored_bytes rc_complete_restored_bytes
       cm_tenant_namespace cm_key_epoch cm_semantic_model cm_input_cut cm_family
       cm_realized_schema cm_states] in *;
  unfold MAX_RANK, MAX_CHUNKS_PER_STATE, MAX_ATOMIC_GROUPS, MAX_STATES in *.

Ltac use_try_from :=
  repeat match goal with H : try_from _ _ = Some _ |- _ => apply try_from_Some in H as [-> ?] end.
(** Encoded lists parse. *)
Ltac use_lists :=
  repeat match goal with
  | Hs : Forall ?wf ?xs, E : enc_list ?enc ?xs = Ok ?b |- _ =>
      pose proof (parses_list wf enc _ xs b _ Hs E (length_Z_to_nat xs)); clear E
  | Hs : Forall ?wf ?xs |- context [put_list ?f ?xs] =>
      pose proof (parses_list wf (λ v, Ok (f v)) _ xs _ _ Hs (enc_list_put f xs)
                    (length_Z_to_nat xs)); clear Hs
  end;
  repeat match goal with
  | H : 0 < zlen ?xs ≤ _ |- _ =>
      lazymatch goal with
      | _ : in_u32 (zlen xs) |- _ => fail
      | _ => assert (in_u32 (zlen xs)) by range_lia
      end
  end.
(** Encoders of well-formed parts succeed. *)
Ltac encode_total :=
  repeat match goal with
  | H : ?wf ?x |- context [?enc ?x ≫= _] =>
      let b := fresh "b" in let E := fresh "E" in
      destruct (codec_total (wf:=wf) (enc:=enc) x H) as [b E]; rewrite E; cbn [mbind outcome_bind]
  | H : Forall ?wf ?xs |- context [enc_list ?enc ?xs] =>
      let b := fresh "b" in let E := fresh "E" in
      destruct (enc_list_total wf enc _ xs H) as [b E]; rewrite E; cbn [mbind outcome_bind]
  | |- context [ok_or (try_from _ _) _] =>
      rewrite try_from_ok by (solve [range_lia]); cbn [mbind outcome_bind]
  end; try by eexists.
(** Encoders of well-formed parts emit bytes. *)
Ltac encode_bytes :=
  repeat match goal with
  | H : ?wf ?x, E : ?enc ?x = Ok _ |- _ => apply (codec_bytes (wf:=wf)) in E; [|exact H]
  | H : Forall ?wf ?xs, E : enc_list ?enc ?xs = Ok _ |- _ =>
      apply (enc_list_bytes wf enc _) in E; [|exact H]
  end; bytes_ok_app_all.

#[export] Instance InputCutId_codec :
  Codec InputCutId_ok (λ v, Ok (encode_input_cut v)) decode_input_cut.
Proof.
  split.
  - by eexists.
  - intros v b (?&?&?) [= <-]. unfold encode_input_cut. bytes_ok_app_all.
  - intros [] b (?&?&?) [= <-]. unfold encode_input_cut, decode_input_cut. manifest_fields. parse_all.
  - unfold decode_input_cut. sound_all. sound_fields. split; [done|].
    unfold encode_input_cut; manifest_fields. by rewrite app_nil_r.
Qed.

#[export] Instance ChunkSpan_codec :
  Codec ChunkSpan_ok (λ v, Ok (ChunkSpan_encode v)) ChunkSpan_decode.
Proof.
  split.
  - by eexists.
  - intros v b (?&?&?&?) [= <-]. unfold ChunkSpan_encode. bytes_ok_app_all.
  - intros [] b (?&?&?&?) [= <-]. unfold ChunkSpan_encode, ChunkSpan_decode. manifest_fields. parse_all.
  - unfold ChunkSpan_decode. sound_all. sound_fields. split; [done|].
    unfold ChunkSpan_encode; manifest_fields. by rewrite app_nil_r.
Qed.

#[export] Instance ChunkRef_codec :
  Codec ChunkRef_ok (λ v, Ok (ChunkRef_encode v)) ChunkRef_decode.
Proof.
  split.
  - by eexists.
  - intros v b (?&?&?&?&?&?) [= <-]. unfold ChunkRef_encode. bytes_ok_app_all.
  - intros [] b (?&?&?&?&?&?) [= <-]. unfold ChunkRef_encode, ChunkRef_decode. manifest_fields. parse_all.
  - unfold ChunkRef_decode. sound_all. sound_fields. split; [done|].
    unfold ChunkRef_encode; manifest_fields. by rewrite app_nil_r.
Qed.

#[export] Instance strides_codec : Codec strides_ok strides_encode strides_decode.
Proof.
  split; unfold strides_encode, strides_ok, MAX_RANK.
  - intros l [? _]. encode_total.
  - intros l b [_ ?] HE. inv_ok. subst. bytes_ok_app_all. apply put_list_bytes. auto with bytes.
  - intros l b [? Hl] HE. inv_ok. subst. use_try_from. unfold strides_decode, MAX_RANK.
    pose proof (zlen_nonneg l). assert (in_u8 (zlen l)) by range_lia. do 2 parse_step.
    apply (parses_list in_u64 (λ v, Ok (put_u64 v)) dec_u64);
      [done|apply enc_list_put|apply length_Z_to_nat].
  - unfold strides_decode, MAX_RANK. do 2 sound_step.
    eapply sound_weaken; [eapply sound_list, u64_codec|]. intros xs bs (Hx & Hxs & He) _.
    sound_fields. split; [split; [lia|done]|]. by encode_eqs.
Qed.

#[export] Instance StateDeclaration_codec :
  Codec StateDeclaration_ok StateDeclaration_encode StateDeclaration_decode.
Proof.
  split.
  - intros s (?&?&?&?&_). unfold StateDeclaration_encode. encode_total.
  - intros s b (?&Hf&Hs&?&_) HE. unfold StateDeclaration_encode in HE. inv_ok. subst.
    pose proof (codec_bytes (Codec:=Shape_codec) _ _ Hf eq_refl).
    pose proof (codec_bytes (Codec:=Shape_codec) _ _ Hs eq_refl). encode_bytes.
  - intros [] b (?&?&?&?&?&?&?&?&?) HE. unfold StateDeclaration_encode in HE. inv_ok. subst.
    manifest_fields. unfold StateDeclaration_decode. parse_all.
  - unfold StateDeclaration_decode. sound_all. sound_fields. split; [done|].
    unfold StateDeclaration_encode; manifest_fields. inv_ok. subst. by encode_eqs.
Qed.

#[export] Instance RealizedStateSchema_codec :
  Codec RealizedStateSchema_ok RealizedStateSchema_encode RealizedStateSchema_decode.
Proof.
  split.
  - intros s (?&?&?&?&_&_&_&_&_&_&_&?&_). unfold RealizedStateSchema_encode. manifest_fields.
    encode_total.
  - intros s b (?&Hf&Hs&?&_&_&_&_&_&_&_&?&Hc) HE. unfold RealizedStateSchema_encode in HE. inv_ok. subst.
    pose proof (codec_bytes (Codec:=Shape_codec) _ _ Hf eq_refl).
    pose proof (codec_bytes (Codec:=Shape_codec) _ _ Hs eq_refl). encode_bytes.
    apply put_list_bytes. intros. unfold ChunkSpan_encode. bytes_ok_app_all.
  - intros [] b (?&?&?&?&?&?&?&?&?&?&?&?&Hc) HE. unfold RealizedStateSchema_encode in HE. inv_ok. subst.
    manifest_fields. use_try_from. unfold RealizedStateSchema_decode. manifest_fields.
    use_lists. parse_all.
  - unfold RealizedStateSchema_decode. sound_all. sound_fields.
    unfold RealizedStateSchema_ok, RealizedStateSchema_encode; manifest_fields. inv_ok. subst.
    split; [split_and!; auto; zlia|by encode_eqs].
Qed.

#[export] Instance AtomicGroup_codec : Codec AtomicGroup_ok AtomicGroup_encode AtomicGroup_decode.
Proof.
  split.
  - intros g (?&?&?). unfold AtomicGroup_encode. manifest_fields. encode_total.
  - intros g b (?&?&?) HE. unfold AtomicGroup_encode in HE. inv_ok. subst. encode_bytes.
  - intros [] b (?&?&Hs) HE. unfold AtomicGroup_encode in HE. inv_ok. subst. manifest_fields.
    use_try_from. unfold AtomicGroup_decode. manifest_fields.
    use_lists. parse_all.
  - unfold AtomicGroup_decode. sound_all. sound_fields.
    unfold AtomicGroup_ok, AtomicGroup_encode; manifest_fields.
    split; [split_and!; auto; zlia|by encode_eqs].
Qed.

#[export] Instance StateManifest_codec :
  Codec StateManifest_ok StateManifest_encode StateManifest_decode.
Proof.
  split.
  - intros g (?&?&?). unfold StateManifest_encode. manifest_fields. encode_total.
  - intros g b (?&?&?) HE. unfold StateManifest_encode in HE. inv_ok. subst. encode_bytes.
    apply put_list_bytes. intros c Hc. eapply list.Forall_forall in Hc; [|done].
    by eapply (codec_bytes (Codec:=ChunkRef_codec)).
  - intros [] b (?&?&Hs) HE. unfold StateManifest_encode in HE. inv_ok. subst. manifest_fields.
    use_try_from. unfold StateManifest_decode. manifest_fields.
    use_lists. parse_all.
  - unfold StateManifest_decode. sound_all. sound_fields.
    unfold StateManifest_ok, StateManifest_encode; manifest_fields.
    split; [split_and!; auto; zlia|by encode_eqs].
Qed.

#[export] Instance ManifestKind_codec :
  Codec ManifestKind_ok (λ k, Ok (ManifestKind_encode k)) ManifestKind_decode.
Proof.
  split.
  - by eexists.
  - intros k b Hk <-%Ok_inj. destruct k as [|p c d]; cbn [ManifestKind_encode]; [bytes_ok_app_all|].
    destruct Hk as (?&(?&?&?)&?). unfold encode_input_cut. bytes_ok_app_all.
  - intros k b Hk <-%Ok_inj. unfold ManifestKind_decode.
    assert (in_u8 0) by range_lia. assert (in_u8 1) by range_lia. assert (in_u16 0) by range_lia.
    destruct k as [|p c d]; [|destruct Hk as (?&?&?)]; cbn [ManifestKind_encode]; parse_all.
  - unfold ManifestKind_decode. do 4 sound_step.
    destruct (Z.eqb_spec x 0) as [->|]; [|destruct (Z.eqb_spec x 1) as [->|]]; sound_all; sound_fields.
    + split; [done|]. unfold ManifestKind_encode. by rewrite app_nil_r.
    + split; [done|]. unfold ManifestKind_encode. inv_ok. subst. by rewrite app_nil_r.
Qed.

#[export] Instance schema_body_codec :
  Codec RealizedCutSchemaId_ok schema_encode_body schema_decode_body.
Proof.
  split.
  - intros s (?&?&?&?&?&?&?). unfold schema_encode_body. manifest_fields. encode_total.
  - intros s b (Hk&?&?&?&?&?&?) HE. unfold schema_encode_body in HE. inv_ok. subst.
    pose proof (codec_bytes (Codec:=ManifestKind_codec) _ _ Hk eq_refl). encode_bytes.
  - intros [] b (?&?&Hs&?&Hg&?&?) HE. unfold schema_encode_body in HE. inv_ok. subst.
    manifest_fields. use_try_from. unfold schema_decode_body. manifest_fields.
    use_lists.
    parse_all.
  - unfold schema_decode_body. sound_all. sound_fields.
    unfold RealizedCutSchemaId_ok, schema_encode_body; manifest_fields. inv_ok. subst.
    split; [split_and!; auto; zlia|by encode_eqs].
Qed.

#[export] Instance manifest_body_codec :
  Codec CutManifest_ok manifest_encode_body manifest_decode_body.
Proof.
  split.
  - intros m (?&?&?&?&?&?&?&?). unfold manifest_encode_body. manifest_fields. encode_total.
  - intros m b (?&?&Hm&Hc&?&?&?&?) HE. unfold manifest_encode_body in HE. inv_ok. subst.
    pose proof (codec_bytes (Codec:=SemanticModelId_codec) _ _ Hm eq_refl).
    pose proof (codec_bytes (Codec:=InputCutId_codec) _ _ Hc eq_refl). encode_bytes.
  - intros [] b (?&?&?&?&?&?&?&Hs) HE. unfold manifest_encode_body in HE. inv_ok. subst.
    manifest_fields. use_try_from. unfold manifest_decode_body. manifest_fields.
    use_lists. parse_all.
  - unfold manifest_decode_body. sound_all. sound_fields.
    unfold CutManifest_ok, manifest_encode_body; manifest_fields. inv_ok. subst.
    split; [split_and!; auto; zlia|by encode_eqs].
Qed.

(** ** Canonical decoding *)
Section canonical.
Implicit Types (m : CutManifest) (b : bytes).
Let ev := BadMagic "unsupported manifest version".
Let er := Reserved "manifest reserved field is nonzero".
Let e := Reserved "manifest encoding is not canonical".
Let framed_body := framed ev er manifest_decode_body.

Lemma manifest_encode_framed m :
  manifest_encode_canonical m = x ← put_framed manifest_encode_body m; mret (MANIFEST_MAGIC ++ x).
Proof. unfold manifest_encode_canonical, put_framed. by destruct (manifest_encode_body m). Qed.
Lemma manifest_decode_framed b :
  manifest_decode_canonical b =
  if MAX_MANIFEST_BYTES <? zlen b then Err (Bounds "manifest exceeds production bound")
  else canonical_decode MANIFEST_MAGIC framed_body manifest_encode_canonical e b.
Proof. done. Qed.

Lemma manifest_encode_total m :
  CutManifest_ok m → ∃ b, manifest_encode_canonical m = Ok b ∧ bytes_ok b.
Proof.
  intros Hm. destruct (codec_total (Codec:=manifest_body_codec) m Hm) as [b Hb].
  unfold manifest_encode_canonical. rewrite Hb. eexists. split; [done|].
  apply (codec_bytes (Codec:=manifest_body_codec)) in Hb; [|done].
  bytes_ok_app_all; by apply bytes_okb_ok.
Qed.
Lemma manifest_decode_encode m b :
  CutManifest_ok m → manifest_encode_canonical m = Ok b → zlen b ≤ MAX_MANIFEST_BYTES →
  manifest_decode_canonical b = Ok m.
Proof.
  intros Hm Hb Hl. rewrite manifest_decode_framed, (proj2 (Z.ltb_ge _ _)) by done.
  eapply canonical_decode_encode; [apply _|done|apply manifest_encode_framed|done..|].
  unfold slice_len_ok, MAX_MANIFEST_BYTES in *. lia.
Qed.
Lemma manifest_decode_fast b :
  bytes_ok b → zlen b ≤ MAX_MANIFEST_BYTES →
  manifest_decode_canonical b = canonical_decode_fast MANIFEST_MAGIC framed_body b.
Proof.
  intros Hb Hl. rewrite manifest_decode_framed, (proj2 (Z.ltb_ge _ _)) by done.
  eapply (canonical_decode_recheck _ _ (put_framed manifest_encode_body));
    [apply _|apply manifest_encode_framed|done].
Qed.
Lemma manifest_encode_decode b m :
  bytes_ok b → manifest_decode_canonical b = Ok m →
  CutManifest_ok m ∧ manifest_encode_canonical m = Ok b ∧ zlen b ≤ MAX_MANIFEST_BYTES.
Proof.
  intros Hb H. rewrite manifest_decode_framed in H. inv_ok. bools. revert H. intros H.
  assert (CutManifest_ok m ∧ manifest_encode_canonical m = Ok b) as [? ?]; [|done].
  by eapply (canonical_decode_Ok _ _ (put_framed manifest_encode_body) framed_body);
    [apply _|apply manifest_encode_framed|..].
Qed.
Lemma manifest_decode_no_panic b : bytes_ok b → ¬ panics (manifest_decode_canonical b).
Proof.
  intros Hb. rewrite manifest_decode_framed. case_match; [by intros []|].
  by eapply (canonical_decode_no_panic _ _ (put_framed manifest_encode_body));
    [apply _|apply manifest_encode_framed|..].
Qed.
End canonical.

Section schema_canonical.
Implicit Types (s : RealizedCutSchemaId) (d : StateDeclaration) (b : bytes).
Lemma schema_encode_framed s :
  schema_encode_canonical s = x ← put_framed schema_encode_body s; mret (SCHEMA_MAGIC ++ x).
Proof. unfold schema_encode_canonical, put_framed. by destruct (schema_encode_body s). Qed.
Lemma schema_decode_encode s b :
  RealizedCutSchemaId_ok s → schema_encode_canonical s = Ok b → slice_len_ok b →
  schema_decode_canonical b = Ok s.
Proof.
  intros. eapply (canonical_decode_encode _ _ (put_framed schema_encode_body) (framed _ _ _));
    [apply _|done|apply schema_encode_framed|done..].
Qed.
Lemma schema_encode_decode b s :
  bytes_ok b → schema_decode_canonical b = Ok s →
  RealizedCutSchemaId_ok s ∧ schema_encode_canonical s = Ok b.
Proof.
  intros ? H. by eapply (canonical_decode_Ok _ _ (put_framed schema_encode_body)
    (framed (BadMagic "unsupported realized-schema version")
    (Reserved "realized-schema reserved field is nonzero") schema_decode_body));
    [apply _|apply schema_encode_framed|..].
Qed.
Lemma state_schema_framed d :
  canonical_schema_bytes d =
  x ← put_framed StateDeclaration_encode d; mret (STATE_SCHEMA_MAGIC ++ x).
Proof. unfold canonical_schema_bytes, put_framed. by destruct (StateDeclaration_encode d). Qed.
Lemma state_schema_decode_encode d b :
  StateDeclaration_ok d → canonical_schema_bytes d = Ok b → slice_len_ok b →
  decode_canonical_schema b = Ok d.
Proof.
  intros. eapply (canonical_decode_encode _ _ (put_framed StateDeclaration_encode) (framed _ _ _));
    [apply _|done|apply state_schema_framed|done..].
Qed.
Lemma state_schema_encode_decode b d :
  bytes_ok b → decode_canonical_schema b = Ok d →
  StateDeclaration_ok d ∧ canonical_schema_bytes d = Ok b.
Proof.
  intros ? H. by eapply (canonical_decode_Ok _ _ (put_framed StateDeclaration_encode)
    (framed (BadMagic "unsupported state-schema version")
    (Reserved "state-schema reserved field is nonzero") StateDeclaration_decode));
    [apply _|apply state_schema_framed|..].
Qed.
End schema_canonical.
