(* ===== verification/Frame.v ===== *)
(** * Codec frames (crates/kvpack-core/src/chunk.rs, codec part)

    A chunk payload is one codec frame: a 16-byte header and either the raw
    plaintext or its canonical PackBits-style run-length encoding.  The Rust
    loops walk an index over a slice; the model walks the suffix that starts
    at that index.  Loops take fuel equal to the length they consume. *)
From Stdlib Require Import ZArith Lia.
From stdpp Require Import base tactics numbers list strings option.
From S2P Require Import Prelude Bytes Canonical Wire.

(** Little-endian fields at an offset, as chunk.rs and pack.rs read them. *)
Definition get_le {E} (n : nat) (src : bytes) (offset : Z) : outcome E Z :=
  s ← slice src offset (offset + Z.of_nat n);
  a ← to_array (Z.of_nat n) s;
  mret (le_val a).
Definition get_u16 {E} (src : bytes) (offset : Z) : outcome E Z := get_le 2 src offset.
Definition get_u32 {E} (src : bytes) (offset : Z) : outcome E Z := get_le 4 src offset.
Definition get_u64 {E} (src : bytes) (offset : Z) : outcome E Z := get_le 8 src offset.

Definition frame_header (magic : bytes) (plaintext_bytes : Z) : result bytes :=
  length ← ok_or (try_from u32_bound plaintext_bytes)
             (Bounds "codec plaintext length exceeds u32");
  mret (magic ++ put_u16 WIRE_VERSION ++ put_u16 0 ++ put_u32 length).

(** The run that starts at the head of the slice, at most 128 long. *)
Fixpoint run_more (x : Z) (l : bytes) (fuel : nat) : nat :=
  match l, fuel with
  | y :: l, S fuel => if y =? x then S (run_more x l fuel) else 0%nat
  | _, _ => 0%nat
  end.
Definition repeated_run (l : bytes) : nat :=
  match l with [] => 1%nat | x :: l => S (run_more x l 127) end.

(** The inner [while]: extend a literal packet of [consumed] bytes. *)
Fixpoint literal_loop (fuel : nat) (l : bytes) (consumed : nat) : nat :=
  match fuel with
  | O => consumed
  | S fuel =>
      if (length l <=? consumed)%nat || (128 <=? consumed)%nat then consumed else
      let next_run := repeated_run (drop consumed l) in
      if (3 <=? next_run)%nat then consumed
      else if (128 <? consumed + next_run)%nat then 128%nat
      else literal_loop fuel l (consumed + next_run)
  end.

Definition literal_length (l : bytes) : nat := literal_loop 128 l (repeated_run l).

Fixpoint rle_encode (fuel : nat) (l : bytes) : bytes :=
  match fuel, l with
  | S fuel, x :: _ =>
      let run := repeated_run l in
      if (3 <=? run)%nat then
        Z.lor 128 (Z.of_nat (run - 1)) :: x :: rle_encode fuel (drop run l)
      else
        let length := literal_length l in
        Z.of_nat (length - 1) :: take length l ++ rle_encode fuel (drop length l)
  | _, _ => []
  end.

Definition encode_codec_frame (codec : Codec_kind) (plaintext : bytes) : result bytes :=
  if (zlen plaintext =? 0) || (MAX_CHUNK_PLAINTEXT <? zlen plaintext) then
    Err (Bounds "chunk plaintext must be in 1..=4 MiB") else
  match codec with
  | Raw =>
      header ← frame_header RAW_FRAME_MAGIC (zlen plaintext);
      mret (header ++ plaintext)
  | Lossless =>
      header ← frame_header LOSSLESS_FRAME_MAGIC (zlen plaintext);
      let res := header ++ rle_encode (length plaintext) plaintext in
      if MAX_CHUNK_PLAINTEXT + MAX_CODEC_OVERHEAD <? zlen res then
        Err (Bounds "lossless frame exceeds encoded bound")
      else Ok res
  end.

(** [payload] is the slice from [index] on; [out] is the decoded prefix. *)
Fixpoint rle_decode (fuel : nat) (payload : bytes) (index : Z) (out : bytes)
    (expected : Z) : result bytes :=
  match payload with
  | [] => Ok out
  | control :: rest =>
      match fuel with
      | O => Panic "out of fuel"
      | S fuel =>
          let length := Z.land control 127 + 1 in
          if negb (Z.land control 128 =? 0) then
            match rest with
            | [] => Err (Truncated "truncated lossless repeat packet")
            | value :: rest =>
                if expected <? saturating_add (zlen out) length then
                  Err (Bounds "lossless frame expands past bound")
                else rle_decode fuel rest (index + 2)
                       (out ++ replicate (Z.to_nat length) value) expected
            end
          else
            stop ← ok_or (checked_add (index + 1) length)
                     (Bounds "lossless literal offset overflow");
            literal ← ok_or (get_range rest 0 (stop - (index + 1)))
                        (Truncated "truncated lossless literal packet");
            if expected <? saturating_add (zlen out) length then
              Err (Bounds "lossless frame expands past bound")
            else rle_decode fuel (zdrop length rest) stop (out ++ literal) expected
      end
  end.

Definition frame_magic (codec : Codec_kind) : bytes :=
  match codec with Raw => RAW_FRAME_MAGIC | Lossless => LOSSLESS_FRAME_MAGIC end.

Definition decode_codec_frame (codec : Codec_kind) (encoded : bytes) (expected : Z)
    : result bytes :=
  if zlen encoded <? CODEC_FRAME_HEADER_BYTES then Err (Truncated "truncated codec frame") else
  magic ← slice encoded 0 8;
  if negb (bytes_eqb magic (frame_magic codec)) then
    Err (BadMagic "codec frame magic does not match codec") else
  version ← get_u16 encoded 8;
  if negb (version =? WIRE_VERSION) then
    Err (BadMagic "unsupported codec frame version") else
  reserved ← get_u16 encoded 10;
  if negb (reserved =? 0) then Err (Reserved "codec frame reserved field is nonzero") else
  declared ← get_u32 encoded 12;
  if negb (declared =? expected) || (expected =? 0) || (MAX_CHUNK_PLAINTEXT <? expected) then
    Err (Bounds "codec frame decoded length mismatch") else
  payload ← slice encoded CODEC_FRAME_HEADER_BYTES (zlen encoded);
  match codec with
  | Raw =>
      if negb (zlen payload =? expected) then Err (Bounds "raw frame length mismatch")
      else Ok payload
  | Lossless =>
      decoded ← rle_decode (length payload) payload 0 [] expected;
      if negb (zlen decoded =? expected) then Err (Bounds "lossless decoded length mismatch") else
      again ← encode_codec_frame codec decoded;
      if negb (bytes_eqb again encoded) then Err (Reserved "codec frame is not canonical")
      else Ok decoded
  end.

(** ** Runs and literals *)
Lemma run_more_le x l n : (run_more x l n ≤ n)%nat ∧ (run_more x l n ≤ length l)%nat.
Proof.
  revert n. induction l as [|y l IH]; intros [|n]; simpl; try lia.
  destruct (y =? x); simpl; [specialize (IH n)|]; lia.
Qed.
Lemma run_more_take x l n : take (run_more x l n) l = replicate (run_more x l n) x.
Proof.
  revert n. induction l as [|y l IH]; intros [|n]; simpl; try done.
  destruct (Z.eqb_spec y x) as [->|]; simpl; [by rewrite IH|done].
Qed.
Lemma repeated_run_bounds x l :
  (1 ≤ repeated_run (x :: l) ≤ 128)%nat ∧ (repeated_run (x :: l) ≤ length (x :: l))%nat.
Proof. unfold repeated_run. destruct (run_more_le x l 127). simpl length. lia. Qed.
Lemma repeated_run_take x l :
  take (repeated_run (x :: l)) (x :: l) = replicate (repeated_run (x :: l)) x.
Proof. unfold repeated_run. simpl. by rewrite run_more_take. Qed.

(** A literal packet ends because it is full, because the input ends, or
    because a run worth encoding follows. *)
Definition literal_stop (l : bytes) (n : nat) : Prop :=
  n = 128%nat ∨ n = length l ∨ (3 ≤ repeated_run (drop n l))%nat.
Lemma literal_loop_spec fuel l n :
  (n ≤ length l)%nat → (n ≤ 128)%nat → (128 ≤ n + fuel)%nat →
  (n ≤ literal_loop fuel l n ≤ 128)%nat ∧ (literal_loop fuel l n ≤ length l)%nat ∧
  literal_stop l (literal_loop fuel l n).
Proof.
  revert n. induction fuel as [|fuel IH]; intros n Hl Hn Hf; cbn [literal_loop].
  - split_and!; [lia..|]. left. lia.
  - destruct (Nat.leb_spec (length l) n); cbn [orb].
    { split_and!; [lia..|]. right; left. lia. }
    destruct (Nat.leb_spec 128 n); [split_and!; [lia..|]; left; lia|].
    destruct (drop n l) as [|x r] eqn:Hd.
    { apply (f_equal length) in Hd. rewrite length_drop in Hd. simpl in Hd. lia. }
    pose proof (repeated_run_bounds x r) as [Hb1 Hb2]. rewrite <- Hd in Hb2 at 2.
    rewrite length_drop in Hb2.
    destruct (Nat.leb_spec 3 (repeated_run (x :: r))) as [H3|H3].
    { split_and!; [lia..|]. right; right. by rewrite Hd. }
    destruct (Nat.ltb_spec 128 (n + repeated_run (x :: r))).
    + split_and!; [lia..|]. by left.
    + destruct (IH (n + repeated_run (x :: r))%nat) as (?&?&?); [lia..|]. split_and!; [lia..|done].
Qed.
Lemma literal_length_spec x l :
  (1 ≤ literal_length (x :: l) ≤ 128)%nat ∧ (literal_length (x :: l) ≤ length (x :: l))%nat ∧
  literal_stop (x :: l) (literal_length (x :: l)).
Proof.
  pose proof (repeated_run_bounds x l). unfold literal_length.
  destruct (literal_loop_spec 128 (x :: l) (repeated_run (x :: l))) as (?&?&?); [lia..|].
  split_and!; [lia..|done].
Qed.
Lemma repeated_run_nil : repeated_run [] = 1%nat.
Proof. done. Qed.
#[global] Opaque literal_length repeated_run.

Lemma land_127 n : (n < 128)%nat → Z.land (Z.of_nat n) 127 = Z.of_nat n.
Proof.
  intros. change 127 with (Z.ones 7). rewrite Z.land_ones by lia. apply Z.mod_small. lia.
Qed.
Lemma land_128 n : (n < 128)%nat → Z.land (Z.of_nat n) 128 = 0.
Proof.
  intros. apply Z.bits_inj'. intros i Hi. rewrite Z.land_spec, Z.bits_0.
  change 128 with (2 ^ 7). rewrite Z.pow2_bits_eqb by lia.
  destruct (Z.eqb_spec 7 i) as [<-|]; [|by rewrite andb_false_r].
  rewrite andb_true_r. apply Z.testbit_false; [lia|]. by rewrite Z.div_small by lia.
Qed.
Lemma lor_128 n : (n < 128)%nat →
  Z.land (Z.lor 128 (Z.of_nat n)) 128 = 128 ∧ Z.land (Z.lor 128 (Z.of_nat n)) 127 = Z.of_nat n ∧
  Z.lor 128 (Z.of_nat n) = 128 + Z.of_nat n.
Proof.
  intros H. rewrite !Z.land_lor_distr_l, land_127, land_128 by done. split_and!; [done..|].
  symmetry. rewrite <- Z.lxor_lor; [|by rewrite Z.land_comm, land_128].
  apply Z.add_nocarry_lxor. by rewrite Z.land_comm, land_128.
Qed.

(** ** Decoding inverts encoding *)
Lemma rle_encode_nil fuel : rle_encode fuel [] = [].
Proof. by destruct fuel. Qed.
Lemma rle_encode_bytes fuel l : bytes_ok l → bytes_ok (rle_encode fuel l).
Proof.
  revert l. induction fuel as [|fuel IH]; intros [|x l] Hl; cbn [rle_encode]; try constructor.
  pose proof (repeated_run_bounds x l) as [Hr Hr'].
  pose proof (literal_length_spec x l) as (Hl1 & Hl2 & Hstop).
  pose proof Hl as Hl'. apply bytes_ok_cons in Hl' as [Hx _].
  assert (∀ n, bytes_ok (drop n (x :: l))) by (intros; by apply Forall_drop).
  destruct (_ <=? _)%nat.
  - apply bytes_ok_cons. split; [|apply bytes_ok_cons; auto].
    destruct (lor_128 (repeated_run (x :: l) - 1)) as (_&_&->); [lia|]. range_lia.
  - apply bytes_ok_cons. split; [range_lia|]. apply bytes_ok_app. split; [by apply Forall_take|auto].
Qed.

(** One packet at a time. *)
Lemma rle_decode_run fuel n x rest index out expected :
  (1 ≤ n ≤ 128)%nat → zlen out + Z.of_nat n ≤ expected → expected < u64_bound →
  rle_decode (S fuel) (Z.lor 128 (Z.of_nat (n - 1)) :: x :: rest) index out expected =
  rle_decode fuel rest (index + 2) (out ++ replicate n x) expected.
Proof.
  intros Hn He Hx. destruct (lor_128 (n - 1)) as (E1 & E2 & _); [lia|].
  cbn [rle_decode]. rewrite E1, E2. cbn [negb Z.eqb].
  rewrite (proj2 (Z.ltb_ge _ _)) by (unfold saturating_add; lia).
  do 2 f_equal. f_equal. lia.
Qed.
Lemma rle_decode_literal fuel n lit rest index out expected :
  (1 ≤ n ≤ 128)%nat → length lit = n → zlen out + Z.of_nat n ≤ expected →
  expected < u64_bound → 0 ≤ index → index < 9223372036854775808 →
  rle_decode (S fuel) (Z.of_nat (n - 1) :: lit ++ rest) index out expected =
  rle_decode fuel rest (index + 1 + Z.of_nat n) (out ++ lit) expected.
Proof.
  intros Hn Hl He Hx Hi Hi'. cbn [rle_decode]. rewrite land_128, land_127 by lia. cbn [negb Z.eqb].
  replace (Z.of_nat (n - 1) + 1) with (zlen lit) by (unfold zlen; lia).
  assert (checked_add (index + 1) (zlen lit) = Some (index + 1 + Z.of_nat n)) as ->.
  { apply checked_add_Some. unfold zlen. rewrite Hl. unfold u64_bound. lia. }
  cbn [ok_or mbind outcome_bind].
  rewrite (get_range_app [] lit rest) by (unfold zlen; simpl; lia). cbn [ok_or mbind outcome_bind].
  rewrite (proj2 (Z.ltb_ge _ _)) by (unfold saturating_add, zlen; unfold zlen in He; lia).
  by rewrite zdrop_app_exact.
Qed.

Lemma rle_decode_encode fuel1 fuel2 l index out expected :
  (length l ≤ fuel1)%nat → (length (rle_encode fuel1 l) ≤ fuel2)%nat →
  0 ≤ index → index + zlen (rle_encode fuel1 l) < 9223372036854775808 →
  zlen out + zlen l ≤ expected → expected < u64_bound →
  rle_decode fuel2 (rle_encode fuel1 l) index out expected = Ok (out ++ l).
Proof.
  revert fuel2 l index out. induction fuel1 as [|fuel1 IH]; intros fuel2 l index out H1 H2 Hi Hn He Hx.
  { destruct l; [|simpl in H1; lia]. simpl. by destruct fuel2; rewrite app_nil_r. }
  destruct l as [|x l]; [simpl; by destruct fuel2; rewrite app_nil_r|].
  pose proof (repeated_run_bounds x l) as [Hr Hr'].
  pose proof (literal_length_spec x l) as (Hl1 & Hl2 & Hstop).
  pose proof (repeated_run_take x l) as Htake.
  cbn [rle_encode] in *. destruct (Nat.leb_spec 3 (repeated_run (x :: l))) as [H3|H3].
  - set (n := repeated_run (x :: l)) in *. simpl in H2. destruct fuel2 as [|fuel2]; [lia|].
    rewrite <- (take_drop n (x :: l)) at 2. rewrite Htake, app_assoc. unfold zlen in *.
    rewrite rle_decode_run by (unfold zlen; lia).
    apply IH; unfold zlen; rewrite ?length_app, ?length_replicate, ?length_drop; simpl length in *; lia.
  - set (n := literal_length (x :: l)) in *.
    rewrite !length_cons, length_app, length_take in H2. destruct fuel2 as [|fuel2]; [lia|].
    rewrite zlen_cons, zlen_app in Hn. unfold zlen in *. rewrite length_take in Hn.
    rewrite (rle_decode_literal _ n) by (rewrite ?length_take; unfold zlen; lia).
    rewrite <- (take_drop n (x :: l)) at 3. rewrite app_assoc.
    apply IH; unfold zlen; rewrite ?length_app, ?length_take, ?length_drop; lia.
Qed.

(** ** The encoded size bound

    Every literal packet shorter than 128 bytes is the last one or is followed
    by a run, which saves at least the control byte the literal added. *)
Lemma div_ceil_128_add n : div_ceil (n + 128) 128 = div_ceil n 128 + 1.
Proof. unfold div_ceil. replace (n + 128 + 128 - 1) with (n + 128 - 1 + 1 * 128) by lia. by rewrite Z.div_add. Qed.
Lemma div_ceil_128_mono n m : n ≤ m → div_ceil n 128 ≤ div_ceil m 128.
Proof. intros. unfold div_ceil. apply Z.div_le_mono; lia. Qed.
Lemma rle_encode_size fuel l :
  (length l ≤ fuel)%nat →
  zlen (rle_encode fuel l) ≤ zlen l + div_ceil (zlen l) 128 ∧
  ((3 ≤ repeated_run l)%nat → zlen (rle_encode fuel l) ≤ zlen l - 1 + div_ceil (zlen l) 128).
Proof.
  revert l. induction fuel as [|fuel IH]; intros [|x l] Hf; try (simpl in Hf; lia).
  1,2: rewrite repeated_run_nil; split; [done|lia].
  pose proof (repeated_run_bounds x l) as [Hr Hr'].
  pose proof (literal_length_spec x l) as (Hl1 & Hl2 & Hstop).
  cbn [rle_encode]. destruct (Nat.leb_spec 3 (repeated_run (x :: l))) as [H3|H3].
  - set (n := repeated_run (x :: l)) in *. destruct (IH (drop n (x :: l))) as [Hs _].
    { rewrite length_drop. simpl length in *. lia. }
    assert (zlen (drop n (x :: l)) = zlen (x :: l) - Z.of_nat n) as Hd.
    { unfold zlen. rewrite length_drop. lia. }
    rewrite Hd in Hs. pose proof (div_ceil_128_mono (zlen (x :: l) - Z.of_nat n) (zlen (x :: l))).
    rewrite !(zlen_cons _ (_ :: _)), !(zlen_cons _ (rle_encode _ _)). lia.
  - set (n := literal_length (x :: l)) in *.
    split; [|lia]. rewrite zlen_cons, zlen_app.
    assert (zlen (take n (x :: l)) = Z.of_nat n) as -> by (unfold zlen; rewrite length_take; lia).
    destruct (IH (drop n (x :: l))) as [Hs Hs3].
    { rewrite length_drop. simpl length in *. lia. }
    assert (zlen (drop n (x :: l)) = zlen (x :: l) - Z.of_nat n) as Hd.
    { unfold zlen. rewrite length_drop. lia. }
    rewrite Hd in *. set (N := zlen (x :: l)) in *.
    destruct Hstop as [Hst|[Hst|Hst]].
    + rewrite Hst in *. pose proof (div_ceil_128_add (N - 128)) as Ha.
      rewrite Z.sub_add in Ha. change (Z.of_nat 128) with 128 in *. lia.
    + assert (Z.of_nat n = N) as E by (unfold N, zlen; by rewrite Hst). rewrite E in *. rewrite Z.sub_diag in Hs.
      change (div_ceil 0 128) with 0 in Hs.
      pose proof (div_ceil_128_mono 1 N). change (div_ceil 1 128) with 1 in *.
      assert (1 ≤ N) by (unfold N; rewrite zlen_cons; zlia). lia.
    + specialize (Hs3 Hst). pose proof (div_ceil_128_mono (N - Z.of_nat n) N). lia.
Qed.

(** ** Fields at an offset *)
Lemma get_le_app {E} n a v c off :
  off = zlen a → 0 ≤ v < 256 ^ Z.of_nat n →
  get_le (E:=E) n (a ++ le_bytes n v ++ c) off = Ok v.
Proof.
  intros -> Hv. unfold get_le, slice.
  rewrite get_range_app by (rewrite ?zlen_le_bytes; done). cbn [expect mbind outcome_bind].
  rewrite to_array_ok by apply zlen_le_bytes. cbn. by rewrite le_val_le_bytes_small.
Qed.
Lemma get_le_inv {E} n l off v :
  bytes_ok l → get_le (E:=E) n l off = Ok v →
  zdrop off l = le_bytes n v ++ zdrop (off + Z.of_nat n) l ∧ 0 ≤ v < 256 ^ Z.of_nat n ∧
  0 ≤ off ∧ off + Z.of_nat n ≤ zlen l.
Proof.
  intros Hl H. unfold get_le in H. apply bind_Ok in H as (x & H & Ha). apply slice_Ok in H.
  pose proof (get_range_split _ _ _ _ H) as Hs. pose proof (get_range_len _ _ _ _ H) as Hn.
  apply get_range_Some in H as (?&?&?&_). rewrite to_array_ok in Ha by lia.
  apply Ok_inj in Ha as <-. assert (bytes_ok x) as Hx.
  { apply (bytes_ok_zdrop off) in Hl. rewrite Hs in Hl. by apply bytes_ok_app in Hl as [? _]. }
  pose proof (le_val_bound x Hx) as Hb. rewrite Hn in Hb.
  replace (off + Z.of_nat n - off) with (Z.of_nat n) in * by lia. split_and!; try lia.
  rewrite Hs. f_equal. symmetry. rewrite <- (le_bytes_le_val x Hx) at 2. f_equal. unfold zlen in Hn. lia.
Qed.
Lemma get_le_no_panic {E} n l off :
  0 ≤ off → off + Z.of_nat n ≤ zlen l → ¬ panics (get_le (E:=E) n l off).
Proof.
  intros. unfold get_le. apply bind_no_panic; [apply slice_no_panic; lia|].
  intros s Hs%slice_Ok%get_range_len. rewrite to_array_ok by lia. by intros [].
Qed.

(** ** Frames *)
Definition frame_prefix (magic : bytes) (n : Z) : bytes :=
  magic ++ put_u16 WIRE_VERSION ++ put_u16 0 ++ put_u32 n.
Lemma frame_magic_len c : zlen (frame_magic c) = 8.
Proof. by destruct c. Qed.
Lemma zlen_frame_prefix c n : zlen (frame_prefix (frame_magic c) n) = 16.
Proof.
  unfold frame_prefix, put_u16, put_u32. rewrite !zlen_app, frame_magic_len, !zlen_le_bytes. done.
Qed.
Definition frame_payload (c : Codec_kind) (p : bytes) : bytes :=
  match c with Raw => p | Lossless => rle_encode (length p) p end.

(** Encoding succeeds on every plaintext within the bound: the size check of
    the lossless lane never fires. *)
Lemma encode_codec_frame_eq c p :
  0 < zlen p ≤ MAX_CHUNK_PLAINTEXT →
  encode_codec_frame c p = Ok (frame_prefix (frame_magic c) (zlen p) ++ frame_payload c p) ∧
  zlen (frame_payload c p) ≤ MAX_CHUNK_PLAINTEXT + div_ceil MAX_CHUNK_PLAINTEXT 128.
Proof.
  intros Hp. unfold encode_codec_frame. rewrite (proj2 (orb_false_iff _ _)); [|guard_false].
  assert (frame_header (frame_magic c) (zlen p) = Ok (frame_prefix (frame_magic c) (zlen p))) as Hh.
  { unfold frame_header. rewrite try_from_ok; [done|]. unfold MAX_CHUNK_PLAINTEXT, u32_bound in *. lia. }
  destruct c; cbn [frame_magic frame_payload] in *; rewrite Hh; cbn [mbind outcome_bind].
  - assert (0 ≤ div_ceil MAX_CHUNK_PLAINTEXT 128) by done. split; [done|lia].
  - destruct (rle_encode_size (length p) p) as [Hs _]; [done|].
    pose proof (div_ceil_128_mono (zlen p) MAX_CHUNK_PLAINTEXT).
    split; [|lia]. rewrite (proj2 (Z.ltb_ge _ _)); [done|].
    rewrite zlen_app, (zlen_frame_prefix Lossless).
    unfold MAX_CODEC_OVERHEAD, CODEC_FRAME_HEADER_BYTES. lia.
Qed.

Lemma encode_codec_frame_Ok c p f :
  encode_codec_frame c p = Ok f →
  0 < zlen p ≤ MAX_CHUNK_PLAINTEXT ∧ f = frame_prefix (frame_magic c) (zlen p) ++ frame_payload c p.
Proof.
  intros H. assert (0 < zlen p ≤ MAX_CHUNK_PLAINTEXT) as Hp.
  { unfold encode_codec_frame in H. inv_ok. bools. zlia. }
  destruct (encode_codec_frame_eq c p Hp) as [He _]. rewrite He in H. by apply Ok_inj in H.
Qed.

Lemma decode_codec_frame_encode c p f :
  bytes_ok p → encode_codec_frame c p = Ok f → decode_codec_frame c f (zlen p) = Ok p.
Proof.
  intros Hb He. destruct (encode_codec_frame_Ok c p f He) as [Hp Hf].
  pose proof (encode_codec_frame_eq c p Hp) as [_ Hsz].
  unfold decode_codec_frame. set (pl := frame_payload c p) in *.
  pose proof (zlen_frame_prefix c (zlen p)) as Hpre.
  assert (zlen f = 16 + zlen pl) as Hlf by (subst f; rewrite zlen_app; lia).
  pose proof (zlen_nonneg pl). unfold CODEC_FRAME_HEADER_BYTES.
  rewrite (proj2 (Z.ltb_ge _ _)) by lia.
  pose proof Hf as Hf0. unfold frame_prefix in Hf. rewrite <- !app_assoc in Hf.
  assert (slice (E:=PackError) f 0 8 = Ok (frame_magic c)) as ->.
  { apply slice_Ok. subst f. apply (get_range_app [] (frame_magic c)); by rewrite ?frame_magic_len. }
  cbn [mbind outcome_bind]. rewrite bytes_eqb_refl. cbn [negb].
  assert (get_u16 (E:=PackError) f 8 = Ok WIRE_VERSION) as ->.
  { subst f. apply get_le_app; [by rewrite frame_magic_len|]. split; done. }
  cbn [mbind outcome_bind]. rewrite Z.eqb_refl. cbn [negb].
  assert (get_u16 (E:=PackError) f 10 = Ok 0) as ->.
  { subst f. rewrite app_assoc. apply get_le_app; [|by split].
    unfold put_u16. by rewrite zlen_app, frame_magic_len, zlen_le_bytes. }
  cbn [mbind outcome_bind negb Z.eqb].
  assert (get_u32 (E:=PackError) f 12 = Ok (zlen p)) as ->.
  { subst f. rewrite (app_assoc (put_u16 _)), app_assoc. apply get_le_app.
    - unfold put_u16. by rewrite !zlen_app, frame_magic_len, !zlen_le_bytes.
    - unfold MAX_CHUNK_PLAINTEXT in *. change (256 ^ Z.of_nat 4) with 4294967296. lia. }
  cbn [mbind outcome_bind]. rewrite Z.eqb_refl. cbn [negb orb].
  rewrite (proj2 (orb_false_iff _ _)); [|guard_false].
  assert (slice (E:=PackError) f 16 (zlen f) = Ok pl) as ->.
  { apply slice_Ok. rewrite Hlf, Hf0, <- (app_nil_r pl) at 1. apply get_range_app; lia. }
  cbn [mbind outcome_bind]. destruct c.
  - unfold pl. cbn [frame_payload]. by rewrite Z.eqb_refl.
  - subst pl. cbn [frame_payload] in *. rewrite (rle_decode_encode (length p)); try lia.
    + cbn. rewrite Z.eqb_refl. cbn [negb]. rewrite He. cbn. by rewrite bytes_eqb_refl.
    + assert (MAX_CHUNK_PLAINTEXT + div_ceil MAX_CHUNK_PLAINTEXT 128 < 9223372036854775808) by done.
      lia.
    + rewrite zlen_nil. lia.
    + unfold MAX_CHUNK_PLAINTEXT, u64_bound in *. lia.
Qed.

(** What a decoder that got past the header knows of its input. *)
Lemma frame_header_inv (f magic : bytes) version reserved declared payload :
  bytes_ok f →
  slice (E:=PackError) f 0 8 = Ok magic →
  get_u16 (E:=PackError) f 8 = Ok version → get_u16 (E:=PackError) f 10 = Ok reserved →
  get_u32 (E:=PackError) f 12 = Ok declared →
  slice (E:=PackError) f 16 (zlen f) = Ok payload →
  f = (magic ++ put_u16 version ++ put_u16 reserved ++ put_u32 declared) ++ payload.
Proof.
  intros Hb Hm Hv Hr Hd Hp.
  apply slice_Ok, get_range_split in Hm. apply slice_Ok, get_range_split in Hp.
  apply (get_le_inv 2) in Hv as (Hv & _); [|done]. apply (get_le_inv 2) in Hr as (Hr & _); [|done].
  apply (get_le_inv 4) in Hd as (Hd & _); [|done].
  rewrite (zdrop_all (zlen f)), app_nil_r in Hp by lia. rewrite zdrop_0 in Hm.
  change (8 + Z.of_nat 2) with 10 in Hv. change (10 + Z.of_nat 2) with 12 in Hr.
  change (12 + Z.of_nat 4) with 16 in Hd. rewrite Hp in Hd. rewrite Hd in Hr. rewrite Hr in Hv.
  rewrite Hv in Hm. rewrite <- !app_assoc. exact Hm.
Qed.

(** The decoder accepts only canonical frames, raw ones included. *)
Lemma decode_codec_frame_Ok c f n p :
  bytes_ok f → decode_codec_frame c f n = Ok p →
  encode_codec_frame c p = Ok f ∧ zlen p = n ∧ 0 < n ≤ MAX_CHUNK_PLAINTEXT.
Proof.
  intros Hb H. unfold decode_codec_frame in H. inv_ok. bools.
  match goal with H : bytes_eqb _ _ = true |- _ => apply bytes_eqb_eq in H; subst end.
  match goal with H : get_u32 _ _ = Ok _ |- _ =>
    pose proof (get_le_inv 4 _ _ _ Hb H) as (_ & ? & _) end.
  pose proof (frame_header_inv f _ _ _ _ _ Hb ltac:(eassumption) ltac:(eassumption)
    ltac:(eassumption) ltac:(eassumption) ltac:(eassumption)) as Hf.
  destruct c; inv_ok; bools; subst.
  - split_and!; try lia. destruct (encode_codec_frame_eq Raw p) as [-> _]; [lia|]. done.
  - match goal with H : bytes_eqb _ _ = true |- _ => apply bytes_eqb_eq in H; subst end.
    split_and!; [done..|lia|done].
Qed.

Lemma rle_decode_spec fuel payload index out expected :
  bytes_ok payload → bytes_ok out → (length payload ≤ fuel)%nat →
  match rle_decode fuel payload index out expected with
  | Ok r => bytes_ok r
  | Err _ => True
  | Panic _ => False
  end.
Proof.
  revert payload index out. induction fuel as [|fuel IH]; intros [|c rest] index out Hp Ho Hl;
    try done; [simpl in Hl; lia|].
  apply bytes_ok_cons in Hp as [_ Hrest]. cbn [rle_decode]. simpl length in Hl.
  destruct (negb _).
  - destruct rest as [|v rest]; [done|]. destruct (expected <? _); [done|].
    apply bytes_ok_cons in Hrest as [Hv Hrest]. apply IH; [done| |simpl in Hl; lia].
    apply bytes_ok_app. split; [done|]. by apply Forall_replicate.
  - destruct (checked_add _ _); cbn [ok_or mbind outcome_bind]; [|done].
    destruct (get_range rest 0 _) as [lit|] eqn:Hg; cbn [ok_or mbind outcome_bind]; [|done].
    destruct (expected <? _); [done|]. apply get_range_Some in Hg as (_&_&_&->).
    apply IH; [by apply bytes_ok_zdrop| |].
    + apply bytes_ok_app. split; [done|]. by apply bytes_ok_ztake, bytes_ok_zdrop.
    + unfold zdrop. rewrite length_drop. lia.
Qed.

Lemma decode_codec_frame_bytes c f n p :
  bytes_ok f → decode_codec_frame c f n = Ok p → bytes_ok p.
Proof.
  intros Hb H. unfold decode_codec_frame in H. inv_ok.
  match goal with H : slice _ CODEC_FRAME_HEADER_BYTES _ = Ok _ |- _ =>
    apply slice_Ok, get_range_Some in H as (_&_&_&->) end.
  assert (∀ i j, bytes_ok (ztake i (zdrop j f))) as Ht by auto with bytes.
  destruct c; inv_ok; subst; [done|].
  match goal with H : rle_decode ?a ?b ?i ?o ?e = Ok _ |- _ =>
    pose proof (rle_decode_spec a b i o e) as Hs; rewrite H in Hs end.
  apply Hs; auto with bytes.
Qed.

Lemma encode_codec_frame_no_panic c p : ¬ panics (encode_codec_frame c p).
Proof.
  unfold encode_codec_frame. case_match; [by intros []|].
  assert (∀ m n, ¬ panics (frame_header m n)).
  { intros. unfold frame_header. apply bind_no_panic; [apply ok_or_no_panic|by intros ? _ []]. }
  destruct c; (apply bind_no_panic; [done|]); [by intros ? _ []|]. intros. by case_match; intros [].
Qed.

Lemma decode_codec_frame_no_panic c f n : bytes_ok f → ¬ panics (decode_codec_frame c f n).
Proof.
  intros Hb. unfold decode_codec_frame, CODEC_FRAME_HEADER_BYTES.
  case_match; [by intros []|]. bools.
  apply bind_no_panic; [apply slice_no_panic; lia|]. intros magic _. case_match; [by intros []|].
  apply bind_no_panic; [apply get_le_no_panic; simpl; lia|]. intros version _. case_match; [by intros []|].
  apply bind_no_panic; [apply get_le_no_panic; simpl; lia|]. intros reserved _. case_match; [by intros []|].
  apply bind_no_panic; [apply get_le_no_panic; simpl; lia|]. intros declared _. case_match; [by intros []|].
  apply bind_no_panic; [apply slice_no_panic; lia|]. intros payload Hp%slice_Ok%get_range_Some.
  destruct Hp as (_&_&_&->). destruct c; [by case_match; intros []|].
  apply bind_no_panic.
  - match goal with |- ¬ panics (rle_decode ?a ?b ?i ?o ?e) =>
      pose proof (rle_decode_spec a b i o e) as Hs; destruct (rle_decode a b i o e); try by intros [] end.
    intros _. apply Hs; auto with bytes.
  - intros d _. case_match; [by intros []|].
    apply bind_no_panic; [apply encode_codec_frame_no_panic|]. intros. by case_match; intros [].
Qed.
