(* ===== verification/Deps.v ===== *)
(** * State dependency graphs (crates/kvpack-core/src/validator.rs, validate_dependencies)

    A [BTreeMap] is an association list sorted by key; the [BTreeSet]s of the
    traversal, whose order is never observed, are finite sets.  The recursive
    [visit] takes fuel; running out of it is a [Panic], and
    [validate_dependencies] is shown never to reach it. *)
From Stdlib Require Import ZArith Lia.
From stdpp Require Import base tactics numbers list strings option gmap relations sorting.
From S2P Require Import Prelude Bytes Canonical Wire State Identity.

#[export] Instance StateKey_countable : Countable StateKey :=
  inj_countable' (λ k, (layer k, state_name k)) (λ p, mkStateKey p.1 p.2)
    ltac:(by intros []).

(** ** [BTreeMap<&StateKey, V>] *)
Section btree.
Context {V : Type}.
Abbreviation btree := (list (StateKey * V)).

Fixpoint bt_insert (k : StateKey) (v : V) (m : btree) : btree :=
  match m with
  | [] => [(k, v)]
  | (k', v') :: m' =>
    match StateKey_cmp k k' with
    | Lt => (k, v) :: m
    | Eq => (k, v) :: m'
    | Gt => (k', v') :: bt_insert k v m'
    end
  end.
Definition bt_get (k : StateKey) (m : btree) : option V :=
  snd <$> head (filter (λ p, p.1 = k) m).
(** [iter.collect::<BTreeMap<_, _>>()]: a later entry replaces an earlier one. *)
Definition bt_collect (l : list (StateKey * V)) : btree :=
  foldl (λ m p, bt_insert p.1 p.2 m) [] l.
End btree.

(** ** Translation *)
Definition dependency_graph (states : list FamilyState) : list (StateKey * list StateKey) :=
  bt_collect ((λ s, (fs_key s, fs_dependencies s)) <$> states).

Definition is_some_and_geb (previous : option StateKey) (k : StateKey) : bool :=
  match previous with Some p => StateKey_geb p k | None => false end.

(** The inner [for dependency in dependencies]. *)
Fixpoint check_dependencies (keys : gset StateKey) (key : StateKey)
    (previous : option StateKey) (dependencies : list StateKey) : result unit :=
  match dependencies with
  | [] => Ok tt
  | dependency :: rest =>
      if bool_decide (dependency = key) then Err (Graph "state depends on itself") else
      if negb (bool_decide (dependency ∈ keys)) then Err (Graph "state dependency is missing") else
      if is_some_and_geb previous dependency then
        Err (Graph "state dependencies are not unique canonical order") else
      check_dependencies keys key (Some dependency) rest
  end.
Fixpoint check_graph (keys : gset StateKey) (graph : list (StateKey * list StateKey))
    : result unit :=
  match graph with
  | [] => Ok tt
  | (key, dependencies) :: rest =>
      _ ← check_dependencies keys key None dependencies;
      check_graph keys rest
  end.

(** The two mutable sets [visiting] and [done] are threaded through. *)
Abbreviation visit_state := (gset StateKey * gset StateKey)%type.
Fixpoint for_each_visit {S} (f : StateKey → S → result S) (ks : list StateKey) (st : S)
    : result S :=
  match ks with
  | [] => Ok st
  | k :: ks => st ← f k st; for_each_visit f ks st
  end.
Fixpoint visit (fuel : nat) (graph : list (StateKey * list StateKey)) (key : StateKey)
    (st : visit_state) : result visit_state :=
  match fuel with
  | O => Panic "out of fuel"
  | S fuel =>
      let '(visiting, done) := st in
      if bool_decide (key ∈ done) then Ok (visiting, done) else
      if bool_decide (key ∈ visiting) then Err (Graph "state dependency cycle") else
      '(visiting, done) ←
        (match bt_get key graph with
         | Some dependencies =>
             for_each_visit (visit fuel graph) dependencies ({[key]} ∪ visiting, done)
         | None => Ok ({[key]} ∪ visiting, done)
         end);
      Ok (visiting ∖ {[key]}, {[key]} ∪ done)
  end.

Definition validate_dependencies (states : list FamilyState) : result unit :=
  let keys : gset StateKey := list_to_set (fs_key <$> states) in
  let graph := dependency_graph states in
  _ ← check_graph keys graph;
  _ ← for_each_visit (visit (S (S (size keys))) graph) (fst <$> graph) (∅, ∅);
  Ok tt.

(** ** Specification *)
Definition dep_edge (states : list FamilyState) (a b : StateKey) : Prop :=
  ∃ s, s ∈ states ∧ fs_key s = a ∧ b ∈ fs_dependencies s.
Definition acyclic {A} (R : A → A → Prop) : Prop := ∀ a, ¬ tc R a a.
Definition key_lt (a b : StateKey) : Prop := StateKey_ltb a b = true.
(** The dependencies of a state name other states, each once, in order. *)
Definition deps_canonical (states : list FamilyState) (s : FamilyState) : Prop :=
  StronglySorted key_lt (fs_dependencies s) ∧
  ∀ d, d ∈ fs_dependencies s → d ≠ fs_key s ∧ d ∈ fs_key <$> states.

#[export] Instance key_lt_trans : Transitive key_lt.
Proof. intros a b c. apply StateKey_ltb_trans. Qed.
#[export] Instance key_lt_irrefl : Irreflexive key_lt.
Proof. intros a H. unfold key_lt in H. by rewrite StateKey_ltb_irrefl in H. Qed.

Lemma StateKey_geb_false a b : StateKey_geb a b = false ↔ key_lt a b.
Proof. unfold StateKey_geb, key_lt. rewrite negb_false_iff. done. Qed.

Lemma key_sorted_cons p d ds :
  StronglySorted key_lt (p :: d :: ds) ↔ key_lt p d ∧ StronglySorted key_lt (d :: ds).
Proof.
  split.
  - intros H. apply StronglySorted_inv in H as [H1 H2]. apply Forall_cons_iff in H2 as [? _]. done.
  - intros [H1 H2]. constructor; [done|]. apply StronglySorted_inv in H2 as [_ H2].
    constructor; [done|]. eapply list.Forall_impl; [exact H2|]. intros x. by apply key_lt_trans.
Qed.

(** ** The graph holds exactly the states' dependency lists *)
Section btree_laws.
Context {V : Type}.
Implicit Types (m : list (StateKey * V)).
Lemma bt_insert_perm k v m : k ∉ m.*1 → bt_insert k v m ≡ₚ (k, v) :: m.
Proof.
  induction m as [|[k' v'] m IH]; intros Hk; [done|]. simpl.
  destruct (StateKey_cmp k k') eqn:Hc; [|done|].
  - apply StateKey_cmp_eq in Hc. set_solver.
  - rewrite IH by set_solver. constructor.
Qed.
Lemma bt_collect_perm (l : list (StateKey * V)) : NoDup (l.*1) → bt_collect l ≡ₚ l.
Proof.
  unfold bt_collect. intros Hl.
  enough (∀ m, (∀ k, k ∈ m.*1 → k ∉ l.*1) → foldl (λ m p, bt_insert p.1 p.2 m) m l ≡ₚ m ++ l) as H
    by (apply H; set_solver).
  induction l as [|[k v] l IH]; intros m Hm; simpl; [by rewrite app_nil_r|].
  apply NoDup_cons in Hl as [Hk Hl]. simpl in *.
  rewrite IH; [|done|].
  - rewrite bt_insert_perm by set_solver. simpl. apply Permutation_middle.
  - intros k' Hk'. rewrite bt_insert_perm in Hk' by set_solver. set_solver.
Qed.
Lemma bt_get_Some k v m : NoDup (m.*1) → bt_get k m = Some v ↔ (k, v) ∈ m.
Proof.
  unfold bt_get. induction m as [|[k' v'] m IH]; intros Hm; [set_solver|].
  apply NoDup_cons in Hm as [Hk Hm]. rewrite filter_cons. simpl in *. case_decide as Hd.
  - subst k'. simpl. split; [intros [= ->]; set_solver|]. intros Hin.
    apply elem_of_cons in Hin as [[= ->]|Hin]; [done|].
    destruct Hk. apply list_elem_of_fmap. by exists (k, v).
  - rewrite IH by done. set_solver.
Qed.
End btree_laws.

Section graph.
Context (states : list FamilyState) (Hnd : NoDup (fs_key <$> states)).
Let graph := dependency_graph states.

Lemma dependency_graph_perm :
  graph ≡ₚ (λ s, (fs_key s, fs_dependencies s)) <$> states.
Proof. apply bt_collect_perm. by rewrite <- list_fmap_compose. Qed.
Lemma dependency_graph_nodup : NoDup (graph.*1).
Proof. rewrite dependency_graph_perm. by rewrite <- list_fmap_compose. Qed.
Lemma dependency_graph_keys k : k ∈ graph.*1 ↔ k ∈ fs_key <$> states.
Proof. rewrite dependency_graph_perm. by rewrite <- list_fmap_compose. Qed.
Lemma dependency_graph_get k ds :
  bt_get k graph = Some ds ↔ ∃ s, s ∈ states ∧ fs_key s = k ∧ fs_dependencies s = ds.
Proof.
  rewrite bt_get_Some by apply dependency_graph_nodup.
  rewrite dependency_graph_perm, list_elem_of_fmap. naive_solver.
Qed.
Lemma dep_edge_get a b :
  dep_edge states a b ↔ ∃ ds, bt_get a graph = Some ds ∧ b ∈ ds.
Proof. unfold dep_edge. setoid_rewrite dependency_graph_get. naive_solver. Qed.
End graph.

(** ** The dependency lists *)
Lemma check_dependencies_Ok keys key previous ds :
  check_dependencies keys key previous ds = Ok tt ↔
  (∀ d, d ∈ ds → d ≠ key ∧ d ∈ keys) ∧
  match previous with Some p => StronglySorted key_lt (p :: ds) | None => StronglySorted key_lt ds end.
Proof.
  revert previous. induction ds as [|d ds IH]; intros previous; simpl.
  { split; [|done]. intros _. split; [set_solver|]. destruct previous; repeat constructor. }
  pose proof (λ p, key_sorted_cons p d ds) as Hs.
  case_bool_decide; [set_solver|]. case_bool_decide; simpl; [|set_solver].
  destruct previous as [p|]; simpl.
  - rewrite Hs, <- StateKey_geb_false. destruct (StateKey_geb p d) eqn:Hg; [naive_solver|].
    rewrite IH. set_solver.
  - rewrite IH. set_solver.
Qed.
Lemma check_dependencies_no_panic keys key previous ds :
  ¬ panics (check_dependencies keys key previous ds).
Proof.
  revert previous. induction ds as [|d ds IH]; intros previous; simpl; [by intros []|].
  repeat case_match; try by intros []. apply IH.
Qed.
Lemma check_graph_Ok keys graph :
  check_graph keys graph = Ok tt ↔
  ∀ k ds, (k, ds) ∈ graph → check_dependencies keys k None ds = Ok tt.
Proof.
  induction graph as [|[k ds] graph IH]; simpl; [set_solver|].
  rewrite bind_Ok. split.
  - intros ([] & H1 & H2) k' ds' [[= -> ->]|?]%elem_of_cons; [done|]. by apply IH.
  - intros H. exists tt. split; [apply H; set_solver|]. apply IH. set_solver.
Qed.
Lemma check_graph_no_panic keys graph : ¬ panics (check_graph keys graph).
Proof.
  induction graph as [|[k ds] graph IH]; simpl; [by intros []|].
  apply bind_no_panic; auto using check_dependencies_no_panic.
Qed.

Lemma for_each_visit_complete (f : StateKey → visit_state → result visit_state) ks visiting fin :
  (∀ k fin, k ∈ ks → ∃ fin', f k (visiting, fin) = Ok (visiting, fin')) →
  ∃ fin', for_each_visit f ks (visiting, fin) = Ok (visiting, fin').
Proof.
  revert fin. induction ks as [|k ks IH]; simpl; intros fin Hf; [by eexists|].
  destruct (Hf k fin) as [fin' ->]; [set_solver|]. simpl. apply IH. set_solver.
Qed.

(** Each nested call has one more key on its path. *)
Lemma path_size (keys visiting : gset StateKey) k :
  k ∈ keys → k ∉ visiting → (size (keys ∖ ({[k]} ∪ visiting)) < size (keys ∖ visiting))%nat.
Proof.
  intros Hk Hv. apply subset_size. split; [set_solver|]. intros Hc. specialize (Hc k). set_solver.
Qed.

(** ** The traversal

    [settled] is the loop invariant of the depth-first search: every key in
    [done] has only finite descending dependency chains. *)
Section visit.
Context (graph : list (StateKey * list StateKey)).
Let edge (a b : StateKey) : Prop := ∃ ds, bt_get a graph = Some ds ∧ b ∈ ds.
Definition settled (a : StateKey) : Prop := Acc (flip edge) a.

Definition visit_post (k : StateKey) (st st' : visit_state) : Prop :=
  st'.1 = st.1 ∧ st.2 ⊆ st'.2 ∧ k ∈ st'.2 ∧ ∀ x, x ∈ st'.2 → settled x.

Lemma for_each_visit_sound (f : StateKey → visit_state → result visit_state) ks st st' :
  (∀ k st st', (∀ x, x ∈ st.2 → settled x) → f k st = Ok st' → visit_post k st st') →
  (∀ x, x ∈ st.2 → settled x) →
  for_each_visit f ks st = Ok st' →
  st'.1 = st.1 ∧ st.2 ⊆ st'.2 ∧ (∀ k, k ∈ ks → k ∈ st'.2) ∧ ∀ x, x ∈ st'.2 → settled x.
Proof.
  intros Hf. revert st. induction ks as [|k ks IH]; simpl; intros st Hst H.
  { inv_ok. subst. split_and!; [done|done|set_solver|done]. }
  apply bind_Ok in H as (st1 & H1 & H2).
  destruct (Hf k st st1 Hst H1) as (E1 & S1 & K1 & A1).
  destruct (IH st1 A1 H2) as (E2 & S2 & K2 & A2).
  split_and!; [congruence|set_solver|set_solver|done].
Qed.

Lemma visit_sound fuel k st st' :
  (∀ x, x ∈ st.2 → settled x) → visit fuel graph k st = Ok st' → visit_post k st st'.
Proof.
  revert k st st'. induction fuel as [|fuel IH]; intros k [visiting finished] st' Hst H; [done|].
  cbn [visit] in H. case_bool_decide as Hd.
  { inv_ok. subst. by split_and!. }
  case_bool_decide as Hv; [done|]. inv_ok. destruct x as [v1 d1]. inv_ok. subst st'.
  match goal with H : _ = Ok (v1, d1) |- _ => rename H into Hrun end.
  assert (v1 = {[k]} ∪ visiting ∧ finished ⊆ d1 ∧ settled k ∧ ∀ x, x ∈ d1 → settled x)
    as (-> & Hsub & Hk & Hd1).
  { destruct (bt_get k graph) as [ds|] eqn:Hg.
    - apply for_each_visit_sound in Hrun as (E & S & K & A); [|naive_solver..].
      cbn [fst snd] in *. split_and!; [exact E|exact S| |exact A]. constructor. intros b (ds' & Hds & Hb).
      rewrite Hg in Hds. injection Hds as <-. by apply A, K.
    - inv_ok. simplify_eq. split_and!; [reflexivity|reflexivity| |exact Hst]. constructor. intros b (ds' & Hds & _). congruence. }
  split_and!; simpl; set_solver.
Qed.

(** Completeness: on a graph without cycles the search succeeds, given fuel
for the keys that are not on the current path. *)
Context (keys : gset StateKey).
Hypothesis Hedge : ∀ a b, edge a b → b ∈ keys.
Hypothesis Hacyclic : acyclic edge.

Definition path_inv (k : StateKey) (visiting : gset StateKey) : Prop :=
  visiting ⊆ keys ∧ ∀ v, v ∈ visiting → tc edge v k.

Lemma visit_complete fuel k visiting fin :
  k ∈ keys → path_inv k visiting → (size (keys ∖ visiting) < fuel)%nat →
  ∃ done', visit fuel graph k (visiting, fin) = Ok (visiting, done').
Proof.
  revert k visiting fin. induction fuel as [|fuel IH]; intros k visiting fin Hk [Hsub Hpath] Hf; [lia|].
  cbn [visit]. case_bool_decide; [by eexists|]. case_bool_decide as Hv.
  { destruct (Hacyclic k). by apply Hpath. }
  assert (({[k]} ∪ visiting) ∖ {[k]} = visiting) as Hrm by set_solver.
  destruct (bt_get k graph) as [ds|] eqn:Hg; [|simpl; rewrite Hrm; by eexists].
  destruct (for_each_visit_complete (visit fuel graph) ds ({[k]} ∪ visiting) fin) as [d' ->].
  - intros b d Hb. assert (edge k b) as He by (by exists ds). apply IH; [eauto| |].
    + split; [set_solver|]. intros v [->%elem_of_singleton|Hv']%elem_of_union; [by apply tc_once|].
      by eapply tc_r; [apply Hpath|].
    + pose proof (path_size keys visiting k Hk Hv). lia.
  - simpl. rewrite Hrm. by eexists.
Qed.
End visit.

Lemma acc_acyclic {A} (R : A → A → Prop) a : Acc (flip R) a → ¬ tc R a a.
Proof.
  induction 1 as [a _ IH]. intros Hc.
  assert (∃ b, R a b ∧ (b = a ∨ tc R b a)) as (b & Hab & [->|Hba]) by (inversion Hc; eauto).
  - by apply (IH a Hab), tc_once.
  - apply (IH b Hab). by eapply tc_r.
Qed.

Lemma fmap_deps_get states a b :
  NoDup (fs_key <$> states) → dep_edge states a b →
  ∃ ds, bt_get a (dependency_graph states) = Some ds ∧ b ∈ ds.
Proof. intros Hn. by apply dep_edge_get. Qed.

Lemma tc_iff {A} (R Q : A → A → Prop) : (∀ a b, R a b ↔ Q a b) → ∀ a b, tc R a b → tc Q a b.
Proof. intros H a b. induction 1; [apply tc_once|eapply tc_l]; try done; by apply H. Qed.

Section validate_dependencies.
Context (states : list FamilyState) (Hnd : NoDup (fs_key <$> states)).
Let graph := dependency_graph states.
Let keys : gset StateKey := list_to_set (fs_key <$> states).

Lemma check_graph_canonical :
  check_graph keys graph = Ok tt ↔ Forall (deps_canonical states) states.
Proof.
  rewrite check_graph_Ok, list.Forall_forall.
  assert (∀ k ds, (k, ds) ∈ graph ↔ ∃ s, s ∈ states ∧ fs_key s = k ∧ fs_dependencies s = ds) as Hg.
  { intros. rewrite <- dependency_graph_get by done. by rewrite bt_get_Some by by apply dependency_graph_nodup. }
  assert (∀ d, d ∈ keys ↔ d ∈ fs_key <$> states) as Hk by (intros; apply elem_of_list_to_set).
  split.
  - intros H s Hs. specialize (H (fs_key s) (fs_dependencies s)).
    rewrite Hg, check_dependencies_Ok in H. destruct H as [H1 H2]; [by eexists|].
    split; [done|]. intros d Hd. rewrite <- Hk. by apply H1.
  - intros H k ds (s & Hs & <- & <-)%Hg. destruct (H s Hs) as [H1 H2].
    apply check_dependencies_Ok. split; [|done]. intros d Hd. rewrite Hk. by apply H2.
Qed.

Lemma validate_dependencies_Ok :
  validate_dependencies states = Ok tt ↔
  Forall (deps_canonical states) states ∧ acyclic (dep_edge states).
Proof.
  unfold validate_dependencies. fold keys graph. rewrite <- check_graph_canonical. split.
  - intros H. apply bind_Ok in H as ([] & Hc & H). apply bind_Ok in H as (st & Hv & _).
    split; [done|]. apply for_each_visit_sound with (graph := graph) in Hv as (_ & _ & Hin & Hset).
    + intros a Ha. assert (a ∈ graph.*1) as Hg.
      { apply dependency_graph_keys; [done|]. assert (∃ b, dep_edge states a b) as (b & s & Hs & <- & _).
        { inversion Ha; eauto. } by apply list_elem_of_fmap_2. }
      eapply acc_acyclic; [apply Hset, Hin, Hg|]. eapply tc_iff; [|exact Ha].
      intros. by apply dep_edge_get.
    + intros k st1 st2 Hst. by apply visit_sound.
    + set_solver.
  - intros [Hc Hac]. rewrite Hc. cbn [mbind outcome_bind].
    destruct (for_each_visit_complete (visit (S (S (size keys))) graph) (graph.*1) ∅ ∅) as [d ->]; [|done].
    intros k d Hk. apply visit_complete with (keys := keys).
    + intros a b (s & Hs & <- & Hb)%(dep_edge_get _ Hnd). apply elem_of_list_to_set.
      apply check_graph_canonical in Hc. rewrite list.Forall_forall in Hc.
      by apply (Hc s Hs).
    + intros a Ha. apply (Hac a). eapply tc_iff; [|exact Ha]. intros. by rewrite dep_edge_get.
    + apply elem_of_list_to_set. by apply dependency_graph_keys in Hk.
    + split; set_solver.
    + rewrite difference_empty_L. lia.
Qed.
End validate_dependencies.

(** ** Fuel: the search of [validate_dependencies] never runs out of it *)
Definition keeps_path (visiting : gset StateKey) (r : result visit_state) : Prop :=
  match r with Ok st => st.1 = visiting | Err _ => True | Panic _ => False end.

Lemma for_each_visit_keeps (f : StateKey → visit_state → result visit_state) ks visiting fin :
  (∀ k fin, k ∈ ks → keeps_path visiting (f k (visiting, fin))) →
  keeps_path visiting (for_each_visit f ks (visiting, fin)).
Proof.
  revert fin. induction ks as [|k ks IH]; simpl; intros fin Hf; [done|].
  pose proof (Hf k fin ltac:(set_solver)) as Hk. destruct (f k (visiting, fin)) as [[v d]|?|?]; try done.
  simpl in Hk. subst v. apply IH. set_solver.
Qed.

Section fuel.
Context (graph : list (StateKey * list StateKey)) (keys : gset StateKey).
Hypothesis Hedge : ∀ a ds b, bt_get a graph = Some ds → b ∈ ds → b ∈ keys.

Lemma visit_keeps fuel k visiting fin :
  k ∈ keys → visiting ⊆ keys → (size (keys ∖ visiting) < fuel)%nat →
  keeps_path visiting (visit fuel graph k (visiting, fin)).
Proof.
  revert k visiting fin. induction fuel as [|fuel IH]; intros k visiting fin Hk Hsub Hf; [lia|].
  cbn [visit]. case_bool_decide; [done|]. case_bool_decide as Hv; [done|].
  assert (({[k]} ∪ visiting) ∖ {[k]} = visiting) as Hrm by set_solver.
  destruct (bt_get k graph) as [ds|] eqn:Hg; [|exact Hrm].
  pose proof (for_each_visit_keeps (visit fuel graph) ds ({[k]} ∪ visiting) fin) as Hfor.
  destruct (for_each_visit _ _ _) as [[v d]|?|?]; cbn [keeps_path mbind outcome_bind fst] in *; [|done|].
  - rewrite Hfor; [done|]. intros b d' Hb. apply IH; [by eapply Hedge|set_solver|].
    pose proof (path_size keys visiting k Hk Hv). lia.
  - apply Hfor. intros b d' Hb. apply IH; [by eapply Hedge|set_solver|].
    pose proof (path_size keys visiting k Hk Hv). lia.
Qed.
End fuel.

Lemma bt_insert_elem {V} k (v : V) m p : p ∈ bt_insert k v m → p = (k, v) ∨ p ∈ m.
Proof.
  induction m as [|[k' v'] m IH]; simpl; [set_solver|].
  destruct (StateKey_cmp k k'); set_solver.
Qed.
Lemma bt_collect_elem {V} (l : list (StateKey * V)) p : p ∈ bt_collect l → p ∈ l.
Proof.
  unfold bt_collect. enough (∀ m, p ∈ foldl (λ m p, bt_insert p.1 p.2 m) m l → p ∈ m ∨ p ∈ l) as H
    by (intros Hp; destruct (H _ Hp); set_solver).
  induction l as [|[k v] l IH]; intros m; simpl; [auto|].
  intros [[->|]%bt_insert_elem|]%IH; set_solver.
Qed.

Lemma validate_dependencies_no_panic states : ¬ panics (validate_dependencies states).
Proof.
  unfold validate_dependencies. apply bind_no_panic; [apply check_graph_no_panic|].
  intros [] Hc. set (keys := list_to_set _) in *. set (graph := dependency_graph states) in *.
  pose proof (for_each_visit_keeps (visit (S (S (size keys))) graph) (graph.*1) ∅ ∅) as Hk.
  apply bind_no_panic; [|by intros ? _ []]. destruct (for_each_visit _ _ _); try by intros [].
  intros _. apply Hk. intros k fin Hin. apply visit_keeps with (keys := keys).
  - intros a ds b Hg Hb. unfold bt_get in Hg. apply fmap_Some in Hg as ([a' ds'] & Hh & ->).
    assert ((a', ds') ∈ graph) as Hin'.
    { destruct (filter _ graph) eqn:Hf; [done|]. injection Hh as ->.
      apply (list_elem_of_filter (λ p, p.1 = a)). rewrite Hf. set_solver. }
    rewrite check_graph_Ok in Hc. apply Hc, check_dependencies_Ok in Hin' as [H _]. by apply H.
  - apply list_elem_of_fmap in Hin as (p & -> & Hp). apply bt_collect_elem in Hp.
    apply elem_of_list_to_set. set_solver.
  - set_solver.
  - rewrite difference_empty_L. lia.
Qed.
