(* ===== verification/Validator.v ===== *)
(** * Manifest validation (crates/kvpack-core/src/validator.rs)

    The whole of [validate_family] and [validate_manifest].  The loop bodies
    are definitions of their own; [for ... { ... ? }] loops are fixpoints that
    thread the loop's mutable variables.  A subtraction on [u64] panics when it
    would underflow, as a checked build does. *)
From Stdlib Require Import ZArith Lia.
From stdpp Require Import base tactics numbers list strings option gmap sorting.
From S2P Require Import Prelude Bytes Canonical Wire State Identity Manifest Deps.

Record ManifestBounds := mkManifestBounds {
    max_states : Z;
    max_chunks_per_state : Z;
    max_restored_bytes : Z
}.
Definition ManifestBounds_default : ManifestBounds :=
  mkManifestBounds MAX_STATES MAX_CHUNKS_PER_STATE (4 * 1024 * 1024 * 1024 * 1024).
Record ValidationContext := mkValidationContext { bounds : ManifestBounds }.

Definition checked_product (values : list Z) (error : string) : result Z :=
  product_from 1 (Bounds error) values.

(** [a - b] on [u64]. *)
Definition usub (a b : Z) : result Z :=
  expect (checked_sub a b) "attempt to subtract with overflow".

(** ** Families *)
Fixpoint token_dimensions (index : Z) (dims : list StaticDimension) : list Z :=
  match dims with
  | [] => []
  | Token :: dims => index :: token_dimensions (index + 1) dims
  | Fixed _ :: dims => token_dimensions (index + 1) dims
  end.
Definition fixed_dimensions (dims : list StaticDimension) : list Z :=
  omap (λ d, match d with Token => None | Fixed v => Some v end) dims.

Definition validate_family_state (m : RepresentationMode) (previous : option StateKey)
    (s : FamilyState) : result unit :=
  _ ← validate_state_key (fs_key s);
  if is_some_and_geb previous (fs_key s) then
    Err (Semantics "family states are not unique canonical order") else
  if negb (fs_codec_version s =? 1) then Err (Codec_error "unsupported family codec version") else
  let rank := zlen (fs_dimensions s) in
  if (rank =? 0) || (MAX_RANK <? rank) || (rank <=? fs_token_axis s) then
    Err (Semantics "family token axis is outside its rank") else
  if negb (bool_decide (token_dimensions 0 (fs_dimensions s) = [fs_token_axis s])) then
    Err (Semantics "family must have exactly one declared token dimension") else
  elements ← checked_product (fixed_dimensions (fs_dimensions s))
               "family elements-per-token overflows u64";
  if negb (elements =? fs_elements_per_token s) || (elements =? 0) then
    Err (Semantics "family elements-per-token is not canonical") else
  if bool_decide (width_bytes (fs_dtype s) = None) then
    Err (Semantics "family dtype has no fixed width") else
  if bool_decide (fs_layout s = Contiguous) && bool_decide (fs_token_axis_rule s = Gather) then
    Err (Semantics "contiguous family cannot require strided token gathering") else
  if bool_decide (m = Portable) &&
     (negb (bool_decide (fs_layout s = Contiguous)) ||
      negb (bool_decide (fs_token_axis_rule s = Direct) ||
            bool_decide (fs_token_axis_rule s = TailWindow))) then
    Err (Semantics "portable family requires contiguous direct token streams")
  else Ok tt.

Fixpoint validate_family_states (m : RepresentationMode) (previous : option StateKey)
    (states : list FamilyState) : result unit :=
  match states with
  | [] => Ok tt
  | s :: rest =>
      _ ← validate_family_state m previous s;
      validate_family_states m (Some (fs_key s)) rest
  end.

Definition validate_family (f : RepresentationFamilyId) : result unit :=
  if is_zero_id (engine_cache_abi f) || is_zero_id (topology f) || is_zero_id (shard_map f) then
    Err (Semantics "representation family contains a zero identity") else
  if page_size_tokens f =? 0 then
    Err (Semantics "representation family page size must be nonzero") else
  if (zlen (family_states f) =? 0) || (MAX_STATES <? zlen (family_states f)) then
    Err (Bounds "family state count is outside bounds") else
  _ ← validate_family_states (mode f) None (family_states f);
  validate_dependencies (family_states f).

(** ** Shapes *)
Definition expected_dimension (tokens : Z) (d : StaticDimension) : Z :=
  match d with Token => tokens | Fixed value => value end.
Definition is_token (d : StaticDimension) : bool :=
  match d with Token => true | Fixed _ => false end.

Fixpoint validate_dims (index token_axis tokens : Z) (pairs : list (Z * StaticDimension))
    : result unit :=
  match pairs with
  | [] => Ok tt
  | (actual, dimension) :: rest =>
      if negb (actual =? expected_dimension tokens dimension)
         || negb (eqb (index =? token_axis) (is_token dimension)) then
        Err (Semantics "realized shape does not satisfy static family dimensions")
      else validate_dims (index + 1) token_axis tokens rest
  end.
Definition validate_shape (shape : Shape) (f : FamilyState) (expected_tokens : Z) : result unit :=
  if negb (sh_rank shape =? zlen (fs_dimensions f)) then
    Err (Semantics "realized shape rank does not match family rank")
  else validate_dims 0 (fs_token_axis f) expected_tokens (zip (Shape_dims shape) (fs_dimensions f)).

Fixpoint footprint_fold (offset : Z) (pairs : list (Z * Z)) : option Z :=
  match pairs with
  | [] => Some offset
  | (dimension, stride) :: rest =>
      count ← checked_sub dimension 1;
      term ← checked_mul count stride;
      offset' ← checked_add offset term;
      footprint_fold offset' rest
  end.
Definition physical_footprint (shape : Shape) (strides : list Z) (width : Z) : result Z :=
  last_element ← ok_or (footprint_fold 0 (zip (Shape_dims shape) strides))
                   (Bounds "state physical footprint overflows u64");
  ok_or (elements ← checked_add last_element 1; checked_mul elements width)
    (Bounds "state physical footprint overflows u64").

(** The [for (dimension, stride) in dims.zip(strides).rev()] of a contiguous state. *)
Fixpoint check_contiguous (expected_stride : Z) (rev_pairs : list (Z * Z)) : result unit :=
  match rev_pairs with
  | [] => Ok tt
  | (dimension, stride) :: rest =>
      if negb (stride =? expected_stride) then
        Err (Semantics "contiguous state has noncanonical strides") else
      next ← ok_or (checked_mul expected_stride dimension)
               (Bounds "contiguous stride calculation overflows u64");
      check_contiguous next rest
  end.

(** ** Atomic groups *)
Fixpoint check_group_states (expected : gset StateKey) (previous : option StateKey)
    (states : list StateKey) (observed : gset StateKey) : result (gset StateKey) :=
  match states with
  | [] => Ok observed
  | s :: rest =>
      if negb (bool_decide (s ∈ expected)) then
        Err (Graph "atomic group names an unknown state") else
      if is_some_and_geb previous s then
        Err (Semantics "atomic-group states are not unique canonical order") else
      if bool_decide (s ∈ observed) then
        Err (Graph "state appears in multiple atomic groups") else
      check_group_states expected (Some s) rest ({[s]} ∪ observed)
  end.
Fixpoint check_groups (expected : gset StateKey) (previous_id : Z) (groups : list AtomicGroup)
    (observed : gset StateKey) : result (gset StateKey) :=
  match groups with
  | [] => Ok observed
  | g :: rest =>
      if (ag_id g =? 0) || (ag_id g <=? previous_id) then
        Err (Semantics "atomic groups are not unique canonical order") else
      observed ← check_group_states expected None (ag_states g) observed;
      check_groups expected (ag_id g) rest observed
  end.
Definition validate_atomic_groups (m : CutManifest) : result unit :=
  let expected : gset StateKey := list_to_set (fs_key <$> family_states (cm_family m)) in
  observed ← check_groups expected 0 (rc_atomic_groups (cm_realized_schema m)) ∅;
  if negb (bool_decide (observed = expected)) then
    Err (Graph "atomic groups do not cover the complete family inventory")
  else Ok tt.

(** ** Manifests *)
Definition validate_header (m : CutManifest) : result unit :=
  if is_zero_id (cm_tenant_namespace m) then Err (Semantics "tenant namespace is zero") else
  if cm_key_epoch m =? 0 then Err (Semantics "key epoch must be nonzero") else
  let s := cm_semantic_model m in
  if existsb is_zero_id [weights_config s; adapters s; tokenizer_template s;
                         position_semantics s; qualified_math s] then
    Err (Semantics "semantic model identity contains a zero component") else
  let c := cm_input_cut m in
  if is_zero_id (token_root c) || is_zero_id (auxiliary_input_root c) || (token_count c =? 0) then
    Err (Semantics "input cut identity is invalid")
  else Ok tt.

(** [(cut_start, cut_count)] *)
Definition cut_range (m : CutManifest) : result (Z * Z) :=
  match rc_kind (cm_realized_schema m) with
  | Full => Ok (0, token_count (cm_input_cut m))
  | Delta parent parent_cut depth =>
      if is_zero_id parent || is_zero_id (token_root parent_cut)
         || is_zero_id (auxiliary_input_root parent_cut) then
        Err (Graph "delta parent identity is invalid") else
      if (depth =? 0) || (MAX_DELTA_DEPTH <? depth) then
        Err (Graph "delta depth is outside 1..=7") else
      if negb (bytes_eqb (auxiliary_input_root parent_cut)
                 (auxiliary_input_root (cm_input_cut m)))
         || (token_count parent_cut =? 0)
         || (token_count (cm_input_cut m) <=? token_count parent_cut) then
        Err (Graph "delta parent cut is not a compatible strict prefix") else
      count ← usub (token_count (cm_input_cut m)) (token_count parent_cut);
      Ok (token_count parent_cut, count)
  end.

(** [(range_start, range_count)] of one state. *)
Definition state_range (m : CutManifest) (cut : Z * Z) (f : FamilyState)
    (r : RealizedStateSchema) : result (Z * Z) :=
  if bool_decide (fs_token_axis_rule f = TailWindow) then
    if negb (bool_decide (rc_kind (cm_realized_schema m) = Full)) || (rs_logical_count r =? 0)
       || (token_count (cm_input_cut m) <? rs_logical_count r) then
      Err (Semantics "tail-window states require one nonempty full snapshot") else
    start ← usub (token_count (cm_input_cut m)) (rs_logical_count r);
    Ok (start, rs_logical_count r)
  else Ok cut.

(** The ranges, strides and physical spans of one state; returns its width and
    its segment and complete byte counts. *)
Definition validate_realized (m : CutManifest) (range : Z * Z) (f : FamilyState)
    (r : RealizedStateSchema) : result (Z * Z * Z) :=
  let '(range_start, range_count) := range in
  let full_tokens := if bool_decide (fs_token_axis_rule f = TailWindow) then range_count
                     else token_count (cm_input_cut m) in
  _ ← validate_shape (rs_full_shape r) f full_tokens;
  _ ← validate_shape (rs_segment_shape r) f range_count;
  if negb (rs_logical_start r =? range_start) || negb (rs_logical_count r =? range_count)
     || negb (rs_absolute_position r =? token_count (cm_input_cut m))
     || negb (rs_window r =? 0) then
    Err (Semantics "realized state range does not match the exact manifest cut") else
  if negb (zlen (rs_strides r) =? sh_rank (rs_full_shape r))
     || existsb (λ s, s =? 0) (rs_strides r) then
    Err (Semantics "realized state strides do not match its rank") else
  _ ← (if bool_decide (fs_layout f = Contiguous) then
         check_contiguous 1 (reverse (zip (Shape_dims (rs_full_shape r)) (rs_strides r)))
       else Ok tt);
  width ← ok_or (width_bytes (fs_dtype f)) (Semantics "family dtype has no fixed width");
  segment_elements ← element_count (rs_segment_shape r);
  segment_bytes ← ok_or (checked_mul segment_elements width)
                    (Bounds "segment byte count overflows u64");
  complete_elements ← element_count (rs_full_shape r);
  complete_bytes ← ok_or (checked_mul complete_elements width)
                     (Bounds "complete byte count overflows u64");
  let physical_token_offset :=
    if bool_decide (fs_token_axis_rule f = TailWindow) then 0 else range_start in
  stride ← index (rs_strides r) (fs_token_axis f);
  physical_offset ← ok_or (value ← checked_mul physical_token_offset stride;
                           checked_mul value width)
                      (Bounds "physical token offset overflows u64");
  physical_span ← physical_footprint (rs_segment_shape r) (rs_strides r) width;
  complete_physical ← physical_footprint (rs_full_shape r) (rs_strides r) width;
  if negb (rs_physical_offset_bytes r =? physical_offset)
     || negb (rs_physical_span_bytes r =? physical_span)
     || negb (rs_complete_physical_bytes r =? complete_physical) then
    Err (Semantics "realized physical span is not canonical")
  else Ok (width, segment_bytes, complete_bytes).

(** The [for (span, chunk)] loop; threads [expected_token] and [expected_offset]. *)
Fixpoint validate_spans (bytes_per_token : Z) (pairs : list (ChunkSpan * ChunkRef))
    (expected_token expected_offset : Z) : result (Z * Z) :=
  match pairs with
  | [] => Ok (expected_token, expected_offset)
  | (span, chunk) :: rest =>
      if negb (cs_token_start span =? expected_token) || (cs_token_count span =? 0)
         || negb (cs_plaintext_offset span =? expected_offset) then
        Err (Semantics "chunk spans are not a contiguous token/byte partition") else
      expected_bytes ← ok_or (checked_mul (cs_token_count span) bytes_per_token)
                         (Bounds "chunk span byte count overflows u64");
      if negb (expected_bytes =? cs_plaintext_bytes span) || (expected_bytes =? 0)
         || (MAX_CHUNK_PLAINTEXT <? expected_bytes)
         || negb (cr_plaintext_bytes chunk =? cs_plaintext_bytes span) then
        Err (Semantics "chunk span has a noncanonical plaintext size") else
      if is_zero_id (cr_chunk_id chunk) || is_zero_id (cr_object_key chunk)
         || is_zero_id (cr_object_digest chunk) || (cr_key_epoch chunk =? 0) then
        Err (Semantics "chunk reference contains a zero identity") else
      if negb (cr_object_bytes chunk mod ALIGNMENT =? 0)
         || (cr_object_bytes chunk <=? CHUNK_HEADER_BYTES)
         || (MAX_CHUNK_OBJECT_BYTES <? cr_object_bytes chunk) then
        Err (Semantics "chunk object size is not aligned") else
      expected_token ← ok_or (checked_add expected_token (cs_token_count span))
                         (Bounds "chunk token range overflows u64");
      expected_offset ← ok_or (checked_add expected_offset expected_bytes)
                          (Bounds "chunk byte range overflows u64");
      validate_spans bytes_per_token rest expected_token expected_offset
  end.

Definition validate_chunks (ctx : ValidationContext) (range : Z * Z) (width : Z)
    (f : FamilyState) (r : RealizedStateSchema) (p : StateManifest) : result unit :=
  let '(range_start, range_count) := range in
  if (zlen (rs_chunk_spans r) =? 0)
     || (max_chunks_per_state (bounds ctx) <? zlen (rs_chunk_spans r))
     || negb (zlen (sm_chunks p) =? zlen (rs_chunk_spans r)) then
    Err (Bounds "state chunk count is outside bounds") else
  bytes_per_token ← ok_or (checked_mul (fs_elements_per_token f) width)
                      (Bounds "bytes per token overflows u64");
  if (bytes_per_token =? 0) || (MAX_CHUNK_PLAINTEXT <? bytes_per_token) then
    Err (Bounds "one state token does not fit in a bounded chunk") else
  base ← ok_or (checked_mul range_start bytes_per_token)
           (Bounds "state plaintext base offset overflows u64");
  '(expected_token, expected_offset) ←
    validate_spans bytes_per_token (zip (rs_chunk_spans r) (sm_chunks p)) range_start base;
  range_end ← ok_or (checked_add range_start range_count)
                (Bounds "state token range overflows u64");
  expected_end_offset ← ok_or (checked_mul range_end bytes_per_token)
                          (Bounds "state plaintext end offset overflows u64");
  if negb (expected_token =? range_end) || negb (expected_offset =? expected_end_offset) then
    Err (Semantics "chunk spans do not cover the complete realized state segment")
  else Ok tt.

(** One iteration of the state loop; returns the state's byte counts. *)
Definition validate_state (m : CutManifest) (ctx : ValidationContext) (cut : Z * Z)
    (f : FamilyState) (r : RealizedStateSchema) (p : StateManifest) : result (Z * Z) :=
  if negb (bool_decide (fs_key f = rs_key r)) || negb (bool_decide (rs_key r = sm_key p)) then
    Err (Semantics "family, realized schema, and payload state order differ") else
  range ← state_range m cut f r;
  '(width, segment_bytes, complete_bytes) ← validate_realized m range f r;
  _ ← validate_chunks ctx range width f r p;
  Ok (segment_bytes, complete_bytes).

Fixpoint validate_states (m : CutManifest) (ctx : ValidationContext) (cut : Z * Z)
    (states : list (FamilyState * RealizedStateSchema * StateManifest))
    (totals : Z * Z) : result (Z * Z) :=
  match states with
  | [] => Ok totals
  | (f, r, p) :: rest =>
      '(segment_bytes, complete_bytes) ← validate_state m ctx cut f r p;
      segment_total ← ok_or (checked_add totals.1 segment_bytes)
                        (Bounds "segment restored byte total overflows u64");
      complete_total ← ok_or (checked_add totals.2 complete_bytes)
                         (Bounds "complete restored byte total overflows u64");
      validate_states m ctx cut rest (segment_total, complete_total)
  end.

Definition manifest_rows (m : CutManifest)
    : list (FamilyState * RealizedStateSchema * StateManifest) :=
  zip (zip (family_states (cm_family m)) (rc_states (cm_realized_schema m))) (cm_states m).

Definition validate_manifest (m : CutManifest) (ctx : ValidationContext) : result unit :=
  _ ← validate_header m;
  _ ← validate_family (cm_family m);
  cut ← cut_range m;
  let schema := cm_realized_schema m in
  if negb (zlen (rc_states schema) =? zlen (family_states (cm_family m)))
     || negb (zlen (cm_states m) =? zlen (family_states (cm_family m)))
     || (max_states (bounds ctx) <? zlen (rc_states schema)) then
    Err (Bounds "manifest, family, and schema state counts differ or exceed bounds") else
  _ ← validate_atomic_groups m;
  '(segment_total, complete_total) ← validate_states m ctx cut (manifest_rows m) (0, 0);
  if negb (rc_segment_restored_bytes schema =? segment_total)
     || negb (rc_complete_restored_bytes schema =? complete_total)
     || (max_restored_bytes (bounds ctx) <? rc_complete_restored_bytes schema) then
    Err (Bounds "manifest restored byte totals are invalid")
  else Ok tt.
