(* ===== verification/ValidatorLaws.v ===== *)
(** * What a validated manifest guarantees

    Declarative counterparts of the checks of validator.rs, the lemmas that
    connect them to the executable validator, and the consequences that the
    restore path relies on: chunk spans partition the token range, byte totals
    add up, physical windows stay inside the state's buffer, and atomic groups
    partition the inventory. *)
From Stdlib Require Import ZArith Lia.
From stdpp Require Import base tactics numbers list strings option gmap sorting.
From S2P Require Import Prelude Bytes Canonical Wire State Identity Manifest Deps Validator.

Definition zprod (l : list Z) : Z := foldr Z.mul 1 l.

Lemma zprod_perm a b : a ≡ₚ b → zprod a = zprod b.
Proof. unfold zprod. induction 1; simpl in *; lia. Qed.
Lemma foldr_mul_acc acc l : foldr Z.mul acc l = acc * zprod l.
Proof. unfold zprod. induction l as [|x l IH]; simpl; lia. Qed.
Lemma zprod_pos l : Forall (λ v, 0 < v) l → 0 < zprod l.
Proof. unfold zprod. induction 1; simpl; lia. Qed.

(** A checked product of positive factors succeeds exactly when it fits. *)
Lemma product_from_iff acc e vs p :
  0 < acc → Forall (λ v, 0 < v) vs → acc < u64_bound →
  product_from acc e vs = Ok p ↔ p = acc * zprod vs ∧ p < u64_bound.
Proof.
  intros Ha Hv. revert acc Ha. induction Hv as [|v vs Hv Hvs IH]; intros acc Ha Hb.
  { unfold zprod. simpl. rewrite Z.mul_1_r. naive_solver. }
  simpl. pose proof (zprod_pos vs Hvs). change (zprod (v :: vs)) with (v * zprod vs).
  destruct (checked_mul acc v) as [w|] eqn:Hm; simpl.
  - apply checked_mul_Some in Hm as [-> ?]. rewrite IH by nia.
    rewrite Z.mul_assoc. done.
  - unfold checked_mul in Hm. destruct (Z.ltb_spec (acc * v) u64_bound); [done|].
    split; [done|]. intros [-> ?]. nia.
Qed.

(** ** Families *)
Definition state_name_ok (name : bytes) : Prop :=
  0 < zlen name ≤ MAX_STATE_NAME_BYTES ∧ 0 ∉ name.
Definition layout_rule_ok (m : RepresentationMode) (s : FamilyState) : Prop :=
  (fs_layout s = Contiguous → fs_token_axis_rule s ≠ Gather) ∧
  (m = Portable → fs_layout s = Contiguous).
Definition family_state_valid (m : RepresentationMode) (s : FamilyState) : Prop :=
  state_name_ok (state_name (fs_key s)) ∧
  fs_codec_version s = 1 ∧
  0 < zlen (fs_dimensions s) ≤ MAX_RANK ∧
  (∀ i, fs_dimensions s !! i = Some Token ↔ Z.of_nat i = fs_token_axis s) ∧
  fs_token_axis s < zlen (fs_dimensions s) ∧
  fs_elements_per_token s = zprod (fixed_dimensions (fs_dimensions s)) ∧
  layout_rule_ok m s.
Definition family_valid (f : RepresentationFamilyId) : Prop :=
  is_zero_id (engine_cache_abi f) = false ∧ is_zero_id (topology f) = false ∧
  is_zero_id (shard_map f) = false ∧ page_size_tokens f ≠ 0 ∧
  StronglySorted key_lt (fs_key <$> family_states f) ∧
  Forall (family_state_valid (mode f)) (family_states f) ∧
  Forall (deps_canonical (family_states f)) (family_states f) ∧
  acyclic (dep_edge (family_states f)).

Lemma validate_state_key_Ok k :
  validate_state_key k = Ok tt ↔ state_name_ok (state_name k).
Proof.
  unfold validate_state_key, state_name_ok, MAX_STATE_NAME_BYTES.
  assert (existsb (λ b, b =? 0) (state_name k) = false ↔ 0 ∉ state_name k) as He.
  { rewrite existsb_zero_false, list.Forall_forall. naive_solver. }
  pose proof (zlen_nonneg (state_name k)). rewrite <- He.
  destruct (Z.eqb_spec (zlen (state_name k)) 0); [naive_solver lia|].
  destruct (Z.ltb_spec 255 (zlen (state_name k))); [naive_solver lia|].
  destruct (existsb _ _); naive_solver lia.
Qed.

Lemma token_dimensions_spec base dims :
  ∀ j, j ∈ token_dimensions base dims ↔ ∃ i, dims !! i = Some Token ∧ j = base + Z.of_nat i.
Proof.
  revert base. induction dims as [|d dims IH]; intros base j; simpl.
  { split; [set_solver|]. intros (i & Hi & _). by rewrite lookup_nil in Hi. }
  assert ((∃ i, dims !! i = Some Token ∧ j = base + 1 + Z.of_nat i) ↔
          ∃ i, (d :: dims) !! S i = Some Token ∧ j = base + Z.of_nat (S i)) as Hs.
  { split; intros (i & Hi & Hj); exists i; (split; [exact Hi|lia]). }
  destruct d as [|v]; rewrite ?elem_of_cons, IH, Hs; split.
  - intros [->|(i & ? & ?)]; [exists 0%nat; split; [done|lia]|by exists (S i)].
  - intros ([|i] & Hi & ->); [left; lia|right; by exists i].
  - intros (i & ? & ?). by exists (S i).
  - intros ([|i] & Hi & ->); [done|by exists i].
Qed.
Lemma token_dimensions_ge base dims : Forall (λ j, base ≤ j) (token_dimensions base dims).
Proof. apply list.Forall_forall. intros j (i & _ & ->)%token_dimensions_spec. lia. Qed.
Lemma token_dimensions_nodup base dims : NoDup (token_dimensions base dims).
Proof.
  revert base. induction dims as [|[|v] dims IH]; intros base; simpl; [constructor| |auto].
  constructor; [|auto]. intros Hin. pose proof (token_dimensions_ge (base + 1) dims) as Hge.
  rewrite list.Forall_forall in Hge. apply Hge in Hin. lia.
Qed.
Lemma nodup_singleton {A} (l : list A) a : NoDup l → (∀ x, x ∈ l ↔ x = a) → l = [a].
Proof.
  intros Hn Hl. destruct l as [|x [|y l]].
  - exfalso. by apply (not_elem_of_nil a), Hl.
  - f_equal. apply Hl. set_solver.
  - apply NoDup_cons in Hn as [Hx _]. destruct Hx.
    rewrite (proj1 (Hl x)), (proj1 (Hl y)); set_solver.
Qed.
Lemma token_dimensions_single dims axis :
  token_dimensions 0 dims = [axis] ↔
  (∀ i, dims !! i = Some Token ↔ Z.of_nat i = axis) ∧ (0 ≤ axis ∧ axis < zlen dims).
Proof.
  split.
  - intros Ht. pose proof (token_dimensions_spec 0 dims) as Hs. rewrite Ht in Hs.
    destruct (proj1 (Hs axis)) as (i0 & Hi0 & ->); [set_solver|]. split.
    + intros i. split; [|intros ?; by replace i with i0 by lia].
      intros Hi. pose proof (proj2 (Hs (0 + Z.of_nat i)) (ex_intro _ i (conj Hi eq_refl))). set_solver by lia.
    + apply lookup_lt_Some in Hi0. unfold zlen. lia.
  - intros [Hd [Ha Hl]]. apply nodup_singleton; [apply token_dimensions_nodup|].
    intros x. rewrite token_dimensions_spec. split.
    + intros (i & Hi & ->). apply Hd in Hi. lia.
    + intros ->. exists (Z.to_nat axis). split; [apply Hd|]; lia.
Qed.

Lemma fixed_dimensions_pos dims :
  Forall StaticDimension_ok dims → Forall (λ v, 0 < v) (fixed_dimensions dims).
Proof.
  induction 1 as [|[|v] dims Hd _ IH]; simpl; try constructor; auto. by destruct Hd.
Qed.

Lemma validate_family_state_Ok m previous s :
  FamilyState_ok s →
  validate_family_state m previous s = Ok tt ↔
  is_some_and_geb previous (fs_key s) = false ∧ family_state_valid m s.
Proof.
  intros (_ & _ & [Ha _] & He & _ & Hd & _).
  pose proof (fixed_dimensions_pos _ Hd) as Hpos. pose proof (zprod_pos _ Hpos) as Hp.
  pose proof (zlen_nonneg (fs_dimensions s)). unfold validate_family_state, checked_product.
  unfold family_state_valid. rewrite <- validate_state_key_Ok. split.
  - intros H0. inv_ok. destruct x. bools.
    match goal with H : product_from _ _ _ = Ok _ |- _ =>
      apply product_from_iff in H as [? ?]; [|lia|done|by vm_compute] end.
    match goal with H : token_dimensions _ _ = _ |- _ => apply token_dimensions_single in H as [? [? ?]] end.
    split_and!; auto; try lia. split.
    + intros Hc Hr. rewrite Hc, Hr in *. done.
    + intros ->. destruct (fs_layout s); [done|]. done.
  - intros (Hprev & Hk & Hv & Hr & Ht & Hax & Hel & Hc & Hpo). rewrite Hk. simpl. rewrite Hprev, Hv.
    cbn [negb Z.eqb]. rewrite (proj2 (orb_false_iff _ _)) by (split; guard_false).
    rewrite bool_decide_true by (apply token_dimensions_single; done). cbn [negb].
    assert (∀ e, product_from 1 e (fixed_dimensions (fs_dimensions s)) = Ok (fs_elements_per_token s)) as ->.
    { intros e. apply product_from_iff; [lia|done|by vm_compute|]. split; [lia|apply He]. }
    cbn [mbind outcome_bind]. rewrite Z.eqb_refl, (proj2 (Z.eqb_neq _ _)) by lia. cbn [negb orb].
    rewrite bool_decide_false by (by destruct (fs_dtype s)).
    destruct (fs_layout s) eqn:Hl, (fs_token_axis_rule s) eqn:Hru, m; try done; naive_solver.
Qed.

Lemma validate_family_states_Ok m previous states :
  Forall FamilyState_ok states →
  validate_family_states m previous states = Ok tt ↔
  Forall (family_state_valid m) states ∧
  match previous with
  | Some p => StronglySorted key_lt (p :: (fs_key <$> states))
  | None => StronglySorted key_lt (fs_key <$> states)
  end.
Proof.
  intros Hok. revert previous. induction Hok as [|s states Hs _ IH]; intros previous.
  { simpl. split; [|done]. intros _. split; [constructor|]. destruct previous; repeat constructor. }
  cbn [validate_family_states]. rewrite bind_Ok, Forall_cons_iff, fmap_cons.
  pose proof (λ p, key_sorted_cons p (fs_key s) (fs_key <$> states)) as Hss.
  split.
  - intros ([] & H1 & H2). apply validate_family_state_Ok in H1 as [Hp Hv]; [|done].
    apply IH in H2 as [Hf Hsort]. split; [done|]. destruct previous as [p|]; [|done].
    apply Hss. split; [|done]. by apply StateKey_geb_false.
  - intros [[Hv Hf] Hsort]. exists tt. split.
    + apply validate_family_state_Ok; [done|]. split; [|done]. destruct previous as [p|]; [|done].
      apply Hss in Hsort as [Hlt _]. by apply StateKey_geb_false.
    + apply IH. split; [done|]. destruct previous as [p|]; [by apply Hss in Hsort as [_ ?]|done].
Qed.

Lemma sorted_nodup keys : StronglySorted key_lt keys → NoDup keys.
Proof.
  induction 1 as [|k keys _ IH Hk]; constructor; [|done]. intros Hin.
  rewrite list.Forall_forall in Hk. apply (key_lt_irrefl k). by apply Hk.
Qed.

Lemma validate_family_Ok f :
  RepresentationFamilyId_ok f → validate_family f = Ok tt ↔ family_valid f.
Proof.
  intros (_ & _ & _ & _ & Hn & Hs). unfold validate_family, family_valid, MAX_STATES in *. split.
  - intros H. inv_ok. bools. destruct x.
    match goal with H : validate_family_states _ _ _ = _ |- _ =>
      apply validate_family_states_Ok in H as [Hv Hsort]; [|done] end.
    match goal with H : validate_dependencies _ = _ |- _ =>
      apply validate_dependencies_Ok in H as [? ?]; [|by apply sorted_nodup] end.
    split_and!; auto; lia.
  - intros (-> & -> & -> & Hp & Hsort & Hv & Hd & Ha). simpl.
    rewrite (proj2 (Z.eqb_neq _ _)) by done. rewrite (proj2 (orb_false_iff _ _)) by (split; guard_false).
    rewrite (proj2 (validate_family_states_Ok (mode f) None _ Hs)) by done. simpl.
    apply validate_dependencies_Ok; [by apply sorted_nodup|done].
Qed.

(** ** Shapes and strides *)
Lemma validate_dims_Ok index axis tokens dims fdims :
  length dims = length fdims →
  validate_dims index axis tokens (zip dims fdims) = Ok tt →
  dims = expected_dimension tokens <$> fdims.
Proof.
  revert index fdims. induction dims as [|d dims IH]; intros index [|fd fdims] Hl H; try done.
  simpl in H. inv_ok. bools. simpl. f_equal; [done|]. eapply IH; [|done]. by injection Hl.
Qed.
Lemma validate_shape_Ok shape f tokens :
  Shape_ok shape → validate_shape shape f tokens = Ok tt →
  Shape_dims shape = expected_dimension tokens <$> fs_dimensions f ∧
  sh_rank shape = zlen (fs_dimensions f).
Proof.
  intros Hs H. unfold validate_shape in H. inv_ok. bools. pose proof (Shape_ok_rank shape Hs).
  split; [|done]. eapply validate_dims_Ok; [|done]. unfold zlen in *. lia.
Qed.

Lemma expected_product base tokens fdims :
  zprod (expected_dimension tokens <$> fdims) =
  tokens ^ Z.of_nat (length (token_dimensions base fdims)) * zprod (fixed_dimensions fdims).
Proof.
  revert base. induction fdims as [|[|v] fdims IH]; intros base; [done|..]; unfold zprod in *; csimpl.
  - rewrite (IH (base + 1)). rewrite Nat2Z.inj_succ, Z.pow_succ_r by lia. lia.
  - rewrite (IH (base + 1)). lia.
Qed.

Definition footprint_sum (dims strides : list Z) : Z :=
  zsum (zip_with (λ d s, (d - 1) * s) dims strides).
Lemma footprint_fold_Some offset dims strides r :
  footprint_fold offset (zip dims strides) = Some r → r = offset + footprint_sum dims strides.
Proof.
  revert offset strides. induction dims as [|d dims IH]; intros offset [|s strides] H;
    try (injection H as <-; unfold footprint_sum; simpl; lia).
  simpl in H. apply bind_Some in H as (c & Hc & H). apply bind_Some in H as (t & Ht & H).
  apply bind_Some in H as (o & Ho & H). apply IH in H as ->.
  apply checked_sub_Some in Hc as [-> _]. apply checked_mul_Some in Ht as [-> _].
  apply checked_add_Some in Ho as [-> _]. unfold footprint_sum. simpl. lia.
Qed.
Lemma physical_footprint_Ok shape strides width r :
  physical_footprint shape strides width = Ok r →
  r = (footprint_sum (Shape_dims shape) strides + 1) * width.
Proof.
  unfold physical_footprint. intros H. inv_ok. apply bind_Some in H0 as (e & He & Hw).
  apply footprint_fold_Some in H as ->. apply checked_add_Some in He as [-> _].
  apply checked_mul_Some in Hw as [-> _]. lia.
Qed.

(** The stride sum over the token dimensions, of which there is one. *)
Fixpoint token_strides (fdims : list StaticDimension) (strides : list Z) : Z :=
  match fdims, strides with
  | Token :: fdims, s :: strides => s + token_strides fdims strides
  | Fixed _ :: fdims, _ :: strides => token_strides fdims strides
  | _, _ => 0
  end.
Lemma footprint_sum_tokens a b fdims strides :
  footprint_sum (expected_dimension a <$> fdims) strides =
  footprint_sum (expected_dimension b <$> fdims) strides + (a - b) * token_strides fdims strides.
Proof.
  unfold footprint_sum. revert strides.
  induction fdims as [|[|v] fdims IH]; intros [|s strides]; csimpl; try lia; rewrite IH; lia.
Qed.
Lemma token_strides_none fdims strides :
  (∀ i, fdims !! i ≠ Some Token) → token_strides fdims strides = 0.
Proof.
  revert strides. induction fdims as [|[|v] fdims IH]; intros [|s strides] H; simpl; try done.
  - by destruct (H 0%nat).
  - apply IH. intros i. apply (H (S i)).
Qed.
Lemma token_strides_single fdims strides n s :
  (∀ i, fdims !! i = Some Token ↔ i = n) → strides !! n = Some s → token_strides fdims strides = s.
Proof.
  revert strides n. induction fdims as [|fd fdims IH]; intros strides n H Hs.
  { by pose proof (proj2 (H n) eq_refl). }
  destruct strides as [|s' strides]; [done|]. destruct n as [|n].
  - pose proof (proj2 (H 0%nat) eq_refl) as [= ->]. injection Hs as ->. simpl.
    rewrite token_strides_none; [lia|]. intros i Hi. by apply (H (S i)) in Hi.
  - destruct fd as [|v]; simpl.
    { by pose proof (proj1 (H 0%nat) eq_refl). }
    apply IH with (n := n); [|done]. intros i. rewrite (H (S i)). lia.
Qed.

Lemma check_contiguous_dense e pairs :
  check_contiguous e pairs = Ok tt →
  e + zsum ((λ p, (p.1 - 1) * p.2) <$> pairs) = e * zprod (pairs.*1).
Proof.
  revert e. induction pairs as [|[d s] pairs IH]; intros e H; unfold zsum, zprod in *; csimpl in *; [lia|].
  inv_ok. bools. subst s. match goal with H : checked_mul _ _ = Some _ |- _ =>
    apply checked_mul_Some in H as [-> _] end. apply IH in H0. lia.
Qed.
Lemma contiguous_footprint dims strides :
  length dims = length strides →
  check_contiguous 1 (reverse (zip dims strides)) = Ok tt →
  footprint_sum dims strides + 1 = zprod dims.
Proof.
  intros Hl H. apply check_contiguous_dense in H.
  rewrite (zsum_perm _ ((λ p, (p.1 - 1) * p.2) <$> zip dims strides)) in H
    by by rewrite reverse_Permutation.
  rewrite (zprod_perm _ ((zip dims strides).*1)) in H by by rewrite reverse_Permutation.
  rewrite fst_zip in H by lia. unfold footprint_sum.
  enough (zip_with (λ d s, (d - 1) * s) dims strides = (λ p, (p.1 - 1) * p.2) <$> zip dims strides)
    as -> by lia.
  clear. revert strides. induction dims as [|d dims IH]; intros [|s strides]; simpl; [done..|].
  f_equal. apply IH.
Qed.

(** ** Chunk spans *)

(** [spans_cover bpt t spans t']: the spans tile the tokens [t, t'), each at the
    byte offset of its first token and of a size a chunk can hold. *)
Inductive spans_cover (bpt : Z) : Z → list ChunkSpan → Z → Prop :=
  | cover_nil t : spans_cover bpt t [] t
  | cover_cons t span spans t' :
      cs_token_start span = t → 0 < cs_token_count span →
      cs_plaintext_offset span = t * bpt →
      cs_plaintext_bytes span = cs_token_count span * bpt →
      0 < cs_plaintext_bytes span ≤ MAX_CHUNK_PLAINTEXT →
      spans_cover bpt (t + cs_token_count span) spans t' →
      spans_cover bpt t (span :: spans) t'.

Definition span_covers (t : Z) (span : ChunkSpan) : Prop :=
  cs_token_start span ≤ t < cs_token_start span + cs_token_count span.

Lemma spans_cover_le bpt t spans t' : spans_cover bpt t spans t' → t ≤ t'.
Proof. induction 1; lia. Qed.
Lemma spans_cover_starts bpt t spans t' :
  spans_cover bpt t spans t' → Forall (λ s, t ≤ cs_token_start s) spans.
Proof.
  induction 1 as [|t span spans t' Hs Hc _ _ _ _ IH]; constructor; [lia|].
  eapply list.Forall_impl; [exact IH|]. simpl. lia.
Qed.
(** Every token of the range lies in exactly one span. *)
Lemma spans_cover_unique bpt t spans t' x :
  spans_cover bpt t spans t' → t ≤ x < t' →
  ∃ i span, spans !! i = Some span ∧ span_covers x span ∧
    ∀ j span', spans !! j = Some span' → span_covers x span' → j = i.
Proof.
  intros H. revert x. induction H as [|t span spans t' Hs Hc _ _ _ Hrest IH]; intros x Hx; [lia|].
  pose proof (spans_cover_starts _ _ _ _ Hrest) as Hst. rewrite list.Forall_forall in Hst.
  destruct (decide (x < t + cs_token_count span)) as [Hlt|Hge].
  - exists 0%nat, span. split; [done|]. split; [unfold span_covers; lia|].
    intros [|j] span' Hj Hcov; [done|]. simpl in Hj. apply list_elem_of_lookup_2 in Hj. apply Hst in Hj.
    unfold span_covers in Hcov. lia.
  - destruct (IH x) as (i & s & Hi & Hcov & Hu); [lia|]. exists (S i), s. split; [done|]. split; [done|].
    intros [|j] span' Hj Hcov'; [|by rewrite (Hu j span')].
    injection Hj as <-. unfold span_covers in Hcov'. lia.
Qed.
Lemma spans_cover_bytes bpt t spans t' :
  spans_cover bpt t spans t' → zsum (cs_plaintext_bytes <$> spans) = (t' - t) * bpt.
Proof. unfold zsum. induction 1 as [|t s spans t' _ _ _ Hb _ _ IH]; csimpl; [|rewrite IH, Hb]; lia. Qed.

(** What the validator checks of one chunk reference. *)
Definition chunk_ref_valid (span : ChunkSpan) (c : ChunkRef) : Prop :=
  cr_plaintext_bytes c = cs_plaintext_bytes span ∧ cr_key_epoch c ≠ 0 ∧
  is_zero_id (cr_chunk_id c) = false ∧ is_zero_id (cr_object_key c) = false ∧
  is_zero_id (cr_object_digest c) = false ∧
  (ALIGNMENT | cr_object_bytes c) ∧ CHUNK_HEADER_BYTES < cr_object_bytes c ≤ MAX_CHUNK_OBJECT_BYTES.

Lemma validate_spans_Ok bpt spans chunks t o t' o' :
  length spans = length chunks → Forall ChunkSpan_ok spans → 0 < bpt → o = t * bpt →
  validate_spans bpt (zip spans chunks) t o = Ok (t', o') →
  spans_cover bpt t spans t' ∧ o' = t' * bpt ∧ Forall2 chunk_ref_valid spans chunks.
Proof.
  intros Hl Hok Hb. revert chunks t o Hl. induction Hok as [|s spans Hs _ IH]; intros [|c chunks] t o Hl Ho H;
    try done.
  { simpl in H. inv_ok. simplify_eq. split_and!; by constructor. }
  cbn [zip zip_with validate_spans] in H. inv_ok. bools.
  repeat match goal with
  | H : checked_mul _ _ = Some _ |- _ => apply checked_mul_Some in H as [-> _]
  | H : checked_add _ _ = Some _ |- _ => apply checked_add_Some in H as [-> _]
  end.
  match goal with H : validate_spans _ _ _ _ = _ |- _ => apply IH in H as (Hcov & -> & Hrefs);
    [|by injection Hl|lia] end.
  destruct Hs as (_ & [? _] & _). split_and!; [|done|].
  - constructor; try done; try lia; try congruence.
  - constructor; [|done]. split_and!; try done; try lia. apply Z.mod_divide; done.
Qed.

Lemma validate_chunks_Ok ctx range width f r p :
  RealizedStateSchema_ok r → 0 ≤ fs_elements_per_token f * width →
  validate_chunks ctx range width f r p = Ok tt →
  let bpt := fs_elements_per_token f * width in
  0 < bpt ≤ MAX_CHUNK_PLAINTEXT ∧ zlen (rs_chunk_spans r) ≤ max_chunks_per_state (bounds ctx) ∧
  spans_cover bpt range.1 (rs_chunk_spans r) (range.1 + range.2) ∧
  Forall2 chunk_ref_valid (rs_chunk_spans r) (sm_chunks p).
Proof.
  intros Hr Hnn H. destruct range as [start count]. unfold validate_chunks in H. inv_ok. bools.
  destruct x1 as [t' o']. inv_ok. bools.
  repeat match goal with
  | H : checked_mul _ _ = Some _ |- _ => apply checked_mul_Some in H as [-> ?]
  | H : checked_add _ _ = Some _ |- _ => apply checked_add_Some in H as [-> ?]
  end.
  match goal with H : validate_spans _ _ _ _ = _ |- _ => apply validate_spans_Ok in H as (Hcov & ? & Hrefs) end.
  - simpl. subst t'. split_and!; try done; lia.
  - unfold zlen in *. lia.
  - destruct Hr; tauto.
  - lia.
  - lia.
Qed.

(** ** Atomic groups *)
Lemma check_group_states_Ok expected previous states observed observed' :
  check_group_states expected previous states observed = Ok observed' →
  observed' = list_to_set states ∪ observed ∧ NoDup states ∧
  (∀ s, s ∈ states → s ∈ expected ∧ s ∉ observed).
Proof.
  revert previous observed. induction states as [|s states IH]; intros previous observed H; simpl in H.
  { inv_ok. subst. split_and!; [set_solver|constructor|set_solver]. }
  inv_ok. bools. apply IH in H as (-> & Hn & Hs). split_and!; [set_solver| |].
  - constructor; [|done]. intros Hin. apply Hs in Hin as [_ Hc]. set_solver.
  - set_solver.
Qed.
Definition group_ids_increasing (previous : Z) (groups : list AtomicGroup) : Prop :=
  StronglySorted Z.lt (previous :: (ag_id <$> groups)).
Lemma check_groups_Ok expected previous groups observed observed' :
  check_groups expected previous groups observed = Ok observed' →
  observed' = list_to_set (concat (ag_states <$> groups)) ∪ observed ∧
  NoDup (concat (ag_states <$> groups)) ∧
  (∀ s, s ∈ concat (ag_states <$> groups) → s ∈ expected ∧ s ∉ observed) ∧
  group_ids_increasing previous groups.
Proof.
  revert previous observed. induction groups as [|g groups IH]; intros previous observed H; csimpl in *.
  { inv_ok. subst. split_and!; [set_solver|constructor|set_solver|repeat constructor]. }
  inv_ok. bools. match goal with H : check_group_states _ _ _ _ = _ |- _ =>
    apply check_group_states_Ok in H as (-> & Hn & Hs) end.
  match goal with H : check_groups _ _ _ _ = _ |- _ => apply IH in H as (-> & Hn' & Hs' & Hid) end.
  split_and!.
  - rewrite list_to_set_app_L. set_solver.
  - apply NoDup_app. split_and!; [done| |done]. intros s Hin Hin'. apply Hs' in Hin'. set_solver.
  - set_solver.
  - unfold group_ids_increasing in *. csimpl. constructor; [done|].
    apply StronglySorted_inv in Hid as [_ Hid]. constructor; [lia|].
    eapply list.Forall_impl; [exact Hid|]. simpl. lia.
Qed.
Lemma validate_atomic_groups_Ok m :
  NoDup (fs_key <$> family_states (cm_family m)) → validate_atomic_groups m = Ok tt →
  let groups := rc_atomic_groups (cm_realized_schema m) in
  concat (ag_states <$> groups) ≡ₚ fs_key <$> family_states (cm_family m) ∧
  group_ids_increasing 0 groups.
Proof.
  intros Hn H. unfold validate_atomic_groups in H. inv_ok. bools. subst.
  apply check_groups_Ok in H as (He & Hn' & _ & Hid). split; [|done].
  apply NoDup_Permutation; [done..|]. intros x.
  rewrite <- !(elem_of_list_to_set (C:=gset StateKey)). set_solver.
Qed.

(** ** One realized state *)
Definition full_tokens (m : CutManifest) (range : Z * Z) (f : FamilyState) : Z :=
  if bool_decide (fs_token_axis_rule f = TailWindow) then range.2 else token_count (cm_input_cut m).

(** The physical window of the segment ends where the state's buffer ends, and
    a contiguous buffer has no holes. *)
Record realized_valid (m : CutManifest) (range : Z * Z) (f : FamilyState)
      (r : RealizedStateSchema) (width segment complete : Z) : Prop := {
    rv_width : width_bytes (fs_dtype f) = Some width;
    rv_start : rs_logical_start r = range.1;
    rv_count : rs_logical_count r = range.2;
    rv_position : rs_absolute_position r = token_count (cm_input_cut m);
    rv_segment : segment = range.2 * (fs_elements_per_token f * width);
    rv_complete : complete = full_tokens m range f * (fs_elements_per_token f * width);
    rv_window : rs_physical_offset_bytes r + rs_physical_span_bytes r = rs_complete_physical_bytes r;
    rv_dense : fs_layout f = Contiguous → rs_complete_physical_bytes r = complete
}.

Lemma element_count_Ok s e : Shape_ok s → element_count s = Ok e → e = zprod (Shape_dims s).
Proof.
  intros Hs H. unfold element_count in H. apply product_from_Ok in H; [done|lia|].
  destruct Hs as (_ & _ & Hd & _). eapply list.Forall_impl; [exact Hd|]. intros d [? _]. lia.
Qed.
Lemma family_product f m tokens :
  FamilyState_ok f → family_state_valid m f →
  zprod (expected_dimension tokens <$> fs_dimensions f) = tokens * fs_elements_per_token f.
Proof.
  intros (_ & _ & [? _] & _) (_ & _ & _ & Ht & ? & -> & _).
  rewrite (expected_product 0), (proj2 (token_dimensions_single _ (fs_token_axis f))) by done.
  change (Z.of_nat (length [_])) with 1. lia.
Qed.

Lemma index_Ok {E A} (l : list A) i x : index (E:=E) l i = Ok x ↔ 0 ≤ i ∧ l !! Z.to_nat i = Some x.
Proof.
  unfold index. destruct (Z.leb_spec 0 i); [|naive_solver lia].
  destruct (l !! Z.to_nat i); simpl; naive_solver.
Qed.
Lemma token_stride f md strides s :
  FamilyState_ok f → family_state_valid md f → index (E:=PackError) strides (fs_token_axis f) = Ok s →
  token_strides (fs_dimensions f) strides = s.
Proof.
  intros (_ & _ & [? _] & _) (_ & _ & _ & Ht & _) [_ Hs]%index_Ok.
  eapply token_strides_single; [|exact Hs]. intros i. rewrite Ht. lia.
Qed.

Lemma validate_realized_Ok m md range f r width segment complete :
  FamilyState_ok f → family_state_valid md f → RealizedStateSchema_ok r →
  (fs_token_axis_rule f ≠ TailWindow → token_count (cm_input_cut m) = range.1 + range.2) →
  validate_realized m range f r = Ok (width, segment, complete) →
  realized_valid m range f r width segment complete.
Proof.
  intros Hf Hv Hr Hrange H. destruct range as [start count]. unfold validate_realized in H.
  inv_ok. bools. simplify_eq.
  repeat match goal with H : tt = tt |- _ => clear H | x : unit |- _ => destruct x end.
  destruct Hr as (_ & Hfull & Hseg & _).
  repeat match goal with
  | H : validate_shape _ _ _ = Ok _ |- _ => apply validate_shape_Ok in H as [? ?]; [|done]
  | H : element_count _ = Ok _ |- _ => apply element_count_Ok in H as ->; [|done]
  | H : physical_footprint _ _ _ = Ok _ |- _ => apply physical_footprint_Ok in H
  | H : checked_mul _ _ = Some _ |- _ => apply checked_mul_Some in H as [? _]
  | H : (_ ≫= _) = Some _ |- _ => apply bind_Some in H as (? & ? & ?)
  end. subst.
  assert (∀ t, zprod (expected_dimension t <$> fs_dimensions f) = t * fs_elements_per_token f) as Hp
    by (intros; by eapply family_product).
  match goal with H : index _ _ = Ok _ |- _ => pose proof (token_stride f md _ _ Hf Hv H) as Hstride end.
  match goal with H : Shape_dims (rs_full_shape r) = expected_dimension ?T <$> _ |- _ =>
    rename H into Hdf; pose proof (footprint_sum_tokens T (rs_logical_count r) (fs_dimensions f) (rs_strides r)) as
      Hsum;
    rewrite <- Hdf in Hsum end.
  match goal with H : Shape_dims (rs_segment_shape r) = _ |- _ => rename H into Hds; rewrite <- Hds in Hsum end.
  constructor; simpl; auto; try lia.
  - rewrite Hds, Hp. lia.
  - rewrite Hdf, Hp. unfold full_tokens. simpl. case_bool_decide; lia.
  - case_bool_decide as Htw; [nia|]. specialize (Hrange Htw). simpl in Hrange. nia.
  - intros Hc. rewrite Hc, bool_decide_true in * by done.
    match goal with H : check_contiguous _ _ = Ok _ |- _ => apply contiguous_footprint in H as Hd end.
    + rewrite <- Hd. lia.
    + pose proof (Shape_ok_rank _ Hfull). unfold zlen in *. lia.
Qed.

(** ** Whole manifests *)
Definition manifest_tokens (m : CutManifest) : Z := token_count (cm_input_cut m).

(** The first token the manifest stores: 0, or where its parent cut ends. *)
Definition cut_start (m : CutManifest) : Z :=
  match rc_kind (cm_realized_schema m) with
  | Full => 0
  | Delta _ parent_cut _ => token_count parent_cut
  end.
Definition range_start (m : CutManifest) (f : FamilyState) (r : RealizedStateSchema) : Z :=
  if bool_decide (fs_token_axis_rule f = TailWindow) then manifest_tokens m - rs_logical_count r
  else cut_start m.
Definition stored_bytes (p : StateManifest) : Z := zsum (cr_plaintext_bytes <$> sm_chunks p).

Definition dtype_width (f : FamilyState) : Z := default 0 (width_bytes (fs_dtype f)).
Definition bytes_per_token (f : FamilyState) : Z := fs_elements_per_token f * dtype_width f.

(** A validated row: the three views of one state agree, its chunks tile its
    token range up to the end of the cut, and its layout is consistent. *)
Record row_valid (m : CutManifest) (f : FamilyState) (r : RealizedStateSchema)
      (p : StateManifest) (segment complete : Z) : Prop := {
    row_keys : fs_key f = rs_key r ∧ rs_key r = sm_key p;
    row_start : 0 ≤ range_start m f r < manifest_tokens m;
    row_tail : fs_token_axis_rule f = TailWindow → rc_kind (cm_realized_schema m) = Full;
    row_realized : realized_valid m (range_start m f r, manifest_tokens m - range_start m f r) f r
                     (dtype_width f) segment complete;
    row_spans : spans_cover (bytes_per_token f) (range_start m f r)
                  (rs_chunk_spans r) (manifest_tokens m);
    row_refs : Forall2 chunk_ref_valid (rs_chunk_spans r) (sm_chunks p);
    row_segment : segment = stored_bytes p
}.

Lemma usub_Ok a b c : usub a b = Ok c ↔ c = a - b ∧ b ≤ a.
Proof.
  unfold usub. rewrite <- checked_sub_Some. destruct (checked_sub a b); simpl; naive_solver.
Qed.

Lemma cut_range_Ok m cut :
  CutManifest_ok m → manifest_tokens m ≠ 0 → cut_range m = Ok cut →
  cut = (cut_start m, manifest_tokens m - cut_start m) ∧ 0 ≤ cut_start m < manifest_tokens m.
Proof.
  intros (_ & _ & _ & (_ & _ & [Hpos _]) & _ & (Hk & _) & _) Hn H. unfold cut_range, cut_start, manifest_tokens in *.
  destruct (rc_kind _) as [|parent pc depth]; inv_ok; bools; subst.
  - split; [f_equal; lia|lia].
  - destruct Hk as (_ & (_ & _ & [? _]) & _).
    match goal with H : usub _ _ = Ok _ |- _ => apply usub_Ok in H as [-> _] end. split; [done|lia].
Qed.

Lemma state_range_Ok m f r range :
  RealizedStateSchema_ok r → 0 ≤ cut_start m < manifest_tokens m →
  state_range m (cut_start m, manifest_tokens m - cut_start m) f r = Ok range →
  range = (range_start m f r, manifest_tokens m - range_start m f r) ∧
  0 ≤ range_start m f r < manifest_tokens m ∧
  (fs_token_axis_rule f = TailWindow → rc_kind (cm_realized_schema m) = Full).
Proof.
  intros Hr Hc H. unfold state_range, range_start, manifest_tokens in *. case_bool_decide; inv_ok.
  - bools. match goal with H : usub _ _ = Ok _ |- _ => apply usub_Ok in H as [-> ?] end.
    destruct Hr as (_ & _ & _ & _ & _ & [? _] & _). subst. split; [f_equal; lia|]. split; [lia|done].
  - subst. split_and!; [done|lia|lia|]. done.
Qed.

Lemma refs_stored spans chunks :
  Forall2 chunk_ref_valid spans chunks →
  zsum (cr_plaintext_bytes <$> chunks) = zsum (cs_plaintext_bytes <$> spans).
Proof. unfold zsum. induction 1 as [|s c spans chunks [Hc _] _ IH]; csimpl; [done|by rewrite IH, Hc]. Qed.

Lemma dtype_width_Some f w : width_bytes (fs_dtype f) = Some w → w = dtype_width f ∧ 0 < w.
Proof. unfold dtype_width. intros H. rewrite H. destruct (fs_dtype f); naive_solver lia. Qed.

Lemma validate_state_Ok m md ctx f r p segment complete :
  FamilyState_ok f → family_state_valid md f → RealizedStateSchema_ok r →
  0 ≤ cut_start m < manifest_tokens m →
  validate_state m ctx (cut_start m, manifest_tokens m - cut_start m) f r p = Ok (segment, complete) →
  row_valid m f r p segment complete.
Proof.
  intros Hf Hv Hr Hc H. unfold validate_state in H. inv_ok. bools. destruct x0 as [[width seg] comp].
  inv_ok. simplify_eq. destruct x0.
  match goal with H : state_range _ _ _ _ = _ |- _ => apply state_range_Ok in H as (-> & Hs & Ht); [|done..] end.
  match goal with H : validate_realized _ _ _ _ = _ |- _ =>
    apply (validate_realized_Ok m md) in H as HR; [|done..|intros _; simpl; unfold manifest_tokens; lia] end.
  destruct (dtype_width_Some f width (rv_width _ _ _ _ _ _ _ HR)) as [-> Hw].
  match goal with H : validate_chunks _ _ _ _ _ _ = _ |- _ =>
    apply validate_chunks_Ok in H as (Hb & _ & Hcov & Hrefs); [|done|] end.
  2: { destruct Hf as (_ & _ & _ & [? _] & _). nia. }
  simpl in *. replace (range_start m f r + _) with (manifest_tokens m) in Hcov by lia.
  constructor; try done. rewrite (rv_segment _ _ _ _ _ _ _ HR). simpl. unfold stored_bytes.
  rewrite (refs_stored _ _ Hrefs), (spans_cover_bytes _ _ _ _ Hcov). done.
Qed.

Definition row_complete_bytes (m : CutManifest)
    (row : FamilyState * RealizedStateSchema * StateManifest) : Z :=
  let '(f, r, _) := row in
  full_tokens m (range_start m f r, manifest_tokens m - range_start m f r) f * bytes_per_token f.

Definition row_ok (m : CutManifest) (row : FamilyState * RealizedStateSchema * StateManifest)
    : Prop :=
  let '(f, r, p) := row in row_valid m f r p (stored_bytes p) (row_complete_bytes m row).

Lemma validate_states_Ok m md ctx rows totals totals' :
  Forall (λ row, FamilyState_ok row.1.1 ∧ family_state_valid md row.1.1 ∧
                 RealizedStateSchema_ok row.1.2) rows →
  0 ≤ cut_start m < manifest_tokens m →
  validate_states m ctx (cut_start m, manifest_tokens m - cut_start m) rows totals = Ok totals' →
  Forall (row_ok m) rows ∧
  totals'.1 = totals.1 + zsum ((λ row, stored_bytes row.2) <$> rows) ∧
  totals'.2 = totals.2 + zsum (row_complete_bytes m <$> rows).
Proof.
  intros Hok Hc. revert totals. induction Hok as [|[[f r] p] rows (Hf & Hv & Hr) _ IH]; intros totals H.
  { simpl in H. inv_ok. subst. split; [constructor|]. unfold zsum. simpl. lia. }
  cbn [validate_states] in H. inv_ok. destruct x as [segment complete]. inv_ok.
  match goal with H : validate_state _ _ _ _ _ _ = _ |- _ =>
    apply (validate_state_Ok m md) in H as Hrow; [|done..] end.
  pose proof (row_segment _ _ _ _ _ _ Hrow) as Es.
  pose proof (rv_complete _ _ _ _ _ _ _ (row_realized _ _ _ _ _ _ Hrow)) as Ec.
  repeat match goal with H : checked_add _ _ = Some _ |- _ => apply checked_add_Some in H as [-> _] end.
  match goal with H : validate_states _ _ _ _ _ = _ |- _ => apply IH in H as (Hrows & E1 & E2) end.
  unfold zsum in *. csimpl. simpl in E1, E2. split_and!; [|lia|].
  - constructor; [|done]. unfold row_ok, row_complete_bytes, bytes_per_token. by rewrite <- Es, <- Ec.
  - unfold bytes_per_token. lia.
Qed.

(** A state has at least one chunk and at most as many as the bounds allow. *)
Definition chunk_count_ok (ctx : ValidationContext)
    (row : FamilyState * RealizedStateSchema * StateManifest) : Prop :=
  0 < zlen (rs_chunk_spans row.1.2) ≤ max_chunks_per_state (bounds ctx).
Lemma validate_states_chunk_counts m ctx cut rows totals totals' :
  validate_states m ctx cut rows totals = Ok totals' → Forall (chunk_count_ok ctx) rows.
Proof.
  revert totals. induction rows as [|[[f r] p] rows IH]; intros totals H; [constructor|].
  cbn [validate_states] in H. inv_ok. destruct x as [segment complete]. inv_ok.
  constructor; [|by eapply IH]. unfold chunk_count_ok. cbn [fst snd].
  match goal with H : validate_state _ _ _ _ _ _ = _ |- _ => unfold validate_state in H; inv_ok end.
  match goal with H : validate_realized _ _ _ _ = Ok ?y |- _ => destruct y as [[w sb] cb]; inv_ok end.
  match goal with H : validate_chunks _ ?range _ _ _ _ = _ |- _ => destruct range as [start count];
    unfold validate_chunks in H; inv_ok; bools end.
  zlia.
Qed.

(** A delta names its parent and extends one of its strict prefixes with the same
    auxiliary input, at most [MAX_DELTA_DEPTH] deltas deep. *)
Definition delta_ok (m : CutManifest) : Prop :=
  match rc_kind (cm_realized_schema m) with
  | Full => True
  | Delta parent parent_cut depth =>
      is_zero_id parent = false ∧ is_zero_id (token_root parent_cut) = false ∧
      is_zero_id (auxiliary_input_root parent_cut) = false ∧
      depth ≠ 0 ∧ depth ≤ MAX_DELTA_DEPTH ∧
      auxiliary_input_root parent_cut = auxiliary_input_root (cm_input_cut m) ∧
      token_count parent_cut ≠ 0 ∧ token_count parent_cut < manifest_tokens m
  end.
Lemma cut_range_delta m cut : cut_range m = Ok cut → delta_ok m.
Proof.
  unfold cut_range, delta_ok, manifest_tokens. destruct (rc_kind _) as [|parent pc depth]; [done|].
  intros H. inv_ok. bools. split_and!; try done; try lia. by apply bytes_eqb_eq.
Qed.

(** The header identities are present. *)
Definition identity_ok (m : CutManifest) : Prop :=
  is_zero_id (cm_tenant_namespace m) = false ∧ cm_key_epoch m ≠ 0 ∧
  is_zero_id (weights_config (cm_semantic_model m)) = false ∧
  is_zero_id (adapters (cm_semantic_model m)) = false ∧
  is_zero_id (tokenizer_template (cm_semantic_model m)) = false ∧
  is_zero_id (position_semantics (cm_semantic_model m)) = false ∧
  is_zero_id (qualified_math (cm_semantic_model m)) = false ∧
  is_zero_id (token_root (cm_input_cut m)) = false ∧
  is_zero_id (auxiliary_input_root (cm_input_cut m)) = false ∧
  manifest_tokens m ≠ 0.

Record manifest_valid (m : CutManifest) (ctx : ValidationContext) : Prop := {
    mv_identity : identity_ok m;
    mv_family : family_valid (cm_family m);
    mv_start : 0 ≤ cut_start m < manifest_tokens m;
    mv_delta : delta_ok m;
    mv_counts : zlen (rc_states (cm_realized_schema m)) = zlen (family_states (cm_family m)) ∧
                zlen (cm_states m) = zlen (family_states (cm_family m));
    mv_groups : concat (ag_states <$> rc_atomic_groups (cm_realized_schema m))
                ≡ₚ fs_key <$> family_states (cm_family m);
    mv_group_ids : group_ids_increasing 0 (rc_atomic_groups (cm_realized_schema m));
    mv_max_states : zlen (rc_states (cm_realized_schema m)) ≤ max_states (bounds ctx);
    mv_chunk_counts : Forall (chunk_count_ok ctx) (manifest_rows m);
    mv_rows : Forall (row_ok m) (manifest_rows m);
    mv_segment : rc_segment_restored_bytes (cm_realized_schema m) =
                 zsum (stored_bytes <$> cm_states m);
    mv_complete : rc_complete_restored_bytes (cm_realized_schema m) =
                  zsum (row_complete_bytes m <$> manifest_rows m);
    mv_bound : rc_complete_restored_bytes (cm_realized_schema m) ≤ max_restored_bytes (bounds ctx)
}.

Lemma validate_header_Ok m : validate_header m = Ok tt → identity_ok m.
Proof. unfold validate_header, identity_ok. intros H. inv_ok. simpl in *. bools. done. Qed.

Lemma rows_Forall m (P : FamilyState → Prop) (Q : RealizedStateSchema → Prop) :
  Forall P (family_states (cm_family m)) → Forall Q (rc_states (cm_realized_schema m)) →
  Forall (λ row, P row.1.1 ∧ Q row.1.2) (manifest_rows m).
Proof.
  intros HP HQ. unfold manifest_rows. generalize (cm_states m).
  revert HQ. generalize (rc_states (cm_realized_schema m)).
  induction HP as [|f fs Hf _ IH]; intros rs HQ ps; [constructor|].
  destruct HQ as [|r rs Hr HQ], ps as [|p ps]; try constructor; [done|by apply IH].
Qed.
Lemma manifest_rows_states m :
  zlen (rc_states (cm_realized_schema m)) = zlen (family_states (cm_family m)) →
  zlen (cm_states m) = zlen (family_states (cm_family m)) →
  (manifest_rows m).*2 = cm_states m.
Proof.
  intros H1 H2. unfold manifest_rows. apply snd_zip. unfold zlen in *. rewrite length_zip_with. lia.
Qed.

Lemma validate_manifest_Ok m ctx :
  CutManifest_ok m → validate_manifest m ctx = Ok tt → manifest_valid m ctx.
Proof.
  intros Hm H. pose proof Hm as Hm0. destruct Hm as (_ & _ & _ & _ & Hfam & Hsch & _).
  unfold validate_manifest in H. inv_ok. destruct x, x0, x2. destruct x3 as [seg comp]. inv_ok. bools.
  match goal with H : validate_header _ = _ |- _ => apply validate_header_Ok in H as Hid end.
  match goal with H : validate_family _ = _ |- _ => apply validate_family_Ok in H as Hfv; [|done] end.
  match goal with H : cut_range _ = _ |- _ =>
    pose proof (cut_range_delta _ _ H) as Hdelta; apply cut_range_Ok in H as [-> Hcut]; [|done|apply Hid] end.
  match goal with H : validate_states _ _ _ _ _ = _ |- _ =>
    pose proof (validate_states_chunk_counts _ _ _ _ _ _ H) as Hcounts end.
  pose proof Hfv as (_ & _ & _ & _ & Hsort & Hfs & _).
  match goal with H : validate_atomic_groups _ = _ |- _ =>
    apply validate_atomic_groups_Ok in H as [Hg Hids]; [|by apply sorted_nodup] end.
  match goal with H : validate_states _ _ _ _ _ = _ |- _ =>
    apply (validate_states_Ok m (mode (cm_family m))) in H as (Hrows & E1 & E2); [|idtac|done] end.
  - simpl in *. constructor; try done.
    + rewrite <- (manifest_rows_states m) by done. rewrite <- list_fmap_compose.
      change (stored_bytes ∘ snd) with (λ row : FamilyState * RealizedStateSchema * StateManifest,
        stored_bytes row.2). lia.
    + lia.
  - destruct Hfam as (_ & _ & _ & _ & _ & Hok), Hsch as (_ & _ & Hrok & _).
    eapply list.Forall_impl; [apply (rows_Forall m (λ f, FamilyState_ok f ∧
      family_state_valid (mode (cm_family m)) f) RealizedStateSchema_ok)|].
    + by apply Forall_and.
    + done.
    + naive_solver.
Qed.

(** ** The validator never panics *)
#[export] Hint Resolve product_from_no_panic check_dependencies_no_panic
  validate_dependencies_no_panic : no_panic.

Lemma validate_family_states_no_panic m previous states :
  ¬ panics (validate_family_states m previous states).
Proof.
  revert previous. induction states as [|s states IH]; intros previous; simpl; [by intros []|].
  unfold validate_family_state, validate_state_key, checked_product. no_panic.
Qed.
Lemma validate_family_no_panic f : ¬ panics (validate_family f).
Proof. unfold validate_family. no_panic. apply validate_family_states_no_panic. Qed.
Lemma validate_dims_no_panic index axis tokens pairs : ¬ panics (validate_dims index axis tokens pairs).
Proof. revert index. induction pairs as [|[a d] pairs IH]; intros index; simpl; no_panic; auto. Qed.
Lemma validate_shape_no_panic s f t : ¬ panics (validate_shape s f t).
Proof. unfold validate_shape. no_panic. apply validate_dims_no_panic. Qed.
Lemma check_contiguous_no_panic e pairs : ¬ panics (check_contiguous e pairs).
Proof. revert e. induction pairs as [|[a d] pairs IH]; intros e; simpl; no_panic; auto. Qed.
Lemma physical_footprint_no_panic s st w : ¬ panics (physical_footprint s st w).
Proof. unfold physical_footprint. no_panic. Qed.
Lemma check_group_states_no_panic e pr s o : ¬ panics (check_group_states e pr s o).
Proof. revert pr o. induction s as [|x s IH]; intros pr o; simpl; no_panic; auto. Qed.
Lemma check_groups_no_panic e i g o : ¬ panics (check_groups e i g o).
Proof.
  revert i o. induction g as [|x g IH]; intros i o; simpl; no_panic; auto using check_group_states_no_panic.
Qed.
Lemma validate_atomic_groups_no_panic m : ¬ panics (validate_atomic_groups m).
Proof. unfold validate_atomic_groups. no_panic. apply check_groups_no_panic. Qed.
Lemma usub_no_panic a b : b ≤ a → ¬ panics (usub a b).
Proof. intros H. unfold usub, checked_sub. rewrite (proj2 (Z.leb_le _ _)) by done. by intros []. Qed.
Lemma index_no_panic {E A} (l : list A) i : 0 ≤ i < zlen l → ¬ panics (index (E:=E) l i).
Proof.
  intros Hi. unfold index. rewrite (proj2 (Z.leb_le _ _)) by lia.
  destruct (l !! Z.to_nat i) eqn:Hl; [by intros []|].
  apply lookup_ge_None in Hl. unfold zlen in Hi. lia.
Qed.
#[export] Hint Resolve validate_shape_no_panic check_contiguous_no_panic physical_footprint_no_panic
  validate_family_no_panic validate_atomic_groups_no_panic : no_panic.

Lemma validate_realized_no_panic m range f r :
  in_u8 (fs_token_axis f) → fs_token_axis f < zlen (fs_dimensions f) → Shape_ok (rs_full_shape r) →
  ¬ panics (validate_realized m range f r).
Proof.
  intros [? _] Hax Hs. unfold validate_realized, element_count. no_panic. bools.
  match goal with H : validate_shape (rs_full_shape r) _ _ = _ |- _ =>
    destruct a; apply validate_shape_Ok in H as [_ ?]; [|done] end.
  apply index_no_panic. lia.
Qed.
Lemma validate_spans_no_panic bpt pairs t o : ¬ panics (validate_spans bpt pairs t o).
Proof. revert t o. induction pairs as [|[s c] pairs IH]; intros t o; simpl; no_panic; auto. Qed.
Lemma validate_chunks_no_panic ctx range w f r p : ¬ panics (validate_chunks ctx range w f r p).
Proof. unfold validate_chunks. no_panic. apply validate_spans_no_panic. Qed.
Lemma validate_state_no_panic m ctx cut f r p :
  in_u8 (fs_token_axis f) → fs_token_axis f < zlen (fs_dimensions f) → Shape_ok (rs_full_shape r) →
  ¬ panics (validate_state m ctx cut f r p).
Proof.
  intros. unfold validate_state, state_range. no_panic; bools.
  - by apply usub_no_panic.
  - by apply validate_realized_no_panic.
  - apply validate_chunks_no_panic.
Qed.
Lemma validate_states_no_panic m ctx cut rows totals :
  Forall (λ row, (in_u8 (fs_token_axis row.1.1) ∧ fs_token_axis row.1.1 < zlen (fs_dimensions row.1.1)) ∧
                 Shape_ok (rs_full_shape row.1.2)) rows →
  ¬ panics (validate_states m ctx cut rows totals).
Proof.
  intros H. revert totals. induction H as [|[[f r] p] rows [[H1 H2] H3] _ IH]; intros totals; simpl; [by intros []|].
  no_panic. by apply validate_state_no_panic.
Qed.

Lemma validate_manifest_no_panic m ctx : CutManifest_ok m → ¬ panics (validate_manifest m ctx).
Proof.
  intros (_ & _ & _ & _ & Hfam & Hsch & _). unfold validate_manifest, validate_header, cut_range. no_panic.
  - destruct (rc_kind _); no_panic. bools. apply usub_no_panic. lia.
  - match goal with H : validate_family _ = _ |- _ => destruct a0; apply validate_family_Ok in H; [|done] end.
    destruct H0 as (_ & _ & _ & _ & _ & Hfs & _).
    destruct Hfam as (_ & _ & _ & _ & _ & Hok), Hsch as (_ & _ & Hrok & _).
    apply validate_states_no_panic.
    apply (rows_Forall m (λ f, in_u8 (fs_token_axis f) ∧ fs_token_axis f < zlen (fs_dimensions f))
      (λ r, Shape_ok (rs_full_shape r))).
    + apply list.Forall_forall. intros f Hin. rewrite list.Forall_forall in Hok, Hfs.
      split; [by apply Hok|]. by apply Hfs.
    + eapply list.Forall_impl; [exact Hrok|]. by intros r (_ & ? & _).
Qed.
