(* ===== verification/Crypto.v ===== *)
(** * Cryptographic primitives

    SHA-256, HMAC-SHA-256, HKDF-SHA-256 and ChaCha20-Poly1305 come from crates
    outside the repository (sha2, hmac, hkdf, chacha20poly1305): [Crypto] is
    their interface as the code calls it, and [CryptoLaws] states the
    documented facts the code relies on (output sizes, decryption inverts
    encryption, the ciphertext is 16 bytes longer than the message).  Nothing
    is assumed about collisions or forgeries: where a statement needs two
    identities to differ it exhibits the colliding inputs instead.

    [toy] is a concrete instance that satisfies the laws; the witnesses of the
    conditional theorems evaluate the program over it. *)
From Stdlib Require Import ZArith Lia.
From stdpp Require Import base tactics numbers list strings option.
From S2P Require Import Prelude Bytes Canonical.

Class Crypto := {
    (** [Sha256::digest] of the concatenated updates *)
    sha256_digest : bytes → bytes;
    (** [Hmac::new_from_slice(key)], [update]s, [finalize] *)
    hmac_sha256 : bytes → bytes → bytes;
    (** [Hkdf::new(Some(salt), ikm).expand(info, &mut [0; 32])] *)
    hkdf_expand : bytes → bytes → bytes → option bytes;
    (** [ChaCha20Poly1305::new(key).encrypt(nonce, Payload { msg, aad })] *)
    aead_encrypt : bytes → bytes → bytes → bytes → option bytes;
    aead_decrypt : bytes → bytes → bytes → bytes → option bytes
}.

Class CryptoLaws (C : Crypto) : Prop := {
    sha256_id : ∀ m, id_ok (sha256_digest m);
    hmac_id : ∀ k m, id_ok (hmac_sha256 k m);
    hkdf_id : ∀ salt ikm info, ∃ k, hkdf_expand salt ikm info = Some k ∧ id_ok k;
    aead_total : ∀ k n m a, bytes_ok m → slice_len_ok m →
      ∃ c, aead_encrypt k n m a = Some c ∧ bytes_ok c ∧ zlen c = zlen m + 16;
    aead_open : ∀ k n m a c, aead_encrypt k n m a = Some c → aead_decrypt k n c a = Some m;
    aead_bytes : ∀ k n m a c, bytes_ok c → aead_decrypt k n c a = Some m →
      bytes_ok m ∧ zlen c = zlen m + 16
}.

(** Two distinct inputs with the same image. *)
Definition collides (h : bytes → bytes) (a b : bytes) : Prop := a ≠ b ∧ h a = h b.

Lemma hash_eq_or_collides h a b : h a = h b → a = b ∨ collides h a b.
Proof. intros H. destruct (decide (a = b)); [by left|by right]. Qed.

(** ** A concrete instance *)
Module Toy.
Definition step (a b : Z) : Z := Z.land (a * 263 + b + 1) 2147483647.
Definition hash (m : bytes) : bytes := le_bytes 32 (1 + foldl step 7 m).
Definition tag (k n m a : bytes) : bytes := ztake 16 (hash (k ++ n ++ a ++ m)).
Definition seal (k n m a : bytes) : option bytes := Some (m ++ tag k n m a).
Definition unseal (k n c a : bytes) : option bytes :=
  if zlen c <? 16 then None else
  let m := ztake (zlen c - 16) c in
  if bytes_eqb (zdrop (zlen c - 16) c) (tag k n m a) then Some m else None.

Lemma hash_id m : id_ok (hash m).
Proof. split; [apply zlen_le_bytes|apply le_bytes_ok]. Qed.
Lemma tag_len k n m a : zlen (tag k n m a) = 16.
Proof. unfold tag. apply zlen_ztake. rewrite (proj1 (hash_id _)). lia. Qed.
End Toy.

Definition toy : Crypto := {|
    sha256_digest := Toy.hash;
    hmac_sha256 k m := Toy.hash (k ++ m);
    hkdf_expand salt ikm info := Some (Toy.hash (salt ++ ikm ++ info));
    aead_encrypt := Toy.seal;
    aead_decrypt := Toy.unseal
  |}.

Lemma toy_laws : CryptoLaws toy.
Proof.
  split; simpl; try (intros; apply Toy.hash_id).
  - intros. eexists. split; [done|]. apply Toy.hash_id.
  - intros k n m a Hm _. eexists. split; [done|]. rewrite zlen_app, Toy.tag_len. split; [|done].
    apply bytes_ok_app. split; [done|]. apply bytes_ok_ztake, Toy.hash_id.
  - intros k n m a c [= <-]. unfold Toy.unseal. rewrite zlen_app, Toy.tag_len.
    rewrite (proj2 (Z.ltb_ge _ _)) by zlia. replace (zlen m + 16 - 16) with (zlen m) by lia.
    rewrite ztake_app_exact, zdrop_app_exact by done. by rewrite bytes_eqb_refl.
  - intros k n m a c Hc H. unfold Toy.unseal in H. destruct (Z.ltb_spec (zlen c) 16); [done|].
    destruct (bytes_eqb _ _); [|done]. injection H as <-. split; [by apply bytes_ok_ztake|].
    rewrite zlen_ztake; lia.
Qed.
