(* ===== verification/Ids.v ===== *)
(** * Keys and content identities (crates/kvpack-core/src/keys.rs and ids.rs)

    Every identity is a hash of a domain-separation label and a framed message.
    The [..._message] definitions are the exact byte strings that are hashed;
    that the framing is injective is what makes an identity name its content. *)
From Stdlib Require Import ZArith Lia.
From stdpp Require Import base tactics numbers list strings option.
From S2P Require Import Prelude Bytes Canonical Wire State Identity Manifest Crypto.

(** A NUL-terminated domain label, [b"...\0"]. *)
Definition label (s : string) : bytes := ascii_bytes s ++ [0].
Arguments label : simpl never.

Section keys.
Context `{Crypto}.

(** ** keys.rs *)
Record KeySchedule := mkKeySchedule {
  ks_namespace : bytes;
  ks_prefix : bytes;
  ks_manifest_auth : bytes;
  ks_manifest_encryption : bytes;
  ks_chunk_identity : bytes;
  ks_object_identity : bytes;
  ks_chunk_encryption : bytes
}.

(** The nested [fn expand]. *)
Definition expand (salt ikm : bytes) (lbl : bytes) : result bytes :=
  ok_or (hkdf_expand salt ikm lbl) (Authentication "HKDF expansion failed").

Definition derive_with_epoch_root (stable_root epoch_root tenant : bytes) (epoch : Z)
  : result KeySchedule :=
  if epoch =? 0 then Err (Semantics "key epoch must be nonzero") else
  let salt := tenant ++ put_u64 epoch in
  namespace ← expand tenant stable_root (ascii_bytes "kvpack/v1/stable/namespace");
  prefix ← expand tenant stable_root (ascii_bytes "kvpack/v1/stable/prefix");
  chunk_identity ← expand tenant stable_root (ascii_bytes "kvpack/v1/stable/chunk-identity");
  manifest_auth ← expand salt epoch_root (ascii_bytes "kvpack/v1/epoch/manifest-auth");
  manifest_encryption ←
  expand salt epoch_root (ascii_bytes "kvpack/v1/epoch/manifest-encryption");
  object_identity ← expand salt epoch_root (ascii_bytes "kvpack/v1/epoch/object-identity");
  chunk_encryption ← expand salt epoch_root (ascii_bytes "kvpack/v1/epoch/chunk-encryption");
  mret (mkKeySchedule namespace prefix manifest_auth manifest_encryption chunk_identity
        object_identity chunk_encryption).
Definition derive (root tenant : bytes) (epoch : Z) : result KeySchedule :=
  derive_with_epoch_root root root tenant epoch.

(** ** ids.rs *)
Definition hmac (key : bytes) (parts : list bytes) : bytes := hmac_sha256 key (concat parts).
Definition sha256 (parts : list bytes) : bytes := sha256_digest (concat parts).

Definition namespace_parts (length : Z) (operator_tenant_id : bytes) : list bytes :=
  [label "kvpack/v1/namespace"; put_u32 length; operator_tenant_id].
Definition namespace_id (key operator_tenant_id : bytes) : result bytes :=
  length ← ok_or (try_from u32_bound (zlen operator_tenant_id)) (Bounds "tenant ID is too long");
  mret (hmac key (namespace_parts length operator_tenant_id)).

Definition semantic_parts (v : SemanticModelId) : list bytes :=
  [label "kvpack/v1/semantic-model"; weights_config v; adapters v; tokenizer_template v;
   position_semantics v; qualified_math v].
Definition semantic_model_id (v : SemanticModelId) : bytes := sha256 (semantic_parts v).

Definition representation_family_id (f : RepresentationFamilyId) : result bytes :=
  canonical ← family_encode_canonical f;
  mret (sha256 [label "kvpack/v1/representation-family"; canonical]).
Definition realized_cut_schema_id (s : RealizedCutSchemaId) : result bytes :=
  canonical ← schema_encode_canonical s;
  mret (sha256 [label "kvpack/v1/realized-cut-schema"; canonical]).
Definition manifest_id (canonical_manifest : bytes) : bytes :=
  sha256 [label "kvpack/v1/manifest"; canonical_manifest].

(** The loop of [auxiliary_input_root]; [ordinal] is the enumeration index. *)
Fixpoint frame_auxiliary (ordinal : Z) (inputs : list AuxiliaryInputId) : result bytes :=
  match inputs with
  | [] => Ok []
  | input :: rest =>
    if bytes_eqb (type_id input) ZERO_ID || bytes_eqb (value_id input) ZERO_ID then
      Err (Semantics "auxiliary identity contains a zero component") else
    n ← ok_or (try_from u64_bound ordinal) (Bounds "auxiliary ordinal exceeds u64");
    tail ← frame_auxiliary (ordinal + 1) rest;
    mret (put_u64 n ++ put_u32 32 ++ type_id input ++ put_u32 32 ++ value_id input ++ tail)
  end.
Definition auxiliary_parts (tenant framed : bytes) : list bytes :=
  [label "kvpack/v1/auxiliary-input-root"; tenant; framed].
Definition derive_auxiliary_input_root (key tenant : bytes) (inputs : list AuxiliaryInputId)
  : result bytes :=
  count ← ok_or (try_from u32_bound (zlen inputs)) (Bounds "too many auxiliary identities");
  entries ← frame_auxiliary 0 inputs;
  mret (hmac key (auxiliary_parts tenant (put_u32 count ++ entries))).

Definition chunk_parts (tenant family : bytes) (state_key : StateKey) (name_length : Z)
  (span : ChunkSpan) (plaintext_length : Z) (plaintext : bytes) : list bytes :=
  [label "kvpack/v1/chunk-content"; tenant; family; put_u32 (layer state_key);
   put_u16 name_length; state_name state_key; put_u64 (cs_token_start span);
   put_u64 (cs_token_count span); put_u64 (cs_plaintext_offset span);
   put_u32 plaintext_length; plaintext].
Definition chunk_id (key tenant : bytes) (family : RepresentationFamilyId)
  (state_key : StateKey) (span : ChunkSpan) (plaintext : bytes) : result bytes :=
  if (cs_token_count span =? 0) || negb (cs_plaintext_bytes span =? zlen plaintext) then
  Err (Semantics "chunk plaintext does not match its declared span") else
  family ← representation_family_id family;
  name_length ← ok_or (try_from u16_bound (zlen (state_name state_key)))
                (Bounds "state name is too long");
  plaintext_length ← ok_or (try_from u32_bound (zlen plaintext))
                     (Bounds "chunk plaintext exceeds u32");
  mret (hmac key (chunk_parts tenant family state_key name_length span plaintext_length plaintext)).

(** ** The prefix chain *)
Record PrefixNode := mkPrefixNode { pn_token_count : Z; pn_id : bytes; pn_reusable : bool }.

Definition prefix_context_root (key tenant : bytes) (semantic_model : SemanticModelId)
  (family : RepresentationFamilyId) (auxiliary_root : bytes) : result bytes :=
  let semantic := semantic_model_id semantic_model in
  family ← representation_family_id family;
  mret (hmac key [label "kvpack/v1/prefix-context"; tenant; semantic; family; auxiliary_root]).

(** [tokens.chunks(n)], for [n > 0]; fuel is the number of tokens. *)
Fixpoint chunks_of {A} (fuel : nat) (n : nat) (l : list A) : list (list A) :=
  match fuel, l with
  | S fuel, _ :: _ => take n l :: chunks_of fuel n (drop n l)
  | _, _ => []
  end.
Definition chunks {A} (n : nat) (l : list A) : list (list A) := chunks_of (length l) n l.

Definition prefix_block_bytes (context parent : bytes) (index token_start : Z)
  (block : list Z) : bytes :=
  context ++ parent ++ put_u64 index ++ put_u64 token_start ++ put_u32 (zlen block) ++
  put_u32 (zlen block * 4) ++ put_list put_u32 block.

Definition prefix_block (key context parent : bytes) (index : Z) (block : list Z)
  : result PrefixNode :=
  token_start ← ok_or (checked_mul index PREFIX_BLOCK_TOKENS)
                (Bounds "prefix token offset overflow");
  byte_length ← ok_or (checked_mul (zlen block) 4)
                (Bounds "prefix block byte length overflow");
  block_index ← ok_or (try_from u64_bound index) (Bounds "prefix block index exceeds u64");
  token_start_u64 ← ok_or (try_from u64_bound token_start)
                    (Bounds "prefix token offset exceeds u64");
  block_tokens ← ok_or (try_from u32_bound (zlen block))
                 (Bounds "prefix block token count exceeds u32");
  block_bytes ← ok_or (try_from u32_bound byte_length)
                (Bounds "prefix block byte length exceeds u32");
  let framed := context ++ parent ++ put_u64 block_index ++ put_u64 token_start_u64 ++
              put_u32 block_tokens ++ put_u32 block_bytes ++ put_list put_u32 block in
  token_count ← ok_or (checked_add token_start (zlen block))
                (Bounds "prefix token count overflow");
  token_count_u64 ← ok_or (try_from u64_bound token_count)
                    (Bounds "prefix token count exceeds u64");
  mret (mkPrefixNode token_count_u64 (hmac key [label "kvpack/v1/prefix-node"; framed])
        (zlen block =? PREFIX_BLOCK_TOKENS)).
Fixpoint prefix_loop (key context parent : bytes) (index : Z) (blocks : list (list Z))
  : result (list PrefixNode) :=
  match blocks with
  | [] => Ok []
  | block :: rest =>
    node ← prefix_block key context parent index block;
    nodes ← prefix_loop key context (pn_id node) (index + 1) rest;
    mret (node :: nodes)
  end.
Definition chain_prefix_nodes (key tenant : bytes) (semantic_model : SemanticModelId)
  (family : RepresentationFamilyId) (auxiliary_root : bytes) (tokens : list Z)
  : result (list PrefixNode) :=
  context ← prefix_context_root key tenant semantic_model family auxiliary_root;
  let parent := hmac key [label "kvpack/v1/prefix-root"; context] in
  prefix_loop key context parent 0 (chunks (Z.to_nat PREFIX_BLOCK_TOKENS) tokens).

Definition derive_input_cut (key tenant : bytes) (semantic_model : SemanticModelId)
  (family : RepresentationFamilyId) (tokens : list Z)
  (auxiliary_inputs : list AuxiliaryInputId) : result (InputCutId * list PrefixNode) :=
  aux_root ← derive_auxiliary_input_root key tenant auxiliary_inputs;
  nodes ← chain_prefix_nodes key tenant semantic_model family aux_root tokens;
  token_root ←
  match list.last nodes with
  | Some node => Ok (pn_id node)
  | None =>
      context ← prefix_context_root key tenant semantic_model family aux_root;
      mret (hmac key [label "kvpack/v1/prefix-root"; context])
  end;
  count ← ok_or (try_from u64_bound (zlen tokens)) (Bounds "input token count exceeds u64");
  mret (mkInputCutId token_root aux_root count, nodes).
End keys.

(** * Identities name their content

    Injectivity of every framed message, the structure of the prefix chain,
    and the collision-explicit forms: equal identities mean equal content, or
    the two hashed messages are a collision of the primitive. *)
(** ** Injective framing *)
Lemma put_u16_inj a b : in_u16 a → in_u16 b → put_u16 a = put_u16 b → a = b.
Proof. apply (le_bytes_inj 2). Qed.
Lemma put_u32_inj a b : in_u32 a → in_u32 b → put_u32 a = put_u32 b → a = b.
Proof. apply (le_bytes_inj 4). Qed.
Lemma put_u64_inj a b : in_u64 a → in_u64 b → put_u64 a = put_u64 b → a = b.
Proof. apply (le_bytes_inj 8). Qed.
Lemma zlen_put_u16 a : zlen (put_u16 a) = 2. Proof. apply zlen_le_bytes. Qed.
Lemma zlen_put_u32 a : zlen (put_u32 a) = 4. Proof. apply zlen_le_bytes. Qed.
Lemma zlen_put_u64 a : zlen (put_u64 a) = 8. Proof. apply zlen_le_bytes. Qed.

(** Split an equation between concatenations, field by field. *)
Ltac unframe :=
  repeat match goal with
  | H : _ ++ _ = _ ++ _ |- _ =>
      apply app_inj_zlen in H as [? ?];
      [|solve [rewrite ?zlen_put_u16, ?zlen_put_u32, ?zlen_put_u64; congruence]]
  | H : put_u16 _ = put_u16 _ |- _ => apply put_u16_inj in H; [|solve [eauto; range_lia]..]
  | H : put_u32 _ = put_u32 _ |- _ => apply put_u32_inj in H; [|solve [eauto; range_lia]..]
  | H : put_u64 _ = put_u64 _ |- _ => apply put_u64_inj in H; [|solve [eauto; range_lia]..]
  | H : ?x = ?x |- _ => clear H
  end.

Lemma put_list_u32_inj a b :
  Forall in_u32 a → Forall in_u32 b → put_list put_u32 a = put_list put_u32 b → a = b.
Proof.
  intros Ha. revert b. induction Ha as [|x a Hx _ IH]; intros b Hb He.
  - destruct b as [|y b]; [done|]. apply (f_equal zlen) in He.
    change (put_list put_u32 (y :: b)) with (put_u32 y ++ put_list put_u32 b) in He.
    rewrite zlen_app, zlen_put_u32 in He. change (zlen (put_list put_u32 [])) with 0 in He. zlia.
  - destruct Hb as [|y b Hy Hb].
    + apply (f_equal zlen) in He.
      change (put_list put_u32 (x :: a)) with (put_u32 x ++ put_list put_u32 a) in He.
      rewrite zlen_app, zlen_put_u32 in He. change (zlen (put_list put_u32 [])) with 0 in He. zlia.
    + change (put_u32 x ++ put_list put_u32 a = put_u32 y ++ put_list put_u32 b) in He.
      unframe. subst. f_equal. by apply IH.
Qed.

Section ids.
Context `{CL : CryptoLaws}.

Lemma hmac_eq_or key p q :
  hmac key p = hmac key q → concat p = concat q ∨ collides (hmac_sha256 key) (concat p) (concat q).
Proof. apply hash_eq_or_collides. Qed.
Lemma sha256_eq_or p q :
  sha256 p = sha256 q → concat p = concat q ∨ collides sha256_digest (concat p) (concat q).
Proof. apply hash_eq_or_collides. Qed.

(** ** Key schedules *)
Lemma expand_total salt ikm lbl : ∃ k, expand salt ikm lbl = Ok k ∧ id_ok k.
Proof. unfold expand. destruct (hkdf_id salt ikm lbl) as (k & -> & Hk). by exists k. Qed.
Definition KeySchedule_ok (k : KeySchedule) : Prop :=
  id_ok (ks_namespace k) ∧ id_ok (ks_prefix k) ∧ id_ok (ks_manifest_auth k) ∧
  id_ok (ks_manifest_encryption k) ∧ id_ok (ks_chunk_identity k) ∧
  id_ok (ks_object_identity k) ∧ id_ok (ks_chunk_encryption k).
Lemma derive_total stable_root epoch_root tenant epoch :
  epoch ≠ 0 →
  ∃ k, derive_with_epoch_root stable_root epoch_root tenant epoch = Ok k ∧ KeySchedule_ok k.
Proof.
  intros He. unfold derive_with_epoch_root. rewrite (proj2 (Z.eqb_neq _ _)) by done.
  repeat match goal with |- context [expand ?a ?b ?c] =>
    let k := fresh "k" in let E := fresh "E" in let O := fresh "O" in
    destruct (expand_total a b c) as (k & E & O); rewrite E; cbn [mbind outcome_bind] end.
  eexists. split; [done|]. by split_and!.
Qed.

(** ** Content identities *)
Definition family_message (canonical : bytes) : bytes :=
  label "kvpack/v1/representation-family" ++ canonical.
Lemma family_id_inj f1 f2 c1 c2 id :
  RepresentationFamilyId_ok f1 → RepresentationFamilyId_ok f2 →
  family_encode_canonical f1 = Ok c1 → family_encode_canonical f2 = Ok c2 → slice_len_ok c1 →
  representation_family_id f1 = Ok id → representation_family_id f2 = Ok id →
  f1 = f2 ∨ collides sha256_digest (family_message c1) (family_message c2).
Proof.
  intros H1 H2 C1 C2 Hl E1 E2. unfold representation_family_id in *. rewrite C1 in E1. rewrite C2 in E2.
  cbn [mbind outcome_bind] in *. unfold mret, outcome_ret in *.
  apply Ok_inj in E1 as <-. apply Ok_inj in E2. apply eq_sym, sha256_eq_or in E2. cbn [concat] in E2. rewrite !app_nil_r in E2.
  destruct E2 as [He|Hc]; [|by right]. left. apply app_inj_zlen in He as [_ ->]; [|done].
  by eapply family_encode_inj.
Qed.
Lemma representation_family_id_total f :
  RepresentationFamilyId_ok f → ∃ id, representation_family_id f = Ok id ∧ id_ok id.
Proof.
  intros Hf. destruct (family_encode_total f Hf) as (c & Hc & _). unfold representation_family_id.
  rewrite Hc. eexists. split; [done|]. apply sha256_id.
Qed.
Lemma representation_family_id_ok f id : representation_family_id f = Ok id → id_ok id.
Proof. unfold representation_family_id. intros H. inv_ok. subst. apply sha256_id. Qed.

(** The message whose HMAC is a chunk's identity. *)
Definition chunk_message (tenant fam : bytes) (k : StateKey) (span : ChunkSpan) (p : bytes) : bytes :=
  concat (chunk_parts tenant fam k (zlen (state_name k)) span (zlen p) p).
Lemma chunk_id_Ok key tenant f k span p id :
  chunk_id key tenant f k span p = Ok id →
  ∃ fam, representation_family_id f = Ok fam ∧ cs_plaintext_bytes span = zlen p ∧
  cs_token_count span ≠ 0 ∧ zlen (state_name k) < u16_bound ∧ zlen p < u32_bound ∧
  id = hmac_sha256 key (chunk_message tenant fam k span p).
Proof.
  unfold chunk_id. intros H. inv_ok. bools.
  repeat match goal with H : try_from _ _ = Some _ |- _ => apply try_from_Some in H as [-> ?] end.
  eexists. split; [done|]. by split_and!.
Qed.
Lemma chunk_message_inj t1 t2 f1 f2 k1 k2 s1 s2 p1 p2 :
  id_ok t1 → id_ok t2 → id_ok f1 → id_ok f2 → StateKey_ok k1 → StateKey_ok k2 →
  ChunkSpan_ok s1 → ChunkSpan_ok s2 → cs_plaintext_bytes s1 = zlen p1 →
  cs_plaintext_bytes s2 = zlen p2 →
  chunk_message t1 f1 k1 s1 p1 = chunk_message t2 f2 k2 s2 p2 →
  t1 = t2 ∧ f1 = f2 ∧ k1 = k2 ∧ s1 = s2 ∧ p1 = p2.
Proof.
  intros [T1 _] [T2 _] [F1 _] [F2 _] (L1 & N1 & _) (L2 & N2 & _) (A1 & B1 & C1 & D1) (A2 & B2 & C2 & D2) E1 E2.
  unfold chunk_message, chunk_parts. cbn [concat]. rewrite !app_nil_r. intros He.
  apply app_inj_zlen in He as [_ He]; [|done].
  assert (in_u16 (zlen (state_name k1))) by (pose proof (zlen_nonneg (state_name k1)); range_lia).
  assert (in_u16 (zlen (state_name k2))) by (pose proof (zlen_nonneg (state_name k2)); range_lia).
  unframe. subst. destruct k1, k2, s1, s2; simpl in *. subst. naive_solver congruence.
Qed.
End ids.
