(* ===== verification/PrefixChain.v ===== *)
(** * The keyed prefix chain (crates/kvpack-core/src/ids.rs, chain_prefix_nodes)

    The shape of the node list, its stability under extension of the input
    (what makes a node reusable), totality, and the binding of a token root to
    the tokens it was derived from. *)
From Stdlib Require Import ZArith Lia.
From stdpp Require Import base tactics numbers list strings option sets.
From S2P Require Import Prelude Bytes Canonical Wire State Identity Manifest Crypto Ids.

(** ** [slice::chunks] *)
Section chunks.
Context {A : Type} (n : nat) (Hn : (0 < n)%nat).
Implicit Types l a b : list A.

Lemma chunks_of_fuel f g l :
  (length l ≤ f)%nat → (length l ≤ g)%nat → chunks_of f n l = chunks_of g n l.
Proof.
  revert g l. induction f as [|f IH]; intros [|g] [|x l] Hf Hg; simpl in *; try done; try lia.
  f_equal. apply IH; rewrite length_drop; simpl; lia.
Qed.
Lemma chunks_cons l : l ≠ [] → chunks n l = take n l :: chunks n (drop n l).
Proof.
  intros Hl. unfold chunks. destruct l as [|x l]; [done|]. simpl length. cbn [chunks_of].
  f_equal. apply chunks_of_fuel; rewrite length_drop; simpl; lia.
Qed.
Lemma chunks_nil : chunks n (@nil A) = [].
Proof. done. Qed.
(** Induction over blocks. *)
Lemma chunks_ind (P : list A → Prop) :
  P [] → (∀ l, l ≠ [] → P (drop n l) → P l) → ∀ l, P l.
Proof.
  intros H0 HS l. remember (length l) as k eqn:Hk. revert l Hk.
  induction (lt_wf k) as [k _ IH]. intros l ->. destruct l as [|x l]; [done|].
  apply HS; [done|]. apply (IH (length (drop n (x :: l)))); [|done].
  rewrite length_drop. simpl. lia.
Qed.
Lemma concat_chunks l : concat (chunks n l) = l.
Proof.
  induction l as [|l Hl IH] using chunks_ind; [done|].
  rewrite chunks_cons by done. simpl. by rewrite IH, take_drop.
Qed.
Lemma chunks_app k a b : length a = (k * n)%nat → chunks n (a ++ b) = chunks n a ++ chunks n b.
Proof.
  revert a. induction k as [|k IH]; intros a Ha.
  - destruct a; [done|]. simpl in Ha. lia.
  - destruct a as [|x a']; [simpl in Ha; lia|]. set (a := x :: a') in *.
    rewrite (chunks_cons (a ++ b)), (chunks_cons a) by done.
    rewrite take_app_le, drop_app_le by lia. simpl. f_equal. apply IH. rewrite length_drop. lia.
Qed.
Lemma chunks_bounds l :
  Forall (λ b, 0 < length b ≤ n)%nat (chunks n l).
Proof.
  induction l as [|l Hl IH] using chunks_ind; [constructor|].
  rewrite chunks_cons by done. constructor; [|done]. rewrite length_take.
  destruct l; [done|]. simpl. lia.
Qed.
Lemma length_chunks l : Z.of_nat (length (chunks n l)) = div_ceil (zlen l) (Z.of_nat n).
Proof.
  induction l as [|l Hl IH] using chunks_ind.
  { symmetry. unfold div_ceil. apply Z.div_small. change (zlen (@nil A)) with 0. lia. }
  rewrite chunks_cons by done. rewrite length_cons, Nat2Z.inj_succ, IH.
  unfold div_ceil, zlen in *. rewrite length_drop.
  assert (0 < length l)%nat by (destruct l; [done|simpl; lia]).
  destruct (decide (n ≤ length l)%nat).
  - replace (Z.of_nat (length l) + Z.of_nat n - 1)
      with (Z.of_nat (length l - n) + Z.of_nat n - 1 + 1 * Z.of_nat n) by lia.
    rewrite Z.div_add by lia. lia.
  - replace (length l - n)%nat with 0%nat by lia.
    rewrite Z.div_small by lia. apply Z.div_unique with (r := Z.of_nat (length l) - 1); lia.
Qed.
End chunks.

Section chain.
Context `{CL : CryptoLaws}.
Implicit Types (blocks : list (list Z)) (nodes : list PrefixNode).

Definition last_id (parent : bytes) (nodes : list PrefixNode) : bytes :=
  match list.last nodes with Some n => pn_id n | None => parent end.

Lemma last_id_cons parent n nodes : last_id parent (n :: nodes) = last_id (pn_id n) nodes.
Proof. unfold last_id. rewrite (last_cons n). by destruct (list.last nodes). Qed.

(** The message hashed for one block. *)
Definition block_message (context parent : bytes) (index : Z) (block : list Z) : bytes :=
  label "kvpack/v1/prefix-node" ++
  prefix_block_bytes context parent index (index * PREFIX_BLOCK_TOKENS) block.
Definition block_ok (index : Z) (block : list Z) : Prop :=
  0 ≤ index ∧ (0 < length block ≤ Z.to_nat PREFIX_BLOCK_TOKENS)%nat ∧
  index * PREFIX_BLOCK_TOKENS + zlen block < u64_bound.

(** The overflow checks never fire on blocks of a slice that fits in memory. *)
Lemma prefix_block_eq key context parent index block :
  block_ok index block →
  prefix_block key context parent index block =
  Ok (mkPrefixNode (index * PREFIX_BLOCK_TOKENS + zlen block)
      (hmac_sha256 key (block_message context parent index block))
      (zlen block =? PREFIX_BLOCK_TOKENS)).
Proof.
  unfold block_ok, PREFIX_BLOCK_TOKENS. intros (Hi & Hb & Ht). unfold prefix_block, PREFIX_BLOCK_TOKENS.
  assert (zlen block ≤ 256) by (unfold zlen; lia). pose proof (zlen_nonneg block).
  unfold checked_mul, checked_add, u64_bound in *.
  rewrite (proj2 (Z.ltb_lt (index * 256) _)) by lia. cbn [ok_or mbind outcome_bind].
  rewrite (proj2 (Z.ltb_lt (zlen block * 4) _)) by lia. cbn [ok_or mbind outcome_bind].
  rewrite !try_from_ok by (unfold u64_bound, u32_bound; lia). cbn [ok_or mbind outcome_bind].
  rewrite (proj2 (Z.ltb_lt (index * 256 + zlen block) _)) by lia. cbn [ok_or mbind outcome_bind].
  rewrite !try_from_ok by (unfold u64_bound, u32_bound; lia). cbn [ok_or mbind outcome_bind].
  unfold hmac. cbn [concat]. rewrite app_nil_r. done.
Qed.

Fixpoint expected_nodes (key context parent : bytes) (index : Z) blocks : list PrefixNode :=
  match blocks with
  | [] => []
  | block :: rest =>
    let id := hmac_sha256 key (block_message context parent index block) in
    mkPrefixNode (index * PREFIX_BLOCK_TOKENS + zlen block) id
      (zlen block =? PREFIX_BLOCK_TOKENS) :: expected_nodes key context id (index + 1) rest
  end.
Fixpoint block_messages (key context parent : bytes) (index : Z) blocks : list bytes :=
  match blocks with
  | [] => []
  | block :: rest =>
    let m := block_message context parent index block in
    m :: block_messages key context (hmac_sha256 key m) (index + 1) rest
  end.
Fixpoint blocks_ok (index : Z) blocks : Prop :=
  match blocks with
  | [] => True
  | block :: rest => block_ok index block ∧ blocks_ok (index + 1) rest
  end.

Lemma prefix_loop_eq key context parent index blocks :
  blocks_ok index blocks →
  prefix_loop key context parent index blocks = Ok (expected_nodes key context parent index blocks).
Proof.
  revert parent index. induction blocks as [|b blocks IH]; intros parent index; [done|].
  intros [Hb Hbs]. cbn [prefix_loop]. rewrite prefix_block_eq by done. cbn [mbind outcome_bind pn_id].
  by rewrite IH.
Qed.
Lemma expected_nodes_app key context parent index bs1 bs2 :
  expected_nodes key context parent index (bs1 ++ bs2) =
  expected_nodes key context parent index bs1 ++
  expected_nodes key context (last_id parent (expected_nodes key context parent index bs1))
  (index + Z.of_nat (length bs1)) bs2.
Proof.
  revert parent index. induction bs1 as [|b bs1 IH]; intros parent index; cbn [expected_nodes app].
  { change (last_id parent []) with parent. by rewrite Z.add_0_r. }
  rewrite IH, last_id_cons. cbn [pn_id length]. do 3 f_equal. lia.
Qed.
Lemma chunks_blocks_ok tokens index :
  0 ≤ index → index * PREFIX_BLOCK_TOKENS + zlen tokens < u64_bound →
  blocks_ok index (chunks (Z.to_nat PREFIX_BLOCK_TOKENS) tokens).
Proof.
  set (n := Z.to_nat PREFIX_BLOCK_TOKENS). assert (0 < n)%nat as Hn by (vm_compute; lia).
  assert (Z.of_nat n = PREFIX_BLOCK_TOKENS) as En by done.
  revert index. induction tokens as [|l Hl IH] using (chunks_ind n Hn); intros index Hi Ht; [done|].
  rewrite (chunks_cons n Hn) by done. assert (0 < length l)%nat by (destruct l; [done|simpl; lia]).
  rewrite <- En in *. unfold zlen in *. split.
  - split_and!; [done|rewrite length_take; fold n; lia..|]. unfold zlen. rewrite length_take. rewrite <- En. lia.
  - destruct (decide (n ≤ length l)%nat).
    + apply IH; [lia|]. rewrite length_drop. lia.
    + rewrite drop_ge by lia. done.
Qed.

(** ** Binding *)
Definition run_collision (h : bytes → bytes) (ms1 ms2 : list bytes) : Prop :=
  ∃ m1 m2, m1 ∈ ms1 ∧ m2 ∈ ms2 ∧ collides h m1 m2.
Lemma run_collision_mono h a b c d :
  run_collision h a b → a ⊆ c → b ⊆ d → run_collision h c d.
Proof. intros (m1 & m2 & H1 & H2 & Hc) Ha Hb. exists m1, m2. auto. Qed.

Lemma block_message_inj c1 c2 p1 p2 i b1 b2 :
  zlen c1 = zlen c2 → zlen p1 = zlen p2 → Forall in_u32 b1 → Forall in_u32 b2 →
  block_message c1 p1 i b1 = block_message c2 p2 i b2 → c1 = c2 ∧ p1 = p2 ∧ b1 = b2.
Proof.
  intros Hc Hp H1 H2 He. unfold block_message, prefix_block_bytes in He.
  apply app_inj_zlen in He as [_ He]; [|done].
  apply app_inj_zlen in He as [-> He]; [|done]. apply app_inj_zlen in He as [-> He]; [|done].
  do 4 (apply app_inj_zlen in He as [_ He]; [|by rewrite ?zlen_put_u64, ?zlen_put_u32]).
  apply put_list_u32_inj in He; done.
Qed.

Lemma chain_binding key c1 c2 p1 p2 index bs1 bs2 :
  zlen c1 = zlen c2 → zlen p1 = zlen p2 → length bs1 = length bs2 →
  Forall (Forall in_u32) bs1 → Forall (Forall in_u32) bs2 →
  last_id p1 (expected_nodes key c1 p1 index bs1) = last_id p2 (expected_nodes key c2 p2 index bs2) →
  (p1 = p2 ∧ bs1 = bs2) ∨
  run_collision (hmac_sha256 key) (block_messages key c1 p1 index bs1)
  (block_messages key c2 p2 index bs2).
Proof.
  intros Hc Hp Hl H1 H2. revert p1 p2 index bs2 Hp Hl H2.
  induction H1 as [|b1 bs1 Hb1 _ IH]; intros p1 p2 index [|b2 bs2] Hp Hl H2 He; try done; [by left|].
  apply Forall_cons_iff in H2 as [Hb2 H2]. cbn [expected_nodes block_messages] in *.
  rewrite !last_id_cons in He. cbn [pn_id] in He.
  set (m1 := block_message c1 p1 index b1) in *. set (m2 := block_message c2 p2 index b2) in *.
  destruct (IH (hmac_sha256 key m1) (hmac_sha256 key m2) (index + 1) bs2) as [[Hh ->]|Hcol]; try done.
  - by rewrite !(proj1 (hmac_id _ _)).
  - by injection Hl.
  - apply hash_eq_or_collides in Hh as [Hm|Hcol].
    + apply block_message_inj in Hm as (_ & -> & ->); auto.
    + right. exists m1, m2. split_and!; [left|left|done].
  - right. eapply run_collision_mono; [exact Hcol|set_solver..].
Qed.

(** ** [chain_prefix_nodes] *)
Definition context_message (tenant : bytes) (s : SemanticModelId) (fam aux : bytes) : bytes :=
  label "kvpack/v1/prefix-context" ++ tenant ++ semantic_model_id s ++ fam ++ aux.
Definition root_message (context : bytes) : bytes := label "kvpack/v1/prefix-root" ++ context.
Definition token_blocks (tokens : list Z) : list (list Z) :=
  chunks (Z.to_nat PREFIX_BLOCK_TOKENS) tokens.

Lemma block_size_pos : (0 < Z.to_nat PREFIX_BLOCK_TOKENS)%nat.
Proof. vm_compute. lia. Qed.
Lemma prefix_context_root_Ok key tenant s f aux context :
  prefix_context_root key tenant s f aux = Ok context ↔
  ∃ fam, representation_family_id f = Ok fam ∧
  context = hmac_sha256 key (context_message tenant s fam aux).
Proof.
  unfold prefix_context_root, hmac, context_message. cbn [concat]. split.
  - intros Hc. inv_ok. rewrite app_nil_r in *. eauto.
  - intros (fam & -> & ->). cbn [mbind outcome_bind]. by rewrite app_nil_r.
Qed.
Lemma chain_prefix_nodes_eq key tenant s f aux tokens context :
  zlen tokens < u64_bound → prefix_context_root key tenant s f aux = Ok context →
  chain_prefix_nodes key tenant s f aux tokens =
  Ok (expected_nodes key context (hmac_sha256 key (root_message context)) 0 (token_blocks tokens)).
Proof.
  intros Ht Hc. unfold chain_prefix_nodes. rewrite Hc. cbn [mbind outcome_bind].
  unfold hmac. cbn [concat]. rewrite app_nil_r.
  apply prefix_loop_eq, chunks_blocks_ok; [done|]. lia.
Qed.
Lemma chain_prefix_nodes_Ok key tenant s f aux tokens nodes :
  zlen tokens < u64_bound → chain_prefix_nodes key tenant s f aux tokens = Ok nodes →
  ∃ context, prefix_context_root key tenant s f aux = Ok context ∧
  nodes = expected_nodes key context (hmac_sha256 key (root_message context)) 0 (token_blocks tokens).
Proof.
  intros Ht Hn. pose proof Hn as Hn'. unfold chain_prefix_nodes in Hn.
  apply bind_Ok in Hn as (context & Hc & _). exists context. split; [done|].
  rewrite (chain_prefix_nodes_eq _ _ _ _ _ _ _ Ht Hc) in Hn'. by apply Ok_inj in Hn'.
Qed.

(** The nodes of a whole number of blocks are the first nodes of every extension. *)
Lemma chain_prefix_extends key tenant s f aux a b na nab k :
  zlen (a ++ b) < u64_bound → zlen a = Z.of_nat k * PREFIX_BLOCK_TOKENS →
  chain_prefix_nodes key tenant s f aux a = Ok na →
  chain_prefix_nodes key tenant s f aux (a ++ b) = Ok nab → ∃ nb, nab = na ++ nb.
Proof.
  intros Hab Ha H1 H2. assert (zlen a < u64_bound) by zlia.
  apply chain_prefix_nodes_Ok in H1 as (c1 & Hc1 & ->); [|done].
  apply chain_prefix_nodes_Ok in H2 as (c2 & Hc2 & ->); [|done].
  rewrite Hc1 in Hc2. apply Ok_inj in Hc2 as <-. unfold token_blocks.
  rewrite (chunks_app _ block_size_pos k), expected_nodes_app; [eauto|].
  unfold zlen, PREFIX_BLOCK_TOKENS in *. lia.
Qed.

Lemma expected_nodes_lookup key context parent tokens index i :
  0 ≤ index → Z.of_nat i * PREFIX_BLOCK_TOKENS < zlen tokens →
  ∃ id, expected_nodes key context parent index (token_blocks tokens) !! i =
  Some (mkPrefixNode (Z.min ((index + Z.of_nat i + 1) * PREFIX_BLOCK_TOKENS)
                        (index * PREFIX_BLOCK_TOKENS + zlen tokens)) id
          ((Z.of_nat i + 1) * PREFIX_BLOCK_TOKENS <=? zlen tokens)).
Proof.
  unfold token_blocks. set (n := Z.to_nat PREFIX_BLOCK_TOKENS).
  assert (Z.of_nat n = PREFIX_BLOCK_TOKENS) as En by done. rewrite <- En. clearbody n.
  assert (0 < n)%nat as Hn by (unfold PREFIX_BLOCK_TOKENS in En; lia).
  revert tokens parent index. induction i as [|i IH]; intros tokens parent index Hi Ht.
  - assert (tokens ≠ []) as Hne by (intros ->; unfold zlen in Ht; simpl in Ht; lia).
    rewrite (chunks_cons n Hn) by done. eexists. cbn [expected_nodes]. simpl. do 2 f_equal.
    + rewrite <- En. unfold zlen. rewrite length_take. lia.
    + rewrite <- En. unfold zlen. rewrite length_take. apply eq_bool_prop_intro.
      rewrite !Is_true_true, Z.eqb_eq, Z.leb_le. lia.
  - assert (n < length tokens)%nat by (unfold zlen in Ht; nia).
    assert (tokens ≠ []) as Hne by (intros ->; simpl in *; lia).
    rewrite (chunks_cons n Hn) by done. cbn [expected_nodes]. rewrite lookup_cons.
    match goal with |- context [expected_nodes _ _ ?p _ (chunks n (drop n tokens))] =>
      destruct (IH (drop n tokens) p (index + 1)) as [id Hid] end; [lia| |].
    + unfold zlen in *. rewrite length_drop. nia.
    + exists id. rewrite Hid. unfold zlen. rewrite length_drop. do 2 f_equal.
      * lia.
      * apply eq_bool_prop_intro. rewrite !Is_true_true, !Z.leb_le. lia.
Qed.
Lemma length_expected_nodes key context parent index blocks :
  length (expected_nodes key context parent index blocks) = length blocks.
Proof. revert parent index. induction blocks; intros; simpl; auto. Qed.
Lemma length_token_blocks tokens :
  Z.of_nat (length (token_blocks tokens)) = div_ceil (zlen tokens) PREFIX_BLOCK_TOKENS.
Proof. apply (length_chunks _ block_size_pos). Qed.

(** ** [derive_input_cut] *)
Definition cut_messages (key tenant : bytes) (s : SemanticModelId) (fam aux : bytes)
  (tokens : list Z) : list bytes :=
  let context := hmac_sha256 key (context_message tenant s fam aux) in
  context_message tenant s fam aux :: root_message context ::
  block_messages key context (hmac_sha256 key (root_message context)) 0 (token_blocks tokens).

Lemma derive_input_cut_Ok key tenant s f tokens auxs cut nodes :
  zlen tokens < u64_bound → derive_input_cut key tenant s f tokens auxs = Ok (cut, nodes) →
  ∃ fam aux, representation_family_id f = Ok fam ∧
  derive_auxiliary_input_root key tenant auxs = Ok aux ∧
  let context := hmac_sha256 key (context_message tenant s fam aux) in
  let parent := hmac_sha256 key (root_message context) in
  chain_prefix_nodes key tenant s f aux tokens = Ok nodes ∧
  nodes = expected_nodes key context parent 0 (token_blocks tokens) ∧
  cut = mkInputCutId (last_id parent nodes) aux (zlen tokens).
Proof.
  intros Ht H0. unfold derive_input_cut in H0. inv_ok.
  match goal with H : try_from _ _ = Some _ |- _ => apply try_from_Some in H as [-> _] end.
  match goal with H : chain_prefix_nodes _ _ _ _ _ _ = Ok _ |- _ =>
    pose proof H as Hch; apply chain_prefix_nodes_Ok in H as (context & Hc & Hn); [|done] end.
  pose proof Hc as Hc'. apply prefix_context_root_Ok in Hc' as (fam & Hf & ->). simplify_eq.
  do 2 eexists. split; [done|]. split; [done|]. cbv zeta. split; [done|]. split; [done|].
  f_equal. unfold last_id. destruct (list.last _); inv_ok; [done|].
  match goal with H : prefix_context_root _ _ _ _ _ = _ |- _ =>
    rewrite Hc in H; apply Ok_inj in H; subst end.
  unfold hmac. cbn [concat]. by rewrite app_nil_r.
Qed.

Lemma Forall_chunks {A} (P : A → Prop) n (l : list A) :
  (0 < n)%nat → Forall P l → Forall (Forall P) (chunks n l).
Proof.
  intros Hn. induction l as [|l Hl IH] using (chunks_ind n Hn); intros HP; [constructor|].
  rewrite (chunks_cons n Hn) by done. constructor; [by apply Forall_take|]. by apply IH, Forall_drop.
Qed.

Lemma input_cut_binding key t1 t2 s1 s2 f1 f2 tok1 tok2 aux1 aux2 fam1 fam2 cut n1 n2 :
  id_ok t1 → id_ok t2 → zlen tok1 < u64_bound → zlen tok2 < u64_bound →
  Forall in_u32 tok1 → Forall in_u32 tok2 →
  representation_family_id f1 = Ok fam1 → representation_family_id f2 = Ok fam2 →
  derive_input_cut key t1 s1 f1 tok1 aux1 = Ok (cut, n1) →
  derive_input_cut key t2 s2 f2 tok2 aux2 = Ok (cut, n2) →
  (tok1 = tok2 ∧ t1 = t2 ∧ semantic_model_id s1 = semantic_model_id s2 ∧ fam1 = fam2) ∨
  run_collision (hmac_sha256 key)
  (cut_messages key t1 s1 fam1 (auxiliary_input_root cut) tok1)
  (cut_messages key t2 s2 fam2 (auxiliary_input_root cut) tok2).
Proof.
  intros T1 T2 L1 L2 U1 U2 F1 F2 D1 D2.
  apply derive_input_cut_Ok in D1 as (fam1' & a1 & F1' & _ & _ & -> & E1); [|done].
  apply derive_input_cut_Ok in D2 as (fam2' & a2 & F2' & _ & _ & -> & E2); [|done].
  rewrite F1 in F1'. apply Ok_inj in F1' as <-. rewrite F2 in F2'. apply Ok_inj in F2' as <-.
  rewrite E1 in E2 |- *. cbn [auxiliary_input_root]. injection E2 as Hid <- Hlen.
  unfold cut_messages. set (c1 := context_message t1 s1 fam1 a1) in *.
  set (c2 := context_message t2 s2 fam2 a1) in *.
  apply chain_binding in Hid as [[Hp Hb]|Hcol].
  - apply hash_eq_or_collides in Hp as [Hr|Hcol]; [|right; eexists _, _; split_and!; [| |exact Hcol]; set_solver].
    apply app_inv_head in Hr. apply hash_eq_or_collides in Hr as [Hc|Hcol];
      [|right; eexists _, _; split_and!; [| |exact Hcol]; set_solver].
    left. apply app_inv_head in Hc. apply app_inj_zlen in Hc as [-> Hc]; [|by rewrite (proj1 T1), (proj1 T2)].
    apply app_inj_zlen in Hc as [Hs Hc]; [|unfold semantic_model_id, sha256; by rewrite !(proj1 (sha256_id _))].
    apply app_inv_tail in Hc as ->. split_and!; try done.
    rewrite <- (concat_chunks _ block_size_pos tok1), <- (concat_chunks _ block_size_pos tok2).
    unfold token_blocks in Hb. by rewrite Hb.
  - right. eapply run_collision_mono; [exact Hcol|set_solver..].
  - by rewrite !(proj1 (hmac_id _ _)).
  - by rewrite !(proj1 (hmac_id _ _)).
  - pose proof (length_token_blocks tok1). pose proof (length_token_blocks tok2).
    rewrite Hlen in *. lia.
  - apply Forall_chunks; [apply block_size_pos|done].
  - apply Forall_chunks; [apply block_size_pos|done].
Qed.
End chain.
