(* ===== verification/CutChain.v ===== *)
(** * The streaming cut chain (crates/kvpack-core/src/ids.rs, CutChainDeriver)

    [push_tokens] mutates the deriver also when it fails, so it returns the
    result together with the new state.  Its [loop] ends after at most
    [MAX_CUT_CHAIN_CUTS + 1] rounds, because each round but the last counts one
    cut; that is the fuel, and exhausting it would be a [Panic].

    [cut_chain] is the abstract specification: the identities of all complete
    cuts of a token sequence, computed in one pass over the sequence.  The
    refinement theorem says that a deriver fed the sequence in any slices
    emits exactly those identities, slice by slice. *)
From Stdlib Require Import ZArith Lia.
From stdpp Require Import base tactics numbers list strings option.
From S2P Require Import Prelude Bytes Canonical Wire State Identity Manifest Crypto Ids.

Inductive CutStridePolicy :=
  | Flat (stride : Z)
  | TwoTier (head_tokens head_stride tail_stride : Z).

Definition CutStridePolicy_validate (p : CutStridePolicy) : result unit :=
  match p with
  | Flat stride => if stride =? 0 then Err (Semantics "cut stride is zero") else Ok tt
  | TwoTier head_tokens head_stride tail_stride =>
      if head_stride =? 0 then Err (Semantics "cut head stride is zero") else
      if tail_stride =? 0 then Err (Semantics "cut tail stride is zero") else
      if negb (head_tokens mod head_stride =? 0) then
        Err (Semantics "cut head region is not a multiple of the head stride") else
      if negb (head_tokens mod tail_stride =? 0) then
        Err (Semantics "cut head region is not a multiple of the tail stride")
      else Ok tt
  end.

Definition stride_at (p : CutStridePolicy) (token_offset : Z) : Z :=
  match p with
  | Flat stride => stride
  | TwoTier head_tokens head_stride tail_stride =>
      if token_offset <? head_tokens then head_stride else tail_stride
  end.

Record CutChainDeriver := mkDeriver {
    cc_key : bytes;
    cc_tip : bytes;
    cc_pending : bytes;
    cc_pending_front : Z;
    cc_consumed_tokens : Z;
    cc_cuts : Z;
    cc_policy : CutStridePolicy;
    cc_poisoned : bool
}.

Section deriver.
Context `{Crypto}.

Definition CutChainDeriver_new (store_key namespace : bytes) (policy : CutStridePolicy)
  : result CutChainDeriver :=
  _ ← CutStridePolicy_validate policy;
  mret (mkDeriver store_key (hmac store_key [label "kvpack/v1/cut-chain"; namespace])
        [] 0 0 0 policy false).

Definition poison (d : CutChainDeriver) : CutChainDeriver :=
  mkDeriver (cc_key d) (cc_tip d) (cc_pending d) (cc_pending_front d)
  (cc_consumed_tokens d) (cc_cuts d) (cc_policy d) true.

(** The [loop] of [push_tokens]. *)
Fixpoint push_loop (fuel : nat) (d : CutChainDeriver) (emitted : list bytes)
  : result (list bytes) * CutChainDeriver :=
  match fuel with
  | O => (Panic "out of fuel", d)
  | S fuel =>
    let stride := stride_at (cc_policy d) (cc_consumed_tokens d) in
    let stride_bytes := stride * 4 in
    match checked_sub (zlen (cc_pending d)) (cc_pending_front d) with
    | None => (Panic "attempt to subtract with overflow", d)
    | Some available =>
        if available <? stride_bytes then (Ok emitted, d) else
        if cc_cuts d =? MAX_CUT_CHAIN_CUTS then
          (Err (Bounds "cut chain exceeds 512 cuts"), poison d) else
        match get_range (cc_pending d) (cc_pending_front d)
                (cc_pending_front d + stride_bytes) with
        | None => (Panic "slice index out of range", d)
        | Some block =>
            let tip := hmac (cc_key d) [label "kvpack/v1/cut-chain"; cc_tip d; block] in
            push_loop fuel
              (mkDeriver (cc_key d) tip (cc_pending d) (cc_pending_front d + stride_bytes)
                 (cc_consumed_tokens d + stride) (cc_cuts d + 1) (cc_policy d)
                 (cc_poisoned d))
              (emitted ++ [tip])
        end
    end
  end.

(** Drop the consumed prefix of [pending]. *)
Definition compact (d : CutChainDeriver) : CutChainDeriver :=
  let pending :=
  if cc_pending_front d =? zlen (cc_pending d) then []
  else if 0 <? cc_pending_front d then zdrop (cc_pending_front d) (cc_pending d)
  else cc_pending d in
  mkDeriver (cc_key d) (cc_tip d) pending 0 (cc_consumed_tokens d) (cc_cuts d)
  (cc_policy d) (cc_poisoned d).

Definition push_fuel : nat := S (Z.to_nat MAX_CUT_CHAIN_CUTS).
Definition push_tokens (d : CutChainDeriver) (tokens : list Z)
  : result (list bytes) * CutChainDeriver :=
  if cc_poisoned d then (Err (Poisoned "cut chain deriver is poisoned"), d) else
  let d := mkDeriver (cc_key d) (cc_tip d) (cc_pending d ++ put_list put_u32 tokens)
           (cc_pending_front d) (cc_consumed_tokens d) (cc_cuts d) (cc_policy d) false in
  match push_loop push_fuel d [] with
  | (Ok emitted, d) => (Ok emitted, compact d)
  | (failure, d) => (failure, d)
  end.

(** A session: the slices are pushed one after the other. *)
Fixpoint push_all (d : CutChainDeriver) (slices : list (list Z))
  : result (list bytes) * CutChainDeriver :=
  match slices with
  | [] => (Ok [], d)
  | s :: slices =>
    match push_tokens d s with
    | (Ok ids, d) =>
        match push_all d slices with
        | (Ok more, d) => (Ok (ids ++ more), d)
        | failure => failure
        end
    | failure => failure
    end
  end.

(** ** Specification *)
Definition cut_tip (key tip : bytes) (cut : list Z) : bytes :=
  hmac key [label "kvpack/v1/cut-chain"; tip; put_list put_u32 cut].

(** The complete cuts of [tokens] from a given tip and offset: their
identities, and the tip, offset and tokens that are left. *)
Fixpoint cuts_from (fuel : nat) (key : bytes) (p : CutStridePolicy) (tip : bytes)
  (consumed : Z) (tokens : list Z) : list bytes * (bytes * Z * list Z) :=
  match fuel with
  | O => ([], (tip, consumed, tokens))
  | S fuel =>
    let stride := stride_at p consumed in
    if zlen tokens <? stride then ([], (tip, consumed, tokens)) else
    let tip := cut_tip key tip (ztake stride tokens) in
    let '(ids, rest) := cuts_from fuel key p tip (consumed + stride) (zdrop stride tokens) in
    (tip :: ids, rest)
  end.
Definition cut_chain (key namespace : bytes) (p : CutStridePolicy) (tokens : list Z)
  : list bytes :=
  (cuts_from (length tokens) key p
   (hmac key [label "kvpack/v1/cut-chain"; namespace]) 0 tokens).1.

(** ** Strides *)
Definition policy_ok (p : CutStridePolicy) : Prop :=
  match p with
  | Flat stride => 0 < stride ∧ in_u32 stride
  | TwoTier head_tokens head_stride tail_stride =>
    in_u32 head_tokens ∧ 0 < head_stride ∧ in_u32 head_stride ∧
    0 < tail_stride ∧ in_u32 tail_stride ∧
    (head_stride | head_tokens) ∧ (tail_stride | head_tokens)
  end.
Definition policy_u32 (p : CutStridePolicy) : Prop :=
  match p with
  | Flat stride => in_u32 stride
  | TwoTier head_tokens head_stride tail_stride =>
    in_u32 head_tokens ∧ in_u32 head_stride ∧ in_u32 tail_stride
  end.
Lemma policy_validate_Ok p :
  policy_u32 p → CutStridePolicy_validate p = Ok tt ↔ policy_ok p.
Proof.
  destruct p as [s|h hs ts]; simpl.
  - intros [Hs ?]. destruct (Z.eqb_spec s 0); [naive_solver lia|].
    split; [intros _; split; [lia|done]|done].
  - intros ([] & [] & []). destruct (Z.eqb_spec hs 0); [naive_solver lia|].
    destruct (Z.eqb_spec ts 0); [naive_solver lia|].
    rewrite <- !Z.mod_divide by done.
    destruct (Z.eqb_spec (h mod hs) 0); simpl; [|naive_solver].
    destruct (Z.eqb_spec (h mod ts) 0); simpl; [|naive_solver].
    split; [|done]. intros _. split_and!; try done; lia.
Qed.
Lemma stride_at_pos p c : policy_ok p → 0 < stride_at p c < u32_bound.
Proof.
  destruct p as [s|h hs ts]; simpl; [intros [? []]; lia|].
  intros (_ & ? & [] & ? & [] & _). destruct (c <? h); lia.
Qed.

(** ** The specification is a fold *)
Section spec.
Context (key : bytes) (p : CutStridePolicy) (Hp : policy_ok p).

Lemma cuts_from_fuel f g tip c tokens :
  (length tokens ≤ f)%nat → (length tokens ≤ g)%nat →
  cuts_from f key p tip c tokens = cuts_from g key p tip c tokens.
Proof.
  revert g tip c tokens. induction f as [|f IH]; intros [|g] tip c tokens Hf Hg; [done|..];
    pose proof (stride_at_pos p c Hp) as Hs.
  - cbn [cuts_from]. rewrite (proj2 (Z.ltb_lt _ _)) by (unfold zlen; lia). done.
  - cbn [cuts_from]. rewrite (proj2 (Z.ltb_lt _ _)) by (unfold zlen; lia). done.
  - cbn [cuts_from]. destruct (Z.ltb_spec (zlen tokens) (stride_at p c)); [done|].
    rewrite (IH g); [done|..]; unfold zdrop; rewrite length_drop; lia.
Qed.

Lemma cuts_from_rest f tip c tokens ids tip' c' rest :
  cuts_from f key p tip c tokens = (ids, (tip', c', rest)) → (length rest ≤ length tokens)%nat.
Proof.
  revert tip c tokens ids. induction f as [|f IH]; intros tip c tokens ids Hr; [by simplify_eq/=|].
  cbn [cuts_from] in Hr. destruct (_ <? _); [by simplify_eq/=|].
  destruct (cuts_from f _ _ _ _ _) as [ids' r'] eqn:Hc. simplify_eq.
  apply IH in Hc. unfold zdrop in Hc. rewrite length_drop in Hc. lia.
Qed.

(** Cutting [a ++ b] is cutting [a], then what [a] left followed by [b]. *)
Lemma cuts_from_app f tip c a b :
  (length (a ++ b) ≤ f)%nat →
  let '(ids, (tip', c', rest)) := cuts_from f key p tip c a in
  cuts_from f key p tip c (a ++ b) =
  let '(ids', rest') := cuts_from f key p tip' c' (rest ++ b) in (ids ++ ids', rest').
Proof.
  revert tip c a. induction f as [|f IH]; intros tip c a Hf; [done|].
  cbn [cuts_from]. pose proof (stride_at_pos p c Hp) as Hs.
  destruct (Z.ltb_spec (zlen a) (stride_at p c)) as [Hlt|Hge].
  { cbn [cuts_from]. destruct (Z.ltb_spec (zlen (a ++ b)) (stride_at p c)); [done|].
    by destruct (cuts_from _ _ _ _ _ _) as [ids rest]. }
  rewrite length_app in Hf. unfold zlen in Hge.
  assert (ztake (stride_at p c) (a ++ b) = ztake (stride_at p c) a) as Et
    by (unfold ztake; rewrite take_app_le by lia; done).
  assert (zdrop (stride_at p c) (a ++ b) = zdrop (stride_at p c) a ++ b) as Ed
    by (unfold zdrop; rewrite drop_app_le by lia; done).
  rewrite (proj2 (Z.ltb_ge _ _)) by (unfold zlen; rewrite length_app; lia). rewrite Et, Ed.
  set (tip1 := cut_tip key tip _). set (a1 := zdrop _ a).
  assert (length (a1 ++ b) ≤ f)%nat as Hl1
    by (unfold a1, zdrop; rewrite length_app, length_drop; lia).
  specialize (IH tip1 (c + stride_at p c) a1 Hl1).
  destruct (cuts_from f key p tip1 (c + stride_at p c) a1) as [ids [[tip' c'] rest]] eqn:Hr.
  rewrite IH.
  assert (length (rest ++ b) ≤ f)%nat as Hrest.
  { apply cuts_from_rest in Hr. rewrite length_app in *. lia. }
  pose proof (cuts_from_fuel f (S f) tip' c' (rest ++ b)) as Hfu. cbn [cuts_from] in Hfu.
  rewrite <- Hfu by lia.
  by destruct (cuts_from f key p tip' c' (rest ++ b)) as [ids' rest'].
Qed.
End spec.

(** ** Refinement *)
Lemma zlen_enc tokens : zlen (put_list put_u32 tokens) = 4 * zlen tokens.
Proof. apply zlen_put_list. intros. apply zlen_put_u32. Qed.
Lemma enc_app a b : put_list put_u32 (a ++ b) = put_list put_u32 a ++ put_list put_u32 b.
Proof. unfold put_list. by rewrite fmap_app, concat_app. Qed.
Lemma enc_split n tokens :
  put_list put_u32 tokens = put_list put_u32 (ztake n tokens) ++ put_list put_u32 (zdrop n tokens).
Proof. by rewrite <- enc_app, ztake_zdrop. Qed.

(** The deriver holds, after its front, exactly the tokens [rest]. *)
Definition holds (d : CutChainDeriver) (rest : list Z) : Prop :=
  0 ≤ cc_pending_front d ≤ zlen (cc_pending d) ∧
  zdrop (cc_pending_front d) (cc_pending d) = put_list put_u32 rest.
Definition deriver_ok (d : CutChainDeriver) : Prop :=
  policy_ok (cc_policy d) ∧ 0 ≤ cc_cuts d ≤ MAX_CUT_CHAIN_CUTS ∧ cc_poisoned d = false.

Lemma holds_available d rest : holds d rest → zlen (cc_pending d) - cc_pending_front d = 4 * zlen rest.
Proof. intros [Hf Hd]. rewrite <- zlen_enc, <- Hd, zlen_zdrop by done. lia. Qed.
Lemma holds_block d rest n :
  holds d rest → 0 ≤ n ≤ zlen rest →
  get_range (cc_pending d) (cc_pending_front d) (cc_pending_front d + n * 4) =
  Some (put_list put_u32 (ztake n rest)) ∧
  zdrop (cc_pending_front d + n * 4) (cc_pending d) = put_list put_u32 (zdrop n rest).
Proof.
  intros Hh Hn. pose proof (holds_available d rest Hh). destruct Hh as [Hf Hd].
  rewrite (enc_split n) in Hd.
  assert (zlen (put_list put_u32 (ztake n rest)) = n * 4) as Hl by (rewrite zlen_enc, zlen_ztake; lia).
  split.
  - apply get_range_Some. split_and!; [lia..|]. rewrite Hd. symmetry. apply ztake_app_exact. lia.
  - rewrite <- zdrop_zdrop by lia. rewrite Hd. apply zdrop_app_exact. lia.
Qed.

Definition advanced (d d' : CutChainDeriver) (tip : bytes) (consumed : Z) (rest : list Z) (n : Z)
  : Prop :=
  cc_key d' = cc_key d ∧ cc_policy d' = cc_policy d ∧ cc_tip d' = tip ∧
  cc_consumed_tokens d' = consumed ∧ cc_cuts d' = cc_cuts d + n ∧ cc_poisoned d' = false ∧
  holds d' rest.

Lemma push_loop_spec fuel d emitted rest :
  deriver_ok d → holds d rest → (Z.to_nat (MAX_CUT_CHAIN_CUTS - cc_cuts d) < fuel)%nat →
  let '(ids, (tip, consumed, rem)) :=
  cuts_from (length rest) (cc_key d) (cc_policy d) (cc_tip d) (cc_consumed_tokens d) rest in
  if cc_cuts d + zlen ids <=? MAX_CUT_CHAIN_CUTS then
  ∃ d', push_loop fuel d emitted = (Ok (emitted ++ ids), d') ∧
    advanced d d' tip consumed rem (zlen ids)
  else ∃ d', push_loop fuel d emitted = (Err (Bounds "cut chain exceeds 512 cuts"), d') ∧
    cc_poisoned d' = true.
Proof.
  revert d emitted rest. induction fuel as [|fuel IH]; intros d emitted rest (Hp & Hc & Hpo) Hh Hf; [lia|].
  rewrite (cuts_from_fuel _ _ Hp _ (S (length rest))) by lia. cbn [cuts_from push_loop].
  pose proof (stride_at_pos (cc_policy d) (cc_consumed_tokens d) Hp) as Hs.
  set (s := stride_at _ _) in *. pose proof (holds_available d rest Hh) as Ha.
  rewrite (proj2 (checked_sub_Some _ _ (4 * zlen rest))) by (destruct Hh; lia).
  destruct (Z.ltb_spec (zlen rest) s) as [Hlt|Hge].
  { rewrite (proj2 (Z.ltb_lt _ _)) by lia. change (zlen []) with 0.
    rewrite (proj2 (Z.leb_le _ _)) by lia. exists d. rewrite app_nil_r. split; [done|].
    unfold advanced. split_and!; try done; lia. }
  rewrite (proj2 (Z.ltb_ge _ _)) by lia. unfold cut_tip, hmac. cbn [concat]. rewrite !app_nil_r.
  destruct (holds_block d rest s Hh) as [Hg Hz]; [lia|]. rewrite Hg. cbn [concat]. rewrite !app_nil_r.
  set (tip1 := hmac_sha256 _ _).
  set (d1 := mkDeriver (cc_key d) tip1 (cc_pending d) (cc_pending_front d + s * 4)
    (cc_consumed_tokens d + s) (cc_cuts d + 1) (cc_policy d) (cc_poisoned d)).
  rewrite (cuts_from_fuel _ _ Hp _ (length (zdrop s rest)))
    by (unfold zdrop; rewrite ?length_drop; lia).
  destruct (Z.eqb_spec (cc_cuts d) MAX_CUT_CHAIN_CUTS) as [Heq|Hne].
  { destruct (cuts_from _ _ _ _ _ _) as [ids [[? ?] ?]]. rewrite zlen_cons, Heq.
    rewrite (proj2 (Z.leb_gt _ _)) by (pose proof (zlen_nonneg ids); lia). by eexists. }
  specialize (IH d1 (emitted ++ [tip1]) (zdrop s rest)).
  change (cc_key d1) with (cc_key d) in IH. change (cc_policy d1) with (cc_policy d) in IH.
  change (cc_tip d1) with tip1 in IH. change (cc_consumed_tokens d1) with (cc_consumed_tokens d + s) in IH.
  destruct (cuts_from (length (zdrop s rest)) (cc_key d) (cc_policy d) tip1
    (cc_consumed_tokens d + s) (zdrop s rest)) as [ids [[tip2 c2] rem]].
  rewrite zlen_cons.
  assert (cc_cuts d1 + zlen ids = cc_cuts d + (1 + zlen ids)) as Hn by (simpl; lia). rewrite Hn in IH.
  assert (deriver_ok d1) as Hd1 by (split_and!; simpl; [done|lia|lia|done]).
  assert (holds d1 (zdrop s rest)) as Hh1.
  { split; simpl; [|done]. destruct Hh. lia. }
  specialize (IH Hd1 Hh1). destruct (_ <=? _).
  - destruct IH as (d' & Hd' & Hadv); [simpl; lia|]. exists d'. rewrite Hd', <- app_assoc. split; [done|].
    destruct Hadv as (?&?&?&?&?&?&?). unfold advanced. simpl in *. split_and!; try done; lia.
  - destruct IH as (d' & Hd' & Hpd); [simpl; lia|]. by exists d'.
Qed.

(** [represents d key p tip0 tokens]: after [tokens] in all, the deriver is
where the specification says, with the incomplete cut buffered. *)
Definition represents (d : CutChainDeriver) (key tip0 : bytes) (p : CutStridePolicy)
  (tokens : list Z) : Prop :=
  deriver_ok d ∧ cc_key d = key ∧ cc_policy d = p ∧ cc_pending_front d = 0 ∧
  ∃ ids rest, cuts_from (length tokens) key p tip0 0 tokens =
    (ids, (cc_tip d, cc_consumed_tokens d, rest)) ∧
  cc_cuts d = zlen ids ∧ cc_pending d = put_list put_u32 rest.

Lemma compact_holds d rest :
  holds d rest → cc_pending (compact d) = put_list put_u32 rest ∧ cc_pending_front (compact d) = 0.
Proof.
  intros [Hf Hd]. split; [|done]. unfold compact; simpl. rewrite <- Hd.
  destruct (Z.eqb_spec (cc_pending_front d) (zlen (cc_pending d))); [by rewrite zdrop_all by lia|].
  destruct (Z.ltb_spec 0 (cc_pending_front d)); [done|].
  by replace (cc_pending_front d) with 0 by lia.
Qed.

Lemma push_fuel_enough c : 0 ≤ c → (Z.to_nat (MAX_CUT_CHAIN_CUTS - c) < push_fuel)%nat.
Proof. intros. unfold push_fuel. lia. Qed.
Opaque push_fuel.
Lemma push_tokens_spec d key tip0 p tokens more :
  represents d key tip0 p tokens →
  let ids := (cuts_from (length tokens) key p tip0 0 tokens).1 in
  let all := (cuts_from (length (tokens ++ more)) key p tip0 0 (tokens ++ more)).1 in
  if zlen all <=? MAX_CUT_CHAIN_CUTS then
  ∃ new d', push_tokens d more = (Ok new, d') ∧ all = ids ++ new ∧
    represents d' key tip0 p (tokens ++ more)
  else ∃ d', push_tokens d more = (Err (Bounds "cut chain exceeds 512 cuts"), d') ∧
    cc_poisoned d' = true.
Proof.
  intros ((Hp & Hc & Hpo) & Hk & Hpol & Hfr & ids & rest & Hcf & Hcuts & Hpend). cbv zeta.
  rewrite Hpol in Hp. pose proof Hcf as Hcf0.
  rewrite (cuts_from_fuel key p Hp _ (length (tokens ++ more))) in Hcf by (rewrite ?length_app; lia).
  pose proof (cuts_from_app key p Hp (length (tokens ++ more)) tip0 0 tokens more ltac:(done)) as Happ.
  rewrite Hcf in Happ.
  rewrite Hcf0. cbn [fst]. unfold push_tokens. rewrite Hpo.
  set (d0 := mkDeriver _ _ _ _ _ _ _ _).
  assert (holds d0 (rest ++ more)) as Hh0.
  { split; simpl; rewrite Hfr; [pose proof (zlen_nonneg (cc_pending d ++ put_list put_u32 more)); lia|].
    by rewrite zdrop_0, Hpend, enc_app. }
  pose proof (push_loop_spec push_fuel d0 [] (rest ++ more)) as Hl.
  assert (length (rest ++ more) ≤ length (tokens ++ more))%nat as Hlen
    by (apply cuts_from_rest in Hcf; rewrite !length_app; lia).
  cbn [cc_key cc_policy cc_tip cc_consumed_tokens cc_cuts d0] in Hl. rewrite Hk, Hpol in Hl.
  rewrite (cuts_from_fuel key p Hp _ (length (tokens ++ more))) in Hl by lia.
  destruct (cuts_from (length (tokens ++ more)) key p (cc_tip d) (cc_consumed_tokens d) (rest ++ more))
    as [new [[tip' c'] rem]] eqn:Hnew.
  rewrite Happ. cbn [fst]. rewrite zlen_app. rewrite Hcuts in Hl.
  assert (deriver_ok d0) as Hd0 by (split_and!; simpl; [by rewrite Hpol|lia|lia|done]).
  specialize (Hl Hd0 Hh0). destruct (Z.leb_spec (zlen ids + zlen new) MAX_CUT_CHAIN_CUTS) as [Hle|Hgt].
  - destruct Hl as (d' & Hd' & Hadv); [apply push_fuel_enough; simpl; lia|]. rewrite Hd'.
    exists new, (compact d'). split; [done|]. split; [done|].
    destruct Hadv as (A1 & A2 & A3 & A4 & A5 & A6 & A7). simpl in *.
    destruct (compact_holds d' rem A7) as [P1 P2].
    split_and!; simpl; try done; try congruence.
    + split_and!; simpl; [by rewrite A2, Hpol|rewrite A5, Hcuts; zlia|lia|done].
    + exists (ids ++ new), rem. rewrite A3, A4. split_and!; [done| |done]. rewrite A5, zlen_app. lia.
  - destruct Hl as (d' & Hd' & Hpd); [apply push_fuel_enough; simpl; lia|]. rewrite Hd'. by exists d'.
Qed.
Transparent push_fuel.

Lemma new_represents key namespace p d :
  policy_u32 p → CutChainDeriver_new key namespace p = Ok d →
  represents d key (hmac key [label "kvpack/v1/cut-chain"; namespace]) p [].
Proof.
  intros Hu Hn. unfold CutChainDeriver_new in Hn. inv_ok. subst d. destruct x.
  apply policy_validate_Ok in H0; [|done].
  split_and!; try done. exists [], []. done.
Qed.

(** The number of complete cuts only grows as the input grows. *)
Lemma cuts_from_mono key p tip0 a b :
  policy_ok p →
  zlen (cuts_from (length a) key p tip0 0 a).1 ≤
  zlen (cuts_from (length (a ++ b)) key p tip0 0 (a ++ b)).1.
Proof.
  intros Hp. pose proof (cuts_from_app key p Hp (length (a ++ b)) tip0 0 a b ltac:(done)) as Ha.
  rewrite (cuts_from_fuel key p Hp (length a) (length (a ++ b))) by (rewrite ?length_app; lia).
  destruct (cuts_from _ _ _ _ _ a) as [ids [[t c] r]]. rewrite Ha.
  destruct (cuts_from _ _ _ _ _ (r ++ b)) as [ids' r']. cbn [fst]. zlia.
Qed.

Lemma push_all_spec slices d key tip0 p tokens :
  represents d key tip0 p tokens →
  let ids := (cuts_from (length tokens) key p tip0 0 tokens).1 in
  let all := (cuts_from (length (tokens ++ concat slices)) key p tip0 0 (tokens ++ concat slices)).1 in
  if zlen all <=? MAX_CUT_CHAIN_CUTS then
  ∃ new d', push_all d slices = (Ok new, d') ∧ all = ids ++ new ∧
    represents d' key tip0 p (tokens ++ concat slices)
  else ∃ d', push_all d slices = (Err (Bounds "cut chain exceeds 512 cuts"), d') ∧
    cc_poisoned d' = true.
Proof.
  revert d tokens. induction slices as [|s slices IH]; intros d tokens Hd; cbn [concat push_all].
  - rewrite app_nil_r. cbv zeta. pose proof Hd as ((_ & Hc & _) & _ & _ & _ & ids & rest & Hcf & Hcuts & _).
    rewrite Hcf. cbn [fst]. rewrite (proj2 (Z.leb_le _ _)) by lia.
    exists [], d. rewrite app_nil_r. done.
  - pose proof (push_tokens_spec d key tip0 p tokens s Hd) as Hs. cbv zeta in *.
    rewrite app_assoc. assert (policy_ok p) as Hp by (destruct Hd as ((? & _) & _ & <- & _); done).
    pose proof (cuts_from_mono key p tip0 (tokens ++ s) (concat slices) Hp) as Hmono.
    destruct (Z.leb_spec (zlen (cuts_from (length (tokens ++ s)) key p tip0 0 (tokens ++ s)).1)
      MAX_CUT_CHAIN_CUTS) as [Hle|Hgt].
    + destruct Hs as (new & d1 & Hpush & Eall & Hd1). rewrite Hpush.
      specialize (IH d1 (tokens ++ s) Hd1). cbv zeta in IH. destruct (_ <=? _).
      * destruct IH as (new' & d' & Hall & E' & Hd'). rewrite Hall. exists (new ++ new'), d'.
        split; [done|]. split; [|done]. by rewrite E', Eall, app_assoc.
      * destruct IH as (d' & Hall & Hpd). rewrite Hall. by exists d'.
    + destruct Hs as (d1 & Hpush & Hpd). rewrite (proj2 (Z.leb_gt _ _)) by lia. rewrite Hpush. by exists d1.
Qed.

Lemma poisoned_rejects d tokens :
  cc_poisoned d = true →
  push_tokens d tokens = (Err (Poisoned "cut chain deriver is poisoned"), d).
Proof. intros Hd. unfold push_tokens. by rewrite Hd. Qed.
End deriver.
