(* ===== verification/Half.v ===== *)
(** * Half-precision conversions (crates/kvpack-core/src/half.rs)

    An [f32] is its 32-bit pattern, an [f16] its 16-bit pattern.  Values are
    compared through exact integers: [f16_units] is a half in units of 2^-24
    and [f32_units] a single in units of 2^-149, the smallest positive values
    of the two formats. *)
From Stdlib Require Import ZArith Lia.
From stdpp Require Import base tactics numbers list option.
From S2P Require Import Prelude Bytes.

(** ** f32 patterns *)
Definition f32_exponent (bits : Z) : Z := Z.land (Z.shiftr bits 23) 255.
Definition f32_mantissa (bits : Z) : Z := Z.land bits 8388607.
Definition f32_sign (bits : Z) : Z := Z.land (Z.shiftr bits 31) 1.
Definition f32_is_nan (bits : Z) : bool :=
  (f32_exponent bits =? 255) && negb (f32_mantissa bits =? 0).
Definition f32_is_finite (bits : Z) : bool := negb (f32_exponent bits =? 255).

(** ** half.rs *)

(** [while mantissa & 0x400 == 0 { mantissa <<= 1; exponent -= 1; }]: a
    nonzero 10-bit mantissa needs at most ten shifts. *)
Fixpoint normalize (fuel : nat) (mantissa exponent : Z) : Z * Z :=
  match fuel with
  | O => (mantissa, exponent)
  | S fuel =>
      if Z.land mantissa 1024 =? 0 then normalize fuel (Z.shiftl mantissa 1) (exponent - 1)
      else (mantissa, exponent)
  end.

Definition f16_to_f32 (bits : Z) : Z :=
  let sign := Z.land (Z.shiftr bits 15) 1 in
  let exponent := Z.land (Z.shiftr bits 10) 31 in
  let mantissa := Z.land bits 1023 in
  if exponent =? 0 then
    if mantissa =? 0 then Z.shiftl sign 31 else
    let '(mantissa, exponent) := normalize 10 mantissa (-14) in
    let mantissa := Z.land mantissa 1023 in
    let biased := exponent + 127 in
    Z.lor (Z.lor (Z.shiftl sign 31) (Z.shiftl biased 23)) (Z.shiftl mantissa 13)
  else if exponent =? 31 then
    if mantissa =? 0 then Z.lor (Z.shiftl sign 31) 2139095040
    else Z.lor (Z.lor (Z.lor (Z.shiftl sign 31) 2139095040) (Z.shiftl mantissa 13)) 4194304
  else
    let biased := exponent - 15 + 127 in
    Z.lor (Z.lor (Z.shiftl sign 31) (Z.shiftl biased 23)) (Z.shiftl mantissa 13).

(** The result is cast [as u16]. *)
Definition round_mantissa (mantissa shift : Z) : Z :=
  let dropped := Z.land mantissa (Z.shiftl 1 shift - 1) in
  let kept := Z.shiftr mantissa shift in
  let halfway := Z.shiftl 1 (shift - 1) in
  let round_up := (halfway <? dropped) || ((dropped =? halfway) && (Z.land kept 1 =? 1)) in
  (kept + (if round_up then 1 else 0)) mod u16_bound.

Definition f32_to_f16 (bits : Z) : Z :=
  if f32_is_nan bits then 32256 else
  let sign := Z.land (Z.shiftr bits 16) 32768 in
  let exponent := Z.land (Z.shiftr bits 23) 255 - 127 in
  let mantissa := Z.land bits 8388607 in
  if 15 <? exponent then Z.lor sign 31744 else
  if exponent <? -24 then sign else
  if -14 <=? exponent then
    let biased := Z.shiftl (exponent + 15) 10 in
    let rounded := round_mantissa mantissa 13 in
    if rounded =? 1024 then Z.lor sign (Z.shiftl (exponent + 16) 10)
    else Z.lor (Z.lor sign biased) rounded
  else
    let shift := -14 - exponent in
    let full := Z.lor mantissa 8388608 in
    let rounded := round_mantissa full (13 + shift) in
    Z.lor sign rounded.

(** ** Values *)
Definition f16_finite (h : Z) : bool := negb (Z.land (Z.shiftr h 10) 31 =? 31).
Definition f16_is_nan (h : Z) : bool :=
  (Z.land (Z.shiftr h 10) 31 =? 31) && negb (Z.land h 1023 =? 0).
(** The magnitude bits [exponent * 1024 + mantissa] in units of 2^-24. *)
Definition f16_magnitude (mag : Z) : Z :=
  if mag / 1024 =? 0 then mag else (1024 + mag mod 1024) * 2 ^ (mag / 1024 - 1).
Definition f16_units (h : Z) : Z :=
  let v := f16_magnitude (h mod 32768) in if h / 32768 =? 0 then v else - v.
Definition f32_units (bits : Z) : Z :=
  let e := (bits / 8388608) mod 256 in
  let m := bits mod 8388608 in
  let v := if e =? 0 then m else (8388608 + m) * 2 ^ (e - 1) in
  if bits / 2147483648 =? 0 then v else - v.

(** ** Exhaustive facts about the 65536 half patterns *)
Fixpoint all_below (n : nat) (z : Z) (P : Z → bool) : bool :=
  match n with O => true | S n => P z && all_below n (z + 1) P end.
Lemma all_below_spec n z P :
  all_below n z P = true → ∀ x, z ≤ x < z + Z.of_nat n → P x = true.
Proof.
  revert z. induction n as [|n IH]; intros z H x Hx; [lia|]. simpl in H. bools.
  destruct (decide (x = z)) as [->|]; [done|]. apply (IH (z + 1)); [done|lia].
Qed.
Definition all_u16 (P : Z → bool) : bool := all_below (Z.to_nat u16_bound) 0 P.
Lemma all_u16_spec P h : all_u16 P = true → in_u16 h → P h = true.
Proof.
  unfold all_u16, in_u16. generalize u16_bound as b. intros b H Hh.
  pose proof (all_below_spec _ _ _ H h) as Hall. apply Hall. lia.
Qed.

Definition all_below_z (n : Z) (P : Z → bool) : bool := all_below (Z.to_nat n) 0 P.
Lemma all_below_z_spec n P x : all_below_z n P = true → 0 ≤ x < n → P x = true.
Proof. unfold all_below_z. intros H Hx. apply (all_below_spec _ _ _ H). lia. Qed.

Lemma f16_roundtrip_all :
  all_u16 (λ h, f32_to_f16 (f16_to_f32 h) =? (if f16_is_nan h then 32256 else h)) = true.
Proof. vm_compute. reflexivity. Qed.

(** ** Fields *)
Lemma land_shiftl_low a b n : 0 ≤ n → 0 ≤ b < 2 ^ n → Z.land (Z.shiftl a n) b = 0.
Proof.
  intros Hn Hb. apply Z.bits_inj'. intros i Hi. rewrite Z.land_spec, Z.bits_0.
  destruct (decide (i < n)); [by rewrite Z.shiftl_spec_low by lia|].
  rewrite (proj2 (Z.testbit_false b i Hi)); [by rewrite andb_false_r|].
  rewrite Z.div_small; [done|]. split; [lia|].
  eapply Z.lt_le_trans; [apply Hb|apply Z.pow_le_mono_r; lia].
Qed.
Lemma lor_shiftl_add a b n : 0 ≤ n → 0 ≤ b < 2 ^ n → Z.lor (Z.shiftl a n) b = a * 2 ^ n + b.
Proof.
  intros Hn Hb. pose proof (land_shiftl_low a b n Hn Hb) as Hl.
  rewrite <- Z.lxor_lor, <- Z.add_nocarry_lxor by done. by rewrite Z.shiftl_mul_pow2.
Qed.
Lemma land_mask a n : 0 ≤ n → Z.land a (2 ^ n - 1) = a mod 2 ^ n.
Proof. intros. replace (2 ^ n - 1) with (Z.ones n) by (rewrite Z.ones_equiv; lia). by apply Z.land_ones. Qed.

(** A pattern is its sign, exponent and mantissa. *)
Definition f32_pack (s e m : Z) : Z := s * 2147483648 + e * 8388608 + m.
Definition f16_pack (s e m : Z) : Z := s * 32768 + e * 1024 + m.
Definition sign_ok (s : Z) : Prop := 0 ≤ s ≤ 1.
Lemma f32_unpack b : in_u32 b →
  ∃ s e m, b = f32_pack s e m ∧ sign_ok s ∧ 0 ≤ e < 256 ∧ 0 ≤ m < 8388608.
Proof.
  unfold in_u32, u32_bound. intros Hb.
  exists (b / 2147483648), (b / 8388608 mod 256), (b mod 8388608).
  unfold f32_pack, sign_ok. Z.to_euclidean_division_equations. lia.
Qed.
Lemma f32_pack_fields s e m : sign_ok s → 0 ≤ e < 256 → 0 ≤ m < 8388608 →
  Z.land (Z.shiftr (f32_pack s e m) 23) 255 = e ∧ Z.land (f32_pack s e m) 8388607 = m ∧
  Z.land (Z.shiftr (f32_pack s e m) 16) 32768 = s * 32768 ∧ f32_pack s e m / 2147483648 = s ∧
  f32_pack s e m / 8388608 mod 256 = e ∧ f32_pack s e m mod 8388608 = m.
Proof.
  unfold sign_ok, f32_pack. intros Hs He Hm.
  change 255 with (2 ^ 8 - 1). change 8388607 with (2 ^ 23 - 1). rewrite !land_mask, !Z.shiftr_div_pow2 by lia.
  change (2 ^ 23) with 8388608. change (2 ^ 8) with 256. change (2 ^ 16) with 65536.
  split_and!; try (Z.to_euclidean_division_equations; lia).
  set (x := _ / 65536). assert (x = s * 32768 + x mod 32768) as Hx
    by (unfold x; Z.to_euclidean_division_equations; lia).
  assert (0 ≤ x mod 32768 < 2 ^ 15) by (apply Z.mod_pos_bound; lia).
  rewrite Hx. change (s * 32768) with (s * 2 ^ 15). rewrite <- (lor_shiftl_add s _ 15), Z.land_lor_distr_l by lia.
  assert (Z.land (x mod 32768) 32768 = 0) as ->.
  { rewrite Z.land_comm. change 32768 with (Z.shiftl 1 15) at 1. by apply land_shiftl_low. }
  assert (s = 0 ∨ s = 1) as [-> | ->] by lia; done.
Qed.

(** ** Rounding *)

(** [r] is [m / 2^k] rounded to nearest, ties to even. *)
Definition nearest_even (m k r : Z) : Prop :=
  2 * Z.abs (r * 2 ^ k - m) ≤ 2 ^ k ∧ (2 * Z.abs (r * 2 ^ k - m) = 2 ^ k → Z.even r = true).

Lemma round_mantissa_spec m k :
  1 ≤ k → 0 ≤ m → m / 2 ^ k < 65535 →
  nearest_even m k (round_mantissa m k) ∧ m / 2 ^ k ≤ round_mantissa m k ≤ m / 2 ^ k + 1.
Proof.
  intros Hk Hm Hb. unfold round_mantissa. rewrite !Z.shiftl_mul_pow2, !Z.mul_1_l by lia.
  rewrite land_mask, Z.shiftr_div_pow2 by lia.
  set (q := m / 2 ^ k) in *. set (d := m mod 2 ^ k).
  assert (0 < 2 ^ (k - 1)) as Hh by (apply Z.pow_pos_nonneg; lia).
  assert (2 ^ k = 2 * 2 ^ (k - 1)) as Hp by (rewrite <- Z.pow_succ_r by lia; f_equal; lia).
  assert (m = q * 2 ^ k + d) as Em by (unfold q, d; rewrite (Z.mul_comm q); apply Z.div_mod; lia).
  assert (0 ≤ d < 2 ^ k) as Hd by (apply Z.mod_pos_bound; lia).
  assert (0 ≤ q) as Hq by (apply Z.div_pos; lia).
  assert (Z.land q 1 = q mod 2) as -> by (change 1 with (2 ^ 1 - 1); by rewrite land_mask).
  unfold u16_bound. set (h := 2 ^ (k - 1)) in *. clearbody q d h.
  unfold nearest_even. rewrite Hp in *.
  destruct (Z.ltb_spec h d); simpl.
  { rewrite Z.mod_small by lia. split; [split; lia|lia]. }
  destruct (Z.eqb_spec d h); simpl.
  - destruct (Z.eqb_spec (q mod 2) 1) as [Ho|Ho]; rewrite Z.mod_small by lia; (split; [split; [lia|]|lia]); intros _.
    + rewrite Z.even_add, Zeven_mod, Ho. done.
    + rewrite Z.add_0_r, Zeven_mod. assert (q mod 2 = 0) as -> by (pose proof (Z.mod_pos_bound q 2); lia). done.
  - rewrite Z.mod_small by lia. split; [split; lia|lia].
Qed.

Lemma f16_units_pack s mag : sign_ok s → 0 ≤ mag < 32768 →
  f16_units (s * 32768 + mag) = (1 - 2 * s) * f16_magnitude mag.
Proof.
  unfold sign_ok. intros Hs Hm. unfold f16_units.
  rewrite (Z.add_comm (s * 32768)), Z.mod_add, Z.div_add, Z.mod_small, Z.div_small by lia.
  assert (s = 0 ∨ s = 1) as [-> | ->] by lia; simpl; lia.
Qed.
Lemma f32_units_pack s e m : sign_ok s → 0 < e < 256 → 0 ≤ m < 8388608 →
  f32_units (f32_pack s e m) = (1 - 2 * s) * ((8388608 + m) * 2 ^ (e - 1)).
Proof.
  intros Hs He Hm. unfold f32_units.
  destruct (f32_pack_fields s e m Hs ltac:(lia) Hm) as (_ & _ & _ & -> & -> & ->).
  rewrite (proj2 (Z.eqb_neq e 0)) by lia.
  assert (s = 0 ∨ s = 1) as [-> | ->] by (unfold sign_ok in Hs; lia); simpl; lia.
Qed.
(** A rounded significand that carries is the first value of the next binade. *)
Lemma f16_magnitude_carry e r : 0 ≤ e → 0 ≤ r ≤ 1024 →
  f16_magnitude ((e + 1) * 1024 + r) = (1024 + r) * 2 ^ e.
Proof.
  intros He Hr. unfold f16_magnitude.
  destruct (decide (r = 1024)) as [->|].
  - replace ((e + 1) * 1024 + 1024) with ((e + 2) * 1024) by lia. rewrite Z.div_mul, Z.mod_mul by lia.
    rewrite (proj2 (Z.eqb_neq _ _)) by lia. replace (e + 2 - 1) with (Z.succ e) by lia.
    rewrite Z.pow_succ_r by lia. lia.
  - rewrite (Z.add_comm _ r), Z.div_add, Z.mod_add, Z.div_small, Z.mod_small by lia.
    rewrite (proj2 (Z.eqb_neq _ _)) by lia. do 2 f_equal. lia.
Qed.
Lemma f16_magnitude_subnormal r : 0 ≤ r ≤ 1024 → f16_magnitude r = r.
Proof.
  intros Hr. unfold f16_magnitude. destruct (decide (r = 1024)) as [->|]; [done|].
  by rewrite Z.div_small by lia.
Qed.

(** What the converter returns for a finite, not too small single. *)
Lemma f32_to_f16_pack s e m :
  sign_ok s → 103 ≤ e ≤ 142 → 0 ≤ m < 8388608 →
  ∃ mag, f32_to_f16 (f32_pack s e m) = s * 32768 + mag ∧ 0 ≤ mag ≤ 31744 ∧
    let k := 13 + Z.max 0 (113 - e) in
    nearest_even (8388608 + m) k (f16_magnitude mag / 2 ^ Z.max 0 (e - 113)) ∧
    f16_magnitude mag = f16_magnitude mag / 2 ^ Z.max 0 (e - 113) * 2 ^ Z.max 0 (e - 113).
Proof.
  intros Hs He Hm. unfold f32_to_f16, f32_is_nan, f32_exponent, f32_mantissa.
  destruct (f32_pack_fields s e m Hs ltac:(lia) Hm) as (-> & -> & -> & _).
  rewrite (proj2 (Z.eqb_neq e 255)) by lia. cbn [andb].
  rewrite (proj2 (Z.ltb_ge 15 _)), (proj2 (Z.ltb_ge _ (-24))) by lia.
  assert (∀ x, 0 ≤ x < 32768 → Z.lor (s * 32768) x = s * 32768 + x) as Hlor.
  { intros x Hx. change 32768 with (2 ^ 15) at 1. rewrite <- Z.shiftl_mul_pow2 by lia.
    by rewrite lor_shiftl_add. }
  destruct (Z.leb_spec (-14) (e - 127)) as [Hn|Hn].
  - destruct (round_mantissa_spec m 13) as [Hr Hb]; [lia..|Z.to_euclidean_division_equations; lia|].
    assert (m / 2 ^ 13 ≤ 1023) by (change (2 ^ 13) with 8192; Z.to_euclidean_division_equations; lia).
    assert (0 ≤ m / 2 ^ 13) by (apply Z.div_pos; lia).
    set (r := round_mantissa m 13) in *. clearbody r. exists ((e - 112) * 1024 + r). split.
    + destruct (Z.eqb_spec r 1024) as [->|].
      * rewrite Z.shiftl_mul_pow2, Hlor by lia. lia.
      * rewrite <- Z.lor_assoc, (lor_shiftl_add _ r 10), Hlor by lia. lia.
    + split; [lia|]. rewrite Z.max_l, Z.max_r by lia.
      replace ((e - 112) * 1024 + r) with ((e - 113 + 1) * 1024 + r) by lia.
      rewrite f16_magnitude_carry by lia. rewrite Z.div_mul by (apply Z.pow_nonzero; lia). split; [|done].
      unfold nearest_even in *. change (13 + 0) with 13. change (2 ^ 13) with 8192 in *.
      replace ((1024 + r) * 8192 - (8388608 + m)) with (r * 8192 - m) by lia. split; [apply Hr|].
      intros Ht. rewrite Z.even_add. by rewrite (proj2 Hr Ht).
  - assert (Z.lor m 8388608 = 8388608 + m) as ->.
    { rewrite Z.lor_comm. change 8388608 with (Z.shiftl 1 23) at 1. by rewrite lor_shiftl_add. }
    assert (2 ^ 14 ≤ 2 ^ (13 + (-14 - (e - 127)))) by (apply Z.pow_le_mono_r; lia).
    change (2 ^ 14) with 16384 in *.
    destruct (round_mantissa_spec (8388608 + m) (13 + (-14 - (e - 127)))) as [Hr Hb]; [lia..| |].
    { eapply Z.le_lt_trans with (m := (8388608 + m) / 16384); [apply Z.div_le_compat_l; lia|].
      Z.to_euclidean_division_equations; lia. }
    assert ((8388608 + m) / 2 ^ (13 + (-14 - (e - 127))) ≤ 1023).
    { eapply Z.le_trans with (m := (8388608 + m) / 16384); [apply Z.div_le_compat_l; lia|].
      Z.to_euclidean_division_equations; lia. }
    assert (0 ≤ (8388608 + m) / 2 ^ (13 + (-14 - (e - 127)))) by (apply Z.div_pos; lia).
    set (r := round_mantissa _ _) in *. exists r. rewrite Hlor by lia. split; [done|]. split; [lia|].
    rewrite Z.max_r, (Z.max_l 0 (e - 113)) by lia. rewrite f16_magnitude_subnormal by lia.
    change (2 ^ 0) with 1. rewrite Z.div_1_r, Z.mul_1_r. split; [|done].
    by replace (13 + (113 - e)) with (13 + (-14 - (e - 127))) by lia.
Qed.

(** The distance between a single and its half, in the single's own units. *)
Lemma f32_to_f16_error s e m :
  sign_ok s → 103 ≤ e ≤ 142 → 0 ≤ m < 8388608 →
  let x := f32_pack s e m in
  let ulp := 2 ^ (125 + Z.max 0 (e - 113)) in
  2 * Z.abs (f16_units (f32_to_f16 x) * 2 ^ 125 - f32_units x) ≤ ulp.
Proof.
  intros Hs He Hm. cbv zeta.
  destruct (f32_to_f16_pack s e m Hs He Hm) as (mag & -> & Hmag & [Hn _] & Hq).
  rewrite f16_units_pack, f32_units_pack by (done || lia). rewrite Hq.
  set (q := _ / _) in *. set (a := Z.max 0 (e - 113)) in *. set (k := 13 + Z.max 0 (113 - e)) in *.
  replace ((1 - 2 * s) * (q * 2 ^ a) * 2 ^ 125 - (1 - 2 * s) * ((8388608 + m) * 2 ^ (e - 1)))
    with ((1 - 2 * s) * ((q * 2 ^ k - (8388608 + m)) * 2 ^ (e - 1))).
  - assert (0 < 2 ^ (e - 1)) by (apply Z.pow_pos_nonneg; lia).
    rewrite Z.abs_mul. replace (Z.abs (1 - 2 * s)) with 1 by (unfold sign_ok in Hs; lia).
    rewrite Z.mul_1_l, Z.abs_mul, (Z.abs_eq (2 ^ (e - 1))) by lia.
    replace (125 + a) with (k + (e - 1)) by lia. rewrite Z.pow_add_r by lia. nia.
  - assert (2 ^ a * 2 ^ 125 = 2 ^ k * 2 ^ (e - 1)) as Hpow by (rewrite <- !Z.pow_add_r by lia; f_equal; lia).
    transitivity ((1 - 2 * s) * (q * (2 ^ a * 2 ^ 125) - (8388608 + m) * 2 ^ (e - 1))); [rewrite Hpow|]; ring.
Qed.

(** Outside that range: infinity above, zero below. *)
Lemma f32_to_f16_overflow s e m :
  sign_ok s → 142 < e < 255 → 0 ≤ m < 8388608 → f32_to_f16 (f32_pack s e m) = s * 32768 + 31744.
Proof.
  intros Hs He Hm. unfold f32_to_f16, f32_is_nan, f32_exponent, f32_mantissa.
  destruct (f32_pack_fields s e m Hs ltac:(lia) Hm) as (-> & -> & -> & _).
  rewrite (proj2 (Z.eqb_neq e 255)) by lia. cbn [andb]. rewrite (proj2 (Z.ltb_lt 15 _)) by lia.
  assert (s = 0 ∨ s = 1) as [-> | ->] by (unfold sign_ok in Hs; lia); done.
Qed.
Lemma f32_to_f16_underflow s e m :
  sign_ok s → 0 ≤ e < 103 → 0 ≤ m < 8388608 → f32_to_f16 (f32_pack s e m) = s * 32768.
Proof.
  intros Hs He Hm. unfold f32_to_f16, f32_is_nan, f32_exponent, f32_mantissa.
  destruct (f32_pack_fields s e m Hs ltac:(lia) Hm) as (-> & -> & -> & _).
  rewrite (proj2 (Z.eqb_neq e 255)) by lia. cbn [andb].
  by rewrite (proj2 (Z.ltb_ge 15 _)), (proj2 (Z.ltb_lt _ (-24))) by lia.
Qed.

(** ** Widening is exact *)
Lemma f16_unpack h : in_u16 h →
  ∃ s e m, h = f16_pack s e m ∧ sign_ok s ∧ 0 ≤ e < 32 ∧ 0 ≤ m < 1024.
Proof.
  unfold in_u16, u16_bound. intros Hh.
  exists (h / 32768), (h / 1024 mod 32), (h mod 1024).
  unfold f16_pack, sign_ok. Z.to_euclidean_division_equations. lia.
Qed.
Lemma f16_pack_fields s e m : sign_ok s → 0 ≤ e < 32 → 0 ≤ m < 1024 →
  Z.land (Z.shiftr (f16_pack s e m) 15) 1 = s ∧ Z.land (Z.shiftr (f16_pack s e m) 10) 31 = e ∧
  Z.land (f16_pack s e m) 1023 = m.
Proof.
  unfold sign_ok, f16_pack. intros Hs He Hm.
  change 31 with (2 ^ 5 - 1). change 1023 with (2 ^ 10 - 1). change 1 with (2 ^ 1 - 1).
  rewrite !land_mask, !Z.shiftr_div_pow2 by lia.
  change (2 ^ 15) with 32768. change (2 ^ 10) with 1024. change (2 ^ 5) with 32. change (2 ^ 1) with 2.
  split_and!; Z.to_euclidean_division_equations; lia.
Qed.
Lemma f16_to_f32_normal s e m : sign_ok s → 0 < e < 31 → 0 ≤ m < 1024 →
  f16_to_f32 (f16_pack s e m) = f32_pack s (e + 112) (m * 8192).
Proof.
  intros Hs He Hm. unfold f16_to_f32.
  destruct (f16_pack_fields s e m Hs ltac:(lia) Hm) as (-> & -> & ->).
  rewrite !(proj2 (Z.eqb_neq _ _)) by lia. unfold sign_ok in Hs.
  assert (Z.shiftl m 13 = m * 8192) as -> by (by rewrite Z.shiftl_mul_pow2).
  rewrite <- Z.lor_assoc, (lor_shiftl_add _ (m * 8192) 23), lor_shiftl_add by lia. unfold f32_pack. lia.
Qed.
Lemma f16_subnormal_exact_all :
  all_below_z 2048 (λ i, let h := f16_pack (i / 1024) 0 (i mod 1024) in
    f32_units (f16_to_f32 h) =? f16_units h * 2 ^ 125) = true.
Proof. vm_compute. reflexivity. Qed.
Lemma f16_to_f32_exact h :
  in_u16 h → f16_finite h = true → f32_units (f16_to_f32 h) = f16_units h * 2 ^ 125.
Proof.
  intros Hh Hf. destruct (f16_unpack h Hh) as (s & e & m & -> & Hs & He & Hm).
  unfold f16_finite in Hf. destruct (f16_pack_fields s e m Hs He Hm) as (_ & E & _).
  rewrite E in Hf. bools. destruct (decide (e = 0)) as [->|].
  - unfold sign_ok in Hs. pose proof (all_below_z_spec _ _ (s * 1024 + m) f16_subnormal_exact_all ltac:(lia)) as H.
    cbv beta zeta in H. rewrite Z.eqb_eq in H.
    rewrite (Z.add_comm (s * 1024)), Z.div_add, Z.mod_add, Z.div_small, Z.mod_small in H by lia. exact H.
  - rewrite f16_to_f32_normal, f32_units_pack by (done || lia).
    replace (f16_pack s e m) with (s * 32768 + ((e - 1 + 1) * 1024 + m)) by (unfold f16_pack; lia).
    rewrite f16_units_pack, f16_magnitude_carry by (done || lia).
    replace (8388608 + m * 8192) with ((1024 + m) * 2 ^ 13) by (change (2 ^ 13) with 8192; lia).
    replace (e + 112 - 1) with ((e - 1) + 112) by lia. rewrite Z.pow_add_r by lia.
    change (2 ^ 125) with (2 ^ 13 * 2 ^ 112). ring.
Qed.

(** f16 patterns that are finite stay finite, and the conversion keeps [NaN]s. *)
Lemma f16_to_f32_class_all :
  all_u16 (λ h, eqb (f32_is_finite (f16_to_f32 h)) (f16_finite h) &&
                (0 <=? f16_to_f32 h) && (f16_to_f32 h <? u32_bound)) = true.
Proof. vm_compute. reflexivity. Qed.
Lemma f16_to_f32_finite h : in_u16 h → f32_is_finite (f16_to_f32 h) = f16_finite h.
Proof.
  intros Hh. pose proof (all_u16_spec _ h f16_to_f32_class_all Hh) as H. cbv beta in H. bools.
  by apply eqb_prop.
Qed.
Lemma f16_to_f32_u32 h : in_u16 h → in_u32 (f16_to_f32 h).
Proof.
  intros Hh. pose proof (all_u16_spec _ h f16_to_f32_class_all Hh) as H. cbv beta in H. bools. by split.
Qed.
