(* ===== verification/Stats.v ===== *)
(** * The statistics sidecar (crates/kvpack-core/src/stats.rs)

    [f32] comparisons of values that are not NaN compare [f32_units]; the sums
    of squares of [derive_f16] are computed in the standard library's
    specification of binary64 arithmetic.  [sort_by] with a total order without
    ties has one result, so the model sorts with [merge_sort]. *)
From stdpp Require Import base tactics numbers list strings option sorting.
From Stdlib Require Import ZArith Lia.
From S2P Require Import Prelude Bytes Canonical Wire State Identity Half.

From Stdlib Require Import ZArith Lia Floats.SpecFloat.

Definition MAX_SIDECAR_CHANNELS : Z := 512.
Definition MAX_SIDECAR_TOKENS : Z := 768.
Definition MAX_SINK_SCORES : Z := 8.

Record ChannelRange := mkChannelRange { min_bits : Z; max_bits : Z }.
Definition ChannelRange_min (r : ChannelRange) : Z := f16_to_f32 (min_bits r).
Definition ChannelRange_max (r : ChannelRange) : Z := f16_to_f32 (max_bits r).
Record SinkScore := mkSinkScore { token_index : Z; score_bits : Z }.
Definition SinkScore_score (s : SinkScore) : Z := f16_to_f32 (score_bits s).
Record StatsSidecar := mkStatsSidecar {
    channel_ranges : list ChannelRange;
    key_l2_norms : list Z;
    sink_scores : list SinkScore
}.

(** [<], for values that are not NaN. *)
Definition f32_ltb (a b : Z) : bool := f32_units a <? f32_units b.
(** [f32::min] and [f32::max] of values that are not NaN. *)
Definition f32_min (a b : Z) : Z := if f32_ltb b a then b else a.
Definition f32_max (a b : Z) : Z := if f32_ltb a b then b else a.
Definition f32_INFINITY : Z := 2139095040.
Definition f32_NEG_INFINITY : Z := 4286578688.

(** [f32::total_cmp] compares the bits as sign-magnitude integers. *)
Definition total_key (bits : Z) : Z :=
  if bits <? 2147483648 then bits else 2147483647 - bits.

(** ** top_sinks *)
Definition norm_key (norms : list Z) (i : nat) : Z := total_key (f16_to_f32 (norms !!! i)).
Definition sink_before (norms : list Z) (i j : nat) : Prop :=
  norm_key norms j < norm_key norms i ∨ (norm_key norms j = norm_key norms i ∧ (i ≤ j)%nat).
#[export] Instance sink_before_dec norms : RelDecision (sink_before norms).
Proof. intros i j. unfold sink_before. apply _. Defined.

Definition top_sinks (norms : list Z) (count : Z) : list SinkScore :=
  let order := merge_sort (sink_before norms) (seq 0 (length norms)) in
  (λ i : nat, mkSinkScore (Z.of_nat i mod u32_bound) (norms !!! i)) <$> ztake count order.

(** ** Encoding *)
Definition put_range (r : ChannelRange) : bytes := put_u16 (min_bits r) ++ put_u16 (max_bits r).
Definition put_sink (s : SinkScore) : bytes :=
  put_u32 (token_index s) ++ put_u16 (score_bits s) ++ put_u16 0.

Definition stats_body (s : StatsSidecar) : result bytes :=
  channels ← ok_or (try_from u32_bound (zlen (channel_ranges s)))
               (Bounds "stats sidecar channel count exceeds u32");
  tokens ← ok_or (try_from u32_bound (zlen (key_l2_norms s)))
             (Bounds "stats sidecar token count exceeds u32");
  sinks ← ok_or (try_from u16_bound (zlen (sink_scores s)))
            (Bounds "stats sidecar sink count exceeds u16");
  mret (put_u32 channels ++ put_list put_range (channel_ranges s) ++
        put_u32 tokens ++ put_list put_u16 (key_l2_norms s) ++
        put_u16 sinks ++ put_list put_sink (sink_scores s)).
Definition stats_encode_canonical (s : StatsSidecar) : result bytes :=
  body ← stats_body s;
  mret (STATS_SIDECAR_MAGIC ++ put_u16 WIRE_VERSION ++ put_u16 0 ++ body).

(** ** Decoding *)
Definition dec_range : Dec ChannelRange :=
  lo ← dec_u16;
  hi ← dec_u16;
  let range := mkChannelRange lo hi in
  if negb (f32_is_finite (ChannelRange_min range)) || negb (f32_is_finite (ChannelRange_max range))
     || f32_ltb (ChannelRange_max range) (ChannelRange_min range) then
    dec_fail (Semantics "stats sidecar channel range is not finite and ordered")
  else mret range.
Definition dec_norm : Dec Z :=
  bits ← dec_u16;
  let norm := f16_to_f32 bits in
  if negb (f32_is_finite norm) || f32_ltb norm 0 then
    dec_fail (Semantics "stats sidecar key norm is not a finite non-negative value")
  else mret bits.
Definition dec_sink : Dec SinkScore :=
  index ← dec_u32;
  score ← dec_u16;
  reserved ← dec_u16;
  if negb (reserved =? 0) then
    dec_fail (Reserved "stats sidecar sink reserved field is nonzero")
  else mret (mkSinkScore index score).
Definition stats_decode_body : Dec StatsSidecar :=
  channel_count ← dec_u32;
  if (channel_count =? 0) || (MAX_SIDECAR_CHANNELS <? channel_count) then
    dec_fail (Bounds "stats sidecar channel count is outside bounds") else
  ranges ← dec_repeat (Z.to_nat channel_count) dec_range;
  token_count ← dec_u32;
  if (token_count =? 0) || (MAX_SIDECAR_TOKENS <? token_count) then
    dec_fail (Bounds "stats sidecar token count is outside bounds") else
  norms ← dec_repeat (Z.to_nat token_count) dec_norm;
  sink_count ← dec_u16;
  if (sink_count =? 0) || (MAX_SINK_SCORES <? sink_count) then
    dec_fail (Bounds "stats sidecar sink count is outside bounds") else
  sinks ← dec_repeat (Z.to_nat sink_count) dec_sink;
  mret (mkStatsSidecar ranges norms sinks).

#[export] Instance ChannelRange_eq_dec : EqDecision ChannelRange.
Proof. solve_decision. Defined.
#[export] Instance SinkScore_eq_dec : EqDecision SinkScore.
Proof. solve_decision. Defined.

Definition stats_decode_canonical (b : bytes) : result StatsSidecar :=
  if MAX_STATS_SIDECAR_BYTES <? zlen b then
    Err (Bounds "stats sidecar exceeds the chunk header capacity") else
  input ← Decoder_new b STATS_SIDECAR_MAGIC;
  '(s, input) ←
    (version ← dec_u16;
     if negb (version =? WIRE_VERSION) then
       dec_fail (BadMagic "unsupported stats sidecar version") else
     reserved ← dec_u16;
     if negb (reserved =? 0) then
       dec_fail (Reserved "stats sidecar reserved field is nonzero") else
     stats_decode_body) input;
  _ ← Decoder_finish input;
  let sink_count := zlen (sink_scores s) in
  let token_count := zlen (key_l2_norms s) in
  let expected := top_sinks (key_l2_norms s) (Z.min sink_count token_count) in
  if (token_count <? sink_count) || negb (bool_decide (sink_scores s = expected)) then
    Err (Semantics "stats sidecar sink scores are not the exact top-m norms") else
  again ← stats_encode_canonical s;
  if negb (bytes_eqb again b) then Err (Reserved "stats sidecar is not canonical")
  else Ok s.

(** ** Derivation *)
Definition prec64 : Z := 53.
Definition emax64 : Z := 1024.
(** [value as f64] of a finite f32. *)
Definition f32_to_f64 (bits : Z) : spec_float :=
  binary_normalize prec64 emax64 (f32_units bits) (-149) (bits / 2147483648 =? 1).
(** [x as f32], round to nearest even. *)
Definition f32_of_canonical (s : bool) (m : positive) (e : Z) : Z :=
  let sign := if s then 2147483648 else 0 in
  if Z.pos m <? 8388608 then sign + Z.pos m
  else sign + (e + 150) * 8388608 + (Z.pos m - 8388608).
Definition f64_to_f32 (x : spec_float) : Z :=
  match x with
  | S754_nan => 2143289344
  | S754_zero s => if s then 2147483648 else 0
  | S754_infinity s => if s then f32_NEG_INFINITY else f32_INFINITY
  | S754_finite s m e =>
      match binary_normalize 24 128 (if s then Z.neg m else Z.pos m) e s with
      | S754_finite s m e => f32_of_canonical s m e
      | S754_infinity s => if s then f32_NEG_INFINITY else f32_INFINITY
      | _ => if s then 2147483648 else 0
      end
  end.

(** The closure [element]. *)
Definition stats_element (channels : Z) (b : bytes) (token channel : Z) : result Z :=
  let offset := (token * channels + channel) * 2 in
  b0 ← index b offset;
  b1 ← index b (offset + 1);
  let value := f16_to_f32 (le_val [b0; b1]) in
  if negb (f32_is_finite value) then
    Err (Semantics "stats sidecar source contains a non-finite element")
  else Ok value.

(** [for i in 0..n { body(i)?; }] threading a state. *)
Fixpoint for_range {A} (n : nat) (i : Z) (body : Z → A → result A) (acc : A) : result A :=
  match n with
  | O => Ok acc
  | S n => acc ← body i acc; for_range n (i + 1) body acc
  end.

Definition channel_range (channels tokens : Z) (b : bytes) (channel : Z) : result ChannelRange :=
  '(lo, hi) ← for_range (Z.to_nat tokens) 0 (λ token acc,
      value ← stats_element channels b token channel;
      mret (f32_min acc.1 value, f32_max acc.2 value)) (f32_INFINITY, f32_NEG_INFINITY);
  mret (mkChannelRange (f32_to_f16 lo) (f32_to_f16 hi)).
Definition key_norm (channels : Z) (b : bytes) (token : Z) : result Z :=
  sum ← for_range (Z.to_nat channels) 0 (λ channel sum,
      value ← stats_element channels b token channel;
      let value := f32_to_f64 value in
      mret (SFadd prec64 emax64 sum (SFmul prec64 emax64 value value))) (S754_zero false);
  mret (f32_to_f16 (f64_to_f32 (SFsqrt prec64 emax64 sum))).

Definition derive_f16 (tokens channels sink_count : Z) (b : bytes) : result StatsSidecar :=
  if (tokens =? 0) || (MAX_SIDECAR_TOKENS <? tokens) || (channels =? 0)
     || (MAX_SIDECAR_CHANNELS <? channels) || (sink_count =? 0)
     || (MAX_SINK_SCORES <? sink_count) then
    Err (Bounds "stats sidecar shape is outside bounded limits") else
  expected ← ok_or (elements ← checked_mul tokens channels; checked_mul elements 2)
               (Bounds "stats sidecar element count overflow");
  if negb (zlen b =? expected) then
    Err (Bounds "stats sidecar source bytes do not match the declared shape") else
  ranges ← for_range (Z.to_nat channels) 0 (λ channel acc,
             r ← channel_range channels tokens b channel; mret (acc ++ [r])) [];
  norms ← for_range (Z.to_nat tokens) 0 (λ token acc,
            n ← key_norm channels b token; mret (acc ++ [n])) [];
  let sidecar := mkStatsSidecar ranges norms (top_sinks norms (Z.min sink_count tokens)) in
  encoded ← stats_encode_canonical sidecar;
  if MAX_STATS_SIDECAR_BYTES <? zlen encoded then
    Err (Bounds "stats sidecar exceeds the chunk header capacity")
  else Ok sidecar.

(** * Laws of the statistics sidecar

    The wire codec, the exactness of the sink ranking, and the canonical
    round trips of [stats_encode_canonical] and [stats_decode_canonical]. *)
(** ** Well-formedness *)
Definition range_ok (r : ChannelRange) : Prop :=
  in_u16 (min_bits r) ∧ in_u16 (max_bits r) ∧
  f32_is_finite (ChannelRange_min r) = true ∧ f32_is_finite (ChannelRange_max r) = true ∧
  f32_units (ChannelRange_min r) ≤ f32_units (ChannelRange_max r).
Definition norm_ok (n : Z) : Prop :=
  in_u16 n ∧ f32_is_finite (f16_to_f32 n) = true ∧ 0 ≤ f32_units (f16_to_f32 n).
Definition sink_ok (s : SinkScore) : Prop := in_u32 (token_index s) ∧ in_u16 (score_bits s).
Definition sidecar_fields_ok (s : StatsSidecar) : Prop :=
  0 < zlen (channel_ranges s) ≤ MAX_SIDECAR_CHANNELS ∧ Forall range_ok (channel_ranges s) ∧
  0 < zlen (key_l2_norms s) ≤ MAX_SIDECAR_TOKENS ∧ Forall norm_ok (key_l2_norms s) ∧
  0 < zlen (sink_scores s) ≤ MAX_SINK_SCORES ∧ Forall sink_ok (sink_scores s).
(** The sinks are the top-m of the norms. *)
Definition sidecar_ok (s : StatsSidecar) : Prop :=
  sidecar_fields_ok s ∧ zlen (sink_scores s) ≤ zlen (key_l2_norms s) ∧
  sink_scores s = top_sinks (key_l2_norms s) (zlen (sink_scores s)).

(** ** Codecs *)
#[export] Instance range_codec : Codec range_ok (λ r, Ok (put_range r)) dec_range.
Proof.
  split.
  - by eexists.
  - intros r b _ [= <-]. unfold put_range. bytes_ok_app_all.
  - intros [lo hi] b (H1 & H2 & H3 & H4 & H5) [= <-]. unfold put_range, dec_range.
    cbn [min_bits max_bits] in *. apply parses_nil_r. rewrite <- app_assoc. do 2 parse_step.
    apply parses_guard; [|apply parses_ret]. rewrite H3, H4. cbn [negb orb].
    unfold f32_ltb. apply Z.ltb_ge. done.
  - unfold dec_range. sound_all. sound_fields. unfold range_ok, f32_ltb in *. bools.
    split; [by split_and!|]. unfold put_range. by rewrite app_nil_r.
Qed.
#[export] Instance norm_codec : Codec norm_ok (λ n, Ok (put_u16 n)) dec_norm.
Proof.
  split.
  - by eexists.
  - intros n b _ [= <-]. auto with bytes.
  - intros n b (H1 & H2 & H3) [= <-]. unfold dec_norm. apply parses_nil_r. parse_step.
    apply parses_guard; [|apply parses_ret]. rewrite H2. cbn [negb orb]. unfold f32_ltb.
    apply Z.ltb_ge. done.
  - unfold dec_norm. sound_all. sound_fields. unfold norm_ok, f32_ltb in *. bools.
    split; [by split_and!|]. by rewrite app_nil_r.
Qed.
#[export] Instance sink_codec : Codec sink_ok (λ s, Ok (put_sink s)) dec_sink.
Proof.
  split.
  - by eexists.
  - intros s b _ [= <-]. unfold put_sink. bytes_ok_app_all.
  - intros [i sc] b [H1 H2] [= <-]. unfold put_sink, dec_sink. cbn [token_index score_bits] in *.
    assert (in_u16 0) by range_lia. parse_all.
  - unfold dec_sink. sound_all. sound_fields. split; [done|]. unfold put_sink. by rewrite app_nil_r.
Qed.
#[export] Instance stats_codec : Codec sidecar_fields_ok stats_body stats_decode_body.
Proof.
  assert (in_u16 0) by range_lia.
  split.
  - intros s (?&?&?&?&?&?). unfold stats_body. unfold MAX_SIDECAR_CHANNELS, MAX_SIDECAR_TOKENS, MAX_SINK_SCORES in *.
    rewrite !try_from_ok by range_lia. by eexists.
  - intros s b _ He. unfold stats_body in He. inv_ok. subst.
    bytes_ok_app_all; apply put_list_bytes; intros; unfold put_range, put_sink; bytes_ok_app_all.
  - intros [ranges norms sinks] b (?&Hr&?&Hn&?&Hs) He. unfold stats_body in He. inv_ok. subst.
    cbn [channel_ranges key_l2_norms sink_scores] in *.
    repeat match goal with H : try_from _ _ = Some _ |- _ => apply try_from_Some in H as [-> ?] end.
    unfold stats_decode_body, MAX_SIDECAR_CHANNELS, MAX_SIDECAR_TOKENS, MAX_SINK_SCORES in *.
    assert (in_u32 (zlen ranges)) by range_lia. assert (in_u32 (zlen norms)) by range_lia.
    assert (in_u16 (zlen sinks)) by range_lia.
    pose proof (parses_list _ _ dec_range _ _ _ Hr (enc_list_put _ _) (length_Z_to_nat ranges)).
    pose proof (parses_list _ _ dec_norm _ _ _ Hn (enc_list_put _ _) (length_Z_to_nat norms)).
    pose proof (parses_list _ _ dec_sink _ _ _ Hs (enc_list_put _ _) (length_Z_to_nat sinks)).
    parse_all.
  - unfold stats_decode_body. sound_all. sound_fields.
    unfold sidecar_fields_ok, stats_body, MAX_SIDECAR_CHANNELS, MAX_SIDECAR_TOKENS, MAX_SINK_SCORES in *.
    cbn [channel_ranges key_l2_norms sink_scores]. split; [zlen_facts; split_and!; auto; lia|by encode_eqs].
Qed.

(** ** Canonical round trips *)
Section canonical.
Let ev := BadMagic "unsupported stats sidecar version".
Let er := Reserved "stats sidecar reserved field is nonzero".
Definition stats_recheck (b : bytes) (s : StatsSidecar) : result StatsSidecar :=
  let sink_count := zlen (sink_scores s) in
  let token_count := zlen (key_l2_norms s) in
  let expected := top_sinks (key_l2_norms s) (Z.min sink_count token_count) in
  if (token_count <? sink_count) || negb (bool_decide (sink_scores s = expected)) then
  Err (Semantics "stats sidecar sink scores are not the exact top-m norms") else
  again ← stats_encode_canonical s;
  if negb (bytes_eqb again b) then Err (Reserved "stats sidecar is not canonical") else Ok s.

Lemma stats_encode_framed s :
  stats_encode_canonical s = x ← put_framed stats_body s; mret (STATS_SIDECAR_MAGIC ++ x).
Proof. unfold stats_encode_canonical, put_framed. by destruct (stats_body s). Qed.
Lemma stats_decode_split b :
  stats_decode_canonical b =
  if MAX_STATS_SIDECAR_BYTES <? zlen b then
  Err (Bounds "stats sidecar exceeds the chunk header capacity")
  else s ← canonical_decode_fast STATS_SIDECAR_MAGIC (framed ev er stats_decode_body) b;
     stats_recheck b s.
Proof.
  transitivity (if MAX_STATS_SIDECAR_BYTES <? zlen b then
    Err (Bounds "stats sidecar exceeds the chunk header capacity")
    else input ← Decoder_new b STATS_SIDECAR_MAGIC;
    '(s, input) ← framed ev er stats_decode_body input;
    _ ← Decoder_finish input; stats_recheck b s); [done|].
  unfold canonical_decode_fast. case_match; [done|].
  destruct (Decoder_new b STATS_SIDECAR_MAGIC) as [d|?|?]; [|done..]. cbn [mbind outcome_bind].
  destruct (framed ev er stats_decode_body d) as [[s d']|?|?]; [|done..]. cbn [mbind outcome_bind].
  by destruct (Decoder_finish d').
Qed.

Lemma stats_fast_eq b :
  bytes_ok b →
  canonical_decode STATS_SIDECAR_MAGIC (framed ev er stats_decode_body)
  stats_encode_canonical er b =
  canonical_decode_fast STATS_SIDECAR_MAGIC (framed ev er stats_decode_body) b.
Proof.
  intros Hb. eapply (canonical_decode_recheck _ _ (put_framed stats_body));
    [apply _|apply stats_encode_framed|done].
Qed.
Lemma stats_fast_Ok b s :
  bytes_ok b →
  canonical_decode_fast STATS_SIDECAR_MAGIC (framed ev er stats_decode_body) b = Ok s →
  sidecar_fields_ok s ∧ stats_encode_canonical s = Ok b.
Proof.
  intros Hb Hd.
  rewrite <- stats_fast_eq in Hd by done.
  by eapply (canonical_decode_Ok _ _ (put_framed stats_body) (framed ev er stats_decode_body));
    [apply _|apply stats_encode_framed|..].
Qed.

Lemma stats_encode_decode b s :
  bytes_ok b → stats_decode_canonical b = Ok s →
  sidecar_ok s ∧ stats_encode_canonical s = Ok b ∧ zlen b ≤ MAX_STATS_SIDECAR_BYTES.
Proof.
  intros Hb H. rewrite stats_decode_split in H. inv_ok. bools.
  apply stats_fast_Ok in H as [Hf He]; [|done]. unfold stats_recheck in H0. inv_ok. bools. subst x.
  split_and!; try done. split; [done|]. split; [lia|].
  match goal with H : sink_scores s = _ |- _ => rewrite Z.min_l in H by lia; done end.
Qed.

(** The field bounds keep every sidecar within the header tail. *)
Lemma stats_encode_size s b :
  sidecar_fields_ok s → stats_encode_canonical s = Ok b → 12 < zlen b ≤ MAX_STATS_SIDECAR_BYTES.
Proof.
  intros (Hr & _ & Hn & _ & Hk & _) He. unfold stats_encode_canonical, stats_body in He. inv_ok. subst.
  rewrite !zlen_app, (zlen_put_list put_range 4), (zlen_put_list put_u16 2), (zlen_put_list put_sink 8) by done.
  unfold put_u16, put_u32. rewrite !zlen_le_bytes. change (zlen STATS_SIDECAR_MAGIC) with 8.
  unfold MAX_SIDECAR_CHANNELS, MAX_SIDECAR_TOKENS, MAX_SINK_SCORES in *.
  change MAX_STATS_SIDECAR_BYTES with 3858. lia.
Qed.
Lemma stats_decode_encode s b :
  sidecar_ok s → stats_encode_canonical s = Ok b → bytes_ok b → stats_decode_canonical b = Ok s.
Proof.
  intros (Hf & Hle & Hs) He Hb. destruct (stats_encode_size s b Hf He) as [_ Hl]. rewrite stats_decode_split, (proj2 (Z.ltb_ge _ _)) by done.
  assert (canonical_decode_fast STATS_SIDECAR_MAGIC (framed ev er stats_decode_body) b = Ok s) as ->.
  { rewrite <- stats_fast_eq by done. eapply canonical_decode_encode; [apply _|done|apply stats_encode_framed|done..|].
    unfold slice_len_ok. assert (MAX_STATS_SIDECAR_BYTES < 9223372036854775808) by done. lia. }
  cbn [mbind outcome_bind]. unfold stats_recheck. rewrite Z.min_l by done.
  rewrite (proj2 (Z.ltb_ge _ _)) by done. rewrite bool_decide_true by done. cbn [negb orb].
  rewrite He. cbn [mbind outcome_bind]. by rewrite bytes_eqb_refl.
Qed.
Lemma stats_encode_total s :
  sidecar_fields_ok s → ∃ b, stats_encode_canonical s = Ok b ∧ bytes_ok b.
Proof.
  intros Hs. destruct (codec_total (Codec:=stats_codec) s Hs) as [b Hb].
  unfold stats_encode_canonical. rewrite Hb. eexists. split; [done|].
  apply (codec_bytes (Codec:=stats_codec)) in Hb; [|done]. bytes_ok_app_all; by apply bytes_okb_ok.
Qed.
Lemma stats_decode_no_panic b : bytes_ok b → ¬ panics (stats_decode_canonical b).
Proof.
  intros Hb. rewrite stats_decode_split. case_match; [by intros []|]. apply bind_no_panic.
  - rewrite <- stats_fast_eq by done. by eapply (canonical_decode_no_panic _ _ (put_framed stats_body)); [apply _|apply stats_encode_framed|].
  - intros s Hs%stats_fast_Ok; [|done]. destruct Hs as [_ He]. unfold stats_recheck. rewrite He. no_panic.
Qed.
End canonical.

(** ** The ranking *)
#[export] Instance sink_before_total norms : Total (sink_before norms).
Proof. intros i j. unfold sink_before. lia. Qed.
#[export] Instance sink_before_trans norms : Transitive (sink_before norms).
Proof. intros i j k. unfold sink_before. lia. Qed.
Lemma top_sinks_spec norms count :
  0 ≤ count ≤ zlen norms → zlen norms < u32_bound →
  ∃ chosen others : list nat,
    chosen ++ others ≡ₚ seq 0 (length norms) ∧
    top_sinks norms count = (λ i, mkSinkScore (Z.of_nat i) (norms !!! i)) <$> chosen ∧
    zlen chosen = count ∧ StronglySorted (sink_before norms) chosen ∧
    ∀ i j, i ∈ chosen → j ∈ others → sink_before norms i j.
Proof.
  intros Hc Hn. set (order := merge_sort (sink_before norms) (seq 0 (length norms))).
  assert (order ≡ₚ seq 0 (length norms)) as Hp by apply merge_sort_Permutation.
  assert (StronglySorted (sink_before norms) order) as Hs by (apply StronglySorted_merge_sort; apply _).
  exists (ztake count order), (zdrop count order). rewrite ztake_zdrop. split; [done|].
  assert (zlen order = zlen norms) as Hlen.
  { unfold zlen. rewrite Hp, length_seq. done. }
  rewrite <- (ztake_zdrop count order) in Hs. apply StronglySorted_app in Hs as (Hs1 & Hs2 & _).
  split_and!.
  - unfold top_sinks. fold order. apply list_fmap_ext. intros k i Hi. f_equal. apply Z.mod_small.
    assert (i ∈ seq 0 (length norms)) as Hin.
    { rewrite <- Hp. rewrite <- (ztake_zdrop count order). apply elem_of_app. left. by eapply list_elem_of_lookup_2. }
    apply elem_of_seq in Hin. unfold zlen in Hn. lia.
  - apply zlen_ztake. lia.
  - done.
  - intros i j Hi Hj. by apply Hs1.
Qed.
