(* ===== verification/Chunk.v ===== *)
(** * Chunk objects (crates/kvpack-core/src/chunk.rs)

    Encoding of one chunk into a 4 KiB-aligned object: a 4096-byte header, the
    codec frame (sealed when the chunk is encrypted) and zero padding; and the
    decoder that accepts it.  The randomness of [getrandom::fill] is an
    argument: [fill_salt] and [fill_nonce] are what the two calls produce, [None]
    for a failing call. *)
From Stdlib Require Import ZArith Lia.
From stdpp Require Import base tactics numbers list strings option.
From S2P Require Import Prelude Bytes Canonical Wire State Identity Manifest Frame Crypto Ids.
From S2P Require Import Half Stats.

Definition HEADER_DIGEST_OFFSET : Z := 204.

Record ChunkEncoding := mkChunkEncoding {
    ce_tenant_namespace : bytes;
    ce_family : RepresentationFamilyId;
    ce_state_key : StateKey;
    ce_span : ChunkSpan;
    ce_key_epoch : Z;
    ce_encrypt : bool;
    ce_stats_sidecar : option StatsSidecar
}.

Record ChunkObject := mkChunkObject {
    co_chunk_id : bytes;
    co_object_key : bytes;
    co_object_digest : bytes;
    co_plaintext_bytes : Z;
    co_bytes : bytes
}.

(** [rounded & !(ALIGNMENT - 1)] on a 64-bit [usize]. *)
Definition align (value : Z) : result Z :=
  ok_or ((λ rounded, Z.land rounded (Z.ldiff (u64_bound - 1) (ALIGNMENT - 1))) <$>
           checked_add value (ALIGNMENT - 1))
    (Bounds "chunk object length overflow").

(** [slice::binary_search_by]: [left] and [right] are the loop variables. *)
Fixpoint binary_search {A} (fuel : nat) (cmp : A → comparison) (l : list A) (left right : nat)
    : option nat :=
  match fuel with
  | O => None
  | S fuel =>
      if (left <? right)%nat then
        let mid := (left + (right - left) / 2)%nat in
        match l !! mid with
        | None => None
        | Some x =>
            match cmp x with
            | Eq => Some mid
            | Lt => binary_search fuel cmp l (S mid) right
            | Gt => binary_search fuel cmp l left mid
            end
        end
      else None
  end.
Definition family_state (family : RepresentationFamilyId) (key : StateKey) : result FamilyState :=
  let states := family_states family in
  match binary_search (S (length states)) (λ s, StateKey_cmp (fs_key s) key) states 0 (length states) with
  | Some i => expect (states !! i) "index out of bounds"
  | None => Err (Semantics "chunk state is absent from representation family")
  end.

Section chunk.
Context `{Crypto}.

Record ObjectIdentity := mkObjectIdentity {
  oi_tenant : bytes;
  oi_family : bytes;
  oi_content : bytes;
  oi_key_epoch : Z;
  oi_codec : Codec_kind;
  oi_codec_version : Z;
  oi_encrypted : bool;
  oi_salt : bytes;
  oi_nonce : bytes;
  oi_stats_digest : option bytes
}.
Definition object_parts (i : ObjectIdentity) : list bytes :=
  [label "kvpack/v1/chunk-object"; oi_tenant i; oi_family i; oi_content i;
   put_u64 (oi_key_epoch i); put_enum Codec_wire (oi_codec i); put_u16 (oi_codec_version i);
   [if oi_encrypted i then 1 else 0]; oi_salt i; oi_nonce i] ++
  match oi_stats_digest i with
  | Some stats_digest => [label "kvpack/v1/chunk-object-stats"; stats_digest]
  | None => []
  end.
Definition derive_object_key (keys : KeySchedule) (i : ObjectIdentity) : bytes :=
  hmac (ks_object_identity keys) (object_parts i).

Definition derive_encryption_key (keys : KeySchedule) (content object salt : bytes)
  : result bytes :=
  ok_or (hkdf_expand salt (ks_chunk_encryption keys)
         (label "kvpack/v1/chunk-aead" ++ content ++ object))
  (Authentication "chunk key derivation failed").

(** ** Encoding *)
Definition chunk_random (encrypt : bool) (fill_salt fill_nonce : option bytes)
  : result (bytes * bytes) :=
  if encrypt then
  salt ← ok_or fill_salt (Authentication "chunk salt generation failed");
  nonce ← ok_or fill_nonce (Authentication "chunk nonce generation failed");
  mret (salt, nonce)
  else Ok (zeros 16, zeros 12).

Definition encode_sidecar (sidecar : option StatsSidecar) : result (option bytes) :=
  match sidecar with
  | Some sidecar =>
    encoded ← stats_encode_canonical sidecar;
    if (zlen encoded =? 0) || (MAX_STATS_SIDECAR_BYTES <? zlen encoded) then
      Err (Bounds "stats sidecar exceeds the chunk header capacity")
    else Ok (Some encoded)
  | None => Ok None
  end.

(** The header fields in wire order, up to the sidecar. *)
Definition header_fields (e : ChunkEncoding) (codec : Codec_kind) (codec_version : Z)
  (plaintext_len encoded_len payload_bytes object_bytes : Z)
  (family content object_key salt nonce : bytes) : list bytes :=
  [CHUNK_MAGIC; put_u16 WIRE_VERSION; put_u16 CHUNK_HEADER_BYTES; put_u32 ALIGNMENT;
   put_u32 (if ce_encrypt e then FLAG_ENCRYPTED else 0); put_enum Codec_wire codec;
   put_u16 codec_version; put_u32 plaintext_len; put_u32 encoded_len; put_u32 payload_bytes;
   put_u32 object_bytes; put_u64 (ce_key_epoch e); ce_tenant_namespace e; family; content;
   object_key; salt; nonce; zeros 32].
Definition sidecar_field (sidecar : option bytes) : bytes :=
  match sidecar with Some s => put_u16 (zlen s) ++ s | None => [] end.

Definition content_identity (plaintext : bytes) (e : ChunkEncoding) (keys : KeySchedule)
  (content_id : option bytes) : result bytes :=
  match content_id with
  | Some content => Ok content
  | None => chunk_id (ks_chunk_identity keys) (ce_tenant_namespace e) (ce_family e)
            (ce_state_key e) (ce_span e) plaintext
  end.
Definition seal_payload (keys : KeySchedule) (encrypt : bool)
  (content object_key salt nonce header encoded : bytes) : result bytes :=
  if encrypt then
  key ← derive_encryption_key keys content object_key salt;
  ok_or (aead_encrypt key nonce encoded header) (Authentication "chunk encryption failed")
  else Ok encoded.

Definition encode_chunk_with_content_id (plaintext : bytes) (e : ChunkEncoding)
  (keys : KeySchedule) (content_id fill_salt fill_nonce : option bytes)
  : result ChunkObject :=
  if ce_key_epoch e =? 0 then Err (Semantics "chunk key epoch must be nonzero") else
  if negb (cs_plaintext_bytes (ce_span e) =? zlen plaintext)
   || (cs_token_count (ce_span e) =? 0) then
  Err (Semantics "chunk plaintext does not match its declared span") else
  state ← family_state (ce_family e) (ce_state_key e);
  let codec := fs_codec state in
  let codec_version := fs_codec_version state in
  if negb (codec_version =? 1) then Err (Codec_error "unsupported chunk codec version") else
  encoded ← encode_codec_frame codec plaintext;
  family ← representation_family_id (ce_family e);
  content ← content_identity plaintext e keys content_id;
  '(salt, nonce) ← chunk_random (ce_encrypt e) fill_salt fill_nonce;
  sidecar_bytes ← encode_sidecar (ce_stats_sidecar e);
  let stats_digest := sha256_digest <$> sidecar_bytes in
  let object_key := derive_object_key keys
  (mkObjectIdentity (ce_tenant_namespace e) family content (ce_key_epoch e) codec
     codec_version (ce_encrypt e) salt nonce stats_digest) in
  payload_bytes ← ok_or (checked_add (zlen encoded) (if ce_encrypt e then 16 else 0))
                  (Bounds "chunk payload length overflow");
  unaligned ← ok_or (checked_add CHUNK_HEADER_BYTES payload_bytes)
              (Bounds "chunk object length overflow");
  object_bytes ← align unaligned;
  if MAX_CHUNK_OBJECT_BYTES <? object_bytes then
  Err (Bounds "encoded chunk object exceeds bound") else
  let header := vec_resize
  (concat (header_fields e codec codec_version (zlen plaintext) (zlen encoded)
             payload_bytes object_bytes family content object_key salt nonce)
   ++ sidecar_field sidecar_bytes) CHUNK_HEADER_BYTES in
  header ← write header HEADER_DIGEST_OFFSET (sha256_digest header);
  payload ← seal_payload keys (ce_encrypt e) content object_key salt nonce header encoded;
  let object := vec_resize (header ++ payload) object_bytes in
  mret (mkChunkObject content object_key (sha256_digest object) (zlen plaintext) object).

Definition encode_chunk (plaintext : bytes) (e : ChunkEncoding) (keys : KeySchedule)
  (fill_salt fill_nonce : option bytes) : result ChunkObject :=
  encode_chunk_with_content_id plaintext e keys None fill_salt fill_nonce.

(** ** Decoding *)
Record ChunkFraming := mkChunkFraming {
  cf_codec : Codec_kind;
  cf_codec_version : Z;
  cf_plaintext_bytes : Z;
  cf_encoded_bytes : Z;
  cf_encrypted : bool;
  cf_payload_end : Z
}.

(** The contract, flags, codec and size fields, and the padding. *)
Definition parse_chunk_framing (b : bytes) : result ChunkFraming :=
  if (zlen b <? CHUNK_HEADER_BYTES) || (MAX_CHUNK_OBJECT_BYTES <? zlen b)
   || negb (zlen b mod ALIGNMENT =? 0) then
  Err (Bounds "invalid chunk object length") else
  magic ← slice b 0 8;
  if negb (bytes_eqb magic CHUNK_MAGIC) then Err (BadMagic "invalid production chunk magic") else
  version ← get_u16 b 8;
  header_bytes ← get_u16 b 10;
  alignment ← get_u32 b 12;
  if negb (version =? WIRE_VERSION) || negb (header_bytes =? CHUNK_HEADER_BYTES)
   || negb (alignment =? ALIGNMENT) then Err (BadMagic "invalid chunk header contract") else
  flags ← get_u32 b 16;
  if negb (Z.land flags (Z.ldiff (u32_bound - 1) KNOWN_FLAGS) =? 0) then
  Err (Reserved "unknown chunk flags") else
  codec_wire ← get_u16 b 20;
  codec ← Codec_from_wire codec_wire;
  codec_version ← get_u16 b 22;
  if negb (codec_version =? 1) then Err (Codec_error "unsupported chunk codec version") else
  plaintext_bytes ← get_u32 b 24;
  encoded_bytes ← get_u32 b 28;
  payload_bytes ← get_u32 b 32;
  object_bytes ← get_u32 b 36;
  if (plaintext_bytes =? 0) || (MAX_CHUNK_PLAINTEXT <? plaintext_bytes)
   || negb ((CODEC_FRAME_HEADER_BYTES <=? encoded_bytes)
            && (encoded_bytes <=? MAX_CHUNK_PLAINTEXT + MAX_CODEC_OVERHEAD))
   || negb (object_bytes =? zlen b) then
  Err (Bounds "invalid chunk size fields") else
  let encrypted := negb (Z.land flags FLAG_ENCRYPTED =? 0) in
  if negb (payload_bytes =? encoded_bytes + (if encrypted then 16 else 0)) then
  Err (Bounds "chunk payload length does not match encryption mode") else
  payload_end ← ok_or (checked_add CHUNK_HEADER_BYTES payload_bytes)
                (Bounds "chunk payload offset overflow");
  if zlen b <? payload_end then Err (Truncated "truncated chunk payload") else
  padding ← slice b payload_end (zlen b);
  if any_nonzero padding then Err (Reserved "chunk padding is nonzero") else
  Ok (mkChunkFraming codec codec_version plaintext_bytes encoded_bytes encrypted payload_end).

(** The sidecar and its digest, or the all-zero header tail. *)
Definition parse_chunk_sidecar (b : bytes) : result (option (StatsSidecar * bytes)) :=
  sidecar_len ← get_u16 b CHUNK_HEADER_SIDECAR_OFFSET;
  if negb (sidecar_len =? 0) then
  if MAX_STATS_SIDECAR_BYTES <? sidecar_len then
    Err (Bounds "chunk stats sidecar length is outside bounds") else
  let sidecar_start := CHUNK_HEADER_SIDECAR_OFFSET + 2 in
  let sidecar_end := sidecar_start + sidecar_len in
  raw ← slice b sidecar_start sidecar_end;
  sidecar ← stats_decode_canonical raw;
  padding ← slice b sidecar_end CHUNK_HEADER_BYTES;
  if any_nonzero padding then Err (Reserved "chunk header sidecar padding is nonzero") else
  Ok (Some (sidecar, sha256_digest raw))
  else
  tail ← slice b CHUNK_HEADER_SIDECAR_OFFSET CHUNK_HEADER_BYTES;
  if any_nonzero tail then Err (Reserved "chunk header reserved bytes are nonzero")
  else Ok None.

(** [fill(0)] of the digest field, then compare. *)
Definition verify_chunk_digests (b : bytes) (object_digest : bytes) : result unit :=
  if negb (bytes_eqb (sha256_digest b) object_digest) then
  Err (Authentication "chunk object digest mismatch") else
  header ← slice b 0 CHUNK_HEADER_BYTES;
  expected_header ← slice header HEADER_DIGEST_OFFSET (HEADER_DIGEST_OFFSET + 32);
  cleared ← write header HEADER_DIGEST_OFFSET (zeros 32);
  if negb (bytes_eqb (sha256_digest cleared) expected_header) then
  Err (Authentication "chunk header digest mismatch")
  else Ok tt.

Definition open_payload (keys : KeySchedule) (b : bytes) (f : ChunkFraming)
  (content object_key salt nonce : bytes) : result bytes :=
  payload ← slice b CHUNK_HEADER_BYTES (cf_payload_end f);
  if cf_encrypted f then
  key ← derive_encryption_key keys content object_key salt;
  header ← slice b 0 CHUNK_HEADER_BYTES;
  ok_or (aead_decrypt key nonce payload header)
    (Authentication "chunk AEAD authentication failed")
  else Ok payload.

(** The identity fields of the header against what the caller expects. *)
Definition check_chunk_identity (b : bytes) (f : ChunkFraming) (stats_digest : option bytes)
  (expected : ChunkRef) (expected_tenant : bytes) (expected_family : RepresentationFamilyId)
  (expected_state_key : StateKey) (keys : KeySchedule)
  : result (bytes * bytes * bytes * bytes * bytes) :=
  state ← family_state expected_family expected_state_key;
  if negb (bool_decide (cf_codec f = fs_codec state))
   || negb (cf_codec_version f =? fs_codec_version state) then
  Err (Semantics "chunk codec does not match representation family") else
  tenant ← slice b 48 80;
  family ← slice b 80 112;
  expected_family_id ← representation_family_id expected_family;
  key_epoch ← get_u64 b 40;
  if negb (bytes_eqb tenant expected_tenant) || negb (bytes_eqb family expected_family_id)
   || negb (key_epoch =? cr_key_epoch expected) then
  Err (Authentication "chunk namespace, family, or epoch mismatch") else
  content ← slice b 112 144;
  object_key ← slice b 144 176;
  salt ← slice b 176 192;
  nonce ← slice b 192 204;
  let derived_object_key := derive_object_key keys
  (mkObjectIdentity tenant family content (cr_key_epoch expected) (cf_codec f)
     (cf_codec_version f) (cf_encrypted f) salt nonce stats_digest) in
  if negb (bytes_eqb content (cr_chunk_id expected))
   || negb (bytes_eqb object_key (cr_object_key expected))
   || negb (bytes_eqb object_key derived_object_key) then
  Err (Authentication "chunk identity or object key mismatch")
  else Ok (tenant, content, object_key, salt, nonce).

Definition decode_chunk_with_stats (b : bytes) (expected : ChunkRef) (expected_span : ChunkSpan)
  (expected_tenant : bytes) (expected_family : RepresentationFamilyId)
  (expected_state_key : StateKey) (keys : KeySchedule)
  : result (bytes * option StatsSidecar) :=
  f ← parse_chunk_framing b;
  stats_sidecar ← parse_chunk_sidecar b;
  salt_nonce ← slice b 176 204;
  if negb (cf_encrypted f) && any_nonzero salt_nonce then
  Err (Reserved "unencrypted chunk salt or nonce is nonzero") else
  if negb (zlen b =? cr_object_bytes expected)
   || negb (cf_plaintext_bytes f =? cr_plaintext_bytes expected)
   || negb (cf_plaintext_bytes f =? cs_plaintext_bytes expected_span) then
  Err (Bounds "chunk reference size mismatch") else
  _ ← verify_chunk_digests b (cr_object_digest expected);
  '(tenant, content, object_key, salt, nonce) ←
  check_chunk_identity b f (snd <$> stats_sidecar) expected expected_tenant expected_family
    expected_state_key keys;
  encoded ← open_payload keys b f content object_key salt nonce;
  if negb (zlen encoded =? cf_encoded_bytes f) then
  Err (Bounds "chunk encoded length mismatch") else
  plaintext ← decode_codec_frame (cf_codec f) encoded (cf_plaintext_bytes f);
  derived_content ← chunk_id (ks_chunk_identity keys) tenant expected_family
                    expected_state_key expected_span plaintext;
  if negb (bytes_eqb derived_content content) then
  Err (Authentication "chunk plaintext identity mismatch")
  else Ok (plaintext, fst <$> stats_sidecar).

Definition decode_chunk (b : bytes) (expected : ChunkRef) (expected_span : ChunkSpan)
  (expected_tenant : bytes) (expected_family : RepresentationFamilyId)
  (expected_state_key : StateKey) (keys : KeySchedule) : result bytes :=
  fst <$> decode_chunk_with_stats b expected expected_span expected_tenant expected_family
          expected_state_key keys.
End chunk.
