(* ===== verification/ChunkLaws.v ===== *)
(** * Laws of chunk objects

    The state lookup is a correct binary search; a chunk object decodes to the
    plaintext and sidecar it was encoded from; what the decoder accepts is
    bound to its reference; the decoder never panics. *)
From Stdlib Require Import ZArith Lia.
From stdpp Require Import base tactics numbers list strings option sorting.
From S2P Require Import Prelude Bytes Canonical Wire State Identity Manifest Frame Deps Validator.
From S2P Require Import ValidatorLaws Crypto Ids Half Stats Chunk.

(** ** State lookup *)
Lemma sorted_pairs {A} (R : A → A → Prop) l i j x y :
  StronglySorted R l → (i < j)%nat → l !! i = Some x → l !! j = Some y → R x y.
Proof.
  intros H. revert i j. induction H as [|a l _ IH Ha]; intros [|i] [|j] Hij Hi Hj; try done; try lia.
  - injection Hi as <-. rewrite list.Forall_forall in Ha. by eapply Ha, list_elem_of_lookup_2.
  - eapply (IH i j); [lia|done..].
Qed.
Section search.
Context (states : list FamilyState) (key : StateKey).
Hypothesis Hsorted : StronglySorted key_lt (fs_key <$> states).
Let cmp := λ s, StateKey_cmp (fs_key s) key.

Lemma sorted_lookup i j s t :
  (i < j)%nat → states !! i = Some s → states !! j = Some t → key_lt (fs_key s) (fs_key t).
Proof.
  intros Hij Hs Ht. eapply (sorted_pairs key_lt (fs_key <$> states) i j); [done|done|..];
    by rewrite list_lookup_fmap, ?Hs, ?Ht.
Qed.
(** The search keeps every match between its two bounds. *)
Lemma binary_search_spec fuel left right :
  (right - left < fuel)%nat → (right ≤ length states)%nat →
  (∀ i s, states !! i = Some s → fs_key s = key → (left ≤ i < right)%nat) →
  match binary_search fuel cmp states left right with
  | Some i => ∃ s, states !! i = Some s ∧ fs_key s = key
  | None => ∀ s, s ∈ states → fs_key s ≠ key
  end.
Proof.
  revert left right. induction fuel as [|fuel IH]; intros lo hi Hf Hr Hin; [lia|].
  cbn [binary_search]. destruct (Nat.ltb_spec lo hi) as [Hlt|Hge].
  2: { intros s [i Hi]%list_elem_of_lookup Hk. specialize (Hin i s Hi Hk). lia. }
  assert ((hi - lo) / 2 < hi - lo)%nat as Hd by (apply Nat.div_lt; lia).
  set (mid := (lo + (hi - lo) / 2)%nat) in *.
  destruct (lookup_lt_is_Some_2 states mid) as [x Hx]; [lia|]. rewrite Hx. unfold cmp at 1.
  destruct (StateKey_cmp (fs_key x) key) eqn:Hc.
  - apply StateKey_cmp_eq in Hc. eauto.
  - apply IH; [lia|lia|]. intros i s Hi Hk. destruct (Hin i s Hi Hk).
    split; [|done]. destruct (decide (i = mid)) as [->|].
    { rewrite Hx in Hi. injection Hi as <-. rewrite Hk, (proj2 (StateKey_cmp_eq key key)) in Hc; done. }
    destruct (decide (i < mid)%nat) as [Hlt'|]; [|lia].
    pose proof (sorted_lookup i mid s x Hlt' Hi Hx) as Hl. rewrite Hk in Hl.
    unfold key_lt, StateKey_ltb in Hl. rewrite (StateKey_cmp_antisym (fs_key x) key), Hc in Hl. done.
  - apply IH; [lia|lia|]. intros i s Hi Hk. destruct (Hin i s Hi Hk).
    split; [done|]. destruct (decide (i = mid)) as [->|].
    { rewrite Hx in Hi. injection Hi as <-. rewrite Hk, (proj2 (StateKey_cmp_eq key key)) in Hc; done. }
    destruct (decide (mid < i)%nat) as [Hlt'|]; [|lia].
    pose proof (sorted_lookup mid i x s Hlt' Hx Hi) as Hl. rewrite Hk in Hl.
    unfold key_lt, StateKey_ltb in Hl. rewrite Hc in Hl. done.
Qed.
End search.

Lemma family_state_spec f key :
  StronglySorted key_lt (fs_key <$> family_states f) →
  match family_state f key with
  | Ok s => s ∈ family_states f ∧ fs_key s = key
  | Err _ => ∀ s, s ∈ family_states f → fs_key s ≠ key
  | Panic _ => False
  end.
Proof.
  intros Hs. unfold family_state.
  pose proof (binary_search_spec (family_states f) key Hs (S (length (family_states f))) 0 (length (family_states f))) as Hb.
  destruct (binary_search _ _ _ _ _) as [i|].
  - destruct Hb as (s & Hi & Hk); [lia|lia| |].
    + intros i' s' Hi' _. apply lookup_lt_Some in Hi'. lia.
    + rewrite Hi. simpl. split; [by eapply list_elem_of_lookup_2|done].
  - apply Hb; [lia|lia|]. intros i' s' Hi' _. apply lookup_lt_Some in Hi'. lia.
Qed.
Lemma family_state_found f s :
  StronglySorted key_lt (fs_key <$> family_states f) → s ∈ family_states f →
  family_state f (fs_key s) = Ok s.
Proof.
  intros Hs Hin. pose proof (family_state_spec f (fs_key s) Hs) as H.
  destruct (family_state f (fs_key s)) as [t|?|?]; [|by destruct (H s Hin)|done].
  destruct H as [Ht Hk]. f_equal. apply list_elem_of_lookup in Hin as [i Hi].
  apply list_elem_of_lookup in Ht as [j Hj]. pose proof (sorted_nodup _ Hs) as Hn.
  assert (i = j) as ->; [|congruence].
  eapply (NoDup_lookup (fs_key <$> family_states f)); [done|by rewrite list_lookup_fmap, Hi|].
  rewrite list_lookup_fmap, Hj. simpl. congruence.
Qed.
(** The lookup never panics, sorted or not. *)
Lemma binary_search_bound {A} (cmp : A → comparison) l fuel left right i :
  binary_search fuel cmp l left right = Some i → (i < length l)%nat.
Proof.
  revert left right. induction fuel as [|fuel IH]; intros lo hi H; [done|]. cbn [binary_search] in H.
  destruct (_ <? _)%nat; [|done]. destruct (l !! _) as [x|] eqn:Hx; [|done].
  destruct (cmp x); [|by eapply IH..]. injection H as <-. by eapply lookup_lt_Some.
Qed.
Lemma family_state_no_panic f key : ¬ panics (family_state f key).
Proof.
  unfold family_state. destruct (binary_search _ _ _ _ _) as [i|] eqn:H; [|by intros []].
  apply binary_search_bound in H. apply lookup_lt_is_Some_2 in H as [x ->]. by intros [].
Qed.
#[export] Hint Resolve family_state_no_panic : no_panic.

(** ** Alignment *)
Lemma align_eq v :
  0 ≤ v → v + 4095 < u64_bound → align v = Ok ((v + 4095) / 4096 * 4096).
Proof.
  intros Hv Hb. unfold align. change (ALIGNMENT - 1) with 4095.
  rewrite (proj2 (checked_add_Some v 4095 (v + 4095))) by done. cbn [fmap option_fmap option_map ok_or].
  do 2 f_equal. assert (0 ≤ v + 4095) as Hx by lia. set (x := v + 4095) in *. clearbody x.
  apply Z.bits_inj'. intros i Hi.
  change 4095 with (Z.ones 12). change (u64_bound - 1) with (Z.ones 64).
  rewrite Z.land_spec, Z.ldiff_spec. replace (x / 4096 * 4096) with (Z.shiftl (Z.shiftr x 12) 12)
    by (rewrite Z.shiftl_mul_pow2, Z.shiftr_div_pow2 by lia; done).
  destruct (decide (i < 12)).
  - rewrite Z.shiftl_spec_low, (Z.ones_spec_low 12) by lia. by rewrite !andb_false_r.
  - rewrite Z.shiftl_spec, Z.shiftr_spec, Z.sub_add, (Z.ones_spec_high 12) by lia. rewrite andb_true_r.
    destruct (decide (i < 64)); [by rewrite Z.ones_spec_low, andb_true_r by lia|].
    assert (Z.testbit x i = false) as ->; [|done]. apply Z.testbit_false; [done|].
    rewrite Z.div_small; [done|]. split; [done|]. eapply Z.lt_le_trans; [exact Hb|].
    change u64_bound with (2 ^ 64). apply Z.pow_le_mono_r; lia.
Qed.
Lemma align_bounds v : 0 ≤ v → let a := (v + 4095) / 4096 * 4096 in v ≤ a < v + 4096 ∧ a mod 4096 = 0.
Proof. intros Hv. cbv zeta. split; [Z.to_euclidean_division_equations; lia|]. by rewrite Z.mod_mul. Qed.

(** ** The object as a list of fields *)
Section layout.
Context (flags codec version plain enc payload_len object_len epoch : Z).
Context (tenant family content object_key salt nonce digest tail payload pad : bytes).
Definition object_fields : list bytes :=
  [CHUNK_MAGIC; put_u16 WIRE_VERSION; put_u16 CHUNK_HEADER_BYTES; put_u32 ALIGNMENT;
   put_u32 flags; put_u16 codec; put_u16 version; put_u32 plain; put_u32 enc;
   put_u32 payload_len; put_u32 object_len; put_u64 epoch; tenant; family; content;
   object_key; salt; nonce; digest; tail; payload; pad].
Hypothesis Htenant : zlen tenant = 32.
Hypothesis Hfamily : zlen family = 32.
Hypothesis Hcontent : zlen content = 32.
Hypothesis Hobject : zlen object_key = 32.
Hypothesis Hsalt : zlen salt = 16.
Hypothesis Hnonce : zlen nonce = 12.
Hypothesis Hdigest : zlen digest = 32.
Hypothesis Htail : zlen tail = 3860.
Let object := concat object_fields.

Lemma zlen_magic : zlen CHUNK_MAGIC = 8.
Proof. done. Qed.
Ltac lens :=
  cbn [take concat]; rewrite ?zlen_app, ?zlen_put_u16, ?zlen_put_u32, ?zlen_put_u64, ?zlen_magic,
  ?Htenant, ?Hfamily, ?Hcontent, ?Hobject, ?Hsalt, ?Hnonce, ?Hdigest, ?Htail;
  change (zlen (@nil Z)) with 0; lia.

Lemma object_field n x i j :
  object_fields !! n = Some x → i = zlen (concat (take n object_fields)) → j = i + zlen x →
  slice (E:=PackError) object i j = Ok x.
Proof. intros. apply slice_Ok. by eapply get_range_concat. Qed.
Lemma object_le (k : nat) n v i :
  object_fields !! n = Some (le_bytes k v) → i = zlen (concat (take n object_fields)) →
  0 ≤ v < 256 ^ Z.of_nat k → get_le (E:=PackError) k object i = Ok v.
Proof.
  intros Hn Hi Hv. unfold get_le. rewrite (object_field n (le_bytes k v)); [|done..|by rewrite zlen_le_bytes].
  cbn [mbind outcome_bind]. rewrite to_array_ok by apply zlen_le_bytes.
  cbn [mbind outcome_bind]. by rewrite le_val_le_bytes_small.
Qed.
Ltac read n := unfold object_fields in *; eapply (object_field n); [reflexivity|unfold object_fields; lens..].
Ltac read_le n := eapply (object_le _ n); [reflexivity|unfold object_fields; lens|].

Lemma zlen_object : zlen object = 4096 + zlen payload + zlen pad.
Proof. unfold object, object_fields. lens. Qed.

Lemma object_contract :
  slice (E:=PackError) object 0 8 = Ok CHUNK_MAGIC ∧ get_u16 (E:=PackError) object 8 = Ok WIRE_VERSION ∧
  get_u16 (E:=PackError) object 10 = Ok CHUNK_HEADER_BYTES ∧ get_u32 (E:=PackError) object 12 = Ok ALIGNMENT.
Proof.
  split_and!; [read 0%nat|..]; [read_le 1%nat|read_le 2%nat|read_le 3%nat]; by split.
Qed.
Lemma object_numbers :
  in_u32 flags → in_u16 codec → in_u16 version → in_u32 plain → in_u32 enc →
  in_u32 payload_len → in_u32 object_len → in_u64 epoch →
  get_u32 (E:=PackError) object 16 = Ok flags ∧ get_u16 (E:=PackError) object 20 = Ok codec ∧
  get_u16 (E:=PackError) object 22 = Ok version ∧ get_u32 (E:=PackError) object 24 = Ok plain ∧
  get_u32 (E:=PackError) object 28 = Ok enc ∧ get_u32 (E:=PackError) object 32 = Ok payload_len ∧
  get_u32 (E:=PackError) object 36 = Ok object_len ∧ get_u64 (E:=PackError) object 40 = Ok epoch.
Proof.
  intros. split_and!; [read_le 4%nat|read_le 5%nat|read_le 6%nat|read_le 7%nat|read_le 8%nat
    |read_le 9%nat|read_le 10%nat|read_le 11%nat]; done.
Qed.
Lemma object_identities :
  slice (E:=PackError) object 48 80 = Ok tenant ∧ slice (E:=PackError) object 80 112 = Ok family ∧
  slice (E:=PackError) object 112 144 = Ok content ∧ slice (E:=PackError) object 144 176 = Ok object_key ∧
  slice (E:=PackError) object 176 192 = Ok salt ∧ slice (E:=PackError) object 192 204 = Ok nonce ∧
  slice (E:=PackError) object 176 204 = Ok (salt ++ nonce).
Proof.
  split_and!; [read 12%nat|read 13%nat|read 14%nat|read 15%nat|read 16%nat|read 17%nat|].
  apply slice_Ok. unfold object, object_fields. cbn [concat].
  rewrite (app_assoc salt nonce).
  set (rest := digest ++ _). repeat rewrite app_assoc. rewrite <- (app_assoc _ salt nonce).
  rewrite <- (app_assoc _ (salt ++ nonce) rest). apply get_range_app; lens.
Qed.

Definition object_header : bytes := concat (take 18 object_fields) ++ digest ++ tail.
Lemma zlen_header_front : zlen (concat (take 18 object_fields)) = 204.
Proof. unfold object_fields. lens. Qed.
Lemma object_split : object = object_header ++ payload ++ pad.
Proof.
  unfold object, object_header, object_fields. cbn [take concat]. rewrite !app_nil_r, <- !app_assoc. done.
Qed.
Lemma zlen_object_header : zlen object_header = 4096.
Proof. unfold object_header. rewrite zlen_app, zlen_header_front. lens. Qed.
Lemma object_slices :
  slice (E:=PackError) object 0 CHUNK_HEADER_BYTES = Ok object_header ∧
  slice (E:=PackError) object CHUNK_HEADER_BYTES (CHUNK_HEADER_BYTES + zlen payload) = Ok payload ∧
  slice (E:=PackError) object (CHUNK_HEADER_BYTES + zlen payload) (zlen object) = Ok pad ∧
  slice (E:=PackError) object CHUNK_HEADER_SIDECAR_OFFSET CHUNK_HEADER_BYTES = Ok tail.
Proof.
  pose proof zlen_object_header as Hh. pose proof zlen_object as Ho.
  unfold CHUNK_HEADER_BYTES, ALIGNMENT, CHUNK_HEADER_SIDECAR_OFFSET.
  split_and!; apply slice_Ok.
  - rewrite object_split. apply (get_range_app [] object_header (payload ++ pad)); [done|].
    rewrite Hh. done.
  - rewrite object_split. apply get_range_app; lia.
  - rewrite Ho, object_split, app_assoc, <- (app_nil_r pad) at 1. apply get_range_app; rewrite zlen_app; lia.
  - rewrite object_split. unfold object_header. rewrite <- !app_assoc, (app_assoc _ digest).
    apply get_range_app; rewrite zlen_app, zlen_header_front; lia.
Qed.
Lemma object_digest_field :
  slice (E:=PackError) object_header HEADER_DIGEST_OFFSET (HEADER_DIGEST_OFFSET + 32) = Ok digest ∧
  write (E:=PackError) object_header HEADER_DIGEST_OFFSET (zeros 32) =
  Ok (concat (take 18 object_fields) ++ zeros 32 ++ tail).
Proof.
  pose proof zlen_header_front as Hf. unfold HEADER_DIGEST_OFFSET, object_header. split.
  - apply slice_Ok, get_range_app; lia.
  - rewrite write_Ok; [by rewrite patch_app|lia|]. change (zlen (zeros 32)) with 32.
    rewrite !zlen_app. lia.
Qed.
End layout.

(** ** Round trip *)
Section roundtrip.
Context `{CL : CryptoLaws}.

Definition random_ok (encrypt : bool) (fill_salt fill_nonce : option bytes) : Prop :=
  encrypt = true →
  ∃ salt nonce, fill_salt = Some salt ∧ fill_nonce = Some nonce ∧ zlen salt = 16 ∧ zlen nonce = 12.
(** What a caller passes: Rust's types, a nonzero epoch, a span that matches,
a family in canonical order that contains the state, at codec version 1. *)
Record encoding_ok (plaintext : bytes) (e : ChunkEncoding) (state : FamilyState) : Prop := {
  eo_tenant : id_ok (ce_tenant_namespace e);
  eo_family : RepresentationFamilyId_ok (ce_family e);
  eo_sorted : StronglySorted key_lt (fs_key <$> family_states (ce_family e));
  eo_state : state ∈ family_states (ce_family e);
  eo_key : ce_state_key e = fs_key state;
  eo_version : fs_codec_version state = 1;
  eo_epoch : in_u64 (ce_key_epoch e) ∧ ce_key_epoch e ≠ 0;
  eo_span : cs_plaintext_bytes (ce_span e) = zlen plaintext ∧ cs_token_count (ce_span e) ≠ 0;
  eo_plaintext : bytes_ok plaintext ∧ 0 < zlen plaintext ≤ MAX_CHUNK_PLAINTEXT;
  eo_sidecar : ∀ s, ce_stats_sidecar e = Some s → sidecar_ok s
}.

Definition flag_word (encrypt : bool) : Z := if encrypt then FLAG_ENCRYPTED else 0.
(** The header tail: the sidecar with its length, padded with zeros. *)
Definition header_tail (sidecar : option bytes) : bytes :=
  sidecar_field sidecar ++ zeros (3860 - zlen (sidecar_field sidecar)).

Lemma encode_sidecar_total e plaintext state :
  encoding_ok plaintext e state →
  ∃ sc, encode_sidecar (ce_stats_sidecar e) = Ok sc ∧
  match ce_stats_sidecar e, sc with
  | Some s, Some b => stats_encode_canonical s = Ok b ∧ bytes_ok b ∧ 0 < zlen b ≤ MAX_STATS_SIDECAR_BYTES
  | None, None => True
  | _, _ => False
  end.
Proof.
  intros He. unfold encode_sidecar. destruct (ce_stats_sidecar e) as [s|] eqn:Hs; [|by exists None].
  destruct (eo_sidecar _ _ _ He s Hs) as (Hf & _). destruct (stats_encode_total s Hf) as (b & Hb & Hok).
  destruct (stats_encode_size s b Hf Hb). rewrite Hb. cbn [mbind outcome_bind].
  rewrite (proj2 (orb_false_iff _ _)) by (split; guard_false). exists (Some b). split; [done|]. split_and!; try done; lia.
Qed.
Lemma zlen_header_tail sc :
  (∀ b, sc = Some b → zlen b ≤ MAX_STATS_SIDECAR_BYTES) → zlen (header_tail sc) = 3860.
Proof.
  intros Hb. unfold header_tail. change MAX_STATS_SIDECAR_BYTES with 3858 in Hb.
  assert (zlen (sidecar_field sc) ≤ 3860).
  { destruct sc as [b|]; cbn [sidecar_field]; [|change (zlen (@nil Z)) with 0; lia].
    rewrite zlen_app, zlen_put_u16. specialize (Hb b eq_refl). lia. }
  rewrite zlen_app, zlen_zeros by lia. lia.
Qed.

(** The content identity the decoder will derive again. *)
Lemma chunk_id_total e plaintext state key :
  encoding_ok plaintext e state →
  ∃ id, chunk_id key (ce_tenant_namespace e) (ce_family e) (ce_state_key e) (ce_span e) plaintext = Ok id ∧ id_ok id.
Proof.
  intros He. destruct (eo_span _ _ _ He) as [Hs Hc], (eo_plaintext _ _ _ He) as [_ Hl].
  destruct (representation_family_id_total _ (eo_family _ _ _ He)) as (fam & Hf & _).
  unfold chunk_id. rewrite Hs, Z.eqb_refl, (proj2 (Z.eqb_neq _ _)) by done. cbn [negb orb]. rewrite Hf.
  cbn [mbind outcome_bind]. assert (zlen (state_name (ce_state_key e)) < u16_bound) as Hn.
  { rewrite (eo_key _ _ _ He). destruct (eo_family _ _ _ He) as (_ & _ & _ & _ & _ & Hall).
    rewrite list.Forall_forall in Hall. destruct (Hall _ (eo_state _ _ _ He)) as ((_ & Hn & _) & _). done. }
  rewrite !try_from_ok; [|done|unfold MAX_CHUNK_PLAINTEXT, u32_bound in *; lia].
  eexists. split; [done|]. apply hmac_id.
Qed.

(** Everything the encoder computes on the way, and the object it returns. *)
Record chunk_run (plaintext : bytes) (e : ChunkEncoding) (state : FamilyState)
  (keys : KeySchedule) (o : ChunkObject) := {
  cx_family : bytes;
  cx_sidecar : option bytes;
  cx_salt : bytes;
  cx_nonce : bytes;
  cx_encoded : bytes;
  cx_payload : bytes;
  cx_digest : bytes;
  cx_object_len : Z;
  cx_content := co_chunk_id o;
  cx_object_key := co_object_key o;
  cx_fields := object_fields (flag_word (ce_encrypt e)) (Codec_wire (fs_codec state)) 1
  (zlen plaintext) (zlen cx_encoded) (zlen cx_payload) cx_object_len (ce_key_epoch e)
  (ce_tenant_namespace e) cx_family cx_content cx_object_key cx_salt cx_nonce cx_digest
  (header_tail cx_sidecar) cx_payload
  (zeros (cx_object_len - (4096 + zlen cx_payload)));
  cx_header := concat (take 18 cx_fields) ++ cx_digest ++ header_tail cx_sidecar;
  cx_family_eq : representation_family_id (ce_family e) = Ok cx_family;
  cx_content_eq : chunk_id (ks_chunk_identity keys) (ce_tenant_namespace e) (ce_family e)
  (ce_state_key e) (ce_span e) plaintext = Ok cx_content;
  cx_lengths : zlen cx_family = 32 ∧ zlen cx_content = 32 ∧ zlen cx_object_key = 32 ∧
  zlen cx_salt = 16 ∧ zlen cx_nonce = 12 ∧ zlen cx_digest = 32 ∧
  zlen (header_tail cx_sidecar) = 3860;
  cx_plain_random : ce_encrypt e = false → any_nonzero (cx_salt ++ cx_nonce) = false;
  cx_sidecar_eq : match ce_stats_sidecar e, cx_sidecar with
  | Some s, Some b => stats_encode_canonical s = Ok b ∧ bytes_ok b ∧ 0 < zlen b ≤ MAX_STATS_SIDECAR_BYTES
  | None, None => True
  | _, _ => False
  end;
  cx_frame : encode_codec_frame (fs_codec state) plaintext = Ok cx_encoded;
  cx_frame_len : CODEC_FRAME_HEADER_BYTES ≤ zlen cx_encoded ≤ MAX_CHUNK_PLAINTEXT + MAX_CODEC_OVERHEAD;
  cx_object_key_eq : cx_object_key = derive_object_key keys
  (mkObjectIdentity (ce_tenant_namespace e) cx_family cx_content (ce_key_epoch e)
     (fs_codec state) 1 (ce_encrypt e) cx_salt cx_nonce (sha256_digest <$> cx_sidecar));
  cx_digest_eq : cx_digest =
  sha256_digest (concat (take 18 cx_fields) ++ zeros 32 ++ header_tail cx_sidecar);
  cx_seal : seal_payload keys (ce_encrypt e) cx_content cx_object_key cx_salt cx_nonce
  cx_header cx_encoded = Ok cx_payload;
  cx_payload_len : zlen cx_payload = zlen cx_encoded + (if ce_encrypt e then 16 else 0);
  cx_object_len_eq : cx_object_len = (4096 + zlen cx_payload + 4095) / 4096 * 4096 ∧
  cx_object_len ≤ MAX_CHUNK_OBJECT_BYTES;
  cx_bytes : co_bytes o = concat cx_fields;
  cx_object_digest : co_object_digest o = sha256_digest (concat cx_fields);
  cx_plain : co_plaintext_bytes o = zlen plaintext
}.

Lemma any_nonzero_zeros n : any_nonzero (zeros n) = false.
Proof. unfold any_nonzero. by rewrite all_zero_zeros. Qed.

Lemma chunk_random_total encrypt fill_salt fill_nonce :
  random_ok encrypt fill_salt fill_nonce →
  ∃ salt nonce, chunk_random encrypt fill_salt fill_nonce = Ok (salt, nonce) ∧
  zlen salt = 16 ∧ zlen nonce = 12 ∧ (encrypt = false → any_nonzero (salt ++ nonce) = false).
Proof.
  intros Hr. unfold chunk_random. destruct encrypt.
  - destruct Hr as (salt & nonce & -> & -> & ? & ?); [done|]. exists salt, nonce. by split_and!.
  - exists (zeros 16), (zeros 12). split_and!; try done.
Qed.
Lemma seal_payload_total keys encrypt content object_key salt nonce header encoded :
  bytes_ok encoded → slice_len_ok encoded →
  ∃ payload, seal_payload keys encrypt content object_key salt nonce header encoded = Ok payload ∧
  zlen payload = zlen encoded + (if encrypt then 16 else 0).
Proof.
  intros Hb Hl. unfold seal_payload. destruct encrypt; [|exists encoded; split; [done|lia]].
  unfold derive_encryption_key. destruct (hkdf_id salt (ks_chunk_encryption keys)
    (label "kvpack/v1/chunk-aead" ++ content ++ object_key)) as (k & -> & _).
  destruct (aead_total k nonce encoded header Hb Hl) as (c & Hc & _ & Hlc).
  cbn [ok_or mbind outcome_bind]. rewrite Hc. by exists c.
Qed.
Lemma encode_codec_frame_bytes c p f : bytes_ok p → encode_codec_frame c p = Ok f → bytes_ok f.
Proof.
  intros Hp [_ ->]%encode_codec_frame_Ok. unfold frame_prefix. rewrite !bytes_ok_app.
  split_and!; auto with bytes.
  - destruct c; by apply bytes_okb_ok.
  - destruct c; [done|]. by apply rle_encode_bytes.
Qed.

Lemma zlen_header_fields e codec v a b c d fam content okey salt nonce :
  zlen (ce_tenant_namespace e) = 32 → zlen fam = 32 → zlen content = 32 → zlen okey = 32 →
  zlen salt = 16 → zlen nonce = 12 →
  zlen (concat (header_fields e codec v a b c d fam content okey salt nonce)) = 236.
Proof.
  intros. unfold header_fields, put_enum. cbn [concat].
  rewrite !zlen_app, !zlen_put_u16, !zlen_put_u32, !zlen_put_u64, zlen_zeros, zlen_magic by done.
  change (zlen (@nil Z)) with 0. lia.
Qed.
(** The header before its digest is filled in. *)
Lemma blank_header_eq e codec a b c d fam content okey salt nonce sc digest payload pad :
  zlen (ce_tenant_namespace e) = 32 → zlen fam = 32 → zlen content = 32 → zlen okey = 32 →
  zlen salt = 16 → zlen nonce = 12 → zlen (header_tail sc) = 3860 →
  vec_resize (concat (header_fields e codec 1 a b c d fam content okey salt nonce) ++ sidecar_field sc)
  CHUNK_HEADER_BYTES =
  concat (take 18 (object_fields (flag_word (ce_encrypt e)) (Codec_wire codec) 1 a b c d
  (ce_key_epoch e) (ce_tenant_namespace e) fam content okey salt nonce digest (header_tail sc)
  payload pad)) ++ zeros 32 ++ header_tail sc.
Proof.
  intros. pose proof (zlen_header_fields e codec 1 a b c d fam content okey salt nonce) as Hl.
  unfold header_tail in *. rewrite zlen_app in *.
  assert (zlen (sidecar_field sc) ≤ 3860) as Hs.
  { pose proof (zlen_nonneg (zeros (3860 - zlen (sidecar_field sc)))). lia. }
  rewrite vec_resize_grow by (rewrite zlen_app, Hl by done; unfold CHUNK_HEADER_BYTES, ALIGNMENT; lia).
  rewrite zlen_app, Hl by done. unfold CHUNK_HEADER_BYTES, ALIGNMENT.
  replace (4096 - (236 + zlen (sidecar_field sc))) with (3860 - zlen (sidecar_field sc)) by lia.
  unfold header_fields, object_fields, flag_word, put_enum. cbn [take concat].
  rewrite !app_nil_r, <- !app_assoc. done.
Qed.

(** The encoder's intermediate values, and what it returns in terms of them. *)
Section run.
Context (plaintext : bytes) (e : ChunkEncoding) (state : FamilyState) (keys : KeySchedule).
Context (fill_salt fill_nonce : option bytes) (fam content salt nonce encoded payload : bytes).
Context (sc : option bytes).
Hypothesis He : encoding_ok plaintext e state.
Hypothesis Ef : representation_family_id (ce_family e) = Ok fam.
Hypothesis Ec : chunk_id (ks_chunk_identity keys) (ce_tenant_namespace e) (ce_family e)
          (ce_state_key e) (ce_span e) plaintext = Ok content.
Hypothesis Er : chunk_random (ce_encrypt e) fill_salt fill_nonce = Ok (salt, nonce).
Hypothesis Es : encode_sidecar (ce_stats_sidecar e) = Ok sc.
Hypothesis Ee : encode_codec_frame (fs_codec state) plaintext = Ok encoded.
Hypothesis Ls : zlen salt = 16.
Hypothesis Ln : zlen nonce = 12.
Hypothesis Lt : zlen (header_tail sc) = 3860.
Hypothesis Le : CODEC_FRAME_HEADER_BYTES ≤ zlen encoded ≤ MAX_CHUNK_PLAINTEXT + MAX_CODEC_OVERHEAD.
Let okey := derive_object_key keys (mkObjectIdentity (ce_tenant_namespace e) fam content
  (ce_key_epoch e) (fs_codec state) 1 (ce_encrypt e) salt nonce (sha256_digest <$> sc)).
Let plen := zlen encoded + (if ce_encrypt e then 16 else 0).
Let olen := (4096 + plen + 4095) / 4096 * 4096.
Let fields (digest payload pad : bytes) := object_fields (flag_word (ce_encrypt e))
  (Codec_wire (fs_codec state)) 1 (zlen plaintext) (zlen encoded) plen olen (ce_key_epoch e)
  (ce_tenant_namespace e) fam content okey salt nonce digest (header_tail sc) payload pad.
Let front := concat (take 18 (fields [] [] [])).
Let digest := sha256_digest (front ++ zeros 32 ++ header_tail sc).
Let header := front ++ digest ++ header_tail sc.
Hypothesis Ep : seal_payload keys (ce_encrypt e) content okey salt nonce header encoded = Ok payload.
Hypothesis Lp : zlen payload = plen.

Lemma run_lengths :
  zlen (ce_tenant_namespace e) = 32 ∧ zlen fam = 32 ∧ zlen content = 32 ∧ zlen okey = 32 ∧
  zlen digest = 32 ∧ zlen front = 204 ∧ zlen header = 4096.
Proof.
  destruct (eo_tenant _ _ _ He) as [Ht _].
  destruct (representation_family_id_ok _ _ Ef) as [Lf _].
  assert (zlen content = 32) as Lc.
  { apply chunk_id_Ok in Ec as (? & _ & _ & _ & _ & _ & ->). apply hmac_id. }
  assert (zlen okey = 32) as Lo by apply hmac_id.
  assert (zlen digest = 32) as Ld by apply sha256_id.
  assert (zlen front = 204) as Lb by by apply zlen_header_front.
  split_and!; try done. unfold header. rewrite !zlen_app, Lb, Ld, Lt. done.
Qed.
Lemma run_sizes : 16 ≤ plen < 4259841 ∧ 4096 + plen ≤ olen < 4096 + plen + 4096 ∧
  olen mod 4096 = 0 ∧ olen ≤ MAX_CHUNK_OBJECT_BYTES.
Proof.
  assert (MAX_CHUNK_PLAINTEXT + MAX_CODEC_OVERHEAD + 16 < 4259841) by done.
  assert (16 ≤ plen < 4259841) as Hp.
  { unfold CODEC_FRAME_HEADER_BYTES in Le. unfold plen. destruct (ce_encrypt e); lia. }
  pose proof (align_bounds (4096 + plen) ltac:(lia)) as [Ha Hm]. fold olen in Ha, Hm.
  split_and!; try done; try lia.
  assert (plen ≤ MAX_CHUNK_PLAINTEXT + MAX_CODEC_OVERHEAD + 16) by (unfold plen; destruct (ce_encrypt e); lia).
  unfold MAX_CHUNK_OBJECT_BYTES, CHUNK_HEADER_BYTES, ALIGNMENT. lia.
Qed.

Lemma encode_chunk_eq :
    encode_chunk plaintext e keys fill_salt fill_nonce =
    Ok (mkChunkObject content okey (sha256_digest (vec_resize (header ++ payload) olen))
  (zlen plaintext) (vec_resize (header ++ payload) olen)).
Proof.
  destruct run_lengths as (Ht & Lf & Lc & Lo & Ld & Lb & _). destruct run_sizes as (Hp & Ho & _ & Hm).
  destruct He as [_ _ Hsort Hin Hkey Hver [_ Hep0] [Hsp Htc] _ _].
  unfold encode_chunk, encode_chunk_with_content_id.
  rewrite (proj2 (Z.eqb_neq _ _) Hep0), Hsp, Z.eqb_refl, (proj2 (Z.eqb_neq _ _) Htc). cbn [negb orb].
  rewrite Hkey, (family_state_found _ _ Hsort Hin). cbn [mbind outcome_bind]. rewrite Hver.
  cbn [negb Z.eqb content_identity]. rewrite Ee. cbn [mbind outcome_bind]. rewrite Ef.
  cbn [mbind outcome_bind]. rewrite Ec. cbn [mbind outcome_bind]. rewrite Er. cbn [mbind outcome_bind].
  rewrite Es. cbn [mbind outcome_bind]. fold okey.
  rewrite (proj2 (checked_add_Some _ _ plen)) by (split; [done|unfold u64_bound; fold plen; lia]).
  cbn [ok_or mbind outcome_bind].
  rewrite (proj2 (checked_add_Some CHUNK_HEADER_BYTES plen (4096 + plen)))
    by (split; [done|unfold u64_bound, CHUNK_HEADER_BYTES, ALIGNMENT; lia]).
  cbn [ok_or mbind outcome_bind]. rewrite align_eq by (unfold u64_bound; lia). cbn [mbind outcome_bind].
  fold olen. rewrite (proj2 (Z.ltb_ge _ _)) by done.
  rewrite (blank_header_eq e (fs_codec state) _ _ _ _ fam content okey salt nonce sc [] [] []) by done.
  fold (fields [] [] []). fold front. fold digest.
  rewrite write_Ok by (rewrite ?zlen_app, ?Lb, ?Ld, ?Lt, ?zlen_zeros by lia; unfold HEADER_DIGEST_OFFSET; lia).
  rewrite patch_app by (rewrite ?Lb, ?Ld, ?zlen_zeros by lia; done).
  cbn [mbind outcome_bind]. fold header. rewrite Ep. done.
Qed.
Lemma run_object_bytes :
  vec_resize (header ++ payload) olen = concat (fields digest payload (zeros (olen - (4096 + plen)))).
Proof.
  destruct run_lengths as (_ & _ & _ & _ & _ & _ & Lh). destruct run_sizes as (Hp & Ho & _ & _).
  rewrite vec_resize_grow by (rewrite zlen_app, Lh, Lp; lia). rewrite zlen_app, Lh, Lp.
  unfold fields. rewrite object_split, <- app_assoc. done.
Qed.
Definition chunk_run_of_parts (Hsc : match ce_stats_sidecar e, sc with
  | Some s, Some b => stats_encode_canonical s = Ok b ∧ bytes_ok b ∧ 0 < zlen b ≤ MAX_STATS_SIDECAR_BYTES
  | None, None => True
  | _, _ => False
  end) (Hz : ce_encrypt e = false → any_nonzero (salt ++ nonce) = false) :
    ∃ o, encode_chunk plaintext e keys fill_salt fill_nonce = Ok o ∧
  inhabited (chunk_run plaintext e state keys o).
Proof.
  destruct run_lengths as (Ht & Lf & Lc & Lo & Ld & Lb & Lh). destruct run_sizes as (Hp & Ho & Hm & Hb).
  eexists. split; [apply encode_chunk_eq|]. constructor. rewrite run_object_bytes.
  unshelve eapply (Build_chunk_run plaintext e state keys _ fam sc salt nonce encoded payload digest olen);
    cbn [co_chunk_id co_object_key co_bytes co_object_digest]; rewrite ?Lp; try done.
Qed.
End run.

Lemma encode_chunk_run plaintext e state keys fill_salt fill_nonce :
  encoding_ok plaintext e state → random_ok (ce_encrypt e) fill_salt fill_nonce →
  ∃ o, encode_chunk plaintext e keys fill_salt fill_nonce = Ok o ∧
  inhabited (chunk_run plaintext e state keys o).
Proof.
  intros He Hr. pose proof (eo_plaintext _ _ _ He) as [Hpb Hpl].
  destruct (representation_family_id_total _ (eo_family _ _ _ He)) as (fam & Ef & [Lf _]).
  destruct (chunk_id_total e plaintext state (ks_chunk_identity keys) He) as (content & Ec & [Lc _]).
  destruct (chunk_random_total _ _ _ Hr) as (salt & nonce & Er & Ls & Ln & Hz).
  destruct (encode_sidecar_total e plaintext state He) as (sc & Es & Hsc).
  destruct (encode_codec_frame_eq (fs_codec state) plaintext Hpl) as [Ee Hsz].
  set (encoded := frame_prefix _ _ ++ _) in *.
  assert (CODEC_FRAME_HEADER_BYTES ≤ zlen encoded ≤ MAX_CHUNK_PLAINTEXT + MAX_CODEC_OVERHEAD) as Le.
  { unfold encoded. rewrite zlen_app, zlen_frame_prefix. unfold MAX_CODEC_OVERHEAD, CODEC_FRAME_HEADER_BYTES.
    pose proof (zlen_nonneg (frame_payload (fs_codec state) plaintext)). lia. }
  assert (zlen (header_tail sc) = 3860) as Lt.
  { apply zlen_header_tail. intros b ->. destruct (ce_stats_sidecar e); [|done]. lia. }
  edestruct seal_payload_total as (payload & Ep & Lp).
  { by eapply encode_codec_frame_bytes. }
  { unfold slice_len_ok. assert (MAX_CHUNK_PLAINTEXT + MAX_CODEC_OVERHEAD < 9223372036854775808) by done. lia. }
  eapply (chunk_run_of_parts plaintext e state keys fill_salt fill_nonce fam content salt nonce encoded payload sc);
    try done; exact Ep.
Qed.

(** ** Decoding what was encoded *)
Section decode_run.
Context (plaintext : bytes) (e : ChunkEncoding) (state : FamilyState) (keys : KeySchedule).
Context (o : ChunkObject) (He : encoding_ok plaintext e state).
Context (R : chunk_run plaintext e state keys o).
Let encoded := cx_encoded _ _ _ _ _ R.
Let payload := cx_payload _ _ _ _ _ R.
Let fam := cx_family _ _ _ _ _ R.
Let sc := cx_sidecar _ _ _ _ _ R.
Let fields := cx_fields _ _ _ _ _ R.
Let object := concat fields.
Let framing := mkChunkFraming (fs_codec state) 1 (zlen plaintext) (zlen encoded) (ce_encrypt e)
  (CHUNK_HEADER_BYTES + zlen payload).

Ltac lengths := destruct (cx_lengths _ _ _ _ _ R) as (Lf & Lc & Lo & Ls & Ln & Ld & Lt);
  pose proof (proj1 (eo_tenant _ _ _ He)) as Ltn.

Lemma run_object_len :
  zlen object = cx_object_len _ _ _ _ _ R ∧
  4096 + zlen payload ≤ zlen object ≤ MAX_CHUNK_OBJECT_BYTES ∧ zlen object mod 4096 = 0 ∧
  16 ≤ zlen payload.
Proof.
  lengths. destruct (cx_object_len_eq _ _ _ _ _ R) as [Eo Hm]. fold payload in Eo.
  pose proof (zlen_nonneg payload). pose proof (align_bounds (4096 + zlen payload) ltac:(lia)) as [Ha Hb].
  cbv zeta in Ha, Hb. rewrite <- Eo in Ha, Hb.
  assert (zlen object = cx_object_len _ _ _ _ _ R) as El.
  { unfold object, fields, cx_fields. rewrite zlen_object by done. fold payload. rewrite zlen_zeros; lia. }
  rewrite El. pose proof (cx_payload_len _ _ _ _ _ R) as Hp. fold payload in Hp.
  pose proof (cx_frame_len _ _ _ _ _ R) as Hf. unfold CODEC_FRAME_HEADER_BYTES in Hf.
  split_and!; try done; try lia. destruct (ce_encrypt e); lia.
Qed.

Lemma run_numbers :
  get_u32 (E:=PackError) object 16 = Ok (flag_word (ce_encrypt e)) ∧
  get_u16 (E:=PackError) object 20 = Ok (Codec_wire (fs_codec state)) ∧
  get_u16 (E:=PackError) object 22 = Ok 1 ∧ get_u32 (E:=PackError) object 24 = Ok (zlen plaintext) ∧
  get_u32 (E:=PackError) object 28 = Ok (zlen encoded) ∧
  get_u32 (E:=PackError) object 32 = Ok (zlen payload) ∧
  get_u32 (E:=PackError) object 36 = Ok (zlen object) ∧
  get_u64 (E:=PackError) object 40 = Ok (ce_key_epoch e).
Proof.
  lengths. destruct run_object_len as (El & Hb & _ & _). rewrite El in *.
  pose proof (cx_frame_len _ _ _ _ _ R) as Hf. fold encoded in Hf. pose proof (zlen_nonneg encoded).
  pose proof (zlen_nonneg payload). destruct (eo_plaintext _ _ _ He) as [_ Hpl].
  assert (MAX_CHUNK_OBJECT_BYTES < 4294967296) by done.
  assert (MAX_CHUNK_PLAINTEXT + MAX_CODEC_OVERHEAD < 4294967296) by done.
  unfold object, fields, cx_fields. apply object_numbers; try done.
  - destruct (ce_encrypt e); by split.
  - apply wire_u16.
  - unfold MAX_CHUNK_PLAINTEXT in Hpl. range_lia.
  - fold encoded. range_lia.
  - fold payload. range_lia.
  - range_lia.
  - apply (eo_epoch _ _ _ He).
Qed.

Lemma run_framing : parse_chunk_framing object = Ok framing.
Proof.
  lengths. destruct run_object_len as (_ & Hb & Hm & Hp16).
  destruct run_numbers as (N1 & N2 & N3 & N4 & N5 & N6 & N7 & _).
  pose proof (cx_frame_len _ _ _ _ _ R) as Hf. fold encoded in Hf.
  pose proof (cx_payload_len _ _ _ _ _ R) as Hpl. fold payload encoded in Hpl.
  destruct (eo_plaintext _ _ _ He) as [_ Hpt].
  assert (slice (E:=PackError) object 0 8 = Ok CHUNK_MAGIC ∧ get_u16 (E:=PackError) object 8 = Ok WIRE_VERSION ∧
    get_u16 (E:=PackError) object 10 = Ok CHUNK_HEADER_BYTES ∧ get_u32 (E:=PackError) object 12 = Ok ALIGNMENT)
    as (M1 & M2 & M3 & M4) by by apply object_contract.
  assert (slice (E:=PackError) object (CHUNK_HEADER_BYTES + zlen payload) (zlen object) =
    Ok (zeros (cx_object_len _ _ _ _ _ R - (4096 + zlen payload)))) as Hpad by by apply object_slices.
  unfold parse_chunk_framing.
  rewrite (proj2 (orb_false_iff _ _)) by (split; [unfold CHUNK_HEADER_BYTES, ALIGNMENT; guard_false|guard_false]).
  rewrite M1. cbn [mbind outcome_bind]. rewrite bytes_eqb_refl. cbn [negb].
  rewrite M2, M3, M4. cbn [mbind outcome_bind]. rewrite !Z.eqb_refl. cbn [negb orb].
  rewrite N1. cbn [mbind outcome_bind].
  assert (Z.land (flag_word (ce_encrypt e)) (Z.ldiff (u32_bound - 1) KNOWN_FLAGS) = 0) as ->
    by by destruct (ce_encrypt e).
  cbn [negb Z.eqb]. rewrite N2. cbn [mbind outcome_bind]. rewrite from_wire_wire. cbn [mbind outcome_bind].
  rewrite N3. cbn [mbind outcome_bind negb Z.eqb Pos.eqb]. rewrite N4, N5, N6, N7. cbn [mbind outcome_bind].
  rewrite (proj2 (orb_false_iff _ _)) by (split; guard_false).
  assert (negb (Z.land (flag_word (ce_encrypt e)) FLAG_ENCRYPTED =? 0) = ce_encrypt e) as ->
    by by destruct (ce_encrypt e).
  rewrite <- Hpl, Z.eqb_refl. cbn [negb].
  rewrite (proj2 (checked_add_Some CHUNK_HEADER_BYTES (zlen payload) (CHUNK_HEADER_BYTES + zlen payload))).
  2: { split; [done|]. assert (MAX_CHUNK_OBJECT_BYTES < 4294967296) by done.
    unfold u64_bound, CHUNK_HEADER_BYTES, ALIGNMENT. lia. }
  cbn [ok_or mbind outcome_bind].
  rewrite (proj2 (Z.ltb_ge _ _)) by (unfold CHUNK_HEADER_BYTES, ALIGNMENT; lia).
  rewrite Hpad. cbn [mbind outcome_bind]. by rewrite any_nonzero_zeros.
Qed.

Lemma run_sidecar :
    parse_chunk_sidecar object = Ok (match ce_stats_sidecar e, sc with
  | Some s, Some b => Some (s, sha256_digest b) | _, _ => None end).
Proof.
  lengths. assert (slice (E:=PackError) object CHUNK_HEADER_SIDECAR_OFFSET CHUNK_HEADER_BYTES =
    Ok (header_tail sc)) as Htail by by apply object_slices.
  pose proof (cx_sidecar_eq _ _ _ _ _ R) as Hsc. fold sc in Hsc, Lt.
  assert (∃ pre post, object = pre ++ header_tail sc ++ post ∧ zlen pre = 236) as (pre & post & Eo & Lpre).
  { unfold object, fields, cx_fields. rewrite object_split. unfold object_header.
    eexists (concat (take 18 _) ++ cx_digest _ _ _ _ _ R), _. rewrite <- !app_assoc. split; [done|].
    rewrite zlen_app, zlen_header_front, Ld by done. done. }
  unfold parse_chunk_sidecar. unfold CHUNK_HEADER_SIDECAR_OFFSET, CHUNK_HEADER_BYTES, ALIGNMENT in *.
  destruct (ce_stats_sidecar e) as [s|] eqn:Es, sc as [b|] eqn:Eb; try done.
  - destruct Hsc as (Henc & Hb & Hl). unfold MAX_STATS_SIDECAR_BYTES, CHUNK_HEADER_BYTES, ALIGNMENT, CHUNK_HEADER_SIDECAR_OFFSET in *.
    assert (object = pre ++ put_u16 (zlen b) ++ b ++ zeros (3860 - zlen (sidecar_field (Some b))) ++ post) as Eo'.
    { rewrite Eo. unfold header_tail. cbn [sidecar_field]. by rewrite <- !app_assoc. }
    assert (get_u16 (E:=PackError) object 236 = Ok (zlen b)) as ->.
    { rewrite Eo'. apply get_le_app; [done|]. change (256 ^ Z.of_nat 2) with 65536. lia. }
    cbn [mbind outcome_bind]. rewrite (proj2 (Z.eqb_neq (zlen b) 0)) by lia. cbn [negb].
    rewrite (proj2 (Z.ltb_ge _ _)) by lia.
    assert (slice (E:=PackError) object (236 + 2) (236 + 2 + zlen b) = Ok b) as ->.
    { rewrite Eo', app_assoc. apply slice_Ok, get_range_app; rewrite zlen_app, zlen_put_u16; lia. }
    cbn [mbind outcome_bind]. rewrite (stats_decode_encode s b) by (done || by eapply (eo_sidecar _ _ _ He)).
    cbn [mbind outcome_bind].
    assert (slice (E:=PackError) object (236 + 2 + zlen b) 4096 = Ok (zeros (3860 - zlen (sidecar_field (Some b))))) as ->.
    { rewrite Eo', !app_assoc, <- (app_assoc _ _ post).
      assert (zlen (sidecar_field (Some b)) = 2 + zlen b) as Lsf by (cbn [sidecar_field]; by rewrite zlen_app, zlen_put_u16).
      apply slice_Ok, get_range_app; rewrite !zlen_app, zlen_put_u16, ?zlen_zeros; lia. }
    cbn [mbind outcome_bind]. by rewrite any_nonzero_zeros.
  - assert (header_tail None = zeros 3860) as Ez by done.
    assert (get_u16 (E:=PackError) object 236 = Ok 0) as ->.
    { rewrite Eo, Ez. change (zeros 3860) with (le_bytes 2 0 ++ zeros 3858). rewrite <- app_assoc.
      apply get_le_app; [done|]. by split. }
    cbn [mbind outcome_bind negb Z.eqb]. rewrite Htail. cbn [mbind outcome_bind].
    rewrite Ez. by rewrite any_nonzero_zeros.
Qed.

(** The reference a manifest keeps for the object. *)
Definition chunk_ref_of (o : ChunkObject) (epoch : Z) : ChunkRef :=
    mkChunkRef (co_chunk_id o) (co_object_key o) (co_object_digest o) epoch
  (co_plaintext_bytes o) (zlen (co_bytes o)).

Lemma run_digests : verify_chunk_digests object (co_object_digest o) = Ok tt.
Proof.
  lengths. unfold verify_chunk_digests. rewrite (cx_object_digest _ _ _ _ _ R). fold fields. fold object.
  rewrite bytes_eqb_refl. cbn [negb].
  assert (slice (E:=PackError) object 0 CHUNK_HEADER_BYTES = Ok (cx_header _ _ _ _ _ R)) as -> by by apply object_slices.
  cbn [mbind outcome_bind].
  change (cx_header _ _ _ _ _ R) with (concat (take 18 fields) ++ cx_digest _ _ _ _ _ R ++ header_tail sc).
  assert (zlen (concat (take 18 fields)) = 204) as Lfr by by apply zlen_header_front.
  assert (slice (E:=PackError) (concat (take 18 fields) ++ cx_digest _ _ _ _ _ R ++ header_tail sc)
    HEADER_DIGEST_OFFSET (HEADER_DIGEST_OFFSET + 32) = Ok (cx_digest _ _ _ _ _ R)) as ->.
  { apply slice_Ok, get_range_app; unfold HEADER_DIGEST_OFFSET; lia. }
  cbn [mbind outcome_bind]. fold sc in Lt. rewrite write_Ok.
  2: by unfold HEADER_DIGEST_OFFSET. 2: rewrite !zlen_app, zlen_zeros by done; unfold HEADER_DIGEST_OFFSET; lia.
  rewrite patch_app by (done || by rewrite zlen_zeros). cbn [mbind outcome_bind].
  unfold fields, sc. by rewrite <- (cx_digest_eq _ _ _ _ _ R), bytes_eqb_refl.
Qed.
Lemma run_identity :
    check_chunk_identity object framing (sha256_digest <$> sc) (chunk_ref_of o (ce_key_epoch e))
  (ce_tenant_namespace e) (ce_family e) (ce_state_key e) keys =
    Ok (ce_tenant_namespace e, co_chunk_id o, co_object_key o, cx_salt _ _ _ _ _ R, cx_nonce _ _ _ _ _ R).
Proof.
  lengths. unfold check_chunk_identity.
  rewrite (eo_key _ _ _ He), (family_state_found _ _ (eo_sorted _ _ _ He) (eo_state _ _ _ He)).
  cbn [mbind outcome_bind cf_codec cf_codec_version framing].
  rewrite bool_decide_true, (eo_version _ _ _ He) by done. cbn [negb orb Z.eqb Pos.eqb].
  destruct run_numbers as (_ & _ & _ & _ & _ & _ & _ & N8).
  assert (slice (E:=PackError) object 48 80 = Ok (ce_tenant_namespace e) ∧
    slice (E:=PackError) object 80 112 = Ok fam ∧ slice (E:=PackError) object 112 144 = Ok (co_chunk_id o) ∧
    slice (E:=PackError) object 144 176 = Ok (co_object_key o) ∧
    slice (E:=PackError) object 176 192 = Ok (cx_salt _ _ _ _ _ R) ∧
    slice (E:=PackError) object 192 204 = Ok (cx_nonce _ _ _ _ _ R)) as (I1 & I2 & I3 & I4 & I5 & I6)
    by (split_and!; by apply object_identities).
  rewrite I1, I2, (cx_family_eq _ _ _ _ _ R), N8. cbn [mbind outcome_bind]. fold fam.
  rewrite !bytes_eqb_refl. cbn [chunk_ref_of cr_key_epoch cr_chunk_id cr_object_key].
  rewrite Z.eqb_refl. cbn [negb orb]. rewrite I3, I4, I5, I6. cbn [mbind outcome_bind cf_encrypted].
  pose proof (cx_object_key_eq _ _ _ _ _ R) as Hok. unfold cx_content, cx_object_key in Hok. fold fam sc in Hok.
  cbn [cf_encrypted framing]. rewrite <- Hok. by rewrite !bytes_eqb_refl.
Qed.
Lemma run_open :
    open_payload keys object framing (co_chunk_id o) (co_object_key o) (cx_salt _ _ _ _ _ R)
  (cx_nonce _ _ _ _ _ R) = Ok encoded.
Proof.
  lengths. unfold open_payload. cbn [cf_payload_end cf_encrypted framing].
  assert (slice (E:=PackError) object CHUNK_HEADER_BYTES (CHUNK_HEADER_BYTES + zlen payload) = Ok payload)
    as -> by by apply object_slices.
  assert (slice (E:=PackError) object 0 CHUNK_HEADER_BYTES = Ok (cx_header _ _ _ _ _ R)) as Hh by by apply object_slices.
  cbn [mbind outcome_bind]. pose proof (cx_seal _ _ _ _ _ R) as Hseal. unfold seal_payload in Hseal.
  destruct (ce_encrypt e).
  - unfold cx_content, cx_object_key in Hseal. inv_ok.
    match goal with H : derive_encryption_key _ _ _ _ = Ok _ |- _ => rewrite H end.
    cbn [mbind outcome_bind]. rewrite Hh. cbn [mbind outcome_bind].
    match goal with H : aead_encrypt _ _ _ _ = Some _ |- _ => apply aead_open in H; unfold payload; by rewrite H end.
  - apply Ok_inj in Hseal. unfold payload. by rewrite <- Hseal.
Qed.

Lemma decode_chunk_run :
    decode_chunk_with_stats (co_bytes o) (chunk_ref_of o (ce_key_epoch e)) (ce_span e)
  (ce_tenant_namespace e) (ce_family e) (ce_state_key e) keys =
    Ok (plaintext, ce_stats_sidecar e).
Proof.
  rewrite (cx_bytes _ _ _ _ _ R). fold fields. fold object. unfold decode_chunk_with_stats.
  rewrite run_framing. cbn [mbind outcome_bind]. rewrite run_sidecar. cbn [mbind outcome_bind].
  assert (slice (E:=PackError) object 176 204 = Ok (cx_salt _ _ _ _ _ R ++ cx_nonce _ _ _ _ _ R)) as ->.
  { lengths. by apply object_identities. }
  cbn [mbind outcome_bind cf_encrypted framing].
  assert (negb (ce_encrypt e) && any_nonzero (cx_salt _ _ _ _ _ R ++ cx_nonce _ _ _ _ _ R) = false) as ->.
  { destruct (ce_encrypt e) eqn:E; [done|]. by rewrite (cx_plain_random _ _ _ _ _ R E). }
  cbn [chunk_ref_of cr_object_bytes cr_plaintext_bytes cr_object_digest cf_plaintext_bytes].
  rewrite (cx_bytes _ _ _ _ _ R), (cx_plain _ _ _ _ _ R), (proj1 (eo_span _ _ _ He)).
  fold fields. fold object. rewrite !Z.eqb_refl. cbn [negb orb]. rewrite run_digests. cbn [mbind outcome_bind].
  set (st := match ce_stats_sidecar e, sc with Some s, Some b => Some (s, sha256_digest b) | _, _ => None end).
  assert (snd <$> st = sha256_digest <$> sc ∧ fst <$> st = ce_stats_sidecar e) as [-> ->].
  { pose proof (cx_sidecar_eq _ _ _ _ _ R) as Hs. unfold st. fold sc in Hs.
    destruct (ce_stats_sidecar e), sc; done. }
  rewrite run_identity. cbn [mbind outcome_bind]. rewrite run_open. cbn [mbind outcome_bind cf_encoded_bytes cf_codec cf_plaintext_bytes framing].
  rewrite Z.eqb_refl. cbn [negb].
  rewrite (decode_codec_frame_encode (fs_codec state) plaintext encoded).
  2: apply (eo_plaintext _ _ _ He). 2: apply (cx_frame _ _ _ _ _ R).
  cbn [mbind outcome_bind]. rewrite (cx_content_eq _ _ _ _ _ R). cbn [mbind outcome_bind].
  unfold cx_content. by rewrite bytes_eqb_refl.
Qed.
End decode_run.
End roundtrip.

(** ** What acceptance means *)
Section binding.
Context `{CL : CryptoLaws}.

Lemma parse_chunk_framing_Ok b f :
  parse_chunk_framing b = Ok f →
  CHUNK_HEADER_BYTES ≤ zlen b ≤ MAX_CHUNK_OBJECT_BYTES ∧ zlen b mod ALIGNMENT = 0 ∧
  CHUNK_HEADER_BYTES ≤ cf_payload_end f ≤ zlen b.
Proof.
  intros H. unfold parse_chunk_framing in H. inv_ok. bools. subst f. cbn [cf_payload_end].
  match goal with H : checked_add _ _ = Some _ |- _ => apply checked_add_Some in H as [-> _] end.
  unfold CODEC_FRAME_HEADER_BYTES in *. split_and!; try done. destruct (negb _); lia.
Qed.
Lemma parse_chunk_sidecar_Ok b st :
  bytes_ok b → parse_chunk_sidecar b = Ok st →
  match st with Some (s, digest) => sidecar_ok s ∧ ∃ raw, stats_encode_canonical s = Ok raw ∧
                                    digest = sha256_digest raw
            | None => True end.
Proof.
  intros Hb H. unfold parse_chunk_sidecar in H. apply bind_Ok in H as (n & _ & H).
  destruct (negb _); inv_ok; subst; [|done].
  match goal with H : stats_decode_canonical ?raw = Ok _ |- _ =>
    apply stats_encode_decode in H as (? & ? & _); [eauto|] end.
  match goal with H : slice b _ _ = Ok ?raw |- bytes_ok ?raw =>
    apply slice_Ok, get_range_Some in H as (_ & _ & _ & ->) end. auto with bytes.
Qed.
Lemma check_chunk_identity_Ok b f sd expected tenant family key keys t c k s n :
  check_chunk_identity b f sd expected tenant family key keys = Ok (t, c, k, s, n) →
  t = tenant ∧ c = cr_chunk_id expected ∧ k = cr_object_key expected ∧
  ∃ fam, representation_family_id family = Ok fam ∧
  k = derive_object_key keys (mkObjectIdentity tenant fam c (cr_key_epoch expected) (cf_codec f)
        (cf_codec_version f) (cf_encrypted f) s n sd).
Proof.
  intros H. unfold check_chunk_identity in H. inv_ok. bools. simplify_eq.
  repeat match goal with H : bytes_eqb _ _ = true |- _ => apply bytes_eqb_eq in H end. subst.
  split_and!; try done. eexists. split; [done|congruence].
Qed.
Lemma open_payload_bytes keys b f c k s n p :
  bytes_ok b → open_payload keys b f c k s n = Ok p → bytes_ok p.
Proof.
  intros Hb H. unfold open_payload in H. apply bind_Ok in H as (pl & Hs & H).
  apply slice_Ok, get_range_Some in Hs as (_ & _ & _ & ->).
  assert (∀ i j, bytes_ok (ztake i (zdrop j b))) as Hok by auto with bytes.
  destruct (cf_encrypted f); inv_ok; [|by subst].
  match goal with H : aead_decrypt _ _ _ _ = Some _ |- _ => by apply aead_bytes in H as [? _] end.
Qed.

(** An accepted object is the one its reference names, and its plaintext has
the content identity the reference carries. *)
Lemma decode_chunk_Ok b expected span tenant family key keys p st :
  bytes_ok b → decode_chunk_with_stats b expected span tenant family key keys = Ok (p, st) →
  sha256_digest b = cr_object_digest expected ∧ zlen b = cr_object_bytes expected ∧
  chunk_id (ks_chunk_identity keys) tenant family key span p = Ok (cr_chunk_id expected) ∧
  zlen p = cr_plaintext_bytes expected ∧ bytes_ok p ∧ (∀ s, st = Some s → sidecar_ok s).
Proof.
  intros Hb H. unfold decode_chunk_with_stats in H. inv_ok.
  match goal with x : bytes * bytes * bytes * bytes * bytes |- _ => destruct x as [[[[t c] k] sa] no] end.
  inv_ok. bools. simplify_eq.
  match goal with H : check_chunk_identity _ _ _ _ _ _ _ _ = _ |- _ =>
    apply check_chunk_identity_Ok in H as (-> & -> & -> & _) end.
  match goal with H : verify_chunk_digests _ _ = _ |- _ => unfold verify_chunk_digests in H; inv_ok; bools end.
  match goal with H : open_payload _ _ _ _ _ _ _ = _ |- _ => apply open_payload_bytes in H; [|done] end.
  match goal with H : decode_codec_frame _ _ _ = _ |- _ =>
    pose proof (decode_codec_frame_bytes _ _ _ _ ltac:(eassumption) H);
    apply decode_codec_frame_Ok in H as (_ & Hl & _); [|done] end.
  match goal with H : parse_chunk_sidecar _ = _ |- _ => apply parse_chunk_sidecar_Ok in H; [|done] end.
  repeat match goal with H : bytes_eqb _ _ = true |- _ => apply bytes_eqb_eq in H end. subst.
  split_and!; try done; try lia.
  intros s Hs. destruct x0 as [[s' d]|]; simplify_eq/=. tauto.
Qed.

(** ** No panic *)
Lemma parse_chunk_framing_no_panic b : ¬ panics (parse_chunk_framing b).
Proof.
  unfold parse_chunk_framing, get_u16, get_u32, CHUNK_HEADER_BYTES, ALIGNMENT.
  destruct (_ || _ || _) eqn:Hg; [by intros []|]. bools.
  no_panic; bools; try (apply slice_no_panic; lia); try (apply get_le_no_panic; lia).
  - apply from_wire_no_panic.
  - match goal with H : ok_or (checked_add _ _) _ = Ok _ |- _ =>
      apply ok_or_Ok, checked_add_Some in H as [-> _] end.
    unfold CODEC_FRAME_HEADER_BYTES in *. apply slice_no_panic; try lia. destruct (negb _); lia.
Qed.
Lemma parse_chunk_sidecar_no_panic b :
  bytes_ok b → CHUNK_HEADER_BYTES ≤ zlen b → ¬ panics (parse_chunk_sidecar b).
Proof.
  unfold parse_chunk_sidecar, CHUNK_HEADER_SIDECAR_OFFSET, CHUNK_HEADER_BYTES, ALIGNMENT.
  change MAX_STATS_SIDECAR_BYTES with 3858. intros Hb Hl.
  apply bind_no_panic; [apply get_le_no_panic; lia|]. intros n Hn.
  apply (get_le_inv 2) in Hn as (_ & [Hn0 _] & _); [|done].
  no_panic; bools; try (apply slice_no_panic; lia).
  apply stats_decode_no_panic. match goal with H : slice _ _ _ = Ok _ |- _ =>
    apply slice_Ok, get_range_Some in H as (_ & _ & _ & ->) end. auto with bytes.
Qed.
Lemma verify_chunk_digests_no_panic b d :
  CHUNK_HEADER_BYTES ≤ zlen b → ¬ panics (verify_chunk_digests b d).
Proof.
  unfold verify_chunk_digests, CHUNK_HEADER_BYTES, ALIGNMENT, HEADER_DIGEST_OFFSET. intros Hl.
  case_match; [by intros []|]. apply bind_no_panic; [apply slice_no_panic; lia|].
  intros h Hh%slice_Ok%get_range_len. apply bind_no_panic; [apply slice_no_panic; lia|]. intros x _.
  rewrite write_Ok by (rewrite ?zlen_zeros by done; lia). no_panic.
Qed.
Lemma representation_family_id_no_panic f :
  RepresentationFamilyId_ok f → ¬ panics (representation_family_id f).
Proof. intros Hf. destruct (representation_family_id_total f Hf) as (id & -> & _). by intros []. Qed.
Lemma check_chunk_identity_no_panic b f sd expected tenant family key keys :
  CHUNK_HEADER_BYTES ≤ zlen b → RepresentationFamilyId_ok family →
  ¬ panics (check_chunk_identity b f sd expected tenant family key keys).
Proof.
  unfold check_chunk_identity, CHUNK_HEADER_BYTES, ALIGNMENT, get_u64. intros Hl Hf.
  no_panic; try (apply slice_no_panic; lia); try (apply get_le_no_panic; lia).
  by apply representation_family_id_no_panic.
Qed.
Lemma chunk_id_no_panic key tenant f k span p :
  RepresentationFamilyId_ok f → ¬ panics (chunk_id key tenant f k span p).
Proof. intros Hf. unfold chunk_id. no_panic. by apply representation_family_id_no_panic. Qed.

Lemma decode_chunk_no_panic b expected span tenant family key keys :
  bytes_ok b → RepresentationFamilyId_ok family →
  ¬ panics (decode_chunk_with_stats b expected span tenant family key keys).
Proof.
  intros Hb Hf. unfold decode_chunk_with_stats.
  apply bind_no_panic; [apply parse_chunk_framing_no_panic|].
  intros f (Hl & _ & He)%parse_chunk_framing_Ok. destruct Hl as [Hl _].
  apply bind_no_panic; [by apply parse_chunk_sidecar_no_panic|]. intros st _.
  pose proof Hl as Hl'. unfold CHUNK_HEADER_BYTES, ALIGNMENT in Hl'.
  apply bind_no_panic; [apply slice_no_panic; lia|]. intros sn _.
  destruct (negb _ && _); [by intros []|]. destruct (_ || _ || _); [by intros []|].
  apply bind_no_panic; [by apply verify_chunk_digests_no_panic|]. intros [] _.
  apply bind_no_panic; [by apply check_chunk_identity_no_panic|]. intros [[[[t c] k] s] n] _.
  apply bind_no_panic.
  { unfold open_payload, derive_encryption_key, CHUNK_HEADER_BYTES, ALIGNMENT in *.
    no_panic; apply slice_no_panic; lia. }
  intros p Hp%open_payload_bytes; [|done]. destruct (negb _); [by intros []|].
  apply bind_no_panic; [by apply decode_codec_frame_no_panic|]. intros q _.
  apply bind_no_panic; [by apply chunk_id_no_panic|]. intros d _. no_panic.
Qed.
End binding.
