(* ===== verification/Pack.v ===== *)
(** * Authenticated packs (crates/kvpack-core/src/pack.rs)

    A pack file is a 4096-byte header, the canonical manifest (sealed when the
    pack is encrypted) and a 4096-byte commit footer with an HMAC over all of
    it.  Header and footer are zeroed buffers into which fields are written at
    fixed offsets, as in the source.  [fill_salt] and [fill_nonce] are the
    results of the two [getrandom::fill] calls. *)
From Stdlib Require Import ZArith Lia.
From stdpp Require Import base tactics numbers list strings option.
From S2P Require Import Prelude Bytes Canonical Wire State Identity Manifest Frame Deps Validator.
From S2P Require Import ValidatorLaws Crypto Ids Stats Chunk ChunkLaws.

Definition PACK_HEADER_DIGEST_OFFSET : Z := 148.
Definition FOOTER_HMAC_OFFSET : Z := 80.

Record PackHeader := mkPackHeader {
    ph_tenant_namespace : bytes;
    ph_manifest_id : bytes;
    ph_key_epoch : Z;
    ph_manifest_bytes : Z;
    ph_plaintext_manifest_bytes : Z;
    ph_encrypted : bool
}.
Record EncodedPack := mkEncodedPack { ep_bytes : bytes; ep_manifest_id : bytes }.

Section pack.
Context `{Crypto}.

Definition manifest_encryption_key (keys : KeySchedule) (id salt : bytes) : result bytes :=
  ok_or (hkdf_expand salt (ks_manifest_encryption keys) (label "kvpack/v1/manifest-aead" ++ id))
  (Authentication "manifest key derivation failed").

(** The message the footer's HMAC covers. *)
Definition auth_parts (header manifest : bytes) (manifest_len key_epoch file_len : Z)
  : list bytes :=
  [label "kvpack/v1/manifest-auth"; header; manifest; put_u64 manifest_len;
   put_u64 key_epoch; put_u64 file_len].
Definition authenticate (keys : KeySchedule) (header manifest : bytes)
  (manifest_len key_epoch file_len : Z) : bytes :=
  hmac (ks_manifest_auth keys) (auth_parts header manifest manifest_len key_epoch file_len).

Definition manifest_random (encrypt : bool) (fill_salt fill_nonce : option bytes)
  : result (bytes * bytes) :=
  if encrypt then
  salt ← ok_or fill_salt (Authentication "manifest salt generation failed");
  nonce ← ok_or fill_nonce (Authentication "manifest nonce generation failed");
  mret (salt, nonce)
  else Ok (zeros 16, zeros 12).

(** [vec![0; 4096]] and the writes up to the header digest. *)
Definition build_header (m : CutManifest) (encrypt : bool) (stored_len plain_len : Z)
  (id salt nonce : bytes) : result bytes :=
  header ← write (zeros PACK_HEADER_BYTES) 0 PACK_MAGIC;
  header ← write header 8 (put_u16 WIRE_VERSION);
  header ← write header 10 (put_u16 PACK_HEADER_BYTES);
  header ← write header 12 (put_u32 ALIGNMENT);
  header ← write header 16 (put_u32 (if encrypt then FLAG_ENCRYPTED else 0));
  header ← write header 24 (put_u64 stored_len);
  header ← write header 32 (put_u64 plain_len);
  header ← write header 40 (put_u64 (cm_key_epoch m));
  header ← write header 56 (cm_tenant_namespace m);
  header ← write header 88 id;
  header ← (if encrypt then h ← write header 120 salt; write h 136 nonce else Ok header);
  write header PACK_HEADER_DIGEST_OFFSET (sha256_digest header).

Definition seal_manifest (keys : KeySchedule) (encrypt : bool) (id salt nonce header canonical : bytes)
  : result bytes :=
  if encrypt then
  key ← manifest_encryption_key keys id salt;
  ok_or (aead_encrypt key nonce canonical header) (Authentication "manifest encryption failed")
  else Ok canonical.

Definition build_footer (keys : KeySchedule) (header body id : bytes) (key_epoch file_len : Z)
  : result bytes :=
  footer ← write (zeros PACK_FOOTER_BYTES) 0 FOOTER_MAGIC;
  footer ← write footer 8 (put_u16 WIRE_VERSION);
  footer ← write footer 10 (put_u16 PACK_FOOTER_BYTES);
  footer ← write footer 16 (put_u64 (zlen body));
  footer ← write footer 24 (put_u64 key_epoch);
  footer ← write footer 40 (put_u64 file_len);
  footer ← write footer 48 id;
  write footer FOOTER_HMAC_OFFSET (authenticate keys header body (zlen body) key_epoch file_len).

Definition encode_authenticated_pack (m : CutManifest) (keys : KeySchedule) (encrypt : bool)
  (ctx : ValidationContext) (fill_salt fill_nonce : option bytes) : result EncodedPack :=
  _ ← validate_manifest m ctx;
  canonical ← manifest_encode_canonical m;
  if MAX_MANIFEST_BYTES <? zlen canonical then
  Err (Bounds "manifest exceeds production bound") else
  let id := manifest_id canonical in
  stored_len ← ok_or (checked_add (zlen canonical) (if encrypt then 16 else 0))
               (Bounds "manifest length overflow");
  file_len ← ok_or (v ← checked_add PACK_HEADER_BYTES stored_len; checked_add v PACK_FOOTER_BYTES)
             (Bounds "pack file length overflow");
  '(salt, nonce) ← manifest_random encrypt fill_salt fill_nonce;
  header ← build_header m encrypt stored_len (zlen canonical) id salt nonce;
  body ← seal_manifest keys encrypt id salt nonce header canonical;
  footer ← build_footer keys header body id (cm_key_epoch m) file_len;
  mret (mkEncodedPack (header ++ body ++ footer) id).

(** ** Decoding *)
Definition parse_pack_header_framing (b : bytes) : result PackHeader :=
  if zlen b <? PACK_HEADER_BYTES then Err (Truncated "truncated production pack header") else
  header ← slice b 0 PACK_HEADER_BYTES;
  magic ← slice header 0 8;
  if negb (bytes_eqb magic PACK_MAGIC) then Err (BadMagic "invalid production pack magic") else
  version ← get_u16 header 8;
  header_bytes ← get_u16 header 10;
  alignment ← get_u32 header 12;
  if negb (version =? WIRE_VERSION) || negb (header_bytes =? PACK_HEADER_BYTES)
   || negb (alignment =? ALIGNMENT) then
  Err (BadMagic "invalid production pack header contract") else
  flags ← get_u32 header 16;
  if negb (Z.land flags (Z.ldiff (u32_bound - 1) KNOWN_FLAGS) =? 0) then
  Err (Reserved "unknown pack flags") else
  r20 ← get_u32 header 20;
  r48 ← get_u64 header 48;
  tail ← slice header 180 (zlen header);
  if negb (r20 =? 0) || negb (r48 =? 0) || any_nonzero tail then
  Err (Reserved "pack header reserved bytes are nonzero") else
  let encrypted := negb (Z.land flags FLAG_ENCRYPTED =? 0) in
  salt_nonce ← slice header 120 148;
  if negb encrypted && any_nonzero salt_nonce then
  Err (Reserved "unencrypted manifest salt or nonce is nonzero") else
  tenant ← slice header 56 88;
  id ← slice header 88 120;
  key_epoch ← get_u64 header 40;
  manifest_bytes ← get_u64 header 24;
  plaintext_manifest_bytes ← get_u64 header 32;
  Ok (mkPackHeader tenant id key_epoch manifest_bytes plaintext_manifest_bytes encrypted).

Definition verify_pack_header_digest (header : bytes) : result unit :=
  expected ← slice header PACK_HEADER_DIGEST_OFFSET (PACK_HEADER_DIGEST_OFFSET + 32);
  cleared ← write header PACK_HEADER_DIGEST_OFFSET (zeros 32);
  if negb (bytes_eqb (sha256_digest cleared) expected) then
  Err (Checksum "pack header digest mismatch")
  else Ok tt.

Definition inspect_pack_header (b : bytes) : result PackHeader :=
  parsed ← parse_pack_header_framing b;
  header ← slice b 0 PACK_HEADER_BYTES;
  _ ← verify_pack_header_digest header;
  Ok parsed.

(** The footer contract and its bindings to the header. *)
Definition check_footer (b footer body : bytes) (parsed : PackHeader) : result unit :=
  magic ← slice footer 0 8;
  if negb (bytes_eqb magic FOOTER_MAGIC) then
  Err (BadMagic "invalid production commit footer magic") else
  version ← get_u16 footer 8;
  footer_bytes ← get_u16 footer 10;
  r12 ← get_u32 footer 12;
  r32 ← get_u64 footer 32;
  tail ← slice footer 112 (zlen footer);
  if negb (version =? WIRE_VERSION) || negb (footer_bytes =? PACK_FOOTER_BYTES)
   || negb (r12 =? 0) || negb (r32 =? 0) || any_nonzero tail then
  Err (Reserved "invalid production commit footer") else
  body_len ← get_u64 footer 16;
  key_epoch ← get_u64 footer 24;
  file_len ← get_u64 footer 40;
  id ← slice footer 48 80;
  if negb (zlen body =? ph_manifest_bytes parsed) || negb (body_len =? ph_manifest_bytes parsed)
   || negb (key_epoch =? ph_key_epoch parsed) || negb (file_len =? zlen b)
   || negb (bytes_eqb id (ph_manifest_id parsed)) then
  Err (Bounds "pack footer binding mismatch")
  else Ok tt.

Definition verify_authenticated_pack (b : bytes) (keys : KeySchedule) : result PackHeader :=
  if zlen b <? PACK_HEADER_BYTES + PACK_FOOTER_BYTES then
  Err (Truncated "truncated production pack") else
  parsed ← parse_pack_header_framing b;
  if (MAX_MANIFEST_BYTES + 16 <? ph_manifest_bytes parsed)
   || (MAX_MANIFEST_BYTES <? ph_plaintext_manifest_bytes parsed) then
  Err (Bounds "manifest exceeds production bound") else
  let footer_offset := zlen b - PACK_FOOTER_BYTES in
  footer ← slice b footer_offset (zlen b);
  body ← slice b PACK_HEADER_BYTES footer_offset;
  _ ← check_footer b footer body parsed;
  header ← slice b 0 PACK_HEADER_BYTES;
  _ ← verify_pack_header_digest header;
  expected ← slice footer FOOTER_HMAC_OFFSET (FOOTER_HMAC_OFFSET + 32);
  if negb (bytes_eqb (authenticate keys header body (zlen body) (ph_key_epoch parsed) (zlen b))
           expected) then
  Err (Authentication "manifest HMAC authentication failed")
  else Ok parsed.

Definition open_manifest (b body : bytes) (parsed : PackHeader) (keys : KeySchedule)
  : result bytes :=
  if ph_encrypted parsed then
  if zlen body <? 16 then Err (Truncated "truncated encrypted manifest") else
  salt ← slice b 120 136;
  nonce ← slice b 136 148;
  key ← manifest_encryption_key keys (ph_manifest_id parsed) salt;
  header ← slice b 0 PACK_HEADER_BYTES;
  ok_or (aead_decrypt key nonce body header)
    (Authentication "manifest AEAD authentication failed")
  else Ok body.

Definition decode_authenticated_pack (b : bytes) (keys : KeySchedule) (ctx : ValidationContext)
  : result CutManifest :=
  parsed ← verify_authenticated_pack b keys;
  let footer_offset := zlen b - PACK_FOOTER_BYTES in
  body ← slice b PACK_HEADER_BYTES footer_offset;
  canonical ← open_manifest b body parsed keys;
  if negb (zlen canonical =? ph_plaintext_manifest_bytes parsed)
   || negb (bytes_eqb (manifest_id canonical) (ph_manifest_id parsed)) then
  Err (Authentication "manifest content identity mismatch") else
  m ← manifest_decode_canonical canonical;
  if negb (bytes_eqb (cm_tenant_namespace m) (ph_tenant_namespace parsed))
   || negb (cm_key_epoch m =? ph_key_epoch parsed) then
  Err (Authentication "manifest header identity mismatch") else
  _ ← validate_manifest m ctx;
  Ok m.
End pack.

(** * Laws of authenticated packs

    The two buffers as lists of fields, the round trip, what an accepted pack
    is bound to, and the absence of panics. *)
(** ** Buffers as lists of fields *)
Lemma write_concat {E} (fs : list bytes) n x y off :
  fs !! n = Some x → zlen y = zlen x → off = zlen (concat (take n fs)) →
  write (E:=E) (concat fs) off y = Ok (concat (<[n:=y]> fs)).
Proof.
  intros Hn Hl ->. pose proof (lookup_lt_Some _ _ _ Hn) as Hlt.
  rewrite insert_take_drop by done. rewrite <- (take_drop_middle fs n x Hn) at 1 2.
  rewrite !concat_app. cbn [concat]. rewrite take_app_length'.
  2: rewrite length_take; lia. 
  rewrite write_Ok; [|apply zlen_nonneg|rewrite !zlen_app; pose proof (zlen_nonneg (concat (drop (S n) fs))); lia].
  by rewrite patch_app.
Qed.
Lemma field_slice {E} (fs : list bytes) n x i j :
  fs !! n = Some x → i = zlen (concat (take n fs)) → j = i + zlen x →
  slice (E:=E) (concat fs) i j = Ok x.
Proof. intros. apply slice_Ok. by eapply get_range_concat. Qed.
Lemma field_slice2 {E} (fs : list bytes) n x y i j :
  fs !! n = Some x → fs !! S n = Some y → i = zlen (concat (take n fs)) → j = i + zlen x + zlen y →
  slice (E:=E) (concat fs) i j = Ok (x ++ y).
Proof.
  intros Hx Hy -> ->. apply slice_Ok. rewrite <- (take_drop_middle fs n x Hx) at 1.
  rewrite (drop_S fs y (S n) Hy), concat_app. cbn [concat]. rewrite (app_assoc x).
  apply get_range_app; [done|]. rewrite zlen_app. lia.
Qed.
Lemma field_le {E} (fs : list bytes) (k : nat) n v i :
  fs !! n = Some (le_bytes k v) → i = zlen (concat (take n fs)) → 0 ≤ v < 256 ^ Z.of_nat k →
  get_le (E:=E) k (concat fs) i = Ok v.
Proof.
  intros Hn Hi Hv. unfold get_le. rewrite (field_slice fs n (le_bytes k v)); [|done..|by rewrite zlen_le_bytes].
  cbn [mbind outcome_bind]. rewrite to_array_ok by apply zlen_le_bytes.
  cbn [mbind outcome_bind]. by rewrite le_val_le_bytes_small.
Qed.
Ltac field_lens :=
  cbn [take concat]; rewrite ?zlen_app, ?zlen_put_u16, ?zlen_put_u32, ?zlen_put_u64;
  change (zlen (@nil Z)) with 0; change (zlen PACK_MAGIC) with 8; change (zlen FOOTER_MAGIC) with 8;
  rewrite ?zlen_zeros by done; lia.

Section fields.
Context (encrypted : Z) (stored plain epoch : Z) (tenant id salt nonce digest : bytes).
Definition pack_header_fields : list bytes :=
  [PACK_MAGIC; put_u16 WIRE_VERSION; put_u16 PACK_HEADER_BYTES; put_u32 ALIGNMENT; put_u32 encrypted;
   put_u32 0; put_u64 stored; put_u64 plain; put_u64 epoch; put_u64 0; tenant; id; salt; nonce;
   digest; zeros 3916].
Context (body_len file_len : Z) (tag : bytes).
Definition footer_fields : list bytes :=
  [FOOTER_MAGIC; put_u16 WIRE_VERSION; put_u16 PACK_FOOTER_BYTES; put_u32 0; put_u64 body_len;
   put_u64 epoch; put_u64 0; put_u64 file_len; id; tag; zeros 3984].
End fields.

Definition zero_header : list bytes :=
  [zeros 8; zeros 2; zeros 2; zeros 4; zeros 4; put_u32 0; zeros 8; zeros 8; zeros 8; put_u64 0;
   zeros 32; zeros 32; zeros 16; zeros 12; zeros 32; zeros 3916].
Definition zero_footer : list bytes :=
  [zeros 8; zeros 2; zeros 2; put_u32 0; zeros 8; zeros 8; put_u64 0; zeros 8; zeros 32; zeros 32;
   zeros 3984].
Lemma zero_header_eq : zeros PACK_HEADER_BYTES = concat zero_header.
Proof. vm_compute. reflexivity. Qed.
Lemma zero_footer_eq : zeros PACK_FOOTER_BYTES = concat zero_footer.
Proof. vm_compute. reflexivity. Qed.

Ltac write_field n :=
  erewrite (write_concat _ n); [|reflexivity|field_lens|field_lens];
  cbn [mbind outcome_bind insert list_insert].

Section laws.
Context `{CL : CryptoLaws}.

Lemma build_header_eq m encrypt stored plain id salt nonce :
  zlen (cm_tenant_namespace m) = 32 → zlen id = 32 → zlen salt = 16 → zlen nonce = 12 →
  (encrypt = false → salt = zeros 16 ∧ nonce = zeros 12) →
  let fields := pack_header_fields (if encrypt then FLAG_ENCRYPTED else 0) stored plain
                (cm_key_epoch m) (cm_tenant_namespace m) id salt nonce in
  build_header m encrypt stored plain id salt nonce =
  Ok (concat (fields (sha256_digest (concat (fields (zeros 32)))))).
Proof.
  intros Ht Hi Hs Hn Hz. cbv zeta. unfold build_header. rewrite zero_header_eq. unfold zero_header.
  write_field 0%nat. write_field 1%nat. write_field 2%nat. write_field 3%nat. write_field 4%nat.
  write_field 6%nat. write_field 7%nat. write_field 8%nat. write_field 10%nat. write_field 11%nat.
  assert (∀ h, zlen (sha256_digest h) = 32) as Hd by (intros; apply sha256_id).
  unfold PACK_HEADER_DIGEST_OFFSET. destruct encrypt.
  - write_field 12%nat. write_field 13%nat. set (h := sha256_digest _).
    assert (zlen h = 32) by apply Hd. write_field 14%nat. done.
  - destruct Hz as [-> ->]; [done|]. cbn [mbind outcome_bind]. set (h := sha256_digest _).
    assert (zlen h = 32) by apply Hd. write_field 14%nat. done.
Qed.
Lemma build_footer_eq keys header body id epoch file_len :
  zlen id = 32 →
  build_footer keys header body id epoch file_len =
  Ok (concat (footer_fields epoch id (zlen body) file_len
              (authenticate keys header body (zlen body) epoch file_len))).
Proof.
  intros Hi. unfold build_footer. rewrite zero_footer_eq. unfold zero_footer.
  write_field 0%nat. write_field 1%nat. write_field 2%nat. write_field 4%nat. write_field 5%nat.
  write_field 7%nat. write_field 8%nat. unfold FOOTER_HMAC_OFFSET. set (t := authenticate _ _ _ _ _ _).
  assert (zlen t = 32) by apply hmac_id. write_field 9%nat. done.
Qed.

Section header.
Context (encrypt : bool) (stored plain epoch : Z) (tenant id salt nonce digest rest : bytes).
Hypothesis Htenant : zlen tenant = 32.
Hypothesis Hid : zlen id = 32.
Hypothesis Hsalt : zlen salt = 16.
Hypothesis Hnonce : zlen nonce = 12.
Hypothesis Hdigest : zlen digest = 32.
Hypothesis Hstored : in_u64 stored.
Hypothesis Hplain : in_u64 plain.
Hypothesis Hepoch : in_u64 epoch.
Hypothesis Hclear : encrypt = false → salt = zeros 16 ∧ nonce = zeros 12.
Let flags := if encrypt then FLAG_ENCRYPTED else 0.
Let fields := pack_header_fields flags stored plain epoch tenant id salt nonce digest.
Let header := concat fields.

Lemma zlen_pack_header : zlen header = 4096.
Proof. unfold header, fields, pack_header_fields. field_lens. Qed.
Lemma header_slice : slice (E:=PackError) (header ++ rest) 0 PACK_HEADER_BYTES = Ok header.
Proof.
  apply slice_Ok. apply (get_range_app [] header rest); [done|]. rewrite zlen_pack_header. done.
Qed.
Lemma parse_pack_header_fields :
  parse_pack_header_framing (header ++ rest) = Ok (mkPackHeader tenant id epoch stored plain encrypt).
Proof.
  unfold parse_pack_header_framing. pose proof zlen_pack_header as Hl.
  rewrite (proj2 (Z.ltb_ge _ _)) by (rewrite zlen_app, Hl; pose proof (zlen_nonneg rest);
    unfold PACK_HEADER_BYTES, ALIGNMENT; lia).
  rewrite header_slice. cbn [mbind outcome_bind]. rewrite Hl. unfold header, fields, pack_header_fields.
  rewrite (field_slice _ 0 PACK_MAGIC 0 8) by (reflexivity || field_lens). cbn [mbind outcome_bind].
  rewrite bytes_eqb_refl. cbn [negb].
  unfold get_u16, get_u32, get_u64.
  rewrite (field_le _ 2 1 WIRE_VERSION 8) by (reflexivity || field_lens || by split). cbn [mbind outcome_bind].
  rewrite (field_le _ 2 2 PACK_HEADER_BYTES 10) by (reflexivity || field_lens || by split). cbn [mbind outcome_bind].
  rewrite (field_le _ 4 3 ALIGNMENT 12) by (reflexivity || field_lens || by split). cbn [mbind outcome_bind].
  rewrite !Z.eqb_refl. cbn [negb orb].
  rewrite (field_le _ 4 4 flags 16) by (reflexivity || field_lens || by unfold flags; destruct encrypt).
  cbn [mbind outcome_bind].
  assert (Z.land flags (Z.ldiff (u32_bound - 1) KNOWN_FLAGS) = 0) as -> by (unfold flags; by destruct encrypt).
  cbn [negb Z.eqb].
  rewrite (field_le _ 4 5 0 20) by (reflexivity || field_lens || by split). cbn [mbind outcome_bind].
  rewrite (field_le _ 8 9 0 48) by (reflexivity || field_lens || by split). cbn [mbind outcome_bind].
  rewrite (field_slice _ 15 (zeros 3916) 180 4096) by (reflexivity || field_lens). cbn [mbind outcome_bind].
  unfold any_nonzero at 1. rewrite all_zero_zeros. cbn [negb orb Z.eqb].
  assert (negb (Z.land flags FLAG_ENCRYPTED =? 0) = encrypt) as -> by (unfold flags; by destruct encrypt).
  rewrite (field_slice2 _ 12 salt nonce 120 148) by (reflexivity || field_lens). cbn [mbind outcome_bind].
  assert (negb encrypt && any_nonzero (salt ++ nonce) = false) as ->.
  { destruct encrypt; [done|]. by destruct Hclear as [-> ->]. }
  rewrite (field_slice _ 10 tenant 56 88) by (reflexivity || field_lens). cbn [mbind outcome_bind].
  rewrite (field_slice _ 11 id 88 120) by (reflexivity || field_lens). cbn [mbind outcome_bind].
  rewrite (field_le _ 8 8 epoch 40) by (reflexivity || field_lens || done). cbn [mbind outcome_bind].
  rewrite (field_le _ 8 6 stored 24) by (reflexivity || field_lens || done). cbn [mbind outcome_bind].
  rewrite (field_le _ 8 7 plain 32) by (reflexivity || field_lens || done). done.
Qed.

Lemma header_digest_ok :
  digest = sha256_digest (concat (pack_header_fields flags stored plain epoch tenant id salt nonce (zeros 32))) →
  verify_pack_header_digest header = Ok tt.
Proof.
  intros Hd. unfold verify_pack_header_digest, PACK_HEADER_DIGEST_OFFSET, header, fields, pack_header_fields.
  rewrite (field_slice _ 14 digest 148 (148 + 32)) by (reflexivity || field_lens). cbn [mbind outcome_bind].
  write_field 14%nat. unfold pack_header_fields in Hd. by rewrite <- Hd, bytes_eqb_refl.
Qed.
Lemma header_salt_nonce :
  slice (E:=PackError) (header ++ rest) 120 136 = Ok salt ∧
  slice (E:=PackError) (header ++ rest) 136 148 = Ok nonce.
Proof.
  assert (header ++ rest = concat (fields ++ [rest])) as ->.
  { rewrite concat_app. cbn [concat]. by rewrite app_nil_r. }
  unfold fields, pack_header_fields. cbn [app].
  rewrite (field_slice _ 12 salt 120 136) by (reflexivity || field_lens).
  by rewrite (field_slice _ 13 nonce 136 148) by (reflexivity || field_lens).
Qed.
End header.

Lemma zlen_footer epoch id body_len file_len tag :
  zlen id = 32 → zlen tag = 32 → zlen (concat (footer_fields epoch id body_len file_len tag)) = 4096.
Proof. intros. unfold footer_fields. field_lens. Qed.
Lemma footer_tag epoch id body_len file_len tag :
  zlen id = 32 → zlen tag = 32 →
  slice (E:=PackError) (concat (footer_fields epoch id body_len file_len tag))
  FOOTER_HMAC_OFFSET (FOOTER_HMAC_OFFSET + 32) = Ok tag.
Proof.
  intros. unfold FOOTER_HMAC_OFFSET, footer_fields.
  by rewrite (field_slice _ 9 tag 80 (80 + 32)) by (reflexivity || field_lens).
Qed.
Lemma check_footer_fields b body parsed tag :
  zlen (ph_manifest_id parsed) = 32 → zlen tag = 32 → in_u64 (ph_key_epoch parsed) → in_u64 (zlen b) →
  in_u64 (zlen body) → ph_manifest_bytes parsed = zlen body →
  check_footer b (concat (footer_fields (ph_key_epoch parsed) (ph_manifest_id parsed) (zlen body) (zlen b) tag))
  body parsed = Ok tt.
Proof.
  intros Hi Ht He Hb Hy Hm. unfold check_footer. rewrite zlen_footer by done.
  unfold footer_fields, get_u16, get_u32, get_u64.
  rewrite (field_slice _ 0 FOOTER_MAGIC 0 8) by (reflexivity || field_lens). cbn [mbind outcome_bind].
  rewrite bytes_eqb_refl. cbn [negb].
  rewrite (field_le _ 2 1 WIRE_VERSION 8) by (reflexivity || field_lens || by split). cbn [mbind outcome_bind].
  rewrite (field_le _ 2 2 PACK_FOOTER_BYTES 10) by (reflexivity || field_lens || by split). cbn [mbind outcome_bind].
  rewrite (field_le _ 4 3 0 12) by (reflexivity || field_lens || by split). cbn [mbind outcome_bind].
  rewrite (field_le _ 8 6 0 32) by (reflexivity || field_lens || by split). cbn [mbind outcome_bind].
  rewrite (field_slice _ 10 (zeros 3984) 112 4096) by (reflexivity || field_lens). cbn [mbind outcome_bind].
  rewrite any_nonzero_zeros, !Z.eqb_refl. cbn [negb orb].
  rewrite (field_le _ 8 4 (zlen body) 16) by (reflexivity || field_lens || done). cbn [mbind outcome_bind].
  rewrite (field_le _ 8 5 (ph_key_epoch parsed) 24) by (reflexivity || field_lens || done). cbn [mbind outcome_bind].
  rewrite (field_le _ 8 7 (zlen b) 40) by (reflexivity || field_lens || done). cbn [mbind outcome_bind].
  rewrite (field_slice _ 8 (ph_manifest_id parsed) 48 80) by (reflexivity || field_lens). cbn [mbind outcome_bind].
  by rewrite Hm, bytes_eqb_refl, !Z.eqb_refl.
Qed.

(** ** A pack file, field by field *)
Section file.
Context (m : CutManifest) (keys : KeySchedule) (encrypt : bool) (canonical salt nonce body : bytes).
Hypothesis Hm : CutManifest_ok m.
Hypothesis Hcanonical : manifest_encode_canonical m = Ok canonical.
Hypothesis Hsize : zlen canonical ≤ MAX_MANIFEST_BYTES.
Hypothesis Hsalt : zlen salt = 16.
Hypothesis Hnonce : zlen nonce = 12.
Hypothesis Hclear : encrypt = false → salt = zeros 16 ∧ nonce = zeros 12.
Let id := manifest_id canonical.
Let stored := zlen canonical + (if encrypt then 16 else 0).
Let file_len := PACK_HEADER_BYTES + stored + PACK_FOOTER_BYTES.
Let flags := if encrypt then FLAG_ENCRYPTED else 0.
Let fields := pack_header_fields flags stored (zlen canonical) (cm_key_epoch m) (cm_tenant_namespace m)
        id salt nonce.
Let header := concat (fields (sha256_digest (concat (fields (zeros 32))))).
Hypothesis Hbody : seal_manifest keys encrypt id salt nonce header canonical = Ok body.
Let tag := authenticate keys header body (zlen body) (cm_key_epoch m) file_len.
Let footer := concat (footer_fields (cm_key_epoch m) id (zlen body) file_len tag).
Let file := header ++ body ++ footer.
Let parsed := mkPackHeader (cm_tenant_namespace m) id (cm_key_epoch m) stored (zlen canonical) encrypt.

Lemma file_facts :
  zlen (cm_tenant_namespace m) = 32 ∧ zlen id = 32 ∧ in_u64 (cm_key_epoch m) ∧ in_u64 stored ∧
  in_u64 (zlen canonical) ∧ zlen tag = 32 ∧ zlen body = stored ∧ 0 ≤ stored ≤ MAX_MANIFEST_BYTES + 16 ∧
  bytes_ok canonical.
Proof.
  assert (bytes_ok canonical) as Hc.
  { destruct (manifest_encode_total m Hm) as (c & Hc & Hok). congruence. }
  destruct Hm as ([Ht _] & _). assert (in_u64 (cm_key_epoch m)) as He by apply Hm.
  assert (zlen id = 32) as Hi by apply sha256_id. assert (zlen tag = 32) as Htg by apply hmac_id.
  pose proof (zlen_nonneg canonical).
  assert (0 ≤ stored ≤ MAX_MANIFEST_BYTES + 16) as Hst by (unfold stored; destruct encrypt; lia).
  assert (MAX_MANIFEST_BYTES + 16 < u64_bound) by done.
  assert (zlen body = stored) as Hb; [|split_and!; try done; unfold in_u64; lia].
  unfold seal_manifest, stored in *. destruct encrypt; inv_ok; subst; [|lia].
  destruct (aead_total x nonce canonical header) as (c & Hc' & _ & Hl); [done|..|congruence].
  unfold slice_len_ok. assert (MAX_MANIFEST_BYTES < 9223372036854775808) by done. lia.
Qed.
Lemma zlen_file : zlen header = 4096 ∧ zlen footer = 4096 ∧ zlen file = file_len.
Proof.
  destruct file_facts as (Ht & Hi & He & Hst & Hcl & Htg & Hb & _).
  assert (zlen header = 4096) as Hh by (apply zlen_pack_header; try done; apply sha256_id).
  assert (zlen footer = 4096) as Hf by by apply zlen_footer.
  unfold file. rewrite !zlen_app, Hh, Hf, Hb. split_and!; try done.
  unfold file_len, PACK_HEADER_BYTES, PACK_FOOTER_BYTES, ALIGNMENT. lia.
Qed.
Lemma file_slices :
  slice (E:=PackError) file 0 PACK_HEADER_BYTES = Ok header ∧
  slice (E:=PackError) file PACK_HEADER_BYTES (zlen file - PACK_FOOTER_BYTES) = Ok body ∧
  slice (E:=PackError) file (zlen file - PACK_FOOTER_BYTES) (zlen file) = Ok footer.
Proof.
  destruct zlen_file as (Hh & Hf & _).
  assert (zlen file = 4096 + zlen body + 4096) as Hl by (unfold file; rewrite !zlen_app; lia).
  rewrite Hl. unfold PACK_HEADER_BYTES, PACK_FOOTER_BYTES, ALIGNMENT, file. split_and!; apply slice_Ok.
  - apply (get_range_app [] header); [done|]. rewrite Hh. done.
  - apply get_range_app; lia.
  - replace (header ++ body ++ footer) with ((header ++ body) ++ footer ++ [])
      by by rewrite app_nil_r, app_assoc.
    apply get_range_app; rewrite ?zlen_app; lia.
Qed.
Lemma parse_file : parse_pack_header_framing file = Ok parsed ∧ verify_pack_header_digest header = Ok tt.
Proof.
  destruct file_facts as (Ht & Hi & He & Hst & Hcl & _). split.
  - apply parse_pack_header_fields; try done; apply sha256_id.
  - apply header_digest_ok; try done; apply sha256_id.
Qed.

Lemma inspect_file : inspect_pack_header file = Ok parsed.
Proof.
  unfold inspect_pack_header. destruct parse_file as [-> Hd]. destruct file_slices as (Hs & _).
  cbn [mbind outcome_bind]. rewrite Hs. cbn [mbind outcome_bind]. by rewrite Hd.
Qed.
Lemma verify_file : verify_authenticated_pack file keys = Ok parsed.
Proof.
  destruct file_facts as (Ht & Hi & He & Hst & Hcl & Htg & Hb & Hr & _).
  destruct zlen_file as (Hh & Hf & Hl). destruct file_slices as (S1 & S2 & S3). destruct parse_file as [Hp Hd].
  unfold verify_authenticated_pack.
  rewrite (proj2 (Z.ltb_ge _ _)) by (rewrite Hl; unfold file_len; lia).
  rewrite Hp. cbn [mbind outcome_bind ph_manifest_bytes ph_plaintext_manifest_bytes parsed].
  rewrite (proj2 (orb_false_iff _ _)) by (split; apply Z.ltb_ge; lia).
  rewrite S2, S3. cbn [mbind outcome_bind].
  assert (check_footer file footer body parsed = Ok tt) as ->.
  { unfold footer. rewrite <- Hl. apply (check_footer_fields file body parsed tag); try done; rewrite ?Hb; try done.
    rewrite Hl. unfold file_len, in_u64, PACK_HEADER_BYTES, PACK_FOOTER_BYTES, ALIGNMENT.
    assert (MAX_MANIFEST_BYTES + 10000 < u64_bound) by done. lia. }
  cbn [mbind outcome_bind]. rewrite S1. cbn [mbind outcome_bind]. rewrite Hd. cbn [mbind outcome_bind].
  unfold footer. rewrite footer_tag by done. cbn [mbind outcome_bind ph_key_epoch parsed].
  rewrite Hl. fold tag. by rewrite bytes_eqb_refl.
Qed.
Lemma open_file : open_manifest file body parsed keys = Ok canonical.
Proof.
  destruct file_facts as (Ht & Hi & He & Hst & Hcl & Htg & Hb & Hr & _). destruct file_slices as (S1 & _).
  pose proof (zlen_nonneg canonical).
  assert (slice (E:=PackError) file 120 136 = Ok salt ∧ slice (E:=PackError) file 136 148 = Ok nonce) as [N1 N2].
  { apply header_salt_nonce; try done; apply sha256_id. }
  unfold open_manifest, seal_manifest in *. cbn [ph_encrypted parsed ph_manifest_id].
  destruct encrypt; [|by inv_ok; subst]. inv_ok.
  rewrite (proj2 (Z.ltb_ge _ _)) by (unfold stored in Hb; lia).
  rewrite N1, N2. cbn [mbind outcome_bind]. rewrite H0. cbn [mbind outcome_bind]. rewrite S1.
  cbn [mbind outcome_bind]. by erewrite aead_open.
Qed.
Lemma decode_file ctx :
  validate_manifest m ctx = Ok tt → decode_authenticated_pack file keys ctx = Ok m.
Proof.
  intros Hv. destruct file_facts as (Ht & Hi & He & Hst & Hcl & _). destruct file_slices as (S1 & S2 & _).
  unfold decode_authenticated_pack. rewrite verify_file. cbn [mbind outcome_bind]. rewrite S2.
  cbn [mbind outcome_bind]. rewrite open_file. cbn [mbind outcome_bind ph_manifest_id ph_plaintext_manifest_bytes parsed].
  fold id. rewrite Z.eqb_refl, bytes_eqb_refl. cbn [negb orb].
  rewrite (manifest_decode_encode m) by done. cbn [mbind outcome_bind ph_key_epoch ph_tenant_namespace parsed].
  rewrite Z.eqb_refl, bytes_eqb_refl. cbn [negb orb]. by rewrite Hv.
Qed.
Lemma encode_file ctx fill_salt fill_nonce :
  validate_manifest m ctx = Ok tt → manifest_random encrypt fill_salt fill_nonce = Ok (salt, nonce) →
  encode_authenticated_pack m keys encrypt ctx fill_salt fill_nonce = Ok (mkEncodedPack file id).
Proof.
  intros Hv Hr. destruct file_facts as (Ht & Hi & He & Hst & Hcl & Htg & Hb & Hsr & _).
  unfold encode_authenticated_pack. rewrite Hv, Hcanonical. cbn [mbind outcome_bind].
  rewrite (proj2 (Z.ltb_ge _ _)) by done. fold id.
  rewrite (proj2 (checked_add_Some _ _ stored)) by (split; [done|]; apply Hst).
  cbn [ok_or mbind outcome_bind].
  assert (MAX_MANIFEST_BYTES + 10000 < u64_bound) by done.
  rewrite (proj2 (checked_add_Some PACK_HEADER_BYTES stored (PACK_HEADER_BYTES + stored)))
    by (split; [done|]; unfold PACK_HEADER_BYTES, ALIGNMENT; lia).
  cbn [mbind option_bind].
  rewrite (proj2 (checked_add_Some _ _ file_len))
    by (split; [done|]; unfold PACK_HEADER_BYTES, PACK_FOOTER_BYTES, ALIGNMENT; lia).
  cbn [ok_or mbind outcome_bind]. rewrite Hr. cbn [mbind outcome_bind].
  rewrite build_header_eq by done. cbn [mbind outcome_bind].
  match goal with |- context [seal_manifest _ _ _ _ _ ?h _] => change h with header end.
  rewrite Hbody. cbn [mbind outcome_bind]. rewrite build_footer_eq by done. done.
Qed.
End file.

Lemma manifest_random_total encrypt fill_salt fill_nonce :
  random_ok encrypt fill_salt fill_nonce →
  ∃ salt nonce, manifest_random encrypt fill_salt fill_nonce = Ok (salt, nonce) ∧
  zlen salt = 16 ∧ zlen nonce = 12 ∧ (encrypt = false → salt = zeros 16 ∧ nonce = zeros 12).
Proof.
  intros Hr. unfold manifest_random. destruct encrypt.
  - destruct Hr as (salt & nonce & -> & -> & ? & ?); [done|]. exists salt, nonce. by split_and!.
  - exists (zeros 16), (zeros 12). by split_and!.
Qed.
Lemma seal_manifest_total keys encrypt id salt nonce header canonical :
  bytes_ok canonical → slice_len_ok canonical →
  ∃ body, seal_manifest keys encrypt id salt nonce header canonical = Ok body.
Proof.
  intros Hb Hl. unfold seal_manifest. destruct encrypt; [|eauto]. unfold manifest_encryption_key.
  destruct (hkdf_id salt (ks_manifest_encryption keys) (label "kvpack/v1/manifest-aead" ++ id)) as (k & -> & _).
  destruct (aead_total k nonce canonical header Hb Hl) as (c & Hc & _). cbn [ok_or mbind outcome_bind].
  rewrite Hc. eauto.
Qed.

(** Every valid manifest within the size bound is packed, and unpacks to itself. *)
Lemma pack_run m keys encrypt ctx fill_salt fill_nonce canonical :
  CutManifest_ok m → validate_manifest m ctx = Ok tt → manifest_encode_canonical m = Ok canonical →
  zlen canonical ≤ MAX_MANIFEST_BYTES → random_ok encrypt fill_salt fill_nonce →
  ∃ p, encode_authenticated_pack m keys encrypt ctx fill_salt fill_nonce = Ok p ∧
  ep_manifest_id p = manifest_id canonical ∧
  decode_authenticated_pack (ep_bytes p) keys ctx = Ok m ∧
  inspect_pack_header (ep_bytes p) = Ok (mkPackHeader (cm_tenant_namespace m) (manifest_id canonical)
    (cm_key_epoch m) (zlen canonical + (if encrypt then 16 else 0)) (zlen canonical) encrypt).
Proof.
  intros Hm Hv Hc Hl Hr. destruct (manifest_random_total _ _ _ Hr) as (salt & nonce & Er & Ls & Ln & Hz).
  edestruct seal_manifest_total as [body Hb].
  { destruct (manifest_encode_total m Hm) as (c & Hc' & Hok). assert (c = canonical) as -> by congruence. exact Hok. }
  { unfold slice_len_ok. assert (MAX_MANIFEST_BYTES < 9223372036854775808) by done. lia. }
  eexists. split_and!; [by eapply encode_file|done|by eapply decode_file|by eapply inspect_file].
Qed.
End laws.

(** ** What an accepted pack is bound to *)
Lemma bytes_ok_get_range b i j r : bytes_ok b → get_range b i j = Some r → bytes_ok r.
Proof. intros Hb (_ & _ & _ & ->)%get_range_Some. auto with bytes. Qed.
Lemma any_nonzero_false l : any_nonzero l = false → l = zeros (zlen l).
Proof. unfold any_nonzero. intros H%negb_false_iff. by apply all_zero_spec. Qed.

Section binding.
Context `{CL : CryptoLaws}.

(** The footer is a function of the header, the sizes and its tag. *)
Lemma check_footer_Ok b footer body parsed :
  bytes_ok footer → zlen footer = 4096 → check_footer b footer body parsed = Ok tt →
  ph_manifest_bytes parsed = zlen body ∧
  ∃ tag, zlen tag = 32 ∧
  slice (E:=PackError) footer FOOTER_HMAC_OFFSET (FOOTER_HMAC_OFFSET + 32) = Ok tag ∧
  footer = concat (footer_fields (ph_key_epoch parsed) (ph_manifest_id parsed) (zlen body) (zlen b) tag).
Proof.
  intros Hf Hl H. unfold check_footer in H. rewrite Hl in H. inv_ok. bools.
  repeat match goal with H : bytes_eqb _ _ = true |- _ => apply bytes_eqb_eq in H end. subst.
  unfold get_u16, get_u32, get_u64 in *.
  repeat match goal with
    | H : get_le _ footer _ = Ok _ |- _ => apply get_le_inv in H as (? & _ & _); [|done]
    end.
  assert (get_range footer 80 112 = Some (ztake (112 - 80) (zdrop 80 footer))) as Ht
    by (apply get_range_Some; split_and!; try done; lia).
  set (tag := ztake _ _) in Ht. pose proof (proj2 (slice_Ok (E:=PackError) _ _ _ _) Ht) as Hts.
  repeat match goal with
    | H : slice footer _ _ = Ok ?r |- _ => lazymatch r with tag => fail | _ => apply slice_Ok in H end
    end.
  match goal with H : get_range footer 112 4096 = Some ?r |- _ =>
    pose proof (get_range_len _ _ _ _ H); assert (r = zeros 3984) by (rewrite (any_nonzero_false r); [f_equal; lia|done]); subst r
    end.
  pose proof (get_range_len _ _ _ _ Ht) as Htl.
  repeat match goal with
    | H : get_range footer _ _ = Some _ |- _ => apply get_range_split in H
    end.
  split; [congruence|]. exists tag. split_and!; [done|done|].
  unfold footer_fields. cbn [concat]. rewrite <- (zdrop_0 footer) at 1.
  unfold put_u16, put_u32, put_u64.
  change (zdrop (24 + Z.of_nat 8) footer) with (zdrop 32 footer) in *.
  change (zdrop (16 + Z.of_nat 8) footer) with (zdrop 24 footer) in *.
  change (zdrop (12 + Z.of_nat 4) footer) with (zdrop 16 footer) in *.
  change (zdrop (32 + Z.of_nat 8) footer) with (zdrop 40 footer) in *.
  change (zdrop (40 + Z.of_nat 8) footer) with (zdrop 48 footer) in *.
  change (zdrop (8 + Z.of_nat 2) footer) with (zdrop 10 footer) in *.
  change (zdrop (10 + Z.of_nat 2) footer) with (zdrop 12 footer) in *.
  rewrite (zdrop_all 4096) in * by lia. congruence.
Qed.

(** An accepted file is a header, a body and the footer they determine; the
tag in the footer is the HMAC of exactly those bytes. *)
Definition authenticated_as (b : bytes) (keys : KeySchedule) (h : PackHeader) (header body : bytes) : Prop :=
  zlen header = 4096 ∧ ph_manifest_bytes h = zlen body ∧ parse_pack_header_framing b = Ok h ∧
  verify_pack_header_digest header = Ok tt ∧
  b = header ++ body ++ concat (footer_fields (ph_key_epoch h) (ph_manifest_id h) (zlen body) (zlen b)
      (authenticate keys header body (zlen body) (ph_key_epoch h) (zlen b))).
Lemma verify_Ok b keys h :
  bytes_ok b → verify_authenticated_pack b keys = Ok h →
  ∃ header body, authenticated_as b keys h header body ∧
  slice (E:=PackError) b PACK_HEADER_BYTES (zlen b - PACK_FOOTER_BYTES) = Ok body ∧
  slice (E:=PackError) b 0 PACK_HEADER_BYTES = Ok header ∧ bytes_ok body.
Proof.
  intros Hb H. unfold verify_authenticated_pack in H. inv_ok. bools. subst.
  unfold PACK_HEADER_BYTES, PACK_FOOTER_BYTES, ALIGNMENT in *.
  repeat match goal with H : slice b _ _ = Ok _ |- _ => pose proof (proj1 (slice_Ok _ _ _ _) H); revert H end.
  intros S1 S2 S3.
  repeat match goal with H : get_range b _ _ = Some ?r |- _ =>
    pose proof (bytes_ok_get_range _ _ _ _ Hb H); pose proof (get_range_len _ _ _ _ H);
    apply get_range_split in H end.
  match goal with x : () |- _ => destruct x end. match goal with x : () |- _ => destruct x end.
  match goal with H : check_footer _ _ _ _ = _ |- _ =>
    apply check_footer_Ok in H as (Hm & tag & Ht & Hs & ->); [|done|lia] end.
  match goal with H : bytes_eqb _ _ = true |- _ => apply bytes_eqb_eq in H end.
  eexists _, _. split; [|by split_and!]. split_and!; try done.
  rewrite (zdrop_all (zlen b)), app_nil_r in * by lia. rewrite <- (zdrop_0 b) at 1.
  congruence.
Qed.

Definition auth_message (header body : bytes) (epoch file_len : Z) : bytes :=
  concat (auth_parts header body (zlen body) epoch file_len).
Lemma auth_message_inj h1 h2 b1 b2 e1 e2 f1 f2 :
  zlen h1 = zlen h2 → in_u64 e1 → in_u64 e2 → in_u64 f1 → in_u64 f2 → in_u64 (zlen b1) → in_u64 (zlen b2) →
  auth_message h1 b1 e1 f1 = auth_message h2 b2 e2 f2 → h1 = h2 ∧ b1 = b2 ∧ e1 = e2 ∧ f1 = f2.
Proof.
  intros Hh E1 E2 F1 F2 B1 B2. unfold auth_message, auth_parts. cbn [concat]. rewrite !app_nil_r. intros He.
  assert (zlen b1 = zlen b2) as Hl.
  { apply (f_equal zlen) in He. rewrite !zlen_app, !zlen_put_u64 in He. lia. }
  apply app_inj_zlen in He as [_ He]; [|done]. unframe. done.
Qed.
Lemma parse_pack_header_epoch b h :
  bytes_ok b → parse_pack_header_framing b = Ok h →
  in_u64 (ph_key_epoch h) ∧ in_u64 (ph_manifest_bytes h).
Proof.
  intros Hb H. unfold parse_pack_header_framing, get_u64 in H. inv_ok. subst h.
  match goal with H : slice b _ _ = Ok ?x |- _ =>
    apply slice_Ok, bytes_ok_get_range in H; [|done] end.
  repeat match goal with H : get_le 8 _ _ = Ok _ |- _ => apply get_le_inv in H as (_ & ? & _); [|done] end.
  done.
Qed.

Lemma parse_pack_header_prefix b1 b2 header :
  slice (E:=PackError) b1 0 PACK_HEADER_BYTES = Ok header →
  slice (E:=PackError) b2 0 PACK_HEADER_BYTES = Ok header →
  parse_pack_header_framing b1 = parse_pack_header_framing b2.
Proof.
  intros S1 S2. unfold parse_pack_header_framing. rewrite S1, S2.
  apply slice_Ok, get_range_Some in S1 as (_ & _ & ? & _). apply slice_Ok, get_range_Some in S2 as (_ & _ & ? & _).
  rewrite !(proj2 (Z.ltb_ge _ _)) by done. done.
Qed.

(** The tag is the 32 bytes at [FOOTER_HMAC_OFFSET] of the footer. *)
Definition pack_tag (b : bytes) : option bytes :=
  let off := zlen b - PACK_FOOTER_BYTES + FOOTER_HMAC_OFFSET in get_range b off (off + 32).
Lemma pack_tag_eq b keys h header body :
  zlen (ph_manifest_id h) = 32 → authenticated_as b keys h header body →
  pack_tag b = Some (hmac_sha256 (ks_manifest_auth keys) (auth_message header body (ph_key_epoch h) (zlen b))).
Proof.
  intros Hi (Hh & _ & _ & _ & Hb). set (tag := authenticate _ _ _ _ _ _) in Hb.
  assert (zlen tag = 32) as Ht by apply hmac_id.
  pose proof (zlen_footer (ph_key_epoch h) (ph_manifest_id h) (zlen body) (zlen b) tag Hi Ht) as Hf.
  assert (zlen b = 4096 + zlen body + 4096) as Hl by (rewrite Hb, !zlen_app; lia).
  unfold pack_tag. change (hmac_sha256 _ _) with tag.
  rewrite Hb at 1. change (header ++ body ++ concat ?f) with (concat (header :: body :: f)).
  apply (get_range_concat _ 11 tag); [done| |lia].
  rewrite Hl. unfold PACK_FOOTER_BYTES, FOOTER_HMAC_OFFSET, ALIGNMENT, footer_fields. field_lens.
Qed.
Lemma parse_pack_header_id b h : parse_pack_header_framing b = Ok h → zlen (ph_manifest_id h) = 32.
Proof.
  intros H. unfold parse_pack_header_framing in H. inv_ok. subst h. cbn [ph_manifest_id].
  match goal with H : slice _ 88 120 = Ok _ |- _ => apply slice_Ok, get_range_len in H end. lia.
Qed.
(** The message the tag of a file authenticates: header, body and the lengths
    and epoch the header names. *)
Definition pack_message (b : bytes) (h : PackHeader) : bytes :=
  auth_message (ztake PACK_HEADER_BYTES b)
    (ztake (zlen b - PACK_FOOTER_BYTES - PACK_HEADER_BYTES) (zdrop PACK_HEADER_BYTES b))
    (ph_key_epoch h) (zlen b).
Lemma pack_message_eq b h header body :
  slice (E:=PackError) b PACK_HEADER_BYTES (zlen b - PACK_FOOTER_BYTES) = Ok body →
  slice (E:=PackError) b 0 PACK_HEADER_BYTES = Ok header →
  pack_message b h = auth_message header body (ph_key_epoch h) (zlen b).
Proof.
  intros (_ & _ & _ & ->)%slice_Ok%get_range_Some (_ & _ & _ & ->)%slice_Ok%get_range_Some. done.
Qed.
Lemma accepted_tag_binds b1 b2 keys h1 h2 :
  bytes_ok b1 → bytes_ok b2 → slice_len_ok b1 → slice_len_ok b2 →
  verify_authenticated_pack b1 keys = Ok h1 → verify_authenticated_pack b2 keys = Ok h2 →
  pack_tag b1 = pack_tag b2 →
  b1 = b2 ∨ collides (hmac_sha256 (ks_manifest_auth keys)) (pack_message b1 h1) (pack_message b2 h2).
Proof.
  intros O1 O2 L1 L2 V1 V2 Ht. unfold slice_len_ok in *.
  apply verify_Ok in V1 as (hd1 & bd1 & A1 & T1 & S1 & _); [|done].
  apply verify_Ok in V2 as (hd2 & bd2 & A2 & T2 & S2 & _); [|done].
  rewrite (pack_message_eq _ _ _ _ T1 S1), (pack_message_eq _ _ _ _ T2 S2).
  pose proof A1 as (H1 & M1 & P1 & _ & B1). pose proof A2 as (H2 & M2 & P2 & _ & B2).
  destruct (parse_pack_header_epoch _ _ O1 P1) as [E1 N1]. destruct (parse_pack_header_epoch _ _ O2 P2) as [E2 N2].
  rewrite M1 in N1. rewrite M2 in N2.
  rewrite (pack_tag_eq _ _ _ _ _ (parse_pack_header_id _ _ P1) A1),
    (pack_tag_eq _ _ _ _ _ (parse_pack_header_id _ _ P2) A2) in Ht.
  injection Ht as Ht. apply hash_eq_or_collides in Ht as [He|Hc]; [left|by right].
  apply auth_message_inj in He as (-> & -> & He & Hf); try done; try lia.
  2,3: unfold in_u64, u64_bound; zlia.
  assert (h1 = h2) as -> by (rewrite (parse_pack_header_prefix b1 b2 hd2), P2 in P1 by done; by inv_ok).
  rewrite B1, B2, Hf. done.
Qed.

(** A decoded manifest is valid, and its canonical bytes have the identity
and the size the authenticated header names. *)
Lemma decode_pack_Ok b keys ctx m :
  bytes_ok b → decode_authenticated_pack b keys ctx = Ok m →
  CutManifest_ok m ∧ manifest_valid m ctx ∧
  ∃ h header body canonical, authenticated_as b keys h header body ∧
  manifest_encode_canonical m = Ok canonical ∧ zlen canonical = ph_plaintext_manifest_bytes h ∧
  ph_manifest_id h = manifest_id canonical ∧ ph_tenant_namespace h = cm_tenant_namespace m ∧
  ph_key_epoch h = cm_key_epoch m ∧ (ph_encrypted h = false → body = canonical).
Proof.
  intros Hb H. unfold decode_authenticated_pack in H. inv_ok. bools. destruct x3. subst.
  match goal with H : verify_authenticated_pack _ _ = _ |- _ =>
    apply verify_Ok in H as (header & body & A & S1 & S2 & Hy); [|done] end.
  assert (x0 = body) as -> by congruence.
  match goal with H : open_manifest _ _ _ _ = Ok ?c |- _ => rename c into canonical end.
  assert (bytes_ok canonical ∧ (ph_encrypted x = false → body = canonical)) as [Hc He].
  { unfold open_manifest in *. destruct (ph_encrypted x); inv_ok; [|by subst].
    match goal with H : aead_decrypt _ _ _ _ = Some _ |- _ => by apply aead_bytes in H as [? _] end. }
  match goal with H : manifest_decode_canonical _ = _ |- _ => apply manifest_encode_decode in H as (? & ? & ?); [|done] end.
  repeat match goal with H : bytes_eqb _ _ = true |- _ => apply bytes_eqb_eq in H end.
  split_and!; [done|by apply validate_manifest_Ok|]. exists x, header, body, canonical. by split_and!.
Qed.

(** ** No panic *)
Lemma parse_pack_header_no_panic b : ¬ panics (parse_pack_header_framing b).
Proof.
  unfold parse_pack_header_framing, get_u16, get_u32, get_u64, PACK_HEADER_BYTES, ALIGNMENT.
  destruct (zlen b <? 4096) eqn:Hg; [by intros []|]. bools.
  apply bind_no_panic; [apply slice_no_panic; lia|]. intros h Hh%slice_Ok%get_range_len.
  no_panic; try (apply slice_no_panic; lia); try (apply get_le_no_panic; lia).
Qed.
Lemma verify_pack_header_digest_no_panic header :
  zlen header = 4096 → ¬ panics (verify_pack_header_digest header).
Proof.
  intros Hl. unfold verify_pack_header_digest, PACK_HEADER_DIGEST_OFFSET.
  apply bind_no_panic; [apply slice_no_panic; lia|]. intros x _.
  rewrite write_Ok by (rewrite ?zlen_zeros by done; lia). no_panic.
Qed.
Lemma inspect_pack_header_no_panic b : ¬ panics (inspect_pack_header b).
Proof.
  unfold inspect_pack_header. apply bind_no_panic; [apply parse_pack_header_no_panic|].
  intros h Hh. assert (4096 ≤ zlen b) as Hl.
  { unfold parse_pack_header_framing in Hh. inv_ok. bools. done. }
  apply bind_no_panic; [apply slice_no_panic; unfold PACK_HEADER_BYTES, ALIGNMENT; lia|].
  intros x Hx%slice_Ok%get_range_len. apply bind_no_panic; [by apply verify_pack_header_digest_no_panic|no_panic].
Qed.
Lemma check_footer_no_panic b footer body h : zlen footer = 4096 → ¬ panics (check_footer b footer body h).
Proof.
  intros Hl. unfold check_footer, get_u16, get_u32, get_u64.
  no_panic; try (apply slice_no_panic; lia); try (apply get_le_no_panic; lia).
Qed.
Lemma verify_pack_no_panic b keys : ¬ panics (verify_authenticated_pack b keys).
Proof.
  unfold verify_authenticated_pack, PACK_HEADER_BYTES, PACK_FOOTER_BYTES, ALIGNMENT.
  case_match; [by intros []|]. bools. apply bind_no_panic; [apply parse_pack_header_no_panic|].
  intros h _. case_match; [by intros []|].
  apply bind_no_panic; [apply slice_no_panic; lia|]. intros f Hf%slice_Ok%get_range_len.
  apply bind_no_panic; [apply slice_no_panic; lia|]. intros y _.
  apply bind_no_panic; [apply check_footer_no_panic; lia|]. intros [] _.
  apply bind_no_panic; [apply slice_no_panic; lia|]. intros hd Hd%slice_Ok%get_range_len.
  apply bind_no_panic; [apply verify_pack_header_digest_no_panic; lia|]. intros [] _.
  unfold FOOTER_HMAC_OFFSET. no_panic. apply slice_no_panic; lia.
Qed.
Lemma decode_pack_no_panic b keys ctx : bytes_ok b → ¬ panics (decode_authenticated_pack b keys ctx).
Proof.
  intros Hb. unfold decode_authenticated_pack. apply bind_no_panic; [apply verify_pack_no_panic|].
  intros h (header & body & A & S1 & S2 & Hy)%verify_Ok; [|done].
  pose proof (proj1 (slice_Ok _ _ _ _) S2) as (_ & _ & Hl & _)%get_range_Some.
  unfold PACK_HEADER_BYTES, ALIGNMENT in Hl. rewrite S1. cbn [mbind outcome_bind].
  apply bind_no_panic.
  { unfold open_manifest, manifest_encryption_key. rewrite S2. no_panic; apply slice_no_panic; lia. }
  intros canonical Hc. assert (bytes_ok canonical) as Hok.
  { unfold open_manifest in *. destruct (ph_encrypted h); inv_ok; [|by subst].
    match goal with H : aead_decrypt _ _ _ _ = Some _ |- _ => by apply aead_bytes in H as [? _] end. }
  case_match; [by intros []|]. apply bind_no_panic; [by apply manifest_decode_no_panic|].
  intros m (Hm & _)%manifest_encode_decode; [|done]. no_panic. by apply validate_manifest_no_panic.
Qed.
End binding.
