(* ===== verification/Transform.v ===== *)
(** * Transform descriptors (crates/kvpack-core/src/transform.rs)

    An ordered list of repack operations with its canonical encoding.  The
    decoder has no final comparison: that it still accepts nothing but
    encodings is a theorem.  The JSON form is serde's and is not modelled. *)
From Stdlib Require Import ZArith Lia.
From stdpp Require Import base tactics numbers list strings option.
From S2P Require Import Prelude Bytes Canonical Wire State Validator ValidatorLaws Crypto.

Definition TRANSFORM_MAGIC : bytes := ascii_bytes "KVXFM1" ++ [0; 0].
Definition TRANSFORM_VERSION : Z := 1.
Definition MAX_TRANSFORM_OPS : Z := 64.
Definition MAX_TRANSFORM_LABEL_BYTES : Z := 128.
Definition MAX_PERMUTATION_WIDTH : Z := 16384.
Definition MAX_PAD_TARGET_BYTES : Z := 1073741824.
Definition MAX_ROPE_HEAD_DIM : Z := 4096.

Inductive CastDType := CastFp16 | CastBf16 | CastFp8E4m3.
Definition CastDType_from_wire (v : Z) : result CastDType :=
  if v =? 1 then Ok CastFp16 else if v =? 2 then Ok CastBf16 else if v =? 3 then Ok CastFp8E4m3
  else Err (UnknownEnum "cast dtype" v).
Definition CastDType_wire (d : CastDType) : Z :=
  match d with CastFp16 => 1 | CastBf16 => 2 | CastFp8E4m3 => 3 end.

Inductive RopeDirection := NeoxToInterleaved | InterleavedToNeox.
Definition RopeDirection_from_wire (v : Z) : result RopeDirection :=
  if v =? 1 then Ok NeoxToInterleaved else if v =? 2 then Ok InterleavedToNeox
  else Err (UnknownEnum "rope direction" v).
Definition RopeDirection_wire (d : RopeDirection) : Z :=
  match d with NeoxToInterleaved => 1 | InterleavedToNeox => 2 end.

#[export] Instance CastDType_eq_dec : EqDecision CastDType.
Proof. solve_decision. Defined.
#[export] Instance CastDType_enum : WireEnum CastDType_wire CastDType_from_wire.
Proof. solve_wire_enum. Qed.
#[export] Instance RopeDirection_enum : WireEnum RopeDirection_wire RopeDirection_from_wire.
Proof. solve_wire_enum. Qed.

Inductive RepackOp :=
  | PermuteHeadPairs (order : list Z)
  | ReorderPlanes (order : list Z)
  | RegroupLayers (order : list Z)
  | PadOrTrim (target_bytes : Z)
  | DtypeCast (from to : CastDType) (scale_id : option bytes)
  | RopePermute (direction : RopeDirection) (head_dim : Z).

(** [order.len() as u16] keeps the low 16 bits. *)
Definition encode_permutation (tag : Z) (order : list Z) : bytes :=
  put_u16 tag ++ put_u16 (zlen order mod u16_bound) ++ put_list put_u32 order.
Definition decode_permutation : Dec (list Z) :=
  width ← dec_u16;
  dec_repeat (Z.to_nat width) dec_u32.

Definition RepackOp_encode (op : RepackOp) : bytes :=
  match op with
  | PermuteHeadPairs order => encode_permutation 1 order
  | ReorderPlanes order => encode_permutation 2 order
  | RegroupLayers order => encode_permutation 3 order
  | PadOrTrim target_bytes => put_u16 4 ++ put_u64 target_bytes
  | DtypeCast from to scale_id =>
      put_u16 5 ++ put_enum CastDType_wire from ++ put_enum CastDType_wire to ++
      match scale_id with
      | Some id => put_u8 1 ++ put_id id
      | None => put_u8 0 ++ put_id (zeros 32)
      end
  | RopePermute direction head_dim =>
      put_u16 6 ++ put_enum RopeDirection_wire direction ++ put_u32 head_dim
  end.

(** The marker and the identity of an optional scale sidecar. *)
Definition scale_id_of (present : Z) (id : bytes) : result (option bytes) :=
  if (present =? 0) && bytes_eqb id (zeros 32) then Ok None
  else if present =? 1 then Ok (Some id)
  else Err (Semantics "transform dtype-cast scale-id marker is outside the v1 bounds").
Definition RepackOp_decode : Dec RepackOp :=
  tag ← dec_u16;
  if tag =? 1 then (order ← decode_permutation; mret (PermuteHeadPairs order))
  else if tag =? 2 then (order ← decode_permutation; mret (ReorderPlanes order))
  else if tag =? 3 then (order ← decode_permutation; mret (RegroupLayers order))
  else if tag =? 4 then (target_bytes ← dec_u64; mret (PadOrTrim target_bytes))
  else if tag =? 5 then
    (from ← dec_enum CastDType_from_wire;
     to ← dec_enum CastDType_from_wire;
     present ← dec_u8;
     id ← dec_id;
     scale_id ← dec_lift (scale_id_of present id);
     mret (DtypeCast from to scale_id))
  else if tag =? 6 then
    (direction ← dec_enum RopeDirection_from_wire;
     head_dim ← dec_u32;
     mret (RopePermute direction head_dim))
  else dec_fail (UnknownEnum "transform op" tag).

(** The loop of [validate_permutation] over the [seen] vector. *)
Fixpoint check_permutation (width : Z) (seen : list bool) (order : list Z) : result unit :=
  match order with
  | [] => Ok tt
  | i :: rest =>
      if negb (i <? width) then
        Err (Semantics "transform permutation index is outside the permutation width") else
      hit ← index seen i;
      if hit : bool then Err (Semantics "transform permutation repeats a source index")
      else check_permutation width (<[Z.to_nat i := true]> seen) rest
  end.
Definition validate_permutation (order : list Z) : result unit :=
  if (zlen order =? 0) || (MAX_PERMUTATION_WIDTH <? zlen order) then
    Err (Bounds "transform permutation width is outside the v1 bounds") else
  check_permutation (zlen order) (replicate (length order) false) order.

Definition RepackOp_validate (op : RepackOp) : result unit :=
  match op with
  | PermuteHeadPairs order | ReorderPlanes order | RegroupLayers order =>
      validate_permutation order
  | PadOrTrim target_bytes =>
      if (target_bytes =? 0) || (MAX_PAD_TARGET_BYTES <? target_bytes) then
        Err (Bounds "transform pad-or-trim target is outside the v1 bounds")
      else Ok tt
  | DtypeCast from to scale_id =>
      if bool_decide (from = to) then
        Err (Semantics "transform dtype-cast endpoints must differ") else
      let needs_scale := bool_decide (from = CastFp8E4m3) || bool_decide (to = CastFp8E4m3) in
      if negb (Bool.eqb needs_scale (bool_decide (is_Some scale_id))) then
        Err (Semantics "transform dtype-cast scale-id presence must match fp8e4m3 endpoints")
      else Ok tt
  | RopePermute _ head_dim =>
      if (head_dim <? 2) || (MAX_ROPE_HEAD_DIM <? head_dim) || negb (head_dim mod 2 =? 0) then
        Err (Bounds "transform rope-permute head dim is outside the v1 bounds")
      else Ok tt
  end.

Definition is_ascii (value : bytes) : bool := forallb (λ b, b <? 128) value.
Definition validate_label (value : bytes) (what : string) : result unit :=
  if (zlen value =? 0) || (MAX_TRANSFORM_LABEL_BYTES <? zlen value) || negb (is_ascii value) then
    Err (Bounds what)
  else Ok tt.

Record TransformDescriptor := mkTransformDescriptor {
    schema_version : Z;
    td_name : bytes;
    source_layout : bytes;
    ops : list RepackOp
}.

(** [for op in &self.ops { op.validate()?; }] *)
Fixpoint validate_ops (l : list RepackOp) : result unit :=
  match l with
  | [] => Ok tt
  | op :: l => _ ← RepackOp_validate op; validate_ops l
  end.
Definition transform_validate (d : TransformDescriptor) : result unit :=
  if negb (schema_version d =? TRANSFORM_VERSION) then
    Err (BadMagic "transform descriptor schema version is outside the v1 bounds") else
  _ ← validate_label (td_name d) "transform name is outside the v1 bounds";
  _ ← validate_label (source_layout d) "transform source layout is outside the v1 bounds";
  if MAX_TRANSFORM_OPS <? zlen (ops d) then
    Err (Bounds "transform op count is outside the v1 bounds") else
  validate_ops (ops d).

Definition transform_encode_body (d : TransformDescriptor) : result bytes :=
  name ← put_string (td_name d);
  layout ← put_string (source_layout d);
  mret (put_u16 TRANSFORM_VERSION ++ name ++ layout ++ put_u16 (zlen (ops d) mod u16_bound) ++
        put_list RepackOp_encode (ops d)).
Definition transform_encode (d : TransformDescriptor) : result bytes :=
  _ ← transform_validate d;
  body ← transform_encode_body d;
  mret (TRANSFORM_MAGIC ++ body).

Definition transform_decode_body : Dec TransformDescriptor :=
  version ← dec_u16;
  if negb (version =? TRANSFORM_VERSION) then
    dec_fail (BadMagic "invalid transform descriptor version") else
  name ← dec_string;
  layout ← dec_string;
  count ← dec_u16;
  l ← dec_repeat (Z.to_nat count) RepackOp_decode;
  mret (mkTransformDescriptor TRANSFORM_VERSION name layout l).
Definition transform_decode (b : bytes) : result TransformDescriptor :=
  input ← Decoder_new b TRANSFORM_MAGIC;
  '(descriptor, input) ← transform_decode_body input;
  _ ← Decoder_finish input;
  _ ← transform_validate descriptor;
  Ok descriptor.

Definition transform_id `{Crypto} (d : TransformDescriptor) : result bytes :=
  canonical ← transform_encode d;
  mret (sha256_digest canonical).

(** * Laws of transform descriptors

    The permutation check decides permutations; the decoder accepts exactly the
    encodings of valid descriptors. *)
(** ** Permutations *)
Definition is_permutation (order : list Z) : Prop := order ≡ₚ seqZ 0 (zlen order).

Lemma check_permutation_Ok width seen order :
  Z.of_nat (length seen) = width → Forall (λ i, 0 ≤ i) order →
  check_permutation width seen order = Ok tt ↔
  NoDup order ∧ Forall (λ i, i < width ∧ seen !! Z.to_nat i = Some false) order.
Proof.
  intros Hl Hpos. revert seen Hl. induction Hpos as [|i order Hi Hpos IH]; intros seen Hl; simpl.
  { split; [by repeat constructor|done]. }
  rewrite list.NoDup_cons, Forall_cons_iff.
  destruct (Z.ltb_spec i width) as [Hlt|Hge]; cbn [negb]; [|split; [done|lia]].
  destruct (lookup_lt_is_Some_2 seen (Z.to_nat i)) as [hit Hhit]; [lia|].
  unfold index. rewrite (proj2 (Z.leb_le _ _)) by done. rewrite Hhit. cbn [expect mbind outcome_bind].
  destruct hit; [split; [done|naive_solver]|].
  rewrite IH by (by rewrite length_insert). split.
  - intros [Hnd Hall]. split_and!; try done.
    + intros Hin. rewrite list.Forall_forall in Hall. apply Hall in Hin as [_ Hin].
      rewrite list_lookup_insert_eq in Hin by lia. done.
    + rewrite list.Forall_forall in Hall |- *. intros j Hj. destruct (Hall j Hj) as [? Hsj].
      split; [done|]. destruct (decide (Z.to_nat i = Z.to_nat j)) as [Heq|Hne].
      * rewrite Heq, list_lookup_insert_eq in Hsj by lia. done.
      * by rewrite list_lookup_insert_ne in Hsj.
  - intros [[Hnin Hnd] [_ Hall]]. split; [done|]. rewrite list.Forall_forall in Hall, Hpos |- *.
    intros j Hj. destruct (Hall j Hj). split; [done|]. rewrite list_lookup_insert_ne; [done|].
    intros Heq. apply Hnin. specialize (Hpos j Hj). assert (i = j) as -> by lia. done.
Qed.

Lemma permutation_of_bounded order :
  NoDup order → Forall (λ i, 0 ≤ i < zlen order) order → is_permutation order.
Proof.
  intros Hnd Hall. apply submseteq_length_Permutation.
  - apply NoDup_submseteq; [done|]. rewrite list.Forall_forall in Hall. intros x Hx%Hall.
    apply elem_of_seqZ. lia.
  - rewrite length_seqZ. unfold zlen. lia.
Qed.
Lemma is_permutation_bounds order i : is_permutation order → i ∈ order → 0 ≤ i < zlen order.
Proof. unfold is_permutation. intros Hp Hi. rewrite Hp in Hi. apply elem_of_seqZ in Hi. lia. Qed.
Lemma is_permutation_nodup order : is_permutation order → NoDup order.
Proof. unfold is_permutation. intros Hp. rewrite Hp. apply NoDup_seqZ. Qed.

Lemma validate_permutation_Ok order :
  Forall (λ i, 0 ≤ i) order →
  validate_permutation order = Ok tt ↔
  0 < zlen order ≤ MAX_PERMUTATION_WIDTH ∧ is_permutation order.
Proof.
  intros Hpos. unfold validate_permutation.
  destruct ((zlen order =? 0) || (MAX_PERMUTATION_WIDTH <? zlen order)) eqn:Hg.
  { split; [done|]. intros [[? ?] _]. apply orb_true_iff in Hg as [Hg|Hg];
      [apply Z.eqb_eq in Hg|apply Z.ltb_lt in Hg]; lia. }
  bools. rewrite check_permutation_Ok by (by rewrite ?length_replicate).
  pose proof (zlen_nonneg order). split.
  - intros [Hnd Hall]. split; [lia|]. apply permutation_of_bounded; [done|].
    rewrite list.Forall_forall in Hpos, Hall |- *. intros i Hi. split; [by apply Hpos|by apply Hall].
  - intros [_ Hp]. split; [by apply is_permutation_nodup|]. apply list.Forall_forall. intros i Hi.
    pose proof (is_permutation_bounds _ _ Hp Hi). split; [lia|].
    apply lookup_replicate_2. unfold zlen in *. lia.
Qed.
Lemma check_permutation_no_panic width seen order :
  Z.of_nat (length seen) = width → Forall (λ i, 0 ≤ i) order →
  ¬ panics (check_permutation width seen order).
Proof.
  intros Hl Hpos. revert seen Hl. induction Hpos as [|i order Hi Hpos IH]; intros seen Hl; simpl.
  { by intros []. }
  destruct (Z.ltb_spec i width) as [Hlt|Hge]; cbn [negb]; [|by intros []].
  apply bind_no_panic; [apply index_no_panic; unfold zlen; lia|]. intros hit _.
  destruct hit; [by intros []|]. apply IH. by rewrite length_insert.
Qed.
Lemma validate_permutation_no_panic order :
  Forall (λ i, 0 ≤ i) order → ¬ panics (validate_permutation order).
Proof.
  intros Hpos. unfold validate_permutation. case_match; [by intros []|].
  apply check_permutation_no_panic; [by rewrite length_replicate|done].
Qed.

(** ** Well-formed operations and descriptors: what the Rust types guarantee,
    and the 16-bit counts *)
Definition order_ok (order : list Z) : Prop := Forall in_u32 order ∧ zlen order < u16_bound.
Definition RepackOp_ok (op : RepackOp) : Prop :=
  match op with
  | PermuteHeadPairs order | ReorderPlanes order | RegroupLayers order => order_ok order
  | PadOrTrim target => in_u64 target
  | DtypeCast _ _ scale => ∀ id, scale = Some id → id_ok id
  | RopePermute _ head_dim => in_u32 head_dim
  end.
Definition TransformDescriptor_ok (d : TransformDescriptor) : Prop :=
  schema_version d = TRANSFORM_VERSION ∧ string_ok (td_name d) ∧ string_ok (source_layout d) ∧
  zlen (ops d) < u16_bound ∧ Forall RepackOp_ok (ops d).

Lemma parses_order order :
  order_ok order →
  parses decode_permutation (put_u16 (zlen order mod u16_bound) ++ put_list put_u32 order) order.
Proof.
  intros [Ho Hl]. pose proof (zlen_nonneg order). rewrite Z.mod_small by lia.
  unfold decode_permutation. eapply parses_bind; [apply parses_u16; range_lia|]. cbv beta.
  eapply (parses_list in_u32 (λ v, Ok (put_u32 v)) dec_u32); [done|apply enc_list_put|apply length_Z_to_nat].
Qed.

Lemma sound_order :
  sound decode_permutation (λ order b, order_ok order ∧
    b = put_u16 (zlen order mod u16_bound) ++ put_list put_u32 order).
Proof.
  unfold decode_permutation. eapply sound_bind; [apply sound_u16|]. intros n ? [Hn ->] _.
  eapply sound_weaken; [eapply sound_list, u32_codec|]. intros order b (Hl & Ho & He) _.
  rewrite enc_list_put in He. apply Ok_inj in He as <-.
  apply zlen_of_length in Hl; [|range_lia]. subst n. split; [by split; [|apply Hn]|].
  by rewrite Z.mod_small by apply Hn.
Qed.
#[export] Hint Resolve parses_order sound_order : dec.

Definition put_scale (s : option bytes) : bytes :=
  match s with Some id => put_u8 1 ++ put_id id | None => put_u8 0 ++ put_id (zeros 32) end.
Lemma sound_scale present id :
  id_ok id →
  sound (dec_lift (scale_id_of present id)) (λ s b,
    b = [] ∧ (∀ i, s = Some i → id_ok i) ∧ put_u8 present ++ put_id id = put_scale s).
Proof.
  intros Hid. apply sound_lift; unfold scale_id_of.
  - repeat case_match; by intros [].
  - intros s H. case_match eqn:H1.
    + apply andb_prop in H1 as [->%Z.eqb_eq ->%bytes_eqb_eq]. by apply Ok_inj in H as <-.
    + case_match eqn:H2; [|done]. apply Z.eqb_eq in H2 as ->. apply Ok_inj in H as <-.
      split_and!; try done. by intros i [= <-].
Qed.

#[export] Instance RepackOp_codec : Codec RepackOp_ok (λ op, Ok (RepackOp_encode op)) RepackOp_decode.
Proof.
  split.
  - by eexists.
  - intros op b Hop [= <-]. destruct op as [o|o|o|t|f t [id|]|d h]; cbn [RepackOp_encode]; unfold encode_permutation;
      bytes_ok_app_all; try (apply put_list_bytes; auto with bytes).
    apply bytes_ok_zeros.
  - intros op b Hop [= <-]. unfold RepackOp_decode.
    assert (∀ v, 0 ≤ v ≤ 6 → in_u16 v) as Hu by (intros; range_lia).
    destruct op as [o|o|o|t|f t s|d h]; cbn [RepackOp_encode]; unfold encode_permutation;
      (eapply parses_bind; [apply parses_u16, Hu; lia|]); cbn [Z.eqb Pos.eqb]; cbv beta iota.
    1-3: apply parses_nil_r; (eapply parses_bind; [by apply parses_order|]); apply parses_ret.
    + parse_all.
    + assert (scale_id_of (if s then 1 else 0) (default (zeros 32) s) = Ok s) as Hs by by destruct s.
      assert (in_u8 (if s then 1 else 0)) by (destruct s; range_lia).
      assert (id_ok (default (zeros 32) s)).
      { destruct s as [id|]; [by apply Hop|]. split; [done|apply bytes_ok_zeros]. }
      replace (match s with Some id => put_u8 1 ++ put_id id | None => put_u8 0 ++ put_id (zeros 32) end)
        with (put_u8 (if s then 1 else 0) ++ put_id (default (zeros 32) s)) by by destruct s.
      parse_all.
    + parse_all.
  - unfold RepackOp_decode. eapply sound_bind; [apply sound_u16|]. intros tag ? [_ ->] _. cbv beta.
    repeat match goal with |- sound (if ?t =? ?k then _ else _) _ =>
      destruct (Z.eqb_spec t k) as [->|_] end; [| | | | | |apply sound_fail].
    5: { do 4 sound_step. eapply sound_bind; [apply sound_scale; tauto|]. cbv beta. intros s ? (-> & Hs & He) _.
         apply sound_ret. destruct_and!. subst. rewrite app_nil_r. split; [done|]. cbn [RepackOp_encode].
         by rewrite He. }
    all: sound_all; destruct_and?; subst; rewrite ?app_nil_r; try done.
Qed.

(** ** Descriptors *)
#[export] Instance transform_body_codec :
  Codec TransformDescriptor_ok transform_encode_body transform_decode_body.
Proof.
  split.
  - intros d (_ & Hn & Hl & _). unfold transform_encode_body.
    destruct (codec_total (Codec:=string_codec) _ Hn) as [n ->].
    destruct (codec_total (Codec:=string_codec) _ Hl) as [l ->]. by eexists.
  - intros d b (_ & Hn & Hl & _ & Ho) H. unfold transform_encode_body in H. inv_ok. subst.
    repeat match goal with H : put_string _ = Ok _ |- _ =>
      apply (codec_bytes (Codec:=string_codec)) in H; [|done] end.
    bytes_ok_app_all. apply put_list_bytes. intros op Hop. rewrite list.Forall_forall in Ho.
    by apply (codec_bytes (Codec:=RepackOp_codec) op); [apply Ho|].
  - intros [v n l o] b (Hv & Hn & Hl & Hc & Ho) H. unfold transform_encode_body in H. inv_ok. subst.
    cbn [schema_version td_name source_layout ops] in *. subst v. pose proof (zlen_nonneg o).
    rewrite Z.mod_small by lia. unfold transform_decode_body.
    assert (in_u16 (zlen o)) by range_lia. assert (in_u16 TRANSFORM_VERSION) by by split.
    pose proof (parses_list _ _ RepackOp_decode _ _ _ Ho (enc_list_put _ _) (length_Z_to_nat o)).
    parse_all.
  - unfold transform_decode_body. sound_all. sound_fields.
    unfold TransformDescriptor_ok, transform_encode_body. cbn [schema_version td_name source_layout ops].
    split; [split_and!; try done; range_lia|].
    repeat match goal with H : put_string _ = Ok _ |- _ => rewrite H; cbn [mbind outcome_bind] end.
    unfold mret, outcome_ret. rewrite Z.mod_small by range_lia. by rewrite app_nil_r.
Qed.

(** What the Rust types of a descriptor guarantee. *)
Definition order_typed (order : list Z) : Prop := Forall in_u32 order.
Definition RepackOp_typed (op : RepackOp) : Prop :=
  match op with
  | PermuteHeadPairs order | ReorderPlanes order | RegroupLayers order => order_typed order
  | PadOrTrim target => in_u64 target
  | DtypeCast _ _ scale => ∀ id, scale = Some id → id_ok id
  | RopePermute _ head_dim => in_u32 head_dim
  end.
Definition str_typed (s : bytes) : Prop := bytes_ok s ∧ utf8_valid s = true.
Definition TransformDescriptor_typed (d : TransformDescriptor) : Prop :=
  str_typed (td_name d) ∧ str_typed (source_layout d) ∧ Forall RepackOp_typed (ops d).

(** What a descriptor must satisfy. *)
Definition RepackOp_valid (op : RepackOp) : Prop :=
  match op with
  | PermuteHeadPairs order | ReorderPlanes order | RegroupLayers order =>
      0 < zlen order ≤ MAX_PERMUTATION_WIDTH ∧ is_permutation order
  | PadOrTrim target => 0 < target ≤ MAX_PAD_TARGET_BYTES
  | DtypeCast from to scale =>
      from ≠ to ∧ (is_Some scale ↔ from = CastFp8E4m3 ∨ to = CastFp8E4m3)
  | RopePermute _ head_dim => 2 ≤ head_dim ≤ MAX_ROPE_HEAD_DIM ∧ (2 | head_dim)
  end.
Definition label_valid (s : bytes) : Prop :=
  0 < zlen s ≤ MAX_TRANSFORM_LABEL_BYTES ∧ Forall (λ b, b < 128) s.
Definition transform_valid (d : TransformDescriptor) : Prop :=
  schema_version d = TRANSFORM_VERSION ∧ label_valid (td_name d) ∧ label_valid (source_layout d) ∧
  zlen (ops d) ≤ MAX_TRANSFORM_OPS ∧ Forall RepackOp_valid (ops d).

Lemma in_u32_nonneg order : Forall in_u32 order → Forall (λ i, 0 ≤ i) order.
Proof. intros H. eapply list.Forall_impl; [exact H|]. by intros ? [? _]. Qed.
Lemma RepackOp_validate_Ok op : RepackOp_typed op → RepackOp_validate op = Ok tt ↔ RepackOp_valid op.
Proof.
  destruct op as [o|o|o|t|f t s|d h]; simpl; intros Ht.
  1-3: by apply validate_permutation_Ok, in_u32_nonneg.
  - unfold in_u64 in Ht. case_match eqn:Hg; [|bools; split; [lia|done]].
    split; [done|]. apply orb_true_iff in Hg as [Hg|Hg];
      [apply Z.eqb_eq in Hg|apply Z.ltb_lt in Hg]; lia.
  - destruct f, t, s; vm_compute; split; try done; try naive_solver.
    all: intros [? H]; exfalso; naive_solver.
  - rewrite <- Z.mod_divide by lia. case_match eqn:Hg; [|bools; split; [lia|done]].
    split; [done|]. intros [? Hm]. rewrite !orb_true_iff, negb_true_iff in Hg.
    destruct Hg as [[Hg|Hg]|Hg]; [apply Z.ltb_lt in Hg|apply Z.ltb_lt in Hg|apply Z.eqb_neq in Hg]; lia.
Qed.
Lemma validate_ops_Ok l :
  Forall RepackOp_typed l → validate_ops l = Ok tt ↔ Forall RepackOp_valid l.
Proof.
  induction 1 as [|op l Hop _ IH]; simpl; [split; [constructor|done]|].
  rewrite Forall_cons_iff, <- IH, <- RepackOp_validate_Ok by done.
  destruct (RepackOp_validate op) as [[]| |]; naive_solver.
Qed.
Lemma validate_label_Ok s what : validate_label s what = Ok tt ↔ label_valid s.
Proof.
  unfold validate_label, label_valid, is_ascii. pose proof (zlen_nonneg s).
  assert (forallb (λ b, b <? 128) s = true ↔ Forall (λ b, b < 128) s) as Hf.
  { rewrite forallb_forall, list.Forall_forall. setoid_rewrite list_elem_of_In. by setoid_rewrite Z.ltb_lt. }
  rewrite <- Hf. case_match eqn:Hg; [|bools; split; [split; [lia|done]|done]].
  split; [done|]. intros [? ?]. rewrite !orb_true_iff, negb_true_iff in Hg.
  destruct Hg as [[Hg|Hg]|Hg]; [apply Z.eqb_eq in Hg; lia|apply Z.ltb_lt in Hg; lia|congruence].
Qed.
Lemma transform_validate_Ok d :
  TransformDescriptor_typed d → transform_validate d = Ok tt ↔ transform_valid d.
Proof.
  intros (_ & _ & Ho). unfold transform_validate, transform_valid.
  rewrite <- !(validate_label_Ok _ "transform name is outside the v1 bounds"), <- validate_ops_Ok by done.
  assert (∀ w1 w2, validate_label (source_layout d) w1 = Ok tt ↔ validate_label (source_layout d) w2 = Ok tt) as Hw.
  { intros. by rewrite !validate_label_Ok. }
  rewrite (Hw "transform name is outside the v1 bounds" "transform source layout is outside the v1 bounds").
  destruct (Z.eqb_spec (schema_version d) TRANSFORM_VERSION); cbn [negb]; [|naive_solver].
  destruct (validate_label (td_name d) _) as [[]| |]; cbn [mbind outcome_bind]; [|naive_solver..].
  destruct (validate_label (source_layout d) _) as [[]| |]; cbn [mbind outcome_bind]; [|naive_solver..].
  destruct (Z.ltb_spec MAX_TRANSFORM_OPS (zlen (ops d))); [|naive_solver].
  split; [done|]. intros (_ & _ & _ & ? & _). lia.
Qed.
Lemma transform_ok_of_valid d :
  TransformDescriptor_typed d → transform_valid d → TransformDescriptor_ok d.
Proof.
  intros ((Hn & Un) & (Hl & Ul) & Ht) (Hv & ((_ & ?) & _) & ((_ & ?) & _) & Hc & Hops).
  unfold MAX_TRANSFORM_LABEL_BYTES, MAX_TRANSFORM_OPS, TransformDescriptor_ok, string_ok, u16_bound in *.
  split_and!; try done; try lia. rewrite list.Forall_forall in Ht, Hops |- *. intros op Hop.
  specialize (Ht op Hop). specialize (Hops op Hop). destruct op; simpl in *; try done.
  all: split; [done|]; unfold MAX_PERMUTATION_WIDTH, u16_bound in *; lia.
Qed.
Lemma transform_typed_of_ok d : TransformDescriptor_ok d → TransformDescriptor_typed d.
Proof.
  intros (_ & (_ & ? & ?) & (_ & ? & ?) & _ & Ho). split_and!; try done.
  eapply list.Forall_impl; [exact Ho|]. intros [] Hop; simpl in *; try done; apply Hop.
Qed.

Definition transform_frame (d : TransformDescriptor) : result bytes :=
  body ← transform_encode_body d; mret (TRANSFORM_MAGIC ++ body).
Lemma transform_decode_split b :
  bytes_ok b →
  transform_decode b =
  d ← canonical_decode TRANSFORM_MAGIC transform_decode_body transform_frame (Reserved "") b;
  _ ← transform_validate d; Ok d.
Proof.
  intros Hb. rewrite (canonical_decode_recheck _ TransformDescriptor_ok transform_encode_body);
    [|apply _|done..]. unfold canonical_decode_fast, transform_decode.
  destruct (Decoder_new b TRANSFORM_MAGIC); cbn [mbind outcome_bind]; [|done..].
  destruct (transform_decode_body _) as [[d i]| |]; cbn [mbind outcome_bind]; [|done..].
  by destruct (Decoder_finish i).
Qed.
Lemma transform_decode_Ok b d :
  bytes_ok b → slice_len_ok b →
  transform_decode b = Ok d ↔ TransformDescriptor_typed d ∧ transform_encode d = Ok b.
Proof.
  intros Hb Hl. rewrite transform_decode_split by done. split.
  - intros H. inv_ok. subst x. destruct x0.
    eapply (canonical_decode_Ok _ TransformDescriptor_ok transform_encode_body) in H as [Hok He];
      [|apply _|done..]. split; [by apply transform_typed_of_ok|].
    unfold transform_encode. rewrite H0. exact He.
  - intros [Ht He]. unfold transform_encode in He. apply bind_Ok in He as ([] & Hv & He).
    pose proof (transform_ok_of_valid d Ht (proj1 (transform_validate_Ok d Ht) Hv)) as Hok.
    erewrite (canonical_decode_encode _ TransformDescriptor_ok transform_encode_body _ transform_frame);
      [|apply _|done..]. cbn [mbind outcome_bind]. by rewrite Hv.
Qed.
Lemma transform_encode_total d :
  TransformDescriptor_typed d → transform_valid d → ∃ b, transform_encode d = Ok b ∧ bytes_ok b.
Proof.
  intros Ht Hv. pose proof (transform_ok_of_valid d Ht Hv) as Hok.
  unfold transform_encode. rewrite (proj2 (transform_validate_Ok d Ht) Hv). cbn [mbind outcome_bind].
  destruct (codec_total (Codec:=transform_body_codec) d Hok) as [b Hb]. rewrite Hb. eexists. split; [done|].
  apply bytes_ok_app. split; [by apply bytes_okb_ok|]. by apply (codec_bytes (Codec:=transform_body_codec)) in Hb.
Qed.
Lemma transform_validate_no_panic d : TransformDescriptor_typed d → ¬ panics (transform_validate d).
Proof.
  intros (_ & _ & Ho). unfold transform_validate, validate_label. no_panic.
  clear -Ho. induction Ho as [|op l Hop _ IH]; simpl; [by intros []|]. apply bind_no_panic; [|by intros].
  destruct op; simpl in *; no_panic; by apply validate_permutation_no_panic, in_u32_nonneg.
Qed.
Lemma transform_decode_no_panic b : bytes_ok b → ¬ panics (transform_decode b).
Proof.
  intros Hb. rewrite transform_decode_split by done. apply bind_no_panic.
  { eapply (canonical_decode_no_panic _ TransformDescriptor_ok transform_encode_body); [apply _|done..]. }
  intros d Hd. eapply (canonical_decode_Ok _ TransformDescriptor_ok transform_encode_body) in Hd as [Hok _];
    [|apply _|done..]. no_panic. by apply transform_validate_no_panic, transform_typed_of_ok.
Qed.
