(* ===== verification/Exec.v ===== *)
(** * The repack executor (crates/kvpack-core/src/transform/exec.rs)

    Every loop of the executor copies fixed-width blocks from the plane into a
    zeroed output; [copy_moves] is that inner loop over (source, target) block
    indices, relative to the byte offset [base].  Indexing, slicing, remainder
    and division panic in the model where they panic in Rust. *)
From Stdlib Require Import ZArith Lia.
From stdpp Require Import base tactics numbers list strings option.
From S2P Require Import Prelude Bytes Canonical Wire State Validator ValidatorLaws Transform.

Record KvPlaneShape := mkKvPlaneShape {
    kp_tokens : Z;
    kp_kv_heads : Z;
    kp_head_dim : Z;
    kp_element_bytes : Z
}.

Definition plane_bytes (s : KvPlaneShape) : result Z :=
  if kp_tokens s =? 0 then Err (Bounds "transform plane has zero tokens") else
  if kp_kv_heads s =? 0 then Err (Bounds "transform plane has zero kv heads") else
  if kp_head_dim s =? 0 then Err (Bounds "transform plane has zero head dim") else
  if kp_element_bytes s =? 0 then Err (Bounds "transform plane has zero element bytes") else
  ok_or (a ← checked_mul (kp_tokens s) (kp_kv_heads s);
         b ← checked_mul a (kp_head_dim s);
         checked_mul b (kp_element_bytes s))
    (Bounds "transform plane byte count overflows").

Definition checked_plane (s : KvPlaneShape) (plane : bytes) : result Z :=
  expected ← plane_bytes s;
  if negb (zlen plane =? expected) then
    Err (Bounds "transform plane bytes do not match the declared shape")
  else Ok expected.

(** [a % b] and [a / b] on [usize] *)
Definition urem (a b : Z) : result Z :=
  if b =? 0 then Panic "attempt to calculate the remainder with a divisor of zero" else Ok (a mod b).
Definition udiv (a b : Z) : result Z :=
  if b =? 0 then Panic "attempt to divide by zero" else Ok (a / b).

(** [output[t..t + w].copy_from_slice(&plane[s..s + w])], for each move *)
Fixpoint copy_moves (base w : Z) (plane output : bytes) (moves : list (Z * Z)) : result bytes :=
  match moves with
  | [] => Ok output
  | (s, t) :: moves =>
      src ← slice plane (base + s * w) (base + s * w + w);
      output ← write output (base + t * w) src;
      copy_moves base w plane output moves
  end.
(** [order.iter().enumerate()], as moves *)
Definition slot_moves (order : list Z) : list (Z * Z) := zip order (seqZ 0 (zlen order)).
(** [for i in from..from + n { output = body(i, output)?; }] *)
Fixpoint for_loop (from : Z) (n : nat) (body : Z → bytes → result bytes) (output : bytes)
    : result bytes :=
  match n with
  | O => Ok output
  | S n => output ← body from output; for_loop (from + 1) n body output
  end.

Definition permute_slabs (order : list Z) (plane : bytes) : result bytes :=
  let bad := Err (Bounds "transform slab count does not divide the plane bytes") in
  if MAX_PERMUTATION_WIDTH <? zlen order then bad else
  rest ← urem (zlen plane) (zlen order);
  if negb (rest =? 0) then bad else
  _ ← validate_permutation order;
  slab ← udiv (zlen plane) (zlen order);
  copy_moves 0 slab plane (zeros (zlen plane)) (slot_moves order).

Definition permute_head_pairs (order : list Z) (s : KvPlaneShape) (plane : bytes) : result bytes :=
  if negb (kp_kv_heads s mod 2 =? 0) || negb (zlen order =? kp_kv_heads s / 2) then
    Err (Bounds "transform head-pair order does not match the declared kv heads") else
  _ ← validate_permutation order;
  row_bytes ← ok_or (row ← checked_mul (kp_kv_heads s) (kp_head_dim s);
                     checked_mul row (kp_element_bytes s))
                (Bounds "transform row byte count overflows");
  let pair_bytes := 2 * kp_head_dim s * kp_element_bytes s in
  for_loop 0 (Z.to_nat (kp_tokens s))
    (λ row output, copy_moves (row * row_bytes) pair_bytes plane output (slot_moves order))
    (zeros (zlen plane)).

(** The (source, target) element pairs of one rotation dimension. *)
Definition rope_moves (direction : RopeDirection) (half i : Z) : list (Z * Z) :=
  match direction with
  | NeoxToInterleaved => [(i, 2 * i); (i + half, 2 * i + 1)]
  | InterleavedToNeox => [(2 * i, i); (2 * i + 1, i + half)]
  end.
Definition rope_permute (direction : RopeDirection) (head_dim : Z) (s : KvPlaneShape) (plane : bytes)
    : result bytes :=
  if negb (head_dim =? kp_head_dim s) || (head_dim <? 2) || negb (head_dim mod 2 =? 0) then
    Err (Bounds "transform rope head dim does not match the declared plane shape") else
  let element_bytes := kp_element_bytes s in
  let head_bytes := head_dim * element_bytes in
  let half := head_dim / 2 in
  heads ← udiv (zlen plane) head_bytes;
  for_loop 0 (Z.to_nat heads) (λ head output,
      for_loop 0 (Z.to_nat half) (λ i output,
          copy_moves (head * head_bytes) element_bytes plane output (rope_moves direction half i))
        output)
    (zeros (zlen plane)).

Definition apply_repack_op (op : RepackOp) (s : KvPlaneShape) (plane : bytes) : result bytes :=
  _ ← RepackOp_validate op;
  _ ← checked_plane s plane;
  match op with
  | PermuteHeadPairs order => permute_head_pairs order s plane
  | ReorderPlanes order | RegroupLayers order => permute_slabs order plane
  | PadOrTrim target_bytes =>
      let output := zeros target_bytes in
      let kept := Z.min (zlen plane) target_bytes in
      src ← slice plane 0 kept;
      write output 0 src
  | DtypeCast _ _ _ =>
      Err (Semantics "transform dtype-cast is not bit-exact; the executor rejects lossy casts")
  | RopePermute direction head_dim => rope_permute direction head_dim s plane
  end.

Fixpoint apply_ops (l : list RepackOp) (s : KvPlaneShape) (current : bytes) : result bytes :=
  match l with
  | [] => Ok current
  | op :: l => current ← apply_repack_op op s current; apply_ops l s current
  end.
Definition apply_transform (d : TransformDescriptor) (s : KvPlaneShape) (plane : bytes) : result bytes :=
  _ ← transform_validate d;
  apply_ops (ops d) s plane.

(** [inverse[*source as usize] = slot as u32], for each slot *)
Fixpoint invert_loop (inverse : list Z) (moves : list (Z * Z)) : result (list Z) :=
  match moves with
  | [] => Ok inverse
  | (source, slot) :: moves =>
      _ ← index inverse source;
      invert_loop (<[Z.to_nat source := slot mod u32_bound]> inverse) moves
  end.
Definition invert (order : list Z) : result (list Z) :=
  invert_loop (replicate (length order) 0) (slot_moves order).
Definition inverse_direction (d : RopeDirection) : RopeDirection :=
  match d with NeoxToInterleaved => InterleavedToNeox | InterleavedToNeox => NeoxToInterleaved end.
Definition inverse_repack_op (op : RepackOp) : result (option RepackOp) :=
  match op with
  | PermuteHeadPairs order => inverse ← invert order; Ok (Some (PermuteHeadPairs inverse))
  | ReorderPlanes order => inverse ← invert order; Ok (Some (ReorderPlanes inverse))
  | RegroupLayers order => inverse ← invert order; Ok (Some (RegroupLayers inverse))
  | RopePermute direction head_dim =>
      Ok (Some (RopePermute (inverse_direction direction) head_dim))
  | PadOrTrim _ | DtypeCast _ _ _ => Ok None
  end.

(** * Laws of the repack executor

    A buffer of [N * w] bytes is a list of [N] blocks of width [w].  Every exact
    operation is one list of block moves whose sources and whose targets each
    enumerate all blocks once; its inverse is the list of swapped moves. *)
(** ** Blocks *)
Definition block (w : Z) (l : bytes) (i : Z) : bytes := ztake w (zdrop (i * w) l).

Lemma block_range w l N i :
  0 ≤ w → zlen l = N * w → 0 ≤ i < N → get_range l (i * w) (i * w + w) = Some (block w l i).
Proof.
  intros Hw Hl Hi. apply get_range_Some. split_and!; [nia|lia|nia|].
  unfold block. f_equal. lia.
Qed.
Lemma zlen_block w l N i : 0 ≤ w → zlen l = N * w → 0 ≤ i < N → zlen (block w l i) = w.
Proof. intros Hw Hl Hi. pose proof (block_range w l N i Hw Hl Hi) as H%get_range_len. lia. Qed.
Lemma block_patch_same w l N t src :
  0 ≤ w → zlen l = N * w → 0 ≤ t < N → zlen src = w → block w (patch l (t * w) src) t = src.
Proof.
  intros Hw Hl Ht Hs. assert (zlen (patch l (t * w) src) = N * w) as Hp by (rewrite zlen_patch; nia).
  pose proof (block_range w _ N t Hw Hp Ht) as H.
  assert (get_range (patch l (t * w) src) (t * w) (t * w + zlen src) = Some src) as H'
    by (apply get_range_patch_same; nia).
  rewrite Hs in H'. congruence.
Qed.
Lemma block_patch_other w l N t i src :
  0 ≤ w → zlen l = N * w → 0 ≤ t < N → 0 ≤ i < N → i ≠ t → zlen src = w →
  block w (patch l (t * w) src) i = block w l i.
Proof.
  intros Hw Hl Ht Hi Hne Hs. assert (zlen (patch l (t * w) src) = N * w) as Hp by (rewrite zlen_patch; nia).
  pose proof (block_range w _ N i Hw Hp Hi) as H1. pose proof (block_range w _ N i Hw Hl Hi) as H2.
  rewrite get_range_patch_other in H1 by nia. congruence.
Qed.
Lemma blocks_concat w n l :
  0 ≤ w → zlen l = Z.of_nat n * w → concat (block w l <$> seqZ 0 (Z.of_nat n)) = l.
Proof.
  intros Hw. revert l. induction n as [|n IH]; intros l Hl.
  - destruct l; [done|]. rewrite zlen_cons in Hl. zlia.
  - rewrite seqZ_cons by lia. csimpl. rewrite <- (ztake_zdrop w l) at 3. f_equal.
    transitivity (concat (block w (zdrop w l) <$> seqZ 0 (Z.of_nat n)));
      [|apply IH; rewrite zlen_zdrop; lia].
    replace (Z.pred (Z.of_nat (S n))) with (Z.of_nat n) by lia.
    change (Z.succ 0) with (1 + 0). rewrite <- fmap_add_seqZ, <- list_fmap_compose. f_equal.
    apply list_fmap_ext. intros k i Hi%lookup_seqZ. unfold block, compose. f_equal.
    rewrite zdrop_zdrop by nia. f_equal. lia.
Qed.
Lemma blocks_ext w N a b :
  0 ≤ w → 0 ≤ N → zlen a = N * w → zlen b = N * w →
  (∀ i, 0 ≤ i < N → block w a i = block w b i) → a = b.
Proof.
  intros Hw HN Ha Hb H. rewrite <- (blocks_concat w (Z.to_nat N) a), <- (blocks_concat w (Z.to_nat N) b)
    by (rewrite ?Ha, ?Hb; nia).
  f_equal. apply list_fmap_ext. intros k i Hi%lookup_seqZ. apply H. lia.
Qed.

Lemma elem_of_concat {A} (x : A) ls : x ∈ concat ls ↔ ∃ l, l ∈ ls ∧ x ∈ l.
Proof. rewrite list_elem_of_In, in_concat. by setoid_rewrite list_elem_of_In. Qed.

(** ** Moves *)
Definition in_moves (N : Z) (m : Z * Z) : Prop := 0 ≤ m.1 < N ∧ 0 ≤ m.2 < N.
Lemma copy_moves_spec w N plane moves out :
  0 ≤ w → zlen plane = N * w → zlen out = N * w → Forall (in_moves N) moves → NoDup (moves.*2) →
  ∃ r, copy_moves 0 w plane out moves = Ok r ∧ zlen r = N * w ∧
    (∀ s t, (s, t) ∈ moves → block w r t = block w plane s) ∧
    (∀ t, 0 ≤ t < N → t ∉ moves.*2 → block w r t = block w out t).
Proof.
  intros Hw Hp Ho Hm. revert out Ho. induction Hm as [|[s t] moves [Hs Ht] _ IH]; intros out Ho Hnd.
  { exists out. split_and!; try done. intros s t Hin. by apply elem_of_nil in Hin. }
  cbn [copy_moves]. simpl in Hs, Ht. csimpl in Hnd. apply list.NoDup_cons in Hnd as [Hnin Hnd].
  rewrite !Z.add_0_l, (proj2 (slice_Ok _ _ _ (block w plane s))) by by eapply block_range.
  cbn [mbind outcome_bind]. pose proof (zlen_block w plane N s Hw Hp Hs) as Hlb.
  rewrite write_Ok by nia. cbn [mbind outcome_bind].
  destruct (IH (patch out (t * w) (block w plane s))) as (r & Hr & Hlr & Hin & Hout); [|done|].
  { rewrite zlen_patch; nia. }
  exists r. split_and!; try done.
  - intros s' t' [[= -> ->]|Hin']%elem_of_cons; [|by apply Hin].
    rewrite Hout by done. by eapply block_patch_same.
  - intros t' Ht' Hnin'. csimpl in Hnin'. apply not_elem_of_cons in Hnin' as [Hne Hnin'].
    rewrite Hout by done. by eapply block_patch_other.
Qed.

(** The sources and the targets each enumerate the blocks. *)
Definition moves_perm (N : Z) (moves : list (Z * Z)) : Prop :=
  moves.*1 ≡ₚ seqZ 0 N ∧ moves.*2 ≡ₚ seqZ 0 N.
Lemma moves_perm_in N moves : moves_perm N moves → Forall (in_moves N) moves.
Proof.
  intros [H1 H2]. apply list.Forall_forall. intros [s t] Hin.
  assert (s ∈ seqZ 0 N) as Hs by (rewrite <- H1; apply list_elem_of_fmap; by exists (s, t)).
  assert (t ∈ seqZ 0 N) as Ht by (rewrite <- H2; apply list_elem_of_fmap; by exists (s, t)).
  apply elem_of_seqZ in Hs, Ht. split; simpl; lia.
Qed.
Lemma moves_perm_nodup N moves : moves_perm N moves → NoDup (moves.*2).
Proof. intros [_ ->]. apply NoDup_seqZ. Qed.
Lemma moves_perm_target N moves t : moves_perm N moves → 0 ≤ t < N → ∃ s, (s, t) ∈ moves.
Proof.
  intros [_ H2] Ht. assert (t ∈ moves.*2) as Hin by (rewrite H2; apply elem_of_seqZ; lia).
  apply list_elem_of_fmap in Hin as ([s t'] & -> & Hin). by exists s.
Qed.

Section permute.
Context (w N : Z) (plane : bytes) (moves : list (Z * Z)).
Hypothesis Hw : 0 ≤ w.
Hypothesis HN : 0 ≤ N.
Hypothesis Hp : zlen plane = N * w.
Hypothesis Hm : moves_perm N moves.

Lemma copy_perm_total :
  ∃ r, copy_moves 0 w plane (zeros (zlen plane)) moves = Ok r ∧ zlen r = zlen plane ∧
  ∀ s t, (s, t) ∈ moves → block w r t = block w plane s.
Proof.
  destruct (copy_moves_spec w N plane moves (zeros (zlen plane))) as (r & Hr & Hl & Hin & _); try done.
  - rewrite zlen_zeros; lia.
  - by apply moves_perm_in.
  - by eapply moves_perm_nodup.
  - exists r. split_and!; try done. lia.
Qed.
(** No byte is lost or duplicated. *)
Lemma copy_perm_permutation r :
  copy_moves 0 w plane (zeros (zlen plane)) moves = Ok r → r ≡ₚ plane.
Proof.
  intros Hr. destruct copy_perm_total as (r' & Hr' & Hl & Hin). assert (r' = r) as -> by congruence.
  rewrite <- (blocks_concat w (Z.to_nat N) r), <- (blocks_concat w (Z.to_nat N) plane) by lia.
  rewrite !Z2Nat.id by done. destruct Hm as [H1 H2]. rewrite <- H2 at 1. rewrite <- H1.
  rewrite <- !list_fmap_compose.
  enough ((block w r ∘ snd) <$> moves = (block w plane ∘ fst) <$> moves) as Heq by by rewrite Heq.
  apply list_fmap_ext. intros k [s t] Hk. apply Hin. by apply list_elem_of_lookup_2 in Hk.
Qed.
(** Moving back along swapped moves restores the buffer. *)
Lemma copy_perm_inverse back r :
  moves_perm N back → (∀ s t, (s, t) ∈ moves → (t, s) ∈ back) →
  copy_moves 0 w plane (zeros (zlen plane)) moves = Ok r →
  copy_moves 0 w r (zeros (zlen r)) back = Ok plane.
Proof.
  intros Hb Hswap Hr. destruct copy_perm_total as (r0 & Hr0 & Hl & Hin). assert (r0 = r) as -> by congruence.
  destruct (copy_moves_spec w N r back (zeros (zlen r))) as (q & Hq & Hlq & Hinq & _); try done.
  - lia.
  - rewrite zlen_zeros; lia.
  - by apply moves_perm_in.
  - by eapply moves_perm_nodup.
  - rewrite Hq. f_equal. apply (blocks_ext w N); try done. intros i Hi.
    assert (∃ t, (i, t) ∈ moves) as [t Ht].
    { assert (i ∈ moves.*1) as Hi' by (rewrite (proj1 Hm); apply elem_of_seqZ; lia).
      apply list_elem_of_fmap in Hi' as ([s t] & -> & Hi'). by exists t. }
    rewrite (Hinq t i) by by apply Hswap. by apply Hin.
Qed.
End permute.

(** ** The loops as one list of moves *)
Definition shift (k : Z) (moves : list (Z * Z)) : list (Z * Z) := (λ m, (k + m.1, k + m.2)) <$> moves.
Lemma copy_moves_app base w plane out a b :
  copy_moves base w plane out (a ++ b) =
  r ← copy_moves base w plane out a; copy_moves base w plane r b.
Proof.
  revert out. induction a as [|[s t] a IH]; intros out; [done|]. cbn [app copy_moves].
  destruct (slice _ _ _); cbn [mbind outcome_bind]; [|done..].
  destruct (write _ _ _); cbn [mbind outcome_bind]; [|done..]. apply IH.
Qed.
Lemma copy_moves_base k w plane out moves :
  copy_moves (k * w) w plane out moves = copy_moves 0 w plane out (shift k moves).
Proof.
  revert out. induction moves as [|[s t] moves IH]; intros out; [done|]. csimpl. cbn [copy_moves].
  rewrite <- !Z.mul_add_distr_r, !Z.add_0_l.
  destruct (slice _ _ _); cbn [mbind outcome_bind]; [|done..].
  destruct (write _ _ _); cbn [mbind outcome_bind]; [|done..]. apply IH.
Qed.
Lemma for_loop_moves w plane (F : Z → list (Z * Z)) (body : Z → bytes → result bytes) from n out :
  (∀ i o, body i o = copy_moves 0 w plane o (F i)) →
  for_loop from n body out = copy_moves 0 w plane out (concat (F <$> seqZ from (Z.of_nat n))).
Proof.
  intros Hb. revert from out. induction n as [|n IH]; intros from out; [done|]. cbn [for_loop].
  rewrite Hb, seqZ_cons by lia. csimpl. rewrite copy_moves_app.
  destruct (copy_moves _ _ _ _ (F from)); cbn [mbind outcome_bind]; [|done..].
  rewrite IH. by replace (Z.pred (Z.of_nat (S n))) with (Z.of_nat n) by lia.
Qed.

Definition rows (R n : Z) (moves : list (Z * Z)) : list (Z * Z) :=
  concat ((λ r, shift (r * n) moves) <$> seqZ 0 R).
Lemma shift_fst k moves : (shift k moves).*1 = Z.add k <$> moves.*1.
Proof. unfold shift. by rewrite <- !list_fmap_compose. Qed.
Lemma shift_snd k moves : (shift k moves).*2 = Z.add k <$> moves.*2.
Proof. unfold shift. by rewrite <- !list_fmap_compose. Qed.
Lemma seqZ_rows (R : nat) n :
  0 ≤ n → concat ((λ r, seqZ (r * n) n) <$> seqZ 0 (Z.of_nat R)) = seqZ 0 (Z.of_nat R * n).
Proof.
  intros Hn. induction R as [|R IH]; [done|]. rewrite seqZ_S, fmap_app, concat_app, IH. csimpl.
  rewrite app_nil_r, Z.add_0_l. replace (Z.of_nat (S R) * n) with (Z.of_nat R * n + n) by lia.
  rewrite seqZ_app by lia. by rewrite Z.add_0_l.
Qed.
Lemma concat_fmap_perm {A} (f g : A → list Z) l :
  (∀ x, f x ≡ₚ g x) → concat (f <$> l) ≡ₚ concat (g <$> l).
Proof. intros H. induction l as [|x l IH]; csimpl; [done|]. by rewrite H, IH. Qed.
Lemma concat_fmap_fst {A} (f : A → list (Z * Z)) l : (concat (f <$> l)).*1 = concat ((λ x, (f x).*1) <$> l).
Proof. induction l as [|x l IH]; csimpl; [done|]. by rewrite fmap_app, IH. Qed.
Lemma concat_fmap_snd {A} (f : A → list (Z * Z)) l : (concat (f <$> l)).*2 = concat ((λ x, (f x).*2) <$> l).
Proof. induction l as [|x l IH]; csimpl; [done|]. by rewrite fmap_app, IH. Qed.
Lemma rows_perm R n moves : 0 ≤ R → 0 ≤ n → moves_perm n moves → moves_perm (R * n) (rows R n moves).
Proof.
  intros HR Hn [H1 H2]. unfold rows, moves_perm.
  assert (∀ l : list Z, l ≡ₚ seqZ 0 n → ∀ r, Z.add (r * n) <$> l ≡ₚ seqZ (r * n) n) as Hs.
  { intros l Hl r. rewrite Hl, fmap_add_seqZ. by rewrite Z.add_0_r. }
  rewrite <- (Z2Nat.id R HR), <- seqZ_rows by done. split.
  - rewrite concat_fmap_fst. apply concat_fmap_perm. intros r. rewrite shift_fst. by apply Hs.
  - rewrite concat_fmap_snd. apply concat_fmap_perm. intros r. rewrite shift_snd. by apply Hs.
Qed.
Lemma rows_swap R n moves back :
  (∀ s t, (s, t) ∈ moves → (t, s) ∈ back) →
  ∀ s t, (s, t) ∈ rows R n moves → (t, s) ∈ rows R n back.
Proof.
  intros H s t. unfold rows. rewrite !elem_of_concat.
  intros (l & (r & -> & Hr)%list_elem_of_fmap & Hin).
  apply list_elem_of_fmap in Hin as ([a b] & [= -> ->] & Hin).
  exists (shift (r * n) back). split; [apply list_elem_of_fmap; by exists r|].
  apply list_elem_of_fmap. exists (b, a). split; [done|by apply H].
Qed.

(** ** The moves of each operation *)
Lemma slot_moves_fst order : (slot_moves order).*1 = order.
Proof. unfold slot_moves. apply fst_zip. rewrite length_seqZ. unfold zlen. lia. Qed.
Lemma slot_moves_snd order : (slot_moves order).*2 = seqZ 0 (zlen order).
Proof. unfold slot_moves. apply snd_zip. rewrite length_seqZ. unfold zlen. lia. Qed.
Lemma slot_moves_perm order : is_permutation order → moves_perm (zlen order) (slot_moves order).
Proof. intros H. split; [by rewrite slot_moves_fst|by rewrite slot_moves_snd]. Qed.
Lemma slot_moves_elem order s t :
  (s, t) ∈ slot_moves order ↔ 0 ≤ t ∧ order !! Z.to_nat t = Some s.
Proof.
  unfold slot_moves. split.
  - intros (i & Hi)%list_elem_of_lookup_1. apply lookup_zip_Some in Hi as [Ho Ht%lookup_seqZ].
    destruct Ht as [-> _]. split; [lia|]. by rewrite Z.add_0_l, Nat2Z.id.
  - intros [Ht Ho]. apply list_elem_of_lookup_2 with (Z.to_nat t). apply lookup_zip_Some. split; [done|].
    apply lookup_seqZ. apply lookup_lt_Some in Ho. unfold zlen. lia.
Qed.

Definition head_moves (d : RopeDirection) (half : Z) : list (Z * Z) :=
  concat (rope_moves d half <$> seqZ 0 half).
Lemma halves_perm half from (n : nat) :
  concat ((λ i, [i; i + half]) <$> seqZ from (Z.of_nat n)) ≡ₚ
  seqZ from (Z.of_nat n) ++ seqZ (from + half) (Z.of_nat n).
Proof.
  revert from. induction n as [|n IH]; intros from; [done|].
  rewrite !(seqZ_cons _ (Z.of_nat (S n))) by lia. replace (Z.pred (Z.of_nat (S n))) with (Z.of_nat n) by lia.
  csimpl. rewrite IH. replace (Z.succ (from + half)) with (Z.succ from + half) by lia.
  constructor. apply Permutation_middle.
Qed.
Lemma pairs_seqZ from (n : nat) :
  concat ((λ i, [2 * i; 2 * i + 1]) <$> seqZ from (Z.of_nat n)) = seqZ (2 * from) (2 * Z.of_nat n).
Proof.
  revert from. induction n as [|n IH]; intros from; [done|].
  rewrite (seqZ_cons from), (seqZ_cons (2 * from)), (seqZ_cons (Z.succ (2 * from))) by lia.
  replace (Z.pred (Z.of_nat (S n))) with (Z.of_nat n) by lia. csimpl. rewrite IH.
  replace (2 * Z.succ from) with (Z.succ (Z.succ (2 * from))) by lia.
  replace (Z.pred (Z.pred (2 * Z.of_nat (S n)))) with (2 * Z.of_nat n) by lia. done.
Qed.
Lemma head_moves_perm d half : 0 ≤ half → moves_perm (2 * half) (head_moves d half).
Proof.
  intros Hh. unfold head_moves. rewrite <- (Z2Nat.id half Hh).
  assert (seqZ 0 (Z.of_nat (Z.to_nat half)) ++ seqZ (0 + Z.of_nat (Z.to_nat half)) (Z.of_nat (Z.to_nat half))
    = seqZ 0 (2 * Z.of_nat (Z.to_nat half))) as He.
  { rewrite <- seqZ_app by lia. f_equal. lia. }
  split.
  - rewrite concat_fmap_fst. destruct d; csimpl.
    + rewrite <- He. apply halves_perm.
    + by rewrite pairs_seqZ.
  - rewrite concat_fmap_snd. destruct d; csimpl.
    + by rewrite pairs_seqZ.
    + rewrite <- He. apply halves_perm.
Qed.
Lemma head_moves_swap d half s t :
  (s, t) ∈ head_moves d half → (t, s) ∈ head_moves (inverse_direction d) half.
Proof.
  unfold head_moves. rewrite !elem_of_concat. intros (l & (i & -> & Hi)%list_elem_of_fmap & Hin).
  exists (rope_moves (inverse_direction d) half i). split; [apply list_elem_of_fmap; by exists i|].
  destruct d; cbn [rope_moves inverse_direction] in *; rewrite !elem_of_cons in *;
    destruct Hin as [[= -> ->]|[[= -> ->]|[]%elem_of_nil]]; auto.
Qed.
