(* ===== verification/ExecOps.v ===== *)
(** * The exact repack operations are bijections

    [exact_moves] gives each exact operation its block width, block count and
    block moves; the executor runs exactly those moves, so the laws of moves
    give totality, conservation of bytes and exact inverses. *)
From Stdlib Require Import ZArith Lia.
From stdpp Require Import base tactics numbers list strings option.
From S2P Require Import Prelude Bytes Canonical Wire State Validator ValidatorLaws Transform Exec.

(** What the Rust types of a shape guarantee. *)
Definition shape_typed (s : KvPlaneShape) : Prop :=
  in_u32 (kp_tokens s) ∧ in_u32 (kp_kv_heads s) ∧ in_u32 (kp_head_dim s) ∧ in_u32 (kp_element_bytes s).
(** The plane has the declared, non-empty shape. *)
Definition plane_fits (s : KvPlaneShape) (plane : bytes) : Prop :=
  0 < kp_tokens s ∧ 0 < kp_kv_heads s ∧ 0 < kp_head_dim s ∧ 0 < kp_element_bytes s ∧
  zlen plane = kp_tokens s * kp_kv_heads s * kp_head_dim s * kp_element_bytes s ∧
  zlen plane < u64_bound.
(** The operation can address the plane exactly. *)
Definition op_fits (op : RepackOp) (s : KvPlaneShape) (len : Z) : Prop :=
  match op with
  | PermuteHeadPairs order => kp_kv_heads s = 2 * zlen order
  | ReorderPlanes order | RegroupLayers order => (zlen order | len)
  | RopePermute _ head_dim => head_dim = kp_head_dim s
  | PadOrTrim _ => True
  | DtypeCast _ _ _ => False
  end.
Definition exact_op (op : RepackOp) : bool :=
  match op with PadOrTrim _ | DtypeCast _ _ _ => false | _ => true end.

(** Block width, block count and moves of an exact operation. *)
Definition exact_moves (op : RepackOp) (s : KvPlaneShape) (len : Z) : Z * Z * list (Z * Z) :=
  match op with
  | PermuteHeadPairs order =>
      (2 * kp_head_dim s * kp_element_bytes s, kp_tokens s * zlen order,
       rows (kp_tokens s) (zlen order) (slot_moves order))
  | ReorderPlanes order | RegroupLayers order => (len / zlen order, zlen order, slot_moves order)
  | RopePermute d head_dim =>
      (kp_element_bytes s, len / (head_dim * kp_element_bytes s) * head_dim,
       rows (len / (head_dim * kp_element_bytes s)) head_dim (head_moves d (head_dim / 2)))
  | PadOrTrim _ | DtypeCast _ _ _ => (0, 0, [])
  end.

Lemma le_mul_pos a b : 0 ≤ a → 0 < b → a ≤ a * b.
Proof. nia. Qed.
Lemma checked_plane_Ok s plane n :
  shape_typed s → checked_plane s plane = Ok n ↔ n = zlen plane ∧ plane_fits s plane.
Proof.
  intros (H1 & H2 & H3 & H4). unfold in_u32 in *. unfold checked_plane, plane_bytes, plane_fits. split.
  - intros H. inv_ok. bools.
    repeat match goal with H : mbind _ _ = Some _ |- _ => apply bind_Some in H as (? & ? & ?) end.
    repeat match goal with H : checked_mul _ _ = Some _ |- _ => apply checked_mul_Some in H as [-> ?] end.
    split_and!; lia.
  - intros (-> & ? & ? & ? & ? & Hl & Hb).
    rewrite !(proj2 (Z.eqb_neq _ 0)) by lia. cbn [mbind option_bind].
    set (a := kp_tokens s * kp_kv_heads s) in *. assert (0 ≤ a) by (unfold a; nia).
    pose proof (le_mul_pos a (kp_head_dim s)). pose proof (le_mul_pos (a * kp_head_dim s) (kp_element_bytes s)).
    rewrite (proj2 (checked_mul_Some (kp_tokens s) (kp_kv_heads s) _)) by (split; [done|lia]). simpl.
    rewrite (proj2 (checked_mul_Some a _ _)) by (split; [done|lia]). simpl.
    rewrite (proj2 (checked_mul_Some _ (kp_element_bytes s) _)) by (split; [done|lia]). simpl.
    by rewrite Hl, Z.eqb_refl.
Qed.

Lemma exact_moves_perm op s plane w N M :
  exact_op op = true → RepackOp_valid op → plane_fits s plane → op_fits op s (zlen plane) →
  exact_moves op s (zlen plane) = (w, N, M) →
  0 ≤ w ∧ 0 ≤ N ∧ zlen plane = N * w ∧ moves_perm N M.
Proof.
  intros He Hv (Ht & Hh & Hd & Hb & Hl & _) Hf.
  destruct op as [o|o|o|t|f t sc|d h]; try done; simpl in *; intros [= <- <- <-]; destruct Hv as [Hw Hp].
  - split_and!; [nia|nia|rewrite Hl, Hf; ring|].
    apply rows_perm; [lia|lia|by apply slot_moves_perm].
  - destruct Hf as [k Hk]. rewrite Hk, Z.div_mul by lia. pose proof (zlen_nonneg plane).
    split_and!; [nia|lia|ring|by apply slot_moves_perm].
  - destruct Hf as [k Hk]. rewrite Hk, Z.div_mul by lia. pose proof (zlen_nonneg plane).
    split_and!; [nia|lia|ring|by apply slot_moves_perm].
  - subst h. assert (zlen plane = kp_tokens s * kp_kv_heads s * (kp_head_dim s * kp_element_bytes s)) as Hl'
      by (rewrite Hl; ring).
    rewrite Hl', Z.div_mul by nia. split_and!; [lia|nia|ring|].
    apply rows_perm; [nia|lia|]. destruct Hp as [half Hhalf]. rewrite Hhalf at 1 2.
    rewrite Z.div_mul by lia. rewrite Z.mul_comm. apply head_moves_perm. lia.
Qed.

(** ** The executor runs these moves *)
Lemma apply_guards op s plane :
  RepackOp_typed op → shape_typed s → RepackOp_valid op → plane_fits s plane →
  apply_repack_op op s plane =
  match op with
  | PermuteHeadPairs order => permute_head_pairs order s plane
  | ReorderPlanes order | RegroupLayers order => permute_slabs order plane
  | PadOrTrim target_bytes =>
      src ← slice plane 0 (Z.min (zlen plane) target_bytes); write (zeros target_bytes) 0 src
  | DtypeCast _ _ _ =>
      Err (Semantics "transform dtype-cast is not bit-exact; the executor rejects lossy casts")
  | RopePermute direction head_dim => rope_permute direction head_dim s plane
  end.
Proof.
  intros Hty Hs Hv Hp. unfold apply_repack_op.
  rewrite (proj2 (RepackOp_validate_Ok op Hty) Hv). cbn [mbind outcome_bind].
  by rewrite (proj2 (checked_plane_Ok s plane _ Hs) (conj eq_refl Hp)).
Qed.
Lemma permute_slabs_moves order plane :
  order_typed order → 0 < zlen order ≤ MAX_PERMUTATION_WIDTH → is_permutation order →
  permute_slabs order plane =
  if zlen plane mod zlen order =? 0
  then copy_moves 0 (zlen plane / zlen order) plane (zeros (zlen plane)) (slot_moves order)
  else Err (Bounds "transform slab count does not divide the plane bytes").
Proof.
  intros Hty Hw Hp. unfold permute_slabs, urem, udiv.
  rewrite (proj2 (Z.ltb_ge _ _)), (proj2 (Z.eqb_neq _ 0)) by lia. cbn [mbind outcome_bind].
  destruct (zlen plane mod zlen order =? 0); cbn [negb]; [|done].
  by rewrite (proj2 (validate_permutation_Ok order (in_u32_nonneg _ Hty)) (conj Hw Hp)).
Qed.
Lemma permute_head_pairs_moves order s plane :
  order_typed order → 0 < zlen order ≤ MAX_PERMUTATION_WIDTH → is_permutation order →
  plane_fits s plane → kp_kv_heads s = 2 * zlen order →
  permute_head_pairs order s plane =
  copy_moves 0 (2 * kp_head_dim s * kp_element_bytes s) plane (zeros (zlen plane))
    (rows (kp_tokens s) (zlen order) (slot_moves order)).
Proof.
  intros Hty Hw Hp (Ht & Hh & Hd & Hb & Hl & Hlu) Hf. unfold permute_head_pairs.
  replace (kp_kv_heads s mod 2) with 0 by (rewrite Hf, Z.mul_comm, Z.mod_mul; lia).
  replace (kp_kv_heads s / 2) with (zlen order) by (rewrite Hf, Z.mul_comm, Z.div_mul; lia).
  rewrite !Z.eqb_refl. cbn [negb orb].
  rewrite (proj2 (validate_permutation_Ok order (in_u32_nonneg _ Hty)) (conj Hw Hp)). cbn [mbind outcome_bind].
  set (T := kp_tokens s) in *. set (H := kp_kv_heads s) in *. set (D := kp_head_dim s) in *.
  set (B := kp_element_bytes s) in *.
  assert (H * D * B ≤ zlen plane) by (assert (0 < H * D * B); nia).
  rewrite (proj2 (checked_mul_Some H D _)) by (split; [done|nia]). cbn [mbind option_bind].
  rewrite (proj2 (checked_mul_Some (H * D) B _)) by (split; [done|lia]). cbn [ok_or mbind outcome_bind].
  rewrite (for_loop_moves (2 * D * B) plane (λ r, shift (r * zlen order) (slot_moves order))).
  - by rewrite Z2Nat.id by lia.
  - intros i out. rewrite <- copy_moves_base, Hf. f_equal. ring.
Qed.
Lemma rope_permute_moves d h s plane :
  plane_fits s plane → 2 ≤ h → (2 | h) → h = kp_head_dim s →
  rope_permute d h s plane =
  copy_moves 0 (kp_element_bytes s) plane (zeros (zlen plane))
    (rows (zlen plane / (h * kp_element_bytes s)) h (head_moves d (h / 2))).
Proof.
  intros (Ht & Hh & Hd & Hb & Hl & Hlu) H2 He%Z.mod_divide Hf; [|lia]. unfold rope_permute, udiv.
  rewrite <- Hf, Z.eqb_refl, He, (proj2 (Z.ltb_ge h 2)) by lia.
  rewrite (proj2 (Z.eqb_neq (h * _) 0)) by nia. cbn [negb orb Z.eqb mbind outcome_bind].
  rewrite (for_loop_moves (kp_element_bytes s) plane (λ r, shift (r * h) (head_moves d (h / 2)))).
  - rewrite Z2Nat.id; [done|]. pose proof (zlen_nonneg plane). apply Z.div_pos; nia.
  - intros i out.
    rewrite (for_loop_moves (kp_element_bytes s) plane (λ j, shift (i * h) (rope_moves d (h / 2) j))).
    + rewrite Z2Nat.id by (apply Z.div_pos; lia). unfold head_moves, shift.
      f_equal. rewrite concat_map. f_equal. exact (list_fmap_compose (rope_moves d (h / 2)) _ _).
    + intros j o. rewrite <- copy_moves_base. f_equal. ring.
Qed.

Lemma apply_exact op s plane w N M :
  RepackOp_typed op → shape_typed s →
  exact_op op = true → RepackOp_valid op → plane_fits s plane → op_fits op s (zlen plane) →
  exact_moves op s (zlen plane) = (w, N, M) →
  apply_repack_op op s plane = copy_moves 0 w plane (zeros (zlen plane)) M.
Proof.
  intros Hty Hs He Hv Hp Hf Hm. rewrite apply_guards by done.
  destruct op as [o|o|o|t|f t sc|d h]; try done; simpl in *; injection Hm as <- <- <-; destruct Hv as [Hw Hpm].
  - by apply permute_head_pairs_moves.
  - rewrite permute_slabs_moves by done. apply Z.mod_divide in Hf; [|lia]. by rewrite Hf.
  - rewrite permute_slabs_moves by done. apply Z.mod_divide in Hf; [|lia]. by rewrite Hf.
  - apply rope_permute_moves; auto; lia.
Qed.

(** ** Which calls succeed *)
Lemma apply_Ok_fits op s plane out :
  RepackOp_typed op → shape_typed s → apply_repack_op op s plane = Ok out →
  RepackOp_valid op ∧ plane_fits s plane ∧ op_fits op s (zlen plane).
Proof.
  intros Hty Hs H. pose proof H as H'. unfold apply_repack_op in H'. inv_ok.
  destruct x. match goal with Hv : RepackOp_validate _ = _ |- _ => apply RepackOp_validate_Ok in Hv as Hv'; [|done] end.
  match goal with Hc : checked_plane _ _ = _ |- _ => apply checked_plane_Ok in Hc as [_ Hp]; [|done] end.
  split_and!; [done..|]. rewrite apply_guards in H by done.
  destruct op as [o|o|o|t|f t sc|d h]; try done; simpl in *; destruct Hv' as [Hw Hpm].
  - unfold permute_head_pairs in H. inv_ok. bools.
    match goal with Hz : zlen o = _ |- _ => rewrite Hz end.
    rewrite <- Z_div_exact_full_2; lia.
  - rewrite permute_slabs_moves in H by done. case_match eqn:He; [|done].
    apply Z.eqb_eq, Z.mod_divide in He; [done|lia].
  - rewrite permute_slabs_moves in H by done. case_match eqn:He; [|done].
    apply Z.eqb_eq, Z.mod_divide in He; [done|lia].
  - unfold rope_permute in H. inv_ok. bools. lia.
Qed.
Lemma pad_or_trim_Ok t s plane :
  in_u64 t → shape_typed s → RepackOp_valid (PadOrTrim t) → plane_fits s plane →
  apply_repack_op (PadOrTrim t) s plane = Ok (vec_resize plane t).
Proof.
  intros Ht Hs Hv Hp. rewrite apply_guards by done. simpl in Hv. pose proof (zlen_nonneg plane).
  set (k := Z.min (zlen plane) t). assert (0 ≤ k ≤ zlen plane ∧ k ≤ t) as Hk by lia.
  rewrite (proj2 (slice_Ok _ _ _ (ztake k plane))).
  2: { apply get_range_Some. split_and!; [lia..|]. by rewrite Z.sub_0_r. }
  cbn [mbind outcome_bind]. rewrite write_Ok by (rewrite ?zlen_zeros, ?zlen_ztake; lia). f_equal.
  unfold patch, vec_resize. rewrite ztake_0, zlen_ztake, Z.add_0_l by lia. simpl.
  assert (zdrop k (zeros t) = zeros (t - k)) as ->.
  { unfold zdrop, zeros. rewrite drop_replicate. f_equal. lia. }
  destruct (Z.leb_spec t (zlen plane)).
  - replace k with t by lia. by rewrite Z.sub_diag, app_nil_r.
  - replace k with (zlen plane) by lia. by rewrite ztake_all by lia.
Qed.

(** ** Inverse orders *)
Lemma invert_loop_total inverse moves :
  Forall (λ m, 0 ≤ m.1 < zlen inverse) moves →
  ∃ r, invert_loop inverse moves = Ok r ∧ length r = length inverse.
Proof.
  intros H. revert inverse H. induction moves as [|[s t] moves IH]; intros inverse H; [by exists inverse|].
  apply Forall_cons_iff in H as [Hs H]. cbn [invert_loop]. simpl in Hs.
  destruct (lookup_lt_is_Some_2 inverse (Z.to_nat s)) as [x Hx]; [unfold zlen in Hs; lia|].
  rewrite (proj2 (index_Ok inverse s x)) by (split; [lia|done]). cbn [mbind outcome_bind].
  destruct (IH (<[Z.to_nat s := t mod u32_bound]> inverse)) as (r & Hr & Hl).
  { eapply list.Forall_impl; [exact H|]. unfold zlen. by rewrite length_insert. }
  exists r. split; [done|]. by rewrite Hl, length_insert.
Qed.
Lemma invert_loop_lookup inverse moves r :
  invert_loop inverse moves = Ok r → NoDup (moves.*1) → 
  Forall (λ m, 0 ≤ m.1 ∧ 0 ≤ m.2 < u32_bound) moves →
  (∀ s t, (s, t) ∈ moves → r !! Z.to_nat s = Some t) ∧
  (∀ s, 0 ≤ s → s ∉ moves.*1 → r !! Z.to_nat s = inverse !! Z.to_nat s).
Proof.
  revert inverse. induction moves as [|[s t] moves IH]; intros inverse H Hnd Hf; cbn [invert_loop] in H.
  { inv_ok. subst. split; [intros ? ? []%elem_of_nil|done]. }
  inv_ok. csimpl in Hnd. apply list.NoDup_cons in Hnd as [Hnin Hnd]. apply Forall_cons_iff in Hf as [[Hs Ht] Hf].
  simpl in Hs, Ht. apply index_Ok in H as [_ Hx]. apply lookup_lt_Some in Hx.
  match goal with Hi : invert_loop _ _ = _ |- _ => apply IH in Hi as [Hin Hout]; [|done..] end.
  rewrite Z.mod_small in Hout by done. split.
  - intros s' t' [[= -> ->]|Hin']%elem_of_cons; [|by apply Hin].
    rewrite Hout by done. by apply list_lookup_insert_eq.
  - intros s' Hs' Hnin'. csimpl in Hnin'. apply not_elem_of_cons in Hnin' as [Hne Hnin'].
    rewrite Hout by done. apply list_lookup_insert_ne. lia.
Qed.
Lemma invert_spec order :
  order_typed order → 0 < zlen order ≤ MAX_PERMUTATION_WIDTH → is_permutation order →
  ∃ inv, invert order = Ok inv ∧ zlen inv = zlen order ∧ is_permutation inv ∧ order_typed inv ∧
    ∀ s t, (s, t) ∈ slot_moves order → (t, s) ∈ slot_moves inv.
Proof.
  intros Hty Hw Hp. pose proof (slot_moves_perm order Hp) as Hm. pose proof (moves_perm_in _ _ Hm) as Hin.
  destruct (invert_loop_total (replicate (length order) 0) (slot_moves order)) as (inv & Hinv & Hlen).
  { eapply list.Forall_impl; [exact Hin|]. unfold zlen. rewrite length_replicate. by intros m [? _]. }
  rewrite length_replicate in Hlen. assert (zlen inv = zlen order) as Hz by (unfold zlen; lia).
  destruct (invert_loop_lookup _ _ _ Hinv) as [Hget _].
  { rewrite slot_moves_fst. by apply is_permutation_nodup. }
  { eapply list.Forall_impl; [exact Hin|]. intros m [? ?]. unfold MAX_PERMUTATION_WIDTH in Hw. range_lia. }
  assert (∀ i x, inv !! i = Some x → 0 ≤ x < zlen order ∧ order !! Z.to_nat x = Some (Z.of_nat i)) as Hback.
  { intros i x Hi. assert (Z.of_nat i ∈ (slot_moves order).*1) as Hs.
    { rewrite (proj1 Hm). apply elem_of_seqZ. apply lookup_lt_Some in Hi. unfold zlen. lia. }
    apply list_elem_of_fmap in Hs as ([s t] & Hs & Hst). simpl in Hs. subst s.
    pose proof (Hget _ _ Hst) as Hg. rewrite Nat2Z.id in Hg. assert (x = t) as -> by congruence.
    pose proof (proj1 (list.Forall_forall _ _) Hin _ Hst) as [_ ?].
    apply slot_moves_elem in Hst as [_ ?]. done. }
  exists inv. split_and!; [done..| | |].
  - apply permutation_of_bounded.
    + apply NoDup_alt. intros i j x [_ Hi]%Hback [_ Hj]%Hback. assert (Z.of_nat i = Z.of_nat j) by congruence. lia.
    + apply list.Forall_forall. intros x [i Hi]%list_elem_of_lookup_1. rewrite Hz. by apply Hback in Hi as [? _].
  - apply list.Forall_forall. intros x [i Hi]%list_elem_of_lookup_1. apply Hback in Hi as [? _].
    unfold MAX_PERMUTATION_WIDTH in Hw. range_lia.
  - intros s t Hst. apply slot_moves_elem.
    pose proof (proj1 (list.Forall_forall _ _) Hin _ Hst) as [Hs _]. split; [apply Hs|by apply Hget].
Qed.

(** ** Inverse operations *)
Lemma inverse_repack_op_spec op s len :
  RepackOp_typed op → RepackOp_valid op → exact_op op = true → op_fits op s len →
  ∃ inv w N M M', inverse_repack_op op = Ok (Some inv) ∧
    RepackOp_typed inv ∧ RepackOp_valid inv ∧ exact_op inv = true ∧ op_fits inv s len ∧
    exact_moves op s len = (w, N, M) ∧ exact_moves inv s len = (w, N, M') ∧
    ∀ a b, (a, b) ∈ M → (b, a) ∈ M'.
Proof.
  intros Hty Hv He Hf. destruct op as [o|o|o|t|f t sc|d h]; try done; simpl in *; destruct Hv as [Hw Hp].
  1-3: destruct (invert_spec o Hty Hw Hp) as (inv & -> & Hz & Hpi & Hti & Hsw); cbn [mbind outcome_bind].
  - exists (PermuteHeadPairs inv). do 4 eexists. simpl. rewrite Hz. split_and!; try done; try lia.
    by apply rows_swap.
  - exists (ReorderPlanes inv). do 4 eexists. simpl. rewrite Hz. split_and!; try done; lia.
  - exists (RegroupLayers inv). do 4 eexists. simpl. rewrite Hz. split_and!; try done; lia.
  - exists (RopePermute (inverse_direction d) h). do 4 eexists. simpl. split_and!; try done; try lia.
    apply rows_swap. intros s' t'. apply head_moves_swap.
Qed.
Lemma inverse_repack_op_Some op inv : inverse_repack_op op = Ok (Some inv) → exact_op op = true.
Proof. by destruct op. Qed.

Lemma apply_exact_total op s plane :
  RepackOp_typed op → shape_typed s →
  exact_op op = true → RepackOp_valid op → plane_fits s plane → op_fits op s (zlen plane) →
  ∃ out, apply_repack_op op s plane = Ok out ∧ zlen out = zlen plane ∧ out ≡ₚ plane.
Proof.
  intros Hty Hs He Hv Hp Hf. destruct (exact_moves op s (zlen plane)) as [[w N] M] eqn:Hm.
  destruct (exact_moves_perm op s plane w N M) as (Hw & HN & Hl & Hperm); [done..|].
  rewrite (apply_exact op s plane w N M) by done.
  destruct (copy_perm_total w N plane M) as (out & Hout & Hlo & _); [done..|].
  exists out. split_and!; [done..|]. by eapply (copy_perm_permutation w N plane M).
Qed.
Lemma apply_exact_inverse op s plane out :
  RepackOp_typed op → shape_typed s → exact_op op = true → apply_repack_op op s plane = Ok out →
  ∃ inv, inverse_repack_op op = Ok (Some inv) ∧ RepackOp_typed inv ∧ RepackOp_valid inv ∧
    exact_op inv = true ∧ apply_repack_op inv s out = Ok plane ∧ zlen out = zlen plane ∧ out ≡ₚ plane.
Proof.
  intros Hty Hs He Hout. destruct (apply_Ok_fits op s plane out) as (Hv & Hp & Hf); [done..|].
  destruct (apply_exact_total op s plane) as (out' & Hout' & Hlen & Hperm); [done..|].
  assert (out' = out) as -> by congruence.
  destruct (inverse_repack_op_spec op s (zlen plane)) as
    (inv & w & N & M & M' & Hinv & Hti & Hvi & Hei & Hfi & Hm & Hm' & Hsw); [done..|].
  assert (plane_fits s out) as Hpo by (unfold plane_fits in *; by rewrite Hlen).
  exists inv. split_and!; try done.
  destruct (exact_moves_perm op s plane w N M) as (Hw & HN & Hl & Hpm); [done..|].
  destruct (exact_moves_perm inv s plane w N M') as (_ & _ & _ & Hpm'); [done..|].
  rewrite (apply_exact op s plane w N M) in Hout by done.
  rewrite (apply_exact inv s out w N M') by (rewrite ?Hlen; done).
  by eapply (copy_perm_inverse w N plane M).
Qed.

(** ** Totality *)
Lemma apply_Ok_iff op s plane :
  RepackOp_typed op → shape_typed s →
  (∃ out, apply_repack_op op s plane = Ok out) ↔
  RepackOp_valid op ∧ plane_fits s plane ∧ op_fits op s (zlen plane).
Proof.
  intros Hty Hs. split; [intros [out H]; by eapply apply_Ok_fits|]. intros (Hv & Hp & Hf).
  destruct (exact_op op) eqn:He.
  - destruct (apply_exact_total op s plane) as (out & Hout & _); [done..|]. by exists out.
  - destruct op; try done. eexists. by apply pad_or_trim_Ok.
Qed.
Lemma checked_plane_no_panic s plane : ¬ panics (checked_plane s plane).
Proof. unfold checked_plane, plane_bytes. no_panic. Qed.
Lemma RepackOp_validate_no_panic op : RepackOp_typed op → ¬ panics (RepackOp_validate op).
Proof.
  destruct op; simpl; intros Ht; no_panic; by apply validate_permutation_no_panic, in_u32_nonneg.
Qed.
Lemma apply_no_panic op s plane :
  RepackOp_typed op → shape_typed s → ¬ panics (apply_repack_op op s plane).
Proof.
  intros Hty Hs Hpan. pose proof (apply_Ok_iff op s plane Hty Hs) as [_ Hok].
  assert (RepackOp_valid op ∧ plane_fits s plane) as [Hv Hp].
  { unfold apply_repack_op in Hpan.
    pose proof (RepackOp_validate_no_panic op Hty) as Hn1. pose proof (checked_plane_no_panic s plane) as Hn2.
    destruct (RepackOp_validate op) as [[]| |] eqn:Hval; try done. cbn [mbind outcome_bind] in Hpan.
    destruct (checked_plane s plane) as [n| |] eqn:Hc; try done.
    split; [by apply RepackOp_validate_Ok|]. by apply checked_plane_Ok in Hc as [_ ?]. }
  assert (¬ op_fits op s (zlen plane)) as Hnf.
  { intros Hf. destruct Hok as [out Hout]; [done|]. by rewrite Hout in Hpan. }
  rewrite apply_guards in Hpan by done.
  destruct op as [o|o|o|t|f t sc|d h]; simpl in *; try done; destruct Hv as [Hw Hpm].
  - unfold permute_head_pairs in Hpan. case_match eqn:Hg; [done|]. bools. apply Hnf.
    match goal with Hz : zlen o = _ |- _ => rewrite Hz end. rewrite <- Z_div_exact_full_2; lia.
  - rewrite permute_slabs_moves in Hpan by done. case_match eqn:Hg; [|done].
    apply Z.eqb_eq, Z.mod_divide in Hg; [done|lia].
  - rewrite permute_slabs_moves in Hpan by done. case_match eqn:Hg; [|done].
    apply Z.eqb_eq, Z.mod_divide in Hg; [done|lia].
  - unfold rope_permute in Hpan. case_match eqn:Hg; [done|]. bools. lia.
Qed.
Lemma apply_ops_no_panic l s plane :
  Forall RepackOp_typed l → shape_typed s → ¬ panics (apply_ops l s plane).
Proof.
  intros H Hs. revert plane. induction H as [|op l Hop _ IH]; intros plane; simpl; [auto|].
  apply bind_no_panic; [by apply apply_no_panic|]. intros ? _. apply IH.
Qed.

(** ** Whole transforms *)
Lemma apply_ops_app l1 l2 s plane :
  apply_ops (l1 ++ l2) s plane = mid ← apply_ops l1 s plane; apply_ops l2 s mid.
Proof.
  revert plane. induction l1 as [|op l1 IH]; intros plane; simpl; [done|].
  destruct (apply_repack_op op s plane); cbn [mbind outcome_bind]; [apply IH|done..].
Qed.
Lemma apply_ops_inverse l s plane out :
  Forall RepackOp_typed l → Forall (λ op, exact_op op = true) l → shape_typed s →
  apply_ops l s plane = Ok out →
  ∃ back, Forall2 (λ op inv, inverse_repack_op op = Ok (Some inv)) (reverse l) back ∧
    Forall RepackOp_typed back ∧ Forall RepackOp_valid back ∧
    apply_ops back s out = Ok plane ∧ out ≡ₚ plane.
Proof.
  intros Hty He Hs. revert plane He. induction Hty as [|op l Hop _ IH]; intros plane He H.
  { inv_ok. simpl in H. inv_ok. subst. exists []. split_and!; try done; by constructor. }
  apply Forall_cons_iff in He as [Heo He]. cbn [apply_ops] in H. inv_ok.
  destruct (IH x) as (back & Hb & Hbt & Hbv & Hba & Hbp); [done..|].
  destruct (apply_exact_inverse op s plane x) as (inv & Hi & Hit & Hiv & _ & Hia & _ & Hip); [done..|].
  exists (back ++ [inv]). split_and!.
  - rewrite reverse_cons. apply Forall2_app; [done|]. by repeat constructor.
  - apply Forall_app. by repeat constructor.
  - apply Forall_app. by repeat constructor.
  - rewrite apply_ops_app, Hba. cbn [mbind outcome_bind apply_ops]. by rewrite Hia.
  - by rewrite Hbp.
Qed.
