(* ===== verification/Rotation.v ===== *)
(** * Rotation families (crates/kvpack-core/src/rotation.rs)

    The descriptor of a rotation ABI, its pinned Qwen2.5 table, its canonical
    encoding and identity, and the hook that binds it into a family. *)
From Stdlib Require Import ZArith Lia.
From stdpp Require Import base tactics numbers list strings option.
From S2P Require Import Prelude Bytes Canonical Wire State Identity Crypto Ids.

Definition ROTATION_FAMILY_MAGIC : bytes := ascii_bytes "KVRTA1" ++ [0; 0].
Definition ROTATION_FAMILY_VERSION : Z := 1.
Definition MAX_ROTARY_DIMENSION : Z := 4096.
Definition QWEN25_ROTARY_DIMENSION : Z := 128.
Definition QWEN25_FRAC64_TABLE_SHA256 : bytes :=
  [197; 213; 18; 60; 138; 243; 186; 79; 124; 231; 120; 244; 63; 229; 223; 180;
   22; 13; 186; 112; 47; 41; 194; 14; 136; 201; 160; 45; 213; 36; 56; 19].
Definition FIXED_Q30_D7_D6_COEFFICIENT_SHA256 : bytes :=
  [210; 232; 199; 198; 46; 44; 163; 40; 177; 205; 126; 77; 132; 98; 228; 14;
   248; 142; 237; 229; 51; 94; 191; 33; 34; 214; 25; 82; 215; 219; 217; 80].
Definition QWEN25_FRAC64 : list Z :=
  [2935890503282001226; 2365864426192925781; 1906513365150370137; 1536348901169279117;
   1238054759683200494; 997676756111625901; 803970019823770941; 647872959669429481;
   522083363211519329; 420716799604243067; 339031346221092161; 273205761758525298;
   220160728764532212; 177414803326772838; 142968333254119646; 115209914450112388;
   92841009512291724; 74815202219369707; 60289246234274555; 48583618083918486;
   39150729086113164; 31549309179210512; 25423764331338399; 20487541869898062;
   16509725562293615; 13304233366460347; 10721112522517710; 8639524770382691;
   6962093542184701; 5610348691434204; 4521055663610106; 3643257386955006;
   2935890503282001; 2365864426192926; 1906513365150370; 1536348901169279;
   1238054759683200; 997676756111626; 803970019823771; 647872959669429;
   522083363211519; 420716799604243; 339031346221092; 273205761758525;
   220160728764532; 177414803326773; 142968333254120; 115209914450112;
   92841009512292; 74815202219370; 60289246234275; 48583618083918;
   39150729086113; 31549309179211; 25423764331338; 20487541869898;
   16509725562294; 13304233366460; 10721112522518; 8639524770383;
   6962093542185; 5610348691434; 4521055663610; 3643257386955].

(** ** The closed enumerations: one variant each, wire value 1 *)
Inductive CoefficientSet := FixedQ30Degree7Degree6V1.
Definition CoefficientSet_wire (x : CoefficientSet) : Z := 1.
Definition CoefficientSet_from_wire (v : Z) : result CoefficientSet :=
  if v =? 1 then Ok FixedQ30Degree7Degree6V1 else Err (UnknownEnum "rotation coefficient set" v).
#[export] Instance CoefficientSet_enum : WireEnum CoefficientSet_wire CoefficientSet_from_wire.
Proof. solve_wire_enum. Qed.
Inductive SincosOrder := FixedQ30HornerV1.
Definition SincosOrder_wire (x : SincosOrder) : Z := 1.
Definition SincosOrder_from_wire (v : Z) : result SincosOrder :=
  if v =? 1 then Ok FixedQ30HornerV1 else Err (UnknownEnum "rotation sincos order" v).
#[export] Instance SincosOrder_enum : WireEnum SincosOrder_wire SincosOrder_from_wire.
Proof. solve_wire_enum. Qed.
Inductive PhaseOrigin := PhaseZero.
Definition PhaseOrigin_wire (x : PhaseOrigin) : Z := 1.
Definition PhaseOrigin_from_wire (v : Z) : result PhaseOrigin :=
  if v =? 1 then Ok PhaseZero else Err (UnknownEnum "rotation phase origin" v).
#[export] Instance PhaseOrigin_enum : WireEnum PhaseOrigin_wire PhaseOrigin_from_wire.
Proof. solve_wire_enum. Qed.
Inductive PositionConvention := ZeroBasedAbsolute.
Definition PositionConvention_wire (x : PositionConvention) : Z := 1.
Definition PositionConvention_from_wire (v : Z) : result PositionConvention :=
  if v =? 1 then Ok ZeroBasedAbsolute else Err (UnknownEnum "rotation position convention" v).
#[export] Instance PositionConvention_enum : WireEnum PositionConvention_wire PositionConvention_from_wire.
Proof. solve_wire_enum. Qed.
Inductive RopePairing := NeoxHalfSplit.
Definition RopePairing_wire (x : RopePairing) : Z := 1.
Definition RopePairing_from_wire (v : Z) : result RopePairing :=
  if v =? 1 then Ok NeoxHalfSplit else Err (UnknownEnum "rotation pairing" v).
#[export] Instance RopePairing_enum : WireEnum RopePairing_wire RopePairing_from_wire.
Proof. solve_wire_enum. Qed.
Inductive DenormalPolicy := PreserveIeee.
Definition DenormalPolicy_wire (x : DenormalPolicy) : Z := 1.
Definition DenormalPolicy_from_wire (v : Z) : result DenormalPolicy :=
  if v =? 1 then Ok PreserveIeee else Err (UnknownEnum "rotation denormal policy" v).
#[export] Instance DenormalPolicy_enum : WireEnum DenormalPolicy_wire DenormalPolicy_from_wire.
Proof. solve_wire_enum. Qed.
Inductive F32Rounding := NearestTiesEven.
Definition F32Rounding_wire (x : F32Rounding) : Z := 1.
Definition F32Rounding_from_wire (v : Z) : result F32Rounding :=
  if v =? 1 then Ok NearestTiesEven else Err (UnknownEnum "rotation f32 rounding" v).
#[export] Instance F32Rounding_enum : WireEnum F32Rounding_wire F32Rounding_from_wire.
Proof. solve_wire_enum. Qed.
Inductive F16CacheCast := NearestTiesEvenPreserveSubnormals.
Definition F16CacheCast_wire (x : F16CacheCast) : Z := 1.
Definition F16CacheCast_from_wire (v : Z) : result F16CacheCast :=
  if v =? 1 then Ok NearestTiesEvenPreserveSubnormals else Err (UnknownEnum "rotation f16 cache cast" v).
#[export] Instance F16CacheCast_enum : WireEnum F16CacheCast_wire F16CacheCast_from_wire.
Proof. solve_wire_enum. Qed.
Inductive RotationOrder := FmaWithRoundedCrossProductV1.
Definition RotationOrder_wire (x : RotationOrder) : Z := 1.
Definition RotationOrder_from_wire (v : Z) : result RotationOrder :=
  if v =? 1 then Ok FmaWithRoundedCrossProductV1 else Err (UnknownEnum "rotation operation order" v).
#[export] Instance RotationOrder_enum : WireEnum RotationOrder_wire RotationOrder_from_wire.
Proof. solve_wire_enum. Qed.

Record RotationFamilyDescriptorV1 := mkRotationFamilyDescriptorV1 {
    coefficient_set : CoefficientSet;
    coefficient_set_sha256 : bytes;
    sincos_order : SincosOrder;
    phase_origin : PhaseOrigin;
    position_convention : PositionConvention;
    pairing : RopePairing;
    denormal_policy : DenormalPolicy;
    f32_rounding : F32Rounding;
    f16_cache_cast : F16CacheCast;
    rotation_order : RotationOrder;
    rotary_dimension : Z;
    model_representation_id : bytes;
    frac64_le : bytes;
    frac64_sha256 : bytes
}.

(** [chunks_exact(n)]: the complete chunks of [l]. *)
Fixpoint chunks_exact (fuel n : nat) (l : bytes) : list bytes :=
  match fuel with
  | O => []
  | S fuel => if (n <=? length l)%nat then take n l :: chunks_exact fuel n (drop n l) else []
  end.
(** The loop over the table: rejects a zero increment and remembers whether
    some increment has low bits ([increment as u32 != 0]). *)
Fixpoint check_increments (any_low_bits : bool) (l : list bytes) : result bool :=
  match l with
  | [] => Ok any_low_bits
  | chunk :: l =>
      let increment := le_val chunk in
      if increment =? 0 then Err (Semantics "rotation frac64 table contains a zero increment")
      else check_increments (any_low_bits || negb (increment mod u32_bound =? 0)) l
  end.
(** [self.frac64_le.chunks_exact(8)]; each step consumes eight bytes, so the
    table's length is fuel enough. *)
Definition table_chunks (table : bytes) : list bytes := chunks_exact (length table) 8 table.

Section rotation.
Context `{Crypto}.

Definition rotation_validate (d : RotationFamilyDescriptorV1) : result unit :=
  if (rotary_dimension d <? 2) || (MAX_ROTARY_DIMENSION <? rotary_dimension d)
   || negb (rotary_dimension d mod 2 =? 0) then
  Err (Bounds "rotation rotary dimension is outside the v1 bounds") else
  expected ← ok_or (checked_mul (rotary_dimension d / 2) 8)
             (Bounds "rotation table byte count overflow");
  if negb (zlen (frac64_le d) =? expected) then
  Err (Bounds "rotation frac64 table does not match rotary dimension") else
  if bytes_eqb (model_representation_id d) ZERO_ID || bytes_eqb (coefficient_set_sha256 d) ZERO_ID then
  Err (Semantics "rotation descriptor contains a zero identity") else
  if negb (bytes_eqb (sha256_digest (frac64_le d)) (frac64_sha256 d)) then
  Err (Semantics "rotation frac64 table hash does not match authenticated bytes") else
  any_low_bits ← check_increments false (table_chunks (frac64_le d));
  if negb any_low_bits then
  Err (Semantics "rotation frac64 table is only a lifted 32-bit frequency table")
  else Ok tt.

Definition rotation_new (rotary_dimension : Z) (model_representation_id table coefficients : bytes)
  : result RotationFamilyDescriptorV1 :=
  let value := mkRotationFamilyDescriptorV1 FixedQ30Degree7Degree6V1 coefficients FixedQ30HornerV1
  PhaseZero ZeroBasedAbsolute NeoxHalfSplit PreserveIeee NearestTiesEven
  NearestTiesEvenPreserveSubnormals FmaWithRoundedCrossProductV1 rotary_dimension
  model_representation_id table (sha256_digest table) in
  _ ← rotation_validate value;
  Ok value.

Definition pinned_qwen25 (model_representation_id : bytes) : result RotationFamilyDescriptorV1 :=
  let table := put_list put_u64 QWEN25_FRAC64 in
  value ← rotation_new QWEN25_ROTARY_DIMENSION model_representation_id table
          FIXED_Q30_D7_D6_COEFFICIENT_SHA256;
  if negb (bytes_eqb (frac64_sha256 value) QWEN25_FRAC64_TABLE_SHA256) then
  Err (Semantics "pinned qwen2.5 rotation table hash does not match its family constant")
  else Ok value.

Definition rotation_body (d : RotationFamilyDescriptorV1) : result bytes :=
  table_len ← ok_or (try_from u32_bound (zlen (frac64_le d))) (Bounds "rotation table exceeds u32");
  mret (put_u16 ROTATION_FAMILY_VERSION ++ put_u16 0 ++
      put_enum CoefficientSet_wire (coefficient_set d) ++
      put_enum SincosOrder_wire (sincos_order d) ++
      put_enum PhaseOrigin_wire (phase_origin d) ++
      put_enum PositionConvention_wire (position_convention d) ++
      put_enum RopePairing_wire (pairing d) ++
      put_enum DenormalPolicy_wire (denormal_policy d) ++
      put_enum F32Rounding_wire (f32_rounding d) ++
      put_enum F16CacheCast_wire (f16_cache_cast d) ++
      put_enum RotationOrder_wire (rotation_order d) ++
      put_u16 0 ++ put_u32 (rotary_dimension d) ++ put_id (coefficient_set_sha256 d) ++
      put_id (model_representation_id d) ++ put_u32 table_len ++ frac64_le d ++
      put_id (frac64_sha256 d)).
Definition rotation_encode_canonical (d : RotationFamilyDescriptorV1) : result bytes :=
  _ ← rotation_validate d;
  body ← rotation_body d;
  mret (ROTATION_FAMILY_MAGIC ++ body).

Definition rotation_decode_body : Dec RotationFamilyDescriptorV1 :=
  version ← dec_u16;
  if negb (version =? ROTATION_FAMILY_VERSION) then
  dec_fail (BadMagic "unsupported rotation family version") else
  reserved ← dec_u16;
  if negb (reserved =? 0) then
  dec_fail (Reserved "rotation family reserved field is nonzero") else
  coefficients ← dec_enum CoefficientSet_from_wire;
  sincos ← dec_enum SincosOrder_from_wire;
  origin ← dec_enum PhaseOrigin_from_wire;
  convention ← dec_enum PositionConvention_from_wire;
  pair ← dec_enum RopePairing_from_wire;
  denormal ← dec_enum DenormalPolicy_from_wire;
  rounding ← dec_enum F32Rounding_from_wire;
  cast ← dec_enum F16CacheCast_from_wire;
  order ← dec_enum RotationOrder_from_wire;
  secondary ← dec_u16;
  if negb (secondary =? 0) then
  dec_fail (Reserved "rotation family secondary reserved field is nonzero") else
  dimension ← dec_u32;
  coefficient_hash ← dec_id;
  model ← dec_id;
  table_len ← dec_u32;
  table ← dec_take table_len;
  table_hash ← dec_id;
  mret (mkRotationFamilyDescriptorV1 coefficients coefficient_hash sincos origin convention pair
        denormal rounding cast order dimension model table table_hash).
Definition rotation_decode_canonical (b : bytes) : result RotationFamilyDescriptorV1 :=
  input ← Decoder_new b ROTATION_FAMILY_MAGIC;
  '(value, input) ← rotation_decode_body input;
  _ ← Decoder_finish input;
  _ ← rotation_validate value;
  again ← rotation_encode_canonical value;
  if negb (bytes_eqb again b) then Err (Reserved "rotation family encoding is not canonical")
  else Ok value.

Definition rotation_message (canonical : bytes) : bytes :=
  ascii_bytes "kvpack/v1/rotation-family" ++ [0] ++ canonical.
Definition rotation_identity (d : RotationFamilyDescriptorV1) : result bytes :=
  canonical ← rotation_encode_canonical d;
  mret (sha256_digest (rotation_message canonical)).

(** ** The hook *)
Definition RotationFamilyHook : Type := option bytes.
Definition hook_from_descriptor (d : RotationFamilyDescriptorV1) : result RotationFamilyHook :=
  id ← rotation_identity d;
  Ok (Some id).
Definition bound_abi_message (base descriptor_id : bytes) : bytes :=
  ascii_bytes "kvpack/v1/rotation-bound-engine-cache-abi" ++ [0] ++ base ++ descriptor_id.
Definition bind_engine_cache_abi (hook : RotationFamilyHook) (base : bytes) : bytes :=
  match hook with
  | None => base
  | Some descriptor_id => sha256_digest (bound_abi_message base descriptor_id)
  end.
Definition bind_representation_family (f : RepresentationFamilyId) (hook : RotationFamilyHook)
  : RepresentationFamilyId :=
  mkRepresentationFamilyId (bind_engine_cache_abi hook (engine_cache_abi f)) (mode f)
  (page_size_tokens f) (topology f) (shard_map f) (family_states f).
End rotation.

(** * Laws of rotation families *)
(** What the Rust types of a descriptor guarantee; its table is a [Vec<u8>]. *)
Definition rotation_typed (d : RotationFamilyDescriptorV1) : Prop :=
  in_u32 (rotary_dimension d) ∧ id_ok (coefficient_set_sha256 d) ∧
  id_ok (model_representation_id d) ∧ id_ok (frac64_sha256 d) ∧ bytes_ok (frac64_le d).
Definition rotation_wf (d : RotationFamilyDescriptorV1) : Prop :=
  rotation_typed d ∧ zlen (frac64_le d) < u32_bound.

#[export] Instance rotation_codec : Codec rotation_wf rotation_body rotation_decode_body.
Proof.
  split.
  - intros d [_ Hl]. unfold rotation_body. rewrite try_from_ok by done. by eexists.
  - intros d b [(_ & Hc & Hm & Hh & Ht) Hl] Hb. unfold rotation_body in Hb. inv_ok. subst.
    unfold put_enum. bytes_ok_app_all.
  - intros [cs ch so po pc pr dp fr fc ro dim model table hash] b [(Hd & Hc & Hm & Hh & Ht) Hl] Hb. unfold rotation_body in Hb. inv_ok. subst.
    cbn [rotary_dimension coefficient_set_sha256 model_representation_id frac64_sha256 frac64_le
         coefficient_set sincos_order phase_origin position_convention pairing denormal_policy
         f32_rounding f16_cache_cast rotation_order] in *.
    apply try_from_Some in H as [-> _]. unfold rotation_decode_body.
    assert (in_u32 (zlen table)) by (pose proof (zlen_nonneg table); range_lia).
    assert (in_u16 0) by range_lia. assert (in_u16 ROTATION_FAMILY_VERSION) by by split.
    pose proof (parses_take (zlen table) table eq_refl). parse_all.
  - unfold rotation_decode_body.
    repeat lazymatch goal with |- sound (mbind _ (dec_take _)) _ => fail | |- _ => sound_step end.
    match goal with H : in_u32 ?n ∧ _ |- sound (mbind _ (dec_take ?n)) _ => destruct H as [Hn ->] end.
    eapply sound_bind; [apply sound_take; apply Hn|cbv beta; intros table ? [-> Hlen] ?].
    sound_all. sound_fields. unfold rotation_wf, rotation_typed, rotation_body.
    split; [split_and!; try done; unfold in_u32 in Hn; simpl; lia|].
    cbn [frac64_le]. rewrite try_from_ok by (unfold in_u32 in Hn; lia). cbn [ok_or mbind outcome_bind]. by rewrite app_nil_r.
Qed.

(** ** The table loop *)
Lemma check_increments_Ok l any r :
  check_increments any l = Ok r ↔
  Forall (λ c, le_val c ≠ 0) l ∧ r = any || existsb (λ c, negb (le_val c mod u32_bound =? 0)) l.
Proof.
  revert any. induction l as [|c l IH]; intros any; cbn [check_increments existsb].
  { rewrite orb_false_r. split; [intros ->%Ok_inj; done|by intros [_ ->]]. }
  rewrite Forall_cons_iff. destruct (Z.eqb_spec (le_val c) 0); [naive_solver|].
  rewrite IH, orb_assoc. naive_solver.
Qed.
Lemma check_increments_no_panic any l : ¬ panics (check_increments any l).
Proof. revert any. induction l as [|c l IH]; intros any; simpl; no_panic; auto. Qed.

(** What a descriptor must satisfy. *)
Definition rotation_valid `{Crypto} (d : RotationFamilyDescriptorV1) : Prop :=
  2 ≤ rotary_dimension d ≤ MAX_ROTARY_DIMENSION ∧ (2 | rotary_dimension d) ∧
  zlen (frac64_le d) = 4 * rotary_dimension d ∧
  model_representation_id d ≠ ZERO_ID ∧ coefficient_set_sha256 d ≠ ZERO_ID ∧
  frac64_sha256 d = sha256_digest (frac64_le d) ∧
  Forall (λ c, le_val c ≠ 0) (table_chunks (frac64_le d)) ∧
  Exists (λ c, le_val c mod u32_bound ≠ 0) (table_chunks (frac64_le d)).

Lemma bytes_eqb_neq a b : a ≠ b → bytes_eqb a b = false.
Proof. intros H. destruct (bytes_eqb a b) eqn:He; [|done]. by apply bytes_eqb_eq in He. Qed.

Section laws.
Context `{C : Crypto}.
Lemma rotation_validate_Ok d : rotation_validate d = Ok tt ↔ rotation_valid d.
Proof.
  unfold rotation_validate, rotation_valid. split.
  - intros H. inv_ok. bools. apply checked_mul_Some in H as [-> _].
    match goal with H : check_increments _ _ = _ |- _ => apply check_increments_Ok in H as [Hf He] end.
    cbn [orb] in He. subst. match goal with H : existsb _ _ = true |- _ =>
      apply existsb_exists in H as (c & Hc & Hn) end.
    assert (rotary_dimension d = 2 * (rotary_dimension d / 2)) as Hd by (apply Z_div_exact_full_2; lia).
    split_and!; try done; try lia.
    + by exists (rotary_dimension d / 2); lia.
    + intros He. rewrite He, bytes_eqb_refl in *. done.
    + intros He. rewrite He, bytes_eqb_refl in *. done.
    + match goal with H : bytes_eqb _ _ = true |- _ => by apply bytes_eqb_eq in H end.
    + apply list.Exists_exists. exists c. rewrite list_elem_of_In. split; [done|]. by bools.
  - intros (Hr & Hd & Hl & Hm & Hc & Hh & Hf & He). apply Z.mod_divide in Hd as Hd'; [|lia].
    destruct Hd as [k Hk]. rewrite Hk in *. rewrite Z.div_mul by lia.
    rewrite (proj2 (Z.ltb_ge _ _)), (proj2 (Z.ltb_ge MAX_ROTARY_DIMENSION _)), Hd' by lia. cbn [negb orb Z.eqb].
    rewrite (proj2 (checked_mul_Some k 8 _)) by (split; [done|unfold MAX_ROTARY_DIMENSION, u64_bound in *; lia]).
    cbn [ok_or mbind outcome_bind]. rewrite (proj2 (Z.eqb_eq _ _)) by lia. cbn [negb].
    rewrite !bytes_eqb_neq by done. cbn [orb].
    rewrite <- Hh, bytes_eqb_refl. cbn [negb].
    rewrite (proj2 (check_increments_Ok _ false true)); [done|]. split; [done|]. symmetry.
    apply existsb_exists. apply list.Exists_exists in He as (c & Hin & Hn). exists c.
    rewrite <- list_elem_of_In. split; [done|]. apply negb_true_iff. by apply Z.eqb_neq.
Qed.
Lemma rotation_validate_no_panic d : ¬ panics (rotation_validate d).
Proof. unfold rotation_validate. no_panic. apply check_increments_no_panic. Qed.
Lemma rotation_valid_wf d : rotation_typed d → rotation_valid d → rotation_wf d.
Proof.
  intros Ht (Hr & _ & Hl & _). split; [done|]. unfold MAX_ROTARY_DIMENSION in *. rewrite Hl. range_lia.
Qed.

Definition rotation_frame (d : RotationFamilyDescriptorV1) : result bytes :=
  body ← rotation_body d; mret (ROTATION_FAMILY_MAGIC ++ body).
(** Both final checks are redundant with the validation and the decoder. *)
Lemma rotation_decode_split b :
  bytes_ok b →
  rotation_decode_canonical b =
  d ← canonical_decode ROTATION_FAMILY_MAGIC rotation_decode_body rotation_frame (Reserved "") b;
  _ ← rotation_validate d; Ok d.
Proof.
  intros Hb. unfold canonical_decode, rotation_decode_canonical, rotation_encode_canonical.
  destruct (Decoder_new b ROTATION_FAMILY_MAGIC) as [i0| |] eqn:Hn; cbn [mbind outcome_bind]; [|done..].
  destruct (rotation_decode_body i0) as [[d i]| |] eqn:Hr; cbn [mbind outcome_bind]; [|done..].
  destruct (Decoder_finish i) as [[]| |] eqn:Hf; cbn [mbind outcome_bind]; [|done..].
  destruct (run_sound _ _ b _ i0 d i Hb Hn (codec_sound (Codec:=rotation_codec)) Hr Hf) as (x & -> & _ & Hx).
  unfold rotation_frame. rewrite Hx. unfold mret, outcome_ret. cbn [mbind outcome_bind]. rewrite bytes_eqb_refl. cbn [negb].
  cbn [mbind outcome_bind]. destruct (rotation_validate d) as [[]| |]; [|done..].
  unfold mret, outcome_ret. cbn [mbind outcome_bind]. by rewrite bytes_eqb_refl.
Qed.
Lemma rotation_decode_Ok b d :
  bytes_ok b → slice_len_ok b →
  rotation_decode_canonical b = Ok d ↔ rotation_typed d ∧ rotation_encode_canonical d = Ok b.
Proof.
  intros Hb Hl. rewrite rotation_decode_split by done. split.
  - intros H. inv_ok. subst x. destruct x0.
    eapply (canonical_decode_Ok _ rotation_wf rotation_body) in H as [Hok He]; [|apply _|done..].
    split; [apply Hok|]. unfold rotation_encode_canonical. rewrite H0. exact He.
  - intros [Ht He]. unfold rotation_encode_canonical in He. apply bind_Ok in He as ([] & Hv & He).
    pose proof (rotation_valid_wf d Ht (proj1 (rotation_validate_Ok d) Hv)) as Hok.
    erewrite (canonical_decode_encode _ rotation_wf rotation_body _ rotation_frame);
      [|apply _|done..]. cbn [mbind outcome_bind]. by rewrite Hv.
Qed.
Lemma rotation_decode_no_panic b : bytes_ok b → ¬ panics (rotation_decode_canonical b).
Proof.
  intros Hb. rewrite rotation_decode_split by done. apply bind_no_panic.
  { eapply (canonical_decode_no_panic _ rotation_wf rotation_body); [apply _|done..]. }
  intros d _. no_panic. apply rotation_validate_no_panic.
Qed.
Lemma rotation_encode_total d :
  rotation_typed d → rotation_valid d →
  ∃ b, rotation_encode_canonical d = Ok b ∧ bytes_ok b ∧ slice_len_ok b.
Proof.
  intros Ht Hv. pose proof (rotation_valid_wf d Ht Hv) as Hok.
  unfold rotation_encode_canonical. rewrite (proj2 (rotation_validate_Ok d) Hv). cbn [mbind outcome_bind].
  destruct (codec_total (Codec:=rotation_codec) d Hok) as [b Hb]. rewrite Hb. eexists. split; [done|].
  pose proof (codec_bytes (Codec:=rotation_codec) _ _ Hok Hb) as Hbytes.
  split; [apply bytes_ok_app; split; [by apply bytes_okb_ok|done]|].
  unfold rotation_body in Hb. inv_ok. subst b. destruct Hok as [(_ & Hc & Hm & Hh & _) Hl].
  unfold slice_len_ok, put_enum, put_id. rewrite !zlen_app, !zlen_put_u16, !zlen_put_u32.
  rewrite (proj1 Hc), (proj1 Hm), (proj1 Hh). change (zlen ROTATION_FAMILY_MAGIC) with 8.
  unfold u32_bound in Hl. lia.
Qed.

(** ** Identities *)
Lemma rotation_identity_inj d1 d2 c1 c2 id :
  rotation_typed d1 → rotation_typed d2 →
  rotation_encode_canonical d1 = Ok c1 → rotation_encode_canonical d2 = Ok c2 →
  rotation_identity d1 = Ok id → rotation_identity d2 = Ok id →
  d1 = d2 ∨ collides sha256_digest (rotation_message c1) (rotation_message c2).
Proof.
  intros H1 H2 E1 E2 I1 I2. unfold rotation_identity in *. rewrite E1 in I1. rewrite E2 in I2.
  cbn [mbind outcome_bind] in *. unfold mret, outcome_ret in *. apply Ok_inj in I1, I2. subst id.
  destruct (hash_eq_or_collides _ _ _ I2) as [He|Hc]; [left|right].
  2: { destruct Hc as [Hne Heq]. split; [congruence|done]. }
  unfold rotation_message in He. apply app_inv_head, app_inv_head in He. subst c2.
  assert (rotation_valid d1) as Hv.
  { unfold rotation_encode_canonical in E1. inv_ok. destruct x. by apply rotation_validate_Ok. }
  destruct (rotation_encode_total d1 H1 Hv) as (b & Hb & Hbo & Hbl). assert (b = c1) as -> by congruence.
  pose proof (proj2 (rotation_decode_Ok c1 d1 Hbo Hbl) (conj H1 E1)) as D1.
  pose proof (proj2 (rotation_decode_Ok c1 d2 Hbo Hbl) (conj H2 E2)) as D2. congruence.
Qed.
Lemma bound_abi_inj b1 b2 i1 i2 :
  id_ok b1 → id_ok b2 → bound_abi_message b1 i1 = bound_abi_message b2 i2 → b1 = b2 ∧ i1 = i2.
Proof.
  intros [L1 _] [L2 _] H. unfold bound_abi_message in H. apply app_inv_head, app_inv_head in H.
  apply app_inj_1 in H; [done|]. unfold zlen in *. lia.
Qed.
Lemma bind_family_fields f hook :
  engine_cache_abi (bind_representation_family f hook) = bind_engine_cache_abi hook (engine_cache_abi f).
Proof. done. Qed.
End laws.
