(* ===== verification/Quant.v ===== *)
(** * The quantization codec (crates/kvpack-core/src/quant.rs)

    An [f32] is its bit pattern, as in the statistics sidecar; its arithmetic
    is the standard library's specification of binary32 ([SFadd], [SFsub],
    [SFmul], [SFdiv] at precision 24).  [f32::min] of two zeros may return
    either; the model keeps the first. *)
From stdpp Require Import base tactics numbers list strings option.
From S2P Require Import Prelude Bytes Canonical Wire State Validator ValidatorLaws Half Stats.

From Stdlib Require Import ZArith Lia Floats.SpecFloat.

Definition MAX_QUANT_DIMENSION : Z := 1048576.
Definition MAX_QUANT_ELEMENTS : Z := 67108864.
Definition MAX_QUANT_GROUP_SIZE : Z := 1024.

Inductive QuantAxis := PerChannel | PerToken.
Definition QuantAxis_magic (axis : QuantAxis) : bytes :=
  match axis with PerChannel => QUANT_K_MAGIC | PerToken => QUANT_V_MAGIC end.
Definition QuantAxis_from_magic (magic : bytes) : result QuantAxis :=
  if bytes_eqb magic QUANT_K_MAGIC then Ok PerChannel
  else if bytes_eqb magic QUANT_V_MAGIC then Ok PerToken
  else Err (BadMagic "invalid quantized tensor magic").

Record QuantConfig := mkQuantConfig { qc_bits : Z; qc_group_size : Z }.
Definition QuantConfig_new (bits group_size : Z) : result QuantConfig :=
  if negb (bits =? 2) && negb (bits =? 4) then
    Err (Codec_error "quantization must use 2 or 4 bits") else
  if (group_size =? 0) || (MAX_QUANT_GROUP_SIZE <? group_size) then
    Err (Bounds "quantization group size is outside bounds")
  else Ok (mkQuantConfig bits group_size).
Definition levels (c : QuantConfig) : Z := Z.shiftl 1 (qc_bits c).

(** ** binary32 arithmetic *)
Definition f32_to_sf (bits : Z) : spec_float :=
  let s := bits / 2147483648 =? 1 in
  let e := (bits / 8388608) mod 256 in
  let m := bits mod 8388608 in
  if e =? 255 then (if m =? 0 then S754_infinity s else S754_nan)
  else if e =? 0 then (if m =? 0 then S754_zero s else S754_finite s (Z.to_pos m) (-149))
  else S754_finite s (Z.to_pos (8388608 + m)) (e - 150).
(** The fields of a rounded result are within their widths. *)
Definition f32_of_sf (x : spec_float) : Z :=
  match x with
  | S754_nan => 2143289344
  | S754_zero s => f32_pack (Z.b2z s) 0 0
  | S754_infinity s => f32_pack (Z.b2z s) 255 0
  | S754_finite s m e =>
      if Z.pos m <? 8388608 then f32_pack (Z.b2z s) 0 (Z.pos m)
      else f32_pack (Z.b2z s) ((e + 150) mod 256) (Z.pos m mod 8388608)
  end.
Definition f32_of_int (n : Z) : spec_float := binary_normalize 24 128 n 0 false.
Definition f32_add := SFadd 24 128.
Definition f32_sub := SFsub 24 128.
Definition f32_mul := SFmul 24 128.
Definition f32_div := SFdiv 24 128.
(** [x == 0.0] *)
Definition f32_is_zero (bits : Z) : bool := f32_units bits =? 0.
(** [x.round() as i64]: half away from zero, saturating, NaN to 0 *)
Definition round_as_i64 (x : spec_float) : Z :=
  let lo := - 9223372036854775808 in
  let hi := 9223372036854775807 in
  match x with
  | S754_nan | S754_zero _ => 0
  | S754_infinity s => if s then lo else hi
  | S754_finite s m e =>
      let mag := if 0 <=? e then Z.pos m * 2 ^ e else (Z.pos m * 2 + 2 ^ (- e)) / 2 ^ (1 - e) in
      Z.max lo (Z.min hi (if s then - mag else mag))
  end.

(** [QuantConfig::error_bound]; [2.0f32.powi(-11)] is exact. *)
Definition error_bound (c : QuantConfig) (range zero_rounding : spec_float) : spec_float :=
  let scale := f32_div range (f32_of_int (levels c - 1)) in
  let half := binary_normalize 24 128 1 (-1) false in
  let ulp := binary_normalize 24 128 1 (-11) false in
  f32_add (f32_mul scale (f32_add half ulp)) zero_rounding.

Record QuantizedTensor := mkQuantizedTensor {
    qt_axis : QuantAxis;
    qt_config : QuantConfig;
    qt_rows : Z;
    qt_cols : Z;
    qt_scales : list (Z * Z);
    qt_packed : bytes
}.

(** [extent.div_ceil(group_size)] *)
Definition groups_along (extent group_size : Z) : result Z :=
  if group_size =? 0 then Panic "attempt to divide by zero" else Ok (div_ceil extent group_size).
Definition packed_len (rows cols bits : Z) : Z := div_ceil (rows * cols * bits) 8.

(** ** Bit streams *)

(** [BitReader::next], with its cursor as an argument *)
Definition reader_next (packed : bytes) (bits cursor : Z) : option Z :=
  let bit_offset := cursor * bits in
  let byte_offset := bit_offset / 8 in
  let shift := bit_offset mod 8 in
  let mask := Z.shiftl 1 bits - 1 in
  first ← packed !! Z.to_nat byte_offset;
  let value := Z.shiftr first shift in
  value ← (if 8 <? shift + bits then
             second ← packed !! Z.to_nat (byte_offset + 1);
             Some (Z.lor value (Z.shiftl second (8 - shift)))
           else Some value);
  Some (Z.land value mask).

Record BitWriter := mkBitWriter { bw_packed : bytes; bw_cursor : Z }.
(** [BitWriter::push] *)
Definition writer_push (bits : Z) (w : BitWriter) (code : Z) : result BitWriter :=
  let bit_offset := bw_cursor w * bits in
  let byte_offset := bit_offset / 8 in
  let shift := bit_offset mod 8 in
  let packed := if byte_offset =? zlen (bw_packed w) then bw_packed w ++ [0] else bw_packed w in
  old ← index packed byte_offset;
  let packed := <[Z.to_nat byte_offset := Z.lor old (Z.shiftl code shift mod u8_bound)]> packed in
  let packed := if 8 <? shift + bits then packed ++ [Z.shiftr code (8 - shift) mod u8_bound]
                else packed in
  Ok (mkBitWriter packed (bw_cursor w + 1)).

(** ** Reading tensors *)
Definition group_index (t : QuantizedTensor) (row col : Z) : result Z :=
  let group_size := qc_group_size (qt_config t) in
  match qt_axis t with
  | PerChannel => groups ← groups_along (qt_rows t) group_size; Ok (col * groups + row / group_size)
  | PerToken => groups ← groups_along (qt_cols t) group_size; Ok (row * groups + col / group_size)
  end.

(** [zero + code as f32 * scale] *)
Definition dequantize (scale zero code : Z) : Z :=
  f32_of_sf (f32_add (f32_to_sf zero) (f32_mul (f32_of_int code) (f32_to_sf scale))).
(** The body of the loops of [decode], over the reader's cursor and the result. *)
Definition decode_element (t : QuantizedTensor) (row col : Z) (acc : Z * list Z)
    : result (Z * list Z) :=
  let '(cursor, out) := acc in
  code ← ok_or (reader_next (qt_packed t) (qc_bits (qt_config t)) cursor)
           (Truncated "quantized tensor codes are truncated");
  group ← group_index t row col;
  '(scale_bits, zero_bits) ← index (qt_scales t) group;
  if levels (qt_config t) <=? code then
    Err (Codec_error "quantized tensor code exceeds the level count") else
  _ ← index out (row * qt_cols t + col);
  Ok (cursor + 1,
      <[Z.to_nat (row * qt_cols t + col) :=
          dequantize (f16_to_f32 scale_bits) (f16_to_f32 zero_bits) code]> out).
(** [for row in 0..rows { for col in 0..cols { body } }] *)
Definition for_grid {A} (rows cols : Z) (body : Z → Z → A → result A) (acc : A) : result A :=
  for_range (Z.to_nat rows) 0 (λ row, for_range (Z.to_nat cols) 0 (body row)) acc.
Definition tensor_decode (t : QuantizedTensor) : result (list Z) :=
  '(_, out) ← for_grid (qt_rows t) (qt_cols t) (decode_element t)
                (0, zeros (qt_rows t * qt_cols t));
  Ok out.

(** The two loops and the tail check of [validate_packing]. *)
Definition check_code (t : QuantizedTensor) (i : Z) (cursor : Z) : result Z :=
  code ← ok_or (reader_next (qt_packed t) (qc_bits (qt_config t)) cursor)
           (Truncated "quantized tensor codes are truncated");
  if levels (qt_config t) <=? code then
    Err (Codec_error "quantized tensor code exceeds the level count")
  else Ok (cursor + 1).
Definition check_tail (t : QuantizedTensor) : result unit :=
  let used_bits := qt_rows t * qt_cols t * qc_bits (qt_config t) in
  if used_bits mod 8 =? 0 then Ok tt else
  tail ← index (qt_packed t) (zlen (qt_packed t) - 1);
  if negb (Z.shiftr tail (used_bits mod 8) =? 0) then
    Err (Reserved "quantized tensor tail padding bits are nonzero")
  else Ok tt.
Definition check_zero_scale (t : QuantizedTensor) (row col : Z) (cursor : Z) : result Z :=
  code ← expect (reader_next (qt_packed t) (qc_bits (qt_config t)) cursor) "validated code count";
  group ← group_index t row col;
  '(scale_bits, _) ← index (qt_scales t) group;
  if f32_is_zero (f16_to_f32 scale_bits) && negb (code =? 0) then
    Err (Codec_error "zero-scale quantization group carries a nonzero code")
  else Ok (cursor + 1).
Definition validate_packing (t : QuantizedTensor) : result unit :=
  _ ← for_range (Z.to_nat (qt_rows t * qt_cols t)) 0 (check_code t) 0;
  _ ← check_tail t;
  _ ← for_grid (qt_rows t) (qt_cols t) (check_zero_scale t) 0;
  Ok tt.

Definition validate_dimensions (rows cols : Z) : result unit :=
  if (rows =? 0) || (cols =? 0) || (MAX_QUANT_DIMENSION <? rows) || (MAX_QUANT_DIMENSION <? cols)
     || match checked_mul rows cols with
        | None => true
        | Some elements => MAX_QUANT_ELEMENTS <? elements
        end then
    Err (Bounds "quantized tensor dimensions are outside bounds")
  else Ok tt.

(** ** Canonical form *)
Definition put_scales (p : Z * Z) : bytes := put_u16 p.1 ++ put_u16 p.2.
Definition quant_body (t : QuantizedTensor) : bytes :=
  put_u16 WIRE_VERSION ++ put_u16 0 ++ put_u8 (qc_bits (qt_config t)) ++ put_u8 0 ++
  put_u32 (qc_group_size (qt_config t)) ++ put_u64 (qt_rows t) ++ put_u64 (qt_cols t) ++
  put_u64 (zlen (qt_scales t)) ++ put_list put_scales (qt_scales t) ++
  put_u64 (zlen (qt_packed t)) ++ qt_packed t.
Definition quant_encode_canonical (t : QuantizedTensor) : result bytes :=
  Ok (QuantAxis_magic (qt_axis t) ++ quant_body t).

Definition dec_scales : Dec (Z * Z) :=
  scale ← dec_u16;
  zero ← dec_u16;
  let scale_value := f16_to_f32 scale in
  if negb (f32_is_finite scale_value) || f32_ltb scale_value 0
     || negb (f32_is_finite (f16_to_f32 zero)) then
    dec_fail (Semantics "quantized tensor scale or zero-point is invalid")
  else mret (scale, zero).
Definition expected_groups (axis : QuantAxis) (rows cols group_size : Z) : result Z :=
  match axis with
  | PerChannel => groups ← groups_along rows group_size; Ok (cols * groups)
  | PerToken => groups ← groups_along cols group_size; Ok (rows * groups)
  end.
Definition quant_decode_body (axis : QuantAxis) : Dec QuantizedTensor :=
  version ← dec_u16;
  if negb (version =? WIRE_VERSION) then
    dec_fail (BadMagic "unsupported quantized tensor version") else
  reserved ← dec_u16;
  if negb (reserved =? 0) then
    dec_fail (Reserved "quantized tensor reserved field is nonzero") else
  bits ← dec_u8;
  reserved ← dec_u8;
  if negb (reserved =? 0) then
    dec_fail (Reserved "quantized tensor reserved byte is nonzero") else
  group_size ← dec_u32;
  config ← dec_lift (QuantConfig_new bits group_size);
  rows ← dec_u64;
  cols ← dec_u64;
  _ ← dec_lift (validate_dimensions rows cols);
  group_count ← dec_u64;
  expected ← dec_lift (expected_groups axis rows cols group_size);
  if negb (group_count =? expected) then
    dec_fail (Bounds "quantized tensor group count does not match its shape") else
  scales ← dec_repeat (Z.to_nat group_count) dec_scales;
  len ← dec_u64;
  if negb (len =? packed_len rows cols bits) then
    dec_fail (Bounds "quantized tensor packed length does not match its shape") else
  packed ← dec_take len;
  mret (mkQuantizedTensor axis config rows cols scales packed).
Definition quant_decode_canonical (b : bytes) : result QuantizedTensor :=
  if zlen b <? 8 then Err (Truncated "truncated quantized tensor") else
  magic ← slice b 0 8;
  axis ← QuantAxis_from_magic magic;
  input ← Decoder_new b (QuantAxis_magic axis);
  '(tensor, input) ← quant_decode_body axis input;
  _ ← Decoder_finish input;
  _ ← validate_packing tensor;
  again ← quant_encode_canonical tensor;
  if negb (bytes_eqb again b) then Err (Reserved "quantized tensor is not canonical")
  else Ok tensor.

(** ** Quantization *)
Definition line_extent (axis : QuantAxis) (rows cols : Z) : Z :=
  match axis with PerChannel => rows | PerToken => cols end.
Definition line_count (axis : QuantAxis) (rows cols : Z) : Z :=
  match axis with PerChannel => cols | PerToken => rows end.
Section quantize.
Context (values : list Z) (rows cols : Z) (config : QuantConfig) (axis : QuantAxis).

Definition line_element (line offset : Z) : result Z :=
  match axis with
  | PerChannel => index values (offset * cols + line)
  | PerToken => index values (line * cols + offset)
  end.
Definition group_range (line start stop : Z) : result (Z * Z) :=
  for_range (Z.to_nat (stop - start)) start (λ offset acc,
    value ← line_element line offset;
    Ok (f32_min acc.1 value, f32_max acc.2 value)) (f32_INFINITY, f32_NEG_INFINITY).
Definition quantize_code (scale zero value : Z) : Z :=
  let code := if f32_is_zero scale then 0
              else round_as_i64 (f32_div (f32_sub (f32_to_sf value) (f32_to_sf zero)) (f32_to_sf scale)) in
  Z.max 0 (Z.min (levels config - 1) code).
Definition scale_of_range (lo hi : Z) : Z :=
  f32_to_f16 (f32_of_sf (f32_div (f32_sub (f32_to_sf hi) (f32_to_sf lo)) (f32_of_int (levels config - 1)))).
(** One group of one line: its scale and zero point, then its codes. *)
Definition quantize_group (line group : Z) (acc : list (Z * Z) * list Z)
    : result (list (Z * Z) * list Z) :=
  let start := group * qc_group_size config in
  let stop := Z.min (start + qc_group_size config) (line_extent axis rows cols) in
  '(lo, hi) ← group_range line start stop;
  let scale_bits := scale_of_range lo hi in
  let zero_bits := f32_to_f16 lo in
  codes ← for_range (Z.to_nat (stop - start)) start (λ offset codes,
    value ← line_element line offset;
    Ok (codes ++ [quantize_code (f16_to_f32 scale_bits) (f16_to_f32 zero_bits) value])) acc.2;
  Ok (acc.1 ++ [(scale_bits, zero_bits)], codes).
Definition quantize_line (groups line : Z) (acc : list (Z * Z) * list (list Z))
    : result (list (Z * Z) * list (list Z)) :=
  '(scales, codes) ← for_range (Z.to_nat groups) 0 (quantize_group line) (acc.1, []);
  Ok (scales, acc.2 ++ [codes]).
(** The repacking loops, from line order to row-major order. *)
Definition repack_code (line_codes : list (list Z)) (row col : Z) (w : BitWriter) : result BitWriter :=
  let '(line, offset) := match axis with PerChannel => (col, row) | PerToken => (row, col) end in
  let group := offset / qc_group_size config in
  let within := offset mod qc_group_size config in
  codes ← index line_codes line;
  code ← index codes (group * qc_group_size config + within);
  writer_push (qc_bits config) w code.
Definition quantize : result QuantizedTensor :=
  _ ← validate_dimensions rows cols;
  if negb (zlen values =? rows * cols) then
    Err (Bounds "quantization source does not match the declared shape") else
  if existsb (λ value, negb (f32_is_finite value)) values then
    Err (Semantics "quantization source contains a non-finite element") else
  groups ← groups_along (line_extent axis rows cols) (qc_group_size config);
  '(scales, line_codes) ←
    for_range (Z.to_nat (line_count axis rows cols)) 0 (quantize_line groups) ([], []);
  w ← for_grid rows cols (repack_code line_codes) (mkBitWriter [] 0);
  if negb (zlen (bw_packed w) =? packed_len rows cols (qc_bits config)) then
    Panic "debug assertion failed: packed length"
  else Ok (mkQuantizedTensor axis config rows cols scales (bw_packed w)).
End quantize.
Definition quantize_k_per_channel (values : list Z) (tokens channels : Z) (config : QuantConfig) :=
  quantize values tokens channels config PerChannel.
Definition quantize_v_per_token (values : list Z) (tokens channels : Z) (config : QuantConfig) :=
  quantize values tokens channels config PerToken.

(** * Laws of the quantization codec: loops, bit streams and the canonical form *)
From Stdlib Require Import ZArith Lia Floats.SpecFloat.

(** ** Counted loops *)
Section loops.
Context {A : Type}.
Implicit Types (body : Z → A → result A) (acc : A).

Lemma for_range_app n m i body acc :
  for_range (n + m) i body acc =
  mid ← for_range n i body acc; for_range m (i + Z.of_nat n) body mid.
Proof.
  revert i acc. induction n as [|n IH]; intros i acc.
  { cbn. by rewrite Z.add_0_r. }
  cbn [for_range Nat.add]. destruct (body i acc); cbn [mbind outcome_bind]; [|done..].
  rewrite IH. by replace (i + 1 + Z.of_nat n) with (i + Z.of_nat (S n)) by lia.
Qed.
Lemma for_range_shift n i d body body' acc :
  (∀ j a, i ≤ j < i + Z.of_nat n → body j a = body' (j + d) a) →
  for_range n i body acc = for_range n (i + d) body' acc.
Proof.
  revert i acc. induction n as [|n IH]; intros i acc H; [done|]. cbn [for_range].
  rewrite H by lia. destruct (body' (i + d) acc) as [x| |]; cbn [mbind outcome_bind]; [|done..].
  rewrite IH; [by replace (i + 1 + d) with (i + d + 1) by lia|]. intros j a Hj. apply H. lia.
Qed.
Lemma for_range_ext n i body body' acc :
  (∀ j a, i ≤ j < i + Z.of_nat n → body j a = body' j a) →
  for_range n i body acc = for_range n i body' acc.
Proof.
  intros H. rewrite <- (Z.add_0_r i) at 2. apply for_range_shift. intros. by rewrite Z.add_0_r, H.
Qed.
(** A loop whose body succeeds under an invariant that it maintains. *)
Lemma for_range_inv (P : Z → A → Prop) n i body acc :
  P i acc →
  (∀ j a, i ≤ j < i + Z.of_nat n → P j a → ∃ a', body j a = Ok a' ∧ P (j + 1) a') →
  ∃ r, for_range n i body acc = Ok r ∧ P (i + Z.of_nat n) r.
Proof.
  revert i acc. induction n as [|n IH]; intros i acc H0 Hs; cbn [for_range].
  { exists acc. by rewrite Z.add_0_r. }
  destruct (Hs i acc) as (a & -> & Ha); [lia|done|]. cbn [mbind outcome_bind].
  destruct (IH (i + 1) a) as (r & Hr & HP); [done|intros; apply Hs; [lia|done]|].
  exists r. split; [done|]. by replace (i + Z.of_nat (S n)) with (i + 1 + Z.of_nat n) by lia.
Qed.
(** What every iteration of a successful loop saw. *)
Lemma for_range_Ok (P : Z → A → Prop) (Q : Z → Prop) n i body acc r :
  P i acc →
  (∀ j a a', i ≤ j < i + Z.of_nat n → P j a → body j a = Ok a' → P (j + 1) a' ∧ Q j) →
  for_range n i body acc = Ok r → P (i + Z.of_nat n) r ∧ ∀ j, i ≤ j < i + Z.of_nat n → Q j.
Proof.
  revert i acc. induction n as [|n IH]; intros i acc H0 Hs H; cbn [for_range] in H.
  { inv_ok. subst. rewrite Z.add_0_r. split; [done|lia]. }
  inv_ok. rename x into a. destruct (Hs i acc a) as [Ha HQ]; [lia|done..|].
  edestruct (IH (i + 1) a) as [HP HQs]; [done| |done|].
  { intros. eapply Hs; [lia|done..]. }
  split; [by replace (i + Z.of_nat (S n)) with (i + 1 + Z.of_nat n) by lia|].
  intros j Hj. destruct (decide (j = i)) as [->|]; [done|]. apply HQs. lia.
Qed.
Lemma for_range_no_panic (P : Z → A → Prop) n i body acc :
  P i acc →
  (∀ j a, i ≤ j < i + Z.of_nat n → P j a →
    ¬ panics (body j a) ∧ ∀ a', body j a = Ok a' → P (j + 1) a') →
  ¬ panics (for_range n i body acc).
Proof.
  revert i acc. induction n as [|n IH]; intros i acc H0 Hs; cbn [for_range]; [by intros []|].
  destruct (Hs i acc) as [Hn Hok]; [lia|done|]. apply bind_no_panic; [done|]. intros a Ha.
  apply IH; [by apply Hok|]. intros. apply Hs; [lia|done].
Qed.
(** A body that never fails is a fold. *)
Lemma for_range_fold (f : Z → A → A) n i body acc :
  (∀ j a, i ≤ j < i + Z.of_nat n → body j a = Ok (f j a)) →
  for_range n i body acc = Ok (foldl (λ a j, f j a) acc (seqZ i (Z.of_nat n))).
Proof.
  revert i acc. induction n as [|n IH]; intros i acc H; [done|]. cbn [for_range].
  rewrite H, seqZ_cons by lia. cbn [mbind outcome_bind foldl].
  rewrite IH by (intros; apply H; lia). do 3 f_equal; lia.
Qed.

(** Nested loops over a grid are one loop over the row-major positions. *)
Lemma for_grid_flat rows cols (body : Z → Z → A → result A) acc :
  0 ≤ rows → 0 < cols →
  for_grid rows cols body acc =
  for_range (Z.to_nat (rows * cols)) 0 (λ k, body (k / cols) (k mod cols)) acc.
Proof.
  intros Hr Hc. unfold for_grid.
  assert (∀ n r acc,
    for_range n r (λ row, for_range (Z.to_nat cols) 0 (body row)) acc =
    for_range (n * Z.to_nat cols) (r * cols) (λ k, body (k / cols) (k mod cols)) acc) as H.
  { clear acc. intros n. induction n as [|n IH]; intros r acc; [done|]. cbn [for_range Nat.mul].
    rewrite for_range_app.
    assert (for_range (Z.to_nat cols) 0 (body r) acc =
      for_range (Z.to_nat cols) (r * cols) (λ k, body (k / cols) (k mod cols)) acc) as ->.
    { rewrite <- (Z.add_0_l (r * cols)). apply for_range_shift. intros j a Hj. f_equal.
      - rewrite Z.div_add by lia. rewrite Z.div_small; lia.
      - rewrite Z.mod_add by lia. by rewrite Z.mod_small by lia. }
    destruct (for_range (Z.to_nat cols) _ _ _); cbn [mbind outcome_bind]; [|done..].
    rewrite IH. f_equal. rewrite Z2Nat.id by lia. lia. }
  rewrite H. f_equal. by rewrite Z2Nat.inj_mul by lia.
Qed.
End loops.

(** ** Bit streams *)
Definition bits_ok (bits : Z) : Prop := bits = 2 ∨ bits = 4.
Definition code_ok (bits code : Z) : Prop := 0 ≤ code < 2 ^ bits.

Lemma bits_fit bits k : bits_ok bits → (k * bits) mod 8 + bits ≤ 8.
Proof. intros [-> | ->]; Z.to_euclidean_division_equations; lia. Qed.
Lemma bits_pos bits : bits_ok bits → 0 < bits ≤ 4.
Proof. intros [-> | ->]; lia. Qed.

(** A code never straddles two bytes, so the reader looks at one. *)
Lemma reader_next_byte packed bits k :
  bits_ok bits →
  reader_next packed bits k =
  b ← packed !! Z.to_nat (k * bits / 8); Some (b / 2 ^ ((k * bits) mod 8) mod 2 ^ bits).
Proof.
  intros Hb. pose proof (bits_fit bits k Hb). pose proof (bits_pos bits Hb).
  unfold reader_next. destruct (packed !! Z.to_nat (k * bits / 8)) as [b|]; [|done]. cbn [mbind option_bind].
  rewrite (proj2 (Z.ltb_ge _ _)) by lia. cbn [mbind option_bind]. f_equal.
  pose proof (Z.mod_pos_bound (k * bits) 8). by rewrite Z.shiftl_1_l, land_mask, Z.shiftr_div_pow2 by lia.
Qed.
Lemma reader_next_code packed bits k c : bits_ok bits → reader_next packed bits k = Some c → code_ok bits c.
Proof.
  intros Hb H. rewrite reader_next_byte in H by done. apply bind_Some in H as (b & _ & [= <-]).
  pose proof (bits_pos bits Hb). apply Z.mod_pos_bound. apply Z.pow_pos_nonneg; lia.
Qed.
(** Reading succeeds inside a buffer that is long enough. *)
Lemma reader_next_Some packed bits k n :
  bits_ok bits → zlen packed = div_ceil (n * bits) 8 → 0 ≤ k < n → is_Some (reader_next packed bits k).
Proof.
  intros Hb Hl Hk. rewrite reader_next_byte by done.
  destruct (lookup_lt_is_Some_2 packed (Z.to_nat (k * bits / 8))) as [b ->]; [|by eexists].
  pose proof (bits_pos bits Hb). unfold zlen, div_ceil in Hl.
  assert (k * bits / 8 < Z.of_nat (length packed)).
  { rewrite Hl. apply Z.div_lt_upper_bound; [lia|]. destruct Hb as [-> | ->]; Z.to_euclidean_division_equations; lia. }
  assert (0 ≤ k * bits / 8) by (apply Z.div_pos; nia). lia.
Qed.

(** Writing a code above [old] in a byte keeps the codes below it. *)
Lemma byte_low a o s t n :
  0 ≤ t → 0 ≤ n → t + n ≤ s → 0 ≤ o → (a * 2 ^ s + o) / 2 ^ t mod 2 ^ n = o / 2 ^ t mod 2 ^ n.
Proof.
  intros Ht Hn Hs Ho. replace (a * 2 ^ s) with (a * 2 ^ (s - t - n) * 2 ^ n * 2 ^ t).
  - rewrite Z.div_add_l by (apply Z.pow_nonzero; lia).
    rewrite Z.add_comm, Z.mod_add by (apply Z.pow_nonzero; lia). done.
  - rewrite <- !Z.mul_assoc, <- !Z.pow_add_r by lia. do 2 f_equal. lia.
Qed.
Lemma byte_high c o s n :
  0 ≤ s → 0 ≤ c < 2 ^ n → 0 ≤ o < 2 ^ s → (c * 2 ^ s + o) / 2 ^ s mod 2 ^ n = c.
Proof.
  intros Hs Hc Ho. rewrite Z.div_add_l, (Z.div_small o), Z.add_0_r by lia. by apply Z.mod_small.
Qed.

(** The state of the writer after [codes]. *)
Record written (bits : Z) (codes : list Z) (w : BitWriter) : Prop := {
    wr_cursor : bw_cursor w = zlen codes;
    wr_len : zlen (bw_packed w) = div_ceil (zlen codes * bits) 8;
    wr_bytes : bytes_ok (bw_packed w);
    wr_codes : ∀ i c, codes !! i = Some c → reader_next (bw_packed w) bits (Z.of_nat i) = Some c;
    (** the unused bits of the last byte are zero *)
    wr_tail : (zlen codes * bits) mod 8 ≠ 0 →
      ∃ b, bw_packed w !! Z.to_nat (zlen codes * bits / 8) = Some b ∧ 0 ≤ b < 2 ^ ((zlen codes * bits) mod 8)
}.
Lemma written_nil bits : written bits [] (mkBitWriter [] 0).
Proof. split; try done. constructor. Qed.

Lemma bit_position_le bits i n : bits_ok bits → i < n → i * bits / 8 ≤ n * bits / 8.
Proof. intros Hb Hi. apply Z.div_le_mono; [lia|]. destruct Hb as [-> | ->]; lia. Qed.
Lemma same_byte_shift bits i n :
  bits_ok bits → i < n → i * bits / 8 = n * bits / 8 → (i * bits) mod 8 + bits ≤ (n * bits) mod 8.
Proof. intros [-> | ->] Hi He; Z.to_euclidean_division_equations; lia. Qed.
Lemma div_ceil_step bits n :
  bits_ok bits → 0 ≤ n →
  div_ceil (n * bits) 8 = n * bits / 8 + (if (n * bits) mod 8 =? 0 then 0 else 1) ∧
  div_ceil ((n + 1) * bits) 8 = n * bits / 8 + 1.
Proof.
  intros Hb Hn. unfold div_ceil. destruct (Z.eqb_spec ((n * bits) mod 8) 0);
    destruct Hb as [-> | ->]; Z.to_euclidean_division_equations; lia.
Qed.

(** The byte under the cursor holds only the codes already written to it. *)
Lemma cursor_byte bits codes w q s :
  bits_ok bits → written bits codes w → q = zlen codes * bits / 8 → s = (zlen codes * bits) mod 8 →
  let p := if q =? zlen (bw_packed w) then bw_packed w ++ [0] else bw_packed w in
  ∃ old, p !! Z.to_nat q = Some old ∧ 0 ≤ old < 2 ^ s ∧ zlen p = q + 1 ∧ bytes_ok p ∧
    (∀ j, j < Z.to_nat q → p !! j = bw_packed w !! j)%nat ∧
    (s ≠ 0 → bw_packed w !! Z.to_nat q = Some old).
Proof.
  intros Hb [_ Hlen Hbytes _ Htail] Hq Hs. rewrite <- Hq, <- Hs in Htail. pose proof (zlen_nonneg codes) as Hn.
  destruct (div_ceil_step bits (zlen codes) Hb Hn) as [Hd _]. rewrite <- Hq, <- Hs in Hd. rewrite Hd in Hlen.
  simpl. destruct (Z.eqb_spec s 0) as [Hz|Hnz].
  - rewrite Z.add_0_r in Hlen. rewrite Hlen, Z.eqb_refl. exists 0.
    assert (length (bw_packed w) = Z.to_nat q) as Hl by (unfold zlen in Hlen; lia). split_and!.
    + by rewrite lookup_app_r, Hl, Nat.sub_diag by lia.
    + lia.
    + apply Z.pow_pos_nonneg; lia.
    + rewrite zlen_app, Hlen. done.
    + apply bytes_ok_app. split; [done|]. by apply bytes_okb_ok.
    + intros j Hj. apply lookup_app_l. lia.
    + done.
  - rewrite (proj2 (Z.eqb_neq _ _)) by lia. destruct (Htail Hnz) as (b & Hbq & Hbr).
    exists b. split_and!; try done; lia.
Qed.
Lemma push_byte bits c s old :
  bits_ok bits → code_ok bits c → 0 ≤ s → s + bits ≤ 8 → 0 ≤ old < 2 ^ s →
  Z.lor old (Z.shiftl c s mod u8_bound) = c * 2 ^ s + old ∧ 0 ≤ c * 2 ^ s + old < 2 ^ (s + bits) ∧
  2 ^ (s + bits) ≤ 256.
Proof.
  intros Hb Hc Hs Hfit Ho. unfold code_ok in Hc. pose proof (bits_pos bits Hb).
  assert (2 ^ (s + bits) ≤ 2 ^ 8) as Hle by (apply Z.pow_le_mono_r; lia). change (2 ^ 8) with 256 in Hle.
  rewrite Z.pow_add_r in * by lia. split_and!; [|nia|nia|lia].
  rewrite Z.lor_comm, Z.mod_small by (rewrite Z.shiftl_mul_pow2 by lia; unfold u8_bound; nia).
  apply lor_shiftl_add; lia.
Qed.

(** One push. *)
Lemma writer_push_spec bits codes w c :
  bits_ok bits → code_ok bits c → written bits codes w →
  ∃ w', writer_push bits w c = Ok w' ∧ written bits (codes ++ [c]) w'.
Proof.
  intros Hb Hc Hw. pose proof (zlen_nonneg codes) as Hn.
  set (n := zlen codes) in *. remember (n * bits / 8) as q eqn:Hq. remember ((n * bits) mod 8) as s eqn:Hs.
  pose proof (bits_fit bits n Hb) as Hfit. rewrite <- Hs in Hfit.
  destruct (div_ceil_step bits n Hb Hn) as [_ Hd]. rewrite <- Hq in Hd.
  destruct (cursor_byte bits codes w q s Hb Hw Hq Hs) as (old & Hold & Hob & Hlp & Hbp & Hbelow & Hsame).
  set (p := if q =? zlen (bw_packed w) then _ else _) in *. destruct Hw as [Hcur Hlen Hbytes Hcodes Htail].
  assert (0 ≤ s < 8) as Hsr by (subst s; apply Z.mod_pos_bound; lia).
  assert (0 ≤ q) as Hq0 by (subst q; apply Z.div_pos; destruct Hb; subst; lia).
  destruct (push_byte bits c s old Hb Hc) as (Hlor & Hb' & Hle); [lia..|].
  unfold writer_push. rewrite Hcur. fold n. rewrite <- Hq, <- Hs. fold p.
  rewrite (proj2 (index_Ok p q old)) by done. cbn [mbind outcome_bind].
  rewrite (proj2 (Z.ltb_ge _ _)), Hlor by lia. eexists. split; [done|].
  set (b' := c * 2 ^ s + old) in *.
  assert (Z.to_nat q < length p)%nat as Hqp by (unfold zlen in Hlp; lia).
  assert (zlen (codes ++ [c]) = n + 1) as Hn1 by (rewrite zlen_app; done).
  split; cbn [bw_cursor bw_packed]; rewrite ?Hn1.
  - done.
  - unfold zlen in *. rewrite length_insert. lia.
  - apply Forall_insert; [done|]. unfold in_u8, u8_bound. lia.
  - intros i x Hi. rewrite reader_next_byte by done. apply lookup_snoc_Some in Hi as [[Hi Hx]|[Hi ->]].
    + assert (Z.of_nat i < n) as Hin by (unfold n, zlen; lia).
      pose proof (Hcodes i x Hx) as Hr. rewrite reader_next_byte in Hr by done.
      pose proof (bit_position_le bits _ _ Hb Hin) as Hpos.
      destruct (decide (Z.of_nat i * bits / 8 = q)) as [He|Hne].
      * pose proof (same_byte_shift bits _ _ Hb Hin ltac:(congruence)) as Hsh.
        rewrite He in *. rewrite <- Hs in Hsh. pose proof (bits_pos bits Hb).
        pose proof (Z.mod_pos_bound (Z.of_nat i * bits) 8).
        rewrite Hsame in Hr by lia. rewrite list_lookup_insert_eq by done. cbn [mbind option_bind] in *.
        rewrite <- Hr. f_equal. apply byte_low; lia.
      * assert (0 ≤ Z.of_nat i * bits / 8) by (apply Z.div_pos; destruct Hb; subst; lia).
        rewrite list_lookup_insert_ne, Hbelow by lia. done.
    + change (Z.of_nat i) with (Z.of_nat i). replace (Z.of_nat i) with n by (unfold n, zlen; lia).
      rewrite <- Hq, <- Hs, list_lookup_insert_eq by done. cbn [mbind option_bind]. f_equal.
      apply byte_high; [lia|done|lia].
  - intros Hnz. assert ((n + 1) * bits / 8 = q ∧ (n + 1) * bits mod 8 = s + bits) as [-> ->].
    { destruct Hb; subst; Z.to_euclidean_division_equations; lia. }
    exists b'. split; [by apply list_lookup_insert_eq|lia].
Qed.
