(* ===== verification/QuantCodec.v ===== *)
(** * The canonical form of quantized tensors *)
From Stdlib Require Import ZArith Lia.
From stdpp Require Import base tactics numbers list strings option.
From S2P Require Import Prelude Bytes Canonical Wire State Validator ValidatorLaws Half Stats.
From S2P Require Import Quant.

Definition config_ok (c : QuantConfig) : Prop :=
  bits_ok (qc_bits c) ∧ 0 < qc_group_size c ≤ MAX_QUANT_GROUP_SIZE.
Definition dims_ok (rows cols : Z) : Prop :=
  0 < rows ≤ MAX_QUANT_DIMENSION ∧ 0 < cols ≤ MAX_QUANT_DIMENSION ∧ rows * cols ≤ MAX_QUANT_ELEMENTS.
(** A finite non-negative scale and a finite zero point. *)
Definition scale_ok (p : Z * Z) : Prop :=
  in_u16 p.1 ∧ in_u16 p.2 ∧ f32_is_finite (f16_to_f32 p.1) = true ∧
  f32_ltb (f16_to_f32 p.1) 0 = false ∧ f32_is_finite (f16_to_f32 p.2) = true.
Definition group_total (axis : QuantAxis) (rows cols group_size : Z) : Z :=
  line_count axis rows cols * div_ceil (line_extent axis rows cols) group_size.
(** What the length fields and the scale checks enforce. *)
Definition tensor_shape (t : QuantizedTensor) : Prop :=
  config_ok (qt_config t) ∧ dims_ok (qt_rows t) (qt_cols t) ∧
  zlen (qt_scales t) = group_total (qt_axis t) (qt_rows t) (qt_cols t) (qc_group_size (qt_config t)) ∧
  Forall scale_ok (qt_scales t) ∧ bytes_ok (qt_packed t) ∧
  zlen (qt_packed t) = packed_len (qt_rows t) (qt_cols t) (qc_bits (qt_config t)).

Lemma QuantConfig_new_Ok bits gs c :
  0 ≤ gs → QuantConfig_new bits gs = Ok c ↔ c = mkQuantConfig bits gs ∧ config_ok c.
Proof.
  intros Hgs. unfold QuantConfig_new, config_ok, bits_ok. split.
  - intros H. inv_ok. bools. subst c. simpl. split; [done|]. split; [|lia].
    destruct (Z.eqb_spec bits 2); [by left|]. destruct (Z.eqb_spec bits 4); [by right|done].
  - intros [-> [Hb Hg]]. simpl in *. destruct Hb as [-> | ->]; simpl;
      rewrite (proj2 (Z.eqb_neq gs 0)), (proj2 (Z.ltb_ge _ _)) by lia; done.
Qed.
Lemma validate_dimensions_Ok rows cols :
  0 ≤ rows → 0 ≤ cols → validate_dimensions rows cols = Ok tt ↔ dims_ok rows cols.
Proof.
  intros Hr Hc. unfold validate_dimensions, dims_ok, MAX_QUANT_DIMENSION, MAX_QUANT_ELEMENTS. split.
  - intros H. inv_ok. bools. case_match eqn:Hm; [|done]. apply checked_mul_Some in Hm as [-> _]. bools. lia.
  - intros (H1 & H2 & H3). rewrite !(proj2 (Z.eqb_neq _ 0)), !(proj2 (Z.ltb_ge 1048576 _)) by lia.
    rewrite (proj2 (checked_mul_Some rows cols _)) by (split; [done|unfold u64_bound; lia]).
    by rewrite (proj2 (Z.ltb_ge _ _)) by lia.
Qed.
Lemma validate_dimensions_unit rows cols r : validate_dimensions rows cols = Ok r → r = tt.
Proof. by destruct r. Qed.
Lemma expected_groups_eq axis rows cols gs :
  0 < gs → expected_groups axis rows cols gs = Ok (group_total axis rows cols gs).
Proof.
  intros Hg. unfold expected_groups, groups_along, group_total. rewrite (proj2 (Z.eqb_neq gs 0)) by lia.
  by destruct axis.
Qed.
Lemma div_ceil_bounds a b : 0 < a → 0 < b → 0 < div_ceil a b ≤ a.
Proof.
  intros Ha Hb. unfold div_ceil. split; [apply Z.div_str_pos; lia|].
  apply Z.lt_succ_r, Z.div_lt_upper_bound; nia.
Qed.
Lemma group_total_bounds axis rows cols gs :
  dims_ok rows cols → 0 < gs → 0 < group_total axis rows cols gs ≤ MAX_QUANT_ELEMENTS.
Proof.
  intros (Hr & Hc & He) Hg. unfold group_total, MAX_QUANT_DIMENSION, MAX_QUANT_ELEMENTS in *.
  destruct axis; simpl.
  - pose proof (div_ceil_bounds rows gs). nia.
  - pose proof (div_ceil_bounds cols gs). nia.
Qed.
Lemma packed_len_bounds rows cols bits :
  dims_ok rows cols → bits_ok bits → 0 < packed_len rows cols bits ≤ 268435456.
Proof.
  intros (Hr & Hc & He) Hb. pose proof (bits_pos bits Hb). unfold packed_len, MAX_QUANT_ELEMENTS in *.
  pose proof (div_ceil_bounds (rows * cols * bits) 8). nia.
Qed.

#[export] Instance scales_codec : Codec scale_ok (λ p, Ok (put_scales p)) dec_scales.
Proof.
  split.
  - by eexists.
  - intros p b _ [= <-]. unfold put_scales. bytes_ok_app_all.
  - intros [s z] b (H1 & H2 & H3 & H4 & H5) [= <-]. unfold put_scales, dec_scales. cbn [fst snd] in *.
    apply parses_nil_r. rewrite <- app_assoc. do 2 parse_step.
    apply parses_guard; [|apply parses_ret]. by rewrite H3, H4, H5.
  - unfold dec_scales. sound_all. sound_fields. bools.
    split; [by split_and!|]. unfold put_scales. by rewrite app_nil_r.
Qed.
Lemma sound_config bits gs :
  in_u32 gs →
  sound (dec_lift (QuantConfig_new bits gs)) (λ c b, b = [] ∧ c = mkQuantConfig bits gs ∧ config_ok c).
Proof.
  intros [Hg _]. apply sound_lift.
  - unfold QuantConfig_new. no_panic.
  - intros c Hc%QuantConfig_new_Ok; [done|lia].
Qed.
Lemma sound_dims rows cols :
  in_u64 rows → in_u64 cols →
  sound (dec_lift (validate_dimensions rows cols)) (λ _ b, b = [] ∧ dims_ok rows cols).
Proof.
  intros [Hr _] [Hc _]. apply sound_lift.
  - unfold validate_dimensions. no_panic.
  - intros [] H%validate_dimensions_Ok; done.
Qed.
Lemma sound_groups axis rows cols gs :
  0 < gs →
  sound (dec_lift (expected_groups axis rows cols gs)) (λ g b, b = [] ∧ g = group_total axis rows cols gs).
Proof.
  intros Hg. rewrite expected_groups_eq by done. apply sound_lift; [by intros []|]. by intros ? [= <-].
Qed.
Definition axis_tensor (axis : QuantAxis) (t : QuantizedTensor) : Prop :=
  qt_axis t = axis ∧ tensor_shape t.
#[export] Instance quant_codec axis :
  Codec (axis_tensor axis) (λ t, Ok (quant_body t)) (quant_decode_body axis).
Proof.
  split.
  - by eexists.
  - intros t b (_ & _ & _ & _ & _ & Hp & _) [= <-]. unfold quant_body. bytes_ok_app_all.
    apply put_list_bytes. intros. unfold put_scales. bytes_ok_app_all.
  - intros [a [bits gs] rows cols scales packed] b (Ha & Hc & Hd & Hs & Hf & Hb & Hl) [= <-].
    cbn [qt_axis qt_config qt_rows qt_cols qt_scales qt_packed qc_bits qc_group_size] in *. subst a.
    unfold quant_body, quant_decode_body.
    cbn [qt_axis qt_config qt_rows qt_cols qt_scales qt_packed qc_bits qc_group_size].
    pose proof Hc as [Hbits Hgs]. cbn [qc_bits qc_group_size] in *. pose proof (bits_pos _ Hbits).
    pose proof (group_total_bounds axis _ _ gs Hd ltac:(lia)). pose proof (packed_len_bounds _ _ _ Hd Hbits).
    pose proof Hd as (Hr & Hcol & _).
    unfold MAX_QUANT_GROUP_SIZE, MAX_QUANT_DIMENSION, MAX_QUANT_ELEMENTS in *.
    assert (in_u16 WIRE_VERSION) by by split. assert (in_u16 0) by range_lia. assert (in_u8 0) by range_lia.
    assert (in_u8 bits) by range_lia. assert (in_u32 gs) by range_lia.
    assert (in_u64 rows) by range_lia. assert (in_u64 cols) by range_lia.
    assert (in_u64 (zlen scales)) by range_lia. assert (in_u64 (zlen packed)) by range_lia.
    pose proof (proj2 (QuantConfig_new_Ok bits gs _ ltac:(lia)) (conj eq_refl Hc)) as Hnew.
    pose proof (proj2 (validate_dimensions_Ok rows cols ltac:(lia) ltac:(lia)) Hd) as Hdim.
    pose proof (expected_groups_eq axis rows cols gs ltac:(lia)) as Hexp.
    pose proof (parses_list _ _ dec_scales _ _ _ Hf (enc_list_put _ _) (length_Z_to_nat scales)).
    pose proof (parses_take (zlen packed) packed eq_refl).
    apply parses_nil_r; rewrite <- ?app_assoc.
    repeat lazymatch goal with
      | |- parses (mbind _ (dec_lift (expected_groups _ _ _ _))) _ _ => fail | |- _ => parse_step end.
    eapply parses_bind_nil; [apply parses_lift; exact Hexp|]. cbv beta. rewrite <- Hs.
    repeat parse_step.
  - unfold quant_decode_body. do 8 sound_step.
    match goal with H : in_u32 ?g ∧ _ |- _ => destruct H as [Hgs ->] end.
    eapply sound_bind; [by apply sound_config|]. cbv beta. intros c ? (-> & -> & Hc) _. do 2 sound_step.
    repeat match goal with H : in_u64 _ ∧ _ = put_u64 _ |- _ => destruct H as [? ->] end.
    eapply sound_bind; [by apply sound_dims|]. cbv beta. intros [] ? (-> & Hd) _. sound_step.
    eapply sound_bind; [apply sound_groups; apply Hc|]. cbv beta. intros g ? (-> & ->) _. do 4 sound_step.
    match goal with |- sound (mbind _ (dec_take ?n)) _ => assert (0 ≤ n) as Hn
      by (destruct_and!; unfold in_u64 in *; lia) end.
    eapply sound_bind; [by apply sound_take|]. cbv beta. intros packed ? [-> Hl] Hpk. apply sound_ret.
    sound_fields. apply zlen_of_length in H16 as Hsl; [|unfold in_u64 in *; lia].
    split; [by split_and!|]. unfold quant_body.
    cbn [qt_axis qt_config qt_rows qt_cols qt_scales qt_packed qc_bits qc_group_size].
    by rewrite Hsl, Hl, ?app_nil_r.
Qed.

(** ** Groups and codes *)
Definition element_group (t : QuantizedTensor) (row col : Z) : Z :=
  match qt_axis t with
  | PerChannel => col * div_ceil (qt_rows t) (qc_group_size (qt_config t)) + row / qc_group_size (qt_config t)
  | PerToken => row * div_ceil (qt_cols t) (qc_group_size (qt_config t)) + col / qc_group_size (qt_config t)
  end.
Lemma group_index_eq t row col :
  0 < qc_group_size (qt_config t) → group_index t row col = Ok (element_group t row col).
Proof.
  intros Hg. unfold group_index, groups_along, element_group. rewrite (proj2 (Z.eqb_neq _ 0)) by lia.
  by destruct (qt_axis t).
Qed.
Lemma div_ceil_group a b gs : 0 < gs → 0 ≤ a < b → 0 ≤ a / gs < div_ceil b gs.
Proof.
  intros Hg Ha. unfold div_ceil. split; [apply Z.div_pos; lia|].
  apply Z.div_lt_upper_bound; [lia|]. pose proof (Z.div_mod (b + gs - 1) gs ltac:(lia)).
  pose proof (Z.mod_pos_bound (b + gs - 1) gs Hg). lia.
Qed.
Lemma element_group_bounds t row col :
  0 < qc_group_size (qt_config t) → 0 ≤ row < qt_rows t → 0 ≤ col < qt_cols t →
  0 ≤ element_group t row col < group_total (qt_axis t) (qt_rows t) (qt_cols t) (qc_group_size (qt_config t)).
Proof.
  intros Hg Hr Hc. unfold element_group, group_total. destruct (qt_axis t); simpl.
  - pose proof (div_ceil_group row (qt_rows t) _ Hg Hr). nia.
  - pose proof (div_ceil_group col (qt_cols t) _ Hg Hc). nia.
Qed.

(** Every position of the grid. *)
Lemma grid_position rows cols k :
  0 < cols → 0 ≤ k < rows * cols → 0 ≤ k / cols < rows ∧ 0 ≤ k mod cols < cols ∧ k / cols * cols + k mod cols = k.
Proof.
  intros Hc Hk. pose proof (Z.mod_pos_bound k cols Hc). pose proof (Z.div_mod k cols ltac:(lia)).
  split_and!; try lia; [apply Z.div_pos; lia|apply Z.div_lt_upper_bound; lia].
Qed.

(** What [validate_packing] demands of a tensor whose lengths fit. *)
Definition code_at (t : QuantizedTensor) (k : Z) : option Z :=
  reader_next (qt_packed t) (qc_bits (qt_config t)) k.
Definition scale_at (t : QuantizedTensor) (k : Z) : option (Z * Z) :=
  qt_scales t !! Z.to_nat (element_group t (k / qt_cols t) (k mod qt_cols t)).
Definition tail_clear (t : QuantizedTensor) : Prop :=
  let used := qt_rows t * qt_cols t * qc_bits (qt_config t) in
  used mod 8 ≠ 0 → ∃ b, qt_packed t !! Z.to_nat (zlen (qt_packed t) - 1) = Some b ∧ b < 2 ^ (used mod 8).
Definition packing_ok (t : QuantizedTensor) : Prop :=
  tail_clear t ∧
  ∀ k s, 0 ≤ k < qt_rows t * qt_cols t → scale_at t k = Some s →
    f32_is_zero (f16_to_f32 s.1) = true → code_at t k = Some 0.

Section shaped.
Context (t : QuantizedTensor) (Hshape : tensor_shape t).
Let cells := qt_rows t * qt_cols t.

Lemma cells_pos : 0 < cells ∧ 0 < qt_rows t ∧ 0 < qt_cols t ∧ 0 < qc_group_size (qt_config t) ∧
  bits_ok (qc_bits (qt_config t)).
Proof. destruct Hshape as ((Hb & Hg) & (Hr & Hc & _) & _). unfold cells. split_and!; try done; nia. Qed.
Lemma code_at_Some k : 0 ≤ k < cells → ∃ c, code_at t k = Some c ∧ code_ok (qc_bits (qt_config t)) c.
Proof.
  intros Hk. destruct cells_pos as (_ & _ & _ & _ & Hb). destruct Hshape as (_ & _ & _ & _ & _ & Hl).
  destruct (reader_next_Some (qt_packed t) (qc_bits (qt_config t)) k cells Hb Hl Hk) as [c Hc].
  exists c. split; [done|]. by eapply reader_next_code.
Qed.
Lemma scale_at_Some k : 0 ≤ k < cells → ∃ s, scale_at t k = Some s ∧ scale_ok s.
Proof.
  intros Hk. destruct cells_pos as (_ & Hr & Hc & Hg & _). destruct Hshape as (_ & _ & Hs & Hf & _).
  destruct (grid_position (qt_rows t) (qt_cols t) k) as (H1 & H2 & _); [done..|].
  pose proof (element_group_bounds t _ _ Hg H1 H2) as He. rewrite <- Hs in He.
  destruct (lookup_lt_is_Some_2 (qt_scales t) (Z.to_nat (element_group t (k / qt_cols t) (k mod qt_cols t))))
    as [s Hsk]; [unfold zlen in He; lia|].
  exists s. split; [done|]. rewrite list.Forall_forall in Hf. apply Hf. by apply list_elem_of_lookup_2 in Hsk.
Qed.
Lemma scale_index k s :
  0 ≤ k < cells → scale_at t k = Some s →
  group_index t (k / qt_cols t) (k mod qt_cols t) = Ok (element_group t (k / qt_cols t) (k mod qt_cols t)) ∧
  index (E:=PackError) (qt_scales t) (element_group t (k / qt_cols t) (k mod qt_cols t)) = Ok s.
Proof.
  intros Hk Hs. destruct cells_pos as (_ & Hr & Hc & Hg & _). split; [by apply group_index_eq|].
  apply index_Ok. split; [|done]. destruct (grid_position (qt_rows t) (qt_cols t) k) as (H1 & H2 & _); [done..|].
  by apply element_group_bounds.
Qed.
Lemma check_code_eq i k : 0 ≤ k < cells → check_code t i k = Ok (k + 1).
Proof.
  intros Hk. unfold check_code. destruct (code_at_Some k Hk) as (c & Hc & Hr). unfold code_at in Hc. rewrite Hc.
  cbn [ok_or mbind outcome_bind]. unfold levels. rewrite Z.shiftl_1_l. unfold code_ok in Hr.
  by rewrite (proj2 (Z.leb_gt _ _)) by lia.
Qed.
Lemma check_codes_Ok : for_range (Z.to_nat cells) 0 (check_code t) 0 = Ok cells.
Proof.
  pose proof cells_pos as (Hc & _).
  destruct (for_range_inv (λ i k, k = i) (Z.to_nat cells) 0 (check_code t) 0) as (r & Hr & ->); [done| |].
  - intros j a Hj ->. exists (j + 1). split; [apply check_code_eq; lia|done].
  - rewrite Hr. f_equal. lia.
Qed.
Lemma check_tail_Ok : check_tail t = Ok tt ↔ tail_clear t.
Proof.
  destruct cells_pos as (Hcp & _ & _ & _ & Hb). destruct Hshape as (_ & Hd & _ & _ & Hbytes & Hl).
  unfold check_tail, tail_clear. set (m := (_ * _) mod 8).
  destruct (Z.eqb_spec m 0) as [|Hm]; [naive_solver|].
  pose proof (packed_len_bounds _ _ _ Hd Hb) as Hpl.
  destruct (lookup_lt_is_Some_2 (qt_packed t) (Z.to_nat (zlen (qt_packed t) - 1))) as [b Hlast];
    [unfold zlen in *; lia|]. assert (bytes_ok (qt_packed t)) as Hbok by done.
  rewrite (proj2 (index_Ok (qt_packed t) (zlen (qt_packed t) - 1) b)) by (split; [lia|done]).
  cbn [mbind outcome_bind]. assert (0 ≤ m < 8) as Hmr by (apply Z.mod_pos_bound; lia).
  rewrite Z.shiftr_div_pow2 by lia. pose proof (list_elem_of_lookup_2 _ _ _ Hlast) as Hin.
  unfold bytes_ok in Hbok. rewrite list.Forall_forall in Hbok. pose proof (Hbok _ Hin) as [Hb0 _].
  destruct (Z.eqb_spec (b / 2 ^ m) 0) as [Hz|Hz]; cbn [negb].
  - split; [|done]. intros _ _. exists b. split; [done|]. apply Z.div_small_iff in Hz; [lia|].
    apply Z.pow_nonzero; lia.
  - split; [done|]. intros H. destruct (H Hm) as (b0 & Hb1 & Hlt). assert (b0 = b) as -> by congruence. rewrite Z.div_small in Hz; [done|lia].
Qed.
Lemma check_zero_scale_eq k c s :
  0 ≤ k < cells → code_at t k = Some c → scale_at t k = Some s →
  check_zero_scale t (k / qt_cols t) (k mod qt_cols t) k =
  if f32_is_zero (f16_to_f32 s.1) && negb (c =? 0)
  then Err (Codec_error "zero-scale quantization group carries a nonzero code") else Ok (k + 1).
Proof.
  intros Hk Hc Hs. unfold check_zero_scale. unfold code_at in Hc. rewrite Hc. cbn [expect mbind outcome_bind].
  destruct (scale_index k s Hk Hs) as [-> Hi]. cbn [mbind outcome_bind]. rewrite Hi. by destruct s.
Qed.
Lemma validate_packing_Ok : validate_packing t = Ok tt ↔ packing_ok t.
Proof.
  pose proof cells_pos as (Hcp & Hr & Hc & _). unfold validate_packing, packing_ok. fold cells.
  rewrite check_codes_Ok, <- check_tail_Ok. cbn [mbind outcome_bind].
  rewrite for_grid_flat by lia. fold cells. split.
  - intros H. inv_ok. destruct x. split; [done|]. intros k s Hk Hs Hz.
    refine (proj2 (for_range_Ok (λ i c, c = i) (λ k, ∀ s, scale_at t k = Some s →
      f32_is_zero (f16_to_f32 s.1) = true → code_at t k = Some 0) _ _ _ _ _ eq_refl _ H0) k _ s Hs Hz); [|lia].
    intros j a a' Hj -> Hb. destruct (code_at_Some j ltac:(lia)) as (c & Hcj & _).
    destruct (scale_at_Some j ltac:(lia)) as (sj & Hsj & _).
    rewrite (check_zero_scale_eq j c sj) in Hb by (done || lia).
    destruct (f32_is_zero (f16_to_f32 sj.1)) eqn:Hzj; destruct (Z.eqb_spec c 0) as [->|]; simpl in Hb;
      inv_ok; split; try done; intros s' Hs' Hz'; try done; congruence.
  - intros [Ht Hall]. rewrite Ht. cbn [mbind outcome_bind].
    destruct (for_range_inv (λ i c, c = i) (Z.to_nat cells) 0
      (λ k, check_zero_scale t (k / qt_cols t) (k mod qt_cols t)) 0) as (r & -> & _); [done| |done].
    intros j a Hj ->. exists (j + 1). split; [|done].
    destruct (code_at_Some j ltac:(lia)) as (c & Hcj & _). destruct (scale_at_Some j ltac:(lia)) as (sj & Hsj & _).
    rewrite (check_zero_scale_eq j c sj) by (done || lia).
    destruct (f32_is_zero (f16_to_f32 sj.1)) eqn:Hz; [|done].
    assert (c = 0) as -> by (pose proof (Hall j sj ltac:(lia) Hsj Hz); congruence). done.
Qed.
Lemma validate_packing_no_panic : ¬ panics (validate_packing t).
Proof.
  pose proof cells_pos as (Hcp & Hr & Hc & _). unfold validate_packing. fold cells. rewrite check_codes_Ok.
  cbn [mbind outcome_bind]. apply bind_no_panic.
  - destruct Hshape as (_ & Hd & _ & _ & _ & Hl). destruct cells_pos as (_ & _ & _ & _ & Hb).
    pose proof (packed_len_bounds _ _ _ Hd Hb). unfold check_tail. no_panic. apply index_no_panic. lia.
  - intros [] _. apply bind_no_panic; [|by intros ? _ []]. rewrite for_grid_flat by lia. fold cells.
    apply (for_range_no_panic (λ i c, c = i)); [done|]. intros j a Hj ->.
    destruct (code_at_Some j ltac:(lia)) as (c & Hcj & _). destruct (scale_at_Some j ltac:(lia)) as (sj & Hsj & _).
    rewrite (check_zero_scale_eq j c sj) by (done || lia).
    case_match; split; try (by intros []); intros a' Ha; inv_ok; done.
Qed.

(** Decoding yields one value per cell, computed from its code and its group. *)
Lemma decode_element_eq k c s out :
  0 ≤ k < cells → code_at t k = Some c → scale_at t k = Some s → zlen out = cells →
  decode_element t (k / qt_cols t) (k mod qt_cols t) (k, out) =
  Ok (k + 1, <[Z.to_nat k := dequantize (f16_to_f32 s.1) (f16_to_f32 s.2) c]> out).
Proof.
  intros Hk Hc Hs Ho. pose proof cells_pos as (_ & _ & Hcol & _).
  unfold decode_element. pose proof Hc as Hc'. unfold code_at in Hc'. rewrite Hc'. cbn [ok_or mbind outcome_bind].
  destruct (scale_index k s Hk Hs) as [-> Hi]. cbn [mbind outcome_bind]. rewrite Hi. cbn [mbind outcome_bind].
  destruct s as [s z]. destruct (code_at_Some k Hk) as (c' & Hc'' & Hr). assert (c' = c) as -> by congruence.
  unfold levels. rewrite Z.shiftl_1_l. unfold code_ok in Hr. rewrite (proj2 (Z.leb_gt _ _)) by lia.
  destruct (grid_position (qt_rows t) (qt_cols t) k) as (_ & _ & ->); [done..|].
  destruct (lookup_lt_is_Some_2 out (Z.to_nat k)) as [x Hx]; [unfold zlen in Ho; lia|].
  rewrite (proj2 (index_Ok out k x)) by (split; [lia|done]). done.
Qed.
Lemma tensor_decode_Ok :
  ∃ out, tensor_decode t = Ok out ∧ zlen out = cells ∧
    ∀ k c s, 0 ≤ k < cells → code_at t k = Some c → scale_at t k = Some s →
      out !! Z.to_nat k = Some (dequantize (f16_to_f32 s.1) (f16_to_f32 s.2) c).
Proof.
  pose proof cells_pos as (Hcp & Hr & Hc & _). unfold tensor_decode. rewrite for_grid_flat by lia. fold cells.
  destruct (for_range_inv (λ i acc, acc.1 = i ∧ zlen acc.2 = cells ∧
    ∀ k c s, 0 ≤ k < i → code_at t k = Some c → scale_at t k = Some s →
    acc.2 !! Z.to_nat k = Some (dequantize (f16_to_f32 s.1) (f16_to_f32 s.2) c))
    (Z.to_nat cells) 0 (λ k, decode_element t (k / qt_cols t) (k mod qt_cols t)) (0, zeros cells))
    as ([i out] & -> & _ & Hl & Hall).
  - split_and!; [done|simpl; rewrite zlen_zeros; lia|lia].
  - intros j [i out] Hj (Hi & Ho & Hd). cbn [fst snd] in *. subst i.
    destruct (code_at_Some j ltac:(lia)) as (c & Hcj & _). destruct (scale_at_Some j ltac:(lia)) as (sj & Hsj & _).
    rewrite (decode_element_eq j c sj) by (done || lia). eexists. split; [done|]. cbn [fst snd].
    split_and!; [done|by unfold zlen; rewrite length_insert|]. intros k c' s' Hk Hck Hsk.
    destruct (decide (k = j)) as [->|].
    + rewrite list_lookup_insert_eq by (unfold zlen in Ho; lia). congruence.
    + rewrite list_lookup_insert_ne by lia. apply Hd; [lia|done..].
  - cbn [mbind outcome_bind fst snd] in *. exists out. split_and!; [done..|]. intros k c s Hk. apply Hall. lia.
Qed.
End shaped.

(** ** The decoder *)
Definition tensor_wf (t : QuantizedTensor) : Prop := tensor_shape t ∧ packing_ok t.
Lemma axis_from_magic axis : QuantAxis_from_magic (QuantAxis_magic axis) = Ok axis.
Proof. by destruct axis. Qed.
Lemma axis_of_magic m axis : QuantAxis_from_magic m = Ok axis → m = QuantAxis_magic axis.
Proof.
  unfold QuantAxis_from_magic. intros H. case_match eqn:H1; [apply bytes_eqb_eq in H1; inv_ok; by subst|].
  case_match eqn:H2; [apply bytes_eqb_eq in H2; inv_ok; by subst|done].
Qed.
Lemma quant_decode_split b :
  bytes_ok b →
  quant_decode_canonical b =
  (if zlen b <? 8 then Err (Truncated "truncated quantized tensor") else
   axis ← QuantAxis_from_magic (ztake 8 b);
   t ← canonical_decode (QuantAxis_magic axis) (quant_decode_body axis)
         (λ t, x ← Ok (quant_body t); mret (QuantAxis_magic axis ++ x)) (Reserved "") b;
   _ ← validate_packing t; Ok t).
Proof.
  intros Hb. unfold quant_decode_canonical. destruct (Z.ltb_spec (zlen b) 8); [done|].
  rewrite (proj2 (slice_Ok b 0 8 (ztake 8 b))) by (by apply get_range_Some). cbn [mbind outcome_bind].
  destruct (QuantAxis_from_magic (ztake 8 b)) as [axis| |]; cbn [mbind outcome_bind]; [|done..].
  unfold canonical_decode.
  destruct (Decoder_new b (QuantAxis_magic axis)) as [i0| |] eqn:Hn; cbn [mbind outcome_bind]; [|done..].
  destruct (quant_decode_body axis i0) as [[t i]| |] eqn:Hr; cbn [mbind outcome_bind]; [|done..].
  destruct (Decoder_finish i) as [[]| |] eqn:Hf; cbn [mbind outcome_bind]; [|done..].
  destruct (run_sound _ _ b _ i0 t i Hb Hn (codec_sound (Codec:=quant_codec axis)) Hr Hf) as (x & -> & Hwf & Hx).
  apply Ok_inj in Hx. subst x. destruct Hwf as [Ha _]. unfold mret, outcome_ret, quant_encode_canonical.
  rewrite Ha. cbn [mbind outcome_bind]. rewrite bytes_eqb_refl. cbn [negb mbind outcome_bind].
  destruct (validate_packing t) as [[]| |]; cbn [mbind outcome_bind]; [|done..].
  done.
Qed.
Lemma quant_decode_Ok b t :
  bytes_ok b → slice_len_ok b →
  quant_decode_canonical b = Ok t ↔ tensor_wf t ∧ quant_encode_canonical t = Ok b.
Proof.
  intros Hb Hl. rewrite quant_decode_split by done. split.
  - intros H. inv_ok. rename x into axis. destruct x1. subst x0.
    eapply (canonical_decode_Ok _ (axis_tensor axis) (λ t, Ok (quant_body t))) in H0 as [[Ha Hs] He];
      [|apply _|by destruct axis|done..].
    split; [split; [done|by apply validate_packing_Ok]|]. unfold quant_encode_canonical. by rewrite Ha.
  - intros [[Hs Hp] He]. unfold quant_encode_canonical in He. apply Ok_inj in He.
    assert (zlen (QuantAxis_magic (qt_axis t)) = 8) as H8 by by destruct (qt_axis t).
    assert (8 ≤ zlen b) as Hlb by (rewrite <- He, zlen_app, H8; pose proof (zlen_nonneg (quant_body t)); lia).
    rewrite (proj2 (Z.ltb_ge _ _)) by done.
    assert (ztake 8 b = QuantAxis_magic (qt_axis t)) as -> by (rewrite <- He; by apply ztake_app_exact).
    rewrite axis_from_magic. cbn [mbind outcome_bind].
    erewrite (canonical_decode_encode _ (axis_tensor (qt_axis t)) (λ t, Ok (quant_body t)));
      [|apply _|done|done|by split|by simpl; rewrite He|done].
    cbn [mbind outcome_bind]. by rewrite (proj2 (validate_packing_Ok t Hs) Hp).
Qed.
Lemma quant_decode_no_panic b : bytes_ok b → ¬ panics (quant_decode_canonical b).
Proof.
  intros Hb. rewrite quant_decode_split by done. destruct (zlen b <? 8); [by intros []|].
  apply bind_no_panic; [unfold QuantAxis_from_magic; no_panic|]. intros axis _.
  apply bind_no_panic.
  { eapply (canonical_decode_no_panic _ (axis_tensor axis) (λ t, Ok (quant_body t)));
      [apply _|by destruct axis|done..]. }
  intros t Ht. eapply (canonical_decode_Ok _ (axis_tensor axis) (λ t, Ok (quant_body t))) in Ht as [[_ Hs] _];
    [|apply _|by destruct axis|done..].
  apply bind_no_panic; [by apply validate_packing_no_panic|]. by intros ? _ [].
Qed.

(** Encodings are byte strings of bounded length. *)
Lemma zlen_put_scales l : zlen (put_list put_scales l) = 4 * zlen l.
Proof.
  induction l as [|p l IH]; [done|]. unfold put_list in *. cbn [fmap list_fmap concat]. rewrite zlen_app, IH, zlen_cons.
  unfold put_scales. rewrite zlen_app. unfold put_u16. rewrite !zlen_le_bytes. lia.
Qed.
Lemma quant_encode_bytes t :
  bytes_ok (qt_packed t) → zlen (qt_packed t) ≤ 268435456 → zlen (qt_scales t) ≤ MAX_QUANT_ELEMENTS →
  bytes_ok (QuantAxis_magic (qt_axis t) ++ quant_body t) ∧
  slice_len_ok (QuantAxis_magic (qt_axis t) ++ quant_body t).
Proof.
  intros Hp Hl Hs. split.
  - apply bytes_ok_app. split; [by destruct (qt_axis t); apply bytes_okb_ok|]. unfold quant_body. bytes_ok_app_all.
    apply put_list_bytes. intros. unfold put_scales. bytes_ok_app_all.
  - unfold slice_len_ok, quant_body. rewrite !zlen_app, zlen_put_scales.
    unfold put_u8, put_u16, put_u32, put_u64. rewrite !zlen_le_bytes.
    assert (zlen (QuantAxis_magic (qt_axis t)) = 8) as -> by by destruct (qt_axis t).
    unfold MAX_QUANT_ELEMENTS in Hs. lia.
Qed.

(** * Laws of quantization: what [quantize] returns *)
From Stdlib Require Import ZArith Lia Floats.SpecFloat.

(** ** Signs of binary32 results *)
Definition sf_nonneg (x : spec_float) : Prop :=
  match x with S754_finite s _ _ | S754_infinity s => s = false | _ => True end.
Lemma binary_round_aux_nonneg prec emax m e l : sf_nonneg (binary_round_aux prec emax false m e l).
Proof.
  unfold binary_round_aux. destruct (shr_fexp _ _ _ _ _) as [r e']. cbv beta iota.
  destruct (shr_fexp _ _ _ _ loc_Exact) as [r2 e2]. destruct (shr_m r2); [done| |done].
  by destruct (e2 <=? emax - prec).
Qed.
Lemma binary_normalize_nonneg prec emax m e : 0 ≤ m → sf_nonneg (binary_normalize prec emax m e false).
Proof.
  intros Hm. unfold binary_normalize. destruct m as [|m|m]; [done| |lia]. unfold binary_round.
  destruct (shl_align _ _ _) as [m' e']. apply binary_round_aux_nonneg.
Qed.
Lemma shl_align_value m e e' : e' ≤ e → Z.pos (shl_align m e e').1 = Z.pos m * 2 ^ (e - e').
Proof.
  intros He. unfold shl_align. destruct (e' - e) as [|d|d] eqn:Hd; [|lia|]; cbn [fst].
  - replace (e - e') with 0 by lia. lia.
  - replace (e - e') with (Z.pos d) by lia. clear. induction d as [|d IH] using Pos.peano_ind; [cbn; lia|].
    rewrite Pos.iter_succ, Pos2Z.inj_succ, Z.pow_succ_r by lia. rewrite (Pos2Z.inj_xO (Pos.iter xO m d)). lia.
Qed.
(** Subtracting a smaller value gives a result that is not negative. *)
Lemma sf_value_align s m e e' :
  e' ≤ e → cond_Zopp s (Z.pos (shl_align m e e').1) = cond_Zopp s (Z.pos m) * 2 ^ (e - e').
Proof. intros He. rewrite shl_align_value by done. destruct s; simpl; lia. Qed.

Definition sf_units (x : spec_float) : Z :=
  match x with S754_finite s m e => cond_Zopp s (Z.pos m) * 2 ^ (e + 149) | _ => 0 end.
Definition sf_finite (x : spec_float) : Prop :=
  match x with S754_finite _ _ e => -149 ≤ e | S754_zero _ => True | _ => False end.
Lemma sub_nonneg x y : sf_finite x → sf_finite y → sf_units y ≤ sf_units x → sf_nonneg (f32_sub x y).
Proof.
  unfold f32_sub. destruct x as [sx|sx| |sx mx ex], y as [sy|sy| |sy my ey]; try done; simpl; intros Hx Hy Hu.
  - by destruct sx, sy.
  - destruct sy; [done|]. simpl in Hu. assert (0 < 2 ^ (ey + 149)) by (apply Z.pow_pos_nonneg; lia). nia.
  - destruct sx; [|done]. simpl in Hu. assert (0 < 2 ^ (ex + 149)) by (apply Z.pow_pos_nonneg; lia). nia.
  - apply binary_normalize_nonneg. set (ez := Z.min ex ey). rewrite !sf_value_align by lia.
    assert (0 < 2 ^ (ez + 149)) by (apply Z.pow_pos_nonneg; lia).
    replace (ex + 149) with ((ex - ez) + (ez + 149)) in Hu by lia.
    replace (ey + 149) with ((ey - ez) + (ez + 149)) in Hu by lia.
    rewrite (Z.pow_add_r 2 (ex - ez)), (Z.pow_add_r 2 (ey - ez)) in Hu by lia. rewrite !Z.mul_assoc in Hu. apply Z.mul_le_mono_pos_r in Hu; lia.
Qed.
Lemma div_nonneg x m e : sf_nonneg x → sf_nonneg (f32_div x (S754_finite false m e)).
Proof.
  unfold f32_div. destruct x as [sx|sx| |sx mx ex]; simpl; intros Hx; try done.
  - by rewrite Hx.
  - subst sx. destruct (SFdiv_core_binary _ _ _ _ _ _) as [[mz ez] lz]. apply binary_round_aux_nonneg.
Qed.

(** ** binary32 patterns *)
Lemma f32_finite_fields b : f32_is_finite b = negb ((b / 8388608) mod 256 =? 255).
Proof.
  unfold f32_is_finite, f32_exponent. change 255 with (2 ^ 8 - 1) at 1. rewrite land_mask, Z.shiftr_div_pow2 by lia. done.
Qed.
Lemma f32_to_sf_finite b :
  in_u32 b → f32_is_finite b = true →
  sf_finite (f32_to_sf b) ∧ sf_units (f32_to_sf b) = f32_units b.
Proof.
  intros Hb Hf. rewrite f32_finite_fields in Hf. apply negb_true_iff in Hf.
  unfold f32_to_sf, f32_units. rewrite Hf. set (e := (b / 8388608) mod 256) in *. set (m := b mod 8388608) in *.
  assert (0 ≤ m < 8388608) by (apply Z.mod_pos_bound; lia). assert (0 ≤ e < 256) by (apply Z.mod_pos_bound; lia).
  assert (b / 2147483648 = 0 ∨ b / 2147483648 = 1) as Hs
    by (unfold in_u32, u32_bound in Hb; Z.to_euclidean_division_equations; lia).
  destruct (Z.eqb_spec e 0) as [He|He].
  - destruct (Z.eqb_spec m 0) as [Hm|Hm].
    + rewrite Hm. split; [done|]. by destruct Hs as [-> | ->].
    + split; [done|]. cbn [sf_units]. rewrite Z2Pos.id by lia. destruct Hs as [-> | ->]; simpl; lia.
  - split; [simpl; lia|]. cbn [sf_units]. rewrite Z2Pos.id by lia.
    replace (e - 150 + 149) with (e - 1) by lia. destruct Hs as [-> | ->]; simpl; lia.
Qed.
Lemma f32_units_bound b : in_u32 b → f32_is_finite b = true → Z.abs (f32_units b) < 2 ^ 277.
Proof.
  intros Hb Hf. rewrite f32_finite_fields in Hf. apply negb_true_iff, Z.eqb_neq in Hf. unfold f32_units.
  set (e := (b / 8388608) mod 256) in *. set (m := b mod 8388608).
  assert (0 ≤ m < 8388608) as Hm by (apply Z.mod_pos_bound; lia). assert (0 ≤ e < 256) by (apply Z.mod_pos_bound; lia).
  assert (∀ v, 0 ≤ v < 2 ^ 277 → Z.abs (if b / 2147483648 =? 0 then v else - v) < 2 ^ 277) as Hs
    by (intros v Hv; case_match; lia).
  apply Hs. destruct (Z.eqb_spec e 0); [change (2 ^ 277) with (8388608 * 2 ^ 254); lia|].
  assert (2 ^ (e - 1) ≤ 2 ^ 253) by (apply Z.pow_le_mono_r; lia). assert (0 < 2 ^ (e - 1)) by (apply Z.pow_pos_nonneg; lia).
  change (2 ^ 277) with (16777216 * 2 ^ 253). nia.
Qed.
Lemma f32_of_sf_pack x :
  ∃ s e m, f32_of_sf x = f32_pack s e m ∧ sign_ok s ∧ 0 ≤ e < 256 ∧ 0 ≤ m < 8388608 ∧
    (sf_nonneg x → s = 0 ∨ (e = 0 ∧ m = 0)).
Proof.
  assert (∀ s, sign_ok (Z.b2z s)) as Hs by (intros []; split; simpl; lia).
  destruct x as [s|s| |s m e]; cbn [f32_of_sf].
  - exists (Z.b2z s), 0, 0. split_and!; try done. by right.
  - exists (Z.b2z s), 255, 0. split_and!; try done. intros Hn; simpl in Hn; subst; by left.
  - exists 0, 255, 4194304. split_and!; try done. by left.
  - destruct (Z.ltb_spec (Z.pos m) 8388608).
    + exists (Z.b2z s), 0, (Z.pos m). split_and!; try done. intros Hn; simpl in Hn; subst; by left.
    + exists (Z.b2z s), ((e + 150) mod 256), (Z.pos m mod 8388608).
      pose proof (Z.mod_pos_bound (e + 150) 256). pose proof (Z.mod_pos_bound (Z.pos m) 8388608).
      split_and!; try done; try lia. intros Hn; simpl in Hn; subst; by left.
Qed.
Lemma f32_to_f16_range s e m :
  sign_ok s → 0 ≤ e < 256 → 0 ≤ m < 8388608 →
  ∃ mag, 0 ≤ mag < 32768 ∧ (f32_to_f16 (f32_pack s e m) = s * 32768 + mag ∨ f32_to_f16 (f32_pack s e m) = mag).
Proof.
  intros Hs He Hm. destruct (decide (e < 103)).
  { exists 0. rewrite f32_to_f16_underflow by (done || lia). split; [lia|left; lia]. }
  destruct (decide (e ≤ 142)).
  { destruct (f32_to_f16_pack s e m) as (mag & -> & Hmag & _); [done|lia|done|]. exists mag. split; [lia|by left]. }
  destruct (decide (e < 255)).
  { exists 31744. rewrite f32_to_f16_overflow by (done || lia). split; [lia|by left]. }
  assert (e = 255) as -> by lia. unfold f32_to_f16, f32_is_nan, f32_exponent, f32_mantissa.
  destruct (f32_pack_fields s 255 m Hs ltac:(lia) Hm) as (-> & -> & -> & _).
  change (255 =? 255) with true. cbn [andb]. destruct (negb (m =? 0)).
  { exists 32256. split; [lia|by right]. }
  exists 31744. split; [lia|]. left. assert (s = 0 ∨ s = 1) as [-> | ->] by (unfold sign_ok in Hs; lia); done.
Qed.
Lemma f32_to_f16_u16 b : in_u32 b → in_u16 (f32_to_f16 b).
Proof.
  intros Hb. destruct (f32_unpack b Hb) as (s & e & m & -> & Hs & He & Hm).
  destruct (f32_to_f16_range s e m Hs He Hm) as (mag & Hmag & [-> | ->]);
    unfold in_u16, u16_bound, sign_ok in *; lia.
Qed.
Lemma f16_units_nonneg h : in_u16 h → h ≤ 32768 → 0 ≤ f16_units h.
Proof.
  intros Hh Hle. unfold in_u16 in Hh. unfold f16_units, f16_magnitude.
  destruct (decide (h = 32768)) as [->|]; [done|].
  rewrite (Z.mod_small h), (Z.div_small h 32768) by lia. cbn [Z.eqb].
  case_match; [lia|]. apply Z.mul_nonneg_nonneg; [|apply Z.pow_nonneg; lia].
  pose proof (Z.mod_pos_bound h 1024). lia.
Qed.
Lemma f16_nonneg h : in_u16 h → h ≤ 32768 → f32_is_finite (f16_to_f32 h) = true → f32_ltb (f16_to_f32 h) 0 = false.
Proof.
  intros Hh Hle Hf. unfold f32_ltb. rewrite f16_to_f32_finite in Hf by done.
  rewrite f16_to_f32_exact by done. change (f32_units 0) with 0. apply Z.ltb_ge.
  pose proof (f16_units_nonneg h Hh Hle). apply Z.mul_nonneg_nonneg; [done|]. by apply Z.pow_nonneg.
Qed.

(** A scale derived from an ordered finite range is a half pattern with a
    clear sign, or negative zero. *)
Lemma scale_of_range_ok config lo hi :
  config_ok config → in_u32 lo → in_u32 hi → f32_is_finite lo = true → f32_is_finite hi = true →
  f32_units lo ≤ f32_units hi → in_u16 (scale_of_range config lo hi) ∧ scale_of_range config lo hi ≤ 32768.
Proof.
  intros [Hb _] Hlo Hhi Flo Fhi Hle. unfold scale_of_range.
  destruct (f32_to_sf_finite lo Hlo Flo) as [Sl Ul]. destruct (f32_to_sf_finite hi Hhi Fhi) as [Sh Uh].
  assert (sf_nonneg (f32_div (f32_sub (f32_to_sf hi) (f32_to_sf lo)) (f32_of_int (levels config - 1)))) as Hn.
  { assert (∃ m e, f32_of_int (levels config - 1) = S754_finite false m e) as (m & e & ->).
    { unfold levels. destruct Hb as [-> | ->]; vm_compute; eauto. }
    apply div_nonneg, sub_nonneg; [done..|]. lia. }
  destruct (f32_of_sf_pack (f32_div (f32_sub (f32_to_sf hi) (f32_to_sf lo)) (f32_of_int (levels config - 1))))
    as (s & e & m & -> & Hs & He & Hm & Hz).
  destruct (Hz Hn) as [->|[-> ->]].
  - destruct (f32_to_f16_range 0 e m) as (mag & Hmag & Hx); [done..|].
    assert (f32_to_f16 (f32_pack 0 e m) = mag) as -> by (destruct Hx; lia). unfold in_u16, u16_bound. lia.
  - rewrite f32_to_f16_underflow by (done || lia). unfold in_u16, u16_bound, sign_ok in *. lia.
Qed.

Lemma foldl_snoc {A} (f : Z → A) acc l : foldl (λ a j, a ++ [f j]) acc l = acc ++ (f <$> l).
Proof.
  revert acc. induction l as [|j l IH]; intros acc; csimpl; [by rewrite app_nil_r|].
  by rewrite IH, <- app_assoc.
Qed.

(** ** The result of [quantize], cell by cell *)
Section quantize.
Context (values : list Z) (rows cols : Z) (config : QuantConfig) (axis : QuantAxis).
Hypothesis Hconfig : config_ok config.
Hypothesis Hdims : dims_ok rows cols.
Hypothesis Hlen : zlen values = rows * cols.
Hypothesis Htyped : Forall in_u32 values.
Hypothesis Hfinite : Forall (λ v, f32_is_finite v = true) values.
Let gs := qc_group_size config.
Let extent := line_extent axis rows cols.
Let lines := line_count axis rows cols.
Let groups := div_ceil extent gs.

Definition cell (k : Z) : Z := values !!! Z.to_nat k.
Definition line_cell (line offset : Z) : Z :=
  match axis with PerChannel => cell (offset * cols + line) | PerToken => cell (line * cols + offset) end.
Definition group_stop (g : Z) : Z := Z.min (g * gs + gs) extent.
Definition line_range (line g : Z) : Z * Z :=
  foldl (λ acc offset, (f32_min acc.1 (line_cell line offset), f32_max acc.2 (line_cell line offset)))
    (f32_INFINITY, f32_NEG_INFINITY) (seqZ (g * gs) (group_stop g - g * gs)).
Definition group_params (line g : Z) : Z * Z :=
  (scale_of_range config (line_range line g).1 (line_range line g).2, f32_to_f16 (line_range line g).1).
Definition cell_code (line offset : Z) : Z :=
  quantize_code config (f16_to_f32 (group_params line (offset / gs)).1)
    (f16_to_f32 (group_params line (offset / gs)).2) (line_cell line offset).
(** The line and the offset of the row-major position [k]. *)
Definition cell_line (k : Z) : Z := match axis with PerChannel => k mod cols | PerToken => k / cols end.
Definition cell_offset (k : Z) : Z := match axis with PerChannel => k / cols | PerToken => k mod cols end.
Definition flat_code (k : Z) : Z := cell_code (cell_line k) (cell_offset k).
Definition flat_params (i : Z) : Z * Z := group_params (i / groups) (i mod groups).

Lemma quantize_sizes : 0 < gs ∧ 0 < extent ∧ 0 < lines ∧ 0 < groups ∧ extent ≤ groups * gs ∧
  (groups - 1) * gs < extent ∧ 0 < cols ∧ 0 < rows.
Proof.
  destruct Hconfig as [_ Hg]. destruct Hdims as (Hr & Hc & _). fold gs in Hg.
  assert (0 < extent) by (unfold extent; destruct axis; simpl; lia).
  assert (0 < lines) by (unfold lines; destruct axis; simpl; lia).
  pose proof (div_ceil_bounds extent gs ltac:(lia) ltac:(lia)) as Hgr. fold groups in Hgr.
  pose proof (Z.div_mod (extent + gs - 1) gs ltac:(lia)) as Hdm. pose proof (Z.mod_pos_bound (extent + gs - 1) gs).
  unfold div_ceil in groups. fold groups in Hdm. split_and!; try lia; nia.
Qed.
Lemma line_element_Ok line offset :
  0 ≤ line < lines → 0 ≤ offset < extent →
  line_element values cols axis line offset = Ok (line_cell line offset) ∧ line_cell line offset ∈ values.
Proof.
  intros Hl Ho. unfold lines, extent in *.
  assert (∀ k, 0 ≤ k < rows * cols → index (E:=PackError) values k = Ok (cell k) ∧ cell k ∈ values) as Hk.
  { intros k Hk. destruct (lookup_lt_is_Some_2 values (Z.to_nat k)) as [x Hx]; [unfold zlen in Hlen; lia|].
    unfold cell. rewrite (list_lookup_total_correct _ _ _ Hx). split; [by apply index_Ok; split; [lia|]|].
    by apply list_elem_of_lookup_2 in Hx. }
  unfold line_element, line_cell. destruct axis; simpl in *; apply Hk; nia.
Qed.
Lemma group_bounds g : 0 ≤ g < groups → 0 ≤ g * gs < group_stop g ∧ group_stop g ≤ extent.
Proof. intros Hg. destruct quantize_sizes as (? & ? & ? & ? & ? & ? & _). unfold group_stop. nia. Qed.
Lemma group_offset g o : 0 ≤ g < groups → g * gs ≤ o < group_stop g → o / gs = g ∧ 0 ≤ o < extent.
Proof.
  intros Hg Ho. destruct quantize_sizes as (? & _). pose proof (group_bounds g Hg). unfold group_stop in *.
  split; [|lia]. symmetry. apply Z.div_unique with (o - g * gs); [left; lia|lia].
Qed.

Lemma group_range_eq line g :
  0 ≤ line < lines → 0 ≤ g < groups →
  group_range values cols axis line (g * gs) (group_stop g) = Ok (line_range line g).
Proof.
  intros Hl Hg. pose proof (group_bounds g Hg). unfold group_range, line_range.
  rewrite (for_range_fold (λ offset acc,
    (f32_min acc.1 (line_cell line offset), f32_max acc.2 (line_cell line offset)))).
  - by rewrite Z2Nat.id by lia.
  - intros j a Hj. destruct (group_offset g j Hg ltac:(lia)) as [_ Hjr].
    destruct (line_element_Ok line j Hl Hjr) as [-> _]. done.
Qed.
Lemma quantize_group_eq line g acc :
  0 ≤ line < lines → 0 ≤ g < groups →
  quantize_group values rows cols config axis line g acc =
  Ok (acc.1 ++ [group_params line g], acc.2 ++ (cell_code line <$> seqZ (g * gs) (group_stop g - g * gs))).
Proof.
  intros Hl Hg. pose proof (group_bounds g Hg). unfold quantize_group. fold gs extent. fold (group_stop g).
  rewrite group_range_eq by done. cbn [mbind outcome_bind].
  destruct (line_range line g) as [lo hi] eqn:Hr. cbv beta iota.
  rewrite (for_range_fold (λ offset codes, codes ++ [cell_code line offset])).
  - cbn [mbind outcome_bind]. rewrite foldl_snoc, Z2Nat.id by lia. unfold group_params. by rewrite Hr.
  - intros j a Hj. destruct (group_offset g j Hg ltac:(lia)) as [Hjg Hjr].
    destruct (line_element_Ok line j Hl Hjr) as [-> _]. cbn [mbind outcome_bind].
    unfold cell_code, group_params. by rewrite Hjg, Hr.
Qed.
Lemma quantize_line_eq line acc :
  0 ≤ line < lines →
  quantize_line values rows cols config axis groups line acc =
  Ok (acc.1 ++ (group_params line <$> seqZ 0 groups), acc.2 ++ [cell_code line <$> seqZ 0 extent]).
Proof.
  intros Hl. destruct quantize_sizes as (Hgs & He & _ & Hg & Hge & Hgl & _). unfold quantize_line.
  destruct (for_range_inv (λ g a, a = (acc.1 ++ (group_params line <$> seqZ 0 g),
    cell_code line <$> seqZ 0 (Z.min (g * gs) extent)))
    (Z.to_nat groups) 0 (quantize_group values rows cols config axis line) (acc.1, [])) as (r & -> & ->).
  - rewrite Z.mul_0_l, Z.min_l by lia. by rewrite app_nil_r.
  - intros g a Hgr ->. rewrite quantize_group_eq by lia. eexists. split; [done|]. cbn [fst snd].
    pose proof (group_bounds g ltac:(lia)) as Hb. f_equal.
    + rewrite seqZ_app by lia. rewrite fmap_app, <- app_assoc. done.
    + rewrite Z.min_l by (unfold group_stop in Hb; lia).
      replace (Z.min ((g + 1) * gs) extent) with (g * gs + (group_stop g - g * gs)) by (unfold group_stop; lia).
      rewrite seqZ_app by lia. by rewrite fmap_app.
  - cbn [mbind outcome_bind]. rewrite Z2Nat.id, Z.min_r by lia. done.
Qed.
Lemma quantize_lines_eq :
  for_range (Z.to_nat lines) 0 (quantize_line values rows cols config axis groups) ([], []) =
  Ok (flat_params <$> seqZ 0 (lines * groups), (λ l, cell_code l <$> seqZ 0 extent) <$> seqZ 0 lines).
Proof.
  destruct quantize_sizes as (Hgs & He & Hl & Hg & _).
  destruct (for_range_inv (λ l a, a = (flat_params <$> seqZ 0 (l * groups),
    (λ l, cell_code l <$> seqZ 0 extent) <$> seqZ 0 l))
    (Z.to_nat lines) 0 (quantize_line values rows cols config axis groups) ([], [])) as (r & -> & ->).
  - done.
  - intros l a Hlr ->. rewrite quantize_line_eq by lia. eexists. split; [done|]. cbn [fst snd]. f_equal.
    + replace ((l + 1) * groups) with (l * groups + groups) by lia. rewrite seqZ_app, fmap_app by nia. f_equal.
      rewrite Z.add_0_l. rewrite <- (Z.add_0_r (l * groups)), <- fmap_add_seqZ, <- list_fmap_compose.
      apply list_fmap_ext. intros i g Hi%lookup_seqZ. unfold flat_params, compose.
      rewrite Z.add_comm, Z.div_add, Z.mod_add, Z.div_small, Z.mod_small by lia. done.
    + rewrite seqZ_app by lia. by rewrite fmap_app.
  - rewrite Z2Nat.id by lia. done.
Qed.

Lemma quantize_code_ok scale zero v : code_ok (qc_bits config) (quantize_code config scale zero v).
Proof.
  destruct Hconfig as [Hb _]. unfold code_ok, quantize_code, levels. rewrite Z.shiftl_1_l.
  assert (0 < 2 ^ qc_bits config) by (apply Z.pow_pos_nonneg; pose proof (bits_pos _ Hb); lia). lia.
Qed.
Lemma quantize_code_zero scale zero v : f32_is_zero scale = true → quantize_code config scale zero v = 0.
Proof.
  intros Hz. unfold quantize_code. rewrite Hz. destruct Hconfig as [[Hb|Hb] _]; unfold levels; by rewrite Hb.
Qed.

Lemma cell_position k :
  0 ≤ k < rows * cols → 0 ≤ cell_line k < lines ∧ 0 ≤ cell_offset k < extent.
Proof.
  intros Hk. destruct quantize_sizes as (_ & _ & _ & _ & _ & _ & Hc & _).
  destruct (grid_position rows cols k Hc Hk) as (? & ? & _).
  unfold cell_line, cell_offset, lines, extent. by destruct axis.
Qed.
Lemma repack_code_eq k w :
  0 ≤ k < rows * cols →
  repack_code config axis ((λ l, cell_code l <$> seqZ 0 extent) <$> seqZ 0 lines) (k / cols) (k mod cols) w =
  writer_push (qc_bits config) w (flat_code k).
Proof.
  intros Hk. destruct (cell_position k Hk) as [Hl Ho]. destruct quantize_sizes as (Hgs & _).
  unfold repack_code.
  assert (match axis with PerChannel => (k mod cols, k / cols) | PerToken => (k / cols, k mod cols) end =
    (cell_line k, cell_offset k)) as -> by (unfold cell_line, cell_offset; by destruct axis).
  cbv beta iota. rewrite (proj2 (index_Ok _ (cell_line k) (cell_code (cell_line k) <$> seqZ 0 extent))).
  2: { split; [lia|]. rewrite list_lookup_fmap, (proj2 (lookup_seqZ _ _ _ (cell_line k))) by lia. done. }
  cbn [mbind outcome_bind]. fold gs.
  replace (cell_offset k / gs * gs + cell_offset k mod gs) with (cell_offset k)
    by (rewrite (Z.mul_comm _ gs), <- Z.div_mod; lia).
  rewrite (proj2 (index_Ok _ (cell_offset k) (flat_code k))); [done|].
  split; [lia|]. rewrite list_lookup_fmap, (proj2 (lookup_seqZ _ _ _ (cell_offset k))) by lia. done.
Qed.
Lemma repack_Ok :
  ∃ w, for_grid rows cols
      (repack_code config axis ((λ l, cell_code l <$> seqZ 0 extent) <$> seqZ 0 lines)) (mkBitWriter [] 0) = Ok w ∧
    written (qc_bits config) (flat_code <$> seqZ 0 (rows * cols)) w.
Proof.
  destruct quantize_sizes as (_ & _ & _ & _ & _ & _ & Hc & Hr). rewrite for_grid_flat by lia.
  destruct (for_range_inv (λ k w, written (qc_bits config) (flat_code <$> seqZ 0 k) w)
    (Z.to_nat (rows * cols)) 0
    (λ k, repack_code config axis ((λ l, cell_code l <$> seqZ 0 extent) <$> seqZ 0 lines) (k / cols) (k mod cols))
    (mkBitWriter [] 0)) as (w & Hw & Hwr).
  - apply written_nil.
  - intros k w Hk Hw. rewrite repack_code_eq by lia.
    destruct (writer_push_spec (qc_bits config) _ w (flat_code k) (proj1 Hconfig) (quantize_code_ok _ _ _) Hw)
      as (w' & Hp & Hw'). exists w'. split; [done|]. rewrite seqZ_app, fmap_app by lia. done.
  - exists w. split; [done|]. by rewrite Z2Nat.id in Hwr by nia.
Qed.
Lemma quantize_Ok :
  ∃ w, quantize values rows cols config axis =
      Ok (mkQuantizedTensor axis config rows cols (flat_params <$> seqZ 0 (lines * groups)) (bw_packed w)) ∧
    written (qc_bits config) (flat_code <$> seqZ 0 (rows * cols)) w.
Proof.
  destruct quantize_sizes as (Hgs & He & Hl & Hg & _ & _ & Hc & Hr). destruct repack_Ok as (w & Hw & Hwr).
  exists w. split; [|done]. unfold quantize.
  rewrite (proj2 (validate_dimensions_Ok rows cols ltac:(lia) ltac:(lia)) Hdims). cbn [mbind outcome_bind].
  rewrite (proj2 (Z.eqb_eq _ _) Hlen). cbn [negb].
  assert (existsb (λ v, negb (f32_is_finite v)) values = false) as ->.
  { apply not_true_iff_false. rewrite existsb_exists. intros (v & Hin & Hv).
    rewrite list.Forall_forall in Hfinite. rewrite Hfinite in Hv by by apply list_elem_of_In. done. }
  unfold groups_along. fold extent gs. rewrite (proj2 (Z.eqb_neq gs 0)) by lia. cbn [mbind outcome_bind].
  fold groups lines. rewrite quantize_lines_eq. cbn [mbind outcome_bind]. rewrite Hw. cbn [mbind outcome_bind].
  rewrite (wr_len _ _ _ Hwr). unfold zlen. rewrite length_fmap, length_seqZ, Z2Nat.id by nia.
  unfold packed_len. by rewrite Z.eqb_refl.
Qed.

(** The extremes of a group are finite elements, in order. *)
Lemma line_range_ok line g :
  0 ≤ line < lines → 0 ≤ g < groups →
  let r := line_range line g in
  in_u32 r.1 ∧ in_u32 r.2 ∧ f32_is_finite r.1 = true ∧ f32_is_finite r.2 = true ∧ f32_units r.1 ≤ f32_units r.2.
Proof.
  intros Hl Hg. pose proof (group_bounds g Hg) as Hb. simpl.
  pose proof (group_range_eq line g Hl Hg) as Hr. unfold group_range in Hr.
  set (P := λ v, in_u32 v ∧ f32_is_finite v = true).
  assert (∀ v, v ∈ values → P v) as HP.
  { rewrite list.Forall_forall in Htyped, Hfinite. intros v Hv. split; [by apply Htyped|by apply Hfinite]. }
  eapply (for_range_Ok (λ i acc, (i = g * gs ∧ acc = (f32_INFINITY, f32_NEG_INFINITY)) ∨
    (g * gs < i ∧ P acc.1 ∧ P acc.2 ∧ f32_units acc.1 ≤ f32_units acc.2)) (λ _, True)) in Hr
    as [[[Hi _]|(_ & [? ?] & [? ?] & ?)] _]; [lia|done|by left|].
  intros j acc a' Hj Hacc Hbody. split; [|done]. right.
  destruct (group_offset g j Hg ltac:(lia)) as [_ Hjr].
  destruct (line_element_Ok line j Hl Hjr) as [He Hin]. rewrite He in Hbody. cbn [mbind outcome_bind] in Hbody.
  apply Ok_inj in Hbody. subst a'. set (v := line_cell line j) in *. pose proof (HP v Hin) as HPv. clear He.
  cbn [fst snd]. unfold f32_min, f32_max, f32_ltb.
  destruct Hacc as [[-> ->]|(Hlt & H1 & H2 & H3)].
  - cbn [fst snd]. destruct (f32_to_sf_finite v (proj1 HPv) (proj2 HPv)) as [_ Hu].
    assert (Z.abs (f32_units v) < 2 ^ 277) as Hbound by (apply f32_units_bound; apply HPv).
    rewrite (proj2 (Z.ltb_lt (f32_units v) _)), (proj2 (Z.ltb_lt _ (f32_units v)));
      [split_and!; try done; lia|..].
    + change (f32_units f32_NEG_INFINITY) with (- (2 ^ 277)). lia.
    + change (f32_units f32_INFINITY) with (2 ^ 277). lia.
  - destruct (Z.ltb_spec (f32_units v) (f32_units acc.1)), (Z.ltb_spec (f32_units acc.2) (f32_units v));
      split_and!; try done; lia.
Qed.
Lemma group_params_u16 line g :
  0 ≤ line < lines → 0 ≤ g < groups →
  in_u16 (group_params line g).1 ∧ (group_params line g).1 ≤ 32768 ∧ in_u16 (group_params line g).2.
Proof.
  intros Hl Hg. destruct (line_range_ok line g Hl Hg) as (H1 & H2 & H3 & H4 & H5). unfold group_params. cbn [fst snd].
  destruct (scale_of_range_ok config _ _ Hconfig H1 H2 H3 H4 H5) as [? ?]. split_and!; try done.
  by apply f32_to_f16_u16.
Qed.

(** ** The quantized tensor *)
Definition quantized (w : BitWriter) : QuantizedTensor :=
  mkQuantizedTensor axis config rows cols (flat_params <$> seqZ 0 (lines * groups)) (bw_packed w).
Definition params_finite (p : Z * Z) : Prop :=
  f32_is_finite (f16_to_f32 p.1) = true ∧ f32_is_finite (f16_to_f32 p.2) = true.
Context (w : BitWriter) (Hw : written (qc_bits config) (flat_code <$> seqZ 0 (rows * cols)) w).

Lemma quantized_group k :
  element_group (quantized w) (k / cols) (k mod cols) = cell_line k * groups + cell_offset k / gs.
Proof.
  unfold element_group, quantized, cell_line, cell_offset, groups, gs, extent. simpl. clear. by destruct axis.
Qed.
Lemma cell_group k : 0 ≤ k < rows * cols → 0 ≤ cell_offset k / gs < groups.
Proof.
  intros Hk. destruct (cell_position k Hk) as [_ Ho]. destruct quantize_sizes as (Hgs & _).
  by apply div_ceil_group.
Qed.
Lemma quantized_scale k :
  0 ≤ k < rows * cols →
  scale_at (quantized w) k = Some (group_params (cell_line k) (cell_offset k / gs)).
Proof.
  intros Hk. destruct (cell_position k Hk) as [Hl Ho]. pose proof (cell_group k Hk) as Hg.
  unfold scale_at. change (qt_cols (quantized w)) with cols. rewrite quantized_group. cbn [qt_scales quantized].
  rewrite list_lookup_fmap, (proj2 (lookup_seqZ _ _ _ (cell_line k * groups + cell_offset k / gs))) by nia.
  csimpl. unfold flat_params. f_equal.
  rewrite Z.add_comm, Z.div_add, Z.mod_add, Z.div_small, Z.mod_small by lia. done.
Qed.
Lemma line_cell_flat k : 0 ≤ k < rows * cols → line_cell (cell_line k) (cell_offset k) = cell k.
Proof.
  intros Hk. destruct quantize_sizes as (_ & _ & _ & _ & _ & _ & Hc & _).
  destruct (grid_position rows cols k Hc Hk) as (_ & _ & He).
  unfold line_cell, cell_line, cell_offset. clear -He. destruct axis; by rewrite He.
Qed.
Lemma quantized_code k :
  0 ≤ k < rows * cols → code_at (quantized w) k = Some (flat_code k).
Proof.
  intros Hk. unfold code_at. change (qt_packed (quantized w)) with (bw_packed w).
  change (qc_bits (qt_config (quantized w))) with (qc_bits config).
  rewrite <- (Z2Nat.id k) at 1 by lia. apply (wr_codes _ _ _ Hw).
  rewrite list_lookup_fmap, (proj2 (lookup_seqZ _ _ _ k)) by lia. done.
Qed.
Lemma quantized_packing : packing_ok (quantized w).
Proof.
  split.
  - unfold tail_clear. cbn [quantized qt_rows qt_cols qt_config qt_packed]. intros Hm.
    assert (zlen (flat_code <$> seqZ 0 (rows * cols)) = rows * cols) as Hz.
    { unfold zlen. rewrite length_fmap, length_seqZ. destruct quantize_sizes as (_ & _ & _ & _ & _ & _ & ? & ?). nia. }
    pose proof (wr_tail _ _ _ Hw) as Ht. pose proof (wr_len _ _ _ Hw) as Hpl. rewrite Hz in Ht, Hpl.
    destruct (Ht Hm) as (b & Hb & Hbr). exists b. split; [|lia]. rewrite <- Hb. f_equal. f_equal.
    destruct quantize_sizes as (_ & _ & _ & _ & _ & _ & ? & ?).
    destruct (div_ceil_step (qc_bits config) (rows * cols) (proj1 Hconfig) ltac:(nia)) as [Hd _].
    rewrite (proj2 (Z.eqb_neq _ _) Hm) in Hd. lia.
  - cbn [quantized qt_rows qt_cols]. intros k s Hk Hs Hz. rewrite quantized_code by done. f_equal.
    fold (quantized w) in Hs. rewrite quantized_scale in Hs by done. injection Hs as <-.
    unfold flat_code, cell_code. by apply quantize_code_zero.
Qed.
Lemma quantized_shape : tensor_shape (quantized w) ↔ Forall params_finite (qt_scales (quantized w)).
Proof.
  destruct quantize_sizes as (Hgs & He & Hl & Hg & _ & _ & Hc & Hr). unfold tensor_shape.
  cbn [quantized qt_axis qt_config qt_rows qt_cols qt_scales qt_packed]. split.
  - intros (_ & _ & _ & Hs & _). eapply list.Forall_impl; [exact Hs|]. by intros p (_ & _ & ? & _ & ?).
  - intros Hf. split_and!; try done.
    + unfold zlen. rewrite length_fmap, length_seqZ, Z2Nat.id by nia. done.
    + rewrite list.Forall_forall in Hf |- *. intros p Hp. destruct (Hf p Hp) as [F1 F2].
      apply list_elem_of_fmap in Hp as (i & -> & Hi%elem_of_seqZ).
      destruct (group_params_u16 (i / groups) (i mod groups)) as (H1 & H2 & H3).
      { split; [apply Z.div_pos; lia|apply Z.div_lt_upper_bound; lia]. }
      { apply Z.mod_pos_bound. lia. }
      split_and!; try done. by apply f16_nonneg.
    + apply (wr_bytes _ _ _ Hw).
    + rewrite (wr_len _ _ _ Hw). unfold zlen. rewrite length_fmap, length_seqZ, Z2Nat.id by nia. done.
Qed.
End quantize.
