(* ===== verification/Samples.v ===== *)
(** * A small cache segment

    Concrete data on which the witnesses evaluate the program: two tokens of a
    one-layer cache with a key state and a value state that depends on it, in
    binary16 with two elements per token, its two chunk objects and the
    manifest that names them.  The primitives are the [toy] instance. *)
From Stdlib Require Import ZArith Lia.
From stdpp Require Import base tactics numbers list strings option sorting.
From S2P Require Import Prelude Bytes Canonical Wire State Identity Manifest Frame Deps Validator.
From S2P Require Import ValidatorLaws Crypto Ids Half Stats Chunk ChunkLaws Pack.

Module ToyInstances.
#[export] Existing Instance toy.
#[export] Existing Instance toy_laws.
End ToyInstances.
Import ToyInstances.

Module Sample.
Definition id (b : Z) : bytes := replicate 32 b.
Definition tenant : bytes := id 7.
Definition epoch : Z := 3.
Definition keys : KeySchedule :=
  mkKeySchedule (id 11) (id 12) (id 13) (id 14) (id 15) (id 16) (id 17).

Definition key_k : StateKey := mkStateKey 0 (ascii_bytes "k").
Definition key_v : StateKey := mkStateKey 0 (ascii_bytes "v").
Definition state_k : FamilyState :=
  mkFamilyState key_k OrdinaryKv F16 Lossless 1 Contiguous Direct 0 2 [Token; Fixed 2] [].
Definition state_v : FamilyState :=
  mkFamilyState key_v OrdinaryKv F16 Raw 1 Contiguous Direct 0 2 [Token; Fixed 2] [key_k].
Definition family : RepresentationFamilyId :=
  mkRepresentationFamilyId (id 21) Native 16 (id 22) (id 23) [state_k; state_v].
Definition semantic : SemanticModelId :=
  mkSemanticModelId (id 31) (id 32) (id 33) (id 34) (id 35).
Definition cut : InputCutId := mkInputCutId (id 41) (id 42) 2.

(** Two tokens of two binary16 elements. *)
Definition plain_k : bytes := [0; 60; 0; 60; 0; 64; 0; 64].
Definition plain_v : bytes := [1; 2; 3; 4; 5; 6; 7; 8].
Definition span : ChunkSpan := mkChunkSpan 0 2 0 8.
Definition sidecar : StatsSidecar :=
  mkStatsSidecar [mkChannelRange 15360 16384; mkChannelRange 15360 16384] [15784; 16808]
  [mkSinkScore 1 16808].
Definition encoding_k : ChunkEncoding :=
  mkChunkEncoding tenant family key_k span epoch true (Some sidecar).
Definition encoding_v : ChunkEncoding :=
  mkChunkEncoding tenant family key_v span epoch false None.
Definition salt : bytes := replicate 16 9.
Definition nonce : bytes := replicate 12 8.

Definition no_object : ChunkObject := mkChunkObject [] [] [] 0 [].
Definition the {E A} (d : A) (r : outcome E A) : A := match r with Ok a => a | _ => d end.
Definition object_k : ChunkObject :=
  the no_object (encode_chunk plain_k encoding_k keys (Some salt) (Some nonce)).
Definition object_v : ChunkObject :=
  the no_object (encode_chunk plain_v encoding_v keys None None).

Definition family_id : bytes := the [] (representation_family_id family).
Definition family_canonical : bytes := the [] (family_encode_canonical family).
Definition sidecar_bytes : bytes := the [] (stats_encode_canonical sidecar).
Definition shape : Shape := the (mkShape [] 0) (Shape_new [2; 2]).
Definition realized (k : StateKey) : RealizedStateSchema :=
  mkRealizedStateSchema k shape shape [2; 1] 0 2 0 8 8 2 0 [span].
Definition schema : RealizedCutSchemaId :=
  mkRealizedCutSchemaId Full [realized key_k; realized key_v]
  [mkAtomicGroup 1 [key_k; key_v]] 16 16.
Definition declaration : StateDeclaration :=
  mkStateDeclaration key_k shape shape [2; 1] 0 2 2 0 1.
Definition manifest : CutManifest :=
  mkCutManifest tenant epoch semantic cut family schema
  [mkStateManifest key_k [chunk_ref_of object_k epoch];
   mkStateManifest key_v [chunk_ref_of object_v epoch]].
Definition context : ValidationContext := mkValidationContext ManifestBounds_default.
Definition canonical : bytes := the [] (manifest_encode_canonical manifest).
Definition pack : bytes :=
  ep_bytes (the (mkEncodedPack [] [])
  (encode_authenticated_pack manifest keys true context (Some salt) (Some nonce))).
End Sample.

(** ** Facts about the sample, by evaluation *)
Module SampleFacts.
Lemma canonical_eq : manifest_encode_canonical Sample.manifest = Ok Sample.canonical.
Proof. vm_compute. reflexivity. Qed.
Lemma canonical_bytes : bytes_ok Sample.canonical.
Proof. apply bytes_okb_ok. vm_compute. reflexivity. Qed.
Lemma canonical_size : zlen Sample.canonical ≤ MAX_MANIFEST_BYTES.
Proof. vm_compute. congruence. Qed.
Lemma decode_eq : manifest_decode_canonical Sample.canonical = Ok Sample.manifest.
Proof. vm_compute. reflexivity. Qed.
Lemma manifest_ok : CutManifest_ok Sample.manifest.
Proof. apply (manifest_encode_decode Sample.canonical); [apply canonical_bytes|apply decode_eq]. Qed.
Lemma family_ok : RepresentationFamilyId_ok Sample.family.
Proof. apply manifest_ok. Qed.
Lemma valid : validate_manifest Sample.manifest Sample.context = Ok tt.
Proof. vm_compute. reflexivity. Qed.
Lemma sidecar_valid : sidecar_ok Sample.sidecar.
Proof.
  apply (stats_encode_decode (Sample.the [] (stats_encode_canonical Sample.sidecar)));
    [apply bytes_okb_ok; vm_compute; reflexivity|vm_compute; reflexivity].
Qed.
Lemma family_sorted : StronglySorted key_lt (fs_key <$> family_states Sample.family).
Proof. repeat constructor. Qed.
Lemma id_of b : 0 ≤ b < 256 → id_ok (Sample.id b).
Proof. intros Hb. split; [done|]. by apply Forall_replicate. Qed.
Lemma tenant_ok : id_ok Sample.tenant.
Proof. by apply id_of. Qed.
Lemma key_k_ok : StateKey_ok Sample.key_k.
Proof. pose proof (proj2 (proj2 (proj2 (proj2 (proj2 family_ok))))) as H. inversion_clear H. apply H0. Qed.
Lemma span_ok : ChunkSpan_ok Sample.span.
Proof. by split_and!. Qed.
Lemma family_id_eq : representation_family_id Sample.family = Ok Sample.family_id.
Proof. vm_compute. reflexivity. Qed.
Lemma decode_k : decode_chunk_with_stats (co_bytes Sample.object_k) (chunk_ref_of Sample.object_k 3)
  Sample.span Sample.tenant Sample.family Sample.key_k Sample.keys = Ok (Sample.plain_k, Some Sample.sidecar).
Proof. vm_compute. reflexivity. Qed.
Lemma encoding_k_ok : encoding_ok Sample.plain_k Sample.encoding_k Sample.state_k.
Proof.
  split; try done.
  - by apply id_of.
  - apply family_ok.
  - apply family_sorted.
  - simpl. apply list_elem_of_here.
  - split; [apply bytes_okb_ok|]; done.
  - intros s [= <-]. apply sidecar_valid.
Qed.
Lemma random_ok_sample : random_ok true (Some Sample.salt) (Some Sample.nonce).
Proof. intros _. by exists Sample.salt, Sample.nonce. Qed.
Lemma pack_bytes : bytes_ok Sample.pack ∧ slice_len_ok Sample.pack.
Proof. split; [apply bytes_okb_ok|]; vm_compute; reflexivity. Qed.
Lemma object_k_bytes : bytes_ok (co_bytes Sample.object_k).
Proof. apply bytes_okb_ok. vm_compute. reflexivity. Qed.
End SampleFacts.
