(* ===== verification/CodecProperties.v ===== *)
(** * Canonical encodings: one byte string per value

    Each canonical form (manifest, realized-cut schema, state schema, family,
    statistics sidecar, codec frame) is characterised by an equivalence: the
    decoder accepts exactly the encodings of well-formed values. *)
From Stdlib Require Import ZArith Lia.
From stdpp Require Import base tactics numbers list strings option sorting.
From S2P Require Import Prelude Bytes Canonical Wire State Identity Manifest Frame Deps Validator.
From S2P Require Import Crypto Ids Half Stats Chunk ChunkLaws Samples.

(** The sidecar derived from one token whose norm overflows binary16, and its encoding. *)
Definition overflow_sidecar : StatsSidecar :=
  Sample.the Sample.sidecar (derive_f16 1 2 1 [255; 123; 255; 123]).
Definition overflow_bytes : bytes := Sample.the [] (stats_encode_canonical overflow_sidecar).

(** C24: The manifest decoder accepts a byte string exactly when it is the canonical
    encoding of a well-formed manifest within the size bound: round trip and strictness. *)
Theorem manifest_canonical b m :
  bytes_ok b →
  manifest_decode_canonical b = Ok m ↔
  CutManifest_ok m ∧ manifest_encode_canonical m = Ok b ∧ zlen b ≤ MAX_MANIFEST_BYTES.
Proof.
  intros Hb. split; [by apply manifest_encode_decode|]. intros (Hm & He & Hl).
  by apply manifest_decode_encode.
Qed.

(** The same equivalence for the three other canonical objects of the wire format:
    representation families, realized-cut schemas and state schemas. *)
Theorem schemas_canonical b f s d :
  bytes_ok b → slice_len_ok b →
  (family_decode_canonical b = Ok f ↔ RepresentationFamilyId_ok f ∧ family_encode_canonical f = Ok b) ∧
  (schema_decode_canonical b = Ok s ↔ RealizedCutSchemaId_ok s ∧ schema_encode_canonical s = Ok b) ∧
  (decode_canonical_schema b = Ok d ↔ StateDeclaration_ok d ∧ canonical_schema_bytes d = Ok b).
Proof.
  intros Hb Hl. split_and!; split.
  - by apply family_encode_decode.
  - intros [? ?]. by apply family_decode_encode.
  - by apply schema_encode_decode.
  - intros [? ?]. by apply schema_decode_encode.
  - by apply state_schema_encode_decode.
  - intros [? ?]. by apply state_schema_decode_encode.
Qed.

(** Every well-formed manifest and every well-formed family has an encoding, and the
    manifest decoder never panics, whatever bytes it reads. *)
Theorem canonical_total m f b :
  CutManifest_ok m → RepresentationFamilyId_ok f → bytes_ok b →
  (∃ c, manifest_encode_canonical m = Ok c ∧ bytes_ok c) ∧
  (∃ c, family_encode_canonical f = Ok c ∧ bytes_ok c) ∧
  ¬ panics (manifest_decode_canonical b).
Proof.
  intros. split_and!;
    [by apply manifest_encode_total|by apply family_encode_total|by apply manifest_decode_no_panic].
Qed.

(** A codec frame decodes to a plaintext exactly when it is the frame the encoder
    produces for it, raw or run-length coded; in particular the run-length decoder inverts
    the encoder and rejects every other packetisation of the same bytes. *)
Theorem codec_frame_canonical c f n p :
  bytes_ok f → bytes_ok p →
  decode_codec_frame c f n = Ok p ↔ encode_codec_frame c p = Ok f ∧ zlen p = n.
Proof.
  intros Hf Hp. split.
  - intros H. apply decode_codec_frame_Ok in H as (? & ? & _); done.
  - intros [He <-]. by apply decode_codec_frame_encode.
Qed.

(** Every plaintext of 1 byte to 4 MiB is framed, within the overhead the object bound
    reserves (one control byte per 128 bytes and the 16-byte header), and decoding a frame
    never panics and never runs out of steps. *)
Theorem codec_frame_bounds c p f n :
  0 < zlen p ≤ MAX_CHUNK_PLAINTEXT → bytes_ok f →
  (∃ e, encode_codec_frame c p = Ok e ∧ zlen e ≤ MAX_CHUNK_PLAINTEXT + MAX_CODEC_OVERHEAD ∧
    (c = Lossless → zlen e ≤ CODEC_FRAME_HEADER_BYTES + zlen p + div_ceil (zlen p) 128)) ∧
  ¬ panics (decode_codec_frame c f n).
Proof.
  intros Hp Hf. split; [|by apply decode_codec_frame_no_panic].
  destruct (encode_codec_frame_eq c p Hp) as [He Hl]. eexists. split; [done|].
  rewrite zlen_app, zlen_frame_prefix. unfold MAX_CODEC_OVERHEAD, CODEC_FRAME_HEADER_BYTES.
  split; [lia|]. intros ->. unfold frame_payload.
  destruct (rle_encode_size (length p) p) as [Hs _]; [done|]. lia.
Qed.

(** The sidecar decoder accepts exactly the encodings of well-formed sidecars (finite
    ranges in order, finite nonnegative norms, the top scores of the norms), and every
    well-formed sidecar has an encoding that fits the chunk header. *)
Theorem sidecar_canonical b s :
  bytes_ok b →
  (stats_decode_canonical b = Ok s ↔ sidecar_ok s ∧ stats_encode_canonical s = Ok b) ∧
  (sidecar_ok s → ∃ c, stats_encode_canonical s = Ok c ∧ zlen c ≤ MAX_STATS_SIDECAR_BYTES) ∧
  ¬ panics (stats_decode_canonical b).
Proof.
  intros Hb. split_and!; [split| |by apply stats_decode_no_panic].
  - intros H. by apply stats_encode_decode in H as (? & ? & _).
  - intros [? ?]. by apply stats_decode_encode.
  - intros [Hs _]. destruct (stats_encode_total s Hs) as (c & Hc & _). exists c. split; [done|].
    by apply stats_encode_size in Hc as [_ ?].
Qed.

(** [top_sinks] returns the [count] tokens of largest norm, in decreasing order, ties
    broken by the smaller index, without repetition. *)
Theorem top_sinks_largest norms count :
  0 ≤ count ≤ zlen norms → zlen norms < u32_bound →
  ∃ chosen others : list nat,
    chosen ++ others ≡ₚ seq 0 (length norms) ∧
    top_sinks norms count = (λ i, mkSinkScore (Z.of_nat i) (norms !!! i)) <$> chosen ∧
    zlen chosen = count ∧ StronglySorted (sink_before norms) chosen ∧
    ∀ i j, i ∈ chosen → j ∈ others → sink_before norms i j.
Proof. apply top_sinks_spec. Qed.

(** [derive_f16] on one token whose two channels hold the largest finite binary16
    value returns a sidecar with an infinite norm (the norm overflows binary16), and the
    decoder rejects that sidecar's own encoding. *)
Lemma derive_f16_infinite_norm :
  derive_f16 1 2 1 [255; 123; 255; 123] = Ok overflow_sidecar ∧
  key_l2_norms overflow_sidecar = [31744] ∧
  stats_encode_canonical overflow_sidecar = Ok overflow_bytes ∧
  stats_decode_canonical overflow_bytes = Err (Semantics "stats sidecar key norm is not a finite non-negative value").
Proof. split_and!; vm_compute; reflexivity. Qed.

(** ** On the sample segment *)
Module CodecWitnesses.
Import ToyInstances.

Lemma manifest_canonical_witness : manifest_decode_canonical Sample.canonical = Ok Sample.manifest.
Proof.
  apply (manifest_canonical Sample.canonical Sample.manifest SampleFacts.canonical_bytes).
  split; [apply SampleFacts.manifest_ok|split; [apply SampleFacts.canonical_eq|apply SampleFacts.canonical_size]].
Defined.
Lemma schemas_canonical_witness :
  family_decode_canonical Sample.family_canonical = Ok Sample.family.
Proof.
  apply (schemas_canonical Sample.family_canonical Sample.family Sample.schema Sample.declaration).
  - apply bytes_okb_ok. vm_compute. reflexivity.
  - vm_compute. reflexivity.
  - split; [apply SampleFacts.family_ok|vm_compute; reflexivity].
Defined.
Lemma canonical_total_witness : ¬ panics (manifest_decode_canonical [1; 2; 3]).
Proof.
  apply (canonical_total Sample.manifest Sample.family [1; 2; 3]).
  - apply SampleFacts.manifest_ok.
  - apply SampleFacts.family_ok.
  - apply bytes_okb_ok. reflexivity.
Defined.
Lemma codec_frame_canonical_witness :
  ∃ f, encode_codec_frame Lossless [5; 5; 5; 5; 1; 2] = Ok f ∧
  decode_codec_frame Lossless f 6 = Ok [5; 5; 5; 5; 1; 2].
Proof.
  eexists. split; [vm_compute; reflexivity|].
  apply codec_frame_canonical; [apply bytes_okb_ok; reflexivity..|]. split; vm_compute; reflexivity.
Defined.
Lemma codec_frame_bounds_witness :
  ∃ e, encode_codec_frame Lossless [1; 2; 3] = Ok e ∧ zlen e ≤ MAX_CHUNK_PLAINTEXT + MAX_CODEC_OVERHEAD ∧
  (Lossless = Lossless → zlen e ≤ CODEC_FRAME_HEADER_BYTES + zlen [1; 2; 3] + div_ceil (zlen [1; 2; 3]) 128).
Proof.
  apply (codec_frame_bounds Lossless [1; 2; 3] [] 3); [|constructor].
  split; vm_compute; congruence.
Defined.
Lemma sidecar_canonical_witness :
  stats_decode_canonical Sample.sidecar_bytes = Ok Sample.sidecar.
Proof.
  apply (sidecar_canonical Sample.sidecar_bytes Sample.sidecar).
  - apply bytes_okb_ok. vm_compute. reflexivity.
  - split; [apply SampleFacts.sidecar_valid|vm_compute; reflexivity].
Defined.
Lemma top_sinks_largest_witness :
  ∃ chosen others : list nat,
  chosen ++ others ≡ₚ seq 0 3 ∧
  top_sinks [15360; 16384; 15360] 2 =
    (λ i, mkSinkScore (Z.of_nat i) ([15360; 16384; 15360] !!! i)) <$> chosen ∧
  zlen chosen = 2 ∧ StronglySorted (sink_before [15360; 16384; 15360]) chosen ∧
  ∀ i j, i ∈ chosen → j ∈ others → sink_before [15360; 16384; 15360] i j.
Proof.
  apply (top_sinks_largest [15360; 16384; 15360] 2); [split|]; vm_compute; congruence.
Defined.
End CodecWitnesses.
