(* ===== verification/ValidatorProperties.v ===== *)
(** * What the manifest validator guarantees (crates/kvpack-core/src/validator.rs) *)
From Stdlib Require Import ZArith Lia.
From stdpp Require Import base tactics numbers list strings option sorting gmap.
From S2P Require Import Prelude Bytes Canonical Wire State Identity Manifest Frame Deps Validator.
From S2P Require Import ValidatorLaws Crypto Ids Chunk ChunkLaws Samples.

(** C23: The validator is sound for the declarative notion of a valid manifest: identities
    are nonzero, the family is valid, a delta names a nonzero parent at depth at most 7 and
    extends a nonempty strict prefix with the same auxiliary input, the atomic groups
    partition the states, the numbers of states and of chunks per state are within the
    bounds, every state's chunks tile its token range, and the byte totals are the sums
    they claim to be, within the bound on restored bytes. *)
Theorem validate_manifest_sound m ctx :
  CutManifest_ok m → validate_manifest m ctx = Ok tt → manifest_valid m ctx.
Proof. apply validate_manifest_Ok. Qed.

(** Restoring an accepted manifest loses nothing and reads nothing twice: for every
    state, each token of its range lies in exactly one chunk span, that span's reference has
    the span's plaintext size, and the sizes add up to tokens times bytes per token. *)
Theorem accepted_chunks_tile m ctx f r p x :
  CutManifest_ok m → validate_manifest m ctx = Ok tt → (f, r, p) ∈ manifest_rows m →
  range_start m f r ≤ x < manifest_tokens m →
  (∃ i span ref, rs_chunk_spans r !! i = Some span ∧ sm_chunks p !! i = Some ref ∧
     span_covers x span ∧ cr_plaintext_bytes ref = cs_plaintext_bytes span ∧
     ∀ j span', rs_chunk_spans r !! j = Some span' → span_covers x span' → j = i) ∧
  stored_bytes p = (manifest_tokens m - range_start m f r) * bytes_per_token f.
Proof.
  intros Hm Hv Hin Hx. pose proof (mv_rows _ _ (validate_manifest_Ok _ _ Hm Hv)) as Hrows.
  rewrite list.Forall_forall in Hrows. specialize (Hrows _ Hin) as Hrow. cbn in Hrow.
  pose proof (row_spans _ _ _ _ _ _ Hrow) as Hcov. pose proof (row_refs _ _ _ _ _ _ Hrow) as Hrefs.
  split.
  - destruct (spans_cover_unique _ _ _ _ x Hcov Hx) as (i & span & Hi & Hc & Hu).
    destruct (Forall2_lookup_l _ _ _ _ _ Hrefs Hi) as (ref & Hr & Hval).
    exists i, span, ref. split_and!; try done. apply Hval.
  - unfold stored_bytes. by rewrite (refs_stored _ _ Hrefs), (spans_cover_bytes _ _ _ _ Hcov).
Qed.

(** Family validation decides validity: canonical unique state order, one token axis,
    exact elements per token, layout rules of the mode, canonical dependencies, no cycle. *)
Theorem validate_family_decides f :
  RepresentationFamilyId_ok f → validate_family f = Ok tt ↔ family_valid f.
Proof. apply validate_family_Ok. Qed.

(** The depth-first search over state dependencies succeeds exactly when every
    dependency list is canonical and the dependency relation has no cycle. *)
Theorem validate_dependencies_decides states :
  NoDup (fs_key <$> states) →
  validate_dependencies states = Ok tt ↔
  Forall (deps_canonical states) states ∧ acyclic (dep_edge states).
Proof. apply validate_dependencies_Ok. Qed.

(** The validator terminates without panicking on every manifest the decoder can
    produce, and the dependency search does so on every list of states, with recursion depth
    at most the number of keys. *)
Theorem validators_total m ctx states :
  CutManifest_ok m → ¬ panics (validate_manifest m ctx) ∧ ¬ panics (validate_dependencies states).
Proof.
  intros Hm. split; [by apply validate_manifest_no_panic|apply validate_dependencies_no_panic].
Qed.

(** ** On the sample segment *)
Module ValidatorWitnesses.
Import ToyInstances.

Lemma validate_manifest_sound_witness : manifest_valid Sample.manifest Sample.context.
Proof.
  apply (validate_manifest_sound Sample.manifest Sample.context);
    [apply SampleFacts.manifest_ok|vm_compute; reflexivity].
Defined.
Lemma accepted_chunks_tile_witness :
  stored_bytes (mkStateManifest Sample.key_k [chunk_ref_of Sample.object_k 3]) = (2 - 0) * 4.
Proof.
  apply (accepted_chunks_tile Sample.manifest Sample.context Sample.state_k
    (Sample.realized Sample.key_k) (mkStateManifest Sample.key_k [chunk_ref_of Sample.object_k 3]) 1).
  - apply SampleFacts.manifest_ok.
  - apply SampleFacts.valid.
  - apply list_elem_of_here.
  - split; vm_compute; congruence.
Defined.
Lemma validate_family_decides_witness : family_valid Sample.family.
Proof.
  apply (validate_family_decides Sample.family SampleFacts.family_ok). vm_compute. reflexivity.
Defined.
Lemma validate_dependencies_decides_witness :
  Forall (deps_canonical [Sample.state_k; Sample.state_v]) [Sample.state_k; Sample.state_v] ∧
  acyclic (dep_edge [Sample.state_k; Sample.state_v]).
Proof.
  apply (validate_dependencies_decides [Sample.state_k; Sample.state_v]).
  - apply (bool_decide_unpack _). vm_compute. exact I.
  - vm_compute. reflexivity.
Defined.
Lemma validators_total_witness :
  ¬ panics (validate_manifest Sample.manifest Sample.context) ∧
  ¬ panics (validate_dependencies [Sample.state_v]).
Proof.
  apply (validators_total Sample.manifest Sample.context [Sample.state_v]), SampleFacts.manifest_ok.
Defined.
End ValidatorWitnesses.
