(* ===== verification/IdentityProperties.v ===== *)
(** * Keys, content identities and prefix chains (keys.rs and ids.rs)

    Collision resistance is never assumed: an equality of identities gives
    equality of content, or it exhibits the colliding messages. *)
From Stdlib Require Import ZArith Lia.
From stdpp Require Import base tactics numbers list strings option sorting.
From S2P Require Import Prelude Bytes Canonical Wire State Identity Manifest Crypto Ids.
From S2P Require Import PrefixChain CutChain Samples.

Section identities.
Context `{CL : CryptoLaws}.

(** A key schedule is derived for every nonzero epoch; the namespace, prefix and chunk
identity keys depend only on the stable root and the tenant, so they survive a rotation
of epoch and epoch root. *)
Theorem key_schedule_stable stable_root root1 root2 tenant epoch1 epoch2 :
  epoch1 ≠ 0 → epoch2 ≠ 0 →
  ∃ k1 k2, derive_with_epoch_root stable_root root1 tenant epoch1 = Ok k1 ∧
  derive_with_epoch_root stable_root root2 tenant epoch2 = Ok k2 ∧
  KeySchedule_ok k1 ∧ KeySchedule_ok k2 ∧ ks_namespace k1 = ks_namespace k2 ∧
  ks_prefix k1 = ks_prefix k2 ∧ ks_chunk_identity k1 = ks_chunk_identity k2.
Proof.
  intros H1 H2. destruct (derive_total stable_root root1 tenant epoch1 H1) as (k1 & E1 & O1).
  destruct (derive_total stable_root root2 tenant epoch2 H2) as (k2 & E2 & O2).
  exists k1, k2. split_and!; try done; unfold derive_with_epoch_root in E1, E2; inv_ok; subst;
    cbn [ks_namespace ks_prefix ks_chunk_identity]; congruence.
Qed.

(** A representation-family identity names one family: two well-formed families with
the same identity are equal, or their framed encodings collide under SHA-256. *)
Theorem family_identity_injective f1 f2 c1 c2 id :
  RepresentationFamilyId_ok f1 → RepresentationFamilyId_ok f2 →
  family_encode_canonical f1 = Ok c1 → family_encode_canonical f2 = Ok c2 → slice_len_ok c1 →
  representation_family_id f1 = Ok id → representation_family_id f2 = Ok id →
  f1 = f2 ∨ collides sha256_digest (family_message c1) (family_message c2).
Proof. apply family_id_inj. Qed.

(** An input cut identifies its whole history: equal cuts under one key mean equal
tokens, tenant, model identity and family identity, or two messages hashed on the way
collide under HMAC. *)
Theorem input_cut_identifies key t1 t2 s1 s2 f1 f2 tok1 tok2 aux1 aux2 fam1 fam2 cut n1 n2 :
  id_ok t1 → id_ok t2 → zlen tok1 < u64_bound → zlen tok2 < u64_bound →
  Forall in_u32 tok1 → Forall in_u32 tok2 →
  representation_family_id f1 = Ok fam1 → representation_family_id f2 = Ok fam2 →
  derive_input_cut key t1 s1 f1 tok1 aux1 = Ok (cut, n1) →
  derive_input_cut key t2 s2 f2 tok2 aux2 = Ok (cut, n2) →
  (tok1 = tok2 ∧ t1 = t2 ∧ semantic_model_id s1 = semantic_model_id s2 ∧ fam1 = fam2) ∨
  run_collision (hmac_sha256 key)
  (cut_messages key t1 s1 fam1 (auxiliary_input_root cut) tok1)
  (cut_messages key t2 s2 fam2 (auxiliary_input_root cut) tok2).
Proof. apply input_cut_binding. Qed.

(** Prefix reuse: a token list and an extension of it share the nodes of every complete
256-token block; node [i] counts the tokens up to the end of its block and is reusable
exactly when its block is complete. *)
Theorem prefix_chain_shared key tenant s f aux a b na nab k :
  zlen (a ++ b) < u64_bound → zlen a = Z.of_nat k * PREFIX_BLOCK_TOKENS →
  chain_prefix_nodes key tenant s f aux a = Ok na →
  chain_prefix_nodes key tenant s f aux (a ++ b) = Ok nab →
  (∃ nb, nab = na ++ nb) ∧
  Z.of_nat (length nab) = div_ceil (zlen (a ++ b)) PREFIX_BLOCK_TOKENS ∧
  ∀ i, Z.of_nat i * PREFIX_BLOCK_TOKENS < zlen (a ++ b) →
  ∃ id, nab !! i = Some (mkPrefixNode
    (Z.min ((Z.of_nat i + 1) * PREFIX_BLOCK_TOKENS) (zlen (a ++ b))) id
    ((Z.of_nat i + 1) * PREFIX_BLOCK_TOKENS <=? zlen (a ++ b))).
Proof.
  intros Hl Hk Ha Hab. split; [by eapply chain_prefix_extends|].
  apply chain_prefix_nodes_Ok in Hab as (context & _ & ->); [|done].
  rewrite length_expected_nodes, length_token_blocks. split; [done|]. intros i Hi.
  destruct (expected_nodes_lookup key context (hmac_sha256 key (root_message context)) (a ++ b) 0 i)
    as [id Hid]; [done..|]. exists id. rewrite Hid. do 3 f_equal; lia.
Qed.

(** C37: Streaming refinement: however the tokens are sliced, a fresh deriver emits, in
order, the cut identities of the whole token list as the specification computes them,
up to 512 cuts, and fails with the bound error beyond that, poisoned. *)
Theorem cut_chain_streaming key namespace p d slices :
  policy_u32 p → CutChainDeriver_new key namespace p = Ok d →
  if zlen (cut_chain key namespace p (concat slices)) <=? MAX_CUT_CHAIN_CUTS then
  ∃ d', push_all d slices = (Ok (cut_chain key namespace p (concat slices)), d')
  else ∃ d', push_all d slices = (Err (Bounds "cut chain exceeds 512 cuts"), d') ∧
       cc_poisoned d' = true.
Proof.
  intros Hp Hd. pose proof (push_all_spec slices d _ _ _ _ (new_represents _ _ _ _ Hp Hd)) as H.
  cbv zeta in H. unfold cut_chain. rewrite app_nil_l in H. case_match; [|done].
  destruct H as (new & d' & -> & -> & _). eauto.
Qed.

(** Policy validation decides the stride rules (nonzero strides, both strides divide
the head), and a poisoned deriver rejects every further call without changing. *)
Theorem cut_policy_decides p d tokens :
  policy_u32 p → cc_poisoned d = true →
  (CutStridePolicy_validate p = Ok tt ↔ policy_ok p) ∧
  push_tokens d tokens = (Err (Poisoned "cut chain deriver is poisoned"), d).
Proof. intros Hp Hd. split; [by apply policy_validate_Ok|by apply poisoned_rejects]. Qed.
End identities.

(** ** On the sample segment *)
Module IdentityWitnesses.
Import ToyInstances.

Lemma key_schedule_stable_witness :
  ∃ k1 k2, derive_with_epoch_root (Sample.id 1) (Sample.id 2) Sample.tenant 1 = Ok k1 ∧
  derive_with_epoch_root (Sample.id 1) (Sample.id 3) Sample.tenant 2 = Ok k2 ∧
  KeySchedule_ok k1 ∧ KeySchedule_ok k2 ∧ ks_namespace k1 = ks_namespace k2 ∧
  ks_prefix k1 = ks_prefix k2 ∧ ks_chunk_identity k1 = ks_chunk_identity k2.
Proof. apply key_schedule_stable; lia. Defined.
Lemma family_identity_injective_witness :
  Sample.family = Sample.family ∨
  collides sha256_digest (family_message Sample.family_canonical) (family_message Sample.family_canonical).
Proof.
  apply (family_identity_injective Sample.family Sample.family Sample.family_canonical
    Sample.family_canonical Sample.family_id);
    [apply SampleFacts.family_ok..| | | | |]; vm_compute; reflexivity.
Defined.
Definition tokens : list Z := [10; 20; 30].
Definition cut : InputCutId * list PrefixNode :=
  Sample.the (Sample.cut, [])
  (derive_input_cut (Sample.id 12) Sample.tenant Sample.semantic Sample.family tokens []).
Lemma tokens_ok : Forall in_u32 tokens.
Proof. repeat constructor; vm_compute; congruence. Qed.
Lemma input_cut_identifies_witness :
  (tokens = tokens ∧ Sample.tenant = Sample.tenant ∧
   semantic_model_id Sample.semantic = semantic_model_id Sample.semantic ∧
   Sample.family_id = Sample.family_id) ∨
  run_collision (hmac_sha256 (Sample.id 12))
  (cut_messages (Sample.id 12) Sample.tenant Sample.semantic Sample.family_id
     (auxiliary_input_root cut.1) tokens)
  (cut_messages (Sample.id 12) Sample.tenant Sample.semantic Sample.family_id
     (auxiliary_input_root cut.1) tokens).
Proof.
  apply (input_cut_identifies (Sample.id 12) Sample.tenant Sample.tenant Sample.semantic Sample.semantic
    Sample.family Sample.family tokens tokens [] [] Sample.family_id Sample.family_id cut.1 cut.2 cut.2);
    [exact SampleFacts.tenant_ok|exact SampleFacts.tenant_ok|reflexivity|reflexivity|exact tokens_ok|
    exact tokens_ok|exact SampleFacts.family_id_eq|exact SampleFacts.family_id_eq| |];
    vm_compute; reflexivity.
Defined.
Definition block : list Z := replicate 256 1.
Definition nodes (l : list Z) : list PrefixNode :=
  Sample.the [] (chain_prefix_nodes (Sample.id 12) Sample.tenant Sample.semantic Sample.family
  (Sample.id 42) l).
Lemma prefix_chain_shared_witness : ∃ nb, nodes (block ++ [2; 3]) = nodes block ++ nb.
Proof.
  apply (prefix_chain_shared (Sample.id 12) Sample.tenant Sample.semantic Sample.family (Sample.id 42)
    block [2; 3] (nodes block) (nodes (block ++ [2; 3])) 1); vm_compute; reflexivity.
Defined.
Definition deriver : result CutChainDeriver :=
  CutChainDeriver_new (Sample.id 1) (Sample.id 2) (TwoTier 4 2 4).
Lemma cut_chain_streaming_witness :
  ∃ d d', deriver = Ok d ∧
  push_all d [[1]; [2; 3]; [4; 5; 6; 7; 8; 9]] =
    (Ok (cut_chain (Sample.id 1) (Sample.id 2) (TwoTier 4 2 4) [1; 2; 3; 4; 5; 6; 7; 8; 9]), d').
Proof.
  destruct deriver as [d| |] eqn:E; [|discriminate E..]. exists d.
  destruct (cut_chain_streaming (Sample.id 1) (Sample.id 2) (TwoTier 4 2 4) d
    [[1]; [2; 3]; [4; 5; 6; 7; 8; 9]]) as [d' Hd'].
  - by split_and!.
  - exact E.
  - exists d'. split; [reflexivity|exact Hd'].
Defined.
Lemma cut_policy_decides_witness :
  ∃ d, deriver = Ok d ∧ policy_ok (Flat 256) ∧
  push_tokens (poison d) [1] = (Err (Poisoned "cut chain deriver is poisoned"), poison d).
Proof.
  destruct deriver as [d| |] eqn:E; [|discriminate E..]. exists d. split; [reflexivity|].
  destruct (cut_policy_decides (Flat 256) (poison d) [1]) as [Hp Hr]; [by split_and!|reflexivity|].
  split; [|exact Hr]. apply Hp. reflexivity.
Defined.
End IdentityWitnesses.
