(* ===== verification/ObjectProperties.v ===== *)
(** * What packs and chunk objects guarantee

    The contract of the two file formats: everything well-formed is encoded,
    what was encoded decodes to itself, what is accepted is bound to the bytes
    its tag, digest or reference covers, and no input makes the decoder panic. *)
From Stdlib Require Import ZArith Lia.
From stdpp Require Import base tactics numbers list strings option.
From S2P Require Import Prelude Bytes Canonical Wire State Identity Manifest Frame Deps Validator.
From S2P Require Import ValidatorLaws Crypto Ids Half Stats Chunk ChunkLaws Pack Samples.

Section objects.
Context `{CL : CryptoLaws}.

(** C1: Encoding is total on valid manifests within the size bound, sealed
or not, and the file it returns decodes, under the same keys and bounds, to the
manifest; [inspect_pack_header] reads the same identity without any key. *)
Theorem pack_roundtrip m keys encrypt ctx fill_salt fill_nonce canonical :
  CutManifest_ok m → validate_manifest m ctx = Ok tt →
  manifest_encode_canonical m = Ok canonical → zlen canonical ≤ MAX_MANIFEST_BYTES →
  random_ok encrypt fill_salt fill_nonce →
  ∃ p, encode_authenticated_pack m keys encrypt ctx fill_salt fill_nonce = Ok p ∧
  ep_manifest_id p = manifest_id canonical ∧
  decode_authenticated_pack (ep_bytes p) keys ctx = Ok m ∧
  inspect_pack_header (ep_bytes p) =
    Ok (mkPackHeader (cm_tenant_namespace m) (manifest_id canonical) (cm_key_epoch m)
          (zlen canonical + (if encrypt then 16 else 0)) (zlen canonical) encrypt).
Proof. apply pack_run. Qed.

(** C3: A decoded manifest satisfies the whole validity predicate, and
the file is exactly its header, its body and the footer determined by them, whose tag is
the HMAC of header, body, lengths and epoch; the header names the manifest's identity,
size, tenant and epoch. *)
Theorem pack_decode_sound b keys ctx m :
  bytes_ok b → decode_authenticated_pack b keys ctx = Ok m →
  manifest_valid m ctx ∧
  ∃ h header body canonical, authenticated_as b keys h header body ∧
  manifest_encode_canonical m = Ok canonical ∧ zlen canonical = ph_plaintext_manifest_bytes h ∧
  ph_manifest_id h = manifest_id canonical ∧ ph_tenant_namespace h = cm_tenant_namespace m ∧
  ph_key_epoch h = cm_key_epoch m ∧ (ph_encrypted h = false → body = canonical).
Proof. intros Hb H. by apply decode_pack_Ok in H as (_ & ? & ?). Qed.

(** C2: Tamper evidence: two accepted files that carry the same tag are the
same bytes, or the messages authenticated in them, header, body, lengths and epoch, are
themselves a collision of HMAC under the authentication key. *)
Theorem pack_tag_binding b1 b2 keys h1 h2 :
  bytes_ok b1 → bytes_ok b2 → slice_len_ok b1 → slice_len_ok b2 →
  verify_authenticated_pack b1 keys = Ok h1 → verify_authenticated_pack b2 keys = Ok h2 →
  pack_tag b1 = pack_tag b2 →
  b1 = b2 ∨ collides (hmac_sha256 (ks_manifest_auth keys)) (pack_message b1 h1) (pack_message b2 h2).
Proof. apply accepted_tag_binds. Qed.

(** C4: A well-formed chunk is always encoded, raw or lossless, sealed or
not, with or without a statistics sidecar, and the object decodes under the reference
that names it to the plaintext and the sidecar. *)
Theorem chunk_roundtrip plaintext e state keys fill_salt fill_nonce :
  encoding_ok plaintext e state → random_ok (ce_encrypt e) fill_salt fill_nonce →
  ∃ o, encode_chunk plaintext e keys fill_salt fill_nonce = Ok o ∧
  decode_chunk_with_stats (co_bytes o) (chunk_ref_of o (ce_key_epoch e)) (ce_span e)
    (ce_tenant_namespace e) (ce_family e) (ce_state_key e) keys =
  Ok (plaintext, ce_stats_sidecar e).
Proof.
  intros He Hr. destruct (encode_chunk_run plaintext e state keys _ _ He Hr) as (o & Ho & [R]).
  exists o. split; [done|]. by apply (decode_chunk_run plaintext e state).
Qed.

(** C5: An accepted object has the digest and the size of its reference,
and its plaintext has the content identity the reference carries for this tenant,
family, state and span. *)
Theorem chunk_decode_sound b expected span tenant family key keys p st :
  bytes_ok b → decode_chunk_with_stats b expected span tenant family key keys = Ok (p, st) →
  sha256_digest b = cr_object_digest expected ∧ zlen b = cr_object_bytes expected ∧
  chunk_id (ks_chunk_identity keys) tenant family key span p = Ok (cr_chunk_id expected) ∧
  zlen p = cr_plaintext_bytes expected ∧ bytes_ok p ∧ (∀ s, st = Some s → sidecar_ok s).
Proof. apply decode_chunk_Ok. Qed.

(** A content identity names one tenant, family, state, span and
plaintext: two accepted objects whose references carry the same content identity agree
on all of them, or the two content messages collide under HMAC. *)
Theorem chunk_reference_binding b1 b2 r1 r2 s1 s2 t1 t2 f1 f2 k1 k2 keys p1 p2 st1 st2 i1 i2 :
  bytes_ok b1 → bytes_ok b2 → id_ok t1 → id_ok t2 → StateKey_ok k1 → StateKey_ok k2 →
  ChunkSpan_ok s1 → ChunkSpan_ok s2 →
  representation_family_id f1 = Ok i1 → representation_family_id f2 = Ok i2 →
  decode_chunk_with_stats b1 r1 s1 t1 f1 k1 keys = Ok (p1, st1) →
  decode_chunk_with_stats b2 r2 s2 t2 f2 k2 keys = Ok (p2, st2) →
  cr_chunk_id r1 = cr_chunk_id r2 →
  (t1 = t2 ∧ i1 = i2 ∧ k1 = k2 ∧ s1 = s2 ∧ p1 = p2) ∨
  collides (hmac_sha256 (ks_chunk_identity keys)) (chunk_message t1 i1 k1 s1 p1)
  (chunk_message t2 i2 k2 s2 p2).
Proof.
  intros B1 B2 T1 T2 K1 K2 S1 S2 F1 F2 D1 D2 Hr.
  apply decode_chunk_Ok in D1 as (_ & _ & C1 & _); [|done]. apply decode_chunk_Ok in D2 as (_ & _ & C2 & _); [|done].
  apply chunk_id_Ok in C1 as (? & F1' & P1 & _ & _ & _ & E1). apply chunk_id_Ok in C2 as (? & F2' & P2 & _ & _ & _ & E2).
  rewrite F1 in F1'. apply Ok_inj in F1' as <-. rewrite F2 in F2'. apply Ok_inj in F2' as <-.
  pose proof (representation_family_id_ok _ _ F1). pose proof (representation_family_id_ok _ _ F2).
  rewrite Hr, E2 in E1. apply eq_sym, hash_eq_or_collides in E1 as [He|Hc]; [left|by right].
  by apply chunk_message_inj in He.
Qed.

(** No byte string makes the readers of stored objects panic: the pack decoder, the pack
verifier, the header inspection and the chunk decoder. *)
Theorem readers_no_panic b keys ctx expected span tenant family key :
  bytes_ok b → RepresentationFamilyId_ok family →
  ¬ panics (decode_authenticated_pack b keys ctx) ∧ ¬ panics (verify_authenticated_pack b keys) ∧
  ¬ panics (inspect_pack_header b) ∧
  ¬ panics (decode_chunk_with_stats b expected span tenant family key keys).
Proof.
  intros Hb Hf. split_and!; [by apply decode_pack_no_panic|apply verify_pack_no_panic|
    apply inspect_pack_header_no_panic|by apply decode_chunk_no_panic].
Qed.
End objects.

(** ** On the sample segment *)
Module ObjectWitnesses.
Import ToyInstances.

Lemma pack_roundtrip_witness :
  ∃ p, encode_authenticated_pack Sample.manifest Sample.keys true Sample.context
       (Some Sample.salt) (Some Sample.nonce) = Ok p ∧
  decode_authenticated_pack (ep_bytes p) Sample.keys Sample.context = Ok Sample.manifest.
Proof.
  destruct (pack_roundtrip Sample.manifest Sample.keys true Sample.context (Some Sample.salt)
    (Some Sample.nonce) Sample.canonical SampleFacts.manifest_ok SampleFacts.valid
    SampleFacts.canonical_eq SampleFacts.canonical_size SampleFacts.random_ok_sample)
    as (p & E & _ & D & _).
  exists p. split; [exact E|exact D].
Defined.
Lemma pack_decode_sound_witness : manifest_valid Sample.manifest Sample.context.
Proof.
  apply (pack_decode_sound Sample.pack Sample.keys Sample.context Sample.manifest).
  - apply SampleFacts.pack_bytes.
  - vm_compute. reflexivity.
Defined.
(** The toy hash is linear: six bytes of the sealed body can be changed so that
    the tag stays, which exhibits the collision. *)
Definition forged : bytes := patch Sample.pack 4316 [58; 43; 1; 72; 66; 74].
Definition header_of (b : bytes) : PackHeader :=
  match verify_authenticated_pack b Sample.keys with
  | Ok h => h
  | _ => mkPackHeader [] [] 0 0 0 false
  end.
Lemma pack_tag_binding_witness :
  pack_tag Sample.pack = pack_tag forged ∧
  collides (hmac_sha256 (ks_manifest_auth Sample.keys))
    (pack_message Sample.pack (header_of Sample.pack)) (pack_message forged (header_of forged)).
Proof.
  assert (pack_tag Sample.pack = pack_tag forged) as Ht by (vm_compute; reflexivity).
  split; [exact Ht|].
  destruct (pack_tag_binding Sample.pack forged Sample.keys (header_of Sample.pack) (header_of forged))
    as [E|H].
  - apply SampleFacts.pack_bytes.
  - apply bytes_okb_ok. vm_compute. reflexivity.
  - apply SampleFacts.pack_bytes.
  - vm_compute. reflexivity.
  - vm_compute. reflexivity.
  - vm_compute. reflexivity.
  - exact Ht.
  - exfalso. apply (f_equal (λ b, index (E:=PackError) b 4316)) in E. vm_compute in E. discriminate E.
  - exact H.
Defined.
Lemma chunk_roundtrip_witness :
  ∃ o, encode_chunk Sample.plain_k Sample.encoding_k Sample.keys (Some Sample.salt)
       (Some Sample.nonce) = Ok o ∧
  decode_chunk_with_stats (co_bytes o) (chunk_ref_of o 3) Sample.span Sample.tenant
    Sample.family Sample.key_k Sample.keys = Ok (Sample.plain_k, Some Sample.sidecar).
Proof.
  apply (chunk_roundtrip Sample.plain_k Sample.encoding_k Sample.state_k).
  - apply SampleFacts.encoding_k_ok.
  - apply SampleFacts.random_ok_sample.
Defined.
Lemma chunk_decode_sound_witness :
  sha256_digest (co_bytes Sample.object_k) = co_object_digest Sample.object_k.
Proof.
  apply (chunk_decode_sound (co_bytes Sample.object_k) (chunk_ref_of Sample.object_k 3) Sample.span
    Sample.tenant Sample.family Sample.key_k Sample.keys Sample.plain_k (Some Sample.sidecar)).
  - apply SampleFacts.object_k_bytes.
  - apply SampleFacts.decode_k.
Defined.
Lemma chunk_reference_binding_witness :
  (Sample.tenant = Sample.tenant ∧ Sample.family_id = Sample.family_id ∧
   Sample.key_k = Sample.key_k ∧ Sample.span = Sample.span ∧ Sample.plain_k = Sample.plain_k) ∨
  collides (hmac_sha256 (ks_chunk_identity Sample.keys))
  (chunk_message Sample.tenant Sample.family_id Sample.key_k Sample.span Sample.plain_k)
  (chunk_message Sample.tenant Sample.family_id Sample.key_k Sample.span Sample.plain_k).
Proof.
  exact (chunk_reference_binding (co_bytes Sample.object_k) (co_bytes Sample.object_k)
    (chunk_ref_of Sample.object_k 3) (chunk_ref_of Sample.object_k 3) Sample.span Sample.span
    Sample.tenant Sample.tenant Sample.family Sample.family Sample.key_k Sample.key_k Sample.keys
    Sample.plain_k Sample.plain_k (Some Sample.sidecar) (Some Sample.sidecar)
    Sample.family_id Sample.family_id
    SampleFacts.object_k_bytes SampleFacts.object_k_bytes SampleFacts.tenant_ok SampleFacts.tenant_ok
    SampleFacts.key_k_ok SampleFacts.key_k_ok SampleFacts.span_ok SampleFacts.span_ok
    SampleFacts.family_id_eq SampleFacts.family_id_eq SampleFacts.decode_k SampleFacts.decode_k eq_refl).
Defined.
Lemma readers_no_panic_witness :
  ¬ panics (decode_authenticated_pack (zeros 4096) Sample.keys Sample.context) ∧
  ¬ panics (decode_chunk_with_stats (zeros 4096) (chunk_ref_of Sample.object_k 3) Sample.span
            Sample.tenant Sample.family Sample.key_k Sample.keys).
Proof.
  destruct (readers_no_panic (zeros 4096) Sample.keys Sample.context (chunk_ref_of Sample.object_k 3)
    Sample.span Sample.tenant Sample.family Sample.key_k) as (H1 & _ & _ & H2);
    [apply bytes_ok_zeros|apply SampleFacts.family_ok|].
  split; [exact H1|exact H2].
Defined.
End ObjectWitnesses.
