(* ===== verification/NumericProperties.v ===== *)
(** * Binary16 conversion (crates/kvpack-core/src/half.rs)

    Values are compared exactly, as multiples of the smallest subnormal:
    [f16_units] in units of 2^-24 and [f32_units] in units of 2^-149. *)
From Stdlib Require Import ZArith Lia.
From stdpp Require Import base tactics numbers list.
From S2P Require Import Prelude Bytes Half.

(** Widening is exact on every finite binary16 value, keeps finiteness, and narrowing
    undoes it on all 65536 bit patterns (every NaN becomes the canonical NaN). *)
Theorem half_widening_exact h :
  in_u16 h →
  (f16_finite h = true → f32_units (f16_to_f32 h) = f16_units h * 2 ^ 125) ∧
  f32_is_finite (f16_to_f32 h) = f16_finite h ∧
  f32_to_f16 (f16_to_f32 h) = (if f16_is_nan h then 32256 else h).
Proof.
  intros Hh. split_and!; [by apply f16_to_f32_exact|by apply f16_to_f32_finite|].
  apply Z.eqb_eq. exact (all_u16_spec _ h f16_roundtrip_all Hh).
Qed.

(** C38: Narrowing rounds to nearest, ties to even, from 2^-24 up and below 2^-25:
    for a binary32 value of sign [s], biased exponent [e] and mantissa [m], the
    result is within half a unit in the last place of the binary16 grid when
    103 <= e <= 142, ties to even; larger finite values become infinity, and values
    of magnitude at most 2^-25 (half of the smallest subnormal, where zero is
    nearest or the even side of the tie) become zero, with the sign kept.  Nothing
    is claimed strictly between 2^-25 and 2^-24, where the code returns zero
    although the smallest subnormal is nearer ([half_narrowing_tiny]). *)
Theorem half_narrowing_nearest s e m :
  sign_ok s → 0 ≤ e < 255 → 0 ≤ m < 8388608 →
  let x := f32_pack s e m in
  (103 ≤ e ≤ 142 →
     2 * Z.abs (f16_units (f32_to_f16 x) * 2 ^ 125 - f32_units x) ≤ 2 ^ (125 + Z.max 0 (e - 113)) ∧
     ∃ mag, f32_to_f16 x = s * 32768 + mag ∧
       nearest_even (8388608 + m) (13 + Z.max 0 (113 - e)) (f16_magnitude mag / 2 ^ Z.max 0 (e - 113))) ∧
  (142 < e → f32_to_f16 x = s * 32768 + 31744) ∧
  (e < 102 ∨ e = 102 ∧ m = 0 → f32_to_f16 x = s * 32768).
Proof.
  intros Hs He Hm x. split_and!; intros.
  - split; [by apply f32_to_f16_error|].
    destruct (f32_to_f16_pack s e m) as (mag & Hx & _ & Hn & _); [done..|]. by exists mag.
  - apply f32_to_f16_overflow; [done|lia|done].
  - apply f32_to_f16_underflow; [done|lia|done].
Qed.

(** Just above half of the smallest subnormal (bits 0x33000001) narrowing returns zero,
    although the smallest subnormal is strictly nearer. *)
Lemma half_narrowing_tiny :
  f32_to_f16 855638017 = 0 ∧
  Z.abs (f16_units 1 * 2 ^ 125 - f32_units 855638017) <
  Z.abs (f16_units (f32_to_f16 855638017) * 2 ^ 125 - f32_units 855638017).
Proof. by vm_compute. Qed.

Module NumericWitnesses.
Lemma half_widening_exact_witness : f32_units (f16_to_f32 15360) = f16_units 15360 * 2 ^ 125.
Proof. apply (half_widening_exact 15360); [split|]; vm_compute; congruence. Defined.
Lemma half_narrowing_nearest_witness :
  2 * Z.abs (f16_units (f32_to_f16 (f32_pack 0 127 1)) * 2 ^ 125 - f32_units (f32_pack 0 127 1))
  ≤ 2 ^ (125 + Z.max 0 (127 - 113)).
Proof. apply (half_narrowing_nearest 0 127 1); [split|..]; lia. Defined.
End NumericWitnesses.
