(* ===== verification/TransformProperties.v ===== *)
(** * Repack transforms: canonical descriptors, exact and invertible execution *)
From Stdlib Require Import ZArith Lia.
From stdpp Require Import base tactics numbers list strings option.
From S2P Require Import Prelude Bytes Canonical Wire State Validator Crypto Transform Exec.
From S2P Require Import ExecOps.

(** The transform decoder, which never compares with a fresh encoding, accepts exactly the
    encodings of the descriptors its types allow, and an encoding exists exactly for the
    descriptors that satisfy the documented bounds; it never panics. *)
Theorem transform_canonical b d :
  bytes_ok b → slice_len_ok b → TransformDescriptor_typed d →
  (transform_decode b = Ok d ↔ transform_encode d = Ok b) ∧
  ((∃ c, transform_encode d = Ok c) ↔ transform_valid d) ∧
  ¬ panics (transform_decode b).
Proof.
  intros Hb Hl Hd. split_and!.
  - rewrite transform_decode_Ok by done. naive_solver.
  - split; [|intros Hv; destruct (transform_encode_total d Hd Hv) as (c & Hc & _); by exists c].
    intros [c Hc]. unfold transform_encode in Hc. inv_ok. destruct x.
    by apply transform_validate_Ok.
  - by apply transform_decode_no_panic.
Qed.

(** The executor applies an operation exactly when the operation is valid, the plane has the
    declared shape and the operation addresses it exactly (a permutation that divides it, a
    matching head dimension; never a dtype cast), and it never panics; pad-or-trim yields the
    plane resized to its target. *)
Theorem repack_op_accepted op s plane :
  RepackOp_typed op → shape_typed s →
  ((∃ out, apply_repack_op op s plane = Ok out) ↔
    RepackOp_valid op ∧ plane_fits s plane ∧ op_fits op s (zlen plane)) ∧
  ¬ panics (apply_repack_op op s plane) ∧
  (∀ t out, op = PadOrTrim t → apply_repack_op op s plane = Ok out → out = vec_resize plane t).
Proof.
  intros Hty Hs. split_and!; [by apply apply_Ok_iff|by apply apply_no_panic|].
  intros t out -> H. pose proof H as (Hv & Hp & _)%apply_Ok_fits; [|done..].
  rewrite pad_or_trim_Ok in H by done. by inv_ok.
Qed.

(** C39: A transform of exact operations only moves bytes: the output is a permutation of the
    plane, every operation has an inverse, and the transform whose operations are those
    inverses in reverse order is valid and restores the plane byte for byte. *)
Theorem transform_inverse d s plane out :
  TransformDescriptor_typed d → shape_typed s → Forall (λ op, exact_op op = true) (ops d) →
  apply_transform d s plane = Ok out →
  out ≡ₚ plane ∧
  ∃ back, Forall2 (λ op inv, inverse_repack_op op = Ok (Some inv)) (reverse (ops d)) back ∧
    apply_transform (mkTransformDescriptor (schema_version d) (td_name d) (source_layout d) back) s out
    = Ok plane.
Proof.
  intros Hd Hs He H. unfold apply_transform in H. inv_ok. destruct x.
  match goal with Hv : transform_validate d = _ |- _ => apply transform_validate_Ok in Hv as
    (Hsv & Hn & Hl & Hc & _); [|done] end.
  pose proof Hd as (Htn & Htl & Hto).
  destruct (apply_ops_inverse (ops d) s plane out) as (back & Hb & Hbt & Hbv & Hba & Hbp); [done..|].
  split; [done|]. exists back. split; [done|]. unfold apply_transform.
  assert (zlen back = zlen (ops d)) as Hlen
    by (apply Forall2_length in Hb; rewrite length_reverse in Hb; unfold zlen; lia).
  match goal with |- context [transform_validate ?d'] =>
    assert (TransformDescriptor_typed d') as Hd' by by split_and! end.
  rewrite (proj2 (transform_validate_Ok _ Hd')); [done|].
  split_and!; try done. simpl. lia.
Qed.

(** ** A concrete transform *)
Module TransformSample.
Definition shape : KvPlaneShape := mkKvPlaneShape 1 4 4 1.
Definition plane : bytes := seqZ 0 16.
Definition descriptor : TransformDescriptor :=
  mkTransformDescriptor 1 (ascii_bytes "swap") (ascii_bytes "neox")
  [PermuteHeadPairs [1; 0]; ReorderPlanes [2; 0; 3; 1]; RopePermute NeoxToInterleaved 4].
Definition encoded : bytes := Eval vm_compute in
  match transform_encode descriptor with Ok b => b | _ => [] end.
Definition output : bytes := Eval vm_compute in
  match apply_transform descriptor shape plane with Ok b => b | _ => [] end.

Lemma descriptor_typed : TransformDescriptor_typed descriptor.
Proof.
  split_and!; [split; [by apply bytes_okb_ok|reflexivity]..|].
  unfold descriptor; simpl. unfold order_typed. repeat constructor; unfold u32_bound; simpl; lia.
Qed.
Lemma shape_ok : shape_typed shape.
Proof. repeat split; simpl; unfold u32_bound; lia. Qed.
End TransformSample.

Module TransformWitnesses.
Import TransformSample.
Lemma transform_canonical_witness :
  transform_decode encoded = Ok descriptor ∧ transform_valid descriptor.
Proof.
  destruct (transform_canonical encoded descriptor) as (Hc & Hv & _);
    [by apply bytes_okb_ok|vm_compute; reflexivity|exact descriptor_typed|].
  split; [apply Hc; vm_compute; reflexivity|].
  apply Hv. exists encoded. vm_compute. reflexivity.
Defined.
Lemma repack_op_accepted_witness :
  (∃ out, apply_repack_op (RegroupLayers [1; 0]) shape plane = Ok out) ∧
  ¬ (∃ out, apply_repack_op (RegroupLayers [1; 2; 0]) shape plane = Ok out).
Proof.
  assert (∀ o, Forall (λ i, 0 ≤ i < 3) o → order_typed o) as Ho.
  { intros o H. eapply list.Forall_impl; [exact H|]. intros i Hi. range_lia. }
  destruct (repack_op_accepted (RegroupLayers [1; 0]) shape plane) as (H1 & _);
    [apply Ho; repeat constructor; lia|exact shape_ok|].
  destruct (repack_op_accepted (RegroupLayers [1; 2; 0]) shape plane) as (H2 & _);
    [apply Ho; repeat constructor; lia|exact shape_ok|].
  split.
  - apply H1. split; [split; [vm_compute; split; done|]|].
    + apply permutation_of_bounded; [apply (bool_decide_unpack _); reflexivity|repeat constructor; done].
    + split; [vm_compute; split_and!; done|by exists 8].
  - intros (_ & _ & [k Hk])%H2. change (16 = k * 3) in Hk. lia.
Defined.
Lemma transform_inverse_witness :
  apply_transform descriptor shape plane = Ok output ∧ output ≡ₚ plane.
Proof.
  assert (apply_transform descriptor shape plane = Ok output) as H by (vm_compute; reflexivity).
  split; [exact H|].
  apply (transform_inverse descriptor shape plane output);
    [exact descriptor_typed|exact shape_ok|repeat constructor|exact H].
Defined.
End TransformWitnesses.
