(* ===== verification/RotationProperties.v ===== *)
(** * Rotation families: canonical descriptors, the pinned table, family binding *)
From Stdlib Require Import ZArith Lia.
From stdpp Require Import base tactics numbers list strings option.
From S2P Require Import Prelude Bytes Canonical Wire State Identity Crypto Ids Rotation Samples.

Section properties.
Context `{C : Crypto}.

(** The rotation decoder accepts exactly the encodings of descriptors, a descriptor has an
encoding exactly when it satisfies the documented rules (even bounded dimension, matching
table, nonzero identities, authenticated table hash, no zero increment, not a lifted 32-bit
table), and decoding never panics. *)
Theorem rotation_canonical b d :
  bytes_ok b → slice_len_ok b → rotation_typed d →
  (rotation_decode_canonical b = Ok d ↔ rotation_encode_canonical d = Ok b) ∧
  ((∃ c, rotation_encode_canonical d = Ok c) ↔ rotation_valid d) ∧
  ¬ panics (rotation_decode_canonical b).
Proof.
  intros Hb Hl Hd. split_and!.
  - rewrite rotation_decode_Ok by done. naive_solver.
  - split; [|intros Hv; destruct (rotation_encode_total d Hd Hv) as (c & Hc & _); by exists c].
    intros [c Hc]. unfold rotation_encode_canonical in Hc. inv_ok. destruct x.
    by apply rotation_validate_Ok.
  - by apply rotation_decode_no_panic.
Qed.

(** Binding a rotation into families is injective: families bound to descriptors can only
agree when both the families and the descriptors agree, or one of the two hashed messages
collides under SHA-256; the absent hook changes nothing, and a present one changes only the
engine-cache ABI. *)
Theorem rotation_binding f1 f2 d1 d2 c1 c2 i1 i2 :
  id_ok (engine_cache_abi f1) → id_ok (engine_cache_abi f2) →
  rotation_typed d1 → rotation_typed d2 →
  rotation_encode_canonical d1 = Ok c1 → rotation_encode_canonical d2 = Ok c2 →
  hook_from_descriptor d1 = Ok (Some i1) → hook_from_descriptor d2 = Ok (Some i2) →
  bind_representation_family f1 (Some i1) = bind_representation_family f2 (Some i2) →
  bind_representation_family f1 None = f1 ∧
  ((f1 = f2 ∧ d1 = d2) ∨
   collides sha256_digest (rotation_message c1) (rotation_message c2) ∨
   collides sha256_digest (bound_abi_message (engine_cache_abi f1) i1)
                        (bound_abi_message (engine_cache_abi f2) i2)).
Proof.
  intros A1 A2 T1 T2 E1 E2 H1 H2 Hb. split; [by destruct f1|].
  assert (∀ d i, hook_from_descriptor d = Ok (Some i) → rotation_identity d = Ok i) as Hh.
  { intros d i H. unfold hook_from_descriptor in H. inv_ok. naive_solver. }
  apply Hh in H1, H2. destruct f1 as [a1 m1 p1 t1 s1 l1], f2 as [a2 m2 p2 t2 s2 l2].
  injection Hb as Ha -> -> -> -> ->. cbn [engine_cache_abi] in *.
  apply hash_eq_or_collides in Ha as [Ha|Ha]; [|tauto].
  apply bound_abi_inj in Ha as [Ha ->]; [|done..].
  destruct (rotation_identity_inj d1 d2 c1 c2 i2) as [->|?]; [done..| |tauto].
  left. by subst.
Qed.

(** The pinned Qwen2.5 table is a valid descriptor for every nonzero model identity, as soon
as SHA-256 maps the table to its pinned digest; otherwise the constructor reports an error
instead of a descriptor. *)
Theorem rotation_pinned id :
  id_ok id →
  ((∃ d, pinned_qwen25 id = Ok d) ↔
  id ≠ ZERO_ID ∧ sha256_digest (put_list put_u64 QWEN25_FRAC64) = QWEN25_FRAC64_TABLE_SHA256) ∧
  (∀ d, pinned_qwen25 id = Ok d →
  rotation_valid d ∧ rotary_dimension d = 128 ∧ model_representation_id d = id ∧
  frac64_le d = put_list put_u64 QWEN25_FRAC64 ∧ frac64_sha256 d = QWEN25_FRAC64_TABLE_SHA256).
Proof.
  intros Hid. unfold pinned_qwen25, rotation_new.
  set (table := put_list put_u64 QWEN25_FRAC64).
  set (v := mkRotationFamilyDescriptorV1 _ _ _ _ _ _ _ _ _ _ _ _ _ _).
  assert (rotation_valid v ↔ id ≠ ZERO_ID) as Hv.
  { split; [by intros (_ & _ & _ & ? & _)|]. intros Hn. unfold rotation_valid, v.
    cbn [rotary_dimension frac64_le model_representation_id coefficient_set_sha256 frac64_sha256].
    split_and!; try done; try (by exists 64); apply (bool_decide_unpack _); vm_compute; reflexivity. }
  assert (∀ d, (x ← (_ ← rotation_validate v; Ok v);
    if negb (bytes_eqb (frac64_sha256 x) QWEN25_FRAC64_TABLE_SHA256) then
    Err (Semantics "pinned qwen2.5 rotation table hash does not match its family constant")
    else Ok x) = Ok d ↔ d = v ∧ rotation_valid v ∧ sha256_digest table = QWEN25_FRAC64_TABLE_SHA256) as Hd.
  { intros d. rewrite <- rotation_validate_Ok. split.
    - intros H. inv_ok. destruct x0. subst. split_and!; [done..|].
      match goal with H : negb _ = false |- _ => apply negb_false_iff, bytes_eqb_eq in H end. done.
    - intros (-> & Hval & Hs). rewrite Hval. cbn [mbind outcome_bind].
      change (frac64_sha256 v) with (sha256_digest table). by rewrite Hs, bytes_eqb_refl. }
  split.
  - setoid_rewrite Hd. rewrite <- Hv. naive_solver.
  - intros d (-> & ? & ?)%Hd. done.
Qed.
End properties.

Module RotationWitnesses.
(** SHA-256 replaced by a function with the pinned digest of the table. *)
Definition pinned_crypto : Crypto := {|
  sha256_digest m := if bytes_eqb m (put_list put_u64 QWEN25_FRAC64) then QWEN25_FRAC64_TABLE_SHA256
                   else Toy.hash m;
  hmac_sha256 k m := Toy.hash (k ++ m);
  hkdf_expand salt ikm info := Some (Toy.hash (salt ++ ikm ++ info));
  aead_encrypt := Toy.seal;
  aead_decrypt := Toy.unseal
  |}.
Definition model : bytes := replicate 32 9.
Definition no_descriptor : RotationFamilyDescriptorV1 :=
  mkRotationFamilyDescriptorV1 FixedQ30Degree7Degree6V1 [] FixedQ30HornerV1 PhaseZero
  ZeroBasedAbsolute NeoxHalfSplit PreserveIeee NearestTiesEven NearestTiesEvenPreserveSubnormals
  FmaWithRoundedCrossProductV1 0 [] [] [].
Definition descriptor : RotationFamilyDescriptorV1 :=
  Sample.the no_descriptor (pinned_qwen25 (H:=pinned_crypto) model).
Definition encoded : bytes :=
  Sample.the [] (rotation_encode_canonical (H:=pinned_crypto) descriptor).
Definition identity : bytes :=
  Sample.the [] (rotation_identity (H:=pinned_crypto) descriptor).
Lemma model_ok : id_ok model.
Proof. by split; [|apply bytes_okb_ok]. Qed.
Lemma encoded_eq : rotation_encode_canonical (H:=pinned_crypto) descriptor = Ok encoded.
Proof. vm_compute. reflexivity. Qed.
Lemma rotation_sample_typed : rotation_typed descriptor.
Proof.
  assert (bytes_okb (coefficient_set_sha256 descriptor) && bytes_okb (model_representation_id descriptor)
    && bytes_okb (frac64_sha256 descriptor) && bytes_okb (frac64_le descriptor) = true) as H
    by (vm_compute; reflexivity).
  bools. split_and!; [vm_compute; split; congruence|..];
    first [split; [vm_compute; reflexivity|by apply bytes_okb_ok]|by apply bytes_okb_ok].
Qed.

Lemma rotation_canonical_witness :
  rotation_decode_canonical (H:=pinned_crypto) encoded = Ok descriptor ∧
  rotation_valid (H:=pinned_crypto) descriptor.
Proof.
  destruct (rotation_canonical (C:=pinned_crypto) encoded descriptor) as (Hc & Hv & _);
    [apply bytes_okb_ok; vm_compute; reflexivity|vm_compute; reflexivity|exact rotation_sample_typed|].
  split; [apply Hc; exact encoded_eq|]. apply Hv. exists encoded. exact encoded_eq.
Defined.
Lemma rotation_binding_witness :
  bind_representation_family (H:=pinned_crypto) Sample.family None = Sample.family.
Proof.
  apply (rotation_binding (C:=pinned_crypto) Sample.family Sample.family descriptor descriptor
    encoded encoded identity identity);
    [apply SampleFacts.family_ok..|exact rotation_sample_typed|exact rotation_sample_typed|exact encoded_eq|exact encoded_eq
    |vm_compute; reflexivity|vm_compute; reflexivity|reflexivity].
Defined.
Lemma rotation_pinned_witness : ∃ d, pinned_qwen25 (H:=pinned_crypto) model = Ok d.
Proof.
  destruct (rotation_pinned (C:=pinned_crypto) model model_ok) as [H _].
  apply H. split; [vm_compute; congruence|vm_compute; reflexivity].
Defined.
End RotationWitnesses.
