(* ===== verification/QuantProperties.v ===== *)
(** * Quantization: canonical tensors and what quantizing produces *)
From Stdlib Require Import ZArith Lia Floats.SpecFloat.
From stdpp Require Import base tactics numbers list strings option.
From S2P Require Import Prelude Bytes Canonical Wire State Validator ValidatorLaws Half Stats.
From S2P Require Import Quant QuantCodec Samples.

(** The tensor decoder accepts exactly the encodings of well-formed tensors: admissible
    configuration and dimensions, one finite non-negative scale and one finite zero point per
    group, exactly the packed bytes the shape needs, clear padding bits and only zero codes in
    zero-scale groups; a decoded tensor dequantizes cell by cell, and decoding never panics. *)
Theorem quant_canonical b t :
  bytes_ok b → slice_len_ok b →
  (quant_decode_canonical b = Ok t ↔ tensor_wf t ∧ quant_encode_canonical t = Ok b) ∧
  ¬ panics (quant_decode_canonical b) ∧
  (tensor_wf t → ∃ out, tensor_decode t = Ok out ∧ zlen out = qt_rows t * qt_cols t ∧
    ∀ k, 0 ≤ k < qt_rows t * qt_cols t → ∃ c s, code_at t k = Some c ∧ scale_at t k = Some s ∧
      0 ≤ c < levels (qt_config t) ∧
      out !! Z.to_nat k = Some (dequantize (f16_to_f32 s.1) (f16_to_f32 s.2) c)).
Proof.
  intros Hb Hl. split_and!; [by apply quant_decode_Ok|by apply quant_decode_no_panic|].
  intros [Hs _]. destruct (tensor_decode_Ok t Hs) as (out & Ho & Hlen & Hall). exists out. split_and!; [done..|].
  intros k Hk. destruct (code_at_Some t Hs k Hk) as (c & Hc & Hcr). destruct (scale_at_Some t Hs k Hk) as (s & Hsk & _).
  exists c, s. split_and!; try done; try apply Hcr; [|by apply Hall].
  unfold levels. rewrite Z.shiftl_1_l. apply Hcr.
Qed.

(** C40: Quantizing a finite matrix of an admissible shape always succeeds; every cell's code is
    its quotient by the scale of its own group, rounded and clamped; the encoding of the result
    is read back exactly when all scales and zero points are finite in half precision. *)
Theorem quantize_roundtrip values rows cols config axis :
  config_ok config → dims_ok rows cols → zlen values = rows * cols → Forall in_u32 values →
  Forall (λ v, f32_is_finite v = true) values →
  ∃ t b, quantize values rows cols config axis = Ok t ∧ quant_encode_canonical t = Ok b ∧
    (∀ k, 0 ≤ k < rows * cols → ∃ s, scale_at t k = Some s ∧
      code_at t k = Some (quantize_code config (f16_to_f32 s.1) (f16_to_f32 s.2) (values !!! Z.to_nat k))) ∧
    (quant_decode_canonical b = Ok t ↔
      Forall (λ p, f32_is_finite (f16_to_f32 p.1) = true ∧ f32_is_finite (f16_to_f32 p.2) = true) (qt_scales t)).
Proof.
  intros Hcfg Hd Hlen Ht Hf. destruct (quantize_Ok values rows cols config axis) as (w & Hq & Hw); [done..|].
  set (t := mkQuantizedTensor axis config rows cols _ _) in Hq.
  change t with (quantized values rows cols config axis w) in Hq.
  eexists _, _. split; [exact Hq|]. split; [reflexivity|].
  assert (0 < rows ∧ 0 < cols) as [Hr Hc] by (destruct Hd as (? & ? & _); lia).
  split.
  - intros k Hk. eexists. split; [by apply quantized_scale|].
    rewrite (quantized_code values rows cols config axis w Hw) by done. unfold flat_code, cell_code.
    by rewrite (line_cell_flat values rows cols config axis).
  - rewrite <- (quantized_shape values rows cols config axis) by done.
    destruct (quant_encode_bytes (quantized values rows cols config axis w)) as [Hbo Hbl].
    { apply (wr_bytes _ _ _ Hw). }
    { simpl. rewrite (wr_len _ _ _ Hw). unfold zlen. rewrite length_fmap, length_seqZ, Z2Nat.id by nia.
      apply (packed_len_bounds rows cols); [done|apply Hcfg]. }
    { simpl. unfold zlen. rewrite length_fmap, length_seqZ.
      pose proof (group_total_bounds axis rows cols (qc_group_size config) Hd ltac:(apply Hcfg)) as Hgt.
      unfold group_total in Hgt. lia. }
    rewrite quant_decode_Ok by done. unfold tensor_wf.
    pose proof (quantized_packing values rows cols config axis Hcfg Hd w Hw). naive_solver.
Qed.

(** A finite row whose spread exceeds what a half-precision scale can hold is quantized to an
    infinite scale, which the decoder of the canonical form rejects. *)
Lemma quantize_infinite_scale :
  let values := [0; 1232348160] in
  match quantize values 1 2 (mkQuantConfig 4 2) PerToken with
  | Ok t => match quant_encode_canonical t with
            | Ok b => qt_scales t = [(31744, 0)] ∧ quant_decode_canonical b =
                      Err (Semantics "quantized tensor scale or zero-point is invalid")
            | _ => False
            end
  | _ => False
  end.
Proof. vm_compute. split; reflexivity. Qed.

(** The documented bound fails when the scale underflows: for the row [0, 2^-22] at 4 bits both
    elements decode to zero, and the error of the second exceeds the bound for its range. *)
Lemma error_bound_underflow :
  let tiny := 880803840 in
  let config := mkQuantConfig 4 2 in
  match quantize [0; tiny] 1 2 config PerToken with
  | Ok t => tensor_decode t = Ok [0; 0] ∧
      SFltb (error_bound config (f32_sub (f32_to_sf tiny) (f32_to_sf 0)) (f32_to_sf 0))
            (f32_sub (f32_to_sf tiny) (f32_to_sf 0)) = true
  | _ => False
  end.
Proof. vm_compute. split; reflexivity. Qed.

Module QuantSample.
(** The matrix [[0, 1, 2, 3], [10, -5, 7, 8]] as binary32. *)
Definition values : list Z := Eval vm_compute in (λ n, f32_of_sf (f32_of_int n)) <$> [0; 1; 2; 3; 10; -5; 7; 8].
Definition config : QuantConfig := mkQuantConfig 4 2.
Definition no_tensor : QuantizedTensor := mkQuantizedTensor PerToken config 0 0 [] [].
Definition tensor : QuantizedTensor :=
  Eval vm_compute in Sample.the no_tensor (quantize values 2 4 config PerToken).
Definition tensor_bytes : bytes := Eval vm_compute in Sample.the [] (quant_encode_canonical tensor).
End QuantSample.

Module QuantWitnesses.
Import QuantSample.
Lemma quant_canonical_witness :
  quant_decode_canonical tensor_bytes = Ok tensor ∧ tensor_wf tensor.
Proof.
  destruct (quant_canonical tensor_bytes tensor) as (H & _); [by apply bytes_okb_ok|vm_compute; reflexivity|].
  assert (quant_decode_canonical tensor_bytes = Ok tensor) as Hd by (vm_compute; reflexivity).
  split; [exact Hd|]. by apply H.
Defined.
Lemma quantize_roundtrip_witness :
  ∃ t b, quantize values 2 4 config PerToken = Ok t ∧ quant_encode_canonical t = Ok b ∧
    (quant_decode_canonical b = Ok t ↔
      Forall (λ p, f32_is_finite (f16_to_f32 p.1) = true ∧ f32_is_finite (f16_to_f32 p.2) = true) (qt_scales t)).
Proof.
  destruct (quantize_roundtrip values 2 4 config PerToken) as (t & b & Hq & He & _ & Hd).
  - split; [by right|vm_compute; split; congruence].
  - vm_compute. split_and!; congruence.
  - reflexivity.
  - unfold values. repeat constructor; vm_compute; congruence.
  - unfold values. repeat constructor.
  - exists t, b. split_and!; [exact Hq|exact He|exact Hd].
Defined.
End QuantWitnesses.
