(* ===== verification/HandoffJson.v ===== *)
(** * Canonical JSON of the handoff protocol (crates/kvpack-handoff/src/canonical.rs)

    The manifests travel as compact JSON with sorted keys.  A [Value] is a JSON
    document with the integer numbers the manifests use; an object keeps its
    entries in textual order, so that duplicate and misplaced keys can be
    written down.  A [Serde] is what serde derives for a type: the value it
    serializes to, what it accepts back, and the Rust type it inhabits.
    The text layer of serde_json is the class [JsonText], with its documented
    laws in [JsonTextLaws]. *)
From Stdlib Require Import ZArith Lia.
From stdpp Require Import base tactics numbers list strings option sorting sets.
From S2P Require Import Prelude Bytes Canonical Crypto.

(** ** Errors (error.rs)

    The variants of [HandoffError]; a message built with [format!] is its
    template, without the interpolated numbers. *)
Inductive HandoffError :=
  | Canonical_json (why : string)
  | Cancelled
  | DeadlineExceeded
  | Io (why : string)
  | Validation (why : string).
Notation hresult := (outcome HandoffError).

(** A Rust [&str] literal. *)
Notation str s := (ascii_bytes s%string) (only parsing).

(** ** Values *)
Inductive Value :=
  | JNull
  | JBool (b : bool)
  | JNumber (n : Z)
  | JString (s : bytes)
  | JArray (items : list Value)
  | JObject (entries : list (bytes * Value)).

(** [entries.sort_by(|left, right| left.0.cmp(&right.0))] *)
Definition key_le (a b : bytes * Value) : Prop := bytes_cmp a.1 b.1 ≠ Gt.
#[export] Instance key_le_dec a b : Decision (key_le a b).
Proof. unfold key_le. apply _. Defined.

Fixpoint sorted_value (value : Value) : Value :=
  match value with
  | JObject map =>
      JObject (merge_sort key_le
        ((fix go (l : list (bytes * Value)) :=
            match l with [] => [] | (key, value) :: l => (key, sorted_value value) :: go l end) map))
  | JArray items =>
      JArray ((fix go (l : list Value) :=
                 match l with [] => [] | v :: l => sorted_value v :: go l end) items)
  | other => other
  end.

(** Values that Rust strings and unsigned integers serialize to. *)
Definition string_ok (s : bytes) : Prop := bytes_ok s ∧ utf8_valid s = true.
Inductive value_ok : Value → Prop :=
  | ok_null : value_ok JNull
  | ok_bool b : value_ok (JBool b)
  | ok_number n : in_u64 n → value_ok (JNumber n)
  | ok_string s : string_ok s → value_ok (JString s)
  | ok_array l : Forall value_ok l → value_ok (JArray l)
  | ok_object l : Forall (λ e, string_ok e.1 ∧ value_ok e.2) l → value_ok (JObject l).

(** A value whose arrays and objects nest at most [d] deep. *)
Inductive nests : nat → Value → Prop :=
  | nests_null d : nests d JNull
  | nests_bool d b : nests d (JBool b)
  | nests_number d n : nests d (JNumber n)
  | nests_string d s : nests d (JString s)
  | nests_array d l : Forall (nests d) l → nests (S d) (JArray l)
  | nests_object d l : Forall (λ e, nests d e.2) l → nests (S d) (JObject l).

(** ** The text layer

    [serde_json::to_vec] of a value and the parse [serde_json::from_slice]
    starts from.  The parser inverts the printer on values that nest at most
    [json_depth] deep (serde_json's recursion limit of 128 refuses the next
    level), the printer is compact and escapes control characters, and parsed
    strings are UTF-8. *)
Definition json_depth : nat := 127.
Class JsonText := {
  json_print : Value → bytes;
  json_parse : bytes → option Value
}.
Class JsonTextLaws (J : JsonText) : Prop := {
  json_parse_print v : value_ok v → nests json_depth v → json_parse (json_print v) = Some v;
  json_print_ok v : value_ok v → bytes_ok (json_print v) ∧ json_print v ≠ [] ∧ 10 ∉ json_print v;
  json_parse_ok b v : bytes_ok b → json_parse b = Some v → value_ok v
}.

(** ** Derived serialization *)
Record Serde (A : Type) := mkSerde {
  to_value : A → Value;
  from_value : Value → option A;
  typed_as : A → Prop
}.
Arguments mkSerde {A} to_value from_value typed_as.
Arguments to_value {A} s a.
Arguments from_value {A} s v.
Arguments typed_as {A} s a.

(** What serde's derived code guarantees for a type: a value survives
    serialization with its keys sorted, serialization yields printable values
    and deserialization yields inhabitants of the type. *)
Class SerdeLaws {A} (s : Serde A) : Prop := {
  serde_roundtrip a : typed_as s a → from_value s (sorted_value (to_value s a)) = Some a;
  serde_value_ok a : typed_as s a → value_ok (to_value s a);
  serde_typed v a : value_ok v → from_value s v = Some a → typed_as s a
}.
(** The nesting of a serialized value is a property of its type. *)
Class SerdeDepth {A} (s : Serde A) (d : nat) : Prop :=
  serde_nests a : nests d (to_value s a).

Definition serde_uint (bound : Z) : Serde Z := mkSerde JNumber
  (λ v, match v with JNumber n => if (0 <=? n) && (n <? bound) then Some n else None | _ => None end)
  (λ n, 0 ≤ n < bound).
Definition serde_u32 : Serde Z := serde_uint u32_bound.
Definition serde_u64 : Serde Z := serde_uint u64_bound.
Definition serde_string : Serde bytes := mkSerde JString
  (λ v, match v with JString s => Some s | _ => None end) string_ok.
Definition serde_vec {A} (s : Serde A) : Serde (list A) := mkSerde
  (λ l, JArray (to_value s <$> l))
  (λ v, match v with JArray l => mapM (from_value s) l | _ => None end)
  (Forall (typed_as s)).

(** An object in declaration order; [None] is a field that
    [skip_serializing_if] leaves out. *)
Definition mk_object (names : list bytes) (vals : list (option Value)) : list (bytes * Value) :=
  omap (λ e : bytes * option Value, pair e.1 <$> e.2) (zip names vals).

(** [deny_unknown_fields] and the duplicate-field check. *)
Definition fields_known (names : list bytes) (entries : list (bytes * Value)) : bool :=
  bool_decide (entries.*1 ⊆ names) && bool_decide (NoDup entries.*1).
Definition obj_get (key : bytes) (entries : list (bytes * Value)) : option Value :=
  snd <$> List.find (λ e, bytes_eqb e.1 key) entries.

(** A required field, an [Option] field and a [Vec] field with [serde(default)]. *)
Definition field {A} (s : Serde A) (key : string) (entries : list (bytes * Value)) : option A :=
  obj_get (ascii_bytes key) entries ≫= from_value s.
Definition option_field {A} (s : Serde A) (key : string) (entries : list (bytes * Value))
  : option (option A) :=
  match obj_get (ascii_bytes key) entries with
  | None | Some JNull => Some None
  | Some v => Some <$> from_value s v
  end.
Definition default_vec_field {A} (s : Serde A) (key : string) (entries : list (bytes * Value))
  : option (list A) :=
  match obj_get (ascii_bytes key) entries with
  | None => Some []
  | Some v => from_value (serde_vec s) v
  end.

(** ** canonical_json *)
Section canonical.
Context `{JsonText} {A : Type} (s : Serde A).

Definition canonical_json (value : A) : hresult bytes :=
  Ok (json_print (sorted_value (to_value s value))).

Definition decode_canonical_json (b : bytes) (max_bytes : Z) : hresult A :=
  if (zlen b =? 0) || (max_bytes <? zlen b) then
    Err (Validation "JSON length {} is outside 1..={max_bytes}") else
  decoded ← ok_or (json_parse b ≫= from_value s) (Canonical_json "serde_json error");
  encoded ← canonical_json decoded;
  if negb (bytes_eqb encoded b) then
    Err (Validation "JSON is not in the canonical compact sorted-key encoding")
  else Ok decoded.
End canonical.

(** ** Hexadecimal text and digests *)
Definition hex_digit (d : Z) : Z := if d <? 10 then 48 + d else 87 + d.
Definition hex_encode (b : bytes) : bytes :=
  b ≫= λ x, [hex_digit (x / 16); hex_digit (x mod 16)].
(** [hex::decode]: two digits of either case per byte. *)
Definition hex_value (c : Z) : option Z :=
  if (48 <=? c) && (c <=? 57) then Some (c - 48)
  else if (97 <=? c) && (c <=? 102) then Some (c - 87)
  else if (65 <=? c) && (c <=? 70) then Some (c - 55) else None.
Fixpoint hex_decode (s : bytes) : option bytes :=
  match s with
  | [] => Some []
  | hi :: lo :: s => h ← hex_value hi; l ← hex_value lo; rest ← hex_decode s; Some (h * 16 + l :: rest)
  | _ => None
  end.

Definition is_lower_hex (c : Z) : bool := ((48 <=? c) && (c <=? 57)) || ((97 <=? c) && (c <=? 102)).
Definition lower_hex64 (s : bytes) : bool := (zlen s =? 64) && forallb is_lower_hex s.

Section digests.
Context `{Crypto}.
Definition sha256_hex (b : bytes) : bytes := hex_encode (sha256_digest b).
Definition token_ids_sha256 (token_ids : list Z) : bytes :=
  hex_encode (sha256_digest (str "kvpack-live-token-ids-v1" ++ [0] ++ (token_ids ≫= le_bytes 4))).
End digests.

(** * Laws of canonical JSON

    Sorted objects answer the same field lookups, so derived deserialization
    inverts derived serialization; canonical decoding accepts exactly the
    canonical encodings; hexadecimal text determines its bytes. *)
(** ** Sorting *)
Lemma sorted_object l :
  sorted_value (JObject l) = JObject (merge_sort key_le (prod_map id sorted_value <$> l)).
Proof. simpl. do 2 f_equal. induction l as [|[k v] l IH]; [done|]. by rewrite fmap_cons, <-IH. Qed.
Lemma sorted_array l : sorted_value (JArray l) = JArray (sorted_value <$> l).
Proof. simpl. f_equal. Qed.

Section value_ind.
Context (P : Value → Prop).
Hypothesis Hnull : P JNull.
Hypothesis Hbool : ∀ b, P (JBool b).
Hypothesis Hnumber : ∀ n, P (JNumber n).
Hypothesis Hstring : ∀ s, P (JString s).
Hypothesis Harray : ∀ l, Forall P l → P (JArray l).
Hypothesis Hobject : ∀ l, Forall (λ e, P e.2) l → P (JObject l).
Fixpoint Value_nested_ind (v : Value) : P v :=
  match v with
  | JNull => Hnull
  | JBool b => Hbool b
  | JNumber n => Hnumber n
  | JString s => Hstring s
  | JArray l => Harray l ((fix go (l : list Value) : Forall P l :=
      match l with [] => List.Forall_nil P
      | v :: l => @List.Forall_cons _ P v l (Value_nested_ind v) (go l) end) l)
  | JObject l => Hobject l ((fix go (l : list (bytes * Value)) : Forall (λ e, P e.2) l :=
      match l with [] => List.Forall_nil (λ e, P e.2)
      | e :: l => @List.Forall_cons _ (λ e, P e.2) e l (Value_nested_ind e.2) (go l) end) l)
  end.
End value_ind.

Lemma sorted_value_ok v : value_ok v → value_ok (sorted_value v).
Proof.
  induction v as [| | | |l IH|l IH] using Value_nested_ind; intros Hv; try done; inversion Hv; subst.
  - rewrite sorted_array. constructor. apply Forall_fmap. rewrite list.Forall_forall in *.
    intros v Hin. apply IH; auto.
  - rewrite sorted_object. constructor. rewrite merge_sort_Permutation. apply Forall_fmap.
    rewrite list.Forall_forall in *. intros e Hin. simpl. split; [by apply H0|]. apply IH, H0; auto.
Qed.

Lemma sorted_value_nests d v : nests d v → nests d (sorted_value v).
Proof.
  revert d. induction v as [| | | |l IH|l IH] using Value_nested_ind; intros d Hv; inversion Hv; subst; try by constructor.
  - rewrite sorted_array. constructor. apply Forall_fmap. rewrite list.Forall_forall in *. intros v Hin. apply IH; auto.
  - rewrite sorted_object. constructor. rewrite merge_sort_Permutation. apply Forall_fmap.
    rewrite list.Forall_forall in *. intros e Hin. apply IH; auto.
Qed.

(** ** Field lookups *)
Lemma obj_get_elem key v l : NoDup l.*1 → (key, v) ∈ l → obj_get key l = Some v.
Proof.
  unfold obj_get. induction l as [|[k w] l IH]; intros Hd Hv; [by apply elem_of_nil in Hv|].
  simpl in Hd. apply list.NoDup_cons in Hd as [Hk Hd]. simpl.
  destruct (bytes_eqb k key) eqn:E.
  - apply bytes_eqb_eq in E. subst. apply elem_of_cons in Hv as [[= ->]|Hv]; [done|].
    destruct Hk. apply list_elem_of_fmap. by exists (key, v).
  - apply elem_of_cons in Hv as [[= -> ->]|Hv]; [by rewrite bytes_eqb_refl in E|]. by apply IH.
Qed.
Lemma obj_get_None key l : key ∉ l.*1 → obj_get key l = None.
Proof.
  unfold obj_get. induction l as [|[k w] l IH]; [done|]. simpl. rewrite not_elem_of_cons. intros [Hk Hl].
  destruct (bytes_eqb k key) eqn:E; [by apply bytes_eqb_eq in E|]. by apply IH.
Qed.
Lemma obj_get_ok key v l :
  Forall (λ e, string_ok e.1 ∧ value_ok e.2) l → obj_get key l = Some v → value_ok v.
Proof.
  unfold obj_get. intros Hl H. destruct (List.find _ _) as [e|] eqn:E; [|done]. injection H as <-.
  apply List.find_some in E as [E _]. apply list_elem_of_In in E. rewrite list.Forall_forall in Hl.
  apply (Hl _ E).
Qed.

Lemma mk_object_fmap (f : Value → Value) names (vals : list (option Value)) :
  (λ e : bytes * Value, prod_map id f e) <$> mk_object names vals =
  mk_object names ((λ ov : option Value, f <$> ov) <$> vals).
Proof.
  revert vals. induction names as [|k names IH]; intros [|[v|] vals]; try done.
  - change (mk_object (k :: names) (Some v :: vals)) with ((k, v) :: mk_object names vals).
    by rewrite !fmap_cons, IH.
  - apply IH.
Qed.
Lemma mk_object_keys names vals : (mk_object names vals).*1 ⊆ names.
Proof.
  unfold mk_object. revert vals. induction names as [|k names IH]; intros [|[v|] vals]; simpl; try set_solver.
Qed.
Lemma mk_object_NoDup names vals : NoDup names → NoDup (mk_object names vals).*1.
Proof.
  revert vals. induction names as [|k names IH]; intros vals Hd; [by constructor|].
  apply list.NoDup_cons in Hd as [Hk Hd]. destruct vals as [|[v|] vals]; [constructor| |by apply IH].
  change (mk_object _ _) with ((k, v) :: mk_object names vals). simpl. constructor; [|by apply IH].
  intros Hin. by apply Hk, (mk_object_keys _ vals).
Qed.
Lemma mk_object_elem i names vals key v :
  names !! i = Some key → vals !! i = Some (Some v) → (key, v) ∈ mk_object names vals.
Proof.
  intros Hn Hv. unfold mk_object. apply list_elem_of_omap. exists (key, Some v). split; [|done].
  apply list_elem_of_lookup. exists i. apply lookup_zip_with_Some. eauto.
Qed.
Lemma mk_object_no_key i names vals key :
  NoDup names → names !! i = Some key → vals !! i = Some None → key ∉ (mk_object names vals).*1.
Proof.
  intros Hd Hn Hv Hin. apply list_elem_of_fmap in Hin as ([k w] & -> & Hin). simpl in *.
  unfold mk_object in Hin. apply list_elem_of_omap in Hin as ([k' ov] & Hz & He). simpl in He.
  destruct ov as [w'|]; [|done]. simpl in He. injection He as -> ->.
  apply list_elem_of_lookup in Hz as [j Hj]. apply lookup_zip_with_Some in Hj as (? & ? & [= <- <-] & Hj & Hw).
  assert (i = j) as -> by (eapply NoDup_lookup; eauto). congruence.
Qed.

(** A field of a sorted object is the sorted field. *)
Definition sorted_fields (names : list bytes) (vals : list (option Value)) : list (bytes * Value) :=
  merge_sort key_le (mk_object names ((λ ov : option Value, sorted_value <$> ov) <$> vals)).
Lemma sorted_mk_object names vals :
  sorted_value (JObject (mk_object names vals)) = JObject (sorted_fields names vals).
Proof. rewrite sorted_object, mk_object_fmap. done. Qed.

Lemma obj_get_sorted i names vals key ov :
  NoDup names → names !! i = Some key → vals !! i = Some ov →
  obj_get key (sorted_fields names vals) = sorted_value <$> ov.
Proof.
  intros Hd Hn Hv. unfold sorted_fields.
  assert (((λ ov : option Value, sorted_value <$> ov) <$> vals) !! i = Some (sorted_value <$> ov)) as Hs
    by (by rewrite list_lookup_fmap, Hv).
  destruct ov as [v|]; simpl in *.
  - apply obj_get_elem; rewrite merge_sort_Permutation; [by apply mk_object_NoDup|].
    by eapply mk_object_elem.
  - apply obj_get_None. rewrite merge_sort_Permutation. by eapply mk_object_no_key.
Qed.
Lemma fields_known_sorted names vals : NoDup names → fields_known names (sorted_fields names vals) = true.
Proof.
  intros Hd. unfold fields_known, sorted_fields. apply andb_true_intro.
  split; apply bool_decide_eq_true_2; rewrite merge_sort_Permutation;
    [apply mk_object_keys|by apply mk_object_NoDup].
Qed.
Lemma mk_object_value_ok names vals :
  Forall string_ok names → Forall (λ ov, ∀ v, ov = Some v → value_ok v) vals →
  value_ok (JObject (mk_object names vals)).
Proof.
  intros Hn Hv. constructor. revert vals Hv. unfold mk_object.
  induction Hn as [|k names Hk Hn IH]; intros vals Hv; [by constructor|].
  destruct Hv as [|ov vals Hov Hv]; [constructor|]. destruct ov as [v|]; simpl; [|by apply IH].
  constructor; [by split; [|apply Hov]|by apply IH].
Qed.

Lemma mk_object_nests d names vals :
  Forall (λ ov, ∀ v, ov = Some v → nests d v) vals → nests (S d) (JObject (mk_object names vals)).
Proof.
  intros Hv. constructor. apply list.Forall_forall. intros [k v] Hin. unfold mk_object in Hin.
  apply list_elem_of_omap in Hin as ([k' ov] & Hz & He). apply elem_of_zip_r in Hz.
  rewrite list.Forall_forall in Hv. destruct ov as [w|]; [|done]. injection He as <- <-. by eapply Hv.
Qed.

(** ** Basic types *)
#[export] Instance serde_uint_laws bound : bound ≤ u64_bound → SerdeLaws (serde_uint bound).
Proof.
  intros Hb. split; simpl.
  - intros n Hn. by rewrite (proj2 (Z.leb_le _ _)), (proj2 (Z.ltb_lt _ _)) by lia.
  - intros n Hn. constructor. unfold in_u64. lia.
  - intros v n _ H. destruct v; try done. destruct (_ && _) eqn:E; [|done]. bools. naive_solver lia.
Qed.
#[export] Instance serde_u32_laws : SerdeLaws serde_u32.
Proof. by apply serde_uint_laws. Qed.
#[export] Instance serde_u64_laws : SerdeLaws serde_u64.
Proof. by apply serde_uint_laws. Qed.
#[export] Instance serde_string_laws : SerdeLaws serde_string.
Proof.
  split; simpl; [done|by constructor|]. intros v s Hv H. destruct v; try done. injection H as ->.
  by inversion Hv.
Qed.
#[export] Instance serde_vec_laws {A} (s : Serde A) : SerdeLaws s → SerdeLaws (serde_vec s).
Proof.
  intros Hs. split.
  - intros l Hl. cbn [to_value from_value serde_vec typed_as] in *. rewrite sorted_array.
    induction Hl as [|a l Ha Hl IH]; [done|]. rewrite !fmap_cons. cbn [mapM]. fold (mapM (from_value s)).
    rewrite (serde_roundtrip _ Ha). cbn. change (mapM (from_value s) (sorted_value <$> (to_value s <$> l)) = Some l) in IH.
    by rewrite IH.
  - intros l Hl. constructor. apply Forall_fmap. eapply list.Forall_impl; [exact Hl|]. apply serde_value_ok.
  - intros v l Hv H. cbn [from_value serde_vec typed_as] in *. destruct v as [| | | |items|]; try done.
    inversion Hv as [| | | |? Hi|]; subst. apply mapM_Some in H.
    induction H as [|x y l1 l2 Hx Hl IH]; [by constructor|]. apply Forall_cons_iff in Hi as [? ?].
    constructor; [by eapply serde_typed|]. apply IH; [by constructor|done].
Qed.

#[export] Instance serde_uint_depth bound d : SerdeDepth (serde_uint bound) d.
Proof. constructor. Qed.
#[export] Instance serde_u32_depth d : SerdeDepth serde_u32 d.
Proof. constructor. Qed.
#[export] Instance serde_u64_depth d : SerdeDepth serde_u64 d.
Proof. constructor. Qed.
#[export] Instance serde_string_depth d : SerdeDepth serde_string d.
Proof. constructor. Qed.
#[export] Instance serde_vec_depth {A} (s : Serde A) d : SerdeDepth s d → SerdeDepth (serde_vec s) (S d).
Proof. intros Hs l. constructor. apply Forall_fmap, list.Forall_forall. intros a _. apply Hs. Qed.

(** ** Structures *)
Lemma field_sorted {A} (s : Serde A) i names vals key a :
  NoDup names → names !! i = Some (ascii_bytes key) → vals !! i = Some (Some (to_value s a)) →
  SerdeLaws s → typed_as s a → field s key (sorted_fields names vals) = Some a.
Proof.
  intros Hd Hn Hv Hs Ha. unfold field. rewrite (obj_get_sorted i _ _ _ _ Hd Hn Hv). simpl.
  by apply serde_roundtrip.
Qed.
Definition option_typed {A} (s : Serde A) (a : option A) : Prop := ∀ x, a = Some x → typed_as s x.
(** Serialized values other than [null], as every type of an [Option] field has. *)
Class SerdeNotNull {A} (s : Serde A) : Prop :=
  serde_not_null a : sorted_value (to_value s a) ≠ JNull.
#[export] Instance serde_string_not_null : SerdeNotNull serde_string.
Proof. done. Qed.
Lemma option_field_sorted {A} (s : Serde A) i names vals key (a : option A) :
  NoDup names → names !! i = Some (ascii_bytes key) → vals !! i = Some (to_value s <$> a) →
  SerdeLaws s → SerdeNotNull s → option_typed s a →
  option_field s key (sorted_fields names vals) = Some a.
Proof.
  intros Hd Hn Hv Hs Hnn Ha. unfold option_field. rewrite (obj_get_sorted i _ _ _ _ Hd Hn Hv).
  destruct a as [a|]; simpl; [|done].
  pose proof (serde_roundtrip a (Ha a eq_refl)) as E. pose proof (serde_not_null a).
  destruct (sorted_value _); try done; by rewrite E.
Qed.
Lemma default_vec_field_sorted {A} (s : Serde A) i names vals key (l : list A) :
  NoDup names → names !! i = Some (ascii_bytes key) →
  vals !! i = Some (if bool_decide (l = []) then None else Some (to_value (serde_vec s) l)) →
  SerdeLaws s → Forall (typed_as s) l →
  default_vec_field s key (sorted_fields names vals) = Some l.
Proof.
  intros Hd Hn Hv Hs Ha. unfold default_vec_field. rewrite (obj_get_sorted i _ _ _ _ Hd Hn Hv).
  case_bool_decide; [by subst|]. cbn [fmap option_fmap option_map]. by apply serde_roundtrip.
Qed.

Lemma field_typed {A} (s : Serde A) key entries a :
  SerdeLaws s → value_ok (JObject entries) → field s key entries = Some a → typed_as s a.
Proof.
  intros Hs Hv. inversion Hv; subst. unfold field. destruct (obj_get _ _) as [v|] eqn:E; [|done].
  intros H'. eapply serde_typed; [|exact H']. by eapply obj_get_ok.
Qed.
Lemma option_field_typed {A} (s : Serde A) key entries a :
  SerdeLaws s → value_ok (JObject entries) → option_field s key entries = Some a →
  option_typed s a.
Proof.
  intros Hs Hv. inversion Hv; subst. unfold option_field. intros Hf x ->.
  destruct (obj_get _ _) as [v|] eqn:E; [|done]. eapply obj_get_ok in E; [|done].
  assert (from_value s v = Some x); [|by eapply serde_typed].
  destruct v; try done; destruct (from_value s _); simpl in Hf; congruence.
Qed.
Lemma default_vec_field_typed {A} (s : Serde A) key entries l :
  SerdeLaws s → value_ok (JObject entries) → default_vec_field s key entries = Some l →
  Forall (typed_as s) l.
Proof.
  intros Hs Hv. inversion Hv; subst. unfold default_vec_field. intros Hf.
  destruct (obj_get _ _) as [v|] eqn:E; [|by injection Hf as <-]. eapply obj_get_ok in E; [|done].
  by eapply (serde_typed (s:=serde_vec s)).
Qed.

(** ** Canonical decoding *)
Section canonical.
Context `{JsonTextLaws} {A : Type} (s : Serde A) `{!SerdeLaws s} `{!SerdeDepth s json_depth}.
Implicit Types (a : A) (b : bytes).

Lemma parse_canonical a : typed_as s a →
  json_parse (json_print (sorted_value (to_value s a))) ≫= from_value s = Some a.
Proof.
  intros Ha. rewrite json_parse_print; [by apply serde_roundtrip|by apply sorted_value_ok, serde_value_ok|].
  apply sorted_value_nests, serde_nests.
Qed.

Lemma canonical_json_ok a : typed_as s a →
  ∃ b, canonical_json s a = Ok b ∧ bytes_ok b ∧ 0 < zlen b ∧ 10 ∉ b.
Proof.
  intros Ha. eexists. split; [done|]. destruct (json_print_ok (sorted_value (to_value s a))) as (? & Hn & ?).
  { by apply sorted_value_ok, serde_value_ok. }
  split_and!; [done| |done]. destruct (json_print _); [done|]. zlia.
Qed.
Lemma canonical_json_inj a a' b :
  typed_as s a → typed_as s a' → canonical_json s a = Ok b → canonical_json s a' = Ok b → a = a'.
Proof.
  unfold canonical_json. intros Ha Ha' [= <-] [= E].
  apply parse_canonical in Ha, Ha'. rewrite E in Ha'. congruence.
Qed.
Lemma decode_canonical_json_iff b max a : bytes_ok b →
  decode_canonical_json s b max = Ok a ↔ canonical_json s a = Ok b ∧ zlen b ≤ max ∧ typed_as s a.
Proof.
  intros Hb. unfold decode_canonical_json. split.
  - intros Hd. inv_ok. bools. destruct (json_parse b) as [v|] eqn:E; [|done]. simpl in *.
    match goal with H : from_value s v = Some _ |- _ => rename H into Hv end.
    apply json_parse_ok in E; [|done]. eapply serde_typed in Hv; [|done].
    unfold canonical_json in *. inv_ok. subst.
    match goal with H : bytes_eqb _ b = true |- _ => apply bytes_eqb_eq in H; subst b end. done.
  - intros (Hc & Hl & Ha). destruct (canonical_json_ok a Ha) as (b' & Hc' & _ & Hz & _).
    assert (b' = b) as -> by congruence.
    rewrite (proj2 (Z.eqb_neq _ _)), (proj2 (Z.ltb_ge _ _)) by lia. cbn [orb].
    assert (json_parse b ≫= from_value s = Some a) as ->.
    { unfold canonical_json in Hc. injection Hc as <-. by apply parse_canonical. }
    cbn [ok_or mbind outcome_bind]. rewrite Hc. cbn [mbind outcome_bind]. by rewrite bytes_eqb_refl.
Qed.
Lemma decode_canonical_json_no_panic b max : ¬ panics (decode_canonical_json s b max).
Proof. unfold decode_canonical_json, canonical_json. no_panic. Qed.
End canonical.
#[export] Hint Resolve decode_canonical_json_no_panic : no_panic.

(** ** Hexadecimal text *)
Lemma hex_value_digit d : 0 ≤ d < 16 → hex_value (hex_digit d) = Some d.
Proof.
  intros Hd. unfold hex_value, hex_digit. destruct (Z.ltb_spec d 10).
  - rewrite (proj2 (Z.leb_le _ _)), (proj2 (Z.leb_le _ _)) by lia. simpl. f_equal. lia.
  - rewrite andb_false_intro2 by (apply Z.leb_gt; lia).
    rewrite (proj2 (Z.leb_le _ _)), (proj2 (Z.leb_le _ _)) by lia. simpl. f_equal. lia.
Qed.
Lemma hex_decode_encode b : bytes_ok b → hex_decode (hex_encode b) = Some b.
Proof.
  intros Hb. induction Hb as [|x b Hx Hb IH]; [done|]. unfold in_u8, u8_bound in Hx.
  unfold hex_encode in *. cbn [mbind list_bind app].
  cbn [hex_decode]. rewrite !hex_value_digit by (Z.to_euclidean_division_equations; lia).
  cbn [mbind option_bind]. rewrite IH. cbn [mbind option_bind]. do 2 f_equal.
  Z.to_euclidean_division_equations; lia.
Qed.
Lemma hex_encode_inj a b : bytes_ok a → bytes_ok b → hex_encode a = hex_encode b → a = b.
Proof. intros Ha Hb E. apply (f_equal hex_decode) in E. rewrite !hex_decode_encode in E by done. congruence. Qed.
Lemma zlen_hex_encode b : zlen (hex_encode b) = 2 * zlen b.
Proof. unfold hex_encode. induction b as [|x b IH]; [done|]. cbn [mbind list_bind app]. rewrite !zlen_cons. lia. Qed.
Lemma hex_digit_lower d : 0 ≤ d < 16 → is_lower_hex (hex_digit d) = true.
Proof.
  intros Hd. unfold is_lower_hex, hex_digit. destruct (Z.ltb_spec d 10); apply orb_true_iff; [left|right];
  apply andb_true_intro; split; apply Z.leb_le; lia.
Qed.
Lemma hex_encode_lower b : bytes_ok b → forallb is_lower_hex (hex_encode b) = true.
Proof.
  intros Hb. induction Hb as [|x b Hx Hb IH]; [done|]. unfold in_u8, u8_bound in Hx.
  unfold hex_encode in *. cbn [mbind list_bind app forallb].
  by rewrite !hex_digit_lower, IH by (Z.to_euclidean_division_equations; lia).
Qed.
Lemma hex_encode_id64 b : id_ok b → lower_hex64 (hex_encode b) = true.
Proof.
  intros [Hl Hb]. unfold lower_hex64. rewrite zlen_hex_encode, Hl. by rewrite hex_encode_lower.
Qed.

(** ** Derived structures: the three laws by walking over the fields *)
Definition string_okb (s : bytes) : bool := bytes_okb s && utf8_valid s.
Lemma string_okb_ok l : forallb string_okb l = true → Forall string_ok l.
Proof.
  intros Hl. apply Is_true_true_2, forallb_True in Hl. eapply list.Forall_impl; [exact Hl|]. intros s Hs.
  apply Is_true_true_1, andb_prop in Hs as [Hs Hu]. split; [by apply bytes_okb_ok|done].
Qed.
Lemma some_vals_ok {A} (s : Serde A) (a : A) v :
  SerdeLaws s → typed_as s a → Some (to_value s a) = Some v → value_ok v.
Proof. intros Hs Ha [= <-]. by apply serde_value_ok. Qed.
Lemma option_vals_ok {A} (s : Serde A) (a : option A) v :
  SerdeLaws s → option_typed s a → to_value s <$> a = Some v → value_ok v.
Proof. intros Hs Ha. destruct a; simpl; [|done]. intros [= <-]. apply serde_value_ok. by apply Ha. Qed.
Lemma default_vec_vals_ok {A} (s : Serde A) (l : list A) v :
  SerdeLaws s → Forall (typed_as s) l →
  (if bool_decide (l = []) then None else Some (to_value (serde_vec s) l)) = Some v → value_ok v.
Proof. intros Hs Hl. case_bool_decide; [done|]. intros [= <-]. by apply (serde_value_ok (s:=serde_vec s)). Qed.

Ltac names_nodup := refine (bool_decide_unpack _ _); vm_compute; exact I.
Ltac at_index tac i :=
  lazymatch i with
  | 20%nat => fail "no such field"
  | _ => first [tac i | let j := eval cbv in (S i) in at_index tac j]
  end.
Ltac serde_field :=
  match goal with
  | |- context [field ?s ?k (sorted_fields ?n ?v)] =>
      at_index ltac:(fun i => erewrite (field_sorted s i n v k);
        [|names_nodup|vm_compute; reflexivity|reflexivity|typeclasses eauto|eassumption]) 0%nat
  | |- context [option_field ?s ?k (sorted_fields ?n ?v)] =>
      at_index ltac:(fun i => erewrite (option_field_sorted s i n v k);
        [|names_nodup|vm_compute; reflexivity|reflexivity|typeclasses eauto|typeclasses eauto|eassumption]) 0%nat
  | |- context [default_vec_field ?s ?k (sorted_fields ?n ?v)] =>
      at_index ltac:(fun i => erewrite (default_vec_field_sorted s i n v k);
        [|names_nodup|vm_compute; reflexivity|reflexivity|typeclasses eauto|eassumption]) 0%nat
  end; cbn [mbind option_bind].
Ltac serde_val :=
  let v := fresh "v" in let E := fresh "E" in intros v E;
  match type of E with
  | Some (to_value ?s ?a) = _ => apply (some_vals_ok s a v); [typeclasses eauto|assumption|exact E]
  | (to_value ?s <$> ?a) = _ => apply (option_vals_ok s a v); [typeclasses eauto|assumption|exact E]
  | (if bool_decide (?l = []) then _ else Some (to_value (serde_vec ?s) _)) = _ =>
      apply (default_vec_vals_ok s l v); [typeclasses eauto|assumption|exact E]
  end.
Ltac serde_vals := repeat (apply List.Forall_cons; [serde_val|]); apply List.Forall_nil.
Ltac inv_some :=
  repeat match goal with
  | H : mbind _ _ = Some _ |- _ => apply bind_Some in H as (? & ? & ?)
  | H : (if ?b then _ else None) = Some _ |- _ => destruct b eqn:?; [|done]
  | H : Some _ = Some _ |- _ => injection H as <-
  end.
Ltac serde_typing :=
  inv_some; split_and?;
  first [eapply field_typed; [typeclasses eauto|eassumption|eassumption]
        |eapply option_field_typed; [typeclasses eauto|eassumption|eassumption]
        |eapply default_vec_field_typed; [typeclasses eauto|eassumption|eassumption]].

(** A derived structure: its field names, its serialized fields, its
    deserializer and the types of its fields. *)
Definition serde_struct {A} (names : list bytes) (vals : A → list (option Value))
    (from : list (bytes * Value) → option A) (typed : A → Prop) : Serde A := mkSerde
  (λ a, JObject (mk_object names (vals a)))
  (λ v, match v with JObject o => if fields_known names o then from o else None | _ => None end)
  typed.
Ltac serde_laws vals from typed :=
  match goal with |- SerdeLaws ?s => unfold s end; split; cbn [to_value from_value typed_as serde_struct];
  [ intros ?a ?Ha; rewrite sorted_mk_object, fields_known_sorted by names_nodup;
    unfold typed in Ha; destruct_and?; unfold from; repeat serde_field; by destruct a
  | intros ?a ?Ha; unfold typed in Ha; destruct_and?; apply mk_object_value_ok;
    [by apply string_okb_ok|unfold vals; serde_vals]
  | intros ?v ?a ?Hv ?E; destruct v; try done; unfold from in E; unfold typed; inv_some;
    serde_typing ].
(** The nesting of a structure is one more than that of its fields. *)
Lemma some_nests {A} (s : Serde A) d a v : Some (to_value s a) = Some v → SerdeDepth s d → nests d v.
Proof. intros [= <-] Hs. apply Hs. Qed.
Lemma option_nests {A} (s : Serde A) d a v : to_value s <$> a = Some v → SerdeDepth s d → nests d v.
Proof. intros H Hs. destruct a; [|done]. injection H as <-. apply Hs. Qed.
Lemma skipped_nests {A} (s : Serde A) d (b : bool) a v :
  (if b then None else Some (to_value s a)) = Some v → SerdeDepth s d → nests d v.
Proof. intros H Hs. destruct b; [done|]. injection H as <-. apply Hs. Qed.
Create HintDb serde_nests.
#[export] Hint Resolve some_nests option_nests skipped_nests : serde_nests.
#[export] Hint Extern 1 (SerdeDepth _ _) => typeclasses eauto : serde_nests.
Ltac serde_nesting vals :=
  intros ?a; apply mk_object_nests; unfold vals;
  repeat (apply List.Forall_cons; [solve [eauto with serde_nests]|]); apply List.Forall_nil.
