(* ===== verification/HandoffMac.v ===== *)
(** * Keyed authentication (crates/kvpack-handoff/src/mac.rs)

    A [MacKey] is a 32-byte array.  Constant-time comparison is equality. *)
From Stdlib Require Import ZArith Lia.
From stdpp Require Import base tactics numbers list strings option.
From S2P Require Import Prelude Bytes Canonical Crypto HandoffJson.

(** [to_be_bytes] and [from_be_bytes] *)
Definition be_bytes (n : nat) (v : Z) : bytes := reverse (le_bytes n v).
Definition be_val (b : bytes) : Z := le_val (reverse b).

Lemma length_be_bytes n v : length (be_bytes n v) = n.
Proof. unfold be_bytes. by rewrite length_reverse, length_le_bytes. Qed.
Lemma zlen_be_bytes n v : zlen (be_bytes n v) = Z.of_nat n.
Proof. unfold zlen. by rewrite length_be_bytes. Qed.
Lemma be_bytes_ok n v : bytes_ok (be_bytes n v).
Proof. unfold bytes_ok, be_bytes. apply Forall_reverse, le_bytes_ok. Qed.
Lemma be_val_be_bytes n v : 0 ≤ v < 256 ^ Z.of_nat n → be_val (be_bytes n v) = v.
Proof. intros. unfold be_val, be_bytes. rewrite reverse_involutive. by apply le_val_le_bytes_small. Qed.
Lemma be_bytes_be_val b : bytes_ok b → be_bytes (length b) (be_val b) = b.
Proof.
  intros Hb. unfold be_val, be_bytes. rewrite <-(length_reverse b).
  rewrite le_bytes_le_val by (by apply Forall_reverse). by rewrite reverse_involutive.
Qed.
Lemma be_val_bound b : bytes_ok b → 0 ≤ be_val b < 256 ^ zlen b.
Proof.
  intros Hb. unfold be_val. replace (zlen b) with (zlen (reverse b)) by (unfold zlen; by rewrite length_reverse).
  apply le_val_bound. by apply Forall_reverse.
Qed.
Lemma be_bytes_inj n v w :
  0 ≤ v < 256 ^ Z.of_nat n → 0 ≤ w < 256 ^ Z.of_nat n → be_bytes n v = be_bytes n w → v = w.
Proof.
  intros Hv Hw E. apply (f_equal be_val) in E. by rewrite !be_val_be_bytes in E.
Qed.

(** The type [MacKey]. *)
Definition MacKey : Type := bytes.
Definition MacKey_from_slice (b : bytes) : hresult MacKey :=
  if zlen b =? 32 then Ok b else Err (Validation "MAC key must be exactly 32 bytes").
Definition MacKey_from_hex (hex_key : bytes) : hresult MacKey :=
  if negb (zlen hex_key =? 64) || negb (forallb is_lower_hex hex_key) then
    Err (Validation "MAC key must be 64 lowercase hexadecimal digits")
  else ok_or (hex_decode hex_key) (Validation "MAC key hex decode failed").

Section mac.
Context `{Crypto}.
Implicit Types (key : MacKey) (domain stream expected_hex : bytes).

Definition tag_hex key stream : hresult bytes := Ok (hex_encode (hmac_sha256 key stream)).
Definition verify_hex key stream expected_hex : hresult unit :=
  expected ← ok_or (hex_decode expected_hex) (Validation "artifact HMAC tag is not valid hex");
  if bytes_eqb (hmac_sha256 key stream) expected then Ok tt
  else Err (Validation "artifact HMAC tag rejected").

Definition domain_ok domain : bool := negb ((zlen domain =? 0) || (65535 <? zlen domain)).
Definition domain_stream domain stream : bytes :=
  str "kvpack-domain-mac-v1" ++ [0] ++ be_bytes 2 (zlen domain) ++ domain ++ stream.
Definition tag_domain_hex key domain stream : hresult bytes :=
  if negb (domain_ok domain) then Err (Validation "MAC domain must contain 1..=65535 bytes")
  else Ok (hex_encode (hmac_sha256 key (domain_stream domain stream))).
Definition verify_domain_hex key domain stream expected_hex : hresult unit :=
  if negb (domain_ok domain) then Err (Validation "MAC domain must contain 1..=65535 bytes") else
  if negb (zlen expected_hex =? 64) || negb (forallb is_lower_hex expected_hex) then
    Err (Validation "protocol HMAC tag must be 64 lowercase hex characters") else
  expected ← ok_or (hex_decode expected_hex) (Validation "protocol HMAC tag is not valid hex");
  if bytes_eqb (hmac_sha256 key (domain_stream domain stream)) expected then Ok tt
  else Err (Validation "protocol HMAC tag rejected").
End mac.

(** ** Laws *)
Lemma lower_hex_value c : is_lower_hex c = true → ∃ d, hex_value c = Some d ∧ 0 ≤ d < 16 ∧ hex_digit d = c.
Proof.
  unfold is_lower_hex, hex_value, hex_digit. intros Hc. apply orb_true_iff in Hc as [Hc|Hc].
  - rewrite Hc. bools. eexists. split; [done|]. split; [lia|]. rewrite (proj2 (Z.ltb_lt _ _)) by lia. lia.
  - bools. rewrite andb_false_intro2 by (apply Z.leb_gt; lia).
    rewrite (proj2 (Z.leb_le _ _)), (proj2 (Z.leb_le _ _)) by lia.
    eexists. split; [done|]. split; [lia|]. rewrite (proj2 (Z.ltb_ge _ _)) by lia. lia.
Qed.
Lemma hex_decode_lower n s :
  length s = (2 * n)%nat → forallb is_lower_hex s = true →
  ∃ b, hex_decode s = Some b ∧ bytes_ok b ∧ zlen b = Z.of_nat n ∧ hex_encode b = s.
Proof.
  revert s. induction n as [|n IH]; intros s Hl Hs.
  { destruct s; [|done]. exists []. split_and!; [done|constructor|done|done]. }
  destruct s as [|x [|y s]]; [done|simpl in Hl; lia|]. cbn [forallb] in Hs. bools.
  destruct (IH s) as (b & Hb & Hok & Hz & He); [simpl in Hl; lia|done|].
  destruct (lower_hex_value x) as (d & Hd & ? & Hx); [done|].
  destruct (lower_hex_value y) as (e & He' & ? & Hy); [done|].
  exists (d * 16 + e :: b). cbn [hex_decode]. rewrite Hd. cbn [mbind option_bind]. rewrite He'.
  cbn [mbind option_bind]. rewrite Hb. cbn [mbind option_bind]. split; [done|].
  split; [constructor; [unfold in_u8, u8_bound; lia|done]|]. split; [rewrite zlen_cons; lia|].
  unfold hex_encode in *. cbn [mbind list_bind app]. rewrite He.
  replace ((d * 16 + e) / 16) with d by (Z.to_euclidean_division_equations; lia).
  replace ((d * 16 + e) mod 16) with e by (Z.to_euclidean_division_equations; lia). by rewrite Hx, Hy.
Qed.
Lemma hex_decode_lower64 s :
  lower_hex64 s = true → ∃ b, hex_decode s = Some b ∧ id_ok b ∧ hex_encode b = s.
Proof.
  unfold lower_hex64. intros Hs. bools. destruct (hex_decode_lower 32 s) as (b & ? & ? & ? & ?);
    [unfold zlen in *; lia|done|]. by exists b.
Qed.

Section laws.
Context `{CryptoLaws}.
Implicit Types (key : MacKey) (domain stream expected_hex : bytes).

Lemma verify_hex_iff key stream tag : lower_hex64 tag = true →
  verify_hex key stream tag = Ok tt ↔ tag_hex key stream = Ok tag.
Proof.
  intros Ht. destruct (hex_decode_lower64 tag Ht) as (b & Hb & Hid & He).
  unfold verify_hex, tag_hex. rewrite Hb. cbn [ok_or mbind outcome_bind].
  destruct (bytes_eqb _ b) eqn:E.
  - apply bytes_eqb_eq in E. rewrite E, He. done.
  - split; [done|]. intros [= E']. rewrite <-E' in He. apply hex_encode_inj in He; [|apply Hid|apply hmac_id].
    by rewrite He, bytes_eqb_refl in E.
Qed.
Lemma verify_domain_hex_iff key domain stream tag :
  verify_domain_hex key domain stream tag = Ok tt ↔ tag_domain_hex key domain stream = Ok tag.
Proof.
  unfold verify_domain_hex, tag_domain_hex. destruct (domain_ok domain); [|done]. cbn [negb].
  destruct (lower_hex64 tag) eqn:Ht.
  - destruct (hex_decode_lower64 tag Ht) as (b & Hb & Hid & He). unfold lower_hex64 in Ht.
    apply andb_prop in Ht as [-> ->]. cbn [negb orb]. rewrite Hb. cbn [ok_or mbind outcome_bind].
    destruct (bytes_eqb _ b) eqn:E.
    + apply bytes_eqb_eq in E. rewrite E, He. done.
    + split; [done|]. intros [= E']. rewrite <-E' in He. apply hex_encode_inj in He; [|apply Hid|apply hmac_id].
      by rewrite He, bytes_eqb_refl in E.
  - assert (negb (zlen tag =? 64) || negb (forallb is_lower_hex tag) = true) as ->.
    { unfold lower_hex64 in Ht. apply andb_false_iff in Ht as [-> | ->]; [done|by rewrite orb_true_r]. }
    split; [done|]. intros [= <-]. by rewrite hex_encode_id64 in Ht by apply hmac_id.
Qed.
Lemma domain_stream_inj d s d' s' :
  domain_ok d = true → domain_ok d' = true → domain_stream d s = domain_stream d' s' → d = d' ∧ s = s'.
Proof.
  unfold domain_ok, domain_stream. intros Hd Hd' E. bools. apply app_inv_head, app_inv_head in E.
  pose proof (zlen_nonneg d). pose proof (zlen_nonneg d').
  apply app_inj_zlen in E as [E1 E2]; [|by rewrite !zlen_be_bytes].
  apply be_bytes_inj in E1; [|change (256 ^ Z.of_nat 2) with 65536; lia..]. by apply app_inj_zlen in E2.
Qed.
End laws.

Lemma MacKey_from_hex_iff s k :
  MacKey_from_hex s = Ok k ↔ id_ok k ∧ s = hex_encode k.
Proof.
  unfold MacKey_from_hex. split.
  - intros Hk. inv_ok. bools. destruct (hex_decode_lower64 s) as (b & Hb & Hid & He).
    { unfold lower_hex64. apply andb_true_intro. split; [by apply Z.eqb_eq|done]. }
    assert (b = k) as -> by congruence. done.
  - intros [Hk ->]. pose proof (hex_encode_id64 _ Hk) as Hl. unfold lower_hex64 in Hl.
    apply andb_prop in Hl as [-> ->]. cbn [negb orb]. by rewrite hex_decode_encode by apply Hk.
Qed.
