(* ===== verification/HandoffManifest.v ===== *)
(** * Handoff manifests (crates/kvpack-handoff/src/manifest.rs)

    The manifests of the protocol with the fields and the JSON form serde
    derives for them, the v2 layout table, its walk and its frame accounting.
    Every structure denies unknown fields; [skip_serializing_if] fields are
    absent from the object when empty. *)
From Stdlib Require Import ZArith Lia.
From stdpp Require Import base tactics numbers list strings option sorting.
From S2P Require Import Prelude Bytes Canonical Crypto HandoffJson.

Definition LIVE_HANDOFF_SCHEMA_V1 : Z := 1.
Definition LIVE_HANDOFF_PROTOCOL_V1 : bytes := str "kvpack-live-f16-le-v1".
Definition PORTABLE_KV_ABI_V1 : bytes := str "canonical-kv-f16-le-v1".
Definition PORTABLE_KV_ABI_V2 : bytes := str "canonical-kv-v2".
Definition PORTABLE_KV_ABI_V2_PREROPE : bytes := str "canonical-kv-prerope-v2".
Definition WIRE_SCHEDULE_LAYER_ORDER : bytes := str "layer-order".
Definition WIRE_SCHEDULE_DECODE_PRIORITY : bytes := str "decode-priority".
Definition FRAME_MAGIC : bytes := str "KVHF".

(** ** Enumerations *)
Inductive HandoffStrategyV1 := ConsumerLastPromptToken.
Inductive TensorRoleV1 := Key | Value_role.
#[export] Instance HandoffStrategyV1_eq_dec : EqDecision HandoffStrategyV1.
Proof. solve_decision. Defined.
#[export] Instance TensorRoleV1_eq_dec : EqDecision TensorRoleV1.
Proof. solve_decision. Defined.
Definition suffix (r : TensorRoleV1) : bytes := match r with Key => str "k" | Value_role => str "v" end.

Definition serde_HandoffStrategyV1 : Serde HandoffStrategyV1 := mkSerde
  (λ s, match s with ConsumerLastPromptToken => JString (str "consumer_last_prompt_token") end)
  (λ v, match v with
        | JString s => if bytes_eqb s (str "consumer_last_prompt_token") then Some ConsumerLastPromptToken
                       else None
        | _ => None end)
  (λ _, True).
Definition serde_TensorRoleV1 : Serde TensorRoleV1 := mkSerde
  (λ r, match r with Key => JString (str "key") | Value_role => JString (str "value") end)
  (λ v, match v with
        | JString s => if bytes_eqb s (str "key") then Some Key
                       else if bytes_eqb s (str "value") then Some Value_role else None
        | _ => None end)
  (λ _, True).
#[export] Instance serde_HandoffStrategyV1_laws : SerdeLaws serde_HandoffStrategyV1.
Proof. split; [by intros []| |done]. intros [] _. constructor. by split; [apply bytes_okb_ok|]. Qed.
#[export] Instance serde_HandoffStrategyV1_depth d : SerdeDepth serde_HandoffStrategyV1 d.
Proof. intros []; constructor. Qed.
#[export] Instance serde_TensorRoleV1_laws : SerdeLaws serde_TensorRoleV1.
Proof. split; [by intros []| |done]. intros [] _; constructor; by split; [apply bytes_okb_ok|]. Qed.
#[export] Instance serde_TensorRoleV1_depth d : SerdeDepth serde_TensorRoleV1 d.
Proof. intros []; constructor. Qed.

(** [[u32; 3]] *)
Definition serde_shape : Serde (Z * Z * Z) := mkSerde
  (λ '(a, b, c), JArray [JNumber a; JNumber b; JNumber c])
  (λ v, match v with
        | JArray [x; y; z] =>
            a ← from_value serde_u32 x; b ← from_value serde_u32 y; c ← from_value serde_u32 z;
            Some (a, b, c)
        | _ => None end)
  (λ '(a, b, c), in_u32 a ∧ in_u32 b ∧ in_u32 c).
#[export] Instance serde_shape_laws : SerdeLaws serde_shape.
Proof.
  split.
  - intros [[a b] c] (Ha & Hb & Hc). cbn [to_value from_value serde_shape]. rewrite sorted_array. cbn [fmap list_fmap sorted_value].
    rewrite (serde_roundtrip (s:=serde_u32) a Ha : from_value serde_u32 (JNumber a) = Some a). cbn [mbind option_bind].
    rewrite (serde_roundtrip (s:=serde_u32) b Hb : from_value serde_u32 (JNumber b) = Some b). cbn [mbind option_bind].
    by rewrite (serde_roundtrip (s:=serde_u32) c Hc : from_value serde_u32 (JNumber c) = Some c).
  - intros [[a b] c] (Ha & Hb & Hc). constructor. repeat constructor; unfold in_u32, u32_bound, u64_bound in *; lia.
  - intros v [[a b] c] Hv E. cbn [from_value serde_shape] in E.
    destruct v as [| | | |[|x [|y [|z [|? ?]]]]|]; try done. inversion Hv as [| | | |? Hi|]; subst.
    apply Forall_cons_iff in Hi as [? Hi]. apply Forall_cons_iff in Hi as [? Hi]. apply Forall_cons_iff in Hi as [? _].
    apply bind_Some in E as (? & E1 & E). apply bind_Some in E as (? & E2 & E). apply bind_Some in E as (? & E3 & E).
    injection E as <- <- <-.
    apply (serde_typed (s:=serde_u32)) in E1, E2, E3; done.
Qed.
#[export] Instance serde_shape_depth d : SerdeDepth serde_shape (1 + d).
Proof. intros [[a b] c]. repeat constructor. Qed.

(** ** Manifests *)
Record EndpointIdentityV1 := mkEndpointIdentityV1 {
  ei_consumer_engine_abi : bytes;
  ei_consumer_node : bytes;
  ei_producer_engine_abi : bytes;
  ei_producer_node : bytes;
  ei_trust_domain : bytes
}.
Definition EndpointIdentityV1_fields : list bytes := ascii_bytes <$>
  ["consumer_engine_abi"; "consumer_node"; "producer_engine_abi"; "producer_node";
   "trust_domain"].
Definition EndpointIdentityV1_vals (a : EndpointIdentityV1) : list (option Value) :=
  [Some (to_value serde_string (ei_consumer_engine_abi a));
   Some (to_value serde_string (ei_consumer_node a));
   Some (to_value serde_string (ei_producer_engine_abi a));
   Some (to_value serde_string (ei_producer_node a));
   Some (to_value serde_string (ei_trust_domain a))].
Definition EndpointIdentityV1_from (o : list (bytes * Value)) : option EndpointIdentityV1 :=
  ei_consumer_engine_abi ← field serde_string "consumer_engine_abi" o;
  ei_consumer_node ← field serde_string "consumer_node" o;
  ei_producer_engine_abi ← field serde_string "producer_engine_abi" o;
  ei_producer_node ← field serde_string "producer_node" o;
  ei_trust_domain ← field serde_string "trust_domain" o;
  Some (mkEndpointIdentityV1 ei_consumer_engine_abi ei_consumer_node ei_producer_engine_abi
  ei_producer_node ei_trust_domain).
Definition EndpointIdentityV1_typed (a : EndpointIdentityV1) : Prop :=
  typed_as serde_string (ei_consumer_engine_abi a) ∧
  typed_as serde_string (ei_consumer_node a) ∧
  typed_as serde_string (ei_producer_engine_abi a) ∧
  typed_as serde_string (ei_producer_node a) ∧
  typed_as serde_string (ei_trust_domain a).
Definition serde_EndpointIdentityV1 : Serde EndpointIdentityV1 :=
  serde_struct EndpointIdentityV1_fields EndpointIdentityV1_vals EndpointIdentityV1_from EndpointIdentityV1_typed.
#[export] Instance serde_EndpointIdentityV1_laws : SerdeLaws serde_EndpointIdentityV1.
Proof. serde_laws EndpointIdentityV1_vals EndpointIdentityV1_from EndpointIdentityV1_typed. Qed.
#[export] Instance serde_EndpointIdentityV1_depth d : SerdeDepth serde_EndpointIdentityV1 (1 + d).
Proof. serde_nesting EndpointIdentityV1_vals. Qed.

Record ExactIdentityV1 := mkExactIdentityV1 {
  xi_adapter_sha256 : bytes;
  xi_chat_template_sha256 : bytes;
  xi_context_policy_sha256 : bytes;
  xi_model_revision : bytes;
  xi_model_sha256 : bytes;
  xi_tokenizer_revision : bytes;
  xi_tokenizer_sha256 : bytes
}.
Definition ExactIdentityV1_fields : list bytes := ascii_bytes <$>
  ["adapter_sha256"; "chat_template_sha256"; "context_policy_sha256"; "model_revision";
   "model_sha256"; "tokenizer_revision"; "tokenizer_sha256"].
Definition ExactIdentityV1_vals (a : ExactIdentityV1) : list (option Value) :=
  [Some (to_value serde_string (xi_adapter_sha256 a));
   Some (to_value serde_string (xi_chat_template_sha256 a));
   Some (to_value serde_string (xi_context_policy_sha256 a));
   Some (to_value serde_string (xi_model_revision a));
   Some (to_value serde_string (xi_model_sha256 a));
   Some (to_value serde_string (xi_tokenizer_revision a));
   Some (to_value serde_string (xi_tokenizer_sha256 a))].
Definition ExactIdentityV1_from (o : list (bytes * Value)) : option ExactIdentityV1 :=
  xi_adapter_sha256 ← field serde_string "adapter_sha256" o;
  xi_chat_template_sha256 ← field serde_string "chat_template_sha256" o;
  xi_context_policy_sha256 ← field serde_string "context_policy_sha256" o;
  xi_model_revision ← field serde_string "model_revision" o;
  xi_model_sha256 ← field serde_string "model_sha256" o;
  xi_tokenizer_revision ← field serde_string "tokenizer_revision" o;
  xi_tokenizer_sha256 ← field serde_string "tokenizer_sha256" o;
  Some (mkExactIdentityV1 xi_adapter_sha256 xi_chat_template_sha256 xi_context_policy_sha256
  xi_model_revision xi_model_sha256 xi_tokenizer_revision xi_tokenizer_sha256).
Definition ExactIdentityV1_typed (a : ExactIdentityV1) : Prop :=
  typed_as serde_string (xi_adapter_sha256 a) ∧
  typed_as serde_string (xi_chat_template_sha256 a) ∧
  typed_as serde_string (xi_context_policy_sha256 a) ∧
  typed_as serde_string (xi_model_revision a) ∧
  typed_as serde_string (xi_model_sha256 a) ∧
  typed_as serde_string (xi_tokenizer_revision a) ∧
  typed_as serde_string (xi_tokenizer_sha256 a).
Definition serde_ExactIdentityV1 : Serde ExactIdentityV1 :=
  serde_struct ExactIdentityV1_fields ExactIdentityV1_vals ExactIdentityV1_from ExactIdentityV1_typed.
#[export] Instance serde_ExactIdentityV1_laws : SerdeLaws serde_ExactIdentityV1.
Proof. serde_laws ExactIdentityV1_vals ExactIdentityV1_from ExactIdentityV1_typed. Qed.
#[export] Instance serde_ExactIdentityV1_depth d : SerdeDepth serde_ExactIdentityV1 (1 + d).
Proof. serde_nesting ExactIdentityV1_vals. Qed.

Record GeometryV1 := mkGeometryV1 {
  ge_head_dim : Z;
  ge_max_context_tokens : Z;
  ge_num_kv_heads : Z;
  ge_num_layers : Z
}.
Definition GeometryV1_fields : list bytes := ascii_bytes <$>
  ["head_dim"; "max_context_tokens"; "num_kv_heads"; "num_layers"].
Definition GeometryV1_vals (a : GeometryV1) : list (option Value) :=
  [Some (to_value serde_u32 (ge_head_dim a));
   Some (to_value serde_u32 (ge_max_context_tokens a));
   Some (to_value serde_u32 (ge_num_kv_heads a));
   Some (to_value serde_u32 (ge_num_layers a))].
Definition GeometryV1_from (o : list (bytes * Value)) : option GeometryV1 :=
  ge_head_dim ← field serde_u32 "head_dim" o;
  ge_max_context_tokens ← field serde_u32 "max_context_tokens" o;
  ge_num_kv_heads ← field serde_u32 "num_kv_heads" o;
  ge_num_layers ← field serde_u32 "num_layers" o;
  Some (mkGeometryV1 ge_head_dim ge_max_context_tokens ge_num_kv_heads ge_num_layers).
Definition GeometryV1_typed (a : GeometryV1) : Prop :=
  typed_as serde_u32 (ge_head_dim a) ∧
  typed_as serde_u32 (ge_max_context_tokens a) ∧
  typed_as serde_u32 (ge_num_kv_heads a) ∧
  typed_as serde_u32 (ge_num_layers a).
Definition serde_GeometryV1 : Serde GeometryV1 :=
  serde_struct GeometryV1_fields GeometryV1_vals GeometryV1_from GeometryV1_typed.
#[export] Instance serde_GeometryV1_laws : SerdeLaws serde_GeometryV1.
Proof. serde_laws GeometryV1_vals GeometryV1_from GeometryV1_typed. Qed.
#[export] Instance serde_GeometryV1_depth d : SerdeDepth serde_GeometryV1 (1 + d).
Proof. serde_nesting GeometryV1_vals. Qed.

Record PrecisionV1 := mkPrecisionV1 {
  pr_compute : bytes;
  pr_kv : bytes;
  pr_weights : bytes
}.
Definition PrecisionV1_fields : list bytes := ascii_bytes <$>
  ["compute"; "kv"; "weights"].
Definition PrecisionV1_vals (a : PrecisionV1) : list (option Value) :=
  [Some (to_value serde_string (pr_compute a));
   Some (to_value serde_string (pr_kv a));
   Some (to_value serde_string (pr_weights a))].
Definition PrecisionV1_from (o : list (bytes * Value)) : option PrecisionV1 :=
  pr_compute ← field serde_string "compute" o;
  pr_kv ← field serde_string "kv" o;
  pr_weights ← field serde_string "weights" o;
  Some (mkPrecisionV1 pr_compute pr_kv pr_weights).
Definition PrecisionV1_typed (a : PrecisionV1) : Prop :=
  typed_as serde_string (pr_compute a) ∧
  typed_as serde_string (pr_kv a) ∧
  typed_as serde_string (pr_weights a).
Definition serde_PrecisionV1 : Serde PrecisionV1 :=
  serde_struct PrecisionV1_fields PrecisionV1_vals PrecisionV1_from PrecisionV1_typed.
#[export] Instance serde_PrecisionV1_laws : SerdeLaws serde_PrecisionV1.
Proof. serde_laws PrecisionV1_vals PrecisionV1_from PrecisionV1_typed. Qed.
#[export] Instance serde_PrecisionV1_depth d : SerdeDepth serde_PrecisionV1 (1 + d).
Proof. serde_nesting PrecisionV1_vals. Qed.

Record LayoutClassV2 := mkLayoutClassV2 {
  lc_class : bytes;
  lc_dtype : bytes;
  lc_except : list Z;
  lc_from : Z;
  lc_head_dim : Z;
  lc_kv_heads : Z;
  lc_roles : list TensorRoleV1;
  lc_step : Z;
  lc_until : Z;
  lc_window_tokens : Z
}.
Definition LayoutClassV2_fields : list bytes := ascii_bytes <$>
  ["class"; "dtype"; "except"; "from"; "head_dim"; "kv_heads"; "roles"; "step"; "until";
   "window_tokens"].
Definition LayoutClassV2_vals (a : LayoutClassV2) : list (option Value) :=
  [Some (to_value serde_string (lc_class a));
   Some (to_value serde_string (lc_dtype a));
   Some (to_value (serde_vec serde_u32) (lc_except a));
   Some (to_value serde_u32 (lc_from a));
   Some (to_value serde_u32 (lc_head_dim a));
   Some (to_value serde_u32 (lc_kv_heads a));
   Some (to_value (serde_vec serde_TensorRoleV1) (lc_roles a));
   Some (to_value serde_u32 (lc_step a));
   Some (to_value serde_u32 (lc_until a));
   Some (to_value serde_u32 (lc_window_tokens a))].
Definition LayoutClassV2_from (o : list (bytes * Value)) : option LayoutClassV2 :=
  lc_class ← field serde_string "class" o;
  lc_dtype ← field serde_string "dtype" o;
  lc_except ← field (serde_vec serde_u32) "except" o;
  lc_from ← field serde_u32 "from" o;
  lc_head_dim ← field serde_u32 "head_dim" o;
  lc_kv_heads ← field serde_u32 "kv_heads" o;
  lc_roles ← field (serde_vec serde_TensorRoleV1) "roles" o;
  lc_step ← field serde_u32 "step" o;
  lc_until ← field serde_u32 "until" o;
  lc_window_tokens ← field serde_u32 "window_tokens" o;
  Some (mkLayoutClassV2 lc_class lc_dtype lc_except lc_from lc_head_dim lc_kv_heads lc_roles
  lc_step lc_until lc_window_tokens).
Definition LayoutClassV2_typed (a : LayoutClassV2) : Prop :=
  typed_as serde_string (lc_class a) ∧
  typed_as serde_string (lc_dtype a) ∧
  typed_as (serde_vec serde_u32) (lc_except a) ∧
  typed_as serde_u32 (lc_from a) ∧
  typed_as serde_u32 (lc_head_dim a) ∧
  typed_as serde_u32 (lc_kv_heads a) ∧
  typed_as (serde_vec serde_TensorRoleV1) (lc_roles a) ∧
  typed_as serde_u32 (lc_step a) ∧
  typed_as serde_u32 (lc_until a) ∧
  typed_as serde_u32 (lc_window_tokens a).
Definition serde_LayoutClassV2 : Serde LayoutClassV2 :=
  serde_struct LayoutClassV2_fields LayoutClassV2_vals LayoutClassV2_from LayoutClassV2_typed.
#[export] Instance serde_LayoutClassV2_laws : SerdeLaws serde_LayoutClassV2.
Proof. serde_laws LayoutClassV2_vals LayoutClassV2_from LayoutClassV2_typed. Qed.
#[export] Instance serde_LayoutClassV2_depth d : SerdeDepth serde_LayoutClassV2 (2 + d).
Proof. serde_nesting LayoutClassV2_vals. Qed.

Record BeginManifestV1 := mkBeginManifestV1 {
  bm_cached_token_count : Z;
  bm_created_unix_ms : Z;
  bm_deadline_unix_ms : Z;
  bm_endpoints : EndpointIdentityV1;
  bm_expected_layer_frames : Z;
  bm_expected_payload_bytes : Z;
  bm_geometry : GeometryV1;
  bm_identity : ExactIdentityV1;
  bm_portable_abi : bytes;
  bm_precision : PrecisionV1;
  bm_protocol : bytes;
  bm_schema_version : Z;
  bm_strategy : HandoffStrategyV1;
  bm_token_ids_sha256 : bytes;
  bm_transfer_id : bytes;
  bm_layout_table : list LayoutClassV2;
  bm_schedule : option bytes;
  bm_hmac_key_id : option bytes
}.
Definition BeginManifestV1_fields : list bytes := ascii_bytes <$>
  ["cached_token_count"; "created_unix_ms"; "deadline_unix_ms"; "endpoints";
   "expected_layer_frames"; "expected_payload_bytes"; "geometry"; "identity"; "portable_abi";
   "precision"; "protocol"; "schema_version"; "strategy"; "token_ids_sha256"; "transfer_id";
   "layout_table"; "schedule"; "hmac_key_id"].
Definition BeginManifestV1_vals (a : BeginManifestV1) : list (option Value) :=
  [Some (to_value serde_u32 (bm_cached_token_count a));
   Some (to_value serde_u64 (bm_created_unix_ms a));
   Some (to_value serde_u64 (bm_deadline_unix_ms a));
   Some (to_value serde_EndpointIdentityV1 (bm_endpoints a));
   Some (to_value serde_u32 (bm_expected_layer_frames a));
   Some (to_value serde_u64 (bm_expected_payload_bytes a));
   Some (to_value serde_GeometryV1 (bm_geometry a));
   Some (to_value serde_ExactIdentityV1 (bm_identity a));
   Some (to_value serde_string (bm_portable_abi a));
   Some (to_value serde_PrecisionV1 (bm_precision a));
   Some (to_value serde_string (bm_protocol a));
   Some (to_value serde_u32 (bm_schema_version a));
   Some (to_value serde_HandoffStrategyV1 (bm_strategy a));
   Some (to_value serde_string (bm_token_ids_sha256 a));
   Some (to_value serde_string (bm_transfer_id a));
   if bool_decide (bm_layout_table a = []) then None else Some (to_value (serde_vec serde_LayoutClassV2) (bm_layout_table a));
   to_value serde_string <$> bm_schedule a;
   to_value serde_string <$> bm_hmac_key_id a].
Definition BeginManifestV1_from (o : list (bytes * Value)) : option BeginManifestV1 :=
  bm_cached_token_count ← field serde_u32 "cached_token_count" o;
  bm_created_unix_ms ← field serde_u64 "created_unix_ms" o;
  bm_deadline_unix_ms ← field serde_u64 "deadline_unix_ms" o;
  bm_endpoints ← field serde_EndpointIdentityV1 "endpoints" o;
  bm_expected_layer_frames ← field serde_u32 "expected_layer_frames" o;
  bm_expected_payload_bytes ← field serde_u64 "expected_payload_bytes" o;
  bm_geometry ← field serde_GeometryV1 "geometry" o;
  bm_identity ← field serde_ExactIdentityV1 "identity" o;
  bm_portable_abi ← field serde_string "portable_abi" o;
  bm_precision ← field serde_PrecisionV1 "precision" o;
  bm_protocol ← field serde_string "protocol" o;
  bm_schema_version ← field serde_u32 "schema_version" o;
  bm_strategy ← field serde_HandoffStrategyV1 "strategy" o;
  bm_token_ids_sha256 ← field serde_string "token_ids_sha256" o;
  bm_transfer_id ← field serde_string "transfer_id" o;
  bm_layout_table ← default_vec_field serde_LayoutClassV2 "layout_table" o;
  bm_schedule ← option_field serde_string "schedule" o;
  bm_hmac_key_id ← option_field serde_string "hmac_key_id" o;
  Some (mkBeginManifestV1 bm_cached_token_count bm_created_unix_ms bm_deadline_unix_ms
  bm_endpoints bm_expected_layer_frames bm_expected_payload_bytes bm_geometry bm_identity
  bm_portable_abi bm_precision bm_protocol bm_schema_version bm_strategy bm_token_ids_sha256
  bm_transfer_id bm_layout_table bm_schedule bm_hmac_key_id).
Definition BeginManifestV1_typed (a : BeginManifestV1) : Prop :=
  typed_as serde_u32 (bm_cached_token_count a) ∧
  typed_as serde_u64 (bm_created_unix_ms a) ∧
  typed_as serde_u64 (bm_deadline_unix_ms a) ∧
  typed_as serde_EndpointIdentityV1 (bm_endpoints a) ∧
  typed_as serde_u32 (bm_expected_layer_frames a) ∧
  typed_as serde_u64 (bm_expected_payload_bytes a) ∧
  typed_as serde_GeometryV1 (bm_geometry a) ∧
  typed_as serde_ExactIdentityV1 (bm_identity a) ∧
  typed_as serde_string (bm_portable_abi a) ∧
  typed_as serde_PrecisionV1 (bm_precision a) ∧
  typed_as serde_string (bm_protocol a) ∧
  typed_as serde_u32 (bm_schema_version a) ∧
  typed_as serde_HandoffStrategyV1 (bm_strategy a) ∧
  typed_as serde_string (bm_token_ids_sha256 a) ∧
  typed_as serde_string (bm_transfer_id a) ∧
  Forall (typed_as serde_LayoutClassV2) (bm_layout_table a) ∧
  option_typed serde_string (bm_schedule a) ∧
  option_typed serde_string (bm_hmac_key_id a).
Definition serde_BeginManifestV1 : Serde BeginManifestV1 :=
  serde_struct BeginManifestV1_fields BeginManifestV1_vals BeginManifestV1_from BeginManifestV1_typed.
#[export] Instance serde_BeginManifestV1_laws : SerdeLaws serde_BeginManifestV1.
Proof. serde_laws BeginManifestV1_vals BeginManifestV1_from BeginManifestV1_typed. Qed.
#[export] Instance serde_BeginManifestV1_depth d : SerdeDepth serde_BeginManifestV1 (4 + d).
Proof. serde_nesting BeginManifestV1_vals. Qed.

Record LayerHeaderV1 := mkLayerHeaderV1 {
  lh_byte_length : Z;
  lh_layer : Z;
  lh_logical_token_end : Z;
  lh_logical_token_start : Z;
  lh_role : TensorRoleV1;
  lh_schema_version : Z;
  lh_sequence : Z;
  lh_sha256 : bytes;
  lh_shape : (Z * Z * Z);
  lh_transfer_id : bytes;
  lh_dtype : option bytes;
  lh_layout_class : option bytes
}.
Definition LayerHeaderV1_fields : list bytes := ascii_bytes <$>
  ["byte_length"; "layer"; "logical_token_end"; "logical_token_start"; "role"; "schema_version";
   "sequence"; "sha256"; "shape"; "transfer_id"; "dtype"; "layout_class"].
Definition LayerHeaderV1_vals (a : LayerHeaderV1) : list (option Value) :=
  [Some (to_value serde_u64 (lh_byte_length a));
   Some (to_value serde_u32 (lh_layer a));
   Some (to_value serde_u32 (lh_logical_token_end a));
   Some (to_value serde_u32 (lh_logical_token_start a));
   Some (to_value serde_TensorRoleV1 (lh_role a));
   Some (to_value serde_u32 (lh_schema_version a));
   Some (to_value serde_u32 (lh_sequence a));
   Some (to_value serde_string (lh_sha256 a));
   Some (to_value serde_shape (lh_shape a));
   Some (to_value serde_string (lh_transfer_id a));
   to_value serde_string <$> lh_dtype a;
   to_value serde_string <$> lh_layout_class a].
Definition LayerHeaderV1_from (o : list (bytes * Value)) : option LayerHeaderV1 :=
  lh_byte_length ← field serde_u64 "byte_length" o;
  lh_layer ← field serde_u32 "layer" o;
  lh_logical_token_end ← field serde_u32 "logical_token_end" o;
  lh_logical_token_start ← field serde_u32 "logical_token_start" o;
  lh_role ← field serde_TensorRoleV1 "role" o;
  lh_schema_version ← field serde_u32 "schema_version" o;
  lh_sequence ← field serde_u32 "sequence" o;
  lh_sha256 ← field serde_string "sha256" o;
  lh_shape ← field serde_shape "shape" o;
  lh_transfer_id ← field serde_string "transfer_id" o;
  lh_dtype ← option_field serde_string "dtype" o;
  lh_layout_class ← option_field serde_string "layout_class" o;
  Some (mkLayerHeaderV1 lh_byte_length lh_layer lh_logical_token_end lh_logical_token_start
  lh_role lh_schema_version lh_sequence lh_sha256 lh_shape lh_transfer_id lh_dtype
  lh_layout_class).
Definition LayerHeaderV1_typed (a : LayerHeaderV1) : Prop :=
  typed_as serde_u64 (lh_byte_length a) ∧
  typed_as serde_u32 (lh_layer a) ∧
  typed_as serde_u32 (lh_logical_token_end a) ∧
  typed_as serde_u32 (lh_logical_token_start a) ∧
  typed_as serde_TensorRoleV1 (lh_role a) ∧
  typed_as serde_u32 (lh_schema_version a) ∧
  typed_as serde_u32 (lh_sequence a) ∧
  typed_as serde_string (lh_sha256 a) ∧
  typed_as serde_shape (lh_shape a) ∧
  typed_as serde_string (lh_transfer_id a) ∧
  option_typed serde_string (lh_dtype a) ∧
  option_typed serde_string (lh_layout_class a).
Definition serde_LayerHeaderV1 : Serde LayerHeaderV1 :=
  serde_struct LayerHeaderV1_fields LayerHeaderV1_vals LayerHeaderV1_from LayerHeaderV1_typed.
#[export] Instance serde_LayerHeaderV1_laws : SerdeLaws serde_LayerHeaderV1.
Proof. serde_laws LayerHeaderV1_vals LayerHeaderV1_from LayerHeaderV1_typed. Qed.
#[export] Instance serde_LayerHeaderV1_depth d : SerdeDepth serde_LayerHeaderV1 (2 + d).
Proof. serde_nesting LayerHeaderV1_vals. Qed.

Record CanaryRecord := mkCanaryRecord {
  cr_sample_token_start : Z;
  cr_sample_token_count : Z;
  cr_post_rope_k_sha256 : bytes;
  cr_post_rope_v_sha256 : bytes
}.
Definition CanaryRecord_fields : list bytes := ascii_bytes <$>
  ["sample_token_start"; "sample_token_count"; "post_rope_k_sha256"; "post_rope_v_sha256"].
Definition CanaryRecord_vals (a : CanaryRecord) : list (option Value) :=
  [Some (to_value serde_u32 (cr_sample_token_start a));
   Some (to_value serde_u32 (cr_sample_token_count a));
   Some (to_value serde_string (cr_post_rope_k_sha256 a));
   Some (to_value serde_string (cr_post_rope_v_sha256 a))].
Definition CanaryRecord_from (o : list (bytes * Value)) : option CanaryRecord :=
  cr_sample_token_start ← field serde_u32 "sample_token_start" o;
  cr_sample_token_count ← field serde_u32 "sample_token_count" o;
  cr_post_rope_k_sha256 ← field serde_string "post_rope_k_sha256" o;
  cr_post_rope_v_sha256 ← field serde_string "post_rope_v_sha256" o;
  Some (mkCanaryRecord cr_sample_token_start cr_sample_token_count cr_post_rope_k_sha256
  cr_post_rope_v_sha256).
Definition CanaryRecord_typed (a : CanaryRecord) : Prop :=
  typed_as serde_u32 (cr_sample_token_start a) ∧
  typed_as serde_u32 (cr_sample_token_count a) ∧
  typed_as serde_string (cr_post_rope_k_sha256 a) ∧
  typed_as serde_string (cr_post_rope_v_sha256 a).
Definition serde_CanaryRecord : Serde CanaryRecord :=
  serde_struct CanaryRecord_fields CanaryRecord_vals CanaryRecord_from CanaryRecord_typed.
#[export] Instance serde_CanaryRecord_laws : SerdeLaws serde_CanaryRecord.
Proof. serde_laws CanaryRecord_vals CanaryRecord_from CanaryRecord_typed. Qed.
#[export] Instance serde_CanaryRecord_depth d : SerdeDepth serde_CanaryRecord (1 + d).
Proof. serde_nesting CanaryRecord_vals. Qed.

#[export] Instance serde_CanaryRecord_not_null : SerdeNotNull serde_CanaryRecord.
Proof. intros a. unfold serde_CanaryRecord. cbn [to_value serde_struct]. by rewrite sorted_object. Qed.

Record SealCoreV1 := mkSealCoreV1 {
  sc_completed_unix_ms : Z;
  sc_descriptor_chain_sha256 : bytes;
  sc_frame_count : Z;
  sc_payload_bytes : Z;
  sc_payload_sha256 : bytes;
  sc_prompt_token_ids : list Z;
  sc_protocol : bytes;
  sc_schema_version : Z;
  sc_strategy : HandoffStrategyV1;
  sc_token_ids_sha256 : bytes;
  sc_transfer_id : bytes;
  sc_canary : option CanaryRecord
}.
Definition SealCoreV1_fields : list bytes := ascii_bytes <$>
  ["completed_unix_ms"; "descriptor_chain_sha256"; "frame_count"; "payload_bytes";
   "payload_sha256"; "prompt_token_ids"; "protocol"; "schema_version"; "strategy";
   "token_ids_sha256"; "transfer_id"; "canary"].
Definition SealCoreV1_vals (a : SealCoreV1) : list (option Value) :=
  [Some (to_value serde_u64 (sc_completed_unix_ms a));
   Some (to_value serde_string (sc_descriptor_chain_sha256 a));
   Some (to_value serde_u32 (sc_frame_count a));
   Some (to_value serde_u64 (sc_payload_bytes a));
   Some (to_value serde_string (sc_payload_sha256 a));
   Some (to_value (serde_vec serde_u32) (sc_prompt_token_ids a));
   Some (to_value serde_string (sc_protocol a));
   Some (to_value serde_u32 (sc_schema_version a));
   Some (to_value serde_HandoffStrategyV1 (sc_strategy a));
   Some (to_value serde_string (sc_token_ids_sha256 a));
   Some (to_value serde_string (sc_transfer_id a));
   to_value serde_CanaryRecord <$> sc_canary a].
Definition SealCoreV1_from (o : list (bytes * Value)) : option SealCoreV1 :=
  sc_completed_unix_ms ← field serde_u64 "completed_unix_ms" o;
  sc_descriptor_chain_sha256 ← field serde_string "descriptor_chain_sha256" o;
  sc_frame_count ← field serde_u32 "frame_count" o;
  sc_payload_bytes ← field serde_u64 "payload_bytes" o;
  sc_payload_sha256 ← field serde_string "payload_sha256" o;
  sc_prompt_token_ids ← field (serde_vec serde_u32) "prompt_token_ids" o;
  sc_protocol ← field serde_string "protocol" o;
  sc_schema_version ← field serde_u32 "schema_version" o;
  sc_strategy ← field serde_HandoffStrategyV1 "strategy" o;
  sc_token_ids_sha256 ← field serde_string "token_ids_sha256" o;
  sc_transfer_id ← field serde_string "transfer_id" o;
  sc_canary ← option_field serde_CanaryRecord "canary" o;
  Some (mkSealCoreV1 sc_completed_unix_ms sc_descriptor_chain_sha256 sc_frame_count
  sc_payload_bytes sc_payload_sha256 sc_prompt_token_ids sc_protocol sc_schema_version
  sc_strategy sc_token_ids_sha256 sc_transfer_id sc_canary).
Definition SealCoreV1_typed (a : SealCoreV1) : Prop :=
  typed_as serde_u64 (sc_completed_unix_ms a) ∧
  typed_as serde_string (sc_descriptor_chain_sha256 a) ∧
  typed_as serde_u32 (sc_frame_count a) ∧
  typed_as serde_u64 (sc_payload_bytes a) ∧
  typed_as serde_string (sc_payload_sha256 a) ∧
  typed_as (serde_vec serde_u32) (sc_prompt_token_ids a) ∧
  typed_as serde_string (sc_protocol a) ∧
  typed_as serde_u32 (sc_schema_version a) ∧
  typed_as serde_HandoffStrategyV1 (sc_strategy a) ∧
  typed_as serde_string (sc_token_ids_sha256 a) ∧
  typed_as serde_string (sc_transfer_id a) ∧
  option_typed serde_CanaryRecord (sc_canary a).
Definition serde_SealCoreV1 : Serde SealCoreV1 :=
  serde_struct SealCoreV1_fields SealCoreV1_vals SealCoreV1_from SealCoreV1_typed.
#[export] Instance serde_SealCoreV1_laws : SerdeLaws serde_SealCoreV1.
Proof. serde_laws SealCoreV1_vals SealCoreV1_from SealCoreV1_typed. Qed.
#[export] Instance serde_SealCoreV1_depth d : SerdeDepth serde_SealCoreV1 (2 + d).
Proof. serde_nesting SealCoreV1_vals. Qed.

(** The seal flattens its core: one object holds the fields of both. *)
Record SealManifestV1 := mkSealManifestV1 {
  sm_artifact_sha256 : bytes;
  sm_artifact_hmac_sha256 : option bytes;
  sm_core : SealCoreV1
}.
Definition SealManifestV1_fields : list bytes :=
  (ascii_bytes <$> ["artifact_sha256"; "artifact_hmac_sha256"]) ++ SealCoreV1_fields.
Definition SealManifestV1_vals (a : SealManifestV1) : list (option Value) :=
  Some (to_value serde_string (sm_artifact_sha256 a)) ::
  (to_value serde_string <$> sm_artifact_hmac_sha256 a) :: SealCoreV1_vals (sm_core a).
Definition SealManifestV1_from (o : list (bytes * Value)) : option SealManifestV1 :=
  sm_artifact_sha256 ← field serde_string "artifact_sha256" o;
  sm_artifact_hmac_sha256 ← option_field serde_string "artifact_hmac_sha256" o;
  sm_core ← SealCoreV1_from o;
  Some (mkSealManifestV1 sm_artifact_sha256 sm_artifact_hmac_sha256 sm_core).
Definition SealManifestV1_typed (a : SealManifestV1) : Prop :=
  typed_as serde_string (sm_artifact_sha256 a) ∧
  option_typed serde_string (sm_artifact_hmac_sha256 a) ∧
  SealCoreV1_typed (sm_core a).
Definition serde_SealManifestV1 : Serde SealManifestV1 :=
  serde_struct SealManifestV1_fields SealManifestV1_vals SealManifestV1_from SealManifestV1_typed.
#[export] Instance serde_SealManifestV1_laws : SerdeLaws serde_SealManifestV1.
Proof.
  split; cbn [to_value from_value typed_as serde_SealManifestV1 serde_struct].
  - intros [h t c] (Hh & Ht & Hc). rewrite sorted_mk_object, fields_known_sorted by names_nodup.
    unfold SealCoreV1_typed in Hc. destruct_and?. unfold SealManifestV1_from, SealCoreV1_from.
    repeat serde_field. by destruct c.
  - intros [h t c] (Hh & Ht & Hc). unfold SealCoreV1_typed in Hc. destruct_and?. apply mk_object_value_ok;
      [by apply string_okb_ok|unfold SealManifestV1_vals, SealCoreV1_vals; serde_vals].
  - intros v a Hv E. destruct v; try done. unfold SealManifestV1_from, SealCoreV1_from in E.
    unfold SealManifestV1_typed, SealCoreV1_typed. inv_some. serde_typing.
Qed.
#[export] Instance serde_SealManifestV1_depth d : SerdeDepth serde_SealManifestV1 (2 + d).
Proof. serde_nesting SealManifestV1_vals. Qed.

Record AckManifestV1 := mkAckManifestV1 {
  ack_artifact_sha256 : bytes;
  ack_protocol : bytes;
  ack_schema_version : Z;
  ack_status : bytes;
  ack_transfer_id : bytes
}.
Definition AckManifestV1_fields : list bytes := ascii_bytes <$>
  ["artifact_sha256"; "protocol"; "schema_version"; "status"; "transfer_id"].
Definition AckManifestV1_vals (a : AckManifestV1) : list (option Value) :=
  [Some (to_value serde_string (ack_artifact_sha256 a));
   Some (to_value serde_string (ack_protocol a));
   Some (to_value serde_u32 (ack_schema_version a));
   Some (to_value serde_string (ack_status a));
   Some (to_value serde_string (ack_transfer_id a))].
Definition AckManifestV1_from (o : list (bytes * Value)) : option AckManifestV1 :=
  ack_artifact_sha256 ← field serde_string "artifact_sha256" o;
  ack_protocol ← field serde_string "protocol" o;
  ack_schema_version ← field serde_u32 "schema_version" o;
  ack_status ← field serde_string "status" o;
  ack_transfer_id ← field serde_string "transfer_id" o;
  Some (mkAckManifestV1 ack_artifact_sha256 ack_protocol ack_schema_version ack_status
  ack_transfer_id).
Definition AckManifestV1_typed (a : AckManifestV1) : Prop :=
  typed_as serde_string (ack_artifact_sha256 a) ∧
  typed_as serde_string (ack_protocol a) ∧
  typed_as serde_u32 (ack_schema_version a) ∧
  typed_as serde_string (ack_status a) ∧
  typed_as serde_string (ack_transfer_id a).
Definition serde_AckManifestV1 : Serde AckManifestV1 :=
  serde_struct AckManifestV1_fields AckManifestV1_vals AckManifestV1_from AckManifestV1_typed.
#[export] Instance serde_AckManifestV1_laws : SerdeLaws serde_AckManifestV1.
Proof. serde_laws AckManifestV1_vals AckManifestV1_from AckManifestV1_typed. Qed.
#[export] Instance serde_AckManifestV1_depth d : SerdeDepth serde_AckManifestV1 (1 + d).
Proof. serde_nesting AckManifestV1_vals. Qed.

Record AbortManifestV1 := mkAbortManifestV1 {
  ab_code : bytes;
  ab_protocol : bytes;
  ab_schema_version : Z;
  ab_transfer_id : bytes
}.
Definition AbortManifestV1_fields : list bytes := ascii_bytes <$>
  ["code"; "protocol"; "schema_version"; "transfer_id"].
Definition AbortManifestV1_vals (a : AbortManifestV1) : list (option Value) :=
  [Some (to_value serde_string (ab_code a));
   Some (to_value serde_string (ab_protocol a));
   Some (to_value serde_u32 (ab_schema_version a));
   Some (to_value serde_string (ab_transfer_id a))].
Definition AbortManifestV1_from (o : list (bytes * Value)) : option AbortManifestV1 :=
  ab_code ← field serde_string "code" o;
  ab_protocol ← field serde_string "protocol" o;
  ab_schema_version ← field serde_u32 "schema_version" o;
  ab_transfer_id ← field serde_string "transfer_id" o;
  Some (mkAbortManifestV1 ab_code ab_protocol ab_schema_version ab_transfer_id).
Definition AbortManifestV1_typed (a : AbortManifestV1) : Prop :=
  typed_as serde_string (ab_code a) ∧
  typed_as serde_string (ab_protocol a) ∧
  typed_as serde_u32 (ab_schema_version a) ∧
  typed_as serde_string (ab_transfer_id a).
Definition serde_AbortManifestV1 : Serde AbortManifestV1 :=
  serde_struct AbortManifestV1_fields AbortManifestV1_vals AbortManifestV1_from AbortManifestV1_typed.
#[export] Instance serde_AbortManifestV1_laws : SerdeLaws serde_AbortManifestV1.
Proof. serde_laws AbortManifestV1_vals AbortManifestV1_from AbortManifestV1_typed. Qed.
#[export] Instance serde_AbortManifestV1_depth d : SerdeDepth serde_AbortManifestV1 (1 + d).
Proof. serde_nesting AbortManifestV1_vals. Qed.
