(* ===== verification/HandoffLayout.v ===== *)
(** * The v2 layout table (crates/kvpack-handoff/src/manifest.rs, operations)

    A begin manifest either describes one uniform cache (v1, empty table) or a
    table of layer classes (v2).  The walk lists the plane expected at every
    sequence number. *)
From Stdlib Require Import ZArith Lia.
From stdpp Require Import base tactics numbers list strings option sorting.
From S2P Require Import Prelude Bytes Canonical Crypto HandoffJson HandoffManifest.

Implicit Types (begin : BeginManifestV1) (class : LayoutClassV2) (role : TensorRoleV1).

(** [(from..until).step_by(step)] *)
Definition step_by (from until step : Z) : list Z :=
  (λ i, from + i * step) <$> seqZ 0 (div_ceil (until - from) step).
Definition layers class : list Z :=
  if (lc_step class =? 0) || (lc_until class <=? lc_from class) then [] else
  filter (λ l, l ∉ lc_except class) (step_by (lc_from class) (lc_until class) (lc_step class)).

Definition is_v2 begin : bool := negb (bool_decide (bm_layout_table begin = [])).
Definition is_prerope_v2 begin : bool :=
  is_v2 begin && bytes_eqb (bm_portable_abi begin) PORTABLE_KV_ABI_V2_PREROPE.
Definition plane_element_bytes_v2 begin role : Z :=
  if is_prerope_v2 begin && bool_decide (role = Key) then 4 else 2.
Definition expected_plane_dtype_v2 begin class role : bytes :=
  if is_prerope_v2 begin && bool_decide (role = Key) then str "float32" else lc_dtype class.
Definition plane_payload_extension begin role : bytes :=
  if is_prerope_v2 begin && bool_decide (role = Key) then str "f32le" else str "f16le".

(** [class.window_tokens == 0] means the whole cache. *)
Definition class_window begin class : Z :=
  if lc_window_tokens class =? 0 then bm_cached_token_count begin
  else Z.min (lc_window_tokens class) (bm_cached_token_count begin).

Definition windowed begin (idx : nat) : bool :=
  match bm_layout_table begin !! idx with
  | Some class => 0 <? lc_window_tokens class
  | None => false
  end.
Definition schedule_class_order begin : list nat :=
  let order := seq 0 (length (bm_layout_table begin)) in
  if bool_decide (bm_schedule begin = Some WIRE_SCHEDULE_DECODE_PRIORITY) then
    filter (λ idx, windowed begin idx = true) order ++ filter (λ idx, windowed begin idx = false) order
  else order.

(** The entries one class contributes. *)
Definition class_walk (class_idx : nat) class : list (Z * Z * TensorRoleV1) :=
  layers class ≫= λ layer, (λ role, (Z.of_nat class_idx, layer, role)) <$> lc_roles class.
(** The indices come from [schedule_class_order], so each lookup succeeds. *)
Definition layout_walk_v2 begin : list (Z * Z * TensorRoleV1) :=
  schedule_class_order begin ≫= λ class_idx,
    match bm_layout_table begin !! class_idx with
    | Some class => class_walk class_idx class
    | None => []
    end.

Record ExpectedPlane := mkExpectedPlane {
  ep_class : LayoutClassV2;
  ep_layer : Z;
  ep_role : TensorRoleV1;
  ep_range_start : Z;
  ep_range_end : Z
}.
Definition expected_from_walk_entry begin (entry : Z * Z * TensorRoleV1) : hresult ExpectedPlane :=
  let '(class_idx, layer, role) := entry in
  class ← index (bm_layout_table begin) class_idx;
  let window := class_window begin class in
  Ok (mkExpectedPlane class layer role
    (Z.max 0 (bm_cached_token_count begin - window)) (bm_cached_token_count begin)).
Definition expected_plane_at begin (sequence : Z) : hresult ExpectedPlane :=
  entry ← ok_or (layout_walk_v2 begin !! Z.to_nat sequence)
    (Validation "layer frame {sequence} is outside the declared layout table");
  expected_from_walk_entry begin entry.

Definition overflow {A} : hresult A := Err (Validation "declared payload size overflows u64").
(** [a * b * c * d] in checked [u64] arithmetic. *)
Definition checked_product (a b c d : Z) : option Z :=
  v ← checked_mul a b; v ← checked_mul v c; checked_mul v d.
Definition count_role begin class (acc : Z * Z) role : hresult (Z * Z) :=
  let '(frames, total) := acc in
  per_plane ← ok_or (checked_product (class_window begin class) (lc_kv_heads class) (lc_head_dim class)
                       (plane_element_bytes_v2 begin role))
    (Validation "declared payload size overflows u64");
  frames ← ok_or (checked_add frames (zlen (layers class))) (Validation "layer-frame count overflow");
  added ← ok_or (checked_mul (zlen (layers class)) per_plane)
    (Validation "declared payload size overflows u64");
  total ← ok_or (checked_add total added) (Validation "declared payload size overflows u64");
  Ok (frames, total).
(** [for x in l { acc = step(acc, x)?; }] *)
Fixpoint try_fold {E A B} (step : B → A → outcome E B) (acc : B) (l : list A) : outcome E B :=
  match l with [] => Ok acc | x :: l => acc ← step acc x; try_fold step acc l end.
Definition v2_frame_counts begin : hresult (Z * Z) :=
  counts ← try_fold (λ acc class, try_fold (count_role begin class) acc (lc_roles class)) (0, 0)
    (bm_layout_table begin);
  frames ← ok_or (try_from u32_bound counts.1) (Validation "layer-frame count overflow");
  Ok (frames, counts.2).
