(* ===== verification/HandoffValidation.v ===== *)
(** * Manifest validation (crates/kvpack-handoff/src/manifest/validation.rs)

    Guards are kept in the order of the source.  A chain of guards that calls
    [canonical_json] is split where the call happens. *)
From Stdlib Require Import ZArith Lia.
From stdpp Require Import base tactics numbers list strings option sorting.
From S2P Require Import Prelude Bytes Canonical Crypto HandoffJson HandoffMac HandoffManifest.
From S2P Require Import HandoffLayout.

Implicit Types (begin : BeginManifestV1) (class : LayoutClassV2) (role : TensorRoleV1).

Notation invalid why := (Err (Validation why%string)).

Record ValidationLimits := mkValidationLimits {
  vl_max_cached_tokens : Z;
  vl_max_clock_skew_ms : Z;
  vl_max_context_tokens : Z;
  vl_max_frame_bytes : Z;
  vl_max_layers : Z;
  vl_max_session_ms : Z;
  vl_max_total_bytes : Z;
  vl_now_unix_ms : Z
}.
Definition ValidationLimits_default : ValidationLimits :=
  mkValidationLimits 32767 30000 32768 (64 * 1024 * 1024) 64 (15 * 60 * 1000)
    (4 * 1024 * 1024 * 1024) 1.
Implicit Types (limits : ValidationLimits).

Definition checked_payload_bytes begin : hresult Z :=
  ok_or (v ← checked_mul (ge_num_layers (bm_geometry begin)) 2;
         v ← checked_mul v (bm_cached_token_count begin);
         v ← checked_mul v (ge_num_kv_heads (bm_geometry begin));
         v ← checked_mul v (ge_head_dim (bm_geometry begin));
         checked_mul v 2)
    (Validation "declared payload size overflows u64").

(** [is_ascii_graphic] without backslash, slash and double quote. *)
Definition label_byte (b : Z) : bool :=
  (33 <=? b) && (b <=? 126) && negb ((b =? 92) || (b =? 47) || (b =? 34)).
Definition valid_label (value : bytes) (max_len : Z) : bool :=
  negb (zlen value =? 0) && (zlen value <=? max_len) && forallb label_byte value.
Definition valid_sha256 (value : bytes) : bool := lower_hex64 value.

(** [f32::is_finite] of four little-endian bytes: the exponent is not all ones. *)
Definition f32_finite (element : bytes) : bool :=
  negb (Z.land (Z.shiftr (le_val element) 23) 255 =? 255).
(** [payload.chunks_exact(4)] *)
Fixpoint f32_elements (payload : bytes) : list bytes :=
  match payload with
  | a :: b :: c :: d :: rest => [a; b; c; d] :: f32_elements rest
  | _ => []
  end.
Definition validate_prerope_key_plane_finite (payload : bytes) : hresult unit :=
  if negb (zlen payload mod 4 =? 0) then
    invalid "pre-RoPE Key plane length {} is not a multiple of the f32 element width" else
  if forallb f32_finite (f32_elements payload) then Ok tt
  else invalid "pre-RoPE Key plane contains a non-finite (NaN/Inf) f32 element".

(** ** The layout table *)
(** [Vec::dedup] *)
Fixpoint dedup_adjacent (l : list Z) : list Z :=
  match l with
  | x :: (y :: _) as rest => if x =? y then dedup_adjacent rest else x :: dedup_adjacent rest
  | _ => l
  end.
(** [v.sort_unstable(); v.dedup()] *)
Definition sort_dedup (l : list Z) : list Z := dedup_adjacent (merge_sort Z.le l).

Definition validate_class begin limits class : hresult (list Z) :=
  if (lc_step class =? 0) || (lc_until class <=? lc_from class)
     || (ge_num_layers (bm_geometry begin) <? lc_until class) then
    invalid "layout table contains an invalid layer class" else
  let window := class_window begin class in
  let max_element_bytes :=
    match lc_roles class with
    | [] => 2
    | role :: roles => foldl (λ m r, Z.max m (plane_element_bytes_v2 begin r))
                         (plane_element_bytes_v2 begin role) roles
    end in
  per_plane ← ok_or (checked_product window (lc_kv_heads class) (lc_head_dim class) max_element_bytes)
    (Validation "declared payload size overflows u64");
  if vl_max_frame_bytes limits <? per_plane then
    invalid "layout table class exceeds the per-frame byte bound" else
  if negb (zlen (sort_dedup (lc_except class)) =? zlen (lc_except class))
     || existsb (λ layer, (layer <? lc_from class) || (lc_until class <=? layer)) (lc_except class) then
    invalid "layout table contains an out-of-range or duplicate except entry" else
  if negb (bool_decide (lc_roles class = [Key; Value_role])
           || bytes_eqb (lc_class class) (str "mla-latent") && bool_decide (lc_roles class = [Key])) then
    invalid "layout table classes must declare roles [key, value]" else
  let class_layers := layers class in
  if negb (valid_label (lc_class class) 64) || bool_decide (class_layers = [])
     || (lc_kv_heads class =? 0) || (lc_head_dim class =? 0)
     || negb (bytes_eqb (lc_dtype class) (str "float16")) then
    invalid "layout table contains an invalid layer class"
  else Ok class_layers.

(** [l.iter().enumerate().any(|(index, layer)| *layer != index)], negated. *)
Fixpoint is_iota (i : Z) (l : list Z) : bool :=
  match l with [] => true | x :: l => (x =? i) && is_iota (i + 1) l end.

Definition validate_layout_table begin limits : hresult unit :=
  covered ← try_fold (λ covered class, ls ← validate_class begin limits class; Ok (covered ++ ls)) []
    (bm_layout_table begin);
  let dedup := sort_dedup covered in
  if negb (zlen dedup =? zlen covered) then
    invalid "layout table assigns a layer to more than one class" else
  if negb (zlen dedup =? ge_num_layers (bm_geometry begin)) || negb (is_iota 0 dedup) then
    invalid "layout table must cover every declared layer exactly once" else
  match bm_layout_table begin with
  | [class] =>
      if negb (ge_num_kv_heads (bm_geometry begin) =? lc_kv_heads class)
         || negb (ge_head_dim (bm_geometry begin) =? lc_head_dim class) then
        invalid "flat geometry disagrees with the single-class layout table"
      else Ok tt
  | _ =>
      if negb (ge_num_kv_heads (bm_geometry begin) =? 0) || negb (ge_head_dim (bm_geometry begin) =? 0) then
        invalid "multi-class layout table requires zero flat kv_heads/head_dim"
      else Ok tt
  end.

Definition validate_schedule begin : hresult unit :=
  match bm_schedule begin with
  | None => Ok tt
  | Some s =>
      if bytes_eqb s WIRE_SCHEDULE_LAYER_ORDER || bytes_eqb s WIRE_SCHEDULE_DECODE_PRIORITY then Ok tt
      else invalid "layout table declares an unknown wire schedule"
  end.

(** ** The begin manifest *)
Definition abi_ok begin : bool :=
  if is_v2 begin then
    bytes_eqb (bm_portable_abi begin) PORTABLE_KV_ABI_V2
    || bytes_eqb (bm_portable_abi begin) PORTABLE_KV_ABI_V2_PREROPE
  else bytes_eqb (bm_portable_abi begin) PORTABLE_KV_ABI_V1.

Definition expected_totals begin limits : hresult (Z * Z) :=
  if is_v2 begin then
    _ ← validate_layout_table begin limits;
    _ ← validate_schedule begin;
    v2_frame_counts begin
  else
    if bool_decide (is_Some (bm_schedule begin)) then
      invalid "wire schedule requires a v2 layout table" else
    if (ge_num_kv_heads (bm_geometry begin) =? 0) || (ge_head_dim (bm_geometry begin) =? 0) then
      invalid "geometry or cached-token count is outside configured bounds" else
    frames ← ok_or (try_from u32_bound (ge_num_layers (bm_geometry begin) * 2))
      (Validation "layer-frame count overflow");
    payload ← checked_payload_bytes begin;
    Ok (frames, payload).

Definition weights_labels : list bytes :=
  [str "q4_k_m"; str "q4_k_xl"; str "nvfp4"; str "mxfp4"; str "bf16"].
Definition begin_labels begin : list bytes :=
  let e := bm_endpoints begin in
  [ei_consumer_engine_abi e; ei_consumer_node e; ei_producer_engine_abi e; ei_producer_node e;
   ei_trust_domain e; xi_model_revision (bm_identity begin); xi_tokenizer_revision (bm_identity begin)].
Definition begin_digests begin : list bytes :=
  let i := bm_identity begin in
  [bm_transfer_id begin; bm_token_ids_sha256 begin; xi_adapter_sha256 i; xi_chat_template_sha256 i;
   xi_context_policy_sha256 i; xi_model_sha256 i; xi_tokenizer_sha256 i].

(** [a / b] on unsigned integers. *)
Definition div_or_panic (a b : Z) : hresult Z :=
  if b =? 0 then Panic "attempt to divide by zero" else Ok (a / b).

Definition begin_validate begin limits : hresult unit :=
  if negb (bm_schema_version begin =? LIVE_HANDOFF_SCHEMA_V1)
     || negb (bytes_eqb (bm_protocol begin) LIVE_HANDOFF_PROTOCOL_V1)
     || negb (abi_ok begin)
     || negb (bool_decide (bm_strategy begin = ConsumerLastPromptToken)) then
    invalid "unsupported live handoff schema, protocol, ABI, or strategy" else
  if (bm_cached_token_count begin =? 0)
     || (vl_max_cached_tokens limits <? bm_cached_token_count begin)
     || (vl_max_context_tokens limits <? ge_max_context_tokens (bm_geometry begin))
     || (ge_max_context_tokens (bm_geometry begin) <=? bm_cached_token_count begin)
     || (ge_num_layers (bm_geometry begin) =? 0)
     || (vl_max_layers limits <? ge_num_layers (bm_geometry begin)) then
    invalid "geometry or cached-token count is outside configured bounds" else
  totals ← expected_totals begin limits;
  let '(expected_frames, expected_bytes) := totals in
  one_frame ← div_or_panic expected_bytes expected_frames;
  if negb (bm_expected_layer_frames begin =? expected_frames)
     || negb (bm_expected_payload_bytes begin =? expected_bytes)
     || (vl_max_total_bytes limits <? expected_bytes)
     || (vl_max_frame_bytes limits <? one_frame) then
    invalid "declared frame or payload bounds do not match geometry" else
  if negb (bytes_eqb (pr_compute (bm_precision begin)) (str "float16"))
     || negb (bytes_eqb (pr_kv (bm_precision begin)) (str "float16"))
     || negb (bool_decide (pr_weights (bm_precision begin) ∈ weights_labels)) then
    invalid "v1 requires q4_k_m, q4_k_xl, nvfp4, mxfp4, or bf16 weights with float16 compute and KV" else
  if existsb (λ value, negb (valid_label value 256)) (begin_labels begin)
     || existsb (λ value, negb (valid_sha256 value)) (begin_digests begin)
     || match bm_hmac_key_id begin with Some id => negb (valid_label id 64) | None => false end then
    invalid "identity contains an invalid label or SHA-256" else
  let latest_created := saturating_add (vl_now_unix_ms limits) (vl_max_clock_skew_ms limits) in
  latest_deadline ← ok_or (checked_add (bm_created_unix_ms begin) (vl_max_session_ms limits))
    (Validation "session deadline overflow");
  if (bm_created_unix_ms begin =? 0)
     || (latest_created <? bm_created_unix_ms begin)
     || (bm_deadline_unix_ms begin <=? bm_created_unix_ms begin)
     || (latest_deadline <? bm_deadline_unix_ms begin)
     || (bm_deadline_unix_ms begin <? vl_now_unix_ms limits) then
    invalid "handoff creation/deadline is invalid or expired"
  else Ok tt.

Definition expected_plane_bytes begin : hresult Z :=
  total ← checked_payload_bytes begin;
  div_or_panic total (bm_expected_layer_frames begin).

(** ** Layer headers *)
Implicit Types (header : LayerHeaderV1).

Definition validate_for_v2_expected header begin (next_sequence : Z) (expected : ExpectedPlane)
  : hresult unit :=
  let class := ep_class expected in
  range_len ← ok_or (checked_sub (lh_logical_token_end header) (lh_logical_token_start header))
    (Validation "layer frame {next_sequence} has an inverted token range");
  expected_bytes ← ok_or (checked_product range_len (lc_kv_heads class) (lc_head_dim class)
                            (plane_element_bytes_v2 begin (ep_role expected)))
    (Validation "layer frame {next_sequence} byte bound overflow");
  let expected_dtype := expected_plane_dtype_v2 begin class (ep_role expected) in
  let dtype_ok := match lh_dtype header with
    | Some tag => bytes_eqb tag expected_dtype
    | None => bytes_eqb expected_dtype (str "float16")
    end in
  if negb (lh_schema_version header =? LIVE_HANDOFF_SCHEMA_V1)
     || negb (bytes_eqb (lh_transfer_id header) (bm_transfer_id begin))
     || negb (lh_sequence header =? next_sequence)
     || negb (lh_layer header =? ep_layer expected)
     || negb (bool_decide (lh_role header = ep_role expected))
     || negb (bool_decide (lh_layout_class header = Some (lc_class class)))
     || negb (lh_logical_token_start header =? ep_range_start expected)
     || negb (lh_logical_token_end header =? ep_range_end expected)
     || negb (bool_decide (lh_shape header = (range_len, lc_kv_heads class, lc_head_dim class)))
     || negb (lh_byte_length header =? expected_bytes)
     || negb dtype_ok
     || negb (valid_sha256 (lh_sha256 header)) then
    invalid "layer frame {next_sequence} does not match the v2 layout-table contract"
  else Ok tt.
Definition validate_for_v2 header begin (next_sequence : Z) : hresult unit :=
  expected ← expected_plane_at begin next_sequence;
  validate_for_v2_expected header begin next_sequence expected.

Definition v1_role (sequence : Z) : TensorRoleV1 := if sequence mod 2 =? 0 then Key else Value_role.
Definition header_validate_for header begin (next_sequence : Z) : hresult unit :=
  if is_v2 begin then validate_for_v2 header begin next_sequence else
  let mismatch : hresult unit := invalid
    "layer frame {next_sequence} does not match the ordered canonical tensor contract" in
  let geometry := bm_geometry begin in
  if negb (lh_schema_version header =? LIVE_HANDOFF_SCHEMA_V1)
     || negb (bytes_eqb (lh_transfer_id header) (bm_transfer_id begin))
     || negb (lh_sequence header =? next_sequence)
     || negb (lh_layer header =? next_sequence / 2)
     || negb (bool_decide (lh_role header = v1_role next_sequence))
     || negb (lh_logical_token_start header =? 0)
     || negb (lh_logical_token_end header =? bm_cached_token_count begin)
     || negb (bool_decide (lh_shape header =
          (bm_cached_token_count begin, ge_num_kv_heads geometry, ge_head_dim geometry))) then mismatch else
  plane_bytes ← expected_plane_bytes begin;
  if negb (lh_byte_length header =? plane_bytes)
     || negb (valid_sha256 (lh_sha256 header))
     || bool_decide (is_Some (lh_dtype header))
     || bool_decide (is_Some (lh_layout_class header)) then mismatch
  else Ok tt.

(** ** Seals *)
Definition verify_against (canary : CanaryRecord) (produced_k_sha256 produced_v_sha256 : bytes)
  : hresult unit :=
  if negb (bytes_eqb (cr_post_rope_k_sha256 canary) produced_k_sha256)
     || negb (bytes_eqb (cr_post_rope_v_sha256 canary) produced_v_sha256) then
    invalid "pre-RoPE canary does not match the consumer's pinned-kernel rows"
  else Ok tt.

Section seal.
Context `{Crypto} `{JsonText}.
Implicit Types (headers : list LayerHeaderV1) (core : SealCoreV1) (seal : SealManifestV1).

(** [for header in headers { hash.update(canonical_json(header)?); hash.update(b"\n"); }] *)
Definition header_lines headers : hresult bytes :=
  try_fold (λ acc h, line ← canonical_json serde_LayerHeaderV1 h; Ok (acc ++ line ++ [10])) [] headers.

Definition descriptor_chain_sha256 headers : hresult bytes :=
  lines ← header_lines headers;
  Ok (hex_encode (sha256_digest (str "kvpack-live-descriptor-chain-v1" ++ [0] ++ lines))).

(** The begin, header and core lines that both artifact digests cover. *)
Definition artifact_lines begin headers core : hresult bytes :=
  first ← canonical_json serde_BeginManifestV1 begin;
  lines ← header_lines headers;
  last ← canonical_json serde_SealCoreV1 core;
  Ok (first ++ [10] ++ lines ++ last).
Definition artifact_sha256 begin headers core : hresult bytes :=
  lines ← artifact_lines begin headers core;
  Ok (hex_encode (sha256_digest (str "kvpack-live-artifact-v1" ++ [0] ++ lines))).
Definition artifact_mac_stream begin headers core : hresult bytes :=
  lines ← artifact_lines begin headers core;
  Ok (str "kvpack-live-artifact-mac-v1" ++ [0] ++ lines).
Definition artifact_hmac_sha256 begin headers core (key : MacKey) : hresult bytes :=
  stream ← artifact_mac_stream begin headers core;
  tag_hex key stream.

Definition canary_ok begin core : bool :=
  if is_prerope_v2 begin then
    match sc_canary core with
    | Some canary =>
        (0 <? cr_sample_token_count canary)
        && (Z.min (cr_sample_token_start canary + cr_sample_token_count canary) (u32_bound - 1)
              <=? bm_cached_token_count begin)
        && valid_sha256 (cr_post_rope_k_sha256 canary)
        && valid_sha256 (cr_post_rope_v_sha256 canary)
    | None => false
    end
  else bool_decide (sc_canary core = None).
Definition hmac_shape_ok begin seal : bool :=
  match bm_hmac_key_id begin, sm_artifact_hmac_sha256 seal with
  | Some _, Some tag => valid_sha256 tag
  | Some _, None => false
  | None, None => true
  | None, Some _ => false
  end.

Definition seal_validate_for seal begin headers (payload_bytes : Z) (payload_sha256 : bytes)
  : hresult unit :=
  let core := sm_core seal in
  let mismatch : hresult unit := invalid "terminal seal does not authenticate the complete ordered handoff" in
  if negb (sc_schema_version core =? LIVE_HANDOFF_SCHEMA_V1)
     || negb (bytes_eqb (sc_protocol core) LIVE_HANDOFF_PROTOCOL_V1)
     || negb (bool_decide (sc_strategy core = bm_strategy begin))
     || negb (bytes_eqb (sc_transfer_id core) (bm_transfer_id begin))
     || negb (sc_frame_count core =? bm_expected_layer_frames begin)
     || negb (sc_frame_count core =? zlen headers)
     || negb (sc_payload_bytes core =? bm_expected_payload_bytes begin)
     || negb (sc_payload_bytes core =? payload_bytes)
     || negb (bytes_eqb (sc_payload_sha256 core) payload_sha256) then mismatch else
  chain ← descriptor_chain_sha256 headers;
  if negb (bytes_eqb (sc_descriptor_chain_sha256 core) chain)
     || negb (bytes_eqb (sc_token_ids_sha256 core) (bm_token_ids_sha256 begin))
     || negb (bytes_eqb (sc_token_ids_sha256 core) (token_ids_sha256 (sc_prompt_token_ids core)))
     || negb (zlen (sc_prompt_token_ids core) =? bm_cached_token_count begin + 1)
     || (sc_completed_unix_ms core <? bm_created_unix_ms begin)
     || (bm_deadline_unix_ms begin <? sc_completed_unix_ms core) then mismatch else
  artifact ← artifact_sha256 begin headers core;
  if negb (bytes_eqb (sm_artifact_sha256 seal) artifact)
     || negb (canary_ok begin core)
     || negb (hmac_shape_ok begin seal) then mismatch
  else Ok tt.

Definition authenticate_hmac seal begin headers (key : MacKey) : hresult unit :=
  tag ← ok_or (sm_artifact_hmac_sha256 seal)
    (Validation "sealed artifact carries no HMAC tag to authenticate");
  stream ← artifact_mac_stream begin headers (sm_core seal);
  verify_hex key stream tag.

Definition AckManifestV1_committed begin seal : AckManifestV1 :=
  mkAckManifestV1 (sm_artifact_sha256 seal) LIVE_HANDOFF_PROTOCOL_V1 LIVE_HANDOFF_SCHEMA_V1
    (str "committed") (bm_transfer_id begin).
End seal.
