(* ===== verification/HandoffLayoutLaws.v ===== *)
(** * Laws of the layout table

    Both schedules are permutations of the declared walk; a validated table
    assigns every layer to one class; the frame accounting counts the walk. *)
From Stdlib Require Import ZArith Lia.
From stdpp Require Import base tactics numbers list strings option sorting sets.
From S2P Require Import Prelude Bytes Canonical Crypto HandoffJson HandoffMac HandoffManifest.
From S2P Require Import HandoffLayout HandoffValidation.

Implicit Types (begin : BeginManifestV1) (class : LayoutClassV2) (role : TensorRoleV1).

(** ** Sorting and deduplication *)
Lemma length_dedup_adjacent l : (length (dedup_adjacent l) ≤ length l)%nat.
Proof.
  induction l as [|x [|y l] IH]; [done..|]. cbn [dedup_adjacent]. destruct (x =? y); simpl in *; lia.
Qed.
Lemma dedup_adjacent_full l : length (dedup_adjacent l) = length l → dedup_adjacent l = l.
Proof.
  induction l as [|x [|y l] IH]; [done..|]. intros Hl. cbn [dedup_adjacent] in *. destruct (x =? y).
  - pose proof (length_dedup_adjacent (y :: l)). simpl in *. lia.
  - f_equal. apply IH. simpl in *. lia.
Qed.
Lemma is_iota_seqZ i l : is_iota i l = true ↔ l = seqZ i (zlen l).
Proof.
  revert i. induction l as [|x l IH]; intros i; [done|]. cbn [is_iota]. pose proof (zlen_nonneg l).
  rewrite zlen_cons, seqZ_cons by lia. replace (Z.pred (1 + zlen l)) with (zlen l) by lia.
  rewrite andb_true_iff, Z.eqb_eq, IH. replace (Z.succ i) with (i + 1) by lia.
  split; [by intros [-> <-]|]. by intros [= -> <-].
Qed.
(** The coverage test of the table: no layer twice, no layer missing. *)
Lemma sort_dedup_covers l n :
  zlen (sort_dedup l) = zlen l → zlen (sort_dedup l) = n → is_iota 0 (sort_dedup l) = true →
  l ≡ₚ seqZ 0 n.
Proof.
  unfold sort_dedup. intros Hl Hn Hi. apply is_iota_seqZ in Hi.
  assert (dedup_adjacent (merge_sort Z.le l) = merge_sort Z.le l) as E.
  { apply dedup_adjacent_full. unfold zlen in Hl. apply Nat2Z.inj in Hl.
    by rewrite Hl, (merge_sort_Permutation Z.le l). }
  rewrite E in *. rewrite <-Hn, <-Hi. by rewrite merge_sort_Permutation.
Qed.

(** ** Loops *)
Section try_fold.
Context {E A B : Type} (step : B → A → outcome E B).
Lemma try_fold_app acc l k :
  try_fold step acc (l ++ k) = acc ← try_fold step acc l; try_fold step acc k.
Proof.
  revert acc. induction l as [|x l IH]; intros acc; [done|]. simpl. destruct (step acc x); simpl; auto.
Qed.
Lemma try_fold_inv (I : list A → B → Prop) acc l r :
  I [] acc → (∀ k x a b, x ∈ l → I k a → step a x = Ok b → I (k ++ [x]) b) →
  try_fold step acc l = Ok r → I l r.
Proof.
  intros Hi Hs. cut (∀ k acc, I k acc → try_fold step acc l = Ok r → I (k ++ l) r).
  { intros Hc. by apply (Hc []). }
  clear Hi acc. induction l as [|x l IH]; intros k acc Hk Hf; simpl in Hf.
  - inv_ok. subst. by rewrite app_nil_r.
  - apply bind_Ok in Hf as (b & Hb & Hf). replace (k ++ x :: l) with ((k ++ [x]) ++ l) by (by rewrite <-app_assoc).
    eapply IH; [|by eapply Hs; [left|..]|done]. intros. eapply Hs; [by right|done..].
Qed.
Lemma try_fold_no_panic acc l :
  (∀ a x, x ∈ l → ¬ panics (step a x)) → ¬ panics (try_fold step acc l).
Proof.
  revert acc. induction l as [|x l IH]; intros acc Hs; simpl; [by intros []|].
  apply bind_no_panic; [apply Hs; by left|]. intros. apply IH. intros. apply Hs. by right.
Qed.
End try_fold.
#[export] Hint Resolve try_fold_no_panic : no_panic.

(** ** Layers of a class *)
Lemma elem_of_layers class l : in_u32 (lc_from class) → in_u32 (lc_step class) →
  l ∈ layers class ↔ lc_step class ≠ 0 ∧ lc_from class ≤ l < lc_until class ∧
    (lc_step class | l - lc_from class) ∧ l ∉ lc_except class.
Proof.
  unfold in_u32. intros Hf Hs. unfold layers. destruct (Z.eqb_spec (lc_step class) 0) as [E|E]; simpl.
  { split; [by intros ?%elem_of_nil|lia]. }
  destruct (Z.leb_spec (lc_until class) (lc_from class)); simpl.
  { split; [by intros ?%elem_of_nil|lia]. }
  rewrite list_elem_of_filter. unfold step_by. rewrite list_elem_of_fmap. unfold div_ceil. split.
  - intros (Hl & i & -> & Hi). apply elem_of_seqZ in Hi.
    split_and!; [done|nia| |replace (lc_from class + i * lc_step class - lc_from class) with (i * lc_step class) by lia; apply Z.divide_factor_r|done].
    enough (i * lc_step class < lc_until class - lc_from class) by lia.
    Z.to_euclidean_division_equations. nia.
  - intros (_ & Hr & [i Hi] & Hl). split; [done|]. exists i. split; [lia|]. apply elem_of_seqZ.
    split; [nia|]. Z.to_euclidean_division_equations. nia.
Qed.
Lemma NoDup_layers class : NoDup (layers class).
Proof.
  unfold layers. destruct (_ || _) eqn:E; [constructor|]. apply NoDup_filter. unfold step_by.
  apply NoDup_fmap_2_strong; [|apply NoDup_seqZ]. intros x y Hx Hy Hxy.
  apply orb_false_elim in E as [E _]. apply Z.eqb_neq in E. nia.
Qed.

(** ** The walk *)
Lemma filter_partition (f : nat → bool) l :
  filter (λ i, f i = true) l ++ filter (λ i, f i = false) l ≡ₚ l.
Proof.
  induction l as [|x l IH]; [done|]. rewrite !filter_cons. destruct (f x) eqn:E.
  - rewrite decide_True, decide_False by done. simpl. by rewrite IH.
  - rewrite decide_False, decide_True by done. rewrite <-Permutation_middle. by rewrite IH.
Qed.
Lemma schedule_class_order_perm begin :
  schedule_class_order begin ≡ₚ seq 0 (length (bm_layout_table begin)).
Proof. unfold schedule_class_order. case_bool_decide; [apply filter_partition|done]. Qed.

(** The walk in declared order, whatever the schedule. *)
Definition declared_walk begin : list (Z * Z * TensorRoleV1) :=
  imap pair (bm_layout_table begin) ≫= λ e, class_walk e.1 e.2.
Lemma bind_ext_elem {A B} (f g : A → list B) l : (∀ x, x ∈ l → f x = g x) → l ≫= f = l ≫= g.
Proof.
  induction l as [|x l IH]; intros Hf; [done|]. cbn [mbind list_bind]. f_equal; [apply Hf; by left|].
  apply IH. intros. apply Hf. by right.
Qed.
Lemma bind_lookup_imap {A B} (f : nat → A → list B) (l : list A) n :
  (seq n (length l) ≫= λ i, match l !! (i - n)%nat with Some x => f i x | None => [] end) =
  (imap (λ i x, (n + i, x)%nat) l ≫= λ e, f e.1 e.2).
Proof.
  revert n. induction l as [|x l IH]; intros n; [done|].
  cbn [length seq mbind list_bind imap]. rewrite Nat.sub_diag. cbn [lookup list_lookup].
  rewrite Nat.add_0_r. f_equal.
  rewrite (imap_ext _ (λ i x, (S n + i, x)%nat)) by (intros; simpl; f_equal; lia).
  rewrite <-IH. apply bind_ext_elem. intros i Hi. apply elem_of_seq in Hi.
  destruct (i - n)%nat eqn:E; [lia|]. by replace (i - S n)%nat with n0 by lia.
Qed.
Lemma layout_walk_perm begin : layout_walk_v2 begin ≡ₚ declared_walk begin.
Proof.
  unfold layout_walk_v2, declared_walk. rewrite schedule_class_order_perm.
  replace (imap pair (bm_layout_table begin)) with (imap (λ i x, (0 + i, x)%nat) (bm_layout_table begin)) by done.
  rewrite <-(bind_lookup_imap class_walk _ 0). apply (reflexive_eq (R:=(≡ₚ))), bind_ext_elem.
  intros i _. by rewrite Nat.sub_0_r.
Qed.
Lemma walk_entry begin i class_idx layer role :
  layout_walk_v2 begin !! i = Some (class_idx, layer, role) →
  ∃ n class, class_idx = Z.of_nat n ∧ bm_layout_table begin !! n = Some class ∧
    layer ∈ layers class ∧ role ∈ lc_roles class.
Proof.
  intros Hi. apply list_elem_of_lookup_2 in Hi. rewrite layout_walk_perm in Hi. unfold declared_walk in Hi.
  apply list_elem_of_bind in Hi as ([n class] & Hc & Hn). apply elem_of_lookup_imap in Hn as (n' & c' & [= -> ->] & Hn).
  exists n', c'. unfold class_walk in Hc. simpl in Hc.
  apply list_elem_of_bind in Hc as (l & Hl & Hr). apply list_elem_of_fmap in Hl as (r & [= -> -> ->] & Hl).
  done.
Qed.

(** What one plane and the walk weigh. *)
Definition plane_bytes begin class role : Z :=
  class_window begin class * lc_kv_heads class * lc_head_dim class * plane_element_bytes_v2 begin role.
Definition class_bytes begin class : Z :=
  zlen (layers class) * zsum (plane_bytes begin class <$> lc_roles class).
Definition entry_bytes begin (entry : Z * Z * TensorRoleV1) : Z :=
  match bm_layout_table begin !! Z.to_nat entry.1.1 with
  | Some class => plane_bytes begin class entry.2
  | None => 0
  end.

Lemma checked_product_Some a b c d v : 0 ≤ a → 0 ≤ b → 0 ≤ c → 0 ≤ d →
  checked_product a b c d = Some v → v = a * b * c * d ∧ v < u64_bound.
Proof.
  unfold checked_product. intros ???? Hp. apply bind_Some in Hp as (x & Hx & Hp).
  apply bind_Some in Hp as (y & Hy & Hp). apply checked_mul_Some in Hx as [-> ?], Hy as [-> ?], Hp as [-> ?].
  done.
Qed.
Lemma plane_element_pos begin role : 2 ≤ plane_element_bytes_v2 begin role ≤ 4.
Proof. unfold plane_element_bytes_v2. destruct (_ && _); lia. Qed.
Lemma class_window_pos begin class :
  0 < bm_cached_token_count begin → 0 ≤ lc_window_tokens class →
  0 < class_window begin class ≤ bm_cached_token_count begin.
Proof. unfold class_window. intros. destruct (Z.eqb_spec (lc_window_tokens class) 0); lia. Qed.

Lemma class_window_nonneg begin class :
  0 ≤ bm_cached_token_count begin → 0 ≤ lc_window_tokens class → 0 ≤ class_window begin class.
Proof. unfold class_window. intros. destruct (Z.eqb_spec (lc_window_tokens class) 0); lia. Qed.

(** The types of the fields, where the accounting uses them. *)
Definition class_dims class : Prop :=
  0 ≤ lc_window_tokens class ∧ 0 ≤ lc_kv_heads class ∧ 0 ≤ lc_head_dim class ∧
  in_u32 (lc_from class) ∧ in_u32 (lc_until class) ∧ in_u32 (lc_step class).
Lemma class_typed_dims class : typed_as serde_LayoutClassV2 class → class_dims class.
Proof.
  intros Ht. change (LayoutClassV2_typed class) in Ht. unfold LayoutClassV2_typed in Ht.
  unfold class_dims, in_u32. cbn [typed_as serde_u32 serde_uint] in Ht. destruct_and!. split_and!; lia.
Qed.
Definition begin_dims begin : Prop :=
  0 ≤ bm_cached_token_count begin ∧ Forall class_dims (bm_layout_table begin).
Lemma begin_typed_geometry begin : typed_as serde_BeginManifestV1 begin →
  0 ≤ ge_num_kv_heads (bm_geometry begin) ∧ 0 ≤ ge_head_dim (bm_geometry begin) ∧
  0 ≤ ge_num_layers (bm_geometry begin).
Proof.
  intros Ht. change (BeginManifestV1_typed begin) in Ht. unfold BeginManifestV1_typed in Ht. destruct_and!.
  match goal with H : typed_as serde_GeometryV1 _ |- _ => destruct H as ([? _] & _ & [? _] & [? _]) end. done.
Qed.
Lemma begin_typed_dims begin : typed_as serde_BeginManifestV1 begin → begin_dims begin.
Proof.
  intros Ht. change (BeginManifestV1_typed begin) in Ht. unfold BeginManifestV1_typed in Ht. destruct_and!.
  split; [|eapply list.Forall_impl; [eassumption|]; apply class_typed_dims].
  match goal with H : typed_as serde_u32 (bm_cached_token_count begin) |- _ => apply H end.
Qed.

Lemma begin_typed_counts begin : typed_as serde_BeginManifestV1 begin →
  0 ≤ ge_num_layers (bm_geometry begin) ∧ in_u64 (bm_expected_payload_bytes begin) ∧
  in_u32 (bm_expected_layer_frames begin).
Proof.
  intros Ht. pose proof (begin_typed_geometry _ Ht) as (_ & _ & ?). change (BeginManifestV1_typed begin) in Ht.
  unfold BeginManifestV1_typed in Ht. destruct_and!. done.
Qed.

(** ** Frame accounting *)
Lemma count_roles_ok begin class acc roles r :
  begin_dims begin → class_dims class →
  try_fold (count_role begin class) acc roles = Ok r →
  r.1 = acc.1 + zlen (layers class) * zlen roles ∧
  r.2 = acc.2 + zlen (layers class) * zsum (plane_bytes begin class <$> roles).
Proof.
  intros [Hc _] (Hw & Hk & Hh & _).
  apply (try_fold_inv _ (λ k r, r.1 = acc.1 + zlen (layers class) * zlen k ∧
    r.2 = acc.2 + zlen (layers class) * zsum (plane_bytes begin class <$> k))).
  { change (zsum (plane_bytes begin class <$> [])) with 0. rewrite zlen_nil. lia. }
  intros k x [f t] b _ [Hf Ht] Hs. cbn [fst snd] in *. unfold count_role in Hs. inv_ok. subst.
  rename select (checked_product _ _ _ _ = Some _) into Hp.
  pose proof (plane_element_pos begin x). pose proof (class_window_nonneg begin class Hc Hw).
  apply checked_product_Some in Hp as [-> _]; [|assumption..|lia].
  repeat match goal with
  | H : checked_add _ _ = Some _ |- _ => apply checked_add_Some in H as [-> _]
  | H : checked_mul _ _ = Some _ |- _ => apply checked_mul_Some in H as [-> _]
  end.
  cbn [fst snd]. rewrite zlen_app, fmap_app, zsum_app.
  change (zsum (plane_bytes begin class <$> [x])) with (plane_bytes begin class x + 0).
  generalize (zsum (plane_bytes begin class <$> k)). intros P. unfold plane_bytes.
  rewrite zlen_cons, zlen_nil. lia.
Qed.

Lemma class_walk_zlen n class : zlen (class_walk n class) = zlen (layers class) * zlen (lc_roles class).
Proof. unfold class_walk. rewrite zlen_bind. apply zsum_const. intros x _. apply zlen_fmap. Qed.
Lemma class_walk_bytes begin n class : bm_layout_table begin !! n = Some class →
  zsum (entry_bytes begin <$> class_walk n class) = class_bytes begin class.
Proof.
  intros Hn. unfold class_walk, class_bytes. rewrite zsum_bind. apply zsum_const. intros x _.
  rewrite <-list_fmap_compose. f_equal. apply list_fmap_ext. intros i r _. unfold entry_bytes. simpl.
  by rewrite Nat2Z.id, Hn.
Qed.

Lemma declared_walk_zlen begin :
  zlen (declared_walk begin) =
  zsum ((λ class, zlen (layers class) * zlen (lc_roles class)) <$> bm_layout_table begin).
Proof.
  unfold declared_walk. rewrite zlen_bind. f_equal. apply list_eq. intros i.
  rewrite !list_lookup_fmap, list_lookup_imap. destruct (_ !! i) as [class|]; [|done]. simpl.
  by rewrite class_walk_zlen.
Qed.
Lemma declared_walk_bytes begin :
  zsum (entry_bytes begin <$> declared_walk begin) = zsum (class_bytes begin <$> bm_layout_table begin).
Proof.
  unfold declared_walk. rewrite zsum_bind. f_equal. apply list_eq. intros i.
  rewrite !list_lookup_fmap, list_lookup_imap. destruct (_ !! i) as [class|] eqn:E; [|done]. simpl.
  by rewrite class_walk_bytes.
Qed.

Lemma v2_frame_counts_ok begin frames total :
  begin_dims begin → v2_frame_counts begin = Ok (frames, total) →
  frames = zlen (layout_walk_v2 begin) ∧ total = zsum (entry_bytes begin <$> layout_walk_v2 begin).
Proof.
  intros Hd Hv. unfold v2_frame_counts in Hv. inv_ok. simplify_eq/=.
  match goal with H : try_from _ _ = Some _ |- _ => apply try_from_Some in H as [-> _] end.
  rewrite layout_walk_perm, declared_walk_bytes, declared_walk_zlen.
  match goal with H : try_fold _ _ _ = Ok ?c |- _ =>
    enough (c.1 = 0 + zsum ((λ class, zlen (layers class) * zlen (lc_roles class)) <$> bm_layout_table begin) ∧
      c.2 = 0 + zsum (class_bytes begin <$> bm_layout_table begin)) by lia;
    revert H; apply (try_fold_inv _ (λ k c,
      c.1 = 0 + zsum ((λ class, zlen (layers class) * zlen (lc_roles class)) <$> k) ∧
      c.2 = 0 + zsum (class_bytes begin <$> k))) end; [done|].
  intros k class acc r Hin [H1 H2] Hf. apply count_roles_ok in Hf as [-> ->]; [|done|].
  - rewrite H1, H2, !fmap_app, !zsum_app. unfold class_bytes, zsum. simpl. lia.
  - destruct Hd as [_ Hd]. rewrite list.Forall_forall in Hd. by apply Hd.
Qed.

(** ** Validated classes and tables *)
Record class_valid begin (limits : ValidationLimits) class : Prop := {
  cv_until : lc_until class ≤ ge_num_layers (bm_geometry begin);
  cv_layers : layers class ≠ [];
  cv_roles : lc_roles class = [Key; Value_role] ∨
             lc_class class = str "mla-latent" ∧ lc_roles class = [Key];
  cv_kv_heads : 0 < lc_kv_heads class;
  cv_head_dim : 0 < lc_head_dim class;
  cv_frame : ∀ role, role ∈ lc_roles class → plane_bytes begin class role ≤ vl_max_frame_bytes limits
}.
Lemma validate_class_ok begin limits class ls :
  0 < bm_cached_token_count begin → class_dims class → validate_class begin limits class = Ok ls →
  ls = layers class ∧ class_valid begin limits class.
Proof.
  intros Hc (Hw & Hk & Hh & _) Hv. unfold validate_class in Hv. cbv zeta in Hv. inv_ok. subst. split; [done|].
  pose proof (class_window_pos begin class Hc Hw).
  match goal with H : negb (_ || _) = false |- _ => apply negb_false_iff, orb_true_iff in H as [Hr|Hr] end;
  bools; rename select (lc_roles class = _) into Er;
  match goal with H : checked_product _ _ _ _ = Some _ |- _ => apply checked_product_Some in H as [-> ?] end;
  try lia; rewrite ?Er in *; cbn [foldl] in *;
  pose proof (plane_element_pos begin Key); pose proof (plane_element_pos begin Value_role); try lia;
  (split; [lia|done|rewrite Er; first [by left|right; split; [by apply bytes_eqb_eq|done]]|lia|lia|]);
  rewrite Er; unfold plane_bytes; intros role Hrole.
  - etrans; [|eassumption]. apply Z.mul_le_mono_nonneg_l; [nia|]. destruct role; lia.
  - apply list_elem_of_singleton in Hrole as ->. lia.
Qed.

Lemma validate_layout_table_ok begin limits :
  0 < bm_cached_token_count begin → begin_dims begin → validate_layout_table begin limits = Ok tt →
  (bm_layout_table begin ≫= layers) ≡ₚ seqZ 0 (ge_num_layers (bm_geometry begin)) ∧
  Forall (class_valid begin limits) (bm_layout_table begin).
Proof.
  intros Hc [_ Hd] Hv. unfold validate_layout_table in Hv. apply bind_Ok in Hv as (covered & Hf & Hv).
  enough (covered = bm_layout_table begin ≫= layers ∧ Forall (class_valid begin limits) (bm_layout_table begin))
    as [-> ?].
  { split; [|done]. cbv zeta in Hv. inv_ok. bools. by apply sort_dedup_covers. }
  revert Hf. apply (try_fold_inv _ (λ k c, c = k ≫= layers ∧ Forall (class_valid begin limits) k)); [done|].
  intros k class acc r Hin [-> Hk] Hs. inv_ok. subst.
  match goal with H : validate_class _ _ _ = Ok _ |- _ => apply validate_class_ok in H as [-> ?] end;
    [|done|by rewrite list.Forall_forall in Hd; apply Hd].
  rewrite bind_app. cbn [mbind list_bind]. rewrite app_nil_r. split; [done|].
  apply list.Forall_app. by split; [|constructor].
Qed.

(** ** Planes: every layer and role once *)
Definition class_planes class : list (Z * TensorRoleV1) :=
  layers class ≫= λ l, pair l <$> lc_roles class.
Definition entry_plane (entry : Z * Z * TensorRoleV1) : Z * TensorRoleV1 := (entry.1.2, entry.2).

Lemma imap_bind_snd {A B} (g : A → list B) (l : list A) (f : nat → nat) :
  (imap (λ i x, (f i, x)) l ≫= λ e, g e.2) = l ≫= g.
Proof.
  revert f. induction l as [|x l IH]; intros f; [done|]. cbn [imap mbind list_bind]. f_equal.
  apply (IH (f ∘ S)).
Qed.
Lemma fmap_bind_list {A B C} (f : B → C) (g : A → list B) l : f <$> (l ≫= g) = l ≫= λ x, f <$> g x.
Proof. induction l as [|x l IH]; [done|]. cbn [mbind list_bind]. by rewrite fmap_app, IH. Qed.
Lemma declared_planes begin : entry_plane <$> declared_walk begin = bm_layout_table begin ≫= class_planes.
Proof.
  unfold declared_walk. rewrite fmap_bind_list, <-(imap_bind_snd class_planes _ id).
  apply bind_ext_elem. intros [n class] _. unfold class_walk, class_planes. simpl.
  rewrite fmap_bind_list. apply bind_ext_elem. intros l _.
  by rewrite <-list_fmap_compose.
Qed.
Lemma elem_of_class_planes l r class : (l, r) ∈ class_planes class ↔ l ∈ layers class ∧ r ∈ lc_roles class.
Proof.
  unfold class_planes. rewrite list_elem_of_bind. setoid_rewrite list_elem_of_fmap. naive_solver.
Qed.
Lemma NoDup_class_planes class : NoDup (lc_roles class) → NoDup (class_planes class).
Proof.
  intros Hr. apply NoDup_bind; [|by intros; apply NoDup_fmap_2; [intros ?? [=]|]|apply NoDup_layers].
  intros x1 x2 y _ _ Hx Hy. apply list_elem_of_fmap in Hx as (? & -> & _), Hy as (? & [=] & _). done.
Qed.
Lemma NoDup_table_planes table :
  NoDup (table ≫= layers) → Forall (λ c, NoDup (lc_roles c)) table → NoDup (table ≫= class_planes).
Proof.
  intros Hn Hr. induction Hr as [|c table Hc Hr IH]; [constructor|]. cbn [mbind list_bind] in *.
  apply list.NoDup_app in Hn as (_ & Hd & Hn). apply list.NoDup_app.
  split_and!; [by apply NoDup_class_planes| |by apply IH].
  intros [l r] Hl Ht. apply elem_of_class_planes in Hl as [Hl _]. apply (Hd _ Hl).
  apply list_elem_of_bind in Ht as (c' & Hc' & Hin). apply elem_of_class_planes in Hc' as [? _].
  apply list_elem_of_bind. eauto.
Qed.
Lemma class_valid_roles begin limits class : class_valid begin limits class →
  Key ∈ lc_roles class ∧ NoDup (lc_roles class).
Proof.
  intros Hc. destruct (cv_roles _ _ _ Hc) as [-> | [_ ->]]; (split; [by left|]);
  refine (bool_decide_unpack _ _); vm_compute; exact I.
Qed.

(** ** What an accepted begin manifest plans *)
(** The plane at each sequence number and its size, for both schemas. *)
Definition planned_planes begin : list (Z * TensorRoleV1) :=
  if is_v2 begin then entry_plane <$> layout_walk_v2 begin
  else (λ i, (i / 2, v1_role i)) <$> seqZ 0 (2 * ge_num_layers (bm_geometry begin)).
Definition v1_plane_bytes begin : Z :=
  bm_cached_token_count begin * ge_num_kv_heads (bm_geometry begin) * ge_head_dim (bm_geometry begin) * 2.
Definition planned_bytes begin : list Z :=
  if is_v2 begin then entry_bytes begin <$> layout_walk_v2 begin
  else replicate (Z.to_nat (2 * ge_num_layers (bm_geometry begin))) (v1_plane_bytes begin).

Record begin_accepted begin (limits : ValidationLimits) : Prop := {
  ba_tokens : 0 < bm_cached_token_count begin;
  ba_layers : 0 < ge_num_layers (bm_geometry begin) ≤ vl_max_layers limits;
  ba_frames : bm_expected_layer_frames begin = zlen (planned_planes begin);
  ba_total : bm_expected_payload_bytes begin = zsum (planned_bytes begin);
  ba_total_bound : bm_expected_payload_bytes begin ≤ vl_max_total_bytes limits;
  ba_positive : 0 ≤ ge_num_kv_heads (bm_geometry begin) → 0 ≤ ge_head_dim (bm_geometry begin) →
    Forall (λ n, 0 < n) (planned_bytes begin);
  ba_frame_bound : Forall (λ n, n ≤ vl_max_frame_bytes limits) (planned_bytes begin);
  ba_once : NoDup (planned_planes begin);
  ba_range : ∀ l r, (l, r) ∈ planned_planes begin → 0 ≤ l < ge_num_layers (bm_geometry begin);
  ba_every : ∀ l, 0 ≤ l < ge_num_layers (bm_geometry begin) → (l, Key) ∈ planned_planes begin
}.
