(* ===== verification/HandoffValidationLaws.v ===== *)
(** * Laws of manifest validation

    What an accepted begin manifest plans, what an accepted header must be,
    and that the digests of a seal determine the manifests they cover. *)
From Stdlib Require Import ZArith Lia.
From stdpp Require Import base tactics numbers list strings option sorting sets.
From S2P Require Import Prelude Bytes Canonical Crypto HandoffJson HandoffMac HandoffManifest.
From S2P Require Import HandoffLayout HandoffValidation HandoffLayoutLaws.

Implicit Types (begin : BeginManifestV1) (class : LayoutClassV2) (role : TensorRoleV1).
Implicit Types (header : LayerHeaderV1) (limits : ValidationLimits).

(** ** The begin manifest *)
Lemma is_v2_table begin : is_v2 begin = true ↔ bm_layout_table begin ≠ [].
Proof. unfold is_v2. rewrite negb_true_iff. by case_bool_decide. Qed.

Lemma checked_payload_bytes_ok begin n : checked_payload_bytes begin = Ok n →
  n = 2 * ge_num_layers (bm_geometry begin) * v1_plane_bytes begin.
Proof.
  unfold checked_payload_bytes, v1_plane_bytes. intros Hp. inv_ok.
  repeat match goal with H : mbind _ _ = Some _ |- _ => apply bind_Some in H as (? & ? & ?) end.
  repeat match goal with H : checked_mul _ _ = Some _ |- _ => apply checked_mul_Some in H as [-> _] end. lia.
Qed.

Lemma v1_planes_once n : NoDup ((λ i, (i / 2, v1_role i)) <$> seqZ 0 n).
Proof.
  apply NoDup_fmap_2_strong; [|apply NoDup_seqZ]. intros x y _ _ [= Hd Hr].
  unfold v1_role in Hr. rewrite (Z.div_mod x 2), (Z.div_mod y 2), Hd by lia.
  pose proof (Z.mod_pos_bound x 2). pose proof (Z.mod_pos_bound y 2).
  destruct (Z.eqb_spec (x mod 2) 0), (Z.eqb_spec (y mod 2) 0); try done; lia.
Qed.
Lemma v1_planes_elem n l r : 0 ≤ n →
  (l, r) ∈ ((λ i, (i / 2, v1_role i)) <$> seqZ 0 (2 * n)) ↔ 0 ≤ l < n.
Proof.
  intros Hn. rewrite list_elem_of_fmap. setoid_rewrite elem_of_seqZ. split.
  - intros (i & [= -> ->] & Hi). Z.to_euclidean_division_equations. lia.
  - intros Hl. exists (match r with Key => 2 * l | Value_role => 2 * l + 1 end).
    destruct r; (split; [|lia]).
    + replace (2 * l) with (l * 2) by lia. rewrite Z.div_mul by lia. unfold v1_role. by rewrite Z.mod_mul.
    + replace (2 * l + 1) with (1 + l * 2) by lia. unfold v1_role. rewrite Z.div_add, Z.mod_add by lia. done.
Qed.

Lemma zsum_replicate n c : zsum (replicate n c) = Z.of_nat n * c.
Proof. induction n as [|n IH]; [done|]. unfold zsum in *. simpl replicate. cbn [foldr]. lia. Qed.
Lemma expected_totals_v1 begin limits frames total :
  is_v2 begin = false → 0 < ge_num_layers (bm_geometry begin) →
  expected_totals begin limits = Ok (frames, total) →
  frames = zlen (planned_planes begin) ∧ total = zsum (planned_bytes begin) ∧
  total / frames = v1_plane_bytes begin ∧
  ge_num_kv_heads (bm_geometry begin) ≠ 0 ∧ ge_head_dim (bm_geometry begin) ≠ 0.
Proof.
  intros Hv Hn He. unfold expected_totals, planned_planes, planned_bytes in *. rewrite Hv in *.
  inv_ok. simplify_eq. match goal with H : try_from _ _ = Some _ |- _ => apply try_from_Some in H as [-> _] end.
  match goal with H : checked_payload_bytes _ = Ok _ |- _ => apply checked_payload_bytes_ok in H as -> end.
  rewrite zlen_fmap. unfold zlen. rewrite length_seqZ.
  rewrite zsum_replicate.
  bools. split_and!; [lia|nia| |done..]. replace (ge_num_layers (bm_geometry begin) * 2) with (2 * ge_num_layers (bm_geometry begin)) by lia.
  rewrite Z.mul_comm. by rewrite Z.div_mul by lia.
Qed.
Lemma expected_totals_v2 begin limits frames total :
  is_v2 begin = true → begin_dims begin → 0 < bm_cached_token_count begin →
  expected_totals begin limits = Ok (frames, total) →
  frames = zlen (planned_planes begin) ∧ total = zsum (planned_bytes begin) ∧
  (bm_layout_table begin ≫= layers) ≡ₚ seqZ 0 (ge_num_layers (bm_geometry begin)) ∧
  Forall (class_valid begin limits) (bm_layout_table begin).
Proof.
  intros Hv Hd Hc He. unfold expected_totals, planned_planes, planned_bytes in *. rewrite Hv in *. inv_ok.
  match goal with H : validate_layout_table _ _ = Ok ?u |- _ =>
    destruct u; apply validate_layout_table_ok in H as [? ?]; [|done..] end.
  match goal with H : v2_frame_counts _ = Ok _ |- _ => apply v2_frame_counts_ok in H as [-> ->]; [|done] end.
  by rewrite zlen_fmap.
Qed.

Section v2_plan.
Context (begin : BeginManifestV1) (limits : ValidationLimits).
Hypothesis Hcover : (bm_layout_table begin ≫= layers) ≡ₚ seqZ 0 (ge_num_layers (bm_geometry begin)).
Hypothesis Hvalid : Forall (class_valid begin limits) (bm_layout_table begin).

Lemma v2_planes_perm : (entry_plane <$> layout_walk_v2 begin) ≡ₚ bm_layout_table begin ≫= class_planes.
Proof. by rewrite layout_walk_perm, declared_planes. Qed.
Lemma v2_planes_once : NoDup (entry_plane <$> layout_walk_v2 begin).
Proof.
  rewrite v2_planes_perm. apply NoDup_table_planes; [rewrite Hcover; apply NoDup_seqZ|].
  eapply list.Forall_impl; [exact Hvalid|]. intros c Hc. by eapply class_valid_roles.
Qed.
Lemma v2_planes_range l r : (l, r) ∈ (entry_plane <$> layout_walk_v2 begin) →
  0 ≤ l < ge_num_layers (bm_geometry begin).
Proof.
  rewrite v2_planes_perm, list_elem_of_bind. intros (c & Hl & Hc). apply elem_of_class_planes in Hl as [Hl _].
  assert (l ∈ bm_layout_table begin ≫= layers) as Hin by (apply list_elem_of_bind; eauto).
  rewrite Hcover, elem_of_seqZ in Hin. lia.
Qed.
Lemma v2_planes_every l : 0 ≤ l < ge_num_layers (bm_geometry begin) →
  (l, Key) ∈ (entry_plane <$> layout_walk_v2 begin).
Proof.
  intros Hl. rewrite v2_planes_perm. assert (l ∈ bm_layout_table begin ≫= layers) as Hin
    by (rewrite Hcover, elem_of_seqZ; lia).
  apply list_elem_of_bind in Hin as (c & Hlc & Hc). apply list_elem_of_bind. exists c. split; [|done].
  apply elem_of_class_planes. split; [done|]. rewrite list.Forall_forall in Hvalid.
  by eapply class_valid_roles, Hvalid.
Qed.
Lemma v2_planes_bound : Forall (λ n, n ≤ vl_max_frame_bytes limits) (entry_bytes begin <$> layout_walk_v2 begin).
Proof.
  apply Forall_fmap, list.Forall_forall. intros [[ci l] r] Hin. apply list_elem_of_lookup in Hin as [i Hi].
  apply walk_entry in Hi as (n & c & -> & Hc & _ & Hr). simpl. unfold entry_bytes. simpl. rewrite Nat2Z.id, Hc.
  apply list_elem_of_lookup_2 in Hc. rewrite list.Forall_forall in Hvalid. by apply (cv_frame _ _ _ (Hvalid _ Hc)).
Qed.
Lemma v2_planes_positive : begin_dims begin → 0 < bm_cached_token_count begin →
  Forall (λ n, 0 < n) (entry_bytes begin <$> layout_walk_v2 begin).
Proof.
  intros [_ Hd] Hc. apply Forall_fmap, list.Forall_forall. intros [[ci l] r] Hin.
  apply list_elem_of_lookup in Hin as [i Hi].
  apply walk_entry in Hi as (n & c & -> & Hn & _ & Hr). simpl. unfold entry_bytes. simpl. rewrite Nat2Z.id, Hn.
  apply list_elem_of_lookup_2 in Hn. rewrite list.Forall_forall in Hvalid, Hd.
  destruct (Hvalid _ Hn). destruct (Hd _ Hn) as (Hw & _).
  pose proof (class_window_pos begin c Hc Hw). pose proof (plane_element_pos begin r). unfold plane_bytes.
  repeat apply Z.mul_pos_pos; lia.
Qed.
Lemma v2_frames_pos : 0 < ge_num_layers (bm_geometry begin) → 0 < zlen (entry_plane <$> layout_walk_v2 begin).
Proof.
  intros Hn. pose proof (v2_planes_every 0) as Hk. destruct (entry_plane <$> _); [|zlia].
  exfalso. eapply (not_elem_of_nil), Hk. lia.
Qed.
End v2_plan.

Lemma begin_validate_ok begin limits :
  begin_dims begin → 0 ≤ ge_num_layers (bm_geometry begin) →
  begin_validate begin limits = Ok tt → begin_accepted begin limits.
Proof.
  intros Hd Hn Hv. unfold begin_validate in Hv. inv_ok. destruct x as [frames total]. inv_ok. bools.
  assert (0 < bm_cached_token_count begin) by (destruct Hd; lia).
  rename select (expected_totals _ _ = Ok _) into He. rename select (div_or_panic _ _ = Ok _) into Hdiv.
  unfold div_or_panic in Hdiv. inv_ok. subst.
  destruct (is_v2 begin) eqn:Hv2.
  - apply expected_totals_v2 in He as (Hf & Ht & Hcov & Hval); [|done..].
    unfold planned_planes, planned_bytes in *. rewrite Hv2 in *.
    split; unfold planned_planes, planned_bytes; rewrite ?Hv2; try done; try lia.
    + intros _ _. by eapply v2_planes_positive.
    + by eapply v2_planes_bound.
    + by eapply v2_planes_once.
    + by eapply v2_planes_range.
    + by eapply v2_planes_every.
  - apply expected_totals_v1 in He as (Hf & Ht & Hone & Hkv & Hhd); [|done|lia]. rewrite Hone in *.
    split; try done; try lia; unfold planned_planes, planned_bytes; rewrite ?Hv2.
    + intros ? ?. apply list.Forall_replicate. unfold v1_plane_bytes. nia.
    + by apply list.Forall_replicate.
    + apply v1_planes_once.
    + intros l r. rewrite v1_planes_elem; lia.
    + intros l. rewrite v1_planes_elem; lia.
Qed.

(** ** No panic *)
Lemma validate_class_no_panic begin limits class : ¬ panics (validate_class begin limits class).
Proof. unfold validate_class. no_panic. Qed.
Lemma validate_layout_table_no_panic begin limits : ¬ panics (validate_layout_table begin limits).
Proof.
  unfold validate_layout_table. apply bind_no_panic.
  - apply try_fold_no_panic. intros a c _. apply bind_no_panic; [apply validate_class_no_panic|by intros ? ? []].
  - intros covered _. cbv zeta. no_panic. destruct (bm_layout_table begin) as [|? [|]]; no_panic.
Qed.
Lemma validate_schedule_no_panic begin : ¬ panics (validate_schedule begin).
Proof. unfold validate_schedule. destruct (bm_schedule begin); no_panic. Qed.
Lemma v2_frame_counts_no_panic begin : ¬ panics (v2_frame_counts begin).
Proof.
  unfold v2_frame_counts. apply bind_no_panic; [|intros ? ?; no_panic]. apply try_fold_no_panic. intros a c _.
  apply try_fold_no_panic. intros [f t] r _. unfold count_role. no_panic.
Qed.
#[export] Hint Resolve validate_layout_table_no_panic validate_schedule_no_panic v2_frame_counts_no_panic : no_panic.
Lemma expected_totals_no_panic begin limits : ¬ panics (expected_totals begin limits).
Proof. unfold expected_totals, checked_payload_bytes. no_panic. Qed.

(** The division by the frame count is safe: an accepted table has frames. *)
Lemma begin_validate_no_panic begin limits :
  begin_dims begin → 0 ≤ ge_num_layers (bm_geometry begin) → ¬ panics (begin_validate begin limits).
Proof.
  intros Hd Hn. unfold begin_validate. do 2 (no_panic_step; [by intros []|]). bools.
  apply bind_no_panic; [apply expected_totals_no_panic|]. intros [frames total] He.
  assert (frames ≠ 0) as Hf.
  { destruct (is_v2 begin) eqn:Hv2.
    - apply expected_totals_v2 in He as (-> & _ & Hcov & Hval); [|done..|destruct Hd; lia].
      unfold planned_planes. rewrite Hv2. pose proof (v2_frames_pos _ _ Hcov Hval). lia.
    - apply expected_totals_v1 in He as (-> & _); [|done|lia]. unfold planned_planes. rewrite Hv2, zlen_fmap.
      unfold zlen. rewrite length_seqZ. lia. }
  unfold div_or_panic. rewrite (proj2 (Z.eqb_neq frames 0) Hf). cbn [mbind outcome_bind].
  no_panic.
Qed.

(** ** Layer headers *)
Definition header_at header begin (i : Z) : Prop :=
  planned_planes begin !! Z.to_nat i = Some (lh_layer header, lh_role header) ∧
  planned_bytes begin !! Z.to_nat i = Some (lh_byte_length header) ∧
  lh_sequence header = i ∧ lh_transfer_id header = bm_transfer_id begin.

Lemma expected_plane_at_ok begin i ep : expected_plane_at begin i = Ok ep →
  ∃ n, bm_layout_table begin !! n = Some (ep_class ep) ∧
    layout_walk_v2 begin !! Z.to_nat i = Some (Z.of_nat n, ep_layer ep, ep_role ep) ∧
    ep_range_start ep = Z.max 0 (bm_cached_token_count begin - class_window begin (ep_class ep)) ∧
    ep_range_end ep = bm_cached_token_count begin.
Proof.
  unfold expected_plane_at. intros He.
  apply bind_Ok in He as ([[ci l] r] & Hl & He). apply ok_or_Ok in Hl. destruct (walk_entry _ _ _ _ _ Hl) as (n & c & -> & Hc & _).
  unfold expected_from_walk_entry in He. unfold index in He. rewrite (proj2 (Z.leb_le _ _)), Nat2Z.id, Hc in He by lia.
  cbn [expect mbind outcome_bind] in He. injection He as <-. by exists n.
Qed.

Lemma header_validate_v2_ok header begin i :
  is_v2 begin = true → begin_dims begin → validate_for_v2 header begin i = Ok tt → header_at header begin i.
Proof.
  intros Hv [Hc Hd] Hh. unfold validate_for_v2 in Hh. apply bind_Ok in Hh as (ep & He & Hh).
  apply expected_plane_at_ok in He as (n & Hn & Hw & Hs & Hend).
  unfold validate_for_v2_expected in Hh. cbv zeta in Hh. inv_ok. bools.
  rename select (checked_product _ _ _ _ = Some _) into Hp. rename select (checked_sub _ _ = Some _) into Hsub.
  apply checked_sub_Some in Hsub as [-> Hle]. rewrite list.Forall_forall in Hd.
  destruct (Hd (ep_class ep)) as (Hwin & Hkv & Hhd & _); [by eapply list_elem_of_lookup_2|].
  pose proof (plane_element_pos begin (ep_role ep)).
  apply checked_product_Some in Hp as [-> _]; [|lia..].
  unfold header_at, planned_planes, planned_bytes. rewrite Hv, !list_lookup_fmap, Hw. simpl.
  split_and!; [by f_equal; unfold entry_plane; simpl; congruence| |done|by apply bytes_eqb_eq].
  unfold entry_bytes. simpl. rewrite Nat2Z.id, Hn. f_equal. unfold plane_bytes.
  assert (class_window begin (ep_class ep) ≤ bm_cached_token_count begin)
    by (unfold class_window; destruct (_ =? _); lia).
  rename select (lh_byte_length header = _) into Hb. rewrite Hb. do 3 f_equal. lia.
Qed.

Lemma header_validate_ok header begin limits i :
  begin_dims begin → begin_accepted begin limits → 0 ≤ i < bm_expected_layer_frames begin →
  header_validate_for header begin i = Ok tt → header_at header begin i.
Proof.
  intros Hd Ha Hi Hh. unfold header_validate_for in Hh. destruct (is_v2 begin) eqn:Hv.
  { by apply header_validate_v2_ok. }
  cbv zeta in Hh. inv_ok. bools. rewrite (ba_frames _ _ Ha) in Hi.
  rename select (expected_plane_bytes _ = Ok _) into Hp. unfold expected_plane_bytes, div_or_panic in Hp. inv_ok.
  rename select (checked_payload_bytes _ = Ok _) into Hcp. apply checked_payload_bytes_ok in Hcp as ->.
  assert (zlen (planned_planes begin) = 2 * ge_num_layers (bm_geometry begin)) as Hz.
  { unfold planned_planes. rewrite Hv, zlen_fmap. unfold zlen. rewrite length_seqZ. destruct (ba_layers _ _ Ha). lia. }
  rewrite Hz in Hi. unfold header_at, planned_planes, planned_bytes. rewrite Hv.
  rewrite list_lookup_fmap, lookup_replicate_2 by lia. rewrite (lookup_seqZ_lt _ _ _) by lia. simpl.
  rewrite Z2Nat.id, Z.add_0_l by lia.
  split_and!; [congruence| |done|by apply bytes_eqb_eq].
  f_equal. rename select (lh_byte_length header = _) into Hb. rewrite Hb. subst.
  rewrite (ba_frames _ _ Ha), Hz, Z.mul_comm, Z.div_mul; [done|lia].
Qed.

(** ** Line streams *)
Lemma app_sep_inj (s : Z) a b a' b' :
  s ∉ a → s ∉ a' → a ++ s :: b = a' ++ s :: b' → a = a' ∧ b = b'.
Proof.
  revert a'. induction a as [|x a IH]; intros [|y a'] Ha Ha' E; simpl in E.
  - by injection E as ->.
  - injection E as -> _. destruct Ha'. by left.
  - injection E as <- _. destruct Ha. by left.
  - injection E as -> E. apply not_elem_of_cons in Ha as [? Ha], Ha' as [? Ha'].
    destruct (IH a' Ha Ha' E) as [-> ->]. done.
Qed.
Definition join_lines (lines : list bytes) : bytes := lines ≫= λ line, line ++ [10].
Lemma join_lines_inj lines last lines' last' :
  Forall (λ l, 10 ∉ l) lines → Forall (λ l, 10 ∉ l) lines' → 10 ∉ last → 10 ∉ last' →
  join_lines lines ++ last = join_lines lines' ++ last' → lines = lines' ∧ last = last'.
Proof.
  intros Hl. revert lines'. induction Hl as [|l lines Hl Hls IH]; intros [|l' lines'] Hl' Hla Hla' E.
  - done.
  - exfalso. apply Hla. simpl in E. rewrite E. set_solver.
  - exfalso. apply Hla'. simpl in E. rewrite <-E. set_solver.
  - unfold join_lines in E, IH. cbn [mbind list_bind] in E. rewrite <-!app_assoc in E. simpl in E.
    apply Forall_cons_iff in Hl' as [Hl0 Hl'].
    apply app_sep_inj in E as [-> E]; [|done..]. destruct (IH lines' Hl' Hla Hla' E) as [-> ->]. done.
Qed.

Section streams.
Context `{CryptoLaws} `{JsonTextLaws}.
Implicit Types (headers : list LayerHeaderV1) (core : SealCoreV1) (seal : SealManifestV1).

Lemma header_lines_ok headers : Forall (typed_as serde_LayerHeaderV1) headers →
  ∃ lines, header_lines headers = Ok (join_lines lines) ∧ Forall (λ l, 10 ∉ l) lines ∧
    Forall2 (λ h l, canonical_json serde_LayerHeaderV1 h = Ok l) headers lines.
Proof.
  intros Hh. unfold header_lines. cut (∀ acc, ∃ lines,
    try_fold (λ acc h, line ← canonical_json serde_LayerHeaderV1 h; Ok (acc ++ line ++ [10])) acc headers =
      Ok (acc ++ join_lines lines) ∧ Forall (λ l, 10 ∉ l) lines ∧
    Forall2 (λ h l, canonical_json serde_LayerHeaderV1 h = Ok l) headers lines).
  { intros Hc. apply (Hc []). }
  induction Hh as [|h headers Ht Hh IH]; intros acc.
  - exists []. split; [by simpl; rewrite app_nil_r|]. by split.
  - destruct (canonical_json_ok serde_LayerHeaderV1 h Ht) as (l & Hl & _ & _ & Hn). cbn [try_fold].
    rewrite Hl. cbn [mbind outcome_bind]. destruct (IH (acc ++ l ++ [10])) as (lines & -> & Hf & H2).
    exists (l :: lines). split; [|by split; constructor].
    unfold join_lines. cbn [mbind list_bind]. by rewrite <-!app_assoc.
Qed.
Lemma header_lines_inj headers headers' b :
  Forall (typed_as serde_LayerHeaderV1) headers → Forall (typed_as serde_LayerHeaderV1) headers' →
  header_lines headers = Ok b → header_lines headers' = Ok b → headers = headers'.
Proof.
  intros Ht Ht' E E'. destruct (header_lines_ok _ Ht) as (ls & El & Hn & H2), (header_lines_ok _ Ht') as (ls' & El' & Hn' & H2').
  rewrite El in E. injection E as <-. rewrite El' in E'. injection E' as E'.
  destruct (join_lines_inj ls [] ls' []) as [-> _]; [done..|by apply not_elem_of_nil|by apply not_elem_of_nil|by rewrite !app_nil_r, E'|].
  clear E' El El' Hn Hn'. revert headers' Ht' H2'. induction H2 as [|h l hs ls Hh H2 IH]; intros headers' Ht' H2'.
  - by inversion H2'.
  - inversion H2' as [|h' ? hs' ? Hh' H2'']; subst. apply Forall_cons_iff in Ht as [? Ht], Ht' as [? Ht'].
    f_equal; [by eapply (canonical_json_inj serde_LayerHeaderV1)|]. by apply IH.
Qed.

Lemma artifact_lines_ok begin headers core :
  typed_as serde_BeginManifestV1 begin → Forall (typed_as serde_LayerHeaderV1) headers →
  typed_as serde_SealCoreV1 core → ∃ b, artifact_lines begin headers core = Ok b.
Proof.
  intros. unfold artifact_lines. destruct (header_lines_ok headers) as (ls & -> & _); [done|].
  unfold canonical_json. cbn [mbind outcome_bind]. eauto.
Qed.
Lemma artifact_lines_inj begin headers core begin' headers' core' b :
  typed_as serde_BeginManifestV1 begin → typed_as serde_BeginManifestV1 begin' →
  Forall (typed_as serde_LayerHeaderV1) headers → Forall (typed_as serde_LayerHeaderV1) headers' →
  typed_as serde_SealCoreV1 core → typed_as serde_SealCoreV1 core' →
  artifact_lines begin headers core = Ok b → artifact_lines begin' headers' core' = Ok b →
  begin = begin' ∧ headers = headers' ∧ core = core'.
Proof.
  intros Hb Hb' Hh Hh' Hc Hc' E E'. unfold artifact_lines in *.
  destruct (canonical_json_ok serde_BeginManifestV1 begin Hb) as (jb & Ejb & _ & _ & Nb).
  destruct (canonical_json_ok serde_BeginManifestV1 begin' Hb') as (jb' & Ejb' & _ & _ & Nb').
  destruct (canonical_json_ok serde_SealCoreV1 core Hc) as (jc & Ejc & _ & _ & Nc).
  destruct (canonical_json_ok serde_SealCoreV1 core' Hc') as (jc' & Ejc' & _ & _ & Nc').
  destruct (header_lines_ok _ Hh) as (ls & El & Hn & _), (header_lines_ok _ Hh') as (ls' & El' & Hn' & _).
  rewrite Ejb, El, Ejc in E. rewrite Ejb', El', Ejc' in E'. cbn [mbind outcome_bind] in E, E'. inv_ok. subst.
  rename select (_ = _ ++ [10] ++ _) into Eq. symmetry in Eq.
  apply app_sep_inj in Eq as [-> Eq]; [|done..]. apply join_lines_inj in Eq as [-> ->]; [|done..].
  split_and!; [by eapply (canonical_json_inj serde_BeginManifestV1)|by eapply header_lines_inj|
    by eapply (canonical_json_inj serde_SealCoreV1)].
Qed.

(** Two sealed handoffs with the same artifact digest are the same, or SHA-256 collides. *)
(** What the artifact digest hashes. *)
Definition artifact_stream begin headers core : hresult bytes :=
  lines ← artifact_lines begin headers core; Ok (str "kvpack-live-artifact-v1" ++ [0] ++ lines).
(** Two given streams that the function does not tell apart. *)
Definition streams_collide (f : bytes → bytes) (r r' : hresult bytes) : Prop :=
  ∃ m m', r = Ok m ∧ r' = Ok m' ∧ collides f m m'.

Lemma artifact_sha256_binds begin headers core begin' headers' core' d :
  typed_as serde_BeginManifestV1 begin → typed_as serde_BeginManifestV1 begin' →
  Forall (typed_as serde_LayerHeaderV1) headers → Forall (typed_as serde_LayerHeaderV1) headers' →
  typed_as serde_SealCoreV1 core → typed_as serde_SealCoreV1 core' →
  artifact_sha256 begin headers core = Ok d → artifact_sha256 begin' headers' core' = Ok d →
  (begin = begin' ∧ headers = headers' ∧ core = core') ∨
  streams_collide sha256_digest (artifact_stream begin headers core) (artifact_stream begin' headers' core').
Proof.
  intros Hb Hb' Hh Hh' Hc Hc' E E'. unfold artifact_sha256 in *. inv_ok. subst.
  rename select (hex_encode _ = hex_encode _) into Eh. apply hex_encode_inj in Eh; [|apply sha256_id..].
  symmetry in Eh. apply hash_eq_or_collides in Eh as [Eq|Hcol]; [left|right].
  - apply app_inv_head, app_inv_head in Eq. subst. by eapply artifact_lines_inj.
  - unfold streams_collide, artifact_stream.
    repeat match goal with H : artifact_lines _ _ _ = Ok _ |- _ => rewrite H; clear H end. cbn [mbind outcome_bind]. eauto 10.
Qed.
Lemma artifact_hmac_binds begin headers core begin' headers' core' key d :
  typed_as serde_BeginManifestV1 begin → typed_as serde_BeginManifestV1 begin' →
  Forall (typed_as serde_LayerHeaderV1) headers → Forall (typed_as serde_LayerHeaderV1) headers' →
  typed_as serde_SealCoreV1 core → typed_as serde_SealCoreV1 core' →
  artifact_hmac_sha256 begin headers core key = Ok d → artifact_hmac_sha256 begin' headers' core' key = Ok d →
  (begin = begin' ∧ headers = headers' ∧ core = core') ∨
  streams_collide (hmac_sha256 key) (artifact_mac_stream begin headers core) (artifact_mac_stream begin' headers' core').
Proof.
  intros Hb Hb' Hh Hh' Hc Hc' E E'. unfold artifact_hmac_sha256, tag_hex in *. inv_ok.
  rename select (artifact_mac_stream begin _ _ = _) into Hm. rename select (artifact_mac_stream begin' _ _ = _) into Hm'.
  unfold streams_collide. rewrite Hm, Hm'. subst.
  rename select (hex_encode _ = hex_encode _) into Eh. apply hex_encode_inj in Eh; [|apply hmac_id..].
  symmetry in Eh. apply hash_eq_or_collides in Eh as [Eq|Hcol]; [left|right; eauto 10].
  unfold artifact_mac_stream in Hm, Hm'. inv_ok. subst.
  match goal with H : _ ++ _ = _ ++ _ |- _ => apply app_inv_head, app_inv_head in H; subst end. by eapply artifact_lines_inj.
Qed.
Lemma authenticate_hmac_iff seal begin headers key tag :
  sm_artifact_hmac_sha256 seal = Some tag → lower_hex64 tag = true →
  authenticate_hmac seal begin headers key = Ok tt ↔
  artifact_hmac_sha256 begin headers (sm_core seal) key = Ok tag.
Proof.
  intros Ht Hl. unfold authenticate_hmac, artifact_hmac_sha256. rewrite Ht. cbn [ok_or mbind outcome_bind].
  destruct (artifact_mac_stream _ _ _) as [s| |]; cbn [mbind outcome_bind]; [|done..].
  by apply verify_hex_iff.
Qed.
End streams.
