(* ===== verification/HandoffFrame.v ===== *)
(** * Frames of the live handoff (crates/kvpack-handoff/src/frame.rs)

    A frame is a 20-byte envelope, canonical JSON and, for a layer, a raw
    payload.  The reader's state is the unread part of its stream and the
    header whose payload is pending; every method returns its outcome and the
    new state, errors included.  The stream ends with end-of-file; a
    writer appends to its buffer. *)
From Stdlib Require Import ZArith Lia.
From stdpp Require Import base tactics numbers list strings option sorting.
From S2P Require Import Prelude Bytes Canonical Crypto HandoffJson HandoffMac HandoffManifest.
From S2P Require Import HandoffValidation.

Definition FRAME_HEADER_BYTES : Z := 20.

Inductive FrameKind := KBegin | KLayer | KSeal | KAbort | KAck.
#[export] Instance FrameKind_eq_dec : EqDecision FrameKind.
Proof. solve_decision. Defined.
Definition FrameKind_wire (k : FrameKind) : Z :=
  match k with KBegin => 1 | KLayer => 2 | KSeal => 3 | KAbort => 4 | KAck => 5 end.
Definition FrameKind_try_from (value : Z) : hresult FrameKind :=
  if value =? 1 then Ok KBegin else if value =? 2 then Ok KLayer else if value =? 3 then Ok KSeal
  else if value =? 4 then Ok KAbort else if value =? 5 then Ok KAck
  else invalid "unknown live handoff frame kind {value}".

Inductive Frame :=
  | FBegin (m : BeginManifestV1)
  | FLayer (h : LayerHeaderV1) (payload : bytes)
  | FSeal (m : SealManifestV1)
  | FAbort (m : AbortManifestV1)
  | FAck (m : AckManifestV1).
Inductive FrameHeader :=
  | HBegin (m : BeginManifestV1)
  | HLayer (h : LayerHeaderV1)
  | HSeal (m : SealManifestV1)
  | HAbort (m : AbortManifestV1)
  | HAck (m : AckManifestV1).
Definition FrameHeader_kind (h : FrameHeader) : FrameKind :=
  match h with HBegin _ => KBegin | HLayer _ => KLayer | HSeal _ => KSeal | HAbort _ => KAbort | HAck _ => KAck end.
Definition FrameHeader_layer (h : FrameHeader) : option LayerHeaderV1 :=
  match h with HLayer header => Some header | _ => None end.

Record FrameLimits := mkFrameLimits { fl_max_json_bytes : Z; fl_max_payload_bytes : Z }.
Definition FrameLimits_default : FrameLimits := mkFrameLimits (1024 * 1024) (64 * 1024 * 1024).

Section frame.
Context `{JsonText}.

(** ** Writing *)
Definition encode_parts (frame : Frame) : hresult (FrameKind * bytes * bytes) :=
  match frame with
  | FBegin value => json ← canonical_json serde_BeginManifestV1 value; Ok (KBegin, json, [])
  | FLayer header payload => json ← canonical_json serde_LayerHeaderV1 header; Ok (KLayer, json, payload)
  | FSeal value => json ← canonical_json serde_SealManifestV1 value; Ok (KSeal, json, [])
  | FAbort value => json ← canonical_json serde_AbortManifestV1 value; Ok (KAbort, json, [])
  | FAck value => json ← canonical_json serde_AckManifestV1 value; Ok (KAck, json, [])
  end.

(** The envelope as the five [copy_from_slice] calls fill it. *)
Definition envelope (kind : FrameKind) (json_len payload_len : Z) : bytes :=
  FRAME_MAGIC ++ [LIVE_HANDOFF_SCHEMA_V1] ++ [FrameKind_wire kind] ++ be_bytes 2 0
  ++ be_bytes 4 json_len ++ be_bytes 8 payload_len.

(** The bytes [write_frame] appends to the writer. *)
Definition write_frame (frame : Frame) (limits : FrameLimits) : hresult bytes :=
  parts ← encode_parts frame;
  let '(kind, json, payload) := parts in
  if (zlen json =? 0) || (fl_max_json_bytes limits <? zlen json) then
    invalid "frame JSON length {} is outside configured bounds" else
  payload_len ← ok_or (try_from u64_bound (zlen payload)) (Validation "payload length exceeds u64");
  if fl_max_payload_bytes limits <? payload_len then
    invalid "frame payload length {payload_len} exceeds {}" else
  json_len ← ok_or (try_from u32_bound (zlen json)) (Validation "frame JSON length exceeds u32");
  Ok (envelope kind json_len payload_len ++ json ++ payload).

(** ** Reading *)
Record FrameReader := mkFrameReader {
  fr_reader : bytes;
  fr_limits : FrameLimits;
  fr_pending : option (FrameHeader * Z)
}.
Definition FrameReader_new (reader : bytes) (limits : FrameLimits) : FrameReader :=
  mkFrameReader reader limits None.

(** [read_exact]: a short stream is consumed and reported as end-of-file. *)
Definition read_exact (n : Z) (s : bytes) : hresult bytes * bytes :=
  if zlen s <? n then (Err (Io "UnexpectedEof"), []) else (Ok (ztake n s), zdrop n s).

Definition parse_envelope (header : bytes) (limits : FrameLimits) : hresult (FrameKind * Z * Z) :=
  magic ← slice header 0 4;
  version ← index header 4;
  flags ← slice header 6 8;
  if negb (bytes_eqb magic FRAME_MAGIC) || negb (version =? LIVE_HANDOFF_SCHEMA_V1)
     || negb (bytes_eqb flags [0; 0]) then
    invalid "invalid frame magic, version, or reserved flags" else
  kind_byte ← index header 5;
  kind ← FrameKind_try_from kind_byte;
  json_be ← slice header 8 12;
  payload_be ← slice header 12 20;
  let json_len := be_val json_be in
  let payload_len := be_val payload_be in
  if (json_len =? 0) || (fl_max_json_bytes limits <? json_len)
     || (fl_max_payload_bytes limits <? payload_len)
     || negb (bool_decide (kind = KLayer)) && negb (payload_len =? 0) then
    invalid "frame lengths violate the configured bounds or frame kind"
  else Ok (kind, json_len, payload_len).

Definition decode_header (kind : FrameKind) (json : bytes) (payload_len max_json : Z) : hresult FrameHeader :=
  match kind with
  | KBegin => HBegin <$> decode_canonical_json serde_BeginManifestV1 json max_json
  | KLayer =>
      header ← decode_canonical_json serde_LayerHeaderV1 json max_json;
      if negb (lh_byte_length header =? payload_len) then
        invalid "layer header length does not equal frame payload length"
      else Ok (HLayer header)
  | KSeal => HSeal <$> decode_canonical_json serde_SealManifestV1 json max_json
  | KAbort => HAbort <$> decode_canonical_json serde_AbortManifestV1 json max_json
  | KAck => HAck <$> decode_canonical_json serde_AckManifestV1 json max_json
  end.

Definition read_header (r : FrameReader) : hresult FrameHeader * FrameReader :=
  let at_ s := mkFrameReader s (fr_limits r) None in
  match fr_pending r with
  | Some _ =>
      (invalid "cannot read another frame header before consuming the pending payload", r)
  | None =>
      let '(header, s) := read_exact FRAME_HEADER_BYTES (fr_reader r) in
      match header ≫= λ header, parse_envelope header (fr_limits r) with
      | Ok (kind, json_len, payload_len) =>
          let '(json, s) := read_exact json_len s in
          match json ≫= λ json, decode_header kind json payload_len (fl_max_json_bytes (fr_limits r)) with
          | Ok decoded => (Ok decoded, mkFrameReader s (fr_limits r) (Some (decoded, payload_len)))
          | Err e => (Err e, at_ s)
          | Panic w => (Panic w, at_ s)
          end
      | Err e => (Err e, at_ s)
      | Panic w => (Panic w, at_ s)
      end
  end.

(** [reader.take(payload_len).read_to_end(..)] and the length check. *)
Definition read_payload (r : FrameReader) : hresult Frame * FrameReader :=
  let at_ s := mkFrameReader s (fr_limits r) None in
  match fr_pending r with
  | None => (invalid "no pending frame header to consume", r)
  | Some (header, payload_len) =>
      match header with
      | HBegin value => (Ok (FBegin value), at_ (fr_reader r))
      | HLayer header =>
          let payload := ztake payload_len (fr_reader r) in
          let s := zdrop payload_len (fr_reader r) in
          if negb (zlen payload =? payload_len) then (Err (Io "UnexpectedEof"), at_ s)
          else (Ok (FLayer header payload), at_ s)
      | HSeal value => (Ok (FSeal value), at_ (fr_reader r))
      | HAbort value => (Ok (FAbort value), at_ (fr_reader r))
      | HAck value => (Ok (FAck value), at_ (fr_reader r))
      end
  end.

Definition into_inner (r : FrameReader) : hresult bytes :=
  match fr_pending r with
  | Some _ => invalid "cannot release a frame reader with an unread payload"
  | None => Ok (fr_reader r)
  end.

(** [read_frame], with the rest of the stream. *)
Definition read_frame (s : bytes) (limits : FrameLimits) : hresult Frame * bytes :=
  let '(header, r) := read_header (FrameReader_new s limits) in
  match header with
  | Ok _ => let '(frame, r) := read_payload r in (frame, fr_reader r)
  | Err e => (Err e, fr_reader r)
  | Panic w => (Panic w, fr_reader r)
  end.
End frame.

(** * Laws of handoff frames

    The reader accepts exactly what the writer emits, one frame at a time and
    over whole streams, and consumes no more than the configured bounds. *)
(** ** The envelope *)
Lemma FrameKind_try_from_iff v k : FrameKind_try_from v = Ok k ↔ v = FrameKind_wire k.
Proof.
  unfold FrameKind_try_from. split.
  - repeat (match goal with |- (if ?v =? ?n then _ else _) = _ → _ => destruct (Z.eqb_spec v n) as [->|] end;
      [by intros [= <-]|]). done.
  - intros ->. by destruct k.
Qed.
Definition lengths_ok (limits : FrameLimits) (kind : FrameKind) (json_len payload_len : Z) : Prop :=
  in_u32 json_len ∧ in_u64 payload_len ∧ 0 < json_len ≤ fl_max_json_bytes limits ∧
  payload_len ≤ fl_max_payload_bytes limits ∧ (kind = KLayer ∨ payload_len = 0).

Lemma be_list b : bytes_ok b → ∀ n, length b = n → be_bytes n (be_val b) = b.
Proof. intros Hb n <-. by apply be_bytes_be_val. Qed.
Lemma zlen_envelope k j p : zlen (envelope k j p) = FRAME_HEADER_BYTES.
Proof. unfold envelope. rewrite !zlen_app, !zlen_be_bytes. done. Qed.
Lemma envelope_ok k j p : bytes_ok (envelope k j p).
Proof.
  unfold envelope. rewrite !bytes_ok_app. split_and!; try apply be_bytes_ok; by apply bytes_okb_ok; destruct k.
Qed.

(** The fields of twenty bytes. *)
Section fields.
Context (m f j p : bytes) (v k : Z).
Hypothesis Hm : zlen m = 4.
Hypothesis Hf : zlen f = 2.
Hypothesis Hj : zlen j = 4.
Hypothesis Hp : zlen p = 8.
Let fields := [m; [v]; [k]; f; j; p].
Lemma envelope_slice n x i e :
  fields !! n = Some x → i = zlen (concat (take n fields)) → e = i + zlen x →
  slice (E:=HandoffError) (concat fields) i e = Ok x.
Proof. intros. apply slice_Ok. by eapply get_range_concat. Qed.
Lemma envelope_index n x i :
  fields !! n = Some [x] → i = zlen (concat (take n fields)) → index (E:=HandoffError) (concat fields) i = Ok x.
Proof.
  intros Hn Hi. pose proof (envelope_slice n [x] i (i + 1) Hn Hi eq_refl) as Hs.
  clear Hn Hi. generalize dependent (concat fields). intros s Hs.
  apply slice_Ok, get_range_Some in Hs as (? & ? & ? & Hs). unfold index.
  rewrite (proj2 (Z.leb_le _ _)) by lia. replace (i + 1 - i) with 1 in Hs by lia.
  apply (f_equal (lookup 0%nat)) in Hs. simpl in Hs. unfold ztake, zdrop in Hs.
  rewrite lookup_take_lt, lookup_drop, Nat.add_0_r in Hs by lia. by rewrite <-Hs.
Qed.
Lemma parse_envelope_fields limits :
  parse_envelope (concat fields) limits =
  (if negb (bytes_eqb m FRAME_MAGIC) || negb (v =? LIVE_HANDOFF_SCHEMA_V1) || negb (bytes_eqb f [0; 0]) then
     invalid "invalid frame magic, version, or reserved flags" else
   kind ← FrameKind_try_from k;
   if (be_val j =? 0) || (fl_max_json_bytes limits <? be_val j) || (fl_max_payload_bytes limits <? be_val p)
      || negb (bool_decide (kind = KLayer)) && negb (be_val p =? 0) then
     invalid "frame lengths violate the configured bounds or frame kind"
   else Ok (kind, be_val j, be_val p)).
Proof.
  unfold parse_envelope.
  rewrite (envelope_slice 0 m 0 4), (envelope_index 1 v 4), (envelope_slice 3 f 6 8), (envelope_index 2 k 5),
    (envelope_slice 4 j 8 12), (envelope_slice 5 p 12 20);
    try done; unfold fields; cbn [take concat]; rewrite ?zlen_app, ?zlen_cons, ?zlen_nil; lia.
Qed.
End fields.

Lemma envelope_split (h : bytes) : zlen h = 20 → ∃ (m : bytes) v k (f j p : bytes),
  h = concat [m; [v]; [k]; f; j; p] ∧ zlen m = 4 ∧ zlen f = 2 ∧ zlen j = 4 ∧ zlen p = 8.
Proof.
  intros Hl. do 20 (destruct h as [|? h]; [done|]). destruct h; [|zlia].
  eexists [_; _; _; _], _, _, [_; _], [_; _; _; _], [_; _; _; _; _; _; _; _]. split; [reflexivity|done].
Qed.

Lemma parse_envelope_iff h limits kind jl pl : zlen h = 20 → bytes_ok h →
  parse_envelope h limits = Ok (kind, jl, pl) ↔ h = envelope kind jl pl ∧ lengths_ok limits kind jl pl.
Proof.
  intros Hl Hb. destruct (envelope_split h Hl) as (m & v & k & f & j & p & -> & Hm & Hf & Hj & Hp).
  rewrite parse_envelope_fields by done. cbn [concat] in Hb. rewrite !bytes_ok_app in Hb.
  destruct Hb as (? & ? & ? & ? & Hbj & Hbp & _).
  pose proof (be_val_bound j Hbj) as Bj. pose proof (be_val_bound p Hbp) as Bp. rewrite Hj in Bj. rewrite Hp in Bp.
  change (256 ^ 4) with u32_bound in Bj. change (256 ^ 8) with u64_bound in Bp.
  unfold envelope, lengths_ok, in_u32, in_u64. split.
  - intros E. inv_ok. bools. simplify_eq. repeat match goal with H : bytes_eqb _ _ = true |- _ => apply bytes_eqb_eq in H end.
    match goal with H : FrameKind_try_from _ = Ok _ |- _ => apply FrameKind_try_from_iff in H end. subst.
    split.
    + rewrite (be_list j Hbj 4), (be_list p Hbp 8) by (unfold zlen in *; lia). cbn [concat].
      by rewrite app_nil_r.
    + split_and!; try lia. rename select (_ && _ = false) into E. apply andb_false_iff in E as [E|E]; bools; auto.
  - intros [E (Hju & Hpu & Hjb & Hpb & Hk)]. cbn [concat] in E.
    apply app_inj_zlen in E as [-> E]; [|done]. apply app_inj_zlen in E as [[= ->] E]; [|done].
    apply app_inj_zlen in E as [[= ->] E]; [|done]. apply app_inj_zlen in E as [-> E]; [|by rewrite Hf, zlen_be_bytes].
    apply app_inj_zlen in E as [-> E]; [|by rewrite Hj, zlen_be_bytes]. rewrite app_nil_r in E. subst p.
    rewrite !be_val_be_bytes by (split; [lia|]; apply Hju || apply Hpu).
    change (be_bytes 2 0) with [0; 0]. rewrite !bytes_eqb_refl. cbn [negb orb Z.eqb].
    change (1 =? LIVE_HANDOFF_SCHEMA_V1) with true. cbn [negb orb].
    rewrite (proj2 (FrameKind_try_from_iff _ kind) eq_refl). cbn [mbind outcome_bind].
    rewrite (proj2 (Z.eqb_neq jl 0)), (proj2 (Z.ltb_ge _ jl)), (proj2 (Z.ltb_ge _ pl)) by lia. cbn [orb].
    destruct Hk as [-> | ->]; [done|]. by rewrite andb_false_r.
Qed.

(** ** Frames *)
Definition frame_header (frame : Frame) : FrameHeader :=
  match frame with
  | FBegin m => HBegin m | FLayer h _ => HLayer h | FSeal m => HSeal m | FAbort m => HAbort m | FAck m => HAck m
  end.
Definition frame_payload (frame : Frame) : bytes := match frame with FLayer _ payload => payload | _ => [] end.
(** Inhabitants of the Rust types; a layer announces its payload. *)
Definition frame_ok (frame : Frame) : Prop :=
  match frame with
  | FBegin m => typed_as serde_BeginManifestV1 m
  | FLayer h payload => typed_as serde_LayerHeaderV1 h ∧ bytes_ok payload ∧ lh_byte_length h = zlen payload
  | FSeal m => typed_as serde_SealManifestV1 m
  | FAbort m => typed_as serde_AbortManifestV1 m
  | FAck m => typed_as serde_AckManifestV1 m
  end.

Section frames.
Context `{JsonTextLaws}.
Implicit Types (f : Frame) (limits : FrameLimits).

Definition frame_json f : bytes :=
  match encode_parts f with Ok (_, json, _) => json | _ => [] end.
Lemma encode_parts_eq f :
  encode_parts f = Ok (FrameHeader_kind (frame_header f), frame_json f, frame_payload f).
Proof. by destruct f. Qed.
Lemma frame_json_ok f : frame_ok f → bytes_ok (frame_json f) ∧ 0 < zlen (frame_json f).
Proof.
  unfold frame_json. destruct f as [m|h p|m|m|m]; cbn [encode_parts frame_ok]; intros Hf.
  - by destruct (canonical_json_ok serde_BeginManifestV1 m Hf) as (b & -> & ? & ? & _).
  - by destruct (canonical_json_ok serde_LayerHeaderV1 h (proj1 Hf)) as (b & -> & ? & ? & _).
  - by destruct (canonical_json_ok serde_SealManifestV1 m Hf) as (b & -> & ? & ? & _).
  - by destruct (canonical_json_ok serde_AbortManifestV1 m Hf) as (b & -> & ? & ? & _).
  - by destruct (canonical_json_ok serde_AckManifestV1 m Hf) as (b & -> & ? & ? & _).
Qed.

(** Decoding accepts the JSON of a frame and nothing else. *)
Lemma decode_header_sound kind json pl max h :
  bytes_ok json → decode_header kind json pl max = Ok h →
  FrameHeader_kind h = kind ∧ zlen json ≤ max ∧
  (∀ f, frame_header f = h → frame_json f = json) ∧
  match h with
  | HBegin m => typed_as serde_BeginManifestV1 m
  | HLayer l => typed_as serde_LayerHeaderV1 l ∧ lh_byte_length l = pl
  | HSeal m => typed_as serde_SealManifestV1 m
  | HAbort m => typed_as serde_AbortManifestV1 m
  | HAck m => typed_as serde_AckManifestV1 m
  end.
Proof.
  intros Hb Hd. destruct kind; cbn [decode_header] in Hd.
  2: { apply bind_Ok in Hd as (m & Hd & Hg). inv_ok. bools. subst.
       apply decode_canonical_json_iff in Hd as (Hc & Hz & Ht); [|typeclasses eauto..|done].
       split_and!; try done. intros [] [= ->]. unfold frame_json. cbn [encode_parts]. by rewrite Hc. }
  all: apply fmap_Ok in Hd as (m & Hd & ->);
    apply decode_canonical_json_iff in Hd as (Hc & Hz & Ht); [|typeclasses eauto..|done];
    split_and!; try done; intros [] [= ->]; unfold frame_json; cbn [encode_parts]; by rewrite Hc.
Qed.
Lemma decode_header_complete f max : frame_ok f → zlen (frame_json f) ≤ max →
  decode_header (FrameHeader_kind (frame_header f)) (frame_json f) (zlen (frame_payload f)) max = Ok (frame_header f).
Proof.
  intros Hf Hz. pose proof (frame_json_ok f Hf) as [Hb _].
  destruct f as [m|h p|m|m|m]; cbn [FrameHeader_kind frame_header decode_header frame_ok] in *.
  - rewrite (proj2 (decode_canonical_json_iff serde_BeginManifestV1 _ _ m Hb)); done.
  - destruct Hf as (? & ? & Hl). rewrite (proj2 (decode_canonical_json_iff serde_LayerHeaderV1 _ _ h Hb)) by done.
    cbn [mbind outcome_bind frame_payload]. by rewrite Hl, Z.eqb_refl.
  - rewrite (proj2 (decode_canonical_json_iff serde_SealManifestV1 _ _ m Hb)); done.
  - rewrite (proj2 (decode_canonical_json_iff serde_AbortManifestV1 _ _ m Hb)); done.
  - rewrite (proj2 (decode_canonical_json_iff serde_AckManifestV1 _ _ m Hb)); done.
Qed.

Lemma write_frame_iff f limits w :
  write_frame f limits = Ok w ↔
  w = envelope (FrameHeader_kind (frame_header f)) (zlen (frame_json f)) (zlen (frame_payload f))
        ++ frame_json f ++ frame_payload f ∧
  lengths_ok limits (FrameHeader_kind (frame_header f)) (zlen (frame_json f)) (zlen (frame_payload f)).
Proof.
  unfold write_frame. rewrite encode_parts_eq. cbn [mbind outcome_bind].
  pose proof (zlen_nonneg (frame_json f)). pose proof (zlen_nonneg (frame_payload f)).
  unfold lengths_ok, in_u32, in_u64. split.
  - intros Hw. inv_ok. bools.
    repeat match goal with H : try_from _ _ = Some _ |- _ => apply try_from_Some in H as [-> ?] end.
    split; [done|]. split_and!; try lia. destruct f; auto.
  - intros (-> & Hj & Hp & Hjb & Hpb & _).
    rewrite (proj2 (Z.eqb_neq _ _)), (proj2 (Z.ltb_ge _ (zlen (frame_json f)))) by lia. cbn [orb].
    unfold try_from. rewrite (proj2 (Z.ltb_lt _ u64_bound)) by lia. cbn [ok_or mbind outcome_bind].
    rewrite (proj2 (Z.ltb_ge _ _)) by lia. rewrite (proj2 (Z.ltb_lt _ u32_bound)) by lia. done.
Qed.

Lemma read_exact_app a b n : zlen a = n → read_exact n (a ++ b) = (Ok a, b).
Proof.
  intros Hn. unfold read_exact. rewrite (proj2 (Z.ltb_ge _ _)) by zlia.
  by rewrite ztake_app_exact, zdrop_app_exact.
Qed.
Lemma read_exact_Ok n s a b : 0 ≤ n → read_exact n s = (Ok a, b) → s = a ++ b ∧ zlen a = n.
Proof.
  intros Hn. unfold read_exact. destruct (Z.ltb_spec (zlen s) n); [done|]. intros [= <- <-].
  split; [by rewrite ztake_zdrop|]. by apply zlen_ztake.
Qed.

(** A written frame is read back from the front of any stream. *)
Lemma read_header_complete f limits w rest : frame_ok f → write_frame f limits = Ok w →
  read_header (FrameReader_new (w ++ rest) limits) =
  (Ok (frame_header f),
   mkFrameReader (frame_payload f ++ rest) limits (Some (frame_header f, zlen (frame_payload f)))).
Proof.
  intros Hf Hw. apply write_frame_iff in Hw as [-> Hlen]. pose proof (frame_json_ok f Hf) as [Hb _].
  unfold read_header, FrameReader_new. cbn [fr_pending fr_reader fr_limits].
  rewrite <-!app_assoc, (read_exact_app _ _ _ (zlen_envelope _ _ _)). cbn [mbind outcome_bind].
  rewrite (proj2 (parse_envelope_iff _ _ _ _ _ (zlen_envelope _ _ _) (envelope_ok _ _ _)) (conj eq_refl Hlen)).
  rewrite (read_exact_app _ _ _ eq_refl). cbn [mbind outcome_bind].
  rewrite decode_header_complete by (done || apply Hlen). done.
Qed.
Lemma read_payload_complete f limits rest :
  read_payload (mkFrameReader (frame_payload f ++ rest) limits (Some (frame_header f, zlen (frame_payload f)))) =
  (Ok f, mkFrameReader rest limits None).
Proof.
  unfold read_payload. destruct f; cbn [fr_pending fr_reader fr_limits frame_header frame_payload app]; try done.
  rewrite ztake_app_exact, zdrop_app_exact by done. by rewrite Z.eqb_refl.
Qed.
Lemma read_frame_complete f limits w rest : frame_ok f → write_frame f limits = Ok w →
  read_frame (w ++ rest) limits = (Ok f, rest).
Proof.
  intros Hf Hw. unfold read_frame. by rewrite (read_header_complete f limits w rest Hf Hw), read_payload_complete.
Qed.

(** What a successful header read consumed. *)
Lemma read_header_sound s limits h r : bytes_ok s → read_header (FrameReader_new s limits) = (Ok h, r) →
  ∃ json pl rest, s = envelope (FrameHeader_kind h) (zlen json) pl ++ json ++ rest ∧
    r = mkFrameReader rest limits (Some (h, pl)) ∧ lengths_ok limits (FrameHeader_kind h) (zlen json) pl ∧
    decode_header (FrameHeader_kind h) json pl (fl_max_json_bytes limits) = Ok h.
Proof.
  intros Hs Hr. unfold read_header, FrameReader_new in Hr. cbn [fr_pending fr_reader fr_limits] in Hr.
  destruct (read_exact FRAME_HEADER_BYTES s) as [hd s1] eqn:E1.
  destruct hd as [hd| |]; cbn [mbind outcome_bind] in Hr; [|done..].
  apply read_exact_Ok in E1 as [-> Hhd]; [|done]. apply bytes_ok_app in Hs as [Hb1 Hb2].
  destruct (parse_envelope hd limits) as [[[k jl] pl]| |] eqn:Ep; [|done..].
  apply parse_envelope_iff in Ep as [-> Hlen]; [|done..].
  destruct (read_exact jl s1) as [json s2] eqn:E2. destruct json as [json| |]; cbn [mbind outcome_bind] in Hr; [|done..].
  apply read_exact_Ok in E2 as [-> Hj]; [|destruct Hlen as ([] & _); lia]. subst jl.
  destruct (decode_header k json pl _) as [h'| |] eqn:Ed; [|done..]. injection Hr as -> <-.
  apply bytes_ok_app in Hb2 as [Hbj _].
  assert (FrameHeader_kind h = k) as <- by (by eapply decode_header_sound). by exists json, pl, s2.
Qed.
Lemma read_frame_sound s limits f rest : bytes_ok s → read_frame s limits = (Ok f, rest) →
  frame_ok f ∧ ∃ w, write_frame f limits = Ok w ∧ s = w ++ rest.
Proof.
  intros Hs Hr. unfold read_frame in Hr. destruct (read_header _) as [h r] eqn:Eh.
  destruct h as [h| |]; [|done..]. destruct (read_header_sound _ _ _ _ Hs Eh) as (json & pl & rest1 & -> & -> & Hlen & Hd).
  rewrite !bytes_ok_app in Hs. destruct Hs as (_ & Hbj & Hbr).
  destruct (decode_header_sound _ _ _ _ _ Hbj Hd) as (_ & _ & Hjson & Hty).
  destruct (read_payload _) as [f' r'] eqn:Ep. injection Hr as -> <-.
  unfold read_payload in Ep. cbn [fr_pending fr_reader fr_limits] in Ep.
  assert (0 ≤ pl) as Hpl by (by destruct Hlen as (_ & [? _] & _)).
  enough (frame_ok f ∧ frame_header f = h ∧ zlen (frame_payload f) = pl ∧ rest1 = frame_payload f ++ fr_reader r')
    as (Hf & Hh & Hp & Hrest).
  { split; [done|]. exists (envelope (FrameHeader_kind h) (zlen json) pl ++ json ++ frame_payload f).
    rewrite write_frame_iff, Hh, (Hjson f Hh), Hp. rewrite <-!app_assoc, <-Hrest. done. }
  assert (h = h) as _ by done. destruct Hlen as (_ & _ & _ & _ & Hk).
  destruct h as [m|l|m|m|m]; [| |..];
    try (destruct Hk as [|Hk]; [done|]; injection Ep as <- <-; by rewrite Hk).
  destruct (Z.eqb_spec (zlen (ztake pl rest1)) pl) as [Hz|]; [|done]. injection Ep as <- <-. cbn [fr_reader].
  destruct Hty as [? ?]. cbn [frame_ok frame_header frame_payload].
  split_and!; [done|by apply bytes_ok_ztake|congruence|done|done|by rewrite ztake_zdrop].
Qed.
End frames.
