(* ===== verification/HandoffVerify.v ===== *)
(** * The incremental verifier (crates/kvpack-handoff/src/verify.rs)

    A running SHA-256 is the byte string absorbed so far.  A method that takes
    [&mut self] computes its result and the new state on temporaries and
    commits both at the end: [commit] leaves the state as it was on an error. *)
From Stdlib Require Import ZArith Lia.
From stdpp Require Import base tactics numbers list strings option sorting.
From S2P Require Import Prelude Bytes Canonical Crypto HandoffJson HandoffMac HandoffManifest.
From S2P Require Import HandoffLayout HandoffValidation HandoffLayoutLaws HandoffValidationLaws.

(** The derived [PartialEq] of the manifests. *)
#[export] Instance LayerHeaderV1_eq_dec : EqDecision LayerHeaderV1.
Proof. solve_decision. Defined.
#[export] Instance CanaryRecord_eq_dec : EqDecision CanaryRecord.
Proof. solve_decision. Defined.
#[export] Instance SealCoreV1_eq_dec : EqDecision SealCoreV1.
Proof. solve_decision. Defined.
#[export] Instance SealManifestV1_eq_dec : EqDecision SealManifestV1.
Proof. solve_decision. Defined.

Record VerifiedPlaneV1 := mkVerifiedPlaneV1 {
  vp_header : LayerHeaderV1;
  vp_bytes : bytes
}.
#[export] Instance VerifiedPlaneV1_eq_dec : EqDecision VerifiedPlaneV1.
Proof. solve_decision. Defined.

(** ** Layer pairs *)
Record VerifiedLayerPairV1 := mkVerifiedLayerPairV1 {
  vl_layer : Z;
  vl_key : VerifiedPlaneV1;
  vl_value : option VerifiedPlaneV1
}.
Definition layer_pair_new (key value : VerifiedPlaneV1) : hresult VerifiedLayerPairV1 :=
  let k := vp_header key in
  let v := vp_header value in
  if negb (lh_layer k =? lh_layer v) || negb (bool_decide (lh_role k = Key))
     || negb (bool_decide (lh_role v = Value_role))
     || negb (lh_sequence v =? Z.min (lh_sequence k + 1) (u32_bound - 1)) then
    invalid "verified layer pair is not one adjacent K-then-V pair"
  else Ok (mkVerifiedLayerPairV1 (lh_layer k) key (Some value)).
Definition layer_pair_new_single (key : VerifiedPlaneV1) : hresult VerifiedLayerPairV1 :=
  if negb (bool_decide (lh_role (vp_header key) = Key)) then
    invalid "verified single-role layer is not a key-role plane"
  else Ok (mkVerifiedLayerPairV1 (lh_layer (vp_header key)) key None).
Definition canonical_bytes (pair : VerifiedLayerPairV1) : Z :=
  match vl_value pair with
  | None => lh_byte_length (vp_header (vl_key pair))
  | Some value => saturating_add (lh_byte_length (vp_header (vl_key pair))) (lh_byte_length (vp_header value))
  end.

(** ** The verifier *)
Record VerifiedSealV1 := mkVerifiedSealV1 {
  vs_seal : SealManifestV1;
  vs_transfer_id : bytes;
  vs_descriptor_chain_sha256 : bytes;
  vs_payload_sha256 : bytes
}.
#[export] Instance VerifiedSealV1_eq_dec : EqDecision VerifiedSealV1.
Proof. solve_decision. Defined.

Record IncrementalVerifierV1 := mkIncrementalVerifierV1 {
  iv_begin : BeginManifestV1;
  iv_limits : ValidationLimits;
  iv_layout_walk : option (list (Z * Z * TensorRoleV1));
  iv_headers : list LayerHeaderV1;
  iv_payload_bytes : Z;
  iv_payload_hash : bytes;
  iv_descriptor_hash : bytes;
  iv_artifact_prefix_hash : bytes;
  iv_sealed : bool
}.

(** The temporaries of a method become its state only when it succeeds. *)
Definition commit {A S} (state : S) (m : hresult (A * S)) : hresult A * S :=
  match m with
  | Ok (a, state') => (Ok a, state')
  | Err e => (Err e, state)
  | Panic w => (Panic w, state)
  end.

Section verify.
Context `{Crypto} `{JsonText}.
Implicit Types (v : IncrementalVerifierV1) (header : LayerHeaderV1) (payload : bytes).

Definition verifier_new (begin : BeginManifestV1) (limits : ValidationLimits)
  : hresult IncrementalVerifierV1 :=
  _ ← begin_validate begin limits;
  let layout_walk := if is_v2 begin then Some (layout_walk_v2 begin) else None in
  first ← canonical_json serde_BeginManifestV1 begin;
  Ok (mkIncrementalVerifierV1 begin limits layout_walk [] 0 []
        (str "kvpack-live-descriptor-chain-v1" ++ [0])
        (str "kvpack-live-artifact-v1" ++ [0] ++ first ++ [10]) false).

Definition expected_layer_at v (sequence : Z) : hresult Z :=
  walk ← ok_or (iv_layout_walk v) (Validation "a v1 begin declares no layout walk");
  entry ← ok_or (walk !! Z.to_nat sequence)
    (Validation "layer frame {sequence} is outside the declared layout table");
  Ok entry.1.2.
Definition is_single_role_frame v (sequence : Z) : hresult bool :=
  match iv_layout_walk v ≫= λ walk, walk !! Z.to_nat sequence with
  | Some (class_idx, _, _) =>
      class ← index (bm_layout_table (iv_begin v)) class_idx;
      Ok (zlen (lc_roles class) =? 1)
  | None => Ok false
  end.
(** [u32::try_from(self.headers.len()).unwrap_or(u32::MAX)] *)
Definition next_sequence v : Z := default (u32_bound - 1) (try_from u32_bound (zlen (iv_headers v))).

Definition authenticate_seal_hmac v (verified : VerifiedSealV1) (key : MacKey) : hresult unit :=
  authenticate_hmac (vs_seal verified) (iv_begin v) (iv_headers v) key.

Definition validate_next_header v header : hresult unit :=
  if iv_sealed v then invalid "cannot validate a layer header after the terminal seal" else
  let sequence := next_sequence v in
  _ ← match iv_layout_walk v with
      | Some walk =>
          entry ← ok_or (walk !! Z.to_nat sequence)
            (Validation "layer frame {sequence} is outside the declared layout table");
          expected ← expected_from_walk_entry (iv_begin v) entry;
          validate_for_v2_expected header (iv_begin v) sequence expected
      | None => header_validate_for header (iv_begin v) sequence
      end;
  if vl_max_frame_bytes (iv_limits v) <? lh_byte_length header then
    invalid "layer descriptor exceeds the configured frame bound"
  else Ok tt.

Definition verify_plane_next v header payload : hresult (VerifiedPlaneV1 * IncrementalVerifierV1) :=
  if iv_sealed v then invalid "cannot verify a layer plane after the terminal seal" else
  _ ← ok_or (try_from u32_bound (zlen (iv_headers v))) (Validation "layer sequence exceeds u32");
  _ ← validate_next_header v header;
  if (vl_max_frame_bytes (iv_limits v) <? lh_byte_length header)
     || negb (zlen payload =? lh_byte_length header)
     || negb (bytes_eqb (sha256_hex payload) (lh_sha256 header)) then
    invalid "layer frame {sequence} length or SHA-256 mismatch" else
  _ ← (if is_prerope_v2 (iv_begin v) && bool_decide (lh_role header = Key) then
         validate_prerope_key_plane_finite payload
       else Ok tt);
  next_payload_bytes ← ok_or (checked_add (iv_payload_bytes v) (lh_byte_length header))
    (Validation "payload byte count overflow");
  if (vl_max_total_bytes (iv_limits v) <? next_payload_bytes)
     || (bm_expected_payload_bytes (iv_begin v) <? next_payload_bytes) then
    invalid "received payload exceeds its declared or configured total bound" else
  encoded_header ← canonical_json serde_LayerHeaderV1 header;
  Ok (mkVerifiedPlaneV1 header payload,
      mkIncrementalVerifierV1 (iv_begin v) (iv_limits v) (iv_layout_walk v)
        (iv_headers v ++ [header]) next_payload_bytes
        (iv_payload_hash v ++ payload)
        (iv_descriptor_hash v ++ encoded_header ++ [10])
        (iv_artifact_prefix_hash v ++ encoded_header ++ [10]) (iv_sealed v)).
Definition verify_plane v header payload : hresult VerifiedPlaneV1 * IncrementalVerifierV1 :=
  commit v (verify_plane_next v header payload).

Definition verify_seal_next v (seal : SealManifestV1) : hresult (VerifiedSealV1 * IncrementalVerifierV1) :=
  if iv_sealed v then invalid "terminal seal was already verified" else
  let payload_sha256 := hex_encode (sha256_digest (iv_payload_hash v)) in
  let descriptor_sha256 := hex_encode (sha256_digest (iv_descriptor_hash v)) in
  chain ← descriptor_chain_sha256 (iv_headers v);
  if negb (bytes_eqb descriptor_sha256 chain) then
    invalid "incremental descriptor chain disagrees with compatibility verifier" else
  _ ← seal_validate_for seal (iv_begin v) (iv_headers v) (iv_payload_bytes v) payload_sha256;
  last ← canonical_json serde_SealCoreV1 (sm_core seal);
  let incremental_artifact := hex_encode (sha256_digest (iv_artifact_prefix_hash v ++ last)) in
  artifact ← artifact_sha256 (iv_begin v) (iv_headers v) (sm_core seal);
  if negb (bytes_eqb incremental_artifact (sm_artifact_sha256 seal))
     || negb (bytes_eqb incremental_artifact artifact) then
    invalid "incremental artifact identity disagrees with terminal seal"
  else
    Ok (mkVerifiedSealV1 seal (bm_transfer_id (iv_begin v)) descriptor_sha256 payload_sha256,
        mkIncrementalVerifierV1 (iv_begin v) (iv_limits v) (iv_layout_walk v) (iv_headers v)
          (iv_payload_bytes v) (iv_payload_hash v) (iv_descriptor_hash v)
          (iv_artifact_prefix_hash v) true).
Definition verify_seal v (seal : SealManifestV1) : hresult VerifiedSealV1 * IncrementalVerifierV1 :=
  commit v (verify_seal_next v seal).
End verify.

(** * Laws of the incremental verifier

    The state of the verifier is a function of the planes it has accepted, and
    feeding a stream one plane at a time accepts exactly the streams that the
    one-shot checks of the manifests accept. *)
Notation plane_stream := (list (LayerHeaderV1 * bytes)).

Section verify.
Context `{C : Crypto} `{J : JsonText}.
Implicit Types (begin : BeginManifestV1) (limits : ValidationLimits) (planes : plane_stream).
Implicit Types (header : LayerHeaderV1) (payload : bytes) (seal : SealManifestV1).

(** ** The state after a stream of planes *)
Definition json_line header : bytes :=
  match canonical_json serde_LayerHeaderV1 header with Ok line => line ++ [10] | _ => [] end.
Definition header_text (headers : list LayerHeaderV1) : bytes := headers ≫= json_line.
Lemma header_lines_text headers : header_lines headers = Ok (header_text headers).
Proof.
  unfold header_lines, header_text, canonical_json. cut (∀ acc,
    try_fold (λ (acc : bytes) h, line ← Ok (E:=HandoffError) (json_print (sorted_value (to_value serde_LayerHeaderV1 h)));
      Ok (acc ++ line ++ [10])) acc headers = Ok (acc ++ (headers ≫= json_line))).
  { intros Hc. apply (Hc []). }
  induction headers as [|h headers IH]; intros acc; cbn [try_fold mbind outcome_bind list_bind].
  - by rewrite app_nil_r.
  - rewrite IH. unfold json_line at 2, canonical_json. by rewrite <-!app_assoc.
Qed.
Lemma header_text_snoc headers h : header_text (headers ++ [h]) = header_text headers ++ json_line h.
Proof. unfold header_text. rewrite bind_app. simpl. by rewrite app_nil_r. Qed.

Definition total_bytes planes : Z := zsum (lh_byte_length <$> planes.*1).
Definition all_payload planes : bytes := planes ≫= snd.
Definition begin_text begin : bytes :=
  match canonical_json serde_BeginManifestV1 begin with Ok b => b ++ [10] | _ => [] end.
Definition verifier_after begin limits planes : IncrementalVerifierV1 :=
  mkIncrementalVerifierV1 begin limits (if is_v2 begin then Some (layout_walk_v2 begin) else None)
    planes.*1 (total_bytes planes) (all_payload planes)
    (str "kvpack-live-descriptor-chain-v1" ++ [0] ++ header_text planes.*1)
    (str "kvpack-live-artifact-v1" ++ [0] ++ begin_text begin ++ header_text planes.*1) false.

Lemma verifier_new_iff begin limits v :
  verifier_new begin limits = Ok v ↔ begin_validate begin limits = Ok tt ∧ v = verifier_after begin limits [].
Proof.
  unfold verifier_new, canonical_json, verifier_after, begin_text, canonical_json.
  destruct (begin_validate begin limits) as [[]| |]; cbn [mbind outcome_bind]; [|naive_solver..].
  cbn [header_text fmap list_fmap mbind list_bind]. rewrite !app_nil_r. split; [intros [= <-]|intros [_ ->]]; done.
Qed.

(** ** One plane *)
(** What one plane must satisfy at its position, in one-shot form. *)
Record plane_accepted begin limits (i : Z) header payload : Prop := {
  pa_header : header_validate_for header begin i = Ok tt;
  pa_bound : lh_byte_length header ≤ vl_max_frame_bytes limits;
  pa_length : zlen payload = lh_byte_length header;
  pa_digest : sha256_hex payload = lh_sha256 header;
  pa_finite : is_prerope_v2 begin = true → lh_role header = Key →
              validate_prerope_key_plane_finite payload = Ok tt
}.

Lemma next_sequence_after begin limits planes : zlen planes < u32_bound →
  next_sequence (verifier_after begin limits planes) = zlen planes.
Proof.
  intros Hl. unfold next_sequence. cbn [iv_headers verifier_after].
  replace (zlen planes.*1) with (zlen planes) by (by rewrite zlen_fmap).
  unfold try_from. by rewrite (proj2 (Z.ltb_lt _ _)).
Qed.
(** The precomputed walk gives the same answer as walking the table again. *)
Lemma validate_next_header_iff begin limits planes header : zlen planes < u32_bound →
  validate_next_header (verifier_after begin limits planes) header = Ok tt ↔
  header_validate_for header begin (zlen planes) = Ok tt ∧
  lh_byte_length header ≤ vl_max_frame_bytes limits.
Proof.
  intros Hl. unfold validate_next_header. rewrite next_sequence_after by done.
  cbn [iv_sealed iv_layout_walk iv_begin iv_limits verifier_after]. cbv zeta.
  assert (match (if is_v2 begin then Some (layout_walk_v2 begin) else None) with
    | Some walk =>
        entry ← ok_or (walk !! Z.to_nat (zlen planes))
          (Validation "layer frame {sequence} is outside the declared layout table");
        expected ← expected_from_walk_entry begin entry;
        validate_for_v2_expected header begin (zlen planes) expected
    | None => header_validate_for header begin (zlen planes)
    end = header_validate_for header begin (zlen planes)) as ->.
  { unfold header_validate_for. destruct (is_v2 begin); [|done]. unfold validate_for_v2, expected_plane_at.
    destruct (layout_walk_v2 begin !! _); cbn [ok_or mbind outcome_bind]; done. }
  destruct (header_validate_for header begin (zlen planes)) as [[]| |]; cbn [mbind outcome_bind]; [|naive_solver..].
  destruct (Z.ltb_spec (vl_max_frame_bytes limits) (lh_byte_length header)); split; try done; lia.
Qed.

Lemma verifier_after_snoc begin limits planes header payload :
  verifier_after begin limits (planes ++ [(header, payload)]) =
  mkIncrementalVerifierV1 begin limits (if is_v2 begin then Some (layout_walk_v2 begin) else None)
    (planes.*1 ++ [header]) (total_bytes planes + lh_byte_length header) (all_payload planes ++ payload)
    ((str "kvpack-live-descriptor-chain-v1" ++ [0] ++ header_text planes.*1) ++ json_line header)
    ((str "kvpack-live-artifact-v1" ++ [0] ++ begin_text begin ++ header_text planes.*1) ++ json_line header)
    false.
Proof.
  unfold verifier_after, total_bytes, all_payload. rewrite !fmap_app, zsum_app, bind_app.
  change ([(header, payload)].*1) with [header]. rewrite header_text_snoc.
  change (zsum (lh_byte_length <$> [header])) with (lh_byte_length header + 0).
  change ([(header, payload)] ≫= snd) with (payload ++ []).
  by rewrite Z.add_0_r, !app_nil_r, <-!app_assoc.
Qed.

Definition totals_fit begin limits planes : Prop :=
  total_bytes planes < u64_bound ∧ total_bytes planes ≤ vl_max_total_bytes limits ∧
  total_bytes planes ≤ bm_expected_payload_bytes begin.

Lemma verify_plane_iff begin limits planes header payload pl v :
  verify_plane_next (verifier_after begin limits planes) header payload = Ok (pl, v) ↔
  plane_accepted begin limits (zlen planes) header payload ∧ zlen planes < u32_bound ∧
  totals_fit begin limits (planes ++ [(header, payload)]) ∧
  pl = mkVerifiedPlaneV1 header payload ∧ v = verifier_after begin limits (planes ++ [(header, payload)]).
Proof.
  unfold verify_plane_next. cbn [iv_sealed iv_headers iv_limits iv_begin iv_payload_bytes verifier_after].
  rewrite verifier_after_snoc. unfold totals_fit. assert (total_bytes (planes ++ [(header, payload)]) =
    total_bytes planes + lh_byte_length header) as ->.
  { pose proof (f_equal iv_payload_bytes (verifier_after_snoc begin limits planes header payload)) as E. exact E. }
  replace (zlen planes.*1) with (zlen planes) by (by rewrite zlen_fmap). fold (verifier_after begin limits planes).
  split.
  - intros Hv. inv_ok. bools. rename select (try_from _ _ = Some _) into Hn. apply try_from_Some in Hn as [_ Hn].
    rename select (validate_next_header _ _ = Ok _) into Hh. match type of Hh with _ = Ok ?u => destruct u end.
    apply validate_next_header_iff in Hh as [Hh Hb]; [|done].
    rename select (checked_add _ _ = Some _) into Ha. apply checked_add_Some in Ha as [-> Ha].
    rename select (canonical_json _ _ = Ok _) into Hj. simplify_eq.
    split_and!; try done.
    + split; [done|done|done|by apply bytes_eqb_eq|]. intros Hp Hk.
      match goal with H : (if _ then _ else Ok tt) = Ok ?u |- _ => destruct u; rewrite Hp, bool_decide_eq_true_2 in H by done; exact H end.
    + unfold json_line. by rewrite Hj.
  - intros ([Hh Hb Hlen Hdig Hfin] & Hn & (H64 & Hmax & Hexp) & -> & ->).
    unfold try_from. rewrite (proj2 (Z.ltb_lt (zlen planes) u32_bound)) by done. cbn [ok_or mbind outcome_bind].
    rewrite (proj2 (validate_next_header_iff begin limits planes header Hn) (conj Hh Hb)). cbn [mbind outcome_bind].
    rewrite (proj2 (Z.ltb_ge (vl_max_frame_bytes limits) _)), (proj2 (Z.eqb_eq (zlen payload) _)),
      (proj2 (bytes_eqb_eq (sha256_hex payload) _)) by done. cbn [orb negb].
    assert ((if is_prerope_v2 begin && bool_decide (lh_role header = Key)
      then validate_prerope_key_plane_finite payload else Ok tt) = Ok tt) as ->.
    { destruct (is_prerope_v2 begin); [|done]. simpl. case_bool_decide; [by apply Hfin|done]. }
    cbn [mbind outcome_bind]. unfold checked_add. rewrite (proj2 (Z.ltb_lt _ u64_bound)) by done. cbn [ok_or mbind outcome_bind].
    rewrite (proj2 (Z.ltb_ge (vl_max_total_bytes limits) _)),
      (proj2 (Z.ltb_ge (bm_expected_payload_bytes begin) _)) by done. cbn [orb]. unfold json_line, canonical_json. cbn [mbind outcome_bind].
    reflexivity.
Qed.

(** ** Whole streams *)
(** Begin, planes in order, seal, as a receiver feeds the verifier. *)
Definition verify_planes v planes : hresult IncrementalVerifierV1 :=
  try_fold (λ v p, snd <$> verify_plane_next v p.1 p.2) v planes.
Definition verify_stream begin limits planes seal : hresult (VerifiedSealV1 * IncrementalVerifierV1) :=
  v ← verifier_new begin limits;
  v ← verify_planes v planes;
  verify_seal_next v seal.

Definition planes_accepted begin limits planes : Prop :=
  ∀ i header payload, planes !! i = Some (header, payload) →
    plane_accepted begin limits (Z.of_nat i) header payload.
Lemma planes_accepted_snoc begin limits planes header payload :
  planes_accepted begin limits (planes ++ [(header, payload)]) ↔
  planes_accepted begin limits planes ∧ plane_accepted begin limits (zlen planes) header payload.
Proof.
  unfold planes_accepted. split.
  - intros Ha. split.
    + intros i h p Hi. apply Ha. rewrite lookup_app_l; [done|]. by eapply lookup_lt_Some.
    + apply (Ha (length planes)). by rewrite lookup_app_r, Nat.sub_diag by lia.
  - intros [Ha Hl] i h p Hi. apply lookup_app_Some in Hi as [Hi|[Hi Hs]]; [by apply Ha|].
    apply list_lookup_singleton_Some in Hs as [E [= <- <-]]. replace i with (length planes) by lia. exact Hl.
Qed.
Lemma total_bytes_app planes planes' : total_bytes (planes ++ planes') = total_bytes planes + total_bytes planes'.
Proof. unfold total_bytes. by rewrite !fmap_app, zsum_app. Qed.
Lemma total_bytes_nonneg begin limits planes : planes_accepted begin limits planes → 0 ≤ total_bytes planes.
Proof.
  induction planes as [|[h p] planes IH] using rev_ind; intros Ha; [done|].
  apply planes_accepted_snoc in Ha as [Ha [_ _ Hl _ _]]. rewrite total_bytes_app.
  change (total_bytes [(h, p)]) with (lh_byte_length h + 0). specialize (IH Ha). pose proof (zlen_nonneg p). lia.
Qed.

Lemma verify_planes_iff begin limits planes v : totals_fit begin limits [] →
  verify_planes (verifier_after begin limits []) planes = Ok v ↔
  planes_accepted begin limits planes ∧ zlen planes ≤ u32_bound ∧ totals_fit begin limits planes ∧
  v = verifier_after begin limits planes.
Proof.
  intros H0. revert v. induction planes as [|[h p] planes IH] using rev_ind; intros v.
  { unfold verify_planes. simpl. split; [|by intros (_ & _ & _ & ->)]. intros [= <-]. by split_and!. }
  unfold verify_planes in *. rewrite try_fold_app, planes_accepted_snoc, zlen_app. change (zlen [(h, p)]) with 1.
  split.
  - intros Hv. apply bind_Ok in Hv as (v' & Hv' & Hv). apply IH in Hv' as (Ha & Hz & Ht & ->).
    cbn [try_fold fst snd] in Hv. apply bind_Ok in Hv as (v1 & Hp & [= <-]).
    apply fmap_Ok in Hp as ([pl v'] & Hp & ->). apply verify_plane_iff in Hp as (Hacc & Hn & Htot & _ & ->).
    split_and!; done || lia.
  - intros ([Ha Hacc] & Hz & Htot & ->).
    assert (totals_fit begin limits planes) as Ht.
    { destruct Hacc as [_ _ Hl _ _]. unfold totals_fit in *. rewrite total_bytes_app in Htot.
      change (total_bytes [(h, p)]) with (lh_byte_length h + 0) in Htot. pose proof (zlen_nonneg p). lia. }
    rewrite (proj2 (IH (verifier_after begin limits planes))) by (split_and!; done || lia). cbn [mbind outcome_bind try_fold fst snd].
    rewrite (proj2 (verify_plane_iff begin limits planes h p (mkVerifiedPlaneV1 h p)
      (verifier_after begin limits (planes ++ [(h, p)])))); [done|].
    split_and!; try done. lia.
Qed.

Lemma verify_seal_iff begin limits planes seal w v :
  verify_seal_next (verifier_after begin limits planes) seal = Ok (w, v) ↔
  seal_validate_for seal begin planes.*1 (total_bytes planes) (sha256_hex (all_payload planes)) = Ok tt ∧
  w = mkVerifiedSealV1 seal (bm_transfer_id begin) (sc_descriptor_chain_sha256 (sm_core seal))
        (sha256_hex (all_payload planes)) ∧
  v = mkIncrementalVerifierV1 begin limits (if is_v2 begin then Some (layout_walk_v2 begin) else None)
        planes.*1 (total_bytes planes) (all_payload planes)
        (str "kvpack-live-descriptor-chain-v1" ++ [0] ++ header_text planes.*1)
        (str "kvpack-live-artifact-v1" ++ [0] ++ begin_text begin ++ header_text planes.*1) true.
Proof.
  unfold verify_seal_next. cbn [iv_sealed iv_headers iv_limits iv_begin iv_payload_bytes iv_payload_hash
    iv_descriptor_hash iv_artifact_prefix_hash iv_layout_walk verifier_after]. cbv zeta.
  unfold descriptor_chain_sha256 at 1. rewrite header_lines_text. cbn [mbind outcome_bind].
  rewrite bytes_eqb_refl. cbn [negb]. fold (sha256_hex (all_payload planes)).
  destruct (seal_validate_for _ _ _ _ _) as [[]| |] eqn:Es; cbn [mbind outcome_bind]; [|naive_solver..].
  assert (sc_descriptor_chain_sha256 (sm_core seal) =
      hex_encode (sha256_digest (str "kvpack-live-descriptor-chain-v1" ++ [0] ++ header_text planes.*1)) ∧
    artifact_sha256 begin planes.*1 (sm_core seal) = Ok (sm_artifact_sha256 seal)) as [Hd Ha].
  { unfold seal_validate_for in Es. cbv zeta in Es. inv_ok. bools.
    unfold descriptor_chain_sha256 in *. rewrite header_lines_text in *. inv_ok. subst.
    repeat match goal with H : bytes_eqb _ _ = true |- _ => apply bytes_eqb_eq in H end. split; congruence. }
  rewrite Ha. unfold artifact_sha256, artifact_lines in Ha. rewrite header_lines_text in Ha.
  unfold canonical_json in *. cbn [mbind outcome_bind] in *. injection Ha as Ha.
  assert (hex_encode (sha256_digest ((str "kvpack-live-artifact-v1" ++ [0] ++ begin_text begin ++
    header_text planes.*1) ++ json_print (sorted_value (to_value serde_SealCoreV1 (sm_core seal))))) =
    sm_artifact_sha256 seal) as ->.
  { rewrite <-Ha. unfold begin_text, canonical_json. by rewrite <-!app_assoc. }
  rewrite bytes_eqb_refl. cbn [negb orb]. rewrite Hd. split; [by intros [= <- <-]|by intros (_ & -> & ->)].
Qed.

Lemma totals_fit_nil begin limits :
  in_u64 (bm_expected_payload_bytes begin) → begin_accepted begin limits → totals_fit begin limits [].
Proof.
  intros He Ha. pose proof (ba_total_bound _ _ Ha). destruct He.
  unfold totals_fit, total_bytes, zsum, u64_bound. simpl. lia.
Qed.
Lemma seal_validate_counts seal begin headers n d :
  typed_as serde_SealManifestV1 seal → seal_validate_for seal begin headers n d = Ok tt →
  zlen headers < u32_bound ∧ n = bm_expected_payload_bytes begin.
Proof.
  intros (_ & _ & Ht) Hv. unfold SealCoreV1_typed in Ht. destruct_and!.
  unfold seal_validate_for in Hv. cbv zeta in Hv. inv_ok. bools.
  match goal with H : typed_as serde_u32 (sc_frame_count _) |- _ => destruct H end. split; lia.
Qed.

(** Feeding a stream plane by plane accepts exactly the streams whose begin
    manifest, planes and seal pass the one-shot checks. *)
Lemma verify_stream_iff begin limits planes seal w :
  typed_as serde_BeginManifestV1 begin → typed_as serde_SealManifestV1 seal →
  (∃ v, verify_stream begin limits planes seal = Ok (w, v)) ↔
  begin_validate begin limits = Ok tt ∧ planes_accepted begin limits planes ∧
  seal_validate_for seal begin planes.*1 (total_bytes planes) (sha256_hex (all_payload planes)) = Ok tt ∧
  w = mkVerifiedSealV1 seal (bm_transfer_id begin) (sc_descriptor_chain_sha256 (sm_core seal))
        (sha256_hex (all_payload planes)).
Proof.
  intros Hb Hs. pose proof (begin_typed_dims _ Hb) as Hd. pose proof (begin_typed_counts _ Hb) as (Hn & He & _).
  unfold verify_stream. split.
  - intros (v & Hv). apply bind_Ok in Hv as (v0 & Hv0 & Hv). apply bind_Ok in Hv as (v1 & Hv1 & Hv).
    apply verifier_new_iff in Hv0 as [Hval ->]. pose proof (begin_validate_ok _ _ Hd Hn Hval) as Hacc.
    apply verify_planes_iff in Hv1 as (Ha & _ & _ & ->); [|by apply totals_fit_nil].
    apply verify_seal_iff in Hv as (Hseal & -> & _). done.
  - intros (Hval & Ha & Hseal & ->). pose proof (begin_validate_ok _ _ Hd Hn Hval) as Hacc.
    rewrite (proj2 (verifier_new_iff begin limits _) (conj Hval eq_refl)). cbn [mbind outcome_bind].
    destruct (seal_validate_counts _ _ _ _ _ Hs Hseal) as (Hcount & Htotal).
    rewrite (proj2 (verify_planes_iff begin limits planes (verifier_after begin limits planes)
      (totals_fit_nil _ _ He Hacc))).
    + cbn [mbind outcome_bind]. eexists. apply verify_seal_iff. split_and!; done.
    + rewrite zlen_fmap in Hcount. destruct He. pose proof (ba_total_bound _ _ Hacc).
      split_and!; [done|lia| |done]. unfold totals_fit. lia.
Qed.
End verify.
