(* ===== verification/HandoffBundle.v ===== *)
(** * Sealed bundles (crates/kvpack-handoff/src/bundle.rs)

    The stager writes a request-private staging directory and publishes it
    with a no-replace rename; [open_verified] reads a published directory
    back.  The file system is the staging slot, the final slot and a list of
    faults: every I/O call takes the next entry and may fail before or after
    its effect, a write also half-way.  The directories hold regular
    files only, so the symlink checks of the source always pass; paths are
    the two slots. *)
From Stdlib Require Import ZArith Lia.
From stdpp Require Import base tactics numbers list strings option sorting gmap.
From S2P Require Import Prelude Bytes Canonical Crypto HandoffJson HandoffMac HandoffManifest.
From S2P Require Import HandoffLayout HandoffValidation HandoffLayoutLaws HandoffValidationLaws.
From S2P Require Import HandoffVerify.

(** ** Stateful computations: the state survives an error *)
Definition stateful (S A : Type) : Type := S → hresult A * S.
Definition st_ret {S A} (a : A) : stateful S A := λ s, (Ok a, s).
Definition st_bind {S A B} (m : stateful S A) (f : A → stateful S B) : stateful S B := λ s,
  match m s with
  | (Ok a, s) => f a s
  | (Err e, s) => (Err e, s)
  | (Panic w, s) => (Panic w, s)
  end.
Definition st_lift {S A} (r : hresult A) : stateful S A := λ s, (r, s).
Definition st_get {S} : stateful S S := λ s, (Ok s, s).
Definition st_modify {S} (f : S → S) : stateful S unit := λ s, (Ok tt, f s).
Declare Scope stateful_scope.
Delimit Scope stateful_scope with stateful.
Notation "x <- m ; k" := (st_bind m (λ x, k)) (at level 100, m at next level, right associativity) : stateful_scope.
Notation "m ;; k" := (st_bind m (λ _, k)) (at level 100, right associativity) : stateful_scope.

(** ** File names *)
Fixpoint dec_digits (fuel : nat) (n : Z) (acc : bytes) : bytes :=
  match fuel with
  | O => acc
  | S fuel =>
      let acc := (48 + n mod 10) :: acc in
      if n <? 10 then acc else dec_digits fuel (n / 10) acc
  end.
(** [format!("{n:05}")] of a [u32]: at most ten digits. *)
Definition dec5 (n : Z) : bytes :=
  let digits := dec_digits 10 n [] in replicate (5 - length digits) 48 ++ digits.
Definition file_stem (layer : Z) (role : TensorRoleV1) : bytes := dec5 layer ++ str "-" ++ suffix role.
Definition header_name (layer : Z) (role : TensorRoleV1) : bytes := file_stem layer role ++ str ".json".
Definition payload_name (begin : BeginManifestV1) (layer : Z) (role : TensorRoleV1) : bytes :=
  file_stem layer role ++ str "." ++ plane_payload_extension begin role.
(** [LayerHeaderV1::file_name] *)
Definition file_name (header : LayerHeaderV1) : bytes :=
  file_stem (lh_layer header) (lh_role header) ++ str ".f16le".

(** ** The file system *)
Notation Files := (gmap bytes bytes).
Record Dir := mkDir { d_root : Files; d_layers : Files }.
Inductive fault := NoFault | FaultBefore | FaultPartial (written : nat) | FaultAfter.
Record Fs := mkFs { fs_staging : option Dir; fs_final : option Dir; fs_faults : list fault }.

Definition next_fault (fs : Fs) : fault * Fs :=
  match fs_faults fs with
  | [] => (NoFault, fs)
  | f :: faults => (f, mkFs (fs_staging fs) (fs_final fs) faults)
  end.
Inductive place := Root | Layers.
Definition place_files (p : place) (d : Dir) : Files := match p with Root => d_root d | Layers => d_layers d end.
Definition put_file (p : place) (name content : bytes) (d : Dir) : Dir :=
  match p with
  | Root => mkDir (<[name := content]> (d_root d)) (d_layers d)
  | Layers => mkDir (d_root d) (<[name := content]> (d_layers d))
  end.
Definition with_staging (d : Dir) (fs : Fs) : Fs := mkFs (Some d) (fs_final fs) (fs_faults fs).

(** [write_new_sync]: [create_new], [write_all], [sync_all] in the staging directory. *)
Definition write_new_sync (p : place) (name content : bytes) : stateful Fs unit := λ fs,
  match fs_staging fs with
  | None => (Err (Io "NotFound"), fs)
  | Some d =>
      if bool_decide (is_Some (place_files p d !! name)) then (Err (Io "AlreadyExists"), fs) else
      let '(f, fs) := next_fault fs in
      match f with
      | NoFault => (Ok tt, with_staging (put_file p name content d) fs)
      | FaultBefore => (Err (Io "io"), fs)
      | FaultPartial n => (Err (Io "io"), with_staging (put_file p name (take n content) d) fs)
      | FaultAfter => (Err (Io "io"), with_staging (put_file p name content d) fs)
      end
  end.
(** [File::open(dir)?.sync_all()?] *)
Definition sync_dir : stateful Fs unit := λ fs,
  match fs_staging fs with
  | None => (Err (Io "NotFound"), fs)
  | Some _ => let '(f, fs) := next_fault fs in
              (match f with NoFault => Ok tt | _ => Err (Io "io") end, fs)
  end.
(** [renameat_with(NOREPLACE)] of the staging directory to the final path. *)
Definition rename_noreplace : stateful Fs unit := λ fs,
  match fs_staging fs, fs_final fs with
  | None, _ => (Err (Io "NotFound"), fs)
  | Some _, Some _ => (Err (Io "AlreadyExists"), fs)
  | Some d, None =>
      let '(f, fs) := next_fault fs in
      match f with
      | NoFault => (Ok tt, mkFs None (Some d) (fs_faults fs))
      | FaultAfter => (Err (Io "io"), mkFs None (Some d) (fs_faults fs))
      | _ => (Err (Io "io"), fs)
      end
  end.
(** [parent.sync_all()] *)
Definition sync_parent : stateful Fs unit := λ fs,
  let '(f, fs) := next_fault fs in (match f with NoFault => Ok tt | _ => Err (Io "io") end, fs).

(** ** The stager *)
Record BundleStager := mkBundleStager {
  bs_begin : BeginManifestV1;
  bs_committed : bool;
  bs_prepared : option SealManifestV1;
  bs_verifier : IncrementalVerifierV1;
  bs_aborted : bool
}.
Notation staging := (stateful (BundleStager * Fs)).
Definition on_fs {A} (m : stateful Fs A) : staging A := λ s,
  let '(r, fs) := m s.2 in (r, (s.1, fs)).
Definition on_verifier {A} (m : IncrementalVerifierV1 → hresult A * IncrementalVerifierV1) : staging A := λ s,
  let '(r, v) := m (bs_verifier s.1) in
  (r, (mkBundleStager (bs_begin s.1) (bs_committed s.1) (bs_prepared s.1) v (bs_aborted s.1), s.2)).
Definition closed (b : BundleStager) : bool :=
  bs_committed b || bool_decide (is_Some (bs_prepared b)) || bs_aborted b.

Section bundle.
Context `{Crypto} `{JsonText}.
Local Open Scope stateful_scope.

Definition MANIFEST_MAX_BYTES : Z := 1024 * 1024.

(** The two [create_dir] calls of [BundleStager::create]; a partial fault makes only
    the first directory. *)
Definition make_dirs : stateful Fs unit := λ fs,
  match fs_staging fs with
  | Some _ => (Err (Io "AlreadyExists"), fs)
  | None =>
      let '(f, fs) := next_fault fs in
      match f with
      | NoFault => (Ok tt, with_staging (mkDir ∅ ∅) fs)
      | FaultBefore => (Err (Io "io"), fs)
      | _ => (Err (Io "io"), with_staging (mkDir ∅ ∅) fs)
      end
  end.
Definition stager_create (begin : BeginManifestV1) (limits : ValidationLimits) : stateful Fs BundleStager :=
  st_lift (begin_validate begin limits) ;;
  verifier <- st_lift (verifier_new begin limits) ;
  fs <- st_get ;
  (if bool_decide (is_Some (fs_final fs)) then st_lift (invalid "bundle output already exists: {}")
   else st_ret tt) ;;
  make_dirs ;;
  json <- st_lift (canonical_json serde_BeginManifestV1 begin) ;
  write_new_sync Root (str "begin.json") json ;;
  st_ret (mkBundleStager begin false None verifier false).

Definition write_verified (plane : VerifiedPlaneV1) : staging unit :=
  s <- st_get ;
  if closed s.1 then st_lift (invalid "cannot stage a plane outside the receiving state") else
  let header := vp_header plane in
  json <- st_lift (canonical_json serde_LayerHeaderV1 header) ;
  on_fs (write_new_sync Layers (header_name (lh_layer header) (lh_role header)) json) ;;
  on_fs (write_new_sync Layers (payload_name (bs_begin s.1) (lh_layer header) (lh_role header)) (vp_bytes plane)).
Definition ingest (header : LayerHeaderV1) (payload : bytes) : staging unit :=
  verified <- on_verifier (λ v, verify_plane v header payload) ;
  write_verified verified.
Definition stage_verified (plane : VerifiedPlaneV1) : staging unit :=
  locally_verified <- on_verifier (λ v, verify_plane v (vp_header plane) (vp_bytes plane)) ;
  if negb (bool_decide (locally_verified = plane)) then
    st_lift (invalid "verified plane changed before internal staging")
  else write_verified plane.

Definition write_prepared_seal (seal : SealManifestV1) : staging unit :=
  json <- st_lift (canonical_json serde_SealManifestV1 seal) ;
  on_fs (write_new_sync Root (str "seal.json") json) ;;
  on_fs sync_dir ;; on_fs sync_dir ;;
  st_modify (λ s, (mkBundleStager (bs_begin s.1) (bs_committed s.1) (Some seal) (bs_verifier s.1)
                     (bs_aborted s.1), s.2)).
Definition prepare_seal (verified : VerifiedSealV1) : staging unit :=
  s <- st_get ;
  if closed s.1 then st_lift (invalid "bundle cannot prepare another terminal seal") else
  local <- on_verifier (λ v, verify_seal v (vs_seal verified)) ;
  if negb (bool_decide (local = verified)) then
    st_lift (invalid "terminal seal witness belongs to a different verified stream")
  else write_prepared_seal (vs_seal verified).
Definition prepare_shared_seal (verified : VerifiedSealV1) : staging unit :=
  s <- st_get ;
  if closed s.1 then st_lift (invalid "bundle cannot prepare another terminal seal")
  else write_prepared_seal (vs_seal verified).

Definition stager_publish : staging unit :=
  s <- st_get ;
  if bs_committed s.1 || bs_aborted s.1 then
    st_lift (invalid "bundle cannot be published in its current state") else
  seal <- st_lift (ok_or (bs_prepared s.1) (Validation "bundle seal was not prepared")) ;
  on_fs (write_new_sync Root (str "READY") (sm_artifact_sha256 seal ++ [10])) ;;
  on_fs sync_dir ;; on_fs sync_dir ;;
  on_fs rename_noreplace ;;
  on_fs sync_parent ;;
  st_modify (λ s, (mkBundleStager (bs_begin s.1) true (bs_prepared s.1) (bs_verifier s.1)
                     (bs_aborted s.1), s.2)).
Definition stager_seal (seal : SealManifestV1) : staging unit :=
  s <- st_get ;
  if closed s.1 then st_lift (invalid "bundle cannot be sealed in its current state") else
  verified <- on_verifier (λ v, verify_seal v seal) ;
  write_prepared_seal (vs_seal verified) ;;
  stager_publish.

(** [fs::remove_dir_all] of the staging directory, unless it was published. *)
Definition stager_abort : staging unit :=
  s <- st_get ;
  if bs_committed s.1 || bs_aborted s.1 || negb (bool_decide (is_Some (fs_staging s.2))) then st_ret tt else
  (λ s, let '(f, fs) := next_fault s.2 in
     match f with
     | NoFault => (Ok tt, (s.1, mkFs None (fs_final fs) (fs_faults fs)))
     | _ => (Err (Io "io"), (s.1, fs))
     end) ;;
  st_modify (λ s, (mkBundleStager (bs_begin s.1) (bs_committed s.1) (bs_prepared s.1) (bs_verifier s.1) true, s.2)).

(** ** Reopening *)
Definition read_regular_bounded (files : Files) (name : bytes) (max_bytes : Z) : hresult bytes :=
  content ← ok_or (files !! name) (Io "NotFound");
  if (zlen content =? 0) || (max_bytes <? zlen content) then
    invalid "file {} length {length} is outside 1..={max_bytes}"
  else Ok content.

Definition plane_at (begin : BeginManifestV1) (sequence : Z) : hresult (Z * TensorRoleV1) :=
  if is_v2 begin then
    entry ← ok_or (layout_walk_v2 begin !! Z.to_nat sequence)
      (Validation "layer frame {sequence} is outside the declared layout table");
    Ok (entry.1.2, entry.2)
  else Ok (sequence / 2, v1_role sequence).

Definition open_plane (dir : Dir) (begin : BeginManifestV1) (limits : ValidationLimits)
    (acc : IncrementalVerifierV1 * list VerifiedPlaneV1 * list bytes) (sequence : Z)
  : hresult (IncrementalVerifierV1 * list VerifiedPlaneV1 * list bytes) :=
  let '(verifier, planes, expected) := acc in
  at_ ← plane_at begin sequence;
  let '(layer, role) := at_ in
  let hname := header_name layer role in
  let pname := payload_name begin layer role in
  header_bytes ← read_regular_bounded (d_layers dir) hname MANIFEST_MAX_BYTES;
  header ← decode_canonical_json serde_LayerHeaderV1 header_bytes MANIFEST_MAX_BYTES;
  content ← read_regular_bounded (d_layers dir) pname (vl_max_frame_bytes limits);
  r ← verify_plane_next verifier header content;
  Ok (r.2, planes ++ [r.1], expected ++ [hname; pname]).

(** The begin manifest, the planes and the seal of a published directory. *)
Definition open_verified (dir : Dir) (limits : ValidationLimits)
  : hresult (BeginManifestV1 * list VerifiedPlaneV1 * SealManifestV1) :=
  begin_bytes ← read_regular_bounded (d_root dir) (str "begin.json") MANIFEST_MAX_BYTES;
  begin ← decode_canonical_json serde_BeginManifestV1 begin_bytes MANIFEST_MAX_BYTES;
  _ ← begin_validate begin limits;
  seal_bytes ← read_regular_bounded (d_root dir) (str "seal.json") MANIFEST_MAX_BYTES;
  seal ← decode_canonical_json serde_SealManifestV1 seal_bytes MANIFEST_MAX_BYTES;
  verifier ← verifier_new begin limits;
  r ← try_fold (open_plane dir begin limits) (verifier, [], [])
        (seqZ 0 (bm_expected_layer_frames begin));
  let '(verifier, planes, expected) := r in
  if negb (bool_decide (dom (d_layers dir) = list_to_set (C:=gset bytes) expected)) then
    invalid "layers directory contains missing or unexpected entries" else
  _ ← verify_seal_next verifier seal;
  ready ← read_regular_bounded (d_root dir) (str "READY") 65;
  if negb (bytes_eqb ready (sm_artifact_sha256 seal ++ [10])) then
    invalid "READY marker does not match the sealed artifact"
  else Ok (begin, planes, seal).

(** [MaterializedVerifiedBundle::authenticate_hmac] *)
Definition bundle_authenticate_hmac (opened : BeginManifestV1 * list VerifiedPlaneV1 * SealManifestV1)
    (key : MacKey) : hresult unit :=
  let '(begin, planes, seal) := opened in
  authenticate_hmac seal begin (vp_header <$> planes) key.
End bundle.

(** * Laws of sealed bundles

    A run of the stager that reports success leaves a directory that reopens
    to the staged stream; without faults every accepted stream is published;
    whatever the faults, a visible bundle carries its three root files. *)
(** ** Stateful runs *)
Lemma st_bind_Ok {S A B} (m : stateful S A) (f : A → stateful S B) s b s' :
  st_bind m f s = (Ok b, s') ↔ ∃ a s1, m s = (Ok a, s1) ∧ f a s1 = (Ok b, s').
Proof. unfold st_bind. destruct (m s) as [[]]; naive_solver. Qed.
Lemma st_lift_Ok {S A} (r : hresult A) (s s' : S) a : st_lift r s = (Ok a, s') ↔ r = Ok a ∧ s' = s.
Proof. unfold st_lift. naive_solver. Qed.
Ltac st_inv :=
  repeat match goal with
  | H : st_bind _ _ _ = (Ok _, _) |- _ => apply st_bind_Ok in H as (? & ? & ? & ?)
  | H : st_lift _ _ = (Ok _, _) |- _ => apply st_lift_Ok in H as [? ->]
  | H : st_ret _ _ = (Ok _, _) |- _ => unfold st_ret in H; injection H as ? ?; subst
  | H : st_get _ = (Ok _, _) |- _ => unfold st_get in H; injection H as ? ?; subst
  | H : st_modify _ _ = (Ok _, _) |- _ => unfold st_modify in H; injection H as ? ?; subst
  | H : (if ?b then st_lift (Err _) else _) _ = (Ok _, _) |- _ =>
      let E := fresh "Hg" in destruct b eqn:E; [discriminate H|]
  end.

(** ** File names *)
Definition dec_val (b : bytes) : Z := foldl (λ a c, a * 10 + (c - 48)) 0 b.
Lemma dec_val_app_acc a b v : foldl (λ a c, a * 10 + (c - 48)) v (a ++ b) =
  foldl (λ a c, a * 10 + (c - 48)) (foldl (λ a c, a * 10 + (c - 48)) v a) b.
Proof. by rewrite foldl_app. Qed.
Lemma dec_digits_val fuel n acc v :
  0 ≤ n < 10 ^ Z.of_nat fuel → (0 < fuel)%nat →
  foldl (λ a c, a * 10 + (c - 48)) 0 (dec_digits fuel n acc) = v ↔
  foldl (λ a c, a * 10 + (c - 48)) n acc = v.
Proof.
  revert n acc. induction fuel as [|fuel IH]; intros n acc Hn Hf; [lia|]. cbn [dec_digits].
  destruct (Z.ltb_spec n 10).
  - rewrite Z.mod_small by lia. cbn [foldl]. by replace (0 * 10 + (48 + n - 48)) with n by lia.
  - destruct fuel as [|fuel]; [simpl in Hn; lia|].
    rewrite IH; [|split; [apply Z.div_pos; lia|]|lia].
    + cbn [foldl]. replace (n / 10 * 10 + (48 + n mod 10 - 48)) with n; [done|].
      pose proof (Z.div_mod n 10). lia.
    + apply Z.div_lt_upper_bound; [lia|]. rewrite <-Z.pow_succ_r by lia.
      replace (Z.succ (Z.of_nat (S fuel))) with (Z.of_nat (S (S fuel))) by lia. lia.
Qed.
Lemma dec5_val n : in_u32 n → dec_val (dec5 n) = n.
Proof.
  intros Hn. unfold dec5, dec_val. rewrite foldl_app.
  assert (∀ k, foldl (λ a c, a * 10 + (c - 48)) 0 (replicate k 48) = 0) as ->
    by (intros k; induction k as [|k IH]; [done|simpl; apply IH]).
  apply dec_digits_val; [|lia|done]. unfold in_u32, u32_bound in Hn. simpl. lia.
Qed.
Lemma dec_digits_no_dash fuel n acc : 45 ∉ acc → 45 ∉ dec_digits fuel n acc.
Proof.
  revert n acc. induction fuel as [|fuel IH]; intros n acc Ha; [done|]. cbn [dec_digits].
  assert (45 ∉ (48 + n mod 10) :: acc).
  { apply not_elem_of_cons. split; [|done]. pose proof (Z.mod_pos_bound n 10). lia. }
  destruct (n <? 10); [done|by apply IH].
Qed.
Lemma dec5_no_dash n : 45 ∉ dec5 n.
Proof.
  unfold dec5. rewrite elem_of_app. intros [H|H].
  - by apply elem_of_replicate in H as [? _].
  - by eapply dec_digits_no_dash; [apply not_elem_of_nil|].
Qed.
(** Distinct planes have distinct file names, and headers are not payloads. *)
Lemma file_stem_inj l r l' r' t t' : in_u32 l → in_u32 l' →
  file_stem l r ++ t = file_stem l' r' ++ t' → l = l' ∧ r = r' ∧ t = t'.
Proof.
  intros Hl Hl' E. unfold file_stem in E. rewrite <-!app_assoc in E.
  apply (app_sep_inj 45) in E as [E1 E2]; [|apply dec5_no_dash..].
  split; [by rewrite <-(dec5_val l), <-(dec5_val l'), E1|].
  destruct r, r'; simpl in E2; try (by injection E2); injection E2 as ->; done.
Qed.
Lemma header_not_payload begin l r l' r' : in_u32 l → in_u32 l' → header_name l r ≠ payload_name begin l' r'.
Proof.
  intros Hl Hl' E. unfold header_name, payload_name in E. apply file_stem_inj in E as (_ & _ & E); [|done..].
  unfold plane_payload_extension in E. destruct (_ && _); done.
Qed.
Lemma header_name_inj l r l' r' : in_u32 l → in_u32 l' → header_name l r = header_name l' r' → (l, r) = (l', r').
Proof. intros Hl Hl' E. apply file_stem_inj in E as (-> & -> & _); done. Qed.
Lemma payload_name_inj begin l r l' r' : in_u32 l → in_u32 l' →
  payload_name begin l r = payload_name begin l' r' → (l, r) = (l', r').
Proof. intros Hl Hl' E. apply file_stem_inj in E as (-> & -> & _); done. Qed.

Section bundle.
Context `{CL : CryptoLaws} `{JL : JsonTextLaws}.
Implicit Types (begin : BeginManifestV1) (limits : ValidationLimits) (planes : plane_stream).
Implicit Types (fs : Fs) (d : Dir) (seal : SealManifestV1).

(** ** The staged files of a stream *)
Definition json_of {A} (s : Serde A) (a : A) : bytes := match canonical_json s a with Ok b => b | _ => [] end.
Definition stage_plane begin (files : Files) (plane : LayerHeaderV1 * bytes) : Files :=
  let '(h, p) := plane in
  <[payload_name begin (lh_layer h) (lh_role h) := p]>
    (<[header_name (lh_layer h) (lh_role h) := json_of serde_LayerHeaderV1 h]> files).
Definition staged_layers begin planes : Files := foldl (stage_plane begin) ∅ planes.
Definition staged_dir begin planes (root : Files) : Dir := mkDir root (staged_layers begin planes).
Definition begin_root begin : Files := {[ str "begin.json" := json_of serde_BeginManifestV1 begin ]}.

Definition plane_names begin (h : LayerHeaderV1) : list bytes :=
  [header_name (lh_layer h) (lh_role h); payload_name begin (lh_layer h) (lh_role h)].
Lemma staged_layers_snoc begin planes p :
  staged_layers begin (planes ++ [p]) = stage_plane begin (staged_layers begin planes) p.
Proof. unfold staged_layers. by rewrite foldl_app. Qed.
Lemma staged_layers_dom begin planes :
  dom (staged_layers begin planes) = list_to_set (C:=gset bytes) (planes.*1 ≫= plane_names begin).
Proof.
  induction planes as [|[h p] planes IH] using rev_ind; [done|].
  rewrite staged_layers_snoc, fmap_app, bind_app, list_to_set_app_L. cbn [stage_plane].
  rewrite !dom_insert_L, IH. simpl. set_solver.
Qed.

(** ** Successful writes *)
Lemma write_new_sync_Ok pl name content fs fs' :
  write_new_sync pl name content fs = (Ok tt, fs') →
  ∃ d, fs_staging fs = Some d ∧ place_files pl d !! name = None ∧
    fs_staging fs' = Some (put_file pl name content d) ∧ fs_final fs' = fs_final fs ∧
    (fs_faults fs = [] → fs_faults fs' = []).
Proof.
  unfold write_new_sync. destruct (fs_staging fs) as [d|] eqn:Ed; [|done].
  case_bool_decide as Hn; [done|]. unfold next_fault. intros Hw. exists d.
  apply eq_None_not_Some in Hn.
  destruct (fs_faults fs) as [|[] faults] eqn:Ef; simplify_eq/=; rewrite ?Ef; naive_solver.
Qed.
Lemma write_new_sync_clean pl name content fs d :
  fs_staging fs = Some d → place_files pl d !! name = None → fs_faults fs = [] →
  write_new_sync pl name content fs = (Ok tt, mkFs (Some (put_file pl name content d)) (fs_final fs) []).
Proof.
  intros Hd Hn Hf. unfold write_new_sync, next_fault. rewrite Hd, Hn, Hf. simpl. unfold with_staging.
  by rewrite Hf.
Qed.
Lemma sync_dir_Ok fs u fs' : sync_dir fs = (Ok u, fs') →
  fs_staging fs' = fs_staging fs ∧ fs_final fs' = fs_final fs ∧ is_Some (fs_staging fs).
Proof.
  unfold sync_dir, next_fault. destruct (fs_staging fs) eqn:E; [|done].
  destruct (fs_faults fs) as [|[] ?]; naive_solver.
Qed.

Lemma rename_noreplace_Ok fs u fs' : rename_noreplace fs = (Ok u, fs') →
  ∃ d, fs_staging fs = Some d ∧ fs_final fs = None ∧ fs_staging fs' = None ∧ fs_final fs' = Some d.
Proof. unfold rename_noreplace, next_fault. intros. repeat case_match; simplify_eq/=; eauto. Qed.
Lemma sync_parent_Ok fs u fs' : sync_parent fs = (Ok u, fs') →
  fs_staging fs' = fs_staging fs ∧ fs_final fs' = fs_final fs.
Proof. unfold sync_parent, next_fault. intros. repeat case_match; simplify_eq/=; eauto. Qed.

(** The stager while it receives, and after it prepared the seal. *)
Definition receiving begin limits planes : BundleStager :=
  mkBundleStager begin false None (verifier_after begin limits planes) false.

Lemma create_Ok begin limits fs b fs' :
  stager_create begin limits fs = (Ok b, fs') →
  begin_validate begin limits = Ok tt ∧ b = receiving begin limits [] ∧
  fs_staging fs' = Some (staged_dir begin [] (begin_root begin)) ∧ fs_final fs' = None ∧ fs_final fs = None.
Proof.
  unfold stager_create. intros Hc. st_inv. rename select (verifier_new _ _ = Ok _) into Hv.
  apply verifier_new_iff in Hv as [Hv ->]. split; [done|]. split; [done|].
  rename select (bool_decide _ = false) into Hf. apply bool_decide_eq_false, eq_None_not_Some in Hf.
  rename select (make_dirs _ = _) into Hm. rename select (write_new_sync _ _ _ _ = _) into Hw.
  rename select (canonical_json _ _ = Ok _) into Hj.
  match type of Hw with _ = (Ok ?u, _) => destruct u end.
  apply write_new_sync_Ok in Hw as (d & Hd & _ & Hs & Hfin & _).
  unfold make_dirs, next_fault, with_staging in Hm.
  destruct (fs_staging _) eqn:Es in Hm; [done|].
  destruct (fs_faults _) as [|[] ?]; simplify_eq/=; rewrite Hs, Hfin;
    (split; [|done]); unfold staged_dir, begin_root, json_of; rewrite Hj; simpl; by rewrite insert_empty.
Qed.

Lemma on_verifier_Ok {A} (m : IncrementalVerifierV1 → hresult A * IncrementalVerifierV1) s a s' :
  on_verifier m s = (Ok a, s') →
  ∃ v, m (bs_verifier s.1) = (Ok a, v) ∧
    s' = (mkBundleStager (bs_begin s.1) (bs_committed s.1) (bs_prepared s.1) v (bs_aborted s.1), s.2).
Proof. unfold on_verifier. destruct (m _) as [r v] eqn:E. intros [= -> <-]. eauto. Qed.
Lemma on_fs_Ok {A} (m : stateful Fs A) s a s' :
  on_fs m s = (Ok a, s') → ∃ fs, m s.2 = (Ok a, fs) ∧ s' = (s.1, fs).
Proof. unfold on_fs. destruct (m _) as [r fs] eqn:E. intros [= -> <-]. eauto. Qed.
Lemma commit_Ok {A S} (s : S) m (a : A) s' : commit s m = (Ok a, s') ↔ m = Ok (a, s').
Proof. unfold commit. destruct m as [[]| |]; naive_solver. Qed.

Lemma ingest_Ok begin limits planes h p fs d u s' :
  fs_staging fs = Some d →
  ingest h p (receiving begin limits planes, fs) = (Ok u, s') →
  plane_accepted begin limits (zlen planes) h p ∧ zlen planes < u32_bound ∧
  totals_fit begin limits (planes ++ [(h, p)]) ∧
  s'.1 = receiving begin limits (planes ++ [(h, p)]) ∧
  fs_staging s'.2 = Some (mkDir (d_root d) (stage_plane begin (d_layers d) (h, p))) ∧ fs_final s'.2 = fs_final fs ∧
  d_layers d !! header_name (lh_layer h) (lh_role h) = None ∧
  <[header_name (lh_layer h) (lh_role h) := json_of serde_LayerHeaderV1 h]> (d_layers d)
    !! payload_name begin (lh_layer h) (lh_role h) = None.
Proof.
  intros Hd Hi. unfold ingest in Hi. st_inv.
  rename select (on_verifier _ _ = _) into Hv. apply on_verifier_Ok in Hv as (v & Hv & ->).
  unfold verify_plane in Hv. apply commit_Ok in Hv. apply verify_plane_iff in Hv as (Ha & Hn & Ht & -> & ->).
  split; [done|]. split; [done|]. split; [done|].
  rename select (write_verified _ _ = _) into Hw. unfold write_verified in Hw. st_inv.
  cbn [fst snd vp_header vp_bytes bs_begin receiving] in *.
  repeat match goal with H : on_fs _ _ = (Ok ?u, _) |- _ => apply on_fs_Ok in H as (? & H & ->); destruct u end.
  cbn [fst snd] in *.
  rename select (write_new_sync _ (header_name _ _) _ _ = _) into Hw1.
  rename select (write_new_sync _ (payload_name _ _ _) _ _ = _) into Hw2.
  rename select (canonical_json _ _ = Ok _) into Hj.
  apply write_new_sync_Ok in Hw1 as (d1 & Hd1 & Hf1 & Hs1 & Hx1 & _).
  apply write_new_sync_Ok in Hw2 as (d2 & Hd2 & Hf2 & Hs2 & Hx2 & _).
  assert (d1 = d) as -> by congruence. rewrite Hs1 in Hd2. injection Hd2 as <-. cbn [put_file place_files d_layers d_root] in *.
  split; [done|]. rewrite Hs2, Hx2, Hx1.
  cbn [stage_plane]. unfold json_of. rewrite Hj. done.
Qed.

(** ** Staging a whole stream *)
Fixpoint ingest_all planes : staging unit :=
  match planes with
  | [] => st_ret tt
  | (h, p) :: planes => st_bind (ingest h p) (λ _, ingest_all planes)
  end.
(** [create], one [ingest] per plane, [seal]. *)
Definition stage_bundle begin limits planes seal : stateful Fs BundleStager := λ fs,
  match stager_create begin limits fs with
  | (Ok b, fs) =>
      match st_bind (ingest_all planes) (λ _, stager_seal seal) (b, fs) with
      | (Ok _, (b, fs)) => (Ok b, fs)
      | (Err e, (_, fs)) => (Err e, fs)
      | (Panic w, (_, fs)) => (Panic w, fs)
      end
  | (Err e, fs) => (Err e, fs)
  | (Panic w, fs) => (Panic w, fs)
  end.

(** Files found in a staged directory. *)
Definition holds begin (files : Files) planes : Prop :=
  ∀ i h p, planes !! i = Some (h, p) →
    files !! header_name (lh_layer h) (lh_role h) = Some (json_of serde_LayerHeaderV1 h) ∧
    files !! payload_name begin (lh_layer h) (lh_role h) = Some p.
Lemma holds_snoc begin files planes h p :
  holds begin files planes → files !! header_name (lh_layer h) (lh_role h) = None →
  <[header_name (lh_layer h) (lh_role h) := json_of serde_LayerHeaderV1 h]> files
    !! payload_name begin (lh_layer h) (lh_role h) = None →
  holds begin (stage_plane begin files (h, p)) (planes ++ [(h, p)]).
Proof.
  intros Hh H1 H2 i h' p' Hi. apply lookup_insert_None in H2 as [H2 Hne]. cbn [stage_plane].
  apply lookup_app_Some in Hi as [Hi|[_ Hi]].
  - destruct (Hh i h' p' Hi) as [Ha Hb].
    rewrite !lookup_insert_ne by (intros E; rewrite E in *; congruence). done.
  - apply list_lookup_singleton_Some in Hi as [_ [= <- <-]].
    rewrite lookup_insert_ne by done. by rewrite !lookup_insert_eq.
Qed.

Lemma ingest_all_Ok begin limits planes planes' fs root u s' :
  fs_staging fs = Some (staged_dir begin planes root) → holds begin (staged_layers begin planes) planes →
  ingest_all planes' (receiving begin limits planes, fs) = (Ok u, s') →
  s'.1 = receiving begin limits (planes ++ planes') ∧
  fs_staging s'.2 = Some (staged_dir begin (planes ++ planes') root) ∧ fs_final s'.2 = fs_final fs ∧
  holds begin (staged_layers begin (planes ++ planes')) (planes ++ planes') ∧
  verify_planes (verifier_after begin limits planes) planes' = Ok (verifier_after begin limits (planes ++ planes')).
Proof.
  revert planes fs. induction planes' as [|[h p] planes' IH]; intros planes fs Hs Hh Hi; cbn [ingest_all] in Hi.
  { st_inv. rewrite app_nil_r. done. }
  st_inv. rename select (ingest h p _ = _) into Hp. eapply ingest_Ok in Hp; [|done].
  destruct Hp as (Ha & Hn & Ht & H1 & H2 & H3 & Hf1 & Hf2).
  match goal with H : ingest_all _ ?s = _ |- _ => destruct s as [b fs1]; simpl in H1, H2, H3; subst b;
    eapply IH in H as (? & ? & ? & ? & Hvp) end.
  - rewrite <-app_assoc in *. simpl in *. split_and!; try done; [congruence|].
    unfold verify_planes in *. cbn [try_fold fst snd].
    rewrite (proj2 (verify_plane_iff begin limits planes h p (mkVerifiedPlaneV1 h p) _)
      (conj Ha (conj Hn (conj Ht (conj eq_refl eq_refl))))).
    exact Hvp.
  - rewrite H2. unfold staged_dir. by rewrite staged_layers_snoc.
  - rewrite staged_layers_snoc. by apply holds_snoc.
Qed.

Definition bundle_root begin seal : Files :=
  <[str "READY" := sm_artifact_sha256 seal ++ [10]]>
    (<[str "seal.json" := json_of serde_SealManifestV1 seal]> (begin_root begin)).
Lemma write_prepared_seal_Ok begin planes seal b fs u s' :
  fs_staging fs = Some (staged_dir begin planes (begin_root begin)) →
  write_prepared_seal seal (b, fs) = (Ok u, s') →
  s'.1 = mkBundleStager (bs_begin b) (bs_committed b) (Some seal) (bs_verifier b) (bs_aborted b) ∧
  fs_staging s'.2 = Some (staged_dir begin planes
    (<[str "seal.json" := json_of serde_SealManifestV1 seal]> (begin_root begin))) ∧
  fs_final s'.2 = fs_final fs.
Proof.
  intros Hs Hw. unfold write_prepared_seal in Hw. st_inv.
  repeat match goal with H : on_fs _ _ = (Ok ?u, _) |- _ => apply on_fs_Ok in H as (? & H & ->); try destruct u end.
  cbn [fst snd] in *.
  repeat match goal with H : sync_dir _ = _ |- _ => apply sync_dir_Ok in H as (? & ? & ?) end.
  rename select (write_new_sync _ _ _ _ = _) into Hw1. rename select (canonical_json _ _ = Ok _) into Hj.
  apply write_new_sync_Ok in Hw1 as (d1 & Hd1 & _ & Hs1 & Hf1 & _).
  unfold staged_dir, json_of in *. rewrite Hj. cbn [put_file] in Hs1. split; [done|]. split; [|congruence].
  assert (d1 = mkDir (begin_root begin) (staged_layers begin planes)) as -> by congruence.
  cbn [put_file d_root d_layers] in *. congruence.
Qed.
Lemma stager_publish_Ok begin planes seal b fs u s' :
  fs_staging fs = Some (staged_dir begin planes
    (<[str "seal.json" := json_of serde_SealManifestV1 seal]> (begin_root begin))) →
  bs_prepared b = Some seal → stager_publish (b, fs) = (Ok u, s') →
  fs_staging s'.2 = None ∧ fs_final s'.2 = Some (staged_dir begin planes (bundle_root begin seal)) ∧
  bs_committed s'.1 = true.
Proof.
  intros Hs Hp Hpub. unfold stager_publish in Hpub. st_inv. cbn [fst snd] in *.
  rename select (ok_or _ _ = Ok _) into Ho. apply ok_or_Ok in Ho. rewrite Hp in Ho. injection Ho as <-.
  repeat match goal with H : on_fs _ _ = (Ok ?u, _) |- _ => apply on_fs_Ok in H as (? & H & ->); try destruct u end.
  cbn [fst snd] in *.
  repeat match goal with H : sync_dir _ = _ |- _ => apply sync_dir_Ok in H as (? & ? & ?) end.
  rename select (write_new_sync _ _ _ _ = _) into Hw2.
  apply write_new_sync_Ok in Hw2 as (d2 & Hd2 & _ & Hs2 & _ & _).
  rename select (rename_noreplace _ = _) into Hr. rename select (sync_parent _ = _) into Hsp.
  apply rename_noreplace_Ok in Hr as (d & Hd & _ & Hn & Hf). apply sync_parent_Ok in Hsp as [Hp1 Hp2].
  rewrite Hp1, Hp2, Hn, Hf. split; [done|]. split; [|done]. f_equal. unfold bundle_root, staged_dir in *.
  rewrite Hs in Hd2. injection Hd2 as <-. cbn [put_file d_root d_layers] in *. congruence.
Qed.
Lemma seal_Ok begin limits planes seal fs u s' :
  fs_staging fs = Some (staged_dir begin planes (begin_root begin)) →
  stager_seal seal (receiving begin limits planes, fs) = (Ok u, s') →
  seal_validate_for seal begin planes.*1 (total_bytes planes) (sha256_hex (all_payload planes)) = Ok tt ∧
  fs_staging s'.2 = None ∧ fs_final s'.2 = Some (staged_dir begin planes (bundle_root begin seal)) ∧
  bs_committed s'.1 = true.
Proof.
  intros Hs Hseal. unfold stager_seal in Hseal. st_inv.
  rename select (on_verifier _ _ = _) into Hv. apply on_verifier_Ok in Hv as (v & Hv & ->).
  unfold verify_seal in Hv. apply commit_Ok, verify_seal_iff in Hv as (Hval & -> & ->).
  split; [done|]. cbn [fst snd vs_seal] in *.
  rename select (write_prepared_seal _ _ = _) into Hw. rename select (stager_publish _ = _) into Hp.
  match type of Hw with _ = (_, ?s1) => destruct s1 as [b1 fs1] end.
  eapply write_prepared_seal_Ok in Hw as (Hb & Hst & _); [|done]. cbn [fst snd] in *.
  eapply stager_publish_Ok; [exact Hst| |exact Hp]. by rewrite Hb.
Qed.

Lemma stage_bundle_Ok begin limits planes seal fs b fs' :
  stage_bundle begin limits planes seal fs = (Ok b, fs') →
  begin_validate begin limits = Ok tt ∧
  seal_validate_for seal begin planes.*1 (total_bytes planes) (sha256_hex (all_payload planes)) = Ok tt ∧
  verify_planes (verifier_after begin limits []) planes = Ok (verifier_after begin limits planes) ∧
  fs_staging fs' = None ∧ fs_final fs' = Some (staged_dir begin planes (bundle_root begin seal)) ∧
  holds begin (staged_layers begin planes) planes ∧ bs_committed b = true.
Proof.
  unfold stage_bundle. intros Hs. destruct (stager_create _ _ _) as [[b0| |] fs0] eqn:Ec; [|done..].
  apply create_Ok in Ec as (Hv & -> & Hst & Hfin & _). split; [done|].
  destruct (st_bind _ _ _) as [r [b1 fs1]] eqn:Er. destruct r; [|done..]. injection Hs as -> ->.
  apply st_bind_Ok in Er as (u & [b1 fs1] & Hi & Hseal).
  eapply (ingest_all_Ok begin limits []) in Hi as (Hb & Hst1 & _ & Hh & Hvp); [|done|].
  2: { intros i h p Hi'. by rewrite lookup_nil in Hi'. }
  simpl in Hb, Hst1, Hh, Hvp. subst b1. apply seal_Ok in Hseal as (Hval & Hs1 & Hf1 & Hc); [|done]. done.
Qed.

(** ** Reopening *)
Lemma plane_at_planned begin i l r :
  planned_planes begin !! Z.to_nat i = Some (l, r) → 0 ≤ i → plane_at begin i = Ok (l, r).
Proof.
  unfold planned_planes, plane_at. destruct (is_v2 begin); rewrite list_lookup_fmap.
  - destruct (layout_walk_v2 begin !! _) as [[[c l'] r']|]; [|done]. by intros [= -> ->].
  - destruct (seqZ _ _ !! _) as [j|] eqn:E; [|done]. apply lookup_seqZ in E as [-> _]. intros [= <- <-] Hi.
    by rewrite Z2Nat.id, Z.add_0_l.
Qed.
Lemma read_bounded_Ok files name content max :
  files !! name = Some content → 0 < zlen content ≤ max → read_regular_bounded files name max = Ok content.
Proof.
  intros Hf Hz. unfold read_regular_bounded. rewrite Hf. cbn [ok_or mbind outcome_bind].
  by rewrite (proj2 (Z.eqb_neq _ _)), (proj2 (Z.ltb_ge _ _)) by lia.
Qed.
(** JSON of at most one mebibyte, as reopening enforces and staging does not. *)
Definition json_fits {A} (s : Serde A) (a : A) : Prop := zlen (json_of s a) ≤ MANIFEST_MAX_BYTES.
Lemma json_of_decodes {A} (s : Serde A) `{!SerdeLaws s} `{!SerdeDepth s json_depth} a : typed_as s a → json_fits s a →
  0 < zlen (json_of s a) ≤ MANIFEST_MAX_BYTES ∧
  decode_canonical_json s (json_of s a) MANIFEST_MAX_BYTES = Ok a.
Proof.
  intros Ha Hf. destruct (canonical_json_ok s a Ha) as (b & Hb & Hok & Hz & _).
  unfold json_fits, json_of in *. rewrite Hb in *. split; [done|]. by apply decode_canonical_json_iff.
Qed.

Section reopen.
Context (begin : BeginManifestV1) (limits : ValidationLimits) (root : Files) (planes : plane_stream).
Hypothesis Hbegin : typed_as serde_BeginManifestV1 begin.
Hypothesis Haccepted : begin_accepted begin limits.
Hypothesis Hholds : holds begin (staged_layers begin planes) planes.
Hypothesis Htyped : Forall (λ p, typed_as serde_LayerHeaderV1 p.1 ∧ json_fits serde_LayerHeaderV1 p.1) planes.
Hypothesis Hframes : zlen planes = bm_expected_layer_frames begin.

Lemma open_planes pre rest : planes = pre ++ rest →
  verify_planes (verifier_after begin limits pre) rest = Ok (verifier_after begin limits planes) →
  try_fold (open_plane (staged_dir begin planes root) begin limits)
    (verifier_after begin limits pre, (λ p, mkVerifiedPlaneV1 p.1 p.2) <$> pre, pre.*1 ≫= plane_names begin)
    (seqZ (zlen pre) (zlen rest)) =
  Ok (verifier_after begin limits planes, (λ p, mkVerifiedPlaneV1 p.1 p.2) <$> planes,
      planes.*1 ≫= plane_names begin).
Proof.
  revert pre. induction rest as [|[h p] rest IH]; intros pre Hp Hv.
  { by rewrite Hp, app_nil_r. }
  unfold verify_planes in Hv. cbn [try_fold] in Hv. apply bind_Ok in Hv as (v1 & Hv1 & Hv).
  apply fmap_Ok in Hv1 as ([pl v1'] & Hv1 & ->). cbn [fst snd] in *.
  apply verify_plane_iff in Hv1 as (Ha & Hn & Ht & -> & ->).
  assert (planes !! length pre = Some (h, p)) as Hi by (by rewrite Hp, lookup_app_r, Nat.sub_diag by lia).
  destruct (Hholds _ _ _ Hi) as [Hh Hpl].
  pose proof (list_elem_of_lookup_2 _ _ _ Hi) as Hin. rewrite list.Forall_forall in Htyped.
  destruct (Htyped _ Hin) as [Hty Hfit]. cbn [fst] in *.
  pose proof (zlen_nonneg pre). pose proof (zlen_nonneg rest).
  assert (0 ≤ zlen pre < bm_expected_layer_frames begin) as Hlt by (rewrite <-Hframes, Hp; zlia).
  destruct Ha as [Hhv Hb Hlen Hdig Hfin].
  pose proof (header_validate_ok _ _ _ _ (begin_typed_dims _ Hbegin) Haccepted Hlt Hhv) as (Hpp & Hpb & _).
  destruct (json_of_decodes serde_LayerHeaderV1 h Hty Hfit) as [Hjz Hjd].
  assert (0 < zlen p) as Hpos.
  { rewrite Hlen. pose proof (begin_typed_geometry _ Hbegin) as (Hkv & Hhd & _).
    pose proof (ba_positive _ _ Haccepted Hkv Hhd) as Hpos. rewrite list.Forall_forall in Hpos.
    apply Hpos. by eapply list_elem_of_lookup_2. }
  rewrite zlen_cons, seqZ_cons by lia. replace (Z.pred (1 + zlen rest)) with (zlen rest) by lia. cbn [try_fold].
  unfold open_plane at 2. rewrite (plane_at_planned _ _ _ _ Hpp) by lia. cbn [mbind outcome_bind]. cbv zeta.
  change (d_layers (staged_dir begin planes root)) with (staged_layers begin planes).
  rewrite (read_bounded_Ok _ _ _ _ Hh Hjz). cbn [mbind outcome_bind]. rewrite Hjd. cbn [mbind outcome_bind].
  rewrite (read_bounded_Ok _ _ _ _ Hpl) by lia. cbn [mbind outcome_bind].
  rewrite (proj2 (verify_plane_iff begin limits pre h p (mkVerifiedPlaneV1 h p)
    (verifier_after begin limits (pre ++ [(h, p)])))) by done.
  cbn [mbind outcome_bind fst snd].
  replace (Z.succ (zlen pre)) with (zlen (pre ++ [(h, p)])) by (rewrite zlen_app; change (zlen [(h, p)]) with 1; lia).
  rewrite <-(IH (pre ++ [(h, p)])); [|by rewrite <-app_assoc|done].
  rewrite !fmap_app, bind_app. done.
Qed.
End reopen.

Lemma bundle_root_files begin seal :
  bundle_root begin seal !! str "begin.json" = Some (json_of serde_BeginManifestV1 begin) ∧
  bundle_root begin seal !! str "seal.json" = Some (json_of serde_SealManifestV1 seal) ∧
  bundle_root begin seal !! str "READY" = Some (sm_artifact_sha256 seal ++ [10]).
Proof.
  unfold bundle_root, begin_root. split_and!.
  - rewrite !lookup_insert_ne by (intros [=]). by rewrite lookup_singleton_eq.
  - rewrite lookup_insert_ne by (intros [=]). by rewrite lookup_insert_eq.
  - by rewrite lookup_insert_eq.
Qed.

(** A published directory that holds an accepted stream reopens to it. *)
Lemma staged_reopens begin limits planes seal :
  typed_as serde_BeginManifestV1 begin → typed_as serde_SealManifestV1 seal →
  Forall (λ p, typed_as serde_LayerHeaderV1 p.1 ∧ json_fits serde_LayerHeaderV1 p.1) planes →
  json_fits serde_BeginManifestV1 begin → json_fits serde_SealManifestV1 seal →
  begin_validate begin limits = Ok tt →
  seal_validate_for seal begin planes.*1 (total_bytes planes) (sha256_hex (all_payload planes)) = Ok tt →
  verify_planes (verifier_after begin limits []) planes = Ok (verifier_after begin limits planes) →
  holds begin (staged_layers begin planes) planes →
  open_verified (staged_dir begin planes (bundle_root begin seal)) limits =
    Ok (begin, (λ p, mkVerifiedPlaneV1 p.1 p.2) <$> planes, seal).
Proof.
  intros Hb Hs Hh Hfb Hfs Hval Hseal Hvp Hholds.
  pose proof (begin_validate_ok _ _ (begin_typed_dims _ Hb) (proj1 (begin_typed_counts _ Hb)) Hval) as Hacc.
  destruct (json_of_decodes serde_BeginManifestV1 begin Hb Hfb) as [Hz1 Hd1].
  destruct (json_of_decodes serde_SealManifestV1 seal Hs Hfs) as [Hz2 Hd2].
  assert (zlen planes = bm_expected_layer_frames begin ∧ zlen (sm_artifact_sha256 seal) = 64) as [Hfr Hart].
  { unfold seal_validate_for in Hseal. cbv zeta in Hseal. inv_ok. bools. rewrite zlen_fmap in *.
    split; [lia|]. rename select (artifact_sha256 _ _ _ = Ok _) into Ha. unfold artifact_sha256 in Ha. inv_ok.
    match goal with H : bytes_eqb (sm_artifact_sha256 seal) _ = true |- _ => apply bytes_eqb_eq in H; rewrite H end.
    subst. rewrite zlen_hex_encode, (proj1 (sha256_id _)). done. }
  destruct (bundle_root_files begin seal) as (Hr1 & Hr2 & Hr3).
  unfold open_verified. cbn [d_root staged_dir].
  rewrite (read_bounded_Ok _ _ _ _ Hr1 Hz1). cbn [mbind outcome_bind].
  rewrite Hd1. cbn [mbind outcome_bind]. rewrite Hval. cbn [mbind outcome_bind].
  rewrite (read_bounded_Ok _ _ _ _ Hr2 Hz2). cbn [mbind outcome_bind].
  rewrite Hd2. cbn [mbind outcome_bind].
  rewrite (proj2 (verifier_new_iff begin limits _) (conj Hval eq_refl)). cbn [mbind outcome_bind].
  pose proof (open_planes begin limits (bundle_root begin seal) planes Hb Hacc Hholds Hh Hfr [] planes eq_refl Hvp) as Hopen.
  cbn [fmap list_fmap mbind list_bind] in Hopen. rewrite <-Hfr. change (zlen []) with 0 in Hopen.
  unfold staged_dir in *. rewrite Hopen. cbn [mbind outcome_bind d_layers].
  rewrite bool_decide_eq_true_2 by apply staged_layers_dom. cbn [negb].
  rewrite (proj2 (verify_seal_iff begin limits planes seal _ _) (conj Hseal (conj eq_refl eq_refl))). cbn [mbind outcome_bind].
  rewrite (read_bounded_Ok _ _ _ 65 Hr3) by (rewrite zlen_app, Hart; done).
  cbn [mbind outcome_bind]. by rewrite bytes_eqb_refl.
Qed.
(** Every manifest of the bundle is within the bound its reader puts on it. *)
Definition manifests_fit begin (planes : plane_stream) seal : Prop :=
  json_fits serde_BeginManifestV1 begin ∧ json_fits serde_SealManifestV1 seal ∧
  Forall (λ p, json_fits serde_LayerHeaderV1 p.1) planes.
Lemma read_bounded_inv files name max content b : files !! name = Some content →
  read_regular_bounded files name max = Ok b → b = content ∧ zlen content ≤ max.
Proof. intros Hf Hr. unfold read_regular_bounded in Hr. rewrite Hf in Hr. inv_ok. bools. simplify_eq. split; [done|lia]. Qed.
Lemma try_fold_steps {A B} (f : A → B → hresult A) a l r : try_fold f a l = Ok r →
  ∀ x, x ∈ l → ∃ a' r', f a' x = Ok r'.
Proof.
  revert a. induction l as [|y l IH]; intros a Hr x Hx; [by apply elem_of_nil in Hx|]. cbn [try_fold] in Hr. inv_ok.
  apply elem_of_cons in Hx as [-> |Hx]; eauto.
Qed.
(** Only such a directory reopens. *)
Lemma reopened_fits begin limits planes seal x :
  typed_as serde_BeginManifestV1 begin → begin_validate begin limits = Ok tt →
  zlen planes = bm_expected_layer_frames begin →
  verify_planes (verifier_after begin limits []) planes = Ok (verifier_after begin limits planes) →
  holds begin (staged_layers begin planes) planes →
  open_verified (staged_dir begin planes (bundle_root begin seal)) limits = Ok x → manifests_fit begin planes seal.
Proof.
  intros Hb Hval Hfr Hvp Hholds Ho.
  pose proof (begin_validate_ok _ _ (begin_typed_dims _ Hb) (proj1 (begin_typed_counts _ Hb)) Hval) as Hacc.
  destruct (bundle_root_files begin seal) as (Hr1 & Hr2 & _). unfold open_verified in Ho. cbn [d_root staged_dir] in Ho.
  apply bind_Ok in Ho as (b1 & E1 & Ho). destruct (read_bounded_inv _ _ _ _ _ Hr1 E1) as [-> Hz1].
  destruct (json_of_decodes serde_BeginManifestV1 begin Hb Hz1) as [_ Hd1]. rewrite Hd1 in Ho.
  cbn [mbind outcome_bind] in Ho. rewrite Hval in Ho. cbn [mbind outcome_bind] in Ho.
  apply bind_Ok in Ho as (b2 & E2 & Ho). destruct (read_bounded_inv _ _ _ _ _ Hr2 E2) as [-> Hz2].
  split; [done|]. split; [done|]. apply bind_Ok in Ho as (seal' & _ & Ho). apply bind_Ok in Ho as (v & _ & Ho).
  apply bind_Ok in Ho as (r & Hf & _). apply list.Forall_forall. intros [h p] [k Hk]%list_elem_of_lookup_1. cbn [fst].
  pose proof (lookup_lt_Some _ _ _ Hk) as Hlt.
  destruct (try_fold_steps _ _ _ _ Hf (Z.of_nat k)) as ([[v1 ps] names] & r' & Hop).
  { apply elem_of_seqZ. unfold zlen in Hfr. lia. }
  assert (planned_planes begin !! k = Some (lh_layer h, lh_role h)) as Hpp.
  { apply verify_planes_iff in Hvp as (Hpa & _); [|apply totals_fit_nil; [apply (begin_typed_counts _ Hb)|done]].
    destruct (Hpa _ _ _ Hk) as [Hhv _ _ _ _].
    destruct (header_validate_ok h begin limits (Z.of_nat k) (begin_typed_dims _ Hb) Hacc ltac:(unfold zlen in Hfr; lia) Hhv) as (Hpp & _).
    by rewrite Nat2Z.id in Hpp. }
  unfold open_plane in Hop. rewrite (plane_at_planned begin (Z.of_nat k) (lh_layer h) (lh_role h)) in Hop
    by (rewrite ?Nat2Z.id; done || lia).
  cbn [mbind outcome_bind] in Hop. cbv zeta in Hop. apply bind_Ok in Hop as (hb & Eh & _).
  destruct (Hholds _ _ _ Hk) as [Hh _]. by apply (read_bounded_inv _ _ _ _ _ Hh) in Eh as [_ ?].
Qed.
Lemma staged_reopens_iff begin limits planes seal x :
  typed_as serde_BeginManifestV1 begin → typed_as serde_SealManifestV1 seal →
  Forall (λ p, typed_as serde_LayerHeaderV1 p.1) planes → begin_validate begin limits = Ok tt →
  seal_validate_for seal begin planes.*1 (total_bytes planes) (sha256_hex (all_payload planes)) = Ok tt →
  verify_planes (verifier_after begin limits []) planes = Ok (verifier_after begin limits planes) →
  holds begin (staged_layers begin planes) planes →
  open_verified (staged_dir begin planes (bundle_root begin seal)) limits = Ok x ↔
    manifests_fit begin planes seal ∧ x = (begin, (λ p, mkVerifiedPlaneV1 p.1 p.2) <$> planes, seal).
Proof.
  intros Hb Hs Hh Hval Hseal Hvp Hholds.
  assert (manifests_fit begin planes seal → open_verified (staged_dir begin planes (bundle_root begin seal)) limits =
    Ok (begin, (λ p, mkVerifiedPlaneV1 p.1 p.2) <$> planes, seal)) as Hre.
  { intros (F1 & F2 & F3). apply staged_reopens; try done. rewrite list.Forall_forall in *. auto. }
  assert (zlen planes = bm_expected_layer_frames begin) as Hfr.
  { unfold seal_validate_for in Hseal. cbv zeta in Hseal. inv_ok. bools. rewrite zlen_fmap in *. lia. }
  split; [|by intros [Hf ->]; apply Hre]. intros Hx.
  assert (manifests_fit begin planes seal) as Hf by (by eapply reopened_fits). split; [done|].
  rewrite Hre in Hx by done. by injection Hx.
Qed.
Lemma bundle_reopens begin limits planes seal fs b fs' :
  typed_as serde_BeginManifestV1 begin → typed_as serde_SealManifestV1 seal →
  Forall (λ p, typed_as serde_LayerHeaderV1 p.1) planes →
  stage_bundle begin limits planes seal fs = (Ok b, fs') →
  ∃ dir, fs_final fs' = Some dir ∧ fs_staging fs' = None ∧
    ∀ x, open_verified dir limits = Ok x ↔
      manifests_fit begin planes seal ∧ x = (begin, (λ p, mkVerifiedPlaneV1 p.1 p.2) <$> planes, seal).
Proof.
  intros Hb Hs Hh Hst. apply stage_bundle_Ok in Hst as (Hval & Hseal & Hvp & Hst & Hfin & Hholds & _).
  eexists. split; [exact Hfin|]. split; [done|]. intros x. by apply staged_reopens_iff.
Qed.

(** ** Runs without faults *)
Lemma create_clean begin limits :
  begin_validate begin limits = Ok tt →
  stager_create begin limits (mkFs None None []) =
  (Ok (receiving begin limits []), mkFs (Some (staged_dir begin [] (begin_root begin))) None []).
Proof.
  intros Hv. unfold stager_create, st_bind, st_lift, st_get, st_ret. rewrite Hv.
  rewrite (proj2 (verifier_new_iff begin limits _) (conj Hv eq_refl)).
  rewrite bool_decide_eq_false_2 by (by intros []). cbn [make_dirs fs_staging next_fault fs_faults].
  unfold canonical_json at 1. erewrite write_new_sync_clean; [|done|done|done]. done.
Qed.

Lemma staged_fresh begin limits pre h name :
  in_u32 (lh_layer h) → Forall (λ p, in_u32 (lh_layer p.1)) pre →
  (lh_layer h, lh_role h) ∉ ((λ p : LayerHeaderV1 * bytes, (lh_layer p.1, lh_role p.1)) <$> pre) →
  name ∈ plane_names begin h → staged_layers begin pre !! name = None.
Proof.
  intros Hu Hus Hn Hname. apply not_elem_of_dom. rewrite staged_layers_dom, elem_of_list_to_set, list_elem_of_bind.
  intros (h' & Hin & Hh'). apply list_elem_of_fmap in Hh' as ([h0 p0] & -> & Hh'). cbn [fst] in Hin.
  rewrite list.Forall_forall in Hus. specialize (Hus _ Hh'). cbn [fst] in Hus.
  apply Hn. apply list_elem_of_fmap. exists (h0, p0). split; [|done]. cbn [fst].
  unfold plane_names in Hname, Hin. rewrite !elem_of_cons in Hname, Hin.
  destruct Hname as [->|[->|[]%elem_of_nil]], Hin as [E|[E|[]%elem_of_nil]].
  - by apply header_name_inj.
  - by apply header_not_payload in E.
  - symmetry in E. by apply header_not_payload in E.
  - by eapply payload_name_inj.
Qed.

Lemma planned_lengths begin : length (planned_bytes begin) = length (planned_planes begin).
Proof.
  unfold planned_planes, planned_bytes. destruct (is_v2 begin); rewrite !length_fmap; [done|].
  by rewrite length_replicate, length_seqZ.
Qed.

Section clean.
Context (begin : BeginManifestV1) (limits : ValidationLimits) (planes : plane_stream).
Hypothesis Hbegin : typed_as serde_BeginManifestV1 begin.
Hypothesis Haccepted : begin_accepted begin limits.
Hypothesis Htyped : Forall (λ p, typed_as serde_LayerHeaderV1 p.1) planes.
Hypothesis Hplanes : planes_accepted begin limits planes.
Hypothesis Hframes : zlen planes = bm_expected_layer_frames begin.

Lemma planes_planned i h p : planes !! i = Some (h, p) →
  planned_planes begin !! i = Some (lh_layer h, lh_role h) ∧
  planned_bytes begin !! i = Some (lh_byte_length h) ∧ in_u32 (lh_layer h).
Proof.
  intros Hi. pose proof (Hplanes _ _ _ Hi) as [Hhv _ _ _ _]. pose proof (lookup_lt_Some _ _ _ Hi) as Hlt.
  assert (0 ≤ Z.of_nat i < bm_expected_layer_frames begin) as Hr by (rewrite <-Hframes; unfold zlen; lia).
  destruct (header_validate_ok _ _ _ _ (begin_typed_dims _ Hbegin) Haccepted Hr Hhv) as (Hp & Hb & _). rewrite Nat2Z.id in Hp, Hb.
  split; [done|]. split; [done|]. rewrite list.Forall_forall in Htyped.
  pose proof (Htyped _ (list_elem_of_lookup_2 _ _ _ Hi)) as Ht. cbn [fst] in Ht. by destruct Ht as (_ & ? & _).
Qed.
Lemma planes_order : ((λ p : LayerHeaderV1 * bytes, (lh_layer p.1, lh_role p.1)) <$> planes) = planned_planes begin.
Proof.
  apply list_eq_same_length with (length planes).
  - pose proof (ba_frames _ _ Haccepted) as Hf. unfold zlen in *. lia.
  - by rewrite length_fmap.
  - intros i x y Hlt Hx Hy. rewrite list_lookup_fmap in Hx. destruct (planes !! i) as [[h p]|] eqn:E; [|done].
    injection Hx as <-. destruct (planes_planned _ _ _ E) as [Hp _]. cbn [fst]. congruence.
Qed.
Lemma planes_total : total_bytes planes = bm_expected_payload_bytes begin.
Proof.
  rewrite (ba_total _ _ Haccepted). unfold total_bytes. f_equal. rewrite <-list_fmap_compose.
  apply list_eq_same_length with (length planes).
  - rewrite planned_lengths. pose proof (ba_frames _ _ Haccepted) as Hf. unfold zlen in *. lia.
  - by rewrite length_fmap.
  - intros i x y Hlt Hx Hy. rewrite list_lookup_fmap in Hx. destruct (planes !! i) as [[h p]|] eqn:E; [|done].
    injection Hx as <-. destruct (planes_planned _ _ _ E) as (_ & Hp & _). simpl. congruence.
Qed.

Lemma ingest_clean pre h p rest root : planes = pre ++ (h, p) :: rest →
  verify_plane_next (verifier_after begin limits pre) h p =
    Ok (mkVerifiedPlaneV1 h p, verifier_after begin limits (pre ++ [(h, p)])) →
  ingest h p (receiving begin limits pre, mkFs (Some (staged_dir begin pre root)) None []) =
  (Ok tt, (receiving begin limits (pre ++ [(h, p)]),
           mkFs (Some (staged_dir begin (pre ++ [(h, p)]) root)) None [])).
Proof.
  intros Hp Hv. assert (planes !! length pre = Some (h, p)) as Hi by (by rewrite Hp, lookup_app_r, Nat.sub_diag by lia).
  destruct (planes_planned _ _ _ Hi) as (_ & _ & Hu).
  assert (∀ name, name ∈ plane_names begin h → staged_layers begin pre !! name = None) as Hfresh.
  { intros name. apply (staged_fresh begin limits); [done| |].
    - apply list.Forall_forall. intros [h' p'] Hin. apply list_elem_of_lookup in Hin as [j Hj].
      apply (planes_planned j h' p'). rewrite Hp, lookup_app_l; [done|]. by eapply lookup_lt_Some.
    - pose proof (ba_once _ _ Haccepted) as Hd. rewrite <-planes_order, Hp, fmap_app in Hd.
      apply list.NoDup_app in Hd as (_ & Hd & _). intros Hin. apply (Hd _ Hin). by left. }
  unfold ingest, st_bind, on_verifier, verify_plane. cbn [fst snd bs_verifier receiving]. rewrite Hv. cbn [commit].
  unfold write_verified, st_bind, st_get, st_lift. cbn [fst snd bs_begin receiving bs_committed bs_prepared bs_aborted].
  match goal with |- context [closed ?b] => change (closed b) with false end. cbn [vp_header vp_bytes]. cbv zeta.
  unfold canonical_json. unfold on_fs. cbn [fst snd].
  rewrite (write_new_sync_clean Layers _ _ _ (staged_dir begin pre root)) by (done || apply Hfresh; by left).
  cbn [fst snd fs_final].
  erewrite (write_new_sync_clean Layers); [|done| |done].
  - cbn [put_file d_root d_layers staged_dir]. unfold staged_dir. rewrite staged_layers_snoc. done.
  - cbn [place_files put_file d_layers]. rewrite lookup_insert_ne by (by apply header_not_payload).
    apply Hfresh. right. by left.
Qed.

Lemma ingest_all_clean pre rest root : planes = pre ++ rest →
  verify_planes (verifier_after begin limits pre) rest = Ok (verifier_after begin limits planes) →
  ingest_all rest (receiving begin limits pre, mkFs (Some (staged_dir begin pre root)) None []) =
  (Ok tt, (receiving begin limits planes, mkFs (Some (staged_dir begin planes root)) None [])).
Proof.
  revert pre. induction rest as [|[h p] rest IH]; intros pre Hp Hv.
  { by rewrite Hp, app_nil_r. }
  unfold verify_planes in Hv. cbn [try_fold] in Hv. apply bind_Ok in Hv as (v1 & Hv1 & Hv).
  apply fmap_Ok in Hv1 as ([pl v1'] & Hv1 & ->). cbn [fst snd] in *.
  pose proof Hv1 as Hv1'. apply verify_plane_iff in Hv1' as (_ & _ & _ & -> & ->).
  cbn [ingest_all]. unfold st_bind at 1. rewrite (ingest_clean pre h p rest root Hp Hv1).
  apply IH; [|done]. by rewrite <-app_assoc.
Qed.
End clean.

Lemma seal_clean begin limits planes seal :
  seal_validate_for seal begin planes.*1 (total_bytes planes) (sha256_hex (all_payload planes)) = Ok tt →
  ∃ b, stager_seal seal (receiving begin limits planes, mkFs (Some (staged_dir begin planes (begin_root begin))) None []) =
    (Ok tt, (b, mkFs None (Some (staged_dir begin planes (bundle_root begin seal))) [])) ∧ bs_committed b = true.
Proof.
  intros Hs. eexists. split; [|shelve]. unfold stager_seal, st_bind, st_get, st_lift, on_verifier, verify_seal.
  cbn [fst snd bs_verifier receiving].
  match goal with |- context [closed ?b] => change (closed b) with false end.
  cbv iota beta. cbn [fst snd receiving bs_verifier bs_begin bs_committed bs_prepared bs_aborted].
  rewrite (proj2 (verify_seal_iff begin limits planes seal _ _) (conj Hs (conj eq_refl eq_refl))). cbn [commit vs_seal].
  unfold write_prepared_seal, st_bind, st_lift, st_modify. unfold canonical_json at 1. unfold on_fs. cbn [fst snd].
  rewrite (write_new_sync_clean Root _ _ _ (staged_dir begin planes (begin_root begin))); [|done| |done].
  2: { cbn [place_files staged_dir d_root]. unfold begin_root. by rewrite lookup_singleton_ne by (intros [=]). }
  cbn [fst snd fs_final sync_dir fs_staging next_fault fs_faults bs_begin bs_committed bs_prepared bs_verifier bs_aborted].
  unfold stager_publish, st_bind, st_get, st_lift, st_modify, on_fs.
  cbn [fst snd bs_committed bs_aborted bs_prepared orb ok_or].
  erewrite (write_new_sync_clean Root); [|done| |done].
  2: { cbn [place_files put_file staged_dir d_root]. unfold begin_root. rewrite lookup_insert_ne by (intros [=]).
       by rewrite lookup_singleton_ne by (intros [=]). }
  cbn [fst snd fs_final sync_dir fs_staging next_fault fs_faults rename_noreplace sync_parent put_file d_root d_layers].
  reflexivity.
  Unshelve. done.
Qed.

(** An accepted stream is published when the file system does not fail. *)
Lemma bundle_publishes begin limits planes seal :
  typed_as serde_BeginManifestV1 begin → typed_as serde_SealManifestV1 seal →
  Forall (λ p, typed_as serde_LayerHeaderV1 p.1) planes →
  begin_validate begin limits = Ok tt → planes_accepted begin limits planes →
  seal_validate_for seal begin planes.*1 (total_bytes planes) (sha256_hex (all_payload planes)) = Ok tt →
  ∃ b, stage_bundle begin limits planes seal (mkFs None None []) =
    (Ok b, mkFs None (Some (staged_dir begin planes (bundle_root begin seal))) []) ∧ bs_committed b = true.
Proof.
  intros Hb Hs Ht Hval Hpl Hseal. pose proof (begin_typed_counts _ Hb) as (Hn & He & _).
  pose proof (begin_validate_ok _ _ (begin_typed_dims _ Hb) Hn Hval) as Hacc.
  assert (zlen planes = bm_expected_layer_frames begin) as Hfr.
  { pose proof Hseal as Hx. unfold seal_validate_for in Hx. cbv zeta in Hx. inv_ok. bools. rewrite zlen_fmap in *. lia. }
  destruct (seal_validate_counts _ _ _ _ _ Hs Hseal) as [Hc Htot]. rewrite zlen_fmap in Hc.
  pose proof (ba_total_bound _ _ Hacc).
  assert (verify_planes (verifier_after begin limits []) planes = Ok (verifier_after begin limits planes)) as Hvp.
  { apply verify_planes_iff; [by apply totals_fit_nil|]. destruct He. split_and!; [done|lia| |done]. unfold totals_fit. lia. }
  destruct (seal_clean begin limits planes seal Hseal) as (b & Hseal' & Hcom). exists b. split; [|done].
  unfold stage_bundle. rewrite create_clean by done. unfold st_bind.
  rewrite (ingest_all_clean begin limits planes Hb Hacc Ht Hpl Hfr [] planes _ eq_refl Hvp). by rewrite Hseal'.
Qed.
End bundle.
