(* ===== verification/HandoffSession.v ===== *)
(** * Permits and the streaming coordinator (crates/kvpack-handoff/src/coordinator.rs)

    The permit pool is a counter behind a mutex: every method is one atomic
    step, and a waiting [acquire] is a step that is enabled when a permit is
    available.  A permit is a token; dropping it releases it once.  The
    coordinator runs the stager and pairs K planes with their V planes.
    Durations are telemetry and are not modelled. *)
From Stdlib Require Import ZArith Lia.
From stdpp Require Import base tactics numbers list strings option sorting gmap.
From S2P Require Import Prelude Bytes Canonical Crypto HandoffJson HandoffMac HandoffManifest.
From S2P Require Import HandoffLayout HandoffValidation HandoffFrame HandoffVerify HandoffBundle.

(** ** The permit pool *)
Record PermitState := mkPermitState { ps_available : Z; ps_in_use : Z }.
Record PermitPool := mkPermitPool { pp_capacity : Z; pp_state : PermitState }.
Definition pool_new (capacity : Z) : hresult PermitPool :=
  if (capacity =? 0) || (64 <? capacity) then invalid "layer permit capacity must be in 1..=64"
  else Ok (mkPermitPool capacity (mkPermitState capacity 0)).
(** [try_acquire]; [acquire] is the same step, taken when it returns a permit. *)
Definition try_acquire (p : PermitPool) : option PermitPool :=
  let s := pp_state p in
  if ps_available s =? 0 then None
  else Some (mkPermitPool (pp_capacity p) (mkPermitState (ps_available s - 1) (ps_in_use s + 1))).
(** [LayerPermitV1::release_inner] of a permit that was not released before. *)
Definition release_inner (p : PermitPool) : PermitPool :=
  let s := pp_state p in
  mkPermitPool (pp_capacity p)
    (mkPermitState (Z.min (saturating_add (ps_available s) 1) (pp_capacity p)) (Z.max 0 (ps_in_use s - 1))).

(** The pool and the live permits, under any interleaving of its users; the
    [inner.take()] of a permit makes a second release a no-op. *)
Inductive pool_step : PermitPool * gset Z → PermitPool * gset Z → Prop :=
  | step_acquire p p' live token :
      try_acquire p = Some p' → token ∉ live → pool_step (p, live) (p', {[token]} ∪ live)
  | step_refused p live : try_acquire p = None → pool_step (p, live) (p, live)
  | step_release p live token :
      token ∈ live → pool_step (p, live) (release_inner p, live ∖ {[token]})
  | step_released p live token : token ∉ live → pool_step (p, live) (p, live).
Inductive pool_reachable (capacity : Z) : PermitPool * gset Z → Prop :=
  | pool_start p : pool_new capacity = Ok p → pool_reachable capacity (p, ∅)
  | pool_next s s' : pool_reachable capacity s → pool_step s s' → pool_reachable capacity s'.

(** ** The coordinator *)
Record PendingKey := mkPendingKey { pk_plane : VerifiedPlaneV1; pk_permit : Z }.
Record LayerReadyV1 := mkLayerReadyV1 { lr_pair : VerifiedLayerPairV1; lr_permit : Z }.
Record StreamingCoordinatorV1 := mkStreamingCoordinatorV1 {
  co_stager : BundleStager;
  co_pending_key : option PendingKey;
  co_ready_layers : Z;
  co_terminal_prepared : bool
}.
Notation coordinating := (stateful (StreamingCoordinatorV1 * Fs)).
Definition on_stager {A} (m : staging A) : coordinating A := λ s,
  let '(r, (b, fs)) := m (co_stager s.1, s.2) in
  (r, (mkStreamingCoordinatorV1 b (co_pending_key s.1) (co_ready_layers s.1) (co_terminal_prepared s.1), fs)).
Definition set_pending (k : option PendingKey) : coordinating unit :=
  st_modify (λ s, (mkStreamingCoordinatorV1 (co_stager s.1) k (co_ready_layers s.1) (co_terminal_prepared s.1), s.2)).
Definition set_ready (n : Z) : coordinating unit :=
  st_modify (λ s, (mkStreamingCoordinatorV1 (co_stager s.1) (co_pending_key s.1) n (co_terminal_prepared s.1), s.2)).

Section coordinator.
Context `{Crypto} `{JsonText}.
Local Open Scope stateful_scope.

Definition coordinator_create (begin : BeginManifestV1) (limits : ValidationLimits)
  : stateful Fs StreamingCoordinatorV1 :=
  stager <- stager_create begin limits ;
  st_ret (mkStreamingCoordinatorV1 stager None 0 false).

Definition coordinator_validate_next_header (c : StreamingCoordinatorV1) (header : LayerHeaderV1)
  : hresult unit := validate_next_header (bs_verifier (co_stager c)) header.

Definition check_ready_cursor (layer sequence : Z) : coordinating unit :=
  s <- st_get ;
  let verifier := bs_verifier (co_stager s.1) in
  expected_layer <- st_lift (if is_v2 (iv_begin verifier) then expected_layer_at verifier sequence
                             else Ok (co_ready_layers s.1)) ;
  if negb (layer =? expected_layer) then
    st_lift (invalid "layer-ready order does not match the strict stream cursor") else
  n <- st_lift (ok_or (try_from u32_bound (co_ready_layers s.1 + 1)) (Validation "layer-ready count overflow")) ;
  set_ready n.

Definition ready (pair : VerifiedLayerPairV1) (permit : Z) : coordinating (option LayerReadyV1) :=
  check_ready_cursor (vl_layer pair) (lh_sequence (vp_header (vl_key pair))) ;;
  st_ret (Some (mkLayerReadyV1 pair permit)).
Definition ingest_plane (header : LayerHeaderV1) (payload : bytes) (permit : option Z)
  : coordinating (option LayerReadyV1) :=
  s <- st_get ;
  if co_terminal_prepared s.1 then
    st_lift (invalid "cannot ingest a plane after terminal seal preparation") else
  match lh_role header, permit with
  | Key, None => st_lift (invalid "a K plane payload requires a pre-acquired layer permit")
  | Value_role, Some _ => st_lift (invalid "a V plane cannot acquire a second layer permit")
  | Key, Some permit =>
      plane <- on_stager (on_verifier (λ v, verify_plane v header payload)) ;
      on_stager (write_verified plane) ;;
      s <- st_get ;
      single <- st_lift (is_single_role_frame (bs_verifier (co_stager s.1)) (lh_sequence (vp_header plane))) ;
      if single then
        pair <- st_lift (layer_pair_new_single plane) ;
        ready pair permit
      else
        match co_pending_key s.1 with
        | Some _ => st_lift (invalid "received another K plane before its V plane")
        | None => set_pending (Some (mkPendingKey plane permit)) ;; st_ret None
        end
  | Value_role, None =>
      plane <- on_stager (on_verifier (λ v, verify_plane v header payload)) ;
      on_stager (write_verified plane) ;;
      s <- st_get ;
      set_pending None ;;
      key <- st_lift (ok_or (co_pending_key s.1) (Validation "received V without a pending K plane")) ;
      pair <- st_lift (layer_pair_new (pk_plane key) plane) ;
      ready pair (pk_permit key)
  end.

Definition verify_and_prepare_seal (seal : SealManifestV1) : coordinating VerifiedSealV1 :=
  s <- st_get ;
  if bool_decide (is_Some (co_pending_key s.1)) then
    st_lift (invalid "cannot seal with an incomplete K/V layer pair") else
  witness <- on_stager (on_verifier (λ v, verify_seal v seal)) ;
  on_stager (prepare_shared_seal witness) ;;
  st_modify (λ s, (mkStreamingCoordinatorV1 (co_stager s.1) (co_pending_key s.1) (co_ready_layers s.1) true, s.2)) ;;
  st_ret witness.

Definition coordinator_authenticate (c : StreamingCoordinatorV1) (verified : VerifiedSealV1) (key : MacKey)
  : hresult unit := authenticate_seal_hmac (bs_verifier (co_stager c)) verified key.

Definition coordinator_publish : coordinating unit :=
  s <- st_get ;
  if negb (co_terminal_prepared s.1) then
    st_lift (invalid "cannot publish before terminal seal verification")
  else on_stager stager_publish.
Definition coordinator_abort : coordinating unit :=
  set_pending None ;; on_stager stager_abort.
End coordinator.

(** * The receiver session (crates/kvpack-handoff/src/receiver)

    One authenticated stream, as session.rs drives it: BEGIN, the layer frames
    in order, SEAL, publication, acknowledgement, and the abort path.  The
    session is a state machine over the frame reader, the bytes written to the
    peer, the file system, the coordinator and the sink; a sink is any
    implementation of the trait.  An interrupt is observed at each [check]:
    the list gives the reason each check reads, and a reason once set stays.
    A K plane waits for a layer permit, which the sink's threads may release
    or keep; writing to the peer may fail.  Accepting and authenticating the
    connection and the clock readings of the receipt are not modelled. *)
(** ** Configuration (config.rs) *)
#[export] Instance EndpointIdentityV1_eq_dec : EqDecision EndpointIdentityV1.
Proof. solve_decision. Defined.
#[export] Instance ExactIdentityV1_eq_dec : EqDecision ExactIdentityV1.
Proof. solve_decision. Defined.
#[export] Instance GeometryV1_eq_dec : EqDecision GeometryV1.
Proof. solve_decision. Defined.
#[export] Instance PrecisionV1_eq_dec : EqDecision PrecisionV1.
Proof. solve_decision. Defined.
#[export] Instance LayoutClassV2_eq_dec : EqDecision LayoutClassV2.
Proof. solve_decision. Defined.

Record ReceiverBeginExpectationsV1 := mkReceiverBeginExpectationsV1 {
  rb_cached_token_count : Z;
  rb_endpoints : EndpointIdentityV1;
  rb_geometry : GeometryV1;
  rb_identity : ExactIdentityV1;
  rb_portable_abi : bytes;
  rb_precision : PrecisionV1;
  rb_strategy : HandoffStrategyV1;
  rb_token_ids_sha256 : bytes;
  rb_layout_table : list LayoutClassV2
}.
Definition expectations_validate_for (e : ReceiverBeginExpectationsV1) (begin : BeginManifestV1) : hresult unit :=
  if rb_cached_token_count e =? u32_bound - 1 then
    invalid "armed prompt token count overflows at its boundary token" else
  if negb (bm_cached_token_count begin =? rb_cached_token_count e)
     || negb (bool_decide (bm_endpoints begin = rb_endpoints e))
     || negb (bool_decide (bm_geometry begin = rb_geometry e))
     || negb (bool_decide (bm_identity begin = rb_identity e))
     || negb (bytes_eqb (bm_portable_abi begin) (rb_portable_abi e))
     || negb (bool_decide (bm_precision begin = rb_precision e))
     || negb (bool_decide (bm_strategy begin = rb_strategy e))
     || negb (bytes_eqb (bm_token_ids_sha256 begin) (rb_token_ids_sha256 e))
     || negb (bool_decide (bm_layout_table begin = rb_layout_table e))
     || negb (bytes_eqb (bm_protocol begin) LIVE_HANDOFF_PROTOCOL_V1)
     || negb (bm_schema_version begin =? LIVE_HANDOFF_SCHEMA_V1)
     || is_v2 begin && negb (bytes_eqb (bm_portable_abi begin) PORTABLE_KV_ABI_V2
                             || bytes_eqb (bm_portable_abi begin) PORTABLE_KV_ABI_V2_PREROPE)
     || negb (is_v2 begin) && negb (bytes_eqb (rb_portable_abi e) PORTABLE_KV_ABI_V1)
     || negb (bool_decide (rb_strategy e = ConsumerLastPromptToken)) then
    invalid "BEGIN does not match the complete armed fixture and identity tuple"
  else Ok tt.

(** The part of [ReceiverConfigV1] the session reads. *)
Record ReceiverConfigV1 := mkReceiverConfigV1 {
  rc_frame_limits : FrameLimits;
  rc_validation_limits : ValidationLimits;
  rc_begin : ReceiverBeginExpectationsV1;
  rc_mac_key : option MacKey
}.
Definition validation_limits_at (limits : ValidationLimits) (now_unix_ms : Z) : ValidationLimits :=
  mkValidationLimits (vl_max_cached_tokens limits) (vl_max_clock_skew_ms limits) (vl_max_context_tokens limits)
    (vl_max_frame_bytes limits) (vl_max_layers limits) (vl_max_session_ms limits) (vl_max_total_bytes limits)
    now_unix_ms.

(** ** The sink (sink.rs) *)
(** A sink may keep a [LayerReadyV1] past the call, and its permit with it:
    [sink_permits] are the permits it holds, and [sink_drain] is the state its
    own threads reach, without a call, once they have released one; [None] if
    they never do. *)
Record ReceiverSinkV1 (S : Type) := mkReceiverSinkV1 {
  sink_begin : BeginManifestV1 → stateful S unit;
  sink_layer_ready : LayerReadyV1 → stateful S unit;
  sink_seal_verified : VerifiedSealV1 → stateful S unit;
  sink_abort : S → S;
  sink_permits : S → gset Z;
  sink_drain : S → option S
}.
Arguments mkReceiverSinkV1 {S}.
Arguments sink_begin {S}. Arguments sink_layer_ready {S}.
Arguments sink_seal_verified {S}. Arguments sink_abort {S}.
Arguments sink_permits {S}. Arguments sink_drain {S}.
(** It drops every layer it is given. *)
Definition BundleOnlyReceiverSinkV1 : ReceiverSinkV1 unit :=
  mkReceiverSinkV1 (λ _, st_ret tt) (λ _, st_ret tt) (λ _, st_ret tt) (λ s, s) (λ _, ∅) Some.

(** ** Interrupts (interrupt.rs) *)
Inductive interrupt_reason := INTERRUPT_NONE | INTERRUPT_CANCELLED | INTERRUPT_DEADLINE.
Definition interrupt_check (reasons : list interrupt_reason) : hresult unit * list interrupt_reason :=
  match reasons with
  | [] => (Ok tt, [])
  | INTERRUPT_NONE :: reasons => (Ok tt, reasons)
  | INTERRUPT_CANCELLED :: _ => (Err Cancelled, reasons)
  | INTERRUPT_DEADLINE :: _ => (Err DeadlineExceeded, reasons)
  end.

(** ** The session *)
Inductive ReceiverSessionStateV1 := AwaitBegin | Receiving | SealVerified | Published | Aborted.
Record ReceiverReceiptV1 := mkReceiverReceiptV1 {
  rr_artifact_sha256 : bytes;
  rr_cached_token_count : Z;
  rr_layer_frames : Z;
  rr_payload_bytes : Z;
  rr_state : ReceiverSessionStateV1;
  rr_transfer_id : bytes
}.
Record Session (S : Type) := mkSession {
  se_reader : FrameReader;
  se_out : bytes;
  se_fs : Fs;
  se_coordinator : option StreamingCoordinatorV1;
  se_sink : S;
  se_state : ReceiverSessionStateV1;
  se_transfer_id : option bytes;
  se_interrupts : list interrupt_reason
}.
Arguments mkSession {S}. Arguments se_reader {S}. Arguments se_out {S}. Arguments se_fs {S}.
Arguments se_coordinator {S}. Arguments se_sink {S}. Arguments se_state {S}.
Arguments se_transfer_id {S}. Arguments se_interrupts {S}.

(** The connection to the peer: whether writing a frame after the bytes written
    so far fails, and then how much of it went out. *)
Class PeerSocket := write_fault : bytes → bytes → option (nat * HandoffError).

Section session.
Context `{Crypto} `{JsonText} `{PS : PeerSocket} {S : Type} (sink : ReceiverSinkV1 S) (config : ReceiverConfigV1).
Notation run := (stateful (Session S)).
Local Open Scope stateful_scope.

Definition session_start (input : bytes) (fs : Fs) (s : S) (reasons : list interrupt_reason) : Session S :=
  mkSession (FrameReader_new input (rc_frame_limits config)) [] fs None s AwaitBegin None reasons.

Definition check : run unit := λ s,
  let '(r, reasons) := interrupt_check (se_interrupts s) in
  (r, mkSession (se_reader s) (se_out s) (se_fs s) (se_coordinator s) (se_sink s) (se_state s)
        (se_transfer_id s) reasons).
Definition on_reader {A} (m : FrameReader → hresult A * FrameReader) : run A := λ s,
  let '(r, reader) := m (se_reader s) in
  (r, mkSession reader (se_out s) (se_fs s) (se_coordinator s) (se_sink s) (se_state s)
        (se_transfer_id s) (se_interrupts s)).
Definition on_sink {A} (m : stateful S A) : run A := λ s,
  let '(r, x) := m (se_sink s) in
  (r, mkSession (se_reader s) (se_out s) (se_fs s) (se_coordinator s) x (se_state s)
        (se_transfer_id s) (se_interrupts s)).
(** [coordinator.as_mut().expect(..)] *)
Definition on_coordinator {A} (m : coordinating A) : run A := λ s,
  match se_coordinator s with
  | None => (Panic "coordinator created before receiving", s)
  | Some c =>
      let '(r, (c, fs)) := m (c, se_fs s) in
      (r, mkSession (se_reader s) (se_out s) fs (Some c) (se_sink s) (se_state s)
            (se_transfer_id s) (se_interrupts s))
  end.
Definition create_coordinator (begin : BeginManifestV1) (limits : ValidationLimits) : run unit := λ s,
  match coordinator_create begin limits (se_fs s) with
  | (Ok c, fs) => (Ok tt, mkSession (se_reader s) (se_out s) fs (Some c) (se_sink s) (se_state s)
                     (se_transfer_id s) (se_interrupts s))
  | (Err e, fs) => (Err e, mkSession (se_reader s) (se_out s) fs None (se_sink s) (se_state s)
                      (se_transfer_id s) (se_interrupts s))
  | (Panic w, fs) => (Panic w, mkSession (se_reader s) (se_out s) fs None (se_sink s) (se_state s)
                        (se_transfer_id s) (se_interrupts s))
  end.
Definition set_state (state : ReceiverSessionStateV1) : run unit :=
  st_modify (λ s, mkSession (se_reader s) (se_out s) (se_fs s) (se_coordinator s) (se_sink s) state
                    (se_transfer_id s) (se_interrupts s)).
Definition set_transfer_id (id : bytes) : run unit :=
  st_modify (λ s, mkSession (se_reader s) (se_out s) (se_fs s) (se_coordinator s) (se_sink s) (se_state s)
                    (Some id) (se_interrupts s)).
Definition send (frame : Frame) : run unit := λ s,
  match write_frame frame (rc_frame_limits config) with
  | Ok b =>
      let wrote out := mkSession (se_reader s) (se_out s ++ out) (se_fs s) (se_coordinator s) (se_sink s)
                         (se_state s) (se_transfer_id s) (se_interrupts s) in
      match write_fault (se_out s) b with
      | None => (Ok tt, wrote b)
      | Some (n, e) => (Err e, wrote (take n b))
      end
  | Err e => (Err e, s)
  | Panic w => (Panic w, s)
  end.

(** [LayerPermitPoolV1::experiment_v2]: the permits in use are the sink's and
    the one of a K plane that waits for its V plane; the pool has a permit
    exactly when fewer than its capacity are live ([pool_step] above). *)
Definition EXPERIMENT_PERMITS : nat := 2.
Definition permits_in_use (s : Session S) : gset Z :=
  sink_permits sink (se_sink s) ∪
  match se_coordinator s ≫= co_pending_key with Some key => {[pk_permit key]} | None => ∅ end.
Definition permit_free (s : Session S) : bool := (size (permits_in_use s) <? EXPERIMENT_PERMITS)%nat.
(** A wait that nobody ends: the call does not return.  No other step has this result. *)
Definition blocked {A} : hresult A := Panic "waits for ever for a layer permit".
(** [acquire] waits, also past an interrupt, until a permit is released. *)
Definition acquire (token : Z) : run Z := λ s,
  if permit_free s then (Ok token, s) else
  match sink_drain sink (se_sink s) with
  | None => (blocked, s)
  | Some x =>
      let s := mkSession (se_reader s) (se_out s) (se_fs s) (se_coordinator s) x (se_state s)
                 (se_transfer_id s) (se_interrupts s) in
      (if permit_free s then Ok token else blocked, s)
  end.

(** BEGIN: the limits take the time of receipt. *)
Definition receive_begin (now_unix_ms : Z) : run (BeginManifestV1 * ValidationLimits) :=
  check ;;
  header <- on_reader read_header ;
  check ;;
  match header with
  | HBegin _ =>
      frame <- on_reader read_payload ;
      match frame with
      | FBegin begin =>
          let session_limits := validation_limits_at (rc_validation_limits config) now_unix_ms in
          st_lift (begin_validate begin session_limits) ;;
          st_lift (expectations_validate_for (rc_begin config) begin) ;;
          set_transfer_id (bm_transfer_id begin) ;;
          on_sink (sink_begin sink begin) ;;
          create_coordinator begin session_limits ;;
          set_state Receiving ;;
          st_ret (begin, session_limits)
      | _ => st_lift (Panic "decoded BEGIN header must produce BEGIN frame")
      end
  | _ => st_lift (invalid "first live handoff frame must be BEGIN")
  end.

(** One layer frame; the permit of a K plane is the token of its sequence number. *)
Definition receive_layer (sequence : Z) : run unit :=
  check ;;
  header <- on_reader read_header ;
  permit <-
    (match header with
     | HLayer layer =>
         if lh_sequence layer =? sequence then
           on_coordinator (s <- st_get ; st_lift (coordinator_validate_next_header s.1 layer)) ;;
           if bool_decide (lh_role layer = Key) then permit <- acquire sequence ; st_ret (Some permit)
           else st_ret None
         else st_lift (invalid "expected ordered layer frame {sequence}")
     | HAbort _ => st_lift (invalid "producer aborted handoff with code {}")
     | _ => st_lift (invalid "expected ordered layer frame {sequence}")
     end) ;
  frame <- on_reader read_payload ;
  match frame with
  | FLayer header payload =>
      check ;;
      event <- on_coordinator (ingest_plane header payload permit) ;
      match event with
      | Some layer => on_sink (sink_layer_ready sink layer)
      | None => st_ret tt
      end
  | _ => st_lift (Panic "decoded layer header must produce layer frame")
  end.
Fixpoint receive_layers (sequences : list Z) : run unit :=
  match sequences with
  | [] => st_ret tt
  | sequence :: sequences => receive_layer sequence ;; receive_layers sequences
  end.

(** SEAL and HMAC, up to the last check before publication. *)
Definition receive_terminal (begin : BeginManifestV1) : run SealManifestV1 :=
  terminal <- on_reader read_header ;
  check ;;
  match terminal with
  | HSeal _ =>
      frame <- on_reader read_payload ;
      match frame with
      | FSeal seal =>
          verified_seal <- on_coordinator (verify_and_prepare_seal seal) ;
          check ;;
          match rc_mac_key config with
          | Some key =>
              if bool_decide (bm_hmac_key_id begin = None) then
                st_lift (invalid "receiver armed for artifact HMAC but begin declares no hmac_key_id")
              else on_coordinator (s <- st_get ; st_lift (coordinator_authenticate s.1 verified_seal key))
          | None => st_ret tt
          end ;;
          set_state SealVerified ;;
          on_sink (sink_seal_verified sink verified_seal) ;;
          check ;;
          st_ret seal
      | _ => st_lift (Panic "decoded SEAL header must produce SEAL frame")
      end
  | _ => st_lift (invalid "expected terminal SEAL after all layer frames")
  end.
(** Publication, reopening and acknowledgement. *)
Definition acknowledge (begin : BeginManifestV1) (session_limits : ValidationLimits) (seal : SealManifestV1)
  : run ReceiverReceiptV1 :=
  s <- st_get ;
  opened <- st_lift (dir ← ok_or (fs_final (se_fs s)) (Io "NotFound"); open_verified dir session_limits) ;
  st_lift (into_inner (se_reader s)) ;;
  send (FAck (AckManifestV1_committed begin seal)) ;;
  check ;;
  set_state Published ;;
  st_ret (mkReceiverReceiptV1 (sm_artifact_sha256 opened.2) (bm_cached_token_count begin)
    (bm_expected_layer_frames begin) (bm_expected_payload_bytes begin) Published (bm_transfer_id begin)).
Definition receive_seal (begin : BeginManifestV1) (session_limits : ValidationLimits) : run ReceiverReceiptV1 :=
  seal <- receive_terminal begin ;
  on_coordinator coordinator_publish ;;
  acknowledge begin session_limits seal.
Definition receive_session (now_unix_ms : Z) : run ReceiverReceiptV1 :=
  b <- receive_begin now_unix_ms ;
  receive_layers (seqZ 0 (bm_expected_layer_frames b.1)) ;;
  receive_seal b.1 b.2.

(** The abort path: sink, coordinator, and an ABORT frame when BEGIN was accepted;
    errors of the last two are dropped. *)
Definition abort_session (s : Session S) : Session S :=
  let s := (set_state Aborted s).2 in
  let s := mkSession (se_reader s) (se_out s) (se_fs s) (se_coordinator s) (sink_abort sink (se_sink s))
             (se_state s) (se_transfer_id s) (se_interrupts s) in
  let s := match se_coordinator s with Some _ => (on_coordinator coordinator_abort s).2 | None => s end in
  match se_transfer_id s with
  | Some id =>
      (send (FAbort (mkAbortManifestV1 (str "receiver_rejected") LIVE_HANDOFF_PROTOCOL_V1
                       LIVE_HANDOFF_SCHEMA_V1 id)) s).2
  | None => s
  end.
(** [interrupt.normalize(receive_result)] and the final match. *)
Definition receive_one (now_unix_ms : Z) : run ReceiverReceiptV1 := λ s,
  let '(r, s) := receive_session now_unix_ms s in
  let '(c, s) := check s in
  match c, r with
  | Ok _, Ok receipt => (Ok receipt, s)
  | Ok _, Err e => (Err e, abort_session s)
  | Err e, _ => (Err e, abort_session s)
  | Panic w, _ | _, Panic w => (Panic w, s)
  end.
End session.
