(* ===== verification/HandoffSessionLaws.v ===== *)
(** * Laws of the coordinator and of the receiver session

    What a successful session did: it read exactly the frames of an accepted
    stream, published a bundle that reopens to it, and acknowledged it. *)
From Stdlib Require Import ZArith Lia.
From stdpp Require Import base tactics numbers list strings option sorting gmap.
From S2P Require Import Prelude Bytes Canonical Crypto HandoffJson HandoffMac HandoffManifest.
From S2P Require Import HandoffLayout HandoffValidation HandoffLayoutLaws HandoffValidationLaws.
From S2P Require Import HandoffFrame HandoffVerify HandoffBundle HandoffSession.

(** ** The permit pool *)
Definition pool_inv (capacity : Z) (s : PermitPool * gset Z) : Prop :=
  let '(p, live) := s in
  pp_capacity p = capacity ∧ 0 < capacity ≤ 64 ∧
  ps_in_use (pp_state p) = Z.of_nat (size live) ∧
  ps_available (pp_state p) + ps_in_use (pp_state p) = capacity ∧ 0 ≤ ps_available (pp_state p).
Lemma pool_step_inv capacity s s' : pool_inv capacity s → pool_step s s' → pool_inv capacity s'.
Proof.
  intros Hi Hs. destruct Hs as [p p' live token Hp Ht|p live Hp|p live token Ht|p live token Ht]; try done;
  unfold pool_inv in *; destruct Hi as (Hc & Hb & Hu & Ha & Hn).
  - unfold try_acquire in Hp. destruct (Z.eqb_spec (ps_available (pp_state p)) 0); [done|]. injection Hp as <-.
    simpl. rewrite size_union, size_singleton by set_solver. split_and!; lia.
  - unfold release_inner, saturating_add. simpl.
    assert (size (live ∖ {[token]}) = size live - 1)%nat as ->.
    { rewrite size_difference, size_singleton by set_solver. lia. }
    assert (0 < size live)%nat.
    { enough (size live ≠ 0)%nat by lia. rewrite size_non_empty_iff. set_solver. }
    unfold u64_bound. split_and!; lia.
Qed.
Lemma pool_reachable_inv capacity s : 0 ≤ capacity → pool_reachable capacity s → pool_inv capacity s.
Proof.
  intros H0. induction 1 as [p Hp|s s' _ IH Hs].
  - unfold pool_new in Hp. destruct (_ || _) eqn:E; [done|]. bools. injection Hp as <-. simpl.
    split_and!; lia || done.
  - by eapply pool_step_inv.
Qed.

Section session.
Context `{CL : CryptoLaws} `{JL : JsonTextLaws}.
Implicit Types (begin : BeginManifestV1) (limits : ValidationLimits) (planes : plane_stream).

(** ** The coordinator runs the stager *)
Lemma on_stager_Ok {A} (m : staging A) s a s' : on_stager m s = (Ok a, s') →
  ∃ b fs, m (co_stager s.1, s.2) = (Ok a, (b, fs)) ∧
    s' = (mkStreamingCoordinatorV1 b (co_pending_key s.1) (co_ready_layers s.1) (co_terminal_prepared s.1), fs).
Proof. unfold on_stager. destruct (m _) as [r [b fs]] eqn:E. intros [= -> <-]. eauto. Qed.
Lemma check_ready_cursor_Ok l q s u s' : check_ready_cursor l q s = (Ok u, s') →
  co_stager s'.1 = co_stager s.1 ∧ co_pending_key s'.1 = co_pending_key s.1 ∧
  co_terminal_prepared s'.1 = co_terminal_prepared s.1 ∧ s'.2 = s.2.
Proof. unfold check_ready_cursor, set_ready. intros Hc. st_inv. done. Qed.
Lemma ready_Ok pair permit s ev s' : ready pair permit s = (Ok ev, s') →
  co_stager s'.1 = co_stager s.1 ∧ co_terminal_prepared s'.1 = co_terminal_prepared s.1 ∧ s'.2 = s.2.
Proof.
  unfold ready. intros Hr. st_inv. rename select (check_ready_cursor _ _ _ = _) into Hc.
  apply check_ready_cursor_Ok in Hc as (? & ? & ? & ?). done.
Qed.

(** The stager half of [ingest_plane] is [ingest]. *)
Lemma ingest_split h p s b1 fs1 plane s1 b2 fs2 u :
  on_verifier (λ v, verify_plane v h p) s = (Ok plane, (b1, fs1)) →
  write_verified plane (b1, fs1) = (Ok u, (b2, fs2)) → s1 = (b2, fs2) →
  ingest h p s = (Ok u, s1).
Proof. intros H1 H2 ->. unfold ingest, st_bind. by rewrite H1, H2. Qed.
Lemma ingest_plane_Ok h p permit c fs ev c' fs' :
  ingest_plane h p permit (c, fs) = (Ok ev, (c', fs')) →
  ∃ u b, ingest h p (co_stager c, fs) = (Ok u, (b, fs')) ∧ co_stager c' = b ∧
    co_terminal_prepared c = false ∧ co_terminal_prepared c' = false.
Proof.
  unfold ingest_plane. intros Hi. apply st_bind_Ok in Hi as (s0 & s0' & Hg & Hi).
  unfold st_get in Hg. injection Hg as <- <-. cbn [fst snd] in Hi.
  destruct (co_terminal_prepared c) eqn:Ht; [done|].
  destruct (lh_role h), permit as [permit|]; try done; st_inv;
    repeat match goal with H : on_stager _ _ = (Ok _, _) |- _ => apply on_stager_Ok in H as (? & ? & H & ->) end;
    cbn [fst snd co_stager co_pending_key co_terminal_prepared] in *.
  - rename select (write_verified _ _ = _) into Hw. rename select (on_verifier _ _ = _) into Hv.
    match goal with H : (if ?b then _ else _) _ = _ |- _ => rename H into He; destruct b end.
    + st_inv. rename select (ready _ _ _ = _) into Hr. apply ready_Ok in Hr as (E1 & E2 & E3).
      cbn [fst snd co_stager co_terminal_prepared] in *. subst fs'.
      eexists _, _. split; [by eapply ingest_split|]. rewrite E2, Ht. done.
    + destruct (co_pending_key c); [done|]. unfold set_pending in He. st_inv. cbn [fst snd co_stager] in *. simplify_eq.
      eexists _, _. split; [by eapply ingest_split|]. cbn [co_stager co_terminal_prepared]. done.
  - rename select (write_verified _ _ = _) into Hw. rename select (on_verifier _ _ = _) into Hv.
    rename select (ready _ _ _ = _) into Hr. apply ready_Ok in Hr as (E1 & E2 & E3).
    unfold set_pending in *. st_inv. cbn [fst snd co_stager co_terminal_prepared] in *. subst fs'.
    eexists _, _. split; [by eapply ingest_split|]. rewrite E2, Ht. done.
Qed.

Lemma prepare_Ok begin limits planes seal c fs w c' fs' :
  co_stager c = receiving begin limits planes →
  fs_staging fs = Some (staged_dir begin planes (begin_root begin)) →
  verify_and_prepare_seal seal (c, fs) = (Ok w, (c', fs')) →
  seal_validate_for seal begin planes.*1 (total_bytes planes) (sha256_hex (all_payload planes)) = Ok tt ∧
  vs_seal w = seal ∧ bs_prepared (co_stager c') = Some seal ∧
  iv_begin (bs_verifier (co_stager c')) = begin ∧ iv_headers (bs_verifier (co_stager c')) = planes.*1 ∧
  fs_staging fs' = Some (staged_dir begin planes
    (<[str "seal.json" := json_of serde_SealManifestV1 seal]> (begin_root begin))).
Proof.
  intros Hc Hst Hp. unfold verify_and_prepare_seal in Hp. st_inv.
  repeat match goal with H : on_stager _ _ = (Ok _, _) |- _ => apply on_stager_Ok in H as (? & ? & H & ->) end.
  cbn [fst snd co_stager] in *. rename select (on_verifier _ _ = _) into Hv. rewrite Hc in Hv.
  apply on_verifier_Ok in Hv as (v & Hv & [= -> ->]). unfold verify_seal in Hv. cbn [fst bs_verifier receiving] in Hv.
  apply commit_Ok, verify_seal_iff in Hv as (Hval & -> & ->).
  rename select (prepare_shared_seal _ _ = _) into Hs. unfold prepare_shared_seal in Hs. st_inv. cbn [vs_seal] in *.
  rename select (write_prepared_seal _ _ = _) into Hw. eapply write_prepared_seal_Ok in Hw as (Hb & Hs & _); [|done].
  cbn [fst snd] in *. simplify_eq. done.
Qed.

(** ** One step of the session *)
Context `{PS : PeerSocket} {S : Type} (sink : ReceiverSinkV1 S) (config : ReceiverConfigV1) (now : Z).
Let limits0 := validation_limits_at (rc_validation_limits config) now.

Lemma check_Ok (s : Session S) u s' : check s = (Ok u, s') →
  se_reader s' = se_reader s ∧ se_out s' = se_out s ∧ se_fs s' = se_fs s ∧ se_coordinator s' = se_coordinator s.
Proof. unfold check. destruct (interrupt_check _). intros [= -> <-]. done. Qed.
Lemma on_reader_Ok {A} (m : FrameReader → hresult A * FrameReader) (s : Session S) a s' :
  on_reader m s = (Ok a, s') → m (se_reader s) = (Ok a, se_reader s') ∧ se_out s' = se_out s ∧
    se_fs s' = se_fs s ∧ se_coordinator s' = se_coordinator s.
Proof. unfold on_reader. destruct (m _) eqn:E. intros [= -> <-]. done. Qed.
Lemma on_sink_Ok {A} (m : stateful S A) (s : Session S) a s' : on_sink m s = (Ok a, s') →
  se_reader s' = se_reader s ∧ se_out s' = se_out s ∧ se_fs s' = se_fs s ∧ se_coordinator s' = se_coordinator s.
Proof. unfold on_sink. destruct (m _). intros [= -> <-]. done. Qed.
Lemma on_coordinator_Ok {A} (m : coordinating A) (s : Session S) a s' : on_coordinator m s = (Ok a, s') →
  ∃ c c', se_coordinator s = Some c ∧ m (c, se_fs s) = (Ok a, (c', se_fs s')) ∧ se_coordinator s' = Some c' ∧
    se_reader s' = se_reader s ∧ se_out s' = se_out s.
Proof.
  unfold on_coordinator. destruct (se_coordinator s) as [c|]; [|done]. destruct (m _) as [r [c' fs]] eqn:E.
  intros [= -> <-]. by exists c, c'.
Qed.
Lemma acquire_Ok token (s : Session S) a s' : acquire sink token s = (Ok a, s') → a = token ∧
  se_reader s' = se_reader s ∧ se_out s' = se_out s ∧ se_fs s' = se_fs s ∧ se_coordinator s' = se_coordinator s.
Proof.
  unfold acquire. destruct (permit_free sink s); [by intros [= <- <-]|]. destruct (sink_drain _ _); [|done].
  destruct (permit_free _ _); [|done]. by intros [= <- <-].
Qed.
Lemma permit_Ok (b : bool) token (s : Session S) a s' :
  (if b then (permit <- acquire sink token ; st_ret (Some permit))%stateful else st_ret None) s = (Ok a, s') →
  se_reader s' = se_reader s ∧ se_out s' = se_out s ∧ se_fs s' = se_fs s ∧ se_coordinator s' = se_coordinator s.
Proof.
  destruct b; [|by intros [= <- <-]]. unfold st_bind. destruct (acquire _ _ _) as [[x| |] s1] eqn:E; [|done..].
  apply acquire_Ok in E as (_ & ?). unfold st_ret. by intros [= <- <-].
Qed.
Lemma set_state_Ok st (s : Session S) u s' : set_state st s = (Ok u, s') →
  se_reader s' = se_reader s ∧ se_out s' = se_out s ∧ se_fs s' = se_fs s ∧
  se_coordinator s' = se_coordinator s ∧ se_state s' = st.
Proof. unfold set_state, st_modify. intros [= <- <-]. done. Qed.
Lemma set_transfer_Ok id (s : Session S) u s' : set_transfer_id id s = (Ok u, s') →
  se_reader s' = se_reader s ∧ se_out s' = se_out s ∧ se_fs s' = se_fs s ∧ se_coordinator s' = se_coordinator s.
Proof. unfold set_transfer_id, st_modify. intros [= <- <-]. done. Qed.

(** Header and payload together are one frame of the stream. *)
Lemma read_both r h r1 f r2 : fr_pending r = None → bytes_ok (fr_reader r) →
  read_header r = (Ok h, r1) → read_payload r1 = (Ok f, r2) →
  frame_ok f ∧ frame_header f = h ∧ r2 = FrameReader_new (fr_reader r2) (fr_limits r) ∧ bytes_ok (fr_reader r2) ∧
  ∃ w, write_frame f (fr_limits r) = Ok w ∧ fr_reader r = w ++ fr_reader r2.
Proof.
  intros Hp Hb Hh Hpl. destruct r as [rd lim pe]. cbn [fr_pending fr_reader fr_limits] in *. subst pe.
  assert (read_frame rd lim = (Ok f, fr_reader r2)) as Hf.
  { unfold read_frame, FrameReader_new. rewrite Hh, Hpl. done. }
  pose proof (read_frame_sound _ _ _ _ Hb Hf) as (Hok & w & Hw & ->). split; [done|].
  pose proof (read_header_complete f lim w (fr_reader r2) Hok Hw) as Hc. unfold FrameReader_new in Hc.
  rewrite Hc in Hh. injection Hh as <- <-. rewrite read_payload_complete in Hpl. injection Hpl as <-.
  apply bytes_ok_app in Hb as [_ Hb]. split; [done|]. split; [done|]. split; [done|]. by exists w.
Qed.

Lemma create_coordinator_Ok begin limits (s : Session S) u s' : create_coordinator begin limits s = (Ok u, s') →
  begin_validate begin limits = Ok tt ∧ se_reader s' = se_reader s ∧ se_out s' = se_out s ∧
  se_coordinator s' = Some (mkStreamingCoordinatorV1 (receiving begin limits []) None 0 false) ∧
  fs_staging (se_fs s') = Some (staged_dir begin [] (begin_root begin)).
Proof.
  unfold create_coordinator. destruct (coordinator_create _ _ _) as [[c| |] fs] eqn:E; [|done..]. intros [= <- <-].
  unfold coordinator_create in E. st_inv. rename select (stager_create _ _ _ = _) into Hc.
  apply create_Ok in Hc as (? & -> & ? & _). done.
Qed.
Ltac session_inv :=
  repeat match goal with
  | H : check _ = _ |- _ => apply check_Ok in H as (? & ? & ? & ?)
  | H : on_sink _ _ = _ |- _ => apply on_sink_Ok in H as (? & ? & ? & ?)
  | H : set_state _ _ = _ |- _ => apply set_state_Ok in H as (? & ? & ? & ? & ?)
  | H : set_transfer_id _ _ = _ |- _ => apply set_transfer_Ok in H as (? & ? & ? & ?)
  | H : on_reader _ _ = _ |- _ => apply on_reader_Ok in H as (? & ? & ? & ?)
  | H : create_coordinator _ _ _ = _ |- _ => apply create_coordinator_Ok in H as (? & ? & ? & ? & ?)
  | H : on_coordinator _ _ = _ |- _ => apply on_coordinator_Ok in H as (? & ? & ? & ? & ? & ? & ?)
  end.

Lemma receive_begin_Ok s b s' :
  fr_pending (se_reader s) = None → fr_limits (se_reader s) = rc_frame_limits config →
  bytes_ok (fr_reader (se_reader s)) →
  receive_begin sink config now s = (Ok b, s') →
  ∃ begin w, b = (begin, limits0) ∧ typed_as serde_BeginManifestV1 begin ∧
    write_frame (FBegin begin) (rc_frame_limits config) = Ok w ∧
    fr_reader (se_reader s) = w ++ fr_reader (se_reader s') ∧ bytes_ok (fr_reader (se_reader s')) ∧
    se_reader s' = FrameReader_new (fr_reader (se_reader s')) (rc_frame_limits config) ∧ se_out s' = se_out s ∧
    begin_validate begin limits0 = Ok tt ∧ expectations_validate_for (rc_begin config) begin = Ok tt ∧
    (∃ c, se_coordinator s' = Some c ∧ co_stager c = receiving begin limits0 [] ∧ co_terminal_prepared c = false) ∧
    fs_staging (se_fs s') = Some (staged_dir begin [] (begin_root begin)).
Proof.
  intros Hp Hl Hb Hr. unfold receive_begin in Hr. st_inv.
  match goal with H : match ?h with HBegin _ => _ | _ => _ end _ = _ |- _ => destruct h; try done; st_inv end.
  match goal with H : match ?h with FBegin _ => _ | _ => _ end _ = _ |- _ => destruct h; try done; st_inv end.
  session_inv. rename select (read_header _ = _) into Hh. rename select (read_payload _ = _) into Hpl.
  match type of Hpl with read_payload ?r = _ => match type of Hh with _ = (_, ?r') =>
    replace r with r' in Hpl by congruence end end.
  match type of Hh with read_header ?r = _ => replace r with (se_reader s) in Hh by congruence end.
  destruct (read_both _ _ _ _ _ Hp Hb Hh Hpl) as (Hok & _ & Hr2 & Hb2 & w & Hw & Hrd). rewrite Hl in *.
  match type of Hpl with _ = (_, ?r) => replace (se_reader s') with r by congruence end.
  match goal with H : expectations_validate_for _ _ = Ok ?u |- _ => destruct u end.
  eexists _, w. split; [done|]. split_and!; try done; try congruence.
  match goal with H : se_coordinator _ = Some ?c |- _ => exists c; split_and!; [congruence|done..] end.
Qed.

(** The invariant of the layer loop. *)
Definition loop_inv begin planes (s : Session S) : Prop :=
  bytes_ok (fr_reader (se_reader s)) ∧
  se_reader s = FrameReader_new (fr_reader (se_reader s)) (rc_frame_limits config) ∧
  (∃ c, se_coordinator s = Some c ∧ co_stager c = receiving begin limits0 planes) ∧
  fs_staging (se_fs s) = Some (staged_dir begin planes (begin_root begin)) ∧
  holds begin (staged_layers begin planes) planes.

Lemma receive_layer_Ok begin planes i s u s' :
  loop_inv begin planes s → receive_layer sink i s = (Ok u, s') →
  ∃ h p w, frame_ok (FLayer h p) ∧ write_frame (FLayer h p) (rc_frame_limits config) = Ok w ∧
    fr_reader (se_reader s) = w ++ fr_reader (se_reader s') ∧ se_out s' = se_out s ∧
    plane_accepted begin limits0 (zlen planes) h p ∧
    verify_plane_next (verifier_after begin limits0 planes) h p =
      Ok (mkVerifiedPlaneV1 h p, verifier_after begin limits0 (planes ++ [(h, p)])) ∧
    loop_inv begin (planes ++ [(h, p)]) s'.
Proof.
  intros (Hb & Hrd & (c & Hc & Hst) & Hfs & Hholds) Hr. unfold receive_layer in Hr. st_inv.
  match goal with H : match ?f with FLayer _ _ => _ | _ => _ end _ = _ |- _ => destruct f as [|h p| | |]; try done; st_inv end.
  assert (∀ (ev : option LayerReadyV1) (s1 s2 : Session S) v,
    (match ev with Some layer => on_sink (sink_layer_ready sink layer) | None => st_ret tt end) s1 = (Ok v, s2) →
    se_reader s2 = se_reader s1 ∧ se_out s2 = se_out s1 ∧ se_fs s2 = se_fs s1 ∧ se_coordinator s2 = se_coordinator s1)
    as Hsink.
  { intros [ev|] s1 s2 v He; [by apply on_sink_Ok in He|]. unfold st_ret in He. by simplify_eq. }
  match goal with H : match ?ev with Some _ => on_sink _ | None => _ end _ = _ |- _ => apply Hsink in H as (? & ? & ? & ?) end.
  clear Hsink.
  match goal with H : match ?h with HLayer _ => _ | _ => _ end _ = (Ok ?pm, _) |- _ =>
    destruct h; try done; destruct (_ =? _); try done; st_inv end.
  match goal with H : (if bool_decide _ then _ else _) _ = _ |- _ => apply permit_Ok in H as (? & ? & ? & ?) end.
  session_inv.
  match goal with H : (_ <- st_get; st_lift _)%stateful _ = _ |- _ => rename H into Hv end. st_inv.
  match goal with H : st_lift _ _ = _ |- _ => unfold st_lift in H; injection H as ? ? ? end.
  rename select (read_header _ = _) into Hh. rename select (read_payload _ = _) into Hpl.
  rename select (ingest_plane _ _ _ _ = _) into Hi.
  match type of Hpl with read_payload ?r = _ => match type of Hh with _ = (_, ?r') =>
    replace r with r' in Hpl by congruence end end.
  match type of Hh with read_header ?r = _ => replace r with (se_reader s) in Hh by congruence end.
  assert (fr_pending (se_reader s) = None) as Hp by (rewrite Hrd; done).
  assert (fr_limits (se_reader s) = rc_frame_limits config) as Hl by (rewrite Hrd; done).
  destruct (read_both _ _ _ _ _ Hp Hb Hh Hpl) as (Hok & _ & Hr2 & Hb2 & w & Hw & Hrw). rewrite Hl in *.
  match type of Hpl with _ = (_, ?r) => replace (se_reader s') with r by congruence end.
  apply ingest_plane_Ok in Hi as (v & b & Hi & Hb' & _ & _).
  match type of Hi with ingest _ _ (co_stager ?c', ?f) = _ =>
    replace c' with c in Hi by congruence; replace f with (se_fs s) in Hi by congruence end.
  rewrite Hst in Hi. eapply ingest_Ok in Hi; [|done]. cbn [fst snd staged_dir d_root d_layers] in Hi.
  destruct Hi as (Ha & Hn & Ht & -> & Hs1 & _ & Hf1 & Hf2).
  exists h, p, w. split_and!; try done; [congruence|by apply verify_plane_iff|].
  unfold loop_inv. match type of Hpl with _ = (_, ?r) => replace (se_reader s') with r by congruence end.
  split_and!; try done.
  - match type of Hb' with co_stager ?c' = _ => exists c'; split; [congruence|done] end.
  - match goal with H : se_fs s' = _ |- _ => rewrite H end. rewrite Hs1. unfold staged_dir.
    by rewrite staged_layers_snoc.
  - rewrite staged_layers_snoc. by apply holds_snoc.
Qed.

(** ** The layer loop *)
(** The bytes a sender writes for a list of frames. *)
Definition written (frames : list Frame) (w : bytes) : Prop :=
  ∃ ws, Forall2 (λ f w, write_frame f (rc_frame_limits config) = Ok w) frames ws ∧ w = concat ws.
Definition layer_frames planes : list Frame := (λ p, FLayer p.1 p.2) <$> planes.
Lemma written_cons f frames w w' : write_frame f (rc_frame_limits config) = Ok w → written frames w' →
  written (f :: frames) (w ++ w').
Proof. intros Hf (ws & Hws & ->). exists (w :: ws). split; [by constructor|done]. Qed.

Lemma receive_layers_Ok begin planes sequences s u s' :
  loop_inv begin planes s → receive_layers sink sequences s = (Ok u, s') →
  ∃ planes' w, length planes' = length sequences ∧ Forall frame_ok (layer_frames planes') ∧
    written (layer_frames planes') w ∧ fr_reader (se_reader s) = w ++ fr_reader (se_reader s') ∧
    se_out s' = se_out s ∧
    verify_planes (verifier_after begin limits0 planes) planes' = Ok (verifier_after begin limits0 (planes ++ planes')) ∧
    loop_inv begin (planes ++ planes') s'.
Proof.
  revert planes s. induction sequences as [|i sequences IH]; intros planes s Hl Hr; cbn [receive_layers] in Hr.
  { st_inv. exists [], []. rewrite app_nil_r. split_and!; try done. by exists []. }
  st_inv. rename select (receive_layer _ _ _ = _) into H1. rename select (receive_layers _ _ _ = _) into H2.
  eapply receive_layer_Ok in H1 as (h & p & w & Hok & Hw & Hrd & Hout & _ & Hv & Hl'); [|done].
  eapply IH in H2 as (planes' & w' & Hlen & Hoks & Hw' & Hrd' & Hout' & Hv' & Hl''); [|done].
  rewrite <-app_assoc in *. exists ((h, p) :: planes'), (w ++ w'). split_and!; try done.
  - simpl. lia.
  - constructor; done.
  - by apply written_cons.
  - by rewrite <-app_assoc, <-Hrd'.
  - congruence.
  - unfold verify_planes in *. cbn [try_fold]. cbn [fst snd]. rewrite Hv. cbn [fmap outcome_fmap mbind outcome_bind].
    exact Hv'.
Qed.

(** ** SEAL, publication and acknowledgement *)
Lemma send_Ok f (s : Session S) u s' : send config f s = (Ok u, s') →
  ∃ w, write_frame f (rc_frame_limits config) = Ok w ∧ se_out s' = se_out s ++ w ∧
    se_reader s' = se_reader s ∧ se_fs s' = se_fs s.
Proof.
  unfold send. destruct (write_frame _ _) as [w| |] eqn:E; [|done..]. destruct (write_fault _ _) as [[]|]; [done|].
  intros [= _ <-]. by exists w.
Qed.
Lemma publish_Ok begin planes seal c fs u c' fs' :
  fs_staging fs = Some (staged_dir begin planes
    (<[str "seal.json" := json_of serde_SealManifestV1 seal]> (begin_root begin))) →
  bs_prepared (co_stager c) = Some seal → coordinator_publish (c, fs) = (Ok u, (c', fs')) →
  fs_staging fs' = None ∧ fs_final fs' = Some (staged_dir begin planes (bundle_root begin seal)).
Proof.
  intros Hs Hp Hc. unfold coordinator_publish in Hc. st_inv. rename select (on_stager _ _ = _) into Ho.
  apply on_stager_Ok in Ho as (b & fs1 & Ho & [= -> ->]). cbn [fst snd] in Ho.
  by eapply stager_publish_Ok in Ho as (? & ? & _).
Qed.
(** The HMAC step: nothing happens to the session. *)
Definition seal_authenticated begin planes (seal : SealManifestV1) : Prop :=
  ∀ key, rc_mac_key config = Some key →
    bm_hmac_key_id begin ≠ None ∧ authenticate_hmac seal begin planes.*1 key = Ok tt.

Lemma hmac_step_Ok begin planes (verified : VerifiedSealV1) c (s : Session S) u s' :
  se_coordinator s = Some c → iv_begin (bs_verifier (co_stager c)) = begin →
  iv_headers (bs_verifier (co_stager c)) = planes.*1 →
  (match rc_mac_key config with
   | Some key =>
       if bool_decide (bm_hmac_key_id begin = None) then
         st_lift (invalid "receiver armed for artifact HMAC but begin declares no hmac_key_id")
       else on_coordinator (s <- st_get ; st_lift (coordinator_authenticate s.1 verified key))%stateful
   | None => st_ret tt
   end) s = (Ok u, s') →
  seal_authenticated begin planes (vs_seal verified) ∧ se_reader s' = se_reader s ∧ se_out s' = se_out s ∧
  se_fs s' = se_fs s ∧ se_coordinator s' = se_coordinator s.
Proof.
  intros Hc Hbg Hhd Hm. unfold seal_authenticated. destruct (rc_mac_key config) as [key|].
  - case_bool_decide as Hk; [done|]. apply on_coordinator_Ok in Hm as (c1 & c2 & Hc1 & Ha & Hc2 & Hr & Ho).
    unfold st_bind, st_get, st_lift in Ha. injection Ha as Hx <- Hf. rewrite Hc in Hc1. injection Hc1 as <-.
    cbn [fst] in Hx. unfold coordinator_authenticate, authenticate_seal_hmac in Hx. rewrite Hhd, Hbg in Hx.
    rewrite Hc2, Hc. split_and!; try done. intros key' [= <-]. split; [done|]. by destruct u.
  - unfold st_ret in Hm. injection Hm as -> ->. done.
Qed.

Lemma receive_terminal_Ok begin planes s seal s' :
  loop_inv begin planes s → receive_terminal sink config begin s = (Ok seal, s') →
  ∃ w c, frame_ok (FSeal seal) ∧ write_frame (FSeal seal) (rc_frame_limits config) = Ok w ∧
    fr_reader (se_reader s) = w ++ fr_reader (se_reader s') ∧ fr_pending (se_reader s') = None ∧
    seal_validate_for seal begin planes.*1 (total_bytes planes) (sha256_hex (all_payload planes)) = Ok tt ∧
    seal_authenticated begin planes seal ∧ se_out s' = se_out s ∧
    se_coordinator s' = Some c ∧ bs_prepared (co_stager c) = Some seal ∧
    fs_staging (se_fs s') = Some (staged_dir begin planes
      (<[str "seal.json" := json_of serde_SealManifestV1 seal]> (begin_root begin))).
Proof.
  intros (Hb & Hrd & (c & Hc & Hst) & Hfs & Hholds) Hr. unfold receive_terminal in Hr. st_inv.
  match goal with H : match ?h with HSeal _ => _ | _ => _ end _ = _ |- _ => destruct h; try done; st_inv end.
  match goal with H : match ?h with FSeal _ => _ | _ => _ end _ = _ |- _ => destruct h as [| |sl| |]; try done; st_inv end.
  match goal with H : match rc_mac_key config with Some _ => _ | None => _ end _ = _ |- _ => rename H into Hm end.
  session_inv. rename select (verify_and_prepare_seal _ _ = _) into Hprep.
  rename select (read_header _ = _) into Hh. rename select (read_payload _ = _) into Hpl.
  match type of Hpl with read_payload ?r = _ => match type of Hh with _ = (_, ?r') =>
    replace r with r' in Hpl by congruence end end.
  assert (fr_pending (se_reader s) = None) as Hp by (rewrite Hrd; done).
  assert (fr_limits (se_reader s) = rc_frame_limits config) as Hl by (rewrite Hrd; done).
  destruct (read_both _ _ _ _ _ Hp Hb Hh Hpl) as (Hok & _ & Hr2 & Hb2 & w & Hw & Hrw). rewrite Hl in *.
  match type of Hprep with verify_and_prepare_seal _ (?c', ?f) = _ =>
    replace c' with c in Hprep by congruence; replace f with (se_fs s) in Hprep by congruence end.
  eapply prepare_Ok in Hprep as (Hval & Hws & Hbp & Hib & Hih & Hst'); [|done..].
  eapply hmac_step_Ok in Hm as (Hauth & ? & ? & ? & ?); [|by etrans|exact Hib|exact Hih]. rewrite Hws in Hauth.
  match type of Hbp with bs_prepared (co_stager ?c0) = _ => exists w, c0 end.
  match type of Hpl with _ = (_, ?r) => replace (se_reader s') with r by congruence end.
  rewrite Hr2. split_and!; try done; try congruence.
Qed.

Definition receipt begin artifact : ReceiverReceiptV1 :=
  mkReceiverReceiptV1 artifact (bm_cached_token_count begin) (bm_expected_layer_frames begin)
    (bm_expected_payload_bytes begin) Published (bm_transfer_id begin).
Lemma receive_seal_Ok begin planes s r s' :
  loop_inv begin planes s → receive_seal sink config begin limits0 s = (Ok r, s') →
  ∃ seal w ack, frame_ok (FSeal seal) ∧ write_frame (FSeal seal) (rc_frame_limits config) = Ok w ∧
    fr_reader (se_reader s) = w ++ fr_reader (se_reader s') ∧
    seal_validate_for seal begin planes.*1 (total_bytes planes) (sha256_hex (all_payload planes)) = Ok tt ∧
    seal_authenticated begin planes seal ∧
    write_frame (FAck (AckManifestV1_committed begin seal)) (rc_frame_limits config) = Ok ack ∧
    se_out s' = se_out s ++ ack ∧ se_state s' = Published ∧ fs_staging (se_fs s') = None ∧
    fs_final (se_fs s') = Some (staged_dir begin planes (bundle_root begin seal)) ∧
    ∃ opened, open_verified (staged_dir begin planes (bundle_root begin seal)) limits0 = Ok opened ∧
      r = receipt begin (sm_artifact_sha256 opened.2).
Proof.
  intros Hl Hr. unfold receive_seal, acknowledge in Hr. st_inv.
  rename select (receive_terminal _ _ _ _ = _) into Ht.
  eapply receive_terminal_Ok in Ht as (w & c & Hok & Hw & Hrd & _ & Hval & Hauth & Ho & Hc & Hbp & Hst); [|done].
  rename select (send _ _ _ = _) into Hsend. apply send_Ok in Hsend as (ack & Hack & Hout & Hsr & Hsf).
  session_inv. rename select (coordinator_publish _ = _) into Hpub.
  match type of Hpub with coordinator_publish (?c', _) = _ => replace c' with c in Hpub by congruence end.
  eapply publish_Ok in Hpub as [Hs1 Hf1]; [|done..].
  match goal with H : mbind _ (ok_or _ _) = Ok ?o |- _ => rewrite Hf1 in H; rename H into Hopen; rename o into opened end.
  eexists _, w, ack. split_and!; try done; try congruence. by exists opened.
Qed.

(** ** The whole session *)
(** The stream a session accepted, as its one-shot checks. *)
Record stream_accepted (begin : BeginManifestV1) planes (seal : SealManifestV1) : Prop := {
  sa_begin : begin_validate begin limits0 = Ok tt;
  sa_expected : expectations_validate_for (rc_begin config) begin = Ok tt;
  sa_planes : planes_accepted begin limits0 planes;
  sa_seal : seal_validate_for seal begin planes.*1 (total_bytes planes) (sha256_hex (all_payload planes)) = Ok tt;
  sa_hmac : seal_authenticated begin planes seal
}.
Definition stream_frames (begin : BeginManifestV1) planes (seal : SealManifestV1) : list Frame :=
  FBegin begin :: layer_frames planes ++ [FSeal seal].
Lemma written_app fs1 fs2 w1 w2 : written fs1 w1 → written fs2 w2 → written (fs1 ++ fs2) (w1 ++ w2).
Proof.
  intros (ws1 & H1 & ->) (ws2 & H2 & ->). exists (ws1 ++ ws2). split; [by apply Forall2_app|]. by rewrite concat_app.
Qed.
Lemma written_one f w : write_frame f (rc_frame_limits config) = Ok w → written [f] w.
Proof. intros Hf. exists [w]. simpl. rewrite app_nil_r. by repeat constructor. Qed.

Lemma receive_session_Ok input fs0 st0 reasons r s' :
  bytes_ok input →
  receive_session sink config now (session_start config input fs0 st0 reasons) = (Ok r, s') →
  ∃ begin planes seal w ack dir,
    input = w ++ fr_reader (se_reader s') ∧ written (stream_frames begin planes seal) w ∧
    stream_accepted begin planes seal ∧
    write_frame (FAck (AckManifestV1_committed begin seal)) (rc_frame_limits config) = Ok ack ∧ se_out s' = ack ∧
    se_state s' = Published ∧ fs_final (se_fs s') = Some dir ∧ fs_staging (se_fs s') = None ∧
    open_verified dir limits0 = Ok (begin, (λ p, mkVerifiedPlaneV1 p.1 p.2) <$> planes, seal) ∧
    r = receipt begin (sm_artifact_sha256 seal).
Proof.
  intros Hin Hr. unfold receive_session in Hr. st_inv. rename select (receive_begin _ _ _ _ = _) into Hbeg.
  rename select (receive_layers _ _ _ = _) into Hlay. rename select (receive_seal _ _ _ _ _ = _) into Hseal.
  apply receive_begin_Ok in Hbeg as (begin & w1 & -> & Hbt & Hw1 & Hr1 & Hb1 & Hrd1 & Ho1 & Hv & He & (c & Hc & Hcs & _) & Hfs);
    [|done..]. cbn [fst snd] in *.
  eapply (receive_layers_Ok begin []) in Hlay as (planes & w2 & Hlen & Hok & Hw2 & Hr2 & Ho2 & Hvp & Hl).
  2: { unfold loop_inv. split_and!; [done|done|by exists c|done|]. intros i h p Hi. by rewrite lookup_nil in Hi. }
  cbn [app] in *. pose proof Hl as (_ & _ & _ & _ & Hholds).
  eapply receive_seal_Ok in Hseal as (seal & w3 & ack & Hst & Hw3 & Hr3 & Hsv & Ha & Hack & Hout & Hpub & Hs1 & Hf1 & opened & Hop & ->);
    [|done].
  pose proof (begin_typed_counts _ Hbt) as (Hn & Heb & _).
  pose proof (begin_validate_ok _ _ (begin_typed_dims _ Hbt) Hn Hv) as Hacc.
  pose proof Hvp as Hpa. apply (verify_planes_iff begin limits0 planes) in Hpa as (Hpa & _ & _ & _);
    [|by apply totals_fit_nil].
  assert (Forall (λ p, typed_as serde_LayerHeaderV1 p.1) planes) as Ht.
  { unfold layer_frames in Hok. rewrite Forall_fmap in Hok. eapply list.Forall_impl; [exact Hok|]. by intros [h p] [? _]. }
  pose proof Hop as [_ ->]%(staged_reopens_iff begin limits0 planes seal opened); [|done..]. cbn [snd].
  exists begin, planes, seal, (w1 ++ w2 ++ w3), ack, (staged_dir begin planes (bundle_root begin seal)).
  split_and!; try done.
  - rewrite <-!app_assoc, <-Hr3, <-Hr2, <-Hr1. done.
  - unfold stream_frames. apply written_cons; [done|]. by apply written_app, written_one.
  - rewrite Hout, Ho2, Ho1. done.
Qed.
End session.

(** * The failure path of the receiver session

    Nothing but the rename of [publish] changes the final directory, so a
    session that fails, for whatever reason and at whatever point, leaves it
    as it was or holding a complete accepted stream. *)
(** ** Operations that keep a component of the state *)
Section keeps.
Context {St X : Type} (proj : St → X).
Definition keeps {A} (m : stateful St A) : Prop := ∀ s, proj (m s).2 = proj s.
Lemma keeps_bind {A B} (m : stateful St A) (f : A → stateful St B) :
  keeps m → (∀ a, keeps (f a)) → keeps (st_bind m f).
Proof.
  intros Hm Hf s. unfold st_bind. specialize (Hm s). destruct (m s) as [[a|e|w] s1]; [|done..].
  cbn [snd] in Hm. rewrite Hf. done.
Qed.
Lemma keeps_lift {A} (r : hresult A) : keeps (st_lift r).
Proof. done. Qed.
Lemma keeps_ret {A} (a : A) : keeps (st_ret a).
Proof. done. Qed.
Lemma keeps_get : keeps st_get.
Proof. done. Qed.
End keeps.
Create HintDb keeps.
#[export] Hint Resolve keeps_lift keeps_ret keeps_get : keeps.
(** Case analysis along the code, leaving the primitive operations. *)
Ltac keep :=
  repeat first
    [ progress (auto with keeps)
    | apply keeps_bind; [|intros ?]
    | match goal with
      | |- keeps _ (match ?x with _ => _ end) => destruct x
      | |- keeps _ (let '_ := ?x in _) => destruct x
      end ].

(** ** Which operations keep the final directory *)
Lemma next_fault_final fs : fs_final (next_fault fs).2 = fs_final fs.
Proof. unfold next_fault. by destruct (fs_faults fs). Qed.
Lemma write_new_sync_keeps pl name content : keeps fs_final (write_new_sync pl name content).
Proof.
  intros fs. unfold write_new_sync. destruct (fs_staging fs); [|done]. case_bool_decide; [done|].
  pose proof (next_fault_final fs). destruct (next_fault fs) as [[] ?]; done.
Qed.
Lemma sync_dir_keeps : keeps fs_final sync_dir.
Proof.
  intros fs. unfold sync_dir. destruct (fs_staging fs); [|done].
  pose proof (next_fault_final fs). by destruct (next_fault fs).
Qed.
Lemma sync_parent_keeps : keeps fs_final sync_parent.
Proof. intros fs. unfold sync_parent. pose proof (next_fault_final fs). by destruct (next_fault fs). Qed.
Lemma make_dirs_keeps : keeps fs_final make_dirs.
Proof.
  intros fs. unfold make_dirs. destruct (fs_staging fs); [done|].
  pose proof (next_fault_final fs). destruct (next_fault fs) as [[] ?]; done.
Qed.
#[export] Hint Resolve write_new_sync_keeps sync_dir_keeps sync_parent_keeps make_dirs_keeps : keeps.

Notation bundle_final := (λ s, fs_final (s.2)).
Lemma on_fs_keeps {A} (m : stateful Fs A) : keeps fs_final m → keeps (St:=BundleStager * Fs) bundle_final (on_fs m).
Proof. intros Hm [b fs]. unfold on_fs. specialize (Hm fs). cbn [snd]. by destruct (m fs). Qed.
Lemma on_verifier_keeps {A} (m : IncrementalVerifierV1 → hresult A * IncrementalVerifierV1) :
  keeps (St:=BundleStager * Fs) bundle_final (on_verifier m).
Proof. intros [b fs]. unfold on_verifier. by destruct (m _). Qed.
Lemma stager_modify_keeps (f : BundleStager * Fs → BundleStager) :
  keeps (St:=BundleStager * Fs) bundle_final (st_modify (λ s, (f s, s.2))).
Proof. done. Qed.
Lemma on_stager_keeps {A} (m : staging A) :
  keeps bundle_final m → keeps (St:=StreamingCoordinatorV1 * Fs) bundle_final (on_stager m).
Proof.
  intros Hm [c fs]. unfold on_stager. specialize (Hm (co_stager c, fs)). cbn [fst snd] in *.
  by destruct (m _) as [? [? ?]].
Qed.
Lemma coordinator_modify_keeps (f : StreamingCoordinatorV1 * Fs → StreamingCoordinatorV1) :
  keeps (St:=StreamingCoordinatorV1 * Fs) bundle_final (st_modify (λ s, (f s, s.2))).
Proof. done. Qed.
#[export] Hint Resolve on_fs_keeps on_verifier_keeps stager_modify_keeps on_stager_keeps coordinator_modify_keeps : keeps.

Section failure.
Context `{CL : CryptoLaws} `{JL : JsonTextLaws}.

Lemma stager_create_keeps begin limits : keeps fs_final (stager_create begin limits).
Proof. unfold stager_create. keep. Qed.
Lemma write_verified_keeps plane : keeps bundle_final (write_verified plane).
Proof. unfold write_verified. keep. Qed.
Lemma write_prepared_seal_keeps seal : keeps bundle_final (write_prepared_seal seal).
Proof. unfold write_prepared_seal. keep. Qed.
Lemma prepare_shared_seal_keeps w : keeps bundle_final (prepare_shared_seal w).
Proof. unfold prepare_shared_seal. keep. Qed.
Lemma stager_abort_keeps : keeps bundle_final stager_abort.
Proof.
  unfold stager_abort. keep. intros [b fs]. cbn [snd]. pose proof (next_fault_final fs).
  destruct (next_fault fs) as [[] ?]; done.
Qed.
Hint Resolve write_verified_keeps prepare_shared_seal_keeps stager_abort_keeps : keeps.
Lemma ready_keeps pair permit : keeps bundle_final (ready pair permit).
Proof. unfold ready, check_ready_cursor, set_ready. keep. Qed.
Hint Resolve ready_keeps : keeps.
Lemma ingest_plane_keeps h p permit : keeps bundle_final (ingest_plane h p permit).
Proof. unfold ingest_plane, set_pending. keep. Qed.
Lemma verify_and_prepare_seal_keeps seal : keeps bundle_final (verify_and_prepare_seal seal).
Proof. unfold verify_and_prepare_seal. keep. Qed.
Lemma coordinator_abort_keeps : keeps bundle_final coordinator_abort.
Proof. unfold coordinator_abort, set_pending. keep. Qed.
Hint Resolve ingest_plane_keeps verify_and_prepare_seal_keeps coordinator_abort_keeps : keeps.

(** ** The session *)
Context `{PS : PeerSocket} {S : Type} (sink : ReceiverSinkV1 S) (config : ReceiverConfigV1) (now : Z).
Let limits0 := validation_limits_at (rc_validation_limits config) now.
Notation session_final := (λ s : Session S, fs_final (se_fs s)).

Lemma check_keeps : keeps session_final (check (S:=S)).
Proof. intros s. unfold check. by destruct (interrupt_check _). Qed.
Lemma on_reader_keeps {A} (m : FrameReader → hresult A * FrameReader) : keeps session_final (on_reader (S:=S) m).
Proof. intros s. unfold on_reader. by destruct (m _). Qed.
Lemma on_sink_keeps {A} (m : stateful S A) : keeps session_final (on_sink m).
Proof. intros s. unfold on_sink. by destruct (m _). Qed.
Lemma on_coordinator_keeps {A} (m : coordinating A) : keeps bundle_final m → keeps session_final (on_coordinator (S:=S) m).
Proof.
  intros Hm s. unfold on_coordinator. destruct (se_coordinator s) as [c|]; [|done].
  specialize (Hm (c, se_fs s)). cbn [snd] in Hm. by destruct (m _) as [? [? ?]].
Qed.
Lemma create_coordinator_keeps begin limits : keeps session_final (create_coordinator (S:=S) begin limits).
Proof.
  intros s. unfold create_coordinator. assert (keeps fs_final (coordinator_create begin limits)) as Hk.
  { unfold coordinator_create. keep. }
  specialize (Hk (se_fs s)). by destruct (coordinator_create _ _ _) as [[] ?].
Qed.
Lemma set_state_keeps st : keeps session_final (set_state (S:=S) st).
Proof. done. Qed.
Lemma set_transfer_id_keeps id : keeps session_final (set_transfer_id (S:=S) id).
Proof. done. Qed.
Lemma send_keeps f : keeps session_final (send config (S:=S) f).
Proof. intros s. unfold send. destruct (write_frame _ _); [|done..]. by destruct (write_fault _ _) as [[]|]. Qed.
Lemma acquire_keeps token : keeps session_final (acquire sink token).
Proof.
  intros s. unfold acquire. destruct (permit_free _ _); [done|]. destruct (sink_drain _ _); [|done].
  by destruct (permit_free _ _).
Qed.
Hint Resolve check_keeps on_reader_keeps on_sink_keeps on_coordinator_keeps create_coordinator_keeps
  set_state_keeps set_transfer_id_keeps send_keeps : keeps.

Lemma receive_begin_keeps : keeps session_final (receive_begin sink config now).
Proof. unfold receive_begin. keep. Qed.
Lemma receive_layer_keeps i : keeps session_final (receive_layer sink i).
Proof. unfold receive_layer. keep; [apply on_coordinator_keeps; keep|apply acquire_keeps]. Qed.
Lemma receive_layers_keeps l : keeps session_final (receive_layers sink l).
Proof. induction l; cbn [receive_layers]; [done|]. apply keeps_bind; [apply receive_layer_keeps|done]. Qed.
Lemma receive_terminal_keeps begin : keeps session_final (receive_terminal sink config begin).
Proof. unfold receive_terminal. keep; apply on_coordinator_keeps; keep. Qed.
Lemma acknowledge_keeps begin limits seal : keeps session_final (acknowledge (S:=S) config begin limits seal).
Proof. unfold acknowledge. keep. Qed.

(** A visible bundle is complete. *)
Definition complete_bundle (dir : Dir) : Prop := ∃ begin planes seal,
  dir = staged_dir begin planes (bundle_root begin seal) ∧ stream_accepted config now begin planes seal.
Definition final_safe (old : option Dir) (s : Session S) : Prop :=
  fs_final (se_fs s) = old ∨ ∃ dir, fs_final (se_fs s) = Some dir ∧ complete_bundle dir.

Lemma final_safe_keeps old s s' : session_final s' = session_final s → final_safe old s → final_safe old s'.
Proof. unfold final_safe. cbn. by intros ->. Qed.
(** A property of the final state, whether the run stops in [m] or goes on. *)
Lemma st_bind_post {St A B} (P : St → Prop) (m : stateful St A) (f : A → stateful St B) s :
  P (m s).2 → (∀ a s1, m s = (Ok a, s1) → P (f a s1).2) → P (st_bind m f s).2.
Proof. intros Hm Hf. unfold st_bind. destruct (m s) as [[a|e|w] s1]; [by apply Hf|done..]. Qed.
Lemma rename_cases fs : fs_final (rename_noreplace fs).2 = fs_final fs ∨ fs_final (rename_noreplace fs).2 = fs_staging fs.
Proof.
  unfold rename_noreplace. destruct (fs_staging fs) as [d|]; [|by left]. destruct (fs_final fs) eqn:Ef; [by left|].
  pose proof (next_fault_final fs). destruct (next_fault fs) as [[] ?]; cbn [snd fs_final] in *; naive_solver congruence.
Qed.

Lemma on_fs_post {A B} (P : BundleStager * Fs → Prop) (m : stateful Fs A) (f : A → staging B) b fs :
  P (b, (m fs).2) → (∀ a fs1, m fs = (Ok a, fs1) → P (f a (b, fs1)).2) → P (st_bind (on_fs m) f (b, fs)).2.
Proof.
  intros Hm Hf. apply st_bind_post.
  - unfold on_fs. cbn [snd fst]. by destruct (m fs).
  - intros a s1 Hs. apply on_fs_Ok in Hs as (fs1 & Hs & ->). by apply Hf.
Qed.

Lemma stager_publish_cases begin planes seal b fs :
  fs_staging fs = Some (staged_dir begin planes
    (<[str "seal.json" := json_of serde_SealManifestV1 seal]> (begin_root begin))) →
  bs_prepared b = Some seal →
  fs_final (stager_publish (b, fs)).2.2 = fs_final fs ∨
  fs_final (stager_publish (b, fs)).2.2 = Some (staged_dir begin planes (bundle_root begin seal)).
Proof.
  intros Hs Hp. set (P := λ s : BundleStager * Fs, fs_final s.2 = fs_final fs ∨
    fs_final s.2 = Some (staged_dir begin planes (bundle_root begin seal))). change (P (stager_publish (b, fs)).2).
  unfold stager_publish. unfold st_bind at 1, st_get. cbn [fst]. destruct (_ || _); [by left|].
  unfold st_bind at 1, st_lift. rewrite Hp. cbn [ok_or].
  apply on_fs_post; [left; apply write_new_sync_keeps|intros [] fs1 H1].
  apply write_new_sync_Ok in H1 as (d & Hd & _ & Hs1 & Hf1 & _). rewrite Hs in Hd. injection Hd as <-.
  apply on_fs_post; [left; cbn [snd]; by rewrite sync_dir_keeps|intros [] fs2 H2]. apply sync_dir_Ok in H2 as (Hs2 & Hf2 & _).
  apply on_fs_post; [left; cbn [snd]; rewrite sync_dir_keeps; congruence|intros [] fs3 H3].
  apply sync_dir_Ok in H3 as (Hs3 & Hf3 & _).
  assert (fs_staging fs3 = Some (staged_dir begin planes (bundle_root begin seal))) as Hst by (rewrite Hs3, Hs2, Hs1; done).
  assert (∀ fs4, rename_noreplace fs3 = fs4 → P (b, fs4.2)) as Hren.
  { intros fs4 <-. destruct (rename_cases fs3) as [E|E]; [left|right]; cbn [snd]; rewrite E; congruence. }
  apply on_fs_post; [by apply Hren|intros [] fs4 H4]. apply Hren in H4. cbn [snd] in H4. unfold P in *. cbn [snd] in H4.
  apply on_fs_post; cbn [snd]; [by rewrite sync_parent_keeps|intros [] fs5 H5].
  apply sync_parent_Ok in H5 as [_ H5]. cbn [st_modify snd]. by rewrite H5.
Qed.
Lemma publish_cases begin planes seal c fs :
  fs_staging fs = Some (staged_dir begin planes
    (<[str "seal.json" := json_of serde_SealManifestV1 seal]> (begin_root begin))) →
  bs_prepared (co_stager c) = Some seal →
  fs_final (coordinator_publish (c, fs)).2.2 = fs_final fs ∨
  fs_final (coordinator_publish (c, fs)).2.2 = Some (staged_dir begin planes (bundle_root begin seal)).
Proof.
  intros Hs Hp. pose proof (stager_publish_cases _ _ _ (co_stager c) fs Hs Hp) as Hc.
  unfold coordinator_publish, st_bind, st_get. cbn [fst]. destruct (negb _); [by left|].
  unfold on_stager. cbn [fst snd]. by destruct (stager_publish _) as [r [b1 fs1]].
Qed.

Lemma receive_session_safe input fs0 st0 reasons : bytes_ok input →
  final_safe (fs_final fs0) (receive_session sink config now (session_start config input fs0 st0 reasons)).2.
Proof.
  intros Hin. set (s0 := session_start config input fs0 st0 reasons). change (fs_final fs0) with (session_final s0).
  unfold receive_session. apply st_bind_post; [left; apply receive_begin_keeps|intros b s1 Hb].
  pose proof (receive_begin_keeps s0) as Hf1. rewrite Hb in Hf1. cbn [snd] in Hf1.
  apply receive_begin_Ok in Hb as (begin & w1 & -> & Hbt & Hw1 & Hr1 & Hb1 & Hrd1 & Ho1 & Hv & He & (c & Hc & Hcs & _) & Hfs);
    [|done..]. cbn [fst snd].
  apply st_bind_post; [left; by rewrite receive_layers_keeps|intros u s2 Hl].
  pose proof (receive_layers_keeps (seqZ 0 (bm_expected_layer_frames begin)) s1) as Hf2. rewrite Hl in Hf2. cbn [snd] in Hf2.
  eapply (receive_layers_Ok sink config now begin []) in Hl as (planes & w2 & _ & _ & _ & _ & _ & Hvp & Hl).
  2: { unfold loop_inv. split_and!; [done|done|by exists c|done|]. intros i h p Hi. by rewrite lookup_nil in Hi. }
  unfold receive_seal.
  apply st_bind_post; [left; rewrite receive_terminal_keeps; congruence|intros seal s3 Ht].
  pose proof (receive_terminal_keeps begin s2) as Hf3. rewrite Ht in Hf3. cbn [snd] in Hf3.
  eapply receive_terminal_Ok in Ht as (w3 & c3 & _ & _ & _ & _ & Hval & Hauth & _ & Hc3 & Hbp & Hst); [|exact Hl].
  assert (stream_accepted config now begin planes seal) as Hacc.
  { pose proof (begin_typed_counts _ Hbt) as (Hn & Heb & _).
    pose proof (begin_validate_ok _ _ (begin_typed_dims _ Hbt) Hn Hv) as Hacc.
    apply (verify_planes_iff begin limits0 planes) in Hvp as (Hpa & _ & _ & _); [|by apply totals_fit_nil]. by split. }
  assert (final_safe (session_final s0) (on_coordinator coordinator_publish s3).2) as Hpub.
  { unfold on_coordinator. rewrite Hc3. pose proof (publish_cases _ _ _ c3 (se_fs s3) Hst Hbp) as Hp.
    destruct (coordinator_publish _) as [r [c4 fs4]]. cbn [snd] in *. unfold final_safe. cbn [se_fs].
    destruct Hp as [Hp|Hp]; [left; congruence|right]. eexists. split; [exact Hp|]. by exists begin, planes, seal. }
  apply st_bind_post; [done|intros [] s4 H4]. rewrite H4 in Hpub. 
  by apply (final_safe_keeps _ s4); [apply acknowledge_keeps|].
Qed.

(** The abort path runs to its end: the sink is told, the state is [Aborted]
    and only the staging directory is removed. *)
Lemma abort_session_keeps s : session_final (abort_session sink config s) = session_final s ∧
  se_state (abort_session sink config s) = Aborted ∧ se_sink (abort_session sink config s) = sink_abort sink (se_sink s).
Proof.
  unfold abort_session, set_state, st_modify. cbn [snd se_reader se_out se_fs se_coordinator se_sink se_state
    se_transfer_id se_interrupts].
  set (s1 := mkSession _ _ _ _ (sink_abort sink (se_sink s)) Aborted _ _).
  set (s2 := match se_coordinator s with Some _ => _ | None => _ end).
  assert (session_final s2 = session_final s ∧ se_state s2 = Aborted ∧ se_sink s2 = sink_abort sink (se_sink s)) as H2.
  { unfold s2. destruct (se_coordinator s) as [c|]; [|done].
    pose proof (on_coordinator_keeps coordinator_abort coordinator_abort_keeps s1) as Hk. split; [exact Hk|].
    unfold on_coordinator. destruct (se_coordinator s1) as [c1|]; [|done]. by destruct (coordinator_abort _) as [? [? ?]]. }
  destruct (se_transfer_id s2) as [id|]; [|done]. unfold send.
  destruct (write_frame _ _); [|done..]. by destruct (write_fault _ _) as [[]|].
Qed.
Lemma receive_one_cases input fs0 st0 reasons r s' : bytes_ok input →
  receive_one sink config now (session_start config input fs0 st0 reasons) = (r, s') →
  final_safe (fs_final fs0) s' ∧
  match r with
  | Ok receipt => ∃ s1, receive_session sink config now (session_start config input fs0 st0 reasons) = (Ok receipt, s1) ∧
      se_reader s' = se_reader s1 ∧ se_out s' = se_out s1 ∧ se_fs s' = se_fs s1 ∧ se_state s' = se_state s1
  | Err _ => se_state s' = Aborted ∧ ∃ s1, se_sink s' = sink_abort sink s1
  | Panic _ => True
  end.
Proof.
  intros Hin Hr. pose proof (receive_session_safe input fs0 st0 reasons Hin) as Hsafe. unfold receive_one in Hr.
  destruct (receive_session _ _ _ _) as [r1 s1]. cbn [snd] in Hsafe.
  unfold check in Hr. destruct (interrupt_check _) as [c reasons'].
  set (s2 := mkSession _ _ _ _ _ _ _ reasons') in Hr. assert (final_safe (fs_final fs0) s2) as Hs2 by exact Hsafe.
  destruct (abort_session_keeps s2) as (Ha1 & Ha2 & Ha3).
  assert (final_safe (fs_final fs0) (abort_session sink config s2)) as Hs3 by (by apply (final_safe_keeps _ s2)).
  destruct c, r1; simplify_eq; split; try done; eauto 10.
Qed.
End failure.
