(* ===== verification/HandoffLiveness.v ===== *)
(** * Completeness of the receiver session

    A planned stream is a sequence of slots: one layer each, a K plane and,
    unless the class is single-role, its V plane.  Along the slots the
    coordinator never refuses a plane, so a session without faults and
    interrupts publishes and acknowledges every accepted stream. *)
From Stdlib Require Import ZArith Lia.
From stdpp Require Import base tactics numbers list strings option sorting gmap.
From S2P Require Import Prelude Bytes Canonical Crypto HandoffJson HandoffMac HandoffManifest.
From S2P Require Import HandoffLayout HandoffValidation HandoffLayoutLaws HandoffValidationLaws.
From S2P Require Import HandoffFrame HandoffVerify HandoffBundle HandoffSession.
From S2P Require Import HandoffSessionLaws.

(** ** Slots *)
Notation slot := (Z * bool)%type.
Definition slot_planes (s : slot) : list (Z * TensorRoleV1) :=
  (s.1, Key) :: if s.2 then [] else [(s.1, Value_role)].

(** The walk as groups of one class and layer. *)
Definition walk_groups (begin : BeginManifestV1) : list (nat * Z * LayoutClassV2) :=
  schedule_class_order begin ≫= λ class_idx,
    match bm_layout_table begin !! class_idx with
    | Some class => (λ layer, (class_idx, layer, class)) <$> layers class
    | None => []
    end.
Definition group_entries (g : nat * Z * LayoutClassV2) : list (Z * Z * TensorRoleV1) :=
  (λ role, (Z.of_nat g.1.1, g.1.2, role)) <$> lc_roles g.2.
Definition group_slot (g : nat * Z * LayoutClassV2) : slot := (g.1.2, zlen (lc_roles g.2) =? 1).

Lemma bind_bind_list {A B C} (f : A → list B) (g : B → list C) l : (l ≫= f) ≫= g = l ≫= λ x, f x ≫= g.
Proof. induction l as [|x l IH]; [done|]. cbn [mbind list_bind]. by rewrite bind_app, IH. Qed.
Lemma walk_of_groups begin : layout_walk_v2 begin = walk_groups begin ≫= group_entries.
Proof.
  unfold layout_walk_v2, walk_groups. rewrite bind_bind_list. apply bind_ext_elem. intros i _.
  destruct (bm_layout_table begin !! i) as [class|]; [|done]. unfold class_walk.
  induction (layers class) as [|l ls IH]; [done|]. cbn [fmap list_fmap mbind list_bind]. f_equal. apply IH.
Qed.
Lemma walk_group_class begin g : g ∈ walk_groups begin → bm_layout_table begin !! g.1.1 = Some g.2.
Proof.
  unfold walk_groups. intros (i & Hi & _)%list_elem_of_bind.
  destruct (bm_layout_table begin !! i) as [class|] eqn:E; [|by apply elem_of_nil in Hi].
  apply list_elem_of_fmap in Hi as (l & -> & _). done.
Qed.
Lemma group_entries_planes begin limits g : class_valid begin limits g.2 →
  entry_plane <$> group_entries g = slot_planes (group_slot g).
Proof. intros Hv. unfold group_entries, slot_planes, group_slot. destruct (cv_roles _ _ _ Hv) as [-> | [_ ->]]; done. Qed.

Section slots.
Context `{Crypto} `{JsonText}.
Implicit Types (begin : BeginManifestV1) (limits : ValidationLimits).

Record slots_of begin limits (slots : list slot) : Prop := {
  so_planes : planned_planes begin = slots ≫= slot_planes;
  so_single pre l single post planes : slots = pre ++ (l, single) :: post →
    is_single_role_frame (verifier_after begin limits planes) (zlen (pre ≫= slot_planes)) = Ok single;
  so_layer pre l single post planes : slots = pre ++ (l, single) :: post →
    (if is_v2 begin then expected_layer_at (verifier_after begin limits planes) (zlen (pre ≫= slot_planes))
     else Ok (zlen pre)) = Ok l
}.

Lemma slots_v2 begin limits : is_v2 begin = true → Forall (class_valid begin limits) (bm_layout_table begin) →
  slots_of begin limits (group_slot <$> walk_groups begin).
Proof.
  intros Hv Hc.
  assert (∀ gs, gs ⊆ walk_groups begin →
    entry_plane <$> (gs ≫= group_entries) = (group_slot <$> gs) ≫= slot_planes) as Hplanes.
  { induction gs as [|g gs IH]; intros Hgs; [done|]. cbn [fmap list_fmap mbind list_bind].
    rewrite fmap_app. f_equal; [|apply IH; set_solver]. eapply group_entries_planes.
    rewrite list.Forall_forall in Hc. eapply Hc, list_elem_of_lookup_2, walk_group_class. set_solver. }
  assert (∀ pre l single post, group_slot <$> walk_groups begin = pre ++ (l, single) :: post →
    ∃ n class, layout_walk_v2 begin !! Z.to_nat (zlen (pre ≫= slot_planes)) = Some (Z.of_nat n, l, Key) ∧
      bm_layout_table begin !! n = Some class ∧ single = (zlen (lc_roles class) =? 1)) as Hat.
  { intros pre l single post E. apply fmap_app_inv in E as (gpre & grest & -> & Eg & Hw).
    destruct grest as [|[[n l'] class] gpost]; [done|]. cbn [fmap list_fmap] in Eg. injection Eg as <- -> _.
    assert ((n, l, class) ∈ walk_groups begin) as Hin by (rewrite Hw; set_solver).
    pose proof (walk_group_class _ _ Hin) as Hn. cbn [fst snd] in Hn. exists n, class. split_and!; [|done|done].
    rewrite walk_of_groups, Hw, bind_app.
    rewrite <-(Hplanes gpre) by (rewrite Hw; set_solver). rewrite zlen_fmap. unfold zlen. rewrite Nat2Z.id.
    rewrite lookup_app_r, Nat.sub_diag by lia. cbn [mbind list_bind]. unfold group_entries. cbn [fst snd].
    rewrite list.Forall_forall in Hc. destruct (cv_roles _ _ _ (Hc _ (list_elem_of_lookup_2 _ _ _ Hn))) as [-> | [_ ->]]; done. }
  split.
  - unfold planned_planes. by rewrite Hv, walk_of_groups, Hplanes.
  - intros pre l single post planes E. destruct (Hat _ _ _ _ E) as (n & class & Hw & Hn & ->).
    unfold is_single_role_frame. cbn [iv_layout_walk iv_begin verifier_after]. rewrite Hv. cbn [mbind option_bind].
    rewrite Hw. unfold index. rewrite (proj2 (Z.leb_le _ _)), Nat2Z.id, Hn by lia. done.
  - intros pre l single post planes E. destruct (Hat _ _ _ _ E) as (n & class & Hw & Hn & ->).
    rewrite Hv. unfold expected_layer_at. cbn [iv_layout_walk verifier_after]. rewrite Hv. cbn [ok_or mbind outcome_bind].
    by rewrite Hw.
Qed.
Lemma slots_v1 begin limits : is_v2 begin = false →
  slots_of begin limits ((λ l, (l, false)) <$> seqZ 0 (ge_num_layers (bm_geometry begin))).
Proof.
  intros Hv. split.
  - unfold planned_planes. rewrite Hv. generalize (ge_num_layers (bm_geometry begin)) as n. intros n.
    destruct (Z.le_gt_cases n 0); [by rewrite !seqZ_nil by lia|].
    pattern n. apply natlike_ind; [done| |lia]. intros k Hk IH.
    replace (2 * Z.succ k) with (2 * k + 2) by lia. rewrite seqZ_app, fmap_app, IH by lia. rewrite Z.add_0_l.
    rewrite <-Z.add_1_r, seqZ_app, fmap_app, bind_app, Z.add_0_l by lia. f_equal.
    rewrite (seqZ_cons (2 * k)), (seqZ_cons (Z.succ (2 * k))), (seqZ_nil (Z.succ _)) by lia. rewrite (seqZ_cons k), (seqZ_nil (Z.succ k)) by lia.
    cbn [fmap list_fmap mbind list_bind slot_planes fst snd app]. unfold v1_role.
    replace (2 * k / 2) with k by (rewrite Z.mul_comm, Z.div_mul; lia).
    replace (Z.succ (2 * k) / 2) with k by (replace (Z.succ (2 * k)) with (1 + k * 2) by lia; by rewrite Z.div_add by lia).
    rewrite Z.mul_comm, Z_mod_mult. replace (Z.succ (k * 2)) with (1 + k * 2) by lia. by rewrite Z_mod_plus_full.
  - intros pre l single post planes E. unfold is_single_role_frame. cbn [iv_layout_walk verifier_after]. rewrite Hv. simpl.
    apply fmap_app_inv in E as (? & [|? ?] & _ & E & _); [done|]. cbn [fmap list_fmap] in E. by injection E as _ <- _.
  - intros pre l single post planes E. rewrite Hv.
    assert (((λ l, (l, false)) <$> seqZ 0 (ge_num_layers (bm_geometry begin))) !! length pre = Some (l, single)) as Hl
      by (by rewrite E, lookup_app_r, Nat.sub_diag by lia).
    rewrite list_lookup_fmap in Hl. destruct (seqZ _ _ !! _) as [x|] eqn:Ex; [|done]. injection Hl as -> _.
    apply lookup_seqZ in Ex as [-> _]. unfold zlen. done.
Qed.
Lemma slots_exist begin limits : typed_as serde_BeginManifestV1 begin → begin_validate begin limits = Ok tt →
  ∃ slots, slots_of begin limits slots.
Proof.
  intros Hb Hv. destruct (is_v2 begin) eqn:H2; [|eexists; by apply slots_v1].
  eexists. apply slots_v2; [done|]. pose proof (begin_typed_dims _ Hb) as Hd.
  unfold begin_validate in Hv. inv_ok. destruct x as [frames total]. bools.
  rename select (expected_totals _ _ = Ok _) into He.
  apply expected_totals_v2 in He as (_ & _ & _ & ?); [done|done..|]. destruct Hd. lia.
Qed.
End slots.

(** ** The coordinator along the slots *)
Section live.
Context `{CL : CryptoLaws} `{JL : JsonTextLaws}.
Context `{PS : PeerSocket} {S : Type} (sink : ReceiverSinkV1 S) (config : ReceiverConfigV1) (now : Z).
Let limits0 := validation_limits_at (rc_validation_limits config) now.
Context (begin : BeginManifestV1) (planes : plane_stream).
Hypothesis Hbegin : typed_as serde_BeginManifestV1 begin.
Hypothesis Hvalid : begin_validate begin limits0 = Ok tt.
Hypothesis Hplanes : planes_accepted begin limits0 planes.
Hypothesis Hframes : zlen planes = bm_expected_layer_frames begin.
Hypothesis Hok : Forall frame_ok (layer_frames planes).
Implicit Types (pre rest : plane_stream).

Let Haccepted : begin_accepted begin limits0.
Proof. pose proof (begin_typed_counts _ Hbegin) as (? & _). by apply begin_validate_ok; [apply begin_typed_dims|..]. Qed.
Let Htyped : Forall (λ p, typed_as serde_LayerHeaderV1 p.1) planes.
Proof. unfold layer_frames in Hok. rewrite Forall_fmap in Hok. eapply list.Forall_impl; [exact Hok|]. by intros [h p] [? _]. Qed.

Definition staged pre : Fs := mkFs (Some (staged_dir begin pre (begin_root begin))) None [].
Definition coordinating_at pre (pending : option PendingKey) (ready : Z) : StreamingCoordinatorV1 :=
  mkStreamingCoordinatorV1 (receiving begin limits0 pre) pending ready false.

Lemma all_verify : verify_planes (verifier_after begin limits0 []) planes = Ok (verifier_after begin limits0 planes).
Proof.
  pose proof (begin_typed_counts _ Hbegin) as (_ & He & [_ Hf]). pose proof (ba_total_bound _ _ Haccepted).
  pose proof (planes_total begin limits0 planes Hbegin Haccepted Htyped Hplanes Hframes) as Htot.
  apply verify_planes_iff; [by apply totals_fit_nil|]. destruct He.
  split_and!; [done|lia| |done]. unfold totals_fit. lia.
Qed.
(** One plane passes the verifier at its position. *)
Lemma next_verifies pre h p rest : planes = pre ++ (h, p) :: rest →
  verify_plane_next (verifier_after begin limits0 pre) h p =
    Ok (mkVerifiedPlaneV1 h p, verifier_after begin limits0 (pre ++ [(h, p)])).
Proof.
  intros E. pose proof (begin_typed_counts _ Hbegin) as (_ & He & _).
  pose proof all_verify as Hv. rewrite E in Hv at 1. unfold verify_planes in Hv.
  rewrite try_fold_app in Hv. apply bind_Ok in Hv as (v & Hv & Hr).
  apply (verify_planes_iff begin limits0) in Hv as (_ & _ & _ & ->); [|by apply totals_fit_nil].
  cbn [try_fold] in Hr. apply bind_Ok in Hr as (v & Hr & _). apply fmap_Ok in Hr as ([pl v'] & Hr & ->).
  cbn [fst snd] in *. rewrite Hr. by apply verify_plane_iff in Hr as (_ & _ & _ & -> & ->).
Qed.
Lemma header_here pre h p rest : planes = pre ++ (h, p) :: rest → header_at h begin (zlen pre).
Proof.
  intros E. assert (planes !! length pre = Some (h, p)) as Hi by (by rewrite E, lookup_app_r, Nat.sub_diag by lia).
  destruct (Hplanes _ _ _ Hi) as [Hh _ _ _ _]. pose proof (lookup_lt_Some _ _ _ Hi).
  eapply header_validate_ok; [by apply begin_typed_dims|done| |exact Hh]. rewrite <-Hframes. unfold zlen. lia.
Qed.

Lemma verify_at pre h p rest : planes = pre ++ (h, p) :: rest →
  on_verifier (λ v, verify_plane v h p) (receiving begin limits0 pre, staged pre) =
  (Ok (mkVerifiedPlaneV1 h p), (receiving begin limits0 (pre ++ [(h, p)]), staged pre)).
Proof.
  intros E. unfold on_verifier, verify_plane. cbn [fst snd bs_verifier receiving]. by rewrite (next_verifies _ _ _ _ E).
Qed.
Lemma write_at pre h p rest : planes = pre ++ (h, p) :: rest →
  write_verified (mkVerifiedPlaneV1 h p) (receiving begin limits0 (pre ++ [(h, p)]), staged pre) =
  (Ok tt, (receiving begin limits0 (pre ++ [(h, p)]), staged (pre ++ [(h, p)]))).
Proof.
  intros E. pose proof (ingest_clean begin limits0 planes Hbegin Haccepted Htyped Hplanes Hframes pre h p rest
    (begin_root begin) E (next_verifies _ _ _ _ E)) as Hi.
  unfold ingest, st_bind in Hi. fold (staged pre) in Hi. by rewrite (verify_at _ _ _ _ E) in Hi.
Qed.

Lemma ready_at pre r pair permit :
  (if is_v2 begin then expected_layer_at (verifier_after begin limits0 pre) (lh_sequence (vp_header (vl_key pair)))
   else Ok r) = Ok (vl_layer pair) → r + 1 < u32_bound →
  ready pair permit (coordinating_at pre None r, staged pre) =
  (Ok (Some (mkLayerReadyV1 pair permit)), (coordinating_at pre None (r + 1), staged pre)).
Proof.
  intros Hl Hr. unfold ready, check_ready_cursor, set_ready, st_bind, st_get, st_lift, st_modify.
  cbn [fst snd co_stager coordinating_at bs_verifier receiving iv_begin verifier_after co_ready_layers].
  rewrite Hl, Z.eqb_refl. cbn [negb]. unfold try_from. by rewrite (proj2 (Z.ltb_lt (r + 1) _)) by lia.
Qed.

Ltac coordinate E :=
  unfold st_bind, st_get, st_lift, on_stager;
  cbn [fst snd co_stager co_pending_key co_ready_layers co_terminal_prepared coordinating_at];
  rewrite (verify_at _ _ _ _ E);
  cbn [fst snd co_stager co_pending_key co_ready_layers co_terminal_prepared];
  rewrite (write_at _ _ _ _ E);
  cbn [fst snd co_stager co_pending_key co_ready_layers co_terminal_prepared bs_verifier receiving vp_header].

Lemma ingest_single_live pre h p rest r permit : planes = pre ++ (h, p) :: rest → lh_role h = Key →
  is_single_role_frame (verifier_after begin limits0 (pre ++ [(h, p)])) (lh_sequence h) = Ok true →
  (if is_v2 begin then expected_layer_at (verifier_after begin limits0 (pre ++ [(h, p)])) (lh_sequence h)
   else Ok r) = Ok (lh_layer h) → r + 1 < u32_bound →
  ∃ ev, ingest_plane h p (Some permit) (coordinating_at pre None r, staged pre) =
    (Ok (Some ev), (coordinating_at (pre ++ [(h, p)]) None (r + 1), staged (pre ++ [(h, p)]))).
Proof.
  intros E Hk Hs Hl Hr. eexists. unfold ingest_plane. rewrite Hk. coordinate E. rewrite Hs.
  unfold layer_pair_new_single. cbn [vp_header]. rewrite bool_decide_eq_true_2 by done. cbn [negb]. by apply ready_at.
Qed.
Lemma ingest_key_live pre h p rest r permit : planes = pre ++ (h, p) :: rest → lh_role h = Key →
  is_single_role_frame (verifier_after begin limits0 (pre ++ [(h, p)])) (lh_sequence h) = Ok false →
  ingest_plane h p (Some permit) (coordinating_at pre None r, staged pre) =
    (Ok None, (coordinating_at (pre ++ [(h, p)]) (Some (mkPendingKey (mkVerifiedPlaneV1 h p) permit)) r,
               staged (pre ++ [(h, p)]))).
Proof. intros E Hk Hs. unfold ingest_plane. rewrite Hk. coordinate E. by rewrite Hs. Qed.
Lemma ingest_value_live pre h p rest r hk pk permit : planes = pre ++ (h, p) :: rest →
  lh_role h = Value_role → lh_role hk = Key → lh_layer hk = lh_layer h →
  lh_sequence h = lh_sequence hk + 1 → lh_sequence hk + 1 < u32_bound →
  (if is_v2 begin then expected_layer_at (verifier_after begin limits0 (pre ++ [(h, p)])) (lh_sequence hk)
   else Ok r) = Ok (lh_layer hk) → r + 1 < u32_bound →
  ∃ ev, ingest_plane h p None
      (coordinating_at pre (Some (mkPendingKey (mkVerifiedPlaneV1 hk pk) permit)) r, staged pre) =
    (Ok (Some ev), (coordinating_at (pre ++ [(h, p)]) None (r + 1), staged (pre ++ [(h, p)]))).
Proof.
  intros E Hv Hk Hl Hq Hb Hc Hr. eexists. unfold ingest_plane. rewrite Hv. coordinate E.
  unfold set_pending, st_modify. cbn [fst snd ok_or pk_plane pk_permit co_stager co_ready_layers co_terminal_prepared].
  unfold layer_pair_new. cbn [vp_header].
  rewrite Hl, Hk, Hv, Hq, Z.eqb_refl, Z.min_l, Z.eqb_refl by lia. rewrite !bool_decide_eq_true_2 by done. cbn [negb orb].
  rewrite Hl in Hc. by apply ready_at.
Qed.

(** ** The session *)
(** A sink that accepts every call, and that releases a permit when it holds them all. *)
Record accepting : Prop := {
  ac_begin m x : ∃ x', sink_begin sink m x = (Ok tt, x');
  ac_layer_ready m x : ∃ x', sink_layer_ready sink m x = (Ok tt, x');
  ac_seal_verified m x : ∃ x', sink_seal_verified sink m x = (Ok tt, x');
  ac_releases x : (EXPERIMENT_PERMITS ≤ size (sink_permits sink x))%nat →
    ∃ x', sink_drain sink x = Some x' ∧ (size (sink_permits sink x') < EXPERIMENT_PERMITS)%nat
}.
Hypothesis Haccepting : accepting.
(** A peer that takes what is written. *)
Definition reading_peer : Prop := ∀ out b, write_fault out b = None.
Hypothesis Hpeer : reading_peer.

Definition live pre pending ready (rest : bytes) (s : Session S) : Prop :=
  se_reader s = FrameReader_new rest (rc_frame_limits config) ∧ se_out s = [] ∧ se_fs s = staged pre ∧
  se_coordinator s = Some (coordinating_at pre pending ready) ∧ se_interrupts s = [].
Lemma check_clean (s : Session S) : se_interrupts s = [] → check s = (Ok tt, s).
Proof. intros E. unfold check. rewrite E. cbn [interrupt_check]. destruct s. simpl in *. by subst. Qed.

Notation with_sink s x := (mkSession (se_reader s) (se_out s) (se_fs s) (se_coordinator s) x (se_state s)
  (se_transfer_id s) (se_interrupts s)).
Lemma permit_live h token c s : se_coordinator s = Some c → (lh_role h = Key → co_pending_key c = None) →
  ∃ x', (if bool_decide (lh_role h = Key) then (permit <- acquire sink token ; st_ret (Some permit))%stateful
         else st_ret None) s =
    (Ok (if bool_decide (lh_role h = Key) then Some token else None), with_sink s x').
Proof using Haccepting.
  clear -Haccepting. intros Hc Hk. case_bool_decide as Hr; [|exists (se_sink s); by destruct s]. specialize (Hk Hr).
  unfold st_bind, acquire, permit_free.
  assert (∀ s', se_coordinator s' = se_coordinator s → permits_in_use sink s' = sink_permits sink (se_sink s')) as Hu.
  { intros s' E. unfold permits_in_use. rewrite E, Hc. cbn. rewrite Hk. set_solver. }
  rewrite Hu by done. destruct (_ <? _)%nat eqn:Hlt; [exists (se_sink s); by destruct s|]. apply Nat.ltb_ge in Hlt.
  destruct (ac_releases Haccepting _ Hlt) as (x' & -> & Hx). exists x'. rewrite Hu by done. cbn [se_sink].
  by rewrite (proj2 (Nat.ltb_lt _ _)) by done.
Qed.
Lemma receive_layer_live pre h p rest pending r ev pending' r' w tail s :
  planes = pre ++ (h, p) :: rest → (lh_role h = Key → pending = None) → live pre pending r (w ++ tail) s →
  write_frame (FLayer h p) (rc_frame_limits config) = Ok w →
  ingest_plane h p (if bool_decide (lh_role h = Key) then Some (zlen pre) else None)
    (coordinating_at pre pending r, staged pre) =
    (Ok ev, (coordinating_at (pre ++ [(h, p)]) pending' r', staged (pre ++ [(h, p)]))) →
  ∃ s', receive_layer sink (zlen pre) s = (Ok tt, s') ∧ live (pre ++ [(h, p)]) pending' r' tail s'.
Proof.
  intros E Hpk (Hrd & Ho & Hf & Hc & Hi) Hw Hing. pose proof (header_here _ _ _ _ E) as (_ & _ & Hseq & _).
  assert (frame_ok (FLayer h p)) as Hfr.
  { rewrite list.Forall_forall in Hok. apply Hok. unfold layer_frames. rewrite E, fmap_app. set_solver. }
  pose proof (read_header_complete _ _ _ tail Hfr Hw) as Hh.
  pose proof (read_payload_complete (FLayer h p) (rc_frame_limits config) tail) as Hp.
  cbn [frame_header frame_payload] in Hh, Hp.
  assert (validate_next_header (verifier_after begin limits0 pre) h = Ok tt) as Hv.
  { pose proof (next_verifies _ _ _ _ E) as Hn. apply verify_plane_iff in Hn as ([Ha Hb _ _ _] & Hz & _).
    by apply validate_next_header_iff. }
  destruct s as [rd out fs co sk st ti it]. cbn [se_reader se_out se_fs se_coordinator se_interrupts] in *. subst.
  unfold receive_layer. unfold st_bind at 1. rewrite check_clean by done.
  unfold st_bind at 1, on_reader at 1. cbn [se_reader]. rewrite Hh.
  unfold st_bind at 1 2. cbn [se_reader se_out se_fs se_coordinator se_sink se_state se_transfer_id se_interrupts].
  rewrite Hseq, Z.eqb_refl. unfold on_coordinator at 1, st_bind at 1, st_get, st_lift, coordinator_validate_next_header.
  cbn [se_coordinator se_fs fst snd co_stager coordinating_at bs_verifier receiving]. rewrite Hv.
  match goal with |- context [(if bool_decide _ then _ else _) ?s0] =>
    destruct (permit_live h (zlen pre) (coordinating_at pre pending r) s0 eq_refl Hpk) as [x1 ->] end.
  unfold st_bind at 1, on_reader at 1.
  cbn [se_reader se_out se_fs se_coordinator se_sink se_state se_transfer_id se_interrupts]. rewrite Hp.
  unfold st_bind at 1. rewrite check_clean by done. unfold st_bind at 1, on_coordinator at 1.
  cbn [se_reader se_out se_fs se_coordinator se_sink se_state se_transfer_id se_interrupts].
  rewrite Hing.
  destruct ev as [ev|]; [|eexists; split; [done|by split_and!]].
  destruct (ac_layer_ready Haccepting ev x1) as [x' Hx].
  unfold on_sink. cbn [se_sink se_reader se_out se_fs se_coordinator se_state se_transfer_id se_interrupts]. rewrite Hx.
  eexists. split; [done|by split_and!].
Qed.

(** The planes in the order of their slots. *)
Definition plane_key (p : LayerHeaderV1 * bytes) : Z * TensorRoleV1 := (lh_layer p.1, lh_role p.1).
Lemma written_cons_inv f frames w : written config (f :: frames) w →
  ∃ w1 w2, write_frame f (rc_frame_limits config) = Ok w1 ∧ written config frames w2 ∧ w = w1 ++ w2.
Proof.
  intros (ws & Hws & ->). apply Forall2_cons_inv_l in Hws as (w1 & ws' & Hw & Hws & ->).
  exists w1, (concat ws'). split_and!; [done|by exists ws'|done].
Qed.
Lemma zlen_slots (l : list slot) : zlen l ≤ zlen (l ≫= slot_planes).
Proof.
  induction l as [|[x []] l IH]; [done|..]; cbn [mbind list_bind slot_planes fst snd app]; rewrite !zlen_cons; lia.
Qed.

Section slots.
Context (slots : list slot) (Hslots : slots_of begin limits0 slots).
Lemma slots_bound : zlen slots ≤ zlen planes ∧ zlen planes < u32_bound.
Proof.
  pose proof (begin_typed_counts _ Hbegin) as (_ & _ & [_ Hu]). pose proof (zlen_slots slots).
  rewrite Hframes. split; [|done]. rewrite (ba_frames _ _ Haccepted), (so_planes _ _ _ Hslots). lia.
Qed.

Lemma receive_single_slot spre l spost pre h p rest w tail s :
  slots = spre ++ (l, true) :: spost → planes = pre ++ (h, p) :: rest → zlen pre = zlen (spre ≫= slot_planes) →
  plane_key (h, p) = (l, Key) → write_frame (FLayer h p) (rc_frame_limits config) = Ok w →
  live pre None (zlen spre) (w ++ tail) s →
  ∃ s', receive_layer sink (zlen pre) s = (Ok tt, s') ∧ live (pre ++ [(h, p)]) None (zlen spre + 1) tail s'.
Proof.
  intros Es Ep Hz [= Hkl Hkr] Hw Hl. pose proof (header_here _ _ _ _ Ep) as (_ & _ & Hseq & _). destruct slots_bound.
  pose proof (so_single _ _ _ Hslots _ _ _ _ (pre ++ [(h, p)]) Es) as Hsingle.
  pose proof (so_layer _ _ _ Hslots _ _ _ _ (pre ++ [(h, p)]) Es) as Hlayer. rewrite <-Hz, <-Hseq in Hsingle, Hlayer.
  destruct (ingest_single_live pre h p rest (zlen spre) (zlen pre) Ep Hkr Hsingle) as [ev Hing].
  { by rewrite Hlayer, <-Hkl. }
  { pose proof (f_equal zlen Es) as Hn. rewrite zlen_app, zlen_cons in Hn. pose proof (zlen_nonneg spost). lia. }
  eapply (receive_layer_live pre h p rest); [done|done|exact Hl|done|by rewrite bool_decide_eq_true_2 by done].
Qed.
Lemma receive_pair_slot spre l spost pre h p hv pv rest w wv tail s :
  slots = spre ++ (l, false) :: spost → planes = pre ++ (h, p) :: (hv, pv) :: rest →
  zlen pre = zlen (spre ≫= slot_planes) → plane_key (h, p) = (l, Key) → plane_key (hv, pv) = (l, Value_role) →
  write_frame (FLayer h p) (rc_frame_limits config) = Ok w →
  write_frame (FLayer hv pv) (rc_frame_limits config) = Ok wv →
  live pre None (zlen spre) (w ++ wv ++ tail) s →
  ∃ s1 s2, receive_layer sink (zlen pre) s = (Ok tt, s1) ∧ receive_layer sink (zlen pre + 1) s1 = (Ok tt, s2) ∧
    live (pre ++ [(h, p); (hv, pv)]) None (zlen spre + 1) tail s2.
Proof.
  intros Es Ep Hz [= Hkl Hkr] [= Hvl Hvr] Hw Hwv Hl. destruct slots_bound.
  pose proof (header_here _ _ _ _ Ep) as (_ & _ & Hseq & _).
  pose proof (so_single _ _ _ Hslots _ _ _ _ (pre ++ [(h, p)]) Es) as Hsingle. rewrite <-Hz, <-Hseq in Hsingle.
  edestruct (receive_layer_live pre h p) as (s1 & Hr1 & Hl1); [exact Ep|done|exact Hl|done| |].
  { rewrite bool_decide_eq_true_2 by done. by eapply ingest_key_live. }
  assert (planes = (pre ++ [(h, p)]) ++ (hv, pv) :: rest) as Ep2 by (by rewrite <-app_assoc).
  pose proof (header_here _ _ _ _ Ep2) as (_ & _ & Hseqv & _).
  assert (zlen (pre ++ [(h, p)]) = zlen pre + 1) as Hz1 by (by rewrite zlen_app).
  assert (zlen pre + 1 < zlen planes) as Hlt.
  { rewrite Ep, zlen_app, !zlen_cons. pose proof (zlen_nonneg rest). lia. }
  assert (zlen spre + 1 ≤ zlen slots).
  { rewrite Es, zlen_app, zlen_cons. pose proof (zlen_nonneg spost). lia. }
  pose proof (so_layer _ _ _ Hslots _ _ _ _ ((pre ++ [(h, p)]) ++ [(hv, pv)]) Es) as Hlayer. rewrite <-Hz, <-Hseq in Hlayer.
  destruct (ingest_value_live (pre ++ [(h, p)]) hv pv rest (zlen spre) h p (zlen pre) Ep2) as [ev Hing];
    [done|done|congruence|lia|lia|by rewrite Hlayer, <-Hkl|lia|].
  edestruct (receive_layer_live (pre ++ [(h, p)]) hv pv rest) as (s2 & Hr2 & Hl2);
    [done|congruence|exact Hl1|done| |].
  { rewrite bool_decide_eq_false_2 by congruence. exact Hing. }
  rewrite Hz1 in Hr2. rewrite <-app_assoc in Hl2. eauto.
Qed.

Lemma receive_slots spre spost pre rest w tail s :
  slots = spre ++ spost → planes = pre ++ rest → zlen pre = zlen (spre ≫= slot_planes) →
  plane_key <$> rest = spost ≫= slot_planes → written config (layer_frames rest) w →
  live pre None (zlen spre) (w ++ tail) s →
  ∃ s', receive_layers sink (seqZ (zlen pre) (zlen rest)) s = (Ok tt, s') ∧ live planes None (zlen slots) tail s'.
Proof.
  revert spre pre rest w s. induction spost as [|[l single] spost IH]; intros spre pre rest w s Es Ep Hz Hk Hw Hl.
  { destruct rest; [|done]. rewrite app_nil_r in Es, Ep. rewrite <-Es, <-Ep in Hl. exists s. split; [done|].
    destruct Hw as (ws & Hws & ->). by apply Forall2_nil_inv_l in Hws as ->. }
  destruct rest as [|[h p] rest]; [done|]. pose proof (zlen_nonneg rest).
  cbn [mbind list_bind fmap list_fmap slot_planes fst snd app] in Hk. apply (inj2 cons) in Hk as [Hkey Hk].
  apply written_cons_inv in Hw as (w1 & w2 & Hw1 & Hw2 & ->). rewrite <-app_assoc in Hl.
  rewrite zlen_cons, seqZ_cons by lia. cbn [receive_layers]. unfold st_bind. destruct single.
  - destruct (receive_single_slot spre l spost pre h p rest w1 (w2 ++ tail) s) as (s1 & -> & Hl1); try done.
    destruct (IH (spre ++ [(l, true)]) (pre ++ [(h, p)]) rest w2 s1) as (s2 & Hr2 & Hl2); try done.
    { by rewrite <-app_assoc. } { by rewrite <-app_assoc. }
    { by rewrite bind_app, !zlen_app, Hz. } { by rewrite zlen_app. }
    exists s2. split; [|done]. rewrite <-Hr2. f_equal. rewrite zlen_app. f_equal; zlia.
  - destruct rest as [|[hv pv] rest]; [done|]. cbn [fmap list_fmap app] in Hk. apply (inj2 cons) in Hk as [Hval Hk].
    apply written_cons_inv in Hw2 as (w3 & w4 & Hw3 & Hw4 & ->). rewrite <-app_assoc in Hl. pose proof (zlen_nonneg rest).
    destruct (receive_pair_slot spre l spost pre h p hv pv rest w1 w3 (w4 ++ tail) s) as (s1 & s2 & -> & Hr2 & Hl2); try done.
    rewrite zlen_cons, seqZ_cons by lia. cbn [receive_layers]. unfold st_bind.
    replace (Z.succ (zlen pre)) with (zlen pre + 1) by lia. rewrite Hr2.
    destruct (IH (spre ++ [(l, false)]) (pre ++ [(h, p); (hv, pv)]) rest w4 s2) as (s3 & Hr3 & Hl3); try done.
    { by rewrite <-app_assoc. } { by rewrite <-app_assoc. }
    { by rewrite bind_app, !zlen_app, Hz. } { by rewrite zlen_app. }
    exists s3. split; [|done]. rewrite <-Hr3. f_equal. rewrite !zlen_app. f_equal; zlia.
Qed.
End slots.

(** ** BEGIN and SEAL *)
Hypothesis Hexpected : expectations_validate_for (rc_begin config) begin = Ok tt.
Ltac fields := cbn [se_reader se_out se_fs se_coordinator se_sink se_state se_transfer_id se_interrupts].

Lemma receive_begin_live w tail x :
  write_frame (FBegin begin) (rc_frame_limits config) = Ok w →
  ∃ s, receive_begin sink config now (session_start config (w ++ tail) (mkFs None None []) x []) =
    (Ok (begin, limits0), s) ∧ live [] None 0 tail s.
Proof.
  intros Hw. pose proof (read_header_complete (FBegin begin) _ _ tail Hbegin Hw) as Hh.
  pose proof (read_payload_complete (FBegin begin) (rc_frame_limits config) tail) as Hp.
  cbn [frame_header frame_payload app] in Hh, Hp. destruct (ac_begin Haccepting begin x) as [x' Hx].
  unfold receive_begin, session_start. unfold st_bind at 1. rewrite check_clean by done.
  unfold st_bind at 1, on_reader at 1. fields. rewrite Hh. unfold st_bind at 1. rewrite check_clean by done.
  unfold st_bind at 1, on_reader at 1. fields. rewrite Hp. cbv zeta. fold limits0.
  unfold st_bind at 1, st_lift at 1. rewrite Hvalid. unfold st_bind at 1, st_lift at 1. rewrite Hexpected.
  unfold st_bind at 1, set_transfer_id, st_modify. fields. unfold st_bind at 1, on_sink. fields. rewrite Hx.
  unfold st_bind at 1, create_coordinator. fields. unfold coordinator_create, st_bind at 1. rewrite create_clean by done.
  unfold st_ret at 1, st_bind at 1, set_state, st_modify. fields. eexists. split; [done|by split_and!].
Qed.

Context (seal : SealManifestV1) (ack : bytes).
Hypothesis Hseal : seal_validate_for seal begin planes.*1 (total_bytes planes) (sha256_hex (all_payload planes)) = Ok tt.
Hypothesis Htseal : typed_as serde_SealManifestV1 seal.
Hypothesis Hauth : seal_authenticated config begin planes seal.
Hypothesis Hack : write_frame (FAck (AckManifestV1_committed begin seal)) (rc_frame_limits config) = Ok ack.
Hypothesis Hopen : open_verified (staged_dir begin planes (bundle_root begin seal)) limits0 =
  Ok (begin, (λ p, mkVerifiedPlaneV1 p.1 p.2) <$> planes, seal).

Lemma prepare_live r : ∃ v c,
  verify_and_prepare_seal seal (coordinating_at planes None r, staged planes) =
    (Ok v, (c, mkFs (Some (staged_dir begin planes
       (<[str "seal.json" := json_of serde_SealManifestV1 seal]> (begin_root begin)))) None [])) ∧
  vs_seal v = seal ∧ bs_prepared (co_stager c) = Some seal ∧ bs_committed (co_stager c) = false ∧
  bs_aborted (co_stager c) = false ∧ co_terminal_prepared c = true ∧
  iv_begin (bs_verifier (co_stager c)) = begin ∧ iv_headers (bs_verifier (co_stager c)) = planes.*1.
Proof.
  eexists _, _. split.
  { unfold verify_and_prepare_seal, st_bind, st_get, st_lift, st_modify, st_ret, on_stager, on_verifier, verify_seal.
    cbn [fst snd co_stager co_pending_key coordinating_at bs_verifier receiving].
    rewrite bool_decide_eq_false_2 by (by intros []).
    cbn [fst snd co_stager co_pending_key co_ready_layers co_terminal_prepared coordinating_at bs_verifier receiving].
    rewrite (proj2 (verify_seal_iff begin limits0 planes seal _ _) (conj Hseal (conj eq_refl eq_refl))).
    cbn [commit fst snd co_stager]. unfold prepare_shared_seal, st_bind, st_get, st_lift.
    match goal with |- context [closed ?b] => change (closed b) with false end.
    cbv iota beta. unfold write_prepared_seal, st_bind, st_lift, st_modify. unfold canonical_json at 1. unfold on_fs.
    cbn [fst snd vs_seal staged].
    rewrite (write_new_sync_clean Root _ _ _ (staged_dir begin planes (begin_root begin))); [|done| |done].
    2: { cbn [place_files staged_dir d_root]. unfold begin_root. by rewrite lookup_singleton_ne by (intros [=]). }
    cbn [fst snd fs_final sync_dir fs_staging next_fault fs_faults bs_begin bs_committed bs_prepared bs_verifier
      bs_aborted co_stager co_pending_key co_ready_layers co_terminal_prepared put_file d_root d_layers staged_dir].
    reflexivity. }
  done.
Qed.
Lemma publish_live c :
  bs_prepared (co_stager c) = Some seal → bs_committed (co_stager c) = false →
  bs_aborted (co_stager c) = false → co_terminal_prepared c = true →
  ∃ c', coordinator_publish (c, mkFs (Some (staged_dir begin planes
      (<[str "seal.json" := json_of serde_SealManifestV1 seal]> (begin_root begin)))) None []) =
    (Ok tt, (c', mkFs None (Some (staged_dir begin planes (bundle_root begin seal))) [])).
Proof.
  intros Hp Hc Ha Ht. eexists. unfold coordinator_publish, st_bind at 1, st_get. cbn [fst]. rewrite Ht. cbn [negb].
  unfold on_stager. cbn [fst snd]. unfold stager_publish, st_bind, st_get, st_lift, st_modify, on_fs. cbn [fst snd].
  rewrite Hc, Ha, Hp. cbn [orb ok_or].
  erewrite (write_new_sync_clean Root); [|done| |done].
  2: { cbn [place_files put_file staged_dir d_root]. unfold begin_root. rewrite lookup_insert_ne by (intros [=]).
       by rewrite lookup_singleton_ne by (intros [=]). }
  cbn [fst snd fs_final sync_dir fs_staging next_fault fs_faults rename_noreplace sync_parent put_file d_root d_layers staged_dir].
  reflexivity.
Qed.
Lemma hmac_step_live (v : VerifiedSealV1) c (s : Session S) : vs_seal v = seal → se_coordinator s = Some c →
  iv_begin (bs_verifier (co_stager c)) = begin → iv_headers (bs_verifier (co_stager c)) = planes.*1 →
  (match rc_mac_key config with
   | Some key =>
       if bool_decide (bm_hmac_key_id begin = None) then
         st_lift (invalid "receiver armed for artifact HMAC but begin declares no hmac_key_id")
       else on_coordinator (s <- st_get ; st_lift (coordinator_authenticate s.1 v key))%stateful
   | None => st_ret tt
   end) s = (Ok tt, s).
Proof.
  intros Hv Hc Hb Hh. unfold seal_authenticated in Hauth. destruct (rc_mac_key config) as [key|]; [|done].
  destruct (Hauth key eq_refl) as [Hk Ha]. rewrite bool_decide_eq_false_2 by done.
  unfold on_coordinator. rewrite Hc. unfold st_bind, st_get, st_lift, coordinator_authenticate, authenticate_seal_hmac.
  cbn [fst]. rewrite Hv, Hb, Hh, Ha. destruct s. simpl in *. by subst.
Qed.
Lemma receive_terminal_live r w tail s :
  write_frame (FSeal seal) (rc_frame_limits config) = Ok w → live planes None r (w ++ tail) s →
  ∃ s' c, receive_terminal sink config begin s = (Ok seal, s') ∧
    se_reader s' = FrameReader_new tail (rc_frame_limits config) ∧ se_out s' = [] ∧
    se_fs s' = mkFs (Some (staged_dir begin planes
       (<[str "seal.json" := json_of serde_SealManifestV1 seal]> (begin_root begin)))) None [] ∧
    se_coordinator s' = Some c ∧ se_interrupts s' = [] ∧ bs_prepared (co_stager c) = Some seal ∧
    bs_committed (co_stager c) = false ∧ bs_aborted (co_stager c) = false ∧ co_terminal_prepared c = true.
Proof.
  intros Hw (Hrd & Ho & Hf & Hc & Hi). pose proof (read_header_complete (FSeal seal) _ _ tail Htseal Hw) as Hh.
  pose proof (read_payload_complete (FSeal seal) (rc_frame_limits config) tail) as Hp.
  cbn [frame_header frame_payload app] in Hh, Hp.
  destruct (prepare_live r) as (v & c & Hprep & Hvs & Hbp & Hbc & Hba & Hct & Hib & Hih).
  destruct s as [rd out fs co sk st ti it]. cbn [se_reader se_out se_fs se_coordinator se_interrupts] in *. subst rd out fs co it.
  destruct (ac_seal_verified Haccepting v sk) as [x' Hx].
  unfold receive_terminal. unfold st_bind at 1, on_reader at 1. fields. rewrite Hh. unfold st_bind at 1.
  rewrite check_clean by done. unfold st_bind at 1, on_reader at 1. fields. rewrite Hp.
  unfold st_bind at 1, on_coordinator at 1. fields. rewrite Hprep. unfold st_bind at 1. rewrite check_clean by done.
  unfold st_bind at 1. rewrite (hmac_step_live v c) by done.
  unfold st_bind at 1, set_state, st_modify. fields. unfold st_bind at 1, on_sink. fields. rewrite Hx.
  unfold st_bind at 1. rewrite check_clean by done. eexists _, c. split; [done|by split_and!].
Qed.
Lemma receive_seal_live r w tail s :
  write_frame (FSeal seal) (rc_frame_limits config) = Ok w → live planes None r (w ++ tail) s →
  ∃ s', receive_seal sink config begin limits0 s = (Ok (receipt begin (sm_artifact_sha256 seal)), s') ∧
    fr_reader (se_reader s') = tail ∧ se_out s' = ack ∧ se_state s' = Published ∧ se_interrupts s' = [] ∧
    se_fs s' = mkFs None (Some (staged_dir begin planes (bundle_root begin seal))) [].
Proof.
  intros Hw Hl. destruct (receive_terminal_live r w tail s Hw Hl)
    as (s1 & c & Ht & Hrd & Ho & Hf & Hc & Hi & Hbp & Hbc & Hba & Hct).
  destruct (publish_live c Hbp Hbc Hba Hct) as [c' Hpub]. unfold receive_seal. unfold st_bind at 1. rewrite Ht.
  destruct s1 as [rd out fs co sk st ti it]. cbn [se_reader se_out se_fs se_coordinator se_interrupts] in *. subst rd out fs co it.
  unfold st_bind at 1, on_coordinator. fields. rewrite Hpub. unfold acknowledge, st_bind at 1, st_get. fields.
  unfold st_bind at 1, st_lift at 1. cbn [fs_final ok_or mbind outcome_bind]. rewrite Hopen.
  unfold st_bind at 1, st_lift at 1. cbn [into_inner FrameReader_new fr_pending fr_reader].
  unfold st_bind at 1, send. rewrite Hack, Hpeer. fields. unfold st_bind at 1. rewrite check_clean by done.
  unfold st_bind at 1, set_state, st_modify, st_ret. fields. eexists. split; [done|by split_and!].
Qed.

Lemma receive_one_live w tail x : written config (stream_frames begin planes seal) w →
  ∃ s', receive_one sink config now (session_start config (w ++ tail) (mkFs None None []) x []) =
      (Ok (receipt begin (sm_artifact_sha256 seal)), s') ∧
    fr_reader (se_reader s') = tail ∧ se_out s' = ack ∧ se_state s' = Published ∧
    se_fs s' = mkFs None (Some (staged_dir begin planes (bundle_root begin seal))) [].
Proof.
  intros Hw. unfold stream_frames in Hw. apply written_cons_inv in Hw as (w1 & w' & Hw1 & (ws & Hws & ->) & ->).
  apply Forall2_app_inv_l in Hws as (ws2 & ws3 & Hws2 & Hws3 & ->).
  apply Forall2_cons_inv_l in Hws3 as (w3 & ws4 & Hw3 & Hws4 & ->). apply Forall2_nil_inv_l in Hws4 as ->.
  rewrite concat_app. cbn [concat]. rewrite app_nil_r, <-!app_assoc.
  destruct (receive_begin_live w1 (concat ws2 ++ w3 ++ tail) x Hw1) as (s1 & H1 & Hl1).
  destruct (slots_exist begin limits0 Hbegin Hvalid) as [slots Hslots].
  destruct (receive_slots slots Hslots [] slots [] planes (concat ws2) (w3 ++ tail) s1) as (s2 & H2 & Hl2); try done.
  { rewrite <-(so_planes _ _ _ Hslots). exact (planes_order begin limits0 planes Hbegin Haccepted Htyped Hplanes Hframes). }
  { by exists ws2. }
  destruct (receive_seal_live (zlen slots) w3 tail s2 Hw3 Hl2) as (s3 & H3 & Hr & Ho & Hst & Hi & Hf).
  exists s3. unfold receive_one, receive_session. unfold st_bind at 1. rewrite H1. unfold st_bind at 1. cbn [fst snd].
  rewrite <-Hframes. change (zlen []) with 0 in H2. rewrite H2, H3, check_clean by done. by split_and!.
Qed.
End live.
