(* ===== verification/HandoffSamples.v ===== *)
(** * Sample transfers

    A text layer that satisfies the laws assumed of serde_json, and a small
    one-layer transfer with its planes and seal, for the witnesses. *)
From Stdlib Require Import ZArith Lia.
From stdpp Require Import base tactics numbers list strings option sorting.
From S2P Require Import Prelude Bytes Canonical Crypto Samples HandoffJson HandoffMac.
From S2P Require Import HandoffManifest HandoffLayout HandoffValidation HandoffVerify.

(** ** A text layer
    Tagged values: strings and numbers as half-bytes 11..26 up to a 9, arrays
    between 5 and 6, objects between 7 and 8. *)
Module ToyJson.
Definition chars (b : bytes) : bytes := (b ≫= λ x, [11 + x / 16; 11 + x mod 16]) ++ [9].
Fixpoint parse_chars (s : bytes) : option (bytes * bytes) :=
  match s with
  | [] => None
  | c :: s =>
      if c =? 9 then Some ([], s) else
      match s with
      | [] => None
      | d :: s =>
          if (11 <=? c) && (c <? 27) && (11 <=? d) && (d <? 27) then
            r ← parse_chars s; Some ((c - 11) * 16 + (d - 11) :: r.1, r.2)
          else None
      end
  end.
Definition string_okb (b : bytes) : bool := bytes_okb b && utf8_valid b.

Fixpoint print (v : Value) : bytes :=
  match v with
  | JNull => [1]
  | JBool b => [2; if b then 1 else 2]
  | JNumber n => 3 :: chars (be_bytes 8 n)
  | JString s => 4 :: chars s
  | JArray l => 5 :: (fix go (l : list Value) := match l with [] => [6] | v :: l => print v ++ go l end) l
  | JObject l =>
      7 :: (fix go (l : list (bytes * Value)) :=
              match l with [] => [8] | (k, v) :: l => chars k ++ print v ++ go l end) l
  end.
Fixpoint parse_value (fuel : nat) (s : bytes) : option (Value * bytes) :=
  match fuel with
  | O => None
  | S fuel =>
      match s with
      | [] => None
      | t :: s =>
          if t =? 1 then Some (JNull, s) else
          if t =? 2 then
            match s with
            | b :: s => if b =? 1 then Some (JBool true, s) else if b =? 2 then Some (JBool false, s) else None
            | [] => None
            end else
          if t =? 3 then
            r ← parse_chars s;
            let n := be_val r.1 in if (0 <=? n) && (n <? u64_bound) then Some (JNumber n, r.2) else None else
          if t =? 4 then r ← parse_chars s; if string_okb r.1 then Some (JString r.1, r.2) else None else
          if t =? 5 then r ← parse_items fuel s; Some (JArray r.1, r.2) else
          if t =? 7 then r ← parse_entries fuel s; Some (JObject r.1, r.2) else None
      end
  end
with parse_items (fuel : nat) (s : bytes) : option (list Value * bytes) :=
  match fuel with
  | O => None
  | S fuel =>
      match s with
      | [] => None
      | t :: s' =>
          if t =? 6 then Some ([], s') else
          v ← parse_value fuel s; r ← parse_items fuel v.2; Some (v.1 :: r.1, r.2)
      end
  end
with parse_entries (fuel : nat) (s : bytes) : option (list (bytes * Value) * bytes) :=
  match fuel with
  | O => None
  | S fuel =>
      match s with
      | [] => None
      | t :: s' =>
          if t =? 8 then Some ([], s') else
          k ← parse_chars s;
          if string_okb k.1 then
            v ← parse_value fuel k.2; r ← parse_entries fuel v.2; Some ((k.1, v.1) :: r.1, r.2)
          else None
      end
  end.
Definition parse (b : bytes) : option Value :=
  match parse_value (length b) b with Some (v, []) => Some v | _ => None end.

(** *** The laws *)
Definition items (l : list Value) : bytes := (l ≫= print) ++ [6].
Definition entries (l : list (bytes * Value)) : bytes := (l ≫= λ e, chars e.1 ++ print e.2) ++ [8].
Lemma print_array l : print (JArray l) = 5 :: items l.
Proof.
  simpl. f_equal. unfold items. induction l as [|v l IH]; [done|]. cbn [mbind list_bind]. by rewrite <-app_assoc, <-IH.
Qed.
Lemma print_object l : print (JObject l) = 7 :: entries l.
Proof.
  simpl. f_equal. unfold entries. induction l as [|[k v] l IH]; [done|]. cbn [mbind list_bind fst snd].
  by rewrite <-!app_assoc, <-IH.
Qed.
Lemma string_okb_iff b : string_okb b = true ↔ string_ok b.
Proof.
  unfold string_okb, string_ok. rewrite andb_true_iff. split; intros [H1 H2]; split; try done.
  - by apply bytes_okb_ok.
  - unfold bytes_okb. apply List.forallb_forall. intros x Hx. apply list_elem_of_In in Hx. unfold bytes_ok in H1.
    rewrite list.Forall_forall in H1. destruct (H1 x Hx). unfold u8_bound in *. apply andb_true_intro. lia.
Qed.
Lemma half_bounds x : in_u8 x → 0 ≤ x / 16 < 16 ∧ 0 ≤ x mod 16 < 16.
Proof.
  unfold in_u8, u8_bound. intros Hx. pose proof (Z.mod_pos_bound x 16). split; [|lia].
  split; [apply Z.div_pos; lia|]. apply Z.div_lt_upper_bound; lia.
Qed.
Lemma parse_chars_app b rest : bytes_ok b → parse_chars (chars b ++ rest) = Some (b, rest).
Proof.
  unfold chars. rewrite <-app_assoc. induction 1 as [|x b Hx Hb IH]; [done|].
  cbn [mbind list_bind app] in *. pose proof (half_bounds x Hx) as [[? ?] [? ?]]. cbn [parse_chars].
  rewrite (proj2 (Z.eqb_neq (11 + x / 16) 9)) by lia.
  rewrite (proj2 (Z.leb_le 11 (11 + x / 16))), (proj2 (Z.ltb_lt (11 + x / 16) 27)), (proj2 (Z.leb_le 11 (11 + x mod 16))),
    (proj2 (Z.ltb_lt (11 + x mod 16) 27)) by lia.
  cbn [andb]. rewrite IH. cbn [mbind option_bind fst snd]. do 3 f_equal. pose proof (Z.div_mod x 16). lia.
Qed.
Lemma chars_ok b : bytes_ok b → bytes_ok (chars b) ∧ 10 ∉ chars b ∧ (1 ≤ length (chars b))%nat ∧
  (∀ rest, ∃ c s, chars b ++ rest = c :: s ∧ c ≠ 8).
Proof.
  intros Hb. unfold chars. split_and!.
  - apply bytes_ok_app. split; [|repeat constructor; unfold in_u8, u8_bound; lia].
    induction Hb as [|x b Hx Hb IH]; [constructor|]. pose proof (half_bounds x Hx). cbn [mbind list_bind app].
    repeat constructor; unfold in_u8, u8_bound; lia || apply IH.
  - rewrite elem_of_app. intros [H|H]; [|by apply list_elem_of_singleton in H].
    apply list_elem_of_bind in H as (x & H & Hx). unfold bytes_ok in Hb. rewrite list.Forall_forall in Hb.
    pose proof (half_bounds x (Hb x Hx)). rewrite !elem_of_cons, elem_of_nil in H. lia.
  - rewrite length_app. simpl. lia.
  - intros rest. destruct Hb as [|x b Hx Hb]; [by exists 9, rest|]. cbn [mbind list_bind app].
    pose proof (half_bounds x Hx). eexists _, _. split; [done|lia].
Qed.

Lemma print_length v : (1 ≤ length (print v))%nat.
Proof. destruct v; simpl; lia. Qed.
Lemma print_head v rest : ∃ c s, print v ++ rest = c :: s ∧ c ≠ 6.
Proof. destruct v; simpl; eauto. Qed.

Lemma items_cons v l : items (v :: l) = print v ++ items l.
Proof. unfold items. cbn [mbind list_bind]. by rewrite <-app_assoc. Qed.
Lemma entries_cons k v l : entries ((k, v) :: l) = chars k ++ print v ++ entries l.
Proof. unfold entries. cbn [mbind list_bind fst snd]. by rewrite <-!app_assoc. Qed.

Lemma tail_length l k : (1 ≤ length (items l))%nat ∧ (1 ≤ length (entries k))%nat.
Proof. unfold items, entries. rewrite !length_app. simpl. lia. Qed.

Definition parses v : Prop := ∀ fuel rest, (length (print v) ≤ fuel)%nat →
  parse_value fuel (print v ++ rest) = Some (v, rest).
Lemma parse_items_app l : Forall parses l → ∀ fuel rest, (length (items l) ≤ fuel)%nat →
  parse_items fuel (items l ++ rest) = Some (l, rest).
Proof.
  induction 1 as [|v l Hv _ IH]; intros fuel rest Hf; (destruct fuel as [|fuel]; [|]).
  - simpl in Hf. lia.
  - done.
  - rewrite items_cons, length_app in Hf. pose proof (print_length v). lia.
  - rewrite items_cons, length_app in Hf. pose proof (print_length v). pose proof (tail_length l []). rewrite items_cons, <-app_assoc.
    destruct (print_head v (items l ++ rest)) as (c & s & E & Hc). cbn [parse_items]. rewrite E.
    rewrite (proj2 (Z.eqb_neq c 6) Hc), <-E. rewrite Hv by lia. cbn [mbind option_bind fst snd].
    by rewrite IH by lia.
Qed.
Lemma parse_entries_app l : Forall (λ e, string_ok e.1 ∧ parses e.2) l → ∀ fuel rest, (length (entries l) ≤ fuel)%nat →
  parse_entries fuel (entries l ++ rest) = Some (l, rest).
Proof.
  induction 1 as [|[k v] l [Hk Hv] _ IH]; intros fuel rest Hf; (destruct fuel as [|fuel]; [|]); cbn [fst snd] in *.
  - simpl in Hf. lia.
  - done.
  - rewrite entries_cons, !length_app in Hf. pose proof (print_length v). lia.
  - rewrite entries_cons, !length_app in Hf. pose proof (print_length v). pose proof (tail_length [] l). rewrite entries_cons, <-!app_assoc.
    destruct (chars_ok k (proj1 Hk)) as (_ & _ & ? & Hh). destruct (Hh (print v ++ entries l ++ rest)) as (c & s & E & Hc).
    cbn [parse_entries]. rewrite E.
    rewrite (proj2 (Z.eqb_neq c 8) Hc), <-E. rewrite parse_chars_app by apply Hk. cbn [mbind option_bind fst snd].
    rewrite (proj2 (string_okb_iff k) Hk), Hv by lia. cbn [mbind option_bind fst snd]. by rewrite IH by lia.
Qed.
Lemma parse_print_fuel v : value_ok v → parses v.
Proof.
  induction v as [|b|n|s|l IH|l IH] using Value_nested_ind; intros Hv fuel rest Hf;
    (destruct fuel as [|fuel]; [simpl in Hf; lia|]).
  - done.
  - by destruct b.
  - inversion Hv as [| |? Hn| | |]; subst. cbn [print app parse_value]. cbn [Z.eqb Pos.eqb].
    rewrite parse_chars_app by apply be_bytes_ok. cbn [mbind option_bind fst snd].
    rewrite be_val_be_bytes by (unfold in_u64, u64_bound in Hn; simpl; lia).
    unfold in_u64 in Hn. rewrite (proj2 (Z.leb_le 0 n)), (proj2 (Z.ltb_lt n _)) by lia. done.
  - inversion Hv as [| | |? Hs| |]; subst. cbn [print app parse_value]. cbn [Z.eqb Pos.eqb].
    rewrite parse_chars_app by apply Hs. cbn [mbind option_bind fst snd]. by rewrite (proj2 (string_okb_iff s) Hs).
  - rewrite print_array in *. cbn [app parse_value]. cbn [Z.eqb Pos.eqb].
    inversion Hv as [| | | |? Hl|]; subst. rewrite parse_items_app; [done| |simpl in Hf; lia].
    rewrite list.Forall_forall in *. auto.
  - rewrite print_object in *. cbn [app parse_value]. cbn [Z.eqb Pos.eqb].
    inversion Hv as [| | | | |? Hl]; subst. rewrite parse_entries_app; [done| |simpl in Hf; lia].
    rewrite list.Forall_forall in *. intros e He. destruct (Hl e He). split; [done|]. by apply IH.
Qed.

Lemma parse_ok_fuel fuel :
  (∀ s v r, parse_value fuel s = Some (v, r) → value_ok v) ∧
  (∀ s l r, parse_items fuel s = Some (l, r) → Forall value_ok l) ∧
  (∀ s l r, parse_entries fuel s = Some (l, r) → Forall (λ e, string_ok e.1 ∧ value_ok e.2) l).
Proof.
  induction fuel as [|fuel (IHv & IHi & IHe)]; [done|]. split_and!; intros s x r Hp; cbn in Hp.
  - destruct s as [|t s]; [done|].
    repeat match type of Hp with (if ?b then _ else _) = _ => destruct b eqn:? end; try done;
      try (apply bind_Some in Hp as ([a b'] & Ha & Hp); cbn [fst snd] in Hp).
    + injection Hp as <- _. constructor.
    + destruct s as [|b s]; [done|]. repeat case_match; simplify_eq; constructor.
    + case_match; [|done]. injection Hp as <- _. constructor. bools. unfold in_u64. lia.
    + case_match; [|done]. injection Hp as <- _. constructor. by apply string_okb_iff.
    + injection Hp as <- _. constructor. by eapply IHi.
    + injection Hp as <- _. constructor. by eapply IHe.
  - destruct s as [|t s]; [done|]. destruct (t =? 6); [injection Hp as <- _; constructor|].
    apply bind_Some in Hp as ([a b] & Ha & Hp). apply bind_Some in Hp as ([l b'] & Hl & Hp). injection Hp as <- _.
    constructor; eauto.
  - destruct s as [|t s]; [done|]. destruct (t =? 8); [injection Hp as <- _; constructor|].
    apply bind_Some in Hp as ([k b] & Hk & Hp). cbn [fst snd] in Hp. destruct (string_okb k) eqn:Hs; [|done].
    apply bind_Some in Hp as ([a b'] & Ha & Hp). apply bind_Some in Hp as ([l b''] & Hl & Hp). injection Hp as <- _.
    constructor; [split; [by apply string_okb_iff|]|]; cbn [fst snd] in *; eauto.
Qed.
Lemma print_ok v : value_ok v → bytes_ok (print v) ∧ 10 ∉ print v.
Proof.
  assert (∀ x, 0 ≤ x < 9 → ∀ b, bytes_ok b ∧ 10 ∉ b → bytes_ok (x :: b) ∧ 10 ∉ x :: b) as Hcons.
  { intros x Hx b [Hb Hn]. rewrite not_elem_of_cons. split; [constructor; [unfold in_u8, u8_bound; lia|done]|].
    split; [lia|done]. }
  assert (∀ a b, bytes_ok a ∧ 10 ∉ a → bytes_ok b ∧ 10 ∉ b → bytes_ok (a ++ b) ∧ 10 ∉ a ++ b) as Happ.
  { intros a b [Ha Hna] [Hb Hnb]. rewrite not_elem_of_app, bytes_ok_app. done. }
  assert (bytes_ok [] ∧ 10 ∉ ([] : bytes)) as Hnil by (split; [constructor|apply not_elem_of_nil]).
  induction v as [|b|n|s|l IH|l IH] using Value_nested_ind; intros Hv.
  - by apply Hcons.
  - apply Hcons; [lia|]. destruct b; by apply Hcons.
  - destruct (chars_ok (be_bytes 8 n)) as (? & ? & _); [apply be_bytes_ok|]. apply Hcons; [lia|done].
  - inversion Hv as [| | |? Hs| |]; subst. destruct (chars_ok s (proj1 Hs)) as (? & ? & _). by apply Hcons.
  - inversion Hv as [| | | |? Hl|]; subst. rewrite print_array. apply Hcons; [lia|]. clear Hv.
    induction l as [|v l IHl]; [by apply Hcons|]. apply Forall_cons in IH as [? IH], Hl as [? Hl].
    rewrite items_cons. apply Happ; auto.
  - inversion Hv as [| | | | |? Hl]; subst. rewrite print_object. apply Hcons; [lia|]. clear Hv.
    induction l as [|[k v] l IHl]; [by apply Hcons|]. apply Forall_cons in IH as [? IH], Hl as [[Hk ?] Hl].
    rewrite entries_cons. destruct (chars_ok k (proj1 Hk)) as (? & ? & _).
    apply Happ; [done|]. apply Happ; auto.
Qed.
End ToyJson.

Definition toy_json : JsonText := {| json_print := ToyJson.print; json_parse := ToyJson.parse |}.
Lemma toy_json_laws : JsonTextLaws toy_json.
Proof.
  split; cbn [json_print json_parse toy_json].
  - intros v Hv _. unfold ToyJson.parse. pose proof (ToyJson.parse_print_fuel v Hv (length (ToyJson.print v)) []) as Hp.
    rewrite app_nil_r in Hp. by rewrite Hp.
  - intros v Hv. destruct (ToyJson.print_ok v Hv) as [? ?]. split_and!; try done. pose proof (ToyJson.print_length v).
    by destruct (ToyJson.print v); [simpl in *; lia|].
  - intros b v _ Hp. unfold ToyJson.parse in Hp. destruct (ToyJson.parse_value _ _) as [[v' []]|] eqn:E; [|done..].
    injection Hp as <-. by eapply (ToyJson.parse_ok_fuel (length b)).
Qed.
Module ToyJsonInstances.
#[export] Existing Instance toy_json.
#[export] Existing Instance toy_json_laws.
End ToyJsonInstances.
Import ToyInstances ToyJsonInstances.

(** ** A transfer
    Two classes: layer 0 with K and V planes, layer 1 with one latent plane,
    one cached token, authenticated by an artifact HMAC. *)
Module Transfer.
Definition digest : bytes := replicate 64 97.
Definition limits : ValidationLimits := mkValidationLimits 16 1000 64 64 8 60000 1024 5000.
Definition kv_class : LayoutClassV2 :=
  mkLayoutClassV2 (str "full-attention") (str "float16") [] 0 1 1 [Key; Value_role] 1 1 0.
Definition latent_class : LayoutClassV2 :=
  mkLayoutClassV2 (str "mla-latent") (str "float16") [] 1 2 1 [Key] 1 2 0.
Definition prompt : list Z := [7; 8].
Definition begin : BeginManifestV1 :=
  mkBeginManifestV1 1 4000 9000
    (mkEndpointIdentityV1 (str "engine") (str "decode-0") (str "engine") (str "prefill-0") (str "lab"))
    3 8 (mkGeometryV1 0 32 0 2)
    (mkExactIdentityV1 digest digest digest (str "r1") digest (str "t1") digest)
    PORTABLE_KV_ABI_V2 (mkPrecisionV1 (str "float16") (str "float16") (str "bf16"))
    LIVE_HANDOFF_PROTOCOL_V1 LIVE_HANDOFF_SCHEMA_V1 ConsumerLastPromptToken
    (token_ids_sha256 prompt) digest [kv_class; latent_class] None (Some (str "key-1")).
Definition header (sequence layer : Z) (role : TensorRoleV1) (class : LayoutClassV2) (payload : bytes) : LayerHeaderV1 :=
  mkLayerHeaderV1 (zlen payload) layer 1 0 role LIVE_HANDOFF_SCHEMA_V1 sequence (sha256_hex payload)
    (1, lc_kv_heads class, lc_head_dim class) digest None (Some (lc_class class)).
Definition planes : plane_stream :=
  [(header 0 0 Key kv_class [1; 2], [1; 2]); (header 1 0 Value_role kv_class [3; 4], [3; 4]);
   (header 2 1 Key latent_class [5; 6; 7; 8], [5; 6; 7; 8])].
Definition key : MacKey := replicate 32 1.
Definition get (r : hresult bytes) : bytes := match r with Ok b => b | _ => [] end.
Definition core : SealCoreV1 :=
  mkSealCoreV1 6000 (get (descriptor_chain_sha256 planes.*1)) 3 8 (sha256_hex (all_payload planes)) prompt
    LIVE_HANDOFF_PROTOCOL_V1 LIVE_HANDOFF_SCHEMA_V1 ConsumerLastPromptToken (token_ids_sha256 prompt) digest None.
Definition seal : SealManifestV1 :=
  mkSealManifestV1 (get (artifact_sha256 begin planes.*1 core))
    (Some (get (artifact_hmac_sha256 begin planes.*1 core key))) core.

(** A value that its own canonical text decodes to is an inhabitant of its type. *)
Lemma typed_by_decode {A} (s : Serde A) `{!SerdeLaws s} `{!SerdeDepth s json_depth} (a : A) :
  bytes_okb (get (canonical_json s a)) = true →
  decode_canonical_json s (get (canonical_json s a)) 4096 = Ok a → typed_as s a.
Proof. intros Hb Hd. apply bytes_okb_ok in Hb. by apply decode_canonical_json_iff in Hd as (_ & _ & ?). Qed.
Lemma begin_typed : typed_as serde_BeginManifestV1 begin.
Proof. refine (typed_by_decode serde_BeginManifestV1 begin _ _); vm_compute; reflexivity. Qed.
Lemma seal_typed : typed_as serde_SealManifestV1 seal.
Proof. refine (typed_by_decode serde_SealManifestV1 seal _ _); vm_compute; reflexivity. Qed.
Lemma planes_typed : Forall (λ p, typed_as serde_LayerHeaderV1 p.1) planes.
Proof.
  unfold planes. repeat (apply list.Forall_cons; split; [refine (typed_by_decode serde_LayerHeaderV1 _ _ _); vm_compute; reflexivity|]).
  constructor.
Qed.
Lemma begin_valid : begin_validate begin limits = Ok tt.
Proof. vm_compute. reflexivity. Qed.
Lemma seal_valid : seal_validate_for seal begin planes.*1 (total_bytes planes) (sha256_hex (all_payload planes)) = Ok tt.
Proof. vm_compute. reflexivity. Qed.
Lemma planes_valid : planes_accepted begin limits planes.
Proof.
  intros i h p Hi. destruct i as [|[|[|i]]]; [..|done]; injection Hi as <- <-;
    (split; [vm_compute; reflexivity|vm_compute; discriminate|vm_compute; reflexivity|vm_compute; reflexivity|]);
    intros Hx; vm_compute in Hx; discriminate.
Qed.
End Transfer.
