(* ===== verification/HandoffProperties.v ===== *)
(** * Properties of the live handoff

    What the handoff crate promises, end to end, and a witness for each. *)
From Stdlib Require Import ZArith Lia.
From stdpp Require Import base tactics numbers list strings option sorting gmap.
From S2P Require Import Prelude Bytes Canonical Crypto Samples HandoffJson HandoffMac.
From S2P Require Import HandoffManifest HandoffLayout HandoffValidation HandoffLayoutLaws.
From S2P Require Import HandoffValidationLaws HandoffFrame HandoffVerify HandoffBundle.
From S2P Require Import HandoffSession HandoffSessionLaws HandoffLiveness HandoffSamples.

Section properties.
Context `{CL : CryptoLaws} `{JL : JsonTextLaws} `{PS : PeerSocket}.
Implicit Types (begin : BeginManifestV1) (limits : ValidationLimits) (planes : plane_stream).
Implicit Types (seal : SealManifestV1).

(** What a decoder of [s] accepts. *)
Definition decodes_exactly {A} (s : Serde A) : Prop := ∀ b max,
  bytes_ok b → ¬ panics (decode_canonical_json s b max) ∧
  ∀ a, decode_canonical_json s b max = Ok a ↔ canonical_json s a = Ok b ∧ zlen b ≤ max ∧ typed_as s a.

(** C34: A manifest decoder (BEGIN, layer header, SEAL, ABORT, ACK) accepts a byte
    string exactly when it is within the bound and is the canonical JSON of a
    value of the manifest's type, which is the value it returns; the types
    bound every integer and make every string UTF-8, and no input makes a
    decoder panic. *)
Theorem manifests_decode_exactly :
  decodes_exactly serde_BeginManifestV1 ∧ decodes_exactly serde_LayerHeaderV1 ∧
  decodes_exactly serde_SealManifestV1 ∧ decodes_exactly serde_AbortManifestV1 ∧
  decodes_exactly serde_AckManifestV1.
Proof.
  split_and!; intros b max Hb; (split; [apply decode_canonical_json_no_panic|intros a; exact (decode_canonical_json_iff _ _ _ _ Hb)]).
Qed.

(** C33: Validation of a begin manifest never panics, and an accepted one plans every
    plane: the frame count and the payload total are those of the planned
    planes, no plane is planned twice, every declared layer has its key plane
    and only declared layers appear, each plane has at least one byte and at
    most the frame bound, and the total is within the configured bound. *)
Theorem begin_plan_exact begin limits : typed_as serde_BeginManifestV1 begin →
  ¬ panics (begin_validate begin limits) ∧
  (begin_validate begin limits = Ok tt →
   bm_expected_layer_frames begin = zlen (planned_planes begin) ∧
   bm_expected_payload_bytes begin = zsum (planned_bytes begin) ∧
   zsum (planned_bytes begin) ≤ vl_max_total_bytes limits ∧
   Forall (λ n, 0 < n ≤ vl_max_frame_bytes limits) (planned_bytes begin) ∧ NoDup (planned_planes begin) ∧
   (∀ l, 0 ≤ l < ge_num_layers (bm_geometry begin) ↔ (l, Key) ∈ planned_planes begin) ∧
   ∀ l r, (l, r) ∈ planned_planes begin → 0 ≤ l < ge_num_layers (bm_geometry begin)).
Proof.
  intros Hb. pose proof (begin_typed_dims _ Hb) as Hd. pose proof (begin_typed_geometry _ Hb) as (? & ? & Hn).
  split; [by apply begin_validate_no_panic|]. intros Hv. destruct (begin_validate_ok _ _ Hd Hn Hv).
  split_and!; try done; [by rewrite <-ba_total| |].
  - apply list.Forall_and; split; [by apply ba_positive|done].
  - intros l. split; [apply ba_every|apply ba_range].
Qed.

(** A protocol tag verifies exactly when it is the tag of its domain and stream,
    and a tag that verifies for two domain and stream pairs under one key
    belongs to the same pair, or the two hashed messages are an HMAC
    collision. *)
Theorem mac_domain_separated key domain stream domain' stream' tag :
  verify_domain_hex key domain stream tag = Ok tt → verify_domain_hex key domain' stream' tag = Ok tt →
  tag_domain_hex key domain stream = Ok tag ∧
  ((domain = domain' ∧ stream = stream') ∨
   collides (hmac_sha256 key) (domain_stream domain stream) (domain_stream domain' stream')).
Proof.
  rewrite !verify_domain_hex_iff. intros H1 H2. split; [done|]. unfold tag_domain_hex in *.
  destruct (domain_ok domain) eqn:Hd, (domain_ok domain') eqn:Hd'; cbn [negb] in *; try done.
  injection H1 as <-. injection H2 as E. apply hex_encode_inj in E; [|apply hmac_id..]. symmetry in E.
  apply hash_eq_or_collides in E as [E|?]; [left|by right]. by apply domain_stream_inj.
Qed.

(** The artifact digest and the artifact HMAC bind a transfer: two transfers of
    well-typed manifests with the same digest (or the same HMAC under one key)
    agree on the begin manifest, on every layer header in order and on the
    seal core, or the two hashed streams collide. *)
Theorem artifact_binds_transfer begin headers core begin' headers' core' key d t :
  typed_as serde_BeginManifestV1 begin → typed_as serde_BeginManifestV1 begin' →
  Forall (typed_as serde_LayerHeaderV1) headers → Forall (typed_as serde_LayerHeaderV1) headers' →
  typed_as serde_SealCoreV1 core → typed_as serde_SealCoreV1 core' →
  (artifact_sha256 begin headers core = Ok d → artifact_sha256 begin' headers' core' = Ok d →
   (begin = begin' ∧ headers = headers' ∧ core = core') ∨
   streams_collide sha256_digest (artifact_stream begin headers core) (artifact_stream begin' headers' core')) ∧
  (artifact_hmac_sha256 begin headers core key = Ok t → artifact_hmac_sha256 begin' headers' core' key = Ok t →
   (begin = begin' ∧ headers = headers' ∧ core = core') ∨
   streams_collide (hmac_sha256 key) (artifact_mac_stream begin headers core)
     (artifact_mac_stream begin' headers' core')).
Proof. intros. split; intros; [by eapply artifact_sha256_binds|by eapply artifact_hmac_binds]. Qed.

(** Reading a frame from a stream succeeds exactly when the stream starts with
    the bytes that writing this frame produces, for a frame of well-typed
    manifests whose layer header announces its payload; the reader then
    stands right after it. *)
Theorem frame_read_exactly s (limits : FrameLimits) f rest : bytes_ok s →
  read_frame s limits = (Ok f, rest) ↔ frame_ok f ∧ ∃ w, write_frame f limits = Ok w ∧ s = w ++ rest.
Proof.
  intros Hs. split; [by apply read_frame_sound|]. intros (Hf & w & Hw & ->). by apply read_frame_complete.
Qed.

(** C16: Verifying a stream incrementally, plane by plane with running hashes and a
    precomputed layout walk, accepts exactly the streams whose begin manifest,
    planes and seal pass the one-shot checks on the complete stream, and
    yields the same seal record. *)
Theorem incremental_is_one_shot begin limits planes seal w :
  typed_as serde_BeginManifestV1 begin → typed_as serde_SealManifestV1 seal →
  (∃ v, verify_stream begin limits planes seal = Ok (w, v)) ↔
  begin_validate begin limits = Ok tt ∧ planes_accepted begin limits planes ∧
  seal_validate_for seal begin planes.*1 (total_bytes planes) (sha256_hex (all_payload planes)) = Ok tt ∧
  w = mkVerifiedSealV1 seal (bm_transfer_id begin) (sc_descriptor_chain_sha256 (sm_core seal))
        (sha256_hex (all_payload planes)).
Proof. apply verify_stream_iff. Qed.

(** C25: Whatever faults the file system injects, a bundle run that reports success
    has published a directory and left no staging directory behind; opening
    what it published succeeds exactly when the begin manifest, the seal and
    every layer header are at most one mebibyte of JSON, and then returns
    exactly the staged begin manifest, planes and seal.  (The stager itself
    puts no bound on the manifests it writes.) *)
Theorem bundle_success_reopens begin limits planes seal fs b fs' :
  typed_as serde_BeginManifestV1 begin → typed_as serde_SealManifestV1 seal →
  Forall (λ p, typed_as serde_LayerHeaderV1 p.1) planes →
  stage_bundle begin limits planes seal fs = (Ok b, fs') →
  ∃ dir, fs_final fs' = Some dir ∧ fs_staging fs' = None ∧
    ∀ x, open_verified dir limits = Ok x ↔
      manifests_fit begin planes seal ∧ x = (begin, (λ p, mkVerifiedPlaneV1 p.1 p.2) <$> planes, seal).
Proof. apply bundle_reopens. Qed.

(** ** The receiver *)
Context {S : Type} (sink : ReceiverSinkV1 S) (config : ReceiverConfigV1) (now : Z).
Let limits0 := validation_limits_at (rc_validation_limits config) now.

(** C13: A session that reports a receipt read, from the front of its input, exactly
    the BEGIN frame, the layer frames and the SEAL frame of one accepted
    stream (armed expectations, one-shot checks and, when the receiver is
    armed with a key, the artifact HMAC), published a bundle that reopens to
    that stream, wrote its acknowledgement and nothing else, and ended in the
    published state with the receipt of that stream, whatever the faults of
    disk and connection, the interrupts and the sink. *)
Theorem session_receipt_sound input fs0 st0 reasons r s' :
  bytes_ok input →
  receive_one sink config now (session_start config input fs0 st0 reasons) = (Ok r, s') →
  ∃ begin planes seal w dir,
    input = w ++ fr_reader (se_reader s') ∧ written config (stream_frames begin planes seal) w ∧
    stream_accepted config now begin planes seal ∧
    write_frame (FAck (AckManifestV1_committed begin seal)) (rc_frame_limits config) = Ok (se_out s') ∧
    se_state s' = Published ∧ fs_final (se_fs s') = Some dir ∧ fs_staging (se_fs s') = None ∧
    open_verified dir limits0 = Ok (begin, (λ p, mkVerifiedPlaneV1 p.1 p.2) <$> planes, seal) ∧
    r = receipt begin (sm_artifact_sha256 seal).
Proof.
  intros Hin Hr. apply receive_one_cases in Hr as (_ & s1 & Hr & E1 & E2 & E3 & E4); [|done].
  apply receive_session_Ok in Hr as (begin & planes & seal & w & ack & dir & Hi & Hw & Ha & Hack & Ho & Hp & Hf & Hs & Hop & Hrr);
    [|done..].
  exists begin, planes, seal, w, dir. rewrite E1, E2, E3, E4, Ho. done.
Qed.

(** C14: A session that fails, at any point and for any reason (malformed input,
    rejected manifest, sink, interrupt, disk or connection fault), ends in the aborted
    state with the sink aborted, and the final directory is as it was before
    the session or holds a complete accepted stream: no partial bundle ever
    becomes visible. *)
Theorem session_failure_safe input fs0 st0 reasons e s' :
  bytes_ok input → receive_one sink config now (session_start config input fs0 st0 reasons) = (Err e, s') →
  se_state s' = Aborted ∧ (∃ s1, se_sink s' = sink_abort sink s1) ∧
  (fs_final (se_fs s') = fs_final fs0 ∨
   ∃ begin planes seal, fs_final (se_fs s') = Some (staged_dir begin planes (bundle_root begin seal)) ∧
     stream_accepted config now begin planes seal).
Proof.
  intros Hin Hr. apply receive_one_cases in Hr as (Hs & Ha & Hk); [|done]. split_and!; [done..|].
  destruct Hs as [Hs|(dir & Hs & begin & planes & seal & -> & Hacc)]; [by left|right]. eauto 10.
Qed.

(** C15: Every accepted stream is received: on a fresh file system, without
    faults of disk or connection and without interrupts, with a sink that
    accepts every call and releases a layer permit whenever it holds both
    (a sink that keeps them blocks the session for ever), and with manifests
    of at most one mebibyte of JSON (larger ones do not reopen), the session
    consumes the frames of the stream and nothing after them, publishes the
    bundle, acknowledges it and returns its receipt. *)
Theorem session_completes begin planes seal w ack tail x :
  typed_as serde_BeginManifestV1 begin → Forall frame_ok (layer_frames planes) →
  typed_as serde_SealManifestV1 seal → manifests_fit begin planes seal →
  accepting sink → reading_peer → stream_accepted config now begin planes seal →
  written config (stream_frames begin planes seal) w →
  write_frame (FAck (AckManifestV1_committed begin seal)) (rc_frame_limits config) = Ok ack →
  ∃ s', receive_one sink config now (session_start config (w ++ tail) (mkFs None None []) x []) =
      (Ok (receipt begin (sm_artifact_sha256 seal)), s') ∧
    fr_reader (se_reader s') = tail ∧ se_out s' = ack ∧ se_state s' = Published ∧
    se_fs s' = mkFs None (Some (staged_dir begin planes (bundle_root begin seal))) [].
Proof.
  intros Hb Hok Hs Hfit Hsink Hpeer [Hval Hexp Hpl Hseal Hauth] Hw Hack.
  assert (Forall (λ p, typed_as serde_LayerHeaderV1 p.1) planes) as Ht.
  { unfold layer_frames in Hok. rewrite Forall_fmap in Hok. eapply list.Forall_impl; [exact Hok|]. by intros [h p] [? _]. }
  destruct (bundle_publishes begin limits0 planes seal Hb Hs Ht Hval Hpl Hseal) as (b & Hst & _).
  apply stage_bundle_Ok in Hst as (_ & _ & Hvp & _ & _ & Hholds & _).
  assert (zlen planes = bm_expected_layer_frames begin) as Hfr.
  { pose proof Hseal as Hx. unfold seal_validate_for in Hx. cbv zeta in Hx. inv_ok. bools. rewrite zlen_fmap in *. lia. }
  eapply receive_one_live; try done. by apply staged_reopens_iff.
Qed.
End properties.

(** Under every interleaving of acquiring, refused, releasing and repeated
    release of layer permits, the pool's two counters add up to its capacity
    of 1 to 64, the in-use counter is the number of live permits, and a permit
    is refused exactly when as many as the capacity are live. *)
Theorem permits_bounded capacity p live : 0 ≤ capacity → pool_reachable capacity (p, live) →
  1 ≤ capacity ≤ 64 ∧ ps_available (pp_state p) + ps_in_use (pp_state p) = capacity ∧
  ps_in_use (pp_state p) = Z.of_nat (size live) ∧
  (try_acquire p = None ↔ Z.of_nat (size live) = capacity).
Proof.
  intros H0 Hr. apply pool_reachable_inv in Hr as (Hc & Hb & Hu & Ha & Hn); [|done].
  split_and!; try lia. unfold try_acquire. destruct (Z.eqb_spec (ps_available (pp_state p)) 0); (split; [|]); try done; lia.
Qed.

Module HandoffWitnesses.
Import ToyInstances ToyJsonInstances Transfer.
Definition config : ReceiverConfigV1 :=
  mkReceiverConfigV1 FrameLimits_default limits
    (mkReceiverBeginExpectationsV1 1 (bm_endpoints begin) (bm_geometry begin) (bm_identity begin)
       PORTABLE_KV_ABI_V2 (bm_precision begin) ConsumerLastPromptToken (token_ids_sha256 prompt)
       [kv_class; latent_class])
    (Some key).
Definition frame_bytes (f : Frame) : bytes := get (write_frame f FrameLimits_default).
Definition stream : bytes := concat (frame_bytes <$> stream_frames begin planes seal).
(** A peer that takes every write. *)
#[local] Instance open_socket : PeerSocket := λ _ _, None.
Notation session input faults :=
  (receive_one BundleOnlyReceiverSinkV1 config 5000
    (session_start config input (mkFs None None faults) tt [])).

Definition begin_json : bytes := get (canonical_json serde_BeginManifestV1 begin).
Lemma manifests_decode_exactly_witness : decode_canonical_json serde_BeginManifestV1 begin_json 4096 = Ok begin.
Proof.
  refine (proj2 (proj2 (proj1 manifests_decode_exactly begin_json 4096 _) begin) _).
  - apply bytes_okb_ok. vm_compute. reflexivity.
  - split; [vm_compute; reflexivity|]. split; [vm_compute; discriminate|exact begin_typed].
Defined.
Lemma begin_plan_exact_witness : NoDup (planned_planes begin) ∧ zlen (planned_planes begin) = 3.
Proof.
  destruct (begin_plan_exact begin limits begin_typed) as [_ Hp].
  destruct (Hp begin_valid) as (Hf & _ & _ & _ & Hn & _). split; [exact Hn|]. rewrite <-Hf. reflexivity.
Defined.
Definition domain : bytes := [100].
Definition tag : bytes := get (tag_domain_hex key domain [1; 2]).
Lemma mac_domain_separated_witness : tag_domain_hex key domain [1; 2] = Ok tag.
Proof. refine (proj1 (mac_domain_separated key domain [1; 2] domain [1; 2] tag _ _)); vm_compute; reflexivity. Defined.
Lemma headers_typed : Forall (typed_as serde_LayerHeaderV1) planes.*1.
Proof. apply Forall_fmap. exact planes_typed. Qed.
Lemma core_typed : typed_as serde_SealCoreV1 core.
Proof. refine (typed_by_decode serde_SealCoreV1 core _ _); vm_compute; reflexivity. Qed.
Lemma artifact_binds_transfer_witness :
  (begin = begin ∧ planes.*1 = planes.*1 ∧ core = core) ∨
  streams_collide sha256_digest (artifact_stream begin planes.*1 core) (artifact_stream begin planes.*1 core).
Proof.
  refine (proj1 (artifact_binds_transfer begin planes.*1 core begin planes.*1 core key (sm_artifact_sha256 seal) []
    begin_typed begin_typed headers_typed headers_typed core_typed core_typed) _ _); vm_compute; reflexivity.
Defined.
Lemma frame_read_exactly_witness : read_frame (frame_bytes (FBegin begin) ++ [1; 2]) FrameLimits_default = (Ok (FBegin begin), [1; 2]).
Proof.
  refine (proj2 (frame_read_exactly _ _ _ _ _) _).
  - apply bytes_okb_ok. vm_compute. reflexivity.
  - split; [exact begin_typed|]. exists (frame_bytes (FBegin begin)). split; [vm_compute|]; reflexivity.
Defined.
Definition verified : VerifiedSealV1 :=
  mkVerifiedSealV1 seal (bm_transfer_id begin) (sc_descriptor_chain_sha256 (sm_core seal)) (sha256_hex (all_payload planes)).
Lemma incremental_is_one_shot_witness : ∃ v, verify_stream begin limits planes seal = Ok (verified, v).
Proof.
  refine (proj2 (incremental_is_one_shot begin limits planes seal verified begin_typed seal_typed) _).
  split; [exact begin_valid|]. split; [exact planes_valid|]. split; [exact seal_valid|reflexivity].
Defined.
Definition published : hresult BundleStager * Fs := stage_bundle begin limits planes seal (mkFs None None [NoFault; NoFault]).
Lemma published_Ok : ∃ b,
  stage_bundle begin limits planes seal (mkFs None None [NoFault; NoFault]) = (Ok b, published.2).
Proof. eexists. vm_compute. reflexivity. Qed.
Lemma manifests_small : manifests_fit begin planes seal.
Proof.
  split; [vm_compute; discriminate|]. split; [vm_compute; discriminate|].
  unfold planes. repeat (apply Forall_cons_2; [vm_compute; discriminate|]). apply Forall_nil_2.
Qed.
Lemma bundle_success_reopens_witness : ∃ dir, fs_final published.2 = Some dir ∧
  open_verified dir limits = Ok (begin, (λ p, mkVerifiedPlaneV1 p.1 p.2) <$> planes, seal).
Proof.
  destruct published_Ok as [b Hb].
  destruct (bundle_success_reopens begin limits planes seal (mkFs None None [NoFault; NoFault]) b published.2
    begin_typed seal_typed planes_typed Hb) as (dir & H1 & _ & H2).
  exists dir. split; [exact H1|]. apply H2. split; [exact manifests_small|reflexivity].
Defined.
Lemma permits_bounded_witness : ∃ p, pool_reachable 2 (p, {[5]} ∪ ∅) ∧ ps_in_use (pp_state p) = 1.
Proof.
  set (p := mkPermitPool 2 (mkPermitState 1 1)).
  assert (pool_reachable 2 (p, {[5]} ∪ ∅)) as Hr.
  { apply (pool_next 2 (mkPermitPool 2 (mkPermitState 2 0), ∅)); [apply pool_start; reflexivity|].
    apply step_acquire; [reflexivity|set_solver]. }
  exists p. split; [exact Hr|]. destruct (permits_bounded 2 p _ ltac:(lia) Hr) as (_ & _ & Hu & _).
  rewrite Hu. vm_compute. reflexivity.
Defined.

Lemma stream_written : written config (stream_frames begin planes seal) stream.
Proof.
  exists (frame_bytes <$> stream_frames begin planes seal). split; [|reflexivity].
  unfold stream_frames, layer_frames, planes. simpl. repeat constructor; vm_compute; reflexivity.
Qed.
Lemma stream_ok : stream_accepted config 5000 begin planes seal.
Proof.
  split; [exact begin_valid|vm_compute; reflexivity|exact planes_valid|exact seal_valid|].
  intros k [= <-]. split; [discriminate|vm_compute; reflexivity].
Qed.
Lemma session_completes_witness : ∃ s', session (stream ++ [9]) [] = (Ok (receipt begin (sm_artifact_sha256 seal)), s') ∧
  fr_reader (se_reader s') = [9] ∧ se_state s' = Published.
Proof.
  destruct (session_completes BundleOnlyReceiverSinkV1 config 5000 begin planes seal stream
    (frame_bytes (FAck (AckManifestV1_committed begin seal))) [9] tt begin_typed) as (s' & Hs & H1 & _ & H2 & _).
  - pose proof planes_typed as Ht. unfold layer_frames. apply Forall_fmap. rewrite list.Forall_forall in Ht |- *.
    intros p Hp. split; [exact (Ht p Hp)|]. unfold planes in Hp. rewrite !elem_of_cons, elem_of_nil in Hp.
    destruct Hp as [-> | [-> | [-> | []]]]; (split; [apply bytes_okb_ok|]; reflexivity).
  - exact seal_typed.
  - exact manifests_small.
  - split; [intros ? []; exists tt; reflexivity..|]. intros [] Hx. vm_compute in Hx. lia.
  - intros out b. reflexivity.
  - exact stream_ok.
  - exact stream_written.
  - vm_compute. reflexivity.
  - exists s'. split; [exact Hs|]. split; [exact H1|exact H2].
Defined.
Definition finished : Session unit := (session (stream ++ [9]) []).2.
Lemma session_Ok : session (stream ++ [9]) [] = (Ok (receipt begin (sm_artifact_sha256 seal)), finished).
Proof. vm_compute. reflexivity. Qed.
Lemma finished_tail : fr_reader (se_reader finished) = [9].
Proof. vm_compute. reflexivity. Qed.
Lemma session_receipt_sound_witness : ∃ begin planes seal w,
  stream ++ [9] = w ++ [9] ∧ written config (stream_frames begin planes seal) w.
Proof.
  destruct (session_receipt_sound BundleOnlyReceiverSinkV1 config 5000 (stream ++ [9]) (mkFs None None []) tt []
    (receipt begin (sm_artifact_sha256 seal)) finished)
    as (b & p & s & w & dir & Hi & Hw & _).
  - apply bytes_okb_ok. vm_compute. reflexivity.
  - exact session_Ok.
  - exists b, p, s, w. split; [|exact Hw]. rewrite finished_tail in Hi. exact Hi.
Defined.
(** A sink that keeps its layers: its permits run out, and the third K plane waits for ever. *)
Definition keeping_sink : ReceiverSinkV1 (gset Z) :=
  mkReceiverSinkV1 (λ _, st_ret tt) (λ layer, st_modify (λ held, {[lr_permit layer]} ∪ held)) (λ _, st_ret tt) (λ held, held)
    (λ held, held) (λ _, None).
Lemma keeping_sink_blocks :
  acquire keeping_sink 4 (session_start config [] (mkFs None None []) {[0; 2]} []) =
  (blocked, session_start config [] (mkFs None None []) {[0; 2]} []).
Proof. vm_compute. reflexivity. Qed.
(** The disk fails while the first layer is written. *)
Definition failed : Session unit := (session (stream ++ [9]) [NoFault; NoFault; FaultPartial 3]).2.
Lemma failed_Err : session (stream ++ [9]) [NoFault; NoFault; FaultPartial 3] = (Err (Io "io"), failed).
Proof. vm_compute. reflexivity. Qed.
Lemma session_failure_safe_witness : se_state failed = Aborted ∧ fs_final (se_fs failed) = None.
Proof.
  destruct (session_failure_safe BundleOnlyReceiverSinkV1 config 5000 (stream ++ [9])
    (mkFs None None [NoFault; NoFault; FaultPartial 3]) tt [] (Io "io") failed) as (H1 & _ & _).
  - apply bytes_okb_ok. vm_compute. reflexivity.
  - exact failed_Err.
  - split; [exact H1|vm_compute; reflexivity].
Defined.
End HandoffWitnesses.
