(* ===== verification/HandoffV2Manifest.v ===== *)
(** * Manifests of handoff protocol v2 (crates/kvpack-handoff/src/handoff_v2.rs)

    The structures of protocol v2 with the JSON form serde derives for them.
    Unlike the v1 manifests they accept and ignore unknown fields, an absent
    [Option] is written as [null], and [deferred_segments] is written only when
    it is set. *)
From Stdlib Require Import ZArith Lia.
From stdpp Require Import base tactics numbers list strings option sorting.
From S2P Require Import Prelude Bytes Canonical Crypto HandoffJson HandoffManifest.

Definition LIVE_HANDOFF_PROTOCOL_V2 : bytes := str "kvpack-live-handoff-v2".

(** ** Derived forms the v1 manifests do not use *)
Definition serde_bool : Serde bool := mkSerde JBool
  (λ v, match v with JBool b => Some b | _ => None end) (λ _, True).
#[export] Instance serde_bool_laws : SerdeLaws serde_bool.
Proof. split; [done|intros; constructor|done]. Qed.
#[export] Instance serde_bool_depth d : SerdeDepth serde_bool d.
Proof. intros []; constructor. Qed.

(** An [Option] field without [skip_serializing_if]. *)
Definition option_value {A} (s : Serde A) (a : option A) : Value :=
  match a with Some a => to_value s a | None => JNull end.
(** [#[serde(default, skip_serializing_if = "is_false")]] *)
Definition is_false (value : bool) : bool := negb value.
Definition flag_value (b : bool) : option Value :=
  if is_false b then None else Some (to_value serde_bool b).
Definition flag_field (key : string) (entries : list (bytes * Value)) : option bool :=
  match obj_get (ascii_bytes key) entries with
  | None => Some false
  | Some v => from_value serde_bool v
  end.

(** A unit-only enum is its name. *)
Definition serde_unit_enum {A} (text : A → bytes) (all : list A) : Serde A := mkSerde
  (λ a, JString (text a))
  (λ v, match v with JString s => List.find (λ a, bytes_eqb (text a) s) all | _ => None end)
  (λ _, True).
Lemma serde_unit_enum_laws {A} (text : A → bytes) (all : list A) :
  (∀ a, List.find (λ b, bytes_eqb (text b) (text a)) all = Some a) →
  (∀ a, string_okb (text a) = true) → SerdeLaws (serde_unit_enum text all).
Proof.
  intros Hf Ht. split; [intros a _; apply Hf| |done]. intros a _. constructor.
  assert (Forall string_ok [text a]) as Hs by (apply string_okb_ok; simpl; by rewrite Ht). by inversion_clear Hs.
Qed.

(** Known fields may not repeat; other fields are ignored. *)
Definition fields_unique (names : list bytes) (entries : list (bytes * Value)) : bool :=
  bool_decide (NoDup (filter (λ k, k ∈ names) entries.*1)).
Definition serde_open_struct {A} (names : list bytes) (vals : A → list (option Value))
    (from : list (bytes * Value) → option A) (typed : A → Prop) : Serde A := mkSerde
  (λ a, JObject (mk_object names (vals a)))
  (λ v, match v with JObject o => if fields_unique names o then from o else None | _ => None end)
  typed.

Lemma fields_unique_sorted names vals : NoDup names → fields_unique names (sorted_fields names vals) = true.
Proof.
  intros Hd. pose proof (fields_known_sorted names vals Hd) as Hk. unfold fields_known, fields_unique in *. bools.
  apply bool_decide_eq_true_2. by apply list.NoDup_filter.
Qed.
Lemma option_null_field_sorted {A} (s : Serde A) i names vals key (a : option A) :
  NoDup names → names !! i = Some (ascii_bytes key) → vals !! i = Some (Some (option_value s a)) →
  SerdeLaws s → SerdeNotNull s → option_typed s a →
  option_field s key (sorted_fields names vals) = Some a.
Proof.
  intros Hd Hn Hv Hs Hnn Ha. unfold option_field. rewrite (obj_get_sorted i _ _ _ _ Hd Hn Hv).
  destruct a as [a|]; simpl; [|done].
  pose proof (serde_roundtrip a (Ha a eq_refl)) as E. pose proof (serde_not_null a).
  destruct (sorted_value _); try done; by rewrite E.
Qed.
Lemma flag_field_sorted i names vals key b :
  NoDup names → names !! i = Some (ascii_bytes key) → vals !! i = Some (flag_value b) →
  flag_field key (sorted_fields names vals) = Some b.
Proof. intros Hd Hn Hv. unfold flag_field. rewrite (obj_get_sorted i _ _ _ _ Hd Hn Hv). by destruct b. Qed.
Lemma option_null_ok {A} (s : Serde A) (a : option A) v :
  SerdeLaws s → option_typed s a → Some (option_value s a) = Some v → value_ok v.
Proof. intros Hs Ha [= <-]. destruct a; [apply serde_value_ok; by apply Ha|constructor]. Qed.
Lemma flag_ok b v : flag_value b = Some v → value_ok v.
Proof. destruct b; [|done]. intros [= <-]. constructor. Qed.
Lemma option_null_nests {A} (s : Serde A) d a v :
  Some (option_value s a) = Some v → SerdeDepth s d → nests d v.
Proof. intros [= <-] Hs. destruct a; [apply Hs|constructor]. Qed.
Lemma flag_nests d b v : flag_value b = Some v → nests d v.
Proof. destruct b; [|done]. intros [= <-]. constructor. Qed.
#[export] Hint Resolve option_null_nests flag_nests : serde_nests.
#[export] Instance serde_u32_not_null : SerdeNotNull serde_u32.
Proof. done. Qed.

Ltac serde_open_field :=
  first [serde_field
  | match goal with
    | |- context [option_field ?s ?k (sorted_fields ?n ?v)] =>
        at_index ltac:(fun i => erewrite (option_null_field_sorted s i n v k);
          [|names_nodup|vm_compute; reflexivity|reflexivity|typeclasses eauto|typeclasses eauto|eassumption]) 0%nat
    | |- context [flag_field ?k (sorted_fields ?n ?v)] =>
        at_index ltac:(fun i => erewrite (flag_field_sorted i n v k);
          [|names_nodup|vm_compute; reflexivity|reflexivity]) 0%nat
    end; cbn [mbind option_bind]].
Ltac serde_open_val :=
  first [serde_val
  | let v := fresh "v" in let E := fresh "E" in intros v E;
    match type of E with
    | Some (option_value ?s ?a) = _ => apply (option_null_ok s a v); [typeclasses eauto|assumption|exact E]
    | flag_value ?b = _ => exact (flag_ok b v E)
    end].
Ltac serde_open_laws vals from typed :=
  match goal with |- SerdeLaws ?s => unfold s end; split; cbn [to_value from_value typed_as serde_open_struct];
  [ intros ?a ?Ha; rewrite sorted_mk_object, fields_unique_sorted by names_nodup;
    unfold typed in Ha; destruct_and?; unfold from; repeat serde_open_field; by destruct a
  | intros ?a ?Ha; unfold typed in Ha; destruct_and?; apply mk_object_value_ok;
    [by apply string_okb_ok|unfold vals; repeat (apply List.Forall_cons; [serde_open_val|]); apply List.Forall_nil]
  | intros ?v ?a ?Hv ?E; destruct v; try done; unfold from in E; unfold typed; inv_some;
    serde_typing ].

(** ** Components and identities *)
Inductive ComponentKindV2 := TargetKv | DflashContext | VisionContext.
#[export] Instance ComponentKindV2_eq_dec : EqDecision ComponentKindV2.
Proof. solve_decision. Defined.
Definition ComponentKindV2_text (k : ComponentKindV2) : bytes :=
  match k with
  | TargetKv => str "target_kv"
  | DflashContext => str "dflash_context"
  | VisionContext => str "vision_context"
  end.
Definition serde_ComponentKindV2 : Serde ComponentKindV2 :=
  serde_unit_enum ComponentKindV2_text [TargetKv; DflashContext; VisionContext].
#[export] Instance serde_ComponentKindV2_laws : SerdeLaws serde_ComponentKindV2.
Proof. apply serde_unit_enum_laws; by intros []. Qed.
#[export] Instance serde_ComponentKindV2_depth d : SerdeDepth serde_ComponentKindV2 d.
Proof. intros []; constructor. Qed.

Record ComponentV2 := mkComponentV2 {
  cv_id : bytes;
  cv_kind : ComponentKindV2;
  cv_required : bool;
  cv_identity_sha256 : bytes
}.
Definition ComponentV2_fields : list bytes := ascii_bytes <$>
  ["id"; "kind"; "required"; "identity_sha256"].
Definition ComponentV2_vals (a : ComponentV2) : list (option Value) :=
  [Some (to_value serde_string (cv_id a));
   Some (to_value serde_ComponentKindV2 (cv_kind a));
   Some (to_value serde_bool (cv_required a));
   Some (to_value serde_string (cv_identity_sha256 a))].
Definition ComponentV2_from (o : list (bytes * Value)) : option ComponentV2 :=
  cv_id ← field serde_string "id" o;
  cv_kind ← field serde_ComponentKindV2 "kind" o;
  cv_required ← field serde_bool "required" o;
  cv_identity_sha256 ← field serde_string "identity_sha256" o;
  Some (mkComponentV2 cv_id cv_kind cv_required cv_identity_sha256).
Definition ComponentV2_typed (a : ComponentV2) : Prop :=
  typed_as serde_string (cv_id a) ∧
  typed_as serde_ComponentKindV2 (cv_kind a) ∧
  typed_as serde_bool (cv_required a) ∧
  typed_as serde_string (cv_identity_sha256 a).
Definition serde_ComponentV2 : Serde ComponentV2 :=
  serde_open_struct ComponentV2_fields ComponentV2_vals ComponentV2_from ComponentV2_typed.
#[export] Instance serde_ComponentV2_laws : SerdeLaws serde_ComponentV2.
Proof. serde_open_laws ComponentV2_vals ComponentV2_from ComponentV2_typed. Qed.
#[export] Instance serde_ComponentV2_depth d : SerdeDepth serde_ComponentV2 (1 + d).
Proof. serde_nesting ComponentV2_vals. Qed.

Record HmacIdentityV2 := mkHmacIdentityV2 {
  hi_key_id : bytes;
  hi_epoch : Z
}.
Definition HmacIdentityV2_fields : list bytes := ascii_bytes <$>
  ["key_id"; "epoch"].
Definition HmacIdentityV2_vals (a : HmacIdentityV2) : list (option Value) :=
  [Some (to_value serde_string (hi_key_id a));
   Some (to_value serde_u64 (hi_epoch a))].
Definition HmacIdentityV2_from (o : list (bytes * Value)) : option HmacIdentityV2 :=
  hi_key_id ← field serde_string "key_id" o;
  hi_epoch ← field serde_u64 "epoch" o;
  Some (mkHmacIdentityV2 hi_key_id hi_epoch).
Definition HmacIdentityV2_typed (a : HmacIdentityV2) : Prop :=
  typed_as serde_string (hi_key_id a) ∧
  typed_as serde_u64 (hi_epoch a).
Definition serde_HmacIdentityV2 : Serde HmacIdentityV2 :=
  serde_open_struct HmacIdentityV2_fields HmacIdentityV2_vals HmacIdentityV2_from HmacIdentityV2_typed.
#[export] Instance serde_HmacIdentityV2_laws : SerdeLaws serde_HmacIdentityV2.
Proof. serde_open_laws HmacIdentityV2_vals HmacIdentityV2_from HmacIdentityV2_typed. Qed.
#[export] Instance serde_HmacIdentityV2_depth d : SerdeDepth serde_HmacIdentityV2 (1 + d).
Proof. serde_nesting HmacIdentityV2_vals. Qed.

Record MultimodalIdentityV2 := mkMultimodalIdentityV2 {
  mi_projector_sha256 : bytes;
  mi_preprocessing_sha256 : bytes;
  mi_image_sequence_sha256 : bytes
}.
Definition MultimodalIdentityV2_fields : list bytes := ascii_bytes <$>
  ["projector_sha256"; "preprocessing_sha256"; "image_sequence_sha256"].
Definition MultimodalIdentityV2_vals (a : MultimodalIdentityV2) : list (option Value) :=
  [Some (to_value serde_string (mi_projector_sha256 a));
   Some (to_value serde_string (mi_preprocessing_sha256 a));
   Some (to_value serde_string (mi_image_sequence_sha256 a))].
Definition MultimodalIdentityV2_from (o : list (bytes * Value)) : option MultimodalIdentityV2 :=
  mi_projector_sha256 ← field serde_string "projector_sha256" o;
  mi_preprocessing_sha256 ← field serde_string "preprocessing_sha256" o;
  mi_image_sequence_sha256 ← field serde_string "image_sequence_sha256" o;
  Some (mkMultimodalIdentityV2 mi_projector_sha256 mi_preprocessing_sha256
    mi_image_sequence_sha256).
Definition MultimodalIdentityV2_typed (a : MultimodalIdentityV2) : Prop :=
  typed_as serde_string (mi_projector_sha256 a) ∧
  typed_as serde_string (mi_preprocessing_sha256 a) ∧
  typed_as serde_string (mi_image_sequence_sha256 a).
Definition serde_MultimodalIdentityV2 : Serde MultimodalIdentityV2 :=
  serde_open_struct MultimodalIdentityV2_fields MultimodalIdentityV2_vals MultimodalIdentityV2_from MultimodalIdentityV2_typed.
#[export] Instance serde_MultimodalIdentityV2_laws : SerdeLaws serde_MultimodalIdentityV2.
Proof. serde_open_laws MultimodalIdentityV2_vals MultimodalIdentityV2_from MultimodalIdentityV2_typed. Qed.
#[export] Instance serde_MultimodalIdentityV2_depth d : SerdeDepth serde_MultimodalIdentityV2 (1 + d).
Proof. serde_nesting MultimodalIdentityV2_vals. Qed.

#[export] Instance serde_MultimodalIdentityV2_not_null : SerdeNotNull serde_MultimodalIdentityV2.
Proof. intros a. unfold serde_MultimodalIdentityV2. cbn [to_value serde_open_struct]. by rewrite sorted_object. Qed.

(** ** Segments *)
Inductive SegmentRoleV2 := NopeKey | NopeValue | SwaKey | SwaValue | NopeTile | SwaTile | DflashKey | DflashValue | Auxiliary.
#[export] Instance SegmentRoleV2_eq_dec : EqDecision SegmentRoleV2.
Proof. solve_decision. Defined.
Definition SegmentRoleV2_text (k : SegmentRoleV2) : bytes :=
  match k with
  | NopeKey => str "nope_key"
  | NopeValue => str "nope_value"
  | SwaKey => str "swa_key"
  | SwaValue => str "swa_value"
  | NopeTile => str "nope_tile"
  | SwaTile => str "swa_tile"
  | DflashKey => str "dflash_key"
  | DflashValue => str "dflash_value"
  | Auxiliary => str "auxiliary"
  end.
Definition serde_SegmentRoleV2 : Serde SegmentRoleV2 :=
  serde_unit_enum SegmentRoleV2_text [NopeKey; NopeValue; SwaKey; SwaValue; NopeTile; SwaTile; DflashKey; DflashValue; Auxiliary].
#[export] Instance serde_SegmentRoleV2_laws : SerdeLaws serde_SegmentRoleV2.
Proof. apply serde_unit_enum_laws; by intros []. Qed.
#[export] Instance serde_SegmentRoleV2_depth d : SerdeDepth serde_SegmentRoleV2 d.
Proof. intros []; constructor. Qed.

Record SegmentDescriptorV2 := mkSegmentDescriptorV2 {
  sd_sequence : Z;
  sd_component_id : bytes;
  sd_role : SegmentRoleV2;
  sd_layer : option Z;
  sd_logical_start : Z;
  sd_logical_count : Z;
  sd_element_type : bytes;
  sd_elements_per_token : Z;
  sd_byte_len : Z;
  sd_sha256 : bytes
}.
Definition SegmentDescriptorV2_fields : list bytes := ascii_bytes <$>
  ["sequence"; "component_id"; "role"; "layer"; "logical_start"; "logical_count";
   "element_type"; "elements_per_token"; "byte_len"; "sha256"].
Definition SegmentDescriptorV2_vals (a : SegmentDescriptorV2) : list (option Value) :=
  [Some (to_value serde_u32 (sd_sequence a));
   Some (to_value serde_string (sd_component_id a));
   Some (to_value serde_SegmentRoleV2 (sd_role a));
   Some (option_value serde_u32 (sd_layer a));
   Some (to_value serde_u64 (sd_logical_start a));
   Some (to_value serde_u64 (sd_logical_count a));
   Some (to_value serde_string (sd_element_type a));
   Some (to_value serde_u32 (sd_elements_per_token a));
   Some (to_value serde_u64 (sd_byte_len a));
   Some (to_value serde_string (sd_sha256 a))].
Definition SegmentDescriptorV2_from (o : list (bytes * Value)) : option SegmentDescriptorV2 :=
  sd_sequence ← field serde_u32 "sequence" o;
  sd_component_id ← field serde_string "component_id" o;
  sd_role ← field serde_SegmentRoleV2 "role" o;
  sd_layer ← option_field serde_u32 "layer" o;
  sd_logical_start ← field serde_u64 "logical_start" o;
  sd_logical_count ← field serde_u64 "logical_count" o;
  sd_element_type ← field serde_string "element_type" o;
  sd_elements_per_token ← field serde_u32 "elements_per_token" o;
  sd_byte_len ← field serde_u64 "byte_len" o;
  sd_sha256 ← field serde_string "sha256" o;
  Some (mkSegmentDescriptorV2 sd_sequence sd_component_id sd_role sd_layer sd_logical_start
    sd_logical_count sd_element_type sd_elements_per_token sd_byte_len sd_sha256).
Definition SegmentDescriptorV2_typed (a : SegmentDescriptorV2) : Prop :=
  typed_as serde_u32 (sd_sequence a) ∧
  typed_as serde_string (sd_component_id a) ∧
  typed_as serde_SegmentRoleV2 (sd_role a) ∧
  option_typed serde_u32 (sd_layer a) ∧
  typed_as serde_u64 (sd_logical_start a) ∧
  typed_as serde_u64 (sd_logical_count a) ∧
  typed_as serde_string (sd_element_type a) ∧
  typed_as serde_u32 (sd_elements_per_token a) ∧
  typed_as serde_u64 (sd_byte_len a) ∧
  typed_as serde_string (sd_sha256 a).
Definition serde_SegmentDescriptorV2 : Serde SegmentDescriptorV2 :=
  serde_open_struct SegmentDescriptorV2_fields SegmentDescriptorV2_vals SegmentDescriptorV2_from SegmentDescriptorV2_typed.
#[export] Instance serde_SegmentDescriptorV2_laws : SerdeLaws serde_SegmentDescriptorV2.
Proof. serde_open_laws SegmentDescriptorV2_vals SegmentDescriptorV2_from SegmentDescriptorV2_typed. Qed.
#[export] Instance serde_SegmentDescriptorV2_depth d : SerdeDepth serde_SegmentDescriptorV2 (1 + d).
Proof. serde_nesting SegmentDescriptorV2_vals. Qed.

(** ** Begin and seal *)
Record BeginManifestV2 := mkBeginManifestV2 {
  bv_protocol : bytes;
  bv_transfer_id : bytes;
  bv_generation : Z;
  bv_created_unix_ms : Z;
  bv_expires_unix_ms : Z;
  bv_identity : ExactIdentityV1;
  bv_prompt_token_ids : list Z;
  bv_multimodal : option MultimodalIdentityV2;
  bv_hmac : HmacIdentityV2;
  bv_components : list ComponentV2;
  bv_deferred_segments : bool;
  bv_segments : list SegmentDescriptorV2
}.
Definition BeginManifestV2_fields : list bytes := ascii_bytes <$>
  ["protocol"; "transfer_id"; "generation"; "created_unix_ms"; "expires_unix_ms"; "identity";
   "prompt_token_ids"; "multimodal"; "hmac"; "components"; "deferred_segments"; "segments"].
Definition BeginManifestV2_vals (a : BeginManifestV2) : list (option Value) :=
  [Some (to_value serde_string (bv_protocol a));
   Some (to_value serde_string (bv_transfer_id a));
   Some (to_value serde_u64 (bv_generation a));
   Some (to_value serde_u64 (bv_created_unix_ms a));
   Some (to_value serde_u64 (bv_expires_unix_ms a));
   Some (to_value serde_ExactIdentityV1 (bv_identity a));
   Some (to_value (serde_vec serde_u32) (bv_prompt_token_ids a));
   Some (option_value serde_MultimodalIdentityV2 (bv_multimodal a));
   Some (to_value serde_HmacIdentityV2 (bv_hmac a));
   Some (to_value (serde_vec serde_ComponentV2) (bv_components a));
   flag_value (bv_deferred_segments a);
   Some (to_value (serde_vec serde_SegmentDescriptorV2) (bv_segments a))].
Definition BeginManifestV2_from (o : list (bytes * Value)) : option BeginManifestV2 :=
  bv_protocol ← field serde_string "protocol" o;
  bv_transfer_id ← field serde_string "transfer_id" o;
  bv_generation ← field serde_u64 "generation" o;
  bv_created_unix_ms ← field serde_u64 "created_unix_ms" o;
  bv_expires_unix_ms ← field serde_u64 "expires_unix_ms" o;
  bv_identity ← field serde_ExactIdentityV1 "identity" o;
  bv_prompt_token_ids ← field (serde_vec serde_u32) "prompt_token_ids" o;
  bv_multimodal ← option_field serde_MultimodalIdentityV2 "multimodal" o;
  bv_hmac ← field serde_HmacIdentityV2 "hmac" o;
  bv_components ← field (serde_vec serde_ComponentV2) "components" o;
  bv_deferred_segments ← flag_field "deferred_segments" o;
  bv_segments ← field (serde_vec serde_SegmentDescriptorV2) "segments" o;
  Some (mkBeginManifestV2 bv_protocol bv_transfer_id bv_generation bv_created_unix_ms
    bv_expires_unix_ms bv_identity bv_prompt_token_ids bv_multimodal bv_hmac bv_components
    bv_deferred_segments bv_segments).
Definition BeginManifestV2_typed (a : BeginManifestV2) : Prop :=
  typed_as serde_string (bv_protocol a) ∧
  typed_as serde_string (bv_transfer_id a) ∧
  typed_as serde_u64 (bv_generation a) ∧
  typed_as serde_u64 (bv_created_unix_ms a) ∧
  typed_as serde_u64 (bv_expires_unix_ms a) ∧
  typed_as serde_ExactIdentityV1 (bv_identity a) ∧
  typed_as (serde_vec serde_u32) (bv_prompt_token_ids a) ∧
  option_typed serde_MultimodalIdentityV2 (bv_multimodal a) ∧
  typed_as serde_HmacIdentityV2 (bv_hmac a) ∧
  typed_as (serde_vec serde_ComponentV2) (bv_components a) ∧
  typed_as (serde_vec serde_SegmentDescriptorV2) (bv_segments a).
Definition serde_BeginManifestV2 : Serde BeginManifestV2 :=
  serde_open_struct BeginManifestV2_fields BeginManifestV2_vals BeginManifestV2_from BeginManifestV2_typed.
#[export] Instance serde_BeginManifestV2_laws : SerdeLaws serde_BeginManifestV2.
Proof. serde_open_laws BeginManifestV2_vals BeginManifestV2_from BeginManifestV2_typed. Qed.
#[export] Instance serde_BeginManifestV2_depth d : SerdeDepth serde_BeginManifestV2 (3 + d).
Proof. serde_nesting BeginManifestV2_vals. Qed.

Record SealCoreV2 := mkSealCoreV2 {
  sv_transfer_id : bytes;
  sv_generation : Z;
  sv_begin_sha256 : bytes;
  sv_descriptor_sha256 : bytes;
  sv_payload_sha256 : bytes;
  sv_segment_count : Z;
  sv_total_bytes : Z
}.
Definition SealCoreV2_fields : list bytes := ascii_bytes <$>
  ["transfer_id"; "generation"; "begin_sha256"; "descriptor_sha256"; "payload_sha256";
   "segment_count"; "total_bytes"].
Definition SealCoreV2_vals (a : SealCoreV2) : list (option Value) :=
  [Some (to_value serde_string (sv_transfer_id a));
   Some (to_value serde_u64 (sv_generation a));
   Some (to_value serde_string (sv_begin_sha256 a));
   Some (to_value serde_string (sv_descriptor_sha256 a));
   Some (to_value serde_string (sv_payload_sha256 a));
   Some (to_value serde_u32 (sv_segment_count a));
   Some (to_value serde_u64 (sv_total_bytes a))].
Definition SealCoreV2_from (o : list (bytes * Value)) : option SealCoreV2 :=
  sv_transfer_id ← field serde_string "transfer_id" o;
  sv_generation ← field serde_u64 "generation" o;
  sv_begin_sha256 ← field serde_string "begin_sha256" o;
  sv_descriptor_sha256 ← field serde_string "descriptor_sha256" o;
  sv_payload_sha256 ← field serde_string "payload_sha256" o;
  sv_segment_count ← field serde_u32 "segment_count" o;
  sv_total_bytes ← field serde_u64 "total_bytes" o;
  Some (mkSealCoreV2 sv_transfer_id sv_generation sv_begin_sha256 sv_descriptor_sha256
    sv_payload_sha256 sv_segment_count sv_total_bytes).
Definition SealCoreV2_typed (a : SealCoreV2) : Prop :=
  typed_as serde_string (sv_transfer_id a) ∧
  typed_as serde_u64 (sv_generation a) ∧
  typed_as serde_string (sv_begin_sha256 a) ∧
  typed_as serde_string (sv_descriptor_sha256 a) ∧
  typed_as serde_string (sv_payload_sha256 a) ∧
  typed_as serde_u32 (sv_segment_count a) ∧
  typed_as serde_u64 (sv_total_bytes a).
Definition serde_SealCoreV2 : Serde SealCoreV2 :=
  serde_open_struct SealCoreV2_fields SealCoreV2_vals SealCoreV2_from SealCoreV2_typed.
#[export] Instance serde_SealCoreV2_laws : SerdeLaws serde_SealCoreV2.
Proof. serde_open_laws SealCoreV2_vals SealCoreV2_from SealCoreV2_typed. Qed.
#[export] Instance serde_SealCoreV2_depth d : SerdeDepth serde_SealCoreV2 (1 + d).
Proof. serde_nesting SealCoreV2_vals. Qed.

Record SealManifestV2 := mkSealManifestV2 {
  sl_core : SealCoreV2;
  sl_hmac_sha256 : bytes
}.
Definition SealManifestV2_fields : list bytes := ascii_bytes <$>
  ["core"; "hmac_sha256"].
Definition SealManifestV2_vals (a : SealManifestV2) : list (option Value) :=
  [Some (to_value serde_SealCoreV2 (sl_core a));
   Some (to_value serde_string (sl_hmac_sha256 a))].
Definition SealManifestV2_from (o : list (bytes * Value)) : option SealManifestV2 :=
  sl_core ← field serde_SealCoreV2 "core" o;
  sl_hmac_sha256 ← field serde_string "hmac_sha256" o;
  Some (mkSealManifestV2 sl_core sl_hmac_sha256).
Definition SealManifestV2_typed (a : SealManifestV2) : Prop :=
  typed_as serde_SealCoreV2 (sl_core a) ∧
  typed_as serde_string (sl_hmac_sha256 a).
Definition serde_SealManifestV2 : Serde SealManifestV2 :=
  serde_open_struct SealManifestV2_fields SealManifestV2_vals SealManifestV2_from SealManifestV2_typed.
#[export] Instance serde_SealManifestV2_laws : SerdeLaws serde_SealManifestV2.
Proof. serde_open_laws SealManifestV2_vals SealManifestV2_from SealManifestV2_typed. Qed.
#[export] Instance serde_SealManifestV2_depth d : SerdeDepth serde_SealManifestV2 (2 + d).
Proof. serde_nesting SealManifestV2_vals. Qed.
