(* ===== verification/HandoffV2.v ===== *)
(** * The atomic receiver of protocol v2 (crates/kvpack-handoff/src/handoff_v2.rs)

    Validation of a BEGIN and of segment descriptors, verification of a
    segment, the seal a producer signs, and the receiver that installs a
    transfer into an engine-owned shadow.  The engine is any implementation of
    the trait [HandoffSinkV2]; a running hash is the bytes it has absorbed. *)
From Stdlib Require Import ZArith Lia.
From stdpp Require Import base tactics numbers list strings option sorting gmap.
From S2P Require Import Prelude Bytes Canonical Crypto HandoffJson HandoffMac HandoffManifest.
From S2P Require Import HandoffValidation HandoffBundle HandoffV2Manifest.

(** ** Segment descriptors *)
Notation SegmentRangeKey := (bytes * SegmentRoleV2 * option Z)%type.
Definition role_number (r : SegmentRoleV2) : nat :=
  match r with
  | NopeKey => 0 | NopeValue => 1 | SwaKey => 2 | SwaValue => 3 | NopeTile => 4
  | SwaTile => 5 | DflashKey => 6 | DflashValue => 7 | Auxiliary => 8
  end.
Definition role_of_number (n : nat) : option SegmentRoleV2 :=
  [NopeKey; NopeValue; SwaKey; SwaValue; NopeTile; SwaTile; DflashKey; DflashValue; Auxiliary] !! n.
#[export] Instance SegmentRoleV2_countable : Countable SegmentRoleV2.
Proof. apply (inj_countable role_number role_of_number). by intros []. Defined.
Notation SegmentRanges := (gmap SegmentRangeKey (list (Z * Z))).

Definition v2_validate_hex (value : bytes) : hresult unit :=
  if negb (zlen value =? 64) || negb (forallb is_lower_hex value) then
    invalid "{label} digest must be lowercase SHA-256"
  else Ok tt.

(** [match segment.element_type.as_str()] *)
Definition element_width (element_type : bytes) : hresult Z :=
  if bytes_eqb element_type (str "f16_le") then Ok 2 else
  if bytes_eqb element_type (str "f32_le") then Ok 4 else
  invalid "unsupported segment element type".

Definition range_key (segment : SegmentDescriptorV2) : SegmentRangeKey :=
  (sd_component_id segment, sd_role segment, sd_layer segment).
(** The checks before the range table is touched; returns the end of the range. *)
Definition check_segment_geometry (segment : SegmentDescriptorV2) (ids : gset bytes) : hresult Z :=
  if negb (bool_decide (sd_component_id segment ∈ ids)) || (sd_logical_count segment =? 0)
     || (sd_elements_per_token segment =? 0) || (sd_byte_len segment =? 0) then
    invalid "segment has unknown component or empty range" else
  _ ← v2_validate_hex (sd_sha256 segment);
  width ← element_width (sd_element_type segment);
  expected_bytes ← ok_or (n ← checked_mul (sd_logical_count segment) (sd_elements_per_token segment);
                          checked_mul n width)
                         (Validation "segment byte geometry overflow");
  if negb (sd_byte_len segment =? expected_bytes) then
    invalid "segment byte length disagrees with row geometry" else
  ok_or (checked_add (sd_logical_start segment) (sd_logical_count segment))
        (Validation "segment logical range overflow").
Definition validate_segment_descriptor (segment : SegmentDescriptorV2) (ids : gset bytes)
    : stateful SegmentRanges unit := λ ranges,
  match check_segment_geometry segment ids with
  | Ok end_ =>
      let entry := default [] (ranges !! range_key segment) in
      if existsb (λ '(start, stop), (sd_logical_start segment <? stop) && (start <? end_)) entry then
        (invalid "overlapping segment logical ranges", <[range_key segment := entry]> ranges)
      else (Ok tt, <[range_key segment := entry ++ [(sd_logical_start segment, end_)]]> ranges)
  | Err e => (Err e, ranges)
  | Panic w => (Panic w, ranges)
  end.

(** ** BEGIN *)
Definition transfer_id_byte (b : Z) : bool :=
  ((48 <=? b) && (b <=? 57)) || ((65 <=? b) && (b <=? 90)) || ((97 <=? b) && (b <=? 122))
  || (b =? 45) || (b =? 95) || (b =? 46).
Definition v2_identity_digests (m : BeginManifestV2) : list bytes :=
  [xi_model_sha256 (bv_identity m); xi_adapter_sha256 (bv_identity m);
   xi_chat_template_sha256 (bv_identity m); xi_context_policy_sha256 (bv_identity m);
   xi_tokenizer_sha256 (bv_identity m)].
Definition v2_multimodal_digests (m : BeginManifestV2) : list bytes :=
  match bv_multimodal m with
  | Some multimodal =>
      [mi_projector_sha256 multimodal; mi_preprocessing_sha256 multimodal; mi_image_sequence_sha256 multimodal]
  | None => []
  end.
Fixpoint validate_digests (digests : list bytes) : hresult unit :=
  match digests with [] => Ok tt | d :: digests => _ ← v2_validate_hex d; validate_digests digests end.

(** The loop over the components: the ids seen, and whether a required target
    and a required DFlash component were. *)
Fixpoint check_components (components : list ComponentV2) (ids : gset bytes) (target dflash_required : bool)
    : hresult (gset bytes * bool * bool) :=
  match components with
  | [] => Ok (ids, target, dflash_required)
  | component :: components =>
      if (zlen (cv_id component) =? 0) || bool_decide (cv_id component ∈ ids) then
        invalid "empty or duplicate component id" else
      _ ← v2_validate_hex (cv_identity_sha256 component);
      check_components components ({[cv_id component]} ∪ ids)
        (target || bool_decide (cv_kind component = TargetKv) && cv_required component)
        (dflash_required || bool_decide (cv_kind component = DflashContext) && cv_required component)
  end.
Fixpoint check_declared_segments (index : nat) (segments : list SegmentDescriptorV2) (ids : gset bytes)
    (ranges : SegmentRanges) : hresult unit :=
  match segments with
  | [] => Ok tt
  | segment :: segments =>
      if negb (sd_sequence segment =? Z.of_nat index) then
        invalid "segment sequences must be contiguous in declared wire order" else
      let '(r, ranges) := validate_segment_descriptor segment ids ranges in
      _ ← r; check_declared_segments (S index) segments ids ranges
  end.

Record ValidatedBeginV2 := mkValidatedBeginV2 {
  vb_manifest : BeginManifestV2;
  vb_canonical : bytes
}.
Record VerifiedSegmentV2 := mkVerifiedSegmentV2 {
  vs_descriptor : SegmentDescriptorV2;
  vs_payload : bytes
}.

Section v2.
Context `{Crypto} `{JsonText}.

Definition ValidatedBeginV2_validate (manifest : BeginManifestV2) (now_unix_ms : Z)
    (expected_key_id : bytes) (minimum_epoch : Z) : hresult ValidatedBeginV2 :=
  if negb (bytes_eqb (bv_protocol manifest) LIVE_HANDOFF_PROTOCOL_V2) then invalid "wrong V2 protocol" else
  if (zlen (bv_transfer_id manifest) =? 0) || (128 <? zlen (bv_transfer_id manifest))
     || negb (forallb transfer_id_byte (bv_transfer_id manifest)) then invalid "invalid transfer id" else
  if (bv_expires_unix_ms manifest <=? bv_created_unix_ms manifest)
     || (bv_expires_unix_ms manifest <? now_unix_ms) then invalid "expired or invalid handoff lifetime" else
  if negb (bytes_eqb (hi_key_id (bv_hmac manifest)) expected_key_id)
     || (hi_epoch (bv_hmac manifest) <? minimum_epoch) then
    invalid "wrong HMAC key id or replayed epoch" else
  _ ← validate_digests (v2_identity_digests manifest);
  _ ← validate_digests (v2_multimodal_digests manifest);
  if bool_decide (bv_components manifest = [])
     || (bv_deferred_segments manifest && negb (bool_decide (bv_segments manifest = [])))
     || (negb (bv_deferred_segments manifest) && bool_decide (bv_segments manifest = [])) then
    invalid "V2 requires components and exactly one declared/deferred segment mode" else
  if bool_decide (bv_prompt_token_ids manifest = []) then invalid "V2 prompt token sequence is empty" else
  '(ids, target, dflash_required) ← check_components (bv_components manifest) ∅ false false;
  if negb target then invalid "a required target KV component is mandatory" else
  _ ← check_declared_segments 0 (bv_segments manifest) ids ∅;
  if negb (bv_deferred_segments manifest) && dflash_required
     && negb (existsb (λ s, existsb (λ c, bytes_eqb (cv_id c) (sd_component_id s)
                                          && bool_decide (cv_kind c = DflashContext))
                                    (bv_components manifest)) (bv_segments manifest)) then
    invalid "required DFlash component has no segments" else
  canonical ← canonical_json serde_BeginManifestV2 manifest;
  Ok (mkValidatedBeginV2 manifest canonical).

(** ** Segments and the seal *)
Definition VerifiedSegmentV2_verify (descriptor : SegmentDescriptorV2) (payload : bytes)
    : hresult VerifiedSegmentV2 :=
  if negb (zlen payload =? sd_byte_len descriptor)
     || negb (bytes_eqb (sha256_hex payload) (sd_sha256 descriptor)) then
    invalid "segment length or digest mismatch"
  else Ok (mkVerifiedSegmentV2 descriptor payload).

(** The loop of [sign]: the absorbed descriptors and payloads and the byte total. *)
Fixpoint sign_segments (index : nat) (material : list (SegmentDescriptorV2 * bytes))
    (descriptor_hash payload_hash : bytes) (total : Z) : hresult (bytes * bytes * Z) :=
  match material with
  | [] => Ok (descriptor_hash, payload_hash, total)
  | (descriptor, payload) :: material =>
      if negb (sd_sequence descriptor =? Z.of_nat index) || negb (sd_byte_len descriptor =? zlen payload)
         || negb (bytes_eqb (sd_sha256 descriptor) (sha256_hex payload)) then
        invalid "cannot sign mismatched segment material" else
      encoded ← canonical_json serde_SegmentDescriptorV2 descriptor;
      total ← ok_or (checked_add total (sd_byte_len descriptor)) (Validation "total byte count overflow");
      sign_segments (S index) material (descriptor_hash ++ encoded) (payload_hash ++ payload) total
  end.
Definition SealManifestV2_sign (begin : ValidatedBeginV2) (descriptors : list SegmentDescriptorV2)
    (payloads : list bytes) (key : MacKey) : hresult SealManifestV2 :=
  if negb (length descriptors =? length payloads)%nat then invalid "descriptor/payload count mismatch" else
  '(descriptor_hash, payload_hash, total) ← sign_segments 0 (zip descriptors payloads) [] [] 0;
  segment_count ← (if zlen descriptors <? u32_bound then Ok (zlen descriptors)
                   else invalid "segment count exceeds u32");
  let core := mkSealCoreV2 (bv_transfer_id (vb_manifest begin)) (bv_generation (vb_manifest begin))
    (sha256_hex (vb_canonical begin)) (sha256_hex descriptor_hash) (sha256_hex payload_hash)
    segment_count total in
  encoded ← canonical_json serde_SealCoreV2 core;
  hmac ← tag_hex key encoded;
  Ok (mkSealManifestV2 core hmac).
End v2.

(** ** The engine's shadow *)
Record VerifiedSealV2 := mkVerifiedSealV2 { vseal : SealManifestV2 }.
Record CommittedGeneration := mkCommittedGeneration {
  cg_transfer_id : bytes;
  cg_generation : Z;
  cg_installed_segments : Z;
  cg_installed_bytes : Z
}.
Record HandoffSinkV2 (S : Type) := mkHandoffSinkV2 {
  hs_begin : ValidatedBeginV2 → stateful S unit;
  hs_segment_ready : VerifiedSegmentV2 → stateful S unit;
  hs_prepare_commit : VerifiedSealV2 → stateful S unit;
  hs_commit : stateful S CommittedGeneration;
  hs_abort : S → S
}.
Arguments mkHandoffSinkV2 {S}. Arguments hs_begin {S}. Arguments hs_segment_ready {S}.
Arguments hs_prepare_commit {S}. Arguments hs_commit {S}. Arguments hs_abort {S}.

(** ** The receiver *)
Inductive State := Receiving | Prepared | Committed | Aborted.
#[export] Instance State_eq_dec : EqDecision State.
Proof. solve_decision. Defined.
Record AtomicReceiverV2 (S : Type) := mkAtomicReceiverV2 {
  ar_begin : ValidatedBeginV2;
  ar_sink : S;
  ar_key : MacKey;
  ar_next : nat;
  ar_deferred_ranges : SegmentRanges;
  ar_seen_components : gset bytes;
  ar_descriptor_hash : bytes;
  ar_payload_hash : bytes;
  ar_total : Z;
  ar_state : State
}.
Arguments mkAtomicReceiverV2 {S}. Arguments ar_begin {S}. Arguments ar_sink {S}. Arguments ar_key {S}.
Arguments ar_next {S}. Arguments ar_deferred_ranges {S}. Arguments ar_seen_components {S}.
Arguments ar_descriptor_hash {S}. Arguments ar_payload_hash {S}. Arguments ar_total {S}.
Arguments ar_state {S}.

Section receiver.
Context `{Crypto} `{JsonText} {S : Type} (sink : HandoffSinkV2 S).
Notation receiver := (AtomicReceiverV2 S).
Notation run := (stateful receiver).
Local Open Scope stateful_scope.
Implicit Types (r : receiver).

Definition with_sink (s : S) r : receiver :=
  mkAtomicReceiverV2 (ar_begin r) s (ar_key r) (ar_next r) (ar_deferred_ranges r) (ar_seen_components r)
    (ar_descriptor_hash r) (ar_payload_hash r) (ar_total r) (ar_state r).
Definition with_state (st : State) r : receiver :=
  mkAtomicReceiverV2 (ar_begin r) (ar_sink r) (ar_key r) (ar_next r) (ar_deferred_ranges r)
    (ar_seen_components r) (ar_descriptor_hash r) (ar_payload_hash r) (ar_total r) st.
Definition with_ranges (ranges : SegmentRanges) r : receiver :=
  mkAtomicReceiverV2 (ar_begin r) (ar_sink r) (ar_key r) (ar_next r) ranges (ar_seen_components r)
    (ar_descriptor_hash r) (ar_payload_hash r) (ar_total r) (ar_state r).
Definition with_hashes (descriptor_hash payload_hash : bytes) (total : Z) r : receiver :=
  mkAtomicReceiverV2 (ar_begin r) (ar_sink r) (ar_key r) (ar_next r) (ar_deferred_ranges r)
    (ar_seen_components r) descriptor_hash payload_hash total (ar_state r).
Definition with_installed (component : bytes) r : receiver :=
  mkAtomicReceiverV2 (ar_begin r) (ar_sink r) (ar_key r) (ar_next r + 1) (ar_deferred_ranges r)
    ({[component]} ∪ ar_seen_components r) (ar_descriptor_hash r) (ar_payload_hash r) (ar_total r)
    (ar_state r).

Definition AtomicReceiverV2_begin (begin : ValidatedBeginV2) (key : MacKey) (s : S) : hresult receiver * S :=
  match hs_begin sink begin s with
  | (Ok _, s) => (Ok (mkAtomicReceiverV2 begin s key 0 ∅ ∅ [] [] 0 Receiving), s)
  | (Err e, s) => (Err e, s)
  | (Panic w, s) => (Panic w, s)
  end.

Definition v2_abort r : receiver :=
  match ar_state r with
  | Committed | Aborted => r
  | _ => with_state Aborted (with_sink (hs_abort sink (ar_sink r)) r)
  end.
(** [Drop::drop] *)
Definition v2_drop r : receiver := v2_abort r.
Definition fail {A} (message : string) : run A := λ r, (Err (Validation message), v2_abort r).
(** [self.abort(); return Err(e)] for an error of [m]; a panic unwinds. *)
Definition or_abort {A} (m : hresult A) : run A := λ r,
  match m with Ok a => (Ok a, r) | Err e => (Err e, v2_abort r) | Panic w => (Panic w, r) end.
Definition sink_or_abort {A} (m : stateful S A) : run A := λ r,
  let '(x, s) := m (ar_sink r) in or_abort x (with_sink s r).

Definition accept_segment (descriptor : SegmentDescriptorV2) (payload : bytes) : run unit :=
  verified <- or_abort (VerifiedSegmentV2_verify descriptor payload);
  encoded <- st_lift (canonical_json serde_SegmentDescriptorV2 descriptor);
  st_modify (λ r, with_hashes (ar_descriptor_hash r ++ encoded) (ar_payload_hash r ++ vs_payload verified)
                    (ar_total r) r) ;;
  r <- st_get;
  total <- st_lift (ok_or (checked_add (ar_total r) (sd_byte_len descriptor))
                          (Validation "total byte count overflow"));
  st_modify (λ r, with_hashes (ar_descriptor_hash r) (ar_payload_hash r) total r) ;;
  sink_or_abort (hs_segment_ready sink verified) ;;
  st_modify (with_installed (sd_component_id descriptor)).

Definition v2_segment_ready (sequence : Z) (payload : bytes) : run unit := λ r,
  if negb (bool_decide (ar_state r = Receiving)) then fail "segment outside receiving state" r else
  match bv_segments (vb_manifest (ar_begin r)) !! ar_next r with
  | None => fail "extra segment" r
  | Some descriptor =>
      if negb (sd_sequence descriptor =? sequence) then fail "dropped, duplicate, or reordered segment" r
      else accept_segment descriptor payload r
  end.

Definition component_ids (begin : ValidatedBeginV2) : gset bytes :=
  list_to_set (cv_id <$> bv_components (vb_manifest begin)).
Definition segment_ready_deferred (descriptor : SegmentDescriptorV2) (payload : bytes) : run unit := λ r,
  if negb (bool_decide (ar_state r = Receiving)) || negb (bv_deferred_segments (vb_manifest (ar_begin r))) then
    fail "deferred segment outside deferred receiving mode" r else
  if negb (sd_sequence descriptor =? Z.of_nat (ar_next r)) then
    fail "dropped, duplicate, or reordered deferred segment" r else
  let '(checked, ranges) :=
    validate_segment_descriptor descriptor (component_ids (ar_begin r)) (ar_deferred_ranges r) in
  (or_abort checked ;; accept_segment descriptor payload) (with_ranges ranges r).

Definition all_segments r : bool :=
  if bv_deferred_segments (vb_manifest (ar_begin r)) then (0 <? ar_next r)%nat
  else (ar_next r =? length (bv_segments (vb_manifest (ar_begin r))))%nat.
Definition required_missing r : bool :=
  bv_deferred_segments (vb_manifest (ar_begin r))
  && existsb (λ c, cv_required c && negb (bool_decide (cv_id c ∈ ar_seen_components r)))
             (bv_components (vb_manifest (ar_begin r))).
Definition seal_mismatch (core : SealCoreV2) r : bool :=
  negb (bytes_eqb (sv_transfer_id core) (bv_transfer_id (vb_manifest (ar_begin r))))
  || negb (sv_generation core =? bv_generation (vb_manifest (ar_begin r)))
  || negb (sv_segment_count core =? Z.of_nat (ar_next r))
  || negb (sv_total_bytes core =? ar_total r)
  || negb (bytes_eqb (sv_begin_sha256 core) (sha256_hex (vb_canonical (ar_begin r))))
  || negb (bytes_eqb (sv_descriptor_sha256 core) (sha256_hex (ar_descriptor_hash r)))
  || negb (bytes_eqb (sv_payload_sha256 core) (sha256_hex (ar_payload_hash r))).
Definition v2_prepare_commit (seal : SealManifestV2) : run unit := λ r,
  if negb (bool_decide (ar_state r = Receiving)) || negb (all_segments r) then
    fail "seal before every segment" r else
  if required_missing r then fail "required component has no deferred segment" r else
  if seal_mismatch (sl_core seal) r then fail "seal identity or digest mismatch" r else
  (st_lift (v2_validate_hex (sl_hmac_sha256 seal)) ;;
   stream <- st_lift (canonical_json serde_SealCoreV2 (sl_core seal));
   or_abort (verify_hex (ar_key r) stream (sl_hmac_sha256 seal)) ;;
   sink_or_abort (hs_prepare_commit sink (mkVerifiedSealV2 seal)) ;;
   st_modify (with_state Prepared)) r.

Definition v2_commit : run CommittedGeneration := λ r,
  if negb (bool_decide (ar_state r = Prepared)) then fail "commit before prepared seal" r else
  (g <- sink_or_abort (hs_commit sink);
   st_modify (with_state Committed) ;;
   st_ret g) r.

(** ** A client's calls, up to a panic, then the drop *)
Inductive call :=
  | SegmentReady (sequence : Z) (payload : bytes)
  | SegmentReadyDeferred (descriptor : SegmentDescriptorV2) (payload : bytes)
  | PrepareCommit (seal : SealManifestV2)
  | Commit
  | Abort.
Definition discard {A} (m : run A) : run unit := m ;; st_ret tt.
Definition perform (c : call) : run unit :=
  match c with
  | SegmentReady sequence payload => v2_segment_ready sequence payload
  | SegmentReadyDeferred descriptor payload => segment_ready_deferred descriptor payload
  | PrepareCommit seal => v2_prepare_commit seal
  | Commit => discard v2_commit
  | Abort => st_modify v2_abort
  end.
Fixpoint perform_all (calls : list call) r : receiver :=
  match calls with
  | [] => r
  | c :: calls => match perform c r with (Panic _, r) => r | (_, r) => perform_all calls r end
  end.
End receiver.

(** * Laws of protocol v2: descriptors, BEGIN and seal

    Descriptor validation decides a declarative well-formedness with pairwise
    disjoint ranges; a validated BEGIN carries well-formed segments in wire
    order; [sign] succeeds exactly on verified material and computes the
    digests of its streams. *)
(** ** Descriptors *)
Implicit Types (s t : SegmentDescriptorV2) (ds : list SegmentDescriptorV2) (ids : gset bytes).
Notation sd_end s := (sd_logical_start s + sd_logical_count s).
Definition element_size (element_type : bytes) (width : Z) : Prop :=
  (element_type = str "f16_le" ∧ width = 2) ∨ (element_type = str "f32_le" ∧ width = 4).
Record segment_wf ids s : Prop := {
  sw_known : sd_component_id s ∈ ids;
  sw_nonempty : sd_logical_count s ≠ 0 ∧ sd_elements_per_token s ≠ 0 ∧ sd_byte_len s ≠ 0;
  sw_digest : lower_hex64 (sd_sha256 s) = true;
  sw_geometry : ∃ width, element_size (sd_element_type s) width ∧
    sd_byte_len s = sd_logical_count s * sd_elements_per_token s * width;
  sw_rows : sd_logical_count s * sd_elements_per_token s < u64_bound;
  sw_bytes : sd_byte_len s < u64_bound;
  sw_range : sd_end s < u64_bound
}.
Definition overlaps s t : Prop :=
  range_key s = range_key t ∧ sd_logical_start s < sd_end t ∧ sd_logical_start t < sd_end s.
Definition disjoint_segments ds : Prop := ∀ i j s t,
  (i < j)%nat → ds !! i = Some s → ds !! j = Some t → ¬ overlaps t s.
Definition segments_wf ids ds : Prop := Forall (segment_wf ids) ds ∧ disjoint_segments ds.

Lemma v2_validate_hex_Ok h : v2_validate_hex h = Ok tt ↔ lower_hex64 h = true.
Proof.
  unfold v2_validate_hex, lower_hex64. destruct (zlen h =? 64), (forallb is_lower_hex h); simpl; by split.
Qed.
Lemma element_width_Ok e w : element_width e = Ok w ↔ element_size e w.
Proof.
  unfold element_width, element_size. destruct (bytes_eqb e _) eqn:E1.
  { apply bytes_eqb_eq in E1. subst. split; [intros [= <-]; by left|]. intros [[_ ->]|[? ->]]; [done|].
    by vm_compute in H. }
  destruct (bytes_eqb e (str "f32_le")) eqn:E2.
  - apply bytes_eqb_eq in E2. subst. split; [intros [= <-]; by right|]. intros [[? ->]|[_ ->]]; [|done].
    by vm_compute in H.
  - split; [done|]. intros [[-> _]|[-> _]]; by rewrite bytes_eqb_refl in *.
Qed.
Lemma check_segment_geometry_Ok s ids e :
  check_segment_geometry s ids = Ok e ↔ segment_wf ids s ∧ e = sd_end s.
Proof.
  unfold check_segment_geometry. split.
  - intros Hc. inv_ok. bools.
    rename select (_ ≫= _ = Some _) into Hm. apply bind_Some in Hm as (n & Hn & Hm).
    apply checked_mul_Some in Hn as [-> ?], Hm as [-> ?].
    rename select (checked_add _ _ = _) into Ha. apply checked_add_Some in Ha as [-> ?].
    rename select (v2_validate_hex _ = _) into Hh. destruct x. apply v2_validate_hex_Ok in Hh.
    rename select (element_width _ = _) into Hw. apply element_width_Ok in Hw.
    split; [|done]. split; try done; [eauto|congruence].
  - intros [[Hk (H1 & H2 & H3) Hd (w & Hw & Hb) Hr Hu He] ->].
    rewrite bool_decide_eq_true_2 by done.
    rewrite (proj2 (Z.eqb_neq _ _) H1), (proj2 (Z.eqb_neq _ _) H2), (proj2 (Z.eqb_neq _ _) H3). cbn [negb orb].
    rewrite (proj2 (v2_validate_hex_Ok _) Hd). cbn [mbind outcome_bind].
    rewrite (proj2 (element_width_Ok _ _) Hw). cbn [mbind outcome_bind].
    rewrite (proj2 (checked_mul_Some _ _ _) (conj eq_refl Hr)). cbn [mbind option_bind].
    rewrite (proj2 (checked_mul_Some _ _ _) (conj eq_refl (eq_ind _ (λ x, x < u64_bound) Hu _ Hb))).
    cbn [ok_or mbind outcome_bind]. rewrite (proj2 (Z.eqb_eq _ _) Hb). cbn [negb].
    by rewrite (proj2 (checked_add_Some _ _ _) (conj eq_refl He)).
Qed.

(** The range table after the descriptors [ds]. *)
Definition range_table ds (ranges : SegmentRanges) : Prop := ∀ k,
  default [] (ranges !! k) = (λ s, (sd_logical_start s, sd_end s)) <$> filter (λ s, range_key s = k) ds.
Lemma range_table_nil : range_table [] ∅.
Proof. intros k. by rewrite lookup_empty. Qed.
Lemma range_table_snoc ds s ranges : range_table ds ranges →
  range_table (ds ++ [s])
    (<[range_key s := default [] (ranges !! range_key s) ++ [(sd_logical_start s, sd_end s)]]> ranges).
Proof.
  intros Ht k. rewrite list.filter_app, fmap_app. destruct (decide (range_key s = k)) as [<-|Hk].
  - rewrite lookup_insert_eq. simpl. rewrite Ht. by rewrite list.filter_cons_True.
  - rewrite lookup_insert_ne by done. rewrite list.filter_cons_False by done. by rewrite Ht, app_nil_r.
Qed.
Lemma range_overlap_iff ds s ranges : range_table ds ranges →
  existsb (λ '(start, stop), (sd_logical_start s <? stop) && (start <? sd_end s))
    (default [] (ranges !! range_key s)) = true ↔ ∃ t, t ∈ ds ∧ overlaps s t.
Proof.
  intros Ht. rewrite Ht, List.existsb_exists. split.
  - intros ([a b] & Hin & Ho). apply list_elem_of_In, list_elem_of_fmap in Hin as (t & [= -> ->] & Hin).
    apply list_elem_of_filter in Hin as [Hk Hin]. bools. exists t. split; [done|]. by split_and!.
  - intros (t & Hin & Hk & H1 & H2). exists (sd_logical_start t, sd_end t). split.
    + apply list_elem_of_In, list_elem_of_fmap. exists t. split; [done|]. by apply list_elem_of_filter.
    + apply andb_true_intro. split; by apply Z.ltb_lt.
Qed.

Lemma disjoint_snoc ds s :
  disjoint_segments (ds ++ [s]) ↔ disjoint_segments ds ∧ ∀ t, t ∈ ds → ¬ overlaps s t.
Proof.
  split.
  - intros Hd. split.
    + intros i j a b Hij Hi Hj. eapply (Hd i j); [done| |]; by apply lookup_app_l_Some.
    + intros t Hin. apply list_elem_of_lookup in Hin as [i Hi]. pose proof (lookup_lt_Some _ _ _ Hi).
      eapply (Hd i (length ds)); [done|by apply lookup_app_l_Some|by rewrite list_lookup_middle].
  - intros [Hd Hs] i j a b Hij Hi Hj. apply lookup_app_Some in Hj as [Hj|[Hl Hj]].
    + pose proof (lookup_lt_Some _ _ _ Hj). rewrite lookup_app_l in Hi by lia. by eapply (Hd i j).
    + apply list_lookup_singleton_Some in Hj as [? <-]. rewrite lookup_app_l in Hi by lia.
      apply Hs. by eapply list_elem_of_lookup_2.
Qed.
Lemma segments_wf_snoc ids ds s :
  segments_wf ids (ds ++ [s]) ↔ segments_wf ids ds ∧ segment_wf ids s ∧ ∀ t, t ∈ ds → ¬ overlaps s t.
Proof.
  unfold segments_wf. rewrite disjoint_snoc, Forall_app, list.Forall_singleton. tauto.
Qed.
Lemma segments_wf_nil ids : segments_wf ids [].
Proof. split; [constructor|]. intros i j s t _ Hi. by rewrite lookup_nil in Hi. Qed.
Lemma segments_wf_prefix ids ds ds' : segments_wf ids (ds ++ ds') → segments_wf ids ds.
Proof.
  induction ds' as [|s ds' IH] using rev_ind; [by rewrite app_nil_r|].
  rewrite app_assoc. intros Hw. by apply segments_wf_snoc in Hw as [? _]; auto.
Qed.

(** One descriptor against the ranges of its predecessors. *)
Lemma validate_segment_descriptor_Ok ds s ids ranges : range_table ds ranges →
  (validate_segment_descriptor s ids ranges).1 = Ok tt ↔
  segment_wf ids s ∧ ∀ t, t ∈ ds → ¬ overlaps s t.
Proof.
  intros Ht. unfold validate_segment_descriptor. pose proof (check_segment_geometry_Ok s ids) as Hc.
  destruct (check_segment_geometry s ids) as [e| |] eqn:E; cbn [fst].
  - destruct (proj1 (Hc e) eq_refl) as [Hw ->]. pose proof (range_overlap_iff ds s ranges Ht) as Ho.
    destruct (existsb _ _); cbn [fst]; [split; [done|]|split; [intros _|done]].
    + intros [_ Hn]. destruct (proj1 Ho eq_refl) as (t & ? & ?). by destruct (Hn t).
    + split; [done|]. intros t Hin Hov. discriminate (proj2 Ho). eauto.
  - split; [done|]. intros [Hw _]. by pose proof (proj2 (Hc (sd_end s)) (conj Hw eq_refl)).
  - split; [done|]. intros [Hw _]. by pose proof (proj2 (Hc (sd_end s)) (conj Hw eq_refl)).
Qed.
Lemma validate_segment_descriptor_table ds s ids ranges ranges' : range_table ds ranges →
  validate_segment_descriptor s ids ranges = (Ok tt, ranges') → range_table (ds ++ [s]) ranges'.
Proof.
  intros Ht. unfold validate_segment_descriptor. pose proof (check_segment_geometry_Ok s ids) as Hc.
  destruct (check_segment_geometry s ids) as [e| |] eqn:E; try done.
  destruct (proj1 (Hc e) eq_refl) as [_ ->]. destruct (existsb _ _); [done|]. intros [= <-].
  by apply range_table_snoc.
Qed.
Lemma validate_segment_descriptor_no_panic s ids ranges :
  ¬ panics (validate_segment_descriptor s ids ranges).1.
Proof.
  unfold validate_segment_descriptor.
  assert (¬ panics (check_segment_geometry s ids)) as Hn.
  { unfold check_segment_geometry, v2_validate_hex, element_width. no_panic. }
  destruct (check_segment_geometry s ids) as [e| |]; cbn [fst]; [destruct (existsb _ _)| |]; cbn [fst]; no_panic.
Qed.

(** ** BEGIN *)
Definition in_wire_order (index : nat) ds : Prop := ∀ i s, ds !! i = Some s → sd_sequence s = Z.of_nat (index + i).
Lemma in_wire_order_cons index s ds :
  in_wire_order index (s :: ds) ↔ sd_sequence s = Z.of_nat index ∧ in_wire_order (S index) ds.
Proof.
  unfold in_wire_order. split.
  - intros Ho. split; [rewrite (Ho 0%nat) by done; lia|]. intros i t Hi. rewrite (Ho (S i)) by done. lia.
  - intros [Hs Ho] [|i] t Hi; simpl in Hi; [injection Hi as <-; lia|]. rewrite (Ho i) by done. lia.
Qed.
Lemma check_declared_segments_Ok ids done_ index ds ranges :
  range_table done_ ranges → segments_wf ids done_ →
  check_declared_segments index ds ids ranges = Ok tt ↔
  in_wire_order index ds ∧ segments_wf ids (done_ ++ ds).
Proof.
  revert done_ index ranges. induction ds as [|s ds IH]; intros done_ index ranges Ht Hw; cbn [check_declared_segments].
  { rewrite app_nil_r. split; [|done]. intros _. split; [|done]. intros i t Hi. by rewrite lookup_nil in Hi. }
  rewrite in_wire_order_cons, (cons_middle s done_ ds), app_assoc.
  destruct (Z.eqb_spec (sd_sequence s) (Z.of_nat index)) as [Hs|Hs]; cbn [negb]; [|naive_solver].
  pose proof (validate_segment_descriptor_Ok done_ s ids ranges Ht) as Hv.
  destruct (validate_segment_descriptor s ids ranges) as [x ranges'] eqn:E. cbn [fst] in Hv.
  destruct x as [[]|e|w]; cbn [mbind outcome_bind].
  - destruct (proj1 Hv eq_refl) as [Hsw Hsd].
    rewrite (IH (done_ ++ [s])); [tauto|by eapply validate_segment_descriptor_table|].
    by apply segments_wf_snoc.
  - split; [done|]. intros [_ Hb]. apply segments_wf_prefix, segments_wf_snoc in Hb as (_ & ? & ?).
    discriminate (proj2 Hv). done.
  - split; [done|]. intros [_ Hb]. apply segments_wf_prefix, segments_wf_snoc in Hb as (_ & ? & ?).
    discriminate (proj2 Hv). done.
Qed.
Lemma check_declared_segments_no_panic ids index ds ranges : ¬ panics (check_declared_segments index ds ids ranges).
Proof.
  revert index ranges. induction ds as [|s ds IH]; intros index ranges; cbn [check_declared_segments]; [by intros []|].
  destruct (_ =? _); cbn [negb]; [|by intros []].
  pose proof (validate_segment_descriptor_no_panic s ids ranges). destruct (validate_segment_descriptor _ _ _) as [x r].
  apply bind_no_panic; [done|]. intros. apply IH.
Qed.

Lemma validate_digests_Ok l : validate_digests l = Ok tt ↔ Forall (λ h, lower_hex64 h = true) l.
Proof.
  induction l as [|h l IH]; cbn [validate_digests]; [split; [constructor|done]|].
  rewrite Forall_cons_iff, <-IH, <-v2_validate_hex_Ok. destruct (v2_validate_hex h) as [[]| |]; cbn; naive_solver.
Qed.
Notation id_set cs := (list_to_set (cv_id <$> cs) : gset bytes).
Definition has_kind (kind : ComponentKindV2) (cs : list ComponentV2) : Prop :=
  ∃ c, c ∈ cs ∧ cv_kind c = kind ∧ cv_required c = true.
Record components_wf (ids : gset bytes) (cs : list ComponentV2) : Prop := {
  cw_ids : NoDup (cv_id <$> cs);
  cw_fresh : Forall (λ c, cv_id c ≠ [] ∧ cv_id c ∉ ids ∧ lower_hex64 (cv_identity_sha256 c) = true) cs
}.
Lemma components_wf_cons ids c cs : components_wf ids (c :: cs) ↔
  cv_id c ≠ [] ∧ cv_id c ∉ ids ∧ lower_hex64 (cv_identity_sha256 c) = true ∧
  components_wf ({[cv_id c]} ∪ ids) cs.
Proof.
  split.
  - intros [Hd Hf]. rewrite fmap_cons in Hd. apply list.NoDup_cons in Hd as [Hn Hd].
    apply Forall_cons_iff in Hf as [(? & ? & ?) Hf]. split_and!; try done. split; [done|].
    rewrite list.Forall_forall in *. intros x Hx. destruct (Hf x Hx) as (? & ? & ?). split_and!; try done.
    rewrite not_elem_of_union, not_elem_of_singleton. split; [|done]. intros E. apply Hn. rewrite <-E.
    by apply list_elem_of_fmap_2.
  - intros (Hn & Hi & Hh & [Hd Hf]). split.
    + rewrite fmap_cons. apply list.NoDup_cons. split; [|done]. intros Hin.
      apply list_elem_of_fmap in Hin as (x & E & Hx). rewrite list.Forall_forall in Hf.
      destruct (Hf x Hx) as (_ & Hx' & _). set_solver.
    + constructor; [done|]. eapply list.Forall_impl; [exact Hf|]. set_solver.
Qed.
Lemma zlen_eqb_nil (b : bytes) : (zlen b =? 0) = bool_decide (b = []).
Proof. destruct b; [done|]. rewrite bool_decide_eq_false_2 by done. apply Z.eqb_neq. zlia. Qed.
Lemma has_kind_cons k c cs (b : bool) :
  (b || bool_decide (cv_kind c = k) && cv_required c = true ∨ has_kind k cs) ↔ (b = true ∨ has_kind k (c :: cs)).
Proof.
  unfold has_kind. rewrite orb_true_iff, andb_true_iff, bool_decide_eq_true. split.
  - intros [[?|[? ?]]|(x & ? & ?)]; [by left|right; exists c|right; exists x]; set_solver.
  - intros [?|(x & Hx & ? & ?)]; [by left; left|]. apply elem_of_cons in Hx as [->|?]; [by left; right|right; eauto].
Qed.
Lemma check_components_Ok cs ids (t d : bool) ids' (t' d' : bool) :
  check_components cs ids t d = Ok (ids', t', d') ↔
  components_wf ids cs ∧ ids' = id_set cs ∪ ids ∧
  (t' = true ↔ t = true ∨ has_kind TargetKv cs) ∧ (d' = true ↔ d = true ∨ has_kind DflashContext cs).
Proof.
  revert ids t d. induction cs as [|c cs IH]; intros ids t d; cbn [check_components].
  { assert (∀ k, has_kind k [] ↔ False) as Hk by (unfold has_kind; set_solver). rewrite !Hk.
    split.
    - intros [= <- <- <-]. split_and!; [split; constructor|set_solver|tauto..].
    - intros (_ & -> & Ht & Hd). rewrite left_id_L by apply _. repeat f_equal; apply eq_true_iff_eq; tauto. }
  rewrite components_wf_cons, zlen_eqb_nil.
  case_bool_decide as H1; [split; [done|tauto]|]. case_bool_decide as H2; [split; [done|tauto]|]. cbn [orb].
  destruct (v2_validate_hex _) as [[]| |] eqn:E; cbn [mbind outcome_bind];
    [apply v2_validate_hex_Ok in E
    |split; [done|intros ((_ & _ & Hx & _) & _); apply v2_validate_hex_Ok in Hx; congruence]..].
  rewrite IH, !has_kind_cons. rewrite fmap_cons, list_to_set_cons.
  assert (∀ A B C : gset bytes, A ∪ (B ∪ C) = (B ∪ A) ∪ C) as Hu by set_solver. rewrite Hu. tauto.
Qed.

(** What a receiver accepts as a BEGIN. *)
Record begin_wf (m : BeginManifestV2) (now : Z) (key_id : bytes) (epoch : Z) : Prop := {
  bw_protocol : bv_protocol m = LIVE_HANDOFF_PROTOCOL_V2;
  bw_transfer : 1 ≤ zlen (bv_transfer_id m) ≤ 128 ∧ Forall (λ b, transfer_id_byte b = true) (bv_transfer_id m);
  bw_lifetime : bv_created_unix_ms m < bv_expires_unix_ms m ∧ now ≤ bv_expires_unix_ms m;
  bw_key : hi_key_id (bv_hmac m) = key_id ∧ epoch ≤ hi_epoch (bv_hmac m);
  bw_digests : Forall (λ h, lower_hex64 h = true) (v2_identity_digests m ++ v2_multimodal_digests m);
  bw_mode : bv_deferred_segments m = true ↔ bv_segments m = [];
  bw_prompt : bv_prompt_token_ids m ≠ [];
  bw_components : components_wf ∅ (bv_components m);
  bw_target : has_kind TargetKv (bv_components m);
  bw_order : in_wire_order 0 (bv_segments m);
  bw_segments : segments_wf (id_set (bv_components m)) (bv_segments m);
  bw_dflash : bv_deferred_segments m = false → has_kind DflashContext (bv_components m) →
    ∃ s c, s ∈ bv_segments m ∧ c ∈ bv_components m ∧ cv_id c = sd_component_id s ∧ cv_kind c = DflashContext
}.
Lemma dflash_present_iff (cs : list ComponentV2) ds :
  existsb (λ s, existsb (λ c, bytes_eqb (cv_id c) (sd_component_id s) && bool_decide (cv_kind c = DflashContext)) cs) ds = true ↔
  ∃ s c, s ∈ ds ∧ c ∈ cs ∧ cv_id c = sd_component_id s ∧ cv_kind c = DflashContext.
Proof.
  rewrite List.existsb_exists. setoid_rewrite List.existsb_exists. setoid_rewrite <-list_elem_of_In.
  setoid_rewrite andb_true_iff. setoid_rewrite bytes_eqb_eq. setoid_rewrite bool_decide_eq_true. naive_solver.
Qed.

Section begin.
Context `{Crypto} `{JsonText}.
Implicit Types (m : BeginManifestV2) (b : ValidatedBeginV2).

Lemma validate_begin_sound m now key_id epoch b :
  ValidatedBeginV2_validate m now key_id epoch = Ok b →
  begin_wf m now key_id epoch ∧ vb_manifest b = m ∧ canonical_json serde_BeginManifestV2 m = Ok (vb_canonical b).
Proof.
  unfold ValidatedBeginV2_validate. intros Hv. inv_ok. bools.
  destruct x1 as [[ids target] dflash]. inv_ok. bools. subst.
  rename select (check_components _ _ _ _ = _) into Hc. apply check_components_Ok in Hc as (Hc & -> & Ht & Hd).
  rewrite right_id_L in * by apply _.
  repeat match goal with u : unit |- _ => destruct u end.
  repeat match goal with H : validate_digests _ = _ |- _ => apply validate_digests_Ok in H end.
  rename select (check_declared_segments _ _ _ _ = _) into Hs.
  apply (check_declared_segments_Ok _ []) in Hs as [? ?]; [|apply range_table_nil|apply segments_wf_nil].
  repeat match goal with H : bytes_eqb _ _ = true |- _ => apply bytes_eqb_eq in H end.
  pose proof (zlen_nonneg (bv_transfer_id m)).
  split; [|done]. split; try done; try (split; (done || lia)).
  - split; [lia|]. apply list.Forall_forall. intros c Hin. apply list_elem_of_In in Hin.
    by eapply (List.forallb_forall transfer_id_byte).
  - by apply Forall_app.
  - destruct (bv_deferred_segments m); cbn in *; bools; naive_solver.
  - naive_solver.
  - intros Hdef Hk. rewrite Hdef in *. cbn [negb andb] in *.
    apply dflash_present_iff. destruct dflash; [cbn [andb] in *; by bools|]. discriminate (proj2 Hd (or_intror Hk)).
Qed.
Lemma validate_begin_complete m now key_id epoch : begin_wf m now key_id epoch →
  ValidatedBeginV2_validate m now key_id epoch =
  Ok (mkValidatedBeginV2 m (json_print (sorted_value (to_value serde_BeginManifestV2 m)))).
Proof.
  intros [Hp [Htl Htb] [Hl1 Hl2] [Hk He] Hdig Hmode Hpr Hc Ht Ho Hs Hdf]. unfold ValidatedBeginV2_validate.
  rewrite Hp, Hk, !bytes_eqb_refl. cbn [negb].
  rewrite (proj2 (Z.eqb_neq (zlen _) 0)), (proj2 (Z.ltb_ge 128 (zlen _))) by lia.
  rewrite (proj2 (List.forallb_forall transfer_id_byte (bv_transfer_id m))).
  2:{ intros c Hin. apply list_elem_of_In in Hin. rewrite list.Forall_forall in Htb. auto. }
  rewrite (proj2 (Z.leb_gt _ _)), (proj2 (Z.ltb_ge (bv_expires_unix_ms m) _)), (proj2 (Z.ltb_ge (hi_epoch _) _)) by lia.
  cbn [negb orb]. apply Forall_app in Hdig as [Hd1 Hd2].
  rewrite (proj2 (validate_digests_Ok _) Hd1). cbn [mbind outcome_bind].
  rewrite (proj2 (validate_digests_Ok _) Hd2). cbn [mbind outcome_bind].
  rewrite (bool_decide_eq_false_2 (bv_components m = [])) by (intros E; destruct Ht as (? & Hx & _); rewrite E in Hx; set_solver).
  cbn [orb].
  assert ((bv_deferred_segments m && negb (bool_decide (bv_segments m = [])))
     || (negb (bv_deferred_segments m) && bool_decide (bv_segments m = [])) = false) as ->.
  { destruct (bv_deferred_segments m), Hmode as [Hm1 Hm2]; case_bool_decide; cbn; naive_solver. }
  rewrite bool_decide_eq_false_2 by done.
  destruct (check_components_Ok (bv_components m) ∅ false false (id_set (bv_components m)) true
    (bool_decide (Exists (λ c, cv_kind c = DflashContext ∧ cv_required c = true) (bv_components m)))) as [_ Hcc].
  rewrite Hcc; [cbn [mbind outcome_bind negb]|].
  2:{ split_and!; [done|set_solver|tauto|]. rewrite bool_decide_eq_true, list.Exists_exists. unfold has_kind. naive_solver. }
  rewrite (proj2 (check_declared_segments_Ok _ [] _ _ _ range_table_nil (segments_wf_nil _)) (conj Ho Hs)).
  cbn [mbind outcome_bind].
  match goal with |- (if ?g then _ else _) = _ => assert (g = false) as -> end; [|done].
  destruct (bv_deferred_segments m); [done|]. cbn [negb andb]. case_bool_decide as Hex; [|done]. cbn [andb].
  rewrite (proj2 (dflash_present_iff _ _)); [done|]. apply Hdf; [done|].
  apply list.Exists_exists in Hex as (c & ? & ? & ?). by exists c.
Qed.
Lemma validate_begin_no_panic m now key_id epoch : ¬ panics (ValidatedBeginV2_validate m now key_id epoch).
Proof.
  assert (∀ l, ¬ panics (validate_digests l)) as Hd.
  { induction l; cbn [validate_digests]; unfold v2_validate_hex; no_panic; done. }
  assert (∀ cs ids (t d : bool), ¬ panics (check_components cs ids t d)) as Hc.
  { induction cs; intros; cbn [check_components]; unfold v2_validate_hex; no_panic; done. }
  unfold ValidatedBeginV2_validate, canonical_json. no_panic; auto using check_declared_segments_no_panic.
Qed.
End begin.
