(* ===== verification/HandoffV2Receiver.v ===== *)
(** * Laws of the atomic receiver of protocol v2

    A recording sink wraps any engine and logs the calls it receives.  Over
    every sequence of client calls, ended by the drop, the log follows one
    grammar: BEGIN, segments in wire order, at most one seal, at most one
    commit, and an abort exactly when there was no successful commit; a seal
    reaches the engine only if it is the one [sign] produces for what was
    delivered. *)
From Stdlib Require Import ZArith Lia.
From stdpp Require Import base tactics numbers list strings option sorting gmap.
From S2P Require Import Prelude Bytes Canonical Crypto HandoffJson HandoffMac HandoffManifest.
From S2P Require Import HandoffValidation HandoffBundle HandoffV2Manifest HandoffV2.

(** ** The seal of a delivered stream *)
Section seal.
Context `{Crypto} `{JsonText}.
Implicit Types (segs : list VerifiedSegmentV2) (b : ValidatedBeginV2) (key : MacKey).

Definition descriptor_json (s : SegmentDescriptorV2) : bytes :=
  json_print (sorted_value (to_value serde_SegmentDescriptorV2 s)).
Definition descriptor_stream (ds : list SegmentDescriptorV2) : bytes := ds ≫= descriptor_json.
Definition stream_bytes (ds : list SegmentDescriptorV2) : Z := zsum (sd_byte_len <$> ds).
Definition material_verified (m : SegmentDescriptorV2 * bytes) : Prop :=
  zlen m.2 = sd_byte_len m.1 ∧ sha256_hex m.2 = sd_sha256 m.1.

Lemma descriptor_stream_app a c : descriptor_stream (a ++ c) = descriptor_stream a ++ descriptor_stream c.
Proof. apply bind_app. Qed.
Lemma stream_bytes_app a c : stream_bytes (a ++ c) = stream_bytes a + stream_bytes c.
Proof. unfold stream_bytes. by rewrite fmap_app, zsum_app. Qed.
Lemma descriptor_stream_snoc a s : descriptor_stream (a ++ [s]) = descriptor_stream a ++ descriptor_json s.
Proof. rewrite descriptor_stream_app. f_equal. apply app_nil_r. Qed.
Lemma stream_bytes_snoc a s : stream_bytes (a ++ [s]) = stream_bytes a + sd_byte_len s.
Proof. rewrite stream_bytes_app. f_equal. apply Z.add_0_r. Qed.
Lemma mjoin_snoc (a : list bytes) p : mjoin (a ++ [p]) = mjoin a ++ p.
Proof. induction a as [|q a IH]; [apply app_nil_r|]. cbn. rewrite <-app_assoc. f_equal. exact IH. Qed.
Lemma stream_bytes_nonneg mat : Forall material_verified mat → 0 ≤ stream_bytes mat.*1.
Proof.
  induction 1 as [|[s p] mat [Hl _] _ IH]; [done|]. rewrite fmap_cons. cbn [fst snd] in *.
  change (stream_bytes (s :: mat.*1)) with (sd_byte_len s + stream_bytes mat.*1). pose proof (zlen_nonneg p). lia.
Qed.

Lemma material_check_iff index s (p : bytes) :
  negb (sd_sequence s =? Z.of_nat index) || negb (sd_byte_len s =? zlen p)
    || negb (bytes_eqb (sd_sha256 s) (sha256_hex p)) = false ↔
  sd_sequence s = Z.of_nat index ∧ material_verified (s, p).
Proof.
  rewrite !orb_false_iff, !negb_false_iff, !Z.eqb_eq, bytes_eqb_eq. unfold material_verified. simpl. naive_solver.
Qed.
Lemma sign_segments_Ok index mat dh ph t x : t < u64_bound →
  sign_segments index mat dh ph t = Ok x ↔
  in_wire_order index mat.*1 ∧ Forall material_verified mat ∧ t + stream_bytes mat.*1 < u64_bound ∧
  x = (dh ++ descriptor_stream mat.*1, ph ++ (mat ≫= snd), t + stream_bytes mat.*1).
Proof.
  revert index dh ph t. induction mat as [|[s p] mat IH]; intros index dh ph t Ht; cbn [sign_segments].
  { unfold stream_bytes. cbn. rewrite !app_nil_r, Z.add_0_r. split; [|naive_solver]. intros [= <-]. by split_and!. }
  rewrite fmap_cons. cbn [fst]. rewrite in_wire_order_cons, Forall_cons_iff.
  pose proof (material_check_iff index s p) as Hm. destruct (_ || _); [split; [done|]|].
  { intros ([? _] & [? _] & _). by discriminate (proj2 Hm). }
  destruct (proj1 Hm eq_refl) as [Hs Hv].
  change (stream_bytes (s :: mat.*1)) with (sd_byte_len s + stream_bytes mat.*1).
  change (descriptor_stream (s :: mat.*1)) with (descriptor_json s ++ descriptor_stream mat.*1).
  rewrite bind_cons. cbn [snd]. rewrite !app_assoc, !Z.add_assoc. unfold canonical_json. cbn [mbind outcome_bind].
  destruct (checked_add t (sd_byte_len s)) as [t'|] eqn:E; cbn [ok_or mbind outcome_bind].
  - apply checked_add_Some in E as [-> ?]. rewrite IH by done. fold (descriptor_json s). tauto.
  - split; [done|]. intros (_ & [_ Hf] & Hb & _). pose proof (stream_bytes_nonneg mat Hf).
    assert (checked_add t (sd_byte_len s) = Some (t + sd_byte_len s)); [|congruence].
    apply checked_add_Some. split; [done|lia].
Qed.

(** The seal [sign] writes. *)
Definition core_of b (ds : list SegmentDescriptorV2) (ps : list bytes) : SealCoreV2 :=
  mkSealCoreV2 (bv_transfer_id (vb_manifest b)) (bv_generation (vb_manifest b)) (sha256_hex (vb_canonical b))
    (sha256_hex (descriptor_stream ds)) (sha256_hex (mjoin ps)) (zlen ds) (stream_bytes ds).
Definition core_json (core : SealCoreV2) : bytes := json_print (sorted_value (to_value serde_SealCoreV2 core)).
Definition seal_of b ds ps key : SealManifestV2 :=
  mkSealManifestV2 (core_of b ds ps) (hex_encode (hmac_sha256 key (core_json (core_of b ds ps)))).
Lemma zip_snd_join {A} (ds : list A) (ps : list bytes) : length ds = length ps → zip ds ps ≫= snd = mjoin ps.
Proof.
  revert ps. induction ds as [|d ds IH]; intros [|p ps] Hl; try done. injection Hl as Hl. cbn. f_equal. by apply IH.
Qed.
Lemma sign_Ok b ds ps key seal :
  SealManifestV2_sign b ds ps key = Ok seal ↔
  length ds = length ps ∧ in_wire_order 0 ds ∧ Forall material_verified (zip ds ps) ∧
  zlen ds < u32_bound ∧ stream_bytes ds < u64_bound ∧ seal = seal_of b ds ps key.
Proof.
  unfold SealManifestV2_sign. destruct (Nat.eqb_spec (length ds) (length ps)) as [Hl|Hl]; cbn [negb]; [|naive_solver].
  pose proof (λ x, sign_segments_Ok 0 (zip ds ps) [] [] 0 x (eq_refl : 0 < u64_bound)) as Hs.
  rewrite fst_zip, zip_snd_join, Z.add_0_l, !app_nil_l in Hs by lia.
  split.
  - intros Hk. inv_ok. rename select (sign_segments _ _ _ _ _ = _) into Hx. apply Hs in Hx as (? & ? & ? & ->). inv_ok.
    destruct (zlen ds <? u32_bound) eqn:Hz; [|done]. inv_ok. bools. unfold canonical_json, tag_hex in *. inv_ok. subst.
    split_and!; done.
  - intros (_ & Ho & Hm & Hc & Ht & ->). rewrite (proj2 (Hs _) (conj Ho (conj Hm (conj Ht eq_refl)))).
    cbn [mbind outcome_bind app]. by rewrite (proj2 (Z.ltb_lt _ _) Hc).
Qed.
End seal.

(** ** The recording sink *)
Inductive engine_call :=
  | EBegin (begin : ValidatedBeginV2)
  | ESegment (segment : VerifiedSegmentV2)
  | EPrepare (seal : SealManifestV2)
  | ECommit
  | EAbort.
Notation engine_log := (list (engine_call * bool)).
(** Each call with whether it succeeded. *)
Definition record_call {S A} (c : engine_call) (m : stateful S A) : stateful (S * engine_log) A :=
  λ sl, let '(x, s) := m sl.1 in (x, (s, sl.2 ++ [(c, is_ok x)])).
Definition recording {S} (sink : HandoffSinkV2 S) : HandoffSinkV2 (S * engine_log) := mkHandoffSinkV2
  (λ b, record_call (EBegin b) (hs_begin sink b))
  (λ v, record_call (ESegment v) (hs_segment_ready sink v))
  (λ seal, record_call (EPrepare (vseal seal)) (hs_prepare_commit sink seal))
  (record_call ECommit (hs_commit sink))
  (λ sl, (hs_abort sink sl.1, sl.2 ++ [(EAbort, true)])).

(** ** What reaches the engine *)
Section grammar.
Context `{Crypto} `{JsonText}.
Implicit Types (segs : list VerifiedSegmentV2) (b : ValidatedBeginV2) (key : MacKey).
Notation descs segs := (vs_descriptor <$> segs).
Notation pays segs := (vs_payload <$> segs).

(** Segments in wire order, each with its digest and length, within the
    declared components and without overlap; declared ones as declared. *)
Record in_order b segs : Prop := {
  io_verified : Forall (λ v, material_verified (vs_descriptor v, vs_payload v)) segs;
  io_order : in_wire_order 0 (descs segs);
  io_wf : segments_wf (component_ids b) (descs segs);
  io_declared : bv_deferred_segments (vb_manifest b) = false → descs segs `prefix_of` bv_segments (vb_manifest b)
}.
(** A complete stream and the seal that [sign] computes for it. *)
Record sealed b key segs (seal : SealManifestV2) : Prop := {
  se_in_order : in_order b segs;
  se_declared : bv_deferred_segments (vb_manifest b) = false → descs segs = bv_segments (vb_manifest b);
  se_deferred : bv_deferred_segments (vb_manifest b) = true → segs ≠ [] ∧
    ∀ c, c ∈ bv_components (vb_manifest b) → cv_required c = true → cv_id c ∈ sd_component_id <$> descs segs;
  se_signed : SealManifestV2_sign b (descs segs) (pays segs) key = Ok seal
}.
Definition open_log b segs : engine_log := (EBegin b, true) :: ((λ v, (ESegment v, true)) <$> segs).
(** The six ways a transfer ends. *)
Inductive closed_log b key : engine_log → Prop :=
  | aborted_receiving segs : in_order b segs → closed_log b key (open_log b segs ++ [(EAbort, true)])
  | refused_segment segs v : in_order b (segs ++ [v]) →
      closed_log b key (open_log b segs ++ [(ESegment v, false); (EAbort, true)])
  | refused_seal segs seal : sealed b key segs seal →
      closed_log b key (open_log b segs ++ [(EPrepare seal, false); (EAbort, true)])
  | aborted_prepared segs seal : sealed b key segs seal →
      closed_log b key (open_log b segs ++ [(EPrepare seal, true); (EAbort, true)])
  | refused_commit segs seal : sealed b key segs seal →
      closed_log b key (open_log b segs ++ [(EPrepare seal, true); (ECommit, false); (EAbort, true)])
  | committed segs seal : sealed b key segs seal →
      closed_log b key (open_log b segs ++ [(EPrepare seal, true); (ECommit, true)]).

Lemma open_log_snoc b segs v : open_log b segs ++ [(ESegment v, true)] = open_log b (segs ++ [v]).
Proof. unfold open_log. by rewrite fmap_app. Qed.
Lemma in_order_nil b : in_order b [].
Proof. split; [by apply Forall_nil|done|apply segments_wf_nil|intros; apply prefix_nil]. Qed.
Lemma in_wire_order_snoc ds s :
  in_wire_order 0 ds → sd_sequence s = Z.of_nat (length ds) → in_wire_order 0 (ds ++ [s]).
Proof.
  intros Ho Hs i t Hi. apply lookup_app_Some in Hi as [Hi|[Hl Hi]]; [by apply Ho|].
  apply list_lookup_singleton_Some in Hi as [? <-]. rewrite Hs. lia.
Qed.
End grammar.

Section receiver.
Context `{CL : CryptoLaws} `{J : JsonText} {S : Type} (engine : HandoffSinkV2 S).
Notation receiver := (AtomicReceiverV2 (S * engine_log)).
Notation sink := (recording engine).
Notation descs segs := (vs_descriptor <$> segs).
Notation pays segs := (vs_payload <$> segs).
Notation log r := (ar_sink r).2.
Implicit Types (r : receiver) (segs : list VerifiedSegmentV2) (b : ValidatedBeginV2) (key : MacKey).

(** The receiver's counters while it accepts segments. *)
Record progress b key r segs : Prop := {
  pr_begin : ar_begin r = b;
  pr_key : ar_key r = key;
  pr_in_order : in_order b segs;
  pr_next : ar_next r = length segs;
  pr_descriptors : ar_descriptor_hash r = descriptor_stream (descs segs);
  pr_payloads : ar_payload_hash r = mjoin (pays segs);
  pr_total : ar_total r = stream_bytes (descs segs);
  pr_ranges : bv_deferred_segments (vb_manifest b) = true → range_table (descs segs) (ar_deferred_ranges r);
  pr_seen : ar_seen_components r = list_to_set (sd_component_id <$> descs segs)
}.
Inductive receiver_inv b key r : Prop :=
  | inv_receiving segs : ar_state r = Receiving → progress b key r segs → log r = open_log b segs →
      receiver_inv b key r
  | inv_prepared segs seal : ar_state r = Prepared → sealed b key segs seal →
      log r = open_log b segs ++ [(EPrepare seal, true)] → receiver_inv b key r
  | inv_closed : ar_state r = Committed ∨ ar_state r = Aborted → closed_log b key (log r) → receiver_inv b key r.
(** After one call: the invariant, or a panic that the drop cleans up. *)
Definition step_ok {A} b key (x : hresult A * receiver) : Prop :=
  match x.1 with
  | Panic _ => closed_log b key (log (v2_abort sink x.2))
  | _ => receiver_inv b key x.2
  end.

Lemma abort_open b key r l : ar_state r = Receiving ∨ ar_state r = Prepared →
  log r = l → closed_log b key (l ++ [(EAbort, true)]) →
  closed_log b key (log (v2_abort sink r)) ∧ receiver_inv b key (v2_abort sink r).
Proof.
  intros Hs <- Hc. assert (v2_abort sink r = with_state Aborted (with_sink (hs_abort sink (ar_sink r)) r)) as ->.
  { unfold v2_abort. by destruct Hs as [-> | ->]. }
  split; [done|]. apply inv_closed; [by right|done].
Qed.
Lemma abort_inv b key r : receiver_inv b key r →
  closed_log b key (log (v2_abort sink r)) ∧ receiver_inv b key (v2_abort sink r).
Proof.
  intros Hi. destruct Hi as [segs Hs Hp Hl|segs seal Hs Hse Hl|Hs Hc].
  - eapply abort_open; [by left|done|]. apply aborted_receiving, Hp.
  - eapply abort_open; [by right|done|]. rewrite <-app_assoc. by apply aborted_prepared.
  - assert (v2_abort sink r = r) as -> by (unfold v2_abort; by destruct Hs as [-> | ->]).
    split; [done|]. by apply inv_closed.
Qed.
Lemma fail_ok {A} b key m r : receiver_inv b key r → step_ok (A:=A) b key (fail sink m r).
Proof. intros Hi. by apply abort_inv. Qed.
Lemma or_abort_ok {A} b key (x : hresult A) r :
  closed_log b key (log (v2_abort sink r)) ∧ receiver_inv b key (v2_abort sink r) → ¬ is_ok x →
  step_ok b key (or_abort sink x r).
Proof. intros [Hc Hi] Hx. by destruct x. Qed.
Lemma step_ok_bind {A B} b key (m : stateful receiver A) (f : A → stateful receiver B) r :
  step_ok b key (m r) → (∀ a, (m r).1 = Ok a → step_ok b key (f a (m r).2)) → step_ok b key (st_bind m f r).
Proof. unfold st_bind. destruct (m r) as [[]]; auto. Qed.

(** *** Segments *)
Definition next_segment b segs d : Prop :=
  sd_sequence d = Z.of_nat (length segs) ∧ segments_wf (component_ids b) (descs segs ++ [d]) ∧
  (bv_deferred_segments (vb_manifest b) = false → descs segs ++ [d] `prefix_of` bv_segments (vb_manifest b)).
Lemma in_order_snoc b segs d p : in_order b segs → next_segment b segs d → material_verified (d, p) →
  in_order b (segs ++ [mkVerifiedSegmentV2 d p]).
Proof.
  intros [Hv Ho Hw Hd] (Hs & Hw' & Hd') Hm. split; rewrite ?fmap_app.
  - apply Forall_app. split; [done|]. by apply list.Forall_singleton.
  - apply in_wire_order_snoc; [done|]. by rewrite length_fmap.
  - done.
  - done.
Qed.
Lemma verify_segment_Ok d p v : VerifiedSegmentV2_verify d p = Ok v ↔ v = mkVerifiedSegmentV2 d p ∧ material_verified (d, p).
Proof.
  unfold VerifiedSegmentV2_verify, material_verified. simpl. split.
  - intros Hv. inv_ok. bools. rename select (bytes_eqb _ _ = true) into E. by apply bytes_eqb_eq in E.
  - intros (-> & -> & ->). by rewrite Z.eqb_refl, bytes_eqb_refl.
Qed.
Lemma progress_installed b key r segs d p ranges sl :
  progress b key r segs → in_order b (segs ++ [mkVerifiedSegmentV2 d p]) →
  (bv_deferred_segments (vb_manifest b) = true → range_table (descs segs ++ [d]) ranges) →
  progress b key (with_installed (sd_component_id d) (with_sink sl (with_hashes
      (ar_descriptor_hash r ++ descriptor_json d) (ar_payload_hash r ++ p) (ar_total r + sd_byte_len d)
      (with_ranges ranges r)))) (segs ++ [mkVerifiedSegmentV2 d p]).
Proof.
  intros [Hp1 Hp2 _ Hp4 Hp5 Hp6 Hp7 _ Hp9] Ho Hr.
  split; cbn [ar_begin ar_key ar_next ar_descriptor_hash ar_payload_hash ar_total ar_deferred_ranges
    ar_seen_components with_installed with_sink with_hashes with_ranges vs_payload];
    rewrite ?fmap_app; try done.
  - rewrite length_app. simpl. lia.
  - by rewrite Hp5, (descriptor_stream_snoc (descs segs) d).
  - by rewrite Hp6, (mjoin_snoc (pays segs) p).
  - by rewrite Hp7, (stream_bytes_snoc (descs segs) d).
  - rewrite Hp9, list_to_set_app_L. cbn. set_solver.
Qed.
Lemma accept_segment_ok b key r segs d p ranges :
  ar_state r = Receiving → progress b key r segs → log r = open_log b segs → next_segment b segs d →
  (bv_deferred_segments (vb_manifest b) = true → range_table (descs segs ++ [d]) ranges) →
  ar_total r + zlen p < u64_bound →
  step_ok b key (accept_segment sink d p (with_ranges ranges r)).
Proof.
  intros Hst Hp Hlog Hn Hr Hb. unfold accept_segment, st_bind, st_lift, st_get, st_modify, canonical_json, or_abort at 1.
  destruct (VerifiedSegmentV2_verify d p) as [v|e|w] eqn:Hv; [|apply (abort_open b key _ (open_log b segs));
    [by left|done|apply aborted_receiving, Hp]..].
  apply verify_segment_Ok in Hv as [-> Hm]. pose proof (in_order_snoc _ _ _ _ (pr_in_order _ _ _ _ Hp) Hn Hm) as Ho.
  cbn [with_hashes with_ranges ar_total]. destruct Hm as [Hlen Hsha]. cbn [fst snd] in *.
  assert (checked_add (ar_total r) (sd_byte_len d) = Some (ar_total r + sd_byte_len d)) as ->.
  { apply checked_add_Some. split; [done|lia]. }
  cbn [ok_or].
  unfold sink_or_abort. cbn [recording hs_segment_ready with_hashes ar_sink]. unfold record_call.
  destruct (hs_segment_ready engine _ _) as [x s]. cbn [or_abort].
  destruct x as [[]|e|w]; cbn [or_abort is_ok].
  - apply (inv_receiving _ _ _ (segs ++ [mkVerifiedSegmentV2 d p])); [done| |cbn; rewrite Hlog; apply open_log_snoc].
    exact (progress_installed b key r segs d p ranges _ Hp Ho Hr).
  - apply (abort_open b key _ (open_log b segs ++ [(ESegment (mkVerifiedSegmentV2 d p), false)]));
      [by left|cbn; by rewrite Hlog|rewrite <-app_assoc; by apply refused_segment].
  - apply (abort_open b key _ (open_log b segs ++ [(ESegment (mkVerifiedSegmentV2 d p), false)]));
      [by left|cbn; by rewrite Hlog|rewrite <-app_assoc; by apply refused_segment].
Qed.

(** The facts of a validated BEGIN the receiver relies on. *)
Definition begin_valid b : Prop :=
  in_wire_order 0 (bv_segments (vb_manifest b)) ∧
  segments_wf (component_ids b) (bv_segments (vb_manifest b)) ∧
  (bv_deferred_segments (vb_manifest b) = true ↔ bv_segments (vb_manifest b) = []).

Lemma receiving_inv b key r : receiver_inv b key r → ar_state r = Receiving →
  ∃ segs, progress b key r segs ∧ log r = open_log b segs.
Proof. intros Hi Hs. destruct Hi as [segs ? ? ?|segs seal ? ? ?|[?|?] ?]; [eauto|congruence..]. Qed.
Lemma with_ranges_same r : with_ranges (ar_deferred_ranges r) r = r.
Proof. by destruct r. Qed.
Lemma next_declared b segs d : begin_valid b → in_order b segs →
  bv_deferred_segments (vb_manifest b) = false →
  bv_segments (vb_manifest b) !! length segs = Some d → next_segment b segs d.
Proof.
  intros (Ho & Hw & _) Hi Hd Hl. destruct (io_declared _ _ Hi Hd) as [rest Hr]. rewrite Hr in Hl, Ho, Hw.
  rewrite <-(length_fmap vs_descriptor segs), lookup_app_r, Nat.sub_diag in Hl by lia.
  destruct rest as [|d' rest]; [done|]. injection Hl as ->. rewrite cons_middle, app_assoc in Hw.
  split_and!.
  - rewrite (Ho (length (descs segs)) d) by (by rewrite lookup_app_r, Nat.sub_diag). by rewrite length_fmap.
  - by apply segments_wf_prefix in Hw.
  - intros _. rewrite Hr. exists rest. by rewrite <-app_assoc.
Qed.

Lemma segment_ready_ok b key r sequence p : begin_valid b → receiver_inv b key r →
  ar_total r + zlen p < u64_bound → step_ok b key (v2_segment_ready sink sequence p r).
Proof.
  intros Hb Hi Ht. unfold v2_segment_ready. case_bool_decide as Hs; cbn [negb]; [|by apply fail_ok].
  destruct (receiving_inv _ _ _ Hi Hs) as (segs & Hp & Hl).
  destruct (bv_segments _ !! ar_next r) as [d|] eqn:Hd; [|by apply fail_ok].
  destruct (_ =? _); cbn [negb]; [|by apply fail_ok].
  rewrite (pr_begin _ _ _ _ Hp), (pr_next _ _ _ _ Hp) in Hd.
  assert (bv_deferred_segments (vb_manifest b) = false) as Hf.
  { destruct (bv_deferred_segments _) eqn:E; [|done]. by rewrite (proj1 (proj2 (proj2 Hb)) E) in Hd. }
  rewrite <-(with_ranges_same r) at 1. eapply accept_segment_ok; try done; [|congruence].
  by eapply next_declared; [|apply Hp|..].
Qed.
Lemma segment_ready_deferred_ok b key r d p : begin_valid b → receiver_inv b key r →
  ar_total r + zlen p < u64_bound → step_ok b key (segment_ready_deferred sink d p r).
Proof.
  intros Hb Hi Ht. unfold segment_ready_deferred. case_bool_decide as Hs; cbn [negb orb]; [|by apply fail_ok].
  destruct (receiving_inv _ _ _ Hi Hs) as (segs & Hp & Hl).
  destruct (bv_deferred_segments (vb_manifest (ar_begin r))) eqn:Hd; cbn [negb]; [|by apply fail_ok].
  destruct (Z.eqb_spec (sd_sequence d) (Z.of_nat (ar_next r))) as [Hq|]; cbn [negb]; [|by apply fail_ok].
  rewrite (pr_begin _ _ _ _ Hp), (pr_next _ _ _ _ Hp) in *.
  pose proof (pr_ranges _ _ _ _ Hp Hd) as Htab.
  pose proof (validate_segment_descriptor_Ok _ d (component_ids b) _ Htab) as Hv.
  pose proof (validate_segment_descriptor_no_panic d (component_ids b) (ar_deferred_ranges r)) as Hn.
  destruct (validate_segment_descriptor d _ _) as [x ranges] eqn:E. cbn [fst] in *.
  destruct x as [[]|e|w]; [| |by destruct Hn].
  - eapply accept_segment_ok; try done.
    + split_and!; [done| |congruence]. apply segments_wf_snoc. split; [apply Hp|by apply Hv].
    + intros _. by eapply validate_segment_descriptor_table.
  - eapply abort_open; [by left|done|]. apply aborted_receiving, Hp.
Qed.

(** *** Seal and commit *)
Lemma Forall_zip_verified segs : Forall (λ v, material_verified (vs_descriptor v, vs_payload v)) segs →
  Forall material_verified (zip (descs segs) (pays segs)).
Proof. induction 1; simpl; constructor; done. Qed.
Lemma seal_match_sealed b key r segs seal :
  progress b key r segs → all_segments r = true → required_missing r = false →
  seal_mismatch (sl_core seal) r = false → lower_hex64 (sl_hmac_sha256 seal) = true →
  verify_hex key (core_json (sl_core seal)) (sl_hmac_sha256 seal) = Ok tt →
  in_u32 (sv_segment_count (sl_core seal)) → ar_total r < u64_bound → sealed b key segs seal.
Proof.
  intros [Hp1 Hp2 Ho Hp4 Hp5 Hp6 Hp7 _ Hp9] Ha Hr Hm Hh Hver Hu Ht.
  unfold all_segments, required_missing, seal_mismatch in *. rewrite Hp1, ?Hp4, ?Hp5, ?Hp6, ?Hp7, ?Hp9 in *.
  bools. repeat match goal with H : bytes_eqb _ _ = true |- _ => apply bytes_eqb_eq in H end.
  apply verify_hex_iff in Hver; [|done]. unfold tag_hex in Hver. injection Hver as Hver.
  split; [done| | |].
  - intros Hd. rewrite Hd in Ha. apply Nat.eqb_eq in Ha. destruct (io_declared _ _ Ho Hd) as [rest Hrest].
    rewrite Hrest, length_app, length_fmap in Ha. destruct rest; [|simpl in Ha; lia]. by rewrite app_nil_r in Hrest.
  - intros Hd. rewrite Hd in Ha, Hr. apply Nat.ltb_lt in Ha. split; [by destruct segs; [simpl in Ha; lia|]|].
    intros c Hc Hreq. cbn [andb] in Hr. destruct (decide (cv_id c ∈ sd_component_id <$> descs segs)) as [|Hn]; [done|].
    apply not_true_iff_false in Hr. destruct Hr.
    apply List.existsb_exists. exists c. split; [by apply list_elem_of_In|]. rewrite Hreq. cbn [andb].
    by rewrite bool_decide_eq_false_2 by (by rewrite elem_of_list_to_set).
  - apply sign_Ok. unfold in_u32 in Hu. rewrite !length_fmap. split_and!; try done; try apply Ho.
    + apply Forall_zip_verified, Ho.
    + unfold zlen. rewrite length_fmap. lia.
    + destruct seal as [core tag]. unfold seal_of. cbn [sl_core sl_hmac_sha256] in *.
      assert (core = core_of b (descs segs) (pays segs)) as <-; [|congruence].
      destruct core. unfold core_of, zlen. cbn in *. rewrite length_fmap. congruence.
Qed.
Lemma prepare_commit_ok b key r seal : receiver_inv b key r → in_u32 (sv_segment_count (sl_core seal)) →
  ar_total r < u64_bound → step_ok b key (v2_prepare_commit sink seal r).
Proof.
  intros Hi Hu Ht. unfold v2_prepare_commit. case_bool_decide as Hs; cbn [negb orb]; [|by apply fail_ok].
  destruct (all_segments r) eqn:Ha; cbn [negb]; [|by apply fail_ok].
  destruct (required_missing r) eqn:Hr; [by apply fail_ok|].
  destruct (seal_mismatch _ r) eqn:Hm; [by apply fail_ok|].
  destruct (receiving_inv _ _ _ Hi Hs) as (segs & Hp & Hl).
  unfold st_bind, st_lift, st_modify, canonical_json.
  destruct (v2_validate_hex _) as [[]|e|w] eqn:Hh; [| |unfold v2_validate_hex in Hh; by destruct (_ || _)].
  2:{ exact Hi. }
  apply v2_validate_hex_Ok in Hh. fold (core_json (sl_core seal)). unfold or_abort at 1.
  rewrite (pr_key _ _ _ _ Hp).
  destruct (verify_hex key _ _) as [[]|e|w] eqn:Hver; [|by apply abort_inv..].
  pose proof (seal_match_sealed _ _ _ _ _ Hp Ha Hr Hm Hh Hver Hu Ht) as Hse.
  unfold sink_or_abort. cbn [recording hs_prepare_commit]. unfold record_call.
  destruct (hs_prepare_commit engine _ _) as [x s]. destruct x as [[]|e|w]; cbn [or_abort is_ok vseal].
  - apply (inv_prepared _ _ _ segs seal); [done|done|]. cbn. by rewrite Hl.
  - apply (abort_open b key _ (open_log b segs ++ [(EPrepare seal, false)]));
      [by left|cbn; by rewrite Hl|rewrite <-app_assoc; by apply refused_seal].
  - apply (abort_open b key _ (open_log b segs ++ [(EPrepare seal, false)]));
      [by left|cbn; by rewrite Hl|rewrite <-app_assoc; by apply refused_seal].
Qed.
Lemma commit_ok b key r : receiver_inv b key r → step_ok b key (v2_commit sink r).
Proof.
  intros Hi. unfold v2_commit. case_bool_decide as Hs; cbn [negb]; [|by apply fail_ok].
  destruct Hi as [segs ? ? ?|segs seal _ Hse Hl|[?|?] ?]; [congruence| |congruence..].
  unfold st_bind, st_modify, st_ret, sink_or_abort. cbn [recording hs_commit]. unfold record_call.
  destruct (hs_commit engine _) as [x s]. destruct x as [g|e|w]; cbn [or_abort is_ok].
  - apply inv_closed; [by left|]. cbn. rewrite Hl, <-app_assoc. by apply committed.
  - apply (abort_open b key _ (open_log b segs ++ [(EPrepare seal, true); (ECommit, false)]));
      [by right|cbn; by rewrite Hl, <-app_assoc|rewrite <-app_assoc; by apply refused_commit].
  - apply (abort_open b key _ (open_log b segs ++ [(EPrepare seal, true); (ECommit, false)]));
      [by right|cbn; by rewrite Hl, <-app_assoc|rewrite <-app_assoc; by apply refused_commit].
Qed.

(** *** Runs *)
Definition call_bytes (c : call) : Z :=
  match c with SegmentReady _ p | SegmentReadyDeferred _ p => zlen p | _ => 0 end.
Definition call_typed (c : call) : Prop :=
  match c with PrepareCommit seal => typed_as serde_SealManifestV2 seal | _ => True end.
Lemma call_bytes_nonneg c : 0 ≤ call_bytes c.
Proof. destruct c; cbn [call_bytes]; try apply zlen_nonneg; lia. Qed.

Lemma abort_total r : ar_total (v2_abort sink r) = ar_total r.
Proof. unfold v2_abort. by destruct (ar_state r). Qed.
Lemma or_abort_total {A} (x : hresult A) r : ar_total (or_abort sink x r).2 = ar_total r.
Proof. destruct x; [done|apply abort_total|done]. Qed.
Lemma sink_or_abort_total {A} (m : stateful _ A) r : ar_total (sink_or_abort sink m r).2 = ar_total r.
Proof. unfold sink_or_abort. destruct (m _). by rewrite or_abort_total. Qed.
Lemma bind_total {A B} (m : stateful receiver A) (f : A → stateful receiver B) r n :
  ar_total (m r).2 ≤ n → (∀ a, (m r).1 = Ok a → ar_total (f a (m r).2).2 ≤ n) → ar_total (st_bind m f r).2 ≤ n.
Proof. unfold st_bind. destruct (m r) as [[]]; simpl; auto. Qed.
Lemma accept_segment_total d p r : ar_total (accept_segment sink d p r).2 ≤ ar_total r + zlen p.
Proof.
  pose proof (zlen_nonneg p). unfold accept_segment. apply bind_total; [rewrite or_abort_total; lia|]. intros v Hv.
  unfold or_abort in *. destruct (VerifiedSegmentV2_verify d p) as [v'| |] eqn:E; [|done..].
  apply verify_segment_Ok in E as [-> [Hl _]]. cbn [fst snd] in *.
  unfold st_bind at 1, st_lift at 1, canonical_json. unfold st_bind at 1, st_modify at 1.
  unfold st_bind at 1, st_get at 1. unfold st_bind at 1, st_lift at 1. cbn [with_hashes ar_total].
  destruct (checked_add _ _) as [t|] eqn:Et; cbn [ok_or snd]; [|cbn; lia].
  apply checked_add_Some in Et as [-> ?]. unfold st_bind at 1, st_modify at 1.
  apply bind_total; [rewrite sink_or_abort_total; cbn; lia|]. intros a _. unfold st_modify. cbn.
  rewrite sink_or_abort_total. cbn. lia.
Qed.
Lemma perform_total c r : ar_total (perform sink c r).2 ≤ ar_total r + call_bytes c.
Proof.
  destruct c as [q p|d p|seal| |]; cbn [perform call_bytes].
  - pose proof (zlen_nonneg p). unfold v2_segment_ready, fail. destruct (bool_decide _); cbn [negb]; [|cbn; rewrite abort_total; lia].
    destruct (_ !! _); [|cbn; rewrite abort_total; lia].
    destruct (_ =? _); cbn [negb]; [apply accept_segment_total|cbn; rewrite abort_total; lia].
  - pose proof (zlen_nonneg p). unfold segment_ready_deferred, fail. destruct (_ || _); [cbn; rewrite abort_total; lia|].
    destruct (_ =? _); cbn [negb]; [|cbn; rewrite abort_total; lia].
    destruct (validate_segment_descriptor _ _ _) as [x ranges].
    change (ar_total r) with (ar_total (with_ranges ranges r)).
    apply bind_total; [rewrite or_abort_total; lia|]. intros a _.
    rewrite <-(or_abort_total x (with_ranges ranges r)). apply accept_segment_total.
  - unfold v2_prepare_commit, fail. destruct (_ || _); [cbn; rewrite abort_total; lia|].
    destruct (required_missing r); [cbn; rewrite abort_total; lia|].
    destruct (seal_mismatch _ r); [cbn; rewrite abort_total; lia|].
    unfold canonical_json. apply bind_total; [cbn; lia|]. intros _ _. apply bind_total; [cbn; lia|]. intros st _.
    apply bind_total; [rewrite or_abort_total; cbn; lia|]. intros _ _.
    apply bind_total; [rewrite sink_or_abort_total, or_abort_total; cbn; lia|]. intros _ _.
    unfold st_modify. cbn. rewrite sink_or_abort_total, or_abort_total. cbn. lia.
  - unfold discard. apply bind_total; [|intros g _]; unfold st_ret; cbn [snd];
    (unfold v2_commit, fail; destruct (bool_decide _); cbn [negb]; [|cbn; rewrite abort_total; lia]);
    (apply bind_total; [rewrite sink_or_abort_total; lia|]); intros a _; unfold st_bind, st_modify, st_ret; cbn;
    rewrite sink_or_abort_total; lia.
  - unfold st_modify. cbn [snd]. rewrite abort_total. lia.
Qed.

Lemma perform_ok b key r c : begin_valid b → receiver_inv b key r → call_typed c →
  ar_total r + call_bytes c < u64_bound → step_ok b key (perform sink c r).
Proof.
  intros Hb Hi Hc Ht. destruct c as [q p|d p|seal| |]; cbn [perform call_bytes] in *.
  - by apply segment_ready_ok.
  - by apply segment_ready_deferred_ok.
  - apply prepare_commit_ok; [done| |lia]. destruct Hc as [Hc _]. apply Hc.
  - unfold discard. pose proof (commit_ok b key r Hi) as Hk. apply step_ok_bind; [done|].
    intros g Hg. unfold st_ret, step_ok in *. rewrite Hg in Hk. done.
  - by apply abort_inv.
Qed.
Lemma perform_all_closed b key calls r : begin_valid b → receiver_inv b key r → Forall call_typed calls →
  ar_total r + zsum (call_bytes <$> calls) < u64_bound →
  closed_log b key (log (v2_drop sink (perform_all sink calls r))).
Proof.
  intros Hb. revert r. induction calls as [|c calls IH]; intros r Hi Hty Ht; cbn [perform_all].
  { by apply abort_inv. }
  apply Forall_cons_iff in Hty as [Hc Hty]. rewrite fmap_cons in Ht.
  change (zsum (call_bytes c :: (call_bytes <$> calls))) with (call_bytes c + zsum (call_bytes <$> calls)) in Ht.
  assert (0 ≤ zsum (call_bytes <$> calls)).
  { clear. induction calls as [|c calls IH]; [done|]. rewrite fmap_cons. pose proof (call_bytes_nonneg c).
    change (0 ≤ call_bytes c + zsum (call_bytes <$> calls)). lia. }
  pose proof (perform_ok b key r c Hb Hi Hc ltac:(lia)) as Hs. pose proof (perform_total c r).
  unfold step_ok in Hs. destruct (perform sink c r) as [[]]; cbn [fst snd] in *; try (apply IH; (done || lia)). done.
Qed.
Lemma begin_inv b key s r s' :
  AtomicReceiverV2_begin sink b key (s, []) = (Ok r, s') → receiver_inv b key r ∧ ar_total r = 0.
Proof.
  unfold AtomicReceiverV2_begin. cbn [recording hs_begin]. unfold record_call. cbn [fst snd].
  destruct (hs_begin engine b s) as [[[]| |] s1]; intros Hr; try done. injection Hr as <- <-. split; [|done].
  apply (inv_receiving _ _ _ []); [done| |done].
  split; (done || apply in_order_nil || (intros _; apply range_table_nil)).
Qed.
Lemma validated_begin_valid m now key_id epoch b :
  ValidatedBeginV2_validate m now key_id epoch = Ok b → begin_valid b.
Proof.
  intros Hv. apply validate_begin_sound in Hv as (Hw & <- & _). destruct Hw. by split_and!.
Qed.

(** *** An engine that accepts every call *)
Record accepting : Prop := {
  ac_begin s b : ∃ s', hs_begin engine b s = (Ok tt, s');
  ac_segment s v : ∃ s', hs_segment_ready engine v s = (Ok tt, s');
  ac_prepare s seal : ∃ s', hs_prepare_commit engine seal s = (Ok tt, s');
  ac_commit s : ∃ g s', hs_commit engine s = (Ok g, s')
}.
Definition segment_call b (v : VerifiedSegmentV2) : call :=
  if bv_deferred_segments (vb_manifest b) then SegmentReadyDeferred (vs_descriptor v) (vs_payload v)
  else SegmentReady (sd_sequence (vs_descriptor v)) (vs_payload v).
Definition receiving b key r segs : Prop :=
  ar_state r = Receiving ∧ progress b key r segs ∧ log r = open_log b segs.

Lemma accept_segment_live b key r segs d p ranges : accepting →
  receiving b key r segs → in_order b (segs ++ [mkVerifiedSegmentV2 d p]) →
  (bv_deferred_segments (vb_manifest b) = true → range_table (descs segs ++ [d]) ranges) →
  ar_total r + sd_byte_len d < u64_bound →
  ∃ r', accept_segment sink d p (with_ranges ranges r) = (Ok tt, r') ∧
    receiving b key r' (segs ++ [mkVerifiedSegmentV2 d p]).
Proof.
  intros Ha (Hst & Hp & Hlog) Ho Hr Hb. unfold accept_segment, st_bind, st_lift, st_get, st_modify, canonical_json, or_abort at 1.
  pose proof (io_verified _ _ Ho) as Hm. apply Forall_app in Hm as [_ Hm]. apply Forall_cons_iff in Hm as [Hm _].
  rewrite (proj2 (verify_segment_Ok d p _) (conj eq_refl Hm)).
  cbn [with_hashes with_ranges ar_total].
  assert (checked_add (ar_total r) (sd_byte_len d) = Some (ar_total r + sd_byte_len d)) as ->
    by (apply checked_add_Some; split; [done|lia]).
  cbn [ok_or]. unfold sink_or_abort. cbn [recording hs_segment_ready with_hashes ar_sink]. unfold record_call.
  destruct (ac_segment Ha (ar_sink r).1 (mkVerifiedSegmentV2 d p)) as [s Es].
  cbn [ar_sink with_ranges with_hashes]. rewrite Es. cbn [or_abort is_ok].
  eexists. split; [done|]. split_and!; [done|exact (progress_installed b key r segs d p ranges _ Hp Ho Hr)|]. cbn. rewrite Hlog. apply open_log_snoc.
Qed.
Lemma segment_call_live b key r segs v : accepting → begin_valid b →
  receiving b key r segs → in_order b (segs ++ [v]) → ar_total r + sd_byte_len (vs_descriptor v) < u64_bound →
  ∃ r', perform sink (segment_call b v) r = (Ok tt, r') ∧ receiving b key r' (segs ++ [v]).
Proof.
  intros Ha Hb Hrec Ho Ht. destruct Hrec as (Hst & Hp & Hl). destruct v as [d p].
  assert (sd_sequence d = Z.of_nat (length segs)) as Hq.
  { rewrite (io_order _ _ Ho (length segs) d); [done|]. rewrite fmap_app, lookup_app_r, length_fmap, Nat.sub_diag by (by rewrite length_fmap). done. }
  unfold segment_call. destruct (bv_deferred_segments (vb_manifest b)) eqn:Hd; cbn [perform vs_descriptor vs_payload].
  - unfold segment_ready_deferred. rewrite bool_decide_eq_true_2 by done. cbn [negb orb].
    rewrite (pr_begin _ _ _ _ Hp), Hd, (pr_next _ _ _ _ Hp), (proj2 (Z.eqb_eq _ _) Hq). cbn [negb].
    pose proof (pr_ranges _ _ _ _ Hp Hd) as Htab.
    pose proof (io_wf _ _ Ho) as Hw. rewrite fmap_app in Hw. apply segments_wf_snoc in Hw as (_ & Hw).
    pose proof (proj2 (validate_segment_descriptor_Ok _ d (component_ids b) _ Htab) Hw) as Hv.
    destruct (validate_segment_descriptor d _ _) as [x ranges] eqn:E. cbn [fst] in Hv. subst x.
    unfold st_bind, or_abort at 1. apply accept_segment_live; try done. intros _.
    by eapply validate_segment_descriptor_table.
  - unfold v2_segment_ready. rewrite bool_decide_eq_true_2 by done. cbn [negb].
    rewrite (pr_begin _ _ _ _ Hp), (pr_next _ _ _ _ Hp). destruct (io_declared _ _ Ho Hd) as [rest Hrest].
    rewrite Hrest, fmap_app, <-app_assoc, lookup_app_r, length_fmap, Nat.sub_diag by (by rewrite length_fmap).
    cbn. rewrite Z.eqb_refl. cbn [negb].
    pose proof (accept_segment_live b key r segs d p (ar_deferred_ranges r)) as Hacc. rewrite with_ranges_same in Hacc.
    apply Hacc; try done; congruence.
Qed.
Lemma in_order_prefix b segs segs' : in_order b (segs ++ segs') → in_order b segs.
Proof.
  intros [Hv Ho Hw Hd]. rewrite fmap_app in *. split.
  - by apply Forall_app in Hv as [? _].
  - intros i s Hi. apply Ho. by apply lookup_app_l_Some.
  - by apply segments_wf_prefix in Hw.
  - intros Hf. etrans; [|by apply Hd]. by apply prefix_app_r.
Qed.
Lemma segment_calls_live b key segs segs' r : accepting → begin_valid b →
  receiving b key r segs → in_order b (segs ++ segs') →
  stream_bytes (descs (segs ++ segs')) < u64_bound →
  ∀ calls, ∃ r', perform_all sink ((segment_call b <$> segs') ++ calls) r = perform_all sink calls r' ∧
    receiving b key r' (segs ++ segs').
Proof.
  intros Ha Hb. revert segs r. induction segs' as [|v segs' IH]; intros segs r Hrec Ho Ht calls.
  { rewrite app_nil_r in *. by exists r. }
  rewrite (cons_middle v segs segs'), app_assoc in Ho, Ht |- *.
  pose proof (in_order_prefix _ _ _ Ho) as Hv.
  destruct (segment_call_live b key r segs v) as (r' & Hr' & Hrec'); try done.
  { destruct Hrec as (_ & Hp & _). rewrite (pr_total _ _ _ _ Hp), <-stream_bytes_snoc.
    rewrite !fmap_app in Ht. rewrite stream_bytes_app in Ht. change (descs [v]) with [vs_descriptor v] in Ht.
    pose proof (io_verified _ _ Ho) as Hf. apply Forall_app in Hf as [_ Hf]. apply Forall_zip_verified, stream_bytes_nonneg in Hf.
    rewrite fst_zip in Hf by (by rewrite !length_fmap). lia. }
  rewrite fmap_cons. cbn [app perform_all]. rewrite Hr'. by apply IH.
Qed.

Lemma v2_prepare_live b key r segs seal : accepting → receiving b key r segs → sealed b key segs seal →
  perform sink (PrepareCommit seal) r = (Ok tt, with_state Prepared (with_sink
    ((hs_prepare_commit engine (mkVerifiedSealV2 seal) (ar_sink r).1).2, log r ++ [(EPrepare seal, true)]) r)).
Proof.
  intros Ha (Hst & Hp & Hl) Hse. pose proof (se_signed _ _ _ _ Hse) as Hsig. apply sign_Ok in Hsig as (_ & _ & _ & _ & _ & Hseal).
  cbn [perform]. unfold v2_prepare_commit. rewrite bool_decide_eq_true_2 by done. cbn [negb orb].
  destruct Hp as [Hp1 Hp2 _ Hp4 Hp5 Hp6 Hp7 _ Hp9]. cbn [app] in *.
  assert (all_segments r = true) as ->.
  { unfold all_segments. rewrite Hp1, Hp4. destruct (bv_deferred_segments _) eqn:Hd.
    - destruct (se_deferred _ _ _ _ Hse Hd) as [Hne _]. destruct segs; [done|]. by apply Nat.ltb_lt; simpl; lia.
    - apply Nat.eqb_eq. rewrite <-(se_declared _ _ _ _ Hse Hd). by rewrite length_fmap. }
  cbn [negb]. assert (required_missing r = false) as ->.
  { unfold required_missing. rewrite Hp1, Hp9. destruct (bv_deferred_segments _) eqn:Hd; [|done]. cbn [andb].
    apply not_true_iff_false. intros He. apply List.existsb_exists in He as (c & Hin & Hx). apply list_elem_of_In in Hin.
    bools. rename select (_ ∉ _) into Hno. apply Hno, elem_of_list_to_set. by apply (se_deferred _ _ _ _ Hse Hd). }
  assert (seal_mismatch (sl_core seal) r = false) as ->.
  { unfold seal_mismatch. rewrite Hp1, Hp4, Hp5, Hp6, Hp7, Hseal. cbn. unfold zlen. rewrite length_fmap.
    by rewrite !bytes_eqb_refl, !Z.eqb_refl. }
  assert (lower_hex64 (sl_hmac_sha256 seal) = true) as Hh by (subst seal; apply hex_encode_id64, hmac_id).
  assert (verify_hex key (core_json (sl_core seal)) (sl_hmac_sha256 seal) = Ok tt) as Hver
    by (apply verify_hex_iff; [done|by subst seal]).
  unfold st_bind, st_lift, canonical_json. rewrite (proj2 (v2_validate_hex_Ok _) Hh), Hp2.
  fold (core_json (sl_core seal)). unfold or_abort at 1. rewrite Hver.
  unfold sink_or_abort. cbn [recording hs_prepare_commit]. unfold record_call.
  destruct (ac_prepare Ha (ar_sink r).1 (mkVerifiedSealV2 seal)) as [s2 Hs2]. by rewrite Hs2.
Qed.
Lemma sealed_transfer_live b key segs seal s : accepting → begin_valid b → sealed b key segs seal →
  ∃ r s', AtomicReceiverV2_begin sink b key (s, []) = (Ok r, s') ∧
    let r' := perform_all sink ((segment_call b <$> segs) ++ [PrepareCommit seal; Commit]) r in
    ar_state r' = Committed ∧ log r' = open_log b segs ++ [(EPrepare seal, true); (ECommit, true)].
Proof.
  intros Ha Hb Hse. destruct (ac_begin Ha s b) as [s1 Hs1].
  eexists _, _. split.
  { unfold AtomicReceiverV2_begin. cbn [recording hs_begin]. unfold record_call. cbn [fst snd]. by rewrite Hs1. }
  match goal with |- let r' := perform_all sink _ ?r0 in _ => set (r := r0) end.
  assert (receiving b key r []) as Hrec.
  { split_and!; [done| |done]. split; (done || apply in_order_nil || (intros _; apply range_table_nil)). }
  pose proof (se_signed _ _ _ _ Hse) as Hsig. apply sign_Ok in Hsig as (_ & _ & _ & _ & Ht & _).
  destruct (segment_calls_live b key [] segs r Ha Hb Hrec (se_in_order _ _ _ _ Hse) Ht [PrepareCommit seal; Commit])
    as (r1 & -> & Hst & Hp & Hl).
  pose proof (v2_prepare_live b key r1 segs seal Ha (conj Hst (conj Hp Hl)) Hse) as Hprep.
  cbn zeta. cbn [perform_all]. rewrite Hprep. cbn [perform].
  destruct (ac_commit Ha (hs_prepare_commit engine (mkVerifiedSealV2 seal) (ar_sink r1).1).2) as (g & s3 & Hs3).
  unfold discard, st_bind, v2_commit. cbn [ar_state with_state]. rewrite bool_decide_eq_true_2 by done. cbn [negb].
  unfold st_bind, st_ret, st_modify, sink_or_abort. cbn [recording hs_commit ar_sink with_state with_sink]. unfold record_call.
  cbn [fst snd]. rewrite Hs3. cbn [or_abort is_ok]. split; [done|]. cbn. rewrite Hl. cbn [app]. by rewrite <-app_assoc.
Qed.
End receiver.

(** ** What a seal binds

    A JSON object is self-delimiting: no object text is a proper prefix of
    another. *)
Class JsonObjectsDelimited (J : JsonText) : Prop :=
  json_object_delimited l l' a a' :
    value_ok (JObject l) → value_ok (JObject l') →
    json_print (JObject l) ++ a = json_print (JObject l') ++ a' → json_print (JObject l) = json_print (JObject l').

Section binding.
Context `{CL : CryptoLaws} `{JL : JsonTextLaws} `{JD : !JsonObjectsDelimited J}.
Implicit Types (ds : list SegmentDescriptorV2) (ps : list bytes) (key : MacKey).

Lemma descriptor_json_delimited s s' a a' :
  typed_as serde_SegmentDescriptorV2 s → typed_as serde_SegmentDescriptorV2 s' →
  descriptor_json s ++ a = descriptor_json s' ++ a' → s = s' ∧ a = a'.
Proof.
  intros Hs Hs' E.
  assert (descriptor_json s = descriptor_json s') as Ej.
  { unfold descriptor_json in *. pose proof (sorted_value_ok _ (serde_value_ok _ Hs)) as Hv.
    pose proof (sorted_value_ok _ (serde_value_ok _ Hs')) as Hv'.
    unfold serde_SegmentDescriptorV2 in *. cbn [to_value serde_open_struct] in *.
    rewrite !sorted_mk_object in *. by eapply json_object_delimited. }
  split; [apply (canonical_json_inj serde_SegmentDescriptorV2 s s' (descriptor_json s)); try done; by rewrite Ej|].
  rewrite Ej in E. by apply app_inv_head in E.
Qed.
Lemma descriptor_json_nonempty s : typed_as serde_SegmentDescriptorV2 s → descriptor_json s ≠ [].
Proof.
  intros Hs E. destruct (canonical_json_ok serde_SegmentDescriptorV2 s Hs) as (b & Hb & _ & Hz & _).
  unfold canonical_json in Hb. fold (descriptor_json s) in Hb. rewrite E in Hb. by injection Hb as <-.
Qed.
Lemma descriptor_stream_inj ds ds' :
  Forall (typed_as serde_SegmentDescriptorV2) ds → Forall (typed_as serde_SegmentDescriptorV2) ds' →
  descriptor_stream ds = descriptor_stream ds' → ds = ds'.
Proof.
  intros Hd. revert ds'. induction Hd as [|s ds Hs Hd IH]; intros ds' Hd' E.
  - destruct Hd' as [|s' ds' Hs' Hd']; [done|]. unfold descriptor_stream in E. rewrite bind_cons in E.
    symmetry in E. apply app_eq_nil in E as [E _]. by apply descriptor_json_nonempty in E.
  - destruct Hd' as [|s' ds' Hs' Hd']; unfold descriptor_stream in *; rewrite bind_cons in E.
    + apply app_eq_nil in E as [E _]. by apply descriptor_json_nonempty in E.
    + rewrite bind_cons in E. apply descriptor_json_delimited in E as [-> E]; [|done..]. f_equal. by apply IH.
Qed.
Lemma payloads_inj ds ps ps' : length ds = length ps → length ds = length ps' →
  Forall material_verified (zip ds ps) → Forall material_verified (zip ds ps') → mjoin ps = mjoin ps' → ps = ps'.
Proof.
  revert ps ps'. induction ds as [|d ds IH]; intros [|p ps] [|p' ps'] Hl Hl' Hm Hm' E; try done.
  injection Hl as Hl. injection Hl' as Hl'. cbn [zip zip_with] in Hm, Hm'.
  apply Forall_cons_iff in Hm as [[Hp _] Hm], Hm' as [[Hp' _] Hm']. cbn [fst snd] in *.
  change (p ++ mjoin ps = p' ++ mjoin ps') in E. apply app_inj_zlen in E as [-> E]; [|lia]. f_equal. by apply IH.
Qed.
Lemma sha256_hex_inj a a' : sha256_hex a = sha256_hex a' → a = a' ∨ collides sha256_digest a a'.
Proof.
  unfold sha256_hex. intros E. apply hex_encode_inj in E; [|apply sha256_id..]. by apply hash_eq_or_collides.
Qed.
Lemma sign_binds b b' ds ds' ps ps' key key' seal :
  Forall (typed_as serde_SegmentDescriptorV2) ds → Forall (typed_as serde_SegmentDescriptorV2) ds' →
  SealManifestV2_sign b ds ps key = Ok seal → SealManifestV2_sign b' ds' ps' key' = Ok seal →
  (vb_canonical b = vb_canonical b' ∧ ds = ds' ∧ ps = ps') ∨
  ∃ m m', collides sha256_digest m m' ∧
    ((m, m') = (vb_canonical b, vb_canonical b') ∨ (m, m') = (descriptor_stream ds, descriptor_stream ds') ∨
     (m, m') = (mjoin ps, mjoin ps')).
Proof.
  intros Hd Hd' Hs Hs'. apply sign_Ok in Hs as (Hl & _ & Hm & _ & _ & ->).
  apply sign_Ok in Hs' as (Hl' & _ & Hm' & _ & _ & E). unfold seal_of, core_of in E.
  injection E as _ _ Eb Ed Ep _ _ _.
  apply sha256_hex_inj in Eb as [Eb|?]; [|right; eauto 10].
  apply sha256_hex_inj in Ed as [Ed|?]; [|right; eauto 10].
  apply sha256_hex_inj in Ep as [Ep|?]; [|right; eauto 10].
  left. apply descriptor_stream_inj in Ed as <-; [|done..]. split_and!; [done|done|].
  by apply (payloads_inj ds).
Qed.
End binding.
