(* ===== verification/HandoffV2Properties.v ===== *)
(** * Properties of handoff protocol v2

    What the atomic receiver promises to the engine and to the producer, with
    a witness for each and a sample transfer. *)
From Stdlib Require Import ZArith Lia.
From stdpp Require Import base tactics numbers list strings option sorting gmap.
From S2P Require Import Prelude Bytes Canonical Crypto Samples HandoffJson HandoffMac.
From S2P Require Import HandoffManifest HandoffValidation HandoffBundle HandoffSamples.
From S2P Require Import HandoffV2Manifest HandoffV2 HandoffV2Receiver.

Section properties.
Context `{CL : CryptoLaws} `{JL : JsonTextLaws}.
Implicit Types (m : BeginManifestV2) (b : ValidatedBeginV2) (segs : list VerifiedSegmentV2) (key : MacKey).

(** C36: BEGIN validation of protocol v2 never panics and accepts exactly the
    manifests of the declarative specification: protocol, transfer id,
    lifetime, key id and epoch, digests, exactly one segment mode, distinct
    component ids with a required target, and segments in wire order whose
    byte lengths are their row geometry without overflow and whose logical
    ranges within one component, role and layer never overlap. *)
Theorem v2_begin_accepts_exactly m now key_id epoch :
  ¬ panics (ValidatedBeginV2_validate m now key_id epoch) ∧
  ∀ b, ValidatedBeginV2_validate m now key_id epoch = Ok b ↔
    begin_wf m now key_id epoch ∧ vb_manifest b = m ∧
    canonical_json serde_BeginManifestV2 m = Ok (vb_canonical b).
Proof.
  split; [apply validate_begin_no_panic|]. intros b. split; [apply validate_begin_sound|].
  intros (Hw & Hm & Hc). rewrite (validate_begin_complete _ _ _ _ Hw). injection Hc as Hc. destruct b; cbn in *.
  by subst.
Qed.

Section engine.
Context {S : Type} (engine : HandoffSinkV2 S).

(** C17: Whatever calls a client makes (in any order, with any payloads and seals,
    with an engine that may fail or panic at any point), once the receiver is
    dropped the engine has seen one of six histories: the BEGIN, then segments
    in wire order, each matching its digest and length, inside the declared
    components and never overlapping, then at most one seal, then at most one
    commit; a seal reaches the engine only when the stream is complete and the
    seal is exactly the one the key holder's [sign] computes for the delivered
    segments; a commit is asked for only after such a seal; and the history
    ends in an abort unless the commit succeeded, with nothing after either.
    The payload bytes offered in one transfer are fewer than 2^64. *)
Theorem v2_engine_protocol m now key_id epoch b key s r s' calls :
  ValidatedBeginV2_validate m now key_id epoch = Ok b →
  AtomicReceiverV2_begin (recording engine) b key (s, []) = (Ok r, s') →
  Forall call_typed calls → zsum (call_bytes <$> calls) < u64_bound →
  closed_log b key (ar_sink (v2_drop (recording engine) (perform_all (recording engine) calls r))).2.
Proof.
  intros Hv Hr Hc Ht. apply begin_inv in Hr as [Hi H0].
  apply perform_all_closed; [by eapply validated_begin_valid|done|done|lia].
Qed.

(** C18: A complete stream with the seal its producer signed is committed: with an
    engine that accepts every call, declaring or deferring, the receiver takes
    the segments in order, accepts the seal and commits, and the engine sees
    exactly the BEGIN, every segment, the seal and the commit. *)
Theorem v2_signed_transfer_commits m now key_id epoch b key segs seal s :
  accepting engine → ValidatedBeginV2_validate m now key_id epoch = Ok b → sealed b key segs seal →
  ∃ r s', AtomicReceiverV2_begin (recording engine) b key (s, []) = (Ok r, s') ∧
    let r' := perform_all (recording engine) ((segment_call b <$> segs) ++ [PrepareCommit seal; Commit]) r in
    ar_state r' = Committed ∧ (ar_sink r').2 = open_log b segs ++ [(EPrepare seal, true); (ECommit, true)].
Proof. intros Ha Hv. apply sealed_transfer_live; [done|]. by eapply validated_begin_valid. Qed.
End engine.

(** One seal belongs to one transfer: two transfers that were signed with the
    same seal have the same BEGIN manifest, the same descriptors and the same
    payloads, or two of the hashed streams are a SHA-256 collision. *)
Theorem v2_seal_binds `{!JsonObjectsDelimited J} m m' now now' key_id key_id' epoch epoch' b b' ds ds' ps ps' key key' seal :
  ValidatedBeginV2_validate m now key_id epoch = Ok b → ValidatedBeginV2_validate m' now' key_id' epoch' = Ok b' →
  typed_as serde_BeginManifestV2 m → typed_as serde_BeginManifestV2 m' →
  Forall (typed_as serde_SegmentDescriptorV2) ds → Forall (typed_as serde_SegmentDescriptorV2) ds' →
  SealManifestV2_sign b ds ps key = Ok seal → SealManifestV2_sign b' ds' ps' key' = Ok seal →
  (m = m' ∧ ds = ds' ∧ ps = ps') ∨
  ∃ x x', collides sha256_digest x x' ∧
    ((x, x') = (vb_canonical b, vb_canonical b') ∨ (x, x') = (descriptor_stream ds, descriptor_stream ds') ∨
     (x, x') = (mjoin ps, mjoin ps')).
Proof.
  intros Hv Hv' Hm Hm' Hd Hd' Hs Hs'.
  destruct (sign_binds b b' ds ds' ps ps' key key' seal Hd Hd' Hs Hs') as [(Hc & -> & ->)|?]; [left|by right].
  apply validate_begin_sound in Hv as (_ & _ & Hj), Hv' as (_ & _ & Hj'). split_and!; try done.
  apply (canonical_json_inj serde_BeginManifestV2 m m' (vb_canonical b)); try done. by rewrite Hc.
Qed.
End properties.

Lemma toy_json_delimited : JsonObjectsDelimited toy_json.
Proof.
  intros l l' a a' Hv Hv' E. cbn [json_print toy_json] in *.
  set (n := (length (ToyJson.print (JObject l)) + length (ToyJson.print (JObject l')))%nat).
  pose proof (ToyJson.parse_print_fuel _ Hv n a ltac:(lia)) as H1.
  pose proof (ToyJson.parse_print_fuel _ Hv' n a' ltac:(lia)) as H2.
  rewrite E, H2 in H1. by injection H1 as ->.
Qed.

Module V2Witnesses.
Import ToyInstances ToyJsonInstances.
Notation digest := Transfer.digest.
Definition payload : bytes := [1; 2].
Definition segment : SegmentDescriptorV2 :=
  mkSegmentDescriptorV2 0 (str "target") NopeKey (Some 3) 0 1 (str "f16_le") 1 2 (sha256_hex payload).
Definition target : ComponentV2 := mkComponentV2 (str "target") TargetKv true digest.
Definition manifest (components : list ComponentV2) (deferred : bool) (segments : list SegmentDescriptorV2) : BeginManifestV2 :=
  mkBeginManifestV2 LIVE_HANDOFF_PROTOCOL_V2 (str "t") 7 10 20
    (mkExactIdentityV1 digest digest digest (str "muse-rev") digest (str "tok-rev") digest)
    [1] None (mkHmacIdentityV2 (str "k") 2) components deferred segments.
Definition declared : BeginManifestV2 := manifest [target] false [segment].
Definition begin : ValidatedBeginV2 :=
  mkValidatedBeginV2 declared (Transfer.get (canonical_json serde_BeginManifestV2 declared)).
Lemma begin_Ok : ValidatedBeginV2_validate declared 15 (str "k") 2 = Ok begin.
Proof. vm_compute. reflexivity. Qed.
Definition key : MacKey := replicate 32 9.
Definition segs : list VerifiedSegmentV2 := [mkVerifiedSegmentV2 segment payload].
Definition seal : SealManifestV2 := seal_of begin [segment] [payload] key.
Lemma seal_signed : SealManifestV2_sign begin (vs_descriptor <$> segs) (vs_payload <$> segs) key = Ok seal.
Proof. vm_compute. reflexivity. Qed.
(** An engine that keeps the delivered segments as its shadow. *)
Definition engine : HandoffSinkV2 (list VerifiedSegmentV2) := mkHandoffSinkV2
  (λ _, st_ret tt) (λ v, st_modify (λ shadow, shadow ++ [v])) (λ _, st_ret tt)
  (st_ret (mkCommittedGeneration (str "t") 7 1 2)) (λ _, []).

Lemma v2_begin_accepts_exactly_witness : begin_wf declared 15 (str "k") 2.
Proof. refine (proj1 (proj1 (proj2 (v2_begin_accepts_exactly declared 15 (str "k") 2) begin) begin_Ok)). Defined.

Lemma segs_sealed : sealed begin key segs seal.
Proof.
  pose proof (validate_begin_sound _ _ _ _ _ begin_Ok) as [Hw _]. split.
  - split; [|exact (bw_order _ _ _ _ Hw)|exact (bw_segments _ _ _ _ Hw)|intros _; reflexivity].
    apply list.Forall_singleton. split; reflexivity.
  - intros _. reflexivity.
  - intros Hd. discriminate Hd.
  - exact seal_signed.
Qed.
Lemma v2_signed_transfer_commits_witness : ∃ r s',
  AtomicReceiverV2_begin (recording engine) begin key ([], []) = (Ok r, s') ∧
  ar_state (perform_all (recording engine) ((segment_call begin <$> segs) ++ [PrepareCommit seal; Commit]) r) = Committed.
Proof.
  destruct (v2_signed_transfer_commits engine declared 15 (str "k") 2 begin key segs seal [])
    as (r & s' & Hb & Hc & _); [|exact begin_Ok|exact segs_sealed|exists r, s'; split; [exact Hb|exact Hc]].
  split; intros; repeat eexists.
Defined.

Definition calls : list call := [SegmentReady 0 payload; SegmentReady 1 payload; PrepareCommit seal; Commit].
Definition receiver : AtomicReceiverV2 (list VerifiedSegmentV2 * engine_log) :=
  mkAtomicReceiverV2 begin ([], [(EBegin begin, true)]) key 0 ∅ ∅ [] [] 0 Receiving.
Lemma v2_seal_typed : typed_as serde_SealManifestV2 seal.
Proof. refine (Transfer.typed_by_decode serde_SealManifestV2 seal _ _); vm_compute; reflexivity. Qed.
Lemma v2_engine_protocol_witness :
  closed_log begin key (ar_sink (v2_drop (recording engine) (perform_all (recording engine) calls receiver))).2.
Proof.
  refine (v2_engine_protocol engine declared 15 (str "k") 2 begin key [] receiver (ar_sink receiver) calls begin_Ok eq_refl _ _).
  - unfold calls. repeat (apply list.Forall_cons; split; [first [exact I|exact v2_seal_typed]|]). apply list.Forall_nil, I.
  - vm_compute. reflexivity.
Defined.
Lemma segment_typed : typed_as serde_SegmentDescriptorV2 segment.
Proof. refine (Transfer.typed_by_decode serde_SegmentDescriptorV2 segment _ _); vm_compute; reflexivity. Qed.
Lemma declared_typed : typed_as serde_BeginManifestV2 declared.
Proof. refine (Transfer.typed_by_decode serde_BeginManifestV2 declared _ _); vm_compute; reflexivity. Qed.
Lemma v2_seal_binds_witness : (declared = declared ∧ [segment] = [segment] ∧ [payload] = [payload]) ∨
  ∃ x x', collides sha256_digest x x' ∧
    ((x, x') = (vb_canonical begin, vb_canonical begin) ∨
     (x, x') = (descriptor_stream [segment], descriptor_stream [segment]) ∨
     (x, x') = (mjoin [payload], mjoin [payload])).
Proof.
  pose proof (proj2 (list.Forall_singleton _ _) segment_typed) as Ht.
  refine (@v2_seal_binds _ _ _ _ toy_json_delimited declared declared 15 15 (str "k") (str "k") 2 2 begin begin
    [segment] [segment] [payload] [payload] key key seal begin_Ok begin_Ok declared_typed declared_typed Ht Ht
    seal_signed seal_signed).
Defined.

(** A declared BEGIN is accepted although its required target component has no
    segment: only the DFlash component is checked in declared mode. *)
Definition vision : ComponentV2 := mkComponentV2 (str "vision") VisionContext false digest.
Definition vision_segment : SegmentDescriptorV2 :=
  mkSegmentDescriptorV2 0 (str "vision") Auxiliary None 0 1 (str "f16_le") 1 2 (sha256_hex payload).
Theorem declared_target_without_segments :
  is_ok (ValidatedBeginV2_validate (manifest [target; vision] false [vision_segment]) 15 (str "k") 2) = true.
Proof. vm_compute. reflexivity. Qed.
(** A seal with a malformed tag is refused without aborting the transfer. *)
Theorem malformed_tag_keeps_receiving : ∀ r,
  perform_all (recording engine) [SegmentReady 0 payload] receiver = r →
  (v2_prepare_commit (recording engine) (mkSealManifestV2 (sl_core seal) [48]) r).1
    = invalid "{label} digest must be lowercase SHA-256" ∧
  ar_state (v2_prepare_commit (recording engine) (mkSealManifestV2 (sl_core seal) [48]) r).2 = Receiving.
Proof. intros r <-. split; vm_compute; reflexivity. Qed.
End V2Witnesses.
