(* ===== verification/StorePolicy.v ===== *)
(** * Retention policy of the store (crates/kvpack/src/store/policy.rs, policy/replay.rs)

    Retention inputs and their score, the flush schedule of access records and
    the segmented TinyLFU policy.  A [BTreeMap] is a [gmap]; where the code
    iterates one in key order it is sorted first.  The sketch hash is SHA-256,
    a parameter.  Mutexes, the catalog and the flush thread are not modelled. *)
From Stdlib Require Import ZArith Lia.
From stdpp Require Import base tactics numbers list strings option sorting gmap.
From S2P Require Import Prelude Bytes Canonical Crypto.

(** ** Errors (error.rs) *)
Inductive StoreError :=
  | SPack (error : PackError)
  | SIo (op : string)
  | SCatalog
  | SIntegrity (message : string)
  | SAuthentication (message : string)
  | SCodec (message : string)
  | SPoisoned (message : string)
  | SExpectation (message : string)
  | SQuota (message : string)
  | SEndurance (message : string)
  | SState (message : string)
  | SNotFound
  | SBusy
  | SCancelled.
Notation sresult := (outcome StoreError).
Notation state_error why := (Err (SState why%string)).
Notation Id32 := bytes.

(** ** Saturating arithmetic *)
Definition u128_bound : Z := 2 ^ 128.
Definition saturating_sub (a b : Z) : Z := Z.max 0 (a - b).
Definition saturating_mul (a b : Z) : Z := Z.min (a * b) (u64_bound - 1).
Definition saturating_add128 (a b : Z) : Z := Z.min (a + b) (u128_bound - 1).
Definition saturating_mul128 (a b : Z) : Z := Z.min (a * b) (u128_bound - 1).

(** [min_by_key]: the first of the minimal elements. *)
Definition min_by {A} (cmp : A → A → comparison) (l : list A) : option A :=
  foldl (λ best a, match best with
                   | None => Some a
                   | Some b => match cmp a b with Lt => Some a | _ => best end
                   end) None l.
(** Tuples compare lexicographically. *)
Definition then_cmp (c d : comparison) : comparison := match c with Eq => d | _ => c end.

(** Iteration of a [BTreeMap] in key order. *)
Definition id_le {V} (a b : Id32 * V) : Prop := bytes_cmp a.1 b.1 ≠ Gt.
#[export] Instance id_le_dec {V} (a b : Id32 * V) : Decision (id_le a b).
Proof. unfold id_le. apply _. Defined.
Definition btree_iter {V} (m : gmap Id32 V) : list (Id32 * V) := merge_sort id_le (map_to_list m).

(** ** Retention inputs *)
Record RetentionInputs := mkRetentionInputs {
  ri_predicted_reuse_millis : Z;
  ri_avoided_prefill_ns : Z;
  ri_best_restore_ns : Z;
  ri_physical_bytes : Z;
  ri_shared_ancestor_bytes : Z;
  ri_write_wear_bytes : Z;
  ri_promotion_bandwidth_bytes_per_second : Z;
  ri_queue_interference_ns : Z
}.
Definition conservative (physical_bytes avoided_prefill_ns : Z) : RetentionInputs :=
  mkRetentionInputs 1000 avoided_prefill_ns 0 physical_bytes 0 0 0 0.
Definition RetentionInputs_default : RetentionInputs := conservative 1 1.
Definition retention_validate (r : RetentionInputs) : sresult RetentionInputs :=
  if (1000 <? ri_predicted_reuse_millis r) || (ri_physical_bytes r =? 0)
     || (ri_physical_bytes r <? ri_shared_ancestor_bytes r) then
    state_error "retention inputs are invalid"
  else Ok r.
(** [retention.physical_bytes = b; retention.shared_ancestor_bytes = ..min(b)] *)
Definition resize (r : RetentionInputs) (physical_bytes : Z) : RetentionInputs :=
  mkRetentionInputs (ri_predicted_reuse_millis r) (ri_avoided_prefill_ns r) (ri_best_restore_ns r)
    physical_bytes (Z.min (ri_shared_ancestor_bytes r) physical_bytes) (ri_write_wear_bytes r)
    (ri_promotion_bandwidth_bytes_per_second r) (ri_queue_interference_ns r).
Definition with_physical_bytes (r : RetentionInputs) (physical_bytes : Z) : sresult RetentionInputs :=
  retention_validate (resize r physical_bytes).
Definition marginal_physical_bytes (r : RetentionInputs) : Z :=
  Z.max (saturating_sub (ri_physical_bytes r) (ri_shared_ancestor_bytes r)) 1.
Definition promotion_ns (r : RetentionInputs) : Z :=
  if ri_promotion_bandwidth_bytes_per_second r =? 0 then 0 else
  Z.min (saturating_add128 (saturating_mul128 (ri_physical_bytes r) 1000000000)
           (ri_promotion_bandwidth_bytes_per_second r - 1)
         / ri_promotion_bandwidth_bytes_per_second r) (u64_bound - 1).

Definition score (frequency : Z) (inputs : RetentionInputs) : Z :=
  if (ri_physical_bytes inputs =? 0) || (ri_predicted_reuse_millis inputs =? 0) then 0 else
  let benefit_ns :=
    saturating_sub (saturating_sub (saturating_sub (ri_avoided_prefill_ns inputs) (ri_best_restore_ns inputs))
      (promotion_ns inputs)) (ri_queue_interference_ns inputs) in
  if benefit_ns =? 0 then 0 else
  let effective_bytes :=
    Z.max (saturating_add (marginal_physical_bytes inputs) (ri_write_wear_bytes inputs)) 1 in
  let numerator :=
    saturating_mul128 (saturating_mul128 frequency (ri_predicted_reuse_millis inputs)) benefit_ns in
  Z.min (Z.max (numerator / 1000 / effective_bytes) 1) (2 ^ 63 - 1).
Definition retention_value (frequency : Z) (inputs : RetentionInputs) : sresult Z :=
  inputs ← retention_validate inputs; Ok (score frequency inputs).

(** ** Flush schedule *)
Definition ACCESS_FLUSH_INTERVAL_NS : Z := 30000000000.
Definition ACCESS_FLUSH_HARD_BOUND_NS : Z := 60000000000.
Record AccessFlushSchedule := mkAccessFlushSchedule {
  fs_next_attempt_ns : Z;
  fs_hard_deadline_ns : Z;
  fs_overdue : bool
}.
Definition access_flush_schedule (first_pending_ns : Z) (previous_attempt_ns : option Z) (now_ns : Z)
    : AccessFlushSchedule :=
  let hard_deadline_ns := saturating_add first_pending_ns ACCESS_FLUSH_HARD_BOUND_NS in
  let normal := saturating_add first_pending_ns ACCESS_FLUSH_INTERVAL_NS in
  let retry :=
    attempt ← previous_attempt_ns;
    if first_pending_ns <=? attempt then Some (saturating_add attempt ACCESS_FLUSH_INTERVAL_NS) else None in
  let next_attempt_ns := default normal retry in
  let next_attempt_ns :=
    if now_ns <? hard_deadline_ns then Z.min next_attempt_ns hard_deadline_ns
    else Z.max next_attempt_ns (saturating_add now_ns ACCESS_FLUSH_INTERVAL_NS) in
  mkAccessFlushSchedule next_attempt_ns hard_deadline_ns (hard_deadline_ns <? now_ns).

(** ** Segments, configuration and decisions *)
Inductive RetentionSegment := Probationary | Protected.
#[export] Instance RetentionSegment_eq_dec : EqDecision RetentionSegment.
Proof. solve_decision. Defined.
Definition segment_as_str (s : RetentionSegment) : string :=
  match s with Probationary => "PROBATIONARY" | Protected => "PROTECTED" end.
Definition segment_parse (value : string) : sresult RetentionSegment :=
  if decide (value = "PROBATIONARY"%string) then Ok Probationary else
  if decide (value = "PROTECTED"%string) then Ok Protected else
  state_error "catalog contains an unknown retention segment".

Record TinyLfuConfig := mkTinyLfuConfig {
  tc_capacity_bytes : Z;
  tc_sketch_width : Z;
  tc_reset_after_accesses : Z;
  tc_protected_fraction_millis : Z
}.
Definition TinyLfuConfig_production (capacity_bytes : Z) : sresult TinyLfuConfig :=
  if capacity_bytes =? 0 then state_error "TinyLFU capacity must be nonzero"
  else Ok (mkTinyLfuConfig capacity_bytes 16384 1000000 800).

Inductive AdmissionDecision :=
  | Admit
  | AdmitOverVictim (victim : Id32)
  | RejectLowerFrequency
  | RejectPromotionStopped.

Record PolicyEntry := mkPolicyEntry {
  pe_object_bytes : Z;
  pe_retention : RetentionInputs;
  pe_frequency : Z;
  pe_score : Z;
  pe_segment : RetentionSegment;
  pe_last_access_ns : Z
}.
Record PendingPolicyAccess := mkPendingPolicyAccess {
  pa_object_key : Id32;
  pa_frequency : Z;
  pa_score : Z;
  pa_segment : RetentionSegment;
  pa_last_access_ns : Z;
  pa_first_pending_ns : Z
}.
Record TinyLfuPolicy := mkTinyLfuPolicy {
  tp_config : TinyLfuConfig;
  tp_sketch : list Z;
  tp_accesses : Z;
  tp_entries : gmap Id32 PolicyEntry;
  tp_probationary : list Id32;
  tp_protected : list Id32;
  tp_protected_bytes : Z;
  tp_pending : gmap Id32 PendingPolicyAccess
}.

(** ** Queues *)
Fixpoint remove_key (queue : list Id32) (key : Id32) : bool * list Id32 :=
  match queue with
  | [] => (false, [])
  | candidate :: queue =>
      if bytes_eqb candidate key then (true, queue)
      else let '(found, queue) := remove_key queue key in (found, candidate :: queue)
  end.
Definition touch (queue : list Id32) (key : Id32) : list Id32 := (remove_key queue key).2 ++ [key].

(** ** The policy *)
Definition SKETCH_DEPTH : nat := 4.
Definition is_power_of_two (n : Z) : bool := (0 <? n) && (Z.land n (n - 1) =? 0).

Definition with_sketch (f : list Z → list Z) (p : TinyLfuPolicy) : TinyLfuPolicy :=
  mkTinyLfuPolicy (tp_config p) (f (tp_sketch p)) (tp_accesses p) (tp_entries p) (tp_probationary p)
    (tp_protected p) (tp_protected_bytes p) (tp_pending p).
Definition with_accesses (n : Z) (p : TinyLfuPolicy) : TinyLfuPolicy :=
  mkTinyLfuPolicy (tp_config p) (tp_sketch p) n (tp_entries p) (tp_probationary p)
    (tp_protected p) (tp_protected_bytes p) (tp_pending p).
Definition with_entries (f : gmap Id32 PolicyEntry → gmap Id32 PolicyEntry) (p : TinyLfuPolicy) : TinyLfuPolicy :=
  mkTinyLfuPolicy (tp_config p) (tp_sketch p) (tp_accesses p) (f (tp_entries p)) (tp_probationary p)
    (tp_protected p) (tp_protected_bytes p) (tp_pending p).
Definition with_queues (probationary protected : list Id32) (protected_bytes : Z) (p : TinyLfuPolicy) : TinyLfuPolicy :=
  mkTinyLfuPolicy (tp_config p) (tp_sketch p) (tp_accesses p) (tp_entries p) probationary
    protected protected_bytes (tp_pending p).
Definition with_pending (f : gmap Id32 PendingPolicyAccess → gmap Id32 PendingPolicyAccess)
    (p : TinyLfuPolicy) : TinyLfuPolicy :=
  mkTinyLfuPolicy (tp_config p) (tp_sketch p) (tp_accesses p) (tp_entries p) (tp_probationary p)
    (tp_protected p) (tp_protected_bytes p) (f (tp_pending p)).

Definition TinyLfuPolicy_new (config : TinyLfuConfig) : sresult TinyLfuPolicy :=
  if (tc_sketch_width config <? 64) || negb (is_power_of_two (tc_sketch_width config))
     || (tc_reset_after_accesses config =? 0) || (1000 <? tc_protected_fraction_millis config) then
    state_error "TinyLFU configuration is invalid"
  else Ok (mkTinyLfuPolicy config (replicate (Z.to_nat (tc_sketch_width config) * SKETCH_DEPTH) 0)
             0 ∅ [] [] 0 ∅).

Section policy.
Context `{Crypto}.
Implicit Types (p : TinyLfuPolicy) (object_key : Id32).

Definition sketch_index object_key (row : nat) (width : Z) : Z :=
  let hash := sha256_digest (ascii_bytes "kvpack/v1/tinylfu" ++ [0] ++ le_bytes 8 (Z.of_nat row) ++ object_key) in
  Z.of_nat row * width + Z.land (le_val (take 8 hash)) (width - 1).
Definition sketch_cell p object_key (row : nat) : nat :=
  Z.to_nat (sketch_index object_key row (tc_sketch_width (tp_config p))).

(** [for row in 0..SKETCH_DEPTH { self.sketch[index] = f(self.sketch[index]) }] *)
Definition update_cells (f : Z → Z) object_key p : TinyLfuPolicy :=
  with_sketch (λ sketch, foldl (λ s row, alter f (sketch_cell p object_key row) s) sketch (seq 0 SKETCH_DEPTH)) p.
(** [u16::saturating_add] *)
Definition increment object_key p : TinyLfuPolicy := update_cells (λ c, Z.min (c + 1) (u16_bound - 1)) object_key p.
Definition estimate p object_key : Z :=
  let cells := (λ row, default 0 (tp_sketch p !! sketch_cell p object_key row)) <$> seq 0 SKETCH_DEPTH in
  match cells with [] => 0 | c :: cells => foldl Z.min c cells end.

Definition mark_pending object_key p : TinyLfuPolicy :=
  match tp_entries p !! object_key with
  | None => p
  | Some entry =>
      let first_pending_ns :=
        match tp_pending p !! object_key with
        | Some pending => pa_first_pending_ns pending
        | None => pe_last_access_ns entry
        end in
      with_pending (<[object_key := mkPendingPolicyAccess object_key (pe_frequency entry) (pe_score entry)
                       (pe_segment entry) (pe_last_access_ns entry) first_pending_ns]>) p
  end.

Definition register_with_retention object_key (retention : RetentionInputs) (now_ns : Z) p : TinyLfuPolicy :=
  match tp_entries p !! object_key with
  | Some _ => p
  | None =>
      match retention_validate retention with
      | Ok retention =>
          let frequency := Z.max (estimate p object_key) 1 in
          let entry := mkPolicyEntry (ri_physical_bytes retention) retention frequency
                         (score frequency retention) Probationary now_ns in
          let p := with_entries (<[object_key := entry]>) p in
          let p := with_queues (tp_probationary p ++ [object_key]) (tp_protected p) (tp_protected_bytes p) p in
          mark_pending object_key p
      | _ => p
      end
  end.
Definition register object_key (object_bytes avoided_recompute_ns now_ns : Z) p : TinyLfuPolicy :=
  register_with_retention object_key (conservative object_bytes avoided_recompute_ns) now_ns p.

Definition set_segment (segment : RetentionSegment) (e : PolicyEntry) : PolicyEntry :=
  mkPolicyEntry (pe_object_bytes e) (pe_retention e) (pe_frequency e) (pe_score e) segment (pe_last_access_ns e).

(** The [while] loop of [demote_protected_overflow]. *)
Fixpoint demote_loop (bound : Z) (protected : list Id32) p : TinyLfuPolicy :=
  if tp_protected_bytes p <=? bound then p else
  match protected with
  | [] => p
  | key :: protected =>
      match tp_entries p !! key with
      | Some entry =>
          demote_loop bound protected
            (with_queues (tp_probationary p ++ [key]) protected
               (saturating_sub (tp_protected_bytes p) (pe_object_bytes entry))
               (with_entries (<[key := set_segment Probationary entry]>) p))
      | None => demote_loop bound protected (with_queues (tp_probationary p) protected (tp_protected_bytes p) p)
      end
  end.
Definition protected_bound (config : TinyLfuConfig) : Z :=
  saturating_mul (tc_capacity_bytes config) (tc_protected_fraction_millis config) / 1000.
Definition demote_protected_overflow p : TinyLfuPolicy :=
  demote_loop (protected_bound (tp_config p)) (tp_protected p) p.

Definition age_entry (e : PolicyEntry) : PolicyEntry :=
  let frequency := Z.max (pe_frequency e / 2) 1 in
  mkPolicyEntry (pe_object_bytes e) (pe_retention e) frequency (score frequency (pe_retention e))
    (pe_segment e) (pe_last_access_ns e).
Definition age p : TinyLfuPolicy :=
  let keys := (btree_iter (tp_entries p)).*1 in
  let p := with_sketch (fmap (λ counter, counter / 2)) p in
  let p := foldl (λ p key, mark_pending key (with_entries (alter age_entry key) p)) p keys in
  with_accesses 0 p.
Definition count_access p : TinyLfuPolicy := with_accesses (saturating_add (tp_accesses p) 1) p.
Definition age_if_due p : TinyLfuPolicy :=
  if tc_reset_after_accesses (tp_config p) <=? tp_accesses p then age p else p.

(** The segment and queue changes of an access. *)
Definition promote_or_touch object_key (estimate_now : Z) p : TinyLfuPolicy :=
  let was_probationary :=
    match tp_entries p !! object_key with
    | Some e => bool_decide (pe_segment e = Probationary)
    | None => false
    end in
  if was_probationary && (2 <=? estimate_now) then
    let p := with_queues (remove_key (tp_probationary p) object_key).2 (tp_protected p ++ [object_key])
               (tp_protected_bytes p) p in
    match tp_entries p !! object_key with
    | Some entry =>
        with_queues (tp_probationary p) (tp_protected p)
          (saturating_add (tp_protected_bytes p) (pe_object_bytes entry))
          (with_entries (<[object_key := set_segment Protected entry]>) p)
    | None => p
    end
  else if was_probationary then
    with_queues (touch (tp_probationary p) object_key) (tp_protected p) (tp_protected_bytes p) p
  else
    with_queues (tp_probationary p) (touch (tp_protected p) object_key) (tp_protected_bytes p) p.
Definition refresh_entry (object_bytes frequency : Z) (retention : RetentionInputs) (now_ns : Z)
    (e : PolicyEntry) : PolicyEntry :=
  mkPolicyEntry object_bytes retention frequency (score frequency retention) (pe_segment e) now_ns.
Definition record_access_with_retention object_key (retention : RetentionInputs) (now_ns : Z) p : TinyLfuPolicy :=
  match retention_validate retention with
  | Ok retention =>
      let object_bytes :=
        match tp_entries p !! object_key with
        | Some entry => pe_object_bytes entry
        | None => ri_physical_bytes retention
        end in
      let retention := resize retention object_bytes in
      let p := increment object_key p in
      let estimate_now := Z.max (estimate p object_key) 1 in
      let p :=
        match tp_entries p !! object_key with
        | Some _ => p
        | None => with_entries (<[object_key := mkPolicyEntry object_bytes retention estimate_now
                                   (score estimate_now retention) Probationary now_ns]>) p
        end in
      let p := promote_or_touch object_key estimate_now p in
      let p := with_entries (alter (refresh_entry object_bytes estimate_now retention now_ns) object_key) p in
      age_if_due (count_access (mark_pending object_key (demote_protected_overflow p)))
  | _ => p
  end.
Definition record_access object_key (object_bytes avoided_recompute_ns now_ns : Z) p : TinyLfuPolicy :=
  record_access_with_retention object_key (conservative object_bytes avoided_recompute_ns) now_ns p.

(** ** Admission and eviction *)
Definition queued p (queue : list Id32) : list (Id32 * PolicyEntry) :=
  omap (λ key, pair key <$> tp_entries p !! key) queue.
Definition admission_cmp (a b : Id32 * PolicyEntry) : comparison :=
  then_cmp (Z.compare (pe_score a.2) (pe_score b.2))
    (then_cmp (Z.compare (pe_last_access_ns a.2) (pe_last_access_ns b.2)) (bytes_cmp a.1 b.1)).
Definition admission_decision_with_retention p object_key (retention : RetentionInputs)
    (utilization_millis : Z) : AdmissionDecision :=
  if 950 <=? utilization_millis then RejectPromotionStopped else
  if utilization_millis <? 850 then Admit else
  let candidate_frequency := Z.max (estimate p object_key) 1 in
  let candidate_score := score candidate_frequency retention in
  match min_by admission_cmp (queued p (tp_probationary p)) with
  | None => Admit
  | Some (victim, entry) =>
      if pe_score entry <? candidate_score then AdmitOverVictim victim else RejectLowerFrequency
  end.
Definition admission_decision p object_key (object_bytes avoided_recompute_ns utilization_millis : Z)
    : AdmissionDecision :=
  admission_decision_with_retention p object_key (conservative object_bytes avoided_recompute_ns) utilization_millis.
Definition automatic_admission_decision object_key (retention : RetentionInputs) (utilization_millis : Z) p
    : sresult AdmissionDecision * TinyLfuPolicy :=
  match retention_validate retention with
  | Ok retention =>
      let p := count_access (increment object_key p) in
      let decision := admission_decision_with_retention p object_key retention utilization_millis in
      (Ok decision, age_if_due p)
  | Err e => (Err e, p)
  | Panic w => (Panic w, p)
  end.

(** [entry.segment == Protected] compares as a bool, false first. *)
Definition segment_rank (s : RetentionSegment) : Z := match s with Probationary => 0 | Protected => 1 end.
Definition victim_cmp (a b : Id32 * PolicyEntry) : comparison :=
  then_cmp (Z.compare (segment_rank (pe_segment a.2)) (segment_rank (pe_segment b.2))) (admission_cmp a b).
Definition policy_victim p : option Id32 :=
  fst <$> min_by victim_cmp (queued p (tp_probationary p ++ tp_protected p)).
Definition policy_remove object_key p : TinyLfuPolicy :=
  let p :=
    match tp_entries p !! object_key with
    | Some entry =>
        let p' := with_entries (delete object_key) p in
        if decide (pe_segment entry = Protected) then
          with_queues (tp_probationary p') (tp_protected p')
            (saturating_sub (tp_protected_bytes p') (pe_object_bytes entry)) p'
        else p'
    | None => p
    end in
  with_pending (delete object_key)
    (with_queues (remove_key (tp_probationary p) object_key).2 (remove_key (tp_protected p) object_key).2
       (tp_protected_bytes p) p).

(** ** Persistence *)
Definition drain_pending p : list PendingPolicyAccess * TinyLfuPolicy :=
  ((btree_iter (tp_pending p)).*2, with_pending (λ _, ∅) p).
Definition restore_pending (values : list PendingPolicyAccess) p : TinyLfuPolicy :=
  foldl (λ p value, with_pending (<[pa_object_key value := value]>) p) p values.
Definition has_pending p : bool := negb (bool_decide (tp_pending p = ∅)).
Definition oldest_pending_ns p : option Z :=
  min_by Z.compare (pa_first_pending_ns <$> (btree_iter (tp_pending p)).*2).
Definition restore_entry object_key (object_bytes frequency score_ : Z) (segment : RetentionSegment)
    (last_access_ns : Z) p : TinyLfuPolicy :=
  match tp_entries p !! object_key with
  | Some _ => p
  | None =>
      let p := update_cells (λ c, Z.max c (Z.min frequency (u16_bound - 1))) object_key p in
      let entry := mkPolicyEntry object_bytes
        (conservative object_bytes (saturating_mul score_ object_bytes / Z.max frequency 1))
        (Z.max frequency 1) score_ segment last_access_ns in
      let p := with_entries (<[object_key := entry]>) p in
      match segment with
      | Probationary =>
          with_queues (tp_probationary p ++ [object_key]) (tp_protected p) (tp_protected_bytes p) p
      | Protected =>
          with_queues (tp_probationary p) (tp_protected p ++ [object_key])
            (saturating_add (tp_protected_bytes p) object_bytes) p
      end
  end.
End policy.
