(* ===== verification/StorePolicyLaws.v ===== *)
(** * Laws of the retention policy

    The two queues partition the entries by segment and the protected byte
    count is their sum, through every operation; the sketch never
    underestimates; decisions and victims are minimal. *)
From Stdlib Require Import ZArith Lia.
From stdpp Require Import base tactics numbers list strings option sorting gmap.
From S2P Require Import Prelude Bytes Canonical Crypto StorePolicy.

(** ** Queues *)
Lemma remove_key_found q k : (remove_key q k).1 = true ↔ k ∈ q.
Proof.
  induction q as [|c q IH]; cbn [remove_key]; [set_solver|]. destruct (bytes_eqb c k) eqn:E.
  - apply bytes_eqb_eq in E. subst. split; [intros _; left|done].
  - destruct (remove_key q k) as [b q']. cbn [fst] in *. rewrite IH, elem_of_cons.
    split; [by right|]. intros [->|?]; [by rewrite bytes_eqb_refl in E|done].
Qed.
Lemma remove_key_perm q k : k ∈ q → q ≡ₚ k :: (remove_key q k).2.
Proof.
  induction q as [|c q IH]; cbn [remove_key]; [set_solver|]. intros Hk. destruct (bytes_eqb c k) eqn:E.
  - apply bytes_eqb_eq in E. by subst.
  - destruct (remove_key q k) as [b q']. cbn [snd] in *. apply elem_of_cons in Hk as [->|Hk].
    { by rewrite bytes_eqb_refl in E. }
    rewrite (IH Hk) at 1. apply Permutation_swap.
Qed.
Lemma remove_key_absent q k : k ∉ q → (remove_key q k).2 = q.
Proof.
  induction q as [|c q IH]; cbn [remove_key]; [done|]. rewrite not_elem_of_cons. intros [Hc Hq].
  destruct (bytes_eqb c k) eqn:E; [apply bytes_eqb_eq in E; congruence|].
  specialize (IH Hq). destruct (remove_key q k). cbn [snd] in *. by subst.
Qed.
Lemma remove_key_NoDup q k : NoDup q → NoDup (remove_key q k).2 ∧ ∀ x, x ∈ (remove_key q k).2 ↔ x ∈ q ∧ x ≠ k.
Proof.
  intros Hd. destruct (decide (k ∈ q)) as [Hk|Hk].
  - pose proof (remove_key_perm q k Hk) as Hp. rewrite Hp in Hd. apply list.NoDup_cons in Hd as [Hn Hd].
    split; [done|]. intros x. rewrite Hp at 2. rewrite elem_of_cons. split; [intros; split; [by right|congruence]|].
    intros [[->|?] ?]; done.
  - rewrite remove_key_absent by done. split; [done|]. intros x. split; [intros; split; [done|congruence]|by intros []].
Qed.

(** ** The queues partition the entries *)
Implicit Types (entries : gmap Id32 PolicyEntry) (prob prot : list Id32) (k : Id32) (e : PolicyEntry).
Definition bytes_of entries k : Z := match entries !! k with Some e => pe_object_bytes e | None => 0 end.
Record queues_wf entries prob prot (bytes : Z) : Prop := {
  qw_prob_nodup : NoDup prob;
  qw_prot_nodup : NoDup prot;
  qw_prob k : k ∈ prob ↔ pe_segment <$> entries !! k = Some Probationary;
  qw_prot k : k ∈ prot ↔ pe_segment <$> entries !! k = Some Protected;
  qw_bytes : bytes = zsum (bytes_of entries <$> prot);
  qw_sizes k e : entries !! k = Some e → 0 ≤ pe_object_bytes e
}.
Lemma bytes_of_ext entries entries' (l : list Id32) : (∀ k, k ∈ l → entries !! k = entries' !! k) →
  bytes_of entries <$> l = bytes_of entries' <$> l.
Proof.
  intros He. apply list_fmap_ext. intros i k Hi. unfold bytes_of. by rewrite He by (by eapply list_elem_of_lookup_2).
Qed.
Lemma queues_empty : queues_wf ∅ [] [] 0.
Proof. split; try apply NoDup_nil_2; try done; intros k; rewrite lookup_empty; set_solver. Qed.
Lemma queues_delete entries prob prot bytes k : queues_wf entries prob prot bytes →
  queues_wf (delete k entries) (remove_key prob k).2 (remove_key prot k).2
    (if decide (pe_segment <$> entries !! k = Some Protected) then bytes - bytes_of entries k else bytes).
Proof.
  intros [Hd1 Hd2 H1 H2 Hb Hs].
  destruct (remove_key_NoDup prob k Hd1) as [Hd1' He1], (remove_key_NoDup prot k Hd2) as [Hd2' He2].
  split; try done.
  - intros x. rewrite He1, H1. destruct (decide (x = k)) as [->|Hx]; [rewrite lookup_delete_eq; naive_solver|].
    rewrite lookup_delete_ne by done. naive_solver.
  - intros x. rewrite He2, H2. destruct (decide (x = k)) as [->|Hx]; [rewrite lookup_delete_eq; naive_solver|].
    rewrite lookup_delete_ne by done. naive_solver.
  - rewrite (bytes_of_ext (delete k entries) entries) by (intros x Hx; apply He2 in Hx as [_ ?]; by apply lookup_delete_ne).
    destruct (decide _) as [Hp|Hp].
    + apply H2 in Hp. rewrite Hb. rewrite (remove_key_perm prot k Hp) at 1. rewrite fmap_cons.
      change (zsum (bytes_of entries k :: (bytes_of entries <$> (remove_key prot k).2))) with
        (bytes_of entries k + zsum (bytes_of entries <$> (remove_key prot k).2)). lia.
    + rewrite remove_key_absent by (by rewrite H2). done.
  - intros x e. destruct (decide (x = k)) as [->|Hx]; [by rewrite lookup_delete_eq|].
    rewrite lookup_delete_ne by done. apply Hs.
Qed.
Lemma queues_insert entries prob prot bytes k e : queues_wf entries prob prot bytes →
  entries !! k = None → 0 ≤ pe_object_bytes e →
  match pe_segment e with
  | Probationary => queues_wf (<[k := e]> entries) (prob ++ [k]) prot bytes
  | Protected => queues_wf (<[k := e]> entries) prob (prot ++ [k]) (bytes + pe_object_bytes e)
  end.
Proof.
  intros [Hd1 Hd2 H1 H2 Hb Hs] Hk He.
  assert (k ∉ prob ∧ k ∉ prot) as [Hn1 Hn2] by (rewrite H1, H2, Hk; done).
  assert (∀ l : list Id32, k ∉ l → bytes_of (<[k:=e]> entries) <$> l = bytes_of entries <$> l) as Hext.
  { intros l Hl. apply bytes_of_ext. intros x Hx. apply lookup_insert_ne. set_solver. }
  assert (∀ x e', <[k:=e]> entries !! x = Some e' → 0 ≤ pe_object_bytes e') as Hs'.
  { intros x e'. destruct (decide (x = k)) as [->|Hx]; [rewrite lookup_insert_eq; congruence|].
    rewrite lookup_insert_ne by done. apply Hs. }
  assert (∀ q : list Id32, NoDup q → k ∉ q → NoDup (q ++ [k])) as Hnd.
  { intros q Hq Hnq. apply NoDup_app. split_and!; [done|set_solver|apply NoDup_singleton]. }
  assert (∀ (q : list Id32) (s : RetentionSegment), (∀ x, x ∈ q ↔ pe_segment <$> entries !! x = Some s) →
    pe_segment e = s → ∀ x, x ∈ q ++ [k] ↔ pe_segment <$> <[k:=e]> entries !! x = Some s) as Hin.
  { intros q s Hq Hseg x. rewrite elem_of_app, list_elem_of_singleton.
    destruct (decide (x = k)) as [->|Hx]; [rewrite lookup_insert_eq; cbn; rewrite Hseg; naive_solver|].
    rewrite lookup_insert_ne, Hq by done. naive_solver. }
  assert (∀ (q : list Id32) (s : RetentionSegment), (∀ x, x ∈ q ↔ pe_segment <$> entries !! x = Some s) →
    pe_segment e ≠ s → ∀ x, x ∈ q ↔ pe_segment <$> <[k:=e]> entries !! x = Some s) as Hout.
  { intros q s Hq Hseg x. destruct (decide (x = k)) as [->|Hx];
      [rewrite lookup_insert_eq, Hq, Hk; cbn; naive_solver|]. by rewrite lookup_insert_ne, Hq by done. }
  destruct (pe_segment e) eqn:Hseg.
  - split; [by apply Hnd|done|by apply Hin|by apply Hout|by rewrite Hext|done].
  - split; [done|by apply Hnd|by apply Hout|by apply Hin| |done].
    rewrite fmap_app, zsum_app, Hext, <-Hb by done. cbn. unfold bytes_of. rewrite lookup_insert_eq. unfold zsum. simpl. lia.
Qed.
Lemma bytes_of_alter entries f k x : (∀ e, entries !! k = Some e → pe_object_bytes (f e) = pe_object_bytes e) →
  bytes_of (alter f k entries) x = bytes_of entries x.
Proof.
  intros Hf. unfold bytes_of. destruct (decide (x = k)) as [->|Hx]; [|by rewrite lookup_alter_ne].
  rewrite lookup_alter_eq. destruct (entries !! k) as [e|] eqn:E; [|done]. cbn. by apply Hf.
Qed.
(** An entry may change within its segment and size. *)
Lemma queues_alter entries prob prot bytes f k : queues_wf entries prob prot bytes →
  (∀ e, entries !! k = Some e → pe_segment (f e) = pe_segment e ∧ pe_object_bytes (f e) = pe_object_bytes e) →
  queues_wf (alter f k entries) prob prot bytes.
Proof.
  intros [Hd1 Hd2 H1 H2 Hb Hs] Hf.
  assert (∀ x, pe_segment <$> alter f k entries !! x = pe_segment <$> entries !! x) as Hseg.
  { intros x. destruct (decide (x = k)) as [->|Hx]; [|by rewrite lookup_alter_ne].
    rewrite lookup_alter_eq. destruct (entries !! k) as [e|] eqn:E; [|done]. cbn. by rewrite (proj1 (Hf e eq_refl)). }
  assert (∀ x, bytes_of (alter f k entries) x = bytes_of entries x) as Hby.
  { intros x. apply bytes_of_alter. intros e E. by apply Hf. }
  split; [done|done|intros x; by rewrite Hseg|intros x; by rewrite Hseg| |intros x e].
  - rewrite Hb. f_equal. apply list_fmap_ext. intros i x _. by rewrite Hby.
  - destruct (decide (x = k)) as [->|Hx]; [|rewrite lookup_alter_ne by done; apply Hs].
    rewrite lookup_alter_eq. destruct (entries !! k) as [e'|] eqn:E; [|done]. intros [= <-].
    rewrite (proj2 (Hf e' eq_refl)). by apply Hs in E.
Qed.

Lemma queues_segment entries prob prot bytes k e : queues_wf entries prob prot bytes → entries !! k = Some e →
  match pe_segment e with Probationary => k ∈ prob ∧ k ∉ prot | Protected => k ∉ prob ∧ k ∈ prot end.
Proof.
  intros Hq Hk. pose proof (qw_prob _ _ _ _ Hq k) as H1. pose proof (qw_prot _ _ _ _ Hq k) as H2.
  rewrite Hk in H1, H2. cbn in H1, H2. destruct (pe_segment e); naive_solver.
Qed.
(** Moving or re-queueing one key: take it out, put it back. *)
Lemma queues_requeue entries prob prot bytes k e e' : queues_wf entries prob prot bytes →
  entries !! k = Some e → 0 ≤ pe_object_bytes e' →
  let bytes' := if decide (pe_segment e = Protected) then bytes - pe_object_bytes e else bytes in
  match pe_segment e' with
  | Probationary => queues_wf (<[k := e']> entries) ((remove_key prob k).2 ++ [k]) (remove_key prot k).2 bytes'
  | Protected => queues_wf (<[k := e']> entries) (remove_key prob k).2 ((remove_key prot k).2 ++ [k])
                   (bytes' + pe_object_bytes e')
  end.
Proof.
  intros Hq Hk He' bytes'. pose proof (queues_delete _ _ _ _ k Hq) as Hd.
  assert ((if decide (pe_segment <$> entries !! k = Some Protected) then bytes - bytes_of entries k else bytes) = bytes') as Eb.
  { unfold bytes', bytes_of. rewrite Hk. cbn. destruct (pe_segment e); by repeat destruct (decide _). }
  rewrite Eb in Hd. pose proof (queues_insert _ _ _ _ k e' Hd (lookup_delete_eq _ _) He') as Hi.
  by rewrite insert_delete_eq in Hi.
Qed.
Lemma queues_bytes_nonneg entries prob prot bytes : queues_wf entries prob prot bytes → 0 ≤ bytes.
Proof.
  intros Hq. rewrite (qw_bytes _ _ _ _ Hq). clear -Hq. pose proof (qw_sizes _ _ _ _ Hq) as Hs. clear Hq.
  unfold zsum. induction prot as [|k prot IH]; [done|]. rewrite fmap_cons. cbn [foldr].
  unfold bytes_of at 1. destruct (entries !! k) as [e|] eqn:E; [apply Hs in E|]; lia.
Qed.
Lemma queues_bytes_member entries prob prot bytes k e : queues_wf entries prob prot bytes →
  entries !! k = Some e → pe_segment e = Protected → pe_object_bytes e ≤ bytes.
Proof.
  intros Hq Hk Hs. pose proof (queues_delete _ _ _ _ k Hq) as Hd. apply queues_bytes_nonneg in Hd.
  rewrite Hk in Hd. cbn in Hd. rewrite Hs, decide_True in Hd by done. unfold bytes_of in Hd. rewrite Hk in Hd. lia.
Qed.

(** ** The invariant of the policy *)
Record config_ok (c : TinyLfuConfig) : Prop := {
  co_width : 64 ≤ tc_sketch_width c;
  co_fraction : 0 ≤ tc_protected_fraction_millis c ≤ 1000;
  co_capacity : 0 ≤ tc_capacity_bytes c < u64_bound
}.
Record policy_wf (p : TinyLfuPolicy) : Prop := {
  pw_config : config_ok (tp_config p);
  pw_length : length (tp_sketch p) = (Z.to_nat (tc_sketch_width (tp_config p)) * SKETCH_DEPTH)%nat;
  pw_cells : Forall in_u16 (tp_sketch p);
  pw_queues : queues_wf (tp_entries p) (tp_probationary p) (tp_protected p) (tp_protected_bytes p)
}.
Implicit Types (p : TinyLfuPolicy).

Lemma new_wf c p : TinyLfuPolicy_new c = Ok p → 0 ≤ tc_protected_fraction_millis c →
  0 ≤ tc_capacity_bytes c < u64_bound → policy_wf p ∧ tp_config p = c.
Proof.
  unfold TinyLfuPolicy_new. intros Hn Hf Hc. inv_ok. bools. subst p. split; [|done]. split; cbn.
  - split; cbn; lia.
  - by rewrite length_replicate.
  - apply Forall_replicate. done.
  - apply queues_empty.
Qed.
Lemma mark_pending_keeps k p :
  tp_config (mark_pending k p) = tp_config p ∧ tp_sketch (mark_pending k p) = tp_sketch p ∧
  tp_accesses (mark_pending k p) = tp_accesses p ∧ tp_entries (mark_pending k p) = tp_entries p ∧
  tp_probationary (mark_pending k p) = tp_probationary p ∧ tp_protected (mark_pending k p) = tp_protected p ∧
  tp_protected_bytes (mark_pending k p) = tp_protected_bytes p.
Proof. unfold mark_pending. by destruct (tp_entries p !! k). Qed.
Lemma mark_pending_wf k p : policy_wf p → policy_wf (mark_pending k p).
Proof.
  pose proof (mark_pending_keeps k p) as (E1 & E2 & E3 & E4 & E5 & E6 & E7). intros [Hc Hl Hf Hq].
  split; rewrite ?E1, ?E2, ?E4, ?E5, ?E6, ?E7; done.
Qed.
Lemma alter_entry_wf f k p : policy_wf p →
  (∀ e, tp_entries p !! k = Some e → pe_segment (f e) = pe_segment e ∧ pe_object_bytes (f e) = pe_object_bytes e) →
  policy_wf (with_entries (alter f k) p).
Proof. intros [Hc Hl Hf Hq] He. split; try done. by apply queues_alter. Qed.

(** ** Demotion *)
Lemma demote_loop_ok bound p : 0 ≤ bound → policy_wf p →
  policy_wf (demote_loop bound (tp_protected p) p) ∧
  tp_protected_bytes (demote_loop bound (tp_protected p) p) ≤ bound ∧
  tp_sketch (demote_loop bound (tp_protected p) p) = tp_sketch p ∧
  tp_config (demote_loop bound (tp_protected p) p) = tp_config p ∧
  tp_accesses (demote_loop bound (tp_protected p) p) = tp_accesses p ∧
  dom (tp_entries (demote_loop bound (tp_protected p) p)) = dom (tp_entries p) ∧
  ∀ x, bytes_of (tp_entries (demote_loop bound (tp_protected p) p)) x = bytes_of (tp_entries p) x.
Proof.
  intros Hb. remember (tp_protected p) as q eqn:Eq. revert p Eq. induction q as [|k q IH]; intros p Eq Hw; cbn [demote_loop].
  - assert (tp_protected_bytes p = 0) as H0.
    { rewrite (qw_bytes _ _ _ _ (pw_queues _ Hw)), <-Eq. done. }
    destruct (Z.leb_spec (tp_protected_bytes p) bound); by split_and!; try lia.
  - destruct (Z.leb_spec (tp_protected_bytes p) bound); [by split_and!|].
    pose proof (pw_queues _ Hw) as Hq. rewrite <-Eq in Hq.
    assert (pe_segment <$> tp_entries p !! k = Some Protected) as Hk by (apply (qw_prot _ _ _ _ Hq); left).
    destruct (tp_entries p !! k) as [e|] eqn:E; [|done]. injection Hk as Hk.
    pose proof (queues_segment _ _ _ _ _ _ Hq E) as Hs. rewrite Hk in Hs. destruct Hs as [Hn _].
    pose proof (queues_bytes_member _ _ _ _ _ _ Hq E Hk) as Hm.
    pose proof (queues_requeue _ _ _ _ k e (set_segment Probationary e) Hq E (qw_sizes _ _ _ _ Hq _ _ E)) as Hr.
    cbn [pe_segment set_segment] in Hr. rewrite Hk, decide_True, (remove_key_absent _ _ Hn) in Hr by done.
    cbn [remove_key] in Hr. rewrite bytes_eqb_refl in Hr. cbn [snd] in Hr.
    set (p' := with_queues _ _ _ _).
    assert (policy_wf p') as Hw'.
    { destruct Hw as [Hc Hl Hf _]. split; try done. cbn. unfold saturating_sub. by rewrite Z.max_r by lia. }
    destruct (IH p' eq_refl Hw') as (? & ? & ? & ? & ? & Hdom & Hby). split_and!; try done.
    + rewrite Hdom. cbn. rewrite dom_insert_L. apply elem_of_dom_2 in E. set_solver.
    + intros x. rewrite Hby. cbn. unfold bytes_of. destruct (decide (x = k)) as [->|Hx].
      * by rewrite lookup_insert_eq, E.
      * by rewrite lookup_insert_ne.
Qed.
Lemma protected_bound_nonneg c : config_ok c → 0 ≤ protected_bound c ≤ tc_capacity_bytes c.
Proof.
  intros [_ Hf Hc]. unfold protected_bound, saturating_mul. split.
  - apply Z.div_pos; [|lia]. unfold u64_bound in *. nia.
  - apply Z.div_le_upper_bound; [lia|]. nia.
Qed.
Lemma demote_ok p : policy_wf p → policy_wf (demote_protected_overflow p) ∧
  tp_protected_bytes (demote_protected_overflow p) ≤ protected_bound (tp_config p) ∧
  tp_sketch (demote_protected_overflow p) = tp_sketch p ∧
  tp_config (demote_protected_overflow p) = tp_config p ∧
  tp_accesses (demote_protected_overflow p) = tp_accesses p ∧
  dom (tp_entries (demote_protected_overflow p)) = dom (tp_entries p) ∧
  ∀ x, bytes_of (tp_entries (demote_protected_overflow p)) x = bytes_of (tp_entries p) x.
Proof. intros Hw. apply demote_loop_ok; [|done]. by apply protected_bound_nonneg, pw_config. Qed.

(** ** The sketch *)
Lemma land_le_r a b : 0 ≤ a → 0 ≤ b → 0 ≤ Z.land a b ≤ b.
Proof.
  intros Ha Hb. rewrite <-(Z2N.id a), <-(Z2N.id b) by done. rewrite <-N2Z.inj_land.
  split; [apply N2Z.is_nonneg|]. apply N2Z.inj_le, N.land_le_r.
Qed.
Section sketch.
Context `{CL : CryptoLaws}.

Lemma sketch_index_bound k row width : 0 < width →
  Z.of_nat row * width ≤ sketch_index k row width < Z.of_nat (S row) * width.
Proof.
  intros Hw. unfold sketch_index. set (v := le_val _).
  assert (0 ≤ v) as Hv.
  { apply le_val_bound. apply Forall_take. apply sha256_id. }
  pose proof (land_le_r v (width - 1) Hv ltac:(lia)). lia.
Qed.
Lemma sketch_cell_bound k row p : policy_wf p → (row < SKETCH_DEPTH)%nat →
  (sketch_cell p k row < length (tp_sketch p))%nat.
Proof.
  intros Hw Hr. rewrite (pw_length _ Hw). unfold sketch_cell. pose proof (co_width _ (pw_config _ Hw)).
  pose proof (sketch_index_bound k row (tc_sketch_width (tp_config p)) ltac:(lia)) as [H1 H2].
  unfold SKETCH_DEPTH in *. apply Nat2Z.inj_lt. rewrite Z2Nat.id by nia. rewrite Nat2Z.inj_mul, Z2Nat.id by lia. nia.
Qed.
(** Cells of different rows are different, so one update touches each once. *)
Lemma sketch_cell_rows k k' row row' p : policy_wf p → sketch_cell p k row = sketch_cell p k' row' → row = row'.
Proof.
  intros Hw E. unfold sketch_cell in E. pose proof (co_width _ (pw_config _ Hw)).
  pose proof (sketch_index_bound k row (tc_sketch_width (tp_config p)) ltac:(lia)).
  pose proof (sketch_index_bound k' row' (tc_sketch_width (tp_config p)) ltac:(lia)).
  apply Z2Nat.inj in E; [nia|nia|nia].
Qed.

Lemma alter_cells_length (f : Z → Z) (cells : list nat) (sketch : list Z) :
  length (foldl (λ s i, alter f i s) sketch cells) = length sketch.
Proof. revert sketch. induction cells as [|i cells IH]; intros s; [done|]. cbn. by rewrite IH, length_alter. Qed.
Lemma alter_cells_lookup (f : Z → Z) (cells : list nat) (sketch : list Z) i : NoDup cells →
  foldl (λ s i, alter f i s) sketch cells !! i =
  if decide (i ∈ cells) then f <$> sketch !! i else sketch !! i.
Proof.
  revert sketch. induction cells as [|j cells IH]; intros s Hd; [done|]. apply list.NoDup_cons in Hd as [Hj Hd]. cbn [foldl].
  rewrite IH by done. destruct (decide (i = j)) as [->|Hij].
  - rewrite decide_False, decide_True by set_solver. by rewrite list_lookup_alter_eq.
  - rewrite list_lookup_alter_ne by done. repeat case_decide; set_solver.
Qed.
Lemma foldl_rows p (f : Z → Z) k (sketch : list Z) :
  foldl (λ s row, alter f (sketch_cell p k row) s) sketch (seq 0 SKETCH_DEPTH) =
  foldl (λ s i, alter f i s) sketch (sketch_cell p k <$> seq 0 SKETCH_DEPTH).
Proof. done. Qed.
Lemma cells_NoDup p k : policy_wf p → NoDup (sketch_cell p k <$> seq 0 SKETCH_DEPTH).
Proof.
  intros Hw. apply NoDup_fmap_2_strong; [|apply NoDup_seq]. intros x y _ _. by apply sketch_cell_rows.
Qed.
Lemma update_cells_wf f k p : policy_wf p → (∀ c, in_u16 c → in_u16 (f c)) → policy_wf (update_cells f k p).
Proof.
  intros Hw Hf. pose proof Hw as [Hc Hl Hu Hq]. unfold update_cells. split; try done; cbn [tp_sketch with_sketch tp_config].
  - by rewrite foldl_rows, alter_cells_length.
  - rewrite foldl_rows. apply Forall_lookup. intros i c. rewrite alter_cells_lookup by (by apply cells_NoDup).
    rewrite Forall_lookup in Hu. case_decide; [|apply Hu]. destruct (tp_sketch p !! i) as [c'|] eqn:E; [|done].
    cbn. intros [= <-]. eauto.
Qed.

(** [estimate] is the least of the four cells. *)
Definition cell p k (row : nat) : Z := default 0 (tp_sketch p !! sketch_cell p k row).
Lemma foldl_min_le (l : list Z) c x : x ≤ foldl Z.min c l ↔ x ≤ c ∧ ∀ y, y ∈ l → x ≤ y.
Proof.
  revert c. induction l as [|y l IH]; intros c; cbn; [set_solver|]. rewrite IH. rewrite Z.min_glb_iff. set_solver.
Qed.
Lemma estimate_ge p k n : n ≤ estimate p k ↔ ∀ row, (row < SKETCH_DEPTH)%nat → n ≤ cell p k row.
Proof.
  unfold estimate. cbn [seq fmap list_fmap SKETCH_DEPTH]. rewrite foldl_min_le. unfold cell, SKETCH_DEPTH.
  setoid_rewrite list_elem_of_In. split.
  - intros [H0 Hr] row Hrow. destruct row as [|[|[|[|row]]]]; [done| | | |lia]; apply Hr; simpl; auto.
  - intros Hr. split; [apply Hr; lia|]. intros y Hy. simpl in Hy. destruct Hy as [<-|[<-|[<-|[]]]]; apply Hr; lia.
Qed.
Lemma update_cells_cell f k p k' row : policy_wf p → (row < SKETCH_DEPTH)%nat →
  cell (update_cells f k p) k' row =
  if decide (sketch_cell p k' row = sketch_cell p k row) then f (cell p k' row) else cell p k' row.
Proof.
  intros Hw Hr. unfold cell, update_cells. cbn [tp_sketch with_sketch]. rewrite foldl_rows.
  change (sketch_cell (with_sketch _ p) k' row) with (sketch_cell p k' row).
  rewrite alter_cells_lookup by (by apply cells_NoDup).
  pose proof (sketch_cell_bound k' row p Hw Hr) as Hb. apply lookup_lt_is_Some in Hb as [c Hc]. rewrite Hc.
  assert (sketch_cell p k' row ∈ sketch_cell p k <$> seq 0 SKETCH_DEPTH ↔ sketch_cell p k' row = sketch_cell p k row) as Hiff.
  { rewrite list_elem_of_fmap. split.
    - intros (row' & E & _). by rewrite (sketch_cell_rows _ _ _ _ _ Hw E) in E |- *.
    - intros E. exists row. split; [done|]. apply elem_of_seq. lia. }
  repeat case_decide; naive_solver.
Qed.
End sketch.

(** ** Operations keep the invariant *)
Section operations.
Context `{CL : CryptoLaws}.

Lemma increment_u16 c : in_u16 c → in_u16 (Z.min (c + 1) (u16_bound - 1)).
Proof. unfold in_u16, u16_bound. lia. Qed.
Lemma increment_wf k p : policy_wf p → policy_wf (increment k p).
Proof. intros Hw. apply update_cells_wf; [done|apply increment_u16]. Qed.
Lemma accesses_wf n p : policy_wf p → policy_wf (with_accesses n p).
Proof. by intros [? ? ? ?]. Qed.

Lemma age_entries_keeps keys p : policy_wf p →
  let p' := foldl (λ p key, mark_pending key (with_entries (alter age_entry key) p)) p keys in
  policy_wf p' ∧ tp_sketch p' = tp_sketch p ∧ tp_config p' = tp_config p ∧ dom (tp_entries p') = dom (tp_entries p) ∧
  tp_protected_bytes p' = tp_protected_bytes p ∧ ∀ x, bytes_of (tp_entries p') x = bytes_of (tp_entries p) x.
Proof.
  revert p. induction keys as [|k keys IH]; intros p Hw; [done|]. cbn [foldl].
  set (p1 := with_entries (alter age_entry k) p).
  assert (policy_wf p1) as Hw1 by (by apply alter_entry_wf).
  destruct (IH _ (mark_pending_wf k _ Hw1)) as (? & E1 & E2 & E3 & E4 & E5).
  destruct (mark_pending_keeps k p1) as (F1 & F2 & _ & F4 & _ & _ & F7).
  split_and!; try done; [by rewrite E1, F2|by rewrite E2, F1| |by rewrite E4, F7|].
  - rewrite E3, F4. apply dom_alter_L.
  - intros x. rewrite E5, F4. cbn. by apply bytes_of_alter.
Qed.
Lemma halve_u16 c : in_u16 c → in_u16 (c / 2).
Proof. unfold in_u16. intros. Z.to_euclidean_division_equations; lia. Qed.
Lemma age_keeps p : policy_wf p →
  policy_wf (age p) ∧ tp_sketch (age p) = (λ c, c / 2) <$> tp_sketch p ∧ tp_config (age p) = tp_config p ∧
  dom (tp_entries (age p)) = dom (tp_entries p) ∧ tp_protected_bytes (age p) = tp_protected_bytes p ∧
  ∀ x, bytes_of (tp_entries (age p)) x = bytes_of (tp_entries p) x.
Proof.
  intros Hw. unfold age. set (p0 := with_sketch _ p).
  assert (policy_wf p0) as Hw0.
  { destruct Hw as [Hc Hl Hf Hq]. split; try done; cbn [p0 with_sketch tp_sketch tp_config].
    - by rewrite length_fmap.
    - apply Forall_fmap. eapply list.Forall_impl; [exact Hf|]. intros c. apply halve_u16. }
  destruct (age_entries_keeps (btree_iter (tp_entries p)).*1 p0 Hw0) as (Hw1 & E1 & E2 & E3 & E4 & E5).
  split_and!; [by apply accesses_wf|done..].
Qed.
Lemma age_if_due_keeps p : policy_wf p →
  policy_wf (age_if_due p) ∧ tp_config (age_if_due p) = tp_config p ∧
  dom (tp_entries (age_if_due p)) = dom (tp_entries p) ∧ tp_protected_bytes (age_if_due p) = tp_protected_bytes p ∧
  ∀ x, bytes_of (tp_entries (age_if_due p)) x = bytes_of (tp_entries p) x.
Proof.
  intros Hw. unfold age_if_due. destruct (_ <=? _); [|done].
  destruct (age_keeps p Hw) as (? & _ & ? & ? & ? & ?). done.
Qed.

Lemma register_keeps k r now p : policy_wf p → 0 ≤ ri_physical_bytes r →
  policy_wf (register_with_retention k r now p) ∧
  tp_sketch (register_with_retention k r now p) = tp_sketch p ∧
  tp_config (register_with_retention k r now p) = tp_config p ∧
  (retention_validate r = Ok r → tp_entries p !! k = None →
    dom (tp_entries (register_with_retention k r now p)) = {[k]} ∪ dom (tp_entries p) ∧
    ∀ x, bytes_of (tp_entries (register_with_retention k r now p)) x =
         if decide (x = k) then ri_physical_bytes r else bytes_of (tp_entries p) x).
Proof.
  intros Hw Hr. unfold register_with_retention. destruct (tp_entries p !! k) as [e|] eqn:E; [by split_and!|].
  unfold retention_validate. destruct (_ || _); [by split_and!|].
  set (e := mkPolicyEntry _ _ _ _ _ _). set (p1 := with_queues _ _ _ _).
  assert (policy_wf p1) as Hw1.
  { destruct Hw as [Hc Hl Hf Hq]. split; try done. exact (queues_insert _ _ _ _ k e Hq E Hr). }
  destruct (mark_pending_keeps k p1) as (F1 & F2 & _ & F4 & _).
  split_and!; [by apply mark_pending_wf|by rewrite F2|by rewrite F1|]. intros _ _. rewrite F4. cbn. split; [apply dom_insert_L|].
  intros x. unfold bytes_of. destruct (decide (x = k)) as [->|]; [by rewrite lookup_insert_eq|by rewrite lookup_insert_ne].
Qed.

(** Promotion and touching, from a state whose entries hold the key, and whose
    queues may not yet. *)
Definition unqueued k p : Prop :=
  tp_entries p !! k ≠ None ∧
  (queues_wf (tp_entries p) (tp_probationary p) (tp_protected p) (tp_protected_bytes p) ∨
   pe_segment <$> tp_entries p !! k = Some Probationary ∧
   queues_wf (delete k (tp_entries p)) (tp_probationary p) (tp_protected p) (tp_protected_bytes p)).
Lemma unqueued_probationary k p e : unqueued k p → tp_entries p !! k = Some e → pe_segment e = Probationary →
  queues_wf (delete k (tp_entries p)) (remove_key (tp_probationary p) k).2 (tp_protected p) (tp_protected_bytes p) .
Proof.
  intros [_ [Hq|[_ Hq]]] E Hs.
  - pose proof (queues_delete _ _ _ _ k Hq) as Hd. rewrite E in Hd. cbn in Hd.
    rewrite Hs, decide_False in Hd by done. pose proof (queues_segment _ _ _ _ _ _ Hq E) as Hm. rewrite Hs in Hm.
    by rewrite (remove_key_absent (tp_protected p)) in Hd by apply Hm.
  - rewrite remove_key_absent; [done|]. rewrite (qw_prob _ _ _ _ Hq), lookup_delete_eq. done.
Qed.
Lemma promote_or_touch_queues k n p e : unqueued k p → tp_entries p !! k = Some e → 0 ≤ pe_object_bytes e →
  (pe_segment e = Probationary → tp_protected_bytes p + pe_object_bytes e < u64_bound) →
  let p' := promote_or_touch k n p in
  queues_wf (tp_entries p') (tp_probationary p') (tp_protected p') (tp_protected_bytes p') ∧
  tp_sketch p' = tp_sketch p ∧ tp_config p' = tp_config p ∧ tp_accesses p' = tp_accesses p ∧
  ∃ e', tp_entries p' = <[k := e']> (tp_entries p) ∧ pe_object_bytes e' = pe_object_bytes e.
Proof.
  intros Hu E He Hb. unfold promote_or_touch. rewrite E. case_bool_decide as Hs; cbn [andb].
  - pose proof (unqueued_probationary k p e Hu E Hs) as Hd. destruct (2 <=? n); cbn zeta.
    + cbn [with_queues tp_entries]. rewrite E. cbn [with_queues with_entries tp_entries tp_probationary tp_protected tp_protected_bytes tp_sketch tp_config tp_accesses].
      split_and!; try done; [|by exists (set_segment Protected e)].
      pose proof (queues_bytes_nonneg _ _ _ _ Hd). specialize (Hb Hs). unfold saturating_add. rewrite Z.min_l by lia.
      pose proof (queues_insert _ _ _ _ k (set_segment Protected e) Hd (lookup_delete_eq _ _) He) as Hi.
      by rewrite insert_delete_eq in Hi.
    + split_and!; try done; [|exists e; by rewrite insert_id]. cbn.
      pose proof (queues_insert _ _ _ _ k e Hd (lookup_delete_eq _ _) He) as Hi. rewrite Hs in Hi.
      by rewrite insert_delete_eq, insert_id in Hi.
  - split_and!; try done; [|exists e; by rewrite insert_id]. cbn.
    destruct Hu as [_ [Hq|[Hp _]]]; [|rewrite E in Hp; by injection Hp as Hp].
    assert (pe_segment e = Protected) as Hs' by (by destruct (pe_segment e)).
    pose proof (queues_requeue _ _ _ _ k e e Hq E He) as Hr. cbn zeta in Hr. rewrite Hs', decide_True in Hr by done.
    pose proof (queues_segment _ _ _ _ _ _ Hq E) as Hm. rewrite Hs' in Hm. destruct Hm as [Hm _].
    rewrite (remove_key_absent _ _ Hm), insert_id in Hr by done.
    by replace (tp_protected_bytes p - pe_object_bytes e + pe_object_bytes e) with (tp_protected_bytes p) in Hr by lia.
Qed.
Definition access_bytes k (r : RetentionInputs) p : Z :=
  match tp_entries p !! k with Some e => pe_object_bytes e | None => ri_physical_bytes r end.
(** What an access may add to the protected bytes. *)
Definition access_growth k (r : RetentionInputs) p : Z :=
  match tp_entries p !! k with
  | Some e => if decide (pe_segment e = Protected) then 0 else pe_object_bytes e
  | None => ri_physical_bytes r
  end.
(** An access up to the aging step. *)
Lemma record_access_shape k r now p : policy_wf p → 0 ≤ ri_physical_bytes r →
  tp_protected_bytes p + access_growth k r p < u64_bound → retention_validate r = Ok r →
  ∃ p', record_access_with_retention k r now p = age_if_due p' ∧ policy_wf p' ∧
    tp_sketch p' = tp_sketch (increment k p) ∧ tp_config p' = tp_config p ∧
    tp_accesses p' = saturating_add (tp_accesses p) 1 ∧
    dom (tp_entries p') = {[k]} ∪ dom (tp_entries p) ∧
    tp_protected_bytes p' ≤ protected_bound (tp_config p) ∧
    ∀ x, bytes_of (tp_entries p') x = if decide (x = k) then access_bytes k r p else bytes_of (tp_entries p) x.
Proof.
  intros Hw Hr Hb Hv. unfold record_access_with_retention. rewrite Hv. cbn zeta. eexists. split; [done|].
  fold (access_bytes k r p). set (r' := resize r (access_bytes k r p)).
  pose proof (increment_wf k p Hw) as Hwi. set (pi := increment k p) in *. set (n := Z.max (estimate pi k) 1).
  set (pe := match tp_entries pi !! k with Some _ => pi | None => _ end).
  assert (unqueued k pe ∧ (tp_sketch pe = tp_sketch pi ∧ tp_config pe = tp_config p ∧ tp_accesses pe = tp_accesses p) ∧
    dom (tp_entries pe) = {[k]} ∪ dom (tp_entries p) ∧ tp_protected_bytes pe = tp_protected_bytes p ∧
    ∃ e, tp_entries pe !! k = Some e ∧ pe_object_bytes e = access_bytes k r p ∧
      (pe_segment e = Probationary → access_growth k r p = access_bytes k r p))
    as (Hu & (Es & Ec & Ea) & Ed & Eb & e & Ee & Eby & Eg).
  { unfold pe, access_bytes, access_growth. change (tp_entries pi) with (tp_entries p). destruct (tp_entries p !! k) as [e|] eqn:E.
    - split_and!; try done; [split; [change (tp_entries p !! k ≠ None); by rewrite E|by left; apply Hwi]| |].
      + apply elem_of_dom_2 in E. set_solver.
      + exists e. split_and!; [done..|]. intros Hs. by rewrite decide_False by congruence.
    - cbn [with_entries tp_entries]. split_and!; try done.
      + split; cbn [with_entries tp_entries]; [by rewrite lookup_insert_eq|]. right. rewrite lookup_insert_eq. split; [done|].
        rewrite delete_insert_id by done. apply Hwi.
      + apply dom_insert_L.
      + eexists. by rewrite lookup_insert_eq. }
  assert (0 ≤ access_bytes k r p) as H0.
  { unfold access_bytes. destruct (tp_entries p !! k) eqn:E; [by apply (qw_sizes _ _ _ _ (pw_queues _ Hw)) in E|done]. }
  destruct (promote_or_touch_queues k n pe e Hu Ee ltac:(lia)) as (Hq & Es2 & Ec2 & Ea2 & e' & Ee2 & Eb2).
  { intros Hs. specialize (Eg Hs). lia. }
  set (pt := promote_or_touch k n pe) in *.
  assert (policy_wf pt) as Hwt.
  { destruct Hwi as [Hc Hl Hf _]. split; rewrite ?Ec2, ?Ec, ?Es2, ?Es; done. }
  set (pr := with_entries _ pt).
  assert (policy_wf pr) as Hwr.
  { apply alter_entry_wf; [done|]. intros x Hx. rewrite Ee2, lookup_insert_eq in Hx. injection Hx as <-. cbn. by rewrite Eb2. }
  destruct (demote_ok pr Hwr) as (Hwd & Hbd & Esd & Ecd & Ead & Edd & Ebd).
  set (pd := demote_protected_overflow pr) in *.
  destruct (mark_pending_keeps k pd) as (F1 & F2 & F3 & F4 & _ & _ & F7).
  assert (tp_config pr = tp_config p) as Ecr by (change (tp_config pr) with (tp_config pt); by rewrite Ec2, Ec).
  cbn [count_access with_accesses tp_sketch tp_config tp_accesses tp_entries tp_protected_bytes].
  rewrite F1, F2, F3, F4, F7, Ecd, Esd, Ead, Edd.
  change (tp_entries pr) with (alter (refresh_entry (access_bytes k r p) n r' now) k (tp_entries pt)).
  change (tp_sketch pr) with (tp_sketch pt). change (tp_accesses pr) with (tp_accesses pt).
  split_and!; [by apply accesses_wf, mark_pending_wf|congruence|done|congruence| |by rewrite <-Ecr|].
  { rewrite dom_alter_L, Ee2, dom_insert_L, Ed. set_solver. }
  intros x. rewrite Ebd. change (tp_entries pr) with (alter (refresh_entry (access_bytes k r p) n r' now) k (tp_entries pt)).
  unfold bytes_of at 1. destruct (decide (x = k)) as [->|Hx].
  { by rewrite lookup_alter_eq, Ee2, lookup_insert_eq. }
  rewrite lookup_alter_ne, Ee2, lookup_insert_ne by done. unfold bytes_of, pe. destruct (tp_entries pi !! k); [done|].
  cbn. by rewrite lookup_insert_ne.
Qed.
Lemma record_access_keeps k r now p : policy_wf p → 0 ≤ ri_physical_bytes r →
  tp_protected_bytes p + access_growth k r p < u64_bound → retention_validate r = Ok r →
  let p' := record_access_with_retention k r now p in
  policy_wf p' ∧ tp_config p' = tp_config p ∧ dom (tp_entries p') = {[k]} ∪ dom (tp_entries p) ∧
  tp_protected_bytes p' ≤ protected_bound (tp_config p) ∧
  ∀ x, bytes_of (tp_entries p') x = if decide (x = k) then access_bytes k r p else bytes_of (tp_entries p) x.
Proof.
  intros Hw Hr Hb Hv. destruct (record_access_shape k r now p Hw Hr Hb Hv) as (p' & -> & Hw' & _ & Ec & _ & Ed & Hb' & Hx).
  destruct (age_if_due_keeps p' Hw') as (G1 & G2 & G3 & G4 & G5). split_and!; [congruence..|]. intros x. by rewrite G5.
Qed.
Lemma automatic_keeps k r u p : policy_wf p →
  let p' := (automatic_admission_decision k r u p).2 in
  policy_wf p' ∧ tp_config p' = tp_config p ∧ dom (tp_entries p') = dom (tp_entries p) ∧
  tp_protected_bytes p' = tp_protected_bytes p ∧ ∀ x, bytes_of (tp_entries p') x = bytes_of (tp_entries p) x.
Proof.
  intros Hw. unfold automatic_admission_decision, retention_validate. destruct (_ || _); [done|]. cbn [snd].
  exact (age_if_due_keeps _ (accesses_wf _ _ (increment_wf k p Hw))).
Qed.
Lemma remove_keeps k p : policy_wf p →
  policy_wf (policy_remove k p) ∧ tp_sketch (policy_remove k p) = tp_sketch p ∧
  tp_config (policy_remove k p) = tp_config p ∧ tp_entries (policy_remove k p) = delete k (tp_entries p).
Proof.
  intros Hw. pose proof Hw as [Hc Hl Hf Hq]. unfold policy_remove.
  pose proof (queues_delete _ _ _ _ k Hq) as Hd. destruct (tp_entries p !! k) as [e|] eqn:E.
  - cbn in Hd. destruct (decide (pe_segment e = Protected)) as [Hs|Hs]; cbn [with_pending with_queues with_entries tp_entries tp_sketch tp_config].
    + split_and!; try done. split; try done. cbn. rewrite decide_True in Hd by (by rewrite Hs).
      pose proof (queues_bytes_member _ _ _ _ _ _ Hq E Hs). unfold bytes_of in Hd. rewrite E in Hd.
      unfold saturating_sub. by rewrite Z.max_r by lia.
    + split_and!; try done. split; try done. cbn. rewrite decide_False in Hd by congruence. done.
  - split_and!; try done.
    + split; try done. cbn. rewrite decide_False in Hd by done. by rewrite delete_id in Hd.
    + cbn. by rewrite delete_id.
Qed.
Lemma drain_wf p : policy_wf p → policy_wf (drain_pending p).2.
Proof. by intros [? ? ? ?]. Qed.
Lemma restore_pending_keeps values p :
  tp_config (restore_pending values p) = tp_config p ∧ tp_sketch (restore_pending values p) = tp_sketch p ∧
  tp_entries (restore_pending values p) = tp_entries p ∧ tp_probationary (restore_pending values p) = tp_probationary p ∧
  tp_protected (restore_pending values p) = tp_protected p ∧
  tp_protected_bytes (restore_pending values p) = tp_protected_bytes p.
Proof. unfold restore_pending. revert p. induction values as [|v values IH]; intros p; [done|]. exact (IH _). Qed.
Lemma restore_pending_wf values p : policy_wf p → policy_wf (restore_pending values p).
Proof.
  intros [Hc Hl Hf Hq]. destruct (restore_pending_keeps values p) as (E1 & E2 & E3 & E4 & E5 & E6).
  split; rewrite ?E1, ?E2, ?E3, ?E4, ?E5, ?E6; done.
Qed.
Lemma restore_u16 f c : 0 ≤ f → in_u16 c → in_u16 (Z.max c (Z.min f (u16_bound - 1))).
Proof. unfold in_u16, u16_bound. lia. Qed.
Lemma restore_entry_wf k b f s seg last p : policy_wf p → 0 ≤ b → 0 ≤ f → tp_protected_bytes p + b < u64_bound →
  policy_wf (restore_entry k b f s seg last p).
Proof.
  intros Hw Hb Hf Hfit. unfold restore_entry. destruct (tp_entries p !! k) as [e|] eqn:E; [done|].
  pose proof (update_cells_wf _ k p Hw (λ c, restore_u16 f c Hf)) as [Hc Hl Hu Hq].
  set (e := mkPolicyEntry _ _ _ _ _ _).
  pose proof (queues_insert _ _ _ _ k e Hq E Hb) as Hi. pose proof (queues_bytes_nonneg _ _ _ _ Hq).
  destruct seg; split; try done. cbn in Hi |- *. unfold saturating_add. by rewrite Z.min_l by (cbn in *; lia).
Qed.
End operations.

(** * Decisions of the retention policy

    [min_by] picks a least element of a total order; the victim and the
    admission decision are the least entries; the sketch covers an exact
    counter per object; and the operations as one step function. *)
(** ** Total comparisons *)
Class TotalCmp {A} (cmp : A → A → comparison) : Prop := {
  cmp_antisym a b : cmp b a = CompOpp (cmp a b);
  cmp_trans a b c : cmp a b ≠ Gt → cmp b c ≠ Gt → cmp a c ≠ Gt
}.
Lemma cmp_refl `{TotalCmp A cmp} a : cmp a a = Eq.
Proof. pose proof (cmp_antisym a a). by destruct (cmp a a). Qed.
#[export] Instance Z_compare_total {A} (f : A → Z) : TotalCmp (λ a b, Z.compare (f a) (f b)).
Proof. split; [intros; apply Z.compare_antisym|]. intros a b c. rewrite !Z.compare_ngt_iff. lia. Qed.
#[export] Instance bytes_cmp_total {A} (f : A → bytes) : TotalCmp (λ a b, bytes_cmp (f a) (f b)).
Proof.
  split; [intros; apply bytes_cmp_antisym|]. intros a b c Hab Hbc.
  destruct (bytes_cmp (f a) (f b)) eqn:E1; [|destruct (bytes_cmp (f b) (f c)) eqn:E2|]; try done.
  - apply bytes_cmp_eq in E1. by rewrite E1.
  - apply bytes_cmp_eq in E2. by rewrite <-E2, E1.
  - by rewrite (bytes_cmp_trans _ _ _ E1 E2).
Qed.
#[export] Instance then_cmp_total {A} (f g : A → A → comparison) :
  TotalCmp f → TotalCmp g → TotalCmp (λ a b, then_cmp (f a b) (g a b)).
Proof.
  intros Hf Hg. split.
  - intros a b. rewrite (cmp_antisym (cmp:=f) a b), (cmp_antisym (cmp:=g) a b). by destruct (f a b).
  - intros a b c Hab Hbc.
    assert (f a b ≠ Gt ∧ f b c ≠ Gt) as [Fab Fbc] by (split; intros E; rewrite E in *; done).
    pose proof (cmp_trans a b c Fab Fbc) as Fac. destruct (f a c) eqn:Eac; [|done|done]. cbn.
    assert (f c a ≠ Gt) as Fca by (by rewrite (cmp_antisym a c), Eac).
    pose proof (cmp_trans c a b Fca Fab) as Fcb. pose proof (cmp_trans b c a Fbc Fca) as Fba.
    rewrite (cmp_antisym b c) in Fcb. rewrite (cmp_antisym a b) in Fba.
    destruct (f a b), (f b c); try done. by apply (cmp_trans a b c).
Qed.
#[export] Instance admission_cmp_total : TotalCmp admission_cmp.
Proof. unfold admission_cmp. apply _. Qed.
#[export] Instance victim_cmp_total : TotalCmp victim_cmp.
Proof. unfold victim_cmp. apply then_cmp_total; apply _. Qed.
Lemma admission_cmp_Eq a b : admission_cmp a b = Eq → a.1 = b.1.
Proof. unfold admission_cmp, then_cmp. repeat case_match; intros; try done. by apply bytes_cmp_eq. Qed.

Section min_by.
Context {A : Type} (cmp : A → A → comparison) `{!TotalCmp cmp}.
Lemma min_by_app l a : min_by cmp (l ++ [a]) =
  match min_by cmp l with None => Some a | Some b => match cmp a b with Lt => Some a | _ => Some b end end.
Proof. unfold min_by. rewrite foldl_app. cbn. by destruct (foldl _ _ _). Qed.
Lemma min_by_spec l :
  match min_by cmp l with
  | None => l = []
  | Some m => m ∈ l ∧ ∀ x, x ∈ l → cmp m x ≠ Gt
  end.
Proof.
  induction l as [|a l IH] using rev_ind; [done|]. rewrite min_by_app. destruct (min_by cmp l) as [b|].
  - destruct IH as [Hb Hmin]. destruct (cmp a b) eqn:E.
    + split; [set_solver|]. intros x Hx. apply elem_of_app in Hx as [Hx|Hx%list_elem_of_singleton]; [auto|]. subst.
      by rewrite (cmp_antisym a b), E.
    + split; [set_solver|]. intros x Hx. apply elem_of_app in Hx as [Hx|Hx%list_elem_of_singleton].
      * apply (cmp_trans a b x); [by rewrite E|auto].
      * subst. by rewrite cmp_refl.
    + split; [set_solver|]. intros x Hx. apply elem_of_app in Hx as [Hx|Hx%list_elem_of_singleton]; [auto|]. subst.
      by rewrite (cmp_antisym a b), E.
  - subst. split; [set_solver|]. intros x Hx. apply list_elem_of_singleton in Hx. subst. by rewrite cmp_refl.
Qed.
Lemma min_by_None l : min_by cmp l = None ↔ l = [].
Proof. split; [|by intros ->]. intros E. pose proof (min_by_spec l) as Hs. by rewrite E in Hs. Qed.
End min_by.

(** ** Victims and admission *)
Section decisions.
Context `{CL : CryptoLaws}.

Lemma queued_elem p q k e : (k, e) ∈ queued p q ↔ k ∈ q ∧ tp_entries p !! k = Some e.
Proof.
  unfold queued. rewrite list_elem_of_omap. split.
  - intros (k' & Hk & E). destruct (tp_entries p !! k') eqn:E'; [|done]. injection E as <- <-. done.
  - intros [Hk E]. exists k. by rewrite E.
Qed.
Lemma victim_spec p : policy_wf p →
  match policy_victim p with
  | None => tp_entries p = ∅
  | Some v => ∃ e, tp_entries p !! v = Some e ∧
      ∀ k e', tp_entries p !! k = Some e' → k ≠ v → victim_cmp (v, e) (k, e') = Lt
  end.
Proof.
  intros Hw. unfold policy_victim. set (q := queued _ _). pose proof (min_by_spec victim_cmp q) as Hm.
  assert (∀ k e, tp_entries p !! k = Some e → (k, e) ∈ q) as Hall.
  { intros k e E. apply queued_elem. split; [|done]. apply elem_of_app.
    pose proof (queues_segment _ _ _ _ _ _ (pw_queues _ Hw) E). destruct (pe_segment e); [left|right]; naive_solver. }
  destruct (min_by victim_cmp q) as [[v e]|]; cbn [fmap option_fmap option_map fst].
  - destruct Hm as [Hv Hmin]. apply queued_elem in Hv as [_ Hv]. exists e. split; [done|]. intros k e' Hk Hne.
    specialize (Hmin _ (Hall k e' Hk)). destruct (victim_cmp (v, e) (k, e')) eqn:E; [|done|done].
    unfold victim_cmp, then_cmp in E. destruct (Z.compare _ _); [|done..]. by apply admission_cmp_Eq in E.
  - apply map_empty. intros k. apply eq_None_not_Some. intros [e E]. specialize (Hall k e E). rewrite Hm in Hall. set_solver.
Qed.
(** The least probationary entry. *)
Definition least_probationary p (v : Id32) e : Prop :=
  tp_entries p !! v = Some e ∧ pe_segment e = Probationary ∧
  ∀ k e', tp_entries p !! k = Some e' → pe_segment e' = Probationary → k ≠ v → admission_cmp (v, e) (k, e') = Lt.
Lemma probationary_min p : policy_wf p →
  match min_by admission_cmp (queued p (tp_probationary p)) with
  | None => ∀ k e, tp_entries p !! k = Some e → pe_segment e = Protected
  | Some (v, e) => least_probationary p v e
  end.
Proof.
  intros Hw. set (q := queued _ _). pose proof (min_by_spec admission_cmp q) as Hm.
  assert (∀ k e, (k, e) ∈ q ↔ tp_entries p !! k = Some e ∧ pe_segment e = Probationary) as Hq.
  { intros k e. unfold q. rewrite queued_elem, (qw_prob _ _ _ _ (pw_queues _ Hw)). split.
    - intros [Hs E]. rewrite E in Hs. by injection Hs as Hs.
    - intros [E Hs]. rewrite E. cbn. by rewrite Hs. }
  destruct (min_by admission_cmp q) as [[v e]|].
  - destruct Hm as [Hv Hmin]. apply Hq in Hv as [Hv Hs]. split_and!; [done|done|]. intros k e' Hk Hs' Hne.
    assert ((k, e') ∈ q) as Hin by (by apply Hq). specialize (Hmin _ Hin).
    destruct (admission_cmp (v, e) (k, e')) eqn:E; [by apply admission_cmp_Eq in E|done|done].
  - intros k e E. destruct (pe_segment e) eqn:Hs; [|done]. assert ((k, e) ∈ q) as Hin by (by apply Hq).
    rewrite Hm in Hin. set_solver.
Qed.
End decisions.

(** ** The sketch covers an exact counter *)
Section tally.
Context `{CL : CryptoLaws}.
Implicit Types (c : Id32 → Z).

Definition covers c p : Prop := ∀ k row, (row < SKETCH_DEPTH)%nat → c k ≤ cell p k row.
Definition bump k c : Id32 → Z := λ x, if decide (x = k) then Z.min (c x + 1) (u16_bound - 1) else c x.
Definition raise k (n : Z) c : Id32 → Z := λ x, if decide (x = k) then Z.max (c x) (Z.min n (u16_bound - 1)) else c x.
Definition halve c : Id32 → Z := λ x, c x / 2.

Lemma covers_estimate c p k : covers c p → c k ≤ estimate p k.
Proof. intros Hc. apply estimate_ge. intros row Hr. by apply Hc. Qed.
Lemma covers_same c p p' : tp_sketch p' = tp_sketch p → tp_config p' = tp_config p → covers c p → covers c p'.
Proof. intros Es Ec Hc k row Hr. unfold cell, sketch_cell. rewrite Es, Ec. by apply Hc. Qed.
Lemma covers_update f k c c' p : policy_wf p → covers c p →
  (∀ x n, c x ≤ n → in_u16 n → c' x ≤ if decide (x = k) then f n else n) → (∀ n, in_u16 n → n ≤ f n) →
  covers c' (update_cells f k p).
Proof.
  intros Hw Hc Hf Hm x row Hr. rewrite update_cells_cell by done.
  assert (in_u16 (cell p x row)) as Hu.
  { unfold cell. destruct (tp_sketch p !! sketch_cell p x row) as [n|] eqn:E; [|done].
    pose proof (pw_cells _ Hw) as Hall. rewrite Forall_lookup in Hall. cbn. eauto. }
  specialize (Hf x _ (Hc x row Hr) Hu). specialize (Hm _ Hu). destruct (decide (x = k)) as [->|Hx].
  - by rewrite decide_True by done.
  - case_decide; lia.
Qed.
Lemma covers_increment k c p : policy_wf p → covers c p → covers (bump k c) (increment k p).
Proof.
  intros Hw Hc. apply (covers_update _ k c); [done|done| |unfold in_u16; lia].
  intros x n Hx Hu. unfold bump. case_decide; lia.
Qed.
Lemma covers_raise k n c p : policy_wf p → covers c p →
  covers (raise k n c) (update_cells (λ v, Z.max v (Z.min n (u16_bound - 1))) k p).
Proof.
  intros Hw Hc. apply (covers_update _ k c); [done|done| |lia].
  intros x v Hx Hu. unfold raise. case_decide; lia.
Qed.
Lemma covers_age c p : policy_wf p → covers c p → covers (halve c) (age p).
Proof.
  intros Hw Hc k row Hr. destruct (age_keeps p Hw) as (_ & Es & Ec & _). unfold cell, sketch_cell. rewrite Es, Ec.
  fold (sketch_cell p k row). rewrite list_lookup_fmap. specialize (Hc k row Hr). unfold cell in Hc. unfold halve.
  destruct (tp_sketch p !! sketch_cell p k row) as [v|]; cbn in *; [by apply Z.div_le_mono|].
  by apply (Z.div_le_mono (c k) 0 2).
Qed.

(** ** The policy as a state machine *)
Inductive policy_op :=
  | OpRegister (key : Id32) (retention : RetentionInputs) (now_ns : Z)
  | OpAccess (key : Id32) (retention : RetentionInputs) (now_ns : Z)
  | OpAdmission (key : Id32) (retention : RetentionInputs) (utilization_millis : Z)
  | OpRemove (key : Id32)
  | OpDrain
  | OpRestorePending (values : list PendingPolicyAccess)
  | OpRestoreEntry (key : Id32) (object_bytes frequency score : Z) (segment : RetentionSegment) (last_access_ns : Z).
Definition apply_op (op : policy_op) p : TinyLfuPolicy :=
  match op with
  | OpRegister k r now => register_with_retention k r now p
  | OpAccess k r now => record_access_with_retention k r now p
  | OpAdmission k r u => (automatic_admission_decision k r u p).2
  | OpRemove k => policy_remove k p
  | OpDrain => (drain_pending p).2
  | OpRestorePending values => restore_pending values p
  | OpRestoreEntry k b f s seg last => restore_entry k b f s seg last p
  end.
(** Unsigned arguments, and a protected total that stays within 64 bits. *)
Definition op_fits p (op : policy_op) : Prop :=
  match op with
  | OpRegister k r _ => 0 ≤ ri_physical_bytes r
  | OpAccess k r _ => 0 ≤ ri_physical_bytes r ∧ tp_protected_bytes p + access_growth k r p < u64_bound
  | OpRestoreEntry _ b f _ _ _ => 0 ≤ b ∧ 0 ≤ f ∧ tp_protected_bytes p + b < u64_bound
  | _ => True
  end.
(** The exact counter each operation would keep. *)
Definition due p : bool :=
  tc_reset_after_accesses (tp_config p) <=? saturating_add (tp_accesses p) 1.
Definition tally_op (op : policy_op) p c : Id32 → Z :=
  match op with
  | OpAccess k r _ | OpAdmission k r _ =>
      if is_ok (retention_validate r) then (if due p then halve (bump k c) else bump k c) else c
  | OpRestoreEntry k _ f _ _ _ => if decide (tp_entries p !! k = None) then raise k f c else c
  | _ => c
  end.
Inductive policy_reachable (config : TinyLfuConfig) : TinyLfuPolicy → (Id32 → Z) → Prop :=
  | reach_new p : TinyLfuPolicy_new config = Ok p → policy_reachable config p (λ _, 0)
  | reach_op p c op : policy_reachable config p c → op_fits p op →
      policy_reachable config (apply_op op p) (tally_op op p c).

Lemma record_access_invalid k r now p : is_ok (retention_validate r) = false → record_access_with_retention k r now p = p.
Proof. unfold record_access_with_retention. by destruct (retention_validate r). Qed.
Lemma validate_id r : is_ok (retention_validate r) = true → retention_validate r = Ok r.
Proof. unfold retention_validate. by destruct (_ || _). Qed.
Lemma apply_op_wf op p : policy_wf p → op_fits p op → policy_wf (apply_op op p) ∧ tp_config (apply_op op p) = tp_config p.
Proof.
  intros Hw Hf. destruct op as [k r now|k r now|k r u|k| |values|k b f s seg last]; cbn [apply_op op_fits] in *.
  - destruct (register_keeps k r now p Hw Hf) as (? & _ & ? & _). done.
  - destruct (is_ok (retention_validate r)) eqn:E; [|by rewrite record_access_invalid].
    destruct (record_access_keeps k r now p) as (? & ? & _); try apply Hf; auto using validate_id.
  - destruct (automatic_keeps k r u p Hw) as (? & ? & _). done.
  - destruct (remove_keeps k p Hw) as (? & _ & ? & _). done.
  - split; [by apply drain_wf|done].
  - split; [by apply restore_pending_wf|apply restore_pending_keeps].
  - destruct Hf as (? & ? & ?). split; [by apply restore_entry_wf|]. unfold restore_entry. destruct (_ !! _); [done|]. by destruct seg.
Qed.

Lemma age_if_due_covers c p p' : policy_wf p → policy_wf p' → tp_config p' = tp_config p →
  tp_accesses p' = saturating_add (tp_accesses p) 1 → covers c p' →
  covers (if due p then halve c else c) (age_if_due p').
Proof.
  intros Hw Hw' Ec Ea Hc. unfold age_if_due, due. rewrite Ec, Ea. destruct (_ <=? _); [by apply covers_age|done].
Qed.
Lemma apply_op_covers op p c : policy_wf p → op_fits p op → covers c p → covers (tally_op op p c) (apply_op op p).
Proof.
  intros Hw Hf Hc. destruct op as [k r now|k r now|k r u|k| |values|k b f s seg last]; cbn [apply_op op_fits tally_op] in *.
  - destruct (register_keeps k r now p Hw Hf) as (_ & ? & ? & _). by eapply covers_same.
  - destruct (is_ok (retention_validate r)) eqn:E; [|by rewrite record_access_invalid].
    destruct Hf as [Hr Hb]. destruct (record_access_shape k r now p Hw Hr Hb (validate_id _ E)) as (p' & -> & Hw' & Es & Ec & Ea & _).
    assert (covers (bump k c) p') as Hc'.
    { apply (covers_same _ (increment k p)); [done..|]. by apply covers_increment. }
    pose proof (age_if_due_covers _ p p' Hw Hw' Ec Ea Hc') as Ha. by destruct (due p).
  - unfold automatic_admission_decision. destruct (is_ok (retention_validate r)) eqn:E; [|by destruct (retention_validate r)].
    rewrite (validate_id _ E). cbn [snd].
    assert (covers (bump k c) (count_access (increment k p))) as Hc' by (exact (covers_increment k c p Hw Hc)).
    pose proof (age_if_due_covers _ p _ Hw (accesses_wf _ _ (increment_wf k p Hw)) eq_refl eq_refl Hc') as Ha. by destruct (due p).
  - destruct (remove_keeps k p Hw) as (_ & ? & ? & _). by eapply covers_same.
  - by eapply covers_same.
  - destruct (restore_pending_keeps values p) as (? & ? & _). by eapply covers_same.
  - unfold restore_entry. destruct (tp_entries p !! k); [done|].
    destruct seg; exact (covers_raise k f c p Hw Hc).
Qed.
Lemma new_covers config p : TinyLfuPolicy_new config = Ok p → covers (λ _, 0) p.
Proof.
  unfold TinyLfuPolicy_new. intros Hn. inv_ok. subst p. intros k row _. unfold cell. cbn [tp_sketch].
  destruct (replicate _ _ !! _) eqn:E; [|done]. apply lookup_replicate in E as [-> _]. done.
Qed.
Lemma policy_reachable_inv config p c : 0 ≤ tc_protected_fraction_millis config → 0 ≤ tc_capacity_bytes config < u64_bound →
  policy_reachable config p c → policy_wf p ∧ tp_config p = config ∧ covers c p.
Proof.
  intros Hf Hc Hr. induction Hr as [p Hn|p c op _ (Hw & Ec & Hcov) Hfit].
  - destruct (new_wf _ _ Hn Hf Hc). split_and!; [done|done|by eapply new_covers].
  - destruct (apply_op_wf op p Hw Hfit) as [? E]. split_and!; [done|congruence|by apply apply_op_covers].
Qed.
End tally.
