(* ===== verification/CacheReplay.v ===== *)
(** * Cache replay (crates/kvpack/src/store/policy/replay.rs)

    The replay of a trace under five eviction policies.  [make_room] is a
    [while] loop: it runs on fuel, and an exhausted fuel is a [Panic], so that
    the theorems show it never happens.  A [VecDeque] is a list, front first. *)
From Stdlib Require Import ZArith Lia.
From stdpp Require Import base tactics numbers list strings option sorting gmap.
From S2P Require Import Prelude Bytes Canonical Crypto StorePolicy.

(** ** Replay of the TinyLFU policy alone *)
Inductive PolicyReplayEvent :=
  | PAccess (object_key : Id32) (object_bytes avoided_recompute_ns now_ns : Z)
  | PAdmission (object_key : Id32) (object_bytes avoided_recompute_ns utilization_millis : Z)
  | PEvict.
Record PolicyReplayResult := mkPolicyReplayResult {
  pr_admissions : list AdmissionDecision;
  pr_victims : list (option Id32)
}.

(** ** Traces and results *)
Inductive CacheReplayPolicy := Lru | Lfu | TinyLfu | Arc | ClockPro.
#[export] Instance CacheReplayPolicy_eq_dec : EqDecision CacheReplayPolicy.
Proof. solve_decision. Defined.
Inductive CacheReplayTier := Resident | Local_tier | Gateway.
#[export] Instance CacheReplayTier_eq_dec : EqDecision CacheReplayTier.
Proof. solve_decision. Defined.
Record ReplayTierProfile := mkReplayTierProfile {
  tr_bytes_per_second : Z;
  tr_fixed_latency_ns : Z;
  tr_initially_available : bool
}.
Record CacheReplayConfig := mkCacheReplayConfig {
  cr_capacity_bytes : Z;
  cr_maximum_entries : Z;
  cr_resident : ReplayTierProfile;
  cr_local : ReplayTierProfile;
  cr_gateway : ReplayTierProfile
}.
Inductive CacheTraceEvent :=
  | Access (object_key : Id32) (source_tier : CacheReplayTier) (retention : RetentionInputs)
  | SourceFailed (tier : CacheReplayTier)
  | SourceRecovered (tier : CacheReplayTier).
Inductive CacheReplayOutcome := Hit | MissAdmitted | MissRejected | SourceUnavailable.
Record CacheReplayResult := mkCacheReplayResult {
  re_outcomes : list CacheReplayOutcome;
  re_evictions : list Id32;
  re_hits : Z;
  re_misses : Z;
  re_admitted : Z;
  re_rejected : Z;
  re_source_failures : Z;
  re_resident_bytes : Z;
  re_total_service_ns : Z
}.
Definition CacheReplayResult_default : CacheReplayResult := mkCacheReplayResult [] [] 0 0 0 0 0 0 0.
Record ReplayEntry := mkReplayEntry {
  en_retention : RetentionInputs;
  en_frequency : Z;
  en_last_access : Z;
  en_referenced : bool;
  en_hot : bool
}.
Record ReplayState := mkReplayState {
  rs_policy : CacheReplayPolicy;
  rs_config : CacheReplayConfig;
  rs_entries : gmap Id32 ReplayEntry;
  rs_resident_bytes : Z;
  rs_tick : Z;
  rs_tiny_lfu : TinyLfuPolicy;
  rs_arc_recent : list Id32;
  rs_arc_frequent : list Id32;
  rs_arc_recent_ghost : list Id32;
  rs_arc_frequent_ghost : list Id32;
  rs_arc_target_bytes : Z;
  rs_clock : list Id32
}.
Definition set_entries (entries : gmap Id32 ReplayEntry) (bytes : Z) (s : ReplayState) : ReplayState :=
  mkReplayState (rs_policy s) (rs_config s) entries bytes (rs_tick s) (rs_tiny_lfu s) (rs_arc_recent s)
    (rs_arc_frequent s) (rs_arc_recent_ghost s) (rs_arc_frequent_ghost s) (rs_arc_target_bytes s) (rs_clock s).
Definition set_tick (tick : Z) (s : ReplayState) : ReplayState :=
  mkReplayState (rs_policy s) (rs_config s) (rs_entries s) (rs_resident_bytes s) tick (rs_tiny_lfu s) (rs_arc_recent s)
    (rs_arc_frequent s) (rs_arc_recent_ghost s) (rs_arc_frequent_ghost s) (rs_arc_target_bytes s) (rs_clock s).
Definition set_tiny (tiny : TinyLfuPolicy) (s : ReplayState) : ReplayState :=
  mkReplayState (rs_policy s) (rs_config s) (rs_entries s) (rs_resident_bytes s) (rs_tick s) tiny (rs_arc_recent s)
    (rs_arc_frequent s) (rs_arc_recent_ghost s) (rs_arc_frequent_ghost s) (rs_arc_target_bytes s) (rs_clock s).
Definition set_arc (recent frequent recent_ghost frequent_ghost : list Id32) (target : Z) (s : ReplayState) : ReplayState :=
  mkReplayState (rs_policy s) (rs_config s) (rs_entries s) (rs_resident_bytes s) (rs_tick s) (rs_tiny_lfu s)
    recent frequent recent_ghost frequent_ghost target (rs_clock s).
Definition set_clock (clock : list Id32) (s : ReplayState) : ReplayState :=
  mkReplayState (rs_policy s) (rs_config s) (rs_entries s) (rs_resident_bytes s) (rs_tick s) (rs_tiny_lfu s) (rs_arc_recent s)
    (rs_arc_frequent s) (rs_arc_recent_ghost s) (rs_arc_frequent_ghost s) (rs_arc_target_bytes s) clock.

(** ** Configuration and service time *)
Definition validate_replay_config (config : CacheReplayConfig) (event_count : Z) : sresult unit :=
  if (cr_capacity_bytes config =? 0) || (cr_maximum_entries config =? 0) || (10000000 <? event_count)
     || existsb (λ p, tr_bytes_per_second p =? 0) [cr_resident config; cr_local config; cr_gateway config] then
    state_error "cache replay configuration is invalid"
  else Ok tt.
Definition profile (config : CacheReplayConfig) (tier : CacheReplayTier) : ReplayTierProfile :=
  match tier with Resident => cr_resident config | Local_tier => cr_local config | Gateway => cr_gateway config end.
Definition replay_service_ns (p : ReplayTierProfile) (retention : RetentionInputs) : Z :=
  let transfer :=
    Z.min (saturating_add128 (saturating_mul128 (ri_physical_bytes retention) 1000000000)
             (tr_bytes_per_second p - 1) / tr_bytes_per_second p) (u64_bound - 1) in
  saturating_add (saturating_add (saturating_add (tr_fixed_latency_ns p) transfer)
    (ri_best_restore_ns retention)) (ri_queue_interference_ns retention).

(** The map from tiers to availability. *)
Notation Availability := (CacheReplayTier → bool).
Definition initial_availability (config : CacheReplayConfig) : Availability :=
  λ tier, tr_initially_available (profile config tier).
Definition set_available (tier : CacheReplayTier) (b : bool) (a : Availability) : Availability :=
  λ t, if decide (t = tier) then b else a t.

(** ** Ghost lists *)
Fixpoint retain_unseen (seen : gset Id32) (l : list Id32) : gset Id32 * list Id32 :=
  match l with
  | [] => (seen, [])
  | key :: l =>
      if bool_decide (key ∈ seen) then retain_unseen seen l
      else let '(seen, l) := retain_unseen ({[key]} ∪ seen) l in (seen, key :: l)
  end.
Fixpoint trim_loop (fuel : nat) (maximum_entries : Z) (recent frequent : list Id32) : list Id32 * list Id32 :=
  if zlen recent + zlen frequent <=? maximum_entries then (recent, frequent) else
  match fuel with
  | O => (recent, frequent)
  | S fuel =>
      if zlen frequent <=? zlen recent then trim_loop fuel maximum_entries (tail recent) frequent
      else trim_loop fuel maximum_entries recent (tail frequent)
  end.
Definition trim_ghosts (recent frequent : list Id32) (maximum_entries : Z) : list Id32 * list Id32 :=
  let '(seen, recent) := retain_unseen ∅ recent in
  let '(_, frequent) := retain_unseen seen frequent in
  trim_loop (length recent + length frequent) maximum_entries recent frequent.

Section replay.
Context `{Crypto}.
Implicit Types (s : ReplayState) (key : Id32).

(** ** Hits and insertions *)
Definition hit_entry (tick : Z) (retention : RetentionInputs) (e : ReplayEntry) : ReplayEntry :=
  let frequency := saturating_add (en_frequency e) 1 in
  mkReplayEntry retention frequency tick true (en_hot e || (2 <=? frequency)).
Definition replay_hit key (retention : RetentionInputs) s : ReplayState :=
  let s := set_entries (alter (hit_entry (rs_tick s) retention) key (rs_entries s)) (rs_resident_bytes s) s in
  match rs_policy s with
  | TinyLfu => set_tiny (record_access_with_retention key retention (rs_tick s) (rs_tiny_lfu s)) s
  | Arc =>
      let '(found, recent) := remove_key (rs_arc_recent s) key in
      if found then
        set_arc recent (rs_arc_frequent s ++ [key]) (rs_arc_recent_ghost s) (rs_arc_frequent_ghost s)
          (rs_arc_target_bytes s) s
      else
        set_arc recent (touch (rs_arc_frequent s) key) (rs_arc_recent_ghost s) (rs_arc_frequent_ghost s)
          (rs_arc_target_bytes s) s
  | ClockPro | Lru | Lfu => s
  end.
Definition replay_insert key (retention : RetentionInputs) s : ReplayState :=
  let s := set_entries (<[key := mkReplayEntry retention 1 (rs_tick s) true false]> (rs_entries s))
             (saturating_add (rs_resident_bytes s) (ri_physical_bytes retention)) s in
  match rs_policy s with
  | TinyLfu => set_tiny (register_with_retention key retention (rs_tick s) (rs_tiny_lfu s)) s
  | Arc =>
      let '(was_recent, recent_ghost) := remove_key (rs_arc_recent_ghost s) key in
      if was_recent then
        set_arc (rs_arc_recent s) (rs_arc_frequent s ++ [key]) recent_ghost (rs_arc_frequent_ghost s)
          (Z.min (saturating_add (rs_arc_target_bytes s) (ri_physical_bytes retention))
                 (cr_capacity_bytes (rs_config s))) s
      else
        let '(was_frequent, frequent_ghost) := remove_key (rs_arc_frequent_ghost s) key in
        if was_frequent then
          set_arc (rs_arc_recent s) (rs_arc_frequent s ++ [key]) recent_ghost frequent_ghost
            (saturating_sub (rs_arc_target_bytes s) (ri_physical_bytes retention)) s
        else
          set_arc (rs_arc_recent s ++ [key]) (rs_arc_frequent s) recent_ghost frequent_ghost
            (rs_arc_target_bytes s) s
  | ClockPro => set_clock (rs_clock s ++ [key]) s
  | Lru | Lfu => s
  end.

(** ** Victims *)
Definition lru_cmp (a b : Id32 * ReplayEntry) : comparison :=
  then_cmp (Z.compare (en_last_access a.2) (en_last_access b.2)) (bytes_cmp a.1 b.1).
Definition lfu_cmp (a b : Id32 * ReplayEntry) : comparison :=
  then_cmp (Z.compare (en_frequency a.2) (en_frequency b.2)) (lru_cmp a b).
Definition entry_bytes s key : Z :=
  match rs_entries s !! key with Some e => ri_physical_bytes (en_retention e) | None => 0 end.
(** The second-chance sweep of the clock: at most [fuel] steps. *)
Definition spare (e : ReplayEntry) : ReplayEntry :=
  mkReplayEntry (en_retention e) (en_frequency e) (en_last_access e) false (en_hot e || (2 <=? en_frequency e)).
Definition cool (e : ReplayEntry) : ReplayEntry :=
  mkReplayEntry (en_retention e) (en_frequency e) (en_last_access e) (en_referenced e) false.
Fixpoint clock_sweep (fuel : nat) s : option Id32 * ReplayState :=
  match fuel with
  | O => (head (rs_clock s), s)
  | S fuel =>
      match rs_clock s with
      | [] => (None, s)
      | key :: clock =>
          match rs_entries s !! key with
          | None => clock_sweep fuel (set_clock clock s)
          | Some entry =>
              let s := set_clock (clock ++ [key]) s in
              if en_referenced entry then
                clock_sweep fuel (set_entries (<[key := spare entry]> (rs_entries s)) (rs_resident_bytes s) s)
              else if en_hot entry then
                clock_sweep fuel (set_entries (<[key := cool entry]> (rs_entries s)) (rs_resident_bytes s) s)
              else (Some key, s)
          end
      end
  end.
Definition replay_victim s : option Id32 * ReplayState :=
  match rs_policy s with
  | Lru => (fst <$> min_by lru_cmp (btree_iter (rs_entries s)), s)
  | Lfu => (fst <$> min_by lfu_cmp (btree_iter (rs_entries s)), s)
  | TinyLfu => (policy_victim (rs_tiny_lfu s), s)
  | Arc =>
      let recent_bytes := foldl (λ sum key, saturating_add sum (entry_bytes s key)) 0 (rs_arc_recent s) in
      if (rs_arc_target_bytes s <? recent_bytes) || bool_decide (rs_arc_frequent s = []) then
        (head (rs_arc_recent s), s)
      else (head (rs_arc_frequent s), s)
  | ClockPro => clock_sweep (Nat.max (length (rs_clock s) * 3) 1) s
  end.
Definition replay_remove key s : ReplayState :=
  match rs_entries s !! key with
  | None => s
  | Some entry =>
      let s := set_entries (delete key (rs_entries s))
                 (saturating_sub (rs_resident_bytes s) (ri_physical_bytes (en_retention entry))) s in
      match rs_policy s with
      | TinyLfu => set_tiny (policy_remove key (rs_tiny_lfu s)) s
      | Arc =>
          let '(was_recent, recent) := remove_key (rs_arc_recent s) key in
          let '(frequent, recent_ghost, frequent_ghost) :=
            if was_recent then (rs_arc_frequent s, rs_arc_recent_ghost s ++ [key], rs_arc_frequent_ghost s)
            else
              let '(was_frequent, frequent) := remove_key (rs_arc_frequent s) key in
              (frequent, rs_arc_recent_ghost s,
               if was_frequent then rs_arc_frequent_ghost s ++ [key] else rs_arc_frequent_ghost s) in
          let '(recent_ghost, frequent_ghost) :=
            trim_ghosts recent_ghost frequent_ghost (cr_maximum_entries (rs_config s)) in
          set_arc recent frequent recent_ghost frequent_ghost (rs_arc_target_bytes s) s
      | ClockPro => set_clock (remove_key (rs_clock s) key).2 s
      | Lru | Lfu => s
      end
  end.

Definition crowded (incoming : Z) s : bool :=
  (cr_capacity_bytes (rs_config s) <? saturating_add (rs_resident_bytes s) incoming)
  || (cr_maximum_entries (rs_config s) <=? Z.of_nat (size (rs_entries s))).
(** [None]: the fuel is exhausted. *)
Fixpoint make_room (fuel : nat) (incoming : Z) (preferred : option Id32) s (evictions : list Id32)
    : option (bool * ReplayState * list Id32) :=
  if negb (crowded incoming s) then Some (true, s, evictions) else
  match fuel with
  | O => None
  | S fuel =>
      let '(victim, s) :=
        match (key ← preferred; if decide (is_Some (rs_entries s !! key)) then Some key else None) with
        | Some key => (Some key, s)
        | None => replay_victim s
        end in
      match victim with
      | None => Some (false, s, evictions)
      | Some victim => make_room fuel incoming None (replay_remove victim s) (evictions ++ [victim])
      end
  end.

(** ** The replay loop *)
Definition projected_utilization (config : CacheReplayConfig) s (retention : RetentionInputs) : Z :=
  Z.min (saturating_mul (saturating_add (rs_resident_bytes s) (ri_physical_bytes retention)) 1000
         / cr_capacity_bytes config) 1000.
(** The outcome of the TinyLFU admission, or no preference for the others. *)
Definition replay_admission (config : CacheReplayConfig) key (retention : RetentionInputs) s
    : sresult (option (option Id32)) * ReplayState :=
  match rs_policy s with
  | TinyLfu =>
      let '(decision, tiny) :=
        automatic_admission_decision key retention (projected_utilization config s retention) (rs_tiny_lfu s) in
      (decision ← decision;
       match decision with
       | Admit => Ok (Some None)
       | AdmitOverVictim victim => Ok (Some (Some victim))
       | RejectLowerFrequency | RejectPromotionStopped => Ok None
       end, set_tiny tiny s)
  | _ => (Ok (Some None), s)
  end.

Definition add_outcome (o : CacheReplayOutcome) (r : CacheReplayResult) : CacheReplayResult :=
  mkCacheReplayResult (re_outcomes r ++ [o]) (re_evictions r)
    (match o with Hit => saturating_add (re_hits r) 1 | _ => re_hits r end)
    (match o with Hit => re_misses r | _ => saturating_add (re_misses r) 1 end)
    (match o with MissAdmitted => saturating_add (re_admitted r) 1 | _ => re_admitted r end)
    (match o with MissRejected => saturating_add (re_rejected r) 1 | _ => re_rejected r end)
    (match o with SourceUnavailable => saturating_add (re_source_failures r) 1 | _ => re_source_failures r end)
    (re_resident_bytes r) (re_total_service_ns r).
Definition add_service (ns : Z) (r : CacheReplayResult) : CacheReplayResult :=
  mkCacheReplayResult (re_outcomes r) (re_evictions r) (re_hits r) (re_misses r) (re_admitted r) (re_rejected r)
    (re_source_failures r) (re_resident_bytes r) (saturating_add (re_total_service_ns r) ns).
Definition set_evictions (evictions : list Id32) (r : CacheReplayResult) : CacheReplayResult :=
  mkCacheReplayResult (re_outcomes r) evictions (re_hits r) (re_misses r) (re_admitted r) (re_rejected r)
    (re_source_failures r) (re_resident_bytes r) (re_total_service_ns r).

Definition replay_access (config : CacheReplayConfig) (availability : Availability) key
    (source_tier : CacheReplayTier) (retention : RetentionInputs) s (result : CacheReplayResult)
    : sresult (ReplayState * CacheReplayResult) :=
  retention ← retention_validate retention;
  let s := set_tick (saturating_add (rs_tick s) 1) s in
  if decide (is_Some (rs_entries s !! key)) then
    Ok (replay_hit key retention s, add_outcome Hit result) else
  if negb (availability source_tier) then
    Ok (s, add_outcome SourceUnavailable (add_service (ri_avoided_prefill_ns retention) result)) else
  let result := add_service (replay_service_ns (profile config source_tier) retention) result in
  let '(admission, s) := replay_admission config key retention s in
  admission ← admission;
  match admission with
  | None => Ok (s, add_outcome MissRejected result)
  | Some preferred_victim =>
      if cr_capacity_bytes config <? ri_physical_bytes retention then
        Ok (s, add_outcome MissRejected result) else
      room ← expect (make_room (S (size (rs_entries s))) (ri_physical_bytes retention) preferred_victim s
                       (re_evictions result)) "make_room does not terminate";
      let '(fits, s, evictions) := room in
      let result := set_evictions evictions result in
      if negb fits then Ok (s, add_outcome MissRejected result)
      else Ok (replay_insert key retention s, add_outcome MissAdmitted result)
  end.
Fixpoint replay_events (config : CacheReplayConfig) (availability : Availability)
    (events : list CacheTraceEvent) s (result : CacheReplayResult) : sresult (ReplayState * CacheReplayResult) :=
  match events with
  | [] => Ok (s, result)
  | SourceFailed tier :: events => replay_events config (set_available tier false availability) events s result
  | SourceRecovered tier :: events => replay_events config (set_available tier true availability) events s result
  | Access key tier retention :: events =>
      '(s, result) ← replay_access config availability key tier retention s result;
      replay_events config availability events s result
  end.

Definition initial_replay_state (policy : CacheReplayPolicy) (config : CacheReplayConfig) (tiny : TinyLfuPolicy)
    : ReplayState :=
  mkReplayState policy config ∅ 0 0 tiny [] [] [] [] (cr_capacity_bytes config / 2) [].
Definition replay_cache_policy (policy : CacheReplayPolicy) (config : CacheReplayConfig)
    (events : list CacheTraceEvent) : sresult CacheReplayResult :=
  _ ← validate_replay_config config (zlen events);
  tiny_config ← TinyLfuConfig_production (cr_capacity_bytes config);
  tiny ← TinyLfuPolicy_new tiny_config;
  '(s, result) ← replay_events config (initial_availability config) events
                   (initial_replay_state policy config tiny) CacheReplayResult_default;
  Ok (mkCacheReplayResult (re_outcomes result) (re_evictions result) (re_hits result) (re_misses result)
        (re_admitted result) (re_rejected result) (re_source_failures result) (rs_resident_bytes s)
        (re_total_service_ns result)).

(** ** replay_tinylfu *)
Definition replay_policy_event (event : PolicyReplayEvent) (p : TinyLfuPolicy) (result : PolicyReplayResult)
    : TinyLfuPolicy * PolicyReplayResult :=
  match event with
  | PAccess key bytes avoided now => (record_access key bytes avoided now p, result)
  | PAdmission key bytes avoided utilization =>
      (p, mkPolicyReplayResult (pr_admissions result ++ [admission_decision p key bytes avoided utilization])
            (pr_victims result))
  | PEvict =>
      let victim := policy_victim p in
      (match victim with Some victim => policy_remove victim p | None => p end,
       mkPolicyReplayResult (pr_admissions result) (pr_victims result ++ [victim]))
  end.
Definition replay_tinylfu (config : TinyLfuConfig) (events : list PolicyReplayEvent) : sresult PolicyReplayResult :=
  policy ← TinyLfuPolicy_new config;
  Ok (foldl (λ '(p, result) event, replay_policy_event event p result)
        (policy, mkPolicyReplayResult [] []) events).2.
End replay.
