(* ===== verification/CacheReplayLaws.v ===== *)
(** * Laws of the cache replay

    For traces in which an object keeps its size, the resident bytes are the
    sum of the resident objects, within the configured capacity and entry
    count, under each of the five policies; [make_room] terminates and always
    makes room; and every access is one of the admissible cache transitions. *)
From Stdlib Require Import ZArith Lia.
From stdpp Require Import base tactics numbers list strings option sorting gmap.
From S2P Require Import Prelude Bytes Canonical Crypto StorePolicy StorePolicyLaws CacheReplay.

#[export] Instance CacheReplayOutcome_eq_dec : EqDecision CacheReplayOutcome.
Proof. solve_decision. Defined.

(** ** Sizes of sets of objects *)
Section sizes.
Context (sz : Id32 → Z) (Hsz : ∀ k, 0 ≤ sz k).
Implicit Types (D : gset Id32) (k : Id32).
Definition sizes D : Z := zsum (sz <$> elements D).
Lemma sizes_empty : sizes ∅ = 0.
Proof. unfold sizes. by rewrite elements_empty. Qed.
Lemma sizes_insert k D : k ∉ D → sizes ({[k]} ∪ D) = sz k + sizes D.
Proof. intros Hk. unfold sizes. by rewrite (elements_union_singleton _ _ Hk). Qed.
Lemma sizes_delete k D : k ∈ D → sizes (D ∖ {[k]}) = sizes D - sz k.
Proof.
  intros Hk. rewrite (union_difference_singleton_L k D Hk) at 2. rewrite sizes_insert by set_solver. lia.
Qed.
Lemma zsum_map_nonneg (l : list Id32) : 0 ≤ zsum (sz <$> l).
Proof. unfold zsum. induction l as [|k l IH]; [done|]. rewrite fmap_cons. cbn [foldr]. specialize (Hsz k). lia. Qed.
Lemma sizes_list (l : list Id32) D : NoDup l → (∀ k, k ∈ l → k ∈ D) → zsum (sz <$> l) ≤ sizes D.
Proof.
  intros Hd Hl. unfold sizes.
  assert (l ⊆+ elements D) as Hs by (apply NoDup_submseteq; [done|]; set_solver).
  apply submseteq_Permutation in Hs as [l' ->]. rewrite fmap_app, zsum_app. pose proof (zsum_map_nonneg l'). lia.
Qed.
Lemma sizes_nonneg D : 0 ≤ sizes D.
Proof. apply zsum_map_nonneg. Qed.
Lemma sizes_mono D D' : D ⊆ D' → sizes D ≤ sizes D'.
Proof. intros Hs. apply sizes_list; [apply NoDup_elements|set_solver]. Qed.

(** ** The invariant of the replay *)
Definition tiny_ok (tiny : TinyLfuPolicy) D : Prop :=
  policy_wf tiny ∧ dom (tp_entries tiny) = D ∧ ∀ k, k ∈ D → bytes_of (tp_entries tiny) k = sz k.
Definition keys_of (l : list Id32) D : Prop := NoDup l ∧ ∀ k, k ∈ l ↔ k ∈ D.
Definition policy_ok (s : ReplayState) D : Prop :=
  match rs_policy s with
  | TinyLfu => tiny_ok (rs_tiny_lfu s) D
  | Arc => keys_of (rs_arc_recent s ++ rs_arc_frequent s) D ∧ 0 ≤ rs_arc_target_bytes s
  | ClockPro => keys_of (rs_clock s) D
  | Lru | Lfu => True
  end.
Record replay_inv (s : ReplayState) : Prop := {
  ri_total : rs_resident_bytes s = sizes (dom (rs_entries s));
  ri_sized k e : rs_entries s !! k = Some e → ri_physical_bytes (en_retention e) = sz k;
  ri_capacity : rs_resident_bytes s ≤ cr_capacity_bytes (rs_config s) < u64_bound - 1;
  ri_policy : policy_ok s (dom (rs_entries s))
}.
Lemma keys_of_snoc l D k : keys_of l D → k ∉ D → keys_of (l ++ [k]) ({[k]} ∪ D).
Proof.
  intros [Hd Hl] Hk. split.
  - apply NoDup_app. split_and!; [done| |apply NoDup_singleton]. intros x Hx. apply Hl in Hx. set_solver.
  - intros x. rewrite elem_of_app, list_elem_of_singleton, Hl. set_solver.
Qed.
Lemma keys_of_perm l l' D : l ≡ₚ l' → keys_of l D → keys_of l' D.
Proof. intros Hp [Hd Hl]. split; [by rewrite <-Hp|]. intros x. by rewrite <-Hl, Hp. Qed.
Lemma keys_of_remove l D k : keys_of l D → keys_of (remove_key l k).2 (D ∖ {[k]}).
Proof.
  intros [Hd Hl]. destruct (remove_key_NoDup l k Hd) as [Hd' He]. split; [done|]. intros x. rewrite He, Hl.
  set_solver.
Qed.
Lemma keys_of_nonempty l D k : keys_of l D → k ∈ D → ∃ v, head l = Some v ∧ v ∈ D.
Proof. intros [_ Hl] Hk. apply Hl in Hk. destruct l as [|v l]; [set_solver|]. exists v. split; [done|]. apply Hl.
  left. Qed.
Lemma remove_key_app_l a b k : k ∈ a → (remove_key (a ++ b) k).2 = (remove_key a k).2 ++ b.
Proof.
  induction a as [|c a IH]; [set_solver|]. intros Hk. cbn [app remove_key]. destruct (bytes_eqb c k) eqn:E; [done|].
  apply elem_of_cons in Hk as [->|Hk]; [by rewrite bytes_eqb_refl in E|]. specialize (IH Hk).
  destruct (remove_key (a ++ b) k), (remove_key a k). cbn [snd] in *. by subst.
Qed.
Lemma remove_key_app_r a b k : k ∉ a → (remove_key (a ++ b) k).2 = a ++ (remove_key b k).2.
Proof.
  induction a as [|c a IH]; [done|]. rewrite not_elem_of_cons. intros [Hc Ha]. cbn [app remove_key].
  destruct (bytes_eqb c k) eqn:E; [apply bytes_eqb_eq in E; congruence|]. specialize (IH Ha).
  destruct (remove_key (a ++ b) k). cbn [snd] in *. by subst.
Qed.
Lemma remove_key_split l k : remove_key l k = (bool_decide (k ∈ l), (remove_key l k).2).
Proof.
  pose proof (remove_key_found l k) as Hf. destruct (remove_key l k) as [b q]. cbn [fst snd] in *. f_equal.
  apply eq_true_iff_eq. by rewrite bool_decide_eq_true.
Qed.

Section policies.
Context `{CL : CryptoLaws}.
Implicit Types (s : ReplayState) (r : RetentionInputs).

(** *** TinyLFU beside the replay entries *)
Lemma tiny_protected_sum tiny D : tiny_ok tiny D →
  tp_protected_bytes tiny = zsum (sz <$> tp_protected tiny) ∧ (∀ k, k ∈ tp_protected tiny → k ∈ D).
Proof.
  intros (Hw & Hdom & Hby). pose proof (pw_queues _ Hw) as Hq.
  assert (∀ k, k ∈ tp_protected tiny → k ∈ D) as Hin.
  { intros k Hk. apply (qw_prot _ _ _ _ Hq) in Hk. rewrite <-Hdom. apply elem_of_dom.
    by destruct (tp_entries tiny !! k). }
  split; [|done]. rewrite (qw_bytes _ _ _ _ Hq). f_equal. apply list_fmap_ext. intros i k Hk.
  apply Hby, Hin. by eapply list_elem_of_lookup_2.
Qed.
Lemma tiny_access tiny D k r now : tiny_ok tiny D → k ∈ D → ri_physical_bytes r = sz k →
  sizes D < u64_bound → retention_validate r = Ok r →
  tiny_ok (record_access_with_retention k r now tiny) D.
Proof.
  intros Ht Hk Hr Hu Hv. destruct (tiny_protected_sum _ _ Ht) as [Hsum Hin]. destruct Ht as (Hw & Hdom & Hby).
  pose proof (pw_queues _ Hw) as Hq.
  assert (is_Some (tp_entries tiny !! k)) as [e E] by (apply elem_of_dom; by rewrite Hdom).
  assert (pe_object_bytes e = sz k) as He by (rewrite <-(Hby k Hk); unfold bytes_of; by rewrite E).
  destruct (record_access_keeps k r now tiny) as (Hw' & _ & Hdom' & _ & Hby'); [done|by rewrite Hr| |done|].
  - unfold access_growth. rewrite E. destruct (decide (pe_segment e = Protected)) as [Hs|Hs].
    + rewrite Hsum, Z.add_0_r. eapply Z.le_lt_trans; [apply sizes_list; [apply Hq|done]|done].
    + rewrite Hsum, He. rewrite Z.add_comm. change (zsum (sz <$> k :: tp_protected tiny) < u64_bound).
      eapply Z.le_lt_trans; [apply (sizes_list _ D)|done].
      * apply list.NoDup_cons. split; [|apply Hq]. rewrite (qw_prot _ _ _ _ Hq), E. cbn. congruence.
      * set_solver.
  - split_and!; [done|rewrite Hdom', Hdom; set_solver|]. intros x Hx. rewrite Hby'. unfold access_bytes. rewrite E.
    case_decide; [by subst|by apply Hby].
Qed.
Lemma tiny_register tiny D k r now : tiny_ok tiny D → k ∉ D → ri_physical_bytes r = sz k →
  retention_validate r = Ok r → tiny_ok (register_with_retention k r now tiny) ({[k]} ∪ D).
Proof.
  intros (Hw & Hdom & Hby) Hk Hr Hv. destruct (register_keeps k r now tiny Hw) as (Hw' & _ & _ & Hreg);
    [by rewrite Hr|].
  destruct Hreg as [Hdom' Hby']; [done|apply not_elem_of_dom; by rewrite Hdom|].
  split_and!; [done|by rewrite Hdom', Hdom|]. intros x Hx. rewrite Hby'. case_decide; [by subst|]. apply Hby.
  set_solver.
Qed.
Lemma tiny_remove tiny D k : tiny_ok tiny D → tiny_ok (policy_remove k tiny) (D ∖ {[k]}).
Proof.
  intros (Hw & Hdom & Hby). destruct (remove_keeps k tiny Hw) as (Hw' & _ & _ & He). split_and!; [done| |].
  - rewrite He, dom_delete_L, Hdom. done.
  - intros x Hx. rewrite He. unfold bytes_of. rewrite lookup_delete_ne by set_solver. apply Hby. set_solver.
Qed.

(** *** Hits, insertions, removals *)
Lemma hit_inv k r s : replay_inv s → is_Some (rs_entries s !! k) → ri_physical_bytes r = sz k →
  retention_validate r = Ok r →
  replay_inv (replay_hit k r s) ∧ dom (rs_entries (replay_hit k r s)) = dom (rs_entries s) ∧
  rs_config (replay_hit k r s) = rs_config s ∧ rs_policy (replay_hit k r s) = rs_policy s.
Proof.
  intros [Ht Hs Hc Hp] Hk Hr Hv. pose proof Hk as Hk'. apply elem_of_dom in Hk'.
  assert (dom (alter (hit_entry (rs_tick s) r) k (rs_entries s)) = dom (rs_entries s)) as Hdom by apply dom_alter_L.
  assert (∀ x e, alter (hit_entry (rs_tick s) r) k (rs_entries s) !! x = Some e →
    ri_physical_bytes (en_retention e) = sz x) as Hs'.
  { intros x e. destruct (decide (x = k)) as [->|Hx]; [|rewrite lookup_alter_ne by done; apply Hs].
    rewrite lookup_alter_eq. destruct Hk as [e0 ->]. intros [= <-]. done. }
  unfold replay_hit, policy_ok in *. cbn [rs_policy set_entries]. destruct (rs_policy s) eqn:Ep.
  - split_and!; try done. split; try done; [by cbn; rewrite Hdom|]. unfold policy_ok. cbn. by rewrite Ep.
  - split_and!; try done. split; try done; [by cbn; rewrite Hdom|]. unfold policy_ok. cbn. by rewrite Ep.
  - split_and!; try done. split; try done; [by cbn; rewrite Hdom|]. unfold policy_ok. cbn. rewrite Ep, Hdom.
    apply tiny_access; try done. rewrite <-Ht. lia.
  - cbn [rs_arc_recent rs_arc_frequent set_entries]. rewrite remove_key_split. destruct Hp as [[Hd Hl] Htg].
    case_bool_decide as Hin.
    + split_and!; try done. split; try done; [by cbn; rewrite Hdom|]. unfold policy_ok. cbn. rewrite Ep, Hdom.
      split; [|done]. apply (keys_of_perm (rs_arc_recent s ++ rs_arc_frequent s)); [|done].
      rewrite (remove_key_perm _ _ Hin) at 1. cbn. rewrite (Permutation_middle). f_equiv.
      by rewrite Permutation_app_comm.
    + assert (k ∈ rs_arc_frequent s) as Hf by (apply Hl in Hk'; set_solver).
      split_and!; try done. split; try done; [by cbn; rewrite Hdom|]. unfold policy_ok. cbn. rewrite Ep, Hdom.
      split; [|done]. rewrite (remove_key_absent _ _ Hin).
      apply (keys_of_perm (rs_arc_recent s ++ rs_arc_frequent s)); [|done].
      f_equiv. unfold touch. rewrite (remove_key_perm _ _ Hf) at 1. by rewrite Permutation_app_comm.
  - split_and!; try done. split; try done; [by cbn; rewrite Hdom|]. unfold policy_ok. cbn. by rewrite Ep, Hdom.
Qed.

(** The parts of the state that queue changes leave alone. *)
Definition same_cache s s' : Prop :=
  dom (rs_entries s') = dom (rs_entries s) ∧ rs_config s' = rs_config s ∧ rs_policy s' = rs_policy s.
Lemma same_cache_refl s : same_cache s s.
Proof. done. Qed.

Lemma insert_inv k r s : replay_inv s → rs_entries s !! k = None → ri_physical_bytes r = sz k →
  retention_validate r = Ok r → rs_resident_bytes s + sz k ≤ cr_capacity_bytes (rs_config s) →
  replay_inv (replay_insert k r s) ∧ dom (rs_entries (replay_insert k r s)) = {[k]} ∪ dom (rs_entries s) ∧
  rs_config (replay_insert k r s) = rs_config s ∧ rs_policy (replay_insert k r s) = rs_policy s.
Proof.
  intros [Ht Hs Hc Hp] Hk Hr Hv Hfit. pose proof Hk as Hk'. apply not_elem_of_dom in Hk'.
  assert (∀ e, dom (<[k := e]> (rs_entries s)) = {[k]} ∪ dom (rs_entries s)) as Hdom by (intros; apply dom_insert_L).
  assert (saturating_add (rs_resident_bytes s) (ri_physical_bytes r) = sizes ({[k]} ∪ dom (rs_entries s))) as Hb.
  { rewrite sizes_insert, <-Ht, Hr by done. unfold saturating_add. rewrite Z.min_l; lia. }
  assert (saturating_add (rs_resident_bytes s) (ri_physical_bytes r) ≤ cr_capacity_bytes (rs_config s)) as Hb'.
  { unfold saturating_add. rewrite Hr. lia. }
  assert (∀ e x e', en_retention e = r → <[k := e]> (rs_entries s) !! x = Some e' →
    ri_physical_bytes (en_retention e') = sz x) as Hs'.
  { intros e x e' He. destruct (decide (x = k)) as [->|Hx];
      [rewrite lookup_insert_eq|rewrite lookup_insert_ne by done; apply Hs].
    intros [= <-]. by rewrite He. }
  unfold replay_insert, policy_ok in *. cbn [rs_policy set_entries]. destruct (rs_policy s) eqn:Ep.
  - split_and!; [|apply Hdom|done|done]. split; cbn; [by rewrite Hdom|intros x e0; by apply (Hs' _ x e0)|lia|].
    unfold policy_ok. cbn. by rewrite Ep.
  - split_and!; [|apply Hdom|done|done]. split; cbn; [by rewrite Hdom|intros x e0; by apply (Hs' _ x e0)|lia|].
    unfold policy_ok. cbn. by rewrite Ep.
  - split_and!; [|apply Hdom|done|done]. split; cbn; [by rewrite Hdom|intros x e0; by apply (Hs' _ x e0)|lia|].
    unfold policy_ok. cbn. rewrite Ep, Hdom.
    by apply tiny_register.
  - cbn [rs_arc_recent_ghost rs_arc_frequent_ghost rs_arc_target_bytes rs_config set_entries].
    destruct Hp as [Hp Htg].
    assert (0 ≤ saturating_sub (rs_arc_target_bytes s) (ri_physical_bytes r)) by (unfold saturating_sub; lia).
    assert (0 ≤ Z.min (saturating_add (rs_arc_target_bytes s) (ri_physical_bytes r)) (cr_capacity_bytes (rs_config
      s))).
    { pose proof (sizes_nonneg (dom (rs_entries s))). specialize (Hsz k). unfold saturating_add, u64_bound. lia. }
    assert (keys_of (rs_arc_recent s ++ (rs_arc_frequent s ++ [k])) ({[k]} ∪ dom (rs_entries s))) as Hf.
    { rewrite app_assoc. by apply keys_of_snoc. }
    assert (keys_of ((rs_arc_recent s ++ [k]) ++ rs_arc_frequent s) ({[k]} ∪ dom (rs_entries s))) as Hrec.
    { apply (keys_of_perm (rs_arc_recent s ++ (rs_arc_frequent s ++ [k]))); [|done]. rewrite <-app_assoc. f_equiv.
      by rewrite Permutation_app_comm. }
    destruct (remove_key (rs_arc_recent_ghost s) k) as [[] rg];
      [|destruct (remove_key (rs_arc_frequent_ghost s) k) as [[] fg]];
      (split_and!; [|apply Hdom|done|done]; split; cbn; [by rewrite Hdom|intros x e0; by apply (Hs' _ x e0)|lia|];
        unfold policy_ok; cbn; by rewrite Ep, Hdom).
  - split_and!; [|apply Hdom|done|done]. split; cbn; [by rewrite Hdom|intros x e0; by apply (Hs' _ x e0)|lia|].
    unfold policy_ok. cbn. rewrite Ep, Hdom.
    by apply keys_of_snoc.
Qed.
Lemma remove_inv k s : replay_inv s → k ∈ dom (rs_entries s) →
  replay_inv (replay_remove k s) ∧ dom (rs_entries (replay_remove k s)) = dom (rs_entries s) ∖ {[k]} ∧
  rs_config (replay_remove k s) = rs_config s ∧ rs_policy (replay_remove k s) = rs_policy s.
Proof.
  intros [Ht Hs Hc Hp] Hk. pose proof Hk as [e E]%elem_of_dom.
  assert (dom (delete k (rs_entries s)) = dom (rs_entries s) ∖ {[k]}) as Hdom by apply dom_delete_L.
  pose proof (sizes_delete k _ Hk) as Hsd. pose proof (sizes_nonneg (dom (rs_entries s) ∖ {[k]})) as Hsn.
  assert (saturating_sub (rs_resident_bytes s) (ri_physical_bytes (en_retention e)) =
    sizes (dom (rs_entries s) ∖ {[k]})) as Hb.
  { rewrite (Hs _ _ E), Ht. unfold saturating_sub. lia. }
  assert (sizes (dom (rs_entries s) ∖ {[k]}) ≤ cr_capacity_bytes (rs_config s) < u64_bound - 1) as Hb' by (specialize
    (Hsz k); lia).
  assert (∀ x e', delete k (rs_entries s) !! x = Some e' → ri_physical_bytes (en_retention e') = sz x) as Hs'.
  { intros x e' Hx. apply lookup_delete_Some in Hx as [_ Hx]. eauto. }
  unfold replay_remove, policy_ok in *. rewrite E. cbn [rs_policy set_entries]. destruct (rs_policy s) eqn:Ep.
  - split_and!; try done. split; cbn; [by rewrite Hdom|done|by rewrite Hb|]. unfold policy_ok. cbn. by rewrite Ep.
  - split_and!; try done. split; cbn; [by rewrite Hdom|done|by rewrite Hb|]. unfold policy_ok. cbn. by rewrite Ep.
  - split_and!; try done. split; cbn; [by rewrite Hdom|done|by rewrite Hb|]. unfold policy_ok. cbn. rewrite Ep, Hdom.
    by apply tiny_remove.
  - cbn [rs_arc_recent rs_arc_frequent rs_arc_recent_ghost rs_arc_frequent_ghost rs_config set_entries].
    destruct Hp as [Hp Htg]. pose proof (keys_of_remove _ _ k Hp) as Hkr.
    rewrite (remove_key_split (rs_arc_recent s)). case_bool_decide as Hin.
    + rewrite remove_key_app_l in Hkr by done. destruct (trim_ghosts _ _ _) as [rg fg].
      split_and!; try done. split; cbn; [by rewrite Hdom|done|by rewrite Hb|]. unfold policy_ok. cbn.
      by rewrite Ep, Hdom.
    + rewrite remove_key_app_r in Hkr by done. rewrite (remove_key_absent _ _ Hin).
      destruct (remove_key (rs_arc_frequent s) k) as [wf fr]. destruct (trim_ghosts _ _ _) as [rg fg].
      split_and!; try done. split; cbn; [by rewrite Hdom|done|by rewrite Hb|]. unfold policy_ok. cbn.
      by rewrite Ep, Hdom.
  - split_and!; try done. split; cbn; [by rewrite Hdom|done|by rewrite Hb|]. unfold policy_ok. cbn. rewrite Ep, Hdom.
    by apply keys_of_remove.
Qed.

(** *** Victims *)
Lemma btree_iter_elem {V} (m : gmap Id32 V) k v : (k, v) ∈ btree_iter m ↔ m !! k = Some v.
Proof. unfold btree_iter. rewrite merge_sort_Permutation. apply elem_of_map_to_list. Qed.
#[local] Instance lru_cmp_total : TotalCmp lru_cmp.
Proof. unfold lru_cmp. apply _. Qed.
#[local] Instance lfu_cmp_total : TotalCmp lfu_cmp.
Proof. unfold lfu_cmp. apply then_cmp_total; apply _. Qed.
Lemma min_entry_ok (cmp : Id32 * ReplayEntry → Id32 * ReplayEntry → comparison) `{!TotalCmp cmp} s k :
  k ∈ dom (rs_entries s) →
  ∃ v, fst <$> min_by cmp (btree_iter (rs_entries s)) = Some v ∧ v ∈ dom (rs_entries s).
Proof.
  intros [e E]%elem_of_dom. pose proof (min_by_spec cmp (btree_iter (rs_entries s))) as Hm.
  destruct (min_by cmp _) as [[v e']|].
  - exists v. split; [done|]. destruct Hm as [Hv _]. apply btree_iter_elem in Hv. by apply elem_of_dom_2 in Hv.
  - apply btree_iter_elem in E. rewrite Hm in E. set_solver.
Qed.
Lemma clock_flag_inv s k e e' : replay_inv s → rs_policy s = ClockPro → rs_entries s !! k = Some e →
  en_retention e' = en_retention e →
  replay_inv (set_entries (<[k := e']> (rs_entries s)) (rs_resident_bytes s) s) ∧
  same_cache s (set_entries (<[k := e']> (rs_entries s)) (rs_resident_bytes s) s).
Proof.
  intros [Ht Hs Hc Hp] Ep E He.
  assert (dom (<[k := e']> (rs_entries s)) = dom (rs_entries s)) as Hdom.
  { rewrite dom_insert_L. apply elem_of_dom_2 in E. set_solver. }
  split; [|by split_and!]. split; cbn; [by rewrite Hdom| |done|].
  - intros x e0. destruct (decide (x = k)) as [->|Hx]; [rewrite lookup_insert_eq|rewrite lookup_insert_ne by done;
      apply Hs].
    intros [= <-]. rewrite He. eauto.
  - unfold policy_ok in *. cbn. by rewrite Ep, Hdom in *.
Qed.
Lemma clock_rotate_inv s k clock : replay_inv s → rs_policy s = ClockPro → rs_clock s = k :: clock →
  replay_inv (set_clock (clock ++ [k]) s).
Proof.
  intros [Ht Hs Hc Hp] Ep Ec. split; try done. unfold policy_ok in *. cbn. rewrite Ep in *. rewrite Ec in Hp.
  eapply keys_of_perm; [|exact Hp]. by rewrite Permutation_app_comm.
Qed.
Lemma clock_sweep_ok fuel s k : replay_inv s → rs_policy s = ClockPro → k ∈ dom (rs_entries s) →
  ∃ v s', clock_sweep fuel s = (Some v, s') ∧ v ∈ dom (rs_entries s) ∧ replay_inv s' ∧ same_cache s s'.
Proof.
  revert s. induction fuel as [|fuel IH]; intros s Hi Ep Hk; cbn [clock_sweep];
    (pose proof (ri_policy _ Hi) as Hp; unfold policy_ok in Hp; rewrite Ep in Hp);
    (destruct (keys_of_nonempty _ _ _ Hp Hk) as (v & Hv & Hvd)).
  { exists v, s. rewrite Hv. done. }
  destruct (rs_clock s) as [|key clock] eqn:Ec; [done|]. injection Hv as ->.
  pose proof Hvd as [e E]%elem_of_dom. rewrite E.
  pose proof (clock_rotate_inv s v clock Hi Ep Ec) as Hr.
  destruct (en_referenced e); [|destruct (en_hot e)].
  - destruct (clock_flag_inv (set_clock (clock ++ [v]) s) v e (spare e) Hr Ep E eq_refl) as [Hi' (Hd & Hc & Hpo)].
    destruct (IH _ Hi' Ep) as (w & s' & Hw & Hwd & Hi'' & (Hd' & Hc' & Hpo')); [by rewrite Hd|].
    exists w, s'. split_and!; [done|by rewrite Hd in Hwd|done|].
    split_and!; [by rewrite Hd', Hd|by rewrite Hc', Hc|by rewrite Hpo', Hpo].
  - destruct (clock_flag_inv (set_clock (clock ++ [v]) s) v e (cool e) Hr Ep E eq_refl) as [Hi' (Hd & Hc & Hpo)].
    destruct (IH _ Hi' Ep) as (w & s' & Hw & Hwd & Hi'' & (Hd' & Hc' & Hpo')); [by rewrite Hd|].
    exists w, s'. split_and!; [done|by rewrite Hd in Hwd|done|].
    split_and!; [by rewrite Hd', Hd|by rewrite Hc', Hc|by rewrite Hpo', Hpo].
  - by exists v, (set_clock (clock ++ [v]) s).
Qed.
Lemma victim_ok s k : replay_inv s → k ∈ dom (rs_entries s) →
  ∃ v s', replay_victim s = (Some v, s') ∧ v ∈ dom (rs_entries s) ∧ replay_inv s' ∧ same_cache s s'.
Proof.
  intros Hi Hk. unfold replay_victim. pose proof (ri_policy _ Hi) as Hp. unfold policy_ok in Hp.
  destruct (rs_policy s) eqn:Ep.
  - destruct (min_entry_ok lru_cmp s k Hk) as (v & -> & Hv). by exists v, s.
  - destruct (min_entry_ok lfu_cmp s k Hk) as (v & -> & Hv). by exists v, s.
  - destruct Hp as (Hw & Hd & _). pose proof (victim_spec _ Hw) as Hv. destruct (policy_victim _) as [v|].
    + exists v, s. split_and!; try done. destruct Hv as (e & E & _). rewrite <-Hd. by apply elem_of_dom_2 in E.
    + rewrite Hv, dom_empty_L in Hd. set_solver.
  - destruct Hp as [Hp Htg]. destruct (keys_of_nonempty _ _ _ Hp Hk) as (v & Hv & Hvd). destruct Hp as [_ Hl].
    destruct (_ <? _) eqn:Eb; cbn [orb].
    + destruct (rs_arc_recent s) as [|w recent] eqn:Er.
      * apply Z.ltb_lt in Eb. cbn in Eb. lia.
      * exists w, s. split_and!; try done. apply Hl. set_solver.
    + case_bool_decide as Ef.
      * rewrite Ef, app_nil_r in Hv. exists v, s. by rewrite Hv.
      * destruct (rs_arc_frequent s) as [|w frequent] eqn:Er; [done|]. exists w, s. split_and!; try done. apply Hl.
        set_solver.
  - by apply (clock_sweep_ok _ s k).
Qed.

(** *** Making room *)
Lemma crowded_false incoming s : crowded incoming s = false ↔
  saturating_add (rs_resident_bytes s) incoming ≤ cr_capacity_bytes (rs_config s) ∧
  Z.of_nat (size (rs_entries s)) < cr_maximum_entries (rs_config s).
Proof. unfold crowded. rewrite orb_false_iff, Z.ltb_ge, Z.leb_gt. done. Qed.
Lemma empty_not_crowded incoming s : replay_inv s → 0 ≤ incoming ≤ cr_capacity_bytes (rs_config s) →
  1 ≤ cr_maximum_entries (rs_config s) → dom (rs_entries s) = ∅ → crowded incoming s = false.
Proof.
  intros Hi Hin Hm Hd. apply crowded_false. rewrite <-size_dom, Hd, size_empty. split; [|lia].
  rewrite (ri_total _ Hi), Hd, sizes_empty. unfold saturating_add. lia.
Qed.
Definition evicted s s' (out : list Id32) : Prop :=
  NoDup out ∧ (∀ k, k ∈ out → k ∈ dom (rs_entries s)) ∧ dom (rs_entries s') = dom (rs_entries s) ∖ list_to_set out.
Lemma make_room_ok fuel incoming preferred s evictions : replay_inv s →
  0 ≤ incoming ≤ cr_capacity_bytes (rs_config s) → 1 ≤ cr_maximum_entries (rs_config s) →
  (size (rs_entries s) < fuel)%nat →
  ∃ s' out, make_room fuel incoming preferred s evictions = Some (true, s', evictions ++ out) ∧
    replay_inv s' ∧ rs_config s' = rs_config s ∧ rs_policy s' = rs_policy s ∧ evicted s s' out ∧
    crowded incoming s' = false.
Proof.
  revert s preferred evictions. induction fuel as [|fuel IH]; intros s preferred evictions Hi Hin Hm Hf; [lia|].
  cbn [make_room]. destruct (crowded incoming s) eqn:Ec; cbn [negb].
  2:{ exists s, []. rewrite app_nil_r. split_and!; try done. split_and!; [apply NoDup_nil_2|set_solver|set_solver]. }
  destruct (decide (dom (rs_entries s) = ∅)) as [He|[k Hk]%set_choose_L];
    [by rewrite (empty_not_crowded _ _ Hi Hin Hm He) in Ec|].
  set (choice := match _ with Some key => (Some key, s) | None => replay_victim s end).
  assert (∃ v s1, choice = (Some v, s1) ∧ v ∈ dom (rs_entries s) ∧ replay_inv s1 ∧ same_cache s s1)
    as (v & s1 & -> & Hv & Hi1 & (Hd1 & Hc1 & Hp1)).
  { unfold choice. destruct preferred as [key|]; cbn [mbind option_bind]; [|by apply (victim_ok s k)].
    case_decide as Hkey; [|by apply (victim_ok s k)]. exists key, s. split_and!; try done. by apply elem_of_dom. }
  destruct (remove_inv v s1 Hi1) as (Hi2 & Hd2 & Hc2 & Hp2); [by rewrite Hd1|].
  destruct (IH (replay_remove v s1) None (evictions ++ [v])) as (s' & out & Hr & Hi' & Hc' & Hp' & (Hn & Ho & Hd') &
    Hcr); try done.
  - by rewrite Hc2, Hc1.
  - by rewrite Hc2, Hc1.
  - rewrite <-!size_dom in *. rewrite Hd2, Hd1.
    assert (size (dom (rs_entries s)) = S (size (dom (rs_entries s) ∖ {[v]}))); [|lia].
    rewrite (union_difference_singleton_L v _ Hv) at 1. rewrite size_union, size_singleton; set_solver.
  - rewrite Hd2, Hd1 in *. exists s', (v :: out). split_and!; try done.
    + rewrite Hr. by rewrite <-app_assoc.
    + by rewrite Hc', Hc2.
    + by rewrite Hp', Hp2.
    + split_and!; [apply list.NoDup_cons; split; [|done]; intros Hvo; apply Ho in Hvo; set_solver| |].
      * set_solver.
      * rewrite Hd'. cbn. set_solver.
Qed.

(** *** One access as a cache transition *)
Definition fits (config : CacheReplayConfig) (D : gset Id32) : Prop :=
  Z.of_nat (size D) ≤ cr_maximum_entries config ∧ sizes D ≤ cr_capacity_bytes config.
(** The moves a cache may make: it knows which objects it holds, and a miss
    from an available source is served and then kept after evicting any
    objects, or not kept. *)
Inductive serve (config : CacheReplayConfig) (available : bool) (k : Id32) (tier : CacheReplayTier) r
    : gset Id32 * Z → gset Id32 * Z → Prop :=
  | serve_hit D t : k ∈ D → serve config available k tier r (D, t) (D, t)
  | serve_unavailable D t : k ∉ D → available = false →
      serve config available k tier r (D, t) (D, saturating_add t (ri_avoided_prefill_ns r))
  | serve_reject D t : k ∉ D → available = true →
      serve config available k tier r (D, t) (D, saturating_add t (replay_service_ns (profile config tier) r))
  | serve_admit D t D' : k ∉ D → available = true → ri_physical_bytes r ≤ cr_capacity_bytes config →
      D' ⊆ D → fits config ({[k]} ∪ D') →
      serve config available k tier r (D, t)
        ({[k]} ∪ D', saturating_add t (replay_service_ns (profile config tier) r)).

Record replay_ok (config : CacheReplayConfig) s : Prop := {
  ro_inv : replay_inv s;
  ro_config : rs_config s = config;
  ro_entries : Z.of_nat (size (rs_entries s)) ≤ cr_maximum_entries config
}.
Lemma set_tick_ok config t s : replay_ok config s → replay_ok config (set_tick t s).
Proof. by intros [[? ? ? ?] ? ?]. Qed.
Lemma admission_ok config k r s : replay_ok config s → retention_validate r = Ok r →
  ∃ a s', replay_admission config k r s = (Ok a, s') ∧ replay_ok config s' ∧ same_cache s s'.
Proof.
  intros Hok Hv. unfold replay_admission. destruct (rs_policy s) eqn:Ep;
    try by (eexists _, _; split_and!; [done|done|..]).
  pose proof (ri_policy _ (ro_inv _ _ Hok)) as Hp. unfold policy_ok in Hp. rewrite Ep in Hp.
  destruct Hp as (Hw & Hd & Hby).
  pose proof (automatic_keeps k r (projected_utilization config s r) _ Hw) as (Hw' & _ & Hd' & _ & Hby').
  assert (∃ d, (automatic_admission_decision k r (projected_utilization config s r) (rs_tiny_lfu s)).1 =
    Ok d) as [d Hdec].
  { unfold automatic_admission_decision. rewrite Hv. by eexists. }
  destruct (automatic_admission_decision _ _ _ _) as [x tiny]. cbn [fst snd] in *. subst x. cbn [mbind outcome_bind].
  destruct Hok as [[Ht Hs Hc Hp] Hcfg He].
  assert (replay_ok config (set_tiny tiny s)) as Hok'.
  { split; [|done|done]. split; [done|done|done|]. unfold policy_ok. cbn. rewrite Ep.
    split_and!; [done|by rewrite Hd', Hd|].
    intros x Hx. rewrite Hby'. by apply Hby. }
  destruct d; (eexists _, _; split; [done|]; split; [exact Hok'|]; split_and!; done).
Qed.

(** *** The ledger of a replay *)
Definition tally_of (o : CacheReplayOutcome) (result : CacheReplayResult) : Z :=
  zlen (filter (λ x, x = o) (re_outcomes result)).
Record ledger s (result : CacheReplayResult) : Prop := {
  le_hits : re_hits result = tally_of Hit result;
  le_admitted : re_admitted result = tally_of MissAdmitted result;
  le_rejected : re_rejected result = tally_of MissRejected result;
  le_failures : re_source_failures result = tally_of SourceUnavailable result;
  le_misses : re_misses result = re_admitted result + re_rejected result + re_source_failures result;
  le_evictions : zlen (re_evictions result) + Z.of_nat (size (rs_entries s)) = re_admitted result
}.
Lemma tally_bound o result : 0 ≤ tally_of o result ≤ zlen (re_outcomes result).
Proof.
  unfold tally_of, zlen. pose proof (length_filter (λ x, x = o) (re_outcomes result)). lia.
Qed.
Lemma tally_partition result : zlen (re_outcomes result) =
  tally_of Hit result + tally_of MissAdmitted result + tally_of MissRejected result + tally_of SourceUnavailable
    result.
Proof.
  unfold tally_of. generalize (re_outcomes result) as l. induction l as [|x l IH]; [done|].
  rewrite !filter_cons, zlen_cons, IH. destruct x; repeat case_decide; try done; rewrite ?zlen_cons; lia.
Qed.
Lemma tally_outcome o x result : tally_of o (add_outcome x result) =
  tally_of o result + (if decide (x = o) then 1 else 0).
Proof.
  unfold tally_of. cbn [re_outcomes add_outcome]. rewrite list.filter_app, zlen_app. f_equal.
  case_decide; [by rewrite list.filter_cons_True|by rewrite list.filter_cons_False].
Qed.
(** One outcome, some evictions [out], and the matching change of the entries. *)
Definition same_counts (result base : CacheReplayResult) : Prop :=
  re_outcomes base = re_outcomes result ∧ re_hits base = re_hits result ∧ re_misses base = re_misses result ∧
  re_admitted base = re_admitted result ∧ re_rejected base = re_rejected result ∧
  re_source_failures base = re_source_failures result.
Lemma ledger_step s s' result base out o :
  ledger s result → zlen (re_outcomes result) + 1 < u64_bound → same_counts result base →
  re_evictions base = re_evictions result ++ out →
  zlen out + Z.of_nat (size (rs_entries s')) = Z.of_nat (size (rs_entries s)) + (if decide (o = MissAdmitted) then 1
    else 0) →
  ledger s' (add_outcome o base).
Proof.
  intros [H1 H2 H3 H4 H5 H6] Hu (Eo & Eh & Em & Ea & Er & Ef) Ee Ho.
  pose proof (tally_bound Hit result). pose proof (tally_bound MissAdmitted result).
  pose proof (tally_bound MissRejected result). pose proof (tally_bound SourceUnavailable result).
  pose proof (tally_partition result) as Hsum.
  assert (∀ x, tally_of x base = tally_of x result) as Et by (intros x; unfold tally_of; by rewrite Eo).
  assert (∀ n, 0 ≤ n ≤ zlen (re_outcomes result) → saturating_add n 1 = n + 1) as Hsat.
  { intros n Hn. unfold saturating_add. lia. }
  split; rewrite ?tally_outcome, ?Et;
    cbn [add_outcome re_hits re_misses re_admitted re_rejected re_source_failures re_evictions];
    rewrite ?Eh, ?Em, ?Ea, ?Er, ?Ef, ?Ee, ?zlen_app; destruct o; rewrite ?Hsat by lia;
    repeat case_decide; try done; lia.
Qed.

(** *** Accesses and traces *)
Definition total_of s (result : CacheReplayResult) : gset Id32 * Z :=
  (dom (rs_entries s), re_total_service_ns result).
Lemma same_cache_size s s' : dom (rs_entries s') = dom (rs_entries s) → size (rs_entries s') = size (rs_entries s).
Proof. intros Hd. by rewrite <-!size_dom, Hd. Qed.
Lemma access_ok config availability k tier r s result :
  replay_ok config s → 1 ≤ cr_maximum_entries config → retention_validate r = Ok r → ri_physical_bytes r = sz k →
  ledger s result → zlen (re_outcomes result) + 1 < u64_bound →
  ∃ s' result', replay_access config availability k tier r s result = Ok (s', result') ∧ replay_ok config s' ∧
    ledger s' result' ∧ zlen (re_outcomes result') = zlen (re_outcomes result) + 1 ∧
    serve config (availability tier) k tier r (total_of s result) (total_of s' result').
Proof.
  intros Hok Hm Hv Hr Hled Hu. unfold replay_access. rewrite Hv. cbn [mbind outcome_bind].
  pose proof (set_tick_ok config (saturating_add (rs_tick s) 1) s Hok) as Hok1. set (s1 := set_tick _ s) in *.
  assert (∀ o base, re_outcomes base = re_outcomes result → zlen (re_outcomes (add_outcome o base)) =
    zlen (re_outcomes result) + 1) as Hlen.
  { intros o base E. cbn. by rewrite zlen_app, E. }
  case_decide as Hk.
  { destruct (hit_inv k r s1 (ro_inv _ _ Hok1) Hk Hr Hv) as (Hi & Hd & Hc & Hp). eexists _, _. split; [done|].
    assert (size (rs_entries (replay_hit k r s1)) = size (rs_entries s)) as Hsz' by (by apply (same_cache_size s1)).
    split_and!.
    - split; [done|by rewrite Hc; apply Hok1|rewrite Hsz'; apply Hok].
    - apply (ledger_step s _ result result []); try done; [by rewrite app_nil_r|rewrite Hsz', decide_False by done;
        change (zlen []) with 0; lia].
    - by apply Hlen.
    - unfold total_of. cbn [re_total_service_ns add_outcome]. rewrite Hd. apply serve_hit. by apply elem_of_dom. }
  assert (k ∉ dom (rs_entries s)) as Hk' by (rewrite elem_of_dom; done).
  destruct (availability tier) eqn:Ha; cbn [negb].
  2:{ eexists _, _. split; [done|]. split_and!; [done| |by apply Hlen|].
      - apply (ledger_step s _ result _ []); try done; [by rewrite app_nil_r|rewrite decide_False by done;
          change (zlen []) with 0; cbn; lia].
      - by apply serve_unavailable. }
  set (base := add_service _ result).
  destruct (admission_ok config k r s1 Hok1 Hv) as (a & s2 & -> & Hok2 & (Hd2 & Hc2 & Hp2)). cbn [mbind outcome_bind].
  assert (∀ s', replay_ok config s' → dom (rs_entries s') = dom (rs_entries s) →
    ∃ s'' result', Ok (s', add_outcome MissRejected base) = Ok (E:=StoreError) (s'', result') ∧ replay_ok config s'' ∧
    ledger s'' result' ∧ zlen (re_outcomes result') = zlen (re_outcomes result) + 1 ∧
    serve config true k tier r (total_of s result) (total_of s'' result')) as Hrej.
  { intros s' Hok' Hd'. eexists _, _. split; [done|]. split_and!; [done| |by apply Hlen|].
    - apply (ledger_step s _ result _ []); try done; [by rewrite app_nil_r|rewrite (same_cache_size s s' Hd'),
        decide_False by done; change (zlen []) with 0; lia].
    - unfold total_of. rewrite Hd'. by apply serve_reject. }
  destruct a as [preferred|]; [|by apply Hrej].
  destruct (Z.ltb_spec (cr_capacity_bytes config) (ri_physical_bytes r)) as [|Hfit]; [by apply Hrej|].
  pose proof (Hsz k) as Hszk.
  destruct (make_room_ok (S (size (rs_entries s2))) (ri_physical_bytes r) preferred s2 (re_evictions base))
    as (s3 & out & -> & Hi3 & Hc3 & Hp3 & (Hn & Ho & Hd3) & Hcr);
    [apply Hok2|rewrite (ro_config _ _ Hok2); lia|by rewrite (ro_config _ _ Hok2)|lia|].
  cbn [expect mbind outcome_bind negb]. apply crowded_false in Hcr as [Hcap Hent].
  rewrite Hc3, (ro_config _ _ Hok2) in Hcap, Hent.
  pose proof (ri_capacity _ Hi3) as Hcap3. rewrite Hc3, (ro_config _ _ Hok2) in Hcap3.
  assert (rs_resident_bytes s3 + sz k ≤ cr_capacity_bytes config) as Hroom by (unfold saturating_add in Hcap; lia).
  assert (dom (rs_entries s3) ⊆ dom (rs_entries s)) as Hsub by (rewrite Hd3, Hd2; set_solver).
  assert (k ∉ dom (rs_entries s3)) as Hk3 by set_solver.
  destruct (insert_inv k r s3 Hi3) as (Hi4 & Hd4 & Hc4 & Hp4);
    [by apply not_elem_of_dom|done|done|by rewrite Hc3, (ro_config _ _ Hok2)|].
  assert (size (rs_entries (replay_insert k r s3)) = S (size (rs_entries s3))) as Hs4.
  { rewrite <-!size_dom, Hd4. rewrite size_union, size_singleton; set_solver. }
  assert (zlen out + Z.of_nat (size (rs_entries s3)) = Z.of_nat (size (rs_entries s))) as Hs3.
  { rewrite <-!size_dom, Hd3, Hd2. unfold zlen. rewrite <-(size_list_to_set (C:=gset Id32) out Hn), <-Nat2Z.inj_add.
    f_equal.
    change (dom (rs_entries s1)) with (dom (rs_entries s)) in *. rewrite Hd2 in Ho.
    assert (list_to_set out ⊆ dom (rs_entries s)) as Hs by set_solver. rewrite size_difference by done.
    pose proof (subseteq_size _ _ Hs). lia. }
  eexists _, _. split; [done|]. split_and!.
  - split; [done|by rewrite Hc4, Hc3; apply Hok2|lia].
  - apply (ledger_step s _ result _ out); try done. rewrite Hs4, decide_True by done. lia.
  - by apply Hlen.
  - unfold total_of. rewrite Hd4. apply serve_admit; try done. split.
    + rewrite <-Hd4, size_dom. lia.
    + rewrite sizes_insert, <-(ri_total _ Hi3) by done. lia.
Qed.

Definition event_ok (e : CacheTraceEvent) : Prop :=
  match e with Access k _ r => retention_validate r = Ok r ∧ ri_physical_bytes r = sz k | _ => True end.
(** The histories a cache may have on a trace. *)
Inductive history (config : CacheReplayConfig) : Availability → list CacheTraceEvent → gset Id32 * Z → gset Id32 * Z →
  Prop :=
  | history_nil availability c : history config availability [] c c
  | history_failed availability tier events c c' :
      history config (set_available tier false availability) events c c' →
      history config availability (SourceFailed tier :: events) c c'
  | history_recovered availability tier events c c' :
      history config (set_available tier true availability) events c c' →
      history config availability (SourceRecovered tier :: events) c c'
  | history_access availability k tier r events c c' c'' :
      serve config (availability tier) k tier r c c' → history config availability events c' c'' →
      history config availability (Access k tier r :: events) c c''.

Lemma replay_events_ok config availability events s result :
  replay_ok config s → 1 ≤ cr_maximum_entries config → Forall event_ok events →
  ledger s result → zlen (re_outcomes result) + zlen events < u64_bound →
  ∃ s' result', replay_events config availability events s result = Ok (s', result') ∧ replay_ok config s' ∧
    ledger s' result' ∧ history config availability events (total_of s result) (total_of s' result').
Proof.
  intros Hok Hm Hev. revert availability s result Hok.
  induction Hev as [|e events He _ IH]; intros availability s result Hok Hled Hu; cbn [replay_events].
  { eexists _, _. split_and!; [done..|]. constructor. }
  rewrite zlen_cons in Hu. pose proof (zlen_nonneg events). destruct e as [k tier r|tier|tier].
  - destruct He as [Hv Hr].
    destruct (access_ok config availability k tier r s result) as (s1 & r1 & -> & Hok1 & Hled1 & Hl1 & Hs1); try done;
      [lia|].
    cbn [mbind outcome_bind]. destruct (IH availability s1 r1 Hok1 Hled1) as (s' & r' & Hr' & Hok' & Hled' & Hh);
      [lia|].
    eexists _, _. split_and!; [done..|]. by eapply history_access.
  - destruct (IH (set_available tier false availability) s result Hok Hled) as (s' & r' & Hr' & Hok' & Hled' & Hh);
      [lia|].
    eexists _, _. split_and!; [done..|]. by constructor.
  - destruct (IH (set_available tier true availability) s result Hok Hled) as (s' & r' & Hr' & Hok' & Hled' & Hh);
      [lia|].
    eexists _, _. split_and!; [done..|]. by constructor.
Qed.

Lemma initial_ok policy config tiny : TinyLfuPolicy_new (mkTinyLfuConfig (cr_capacity_bytes config) 16384 1000000 800)
  = Ok tiny →
  0 ≤ cr_capacity_bytes config < u64_bound - 1 → 0 ≤ cr_maximum_entries config →
  replay_ok config (initial_replay_state policy config tiny) ∧
  ledger (initial_replay_state policy config tiny) CacheReplayResult_default.
Proof.
  intros Ht Hc Hm. destruct (new_wf _ _ Ht) as [Hw _]; [done|cbn; lia|].
  assert (tp_entries tiny = ∅) as Hte by (unfold TinyLfuPolicy_new in Ht; inv_ok; by subst tiny).
  split; [|split; done]. split; [|done|done].
  split; cbn [rs_resident_bytes rs_entries rs_config initial_replay_state].
  - by rewrite dom_empty_L, sizes_empty.
  - intros k e. by rewrite lookup_empty.
  - lia.
  - rewrite dom_empty_L. assert (keys_of [] ∅) as Hk by (split; [apply NoDup_nil_2|set_solver]).
    unfold policy_ok. destruct policy; cbn; try done.
    + split_and!; [done|by rewrite Hte, dom_empty_L|set_solver].
    + split; [done|]. apply Z.div_pos; lia.
Qed.
Lemma replay_cache_policy_ok policy config events :
  validate_replay_config config (zlen events) = Ok tt → 0 ≤ cr_capacity_bytes config < u64_bound - 1 →
  0 ≤ cr_maximum_entries config → Forall event_ok events →
  ∃ D result, replay_cache_policy policy config events = Ok result ∧
    fits config D ∧ re_resident_bytes result = sizes D ∧
    history config (initial_availability config) events (∅, 0) (D, re_total_service_ns result) ∧
    re_misses result = re_admitted result + re_rejected result + re_source_failures result ∧
    re_hits result + re_misses result = zlen (re_outcomes result) ∧
    zlen (re_evictions result) + Z.of_nat (size D) = re_admitted result.
Proof.
  intros Hv Hc Hm Hev. unfold replay_cache_policy. rewrite Hv. cbn [mbind outcome_bind].
  unfold validate_replay_config in Hv. inv_ok. bools. unfold TinyLfuConfig_production.
  rewrite (proj2 (Z.eqb_neq _ _)) by done. cbn [mbind outcome_bind].
  destruct (TinyLfuPolicy_new _) as [tiny| |] eqn:Ht; [|done..]. cbn [mbind outcome_bind].
  destruct (initial_ok policy config tiny Ht Hc Hm) as [Hok Hled].
  destruct (replay_events_ok config (initial_availability config) events _ _ Hok ltac:(lia) Hev Hled)
    as (s' & result & -> & Hok' & Hled' & Hh).
  { cbn [re_outcomes CacheReplayResult_default]. change (zlen []) with 0. unfold u64_bound. lia. }
  cbn [mbind outcome_bind]. exists (dom (rs_entries s')). eexists. split; [done|].
  cbn [re_resident_bytes re_total_service_ns re_misses re_admitted re_rejected re_source_failures re_hits re_outcomes
    re_evictions].
  pose proof (ri_total _ (ro_inv _ _ Hok')) as Htot. pose proof (ri_capacity _ (ro_inv _ _ Hok')) as Hcap.
  rewrite (ro_config _ _ Hok') in Hcap. destruct Hled' as [L1 L2 L3 L4 L5 L6].
  split_and!; try done.
  - split; [rewrite size_dom; apply Hok'|lia].
  - rewrite L5, L1, L2, L3, L4, tally_partition. lia.
  - by rewrite size_dom.
Qed.
End policies.
End sizes.
