(* ===== verification/CacheOracle.v ===== *)
(** * The offline cache oracle (crates/kvpack/src/store/policy/oracle.rs)

    A dynamic program over the sets of resident objects, a set being a mask
    with one bit per distinct object of the trace.  The [BTreeMap] of states
    is a finite map iterated in key order; the loop over the submasks of the
    resident mask runs on fuel, and an exhausted fuel is a [Panic]. *)
From Stdlib Require Import ZArith Lia.
From stdpp Require Import base tactics numbers list strings option sorting gmap.
From S2P Require Import Prelude Bytes Canonical Crypto StorePolicy StorePolicyLaws CacheReplay.
From S2P Require Import CacheReplayLaws.

Definition MAX_OFFLINE_ORACLE_EVENTS : Z := 4096.
Definition MAX_OFFLINE_ORACLE_DISTINCT_OBJECTS : Z := 16.
Definition MAX_OFFLINE_ORACLE_STATES : Z := 65536.
Definition MAX_OFFLINE_ORACLE_TRANSITIONS : Z := 50000000.
Record OfflineOracleBounds := mkOfflineOracleBounds {
  ob_maximum_events : Z;
  ob_maximum_distinct_objects : Z;
  ob_maximum_states : Z;
  ob_maximum_transitions : Z
}.
Definition OfflineOracleBounds_default : OfflineOracleBounds :=
  mkOfflineOracleBounds MAX_OFFLINE_ORACLE_EVENTS MAX_OFFLINE_ORACLE_DISTINCT_OBJECTS MAX_OFFLINE_ORACLE_STATES
    MAX_OFFLINE_ORACLE_TRANSITIONS.
Record OfflineOracleResult := mkOfflineOracleResult {
  or_accesses : Z;
  or_hits : Z;
  or_misses : Z;
  or_admitted : Z;
  or_rejected : Z;
  or_source_failures : Z;
  or_evictions : Z;
  or_resident_bytes : Z;
  or_total_service_ns : Z;
  or_peak_states : Z;
  or_evaluated_transitions : Z
}.
Record OracleCost := mkOracleCost {
  oc_hits : Z;
  oc_misses : Z;
  oc_admitted : Z;
  oc_rejected : Z;
  oc_source_failures : Z;
  oc_evictions : Z;
  oc_total_service_ns : Z
}.
Definition OracleCost_default : OracleCost := mkOracleCost 0 0 0 0 0 0 0.

(** ** Masks *)
Definition count_ones (state : Z) : Z := zlen (filter (λ i, Z.testbit state (Z.of_nat i) = true) (seq 0 64)).
Definition in_state {A} (state : Z) (entry : nat * A) : bool := negb (Z.land state (Z.shiftl 1 (Z.of_nat entry.1)) =? 0).
(** The addition of [try_fold]: [None] once the sum leaves 64 bits. *)
Definition add_bytes (total : option Z) (bytes : Z) : option Z :=
  total ← total; if total + bytes <? u64_bound then Some (total + bytes) else None.
(** [enumerate] and [filter]: the elements whose bit is set. *)
Definition picked {A} (state : Z) (l : list A) : list A := (filter (λ e, in_state state e = true) (imap pair l)).*2.
Definition state_bytes (state : Z) (object_bytes : list Z) : option Z :=
  foldl add_bytes (Some 0) (picked state object_bytes).
Definition state_fits (state : Z) (object_bytes : list Z) (capacity maximum_entries : Z) : bool :=
  (count_ones state <=? maximum_entries)
  && match state_bytes state object_bytes with Some bytes => bytes <=? capacity | None => false end.

(** ** Costs *)
Definition better (candidate current : OracleCost) : bool :=
  (oc_total_service_ns candidate <? oc_total_service_ns current)
  || (oc_total_service_ns candidate =? oc_total_service_ns current)
     && ((oc_hits current <? oc_hits candidate)
         || (oc_hits candidate =? oc_hits current)
            && ((oc_source_failures candidate <? oc_source_failures current)
                || (oc_source_failures candidate =? oc_source_failures current)
                   && ((oc_evictions candidate <? oc_evictions current)
                       || (oc_evictions candidate =? oc_evictions current)
                          && (oc_admitted candidate <? oc_admitted current)))).
Definition final_bytes (object_bytes : list Z) (state : Z) : Z := default (u64_bound - 1) (state_bytes state object_bytes).
Definition compare_final (object_bytes : list Z) (left right : Z * OracleCost) : comparison :=
  then_cmp (Z.compare (oc_total_service_ns left.2) (oc_total_service_ns right.2))
    (then_cmp (Z.compare (oc_hits right.2) (oc_hits left.2))
      (then_cmp (Z.compare (oc_source_failures left.2) (oc_source_failures right.2))
        (then_cmp (Z.compare (oc_evictions left.2) (oc_evictions right.2))
          (then_cmp (Z.compare (oc_admitted left.2) (oc_admitted right.2))
            (then_cmp (Z.compare (final_bytes object_bytes left.1) (final_bytes object_bytes right.1))
              (Z.compare left.1 right.1)))))).
Definition cost_hit (c : OracleCost) : OracleCost :=
  mkOracleCost (saturating_add (oc_hits c) 1) (oc_misses c) (oc_admitted c) (oc_rejected c) (oc_source_failures c)
    (oc_evictions c) (oc_total_service_ns c).
Definition cost_miss (c : OracleCost) : OracleCost :=
  mkOracleCost (oc_hits c) (saturating_add (oc_misses c) 1) (oc_admitted c) (oc_rejected c) (oc_source_failures c)
    (oc_evictions c) (oc_total_service_ns c).
Definition cost_failure (c : OracleCost) : OracleCost :=
  mkOracleCost (oc_hits c) (oc_misses c) (oc_admitted c) (oc_rejected c) (saturating_add (oc_source_failures c) 1)
    (oc_evictions c) (oc_total_service_ns c).
Definition cost_service (ns : Z) (c : OracleCost) : OracleCost :=
  mkOracleCost (oc_hits c) (oc_misses c) (oc_admitted c) (oc_rejected c) (oc_source_failures c)
    (oc_evictions c) (saturating_add (oc_total_service_ns c) ns).
Definition cost_rejected (c : OracleCost) : OracleCost :=
  mkOracleCost (oc_hits c) (oc_misses c) (oc_admitted c) (saturating_add (oc_rejected c) 1) (oc_source_failures c)
    (oc_evictions c) (oc_total_service_ns c).
Definition cost_admitted (evicted : Z) (c : OracleCost) : OracleCost :=
  mkOracleCost (oc_hits c) (oc_misses c) (saturating_add (oc_admitted c) 1) (oc_rejected c) (oc_source_failures c)
    (saturating_add (oc_evictions c) evicted) (oc_total_service_ns c).

(** ** States and transitions *)
Notation States := (gmap Z OracleCost).
Definition state_le {V} (a b : Z * V) : Prop := a.1 ≤ b.1.
#[export] Instance state_le_dec {V} (a b : Z * V) : Decision (state_le a b).
Proof. unfold state_le. apply _. Defined.
Definition states_iter (states : States) : list (Z * OracleCost) := merge_sort state_le (map_to_list states).

Definition record_transition (bounds : OfflineOracleBounds) (resident : Z) (candidate : OracleCost)
    (acc : States * Z) : sresult (States * Z) :=
  let '(states, evaluated_transitions) := acc in
  if u64_bound <=? evaluated_transitions + 1 then state_error "offline oracle transition bound exceeded" else
  let evaluated_transitions := evaluated_transitions + 1 in
  if ob_maximum_transitions bounds <? evaluated_transitions then
    state_error "offline oracle transition bound exceeded" else
  match states !! resident with
  | Some current =>
      Ok (if better candidate current then <[resident := candidate]> states else states, evaluated_transitions)
  | None =>
      let states := <[resident := candidate]> states in
      if ob_maximum_states bounds <? Z.of_nat (size states) then state_error "offline oracle state bound exceeded"
      else Ok (states, evaluated_transitions)
  end.

Section expand.
Context (config : CacheReplayConfig) (bounds : OfflineOracleBounds) (object_bytes : list Z).
Fixpoint admit_loop (fuel : nat) (object_bit resident : Z) (miss : OracleCost) (retained : Z) (acc : States * Z)
    : sresult (States * Z) :=
  match fuel with
  | O => Panic "the submask loop does not terminate"
  | S fuel =>
      let admitted_state := Z.lor retained object_bit in
      acc ← (if state_fits admitted_state object_bytes (cr_capacity_bytes config) (cr_maximum_entries config) then
               record_transition bounds admitted_state
                 (cost_admitted (saturating_sub (count_ones resident) (count_ones retained)) miss) acc
             else Ok acc);
      if retained =? 0 then Ok acc
      else admit_loop fuel object_bit resident miss (Z.land (retained - 1) resident) acc
  end.
Definition expand_state (available : bool) (tier : CacheReplayTier) (retention : RetentionInputs) (object_bit : Z)
    (entry : Z * OracleCost) (acc : States * Z) : sresult (States * Z) :=
  let '(resident, cost) := entry in
  if negb (Z.land resident object_bit =? 0) then record_transition bounds resident (cost_hit cost) acc else
  let miss := cost_miss cost in
  if negb available then
    record_transition bounds resident (cost_service (ri_avoided_prefill_ns retention) (cost_failure miss)) acc else
  let miss := cost_service (replay_service_ns (profile config tier) retention) miss in
  acc ← record_transition bounds resident (cost_rejected miss) acc;
  if ri_physical_bytes retention <=? cr_capacity_bytes config then
    admit_loop (S (Z.to_nat resident)) object_bit resident miss resident acc
  else Ok acc.
Fixpoint expand_states (available : bool) (tier : CacheReplayTier) (retention : RetentionInputs) (object_bit : Z)
    (entries : list (Z * OracleCost)) (acc : States * Z) : sresult (States * Z) :=
  match entries with
  | [] => Ok acc
  | entry :: entries =>
      acc ← expand_state available tier retention object_bit entry acc;
      expand_states available tier retention object_bit entries acc
  end.

Record OracleState := mkOracleState {
  os_states : States;
  os_peak_states : Z;
  os_evaluated_transitions : Z;
  os_accesses : Z
}.
Fixpoint oracle_events (object_indices : gmap Id32 nat) (availability : Availability)
    (events : list CacheTraceEvent) (s : OracleState) : sresult OracleState :=
  match events with
  | [] => Ok s
  | SourceFailed tier :: events => oracle_events object_indices (set_available tier false availability) events s
  | SourceRecovered tier :: events => oracle_events object_indices (set_available tier true availability) events s
  | Access object_key source_tier retention :: events =>
      retention ← retention_validate retention;
      index ← expect (object_indices !! object_key) "no entry found for key";
      let object_bit := Z.shiftl 1 (Z.of_nat index) in
      '(next, evaluated) ← expand_states (availability source_tier) source_tier retention object_bit
                             (states_iter (os_states s)) (∅, os_evaluated_transitions s);
      oracle_events object_indices availability events
        (mkOracleState next (Z.max (os_peak_states s) (Z.of_nat (size next))) evaluated
           (saturating_add (os_accesses s) 1))
  end.
End expand.

(** ** The inventory of the trace *)
Fixpoint inventory_loop (events : list CacheTraceEvent) (maximum_distinct_objects : Z)
    (indices : gmap Id32 nat) (bytes : list Z) : sresult (gmap Id32 nat * list Z) :=
  match events with
  | [] => Ok (indices, bytes)
  | Access object_key _ retention :: events =>
      retention ← retention_validate retention;
      match indices !! object_key with
      | Some index =>
          known ← expect (bytes !! index) "index out of bounds";
          if negb (known =? ri_physical_bytes retention) then
            state_error "offline oracle object size changed within the trace"
          else inventory_loop events maximum_distinct_objects indices bytes
      | None =>
          if maximum_distinct_objects <=? Z.of_nat (size indices) then
            state_error "offline oracle distinct-object bound exceeded"
          else
            inventory_loop events maximum_distinct_objects (<[object_key := length bytes]> indices)
              (bytes ++ [ri_physical_bytes retention])
      end
  | _ :: events => inventory_loop events maximum_distinct_objects indices bytes
  end.
Definition inventory (events : list CacheTraceEvent) (maximum_distinct_objects : Z)
    : sresult (gmap Id32 nat * list Z) :=
  inventory_loop events maximum_distinct_objects ∅ [].

Definition validate_bounds (bounds : OfflineOracleBounds) (event_count : Z) : sresult unit :=
  if (ob_maximum_events bounds =? 0) || (MAX_OFFLINE_ORACLE_EVENTS <? ob_maximum_events bounds)
     || (ob_maximum_events bounds <? event_count)
     || (ob_maximum_distinct_objects bounds =? 0)
     || (MAX_OFFLINE_ORACLE_DISTINCT_OBJECTS <? ob_maximum_distinct_objects bounds)
     || (ob_maximum_states bounds =? 0) || (MAX_OFFLINE_ORACLE_STATES <? ob_maximum_states bounds)
     || (ob_maximum_transitions bounds =? 0)
     || (MAX_OFFLINE_ORACLE_TRANSITIONS <? ob_maximum_transitions bounds) then
    state_error "offline oracle bounds are invalid"
  else Ok tt.

Definition replay_offline_oracle (config : CacheReplayConfig) (events : list CacheTraceEvent)
    (bounds : OfflineOracleBounds) : sresult OfflineOracleResult :=
  _ ← validate_replay_config config (zlen events);
  _ ← validate_bounds bounds (zlen events);
  '(object_indices, object_bytes) ← inventory events (ob_maximum_distinct_objects bounds);
  s ← oracle_events config bounds object_bytes object_indices (initial_availability config) events
        (mkOracleState {[0 := OracleCost_default]} 1 0 0);
  match min_by (compare_final object_bytes) (states_iter (os_states s)) with
  | None => state_error "offline oracle produced no state"
  | Some (resident, cost) =>
      Ok (mkOfflineOracleResult (os_accesses s) (oc_hits cost) (oc_misses cost) (oc_admitted cost)
            (oc_rejected cost) (oc_source_failures cost) (oc_evictions cost) (final_bytes object_bytes resident)
            (oc_total_service_ns cost) (os_peak_states s) (os_evaluated_transitions s))
  end.

(** * Laws of the offline oracle

    Masks stand for sets of objects: [held] reads a mask, the submask loop
    enumerates every subset, and [state_fits] decides [fits].  The states of
    the dynamic program are then sound (each is reached by a cache history of
    its cost) and complete (each history is matched by a state that costs no
    more), which makes the oracle's total the least of all histories. *)
(** ** Masks *)
Definition submask (r m : Z) : Prop := 0 ≤ r ∧ Z.land r m = r.
Lemma bit_land m (i : nat) : Z.land m (Z.shiftl 1 (Z.of_nat i)) =
  if Z.testbit m (Z.of_nat i) then Z.shiftl 1 (Z.of_nat i) else 0.
Proof.
  apply Z.bits_inj'. intros j Hj. rewrite Z.land_spec, Z.shiftl_1_l, Z.pow2_bits_eqb by lia.
  destruct (Z.eqb_spec (Z.of_nat i) j) as [<-|Hne].
  - destruct (Z.testbit m (Z.of_nat i)); [|by rewrite Z.bits_0]. by rewrite Z.pow2_bits_true by lia.
  - rewrite andb_false_r. destruct (Z.testbit m (Z.of_nat i)); [|by rewrite Z.bits_0].
    by rewrite Z.pow2_bits_false by lia.
Qed.
Lemma bit_land_zero m (i : nat) : (Z.land m (Z.shiftl 1 (Z.of_nat i)) =? 0) = negb (Z.testbit m (Z.of_nat i)).
Proof.
  rewrite bit_land. destruct (Z.testbit m (Z.of_nat i)); [|done]. rewrite Z.shiftl_1_l. apply Z.eqb_neq.
  pose proof (Z.pow_pos_nonneg 2 (Z.of_nat i)). lia.
Qed.
Lemma in_state_testbit {A} m (i : nat) (x : A) : in_state m (i, x) = Z.testbit m (Z.of_nat i).
Proof. unfold in_state. cbn [fst]. by rewrite bit_land_zero, negb_involutive. Qed.
Lemma submask_testbit r m i : submask r m → Z.testbit r i = true → Z.testbit m i = true.
Proof. intros [_ Hr]. rewrite <-Hr, Z.land_spec. by intros [_ ?]%andb_true_iff. Qed.
Lemma submask_intro r m : 0 ≤ r → (∀ i, 0 ≤ i → Z.testbit r i = true → Z.testbit m i = true) → submask r m.
Proof.
  intros Hr Hi. split; [done|]. apply Z.bits_inj'. intros i Hi'. rewrite Z.land_spec. specialize (Hi i Hi').
  destruct (Z.testbit r i); [by rewrite Hi|done].
Qed.
Lemma land_le a b : 0 ≤ a → Z.land a b ≤ a.
Proof.
  intros Ha. apply Z.ldiff_le; [done|]. apply Z.bits_inj'. intros i _. rewrite Z.ldiff_spec, Z.land_spec, Z.bits_0.
  by destruct (Z.testbit a i), (Z.testbit b i).
Qed.
Lemma submask_le r m : 0 ≤ m → submask r m → r ≤ m.
Proof. intros Hm [Hr Hrm]. rewrite <-Hrm, Z.land_comm. by apply land_le. Qed.
Lemma submask_refl m : 0 ≤ m → submask m m.
Proof. intros Hm. split; [done|apply Z.land_diag]. Qed.
Lemma land_double a b (x y : bool) : Z.land (2 * a + Z.b2z x) (2 * b + Z.b2z y) = 2 * Z.land a b + Z.b2z (x && y).
Proof.
  apply Z.bits_inj'. intros i Hi. rewrite Z.land_spec. destruct (decide (i = 0)) as [->|Hne].
  - rewrite !Z.testbit_0_r. done.
  - replace i with (Z.succ (i - 1)) by lia. rewrite !Z.testbit_succ_r by lia. by rewrite Z.land_spec.
Qed.
(** The loop steps to the next lower submask. *)
Lemma next_submask r s m : submask r m → submask s m → s < r → s ≤ Z.land (r - 1) m.
Proof.
  intros [Hr Hrm] [Hs Hsm]. assert (∃ n : nat, r < 2 ^ Z.of_nat n) as [n Hn].
  { exists (Z.to_nat r). rewrite Z2Nat.id by done. apply Z.pow_gt_lin_r; lia. }
  revert r s m Hr Hrm Hs Hsm Hn. induction n as [|n IH]; intros r s m Hr Hrm Hs Hsm Hn Hlt; [cbn in Hn; lia|].
  rewrite Nat2Z.inj_succ, Z.pow_succ_r in Hn by lia.
  pose proof (Z.div2_odd r) as Er. pose proof (Z.div2_odd s) as Es. pose proof (Z.div2_odd m) as Em.
  set (r' := Z.div2 r) in *. set (s' := Z.div2 s) in *. set (m' := Z.div2 m) in *.
  rewrite Er, Em, land_double in Hrm. rewrite Es, Em, land_double in Hsm.
  assert (Z.land r' m' = r') as Hrm' by (destruct (Z.odd r), (Z.odd m); cbn [Z.b2z andb] in Hrm; lia).
  assert (Z.land s' m' = s' ∧ Z.b2z (Z.odd s) ≤ Z.b2z (Z.odd m)) as [Hsm' Hodd]
    by (destruct (Z.odd s), (Z.odd m); cbn [Z.b2z andb] in *; lia).
  destruct (Z.odd r) eqn:Eo; cbn [Z.b2z] in Er.
  - replace (r - 1) with (2 * r' + Z.b2z false) by (cbn; lia). rewrite Em at 1. rewrite land_double, Hrm'.
    cbn [andb Z.b2z]. lia.
  - replace (r - 1) with (2 * (r' - 1) + Z.b2z true) by (cbn; lia). rewrite Em at 1. rewrite land_double. cbn [andb].
    assert (s' ≤ Z.land (r' - 1) m'); [|lia]. apply IH; try done; destruct (Z.odd s); cbn [Z.b2z] in *; lia.
Qed.
Lemma next_submask_ok r m : 0 < r → submask (Z.land (r - 1) m) m ∧ Z.land (r - 1) m < r.
Proof.
  intros Hr. split; [split|].
  - apply Z.land_nonneg. lia.
  - by rewrite <-Z.land_assoc, Z.land_diag.
  - pose proof (land_le (r - 1) m). lia.
Qed.

(** ** Picked elements *)
Lemma elem_of_picked {A} (x : A) m (l : list A) : x ∈ picked m l ↔ ∃ i, l !! i = Some x ∧ Z.testbit m (Z.of_nat i) =
  true.
Proof.
  unfold picked. rewrite list_elem_of_fmap. split.
  - intros ([i y] & -> & Hy). apply list_elem_of_filter in Hy as [Hb Hy]. rewrite in_state_testbit in Hb.
    apply elem_of_lookup_imap in Hy as (j & z & [= -> ->] & Hz). by exists j.
  - intros (i & Hi & Hb). exists (i, x). split; [done|]. apply list_elem_of_filter. rewrite in_state_testbit.
    split; [done|]. apply elem_of_lookup_imap. by exists i, x.
Qed.
Lemma filter_fmap_snd {A B} (f : A → B) m (L : list (nat * A)) :
  filter (λ e, in_state m e = true) (prod_map id f <$> L) = prod_map id f <$> filter (λ e, in_state m e = true) L.
Proof.
  induction L as [|[i x] L IH]; [done|]. rewrite fmap_cons, !filter_cons, IH. cbn [prod_map fst snd id].
  rewrite !in_state_testbit. by case_decide.
Qed.
Lemma picked_fmap {A B} (f : A → B) m (l : list A) : picked m (f <$> l) = f <$> picked m l.
Proof.
  unfold picked. assert (imap pair (f <$> l) = prod_map id f <$> imap pair l) as ->.
  { rewrite imap_fmap, fmap_imap. by apply imap_ext. }
  rewrite filter_fmap_snd, <-!list_fmap_compose. by apply list_fmap_ext.
Qed.
Lemma imap_pair_snd {A} (l : list A) : (imap pair l).*2 = l.
Proof. rewrite fmap_imap. rewrite (imap_ext _ (λ _ x, x)) by done. induction l as [|x l IH]; [done|]. cbn. f_equal.
  exact IH. Qed.
Lemma imap_pair_fst {A} (l : list A) : (imap pair l).*1 = seq 0 (length l).
Proof.
  rewrite fmap_imap. apply list_eq. intros i. rewrite list_lookup_imap.
  destruct (decide (i < length l)%nat) as [Hi|Hi].
  - destruct (lookup_lt_is_Some_2 l i Hi) as [x ->]. by rewrite lookup_seq_lt.
  - rewrite (lookup_ge_None_2 l) by lia. by rewrite lookup_seq_ge by lia.
Qed.
Lemma fmap_sublist {A B} (f : A → B) (l k : list A) : sublist l k → sublist (f <$> l) (f <$> k).
Proof. induction 1; cbn; by constructor. Qed.
Lemma picked_sublist {A} m (l : list A) : sublist (picked m l) l.
Proof. rewrite <-(imap_pair_snd l) at 2. unfold picked. apply fmap_sublist, sublist_filter. Qed.
Lemma picked_NoDup {A} m (l : list A) : NoDup l → NoDup (picked m l).
Proof. intros Hl. eapply sublist_NoDup; [done|apply picked_sublist]. Qed.
Lemma length_filter_fst {A} m (L : list (nat * A)) :
  length (filter (λ e, in_state m e = true) L) = length (filter (λ i, Z.testbit m (Z.of_nat i) = true) L.*1).
Proof.
  induction L as [|[i x] L IH]; [done|]. rewrite fmap_cons, !filter_cons. cbn [fst].
  rewrite in_state_testbit. case_decide; cbn [length]; congruence.
Qed.
Lemma count_ones_picked {A} m (l : list A) : 0 ≤ m < 2 ^ zlen l → (length l ≤ 64)%nat →
  count_ones m = zlen (picked m l).
Proof.
  intros Hm Hl. unfold count_ones, picked, zlen in *. rewrite length_fmap, length_filter_fst, imap_pair_fst. f_equal.
  replace 64%nat with (length l + (64 - length l))%nat by lia. rewrite seq_app, list.filter_app, length_app.
  assert (filter (λ i, Z.testbit m (Z.of_nat i) = true) (seq (0 + length l) (64 - length l)) = []) as ->; [|cbn; lia].
  apply elem_of_nil_inv. intros i [Hb Hi]%list_elem_of_filter. apply elem_of_seq in Hi.
  destruct (decide (m = 0)) as [->|]; [by rewrite Z.bits_0 in Hb|].
  rewrite (Z.bits_above_log2 m) in Hb; [done|lia|].
  apply Z.log2_lt_pow2; [lia|]. eapply Z.lt_le_trans; [apply Hm|apply Z.pow_le_mono_r; lia].
Qed.

(** ** Masks as sets of objects *)
Section objects.
Context (sz : Id32 → Z) (Hsz : ∀ k, 0 ≤ sz k) (ks : list Id32) (Hnd : NoDup ks) (Hlen : (length ks ≤ 64)%nat).
Notation n := (zlen ks).
Definition mask_ok (m : Z) : Prop := 0 ≤ m < 2 ^ n.
Definition held (m : Z) : gset Id32 := list_to_set (picked m ks).
Lemma elem_of_held k m : k ∈ held m ↔ ∃ i, ks !! i = Some k ∧ Z.testbit m (Z.of_nat i) = true.
Proof. unfold held. rewrite elem_of_list_to_set. apply elem_of_picked. Qed.
Lemma held_testbit k i m : ks !! i = Some k → k ∈ held m ↔ Z.testbit m (Z.of_nat i) = true.
Proof.
  intros Hi. rewrite elem_of_held. split; [|by eauto]. intros (j & Hj & Hb).
  by rewrite (NoDup_lookup ks i j k Hnd Hi Hj).
Qed.
Lemma held_size m : mask_ok m → Z.of_nat (size (held m)) = count_ones m.
Proof.
  intros Hm. rewrite (count_ones_picked m ks Hm Hlen). unfold held, zlen.
  by rewrite size_list_to_set by (by apply picked_NoDup).
Qed.
Lemma held_sizes m : sizes sz (held m) = zsum (picked m (sz <$> ks)).
Proof.
  unfold sizes, held. rewrite picked_fmap. apply zsum_perm, fmap_Permutation, elements_list_to_set.
  by apply picked_NoDup.
Qed.
Lemma held_zero : held 0 = ∅.
Proof. apply set_eq. intros k. rewrite elem_of_held.
  split; [intros (i & _ & Hb); by rewrite Z.bits_0 in Hb|set_solver]. Qed.
Lemma held_lor m i k : ks !! i = Some k → held (Z.lor m (Z.shiftl 1 (Z.of_nat i))) = {[k]} ∪ held m.
Proof.
  intros Hi. apply set_eq. intros x. rewrite elem_of_union, elem_of_singleton, !elem_of_held.
  assert (∀ j, Z.testbit (Z.shiftl 1 (Z.of_nat i)) (Z.of_nat j) = bool_decide (i = j)) as Hb.
  { intros j. rewrite Z.shiftl_1_l, Z.pow2_bits_eqb by lia. apply eq_true_iff_eq.
    rewrite Z.eqb_eq, bool_decide_eq_true. lia. }
  split.
  - intros (j & Hj & Hor). rewrite Z.lor_spec, Hb in Hor.
    apply orb_true_iff in Hor as [?|Hor%bool_decide_eq_true]; [eauto|].
    left. congruence.
  - intros [->|(j & Hj & Ht)]; [exists i|exists j]; (split; [done|]; rewrite Z.lor_spec, Hb).
    + by rewrite bool_decide_eq_true_2, orb_true_r.
    + by rewrite Ht.
Qed.
Lemma lor_mask m i k : ks !! i = Some k → mask_ok m → mask_ok (Z.lor m (Z.shiftl 1 (Z.of_nat i))).
Proof.
  intros Hi [Hm0 Hm]. apply lookup_lt_Some in Hi. pose proof (Z.pow_pos_nonneg 2 (Z.of_nat i)) as Hp.
  assert (Z.shiftl 1 (Z.of_nat i) < 2 ^ n) as Hb.
  { rewrite Z.shiftl_1_l. apply Z.pow_lt_mono_r; unfold zlen; lia. }
  rewrite Z.shiftl_1_l in *. split; [apply Z.lor_nonneg; lia|].
  destruct (decide (Z.lor m (2 ^ Z.of_nat i) = 0)) as [->|Hne]; [lia|]. apply Z.log2_lt_cancel.
  rewrite Z.log2_pow2 by (unfold zlen; lia). rewrite Z.log2_lor by lia.
  assert (0 < n) by (unfold zlen; lia). apply Z.max_lub_lt.
  - destruct (decide (m = 0)) as [->|]; [done|]. apply Z.log2_lt_pow2; lia.
  - rewrite Z.log2_pow2 by lia. unfold zlen. lia.
Qed.
Lemma submask_mask r m : submask r m → mask_ok m → mask_ok r.
Proof. intros Hr [Hm0 Hm]. pose proof (submask_le r m Hm0 Hr). split; [apply Hr|lia]. Qed.
Lemma held_submask r m : submask r m → held r ⊆ held m.
Proof. intros Hr k. rewrite !elem_of_held. intros (i & Hi & Hb). exists i. split; [done|]. by eapply submask_testbit.
  Qed.
Lemma held_count r m : submask r m → mask_ok m → count_ones r ≤ count_ones m.
Proof.
  intros Hr Hm. rewrite <-!held_size by (done || by eapply submask_mask). apply Nat2Z.inj_le, subseteq_size.
  by apply held_submask.
Qed.
(** Every subset is a submask. *)
Definition mask_of (D : gset Id32) (L : list (nat * Id32)) : Z :=
  foldr (λ e m, if decide (e.2 ∈ D) then Z.lor m (Z.shiftl 1 (Z.of_nat e.1)) else m) 0 L.
Lemma mask_of_spec D L : 0 ≤ mask_of D L ∧
  ∀ i, Z.testbit (mask_of D L) (Z.of_nat i) = true ↔ ∃ k, (i, k) ∈ L ∧ k ∈ D.
Proof.
  induction L as [|[j x] L [IH0 IH]]; cbn [mask_of foldr fst snd].
  { split; [done|]. intros i. rewrite Z.bits_0. split; [done|]. intros (k & Hk & _). set_solver. }
  fold (mask_of D L). case_decide as Hx.
  - pose proof (Z.pow_pos_nonneg 2 (Z.of_nat j)). rewrite Z.shiftl_1_l. split; [apply Z.lor_nonneg; lia|].
    intros i. rewrite Z.lor_spec, Z.pow2_bits_eqb, orb_true_iff, IH, Z.eqb_eq by lia. split.
    + intros [(k & ? & ?)|Hij]; [exists k; set_solver|]. exists x. assert (i = j) as -> by lia. set_solver.
    + intros (k & [[= -> ->]|Hk]%elem_of_cons & Hd); [by right|left; eauto].
  - split; [done|]. intros i. rewrite IH. split; [intros (k & ? & ?); exists k; set_solver|].
    intros (k & [[= -> ->]|Hk]%elem_of_cons & Hd); [done|eauto].
Qed.
Lemma subset_submask D m : 0 ≤ m → D ⊆ held m → ∃ r, submask r m ∧ held r = D.
Proof.
  intros Hm HD. destruct (mask_of_spec D (imap pair ks)) as [Hr Hb]. exists (mask_of D (imap pair ks)).
  assert (∀ i k, (i, k) ∈ imap pair ks ↔ ks !! i = Some k) as Hin.
  { intros i k. rewrite elem_of_lookup_imap. split; [by intros (? & ? & [= -> ->] & ?)|intros; by exists i, k]. }
  split.
  - apply submask_intro; [done|]. intros i Hi. rewrite <-(Z2Nat.id i) by done. rewrite Hb. intros (k & Hk & Hd).
    apply Hin in Hk. apply HD in Hd. by rewrite (held_testbit k _ m Hk) in Hd.
  - apply set_eq. intros k. rewrite elem_of_held. split.
    + intros (i & Hi & Ht). apply Hb in Ht as (k' & Hk' & Hd). apply Hin in Hk'. congruence.
    + intros Hk. apply HD in Hk as Hk'. apply elem_of_held in Hk' as (i & Hi & _). exists i. split; [done|].
      apply Hb. exists k. split; [by apply Hin|done].
Qed.
Lemma add_bytes_none l : foldl add_bytes None l = None.
Proof. by induction l. Qed.
Lemma add_bytes_sum l t : Forall (λ b, 0 ≤ b) l → 0 ≤ t < u64_bound →
  foldl add_bytes (Some t) l = if t + zsum l <? u64_bound then Some (t + zsum l) else None.
Proof.
  intros Hl. revert t. induction Hl as [|b l Hb Hl IH]; intros t Ht; cbn [foldl].
  { rewrite Z.add_0_r. by rewrite (proj2 (Z.ltb_lt _ _)) by lia. }
  assert (0 ≤ zsum l) by (clear -Hl; induction Hl; unfold zsum in *; cbn [foldr]; lia).
  change (zsum (b :: l)) with (b + zsum l). cbn. destruct (Z.ltb_spec (t + b) u64_bound) as [Hlt|Hge].
  - rewrite IH by lia. by rewrite Z.add_assoc.
  - rewrite add_bytes_none. by rewrite (proj2 (Z.ltb_ge _ _)) by lia.
Qed.
Lemma state_bytes_held m : state_bytes m (sz <$> ks) =
  if sizes sz (held m) <? u64_bound then Some (sizes sz (held m)) else None.
Proof.
  unfold state_bytes. rewrite held_sizes, add_bytes_sum; [done| |by unfold u64_bound].
  rewrite picked_fmap. apply list.Forall_fmap, list.Forall_true. intros; apply Hsz.
Qed.
Lemma state_fits_held config m : mask_ok m → cr_capacity_bytes config < u64_bound →
  state_fits m (sz <$> ks) (cr_capacity_bytes config) (cr_maximum_entries config) = true ↔ fits sz config (held m).
Proof.
  intros Hm Hc. unfold state_fits, fits. rewrite state_bytes_held, andb_true_iff, Z.leb_le, held_size by done.
  destruct (Z.ltb_spec (sizes sz (held m)) u64_bound); [by rewrite Z.leb_le|]. split; [by intros [_ ?]|lia].
Qed.

(** ** The states of the dynamic program *)
Section program.
Context (config : CacheReplayConfig) (bounds : OfflineOracleBounds) (Hcap : cr_capacity_bytes config < u64_bound).
Notation total := oc_total_service_ns.
Implicit Types (st : States) (m r : Z) (c : OracleCost) (acc : States * Z).
(** A run fails only with an error of the configured bounds. *)
Definition yields {A} (run : sresult A) (Q : A → Prop) : Prop :=
  match run with Ok a => Q a | Err e => ∃ why, e = SState why | Panic _ => False end.
Lemma yields_bind {A B} (run : sresult A) (f : A → sresult B) (P : A → Prop) (Q : B → Prop) :
  yields run P → (∀ a, P a → yields (f a) Q) → yields (a ← run; f a) Q.
Proof. destruct run; cbn; auto. Qed.
Lemma yields_mono {A} (run : sresult A) (P Q : A → Prop) : yields run P → (∀ a, P a → Q a) → yields run Q.
Proof. destruct run; cbn; auto. Qed.

(** [st'] costs no more than [st]; [st] only has states of [P]; [st] has a
    state for [m] of at most the given cost. *)
Definition offers st m (t : Z) : Prop := ∃ c, st !! m = Some c ∧ total c ≤ t.
Definition improves st st' : Prop := ∀ m t, offers st m t → offers st' m t.
Definition only (P : Z → OracleCost → Prop) st : Prop := ∀ m c, st !! m = Some c → P m c.
#[local] Instance improves_preorder : PreOrder improves.
Proof. split; [by intros st m t|]. intros a b c Hab Hbc m t Hm. auto. Qed.
Lemma better_total c c' : better c c' = false → total c' ≤ total c.
Proof. unfold better. intros [H%Z.ltb_ge _]%orb_false_iff. done. Qed.
Lemma better_total' c c' : better c c' = true → total c ≤ total c'.
Proof. unfold better. intros [H%Z.ltb_lt|[H%Z.eqb_eq _]%andb_true_iff]%orb_true_iff; lia. Qed.
Definition grown (P : Z → OracleCost → Prop) acc (Q : States → Prop) (acc' : States * Z) : Prop :=
  (only P acc.1 → only P acc'.1) ∧ improves acc.1 acc'.1 ∧ Q acc'.1.
Lemma record_yields (P : Z → OracleCost → Prop) m c acc : P m c →
  yields (record_transition bounds m c acc) (grown P acc (λ st, offers st m (total c))).
Proof.
  intros HP. destruct acc as [st e]. unfold record_transition.
  destruct (u64_bound <=? e + 1); [by eexists|]. destruct (ob_maximum_transitions bounds <? e + 1); [by eexists|].
  assert ((∀ c0, st !! m = Some c0 → total c ≤ total c0) →
    grown P (st, e) (λ st, offers st m (total c)) (<[m := c]> st, e + 1)) as Hins.
  { intros Hle. split_and!; cbn [fst].
    - intros Ho x y. destruct (decide (x = m)) as [->|]; [rewrite lookup_insert_eq; by intros [= <-]|].
      rewrite lookup_insert_ne by done. apply Ho.
    - intros x t (y & Hy & Ht). destruct (decide (x = m)) as [->|].
      + exists c. rewrite lookup_insert_eq. specialize (Hle _ Hy). split; [done|lia].
      + exists y. by rewrite lookup_insert_ne.
    - exists c. by rewrite lookup_insert_eq. }
  destruct (st !! m) as [c0|] eqn:E.
  - destruct (better c c0) eqn:Eb; cbn.
    + apply Hins. intros ? [= <-]. by apply better_total'.
    + split_and!; [done|done|]. exists c0. split; [done|]. by apply better_total.
  - destruct (_ <? _); [by eexists|]. by apply Hins.
Qed.

(** *** The submask loop *)
Section access.
Context (k : Id32) (i : nat) (Hi : ks !! i = Some k) (available : bool) (tier : CacheReplayTier) (ret :
  RetentionInputs).
Notation bit := (Z.shiftl 1 (Z.of_nat i)).
Notation after m t := (held m, t).
Lemma admit_loop_yields fuel P m miss r acc :
  mask_ok m → submask r m → (Z.to_nat r < fuel)%nat →
  (∀ s, submask s m → fits sz config (held (Z.lor s bit)) →
     P (Z.lor s bit) (cost_admitted (saturating_sub (count_ones m) (count_ones s)) miss)) →
  yields (admit_loop config bounds (sz <$> ks) fuel bit m miss r acc)
    (grown P acc (λ st, ∀ s, submask s m → s ≤ r → fits sz config (held (Z.lor s bit)) →
                        offers st (Z.lor s bit) (total miss))).
Proof.
  intros Hm Hr Hf HP. revert r acc Hr Hf. induction fuel as [|fuel IH]; intros r acc Hr Hf; [lia|]. cbn [admit_loop].
  assert (mask_ok (Z.lor r bit)) as Hmo by (eapply lor_mask; [done|]; by eapply submask_mask).
  apply (yields_bind _ _ (grown P acc (λ st, fits sz config (held (Z.lor r bit)) →
    offers st (Z.lor r bit) (total miss)))).
  { destruct (state_fits _ _ _ _) eqn:E.
    - apply state_fits_held in E; [|done|done].
      eapply yields_mono; [apply (record_yields P); by apply HP|]. intros acc' (Ho & Him & Hof).
      split_and!; [done|done|].
      by intros _.
    - cbn. split_and!; [done|done|]. intros Hfit. apply state_fits_held in Hfit; [congruence|done|done]. }
  intros acc1 (Ho1 & Him1 & Hof1). destruct (Z.eqb_spec r 0) as [->|Hne].
  { cbn. split_and!; [done|done|]. intros s Hs Hle. assert (s = 0) as -> by (destruct Hs; lia). done. }
  assert (0 < r) as Hpos by (destruct Hr; lia). destruct (next_submask_ok r m Hpos) as [Hsub Hlt].
  eapply yields_mono; [apply IH; [done|]; destruct Hsub; lia|]. intros acc2 (Ho2 & Him2 & Hof2).
  split_and!; [by auto|by etrans|].
  intros s Hs Hle Hfit. destruct (decide (s = r)) as [->|]; [by apply Him2, Hof1|].
  apply Hof2; [done| |done]. apply next_submask; [done|done|lia].
Qed.

(** *** One access *)
Definition cost_ledger (accesses : Z) m c : Prop :=
  oc_hits c + oc_misses c = accesses ∧ oc_misses c = oc_admitted c + oc_rejected c + oc_source_failures c ∧
  oc_evictions c + count_ones m = oc_admitted c ∧
  0 ≤ oc_hits c ∧ 0 ≤ oc_misses c ∧ 0 ≤ oc_admitted c ∧ 0 ≤ oc_rejected c ∧ 0 ≤ oc_source_failures c ∧
    0 ≤ oc_evictions c.
Definition arises (entry : Z * OracleCost) m c : Prop :=
  mask_ok m ∧ serve sz config available k tier ret (held entry.1, total entry.2) (held m, total c) ∧
  ∀ a, a + 1 < u64_bound → cost_ledger a entry.1 entry.2 → cost_ledger (a + 1) m c.
(** Every move of a cache that costs at least [entry] is matched. *)
Definition answered (entry : Z * OracleCost) st : Prop :=
  ∀ t D' t', total entry.2 ≤ t → serve sz config available k tier ret (held entry.1, t) (D', t') →
    ∃ m, held m = D' ∧ offers st m t'.
Lemma answered_improves entry st st' : answered entry st → improves st st' → answered entry st'.
Proof. intros Ha Him t D' t' Ht Hs. destruct (Ha t D' t' Ht Hs) as (m & Hm & Ho). exists m. eauto. Qed.
Lemma saturating_add_mono a b x : a ≤ b → saturating_add a x ≤ saturating_add b x.
Proof. unfold saturating_add. lia. Qed.
Lemma offers_le st m t t' : offers st m t → t ≤ t' → offers st m t'.
Proof. intros (c & Hc & Ht) Hle. exists c. split; [done|lia]. Qed.
Lemma saturating_succ x a : 0 ≤ x ≤ a → a + 1 < u64_bound → saturating_add x 1 = x + 1.
Proof. unfold saturating_add. lia. Qed.
Lemma ledger_hit a m c : a + 1 < u64_bound → cost_ledger a m c → cost_ledger (a + 1) m (cost_hit c).
Proof.
  intros Ha (H1 & H2 & H3 & H4). unfold cost_ledger, cost_hit. cbn. rewrite (saturating_succ _ a) by lia. lia.
Qed.
Lemma ledger_failure a m c ns : a + 1 < u64_bound → cost_ledger a m c →
  cost_ledger (a + 1) m (cost_service ns (cost_failure (cost_miss c))).
Proof.
  intros Ha (H1 & H2 & H3 & H4). unfold cost_ledger, cost_service, cost_failure, cost_miss. cbn.
  rewrite (saturating_succ (oc_misses c) a), (saturating_succ (oc_source_failures c) a); try done;
    pose proof (zlen_nonneg (filter (λ i, Z.testbit m (Z.of_nat i) = true) (seq 0 64))); unfold count_ones in *; lia.
Qed.
Lemma count_ones_nonneg m : 0 ≤ count_ones m.
Proof. apply zlen_nonneg. Qed.
Lemma ledger_rejected a m c ns : a + 1 < u64_bound → cost_ledger a m c →
  cost_ledger (a + 1) m (cost_rejected (cost_service ns (cost_miss c))).
Proof.
  intros Ha (H1 & H2 & H3 & H4). unfold cost_ledger, cost_service, cost_rejected, cost_miss. cbn.
  rewrite (saturating_succ (oc_misses c) a), (saturating_succ (oc_rejected c) a); try done;
    pose proof (count_ones_nonneg m); lia.
Qed.
Lemma count_ones_lor s : mask_ok s → k ∉ held s → count_ones (Z.lor s bit) = count_ones s + 1.
Proof.
  intros Hs Hk. rewrite <-!held_size by (done || by eapply lor_mask). rewrite (held_lor _ _ _ Hi).
  rewrite size_union, size_singleton by set_solver. lia.
Qed.
Lemma ledger_admitted a m s c ns : mask_ok m → k ∉ held m → submask s m → a + 1 < u64_bound → cost_ledger a m c →
  cost_ledger (a + 1) (Z.lor s bit)
    (cost_admitted (saturating_sub (count_ones m) (count_ones s)) (cost_service ns (cost_miss c))).
Proof.
  intros Hm Hk Hs Ha (H1 & H2 & H3 & H4). pose proof (held_count _ _ Hs Hm) as Hc.
  assert (k ∉ held s) as Hks by (intros Hks; by apply (held_submask _ _ Hs) in Hks).
  assert (saturating_sub (count_ones m) (count_ones s) = count_ones m - count_ones s) as E by (unfold saturating_sub;
    lia).
  pose proof (count_ones_nonneg s). pose proof (count_ones_nonneg m).
  unfold cost_ledger, cost_service, cost_admitted, cost_miss. cbn.
  rewrite E, count_ones_lor by (done || by eapply submask_mask).
  rewrite (saturating_succ (oc_misses c) a), (saturating_succ (oc_admitted c) a) by lia.
  assert (saturating_add (oc_evictions c) (count_ones m - count_ones s) =
    oc_evictions c + (count_ones m - count_ones s)) as ->
    by (unfold saturating_add; lia). lia.
Qed.
Lemma improves_offers st st' m t : improves st st' → offers st m t → offers st' m t.
Proof. auto. Qed.
Lemma expand_state_yields P entry acc : ri_physical_bytes ret = sz k →
  mask_ok entry.1 → (∀ m c, arises entry m c → P m c) →
  yields (expand_state config bounds (sz <$> ks) available tier ret bit entry acc) (grown P acc (answered entry)).
Proof.
  intros Hsize Hm HP. destruct entry as [m c]. cbn [fst] in Hm. cbn [expand_state].
  rewrite bit_land_zero, negb_involutive.
  pose proof (held_testbit k i m Hi) as Hheld. destruct (Z.testbit m (Z.of_nat i)).
  { eapply yields_mono; [apply (record_yields P), HP; split_and!; [done|apply serve_hit; by apply Hheld|]|].
    - intros a. apply ledger_hit.
    - intros acc' (Ho & Him & Hof). split_and!; [done|done|]. intros t D' t' Ht Hs. cbn [fst snd] in *.
      inversion Hs; subst; try (exfalso; tauto). exists m. split; [done|]. by eapply offers_le. }
  assert (k ∉ held m) as Hk by (intros ?%Hheld; done). destruct available eqn:Ea; cbn [negb].
  2:{ eapply yields_mono; [apply (record_yields P), HP; split_and!; [done|by apply serve_unavailable|]|].
      - intros a. apply ledger_failure.
      - intros acc' (Ho & Him & Hof). split_and!; [done|done|]. intros t D' t' Ht Hs. cbn [fst snd] in *.
        inversion Hs; subst; try congruence. exists m. split; [done|]. eapply offers_le; [done|].
        by apply saturating_add_mono. }
  set (ns := replay_service_ns _ _). set (miss := cost_service ns (cost_miss c)).
  eapply yields_bind; [apply (record_yields P m (cost_rejected miss)), HP; split_and!;
    [done|by apply serve_reject|]|].
  { intros a. apply ledger_rejected. }
  intros acc1 (Ho1 & Him1 & Hof1). destruct (Z.leb_spec (ri_physical_bytes ret) (cr_capacity_bytes config)) as
    [Hfit|Hbig].
  2:{ cbn. split_and!; [done|done|]. intros t D' t' Ht Hs. cbn [fst snd] in *.
      inversion Hs; subst; try congruence; try done; [|lia]. exists m. split; [done|]. eapply offers_le; [done|].
      by apply saturating_add_mono. }
  eapply yields_mono; [apply (admit_loop_yields _ P); [done|apply submask_refl, Hm|lia|]|].
  { intros s Hs Hf. apply HP. split_and!; [eapply lor_mask; [done|]; by eapply submask_mask| |].
    - cbn [fst snd]. rewrite (held_lor _ _ _ Hi) in *. apply serve_admit; try done. by apply held_submask.
    - intros a. by apply ledger_admitted. }
  intros acc2 (Ho2 & Him2 & Hof2). split_and!; [by auto|by etrans|]. intros t D' t' Ht Hs. cbn [fst snd] in *.
  inversion Hs as [| | |? ? D0 ? ? ? Hsub Hf]; subst; try congruence; try done.
  - exists m. split; [done|]. apply Him2. eapply offers_le; [done|]. by apply saturating_add_mono.
  - destruct (subset_submask D0 m) as (r & Hr & <-); [apply Hm|done|]. exists (Z.lor r bit).
    split; [by rewrite (held_lor _ _ _ Hi)|]. eapply offers_le; [apply Hof2; [done| |]|].
    + apply submask_le; [apply Hm|done].
    + by rewrite (held_lor _ _ _ Hi).
    + by apply saturating_add_mono.
Qed.
Lemma expand_states_yields P entries acc : ri_physical_bytes ret = sz k →
  Forall (λ e, mask_ok e.1) entries → (∀ e m c, e ∈ entries → arises e m c → P m c) →
  yields (expand_states config bounds (sz <$> ks) available tier ret bit entries acc)
    (grown P acc (λ st, Forall (λ e, answered e st) entries)).
Proof.
  intros Hsize Hm. revert acc. induction Hm as [|e entries He _ IH]; intros acc HP; cbn [expand_states].
  { split_and!; [done|done|constructor]. }
  eapply yields_bind; [apply (expand_state_yields P); [done|done|]; intros m c; apply HP; by left|].
  intros acc1 (Ho1 & Him1 & Ha1). eapply yields_mono; [apply IH; intros e' m c He'; apply HP; by right|].
  intros acc2 (Ho2 & Him2 & Ha2). split_and!; [by auto|by etrans|]. constructor; [|done]. by eapply answered_improves.
Qed.
End access.

(** *** Traces *)
Lemma elem_of_states_iter st e : e ∈ states_iter st ↔ st !! e.1 = Some e.2.
Proof.
  unfold states_iter. rewrite (merge_sort_Permutation state_le (map_to_list st)). destruct e as [m c].
  apply elem_of_map_to_list.
Qed.
Definition is_access (e : CacheTraceEvent) : bool := match e with Access _ _ _ => true | _ => false end.
Definition access_count (events : list CacheTraceEvent) : Z := zlen (filter (λ e, is_access e = true) events).
Definition inventoried (indices : gmap Id32 nat) (e : CacheTraceEvent) : Prop :=
  match e with
  | Access k _ r => retention_validate r = Ok r ∧ ri_physical_bytes r = sz k ∧ ∃ i, indices !! k = Some i ∧ ks !! i =
    Some k
  | _ => True
  end.
Definition states_ok (accesses : Z) st : Prop := only (λ m c, mask_ok m ∧ cost_ledger accesses m c) st.
(** The states [s'] after [events] against the states [s] before. *)
Record traced (availability : Availability) (events : list CacheTraceEvent) (s s' : OracleState) : Prop := {
  tr_accesses : os_accesses s' = os_accesses s + access_count events;
  tr_states : states_ok (os_accesses s') (os_states s');
  tr_sound m c : os_states s' !! m = Some c → ∃ m0 c0, os_states s !! m0 = Some c0 ∧
    history sz config availability events (held m0, total c0) (held m, total c);
  tr_complete m0 c0 t D' t' : os_states s !! m0 = Some c0 → total c0 ≤ t →
    history sz config availability events (held m0, t) (D', t') → ∃ m, held m = D' ∧ offers (os_states s') m t'
}.
Lemma oracle_events_yields indices availability events s :
  Forall (inventoried indices) events → states_ok (os_accesses s) (os_states s) →
  0 ≤ os_accesses s → os_accesses s + zlen events < u64_bound →
  yields (oracle_events config bounds (sz <$> ks) indices availability events s) (traced availability events s).
Proof.
  intros Hev. revert availability s. induction Hev as [|e events He _ IH]; intros availability s Hst Ha Hu;
    cbn [oracle_events].
  { split; [change (access_count []) with 0; lia|done| |].
    - intros m c Hm. exists m, c. split; [done|constructor].
    - intros m0 c0 t D' t' H0 Ht Hh. inversion Hh; subst. exists m0. split; [done|]. by exists c0. }
  rewrite zlen_cons in Hu. pose proof (zlen_nonneg events). destruct e as [k tier r|tier|tier].
  2:{ eapply yields_mono; [apply IH; [done|done|lia]|]. intros s' [T1 T2 T3 T4]. split; [done|done| |].
      - intros m c Hm. destruct (T3 m c Hm) as (m0 & c0 & ? & ?). exists m0, c0. split; [done|by constructor].
      - intros m0 c0 t D' t' H0 Ht Hh. inversion Hh; subst. eauto. }
  2:{ eapply yields_mono; [apply IH; [done|done|lia]|]. intros s' [T1 T2 T3 T4]. split; [done|done| |].
      - intros m c Hm. destruct (T3 m c Hm) as (m0 & c0 & ? & ?). exists m0, c0. split; [done|by constructor].
      - intros m0 c0 t D' t' H0 Ht Hh. inversion Hh; subst. eauto. }
  destruct He as (Hv & Hsize & i & Hidx & Hi). rewrite Hv. cbn [mbind outcome_bind]. rewrite Hidx.
  cbn [expect mbind outcome_bind].
  pose (P m c := ∃ e, e ∈ states_iter (os_states s) ∧ arises k (availability tier) tier r e m c).
  eapply yields_bind; [apply (expand_states_yields k i Hi (availability tier) tier r P);
    [done| |by intros e m c ? ?; exists e]|].
  { apply list.Forall_forall. intros e He%elem_of_states_iter. by apply Hst in He as [? _]. }
  intros [next ev] (Honly & _ & Hans). cbn [fst snd] in *. rewrite list.Forall_forall in Hans.
  assert (only P next) as HP by (apply Honly; intros m c; by rewrite lookup_empty).
  assert (saturating_add (os_accesses s) 1 = os_accesses s + 1) as Hsa by (unfold saturating_add; lia).
  eapply yields_mono; [apply IH; cbn [os_states os_accesses]; rewrite ?Hsa; [|lia|lia]|].
  { intros m c (e & He%elem_of_states_iter & Hm & _ & Hl)%HP. apply Hst in He as [_ He]. split; [done|].
    apply Hl; [lia|done]. }
  intros s' [T1 T2 T3 T4]. cbn [os_states os_accesses] in *. split; [|done| |].
  - rewrite T1, Hsa. unfold access_count. rewrite list.filter_cons_True by done. rewrite zlen_cons. lia.
  - intros m c (m1 & c1 & H1 & Hh)%T3. apply HP in H1 as ([m0 c0] & H0%elem_of_states_iter & _ & Hs & _).
    exists m0, c0. split; [done|]. by eapply history_access.
  - intros m0 c0 t D' t' H0 Ht Hh. inversion Hh as [| | |? ? ? ? ? ? [D1 t1] ? Hs Hh']; subst.
    destruct (Hans (m0, c0)) with (t:=t) (D':=D1) (t':=t1) as (m1 & <- & c1 & H1 & Ht1);
      [by apply elem_of_states_iter|done|done|].
    eapply T4; done.
Qed.

(** *** Enough room in the bounds *)
Section room.
Context (Hstates : 2 ^ n ≤ ob_maximum_states bounds) (Htrans : ob_maximum_transitions bounds < u64_bound).
Notation masks := (only (λ m _, mask_ok m)).
Lemma masks_size st : masks st → Z.of_nat (size st) ≤ 2 ^ n.
Proof.
  intros Hst. assert (0 < 2 ^ n) by (apply Z.pow_pos_nonneg; [lia|apply zlen_nonneg]).
  rewrite <-size_dom. transitivity (Z.of_nat (size (list_to_set (C:=gset Z) (seqZ 0 (2 ^ n))))).
  - apply Nat2Z.inj_le, subseteq_size. intros m [c Hm]%elem_of_dom. apply Hst in Hm.
    apply elem_of_list_to_set, elem_of_seqZ.
    destruct Hm. lia.
  - rewrite size_list_to_set by apply NoDup_seqZ. rewrite length_seqZ. lia.
Qed.
Definition spent (cost : Z) acc acc' : Prop := acc.2 ≤ acc'.2 ≤ acc.2 + cost ∧ masks acc'.1.
Lemma record_room m c acc : mask_ok m → masks acc.1 → acc.2 + 1 ≤ ob_maximum_transitions bounds →
  ∃ acc', record_transition bounds m c acc = Ok acc' ∧ spent 1 acc acc'.
Proof.
  intros Hm Hst Hr. destruct acc as [st e]. cbn [fst snd] in *. unfold record_transition.
  rewrite (proj2 (Z.leb_gt _ _)) by lia. rewrite (proj2 (Z.ltb_ge _ _)) by lia.
  assert (masks (<[m := c]> st)) as Hins.
  { intros x y. destruct (decide (x = m)) as [->|]; [done|]. rewrite lookup_insert_ne by done. apply Hst. }
  destruct (st !! m) as [c0|].
  - eexists. split; [done|]. split; cbn; [lia|]. by destruct (better c c0).
  - pose proof (masks_size _ Hins). rewrite (proj2 (Z.ltb_ge _ _)) by lia. eexists. split; [done|].
    split; cbn; [lia|done].
Qed.
Lemma admit_loop_room k i fuel m miss r acc : ks !! i = Some k → mask_ok m → submask r m → (Z.to_nat r < fuel)%nat →
  masks acc.1 → acc.2 + r + 1 ≤ ob_maximum_transitions bounds →
  ∃ acc', admit_loop config bounds (sz <$> ks) fuel (Z.shiftl 1 (Z.of_nat i)) m miss r acc = Ok acc' ∧
    spent (r + 1) acc acc'.
Proof.
  intros Hi Hm. revert r acc. induction fuel as [|fuel IH]; intros r acc Hr Hf Hst Ht; [lia|]. cbn [admit_loop].
  pose proof Hr as [Hr0 _].
  assert (mask_ok (Z.lor r (Z.shiftl 1 (Z.of_nat i)))) as Hmo by (eapply lor_mask; [done|]; by eapply submask_mask).
  assert (∃ acc', (if state_fits (Z.lor r (Z.shiftl 1 (Z.of_nat i))) (sz <$> ks) (cr_capacity_bytes config)
    (cr_maximum_entries config) then
    record_transition bounds (Z.lor r (Z.shiftl 1 (Z.of_nat i))) (cost_admitted (saturating_sub (count_ones m)
      (count_ones r)) miss) acc
    else Ok acc) = Ok acc' ∧ spent 1 acc acc') as (acc1 & -> & [Hs1 Hm1]).
  { destruct (state_fits _ _ _ _); [apply record_room; [done|done|lia]|]. eexists. split; [done|].
    split; [lia|done]. }
  cbn [mbind outcome_bind]. destruct (Z.eqb_spec r 0) as [->|Hne]; [eexists; split; [done|]; by split; [lia|]|].
  destruct (next_submask_ok r m) as [Hsub Hlt]; [lia|]. pose proof Hsub as [Hn0 _].
  destruct (IH (Z.land (r - 1) m) acc1) as (acc2 & -> & [Hs2 Hm2]); [done|lia|done|lia|].
  eexists. split; [done|]. split; [lia|done].
Qed.
Lemma expand_state_room k i available tier ret entry acc : ks !! i = Some k → mask_ok entry.1 → masks acc.1 →
  acc.2 + 2 ^ n + 1 ≤ ob_maximum_transitions bounds →
  ∃ acc', expand_state config bounds (sz <$> ks) available tier ret (Z.shiftl 1 (Z.of_nat i)) entry acc = Ok acc' ∧
    spent (2 ^ n + 1) acc acc'.
Proof.
  intros Hi Hm Hst Ht. destruct entry as [m c]. cbn [fst] in Hm. cbn [expand_state]. pose proof Hm as [Hm0 Hm1].
  assert (∀ c, ∃ acc', record_transition bounds m c acc = Ok acc' ∧ spent 1 acc acc') as Hrec
    by (intros; apply record_room; [done|done|lia]).
  assert (∀ c, ∃ acc', record_transition bounds m c acc = Ok acc' ∧ spent (2 ^ n + 1) acc acc') as Hrec'.
  { intros c'. destruct (Hrec c') as (acc' & -> & [? ?]). eexists. split; [done|]. split; [lia|done]. }
  destruct (negb _); [apply Hrec'|]. destruct (negb available); [apply Hrec'|].
  edestruct Hrec as (acc1 & -> & [Hs1 Hm1']). cbn [mbind outcome_bind]. destruct (_ <=? _).
  2:{ eexists. split; [done|]. split; [lia|done]. }
  edestruct (admit_loop_room k i) as (acc2 & -> & [Hs2 Hm2]); [done|done|by apply submask_refl| |done| |].
  - lia.
  - lia.
  - eexists. split; [done|]. split; [lia|done].
Qed.
Lemma expand_states_room k i available tier ret entries acc : ks !! i = Some k → Forall (λ e, mask_ok e.1) entries →
  masks acc.1 → acc.2 + zlen entries * (2 ^ n + 1) ≤ ob_maximum_transitions bounds →
  ∃ acc', expand_states config bounds (sz <$> ks) available tier ret (Z.shiftl 1 (Z.of_nat i)) entries acc = Ok acc' ∧
    spent (zlen entries * (2 ^ n + 1)) acc acc'.
Proof.
  intros Hi Hm. assert (0 < 2 ^ n) by (apply Z.pow_pos_nonneg; [lia|apply zlen_nonneg]). revert acc.
  induction Hm as [|e entries He _ IH]; intros acc Hst Ht; cbn [expand_states].
  { eexists. split; [done|]. split; [unfold zlen; cbn [length]; lia|done]. }
  rewrite zlen_cons in *. pose proof (zlen_nonneg entries).
  destruct (expand_state_room k i available tier ret e acc) as (acc1 & -> & [Hs1 Hm1]); [done|done|done|nia|].
  cbn [mbind outcome_bind]. destruct (IH acc1) as (acc2 & -> & [Hs2 Hm2]); [done|nia|].
  eexists. split; [done|]. split; [nia|done].
Qed.
Lemma oracle_events_room indices availability events s : Forall (inventoried indices) events → masks (os_states s) →
  os_evaluated_transitions s + zlen events * (2 ^ n * (2 ^ n + 1)) ≤ ob_maximum_transitions bounds →
  ∃ s', oracle_events config bounds (sz <$> ks) indices availability events s = Ok s' ∧
    os_evaluated_transitions s' ≤ os_evaluated_transitions s + zlen events * (2 ^ n * (2 ^ n + 1)).
Proof.
  intros Hev. assert (0 < 2 ^ n) by (apply Z.pow_pos_nonneg; [lia|apply zlen_nonneg]). revert availability s.
  induction Hev as [|e events He _ IH]; intros availability s Hst Ht; cbn [oracle_events].
  { eexists. split; [done|]. unfold zlen; cbn [length]; lia. }
  rewrite zlen_cons in *. pose proof (zlen_nonneg events). destruct e as [k tier r|tier|tier].
  2:{ destruct (IH (set_available tier false availability) s Hst) as (s' & -> & ?); [nia|]. eexists.
      split; [done|nia]. }
  2:{ destruct (IH (set_available tier true availability) s Hst) as (s' & -> & ?); [nia|]. eexists.
      split; [done|nia]. }
  destruct He as (Hv & Hsize & i & Hidx & Hi). rewrite Hv. cbn [mbind outcome_bind]. rewrite Hidx.
  cbn [expect mbind outcome_bind].
  assert (zlen (states_iter (os_states s)) ≤ 2 ^ n) as Hlen'.
  { unfold zlen, states_iter. rewrite (Permutation_length (merge_sort_Permutation state_le (map_to_list (os_states
      s)))).
    rewrite length_map_to_list. by apply masks_size. }
  assert (zlen (states_iter (os_states s)) * (2 ^ n + 1) ≤ 2 ^ n * (2 ^ n + 1)) as Hmul by (apply
    Z.mul_le_mono_nonneg_r; lia).
  destruct (expand_states_room k i (availability tier) tier r (states_iter (os_states s)) (∅,
    os_evaluated_transitions s))
    as ([next ev] & -> & [Hs1 Hm1]); [done| |done|cbn [snd]; nia|].
  { apply list.Forall_forall. intros e He%elem_of_states_iter. by apply Hst in He. }
  cbn [mbind outcome_bind fst snd] in *.
  destruct (IH availability (mkOracleState next (Z.max (os_peak_states s) (Z.of_nat (size next))) ev (saturating_add
    (os_accesses s) 1)))
    as (s' & -> & Hev'); [done|cbn [os_evaluated_transitions]; nia|].
  cbn [os_evaluated_transitions] in Hev'. eexists. split; [done|nia].
Qed.
End room.
End program.
End objects.
