(* ===== verification/CacheOptimality.v ===== *)
(** * Optimality of the offline oracle

    The inventory numbers the objects of a trace; with it the oracle returns
    the least total service time of all cache histories, and so never more
    than any of the replayed policies. *)
From Stdlib Require Import ZArith Lia.
From stdpp Require Import base tactics numbers list strings option sorting gmap.
From S2P Require Import Prelude Bytes Canonical Crypto StorePolicy StorePolicyLaws CacheReplay.
From S2P Require Import CacheReplayLaws CacheOracle.

Section trace.
Context (sz : Id32 → Z) (Hsz : ∀ k, 0 ≤ sz k).
Implicit Types (events : list CacheTraceEvent) (indices : gmap Id32 nat) (ks : list Id32).

(** ** The inventory *)
Definition trace_keys events : gset Id32 :=
  list_to_set (omap (λ e, match e with Access k _ _ => Some k | _ => None end) events).
(** [ks] lists the objects in the order of their indices. *)
Definition numbered indices ks : Prop := NoDup ks ∧ ∀ k i, indices !! k = Some i ↔ ks !! i = Some k.
Lemma numbered_dom indices ks : numbered indices ks → dom indices = list_to_set ks.
Proof.
  intros [_ Hi]. apply set_eq. intros k. rewrite elem_of_dom, elem_of_list_to_set, list_elem_of_lookup. split.
  - intros [i ?%Hi]. by exists i.
  - intros [i ?%Hi]. by exists i.
Qed.
Lemma numbered_size indices ks : numbered indices ks → size indices = length ks.
Proof. intros H. rewrite <-size_dom, (numbered_dom _ _ H). apply size_list_to_set, H. Qed.
Lemma numbered_snoc indices ks k : numbered indices ks → indices !! k = None →
  numbered (<[k := length ks]> indices) (ks ++ [k]).
Proof.
  intros Hn Hk. pose proof (numbered_dom _ _ Hn) as Hd. destruct Hn as [Hnd Hi].
  assert (k ∉ ks) as Hnk.
  { intros Hin. apply not_elem_of_dom in Hk. rewrite Hd in Hk. set_solver. }
  split.
  - apply NoDup_app. split_and!; [done| |apply NoDup_singleton]. set_solver.
  - intros x i. destruct (decide (x = k)) as [->|Hx].
    + rewrite lookup_insert_eq. split.
      * intros [= <-]. by rewrite lookup_app_r, Nat.sub_diag by lia.
      * rewrite lookup_snoc_Some. intros [[_ Hl]|[-> _]]; [|done]. by apply list_elem_of_lookup_2 in Hl.
    + rewrite lookup_insert_ne, Hi, lookup_snoc_Some by done. split.
      * intros Hl. left. split; [by eapply lookup_lt_Some|done].
      * intros [[_ ?]|[_ ?]]; [done|congruence].
Qed.
Record inventory_of events indices0 (maximum : Z) (out : gmap Id32 nat * list Z) ks : Prop := {
  iv_numbered : numbered out.1 ks;
  iv_bytes : out.2 = sz <$> ks;
  iv_events : Forall (inventoried sz ks out.1) events;
  iv_kept k i : indices0 !! k = Some i → out.1 !! k = Some i;
  iv_bound : zlen ks ≤ maximum
}.
Lemma inventory_loop_yields events maximum indices ks : Forall (event_ok sz) events → numbered indices ks →
  zlen ks ≤ maximum →
  yields (inventory_loop events maximum indices (sz <$> ks)) (λ out, ∃ ks',
    inventory_of events indices maximum out ks').
Proof.
  intros Hev. revert indices ks. induction Hev as [|e events He _ IH]; intros indices ks Hn Hm; cbn [inventory_loop].
  { exists ks. by split. }
  destruct e as [k tier r|tier|tier].
  2,3: eapply yields_mono; [by apply IH|]; intros out (ks' & [? ? ? ? ?]); exists ks'; split; try done;
    by constructor.
  destruct He as [Hv Hr]. rewrite Hv. cbn [mbind outcome_bind]. destruct (indices !! k) as [i|] eqn:Ek.
  - pose proof Ek as Hi. apply (proj2 Hn) in Hi. rewrite list_lookup_fmap, Hi.
    cbn [expect fmap option_fmap option_map mbind outcome_bind].
    rewrite Hr, Z.eqb_refl. cbn [negb]. eapply yields_mono; [by apply IH|]. intros out (ks' & [N B E K M]).
    exists ks'. split; try done. constructor; [|done]. split_and!; [done|done|]. exists i. pose proof (K _ _ Ek).
    split; [done|]. by apply N.
  - destruct (Z.leb_spec maximum (Z.of_nat (size indices))) as [|Hlt]; [by eexists|].
    rewrite length_fmap. pose proof (numbered_snoc _ _ _ Hn Ek) as Hn'. rewrite (numbered_size _ _ Hn) in Hlt.
    replace ((sz <$> ks) ++ [ri_physical_bytes r]) with (sz <$> (ks ++ [k])) by (rewrite fmap_app; cbn;
      by rewrite Hr).
    eapply yields_mono; [apply IH; [done|]; rewrite zlen_app; unfold zlen in *; cbn [length]; lia|].
    intros out (ks' & [N B E K M]). exists ks'. split; try done.
    + constructor; [|done]. split_and!; [done|done|]. exists (length ks).
      assert (out.1 !! k = Some (length ks)) as Hk'.
      { apply K. by rewrite lookup_insert_eq. }
      split; [done|]. by apply N.
    + intros x i Hx. apply K. rewrite lookup_insert_ne; [done|]. congruence.
Qed.
Lemma inventory_loop_room events maximum indices ks : Forall (event_ok sz) events → numbered indices ks →
  Z.of_nat (size (dom indices ∪ trace_keys events)) ≤ maximum →
  ∃ out, inventory_loop events maximum indices (sz <$> ks) = Ok out.
Proof.
  intros Hev. revert indices ks. induction Hev as [|e events He _ IH]; intros indices ks Hn Hm; cbn [inventory_loop].
  { by eexists. }
  destruct e as [k tier r|tier|tier]; [|by apply IH..].
  assert (trace_keys (Access k tier r :: events) = {[k]} ∪ trace_keys events) as Hk by done. rewrite Hk in Hm.
  destruct He as [Hv Hr]. rewrite Hv. cbn [mbind outcome_bind]. destruct (indices !! k) as [i|] eqn:Ek.
  - pose proof Ek as Hi. apply (proj2 Hn) in Hi. rewrite list_lookup_fmap, Hi.
    cbn [expect fmap option_fmap option_map mbind outcome_bind].
    rewrite Hr, Z.eqb_refl. cbn [negb]. apply IH; [done|]. etrans; [|exact Hm]. apply Nat2Z.inj_le, subseteq_size.
    set_solver.
  - assert (size (dom indices) < size (dom indices ∪ ({[k]} ∪ trace_keys events)))%nat as Hlt.
    { apply subset_size. apply not_elem_of_dom in Ek. split; [set_solver|]. intros Hs. apply Ek, Hs. set_solver. }
    rewrite size_dom in Hlt. rewrite (proj2 (Z.leb_gt _ _)) by lia. rewrite length_fmap.
    replace ((sz <$> ks) ++ [ri_physical_bytes r]) with (sz <$> (ks ++ [k])) by (rewrite fmap_app; cbn;
      by rewrite Hr).
    apply IH; [by apply numbered_snoc|]. rewrite dom_insert_L. etrans; [|exact Hm]. apply Nat2Z.inj_le, subseteq_size.
    set_solver.
Qed.
Lemma numbered_empty : numbered ∅ [].
Proof. split; [apply NoDup_nil_2|]. intros k i. by rewrite lookup_empty. Qed.

(** ** The oracle *)
Lemma history_fits config availability events c c' : history sz config availability events c c' →
  fits sz config c.1 → fits sz config c'.1.
Proof. induction 1 as [| | |availability k tier r events c c' c'' Hs _ IH]; try done. intros Hf. apply IH.
  by destruct Hs. Qed.
#[local] Instance compare_final_total bytes : TotalCmp (compare_final bytes).
Proof.
  unfold compare_final. repeat (apply then_cmp_total; [|]); try apply _.
  split; [intros; apply Z.compare_antisym|]. intros a b c. rewrite !Z.compare_ngt_iff. lia.
Qed.
Lemma compare_final_le bytes a b : compare_final bytes a b ≠ Gt → oc_total_service_ns a.2 ≤ oc_total_service_ns b.2.
Proof.
  unfold compare_final, then_cmp. intros H.
  destruct (Z.compare_spec (oc_total_service_ns a.2) (oc_total_service_ns b.2)); lia || done.
Qed.

Lemma initial_states_ok ks : NoDup ks → (length ks ≤ 64)%nat → states_ok ks 0 {[0 := OracleCost_default]}.
Proof.
  intros Hnd Hks. assert (mask_ok ks 0) as Hm0 by (split; [done|apply Z.pow_pos_nonneg; [lia|apply zlen_nonneg]]).
  intros m c. rewrite lookup_singleton_Some. intros [<- <-]. split; [done|].
  unfold cost_ledger. rewrite <-(held_size ks Hnd Hks 0 Hm0), (held_zero sz Hsz ks Hnd Hks), size_empty. done.
Qed.
(** A cache may reject everything. *)
Lemma history_exists config availability events c : ∃ c', history sz config availability events c c'.
Proof.
  revert availability c. induction events as [|e events IH]; intros availability c; [eexists; constructor|].
  destruct e as [k tier r|tier|tier].
  - assert (∃ c1, serve sz config (availability tier) k tier r c c1) as [c1 H1].
    { destruct c as [D t]. destruct (decide (k ∈ D)); [eexists; by apply serve_hit|].
      destruct (availability tier); [eexists; by apply serve_reject|eexists; by apply serve_unavailable]. }
    destruct (IH availability c1) as [c' Hc']. exists c'. by eapply history_access.
  - destruct (IH (set_available tier false availability) c) as [c' Hc']. exists c'. by constructor.
  - destruct (IH (set_available tier true availability) c) as [c' Hc']. exists c'. by constructor.
Qed.

(** What the oracle promises of its result. *)
Record optimal (config : CacheReplayConfig) events (result : OfflineOracleResult) : Prop := {
  op_achieved : ∃ D, history sz config (initial_availability config) events (∅, 0) (D, or_total_service_ns result) ∧
    fits sz config D ∧ or_resident_bytes result = sizes sz D ∧
    or_evictions result + Z.of_nat (size D) = or_admitted result;
  op_least D t : history sz config (initial_availability config) events (∅, 0) (D, t) →
    or_total_service_ns result ≤ t;
  op_accesses : or_accesses result = access_count events ∧ or_hits result + or_misses result = or_accesses result;
  op_misses : or_misses result = or_admitted result + or_rejected result + or_source_failures result
}.
Lemma oracle_yields config events bounds : 0 ≤ cr_capacity_bytes config < u64_bound → 0 ≤ cr_maximum_entries config →
  0 ≤ ob_maximum_distinct_objects bounds → Forall (event_ok sz) events →
  yields (replay_offline_oracle config events bounds) (optimal config events).
Proof.
  intros Hcap Hmax Hobj Hev. unfold replay_offline_oracle.
  assert (yields (validate_replay_config config (zlen events)) (λ _, zlen events ≤ 10000000)) as Hv1.
  { unfold validate_replay_config. destruct (_ || _) eqn:E; [by eexists|]. bools. cbn. lia. }
  eapply yields_bind; [apply Hv1|]. intros [] Hlen.
  assert (yields (validate_bounds bounds (zlen events)) (λ _, ob_maximum_distinct_objects bounds ≤ 16)) as Hv2.
  { unfold validate_bounds. destruct (_ || _) eqn:E; [by eexists|]. unfold MAX_OFFLINE_ORACLE_DISTINCT_OBJECTS in E.
    bools. cbn. lia. }
  eapply yields_bind; [apply Hv2|]. intros [] Hmo.
  eapply yields_bind; [apply (inventory_loop_yields events _ ∅ [] Hev numbered_empty); by change (zlen []) with 0|].
  intros [indices bytes] (ks & [[Hnd Hnum] Hb Hin _ Hbound]). cbn [fst snd] in *. subst bytes.
  assert (length ks ≤ 64)%nat as Hks by (unfold zlen in *; lia).
  assert (held ks 0 = ∅) as Hh0 by (by eapply held_zero).
  eapply yields_bind; [apply (oracle_events_yields sz Hsz ks Hnd Hks config bounds ltac:(lia) indices);
    [done|by apply initial_states_ok|done|]|].
  { cbn [os_accesses]. unfold u64_bound. lia. }
  intros s [T1 T2 T3 T4]. cbn [os_states os_accesses] in *.
  pose proof (min_by_spec (compare_final (sz <$> ks)) (states_iter (os_states s))) as Hmin.
  destruct (min_by _ _) as [[m c]|]; [|by eexists]. destruct Hmin as [Hin' Hle]. apply elem_of_states_iter in Hin'.
  cbn [fst snd] in Hin'.
  destruct (T3 m c Hin') as (m0 & c0 & H0 & Hh). apply lookup_singleton_Some in H0 as [<- <-]. rewrite Hh0 in Hh.
  destruct (T2 m c Hin') as [Hm (L1 & L2 & L3 & _)].
  assert (fits sz config ∅) as Hf0 by (split; [by rewrite size_empty|rewrite sizes_empty; lia]).
  pose proof (history_fits _ _ _ _ _ Hh Hf0) as Hf. cbn [fst] in Hf.
  split; cbn [or_accesses or_hits or_misses or_admitted or_rejected or_source_failures or_evictions or_resident_bytes
    or_total_service_ns].
  - exists (held ks m). split_and!; [done|done| |].
    + unfold final_bytes. rewrite (state_bytes_held sz Hsz ks Hnd Hks). destruct Hf as [_ Hf].
      by rewrite (proj2 (Z.ltb_lt _ _)) by lia.
    + by rewrite (held_size ks Hnd Hks m Hm).
  - intros D t Hh'. destruct (T4 0 OracleCost_default 0 D t) as (m1 & _ & c1 & H1 & Ht1).
    + by rewrite lookup_singleton_eq.
    + done.
    + by rewrite Hh0.
    + etrans; [|exact Ht1]. apply (compare_final_le (sz <$> ks) (m, c) (m1, c1)), Hle. by apply elem_of_states_iter.
  - split; [by rewrite T1|lia].
  - done.
Qed.
(** The bounds the oracle needs for [objects] objects. *)
Definition roomy (bounds : OfflineOracleBounds) events : Prop :=
  let objects := Z.of_nat (size (trace_keys events)) in
  objects ≤ ob_maximum_distinct_objects bounds ∧ 2 ^ objects ≤ ob_maximum_states bounds ∧
  zlen events * (2 ^ objects * (2 ^ objects + 1)) ≤ ob_maximum_transitions bounds.
Lemma numbered_trace events indices ks : numbered indices ks → Forall (inventoried sz ks indices) events →
  (∀ k, k ∈ ks → k ∈ trace_keys events) → zlen ks = Z.of_nat (size (trace_keys events)).
Proof.
  intros [Hnd Hn] Hev Hks. unfold zlen. rewrite <-(size_list_to_set (C:=gset Id32) ks Hnd). do 2 f_equal.
  apply set_eq. intros k. rewrite elem_of_list_to_set. split; [apply Hks|]. unfold trace_keys.
  rewrite elem_of_list_to_set, list_elem_of_omap. intros (e & He & Hk). rewrite list.Forall_forall in Hev.
  apply Hev in He. destruct e; [|done..]. simplify_eq. destruct He as (_ & _ & i & _ & Hi).
  by eapply list_elem_of_lookup_2.
Qed.
Lemma inventory_loop_keys events maximum indices bytes out : inventory_loop events maximum indices bytes = Ok out →
  ∀ k, k ∈ dom out.1 → k ∈ dom indices ∪ trace_keys events.
Proof.
  revert indices bytes. induction events as [|e events IH]; intros indices bytes; cbn [inventory_loop].
  { intros [= <-] k. set_solver. }
  destruct e as [k tier r|tier|tier]; [|by apply IH..].
  assert (trace_keys (Access k tier r :: events) = {[k]} ∪ trace_keys events) as -> by done.
  intros Hr. inv_ok. destruct (indices !! k); inv_ok.
  all: match goal with Hl : inventory_loop _ _ _ _ = Ok _ |- _ =>
         intros key Hkey; specialize (IH _ _ Hl key Hkey) end; rewrite ?dom_insert_L in IH; set_solver.
Qed.
Lemma oracle_returns config events bounds : validate_replay_config config (zlen events) = Ok tt →
  validate_bounds bounds (zlen events) = Ok tt → Forall (event_ok sz) events → roomy bounds events →
  0 ≤ cr_capacity_bytes config < u64_bound → 0 ≤ cr_maximum_entries config →
  ∃ result, replay_offline_oracle config events bounds = Ok result ∧ optimal config events result.
Proof.
  intros Hv Hb Hev (Hobj & Hst & Htr) Hcap Hmax.
  pose proof (oracle_yields config events bounds Hcap Hmax ltac:(lia) Hev) as Hy.
  destruct (inventory_loop_room events (ob_maximum_distinct_objects bounds) ∅ [] Hev numbered_empty) as [[indices
    bytes] Hinv].
  { by rewrite dom_empty_L, union_empty_l_L. }
  pose proof (inventory_loop_yields events (ob_maximum_distinct_objects bounds) ∅ [] Hev numbered_empty) as Hyi.
  rewrite fmap_nil in *. rewrite Hinv in Hyi.
  destruct Hyi as (ks & [Hn Hbytes Hin _ Hbound]); [change (zlen []) with 0; lia|]. cbn [fst snd] in *. subst bytes.
  assert (zlen ks = Z.of_nat (size (trace_keys events))) as Hlen.
  { eapply numbered_trace; [done|done|]. intros k Hk. pose proof (inventory_loop_keys _ _ _ _ _ Hinv k) as Hd.
    cbn [fst] in Hd.
    rewrite (numbered_dom _ _ Hn), dom_empty_L, union_empty_l_L in Hd. apply Hd. set_solver. }
  assert (ob_maximum_transitions bounds < u64_bound) as Htb.
  { unfold validate_bounds in Hb. inv_ok. unfold MAX_OFFLINE_ORACLE_TRANSITIONS in *. bools. unfold u64_bound. lia. }
  assert (length ks ≤ 64)%nat as Hks.
  { unfold validate_bounds in Hb. inv_ok. unfold MAX_OFFLINE_ORACLE_DISTINCT_OBJECTS in *. bools. unfold zlen in *.
    lia. }
  rewrite <-Hlen in *.
  destruct (oracle_events_room sz ks Hks config bounds Hst Htb indices (initial_availability config) events
    (mkOracleState {[0 := OracleCost_default]} 1 0 0)) as (s & Hs & _); [done| |cbn [os_evaluated_transitions]; lia|].
  { intros m c. cbn [os_states]. rewrite lookup_singleton_Some. intros [<- _]. split; [done|].
    apply Z.pow_pos_nonneg; [lia|apply zlen_nonneg]. }
  unfold replay_offline_oracle in *. rewrite Hv, Hb in *. cbn [mbind outcome_bind] in *. unfold inventory in *.
  rewrite Hinv in *.
  cbn [mbind outcome_bind] in *. rewrite Hs in *. cbn [mbind outcome_bind] in *.
  pose proof (min_by_spec (compare_final (sz <$> ks)) (states_iter (os_states s))) as Hmin.
  destruct (min_by _ _) as [[m c]|]; [by eexists|]. exfalso.
  destruct (history_exists config (initial_availability config) events (held ks 0, 0)) as [[D t] Hh].
  pose proof (oracle_events_yields sz Hsz ks (proj1 Hn) Hks config bounds ltac:(lia) indices (initial_availability
    config)
    events (mkOracleState {[0 := OracleCost_default]} 1 0 0) Hin) as Htr'. rewrite Hs in Htr'.
  destruct Htr' as [_ _ _ T4]; [apply initial_states_ok; [apply Hn|done]|done| |].
  - unfold validate_replay_config in Hv. inv_ok. bools. cbn [os_accesses]. unfold u64_bound. lia.
  - destruct (T4 0 OracleCost_default 0 D t) as (m & _ & c & Hc & _);
      [by cbn; rewrite lookup_singleton_eq|done|done|].
    assert ((m, c) ∈ states_iter (os_states s)) as Hm by (by apply elem_of_states_iter). rewrite Hmin in Hm.
    set_solver.
Qed.
End trace.
