(* ===== verification/PolicyProperties.v ===== *)
(** * Properties of the store's retention policy and its cache replay

    The invariant of the TinyLFU policy, its decisions, the replay of a trace
    under every policy, and the optimality of the offline oracle, each with a
    witness on a small trace. *)
From Stdlib Require Import ZArith Lia.
From stdpp Require Import base tactics numbers list strings option sorting gmap.
From S2P Require Import Prelude Bytes Canonical Crypto Samples StorePolicy StorePolicyLaws.
From S2P Require Import CacheReplay CacheReplayLaws CacheOracle CacheOptimality.

Section policy.
Context `{CL : CryptoLaws}.
Implicit Types (config : TinyLfuConfig) (p : TinyLfuPolicy) (count : Id32 → Z) (k : Id32).

(** C35: Whatever operations a TinyLFU policy has gone through, its two queues
    list exactly the entries of their segment, once each; the protected byte
    count is the sum of the protected entries' sizes; every sketch index is
    inside the sketch and every counter in 16 bits; the sketch never
    underestimates the exact, saturating and aged access count of an object;
    and after a recorded access the protected bytes are within their share of
    the capacity. *)
Theorem policy_invariant config p count :
  0 ≤ tc_protected_fraction_millis config → 0 ≤ tc_capacity_bytes config < u64_bound →
  policy_reachable config p count →
  (∀ k, k ∈ tp_probationary p ↔ pe_segment <$> tp_entries p !! k = Some Probationary) ∧
  (∀ k, k ∈ tp_protected p ↔ pe_segment <$> tp_entries p !! k = Some Protected) ∧
  NoDup (tp_probationary p) ∧ NoDup (tp_protected p) ∧
  tp_protected_bytes p = zsum (bytes_of (tp_entries p) <$> tp_protected p) ∧
  Forall in_u16 (tp_sketch p) ∧
  (∀ k row, (row < SKETCH_DEPTH)%nat → (sketch_cell p k row < length (tp_sketch p))%nat) ∧
  (∀ k, count k ≤ estimate p k) ∧
  (∀ k r now, retention_validate r = Ok r → op_fits p (OpAccess k r now) →
     tp_protected_bytes (record_access_with_retention k r now p) ≤ protected_bound config).
Proof.
  intros Hf Hc Hr. destruct (policy_reachable_inv config p count Hf Hc Hr) as (Hw & Ec & Hcov).
  pose proof (pw_queues _ Hw) as Hq. split_and!; try apply Hq; [apply Hw|..].
  - intros. by apply sketch_cell_bound.
  - intros k. by apply covers_estimate.
  - intros k r now Hv [Hr0 Hr1]. destruct (record_access_keeps k r now p Hw Hr0 Hr1 Hv) as (_ & _ & _ & Hb & _).
    by rewrite <-Ec.
Qed.

(** The decisions of a reachable policy: the victim is the one entry that
    is least by segment (probationary first), score, last access and key, and
    there is none only when nothing is held; admission is refused from 95%
    utilization on, granted below 85%, and in between granted over the least
    probationary entry exactly when the candidate's retention value exceeds
    that entry's, or when every entry is protected. *)
Theorem policy_decides config p count :
  0 ≤ tc_protected_fraction_millis config → 0 ≤ tc_capacity_bytes config < u64_bound →
  policy_reachable config p count →
  (policy_victim p = None ↔ tp_entries p = ∅) ∧
  (∀ v, policy_victim p = Some v → ∃ e, tp_entries p !! v = Some e ∧
     ∀ k e', tp_entries p !! k = Some e' → k ≠ v → victim_cmp (v, e) (k, e') = Lt) ∧
  ∀ k r utilization,
    match admission_decision_with_retention p k r utilization with
    | RejectPromotionStopped => 950 ≤ utilization
    | Admit => utilization < 850 ∨
        850 ≤ utilization < 950 ∧ ∀ x e, tp_entries p !! x = Some e → pe_segment e = Protected
    | AdmitOverVictim v => 850 ≤ utilization < 950 ∧
        ∃ e, least_probationary p v e ∧ pe_score e < score (Z.max (estimate p k) 1) r
    | RejectLowerFrequency => 850 ≤ utilization < 950 ∧
        ∃ v e, least_probationary p v e ∧ score (Z.max (estimate p k) 1) r ≤ pe_score e
    end.
Proof.
  intros Hf Hc Hr. destruct (policy_reachable_inv config p count Hf Hc Hr) as (Hw & _ & _).
  pose proof (victim_spec p Hw) as Hv. split_and!.
  - destruct (policy_victim p) as [v|]; [|done]. destruct Hv as (e & E & _). split; [done|]. intros E0.
    by rewrite E0, lookup_empty in E.
  - intros v Ev. by rewrite Ev in Hv.
  - intros k r u. unfold admission_decision_with_retention. destruct (Z.leb_spec 950 u); [done|].
    destruct (Z.ltb_spec u 850); [by left|]. pose proof (probationary_min p Hw) as Hm.
    destruct (min_by _ _) as [[v e]|]; [|by right].
    destruct (Z.ltb_spec (pe_score e) (score (Z.max (estimate p k) 1) r)); split; eauto.
Qed.

(** Replaying a trace in which each object keeps its size never fails, under
    any of the five policies: every eviction loop ends with room for the
    incoming object; the objects left are within the byte capacity and the
    entry bound, and the reported resident bytes are their sizes; the run is
    one of the histories a cache may have, at the reported service time; and
    hits, admissions, rejections, source failures and evictions add up. *)
Theorem replay_respects_capacity (sz : Id32 → Z) policy (config : CacheReplayConfig) events :
  (∀ k, 0 ≤ sz k) → validate_replay_config config (zlen events) = Ok tt →
  0 ≤ cr_capacity_bytes config < u64_bound - 1 → 0 ≤ cr_maximum_entries config → Forall (event_ok sz) events →
  ∃ D result, replay_cache_policy policy config events = Ok result ∧
    fits sz config D ∧ re_resident_bytes result = sizes sz D ∧
    history sz config (initial_availability config) events (∅, 0) (D, re_total_service_ns result) ∧
    re_misses result = re_admitted result + re_rejected result + re_source_failures result ∧
    re_hits result + re_misses result = zlen (re_outcomes result) ∧
    zlen (re_evictions result) + Z.of_nat (size D) = re_admitted result.
Proof. intros Hsz. by apply replay_cache_policy_ok. Qed.

(** C20: The online policies never beat the offline oracle: on a trace within the
    oracle's bounds both return, and the oracle's total service time is at most
    the policy's, for each of the five policies. *)
Theorem no_policy_beats_oracle (sz : Id32 → Z) policy (config : CacheReplayConfig) events bounds :
  (∀ k, 0 ≤ sz k) → validate_replay_config config (zlen events) = Ok tt →
  validate_bounds bounds (zlen events) = Ok tt → roomy bounds events →
  0 ≤ cr_capacity_bytes config < u64_bound - 1 → 0 ≤ cr_maximum_entries config → Forall (event_ok sz) events →
  ∃ result best, replay_cache_policy policy config events = Ok result ∧
    replay_offline_oracle config events bounds = Ok best ∧
    or_total_service_ns best ≤ re_total_service_ns result.
Proof.
  intros Hsz Hv Hb Hroom Hc Hm Hev.
  destruct (replay_cache_policy_ok sz Hsz policy config events Hv Hc Hm Hev) as (D & result & Hr & _ & _ & Hh & _).
  destruct (oracle_returns sz Hsz config events bounds) as (best & Ho & [_ Hleast _ _]); try done; [lia|].
  exists result, best. eauto.
Qed.
End policy.

(** C19: The offline oracle is exact: it never panics, its total service time is
    achieved by a cache history that fits the capacity, and no history of the
    trace (any choice of what to admit and what to evict at each miss) costs
    less, with counters that describe that history; and it returns whenever
    its bounds leave room for the trace's objects.  The dynamic program over
    bit masks is thus equivalent to the minimum over all histories. *)
Theorem oracle_is_optimal (sz : Id32 → Z) (config : CacheReplayConfig) events bounds :
  (∀ k, 0 ≤ sz k) → 0 ≤ cr_capacity_bytes config < u64_bound → 0 ≤ cr_maximum_entries config →
  0 ≤ ob_maximum_distinct_objects bounds → Forall (event_ok sz) events →
  yields (replay_offline_oracle config events bounds) (optimal sz config events) ∧
  (validate_replay_config config (zlen events) = Ok tt → validate_bounds bounds (zlen events) = Ok tt →
   roomy bounds events → is_ok (replay_offline_oracle config events bounds) = true).
Proof.
  intros Hsz Hc Hm Ho Hev. split; [by apply oracle_yields|]. intros Hv Hb Hr.
  by destruct (oracle_returns sz Hsz config events bounds) as (result & -> & _).
Qed.

Module PolicyWitnesses.
Import ToyInstances.
Definition key (n : Z) : Id32 := replicate 32 n.
Definition tier : ReplayTierProfile := mkReplayTierProfile 1000000000 5 true.
(** Room for two of the three objects of four bytes. *)
Definition config : CacheReplayConfig := mkCacheReplayConfig 8 2 tier tier tier.
Definition inputs : RetentionInputs := conservative 4 100.
Definition access (n : Z) : CacheTraceEvent := Access (key n) Local_tier inputs.
Definition trace : list CacheTraceEvent :=
  [access 1; access 2; access 3; SourceFailed Local_tier; access 1; access 2; SourceRecovered Local_tier; access 1].
Definition size_of (k : Id32) : Z := 4.
Lemma size_of_nonneg k : 0 ≤ size_of k.
Proof. done. Qed.
Lemma trace_ok : Forall (event_ok size_of) trace.
Proof. repeat constructor. Qed.
Lemma trace_roomy : roomy OfflineOracleBounds_default trace.
Proof. unfold roomy. vm_compute. split_and!; discriminate. Qed.
Lemma replay_respects_capacity_witness : ∃ D result, replay_cache_policy TinyLfu config trace = Ok result ∧
  fits size_of config D ∧ re_resident_bytes result = sizes size_of D.
Proof.
  destruct (replay_respects_capacity size_of TinyLfu config trace size_of_nonneg eq_refl ltac:(by vm_compute)
    ltac:(by vm_compute) trace_ok) as (D & result & ? & ? & ? & _).
  by exists D, result.
Defined.
(** The oracle keeps the first two objects: 27 ns against 136 ns for LRU. *)
Lemma no_policy_beats_oracle_witness : ∃ result best, replay_cache_policy Lru config trace = Ok result ∧
  replay_offline_oracle config trace OfflineOracleBounds_default = Ok best ∧
  or_total_service_ns best ≤ re_total_service_ns result.
Proof.
  exact (no_policy_beats_oracle size_of Lru config trace OfflineOracleBounds_default size_of_nonneg eq_refl eq_refl
    trace_roomy ltac:(by vm_compute) ltac:(by vm_compute) trace_ok).
Defined.
Example oracle_total : or_total_service_ns <$>
    match replay_offline_oracle config trace OfflineOracleBounds_default with Ok r => Some r | _ => None end = Some 27.
Proof. vm_compute. reflexivity. Qed.
Lemma oracle_is_optimal_witness :
  is_ok (replay_offline_oracle config trace OfflineOracleBounds_default) = true ∧
  yields (replay_offline_oracle config trace OfflineOracleBounds_default) (optimal size_of config trace).
Proof.
  destruct (oracle_is_optimal size_of config trace OfflineOracleBounds_default size_of_nonneg ltac:(by vm_compute)
    ltac:(by vm_compute) ltac:(by vm_compute) trace_ok) as [Hy Hok].
  split; [|exact Hy]. exact (Hok eq_refl eq_refl trace_roomy).
Defined.

(** A policy of 64 counters a row after two accesses of one object. *)
Definition lfu_config : TinyLfuConfig := mkTinyLfuConfig 100 64 10 800.
Definition fresh : TinyLfuPolicy :=
  match TinyLfuPolicy_new lfu_config with Ok p => p | _ => mkTinyLfuPolicy lfu_config [] 0 ∅ [] [] 0 ∅ end.
Definition once : TinyLfuPolicy := apply_op (OpAccess (key 1) inputs 1) fresh.
Definition twice : TinyLfuPolicy := apply_op (OpAccess (key 1) inputs 2) once.
Definition count_once : Id32 → Z := tally_op (OpAccess (key 1) inputs 1) fresh (λ _, 0).
Definition count_twice : Id32 → Z := tally_op (OpAccess (key 1) inputs 2) once count_once.
Lemma twice_reachable : policy_reachable lfu_config twice count_twice.
Proof. apply reach_op; [apply reach_op; [by apply reach_new|]|]; by vm_compute. Qed.
Lemma policy_invariant_witness : 2 ≤ estimate twice (key 1).
Proof.
  destruct (policy_invariant lfu_config twice count_twice ltac:(by vm_compute) ltac:(by vm_compute) twice_reachable)
    as (_ & _ & _ & _ & _ & _ & _ & Hcount & _).
  exact (Hcount (key 1)).
Defined.
Lemma policy_decides_witness : policy_victim twice = Some (key 1) ∧ tp_entries twice ≠ ∅.
Proof.
  destruct (policy_decides lfu_config twice count_twice ltac:(by vm_compute) ltac:(by vm_compute) twice_reachable)
    as ([_ Hnone] & _).
  assert (policy_victim twice = Some (key 1)) as E by (vm_compute; reflexivity). split; [exact E|].
  intros H. rewrite (Hnone H) in E. discriminate E.
Defined.

(** ** Two behaviours worth knowing *)
(** A hit replaces the entry's size but not the resident total, so the replay
    can hold more bytes than its capacity: 199 of 100 here. *)
Definition resized (n : Z) (bytes : Z) : CacheTraceEvent := Access (key n) Local_tier (conservative bytes 100).
Definition small_config : CacheReplayConfig := mkCacheReplayConfig 100 4 tier tier tier.
Definition held_bytes (s : ReplayState) : Z := zsum (entry_bytes s <$> elements (dom (rs_entries s))).
Example replay_hit_drift :
  match replay_events small_config (initial_availability small_config) [resized 1 1; resized 1 100; resized 2 99]
          (initial_replay_state Lru small_config fresh) CacheReplayResult_default with
  | Ok (s, _) => rs_resident_bytes s = 100 ∧ held_bytes s = 199
  | _ => False
  end.
Proof. vm_compute. split; reflexivity. Qed.
(** After a failed flush the drained records overwrite newer ones. *)
Definition drained : list PendingPolicyAccess := (drain_pending once).1.
Definition accessed_again : TinyLfuPolicy := apply_op (OpAccess (key 1) inputs 2) (drain_pending once).2.
Example restore_pending_stale :
  pa_last_access_ns <$> tp_pending accessed_again !! key 1 = Some 2 ∧
  pa_last_access_ns <$> tp_pending (restore_pending drained accessed_again) !! key 1 = Some 1 ∧
  pe_last_access_ns <$> tp_entries (restore_pending drained accessed_again) !! key 1 = Some 2.
Proof. vm_compute. split_and!; reflexivity. Qed.
End PolicyWitnesses.
