(* ===== verification/RestorePlan.v ===== *)
(** * Restore plans (crates/kvpack/src/restore.rs, restore/helpers.rs)

    Resources and their limits, the authenticated chain of manifests, its
    chunks in the local catalog, and the scatter plan that writes them into the
    engine's planes.  The files and the catalog of the store are a snapshot
    [StoreView]: what a read of a manifest, a catalog query and a stat return.
    The maps of the source are finite maps; where the source iterates one, the
    model iterates it in key order. *)
From Stdlib Require Import ZArith Lia.
From stdpp Require Import base tactics numbers list strings option sorting gmap.
From S2P Require Import Prelude Bytes Canonical Wire State Identity Manifest Validator Deps.
From S2P Require Import Crypto Ids Pack StorePolicy.

(** [From<PackError> for StoreError] *)
Definition store_error (error : PackError) : StoreError :=
  match error with
  | Authentication message => SAuthentication message
  | Codec_error message => SCodec message
  | Poisoned message => SPoisoned message
  | other => SPack other
  end.
Definition of_pack {A} (r : result A) : sresult A :=
  match r with Ok a => Ok a | Err e => Err (store_error e) | Panic w => Panic w end.
Definition auth_error {A} (why : string) : sresult A := Err (SAuthentication why).

(** ** Resources *)
Inductive RestoreTier := Tier_Local | Tier_Gateway | Tier_Resident | Tier_Recompute.
Definition tier_order (tier : RestoreTier) : Z :=
  match tier with Tier_Resident => 0 | Tier_Local => 1 | Tier_Gateway => 2 | Tier_Recompute => 3 end.
Record RestoreResourceRequirements := mkRequirements {
  rq_shadow_bytes : Z;
  rq_pinned_source_bytes : Z;
  rq_scratch_bytes_per_task : Z;
  rq_staging_bytes : Z;
  rq_receive_window_bytes : Z;
  rq_safety_margin_bytes : Z;
  rq_source_pins : Z;
  rq_source_fds : Z
}.
Record RestoreResourceCharge := mkCharge {
  rg_shadow_bytes : Z;
  rg_pinned_source_bytes : Z;
  rg_scratch_bytes : Z;
  rg_staging_bytes : Z;
  rg_receive_window_bytes : Z;
  rg_safety_margin_bytes : Z;
  rg_source_pins : Z;
  rg_source_fds : Z
}.
Definition RestoreResourceCharge_default : RestoreResourceCharge := mkCharge 0 0 0 0 0 0 0 0.
Definition charge_checked_add (a b : RestoreResourceCharge) : option RestoreResourceCharge :=
  shadow ← checked_add (rg_shadow_bytes a) (rg_shadow_bytes b);
  pinned ← checked_add (rg_pinned_source_bytes a) (rg_pinned_source_bytes b);
  scratch ← checked_add (rg_scratch_bytes a) (rg_scratch_bytes b);
  staging ← checked_add (rg_staging_bytes a) (rg_staging_bytes b);
  window ← checked_add (rg_receive_window_bytes a) (rg_receive_window_bytes b);
  margin ← checked_add (rg_safety_margin_bytes a) (rg_safety_margin_bytes b);
  pins ← checked_add (rg_source_pins a) (rg_source_pins b);
  fds ← checked_add (rg_source_fds a) (rg_source_fds b);
  Some (mkCharge shadow pinned scratch staging window margin pins fds).
Record RestoreLimits := mkLimits {
  rl_maximum_shadow_bytes : Z;
  rl_maximum_pinned_source_bytes : Z;
  rl_maximum_scratch_bytes : Z;
  rl_maximum_staging_bytes : Z;
  rl_maximum_receive_window_bytes : Z;
  rl_maximum_safety_margin_bytes : Z;
  rl_maximum_source_pins : Z;
  rl_maximum_source_fds : Z;
  rl_maximum_parallelism : Z
}.
Definition RestoreLimits_default : RestoreLimits :=
  mkLimits (4 * 1024 * 1024 * 1024 * 1024) (4 * 1024 * 1024 * 1024 * 1024) (256 * 1024 * 1024)
    (4 * 1024 * 1024 * 1024 * 1024) (256 * 1024 * 1024) (256 * 1024 * 1024) 1000000 1000000 4.
Definition charge_within_limits (charge : RestoreResourceCharge) (limits : RestoreLimits) : bool :=
  (rg_shadow_bytes charge <=? rl_maximum_shadow_bytes limits)
  && (rg_pinned_source_bytes charge <=? rl_maximum_pinned_source_bytes limits)
  && (rg_scratch_bytes charge <=? rl_maximum_scratch_bytes limits)
  && (rg_staging_bytes charge <=? rl_maximum_staging_bytes limits)
  && (rg_receive_window_bytes charge <=? rl_maximum_receive_window_bytes limits)
  && (rg_safety_margin_bytes charge <=? rl_maximum_safety_margin_bytes limits)
  && (rg_source_pins charge <=? rl_maximum_source_pins limits)
  && (rg_source_fds charge <=? rl_maximum_source_fds limits).
Definition resource_charge (resources : RestoreResourceRequirements) (parallelism : Z) : sresult RestoreResourceCharge
  :=
  scratch_bytes ← ok_or (checked_mul (rq_scratch_bytes_per_task resources) parallelism)
                    (SQuota "parallel restore scratch bound overflow");
  if parallelism =? 0 then Err (SQuota "restore parallelism must be nonzero") else
  Ok (mkCharge (rq_shadow_bytes resources) (rq_pinned_source_bytes resources) scratch_bytes
        (rq_staging_bytes resources) (rq_receive_window_bytes resources) (rq_safety_margin_bytes resources)
        (rq_source_pins resources) (rq_source_fds resources)).
Definition validate_limits (resources : RestoreResourceRequirements) (limits : RestoreLimits) (parallelism : Z)
    : sresult RestoreResourceCharge :=
  charge ← resource_charge resources parallelism;
  if (rl_maximum_parallelism limits <? parallelism) || negb (charge_within_limits charge limits) then
    Err (SQuota "authenticated restore plan exceeds declared resource limits")
  else Ok charge.

(** ** Chains *)
Record AuthenticatedManifest := mkAuthenticatedManifest { am_manifest_id : Id32; am_manifest : CutManifest }.
Record StoredChunkAvailabilityRow := mkStoredChunkAvailabilityRow {
  av_chunk_id : bytes;
  av_object_digest : bytes;
  av_key_epoch : Z;
  av_plaintext_bytes : Z;
  av_object_bytes : Z;
  av_fidelity_rung : Z;
  av_location_state : string
}.
(** A row of the table of prefix checkpoints. *)
Record CheckpointRow := mkCheckpointRow {
  cp_semantic_id : Id32;
  cp_family_id : Id32;
  cp_prefix_id : Id32;
  cp_manifest_id : Id32;
  cp_token_count : Z
}.
(** What the store's files and catalog answer: the bytes of a manifest, the key
    schedule of an epoch, the available row of a chunk, the length of a chunk
    file and whether it is a regular one, the tenant's prefix checkpoints in
    the order the catalog scans them, the key epoch of a manifest that is
    locally available and not tombstoned, and whether an I/O error says that a
    file does not exist. *)
Record StoreView := mkStoreView {
  sv_tenant_namespace : Id32;
  sv_key_epoch : Z;
  sv_minimum_readable_key_epoch : Z;
  sv_manifest_bytes : Id32 → sresult bytes;
  sv_schedule : Z → sresult KeySchedule;
  sv_chunk_row : Id32 → option StoredChunkAvailabilityRow;
  sv_chunk_stat : Id32 → option (bool * Z);
  sv_checkpoints : list CheckpointRow;
  sv_local_manifest : Id32 → option Z;
  sv_io_not_found : StoreError → bool
}.

Section chain.
Context `{Crypto}.
Implicit Types (store : StoreView) (chain : list AuthenticatedManifest).

Definition load_authenticated_manifest store (id : Id32) (minimum_key_epoch : Z) (context : ValidationContext)
    : sresult AuthenticatedManifest :=
  b ← sv_manifest_bytes store id;
  header ← of_pack (inspect_pack_header b);
  if negb (bytes_eqb (ph_tenant_namespace header) (sv_tenant_namespace store)) then
    auth_error "manifest candidate belongs to another tenant" else
  if (ph_key_epoch header <? minimum_key_epoch) || (sv_key_epoch store <? ph_key_epoch header) then Err SNotFound else
  keys ← sv_schedule store (ph_key_epoch header);
  manifest ← of_pack (decode_authenticated_pack b keys context);
  canonical ← of_pack (manifest_encode_canonical manifest);
  if negb (bytes_eqb (manifest_id canonical) id) then
    auth_error "manifest candidate identity does not match its catalog row"
  else Ok (mkAuthenticatedManifest id manifest).

(** [u8] addition of a checked build. *)
Definition add_u8 (a b : Z) : sresult Z := if a + b <? 256 then Ok (a + b) else Panic "attempt to add with overflow".
Notation Loaded := (gmap Id32 AuthenticatedManifest).
Definition load_authenticated_manifest_cached store (id : Id32) (minimum_key_epoch : Z) (context : ValidationContext)
    (cache : Loaded) : sresult (AuthenticatedManifest * Loaded) :=
  match cache !! id with
  | Some manifest => Ok (manifest, cache)
  | None =>
      manifest ← load_authenticated_manifest store id minimum_key_epoch context;
      Ok (manifest, <[id := manifest]> cache)
  end.
(** The loop over the parents of the leaf; [reverse] ends with the leaf. *)
Fixpoint parents_loop (fuel : nat) store (minimum_key_epoch : Z) (context : ValidationContext) (leaf : CutManifest)
    (current : CutManifest) (seen : gset Id32) (reversed : list AuthenticatedManifest) (cache : Loaded)
    : sresult (list AuthenticatedManifest * Loaded) :=
  match rc_kind (cm_realized_schema current) with
  | Full => Ok (reversed, cache)
  | Delta parent parent_cut depth =>
      match fuel with
      | O => Panic "the parent chain does not end"
      | S fuel =>
          if (depth =? 0) || (MAX_DELTA_DEPTH <? depth) || bool_decide (parent ∈ seen) then
            auth_error "manifest parent chain depth or cycle is invalid" else
          '(loaded, cache) ← load_authenticated_manifest_cached store parent minimum_key_epoch context cache;
          let m := am_manifest loaded in
          if negb (bool_decide (cm_input_cut m = parent_cut))
             || negb (bool_decide (cm_semantic_model m = cm_semantic_model leaf))
             || negb (bool_decide (cm_family m = cm_family leaf))
             || negb (bytes_eqb (cm_tenant_namespace m) (cm_tenant_namespace leaf))
             || negb (cm_key_epoch m =? cm_key_epoch leaf) then
            auth_error "manifest parent is incompatible with its authenticated child" else
          parent_depth ← add_u8 (ManifestKind_depth (rc_kind (cm_realized_schema m))) 1;
          if negb (parent_depth =? depth) then
            auth_error "manifest parent is incompatible with its authenticated child" else
          parents_loop fuel store minimum_key_epoch context leaf m ({[parent]} ∪ seen) (loaded :: reversed) cache
      end
  end.
Definition authenticate_chain_cached store (leaf_id : Id32) (minimum_key_epoch : Z)
    (expected : option (Id32 * Id32 * InputCutId)) (context : ValidationContext) (cache : Loaded)
    : sresult (list AuthenticatedManifest * Loaded) :=
  '(leaf, cache) ← load_authenticated_manifest_cached store leaf_id minimum_key_epoch context cache;
  let m := am_manifest leaf in
  _ ← match expected with
      | None => Ok tt
      | Some (semantic, family, cut) =>
          if negb (bytes_eqb (semantic_model_id (cm_semantic_model m)) semantic) then
            auth_error "catalog candidate does not authenticate the matched prefix" else
          family_id ← of_pack (representation_family_id (cm_family m));
          if negb (bytes_eqb family_id family) || negb (bool_decide (cm_input_cut m = cut)) then
            auth_error "catalog candidate does not authenticate the matched prefix"
          else Ok tt
      end;
  '(chain, cache) ← parents_loop (S (Z.to_nat MAX_DELTA_DEPTH)) store minimum_key_epoch context m m {[leaf_id]} [leaf]
    cache;
  match chain with
  | [] => Panic "index out of bounds"
  | root :: _ =>
      if negb (bool_decide (rc_kind (cm_realized_schema (am_manifest root)) = Full))
         || negb (zlen chain =? ManifestKind_depth (rc_kind (cm_realized_schema m)) + 1) then
        auth_error "manifest chain does not terminate at the declared full root"
      else Ok (chain, cache)
  end.
Definition authenticate_chain store (leaf_id : Id32) (minimum_key_epoch : Z)
    (expected : option (Id32 * Id32 * InputCutId)) (context : ValidationContext) : sresult (list
      AuthenticatedManifest) :=
  '(chain, _) ← authenticate_chain_cached store leaf_id minimum_key_epoch expected context ∅; Ok chain.

Definition chain_identity chain : Id32 :=
  sha256_digest (ascii_bytes "kvpack/v1/restore-chain" ++ [0] ++ put_u64 (zlen chain) ++ mjoin (am_manifest_id <$>
    chain)).

(** ** Chunks in the local catalog *)
Inductive CachedChunkAvailability :=
  | Missing
  | Available (row : StoredChunkAvailabilityRow)
  | Tombstoned (row : StoredChunkAvailabilityRow).
Notation Availabilities := (gmap Id32 CachedChunkAvailability).
Record ChainChunkDisposition := mkDisposition { cd_complete : bool; cd_tombstoned : gset Id32 }.
Definition chain_references chain : list ChunkRef :=
  entry ← chain; state ← cm_states (am_manifest entry); sm_chunks state.
Definition conflicting {A} : sresult A := auth_error "one local object key has conflicting authenticated references".
(** Insert every reference under its object key; conflicting ones are refused. *)
Fixpoint collect_references (refs : list ChunkRef) (acc : gmap Id32 ChunkRef) : sresult (gmap Id32 ChunkRef) :=
  match refs with
  | [] => Ok acc
  | r :: refs =>
      match acc !! cr_object_key r with
      | Some existing => if bool_decide (existing =
        r) then collect_references refs (<[cr_object_key r := r]> acc) else conflicting
      | None => collect_references refs (<[cr_object_key r := r]> acc)
      end
  end.
Definition validate_available_reference (row : StoredChunkAvailabilityRow) (reference : ChunkRef)
    (minimum_key_epoch maximum_key_epoch : Z) : sresult unit :=
  if (av_key_epoch row <? minimum_key_epoch) || (maximum_key_epoch <? av_key_epoch row)
     || negb (av_key_epoch row =? cr_key_epoch reference)
     || negb (bytes_eqb (av_chunk_id row) (cr_chunk_id reference))
     || negb (bytes_eqb (av_object_digest row) (cr_object_digest reference))
     || negb (av_plaintext_bytes row =? cr_plaintext_bytes reference)
     || negb (av_object_bytes row =? cr_object_bytes reference) then
    auth_error "local chunk catalog disagrees with authenticated manifest"
  else Ok tt.
Definition availability_is_tombstoned (row : StoredChunkAvailabilityRow) : bool :=
  (av_fidelity_rung row =? 2) && bool_decide (av_location_state row = "TOMBSTONED"%string).
Definition in_window store (row : StoredChunkAvailabilityRow) (r : ChunkRef) : sresult unit :=
  validate_available_reference row r (sv_minimum_readable_key_epoch store) (sv_key_epoch store).
Fixpoint prefetch_loop store (unknown : list (Id32 * ChunkRef)) (cache : Availabilities) : sresult Availabilities :=
  match unknown with
  | [] => Ok cache
  | (object_key, reference) :: unknown =>
      match sv_chunk_row store object_key with
      | None => prefetch_loop store unknown (<[object_key := Missing]> cache)
      | Some row =>
          _ ← in_window store row reference;
          if availability_is_tombstoned row then prefetch_loop store unknown (<[object_key := Tombstoned row]> cache)
            else
          match sv_chunk_stat store object_key with
          | None => prefetch_loop store unknown (<[object_key := Missing]> cache)
          | Some (regular, length) =>
              if negb regular || negb (length =? cr_object_bytes reference) then
                auth_error "local chunk object metadata disagrees with authenticated manifest"
              else prefetch_loop store unknown (<[object_key := Available row]> cache)
          end
      end
  end.
Definition prefetch_local_availability store (references : gmap Id32 ChunkRef) (cache : Availabilities)
    : sresult Availabilities :=
  prefetch_loop store (filter (λ e, cache !! e.1 = None) (btree_iter references)) cache.
Fixpoint validate_cached store (refs : list ChunkRef) (cache : Availabilities) (missing : gmap Id32 ChunkRef)
    (tombstoned : gset Id32) : sresult (gmap Id32 ChunkRef * gset Id32) :=
  match refs with
  | [] => Ok (missing, tombstoned)
  | r :: refs =>
      available ← ok_or (cache !! cr_object_key r) (SState "local availability cache is incomplete");
      match available with
      | Missing =>
          match missing !! cr_object_key r with
          | Some existing =>
              if bool_decide (existing = r) then validate_cached store refs cache (<[cr_object_key r := r]> missing)
                tombstoned
              else conflicting
          | None => validate_cached store refs cache (<[cr_object_key r := r]> missing) tombstoned
          end
      | Available row => _ ← in_window store row r; validate_cached store refs cache missing tombstoned
      | Tombstoned row =>
          _ ← in_window store row r; validate_cached store refs cache missing ({[cr_object_key r]} ∪ tombstoned)
      end
  end.
Definition validate_cached_chain store chain (cache : Availabilities) : sresult ChainChunkDisposition :=
  '(missing, tombstoned) ← validate_cached store (chain_references chain) cache ∅ ∅;
  Ok (mkDisposition (bool_decide (missing = ∅)) tombstoned).
Definition chain_chunk_disposition_cached store chain (cache : Availabilities)
    : sresult (ChainChunkDisposition * Availabilities) :=
  if forallb (λ r, bool_decide (is_Some (cache !! cr_object_key r))) (chain_references chain) then
    d ← validate_cached_chain store chain cache; Ok (d, cache) else
  references ← collect_references (chain_references chain) ∅;
  cache ← prefetch_local_availability store references cache;
  d ← validate_cached_chain store chain cache;
  Ok (d, cache).
Definition chain_chunk_disposition store chain : sresult ChainChunkDisposition :=
  '(d, _) ← chain_chunk_disposition_cached store chain ∅; Ok d.
End chain.
