(* ===== verification/ScatterPlan.v ===== *)
(** * Scatter plans (crates/kvpack/src/restore/helpers.rs, sink.rs)

    What a restore of an authenticated chain needs, and the writes it makes:
    one operation per chunk, at the offset of the compact destination plane,
    and one plan per state of the leaf. *)
From Stdlib Require Import ZArith Lia.
From stdpp Require Import base tactics numbers list strings option sorting gmap.
From S2P Require Import Prelude Bytes Canonical Wire State Identity Manifest Deps Validator.
From S2P Require Import ValidatorLaws Crypto Ids Pack StorePolicy RestorePlan.

Record RestoreChunkOperation := mkOperation {
  ro_state_key : StateKey;
  ro_span : ChunkSpan;
  ro_target_offset : Z;
  ro_reference : ChunkRef;
  ro_tenant_namespace : Id32;
  ro_family : RepresentationFamilyId;
  ro_recompute : bool
}.
Record RestoreStatePlan := mkStatePlan {
  rp_declaration : StateDeclaration;
  rp_plaintext_bytes : Z;
  rp_physical_span_bytes : Z;
  rp_atomic_group : Z;
  rp_chunk_count : Z
}.
Implicit Types (chain : list AuthenticatedManifest) (m : CutManifest).

(** ** Resources of a chain *)
Definition empty_chain {A} : sresult A := Err (SState "authenticated chain is empty").
Definition chain_leaf chain : sresult CutManifest :=
  match last chain with Some leaf => Ok (am_manifest leaf) | None => empty_chain end.
Fixpoint shadow_total (states : list RealizedStateSchema) (sum : Z) : sresult Z :=
  match states with
  | [] => Ok sum
  | state :: states =>
      sum ← ok_or (checked_add sum (rs_complete_physical_bytes state)) (SState "restore shadow byte total overflow");
      shadow_total states sum
  end.
(** Pinned bytes, pins, scratch bytes per task and safety margin. *)
Definition charge_chunk (chunk : ChunkRef) (totals : Z * Z * Z * Z) : sresult (Z * Z * Z * Z) :=
  let '(pinned, pins, scratch, margin) := totals in
  pinned ← ok_or (checked_add pinned (cr_object_bytes chunk)) (SState "restore pinned byte total overflow");
  pins ← ok_or (checked_add pins 1) (SState "restore source pin count overflow");
  task ← ok_or (checked_add (cr_object_bytes chunk) (cr_plaintext_bytes chunk))
           (SState "restore scratch byte bound overflow");
  Ok (pinned, pins, Z.max scratch task, Z.max margin (cr_plaintext_bytes chunk)).
Fixpoint charge_chunks (chunks : list ChunkRef) (totals : Z * Z * Z * Z) : sresult (Z * Z * Z * Z) :=
  match chunks with
  | [] => Ok totals
  | chunk :: chunks => totals ← charge_chunk chunk totals; charge_chunks chunks totals
  end.
Definition chain_resources chain : sresult RestoreResourceRequirements :=
  leaf ← chain_leaf chain;
  shadow_bytes ← shadow_total (rc_states (cm_realized_schema leaf)) 0;
  '(pinned, pins, scratch, margin) ← charge_chunks (chain_references chain) (0, 0, 0, 0);
  Ok (mkRequirements shadow_bytes pinned scratch 0 0 margin pins pins).

(** ** The plan *)
Record PlanState := mkPlanState {
  ps_next_token : gmap StateKey Z;
  ps_chunk_counts : gmap StateKey Z;
  ps_operations : list RestoreChunkOperation
}.
Fixpoint group_states (id : Z) (states : list StateKey) (groups : gmap StateKey Z) : sresult (gmap StateKey Z) :=
  match states with
  | [] => Ok groups
  | state :: states =>
      match groups !! state with
      | Some _ => auth_error "authenticated atomic groups overlap"
      | None => group_states id states (<[state := id]> groups)
      end
  end.
Fixpoint group_by_key (groups : list AtomicGroup) (acc : gmap StateKey Z) : sresult (gmap StateKey Z) :=
  match groups with
  | [] => Ok acc
  | group :: groups => acc ← group_states (ag_id group) (ag_states group) acc; group_by_key groups acc
  end.
Definition scatter_bytes_per_token (family : FamilyState) : sresult Z :=
  width ← ok_or (width_bytes (fs_dtype family)) (SAuthentication "authenticated family dtype has no width");
  ok_or (checked_mul (fs_elements_per_token family) width)
    (SAuthentication "authenticated state bytes-per-token overflow").
Definition target_offset (family : FamilyState) (schema : RealizedStateSchema) (span : ChunkSpan) (bytes_per_token : Z)
    : sresult Z :=
  if bool_decide (fs_token_axis_rule family = TailWindow) then
    base ← ok_or (checked_mul (rs_logical_start schema) bytes_per_token)
             (SAuthentication "authenticated TailWindow target offset overflows");
    ok_or (checked_sub (cs_plaintext_offset span) base)
      (SAuthentication "authenticated TailWindow chunk precedes its declared range")
  else Ok (cs_plaintext_offset span).
(** One chunk of a state; [expected] is the token its span must start at. *)
Definition plan_chunk m (family : FamilyState) (schema : RealizedStateSchema) (key : StateKey) (bytes_per_token : Z)
    (reference : ChunkRef) (span : ChunkSpan) (expected : Z) : sresult (Z * RestoreChunkOperation) :=
  if negb (cs_token_start span =? expected) then
    auth_error "parent chain chunk spans are not exactly composable" else
  offset ← ok_or (checked_mul (cs_token_start span) bytes_per_token)
             (SAuthentication "authenticated scatter offset overflow");
  if negb (cs_plaintext_offset span =? offset) then
    auth_error "parent chain chunk spans are not exactly composable" else
  next ← ok_or (checked_add expected (cs_token_count span))
           (SAuthentication "authenticated scatter token range overflow");
  target ← target_offset family schema span bytes_per_token;
  Ok (next, mkOperation key span target reference (cm_tenant_namespace m) (cm_family m) false).
Fixpoint plan_chunks m (family : FamilyState) (schema : RealizedStateSchema) (key : StateKey) (bytes_per_token : Z)
    (chunks : list (ChunkRef * ChunkSpan)) (s : PlanState) : sresult PlanState :=
  match chunks with
  | [] => Ok s
  | (reference, span) :: chunks =>
      expected ← expect (ps_next_token s !! key) "the borrowed entry exists";
      '(next, operation) ← plan_chunk m family schema key bytes_per_token reference span expected;
      plan_chunks m family schema key bytes_per_token chunks
        (mkPlanState (<[key := next]> (ps_next_token s))
           (<[key := default 0 (ps_chunk_counts s !! key) + 1]> (ps_chunk_counts s))
           (ps_operations s ++ [operation]))
  end.
Notation ManifestRow := (StateManifest * RealizedStateSchema * FamilyState)%type.
Definition state_rows m : list ManifestRow :=
  zip (zip (cm_states m) (rc_states (cm_realized_schema m))) (family_states (cm_family m)).
Fixpoint plan_rows m (rows : list ManifestRow) (s : PlanState) : sresult PlanState :=
  match rows with
  | [] => Ok s
  | (state, schema, family) :: rows =>
      _ ← ok_or (ps_next_token s !! sm_key state) (SAuthentication "parent chain state inventory changed");
      bytes_per_token ← scatter_bytes_per_token family;
      s ← plan_chunks m family schema (sm_key state) bytes_per_token (zip (sm_chunks state) (rs_chunk_spans schema)) s;
      plan_rows m rows s
  end.
Fixpoint plan_chain chain (s : PlanState) : sresult PlanState :=
  match chain with
  | [] => Ok s
  | entry :: chain => s ← plan_rows (am_manifest entry) (state_rows (am_manifest entry)) s; plan_chain chain s
  end.
(** The plan of one state of the leaf. *)
Definition state_plan (leaf : CutManifest) (groups : gmap StateKey Z) (s : PlanState) (row : ManifestRow)
    : sresult RestoreStatePlan :=
  let '(state, schema, family) := row in
  expected_end ← ok_or (checked_add (rs_logical_start schema) (rs_logical_count schema))
                   (SAuthentication "authenticated state range overflows");
  if negb (bool_decide (ps_next_token s !! sm_key state = Some expected_end)) then
    auth_error "parent chain does not cover the complete matched cut" else
  group ← ok_or (groups !! sm_key state) (SAuthentication "authenticated state has no atomic group");
  let '(segment_shape, logical_start, logical_count, window) :=
    if bool_decide (fs_token_axis_rule family = TailWindow) then
      (rs_segment_shape schema, rs_logical_start schema, rs_logical_count schema, rs_window schema)
    else (rs_full_shape schema, 0, token_count (cm_input_cut leaf), 0) in
  elements ← of_pack (element_count segment_shape);
  width ← ok_or (width_bytes (fs_dtype family)) (SAuthentication "authenticated family dtype has no width");
  plaintext_bytes ← ok_or (checked_mul elements width) (SAuthentication "authenticated restore state byte count overflow");
  chunk_count ← expect (ps_chunk_counts s !! sm_key state) "no entry found for key";
  Ok (mkStatePlan
        (mkStateDeclaration (sm_key state) (rs_full_shape schema) segment_shape (rs_strides schema) logical_start
           logical_count (token_count (cm_input_cut leaf)) window group)
        plaintext_bytes (rs_complete_physical_bytes schema) group chunk_count).
Fixpoint state_plans (leaf : CutManifest) (groups : gmap StateKey Z) (s : PlanState) (rows : list ManifestRow)
    : sresult (list RestoreStatePlan) :=
  match rows with
  | [] => Ok []
  | row :: rows =>
      plan ← state_plan leaf groups s row;
      plans ← state_plans leaf groups s rows;
      Ok (plan :: plans)
  end.
Definition build_scatter_plan chain : sresult (list RestoreStatePlan * list RestoreChunkOperation) :=
  leaf ← chain_leaf chain;
  groups ← group_by_key (rc_atomic_groups (cm_realized_schema leaf)) ∅;
  match chain with
  | [] => empty_chain
  | first :: _ =>
      let root := am_manifest first in
      if negb (zlen (cm_states root) =? zlen (rc_states (cm_realized_schema root))) then
        auth_error "authenticated root state inventory changed" else
      let next_token : gmap StateKey Z :=
        list_to_map (reverse (zip_with (λ state schema, (sm_key state, rs_logical_start schema))
                                (cm_states root) (rc_states (cm_realized_schema root)))) in
      s ← plan_chain chain (mkPlanState next_token ∅ []);
      states ← state_plans leaf groups s (state_rows leaf);
      if Z.min (MAX_CHUNKS_PER_STATE * zlen (cm_states leaf)) (u64_bound - 1) <? zlen (ps_operations s) then
        auth_error "authenticated restore operation count exceeds bound"
      else Ok (states, ps_operations s)
  end.
Definition mark_recompute_operations (operations : list RestoreChunkOperation) (disposition : ChainChunkDisposition)
    : list RestoreChunkOperation :=
  (λ o, mkOperation (ro_state_key o) (ro_span o) (ro_target_offset o) (ro_reference o) (ro_tenant_namespace o)
          (ro_family o) (bool_decide (cr_object_key (ro_reference o) ∈ cd_tombstoned disposition))) <$> operations.

(** ** Scatter descriptors *)
Record AuthenticatedScatterDescriptor := mkScatterDescriptor {
  sc_manifest_id : Id32;
  sc_state_key : StateKey;
  sc_chunk_ordinal : Z;
  sc_batch_number : Z;
  sc_fd_index : Z;
  sc_fd_offset : Z;
  sc_fd_bytes : Z;
  sc_object_key : Id32;
  sc_object_digest : Id32;
  sc_object_bytes : Z;
  sc_plaintext_bytes : Z;
  sc_key_epoch : Z;
  sc_target_offset : Z;
  sc_target_bytes : Z;
  sc_atomic_group : Z;
  sc_attempt : Id32;
  sc_descriptor_digest : Id32
}.
Section digests.
Context `{Crypto}.
Definition scatter_descriptor_stream (d : AuthenticatedScatterDescriptor) : bytes :=
  ascii_bytes "kvpack/v1/scatter-descriptor" ++ [0] ++ sc_manifest_id d ++ put_u32 (layer (sc_state_key d)) ++
  put_u64 (zlen (state_name (sc_state_key d))) ++ state_name (sc_state_key d) ++ put_u64 (sc_chunk_ordinal d) ++
  put_u32 (sc_batch_number d) ++ put_u32 (sc_fd_index d) ++ put_u64 (sc_fd_offset d) ++ put_u64 (sc_fd_bytes d) ++
  sc_object_key d ++ sc_object_digest d ++ put_u64 (sc_object_bytes d) ++ put_u64 (sc_plaintext_bytes d) ++
  put_u64 (sc_key_epoch d) ++ put_u64 (sc_target_offset d) ++ put_u64 (sc_target_bytes d) ++
  put_u32 (sc_atomic_group d) ++ sc_attempt d.
Definition scatter_descriptor_digest (d : AuthenticatedScatterDescriptor) : Id32 :=
  sha256_digest (scatter_descriptor_stream d).
Definition verify_digest (d : AuthenticatedScatterDescriptor) : bool :=
  bytes_eqb (sc_descriptor_digest d) (scatter_descriptor_digest d).
Definition scatter_pin_stream (tenant id attempt : Id32) (chunk_ordinal : Z) (object_key : Id32) : bytes :=
  ascii_bytes "kvpack/v1/scatter-source-pin" ++ [0] ++ tenant ++ id ++ attempt ++ put_u64 chunk_ordinal ++ object_key.
Definition scatter_pin_identity (tenant id attempt : Id32) (chunk_ordinal : Z) (object_key : Id32) : sresult Id32 :=
  let identity := sha256_digest (scatter_pin_stream tenant id attempt chunk_ordinal object_key) in
  if is_zero_id identity then state_error "derived scatter pin identity is zero" else Ok identity.
End digests.

(** * Laws of scatter plans

    On a chain of validated, linked manifests the plan exists unless it has
    too many operations, and the operations of each state, in plan order, tile
    its destination plane from offset 0 to its size. *)
Implicit Types (f : FamilyState) (r : RealizedStateSchema) (p : StateManifest) (k : StateKey).

(** ** Rows of a validated manifest *)
Lemma state_rows_swap m : state_rows m = (λ row : FamilyState * RealizedStateSchema * StateManifest,
  (row.2, row.1.2, row.1.1)) <$> manifest_rows m.
Proof.
  unfold state_rows, manifest_rows. generalize (cm_states m) (rc_states (cm_realized_schema m)) (family_states
    (cm_family m)).
  induction l as [|a l IH]; intros [|b l'] [|c l'']; try done. cbn. f_equal. apply IH.
Qed.
Lemma validate_states_each m ctx cut rows totals totals' : validate_states m ctx cut rows totals = Ok totals' →
  Forall (λ row, ∃ x, validate_state m ctx cut row.1.1 row.1.2 row.2 = Ok x) rows.
Proof.
  revert totals. induction rows as [|[[f r] p] rows IH]; intros totals Hv; [constructor|].
  cbn [validate_states] in Hv.
  inv_ok. destruct x as [a b]. inv_ok. constructor; [by exists (a, b)|]. eauto.
Qed.
Lemma validate_realized_counts m range f r w seg comp : validate_realized m range f r = Ok (w, seg, comp) →
  width_bytes (fs_dtype f) = Some w ∧
  (∃ e, element_count (rs_segment_shape r) = Ok e ∧ checked_mul e w = Some seg) ∧
  (∃ e, element_count (rs_full_shape r) = Ok e ∧ checked_mul e w = Some comp).
Proof.
  intros H. destruct range as [start count]. unfold validate_realized in H. inv_ok. simplify_eq.
  split_and!; [done|..]; eauto.
Qed.
(** What the plan needs of one state. *)
Record row_plannable m f r p : Prop := {
  rw_valid : row_ok m (f, r, p);
  rw_bpt : scatter_bytes_per_token f = Ok (bytes_per_token f);
  rw_bpt_pos : 0 < bytes_per_token f ≤ MAX_CHUNK_PLAINTEXT;
  rw_bytes shape : shape = (if bool_decide (fs_token_axis_rule f =
    TailWindow) then rs_segment_shape r else rs_full_shape r) →
    ∃ e w, element_count shape = Ok e ∧ width_bytes (fs_dtype f) = Some w ∧
      checked_mul e w = Some ((if bool_decide (fs_token_axis_rule f =
        TailWindow) then manifest_tokens m - range_start m f r
                               else manifest_tokens m) * bytes_per_token f);
  rw_spans_ok : Forall ChunkSpan_ok (rs_chunk_spans r)
}.

Definition validated (ctx : ValidationContext) m : Prop := CutManifest_ok m ∧ validate_manifest m ctx = Ok tt.
Lemma chunks_bpt ctx range w f r p : validate_chunks ctx range w f r p = Ok tt →
  ∃ bpt, checked_mul (fs_elements_per_token f) w = Some bpt ∧ bpt ≠ 0 ∧ bpt ≤ MAX_CHUNK_PLAINTEXT.
Proof. intros H. destruct range as [start count]. unfold validate_chunks in H. inv_ok. bools. eexists.
  split_and!; [done|lia|lia]. Qed.
Lemma validated_rows ctx m : validated ctx m → manifest_valid m ctx ∧
  Forall (λ row, row_plannable m row.1.1 row.1.2 row.2) (manifest_rows m).
Proof.
  intros [Hm Hv]. pose proof (validate_manifest_Ok _ _ Hm Hv) as Hval. split; [done|].
  pose proof (mv_rows _ _ Hval) as Hrows. unfold validate_manifest in Hv. inv_ok. destruct x, x0, x2.
  destruct x3 as [seg comp]. inv_ok.
  match goal with H : cut_range _ = _ |- _ => apply cut_range_Ok in H as [-> Hcut];
    [|done|apply (mv_identity _ _ Hval)] end.
  match goal with H : validate_states _ _ _ _ _ = _ |- _ => apply validate_states_each in H as Heach end.
  pose proof Hm as (_ & _ & _ & _ & Hfam & Hsch & _).
  assert (Forall (λ row, FamilyState_ok row.1.1 ∧ RealizedStateSchema_ok row.1.2) (manifest_rows m)) as Hok.
  { apply rows_Forall; [apply Hfam|apply Hsch]. }
  rewrite list.Forall_forall in *. intros [[f r] p] Hin. cbn [fst snd] in *.
  destruct (Hok _ Hin) as [Hf Hr]. destruct (Heach _ Hin) as [[sg cp] Hst]. specialize (Hrows _ Hin).
  cbn [fst snd] in *.
  unfold validate_state in Hst. inv_ok. bools. destruct x0 as [[w sg'] cp']. inv_ok. simplify_eq. destruct x0.
  match goal with H : state_range _ _ _ _ = _ |- _ => apply state_range_Ok in H as (-> & Hs & Ht); [|done..] end.
  match goal with H : validate_realized _ _ _ _ = _ |- _ =>
    apply validate_realized_counts in H as HC; apply (validate_realized_Ok m (mode (cm_family m))) in H as HR;
      [|done|..] end.
  2:{ pose proof (mv_family _ _ Hval) as (_ & _ & _ & _ & _ & Hfs & _). rewrite list.Forall_forall in Hfs. apply Hfs.
      unfold manifest_rows in Hin. apply elem_of_zip_l, elem_of_zip_l in Hin. done. }
  2:{ done. }
  2:{ intros _. simpl. unfold manifest_tokens. lia. }
  destruct HC as (Hw & (e1 & He1 & Hm1) & (e2 & He2 & Hm2)).
  pose proof (dtype_width_Some f w Hw) as [-> Hwpos].
  match goal with H : validate_chunks _ _ _ _ _ _ = _ |- _ => apply chunks_bpt in H as (bpt & Hbpt & Hb0 & Hb1) end.
  pose proof Hbpt as [Eb _]%checked_mul_Some. fold (bytes_per_token f) in Eb.
  assert (0 ≤ bytes_per_token f) as Hnn by (unfold bytes_per_token; destruct Hf as (_ & _ & _ & [? _] & _); nia).
  split; [done| |lia| |apply Hr].
  - unfold scatter_bytes_per_token. rewrite Hw. cbn [ok_or mbind outcome_bind]. by rewrite Hbpt, Eb.
  - intros shape ->. case_bool_decide as Htw.
    + exists e1, (dtype_width f). split_and!; [done|done|]. rewrite Hm1. f_equal. apply (rv_segment _ _ _ _ _ _ _ HR).
    + exists e2, (dtype_width f). split_and!; [done|done|]. rewrite Hm2. f_equal.
      rewrite (rv_complete _ _ _ _ _ _ _ HR).
      unfold full_tokens. by rewrite bool_decide_false.
Qed.

(** ** Operations of one state *)
Implicit Types (o : RestoreChunkOperation) (ops : list RestoreChunkOperation) (s : PlanState).
(** The writes of [ops] fill the bytes from the first offset to the second,
    each chunk right after the one before. *)
Inductive ops_tile : Z → list RestoreChunkOperation → Z → Prop :=
  | tile_nil off : ops_tile off [] off
  | tile_cons off o ops off' :
      ro_target_offset o = off → 0 < cs_plaintext_bytes (ro_span o) →
      cr_plaintext_bytes (ro_reference o) = cs_plaintext_bytes (ro_span o) →
      ops_tile (off + cs_plaintext_bytes (ro_span o)) ops off' → ops_tile off (o :: ops) off'.
Lemma ops_tile_app off ops mid ops' off' : ops_tile off ops mid → ops_tile mid ops' off' →
  ops_tile off (ops ++ ops') off'.
Proof. intros H1 H2. induction H1; [done|]. cbn. by constructor; auto. Qed.
Definition ops_for k ops : list RestoreChunkOperation := filter (λ o, ro_state_key o = k) ops.
Lemma ops_for_app k ops ops' : ops_for k (ops ++ ops') = ops_for k ops ++ ops_for k ops'.
Proof. apply list.filter_app. Qed.
Lemma ops_for_all k ops : Forall (λ o, ro_state_key o = k) ops → ops_for k ops = ops.
Proof. induction 1 as [|o ops Ho _ IH]; [done|]. unfold ops_for in *. rewrite list.filter_cons_True by done.
  by f_equal. Qed.
Lemma ops_for_none k k' ops : k ≠ k' → Forall (λ o, ro_state_key o = k') ops → ops_for k ops = [].
Proof.
  intros Hk. induction 1 as [|o ops Ho _ IH]; [done|]. unfold ops_for in *. rewrite list.filter_cons_False; [done|].
  congruence.
Qed.
(** The effect of planning some chunks of state [k]. *)
Record planned k (t' : Z) ops s s' : Prop := {
  pl_next : ps_next_token s' !! k = Some t';
  pl_next_other k' : k' ≠ k → ps_next_token s' !! k' = ps_next_token s !! k';
  pl_count : default 0 (ps_chunk_counts s' !! k) = default 0 (ps_chunk_counts s !! k) + zlen ops;
  pl_counted : is_Some (ps_chunk_counts s !! k) ∨ ops ≠ [] → is_Some (ps_chunk_counts s' !! k);
  pl_count_other k' : k' ≠ k → ps_chunk_counts s' !! k' = ps_chunk_counts s !! k';
  pl_operations : ps_operations s' = ps_operations s ++ ops
}.
(** The byte the destination plane of a state starts at. *)
Definition plane_base f r : Z :=
  if bool_decide (fs_token_axis_rule f = TailWindow) then rs_logical_start r * bytes_per_token f else 0.
Lemma target_offset_ok f r span bpt base : bpt = bytes_per_token f → base = plane_base f r → 0 ≤ rs_logical_start r →
  base ≤ cs_plaintext_offset span < u64_bound →
  target_offset f r span bpt = Ok (cs_plaintext_offset span - base).
Proof.
  intros -> -> Hs Hb. unfold target_offset, plane_base in *. case_bool_decide; [|f_equal; lia].
  rewrite (proj2 (checked_mul_Some _ _ _)) by (split; [done|lia]). cbn [ok_or mbind outcome_bind].
  by rewrite (proj2 (checked_sub_Some _ _ _)) by (split; [done|lia]).
Qed.
Lemma plan_chunks_ok m f r k bpt spans refs s t t' :
  bpt = bytes_per_token f → 0 ≤ rs_logical_start r → plane_base f r ≤ t * bpt →
  spans_cover bpt t spans t' → Forall2 chunk_ref_valid spans refs → Forall ChunkSpan_ok spans → 0 < bpt →
  0 ≤ t → t' < u64_bound → ps_next_token s !! k = Some t →
  ∃ s' ops, plan_chunks m f r k bpt (zip refs spans) s = Ok s' ∧ planned k t' ops s s' ∧
    ops_tile (t * bpt - plane_base f r) ops (t' * bpt - plane_base f r) ∧
    Forall (λ o, ro_state_key o = k) ops ∧ ro_reference <$> ops = refs ∧ ro_span <$> ops = spans ∧
    Forall (λ o, ro_tenant_namespace o = cm_tenant_namespace m ∧ ro_family o = cm_family m ∧ ro_recompute o =
      false) ops.
Proof.
  intros Eb Hls Hbase Hcov. revert refs s. induction Hcov as [t|t span spans t' Hst Hct Hoff Hby Hpos Hcov IH];
    intros refs s Hrefs Hok Hb Ht Ht' Hn.
  { apply Forall2_nil_inv_l in Hrefs as ->. exists s, [].
    split_and!; [done| |constructor|constructor|done|done|constructor].
    split; try done; [by rewrite Z.add_0_r|by intros [?|?]|by rewrite app_nil_r]. }
  apply Forall2_cons_inv_l in Hrefs as (c & refs' & Hc & Hrefs & ->). apply Forall_cons in Hok as [Hspan Hok].
  pose proof (spans_cover_le _ _ _ _ Hcov) as Hle. destruct Hspan as (_ & _ & [Ho0 Ho1] & _). subst t.
  cbn [zip zip_with plan_chunks]. rewrite Hn. cbn [expect mbind outcome_bind]. unfold plan_chunk.
  rewrite Z.eqb_refl. cbn [negb]. rewrite (proj2 (checked_mul_Some _ _ _)) by (split; [done|lia]).
  cbn [ok_or mbind outcome_bind].
  rewrite Hoff, Z.eqb_refl. cbn [negb]. rewrite (proj2 (checked_add_Some _ _ _)) by (split; [done|lia]).
  cbn [ok_or mbind outcome_bind].
  rewrite (target_offset_ok f r span bpt (plane_base f r)) by (done || lia). cbn [mbind outcome_bind].
  set (o := mkOperation _ _ _ _ _ _ _). set (s1 := mkPlanState _ _ _).
  destruct (IH ltac:(nia) refs' s1 Hrefs Hok Hb ltac:(lia) Ht') as (s' & ops & -> & Hpl & Htile & Hkeys & Href &
    Hspans & Hmeta).
  { cbn. by rewrite lookup_insert_eq. }
  exists s', (o :: ops). split_and!; [done| | | | | |].
  - destruct Hpl as [P1 P2 P3 P4 P5 P6]. split.
    + done.
    + intros k' Hk'. rewrite P2 by done. cbn. by rewrite lookup_insert_ne.
    + rewrite P3. cbn [ps_chunk_counts s1]. rewrite lookup_insert_eq, zlen_cons. cbn. lia.
    + intros _. apply P4. left. cbn [ps_chunk_counts s1]. by rewrite lookup_insert_eq.
    + intros k' Hk'. rewrite P5 by done. cbn. by rewrite lookup_insert_ne.
    + rewrite P6. cbn [ps_operations s1]. rewrite <-app_assoc. done.
  - constructor; [cbn; lia|apply Hpos|apply Hc|]. cbn [ro_span o]. rewrite Hby.
    replace (cs_token_start span * bpt - plane_base f r + cs_token_count span * bpt) with
      ((cs_token_start span + cs_token_count span) * bpt - plane_base f r) by lia. done.
  - by constructor.
  - rewrite fmap_cons. by f_equal.
  - rewrite fmap_cons. by f_equal.
  - by constructor.
Qed.

(** ** One manifest *)
Definition swap_row (row : FamilyState * RealizedStateSchema * StateManifest) : StateManifest * RealizedStateSchema *
  FamilyState :=
  (row.2, row.1.2, row.1.1).
Lemma ops_tile_ends off ops off' : ops_tile off ops off' → off ≤ off' ∧ (off < off' → ops ≠ []).
Proof. induction 1 as [|off o ops off' ? ? ? ? IH]; [lia|]. split; [lia|done]. Qed.
(** What planning a manifest adds for one of its states. *)
Record row_planned m (ops : list RestoreChunkOperation) s s' (row : FamilyState * RealizedStateSchema * StateManifest)
  : Prop := {
  rp_next : ps_next_token s' !! sm_key row.2 = Some (manifest_tokens m);
  rp_counted : is_Some (ps_chunk_counts s' !! sm_key row.2);
  rp_counts : default 0 (ps_chunk_counts s' !! sm_key row.2) =
              default 0 (ps_chunk_counts s !! sm_key row.2) + zlen (ops_for (sm_key row.2) ops);
  rp_tiles : ops_tile (range_start m row.1.1 row.1.2 * bytes_per_token row.1.1 - plane_base row.1.1 row.1.2)
               (ops_for (sm_key row.2) ops)
               (manifest_tokens m * bytes_per_token row.1.1 - plane_base row.1.1 row.1.2)
}.
Definition op_meta m o : Prop := ro_tenant_namespace o = cm_tenant_namespace m ∧ ro_family o = cm_family m ∧
  ro_recompute o = false.
Lemma plan_rows_ok m rows s :
  Forall (λ row, row_plannable m row.1.1 row.1.2 row.2) rows → manifest_tokens m < u64_bound →
  NoDup (sm_key <$> rows.*2) →
  Forall (λ row, ps_next_token s !! sm_key row.2 = Some (range_start m row.1.1 row.1.2)) rows →
  ∃ s' ops, plan_rows m (swap_row <$> rows) s = Ok s' ∧ ps_operations s' = ps_operations s ++ ops ∧
    ro_reference <$> ops = concat (sm_chunks <$> rows.*2) ∧ Forall (row_planned m ops s s') rows ∧
    (∀ k, k ∉ (sm_key <$> rows.*2) → ps_next_token s' !! k = ps_next_token s !! k ∧
       ps_chunk_counts s' !! k = ps_chunk_counts s !! k ∧ ops_for k ops = []) ∧
    Forall (op_meta m) ops.
Proof.
  intros Hrows Ht. revert s. induction Hrows as [|[[f r] p] rows Hrow _ IH]; intros s Hnd Hnext.
  { exists s, []. split_and!; [done|by rewrite app_nil_r|done|constructor|done|constructor]. }
  cbn [fst snd] in *. rewrite !fmap_cons in Hnd. apply NoDup_cons in Hnd as [Hnew Hnd].
  apply Forall_cons in Hnext as [Hk Hnext].
  cbn [fst snd] in *. rewrite fmap_cons. cbn [swap_row fst snd plan_rows]. rewrite Hk. cbn [ok_or mbind outcome_bind].
  destruct Hrow as [HV Hbpt [Hb1 Hb2] _ Hspans]. cbn in HV. destruct HV as [Hkeys Hst Htail HR Hcov Hrefs _].
  rewrite Hbpt. cbn [mbind outcome_bind]. pose proof (rv_start _ _ _ _ _ _ _ HR) as Els. cbn in Els.
  destruct (plan_chunks_ok m f r (sm_key p) (bytes_per_token f) (rs_chunk_spans r) (sm_chunks p) s (range_start m f r)
    (manifest_tokens m))
    as (s1 & ops1 & -> & Hpl & Htile & Hks & Href & _ & Hmeta); try done; try lia.
  { unfold plane_base. case_bool_decide; [|nia]. rewrite Els. lia. }
  cbn [mbind outcome_bind]. destruct Hpl as [P1 P2 P3 P4 P5 P6].
  assert (∀ row, row ∈ rows → sm_key row.2 ≠ sm_key p) as Hne.
  { intros row Hin E. apply Hnew. rewrite <-E. do 2 apply list_elem_of_fmap_2. done. }
  destruct (IH s1 Hnd) as (s' & ops & -> & Eops & Erefs & Hdone & Hother & Hmeta').
  { rewrite list.Forall_forall in *. intros row Hin. rewrite P2 by auto. auto. }
  destruct (Hother (sm_key p) Hnew) as (N1 & N2 & N3).
  exists s', (ops1 ++ ops). split_and!; [done|by rewrite Eops, P6, app_assoc| | | |by apply Forall_app].
  - rewrite fmap_app, Href, Erefs. done.
  - constructor.
    + split; cbn [fst snd]; rewrite ?N1, ?N2, ?ops_for_app, ?N3, ?(ops_for_all _ _ Hks), ?app_nil_r; try done.
      apply P4. right. apply (ops_tile_ends _ _ _ Htile). nia.
    + rewrite list.Forall_forall in *. intros row Hin. destruct (Hdone row Hin) as [D1 D2 D3 D4].
      specialize (Hne _ Hin). split; rewrite ?ops_for_app, ?(ops_for_none _ _ _ Hne Hks); try done.
      by rewrite D3, P5.
  - intros k. rewrite !fmap_cons, not_elem_of_cons. cbn [snd]. intros [Hk1 Hk2].
    destruct (Hother k Hk2) as (-> & -> & E).
    rewrite P2, P5, ops_for_app, E, (ops_for_none _ _ _ Hk1 Hks) by done. done.
Qed.

(** An operation on a state of the family. *)
Definition op_in (fam : RepresentationFamilyId) o : Prop :=
  ro_state_key o ∈ fs_key <$> family_states fam ∧ ro_family o = fam ∧ ro_recompute o = false.
(** The states of a validated manifest, by key. *)
Lemma manifest_row_keys ctx m : validated ctx m →
  sm_key <$> (manifest_rows m).*2 = fs_key <$> family_states (cm_family m) ∧
  (manifest_rows m).*1.*1 = family_states (cm_family m) ∧ (manifest_rows m).*2 = cm_states m ∧
  NoDup (fs_key <$> family_states (cm_family m)).
Proof.
  intros Hv. destruct (validated_rows _ _ Hv) as [HV Hrows]. pose proof (mv_counts _ _ HV) as [C1 C2].
  pose proof (mv_family _ _ HV) as (_ & _ & _ & _ & Hsort & _).
  assert ((manifest_rows m).*1.*1 = family_states (cm_family m)) as Ef.
  { unfold manifest_rows. rewrite fst_zip by (unfold zlen in *; rewrite length_zip_with; lia).
    apply fst_zip. unfold zlen in *. lia. }
  split_and!; [|done|by apply manifest_rows_states|by apply sorted_nodup].
  rewrite <-Ef, <-!list_fmap_compose. apply list_fmap_ext. intros i row Hi.
  rewrite list.Forall_forall in Hrows. apply list_elem_of_lookup_2, Hrows in Hi as [HVr _ _ _ _].
  cbn in HVr |- *. destruct (row_keys _ _ _ _ _ _ HVr) as [-> ->]. done.
Qed.
Lemma plan_manifest_ok ctx m s : validated ctx m →
  Forall (λ row, ps_next_token s !! sm_key row.2 = Some (range_start m row.1.1 row.1.2)) (manifest_rows m) →
  ∃ s' ops, plan_rows m (state_rows m) s = Ok s' ∧ ps_operations s' = ps_operations s ++ ops ∧
    ro_reference <$> ops = concat (sm_chunks <$> cm_states m) ∧ Forall (row_planned m ops s s') (manifest_rows m) ∧
    Forall (op_in (cm_family m)) ops.
Proof.
  intros Hv Hnext. destruct (validated_rows _ _ Hv) as [HV Hrows].
  destruct (manifest_row_keys _ _ Hv) as (K1 & K2 & K3 & K4).
  destruct (plan_rows_ok m (manifest_rows m) s) as (s' & ops & E1 & E2 & E3 & E4 & E5 & E6);
    [done| |by rewrite K1|done|].
  { destruct Hv as [(_ & _ & _ & (_ & _ & [_ Hb]) & _) _]. exact Hb. }
  exists s', ops. rewrite state_rows_swap. rewrite K3 in E3. split_and!; [done..|]. apply list.Forall_forall.
  intros o Ho.
  destruct (proj1 (list.Forall_forall _ _) E6 o Ho) as (_ & Hf & Hr). split_and!; [|done..].
  destruct (decide (ro_state_key o ∈ fs_key <$> family_states (cm_family m))) as [|Hn]; [done|exfalso].
  rewrite <-K1 in Hn. destruct (E5 _ Hn) as (_ & _ & Ee).
  assert (o ∈ ops_for (ro_state_key o) ops) as Hin by by apply list_elem_of_filter.
  rewrite Ee in Hin. by apply elem_of_nil in Hin.
Qed.

(** ** Chains *)
(** Validated manifests of one family, each storing the tokens from where the
    one before it ends. *)
Inductive chain_from (ctx : ValidationContext) (fam : RepresentationFamilyId) : Z → list AuthenticatedManifest → Z →
  Prop :=
  | chain_nil t : chain_from ctx fam t [] t
  | chain_cons t e chain t' :
      validated ctx (am_manifest e) → cm_family (am_manifest e) = fam → cut_start (am_manifest e) = t →
      chain_from ctx fam (manifest_tokens (am_manifest e)) chain t' → chain_from ctx fam t (e :: chain) t'.
(** The plan has reached token [t] in every state of the family. *)
Record reached (base : FamilyState → Z) (t : Z) s f : Prop := {
  re_next : ps_next_token s !! fs_key f = Some t;
  re_count : ps_chunk_counts s !! fs_key f = Some (zlen (ops_for (fs_key f) (ps_operations s)));
  re_tiles : ops_tile 0 (ops_for (fs_key f) (ps_operations s)) (t * bytes_per_token f - base f)
}.
Lemma is_Some_default (o : option Z) n : is_Some o → default 0 o = n → o = Some n.
Proof. intros [x ->] <-. done. Qed.
Lemma delta_base ctx m f r p : validated ctx m → (f, r, p) ∈ manifest_rows m → 0 < cut_start m →
  fs_token_axis_rule f ≠ TailWindow ∧ plane_base f r = 0 ∧ range_start m f r = cut_start m.
Proof.
  intros Hv Hin Hc. destruct (validated_rows _ _ Hv) as [_ Hrows]. rewrite list.Forall_forall in Hrows.
  destruct (Hrows _ Hin) as [HV _ _ _ _]. cbn in HV. pose proof (row_tail _ _ _ _ _ _ HV) as Ht.
  assert (fs_token_axis_rule f ≠ TailWindow) as Hn by (intros E%Ht; unfold cut_start in Hc; rewrite E in Hc; lia).
  unfold plane_base, range_start. by rewrite !bool_decide_false.
Qed.
Lemma row_of_family ctx m f : validated ctx m → f ∈ family_states (cm_family m) →
  ∃ r p, (f, r, p) ∈ manifest_rows m ∧ sm_key p = fs_key f.
Proof.
  intros Hv Hin. destruct (manifest_row_keys _ _ Hv) as (_ & K2 & _). rewrite <-K2 in Hin.
  apply list_elem_of_fmap in Hin as ([f' r] & -> & Hin). apply list_elem_of_fmap in Hin as ([[f'' r'] p] & E & Hin).
  cbn in E. simplify_eq.
  exists r', p. split; [done|]. destruct (validated_rows _ _ Hv) as [_ Hrows]. rewrite list.Forall_forall in Hrows.
  destruct (Hrows _ Hin) as [HV _ _ _ _]. cbn in HV. destruct (row_keys _ _ _ _ _ _ HV). cbn. congruence.
Qed.
Lemma chain_references_states (ps : list StateManifest) : ps ≫= sm_chunks = concat (sm_chunks <$> ps).
Proof. induction ps as [|p ps IH]; [done|]. rewrite bind_cons, IH. done. Qed.
Lemma plan_chain_ok ctx fam base t chain t' s : chain_from ctx fam t chain t' → 0 < t →
  (∀ f, fs_token_axis_rule f ≠ TailWindow → base f = 0) →
  Forall (reached base t s) (family_states fam) →
  ∃ s' ops, plan_chain chain s = Ok s' ∧ ps_operations s' = ps_operations s ++ ops ∧
    ro_reference <$> ops = chain_references chain ∧ Forall (reached base t' s') (family_states fam) ∧
      Forall (op_in fam) ops.
Proof.
  intros Hch. revert s. induction Hch as [t|t e chain t' Hv Hfam Hc _ IH]; intros s Ht Hbase Hre.
  { exists s, []. split_and!; [done|by rewrite app_nil_r|done|done|constructor]. }
  set (m := am_manifest e) in *. destruct (manifest_row_keys _ _ Hv) as (_ & K2 & _).
  destruct (plan_manifest_ok ctx m s Hv) as (s1 & ops1 & E1 & E2 & E3 & E4 & E4i).
  { rewrite list.Forall_forall in *. intros [[f r] p] Hin.
    destruct (delta_base _ _ _ _ _ Hv Hin) as (_ & _ & Es); [lia|]. cbn [fst snd]. rewrite Es.
    destruct (validated_rows _ _ Hv) as [_ Hrows]. rewrite list.Forall_forall in Hrows.
    destruct (Hrows _ Hin) as [HV _ _ _ _]. cbn in HV. destruct (row_keys _ _ _ _ _ _ HV) as [Ek Ek'].
    rewrite <-Ek', <-Ek, Hc.
    rewrite list.Forall_forall in Hre. apply Hre. rewrite <-Hfam, <-K2. apply list_elem_of_fmap. exists (f, r).
    split; [done|].
    apply list_elem_of_fmap. by exists (f, r, p). }
  destruct (IH s1) as (s' & ops & E5 & E6 & E7 & E8 & E9); [|done| |].
  { destruct (validated_rows _ _ Hv) as [HV _]. pose proof (mv_start _ _ HV). fold m. lia. }
  { apply list.Forall_forall. pose proof (proj1 (list.Forall_forall _ _) E4) as E4'.
    intros f Hin. destruct (proj1 (list.Forall_forall _ _) Hre f Hin) as [R1 R2 R3].
    rewrite <-Hfam in Hin. destruct (row_of_family _ _ _ Hv Hin) as (r & p & Hrow & Ek).
    destruct (delta_base _ _ _ _ _ Hv Hrow) as (Hn & Eb & Es); [lia|].
    destruct (E4' _ Hrow) as [D1 D2 D3 D4]. cbn [fst snd] in *. rewrite Ek in *. rewrite Eb, Es, Hc in D4.
    rewrite (Hbase f Hn) in R3. split; rewrite ?E2, ?ops_for_app; [done| |].
    - apply is_Some_default; [done|]. rewrite D3, R2, zlen_app. done.
    - rewrite (Hbase f Hn). by eapply ops_tile_app. }
  exists s', (ops1 ++ ops). cbn [plan_chain]. fold m. rewrite E1. cbn [mbind outcome_bind].
  split_and!; [done|by rewrite E6, E2, app_assoc| |done|apply Forall_app; by rewrite Hfam in E4i].
  rewrite fmap_app, E3, E7. unfold chain_references. rewrite bind_cons. f_equal. symmetry.
  apply chain_references_states.
Qed.

(** ** The whole plan *)
Lemma group_states_ok id keys groups : NoDup keys → (∀ k, k ∈ keys → groups !! k = None) →
  ∃ groups', group_states id keys groups = Ok groups' ∧ dom groups' = list_to_set keys ∪ dom groups.
Proof.
  revert groups. induction keys as [|k keys IH]; intros groups Hnd Hnew; [exists groups; split; [done|set_solver]|].
  apply NoDup_cons in Hnd as [Hk Hnd]. cbn. rewrite Hnew by left.
  destruct (IH (<[k := id]> groups) Hnd) as (g & -> & Hd).
  { intros k' Hin. rewrite lookup_insert_ne by set_solver. apply Hnew. by right. }
  exists g. split; [done|]. rewrite Hd, dom_insert_L. set_solver.
Qed.
Lemma group_by_key_ok groups acc : NoDup (concat (ag_states <$> groups)) →
  (∀ k, k ∈ concat (ag_states <$> groups) → acc !! k = None) →
  ∃ acc', group_by_key groups acc = Ok acc' ∧ dom acc' = list_to_set (concat (ag_states <$> groups)) ∪ dom acc.
Proof.
  revert acc. induction groups as [|g groups IH]; intros acc Hnd Hnew; [exists acc; split; [done|set_solver]|].
  rewrite fmap_cons in *. cbn [concat] in *. apply NoDup_app in Hnd as (N1 & N2 & N3). cbn [group_by_key].
  destruct (group_states_ok (ag_id g) (ag_states g) acc N1) as (acc1 & -> & D1).
  { intros k Hk. apply Hnew, elem_of_app. by left. }
  cbn [mbind outcome_bind]. destruct (IH acc1 N3) as (acc' & -> & D2).
  { intros k Hk. apply not_elem_of_dom. rewrite D1. intros [Hin|Hin]%elem_of_union.
    - apply elem_of_list_to_set in Hin. by apply (N2 k).
    - apply elem_of_dom in Hin as [? Hin]. rewrite Hnew in Hin; [done|]. apply elem_of_app. by right. }
  exists acc'. split; [done|]. rewrite D2, D1, list_to_set_app_L. set_solver.
Qed.
(** One state plan of the leaf. *)
Definition plan_exact (operations : list RestoreChunkOperation) (plan : RestoreStatePlan) : Prop :=
  let k := sd_key (rp_declaration plan) in
  ops_tile 0 (ops_for k operations) (rp_plaintext_bytes plan) ∧ rp_chunk_count plan = zlen (ops_for k operations).
Lemma state_plan_ok ctx leaf groups base s row : validated ctx leaf → row ∈ manifest_rows leaf →
  base row.1.1 = plane_base row.1.1 row.1.2 → is_Some (groups !! sm_key row.2) →
    reached base (manifest_tokens leaf) s row.1.1 →
  ∃ plan, state_plan leaf groups s (swap_row row) = Ok plan ∧ plan_exact (ps_operations s) plan ∧
    sd_key (rp_declaration plan) = fs_key row.1.1 ∧ rp_plaintext_bytes plan = row_complete_bytes leaf row.
Proof.
  destruct row as [[f r] p]. cbn [fst snd swap_row]. intros Hv Hin Hb [g Hg] [R1 R2 R3].
  destruct (validated_rows _ _ Hv) as [_ Hrows]. rewrite list.Forall_forall in Hrows.
  destruct (Hrows _ Hin) as [HV _ _ Hbytes _]. cbn [fst snd] in *. destruct HV as [[Ek Ek'] Hst _ HR _ _ _].
  assert (sm_key p = fs_key f) as Ekey by congruence. unfold state_plan, swap_row. cbn [fst snd]. rewrite Ekey in *.
  pose proof (rv_start _ _ _ _ _ _ _ HR) as Es. pose proof (rv_count _ _ _ _ _ _ _ HR) as Ec. cbn [fst snd] in Es, Ec.
  destruct Hv as [(_ & _ & _ & (_ & _ & [_ Hu]) & _) _]. change (manifest_tokens leaf < u64_bound) in Hu.
  rewrite (proj2 (checked_add_Some _ _ _)) by (split; [done|lia]). cbn [ok_or mbind outcome_bind].
  rewrite bool_decide_true by (rewrite R1; f_equal; lia). cbn [negb]. rewrite Hg. cbn [ok_or mbind outcome_bind].
  destruct (Hbytes _ eq_refl) as (e & w & He & Hw & Hm). rewrite Hb in R3. unfold plane_base in R3.
  case_bool_decide as Ht; rewrite He; cbn [of_pack mbind outcome_bind]; rewrite Hw; cbn [ok_or mbind outcome_bind];
    rewrite Hm; cbn [ok_or mbind outcome_bind]; rewrite R2; cbn [expect mbind outcome_bind];
    (eexists; split_and!; [done| |done|]); cbn [rp_declaration sd_key rp_plaintext_bytes row_complete_bytes];
    unfold full_tokens; rewrite ?(bool_decide_true _ Ht), ?(bool_decide_false _ Ht); try done; (split; [|done]);
      cbn [rp_declaration sd_key rp_plaintext_bytes].
  - replace (_ * bytes_per_token f) with (manifest_tokens leaf * bytes_per_token f - rs_logical_start r *
      bytes_per_token f) by (rewrite Es; lia).
    done.
  - by replace (manifest_tokens leaf * bytes_per_token f) with (manifest_tokens leaf * bytes_per_token f - 0) by lia.
Qed.
Lemma state_plans_ok ctx leaf groups base s rows : validated ctx leaf → rows ⊆ manifest_rows leaf →
  Forall (λ row, base row.1.1 = plane_base row.1.1 row.1.2 ∧ is_Some (groups !! sm_key row.2) ∧
                 reached base (manifest_tokens leaf) s row.1.1) rows →
  ∃ plans, state_plans leaf groups s (swap_row <$> rows) = Ok plans ∧ Forall (plan_exact (ps_operations s)) plans ∧
    (λ plan, sd_key (rp_declaration plan)) <$> plans = fs_key <$> rows.*1.*1 ∧
    rp_plaintext_bytes <$> plans = row_complete_bytes leaf <$> rows.
Proof.
  intros Hv Hsub Hall. induction Hall as [|row rows (Hb & Hg & Hre) _ IH]; [by exists []|].
  destruct IH as (plans & E & Hex & Hk & Hby); [set_solver|].
  destruct (state_plan_ok ctx leaf groups base s row) as (plan & E1 & E2 & E3 & E4); [done|set_solver|done..|].
  exists (plan :: plans). rewrite !fmap_cons. cbn [state_plans]. rewrite E1. cbn [mbind outcome_bind]. rewrite E.
  cbn [mbind outcome_bind].
  split_and!; [done|by constructor|by rewrite E3, <-Hk|by rewrite E4, <-Hby].
Qed.
(** The map of next tokens a plan starts from. *)
Lemma initial_tokens ctx m : validated ctx m →
  zip_with (λ state schema, (sm_key state, rs_logical_start schema)) (cm_states m) (rc_states (cm_realized_schema m))
    =
  (λ row, (sm_key row.2, range_start m row.1.1 row.1.2)) <$> manifest_rows m.
Proof.
  intros Hv. destruct (validated_rows _ _ Hv) as [HV Hrows]. pose proof (mv_counts _ _ HV) as [C1 C2].
  trans ((λ row, (sm_key row.2, rs_logical_start row.1.2)) <$> manifest_rows m).
  - clear HV Hrows. unfold manifest_rows, zlen in *. revert C1 C2.
    generalize (cm_states m) (rc_states (cm_realized_schema m)) (family_states (cm_family m)).
    induction l as [|a l IH]; intros [|b l'] [|c l''] ? ?; try done; cbn in *; try lia. f_equal. apply IH; lia.
  - apply list_fmap_ext. intros i row Hi. rewrite list.Forall_forall in Hrows.
    apply list_elem_of_lookup_2, Hrows in Hi as [HVr _ _ _ _].
    f_equal. destruct row as [[f r] p]. apply (rv_start _ _ _ _ _ _ _ (row_realized _ _ _ _ _ _ HVr)).
Qed.
Lemma lookup_initial ctx m row : validated ctx m → row ∈ manifest_rows m →
  (list_to_map (reverse (zip_with (λ state schema, (sm_key state, rs_logical_start schema))
     (cm_states m) (rc_states (cm_realized_schema m)))) : gmap StateKey Z) !! sm_key row.2 =
       Some (range_start m row.1.1 row.1.2).
Proof.
  intros Hv Hin. rewrite (initial_tokens _ _ Hv). destruct (manifest_row_keys _ _ Hv) as (K1 & _ & _ & K4).
  apply elem_of_list_to_map_1.
  - rewrite fmap_reverse, <-list_fmap_compose. rewrite reverse_Permutation.
    rewrite <-K1, <-list_fmap_compose in K4. exact K4.
  - apply elem_of_reverse, list_elem_of_fmap. by exists row.
Qed.
Lemma root_base ctx m f r p : validated ctx m → (f, r, p) ∈ manifest_rows m → cut_start m = 0 →
  range_start m f r * bytes_per_token f = plane_base f r.
Proof.
  intros Hv Hin Hc. destruct (validated_rows _ _ Hv) as [_ Hrows]. rewrite list.Forall_forall in Hrows.
  destruct (Hrows _ Hin) as [HVr _ _ _ _]. pose proof (rv_start _ _ _ _ _ _ _ (row_realized _ _ _ _ _ _ HVr)) as E.
  cbn in E.
  unfold plane_base. case_bool_decide; [by rewrite E|]. unfold range_start. rewrite bool_decide_false by done.
  rewrite Hc. done.
Qed.

Lemma chain_from_last ctx fam t chain t' e : chain_from ctx fam t chain t' → last chain = Some e →
  validated ctx (am_manifest e) ∧ cm_family (am_manifest e) = fam ∧ manifest_tokens (am_manifest e) = t' ∧
  (0 < t → 0 < cut_start (am_manifest e)).
Proof.
  induction 1 as [|t e' chain t' Hv Hf Hc Hch IH]; [done|]. destruct chain as [|e2 chain].
  - cbn. intros [= <-]. inversion Hch; subst. done.
  - cbn [last]. intros Hl. destruct IH as (? & ? & ? & Hpos); [done|]. split_and!; [done..|].
    intros _. apply Hpos. destruct (validated_rows _ _ Hv) as [HV _]. pose proof (mv_start _ _ HV). lia.
Qed.
(** The plan of the root. *)
Definition initial_state m : PlanState :=
  mkPlanState (list_to_map (reverse (zip_with (λ state schema, (sm_key state, rs_logical_start schema))
     (cm_states m) (rc_states (cm_realized_schema m))))) ∅ [].
Definition root_plane m f : Z :=
  if bool_decide (fs_token_axis_rule f = TailWindow)
  then default 0 (ps_next_token (initial_state m) !! fs_key f) * bytes_per_token f else 0.
Lemma root_plane_base ctx m f r p : validated ctx m → (f, r, p) ∈ manifest_rows m → cut_start m = 0 →
  sm_key p = fs_key f → root_plane m f = plane_base f r.
Proof.
  intros Hv Hin Hc Ek. rewrite <-(root_base _ _ _ _ _ Hv Hin Hc). unfold root_plane. rewrite <-Ek.
  cbn [initial_state ps_next_token]. pose proof (lookup_initial _ _ _ Hv Hin) as E. cbn [fst snd] in E. rewrite E.
  cbn [default].
  case_bool_decide; [done|]. unfold range_start. rewrite bool_decide_false by done. rewrite Hc. done.
Qed.
Lemma plan_root_ok ctx m : validated ctx m → cut_start m = 0 →
  ∃ s ops, plan_rows m (state_rows m) (initial_state m) = Ok s ∧ ps_operations s = ops ∧
    ro_reference <$> ops = concat (sm_chunks <$> cm_states m) ∧
    Forall (reached (root_plane m) (manifest_tokens m) s) (family_states (cm_family m)) ∧
      Forall (op_in (cm_family m)) ops.
Proof.
  intros Hv Hc. destruct (plan_manifest_ok ctx m (initial_state m) Hv) as (s & ops & E1 & E2 & E3 & E4 & E5).
  { apply list.Forall_forall. intros row Hin. by apply (lookup_initial _ _ _ Hv). }
  exists s, ops. split_and!; [done..| |done]. apply list.Forall_forall. intros f Hin.
  destruct (row_of_family _ _ _ Hv Hin) as (r & p & Hrow & Ek).
  destruct (proj1 (list.Forall_forall _ _) E4 _ Hrow) as [D1 D2 D3 D4].
  cbn [fst snd] in *. rewrite (root_base _ _ _ _ _ Hv Hrow Hc), Z.sub_diag,
    <-(root_plane_base _ _ _ _ _ Hv Hrow Hc Ek) in D4.
  rewrite Ek in *. split; rewrite ?E2; [done| |done]. apply is_Some_default; [done|]. rewrite D3. done.
Qed.
(** The operation count a plan may have. *)
Definition operation_bound m : Z := Z.min (MAX_CHUNKS_PER_STATE * zlen (cm_states m)) (u64_bound - 1).
Lemma leaf_rows_ready ctx leaf groups base s : validated ctx leaf →
  dom groups = list_to_set (concat (ag_states <$> rc_atomic_groups (cm_realized_schema leaf))) →
  (∀ f r p, (f, r, p) ∈ manifest_rows leaf → sm_key p = fs_key f → base f = plane_base f r) →
  Forall (reached base (manifest_tokens leaf) s) (family_states (cm_family leaf)) →
  Forall (λ row, base row.1.1 = plane_base row.1.1 row.1.2 ∧ is_Some ((groups : gmap StateKey Z) !! sm_key row.2) ∧
                 reached base (manifest_tokens leaf) s row.1.1) (manifest_rows leaf).
Proof.
  intros Hv Hdom Hbase Hre. destruct (validated_rows _ _ Hv) as [HV Hrows].
  destruct (manifest_row_keys _ _ Hv) as (_ & K2 & _).
  apply list.Forall_forall. intros [[f r] p] Hin. cbn [fst snd].
  assert (f ∈ family_states (cm_family leaf)) as Hf.
  { rewrite <-K2. apply list_elem_of_fmap. exists (f, r). split; [done|]. apply list_elem_of_fmap.
    by exists (f, r, p). }
  destruct (proj1 (list.Forall_forall _ _) Hrows _ Hin) as [HVr _ _ _ _]. cbn in HVr.
  destruct (row_keys _ _ _ _ _ _ HVr) as [Ek Ek'].
  split_and!; [eapply Hbase; [done|congruence]| |by apply (proj1 (list.Forall_forall _ _) Hre)].
  apply elem_of_dom. rewrite Hdom, elem_of_list_to_set, (mv_groups _ _ HV), <-Ek', <-Ek. by apply list_elem_of_fmap_2.
Qed.
Lemma build_scatter_plan_ok ctx fam chain t' e : chain_from ctx fam 0 chain t' → last chain = Some e →
  ∃ states ops, Forall (plan_exact ops) states ∧
    (λ plan, sd_key (rp_declaration plan)) <$> states = fs_key <$> family_states fam ∧
    ro_reference <$> ops = chain_references chain ∧ Forall (op_in fam) ops ∧
    zsum (rp_plaintext_bytes <$> states) = rc_complete_restored_bytes (cm_realized_schema (am_manifest e)) ∧
    build_scatter_plan chain =
      if operation_bound (am_manifest e) <? zlen (chain_references chain) then
        auth_error "authenticated restore operation count exceeds bound"
      else Ok (states, ops).
Proof.
  intros Hch Hlast. destruct (chain_from_last _ _ _ _ _ _ Hch Hlast) as (Hv & Hfam & Et & _).
  unfold build_scatter_plan, chain_leaf. rewrite Hlast. cbn [mbind outcome_bind]. set (leaf := am_manifest e) in *.
  destruct (validated_rows _ _ Hv) as [HV _]. destruct (manifest_row_keys _ _ Hv) as (K1 & K2 & K3 & K4).
  destruct (group_by_key_ok (rc_atomic_groups (cm_realized_schema leaf)) ∅) as (groups & -> & Hdom);
    [by rewrite (mv_groups _ _ HV)|done|].
  cbn [mbind outcome_bind]. inversion Hch as [|t0 first rest t1 Hv0 Hf0 Hc0 Hrest]; subst; [done|].
  set (root := am_manifest first) in *. destruct (validated_rows _ _ Hv0) as [HV0 _].
  pose proof (mv_counts _ _ HV0) as [C1 C2].
  rewrite C1, C2, Z.eqb_refl. cbn [negb]. fold (initial_state root).
  destruct (plan_root_ok _ _ Hv0 Hc0) as (s0 & ops0 & E1 & E2 & E3 & E4 & E5). rewrite Hf0 in E4, E5.
  cbn [plan_chain]. fold root. rewrite E1. cbn [mbind outcome_bind]. pose proof (mv_start _ _ HV0) as Hpos.
  destruct (plan_chain_ok _ _ (root_plane root) _ _ _ s0 Hrest) as (s & ops & -> & F2 & F3 & F4 & F5); [lia| |done|].
  { intros f Hn. unfold root_plane. by rewrite bool_decide_false. }
  cbn [mbind outcome_bind]. rewrite state_rows_swap. fold (operation_bound leaf).
  destruct (state_plans_ok ctx leaf groups (root_plane root) s (manifest_rows leaf)) as (plans & E & Hex & Hkeys &
    Hbytes); [done|done| |].
  { apply (leaf_rows_ready ctx); [done|set_solver| |done]. intros f r p Hin Ek. destruct rest as [|e2 rest].
    - cbn in Hlast. injection Hlast as Ee. assert (leaf = root) as El by (unfold leaf, root; congruence).
      rewrite El in Hin. by eapply root_plane_base.
    - destruct (chain_from_last _ _ _ _ _ _ Hrest Hlast) as (_ & _ & _ & Hd).
      destruct (delta_base _ _ _ _ _ Hv Hin) as (Hn & -> & _); [apply Hd; lia|]. unfold root_plane.
      by rewrite bool_decide_false. }
  assert (ro_reference <$> ps_operations s = chain_references (first :: rest)) as Href.
  { rewrite F2, fmap_app, E2, E3, F3. unfold chain_references. rewrite bind_cons. f_equal. symmetry.
    apply chain_references_states. }
  exists plans, (ps_operations s). fold leaf. unfold swap_row in E. rewrite E. cbn [mbind outcome_bind].
  rewrite <-Href, zlen_fmap. split_and!; [done|by rewrite Hkeys, K2|done| |by rewrite Hbytes,
    (mv_complete _ _ HV)|done].
  rewrite F2, E2. by apply Forall_app.
Qed.
