(* ===== verification/ChainLaws.v ===== *)
(** * Laws of authenticated chains (restore/helpers.rs)

    Authentication of a chain ends for every parent graph, gives validated
    manifests linked from a full root to the leaf, and gives the same result
    with a cache of loaded manifests as without; the disposition of its chunks
    says which of them the catalog can serve. *)
From Stdlib Require Import ZArith Lia.
From stdpp Require Import base tactics numbers list strings option sorting gmap.
From S2P Require Import Prelude Bytes Canonical Wire State Identity Manifest Deps Validator.
From S2P Require Import ValidatorLaws Crypto Ids Pack StorePolicy RestorePlan ScatterPlan.

Notation Loaded := (gmap Id32 AuthenticatedManifest).
(** What a store's files and keys promise: files are bytes, and reading one
    fails only with an error. *)
Record view_ok (store : StoreView) : Prop := {
  vo_bytes id b : sv_manifest_bytes store id = Ok b → bytes_ok b;
  vo_reads id : ¬ panics (sv_manifest_bytes store id);
  vo_keys epoch : ¬ panics (sv_schedule store epoch)
}.
Lemma of_pack_Ok {A} (r : result A) a : of_pack r = Ok a → r = Ok a.
Proof. destruct r; naive_solver. Qed.
Lemma of_pack_no_panic {A} (r : result A) : ¬ panics r → ¬ panics (of_pack r).
Proof. destruct r; auto. Qed.

Section chains.
Context `{CL : CryptoLaws} (store : StoreView) (minimum : Z) (ctx : ValidationContext) (VO : view_ok store).
Implicit Types (e : AuthenticatedManifest) (chain : list AuthenticatedManifest) (id : Id32) (cache : Loaded).

(** ** One manifest *)
Notation load := (λ id, load_authenticated_manifest store id minimum ctx).
Lemma load_Ok id e : load id = Ok e → am_manifest_id e = id ∧ validated ctx (am_manifest e) ∧
  cm_tenant_namespace (am_manifest e) = sv_tenant_namespace store ∧
  minimum ≤ cm_key_epoch (am_manifest e) ≤ sv_key_epoch store ∧
  ∃ canonical, manifest_encode_canonical (am_manifest e) = Ok canonical ∧ manifest_id canonical = id.
Proof.
  cbn beta. unfold load_authenticated_manifest, auth_error. intros Hl. inv_ok. bools.
  repeat match goal with H : of_pack _ = Ok _ |- _ => apply of_pack_Ok in H end.
  match goal with Hr : sv_manifest_bytes _ _ = Ok _, Hd : decode_authenticated_pack _ _ _ = Ok _,
    Hi : inspect_pack_header _ = Ok _ |- _ =>
    pose proof (decode_pack_Ok _ _ _ _ (vo_bytes _ VO _ _ Hr) Hd) as (Hm & _ & h & hd & bd & cn & Ha & Hc & _ & _ & Ht
      & Hk & _);
    unfold decode_authenticated_pack in Hd; unfold inspect_pack_header in Hi end.
  inv_ok. subst. destruct Ha as (_ & _ & Hp & _).
  match goal with Hi : parse_pack_header_framing _ = Ok ?h' |- _ => assert (h = h') as -> by congruence end.
  cbn [am_manifest am_manifest_id].
  repeat match goal with H : bytes_eqb _ _ = true |- _ => apply bytes_eqb_eq in H end. subst.
  split_and!; [done|split; [done|]|congruence|lia|lia|eauto].
  match goal with H : validate_manifest _ _ = Ok ?u |- _ => by destruct u end.
Qed.
Lemma load_no_panic id : ¬ panics (load id).
Proof.
  cbn beta. unfold load_authenticated_manifest. apply bind_no_panic; [apply (vo_reads _ VO)|]. intros b Hb.
  apply bind_no_panic; [apply of_pack_no_panic, inspect_pack_header_no_panic|]. intros h _.
  no_panic; try apply (vo_keys _ VO).
  - apply of_pack_no_panic, decode_pack_no_panic, (vo_bytes _ VO _ _ Hb).
  - apply of_pack_no_panic. match goal with Hd : of_pack _ = Ok _ |- _ => apply of_pack_Ok in Hd end.
    match goal with Hd : decode_authenticated_pack _ _ _ = Ok _ |- _ =>
      destruct (decode_pack_Ok _ _ _ _ (vo_bytes _ VO _ _ Hb) Hd) as (Hm & _) end.
    destruct (manifest_encode_total _ Hm) as (? & -> & _). by intros [].
Qed.
(** A cache of what the store's manifests load to. *)
Definition coherent cache : Prop := ∀ id e, cache !! id = Some e → load id = Ok e.
Lemma load_cached id cache : coherent cache →
  match load id with
  | Ok e => ∃ cache', load_authenticated_manifest_cached store id minimum ctx cache = Ok (e, cache') ∧ coherent cache'
  | Err x => load_authenticated_manifest_cached store id minimum ctx cache = Err x
  | Panic w => load_authenticated_manifest_cached store id minimum ctx cache = Panic w
  end.
Proof.
  intros Hc. unfold load_authenticated_manifest_cached. destruct (cache !! id) as [e|] eqn:E.
  { pose proof (Hc _ _ E) as ->. eauto. }
  cbn beta. destruct (load_authenticated_manifest store id minimum ctx) as [e| |] eqn:El; cbn; [|done|done].
  exists (<[id := e]> cache). split; [done|]. intros id' e'. rewrite lookup_insert_Some. intros [[<- <-]|[_ ?]]; auto.
Qed.

(** ** The parents of the leaf *)
(** Each manifest after the first names the one before it as its parent. *)
Inductive parents_linked : list AuthenticatedManifest → Prop :=
  | linked_one e : parents_linked [e]
  | linked_cons e e' chain :
      rc_kind (cm_realized_schema (am_manifest e')) =
        Delta (am_manifest_id e) (cm_input_cut (am_manifest e)) (ManifestKind_depth (rc_kind (cm_realized_schema
          (am_manifest e))) + 1) →
      parents_linked (e' :: chain) → parents_linked (e :: e' :: chain).
(** What every manifest of a chain shares with its leaf. *)
Definition compatible (leaf : CutManifest) e : Prop :=
  load (am_manifest_id e) = Ok e ∧ cm_family (am_manifest e) = cm_family leaf ∧
  cm_semantic_model (am_manifest e) = cm_semantic_model leaf ∧
  cm_tenant_namespace (am_manifest e) = cm_tenant_namespace leaf ∧ cm_key_epoch (am_manifest e) = cm_key_epoch leaf.
(** The part of a chain loaded so far, from the manifest [e] to the leaf. *)
Record loaded_from (leaf : AuthenticatedManifest) e rest : Prop := {
  lf_chain : chain_from ctx (cm_family (am_manifest leaf)) (cut_start (am_manifest e)) (e :: rest) (manifest_tokens
    (am_manifest leaf));
  lf_linked : parents_linked (e :: rest);
  lf_same : Forall (compatible (am_manifest leaf)) (e :: rest);
  lf_last : last (e :: rest) = Some leaf;
  lf_depth : ManifestKind_depth (rc_kind (cm_realized_schema (am_manifest e))) + zlen rest =
             ManifestKind_depth (rc_kind (cm_realized_schema (am_manifest leaf)))
}.
Lemma validated_depth m : validated ctx m → 0 ≤ ManifestKind_depth (rc_kind (cm_realized_schema m)) ≤ MAX_DELTA_DEPTH.
Proof.
  intros [Hm Hv]. unfold validate_manifest in Hv. inv_ok. unfold cut_range in *.
  destruct (rc_kind (cm_realized_schema m)) as [|parent pc depth] eqn:E; [done|]. inv_ok. bools. cbn.
  destruct Hm as (_ & _ & _ & _ & _ & (Hk & _) & _). rewrite E in Hk. destruct Hk as (_ & _ & [? _]). lia.
Qed.
Lemma loaded_parent leaf e rest parent depth loaded :
  loaded_from leaf e rest → rc_kind (cm_realized_schema (am_manifest e)) =
    Delta parent (cm_input_cut (am_manifest loaded)) depth →
  load parent = Ok loaded → cm_family (am_manifest loaded) = cm_family (am_manifest leaf) →
  cm_semantic_model (am_manifest loaded) = cm_semantic_model (am_manifest leaf) →
  cm_tenant_namespace (am_manifest loaded) = cm_tenant_namespace (am_manifest leaf) →
  cm_key_epoch (am_manifest loaded) = cm_key_epoch (am_manifest leaf) →
  ManifestKind_depth (rc_kind (cm_realized_schema (am_manifest loaded))) + 1 = depth →
  loaded_from leaf loaded (e :: rest).
Proof.
  intros [L1 L2 L3 L4 L5] Ek El Ef Es Et Ee Ed. destruct (load_Ok _ _ El) as (Eid & Hv & _).
  split.
  - constructor; [done..|]. unfold cut_start in L1. rewrite Ek in L1. exact L1.
  - constructor; [by rewrite Eid, Ed|done].
  - constructor; [|done]. split_and!; try done. by rewrite Eid.
  - done.
  - rewrite Ek in L5. cbn [ManifestKind_depth] in L5. rewrite zlen_cons. lia.
Qed.
Notation loop fuel leaf := (parents_loop fuel store minimum ctx leaf).
Lemma parents_loop_ok fuel leaf e rest seen cache : loaded_from leaf e rest → coherent cache →
  ManifestKind_depth (rc_kind (cm_realized_schema (am_manifest e))) ≤ Z.of_nat fuel →
  ¬ panics (loop fuel (am_manifest leaf) (am_manifest e) seen (e :: rest) cache) ∧
  ∀ chain cache', loop fuel (am_manifest leaf) (am_manifest e) seen (e :: rest) cache = Ok (chain, cache') →
    coherent cache' ∧
    ∃ root rest', chain = root :: rest' ∧ rc_kind (cm_realized_schema (am_manifest root)) = Full ∧
      loaded_from leaf root rest'.
Proof.
  revert e rest seen cache. induction fuel as [|fuel IH]; intros e rest seen cache HL Hc Hd; cbn [parents_loop];
    (destruct (rc_kind (cm_realized_schema (am_manifest e))) as [|parent pc depth] eqn:Ek;
     [split; [by intros []|]; intros chain cache' [= <- <-]; eauto 10|]); cbn [ManifestKind_depth] in Hd.
  { exfalso. assert (validated ctx (am_manifest e)) as Hv by (pose proof (lf_chain _ _ _ HL) as Hch;
      by inversion Hch).
    destruct Hv as [_ Hv]. unfold validate_manifest in Hv. inv_ok. unfold cut_range in *. rewrite Ek in *. inv_ok.
    bools.
    pose proof (lf_chain _ _ _ HL) as Hch. inversion Hch as [|? ? ? ? Hv' _ _ _]; subst.
    pose proof (validated_depth _ Hv') as Hdd. rewrite Ek in Hdd. cbn in Hdd. lia. }
  destruct (_ || _ || _) eqn:Hg; [split; [by intros []|done]|]. bools.
  pose proof (load_cached parent cache Hc) as Hl. cbn beta in Hl. pose proof (load_no_panic parent) as Hnp.
  cbn beta in Hnp.
  destruct (load_authenticated_manifest store parent minimum ctx) as [loaded|x|w] eqn:El;
    [|rewrite Hl; cbn; split; [by intros []|done]|by destruct Hnp].
  destruct Hl as (cache1 & -> & Hc1). cbn [mbind outcome_bind].
  destruct (negb _ || _ || _ || _ || _) eqn:Hg'; [split; [by intros []|done]|]. bools.
  repeat match goal with H : bytes_eqb _ _ = true |- _ => apply bytes_eqb_eq in H end.
  destruct (load_Ok _ _ El) as (_ & Hv & _). pose proof (validated_depth _ Hv) as Hdd. unfold MAX_DELTA_DEPTH in Hdd.
  unfold add_u8. rewrite (proj2 (Z.ltb_lt _ _)) by lia. cbn [mbind outcome_bind].
  destruct (negb _) eqn:Hg2; [split; [by intros []|done]|]. bools.
  apply IH; [|done|lia]. eapply loaded_parent; try done. by subst pc.
Qed.
(** The result does not depend on what the cache already holds. *)
Lemma parents_loop_cached fuel leaf m seen reversed cache1 cache2 : coherent cache1 → coherent cache2 →
  fst <$> loop fuel leaf m seen reversed cache1 = fst <$> loop fuel leaf m seen reversed cache2.
Proof.
  revert m seen reversed cache1 cache2. induction fuel as [|fuel IH]; intros m seen reversed c1 c2 H1 H2;
    cbn [parents_loop];
    destruct (rc_kind (cm_realized_schema m)) as [|parent pc depth]; try done.
  destruct (_ || _ || _); [done|]. pose proof (load_cached parent _ H1) as L1.
  pose proof (load_cached parent _ H2) as L2.
  cbn beta in L1, L2. destruct (load_authenticated_manifest store parent minimum ctx); [|by rewrite L1, L2..].
  destruct L1 as (c1' & -> & H1'), L2 as (c2' & -> & H2'). cbn [mbind outcome_bind].
  destruct (_ || _ || _ || _ || _); [done|].
  destruct (add_u8 _ _); [|done..]. cbn [mbind outcome_bind]. destruct (negb _); [done|]. by apply IH.
Qed.

(** ** Whole chains *)
(** The catalog's candidate the leaf has to match. *)
Definition matches (expected : option (Id32 * Id32 * InputCutId)) (leaf : CutManifest) : Prop :=
  match expected with
  | None => True
  | Some (semantic, family, cut) =>
      semantic_model_id (cm_semantic_model leaf) = semantic ∧ representation_family_id (cm_family leaf) = Ok family ∧
      cm_input_cut leaf = cut
  end.
(** A full root, its deltas in order, and the leaf that was asked for. *)
Definition authentic (leaf_id : Id32) leaf chain : Prop :=
  am_manifest_id leaf = leaf_id ∧
  ∃ root rest, chain = root :: rest ∧ rc_kind (cm_realized_schema (am_manifest root)) = Full ∧
    loaded_from leaf root rest.
Lemma leaf_loaded id e : load id = Ok e → loaded_from e e [].
Proof.
  intros El. destruct (load_Ok _ _ El) as (Eid & Hv & _). split.
  - constructor; [done..|constructor].
  - constructor.
  - constructor; [|constructor]. split_and!; try done. by rewrite Eid.
  - done.
  - change (zlen (@nil AuthenticatedManifest)) with 0. lia.
Qed.
Definition check_expected (expected : option (Id32 * Id32 * InputCutId)) (m : CutManifest) : sresult unit :=
  match expected with
  | None => Ok tt
  | Some (semantic, family, cut) =>
      if negb (bytes_eqb (semantic_model_id (cm_semantic_model m)) semantic) then
        auth_error "catalog candidate does not authenticate the matched prefix" else
      family_id ← of_pack (representation_family_id (cm_family m));
      if negb (bytes_eqb family_id family) || negb (bool_decide (cm_input_cut m = cut)) then
        auth_error "catalog candidate does not authenticate the matched prefix"
      else Ok tt
  end.
Lemma check_expected_Ok expected m : check_expected expected m = Ok tt ↔ matches expected m.
Proof.
  destruct expected as [[[semantic family] cut]|]; [|done]. cbn. unfold auth_error. split.
  - intros Hx. inv_ok. bools. repeat match goal with H : bytes_eqb _ _ = true |- _ => apply bytes_eqb_eq in H end.
    match goal with H : of_pack _ = Ok _ |- _ => apply of_pack_Ok in H end. by subst.
  - intros (-> & -> & ->). by rewrite bytes_eqb_refl, bool_decide_true by done; cbn; rewrite bytes_eqb_refl.
Qed.
Lemma authenticate_unfold leaf_id expected cache :
  authenticate_chain_cached store leaf_id minimum expected ctx cache =
  '(leaf, cache) ← load_authenticated_manifest_cached store leaf_id minimum ctx cache;
  _ ← check_expected expected (am_manifest leaf);
  '(chain, cache) ← loop 8 (am_manifest leaf) (am_manifest leaf) {[leaf_id]} [leaf] cache;
  match chain with
  | [] => Panic "index out of bounds"
  | root :: _ =>
      if negb (bool_decide (rc_kind (cm_realized_schema (am_manifest root)) = Full))
         || negb (zlen chain =? ManifestKind_depth (rc_kind (cm_realized_schema (am_manifest leaf))) + 1) then
        auth_error "manifest chain does not terminate at the declared full root"
      else Ok (chain, cache)
  end.
Proof. reflexivity. Qed.
Lemma authenticate_ok leaf_id expected cache : coherent cache →
  ¬ panics (authenticate_chain_cached store leaf_id minimum expected ctx cache) ∧
  ∀ chain cache', authenticate_chain_cached store leaf_id minimum expected ctx cache = Ok (chain, cache') →
    coherent cache' ∧ ∃ leaf, authentic leaf_id leaf chain ∧ matches expected (am_manifest leaf).
Proof.
  intros Hc. rewrite authenticate_unfold. pose proof (load_cached leaf_id cache Hc) as Hl. cbn beta in Hl.
  pose proof (load_no_panic leaf_id) as Hnp. cbn beta in Hnp.
  destruct (load_authenticated_manifest store leaf_id minimum ctx) as [leaf|x|w] eqn:El;
    [|rewrite Hl; cbn; split; [by intros []|done]|by destruct Hnp].
  destruct Hl as (cache1 & -> & Hc1). cbn [mbind outcome_bind].
  destruct (load_Ok _ _ El) as (Eid & Hv & _). pose proof (validated_depth _ Hv) as Hd. unfold MAX_DELTA_DEPTH in Hd.
  destruct (parents_loop_ok 8 leaf leaf [] {[leaf_id]} cache1 (leaf_loaded _ _ El) Hc1) as [Hp Hloop]; [lia|].
  destruct (check_expected expected (am_manifest leaf)) as [[]|x|w] eqn:Ex; cbn [mbind outcome_bind];
    [|split; [by intros []|done]|].
  2:{ exfalso. destruct expected as [[[semantic family] cut]|]; [|done]. unfold check_expected in Ex.
      destruct (negb _); [done|].
      destruct Hv as [(_ & _ & _ & _ & Hf & _) _]. destruct (representation_family_id_total _ Hf) as (fid & Efid & _).
      rewrite Efid in Ex. cbn in Ex. by destruct (_ || _). }
  destruct (parents_loop _ _ _ _ _ _ _ _ _) as [[chain cache2]|x|w]; cbn [mbind outcome_bind];
    [|split; [by intros []|done]|by destruct Hp].
  destruct (Hloop _ _ eq_refl) as (Hc2 & root & rest & -> & Hfull & HL).
  rewrite bool_decide_true by done. cbn [negb orb]. pose proof (lf_depth _ _ _ HL) as Hdepth. rewrite Hfull in Hdepth.
  cbn in Hdepth.
  rewrite (proj2 (Z.eqb_eq _ _)) by (rewrite zlen_cons; lia). cbn [negb].
  split; [by intros []|]. intros chain' cache' [= <- <-]. split; [done|]. exists leaf.
  split; [|by apply check_expected_Ok].
  split; [done|]. eauto.
Qed.
Lemma linked_depth e chain x : parents_linked (e :: chain) → x ∈ chain →
  ManifestKind_depth (rc_kind (cm_realized_schema (am_manifest e))) < ManifestKind_depth (rc_kind (cm_realized_schema
    (am_manifest x))).
Proof.
  revert e. induction chain as [|e' chain IH]; intros e Hl Hx; [by apply elem_of_nil in Hx|].
  inversion Hl as [|? ? ? Ek Hl']; subst. apply elem_of_cons in Hx as [->|Hx]; [rewrite Ek; cbn; lia|].
  specialize (IH _ Hl' Hx). rewrite Ek in IH. cbn in IH. lia.
Qed.
Lemma linked_app pre e rest : parents_linked (pre ++ e :: rest) → parents_linked (e :: rest).
Proof. induction pre as [|p pre IH]; [done|]. intros Hl. apply IH. cbn in Hl.
  by inversion Hl; destruct pre; simplify_eq/=. Qed.
Lemma parents_loop_complete fuel leaf pre e rest cache :
  let chain := pre ++ e :: rest in
  parents_linked chain → Forall (compatible (am_manifest leaf)) chain →
    Forall (λ x, validated ctx (am_manifest x)) chain →
  (∀ root, head chain = Some root → rc_kind (cm_realized_schema (am_manifest root)) = Full) → coherent cache →
  (length pre ≤ fuel)%nat →
  fst <$> loop fuel (am_manifest leaf) (am_manifest e) (list_to_set (am_manifest_id <$> e :: rest)) (e :: rest) cache
    = Ok chain.
Proof.
  cbn zeta. revert pre e rest cache. induction fuel as [|fuel IH];
    intros pre e rest cache Hlk Hcomp Hval Hroot Hc Hlen;
    destruct pre as [|p pre _] using rev_ind.
  1,3: cbn [parents_loop]; by rewrite (Hroot e eq_refl).
  { rewrite length_app in Hlen. cbn in Hlen. lia. }
  rewrite <-app_assoc in *. cbn [app] in *. rewrite length_app in Hlen. cbn in Hlen.
  pose proof (linked_app _ _ _ Hlk) as Hlp. inversion Hlp as [|? ? ? Ek Hlk']; subst.
  pose proof Hcomp as Hcomp'. pose proof Hval as Hval'. rewrite !Forall_app, !Forall_cons in Hcomp', Hval'.
  destruct Hcomp' as (_ & Hp & Hce & Hrest), Hval' as (_ & Hvp & Hve & Hvr).
  cbn [parents_loop]. rewrite Ek. pose proof (validated_depth _ Hve) as Hd. rewrite Ek in Hd. cbn in Hd.
  pose proof (validated_depth _ Hvp) as Hdp. unfold MAX_DELTA_DEPTH in *.
  destruct (_ || _ || _) eqn:Hg.
  { exfalso. apply orb_true_iff in Hg as [Hg|Hg]; [bools; apply orb_true_iff in Hg as [?|?]; bools; lia|]. bools.
    apply elem_of_list_to_set, list_elem_of_fmap in Hg as (x & Eid & Hx).
    pose proof (linked_depth _ _ _ Hlp Hx) as Hlt.
    assert (compatible (am_manifest leaf) x) as [Elx _].
    { apply elem_of_cons in Hx as [->|Hx]; [done|]. by apply (proj1 (list.Forall_forall _ _) Hrest). }
    destruct Hp as [Elp _]. cbn beta in *. rewrite <-Eid, Elp in Elx. simplify_eq. lia. }
  pose proof Hp as (Elp & Ef & Es & Et & Ee). pose proof (load_cached (am_manifest_id p) cache Hc) as Hl.
  cbn beta in Hl, Elp.
  rewrite Elp in Hl. destruct Hl as (cache1 & -> & Hc1). cbn [mbind outcome_bind].
  rewrite !bool_decide_true by done. rewrite Et, bytes_eqb_refl, Ee, Z.eqb_refl. cbn [negb orb].
  unfold add_u8. rewrite (proj2 (Z.ltb_lt _ _)) by lia. cbn [mbind outcome_bind]. rewrite Z.eqb_refl. cbn [negb].
  specialize (IH pre p (e :: rest) cache1). rewrite fmap_cons in IH. cbn [list_to_set] in IH.
  apply IH; try done; lia.
Qed.
Lemma chain_from_validated fam t chain t' : chain_from ctx fam t chain t' →
  Forall (λ x, validated ctx (am_manifest x)) chain.
Proof. induction 1; by constructor. Qed.
Lemma coherent_empty : coherent ∅.
Proof. intros id e. by rewrite lookup_empty. Qed.
(** Every authentic chain is accepted, whatever the cache already holds. *)
Lemma authenticate_complete leaf_id expected leaf chain cache : coherent cache →
  authentic leaf_id leaf chain → matches expected (am_manifest leaf) →
  fst <$> authenticate_chain_cached store leaf_id minimum expected ctx cache = Ok chain.
Proof.
  intros Hc (Eid & root & rest & -> & Hfull & HL) Hm. rewrite authenticate_unfold.
  pose proof (lf_last _ _ _ HL) as Hlast. apply last_Some in Hlast as [pre Epre].
  assert (compatible (am_manifest leaf) leaf) as [El _].
  { apply (proj1 (list.Forall_forall _ _) (lf_same _ _ _ HL)). rewrite Epre. set_solver. }
  rewrite Eid in El. pose proof (load_cached leaf_id cache Hc) as Hl. cbn beta in Hl, El. rewrite El in Hl.
  destruct Hl as (cache1 & -> & Hc1). cbn [mbind outcome_bind]. rewrite (proj2 (check_expected_Ok _ _) Hm).
  cbn [mbind outcome_bind].
  pose proof (lf_depth _ _ _ HL) as Hd. rewrite Hfull in Hd. cbn in Hd. pose proof (load_Ok _ _ El) as (_ & Hv & _).
  pose proof (validated_depth _ Hv) as Hb. unfold MAX_DELTA_DEPTH in Hb.
  pose proof (parents_loop_complete 8 leaf pre leaf [] cache1) as HP. cbn zeta in HP. rewrite <-Epre in HP.
  cbn [fmap list_fmap list_to_set] in HP. rewrite Eid, union_empty_r_L in HP.
  assert (length (root :: rest) = S (length pre)) as Hlen by (rewrite Epre, length_app; cbn; lia).
  unfold zlen in Hd. cbn [length] in Hlen. specialize (HP (lf_linked _ _ _ HL) (lf_same _ _ _ HL)
    (chain_from_validated _ _ _ _ (lf_chain _ _ _ HL)) ltac:(by intros ? [= <-]) Hc1 ltac:(lia)).
  destruct (parents_loop _ _ _ _ _ _ _ _ _) as [[chain cache2]|x|w];
    cbn [fmap outcome_fmap mbind outcome_bind fst] in *; simplify_eq.
  rewrite bool_decide_true by done. cbn [negb orb].
  rewrite (proj2 (Z.eqb_eq _ _)) by (unfold zlen; cbn [length]; lia). done.
Qed.
Lemma authenticate_cached leaf_id expected cache : coherent cache →
  fst <$> authenticate_chain_cached store leaf_id minimum expected ctx cache =
    authenticate_chain store leaf_id minimum expected ctx.
Proof.
  intros Hc. unfold authenticate_chain. rewrite !authenticate_unfold.
  pose proof (load_cached leaf_id _ Hc) as L1. pose proof (load_cached leaf_id _ coherent_empty) as L2.
  cbn beta in L1, L2.
  destruct (load_authenticated_manifest store leaf_id minimum ctx); [|by rewrite L1, L2..].
  destruct L1 as (c1 & -> & H1), L2 as (c2 & -> & H2). cbn [mbind outcome_bind].
  destruct (check_expected _ _); [|done..]. cbn [mbind outcome_bind].
  pose proof (parents_loop_cached 8 (am_manifest a) (am_manifest a) {[leaf_id]} [a] c1 c2 H1 H2) as E.
  destruct (parents_loop _ _ _ _ _ _ _ _ c1) as [[chain1 c1']| |],
    (parents_loop _ _ _ _ _ _ _ _ c2) as [[chain2 c2']| |];
    cbn in E |- *; simplify_eq; try done.
  destruct chain2; [done|]. by destruct (_ || _).
Qed.
End chains.

(** ** Chunks of a chain in the catalog *)
Section dispositions.
Context (store : StoreView).
Implicit Types (r : ChunkRef) (refs : list ChunkRef) (k : Id32) (cache : gmap Id32 CachedChunkAvailability).

(** What the catalog and the chunk's file say of an object. *)
Definition status k : CachedChunkAvailability :=
  match sv_chunk_row store k with
  | None => Missing
  | Some row =>
      if availability_is_tombstoned row then Tombstoned row
      else match sv_chunk_stat store k with Some _ => Available row | None => Missing end
  end.
(** A served file is a regular file of the cataloged size. *)
Definition file_ok k : Prop :=
  ∀ row, status k = Available row → sv_chunk_stat store k = Some (true, av_object_bytes row).
Definition avail_coherent cache : Prop := ∀ k v, cache !! k = Some v → v = status k ∧ file_ok k.
Definition agrees r : Prop :=
  match status (cr_object_key r) with
  | Missing => True
  | Available row | Tombstoned row => in_window store row r = Ok tt
  end.
Definition is_missing k : bool := match status k with Missing => true | _ => false end.
Definition is_tombstoned k : bool := match status k with Tombstoned _ => true | _ => false end.

Lemma prefetch_loop_ok unknown cache cache' : avail_coherent cache → prefetch_loop store unknown cache = Ok cache' →
  avail_coherent cache' ∧ (∀ k, is_Some (cache !! k) → is_Some (cache' !! k)) ∧
  Forall (λ e, is_Some (cache' !! e.1)) unknown.
Proof.
  revert cache. induction unknown as [|[k r] unknown IH]; intros cache Hc Hp;
    [cbn in Hp; inv_ok; subst; split_and!; [done..|constructor]|].
  assert (∀ v, v = status k → file_ok k → avail_coherent (<[k := v]> cache)) as Hins.
  { intros v Hv Hf k' v'. rewrite lookup_insert_Some. intros [[<- <-]|[_ ?]]; auto. }
  assert (∀ v, v = status k → file_ok k → prefetch_loop store unknown (<[k := v]> cache) = Ok cache' →
    avail_coherent cache' ∧ (∀ k0, is_Some (cache !! k0) → is_Some (cache' !! k0)) ∧
    Forall (λ e : Id32 * ChunkRef, is_Some (cache' !! e.1)) ((k, r) :: unknown)) as Hstep.
  { intros v Hv Hf Hl. destruct (IH _ (Hins v Hv Hf) Hl) as (H1 & H2 & H3). split_and!; [done| |].
    - intros k' Hk'. apply H2. destruct (decide (k = k')) as [<-|];
        [by rewrite lookup_insert_eq|by rewrite lookup_insert_ne].
    - constructor; [|done]. apply H2. by rewrite lookup_insert_eq. }
  cbn [prefetch_loop] in Hp. destruct (sv_chunk_row store k) as [row|] eqn:Er.
  2:{ apply (Hstep Missing); [by unfold status; rewrite Er| |done]. intros row Hs. unfold status in Hs.
      by rewrite Er in Hs. }
  inv_ok. destruct (availability_is_tombstoned row) eqn:Et.
  { apply (Hstep (Tombstoned row)); [by unfold status; rewrite Er, Et| |done]. intros row' Hs. unfold status in Hs.
    by rewrite Er, Et in Hs. }
  destruct (sv_chunk_stat store k) as [[regular length]|] eqn:Es; unfold auth_error in *; inv_ok.
  2:{ apply (Hstep Missing); [by unfold status; rewrite Er, Et, Es| |done]. intros row' Hs. unfold status in Hs.
      by rewrite Er, Et, Es in Hs. }
  bools. apply (Hstep (Available row)); [by unfold status; rewrite Er, Et, Es| |done].
  intros row' Hs. unfold status in Hs. rewrite Er, Et, Es in Hs. injection Hs as <-. rewrite Es.
  match goal with H : in_window _ _ _ = _ |- _ => unfold in_window, validate_available_reference, auth_error in H end.
  inv_ok. bools.
  subst. do 2 f_equal; congruence.
Qed.
Lemma validate_cached_ok refs cache missing tombstoned missing' tombstoned' : avail_coherent cache →
  validate_cached store refs cache missing tombstoned = Ok (missing', tombstoned') →
  Forall (λ r, agrees r ∧ file_ok (cr_object_key r)) refs ∧
  (missing' = ∅ ↔ missing = ∅ ∧ Forall (λ r, is_missing (cr_object_key r) = false) refs) ∧
  tombstoned' = list_to_set (filter (λ k, is_tombstoned k) (cr_object_key <$> refs)) ∪ tombstoned.
Proof.
  intros Hc. revert missing tombstoned. induction refs as [|r refs IH]; intros missing tombstoned Hv.
  { cbn in Hv. inv_ok. simplify_eq. split_and!; [constructor|naive_solver|set_solver]. }
  cbn [validate_cached] in Hv. inv_ok. match goal with H : cache !! _ =
    Some _ |- _ => destruct (Hc _ _ H) as [Est Hfile] end. subst x.
  rewrite fmap_cons.
  assert (∀ m', validate_cached store refs cache (<[cr_object_key r := r]> m') tombstoned =
    Ok (missing', tombstoned') →
    missing' ≠ ∅) as Hne.
  { intros m' Hm E0. apply IH in Hm as (_ & A2 & _). apply A2 in E0 as [E _]. by apply insert_non_empty in E. }
  assert (agrees r ↔ match status (cr_object_key r) with Missing => True | Available row |
    Tombstoned row => in_window store row r = Ok tt end) as Ha by done.
  assert (is_missing (cr_object_key r) = match status (cr_object_key r) with Missing => true |
    _ => false end) as Hm by done.
  assert (is_tombstoned (cr_object_key r) = match status (cr_object_key r) with Tombstoned _ => true |
    _ => false end) as Ht by done.
  destruct (status (cr_object_key r)) as [|row|row].
  - assert (missing' ≠ ∅ ∧ ∃ m', validate_cached store refs cache m' tombstoned =
      Ok (missing', tombstoned')) as [Hn (m' & Hv')].
    { unfold conflicting, auth_error in *. destruct (missing !! cr_object_key r); inv_ok; eauto. }
    apply IH in Hv' as (A1 & A2 & A3). rewrite list.filter_cons_False by (rewrite Ht; by intros []).
    split_and!; [constructor; [split; [by apply Ha|done]|done]| |done]. split; [done|]. rewrite Forall_cons, Hm.
    by intros (_ & ? & _).
  - inv_ok. match goal with H : in_window _ _ _ = Ok ?u |- _ => destruct u end.
    match goal with H : validate_cached _ _ _ _ _ = _ |- _ => apply IH in H as (A1 & A2 & A3) end.
    rewrite list.filter_cons_False by (rewrite Ht; by intros []).
    split_and!; [constructor; [split; [by apply Ha|done]|done]| |done]. rewrite A2, Forall_cons, Hm. naive_solver.
  - inv_ok. match goal with H : in_window _ _ _ = Ok ?u |- _ => destruct u end.
    match goal with H : validate_cached _ _ _ _ _ = _ |- _ => apply IH in H as (A1 & A2 & A3) end.
    rewrite list.filter_cons_True by (by rewrite Ht).
    split_and!; [constructor; [split; [by apply Ha|done]|done]| |].
    + rewrite A2, Forall_cons, Hm. naive_solver.
    + rewrite A3. set_solver.
Qed.
(** The disposition a chain gets, with any cache of earlier answers. *)
Lemma disposition_ok chain cache d cache' : avail_coherent cache →
  chain_chunk_disposition_cached store chain cache = Ok (d, cache') →
  avail_coherent cache' ∧ Forall (λ r, agrees r ∧ file_ok (cr_object_key r)) (chain_references chain) ∧
  (cd_complete d = true ↔ Forall (λ r, is_missing (cr_object_key r) = false) (chain_references chain)) ∧
  cd_tombstoned d = list_to_set (filter (λ k, is_tombstoned k) (cr_object_key <$> chain_references chain)).
Proof.
  intros Hc Hd. unfold chain_chunk_disposition_cached in Hd.
  assert (∃ c, avail_coherent c ∧ c = cache' ∧ validate_cached_chain store chain c = Ok d) as (c & Hcc & <- & Hv).
  { destruct (forallb _ _); inv_ok; simplify_eq; [by eauto|]. unfold prefetch_local_availability in *.
    match goal with H : prefetch_loop _ _ _ = _ |- _ => apply prefetch_loop_ok in H as (? & _); [|done] end. eauto. }
  split; [done|]. unfold validate_cached_chain in Hv. inv_ok. destruct x as [missing tombstoned]. inv_ok. subst d.
  match goal with H : validate_cached _ _ _ _ _ = _ |- _ => apply validate_cached_ok in H as (A1 & A2 & A3);
    [|done] end.
  cbn [cd_complete cd_tombstoned]. split_and!; [done| |by rewrite A3, union_empty_r_L].
  rewrite bool_decide_eq_true, A2. naive_solver.
Qed.
End dispositions.
