(* ===== verification/RestorePins.v ===== *)
(** * Source pins and restore holds (crates/kvpack/src/store/read/pins.rs, store/holds.rs)

    The rows of the catalog's pin table and the restore holds of the process
    are the state [RestoreWorld]; the other rows of the catalog, the chunk
    files and the key schedules are an environment [RestoreIO].  A Rust value
    that owns a pin releases it when dropped: the places where one is dropped
    are calls of [release_pin] here. *)
From Stdlib Require Import ZArith Lia.
From stdpp Require Import base tactics numbers list strings option sorting gmap.
From S2P Require Import Prelude Bytes Canonical Wire State Identity Manifest Crypto Ids Frame.
From S2P Require Import Chunk StorePolicy RestorePlan.

(** An opened chunk file: is it a regular file, its length, what reading it gives. *)
Record ChunkFile := mkChunkFile { cf_is_file : bool; cf_len : Z; cf_content : sresult bytes }.
Record RestoreIO := mkRestoreIO {
  io_object_bytes : Id32 → Id32 → option Z;
  io_open : Id32 → sresult ChunkFile;
  io_record_access : ChunkRef → sresult unit;
  io_schedule : Z → sresult KeySchedule
}.
Record RetainedPin := mkRetainedPin { rt_pin_id : Id32; rt_bytes : Z }.
Record RestoreHold := mkRestoreHold { rh_pins : list RetainedPin; rh_resources : RestoreResourceCharge }.
Record RestoreWorld := mkWorld { rw_pins : gset Id32; rw_holds : gmap Id32 RestoreHold }.
Implicit Types (w : RestoreWorld) (io : RestoreIO).

(** ** The catalog *)
(** The lock and the statements of the pin table may fail.  [pin_fault] says
    with which error, by the statement and by the rows it sees; any catalog,
    a failing one included, is an instance. *)
Inductive PinStatement :=
  LockCatalog | BeginTransaction | QueryChunk (object_key : Id32) | InsertPin (pin_id : Id32) |
  DeletePin (pin_id : Id32) | CommitTransaction.
Class PinCatalog := pin_fault : PinStatement → gset Id32 → option StoreError.
Section pins.
Context `{PC : PinCatalog}.
Definition statement (q : PinStatement) (rows : gset Id32) : sresult unit :=
  match pin_fault q rows with Some e => Err e | None => Ok tt end.

(** ** Pins *)
Definition set_pins (pins : gset Id32) w : RestoreWorld := mkWorld pins (rw_holds w).
(** One DELETE of its own, best effort: an error is dropped, and the row stays. *)
Definition release_pin (pin_id : Id32) w : RestoreWorld :=
  match _ ← statement LockCatalog (rw_pins w); statement (DeletePin pin_id) (rw_pins w) with
  | Ok _ => set_pins (rw_pins w ∖ {[pin_id]}) w
  | _ => w
  end.
Definition drop_pins (pins : list RetainedPin) w : RestoreWorld := foldl (λ w pin, release_pin (rt_pin_id pin) w) w
  pins.
Definition MAX_RELEASED_PINS : Z := 1000000.
Fixpoint release_rows (pin_ids : list Id32) (released : Z) (rows : gset Id32) : sresult (Z * gset Id32) :=
  match pin_ids with
  | [] => Ok (released, rows)
  | pin_id :: pin_ids =>
      _ ← statement (DeletePin pin_id) rows;
      released ← ok_or (checked_add released (if bool_decide (pin_id ∈ rows) then 1 else 0))
                   (SState "released source pin count overflow");
      release_rows pin_ids released (rows ∖ {[pin_id]})
  end.
(** One transaction: the rows are deleted only when all of it succeeds. *)
Definition release_retained_source_pins (pin_ids : list Id32) w : sresult Z * RestoreWorld :=
  if MAX_RELEASED_PINS <? zlen pin_ids then
    (Err (SExpectation "retained source pin release exceeds the bounded count"), w) else
  match
    _ ← statement LockCatalog (rw_pins w);
    _ ← statement BeginTransaction (rw_pins w);
    '(released, rows) ← release_rows pin_ids 0 (rw_pins w);
    _ ← statement CommitTransaction rows;
    Ok (released, rows)
  with
  | Ok (released, rows) => (Ok released, set_pins rows w)
  | Err e => (Err e, w)
  | Panic m => (Panic m, w)
  end.
(** The identities are taken out of [pins] first, so that dropping them releases nothing more. *)
Definition release_restore_pin_batch (pins : list RetainedPin) (pending_ids : list Id32) w : RestoreWorld :=
  (release_retained_source_pins ((rt_pin_id <$> pins) ++ pending_ids) w).2.
(** The rows a transaction would insert; a failed one inserts none. *)
Fixpoint pin_rows io (entries : list (ChunkRef * Id32)) (rows : gset Id32) : sresult (gset Id32) :=
  match entries with
  | [] => Ok rows
  | (reference, pin_id) :: entries =>
      _ ← statement (QueryChunk (cr_object_key reference)) rows;
      if negb (bool_decide (io_object_bytes io (cr_object_key reference) (cr_object_digest reference) =
                            Some (cr_object_bytes reference))) then
        auth_error "chunk catalog reference mismatch" else
      _ ← statement (InsertPin pin_id) rows;
      if bool_decide (pin_id ∈ rows) then Err SCatalog else
      pin_rows io entries ({[pin_id]} ∪ rows)
  end.
Definition pin_chunk_rows io (references : list ChunkRef) (pin_ids : list Id32) w : sresult unit * RestoreWorld :=
  match
    _ ← statement LockCatalog (rw_pins w);
    _ ← statement BeginTransaction (rw_pins w);
    rows ← pin_rows io (zip references pin_ids) (rw_pins w);
    _ ← statement CommitTransaction rows;
    Ok rows
  with
  | Ok rows => (Ok tt, set_pins rows w)
  | Err e => (Err e, w)
  | Panic m => (Panic m, w)
  end.
(** [draw] is what the system's generator returned, if it did not fail. *)
Definition random_nonzero_id (message : string) (draw : option Id32) : sresult Id32 :=
  id ← ok_or draw (SState message);
  Ok (if is_zero_id id then <[31%nat := 1]> id else id).
Fixpoint random_ids {A} (references : list A) (entropy : nat → option Id32) (n : nat) : sresult (list Id32) :=
  match references with
  | [] => Ok []
  | _ :: references =>
      id ← random_nonzero_id "pin entropy failed" (entropy n);
      ids ← random_ids references entropy (S n);
      Ok (id :: ids)
  end.
Definition pin_chunks_batch io (references : list ChunkRef) (entropy : nat → option Id32) w
    : sresult (list Id32) * RestoreWorld :=
  match random_ids references entropy 0 with
  | Err e => (Err e, w)
  | Panic m => (Panic m, w)
  | Ok pin_ids =>
      match pin_chunk_rows io references pin_ids w with
      | (Ok _, w) => (Ok pin_ids, w)
      | (Err e, w) => (Err e, w)
      | (Panic m, w) => (Panic m, w)
      end
  end.
(** What [PinnedChunk::read_bytes] returns of the file's content, with direct
    I/O off (store/read/direct.rs, which reads the same bytes past the page cache). *)
Definition read_bytes (file : ChunkFile) (expected_bytes : Z) : sresult bytes :=
  content ← cf_content file;
  let b := firstn (Z.to_nat (expected_bytes + 1)) content in
  if negb (zlen b =? expected_bytes) then auth_error "pinned chunk length changed" else Ok b.
Definition read_opened io (file : ChunkFile) (reference : ChunkRef) : sresult bytes :=
  if negb (cf_is_file file) || negb (cf_len file =? cr_object_bytes reference) then
    auth_error "pinned chunk metadata mismatch" else
  _ ← io_record_access io reference;
  read_bytes file (cr_object_bytes reference).
Definition read_pinned_chunk_object io (reference : ChunkRef) (pin_id : Id32) w
    : sresult (bytes * RetainedPin) * RestoreWorld :=
  match io_open io (cr_object_key reference) with
  | Err e => (Err e, (release_retained_source_pins [pin_id] w).2)
  | Panic m => (Panic m, w)
  | Ok file =>
      match read_opened io file reference with
      | Ok b => (Ok (b, mkRetainedPin pin_id (cr_object_bytes reference)), w)
      | Err e => (Err e, release_pin pin_id w)
      | Panic m => (Panic m, release_pin pin_id w)
      end
  end.
(** The chunks opened, and the failure of one that cannot be. *)
Fixpoint open_pinned io (entries : list (ChunkRef * Id32)) (opened : list (ChunkFile * RetainedPin))
    : sresult unit * list (ChunkFile * RetainedPin) :=
  match entries with
  | [] => (Ok tt, opened)
  | (reference, pin_id) :: entries =>
      match io_open io (cr_object_key reference) with
      | Ok file => open_pinned io entries (opened ++ [(file, mkRetainedPin pin_id (cr_object_bytes reference))])
      | Err e => (Err e, opened)
      | Panic m => (Panic m, opened)
      end
  end.
Fixpoint check_opened io (files : list (ChunkFile * RetainedPin)) (entries : list (ChunkRef * Id32)) : sresult unit :=
  match files, entries with
  | (file, _) :: files, (reference, _) :: entries =>
      if negb (cf_is_file file) || negb (cf_len file =? cr_object_bytes reference) then
        auth_error "pinned chunk metadata mismatch" else
      _ ← io_record_access io reference;
      check_opened io files entries
  | _, _ => Ok tt
  end.
(** The chunks opened so far are dropped, and then all pins released, when one
    cannot be opened or is not the referenced file. *)
Definition pin_chunks_with_ids io (entries : list (ChunkRef * Id32)) w
    : sresult (list (ChunkFile * RetainedPin)) * RestoreWorld :=
  if existsb (λ entry, is_zero_id entry.2) entries then
    (Err (SExpectation "source pin identity must be nonzero"), w) else
  let '(result, w) :=
    match pin_chunk_rows io entries.*1 entries.*2 w with
    | (Err e, w) => (Err e, w)
    | (Panic m, w) => (Panic m, w)
    | (Ok _, w) =>
        let '(opening, files) := open_pinned io entries [] in
        match _ ← opening; check_opened io files entries with
        | Ok _ => (Ok files, w)
        | Err e => (Err e, drop_pins files.*2 w)
        | Panic m => (Panic m, drop_pins files.*2 w)
        end
    end in
  match result with
  | Err e => (Err e, (release_retained_source_pins entries.*2 w).2)
  | result => (result, w)
  end.

(** ** Holds *)
Definition accounting_overflow {A} : sresult A := Err (SQuota "concurrent restore resource accounting overflow").
Fixpoint aggregate_holds (holds : list RestoreHold) (aggregate : RestoreResourceCharge) : option RestoreResourceCharge
  :=
  match holds with
  | [] => Some aggregate
  | hold :: holds => aggregate ← charge_checked_add aggregate (rh_resources hold); aggregate_holds holds aggregate
  end.
Definition hold_values (holds : gmap Id32 RestoreHold) : list RestoreHold := (btree_iter holds).*2.
Definition reserve_restore_resources (restore_id : Id32) (resources : RestoreResourceCharge) (limits : RestoreLimits)
  w
    : sresult RestoreWorld :=
  let holds := rw_holds w in
  if bool_decide (is_Some (holds !! restore_id)) then state_error "restore hold identity collision" else
  match aggregate_holds (hold_values holds) RestoreResourceCharge_default with
  | None => accounting_overflow
  | Some aggregate =>
      match charge_checked_add aggregate resources with
      | None => accounting_overflow
      | Some aggregate =>
          if negb (charge_within_limits aggregate limits) then
            Err (SQuota "concurrent restore resources exceed declared limits")
          else Ok (mkWorld (rw_pins w) (<[restore_id := mkRestoreHold [] resources]> holds))
      end
  end.
Fixpoint pin_bytes (why : string) (pins : list RetainedPin) (sum : Z) : sresult Z :=
  match pins with
  | [] => Ok sum
  | pin :: pins => sum ← ok_or (checked_add sum (rt_bytes pin)) (SState why); pin_bytes why pins sum
  end.
(** A failed call drops the pins it was given. *)
Definition attach_restore_pins (restore_id : Id32) (pins : list RetainedPin) w : sresult unit * RestoreWorld :=
  match
    hold ← ok_or (rw_holds w !! restore_id) (SState "restore resource reservation is missing");
    if negb (bool_decide (rh_pins hold = [])) then state_error "restore source pins already attached" else
    pinned_bytes ← pin_bytes "restore source pin byte total overflow" pins 0;
    if negb (pinned_bytes =? rg_pinned_source_bytes (rh_resources hold))
       || negb (zlen pins =? rg_source_pins (rh_resources hold)) then
      auth_error "restore source pins disagree with reserved resources"
    else Ok (mkRestoreHold pins (rh_resources hold))
  with
  | Ok hold => (Ok tt, mkWorld (rw_pins w) (<[restore_id := hold]> (rw_holds w)))
  | Err e => (Err e, drop_pins pins w)
  | Panic m => (Panic m, drop_pins pins w)
  end.
Definition acknowledge_engine_free (restore_id : Id32) w : bool * RestoreWorld :=
  match rw_holds w !! restore_id with
  | None => (false, w)
  | Some hold => (true, release_restore_pin_batch (rh_pins hold) [] (mkWorld (rw_pins w) (delete restore_id (rw_holds
    w))))
  end.
End pins.
Record HeldRestoreResources := mkHeldResources { hr_active_restores : Z; hr_resources : RestoreResourceCharge }.
Definition held_restore_count w : Z := Z.of_nat (size (rw_holds w)).
Definition held_restore_resources w : sresult HeldRestoreResources :=
  resources ← ok_or (aggregate_holds (hold_values (rw_holds w)) RestoreResourceCharge_default)
                (SState "held restore resource total overflow");
  Ok (mkHeldResources (held_restore_count w) resources).
