(* ===== verification/RestoreExec.v ===== *)
(** * Running a restore (crates/kvpack/src/restore/plan.rs, restore/shadow.rs, restore.rs, sink.rs)

    An authenticated plan is restored into an engine's sink: the resources are
    reserved, every chunk is pinned, read, decoded and written, the pins go
    into the hold, and the sink commits; a failure on the way aborts the sink
    and gives everything back.  Telemetry is left out. *)
From Stdlib Require Import ZArith Lia.
From stdpp Require Import base tactics numbers list strings option sorting gmap.
From S2P Require Import Prelude Bytes Canonical Wire State Identity Manifest Validator Deps.
From S2P Require Import Crypto Ids Frame Chunk Pack StorePolicy RestorePlan ScatterPlan.
From S2P Require Import RestorePins.

(** ** Sinks *)
(** [None] is [Ok(())], [Some e] is [Err(e)]. *)
Class VerifiedRestoreSink (S : Type) := {
  begin_restore : Id32 → list RestoreStatePlan → S → option StoreError * S;
  write_verified_chunk : StateKey → Z → bytes → S → option StoreError * S;
  commit_restore : S → option StoreError * S;
  abort_restore : S → S;
  reset_restore : S → S
}.

(** ** Plans *)
Record AuthenticatedRestorePlan := mkPlan {
  ap_tenant_namespace : Id32;
  ap_manifest_id : Id32;
  ap_semantic_model : SemanticModelId;
  ap_family : RepresentationFamilyId;
  ap_realized_schema : RealizedCutSchemaId;
  ap_key_epoch : Z;
  ap_matched_cut : InputCutId;
  ap_requested_cut : InputCutId;
  ap_chain_identity : Id32;
  ap_states : list RestoreStatePlan;
  ap_operations : list RestoreChunkOperation;
  ap_resources : RestoreResourceRequirements;
  ap_limits : RestoreLimits
}.
Record RestoreCandidate := mkCandidate {
  rc_tenant_namespace : Id32;
  rc_matched_cut : InputCutId;
  rc_requested_cut : InputCutId;
  rc_suffix_tokens : Z;
  rc_tier : RestoreTier;
  rc_manifest_id : option Id32;
  rc_chain_identity : option Id32;
  rc_source_identity : option Id32;
  rc_source_key_epoch : option Z;
  rc_restored_bytes : Z;
  rc_resources : RestoreResourceRequirements;
  rc_semantic_id : Id32;
  rc_family_id : Id32;
  rc_minimum_key_epoch : Z;
  rc_tombstoned_chunks : Z
}.
#[global] Instance requirements_eq_dec : EqDecision RestoreResourceRequirements.
Proof. solve_decision. Defined.
#[global] Instance tier_eq_dec : EqDecision RestoreTier.
Proof. solve_decision. Defined.

Section plans.
Context `{Crypto}.
Definition plan_of_chain (store : StoreView) (manifest_id : Id32) (chain : list AuthenticatedManifest)
    (disposition : ChainChunkDisposition) (resources : RestoreResourceRequirements) (limits : RestoreLimits)
    (matched requested : InputCutId) : sresult AuthenticatedRestorePlan :=
  leaf ← chain_leaf chain;
  '(states, operations) ← build_scatter_plan chain;
  Ok (mkPlan (sv_tenant_namespace store) manifest_id (cm_semantic_model leaf) (cm_family leaf) (cm_realized_schema
    leaf)
        (cm_key_epoch leaf) matched requested (chain_identity chain) states
        (mark_recompute_operations operations disposition) resources limits).
Definition build (store : StoreView) (context : ValidationContext) (candidate : RestoreCandidate) (limits :
  RestoreLimits)
    : sresult AuthenticatedRestorePlan :=
  if negb (bytes_eqb (rc_tenant_namespace candidate) (sv_tenant_namespace store))
     || negb (bool_decide (rc_tier candidate = Tier_Local)) then
    Err (SExpectation "restore candidate is not a local artifact for this tenant") else
  manifest_id ← ok_or (rc_manifest_id candidate)
                  (SExpectation "recomputation candidate cannot form an authenticated restore plan");
  chain ← authenticate_chain store manifest_id (rc_minimum_key_epoch candidate)
            (Some (rc_semantic_id candidate, rc_family_id candidate, rc_matched_cut candidate)) context;
  disposition ← chain_chunk_disposition store chain;
  if negb (cd_complete disposition) then Err SNotFound else
  resources ← chain_resources chain;
  leaf ← expect (last chain) "called `Option::unwrap()` on a `None` value";
  if negb (bool_decide (rc_chain_identity candidate = Some (chain_identity chain)))
     || negb (bool_decide (rc_resources candidate = resources))
     || negb (rc_tombstoned_chunks candidate =? Z.of_nat (size (cd_tombstoned disposition)))
     || negb (rc_restored_bytes candidate =? rc_complete_restored_bytes (cm_realized_schema (am_manifest leaf))) then
    auth_error "restore candidate changed before plan construction" else
  _ ← validate_limits resources limits 1;
  plan_of_chain store manifest_id chain disposition resources limits (rc_matched_cut candidate) (rc_requested_cut
    candidate).
Definition build_exact_manifest (store : StoreView) (manifest_id : Id32) (minimum_key_epoch : Z) (limits :
  RestoreLimits)
    (context : ValidationContext) : sresult AuthenticatedRestorePlan :=
  let effective_minimum := Z.max minimum_key_epoch (sv_minimum_readable_key_epoch store) in
  chain ← authenticate_chain store manifest_id effective_minimum None context;
  disposition ← chain_chunk_disposition store chain;
  if negb (cd_complete disposition) then Err SNotFound else
  leaf ← chain_leaf chain;
  resources ← chain_resources chain;
  _ ← validate_limits resources limits 1;
  plan_of_chain store manifest_id chain disposition resources limits (cm_input_cut leaf) (cm_input_cut leaf).
Definition requires_guided_recompute (plan : AuthenticatedRestorePlan) : bool :=
  existsb ro_recompute (ap_operations plan).
Definition recompute_spans (plan : AuthenticatedRestorePlan) : list (StateKey * ChunkSpan) :=
  (λ o, (ro_state_key o, ro_span o)) <$> filter (λ o, ro_recompute o) (ap_operations plan).
Definition operation_references (plan : AuthenticatedRestorePlan) : list ChunkRef :=
  ro_reference <$> ap_operations plan.
Fixpoint scatter_pin_ids_from (plan : AuthenticatedRestorePlan) (attempt : Id32) (ordinal : Z)
    (operations : list RestoreChunkOperation) : sresult (list Id32) :=
  match operations with
  | [] => Ok []
  | operation :: operations =>
      if u64_bound <=? ordinal then state_error "scatter chunk ordinal exceeds u64" else
      id ← scatter_pin_identity (ap_tenant_namespace plan) (ap_manifest_id plan) attempt ordinal
             (cr_object_key (ro_reference operation));
      ids ← scatter_pin_ids_from plan attempt (ordinal + 1) operations;
      Ok (id :: ids)
  end.
Definition scatter_pin_ids (plan : AuthenticatedRestorePlan) (attempt : Id32) : sresult (list Id32) :=
  if is_zero_id attempt then Err (SExpectation "scatter transfer attempt must be nonzero") else
  scatter_pin_ids_from plan attempt 0 (ap_operations plan).
End plans.

(** ** Installed restores *)
Record InstalledRestore := mkInstalled { ir_restore_id : Id32; ir_manifest_id : Id32 }.
(** Dropping the reservation of a restore that was not retained. *)
Definition drop_reservation `{PinCatalog} (restore_id : Id32) (w : RestoreWorld) : RestoreWorld :=
  (acknowledge_engine_free restore_id w).2.
Definition engine_free `{PinCatalog} (installed : InstalledRestore) (w : RestoreWorld) : sresult unit * RestoreWorld :=
  let '(released, w) := acknowledge_engine_free (ir_restore_id installed) w in
  if released then (Ok tt, w) else (state_error "restore resources were already released or are unknown", w).

(** ** One chunk *)
Section restore.
Context `{Crypto} `{PC : PinCatalog} (io : RestoreIO).
Implicit Types (w : RestoreWorld) (plan : AuthenticatedRestorePlan).
Definition decode_read (operation : RestoreChunkOperation) (object : bytes) : sresult bytes :=
  keys ← io_schedule io (cr_key_epoch (ro_reference operation));
  of_pack (decode_chunk object (ro_reference operation) (ro_span operation) (ro_tenant_namespace operation)
             (ro_family operation) (ro_state_key operation) keys).
Definition decode_operation (operation : RestoreChunkOperation) (pin_id : Id32) w : sresult (bytes * RetainedPin) *
  RestoreWorld :=
  match read_pinned_chunk_object io (ro_reference operation) pin_id w with
  | (Err e, w) => (Err e, w)
  | (Panic m, w) => (Panic m, w)
  | (Ok (object, pin), w) =>
      match decode_read operation object with
      | Ok plaintext => (Ok (plaintext, pin), w)
      | Err e => (Err e, drop_pins [pin] w)
      | Panic m => (Panic m, drop_pins [pin] w)
      end
  end.

(** ** All chunks, in plan order *)
Context {S : Type} `{VerifiedRestoreSink S}.
(** [cancelled n] is what the [n]-th check of the cancellation flag sees. *)
Implicit Types (s : S) (cancelled : nat → bool).
Fixpoint restore_each cancelled (n : nat) (work : list (RestoreChunkOperation * Id32)) (pins : list RetainedPin) s w
    : sresult (list RetainedPin) * S * RestoreWorld :=
  match work with
  | [] => (Ok pins, s, w)
  | (operation, pin_id) :: work =>
      if cancelled n then (Err SCancelled, s, release_restore_pin_batch pins (pin_id :: work.*2) w) else
      match decode_operation operation pin_id w with
      | (Err e, w) => (Err e, s, release_restore_pin_batch pins work.*2 w)
      | (Panic m, w) => (Panic m, s, drop_pins pins w)
      | (Ok (plaintext, pin), w) =>
          match write_verified_chunk (ro_state_key operation) (ro_target_offset operation) plaintext s with
          | (Some e, s) => (Err e, s, release_restore_pin_batch (pins ++ [pin]) work.*2 w)
          | (None, s) => restore_each cancelled (1 + n) work (pins ++ [pin]) s w
          end
      end
  end.
Definition restore_operations_sequential plan (entropy : nat → option Id32) cancelled s w
    : sresult (list RetainedPin) * S * RestoreWorld :=
  match pin_chunks_batch io (operation_references plan) entropy w with
  | (Err e, w) => (Err e, s, w)
  | (Panic m, w) => (Panic m, s, w)
  | (Ok pin_ids, w) => restore_each cancelled 1 (zip (ap_operations plan) pin_ids) [] s w
  end.

(** ** A restore *)
(** The pins a restore retains have to be the ones its plan accounts for. *)
Definition check_pins plan (pins : list RetainedPin) : sresult unit :=
  pinned_bytes ← pin_bytes "retained source pin total overflow" pins 0;
  if negb (pinned_bytes =? rq_pinned_source_bytes (ap_resources plan))
     || negb (zlen pins =? rq_source_pins (ap_resources plan)) then
    auth_error "retained source pins disagree with authenticated plan resources"
  else Ok tt.
Definition install plan (restore_id : Id32) (pins : list RetainedPin) s w : sresult InstalledRestore * S *
  RestoreWorld :=
  match attach_restore_pins restore_id pins w with
  | (Err e, w) => (Err e, abort_restore s, drop_reservation restore_id w)
  | (Panic m, w) => (Panic m, s, drop_reservation restore_id w)
  | (Ok _, w) =>
      match commit_restore s with
      | (Some e, s) => (Err e, reset_restore s, drop_reservation restore_id w)
      | (None, s) => (Ok (mkInstalled restore_id (ap_manifest_id plan)), s, w)
      end
  end.
(** [operations] runs the chunk operations; the flag is checked before the
    reservation and after the operations. *)
Definition restore plan (operations : S → RestoreWorld → sresult (list RetainedPin) * S * RestoreWorld)
    (draw : option Id32) (parallelism : Z) (cancelled_before cancelled_after : bool) s w
    : sresult InstalledRestore * S * RestoreWorld :=
  if requires_guided_recompute plan then
    (Err (SExpectation "guided-recompute plan must not serve tombstoned chunk bytes"), s, w) else
  match
    charge ← validate_limits (ap_resources plan) (ap_limits plan) parallelism;
    if cancelled_before then Err SCancelled else
    restore_id ← ok_or draw (SState "restore identity entropy failed");
    w ← reserve_restore_resources restore_id charge (ap_limits plan) w;
    Ok (restore_id, w)
  with
  | Err e => (Err e, s, w)
  | Panic m => (Panic m, s, w)
  | Ok (restore_id, w) =>
      match begin_restore (ap_manifest_id plan) (ap_states plan) s with
      | (Some e, s) => (Err e, abort_restore s, drop_reservation restore_id w)
      | (None, s) =>
          match operations s w with
          | (Err e, s, w) => (Err e, abort_restore s, drop_reservation restore_id w)
          | (Panic m, s, w) => (Panic m, s, drop_reservation restore_id w)
          | (Ok pins, s, w) =>
              match _ ← check_pins plan pins; if cancelled_after then Err SCancelled else Ok tt with
              | Err e => (Err e, abort_restore s, drop_reservation restore_id (drop_pins pins w))
              | Panic m => (Panic m, s, drop_reservation restore_id (drop_pins pins w))
              | Ok _ => install plan restore_id pins s w
              end
          end
      end
  end.
Definition restore_sequential plan (draw : option Id32) (entropy : nat → option Id32) cancelled s w
    : sresult InstalledRestore * S * RestoreWorld :=
  restore plan (restore_operations_sequential plan entropy cancelled) draw 1 (cancelled 0%nat)
    (cancelled (1 + length (ap_operations plan))%nat) s w.
End restore.

(** ** Shadow restores *)
Record StagedChunk := mkStagedChunk { st_state : StateKey; st_offset : Z; st_plaintext : bytes }.
#[global] Instance staged_chunk_eq_dec : EqDecision StagedChunk.
Proof. solve_decision. Defined.
Record ShadowStageSink := mkShadowStage {
  sh_state_bytes : gmap StateKey Z;
  sh_staged : list StagedChunk;
  sh_committed : bool
}.
Definition ShadowStageSink_default : ShadowStageSink := mkShadowStage ∅ [] false.
Fixpoint declare_states (states : list RestoreStatePlan) (acc : gmap StateKey Z) : option StoreError * gmap StateKey Z
  :=
  match states with
  | [] => (None, acc)
  | state :: states =>
      let key := sd_key (rp_declaration state) in
      let acc' := <[key := rp_plaintext_bytes state]> acc in
      match acc !! key with
      | Some _ => (Some (SExpectation "shadow restore plan repeats a state key"), acc')
      | None => declare_states states acc'
      end
  end.
Definition shadow_begin (artifact : Id32) (states : list RestoreStatePlan) (s : ShadowStageSink)
    : option StoreError * ShadowStageSink :=
  if is_zero_id artifact || bool_decide (states = []) then
    (Some (SExpectation "shadow restore requires an authenticated artifact and states"), s) else
  let '(e, state_bytes) := declare_states states ∅ in (e, mkShadowStage state_bytes [] false).
Definition shadow_write (state : StateKey) (logical_offset : Z) (plaintext : bytes) (s : ShadowStageSink)
    : option StoreError * ShadowStageSink :=
  match sh_state_bytes s !! state with
  | None => (Some (SState "shadow write targets an undeclared state"), s)
  | Some total =>
      match checked_add logical_offset (zlen plaintext) with
      | None => (Some (SState "shadow write offset overflow"), s)
      | Some end_ =>
          if total <? end_ then (Some (SState "shadow write exceeds the declared state bytes"), s)
          else (None, mkShadowStage (sh_state_bytes s) (sh_staged s ++ [mkStagedChunk state logical_offset plaintext])
                        (sh_committed s))
      end
  end.
Definition shadow_commit (s : ShadowStageSink) : option StoreError * ShadowStageSink :=
  (None, mkShadowStage (sh_state_bytes s) (sh_staged s) true).
#[global] Instance shadow_sink : VerifiedRestoreSink ShadowStageSink := {
  begin_restore := shadow_begin;
  write_verified_chunk := shadow_write;
  commit_restore := shadow_commit;
  abort_restore := λ _, ShadowStageSink_default;
  reset_restore := λ _, ShadowStageSink_default
}.
Record ShadowRestoreHandle := mkShadowHandle {
  hs_manifest_id : Id32;
  hs_matched_cut : InputCutId;
  hs_states : list RestoreStatePlan;
  hs_staged : list StagedChunk;
  hs_staged_bytes : Z;
  hs_install : option InstalledRestore
}.
Fixpoint staged_total (staged : list StagedChunk) (sum : Z) : option Z :=
  match staged with
  | [] => Some sum
  | chunk :: staged => sum ← checked_add sum (zlen (st_plaintext chunk)); staged_total staged sum
  end.
(** A failure after the restore drops the installation, which retains its pins. *)
Definition prestage_shadow `{Crypto} `{PinCatalog} (io : RestoreIO) (plan : AuthenticatedRestorePlan) (draw : option Id32)
    (entropy : nat → option Id32) (cancelled : nat →
      bool) (w : RestoreWorld) : sresult ShadowRestoreHandle * RestoreWorld :=
  match restore_sequential io plan draw entropy cancelled ShadowStageSink_default w with
  | (Err e, _, w) => (Err e, w)
  | (Panic m, _, w) => (Panic m, w)
  | (Ok installed, stage, w) =>
      (if negb (sh_committed stage) then state_error "shadow stage did not finalize" else
       staged_bytes ← ok_or (staged_total (sh_staged stage) 0) (SState "shadow staged byte total overflow");
       if negb (staged_bytes =? rc_complete_restored_bytes (ap_realized_schema plan)) then
         auth_error "shadow staged bytes disagree with the authenticated schema"
       else Ok (mkShadowHandle (ap_manifest_id plan) (ap_matched_cut plan) (ap_states plan) (sh_staged stage)
         staged_bytes
                  (Some installed)), w)
  end.
Definition shadow_restore_id (handle : ShadowRestoreHandle) : Id32 :=
  match hs_install handle with Some installed => ir_restore_id installed | None => replicate 32 0 end.
(** [abort] and [abort_inner]: the staged bytes go with the handle. *)
Definition abort_shadow `{PinCatalog} (handle : ShadowRestoreHandle) (w : RestoreWorld) : sresult unit * RestoreWorld :=
  match hs_install handle with Some installed => engine_free installed w | None => (Ok tt, w) end.
Section promote.
Context {S : Type} `{VerifiedRestoreSink S}.
Fixpoint replay (staged : list StagedChunk) (s : S) : option StoreError * S :=
  match staged with
  | [] => (None, s)
  | chunk :: staged =>
      match write_verified_chunk (st_state chunk) (st_offset chunk) (st_plaintext chunk) s with
      | (Some e, s) => (Some e, s)
      | (None, s) => replay staged s
      end
  end.
Definition promote_if `{PinCatalog} (handle : ShadowRestoreHandle) (exact_key : Id32) (cancelled_before cancelled_after : bool) (s :
  S)
    (w : RestoreWorld) : sresult InstalledRestore * S * RestoreWorld :=
  let aborted := (abort_shadow handle w).2 in
  if negb (bytes_eqb exact_key (hs_manifest_id handle)) then
    (auth_error "shadow restore promoted for an artifact it was not staged for", s, aborted) else
  if cancelled_before then (Err SCancelled, s, aborted) else
  match begin_restore (hs_manifest_id handle) (hs_states handle) s with
  | (Some e, s) => (Err e, abort_restore s, aborted)
  | (None, s) =>
      match replay (hs_staged handle) s with
      | (Some e, s) => (Err e, abort_restore s, aborted)
      | (None, s) =>
          if cancelled_after then (Err SCancelled, abort_restore s, aborted) else
          match commit_restore s with
          | (Some e, s) => (Err e, reset_restore s, aborted)
          | (None, s) => (ok_or (hs_install handle) (SState "shadow restore handle is already settled"), s, w)
          end
      end
  end.
End promote.
