(* ===== verification/RestoreLaws.v ===== *)
(** * Laws of a restore

    A restore either installs, and then freeing the engine gives back what it
    took, or leaves the pins and holds as they were; a pin row the catalog
    failed to delete is all that can stay.  What the sink receives is the
    decoded chunks in plan order. *)
From Stdlib Require Import ZArith Lia.
From stdpp Require Import base tactics numbers list strings option sorting gmap.
From S2P Require Import Prelude Bytes Canonical Wire State Identity Manifest Frame Deps Validator.
From S2P Require Import ValidatorLaws Crypto Ids Chunk ChunkLaws Pack StorePolicy CacheReplayLaws.
From S2P Require Import RestorePlan ScatterPlan RestorePins RestoreExec.

Implicit Types (w : RestoreWorld) (P : gset Id32) (pins : list RetainedPin) (ids : list Id32).

(** ** Pins *)
Lemma world_eta w : mkWorld (rw_pins w) (rw_holds w) = w.
Proof. by destruct w. Qed.
Section pins.
Context `{PC : PinCatalog}.
(** No statement of a release fails. *)
Definition deletions_succeed : Prop := ∀ rows, pin_fault LockCatalog rows = None ∧
  pin_fault BeginTransaction rows = None ∧ pin_fault CommitTransaction rows = None ∧
  ∀ id, pin_fault (DeletePin id) rows = None.
(** A release of [ids] deletes rows of [ids] only, and all of them when no
    statement fails and one transaction may hold them. *)
Record released ids w w' : Prop := {
  re_holds : rw_holds w' = rw_holds w;
  re_kept : rw_pins w ∖ list_to_set ids ⊆ rw_pins w';
  re_sub : rw_pins w' ⊆ rw_pins w;
  re_all : deletions_succeed → zlen ids ≤ MAX_RELEASED_PINS → rw_pins w' = rw_pins w ∖ list_to_set ids
}.
Lemma released_nil w : released [] w w.
Proof. split; set_solver. Qed.
Lemma released_app ids ids' w w1 w' : released ids w w1 → released ids' w1 w' → released (ids ++ ids') w w'.
Proof.
  intros [A1 A2 A3 A4] [B1 B2 B3 B4]. split; [congruence|set_solver|set_solver|]. intros Hd Hl.
  rewrite zlen_app in Hl. pose proof (zlen_nonneg ids). pose proof (zlen_nonneg ids').
  rewrite B4, A4 by (done || lia). set_solver.
Qed.
Lemma released_perm ids ids' w w' : ids ≡ₚ ids' → released ids w w' → released ids' w w'.
Proof.
  intros Hp [A1 A2 A3 A4]. assert (list_to_set (C := gset Id32) ids = list_to_set ids') as He.
  { apply set_eq. intros x. by rewrite !elem_of_list_to_set, Hp. }
 
  rewrite He in *. split; try done. intros Hd Hl. apply A4; [done|]. unfold zlen in *. by rewrite Hp.
Qed.
Lemma released_refl ids w : rw_pins w ## list_to_set ids → released ids w w.
Proof. intros Hd. split; set_solver. Qed.
Lemma release_pin_ok id w : released [id] w (release_pin id w).
Proof.
  unfold release_pin, statement. destruct (pin_fault LockCatalog _) eqn:E1; cbn [mbind outcome_bind];
    [|destruct (pin_fault (DeletePin id) _) eqn:E2]; split; try done; try set_solver.
  - intros Hd. destruct (Hd (rw_pins w)) as (? & _). congruence.
  - intros Hd. destruct (Hd (rw_pins w)) as (_ & _ & _ & Hx). specialize (Hx id). congruence.
Qed.
Lemma drop_pins_ok pins w : released (rt_pin_id <$> pins) w (drop_pins pins w).
Proof.
  revert w. induction pins as [|pin pins IH]; intros w; [apply released_nil|].
  exact (released_app [_] _ _ _ _ (release_pin_ok _ w) (IH _)).
Qed.
(** Dropped one by one, any number of pins goes. *)
Lemma drop_pins_all pins w : deletions_succeed → rw_pins (drop_pins pins w) = rw_pins w ∖ list_to_set (rt_pin_id <$> pins).
Proof.
  intros Hd. revert w. induction pins as [|pin pins IH]; intros w; [set_solver|].
  change (drop_pins (pin :: pins) w) with (drop_pins pins (release_pin (rt_pin_id pin) w)). rewrite IH.
  rewrite (re_all _ _ _ (release_pin_ok (rt_pin_id pin) w) Hd) by (unfold zlen, MAX_RELEASED_PINS; cbn; lia).
  cbn. set_solver.
Qed.
(** [w'] keeps the rows [P] of [w], and has no others when no deletion fails. *)
Record settled P w w' : Prop := {
  st_holds : rw_holds w' = rw_holds w;
  st_kept : P ⊆ rw_pins w';
  st_exact : deletions_succeed → rw_pins w' = P
}.
Lemma release_rows_ok ids n rows r : release_rows ids n rows = Ok r → r.2 = rows ∖ list_to_set ids.
Proof.
  revert n rows. induction ids as [|id ids IH]; intros n rows Hr; cbn [release_rows] in Hr; inv_ok; [subst; set_solver|].
  match goal with H : release_rows _ _ _ = Ok _ |- _ => apply IH in H as -> end. set_solver.
Qed.
Lemma release_rows_succeed ids n rows : deletions_succeed → 0 ≤ n → n + zlen ids < u64_bound →
  is_ok (release_rows ids n rows) = true.
Proof.
  intros Hd. revert n rows. induction ids as [|id ids IH]; intros n rows Hn Hb; [done|].
  rewrite zlen_cons in Hb. pose proof (zlen_nonneg ids). cbn [release_rows]. unfold statement.
  destruct (Hd rows) as (_ & _ & _ & ->). cbn [mbind outcome_bind].
  rewrite (proj2 (checked_add_Some _ _ _)) by (split; [done|case_bool_decide; lia]). cbn [ok_or mbind outcome_bind].
  apply IH; case_bool_decide; lia.
Qed.
Lemma release_source_pins_ok ids w : released ids w (release_retained_source_pins ids w).2.
Proof.
  unfold release_retained_source_pins. destruct (_ <? _) eqn:Hlt.
  { apply Z.ltb_lt in Hlt. split; [done|set_solver|done|lia]. }
  apply Z.ltb_ge in Hlt. match goal with |- context [match ?o with Ok _ => _ | Err _ => _ | Panic _ => _ end] =>
    destruct o as [[n rows]|e|m] eqn:Eo end; cbn [snd].
  - inv_ok. destruct x1 as [n' rows']. inv_ok. subst.
    match goal with H : release_rows _ _ _ = Ok _ |- _ => apply release_rows_ok in H; cbn in H; simplify_eq end.
    split; cbn [rw_pins set_pins rw_holds]; [done|set_solver|set_solver|done].
  - split; [done|set_solver|done|]. intros Hd _. exfalso. revert Eo. unfold statement.
    destruct (Hd (rw_pins w)) as (-> & -> & _). cbn [mbind outcome_bind].
    pose proof (release_rows_succeed ids 0 (rw_pins w) Hd) as Hs. unfold MAX_RELEASED_PINS in *.
    destruct (release_rows _ _ _) as [[n rows]| |]; cbn [mbind outcome_bind]; [|discriminate Hs; unfold u64_bound; lia..].
    destruct (Hd rows) as (_ & _ & -> & _). done.
  - split; [done|set_solver|done|]. intros Hd _. exfalso. revert Eo. unfold statement.
    destruct (Hd (rw_pins w)) as (-> & -> & _). cbn [mbind outcome_bind].
    pose proof (release_rows_succeed ids 0 (rw_pins w) Hd) as Hs. unfold MAX_RELEASED_PINS in *.
    destruct (release_rows _ _ _) as [[n rows]| |]; cbn [mbind outcome_bind]; [|discriminate Hs; unfold u64_bound; lia..].
    destruct (Hd rows) as (_ & _ & -> & _). done.
Qed.
Lemma release_batch_ok pins ids w : released ((rt_pin_id <$> pins) ++ ids) w (release_restore_pin_batch pins ids w).
Proof. apply release_source_pins_ok. Qed.
Lemma pin_rows_ok io entries rows rows' : pin_rows io entries rows = Ok rows' →
  NoDup entries.*2 ∧ list_to_set entries.*2 ## rows ∧ rows' = list_to_set entries.*2 ∪ rows.
Proof.
  revert rows. induction entries as [|[r id] entries IH]; intros rows Hp;
    [cbn in Hp; inv_ok; subst; split_and!; [constructor|set_solver|set_solver]|].
  cbn [pin_rows] in Hp. unfold auth_error in Hp. inv_ok. bools. match goal with H : pin_rows _ _ _ = Ok _ |- _ => apply IH in H as (A1 & A2 & ->) end. cbn.
  split_and!; [|set_solver|set_solver].
  constructor; [|done]. intros Hin. apply (A2 id); set_solver.
Qed.
Lemma statement_no_panic q rows : ¬ panics (statement q rows).
Proof. unfold statement. destruct (pin_fault q rows); by intros []. Qed.
Lemma pin_rows_no_panic io entries rows : ¬ panics (pin_rows io entries rows).
Proof.
  revert rows. induction entries as [|[r id] entries IH]; intros rows; cbn; no_panic; apply statement_no_panic.
Qed.
(** A transaction that pins either inserts all rows, none of them there before, or none. *)
Lemma pin_chunk_rows_ok io refs ids w r w' : length refs = length ids → pin_chunk_rows io refs ids w = (r, w') →
  match r with
  | Ok _ => NoDup ids ∧ list_to_set ids ## rw_pins w ∧ w' = set_pins (list_to_set ids ∪ rw_pins w) w
  | Err _ => w' = w
  | Panic _ => False
  end.
Proof.
  intros Hl. unfold pin_chunk_rows. match goal with |- context [match ?o with Ok _ => _ | Err _ => _ | Panic _ => _ end] =>
    assert (¬ panics o) as Hnp; [|destruct o as [rows|e|m] eqn:Eo] end.
  { no_panic; try apply statement_no_panic. apply pin_rows_no_panic. }
  - intros [= <- <-]. inv_ok. subst. match goal with H : pin_rows _ _ _ = Ok _ |- _ => apply pin_rows_ok in H as (A1 & A2 & ->) end.
    rewrite snd_zip in * by lia. done.
  - by intros [= <- <-].
  - by destruct Hnp.
Qed.
Lemma random_ids_length {A} (refs : list A) entropy n ids : random_ids refs entropy n = Ok ids → length ids =
  length refs.
Proof. revert n ids. induction refs as [|r refs IH]; intros n ids Hr; cbn in Hr; inv_ok; subst; [done|]. cbn. f_equal.
  eauto. Qed.
Lemma random_ids_no_panic {A} (refs : list A) entropy n : ¬ panics (random_ids refs entropy n).
Proof. revert n. induction refs as [|r refs IH]; intros n; cbn; unfold random_nonzero_id; no_panic. Qed.
Lemma pin_chunks_batch_ok io refs entropy w r w' : pin_chunks_batch io refs entropy w = (r, w') →
  match r with
  | Ok ids => length ids = length refs ∧ NoDup ids ∧ list_to_set ids ## rw_pins w ∧ w' =
    set_pins (list_to_set ids ∪ rw_pins w) w ∧ random_ids refs entropy 0 = Ok ids
  | Err _ => w' = w
  | Panic _ => False
  end.
Proof.
  unfold pin_chunks_batch. pose proof (random_ids_no_panic refs entropy 0) as Hnp.
  destruct (random_ids refs entropy 0) as [ids|e|m] eqn:Er; [|by intros [= <- <-]|by destruct Hnp].
  apply random_ids_length in Er. destruct (pin_chunk_rows io refs ids w) as [r1 w1] eqn:Ep.
  apply pin_chunk_rows_ok in Ep; [|done].
  destruct r1; intros [= <- <-]; naive_solver.
Qed.
End pins.

(** ** Chunks *)
(** What the files and keys promise: contents are bytes, and a failure is an error. *)
Record io_ok (io : RestoreIO) : Prop := {
  io_open_total key : ¬ panics (io_open io key);
  io_access_total r : ¬ panics (io_record_access io r);
  io_keys_total epoch : ¬ panics (io_schedule io epoch);
  io_content_total key file : io_open io key = Ok file → ¬ panics (cf_content file);
  io_content_bytes key file b : io_open io key = Ok file → cf_content file = Ok b → bytes_ok b
}.
Section chunks.
Context `{CL : CryptoLaws} `{PC : PinCatalog} (io : RestoreIO).
Implicit Types (op : RestoreChunkOperation) (work : list (RestoreChunkOperation * Id32)) (ops : list
  RestoreChunkOperation).

(** Reading and decoding one chunk, whatever its pin. *)
Definition fetch op : sresult bytes :=
  object ← (file ← io_open io (cr_object_key (ro_reference op)); read_opened io file (ro_reference op));
  decode_read io op object.
(** How the pin of a chunk that cannot be read or decoded is released. *)
Definition fetch_release op (id : Id32) w : RestoreWorld :=
  match io_open io (cr_object_key (ro_reference op)) with
  | Err _ => (release_retained_source_pins [id] w).2
  | Panic _ => w
  | Ok _ => release_pin id w
  end.
Lemma decode_operation_fetch op id w : decode_operation io op id w =
  match fetch op with
  | Ok plaintext => (Ok (plaintext, mkRetainedPin id (cr_object_bytes (ro_reference op))), w)
  | Err e => (Err e, fetch_release op id w)
  | Panic m => (Panic m, fetch_release op id w)
  end.
Proof.
  unfold decode_operation, read_pinned_chunk_object, fetch, fetch_release.
  destruct (io_open _ _) as [file| |]; cbn [mbind outcome_bind]; [|done..].
  destruct (read_opened _ _ _); cbn [mbind outcome_bind]; [|done..]. by destruct (decode_read _ _ _).
Qed.
Lemma fetch_release_ok op id w : io_ok io → released [id] w (fetch_release op id w).
Proof.
  intros IO. unfold fetch_release. pose proof (io_open_total _ IO (cr_object_key (ro_reference op))) as Hnp.
  destruct (io_open _ _); [apply release_pin_ok|apply release_source_pins_ok|by destruct Hnp].
Qed.
Definition operation_ok op : Prop := RepresentationFamilyId_ok (ro_family op).
Lemma fetch_no_panic op : io_ok io → operation_ok op → ¬ panics (fetch op).
Proof.
  intros IO Hop. unfold fetch. apply bind_no_panic.
  - apply bind_no_panic; [apply (io_open_total _ IO)|]. intros file Hf. unfold read_opened, read_bytes, auth_error.
    no_panic.
    + apply (io_access_total _ IO).
    + apply (io_content_total _ IO _ _ Hf).
  - intros object Ho. inv_ok. unfold read_opened, read_bytes, auth_error in *. inv_ok.
    unfold decode_read, of_pack, decode_chunk. 
    apply bind_no_panic; [apply (io_keys_total _ IO)|]. intros keys _.
    match goal with |- context [decode_chunk_with_stats ?b ?e ?sp ?t ?f ?k ?ks] =>
      pose proof (decode_chunk_no_panic b e sp t f k ks) as Hd;
        destruct (decode_chunk_with_stats b e sp t f k ks) as [[]| |] end;
      cbn; [by intros []..|]. exfalso. apply Hd; [|done|done]. subst. apply Forall_take.
    match goal with Ho : io_open _ _ = Ok _, Hc : cf_content _ =
      Ok _ |- _ => exact (io_content_bytes _ IO _ _ _ Ho Hc) end.
Qed.
Context {S : Type} `{VerifiedRestoreSink S}.
Implicit Types (s : S) (cancelled : nat → bool).
(** A run keeps the pins, or releases those it holds and those still to come. *)
Lemma restore_each_ok cancelled n work pins s w : io_ok io → Forall operation_ok work.*1 →
  match restore_each io cancelled n work pins s w with
  | (Ok pins', _, w') => w' = w ∧ rt_pin_id <$> pins' = (rt_pin_id <$> pins) ++ work.*2
  | (Err _, _, w') => released ((rt_pin_id <$> pins) ++ work.*2) w w'
  | (Panic _, _, _) => False
  end.
Proof.
  intros IO. revert n pins s w. induction work as [|[op id] work IH]; intros n pins s w Hops.
  { cbn. by rewrite app_nil_r. }
  cbn [restore_each]. rewrite fmap_cons, Forall_cons in Hops. destruct Hops as [Hop Hops].
  cbn [fst snd fmap list_fmap] in *. destruct (cancelled n); [apply release_batch_ok|].
  rewrite decode_operation_fetch. pose proof (fetch_no_panic op IO Hop) as Hnp.
  destruct (fetch op) as [plaintext|e|m]; [| |by destruct Hnp].
  - destruct (write_verified_chunk _ _ _ _) as [[e|] s'].
    + pose proof (release_batch_ok (pins ++ [mkRetainedPin id (cr_object_bytes (ro_reference op))]) work.*2 w) as Hr.
      by rewrite fmap_app, <-app_assoc in Hr.
    + specialize (IH (1 + n)%nat (pins ++ [mkRetainedPin id (cr_object_bytes (ro_reference op))]) s' w Hops).
      by rewrite fmap_app, <-app_assoc in IH.
  - eapply released_perm; [|exact (released_app _ _ _ _ _ (fetch_release_ok op id w IO) (release_batch_ok _ _ _))].
    solve_Permutation.
Qed.
(** [w'] is [w], but for rows of [D] that may have been left; it is [w] when [R] holds. *)
Record spared (D : gset Id32) (R : Prop) w w' : Prop := {
  sp_holds : rw_holds w' = rw_holds w;
  sp_kept : rw_pins w ⊆ rw_pins w';
  sp_left : rw_pins w' ⊆ D ∪ rw_pins w;
  sp_exact : R → w' = w
}.
Lemma spared_refl D R w : spared D R w w.
Proof. split; set_solver. Qed.
Lemma released_spared D (R : Prop) ids w w1 w' : rw_holds w1 = rw_holds w → rw_pins w1 = list_to_set ids ∪ rw_pins w →
  list_to_set ids ## rw_pins w → list_to_set ids ⊆ D → (R → deletions_succeed ∧ zlen ids ≤ MAX_RELEASED_PINS) →
  released ids w1 w' → spared D R w w'.
Proof.
  intros Hh Hw Hdis HD HR [A1 A2 A3 A4]. split; [congruence|set_solver|set_solver|]. intros [Hd Hl]%HR.
  rewrite <-(world_eta w), <-(world_eta w'). rewrite A1, Hh, A4 by done. f_equal. set_solver.
Qed.
(** The identities a restore draws for its pins. *)
Definition drawn_ids (plan : AuthenticatedRestorePlan) (entropy : nat → option Id32) : gset Id32 :=
  match random_ids (operation_references plan) entropy 0 with Ok ids => list_to_set ids | _ => ∅ end.
(** Everything can be released: no deletion fails, and one transaction holds the plan's pins. *)
Definition releasable (plan : AuthenticatedRestorePlan) : Prop := deletions_succeed ∧ zlen (ap_operations plan) ≤ MAX_RELEASED_PINS.
(** What running the operations may do to the pins. *)
Definition run_ok (D : gset Id32) (R X : Prop) (outcome : sresult (list RetainedPin) * S * RestoreWorld) w : Prop :=
  match outcome with
  | (Ok pins, _, w') => list_to_set (rt_pin_id <$> pins) ## rw_pins w ∧ list_to_set (rt_pin_id <$> pins) ⊆ D ∧
      (R → deletions_succeed ∧ zlen pins ≤ MAX_RELEASED_PINS) ∧
      w' = set_pins (list_to_set (rt_pin_id <$> pins) ∪ rw_pins w) w
  | (Err _, _, w') => spared D R w w'
  | (Panic _, _, _) => X
  end.
Lemma sequential_ok plan entropy cancelled s w : io_ok io → Forall operation_ok (ap_operations plan) →
  run_ok (drawn_ids plan entropy) (releasable plan) False (restore_operations_sequential io plan entropy cancelled s w)
    w.
Proof.
  intros IO Hops. unfold restore_operations_sequential.
  destruct (pin_chunks_batch io (operation_references plan) entropy w) as [r w1] eqn:Ep.
  apply pin_chunks_batch_ok in Ep.
  destruct r as [ids|e|m]; [|subst; apply spared_refl|done]. destruct Ep as (Hl & Hnd & Hdis & -> & Er).
  assert (drawn_ids plan entropy = list_to_set ids) as -> by (unfold drawn_ids; by rewrite Er).
  unfold operation_references in Hl. rewrite length_fmap in Hl.
  pose proof (restore_each_ok cancelled 1 (zip (ap_operations plan) ids) [] s (set_pins (list_to_set ids ∪ rw_pins w)
    w) IO) as HR.
  rewrite fst_zip, snd_zip in HR by lia. specialize (HR Hops). cbn [fmap list_fmap app] in HR.
  assert (releasable plan → deletions_succeed ∧ zlen ids ≤ MAX_RELEASED_PINS) as Hrel.
  { intros [? ?]. split; [done|]. unfold zlen in *. by rewrite Hl. }
  destruct (restore_each _ _ _ _ _ _ _) as [[[pins|e|m] s'] w']; cbn; 
    [|eapply (released_spared _ _ ids w (set_pins _ w)); [done|done|done|reflexivity|done|exact HR]|done].
  destruct HR as [-> E]. rewrite E. split_and!; [done|reflexivity| |done]. intros [? Hx]%Hrel. split; [done|].
  by rewrite <-(zlen_fmap rt_pin_id), E.
Qed.
End chunks.

(** ** Reservations *)
Lemma reserve_ok id charge limits w w' : reserve_restore_resources id charge limits w = Ok w' →
  rw_holds w !! id = None ∧ w' = mkWorld (rw_pins w) (<[id := mkRestoreHold [] charge]> (rw_holds w)).
Proof.
  unfold reserve_restore_resources, accounting_overflow. intros Hr. inv_ok. bools.
  destruct (aggregate_holds _ _); [|done]. destruct (charge_checked_add _ _); [|done]. inv_ok. split; [|done].
  by destruct (rw_holds w !! id); [exfalso; eauto|].
Qed.
Lemma reserve_no_panic id charge limits w : ¬ panics (reserve_restore_resources id charge limits w).
Proof.
  unfold reserve_restore_resources, accounting_overflow. no_panic. destruct (aggregate_holds _ _); [|by intros []].
  destruct (charge_checked_add _ _); [|by intros []]. no_panic.
Qed.
(** Freeing a hold releases its pins and its resources. *)
Lemma acknowledge_ok `{PinCatalog} id pins charge P holds : holds !! id = None → ∃ w',
  acknowledge_engine_free id (mkWorld P (<[id := mkRestoreHold pins charge]> holds)) = (true, w') ∧
  released (rt_pin_id <$> pins) (mkWorld P holds) w'.
Proof.
  intros Hid. unfold acknowledge_engine_free. cbn [rw_holds]. rewrite lookup_insert_eq. cbn [rh_pins rw_pins].
  rewrite delete_insert_id by done. eexists. split; [done|].
  pose proof (release_batch_ok pins [] (mkWorld P holds)) as Hr. by rewrite app_nil_r in Hr.
Qed.
Lemma pin_bytes_no_panic why pins sum : ¬ panics (pin_bytes why pins sum).
Proof. revert sum. induction pins as [|pin pins IH]; intros sum; cbn; no_panic. Qed.

Section frame.
Context `{CL : CryptoLaws} `{PC : PinCatalog} {S : Type} `{VerifiedRestoreSink S}.
Context (D : gset Id32) (R X : Prop).
Implicit Types (plan : AuthenticatedRestorePlan) (s : S).
(** The effect of a restore on pins and holds. *)
Definition balanced w (outcome : sresult InstalledRestore * S * RestoreWorld) : Prop :=
  match outcome with
  | (Ok installed, _, w') => rw_holds w !! ir_restore_id installed = None ∧
      ∃ w'', engine_free installed w' = (Ok tt, w'') ∧ spared D R w w''
  | (Err _, _, w') => spared D R w w'
  | (Panic _, _, _) => X
  end.
(** A hold with its pins, on top of the world [w]. *)
Notation holding id pins pins' charge w := (mkWorld (list_to_set (rt_pin_id <$> pins) ∪ rw_pins w)
  (<[id := mkRestoreHold pins' charge]> (rw_holds w))).
Lemma free_spared id pins charge w : rw_holds w !! id = None → list_to_set (rt_pin_id <$> pins) ## rw_pins w →
  list_to_set (rt_pin_id <$> pins) ⊆ D → (R → deletions_succeed ∧ zlen pins ≤ MAX_RELEASED_PINS) →
  ∃ w', acknowledge_engine_free id (holding id pins pins charge w) = (true, w') ∧ spared D R w w'.
Proof.
  intros Hid Hdis HD HR. destruct (acknowledge_ok id pins charge (list_to_set (rt_pin_id <$> pins) ∪ rw_pins w)
    (rw_holds w) Hid) as (w' & -> & Hrel).
  exists w'. split; [done|]. eapply released_spared; [| |exact Hdis|exact HD| |exact Hrel]; [done..|].
  intros [? ?]%HR. by rewrite zlen_fmap.
Qed.
(** Dropping an empty reservation changes nothing else. *)
Lemma drop_empty id charge w P : rw_holds w !! id = None → ∃ w',
  drop_reservation id (mkWorld P (<[id := mkRestoreHold [] charge]> (rw_holds w))) = w' ∧ rw_holds w' = rw_holds w ∧
  rw_pins w' = P.
Proof.
  intros Hid. destruct (acknowledge_ok id [] charge P (rw_holds w) Hid) as (w' & E & [A1 A2 A3 _]). exists w'.
  unfold drop_reservation. rewrite E. split_and!; [done..|]. cbn in *. set_solver.
Qed.
Lemma drop_both id pins charge w : rw_holds w !! id = None → list_to_set (rt_pin_id <$> pins) ## rw_pins w →
  list_to_set (rt_pin_id <$> pins) ⊆ D → (R → deletions_succeed ∧ zlen pins ≤ MAX_RELEASED_PINS) →
  spared D R w (drop_reservation id (drop_pins pins (holding id pins [] charge w))).
Proof.
  intros Hid Hdis HD HR. pose proof (drop_pins_ok pins (holding id pins [] charge w)) as Hrel.
  destruct (drop_pins pins _) as [P holds] eqn:Ed. pose proof (re_holds _ _ _ Hrel) as Eh. cbn in Eh. subst holds.
  destruct (drop_empty id charge w P Hid) as (w' & -> & A1 & A2).
  apply (released_spared D R (rt_pin_id <$> pins) w (mkWorld (list_to_set (rt_pin_id <$> pins) ∪ rw_pins w)
    (rw_holds w))); try done.
  - intros [? ?]%HR. by rewrite zlen_fmap.
  - destruct Hrel as [_ B2 B3 B4]. cbn in *. split; rewrite ?A2; done.
Qed.
Lemma install_balanced plan id pins charge s w : rw_holds w !! id = None →
  list_to_set (rt_pin_id <$> pins) ## rw_pins w → list_to_set (rt_pin_id <$> pins) ⊆ D →
  (R → deletions_succeed ∧ zlen pins ≤ MAX_RELEASED_PINS) →
  balanced w (install plan id pins s (holding id pins [] charge w)).
Proof.
  intros Hid Hdis HD HR. unfold install, attach_restore_pins, auth_error. cbn [rw_holds]. rewrite lookup_insert_eq.
  cbn [ok_or mbind outcome_bind rh_pins]. rewrite bool_decide_true by done. cbn [negb].
  pose proof (pin_bytes_no_panic "restore source pin byte total overflow" pins 0) as Hnp.
  pose proof (drop_both id pins charge w Hid Hdis HD HR) as Hdrop.
  destruct (pin_bytes _ pins 0) as [total|e|m]; [| |by destruct Hnp]; cbn [mbind outcome_bind]; [|done].
  destruct (_ || _); [done|]. rewrite insert_insert_eq. cbn [rw_pins rh_resources].
  destruct (free_spared id pins charge w Hid Hdis HD HR) as (w' & E & Hs).
  destruct (commit_restore s) as [[e|] s']; unfold balanced, drop_reservation, engine_free; cbn [ir_restore_id];
    rewrite E; eauto.
Qed.
Lemma restore_balanced plan operations draw parallelism before after s w :
  (∀ s w, run_ok D R X (operations s w) w) →
  balanced w (restore plan operations draw parallelism before after s w).
Proof.
  intros Hrun. pose proof (spared_refl D R w) as Hrefl. unfold restore.
  destruct (requires_guided_recompute plan); [done|].
  destruct (validate_limits _ _ _) as [charge|e|m] eqn:Ev; cbn [mbind outcome_bind].
  2: done.
  2:{ unfold validate_limits, resource_charge in Ev. destruct (checked_mul _ _); cbn in Ev; [|done].
      destruct (parallelism =? 0); [done|]. cbn in Ev. by destruct (_ || _). }
  destruct before; [done|]. destruct draw as [id|]; cbn [ok_or mbind outcome_bind]; [|done].
  pose proof (reserve_no_panic id charge (ap_limits plan) w) as Hnp.
  destruct (reserve_restore_resources _ _ _ _) as [w1|e|m] eqn:Er; cbn [mbind outcome_bind]; [|done|by destruct Hnp].
  apply reserve_ok in Er as [Hid ->].
  assert (∀ w2, spared D R (mkWorld (rw_pins w) (<[id := mkRestoreHold [] charge]> (rw_holds w))) w2 →
    spared D R w (drop_reservation id w2)) as Hdrop.
  { intros [P holds] [A1 A2 A3 A4]. cbn in A1, A2, A3. subst holds.
    destruct (drop_empty id charge w P Hid) as (w' & -> & B1 & <-).
    split; [done..|]. intros HR. rewrite <-(world_eta w), <-(world_eta w'), B1. f_equal.
    by injection (A4 HR). }
  destruct (begin_restore _ _ _) as [[e|] s1]; [apply Hdrop, spared_refl|].
  specialize (Hrun s1 (mkWorld (rw_pins w) (<[id := mkRestoreHold [] charge]> (rw_holds w)))).
  destruct (operations _ _) as [[[pins|e|m] s2] w2]; [|by apply Hdrop|done].
  destruct Hrun as (Hdis & HD & HR & ->). cbn [rw_pins set_pins rw_holds] in *.
  pose proof (drop_both id pins charge w Hid Hdis HD HR) as Hdrop2.
  unfold check_pins, auth_error. pose proof (pin_bytes_no_panic "retained source pin total overflow" pins 0) as Hnp'.
  destruct (pin_bytes _ pins 0) as [total|e|m]; [| |by destruct Hnp']; cbn [mbind outcome_bind]; [|done].
  destruct (_ || _) eqn:Hg; cbn [mbind outcome_bind]; [done|]. destruct after; [done|].
  by apply install_balanced.
Qed.
End frame.

(** ** What the sink receives *)
Section sinks.
Context `{CL : CryptoLaws} `{PC : PinCatalog} (io : RestoreIO).
Implicit Types (op : RestoreChunkOperation) (work : list (RestoreChunkOperation * Id32)) (ops : list
  RestoreChunkOperation).
Fixpoint fetch_all ops : sresult (list StagedChunk) :=
  match ops with
  | [] => Ok []
  | op :: ops =>
      plaintext ← fetch io op;
      chunks ← fetch_all ops;
      Ok (mkStagedChunk (ro_state_key op) (ro_target_offset op) plaintext :: chunks)
  end.
Definition retained work : list RetainedPin := (λ e, mkRetainedPin e.2 (cr_object_bytes (ro_reference e.1))) <$> work.

Section generic.
Context {S : Type} `{VerifiedRestoreSink S}.
Implicit Types (s : S) (cancelled : nat → bool).
Lemma restore_each_Ok cancelled n work pins s w pins' s' w' :
  restore_each io cancelled n work pins s w = (Ok pins', s', w') →
  w' = w ∧ pins' = pins ++ retained work ∧ (∀ i, (i < length work)%nat → cancelled (n + i)%nat = false) ∧
  ∃ chunks, fetch_all work.*1 = Ok chunks ∧ replay chunks s = (None, s').
Proof.
  revert n pins s. induction work as [|[op id] work IH]; intros n pins s; cbn [restore_each].
  { intros [= <- <- <-]. rewrite app_nil_r. split_and!; [done..|cbn; lia|]. by exists []. }
  destruct (cancelled n) eqn:Ec; [done|]. rewrite decode_operation_fetch. cbn [fmap list_fmap fst fetch_all].
  destruct (fetch io op) as [plaintext|e|m]; [|done..].
  destruct (write_verified_chunk _ _ _ _) as [[e|] s1] eqn:Ew; [done|].
  intros Hr. apply IH in Hr as (-> & -> & Hc & chunks & Hf & Hrep). split_and!; [done| | |].
  - by rewrite <-app_assoc.
  - intros [|i] Hi; [by rewrite Nat.add_0_r|]. rewrite <-Nat.add_succ_comm. apply Hc. cbn in Hi. lia.
  - cbn [mbind outcome_bind]. rewrite Hf. eexists. split; [done|]. cbn [replay st_state st_offset st_plaintext].
    by rewrite Ew.
Qed.
Lemma restore_each_replay cancelled n work pins s w chunks : (∀ i, (i < length work)%nat → cancelled (n + i)%nat =
  false) →
  fetch_all work.*1 = Ok chunks →
  let '(r, s', _) := restore_each io cancelled n work pins s w in
  s' = (replay chunks s).2 ∧
  r = match (replay chunks s).1 with None => Ok (pins ++ retained work) | Some e => Err e end.
Proof.
  revert n pins s chunks. induction work as [|[op id] work IH]; intros n pins s chunks Hc Hf; cbn [restore_each].
  { cbn in Hf. inv_ok. subst. by rewrite app_nil_r. }
  assert (cancelled n = false) as -> by (rewrite <-(Nat.add_0_r n); apply Hc; cbn; lia).
  rewrite decode_operation_fetch. cbn [fmap list_fmap fst fetch_all] in Hf. inv_ok. subst.
  match goal with H : fetch io op = Ok _ |- _ => rewrite H end. cbn [replay st_state st_offset st_plaintext].
  destruct (write_verified_chunk _ _ _ _) as [[e|] s1]; [done|].
  match goal with H : fetch_all _ = Ok ?l |- _ => specialize (IH (1 + n)%nat (pins ++ [mkRetainedPin id
    (cr_object_bytes (ro_reference op))]) s1 l) end.
  destruct (restore_each _ _ _ _ _ _ _) as [[r s'] w'].
  destruct IH as [-> ->]; [|done|]; [intros i Hi; rewrite Nat.add_succ_comm; apply Hc; cbn; lia|]. split; [done|].
  by rewrite <-app_assoc.
Qed.
End generic.
(** The shadow stage records the chunks it receives. *)
Lemma shadow_replay chunks stage stage' : replay chunks stage = (None, stage') →
  stage' = mkShadowStage (sh_state_bytes stage) (sh_staged stage ++ chunks) (sh_committed stage).
Proof.
  revert stage. induction chunks as [|c chunks IH]; intros stage; cbn [replay].
  { intros [= <-]. rewrite app_nil_r. by destruct stage. }
  cbn [write_verified_chunk shadow_sink]. unfold shadow_write. destruct (sh_state_bytes stage !! _); [|done].
  destruct (checked_add _ _); [|done]. destruct (_ <? _); [done|]. intros Hr. apply IH in Hr as ->. cbn.
  rewrite <-app_assoc. by destruct c.
Qed.
Lemma restore_Ok {S} `{VerifiedRestoreSink S} plan operations draw parallelism before after (s : S) w installed s' w'
  :
  restore plan operations draw parallelism before after s w = (Ok installed, s', w') →
  requires_guided_recompute plan = false ∧ before = false ∧ after = false ∧
  ∃ charge id w0 s1 pins s2 w2, validate_limits (ap_resources plan) (ap_limits plan) parallelism = Ok charge ∧
    draw = Some id ∧ reserve_restore_resources id charge (ap_limits plan) w = Ok w0 ∧
    begin_restore (ap_manifest_id plan) (ap_states plan) s = (None, s1) ∧ operations s1 w0 = (Ok pins, s2, w2) ∧
    check_pins plan pins = Ok tt ∧ attach_restore_pins id pins w2 = (Ok tt, w') ∧ commit_restore s2 = (None, s') ∧
    installed = mkInstalled id (ap_manifest_id plan).
Proof.
  unfold restore. destruct (requires_guided_recompute plan); [done|].
  destruct (validate_limits _ _ _) as [charge| |] eqn:Ev; [|done..].
  cbn [mbind outcome_bind]. destruct before; [done|]. destruct draw as [id|]; [|done]. cbn [ok_or mbind outcome_bind].
  destruct (reserve_restore_resources _ _ _ _) as [w0| |] eqn:Er; [|done..]. cbn [mbind outcome_bind].
  destruct (begin_restore _ _ _) as [[|] s1] eqn:Eb; [done|].
  destruct (operations _ _) as [[[pins| |] s2] w2] eqn:Eo; [|done..].
  destruct (check_pins plan pins) as [[]| |] eqn:Ep; [|done..]. cbn [mbind outcome_bind]. destruct after; [done|].
  unfold install. destruct (attach_restore_pins _ _ _) as [[[]| |] w3] eqn:Ea; [|done..].
  destruct (commit_restore s2) as [[|] s3] eqn:Ec; [done|]. intros [= <- <- <-]. split_and!; [done..|].
  exists charge, id, w0, s1, pins, s2, w2.
  by split_and!.
Qed.
(** What a plan needs for its restore to give everything back: well-formed
    families, and no more pins than one transaction releases. *)
Record plan_ok (plan : AuthenticatedRestorePlan) : Prop := {
  po_families : Forall operation_ok (ap_operations plan);
  po_pins : zlen (ap_operations plan) ≤ MAX_RELEASED_PINS
}.
Lemma sequential_balanced {S} `{VerifiedRestoreSink S} plan draw entropy cancelled (s : S) w : io_ok io →
  Forall operation_ok (ap_operations plan) →
  balanced (drawn_ids plan entropy) (releasable plan) False w (restore_sequential io plan draw entropy cancelled s w).
Proof. intros IO Hops. apply restore_balanced. intros s' w'. by apply sequential_ok. Qed.
Lemma sequential_exact {S} `{VerifiedRestoreSink S} plan draw entropy cancelled (s : S) w : io_ok io → plan_ok plan →
  deletions_succeed →
  match restore_sequential io plan draw entropy cancelled s w with
  | (Ok installed, _, w') => engine_free installed w' = (Ok tt, w) ∧ rw_holds w !! ir_restore_id installed = None
  | (Err _, _, w') => w' = w
  | (Panic _, _, _) => False
  end.
Proof.
  intros IO [P1 P2] Hd. pose proof (sequential_balanced plan draw entropy cancelled s w IO P1) as Hb.
  destruct (restore_sequential _ _ _ _ _ _ _) as [[[installed|e|m] s'] w']; cbn in Hb; [|by apply Hb|done].
  destruct Hb as (Hn & w'' & -> & Hs). by rewrite (sp_exact _ _ _ _ Hs).
Qed.
(** Promoting a shadow is restoring its plan. *)
Lemma promote_restores {S} `{VerifiedRestoreSink S} plan draw entropy cancelled (s : S) w handle w1 : io_ok io →
  plan_ok plan → deletions_succeed →
  prestage_shadow io plan draw entropy cancelled w = (Ok handle, w1) →
  promote_if handle (ap_manifest_id plan) false false s w1 = restore_sequential io plan draw entropy cancelled s w.
Proof.
  intros IO PO Hdel Hpre. pose proof (sequential_exact plan draw entropy cancelled s w IO PO Hdel) as Hb. revert Hb.
  unfold prestage_shadow in Hpre. pose proof (sequential_exact plan draw entropy cancelled ShadowStageSink_default
    w IO PO Hdel) as Hsb.
  destruct (restore_sequential io plan draw entropy cancelled ShadowStageSink_default w) as [[[installed| |] stage]
    w1'] eqn:Hs; [|done..].
  destruct Hsb as [Hfree _]. injection Hpre as Hh ->. unfold auth_error in Hh. inv_ok. subst handle.
  unfold restore_sequential in Hs. apply restore_Ok in Hs as (Hguide & Ec0 & Ec1 & charge & id & w0 & s1 & pins & s2 &
    w2 & Ev & -> & Er & Eb & Eo & Ep & Ea & Ecm & ->).
  unfold restore_operations_sequential in Eo.
  destruct (pin_chunks_batch _ _ _ _) as [[ids| |] w2'] eqn:Ebatch; [|done..].
  apply restore_each_Ok in Eo as (-> & -> & Hcan & chunks & Hf & Hrep).
  unfold promote_if, abort_shadow, engine_free in *.
  cbn [hs_manifest_id hs_states hs_staged hs_install ir_restore_id] in *.
  rewrite bytes_eqb_refl. cbn [negb]. unfold restore_sequential, restore. rewrite Hguide, Ev, Ec0, Ec1.
  cbn [mbind outcome_bind ok_or]. rewrite Er.
  cbn [mbind outcome_bind]. rewrite Hfree. cbn [snd]. destruct (begin_restore _ _ s) as [[e|] t1]; [by intros <-|].
  unfold restore_operations_sequential. rewrite Ebatch.
  pose proof (restore_each_replay cancelled 1 (zip (ap_operations plan) ids) [] t1 w2' chunks Hcan Hf) as HR.
  apply shadow_replay in Hrep as ->. cbn in Eb. unfold shadow_begin in Eb. destruct (_ || _); [done|].
  destruct (declare_states _ _) as [e state_bytes]. injection Eb as -> <-. cbn in Ecm. injection Ecm as <-.
  cbn [sh_staged app] in *.
  destruct (restore_each io cancelled 1 _ [] t1 w2') as [[r t2] w3] eqn:Ere. destruct HR as [-> Hr].
  destruct (replay chunks t1) as [[e|] t2] eqn:Erep; cbn [fst snd] in *; subst r; [by intros <-|].
  apply restore_each_Ok in Ere as (-> & _). cbn [app] in *. rewrite Ep. cbn [mbind outcome_bind]. unfold install.
  rewrite Ea.
  destruct (commit_restore t2) as [[e|] t3]; [by intros <-|done].
Qed.
End sinks.

(** * Laws of restore holds (crates/kvpack/src/store/holds.rs)

    The charges of all holds together stay within the declared limits,
    whatever sequence of reservations, attachments and releases runs. *)
Implicit Types (a b c : RestoreResourceCharge) (h : RestoreHold) (hs : list RestoreHold).

(** ** Charges *)
Definition charge_list a : list Z :=
  [rg_shadow_bytes a; rg_pinned_source_bytes a; rg_scratch_bytes a; rg_staging_bytes a; rg_receive_window_bytes a;
   rg_safety_margin_bytes a; rg_source_pins a; rg_source_fds a].
Definition charge_nonneg a : Prop := Forall (λ x, 0 ≤ x) (charge_list a).
Definition charge_le a b : Prop := Forall2 Z.le (charge_list a) (charge_list b).
Definition charge_plus a b : RestoreResourceCharge :=
  mkCharge (rg_shadow_bytes a + rg_shadow_bytes b) (rg_pinned_source_bytes a + rg_pinned_source_bytes b)
    (rg_scratch_bytes a + rg_scratch_bytes b) (rg_staging_bytes a + rg_staging_bytes b)
    (rg_receive_window_bytes a + rg_receive_window_bytes b) (rg_safety_margin_bytes a + rg_safety_margin_bytes b)
    (rg_source_pins a + rg_source_pins b) (rg_source_fds a + rg_source_fds b).
Definition charge_fits a : Prop := Forall (λ x, x < u64_bound) (charge_list a).
Ltac charges := unfold charge_nonneg, charge_le, charge_fits, charge_list, charge_plus in *; cbn in *;
  repeat match goal with
  | H : Forall _ (_ :: _) |- _ => apply Forall_cons in H as [? H]
  | H : Forall2 _ (_ :: _) (_ :: _) |- _ => apply Forall2_cons_1 in H as [? H]
  | |- Forall _ _ => repeat apply Forall_cons_2; [..|apply Forall_nil_2]
  | |- Forall2 _ _ _ => repeat apply Forall2_cons_2; [..|apply Forall2_nil_2]
  end.
Lemma charge_add_Some a b c : charge_checked_add a b = Some c ↔ c = charge_plus a b ∧ charge_fits (charge_plus a b).
Proof.
  unfold charge_checked_add. split.
  - intros Hc. repeat (apply bind_Some in Hc as (? & [-> ?]%checked_add_Some & Hc)). injection Hc as <-.
    split; [done|]. charges; lia.
  - intros [-> Hf]. charges. repeat (rewrite (proj2 (checked_add_Some _ _ _)) by (split; [done|lia]);
      cbn [mbind option_bind]). done.
Qed.
Definition total_charge hs : RestoreResourceCharge :=
  foldr (λ h, charge_plus (rh_resources h)) RestoreResourceCharge_default hs.
Definition holds_nonneg hs : Prop := Forall (λ h, charge_nonneg (rh_resources h)) hs.
Lemma charge_nonneg_plus a b : charge_nonneg a → charge_nonneg b → charge_nonneg (charge_plus a b).
Proof. intros Ha Hb. charges; lia. Qed.
Lemma total_nonneg hs : holds_nonneg hs → charge_nonneg (total_charge hs).
Proof. induction 1 as [|h hs Hh _ IH]; [by repeat constructor|]. by apply charge_nonneg_plus. Qed.
Lemma charge_plus_assoc a b c : charge_plus (charge_plus a b) c = charge_plus a (charge_plus b c).
Proof. unfold charge_plus. cbn. f_equal; lia. Qed.
Lemma charge_plus_comm a b : charge_plus a b = charge_plus b a.
Proof. unfold charge_plus. f_equal; lia. Qed.
Lemma charge_plus_default a : charge_plus a RestoreResourceCharge_default = a.
Proof. destruct a. unfold charge_plus. cbn. f_equal; lia. Qed.
Lemma charge_fits_le a b : charge_le a b → charge_fits b → charge_fits a.
Proof. intros Hl Hf. charges; lia. Qed.
Lemma charge_le_plus a b : charge_nonneg b → charge_le a (charge_plus a b).
Proof. intros Hn. charges; lia. Qed.
Lemma default_fits : charge_fits RestoreResourceCharge_default.
Proof. unfold u64_bound. charges; reflexivity. Qed.
(** The checked sum is the sum, when that fits. *)
Lemma aggregate_total hs acc c : holds_nonneg hs → charge_fits acc →
  aggregate_holds hs acc = Some c ↔ c = charge_plus acc (total_charge hs) ∧
    charge_fits (charge_plus acc (total_charge hs)).
Proof.
  intros Hn. revert acc. induction Hn as [|h hs Hh Hn IH]; intros acc Hacc; cbn [aggregate_holds total_charge foldr].
  { rewrite charge_plus_default. naive_solver. }
  fold (total_charge hs). pose proof (total_nonneg hs Hn) as Ht. rewrite <-charge_plus_assoc. split.
  - intros Ha. apply bind_Some in Ha as (acc' & [-> Hf]%charge_add_Some & Ha). by apply IH in Ha.
  - intros [-> Hf]. assert (charge_fits (charge_plus acc (rh_resources h))) as Hf' by (eapply charge_fits_le;
      [by apply charge_le_plus|done]).
    assert (charge_checked_add acc (rh_resources h) =
      Some (charge_plus acc (rh_resources h))) as -> by (apply charge_add_Some; split; [reflexivity|exact Hf']).
    cbn [mbind option_bind]. by apply IH.
Qed.
Lemma total_perm hs hs' : hs ≡ₚ hs' → total_charge hs = total_charge hs'.
Proof.
  induction 1 as [|h hs hs' _ IH|h h' hs|hs1 hs2 hs3 _ IH1 _ IH2];
    [done|unfold total_charge in *; cbn; by rewrite IH| |congruence].
  cbn. fold (total_charge hs). by rewrite <-!charge_plus_assoc, (charge_plus_comm (rh_resources h)).
Qed.
Lemma within_le a b limits : charge_le a b → charge_within_limits b limits = true → charge_within_limits a limits =
  true.
Proof. unfold charge_within_limits. intros Hl Hw. bools. charges. rewrite !andb_true_iff, !Z.leb_le. lia. Qed.

(** ** Holds *)
Lemma hold_values_insert (m : gmap Id32 RestoreHold) id h : m !! id = None →
  hold_values (<[id := h]> m) ≡ₚ h :: hold_values m.
Proof.
  intros Hn. unfold hold_values, btree_iter. rewrite !merge_sort_Permutation, map_to_list_insert by done. done.
Qed.
Lemma hold_values_delete (m : gmap Id32 RestoreHold) id h : m !! id = Some h →
  hold_values m ≡ₚ h :: hold_values (delete id m).
Proof. intros Hs. rewrite <-(insert_delete_id m id h Hs) at 1.
  rewrite <-hold_values_insert; [done|apply lookup_delete_eq]. Qed.
(** Every charge counts, and together they are within the limits. *)
Record accounted (limits : RestoreLimits) w : Prop := {
  ac_nonneg : holds_nonneg (hold_values (rw_holds w));
  ac_fits : charge_fits (total_charge (hold_values (rw_holds w)));
  ac_limits : charge_within_limits (total_charge (hold_values (rw_holds w))) limits = true
}.
Inductive HoldAction := Reserve (id : Id32) (charge : RestoreResourceCharge) |
  Attach (id : Id32) (pins : list RetainedPin) | Free (id : Id32).
Definition hold_step `{PinCatalog} (limits : RestoreLimits) (action : HoldAction) w : RestoreWorld :=
  match action with
  | Reserve id charge => match reserve_restore_resources id charge limits w with Ok w' => w' | _ => w end
  | Attach id pins => (attach_restore_pins id pins w).2
  | Free id => (acknowledge_engine_free id w).2
  end.
Definition hold_action_ok (action : HoldAction) : Prop :=
  match action with Reserve _ charge => charge_nonneg charge | _ => True end.
Lemma accounted_holds limits w w' : rw_holds w' = rw_holds w → accounted limits w → accounted limits w'.
Proof. intros E [A1 A2 A3]. split; by rewrite E. Qed.
(** A reservation succeeds exactly when the limits leave room for it. *)
Lemma reserve_accounted limits id charge w : charge_nonneg charge → accounted limits w →
  reserve_restore_resources id charge limits w =
  if bool_decide (is_Some (rw_holds w !! id)) then state_error "restore hold identity collision" else
  if decide (charge_fits (charge_plus (total_charge (hold_values (rw_holds w))) charge)) then
    if charge_within_limits (charge_plus (total_charge (hold_values (rw_holds w))) charge) limits then
      Ok (mkWorld (rw_pins w) (<[id := mkRestoreHold [] charge]> (rw_holds w)))
    else Err (SQuota "concurrent restore resources exceed declared limits")
  else accounting_overflow.
Proof.
  intros Hc [A1 A2 A3]. unfold reserve_restore_resources. destruct (bool_decide _); [done|].
  assert (aggregate_holds (hold_values (rw_holds w)) RestoreResourceCharge_default =
    Some (total_charge (hold_values (rw_holds w)))) as ->.
  { apply aggregate_total; [exact A1|exact default_fits|]. rewrite charge_plus_comm, charge_plus_default.
    split; [reflexivity|exact A2]. }
  destruct (decide _) as [Hf|Hf].
  - assert (charge_checked_add (total_charge (hold_values (rw_holds w))) charge =
      Some (charge_plus (total_charge (hold_values (rw_holds w))) charge)) as ->
      by (apply charge_add_Some; split; [reflexivity|exact Hf]).
    cbn [ok_or mbind outcome_bind]. destruct (charge_within_limits (charge_plus _ _) _); reflexivity.
  - destruct (charge_checked_add _ _) eqn:E; [|done]. apply charge_add_Some in E as [_ ?]. done.
Qed.
Lemma hold_step_accounted `{PinCatalog} limits action w : hold_action_ok action → accounted limits w →
  accounted limits (hold_step limits action w).
Proof.
  intros Hok Ha. destruct action as [id charge|id pins|id]; cbn [hold_step hold_action_ok] in *.
  - rewrite (reserve_accounted limits id charge w Hok Ha). case_bool_decide as Hid; [done|].
    destruct (decide _) as [Hf|]; [|done]. destruct (charge_within_limits _ _) eqn:Hl; [|done].
    destruct Ha as [A1 A2 A3].
    assert (rw_holds w !! id = None) as Hn by (destruct (rw_holds w !! id); [exfalso; eauto|done]).
    assert (total_charge (hold_values (<[id:=mkRestoreHold [] charge]> (rw_holds w))) =
      charge_plus (total_charge (hold_values (rw_holds w))) charge) as Et.
    { rewrite (total_perm _ _ (hold_values_insert _ _ _ Hn)). cbn. by rewrite charge_plus_comm. }
    split; cbn [rw_holds]; [|by rewrite Et..]. unfold holds_nonneg. rewrite (hold_values_insert _ _ _ Hn).
    by constructor.
  - unfold attach_restore_pins, auth_error.
    destruct (rw_holds w !! id) as [hold|] eqn:Hid; cbn [ok_or mbind outcome_bind].
    2:{ cbn. apply (accounted_holds _ w); [apply (re_holds _ _ _ (drop_pins_ok pins w))|done]. }
    assert (accounted limits (drop_pins pins w)) as Hd by (apply (accounted_holds _ w);
      [apply (re_holds _ _ _ (drop_pins_ok pins w))|done]).
    destruct (negb _); [done|]. destruct (pin_bytes _ _ _); cbn [mbind outcome_bind]; [|done..].
    destruct (_ || _); [done|]. cbn [snd].
    destruct Ha as [A1 A2 A3]. pose proof (hold_values_delete _ _ _ Hid) as Hp.
    assert (hold_values (<[id := mkRestoreHold pins (rh_resources hold)]> (rw_holds w)) ≡ₚ mkRestoreHold pins
      (rh_resources hold) :: hold_values (delete id (rw_holds w))) as Hp'.
    { rewrite <-insert_delete_eq. apply hold_values_insert. apply lookup_delete_eq. }
    unfold holds_nonneg in *. rewrite Hp in A1. rewrite (total_perm _ _ Hp) in A2, A3.
    split; cbn [rw_holds]; [unfold holds_nonneg; rewrite Hp'|rewrite (total_perm _ _ Hp')..]; try done.
    apply Forall_cons in A1 as [? ?]. by constructor.
  - unfold acknowledge_engine_free. destruct (rw_holds w !! id) as [hold|] eqn:Hid; [|done]. cbn [snd].
    destruct Ha as [A1 A2 A3].
    pose proof (hold_values_delete _ _ _ Hid) as Hp. unfold holds_nonneg in *. rewrite Hp in A1.
    rewrite (total_perm _ _ Hp) in A2, A3. apply Forall_cons in A1 as [Hh A1].
    assert (accounted limits (mkWorld (rw_pins w) (delete id (rw_holds w)))) as Hacc.
    { cbn in A2, A3. fold (total_charge (hold_values (delete id (rw_holds w)))) in *.
      rewrite charge_plus_comm in A2, A3.
      pose proof (charge_le_plus (total_charge (hold_values (delete id (rw_holds w)))) _ Hh) as Hle.
      split; [done|by eapply charge_fits_le|by eapply within_le]. }
    eapply accounted_holds; [|exact Hacc]. apply (re_holds _ _ _ (release_batch_ok _ _ _)).
Qed.
