(* ===== verification/RestorePlanes.v ===== *)
(** * The planes a restore fills

    The sink of an engine that follows the contract of [VerifiedRestoreSink]:
    a zeroed shadow plane per declared state, a write splices the bytes at its
    offset, a commit makes the planes visible.  Writes whose operations tile a
    plane leave exactly the concatenated chunks in it, and the shadow stage
    accepts them too. *)
From Stdlib Require Import ZArith Lia.
From stdpp Require Import base tactics numbers list strings option sorting gmap.
From S2P Require Import Prelude Bytes Canonical Wire State Identity Manifest Deps Validator.
From S2P Require Import ValidatorLaws Crypto Ids Frame Chunk ChunkLaws Pack StorePolicy.
From S2P Require Import RestorePlan ScatterPlan RestorePins RestoreExec RestoreLaws.
Implicit Types (k : StateKey) (o : RestoreChunkOperation) (ops : list RestoreChunkOperation) (c : StagedChunk) (chunks
  : list StagedChunk).

(** ** A reference sink *)
Notation Planes := (gmap StateKey bytes).
Record PlaneSink := mkPlaneSink { pk_shadow : Planes; pk_engine : option Planes }.
Definition splice (off : Z) (data plane : bytes) : bytes := ztake off plane ++ data ++ zdrop (off + zlen data) plane.
Definition plane_begin (_ : Id32) (states : list RestoreStatePlan) (s : PlaneSink) : option StoreError * PlaneSink :=
  (None, mkPlaneSink (list_to_map ((λ plan, (sd_key (rp_declaration plan), zeros (rp_plaintext_bytes plan))) <$>
    states)) (pk_engine s)).
Definition plane_write k (off : Z) (data : bytes) (s : PlaneSink) : option StoreError * PlaneSink :=
  match pk_shadow s !! k with
  | None => (Some (SState "undeclared state"), s)
  | Some plane =>
      if zlen plane <? off + zlen data then (Some (SState "write past the end of the plane"), s)
      else (None, mkPlaneSink (<[k := splice off data plane]> (pk_shadow s)) (pk_engine s))
  end.
#[global] Instance plane_sink : VerifiedRestoreSink PlaneSink := {
  begin_restore := plane_begin;
  write_verified_chunk := plane_write;
  commit_restore := λ s, (None, mkPlaneSink ∅ (Some (pk_shadow s)));
  abort_restore := λ s, mkPlaneSink ∅ (pk_engine s);
  reset_restore := λ s, mkPlaneSink ∅ (pk_engine s)
}.

(** ** Writes that tile their planes *)
(** A chunk is the bytes one operation writes. *)
Definition chunk_of o c : Prop :=
  st_state c = ro_state_key o ∧ st_offset c = ro_target_offset o ∧ zlen (st_plaintext c) =
    cs_plaintext_bytes (ro_span o).
Definition chunks_for k chunks : list StagedChunk := filter (λ c, st_state c = k) chunks.
Definition plane_bytes k chunks : bytes := concat (st_plaintext <$> chunks_for k chunks).
(** The first [done] bytes of every plane are written, and [ops] write the rest. *)
Definition planes_at ops (done : StateKey → bytes) (planes : Planes) : Prop :=
  ∀ k plane, planes !! k = Some plane → ∃ rest, plane = done k ++ rest ∧
    ops_tile (zlen (done k)) (ops_for k ops) (zlen plane).
Lemma splice_app (a data rest : bytes) : splice (zlen a) data (a ++ rest) = (a ++ data) ++ zdrop (zlen data) rest.
Proof.
  pose proof (zlen_nonneg a). pose proof (zlen_nonneg data). unfold splice. rewrite ztake_app_exact by done.
  replace (zlen a + zlen data) with (zlen a + zlen data) by lia. rewrite <-zdrop_zdrop by done.
  by rewrite zdrop_app_exact, app_assoc.
Qed.
Lemma ops_for_cons k o ops : ops_for k (o :: ops) =
  (if decide (ro_state_key o = k) then [o] else []) ++ ops_for k ops.
Proof. unfold ops_for. rewrite list.filter_cons. by destruct (decide _). Qed.
Lemma plane_bytes_cons k c chunks : plane_bytes k (c :: chunks) =
  (if decide (st_state c = k) then st_plaintext c else []) ++ plane_bytes k chunks.
Proof. unfold plane_bytes, chunks_for. rewrite list.filter_cons. by destruct (decide _). Qed.
Lemma ops_tile_nil off off' : ops_tile off [] off' → off = off'.
Proof. by inversion 1. Qed.
Lemma replay_planes ops chunks done planes engine : Forall2 chunk_of ops chunks → planes_at ops done planes →
  Forall (λ o, ro_state_key o ∈ dom planes) ops →
  ∃ planes', replay chunks (mkPlaneSink planes engine) = (None, mkPlaneSink planes' engine) ∧ dom planes' =
    dom planes ∧
    ∀ k, k ∈ dom planes → planes' !! k = Some (done k ++ plane_bytes k chunks).
Proof.
  intros Hall. revert done planes. induction Hall as [|o c ops chunks (E1 & E2 & E3) _ IH];
    intros done planes Hat Hdom.
  { exists planes. split_and!; [done..|]. intros k [plane Hk]%elem_of_dom. destruct (Hat _ _ Hk) as (rest & -> & Ht).
    apply ops_tile_nil in Ht as Hz. rewrite zlen_app in Hz. rewrite Hk. destruct rest; [done|].
    rewrite zlen_cons in Hz. pose proof (zlen_nonneg rest). lia. }
  apply Forall_cons in Hdom as [[plane Hk]%elem_of_dom Hdom]. destruct (Hat _ _ Hk) as (rest & -> & Ht).
  rewrite ops_for_cons, decide_True in Ht by done. cbn [app] in Ht.
  inversion Ht as [|? ? ? ? Hoff Hpos Href Htail]; subst.
  pose proof (ops_tile_ends _ _ _ Htail) as [Hle _].
  cbn [replay write_verified_chunk plane_sink]. unfold plane_write. cbn [pk_shadow pk_engine].
  rewrite E1, Hk, E2, Hoff.
  rewrite (proj2 (Z.ltb_ge _ _)) by lia. rewrite splice_app. set (k := ro_state_key o) in *.
  set (data := st_plaintext c) in *.
  destruct (IH (λ k', if decide (k' = k) then done k ++ data else done k') (<[k := (done k ++ data) ++ zdrop (zlen
    data) rest]> planes))
    as (planes' & -> & Hd & Hp).
  - intros k' plane' Hk'. apply lookup_insert_Some in Hk' as [[<- <-]|[Hne Hk']].
    + rewrite decide_True by done. eexists. split; [done|]. rewrite !zlen_app in *. rewrite E3.
      replace (zlen (done k) + cs_plaintext_bytes (ro_span o) + zlen (zdrop (cs_plaintext_bytes (ro_span o)) rest))
        with (zlen (done k) + zlen rest); [done|].
      rewrite zlen_zdrop by lia. lia.
    + rewrite decide_False by done. destruct (Hat _ _ Hk') as (rest' & -> & Ht'). exists rest'. split; [done|].
      by rewrite ops_for_cons, decide_False in Ht' by done.
  - eapply list.Forall_impl; [exact Hdom|]. intros o'. cbn. rewrite dom_insert. set_solver.
  - exists planes'. rewrite Hd, dom_insert_L. split_and!; [done|apply elem_of_dom_2 in Hk; set_solver|].
    intros k' Hin. rewrite Hp by (rewrite dom_insert; set_solver). rewrite plane_bytes_cons, E1. fold k.
    destruct (decide (k' = k)) as [->|]; [by rewrite decide_True,
      <-app_assoc by done|by rewrite decide_False by done].
Qed.
(** ** Whole plans *)
Lemma list_to_map_planes states k size : NoDup ((λ plan, sd_key (rp_declaration plan)) <$> states) →
  (list_to_map ((λ plan, (sd_key (rp_declaration plan), zeros (rp_plaintext_bytes plan))) <$> states) : Planes) !! k =
    Some size →
  ∃ plan, plan ∈ states ∧ sd_key (rp_declaration plan) = k ∧ size = zeros (rp_plaintext_bytes plan).
Proof.
  intros Hnd Hk. apply elem_of_list_to_map_2, list_elem_of_fmap in Hk as (plan & E & Hin). simplify_eq. eauto.
Qed.
Lemma ops_tile_bounds off ops off' o : ops_tile off ops off' → o ∈ ops →
  off ≤ ro_target_offset o ∧ ro_target_offset o + cs_plaintext_bytes (ro_span o) ≤ off' ∧
  0 < cs_plaintext_bytes (ro_span o) ∧ cr_plaintext_bytes (ro_reference o) = cs_plaintext_bytes (ro_span o).
Proof.
  induction 1 as [|off o' ops off' Ho Hp Hr Ht IH]; [by intros ?%elem_of_nil|]. pose proof (ops_tile_ends _ _ _ Ht).
  intros [->|Hin]%elem_of_cons; [lia|]. specialize (IH Hin). lia.
Qed.
Definition ops_bytes ops : Z := zsum ((λ o, cs_plaintext_bytes (ro_span o)) <$> ops).
Lemma ops_tile_total off ops off' : ops_tile off ops off' → off + ops_bytes ops = off'.
Proof. unfold ops_bytes, zsum. induction 1; csimpl; lia. Qed.
Lemma zsum_none (keys : list StateKey) k b : k ∉ keys → zsum ((λ k', if decide (k = k') then b else 0) <$> keys) = 0.
Proof. intros Hn. rewrite (zsum_const _ 0); [lia|]. intros k' Hk'. rewrite decide_False; [done|]. by intros ->. Qed.
Lemma zsum_key_once (keys : list StateKey) k b : NoDup keys → k ∈ keys →
  zsum ((λ k', if decide (k = k') then b else 0) <$> keys) = b.
Proof.
  intros Hnd Hin. apply list_elem_of_split in Hin as (l1 & l2 & ->).
  apply NoDup_app in Hnd as (_ & Hd & [Hk _]%NoDup_cons).
  rewrite fmap_app, fmap_cons, zsum_app, decide_True by done. cbn [zsum foldr].
  fold (zsum ((λ k', if decide (k = k') then b else 0) <$> l2)).
  rewrite !zsum_none; [lia|done|]. intros Hin. apply (Hd k Hin). by left.
Qed.
Lemma zsum_add {A} (f g : A → Z) l : zsum ((λ x, f x + g x) <$> l) = zsum (f <$> l) + zsum (g <$> l).
Proof. unfold zsum. induction l as [|x l IH]; csimpl; [done|]. rewrite IH. lia. Qed.
(** The bytes of a plan's operations, state by state. *)
Lemma ops_bytes_split keys ops : NoDup keys → Forall (λ o, ro_state_key o ∈ keys) ops →
  ops_bytes ops = zsum ((λ k, ops_bytes (ops_for k ops)) <$> keys).
Proof.
  intros Hnd. induction 1 as [|o ops Ho _ IH]; [rewrite (zsum_const _ 0) by done; unfold ops_bytes, zsum; csimpl;
    lia|].
  trans (zsum ((λ k, (if decide (ro_state_key o = k) then cs_plaintext_bytes (ro_span o) else 0) + ops_bytes (ops_for
    k ops)) <$> keys)).
  - rewrite zsum_add, (zsum_key_once _ _ _ Hnd Ho), <-IH. done.
  - f_equal. apply list_fmap_ext. intros i k _. rewrite ops_for_cons. destruct (decide _); done.
Qed.

(** ** Whole plans *)
Record plan_tiles (plan : AuthenticatedRestorePlan) : Prop := {
  pt_keys : NoDup ((λ p, sd_key (rp_declaration p)) <$> ap_states plan);
  pt_exact : Forall (plan_exact (ap_operations plan)) (ap_states plan);
  pt_operations : Forall (λ o, ro_state_key o ∈ (λ p, sd_key (rp_declaration p)) <$> ap_states plan) (ap_operations
    plan);
  pt_total : zsum (rp_plaintext_bytes <$> ap_states plan) = rc_complete_restored_bytes (ap_realized_schema plan);
  pt_bound : rc_complete_restored_bytes (ap_realized_schema plan) < u64_bound
}.
Section plans.
Context `{CL : CryptoLaws} (io : RestoreIO) (IO : io_ok io) (plan : AuthenticatedRestorePlan) (PT : plan_tiles plan).
Lemma plan_size_nonneg p : p ∈ ap_states plan → 0 ≤ rp_plaintext_bytes p.
Proof. intros Hin. destruct (proj1 (list.Forall_forall _ _) (pt_exact _ PT) p Hin) as [Ht _].
  by apply ops_tile_ends in Ht as [? _]. Qed.
Lemma plan_size_bound p : p ∈ ap_states plan → rp_plaintext_bytes p < u64_bound.
Proof.
  intros Hin. pose proof (pt_bound _ PT) as Hb. rewrite <-(pt_total _ PT) in Hb.
  enough (rp_plaintext_bytes p ≤ zsum (rp_plaintext_bytes <$> ap_states plan)) by lia.
  pose proof plan_size_nonneg as Hnn. clear Hb. revert Hin Hnn. generalize (ap_states plan). unfold zsum.
  induction l as [|q l IH]; intros Hin Hnn; [by apply elem_of_nil in Hin|].
  csimpl. assert (0 ≤ foldr Z.add 0 (rp_plaintext_bytes <$> l)) as Hpos.
  { clear -Hnn. assert (∀ p, p ∈ l → 0 ≤ rp_plaintext_bytes p) as Hl by (intros; apply Hnn; by right). clear Hnn.
    induction l as [|q' l IH]; csimpl; [done|]. pose proof (Hl q' ltac:(left)).
    enough (0 ≤ foldr Z.add 0 (rp_plaintext_bytes <$> l)) by lia. apply IH.
    intros; apply Hl; by right. }
  pose proof (Hnn q ltac:(left)). apply elem_of_cons in Hin as [->|Hin]; [lia|].
  enough (rp_plaintext_bytes p ≤ foldr Z.add 0 (rp_plaintext_bytes <$> l)) by lia. apply IH; [done|].
  intros; apply Hnn; by right.
Qed.
(** The state an operation writes to. *)
Lemma operation_state o : o ∈ ap_operations plan → ∃ p, p ∈ ap_states plan ∧ sd_key (rp_declaration p) =
  ro_state_key o ∧
  0 ≤ ro_target_offset o ∧ ro_target_offset o + cs_plaintext_bytes (ro_span o) ≤ rp_plaintext_bytes p ∧
  cr_plaintext_bytes (ro_reference o) = cs_plaintext_bytes (ro_span o).
Proof.
  intros Hin. pose proof (proj1 (list.Forall_forall _ _) (pt_operations _ PT) o Hin) as (p & E &
    Hp)%list_elem_of_fmap.
  exists p. split; [done|]. split; [done|]. destruct (proj1 (list.Forall_forall _ _) (pt_exact _ PT) p Hp) as [Ht _].
  apply (ops_tile_bounds _ _ _ o) in Ht as (? & ? & ? & ?); [done|]. rewrite <-E. by apply list_elem_of_filter.
Qed.
Lemma fetch_length o p : fetch io o = Ok p → zlen p = cr_plaintext_bytes (ro_reference o).
Proof using IO CL.
  clear PT plan. unfold fetch, decode_read. intros Hf. inv_ok.
  match goal with H : of_pack _ = Ok _ |- _ => unfold of_pack, decode_chunk in H end.
  destruct (decode_chunk_with_stats _ _ _ _ _ _ _) as [[q st]| |] eqn:Ed; cbn in *; simplify_eq.
  apply decode_chunk_Ok in Ed as (_ & _ & _ & El & _); [done|]. unfold read_opened, read_bytes, auth_error in *.
  inv_ok. subst.
  apply Forall_take. match goal with Ho : io_open _ _ = Ok _, Hc : cf_content _ =
    Ok _ |- _ => exact (io_content_bytes _ IO _ _ _ Ho Hc) end.
Qed.
Lemma fetch_all_chunks chunks : fetch_all io (ap_operations plan) = Ok chunks →
  Forall2 chunk_of (ap_operations plan) chunks.
Proof.
  assert (∀ o, o ∈ ap_operations plan → cr_plaintext_bytes (ro_reference o) = cs_plaintext_bytes (ro_span o)) as Hb.
  { intros o Ho. by destruct (operation_state o Ho) as (p & _ & _ & _ & _ & E). }
  revert chunks Hb. generalize (ap_operations plan). clear PT.
  induction l as [|o l IH]; intros chunks Hb Hf; cbn in Hf; inv_ok; subst; [constructor|].
  constructor; [|apply IH; [intros; apply Hb; by right|done]]. split_and!; [done..|]. cbn.
  match goal with H : fetch io o = Ok _ |- _ => apply fetch_length in H as -> end. apply Hb. by left.
Qed.
(** ** A restored engine *)
Lemma begun_planes : planes_at (ap_operations plan) (λ _, [])
  (list_to_map ((λ p, (sd_key (rp_declaration p), zeros (rp_plaintext_bytes p))) <$> ap_states plan)).
Proof.
  intros k plane Hk. apply list_to_map_planes in Hk as (p & Hin & <- & ->); [|apply (pt_keys _ PT)].
  exists (zeros (rp_plaintext_bytes p)). split; [done|]. rewrite zlen_zeros by (by apply plan_size_nonneg).
  apply (proj1 (list.Forall_forall _ _) (pt_exact _ PT) p Hin).
Qed.
Lemma replay_fills chunks engine : fetch_all io (ap_operations plan) = Ok chunks →
  ∃ planes, replay chunks (plane_begin (ap_manifest_id plan) (ap_states plan) engine).2 =
    (None, mkPlaneSink planes (pk_engine engine)) ∧
    ∀ p, p ∈ ap_states plan → planes !! sd_key (rp_declaration p) =
      Some (plane_bytes (sd_key (rp_declaration p)) chunks) ∧
      zlen (plane_bytes (sd_key (rp_declaration p)) chunks) = rp_plaintext_bytes p.
Proof.
  intros Hf. apply fetch_all_chunks in Hf as Hc. unfold plane_begin. cbn [snd]. set (planes0 := list_to_map _).
  assert (∀ p, p ∈ ap_states plan → sd_key (rp_declaration p) ∈ dom planes0) as Hdom.
  { intros p Hp. unfold planes0. rewrite dom_list_to_map_L. apply elem_of_list_to_set. rewrite <-list_fmap_compose.
    apply list_elem_of_fmap. by exists p. }
  destruct (replay_planes (ap_operations plan) chunks (λ _, []) planes0 (pk_engine engine)) as (planes & Er & Ed &
    Hp); [done|apply begun_planes| |].
  { apply list.Forall_forall. intros o Ho. destruct (operation_state o Ho) as (p & Hp & <- & _). by apply Hdom. }
  exists planes. split; [done|]. intros p Hin. split; [by apply Hp, Hdom|].
  destruct (proj1 (list.Forall_forall _ _) (pt_exact _ PT) p Hin) as [Ht _]. apply ops_tile_total in Ht.
  enough (zlen (plane_bytes (sd_key (rp_declaration p)) chunks) =
    ops_bytes (ops_for (sd_key (rp_declaration p)) (ap_operations plan))) by lia.
  clear -Hc. induction Hc as [|o c ops chunks (E1 & E2 & E3) _ IH]; [done|].
  rewrite plane_bytes_cons, ops_for_cons, zlen_app, IH, E1.
  destruct (decide _); [rewrite E3; done|done].
Qed.
(** ** A staged shadow *)
Lemma declare_states_ok states acc : NoDup ((λ p, sd_key (rp_declaration p)) <$> states) →
  (∀ p, p ∈ states → acc !! sd_key (rp_declaration p) = None) →
  ∃ acc', declare_states states acc = (None, acc') ∧ (∀ p, p ∈ states → acc' !! sd_key (rp_declaration p) =
    Some (rp_plaintext_bytes p)) ∧
    ∀ k v, acc !! k = Some v → acc' !! k = Some v.
Proof.
  clear PT. revert acc. induction states as [|p states IH]; intros acc Hnd Hnew;
    [exists acc; split_and!; [done| |done]; intros p Hp; by apply elem_of_nil in Hp|].
  rewrite fmap_cons in Hnd. apply NoDup_cons in Hnd as [Hk Hnd]. cbn [declare_states]. rewrite Hnew by left.
  destruct (IH (<[sd_key (rp_declaration p) := rp_plaintext_bytes p]> acc) Hnd) as (acc' & -> & H1 & H2).
  { intros q Hq. rewrite lookup_insert_ne; [apply Hnew; by right|]. intros E. apply Hk. rewrite E.
    by apply (list_elem_of_fmap_2 (λ p, sd_key (rp_declaration p))). }
  exists acc'. split_and!; [done| |].
  - intros q [->|Hq]%elem_of_cons; [apply H2; by rewrite lookup_insert_eq|auto].
  - intros k v Hk'. apply H2. rewrite lookup_insert_ne; [done|]. intros <-. rewrite Hnew in Hk'; [done|by left].
Qed.
Lemma replay_staged chunks state_bytes staged committed :
  (∀ p, p ∈ ap_states plan → state_bytes !! sd_key (rp_declaration p) = Some (rp_plaintext_bytes p)) →
  fetch_all io (ap_operations plan) = Ok chunks →
  replay chunks (mkShadowStage state_bytes staged committed) =
    (None, mkShadowStage state_bytes (staged ++ chunks) committed).
Proof.
  intros Hst Hf. apply fetch_all_chunks in Hf as Hc. pose proof operation_state as Hop.
  pose proof plan_size_bound as Hb.
  revert Hop Hc staged. generalize (ap_operations plan). clear Hf. intros l Hop Hc.
  induction Hc as [|o c l chunks (E1 & E2 & E3) _ IH]; intros staged; [by rewrite app_nil_r|].
  destruct (Hop o ltac:(left)) as (p & Hp & Ek & H0 & H1 & _). cbn [replay write_verified_chunk shadow_sink].
  unfold shadow_write.
  cbn [sh_state_bytes sh_staged sh_committed]. specialize (Hb p Hp). pose proof (zlen_nonneg (st_plaintext c)).
  rewrite E1, <-Ek, (Hst p Hp), E2. rewrite (proj2 (checked_add_Some _ _ _)) by (split; [done|lia]).
  rewrite (proj2 (Z.ltb_ge _ _)) by lia. rewrite (IH ltac:(intros; apply Hop; by right)), <-app_assoc. cbn.
  do 4 f_equal. destruct c; cbn in *. congruence.
Qed.
Lemma staged_total_ok chunks : fetch_all io (ap_operations plan) = Ok chunks →
  staged_total chunks 0 = Some (rc_complete_restored_bytes (ap_realized_schema plan)).
Proof.
  intros Hf. apply fetch_all_chunks in Hf as Hc. pose proof (pt_bound _ PT) as Hb.
  assert (zsum ((λ c, zlen (st_plaintext c)) <$> chunks) = rc_complete_restored_bytes (ap_realized_schema plan)) as E.
  { rewrite <-(pt_total _ PT). trans (ops_bytes (ap_operations plan)).
    - clear -Hc. unfold ops_bytes, zsum. induction Hc as [|o c ops chunks (_ & _ & E3) _ IH]; csimpl; [done|].
      by rewrite IH, E3.
    - rewrite (ops_bytes_split _ _ (pt_keys _ PT) (pt_operations _ PT)), <-list_fmap_compose. f_equal.
      apply list_fmap_ext.
      intros i p Hi%list_elem_of_lookup_2. destruct (proj1 (list.Forall_forall _ _) (pt_exact _ PT) p Hi) as [Ht _].
      apply ops_tile_total in Ht. cbn. lia. }
  rewrite <-E in Hb |- *. enough (∀ sum, 0 ≤ sum → sum + zsum ((λ c, zlen (st_plaintext c)) <$> chunks) < u64_bound →
    staged_total chunks sum = Some (sum + zsum ((λ c, zlen (st_plaintext c)) <$> chunks))) as Hs by (rewrite Hs by
      lia; f_equal; lia).
  clear. unfold zsum. induction chunks as [|c chunks IH]; intros sum Hs Hb; csimpl; [f_equal; cbn; lia|].
  csimpl in Hb. pose proof (zlen_nonneg (st_plaintext c)).
  assert (0 ≤ foldr Z.add 0 ((λ c, zlen (st_plaintext c)) <$> chunks)).
  { clear. induction chunks as [|c chunks IH]; csimpl; [done|]. pose proof (zlen_nonneg (st_plaintext c)). lia. }
  rewrite (proj2 (checked_add_Some _ _ _)) by (split; [done|lia]). cbn [mbind option_bind]. rewrite IH by lia.
  f_equal. lia.
Qed.
End plans.

Section outcomes.
Context `{CL : CryptoLaws} `{PC : PinCatalog} (io : RestoreIO) (IO : io_ok io) (plan : AuthenticatedRestorePlan) (PT : plan_tiles plan).
Context (draw : option Id32) (entropy : nat → option Id32) (cancelled : nat → bool).
(** What an installed restore did, whatever its sink. *)
Lemma sequential_Ok {S} `{VerifiedRestoreSink S} (s : S) w installed s' w' :
  restore_sequential io plan draw entropy cancelled s w = (Ok installed, s', w') →
  ∃ s1 s2 chunks, begin_restore (ap_manifest_id plan) (ap_states plan) s = (None, s1) ∧
    fetch_all io (ap_operations plan) = Ok chunks ∧ replay chunks s1 = (None, s2) ∧ commit_restore s2 = (None, s').
Proof.
  intros Hs. unfold restore_sequential in Hs.
  apply restore_Ok in Hs as (_ & _ & _ & charge & id & w0 & s1 & pins & s2 & w2 & _ & _ & _ & Eb & Eo & _ & _ & Ec &
    _).
  unfold restore_operations_sequential in Eo. destruct (pin_chunks_batch _ _ _ _) as [[ids| |] w3] eqn:Ep; [|done..].
  apply pin_chunks_batch_ok in Ep as (Hl & _).
  apply restore_each_Ok in Eo as (_ & _ & _ & chunks & Hf & Hr). unfold operation_references in Hl.
  rewrite length_fmap in Hl. rewrite fst_zip in Hf by lia.
  exists s1, s2, chunks. done.
Qed.
Lemma restored_planes (s : PlaneSink) w installed s' w' :
  restore_sequential io plan draw entropy cancelled s w = (Ok installed, s', w') →
  ∃ chunks planes, fetch_all io (ap_operations plan) = Ok chunks ∧ s' = mkPlaneSink ∅ (Some planes) ∧
    ∀ p, p ∈ ap_states plan → planes !! sd_key (rp_declaration p) =
      Some (plane_bytes (sd_key (rp_declaration p)) chunks) ∧
      zlen (plane_bytes (sd_key (rp_declaration p)) chunks) = rp_plaintext_bytes p.
Proof.
  intros (s1 & s2 & chunks & Eb & Hf & Hr & Ec)%sequential_Ok.
  destruct (replay_fills io IO plan PT chunks s Hf) as (planes & Er & Hp).
  cbn in Eb. injection Eb as <-. cbn in Er. rewrite Er in Hr. injection Hr as <-. cbn in Ec. injection Ec as <-.
  eauto.
Qed.
(** A plan that an engine's sink accepts can be staged first. *)
Lemma prestage_succeeds {S} `{VerifiedRestoreSink S} (s : S) w installed s' w' :
  is_zero_id (ap_manifest_id plan) = false → ap_states plan ≠ [] →
  restore_sequential io plan draw entropy cancelled s w = (Ok installed, s', w') →
  ∃ handle, prestage_shadow io plan draw entropy cancelled w = (Ok handle, w') ∧ hs_install handle = Some installed ∧
    hs_staged_bytes handle = rc_complete_restored_bytes (ap_realized_schema plan).
Proof.
  intros Hid Hne Hs. unfold restore_sequential in Hs.
  apply restore_Ok in Hs as (Hg & E0 & E1 & charge & id & w0 & s1 & pins & s2 & w2 & Ev & -> & Er & _ & Eo & Ep & Ea &
    _ & ->).
  unfold restore_operations_sequential in Eo. destruct (pin_chunks_batch _ _ _ _) as [[ids| |] w3] eqn:Eb; [|done..].
  apply restore_each_Ok in Eo as (-> & -> & Hc & chunks & Hf & _). pose proof Eb as (Hl & _)%pin_chunks_batch_ok.
  unfold operation_references in Hl.
  rewrite length_fmap in Hl. assert ((zip (ap_operations plan) ids).*1 = ap_operations plan) as Ez by (apply fst_zip;
    lia).
  unfold prestage_shadow, restore_sequential, restore. rewrite Hg, Ev, E0, E1. cbn [mbind outcome_bind ok_or].
  rewrite Er. cbn [mbind outcome_bind begin_restore shadow_sink].
  unfold shadow_begin. rewrite Hid, bool_decide_false by done. cbn [orb].
  destruct (declare_states_ok (ap_states plan) ∅ (pt_keys _ PT)) as (bytes & -> & Hby & _);
    [by intros; rewrite lookup_empty|].
  unfold restore_operations_sequential. rewrite Eb.
  pose proof (restore_each_replay io cancelled 1 (zip (ap_operations plan) ids) [] (mkShadowStage bytes [] false) w3
    chunks Hc Hf) as HR.
  rewrite Ez in Hf. rewrite (replay_staged io IO plan PT chunks bytes [] false Hby Hf) in HR.
  destruct (restore_each io cancelled 1 _ [] (mkShadowStage bytes [] false) w3) as [[r t] w4] eqn:Ere.
  destruct HR as [-> ->]. cbn [fst snd] in *.
  apply restore_each_Ok in Ere as (-> & _). cbn [app] in *. rewrite Ep. cbn [mbind outcome_bind]. unfold install.
  rewrite Ea. cbn [commit_restore shadow_sink shadow_commit].
  cbn [sh_committed negb sh_staged app]. rewrite (staged_total_ok io IO plan PT chunks Hf).
  cbn [ok_or mbind outcome_bind]. rewrite Z.eqb_refl. cbn [negb]. eauto.
Qed.
End outcomes.
