(* ===== verification/RestoreCandidates.v ===== *)
(** * Restore candidates (crates/kvpack/src/restore.rs, store/resolve.rs)

    The prefixes of a request that the catalog, an engine's residents or a
    gateway can serve, best first, with recomputation last. *)
From Stdlib Require Import ZArith Lia.
From stdpp Require Import base tactics numbers list strings option sorting gmap.
From S2P Require Import Prelude Bytes Canonical Wire State Identity Manifest Frame Deps Validator.
From S2P Require Import ValidatorLaws Crypto Ids PrefixChain Chunk ChunkLaws Pack StorePolicy.
From S2P Require Import StorePolicyLaws CacheReplayLaws RestorePlan ScatterPlan ChainLaws.
From S2P Require Import RestorePins RestoreExec RestoreLaws RestorePlanes.

(** ** Prefix checkpoints *)
Record PrefixHit := mkPrefixHit { hit_manifest_id : Id32; hit_token_count : Z; hit_recompute_tokens : Z }.
(** [ORDER BY token_count DESC] *)
Definition checkpoint_le (a b : CheckpointRow) : Prop := cp_token_count b ≤ cp_token_count a.
#[global] Instance checkpoint_le_dec a b : Decision (checkpoint_le a b).
Proof. unfold checkpoint_le. apply _. Defined.
Definition checkpoint_matches (store : StoreView) (candidates : list PrefixNode) (semantic family : Id32)
    (minimum_key_epoch : Z) (row : CheckpointRow) : bool :=
  bytes_eqb (cp_semantic_id row) semantic && bytes_eqb (cp_family_id row) family
  && existsb (λ node, bytes_eqb (pn_id node) (cp_prefix_id row)) candidates
  && match sv_local_manifest store (cp_manifest_id row) with
     | Some epoch => (minimum_key_epoch <=? epoch) && (epoch <=? sv_key_epoch store)
     | None => false
     end.
Definition resolve_prefix_candidates_inner (store : StoreView) (nodes : list PrefixNode) (semantic family : Id32)
    (candidate_bound minimum_key_epoch : Z) : list PrefixHit :=
  match last nodes with
  | None => []
  | Some node =>
      if candidate_bound =? 0 then [] else
      let result_bound := Z.min candidate_bound 64 in
      let candidates := drop (length nodes - 900) nodes in
      let rows := filter (λ row, checkpoint_matches store candidates semantic family minimum_key_epoch row)
        (sv_checkpoints store) in
      (λ row, mkPrefixHit (cp_manifest_id row) (cp_token_count row) (saturating_sub (pn_token_count node)
        (cp_token_count row)))
        <$> firstn (Z.to_nat result_bound) (merge_sort checkpoint_le rows)
  end.
Definition resolve_prefix (store : StoreView) (nodes : list PrefixNode) (semantic family : Id32) (candidate_bound : Z)
    : option PrefixHit :=
  head (resolve_prefix_candidates_inner store nodes semantic family candidate_bound (sv_minimum_readable_key_epoch
    store)).

(** ** Requests *)
Record RestoreRequest := mkRestoreRequest {
  rr_semantic_model : SemanticModelId;
  rr_family : RepresentationFamilyId;
  rr_input_tokens : list Z;
  rr_auxiliary_inputs : list AuxiliaryInputId;
  rr_minimum_key_epoch : Z;
  rr_maximum_candidates : Z
}.
Inductive RestoreAvailableSource :=
  | Resident (matched_cut : InputCutId) (resident_identity : Id32) (restored_bytes : Z)
      (resources : RestoreResourceRequirements)
  | Gateway (matched_cut : InputCutId) (manifest_id chain_identity : Id32) (key_epoch restored_bytes : Z)
      (resources : RestoreResourceRequirements).
Definition RestoreResourceRequirements_default : RestoreResourceRequirements := mkRequirements 0 0 0 0 0 0 0 0.

(** What the candidates of one request share. *)
Record CandidateScope := mkScope {
  sc_requested_cut : InputCutId;
  sc_zero_cut : InputCutId;
  sc_expected_cuts : gmap Z InputCutId;
  sc_semantic_id : Id32;
  sc_family_id : Id32;
  sc_minimum_key_epoch : Z
}.
Definition scoped_candidate (store : StoreView) (scope : CandidateScope) (matched_cut : InputCutId) (tier :
  RestoreTier)
    (manifest_id chain source : option Id32) (source_key_epoch : option Z) (restored_bytes : Z)
    (resources : RestoreResourceRequirements) (tombstoned : Z) : RestoreCandidate :=
  mkCandidate (sv_tenant_namespace store) matched_cut (sc_requested_cut scope)
    (saturating_sub (token_count (sc_requested_cut scope)) (token_count matched_cut)) tier manifest_id chain source
    source_key_epoch restored_bytes resources (sc_semantic_id scope) (sc_family_id scope) (sc_minimum_key_epoch scope)
    tombstoned.

Section candidates.
Context `{Crypto} (store : StoreView) (context : ValidationContext).
Notation Loaded := (gmap Id32 AuthenticatedManifest).
Notation Availabilities := (gmap Id32 CachedChunkAvailability).
Definition is_not_found (e : StoreError) : bool :=
  match e with SNotFound => true | SIo _ => sv_io_not_found store e | _ => false end.
(** The local candidates; manifests and chunk rows looked up once are kept.  A
    walk that finds a file missing keeps here the cache it started with: what a
    cache holds does not change any result ([authenticate_cached]). *)
Fixpoint local_candidates (scope : CandidateScope) (hits : list PrefixHit) (manifests : Loaded) (chunks :
  Availabilities)
    : sresult (list RestoreCandidate) :=
  match hits with
  | [] => Ok []
  | hit :: hits =>
      matched_cut ← ok_or (sc_expected_cuts scope !! hit_token_count hit)
                      (SAuthentication "catalog candidate token count is not a requested prefix node");
      match authenticate_chain_cached store (hit_manifest_id hit) (sc_minimum_key_epoch scope)
              (Some (sc_semantic_id scope, sc_family_id scope, matched_cut)) context manifests with
      | Panic m => Panic m
      | Err e => if is_not_found e then local_candidates scope hits manifests chunks else Err e
      | Ok (chain, manifests) =>
          '(disposition, chunks) ← chain_chunk_disposition_cached store chain chunks;
          if negb (cd_complete disposition) then local_candidates scope hits manifests chunks else
          resources ← chain_resources chain;
          leaf ← expect (last chain) "called `Option::unwrap()` on a `None` value";
          candidates ← local_candidates scope hits manifests chunks;
          Ok (scoped_candidate store scope matched_cut Tier_Local (Some (hit_manifest_id hit)) (Some (chain_identity
            chain))
                (Some (hit_manifest_id hit)) (Some (cm_key_epoch (am_manifest leaf)))
                (rc_complete_restored_bytes (cm_realized_schema (am_manifest leaf))) resources
                (Z.of_nat (size (cd_tombstoned disposition))) :: candidates)
      end
  end.
End candidates.

Section sources.
Context (store : StoreView).
(** A hint has to name a cut of the request and a source that can be charged. *)
Definition hint_rejected (scope : CandidateScope) (candidate : RestoreCandidate) : bool :=
  negb (bool_decide (sc_expected_cuts scope !! token_count (rc_matched_cut candidate) =
    Some (rc_matched_cut candidate)))
  || (token_count (rc_matched_cut candidate) =? 0) || (rc_restored_bytes candidate =? 0)
  || bool_decide (rc_source_identity candidate = Some (replicate 32 0))
  || bool_decide (rc_chain_identity candidate = Some (replicate 32 0))
  || match resource_charge (rc_resources candidate) 1 with Ok _ => false | _ => true end
  || (bool_decide (rc_tier candidate = Tier_Gateway)
      && negb (rq_shadow_bytes (rc_resources candidate) =? rc_restored_bytes candidate)).
Definition hint_candidate (scope : CandidateScope) (source : RestoreAvailableSource) : option RestoreCandidate :=
  candidate ←
    match source with
    | Resident matched_cut identity restored_bytes resources =>
        Some (scoped_candidate store scope matched_cut Tier_Resident None (Some identity) (Some identity) None
          restored_bytes
                resources 0)
    | Gateway matched_cut manifest_id chain key_epoch restored_bytes resources =>
        if (key_epoch <? sc_minimum_key_epoch scope) || (sv_key_epoch store <? key_epoch) then None else
        Some (scoped_candidate store scope matched_cut Tier_Gateway (Some manifest_id) (Some chain) (Some manifest_id)
                (Some key_epoch) restored_bytes resources 0)
    end;
  if hint_rejected scope candidate then None else Some candidate.
Definition hint_candidates (scope : CandidateScope) (sources : list RestoreAvailableSource) : list RestoreCandidate :=
  omap (hint_candidate scope) sources.

(** [Option<Id32>]'s order *)
Definition option_id_cmp (a b : option Id32) : comparison :=
  match a, b with
  | None, None => Eq
  | None, Some _ => Lt
  | Some _, None => Gt
  | Some a, Some b => bytes_cmp a b
  end.
Definition candidate_cmp (left right : RestoreCandidate) : comparison :=
  then_cmp (Z.compare (token_count (rc_matched_cut right)) (token_count (rc_matched_cut left)))
    (then_cmp (Z.compare (tier_order (rc_tier left)) (tier_order (rc_tier right)))
       (option_id_cmp (rc_source_identity left) (rc_source_identity right))).
Definition candidate_le (left right : RestoreCandidate) : Prop := candidate_cmp left right ≠ Gt.
#[export] Instance candidate_le_dec a b : Decision (candidate_le a b).
Proof. unfold candidate_le. apply _. Defined.
Definition same_source (left right : RestoreCandidate) : bool :=
  bool_decide (rc_tier left = rc_tier right) && bool_decide (rc_matched_cut left = rc_matched_cut right)
  && bool_decide (rc_source_identity left = rc_source_identity right).
(** [dedup_by]: an element equal to the last one kept is dropped. *)
Fixpoint dedup_from (kept : RestoreCandidate) (l : list RestoreCandidate) : list RestoreCandidate :=
  match l with
  | [] => []
  | c :: l => if same_source c kept then dedup_from kept l else c :: dedup_from c l
  end.
Definition dedup_candidates (l : list RestoreCandidate) : list RestoreCandidate :=
  match l with [] => [] | c :: l => c :: dedup_from c l end.
Definition recompute_candidate (scope : CandidateScope) : RestoreCandidate :=
  scoped_candidate store scope (sc_zero_cut scope) Tier_Recompute None None None None 0
    RestoreResourceRequirements_default 0.
(** Sorted, deduplicated, cut to the bound, and recomputation last. *)
Definition rank_candidates (scope : CandidateScope) (maximum : Z) (candidates : list RestoreCandidate) : list
  RestoreCandidate :=
  firstn (Z.to_nat (maximum - 1)) (dedup_candidates (merge_sort candidate_le candidates)) ++ [recompute_candidate
    scope].
End sources.

Section requests.
Context `{Crypto} (store : StoreView) (context : ValidationContext).
Definition expected_cuts (auxiliary_root : Id32) (nodes : list PrefixNode) : gmap Z InputCutId :=
  foldl (λ cuts node, <[pn_token_count node := mkInputCutId (pn_id node) auxiliary_root (pn_token_count node)]> cuts)
    ∅ nodes.
Definition request_scope (request : RestoreRequest) : sresult (CandidateScope * list PrefixNode) :=
  _ ← of_pack (validate_family (rr_family request));
  keys ← sv_schedule store (sv_key_epoch store);
  '(requested_cut, nodes) ← of_pack (derive_input_cut (ks_prefix keys) (sv_tenant_namespace store) (rr_semantic_model
    request)
      (rr_family request) (rr_input_tokens request) (rr_auxiliary_inputs request));
  '(zero_cut, _) ← of_pack (derive_input_cut (ks_prefix keys) (sv_tenant_namespace store) (rr_semantic_model request)
      (rr_family request) [] (rr_auxiliary_inputs request));
  family_id ← of_pack (representation_family_id (rr_family request));
  Ok (mkScope requested_cut zero_cut (expected_cuts (auxiliary_input_root requested_cut) nodes)
        (semantic_model_id (rr_semantic_model request)) family_id
        (Z.max (rr_minimum_key_epoch request) (sv_minimum_readable_key_epoch store)), nodes).
Definition restore_candidates_with_sources (request : RestoreRequest) (sources : list RestoreAvailableSource)
    : sresult (list RestoreCandidate) :=
  if (rr_minimum_key_epoch request =? 0)
     || negb ((2 <=? rr_maximum_candidates request) && (rr_maximum_candidates request <=? 65)) then
    Err (SExpectation "restore request epoch or candidate bound is invalid") else
  if 256 <? zlen sources then Err (SExpectation "restore availability hint count exceeds bound") else
  '(scope, nodes) ← request_scope request;
  let hits := resolve_prefix_candidates_inner store nodes (sc_semantic_id scope) (sc_family_id scope)
                (rr_maximum_candidates request - 1) (sc_minimum_key_epoch scope) in
  local ← local_candidates store context scope hits ∅ ∅;
  Ok (rank_candidates store scope (rr_maximum_candidates request) (local ++ hint_candidates store scope sources)).
Definition restore_candidates (request : RestoreRequest) : sresult (list RestoreCandidate) :=
  restore_candidates_with_sources request [].
End requests.

(** * Laws of restore candidates and of built plans

    Candidates are ranked, name cuts of the request and end with
    recomputation; a local one builds a plan as long as the store does not
    change; and a built plan tiles the planes of its states. *)
Implicit Types (r : ChunkRef) (refs : list ChunkRef) (k : Id32) (chain : list AuthenticatedManifest).

(** ** Dispositions without a cache *)
Section dispositions.
Context (store : StoreView).
(** The catalog has a row for the reference: available with its file, or tombstoned. *)
Definition cataloged r : Prop := agrees store r ∧ file_ok store (cr_object_key r) ∧ is_missing store (cr_object_key r) =
  false.
(** Its bytes can be read: the row is not tombstoned, and the regular file has the size. *)
Definition available r : Prop := ∃ row, sv_chunk_row store (cr_object_key r) = Some row ∧
  availability_is_tombstoned row = false ∧ in_window store row r = Ok tt ∧
  sv_chunk_stat store (cr_object_key r) = Some (true, cr_object_bytes r).
(** Its bytes are gone, and have to be recomputed. *)
Definition tombstoned r : Prop := ∃ row, sv_chunk_row store (cr_object_key r) = Some row ∧
  availability_is_tombstoned row = true ∧ in_window store row r = Ok tt.
(** A cataloged reference is the one its catalog row describes. *)
Lemma cataloged_row r : cataloged r → ∃ row, sv_chunk_row store (cr_object_key r) = Some row ∧ in_window store row r =
  Ok tt ∧
  (availability_is_tombstoned row = false → sv_chunk_stat store (cr_object_key r) = Some (true, cr_object_bytes r)) ∧
  status store (cr_object_key r) = (if availability_is_tombstoned row then Tombstoned row else Available row).
Proof.
  unfold cataloged, agrees, file_ok, is_missing. intros (Ha & Hf & Hm).
  destruct (status store (cr_object_key r)) as [|row|row] eqn:Es; [done|..].
  - pose proof (Hf row eq_refl) as Hst. unfold status in Es.
    destruct (sv_chunk_row store (cr_object_key r)) as [row'|]; [|done].
    destruct (availability_is_tombstoned row') eqn:Et; [done|]. rewrite Hst in Es. injection Es as ->. exists row.
    rewrite Et. split_and!; [done..| |done].
    intros _. rewrite Hst. unfold in_window, validate_available_reference, auth_error in Ha. inv_ok. bools.
    congruence.
  - unfold status in Es. destruct (sv_chunk_row store (cr_object_key r)) as [row'|]; [|done].
    destruct (availability_is_tombstoned row') eqn:Et; [|by destruct (sv_chunk_stat _ _)]. injection Es as ->.
    exists row. by rewrite Et.
Qed.
Lemma cataloged_split r : cataloged r → if is_tombstoned store (cr_object_key r) then tombstoned r else available r.
Proof.
  intros (row & E1 & Hw & Hst & Es)%cataloged_row. unfold is_tombstoned. rewrite Es.
  destruct (availability_is_tombstoned row) eqn:Et; exists row; auto.
Qed.
Lemma in_window_inj row r r' : in_window store row r = Ok tt → in_window store row r' = Ok tt → cr_object_key r =
  cr_object_key r' → r = r'.
Proof.
  unfold in_window, validate_available_reference, auth_error. intros H1 H2 Hk. inv_ok. bools.
  repeat match goal with H : bytes_eqb _ _ = true |- _ => apply bytes_eqb_eq in H end. destruct r, r'; cbn in *.
  congruence.
Qed.
Lemma cataloged_inj r r' : cataloged r → cataloged r' → cr_object_key r = cr_object_key r' → r = r'.
Proof.
  intros (row & E1 & W1 & _)%cataloged_row (row' & E2 & W2 & _)%cataloged_row Hk. rewrite Hk, E2 in E1. simplify_eq.
  by eapply in_window_inj.
Qed.
Lemma collect_ok refs acc : Forall cataloged refs → (∀ k r, acc !! k = Some r → cataloged r ∧ cr_object_key r = k) →
  ∃ acc', collect_references refs acc = Ok acc' ∧ (∀ k r, acc' !! k = Some r → cataloged r ∧ cr_object_key r = k) ∧
    Forall (λ r, is_Some (acc' !! cr_object_key r)) refs ∧ ∀ k, is_Some (acc !! k) → is_Some (acc' !! k).
Proof.
  intros Hall. revert acc. induction Hall as [|r refs Hr _ IH]; intros acc Hacc; [by exists acc|].
  cbn [collect_references].
  assert (∀ k r', <[cr_object_key r := r]> acc !! k = Some r' → cataloged r' ∧ cr_object_key r' = k) as Hins.
  { intros k r'. rewrite lookup_insert_Some. intros [[<- <-]|[_ ?]]; auto. }
  destruct (IH _ Hins) as (acc' & E & H1 & H2 & H3).
  assert (collect_references (r :: refs) acc = Ok acc') as Ec.
  { cbn [collect_references]. destruct (acc !! cr_object_key r) as [r'|] eqn:Er; [|done].
    destruct (Hacc _ _ Er) as [Hs Hk].
    rewrite bool_decide_true; [done|]. by apply cataloged_inj. }
  exists acc'. split_and!; [exact Ec|done| |].
  - constructor; [|done]. apply H3. by rewrite lookup_insert_eq.
  - intros k Hk. apply H3. destruct (decide (cr_object_key r = k)) as [<-|];
      [by rewrite lookup_insert_eq|by rewrite lookup_insert_ne].
Qed.
Lemma prefetch_cataloged unknown cache : Forall (λ e : Id32 * ChunkRef, cataloged e.2 ∧ cr_object_key e.2 = e.1) unknown →
  ∃ cache', prefetch_loop store unknown cache = Ok cache'.
Proof.
  intros Hall. revert cache. induction Hall as [|[k r] unknown [Hs Hk] _ IH]; intros cache; [by exists cache|].
  cbn [fst snd] in *. subst k.
  cbn [prefetch_loop]. destruct (cataloged_row _ Hs) as (row & -> & -> & Hst & _). cbn [mbind outcome_bind].
  destruct (availability_is_tombstoned row); [apply IH|]. rewrite Hst by done. rewrite Z.eqb_refl. cbn [negb orb].
  apply IH.
Qed.
Lemma validate_cataloged refs cache missing tombstoned : avail_coherent store cache → Forall cataloged refs →
  Forall (λ r, is_Some (cache !! cr_object_key r)) refs →
  ∃ tombstoned', validate_cached store refs cache missing tombstoned = Ok (missing, tombstoned').
Proof.
  intros Hc Hall. revert tombstoned. induction Hall as [|r refs Hr _ IH]; intros tombstoned Hin; [by eexists|].
  apply Forall_cons in Hin as [[v Hv] Hin]. cbn [validate_cached]. rewrite Hv. cbn [ok_or mbind outcome_bind].
  destruct (Hc _ _ Hv) as [-> _].
  destruct (cataloged_row _ Hr) as (row & _ & Hw & _ & ->).
  destruct (availability_is_tombstoned row); rewrite Hw; cbn [mbind outcome_bind]; by apply IH.
Qed.
Lemma disposition_cataloged chain : Forall cataloged (chain_references chain) → ∃ d, chain_chunk_disposition store chain =
  Ok d.
Proof.
  intros Hs. unfold chain_chunk_disposition, chain_chunk_disposition_cached, validate_cached_chain,
    prefetch_local_availability.
  assert (avail_coherent store ∅) as He by (intros k v; by rewrite lookup_empty). destruct (forallb _ _) eqn:Hb.
  - assert (chain_references chain = []) as Er.
    { destruct (chain_references chain); [done|]. cbn in Hb. rewrite lookup_empty, bool_decide_false in Hb; [done|].
      by intros []. }
    rewrite Er. cbn. eauto.
  - destruct (collect_ok _ ∅ Hs) as (acc & -> & H1 & H2 & _); [intros k r; by rewrite lookup_empty|].
    cbn [mbind outcome_bind].
    match goal with |- context [prefetch_loop store ?l ∅] => destruct (prefetch_cataloged l ∅) as [cache Ep] end.
    { apply list.Forall_forall. intros [k r] [_ Hin]%list_elem_of_filter. apply btree_iter_elem in Hin. cbn.
      by apply H1. }
    rewrite Ep. cbn [mbind outcome_bind]. apply prefetch_loop_ok in Ep as (Hc & _ & Hin); [|done].
    destruct (validate_cataloged (chain_references chain) cache ∅ ∅ Hc Hs) as [tombs ->]; [|cbn; eauto].
    apply list.Forall_forall. intros r Hr. destruct (proj1 (list.Forall_forall _ _) H2 r Hr) as [r' Hr'].
    apply (proj1 (list.Forall_forall _ _) Hin (cr_object_key r, r')). apply list_elem_of_filter.
    split; [by rewrite lookup_empty|].
    by apply btree_iter_elem.
Qed.
(** A complete disposition is the same with or without a cache. *)
Lemma disposition_cached chain cache d cache' : avail_coherent store cache →
  chain_chunk_disposition_cached store chain cache = Ok (d, cache') → cd_complete d = true →
  chain_chunk_disposition store chain = Ok d.
Proof.
  intros Hc Hd Hcomp. pose proof (disposition_ok _ _ _ _ _ Hc Hd) as (_ & Hag & Hco & Ht).
  pose proof (proj1 Hco Hcomp) as Hm.
  destruct (disposition_cataloged chain) as [d' Hd'].
  { apply list.Forall_forall. intros r Hr. destruct (proj1 (list.Forall_forall _ _) Hag r Hr). split_and!; [done..|].
    by apply (proj1 (list.Forall_forall _ _) Hm). }
  rewrite Hd'. f_equal. unfold chain_chunk_disposition in Hd'. apply bind_Ok in Hd' as ([d1 c1] & Hd1 & ?).
  simplify_eq.
  pose proof (disposition_ok _ _ ∅ _ _ ltac:(intros k v; by rewrite lookup_empty) Hd1) as (_ & _ & Hco' & Ht').
  destruct d as [c t], d' as [c' t']. cbn in *. subst. f_equal. by apply Hco'.
Qed.
End dispositions.

(** ** Built plans *)
Lemma charge_chunks_ok chunks pinned pins scratch margin totals : charge_chunks chunks (pinned, pins, scratch,
  margin) = Ok totals →
  totals.1.1.1 = pinned + zsum (cr_object_bytes <$> chunks) ∧ totals.1.1.2 = pins + zlen chunks.
Proof.
  revert pinned pins scratch margin. induction chunks as [|c chunks IH]; intros pinned pins scratch margin Hc;
    cbn [charge_chunks charge_chunk] in Hc; inv_ok.
  { subst. cbn. change (zlen []) with 0. unfold zsum. cbn. lia. }
  subst. apply IH in H0 as [E1 E2]. unfold charge_chunk in *.
  repeat match goal with H : checked_add _ _ = Some _ |- _ => apply checked_add_Some in H as [-> _] end.
  rewrite zlen_cons. unfold zsum in *. csimpl. lia.
Qed.
Lemma chain_resources_ok chain resources : chain_resources chain = Ok resources →
  rq_source_pins resources = zlen (chain_references chain) ∧
  rq_pinned_source_bytes resources = zsum (cr_object_bytes <$> chain_references chain).
Proof.
  unfold chain_resources. intros Hr. inv_ok. destruct x1 as [[[pinned pins] scratch] margin]. inv_ok. subst. cbn.
  match goal with H : charge_chunks _ _ = _ |- _ => apply charge_chunks_ok in H as [E1 E2] end. cbn in *. lia.
Qed.
Lemma mark_for (k : StateKey) ops d : ops_for k (mark_recompute_operations ops d) =
  mark_recompute_operations (ops_for k ops) d.
Proof.
  induction ops as [|o ops IH]; [done|]. unfold mark_recompute_operations in *.
  rewrite fmap_cons, !ops_for_cons, IH, fmap_app. cbn [ro_state_key].
  by destruct (decide _).
Qed.
Lemma mark_tile off ops off' d : ops_tile off ops off' → ops_tile off (mark_recompute_operations ops d) off'.
Proof. induction 1; [constructor|]. unfold mark_recompute_operations. rewrite fmap_cons. by constructor. Qed.
Section built.
Context `{CL : CryptoLaws} (store : StoreView) (minimum : Z) (ctx : ValidationContext) (VO : view_ok store).
Lemma plan_of_chain_ok id leaf chain d resources limits c1 c2 : authentic store minimum ctx id leaf chain →
  ∃ plan, plan_of_chain store id chain d resources limits c1 c2 =
    (if operation_bound (am_manifest leaf) <? zlen (chain_references chain)
     then auth_error "authenticated restore operation count exceeds bound" else Ok plan) ∧
    plan_tiles plan ∧ Forall operation_ok (ap_operations plan) ∧
    ro_reference <$> ap_operations plan = chain_references chain ∧ ap_states plan ≠ [] ∧ ap_manifest_id plan = id ∧
    ap_matched_cut plan = c1 ∧ ap_requested_cut plan = c2 ∧ ap_resources plan = resources ∧ ap_limits plan = limits ∧
    Forall (λ o, ro_recompute o = bool_decide (cr_object_key (ro_reference o) ∈ cd_tombstoned d)) (ap_operations plan).
Proof.
  intros (Eid & root & rest & -> & Hfull & HL). pose proof (lf_last _ _ _ _ _ _ HL) as Hlast.
  pose proof (lf_chain _ _ _ _ _ _ HL) as Hch. unfold cut_start in Hch at 1. rewrite Hfull in Hch.
  destruct (chain_from_last _ _ _ _ _ _ Hch Hlast) as (Hv & Hfam & _). destruct (validated_rows _ _ Hv) as [HV _].
  destruct (manifest_row_keys _ _ Hv) as (_ & _ & _ & Hnd).
  destruct (build_scatter_plan_ok _ _ _ _ _ Hch Hlast) as (states & ops & Hex & Hkeys & Hrefs & Hin & Htot & Eb).
  exists (mkPlan (sv_tenant_namespace store) id (cm_semantic_model (am_manifest leaf)) (cm_family (am_manifest leaf))
    (cm_realized_schema (am_manifest leaf)) (cm_key_epoch (am_manifest leaf)) c1 c2 (chain_identity (root :: rest))
      states
    (mark_recompute_operations ops d) resources limits).
  unfold plan_of_chain, chain_leaf. rewrite Hlast. cbn [mbind outcome_bind]. rewrite Eb.
  split; [by destruct (_ <? _)|].
  cbn [ap_operations ap_states ap_manifest_id ap_matched_cut ap_requested_cut ap_resources ap_limits].
  destruct Hv as [Hm _]. pose proof Hm as (_ & _ & _ & _ & Hf & Hsch & _).
  split_and!; try done.
  - split; cbn [ap_operations ap_states ap_realized_schema].
    + by rewrite Hkeys.
    + eapply list.Forall_impl; [exact Hex|]. intros p [Ht Hc]. split; rewrite mark_for; [by apply mark_tile|].
      unfold mark_recompute_operations. by rewrite zlen_fmap.
    + rewrite Hkeys. unfold mark_recompute_operations. apply Forall_fmap. eapply list.Forall_impl; [exact Hin|].
      by intros o (? & _).
    + done.
    + apply Hsch.
  - unfold mark_recompute_operations. apply Forall_fmap. eapply list.Forall_impl; [exact Hin|]. intros o (_ & Ef & _).
    unfold operation_ok. cbn. by rewrite Ef.
  - unfold mark_recompute_operations. rewrite <-list_fmap_compose, <-Hrefs. done.
  - intros ->. pose proof (mv_counts _ _ HV) as [E _]. destruct Hsch as (_ & [Hpos _] & _). cbn in Hkeys.
    destruct (family_states (cm_family (am_manifest leaf))); [|done]. rewrite E in Hpos.
    by change (zlen []) with 0 in Hpos.
  - unfold mark_recompute_operations. apply Forall_fmap, list.Forall_forall. done.
Qed.
(** The plan's account is its operations', and is within the limits. *)
Definition within_limits (plan : AuthenticatedRestorePlan) (limits : RestoreLimits) : Prop :=
  rq_source_pins (ap_resources plan) = zlen (ap_operations plan) ∧
  rq_pinned_source_bytes (ap_resources plan) = zsum (cr_object_bytes ∘ ro_reference <$> ap_operations plan) ∧
  ap_limits plan = limits ∧ 1 ≤ rl_maximum_parallelism limits ∧
  ∃ charge, resource_charge (ap_resources plan) 1 = Ok charge ∧ charge_within_limits charge limits = true.
Lemma limits_ok resources limits charge : validate_limits resources limits 1 = Ok charge →
  1 ≤ rl_maximum_parallelism limits ∧ resource_charge resources 1 = Ok charge ∧
  charge_within_limits charge limits = true.
Proof. clear. unfold validate_limits. intros Hv. inv_ok. bools. subst. auto. Qed.
Lemma within_pins plan limits : within_limits plan limits → zlen (ap_operations plan) ≤ rl_maximum_source_pins limits.
Proof.
  clear. intros (<- & _ & _ & _ & charge & Hc & Hw). unfold resource_charge in Hc. inv_ok. subst.
  unfold charge_within_limits in Hw. bools. cbn in *. lia.
Qed.
(** A plan that was built restores within its account and tiles its planes. *)
Lemma built_plan_ok id leaf chain d resources limits c1 c2 plan charge : authentic store minimum ctx id leaf chain →
  chain_resources chain = Ok resources → validate_limits resources limits 1 = Ok charge →
  plan_of_chain store id chain d resources limits c1 c2 = Ok plan →
  Forall operation_ok (ap_operations plan) ∧ plan_tiles plan ∧ ap_states plan ≠ [] ∧ ap_manifest_id plan = id ∧
  ap_matched_cut plan = c1 ∧ ro_reference <$> ap_operations plan = chain_references chain ∧ within_limits plan limits ∧
  Forall (λ o, ro_recompute o = bool_decide (cr_object_key (ro_reference o) ∈ cd_tombstoned d)) (ap_operations plan).
Proof.
  intros Ha Hr Hl Hp. destruct (plan_of_chain_ok _ _ _ d resources limits c1 c2 Ha) as (plan' & E & T & F & R & N
    & I & M & _ & Eres & El & Hmark).
  rewrite E in Hp. destruct (_ <? _); [done|]. injection Hp as <-. apply limits_ok in Hl as (L1 & L2 & L3).
  apply chain_resources_ok in Hr as [Hpins Hbytes]. split_and!; try done. unfold within_limits.
  rewrite Eres, list_fmap_compose, R, <-(zlen_fmap ro_reference), R. split_and!; [done..|]. eauto.
Qed.
End built.
Section building.
Context `{CL : CryptoLaws} (store : StoreView) (ctx : ValidationContext) (VO : view_ok store).
Lemma build_exact_ok id minimum limits plan : build_exact_manifest store id minimum limits ctx = Ok plan →
  Forall operation_ok (ap_operations plan) ∧ plan_tiles plan ∧ ap_states plan ≠ [] ∧ ap_manifest_id plan = id ∧
  within_limits plan limits ∧
  Forall (λ o, if ro_recompute o then tombstoned store (ro_reference o) else available store (ro_reference o))
    (ap_operations plan) ∧
  ∃ leaf chain, authentic store (Z.max minimum (sv_minimum_readable_key_epoch store)) ctx id leaf chain ∧
    ap_matched_cut plan = cm_input_cut (am_manifest leaf) ∧
    ro_reference <$> ap_operations plan = chain_references chain.
Proof.
  intros Hb. unfold build_exact_manifest in Hb. inv_ok. rename x into chain, x0 into d.
  match goal with H : authenticate_chain _ _ _ _ _ = Ok _ |- _ => unfold authenticate_chain in H;
    apply bind_Ok in H as ([ch cache] & Hauth & ?) end. simplify_eq.
  destruct (authenticate_ok store (Z.max minimum (sv_minimum_readable_key_epoch store)) ctx VO id None ∅
    (coherent_empty _ _ _)) as [_ Hok].
  destruct (Hok _ _ Hauth) as (_ & leaf & Ha & _).
  match goal with H : chain_chunk_disposition _ _ = Ok _ |- _ => unfold chain_chunk_disposition in H;
    apply bind_Ok in H as ([d' cache'] & Hdis & ?) end. simplify_eq.
  pose proof (disposition_ok _ _ ∅ _ _ ltac:(intros k v; by rewrite lookup_empty) Hdis) as (_ & Hag & Hco & Ht). bools.
  match goal with H : cd_complete _ = true |- _ => pose proof (proj1 Hco H) as Hm end.
  match goal with H : plan_of_chain _ _ _ _ _ _ _ _ = Ok _, Hr : chain_resources _ = Ok _,
    Hl : validate_limits _ _ _ = Ok _ |- _ =>
    destruct (built_plan_ok store _ ctx _ _ _ _ _ _ _ _ _ _ Ha Hr Hl H) as (P1 & P2 & P3 & P4 & P5 & P6 & P7 & P8) end.
  split_and!; [done..| |].
  - apply list.Forall_forall. intros o Ho. rewrite (proj1 (list.Forall_forall _ _) P8 o Ho), Ht.
    assert (ro_reference o ∈ chain_references chain) as Hr by (rewrite <-P6; by apply list_elem_of_fmap_2).
    assert (cataloged store (ro_reference o)) as Hc%cataloged_split.
    { destruct (proj1 (list.Forall_forall _ _) Hag _ Hr). split_and!; [done..|].
      by apply (proj1 (list.Forall_forall _ _) Hm). }
    destruct (is_tombstoned store _) eqn:Et.
    + rewrite bool_decide_true; [done|]. apply elem_of_list_to_set, list_elem_of_filter. rewrite Et. split; [done|].
      by apply list_elem_of_fmap_2.
    + rewrite bool_decide_false; [done|]. intros [Hx _]%elem_of_list_to_set%list_elem_of_filter. by rewrite Et in Hx.
  - exists leaf, chain. split_and!; [done| |done].
    rewrite P5. destruct Ha as (_ & root & rest & -> & _ & HL).
    match goal with H : chain_leaf _ = Ok _ |- _ => unfold chain_leaf in H; rewrite (lf_last _ _ _ _ _ _ HL) in H end.
    by simplify_eq.
Qed.

(** ** Candidates *)
(** A local candidate describes a chain the store authenticates and serves. *)
Definition describes (scope : CandidateScope) (c : RestoreCandidate) : Prop :=
  rc_tenant_namespace c = sv_tenant_namespace store ∧ rc_tier c = Tier_Local ∧
  rc_semantic_id c = sc_semantic_id scope ∧ rc_family_id c = sc_family_id scope ∧ rc_minimum_key_epoch c =
    sc_minimum_key_epoch scope ∧
  sc_expected_cuts scope !! token_count (rc_matched_cut c) = Some (rc_matched_cut c) ∧
  ∃ id leaf chain d, rc_manifest_id c = Some id ∧ rc_source_identity c = Some id ∧
    authentic store (sc_minimum_key_epoch scope) ctx id leaf chain ∧
    authenticate_chain store id (sc_minimum_key_epoch scope) (Some (sc_semantic_id scope, sc_family_id scope,
      rc_matched_cut c)) ctx = Ok chain ∧
    chain_chunk_disposition store chain = Ok d ∧ cd_complete d = true ∧ chain_resources chain = Ok (rc_resources c) ∧
    last chain = Some leaf ∧ rc_chain_identity c = Some (chain_identity chain) ∧
    rc_tombstoned_chunks c = Z.of_nat (size (cd_tombstoned d)) ∧
    rc_restored_bytes c = rc_complete_restored_bytes (cm_realized_schema (am_manifest leaf)).
Definition cuts_indexed (scope : CandidateScope) : Prop := ∀ n cut, sc_expected_cuts scope !! n = Some cut →
  token_count cut = n.
Lemma local_candidates_ok scope hits manifests chunks cs : cuts_indexed scope →
  coherent store (sc_minimum_key_epoch scope) ctx manifests → avail_coherent store chunks →
  local_candidates store ctx scope hits manifests chunks = Ok cs → Forall (describes scope) cs.
Proof.
  intros Hci. revert manifests chunks cs. induction hits as [|hit hits IH]; intros manifests chunks cs Hm Hc Hl;
    cbn [local_candidates] in Hl; inv_ok; [subst; constructor|].
  rename x into cut.
  pose proof (authenticate_ok store (sc_minimum_key_epoch scope) ctx VO (hit_manifest_id hit)
    (Some (sc_semantic_id scope, sc_family_id scope, cut)) manifests Hm) as [_ Hok].
  pose proof (authenticate_cached store (sc_minimum_key_epoch scope) ctx (hit_manifest_id hit)
    (Some (sc_semantic_id scope, sc_family_id scope, cut)) manifests Hm) as Heq.
  destruct (authenticate_chain_cached _ _ _ _ _ _) as [[chain manifests']|e|m]; [| |done].
  2:{ destruct (is_not_found store e); [|done]. eauto. }
  destruct (Hok _ _ eq_refl) as (Hm' & leaf & Ha & Hmatch). apply bind_Ok in H0 as ([d chunks'] & Hd & Hl).
  pose proof (disposition_ok _ _ _ _ _ Hc Hd) as (Hc' & _). destruct (negb (cd_complete d)) eqn:Hcomp; [eauto|].
  bools. inv_ok. subst cs.
  constructor; [|eauto]. pose proof Ha as (_ & root & rest & -> & _ & HL).
  pose proof (lf_last _ _ _ _ _ _ HL) as Hlast. rewrite Hlast in *.
  match goal with H : expect (Some _) _ = Ok _ |- _ => injection H as <- end. cbn [fmap outcome_fmap fst] in Heq.
  repeat split; try done. { cbn. by rewrite (Hci _ _ H). }
  exists (hit_manifest_id hit), leaf, (root :: rest), d. cbn. split_and!; try done.
  exact (disposition_cached _ _ _ _ _ Hc Hd Hcomp).
Qed.
(** The plan of a described candidate. *)
Lemma described_build scope c limits : describes scope c → ∃ id leaf chain d,
  authentic store (sc_minimum_key_epoch scope) ctx id leaf chain ∧
  chain_resources chain = Ok (rc_resources c) ∧
  build store ctx c limits =
    _ ← validate_limits (rc_resources c) limits 1;
    plan_of_chain store id chain d (rc_resources c) limits (rc_matched_cut c) (rc_requested_cut c).
Proof.
  intros (Et & El & Es & Ef & Em & _ & id & leaf & chain & d & Eid & _ & Ha & Hauth & Hd & Hcomp & Hr & Hlast & Ech &
    Etb & Erb).
  exists id, leaf, chain, d. split_and!; [done..|]. unfold build.
  rewrite Et, bytes_eqb_refl, El, bool_decide_true by done. cbn [negb orb].
  rewrite Eid. cbn [ok_or mbind outcome_bind]. rewrite Es, Ef, Em, Hauth. cbn [mbind outcome_bind]. rewrite Hd.
  cbn [mbind outcome_bind].
  rewrite Hcomp. cbn [negb]. rewrite Hr. cbn [mbind outcome_bind]. rewrite Hlast. cbn [expect mbind outcome_bind].
  rewrite Ech, Etb, Erb, !bool_decide_true, !Z.eqb_refl by done. done.
Qed.
End building.

(** ** The cuts of a request *)
Lemma chunks_take {A} n i (l : list A) : (0 < n)%nat → chunks n (take (i * n) l) = take i (chunks n l).
Proof.
  intros Hn. revert l. induction i as [|i IH]; intros l; [done|].
  destruct (decide (l = [])) as [->|Hl]; [by rewrite take_nil|].
  rewrite (chunks_cons n Hn l) by done. rewrite (chunks_cons n Hn (take (S i * n) l)) by (destruct l, n; done || lia).
  rewrite firstn_cons, take_take, Nat.min_l by lia. f_equal. rewrite <-IH. f_equal. rewrite skipn_firstn_comm.
  f_equal. lia.
Qed.
Section cuts.
Context `{CL : CryptoLaws}.
(** A node of a request is the cut of the tokens it counts. *)
Lemma node_cut key tenant s f tokens auxs cut nodes i node : zlen tokens < u64_bound →
  derive_input_cut key tenant s f tokens auxs = Ok (cut, nodes) → nodes !! i = Some node →
  0 < pn_token_count node ≤ zlen tokens ∧
  ∃ nodes', derive_input_cut key tenant s f (take (Z.to_nat (pn_token_count node)) tokens) auxs =
    Ok (mkInputCutId (pn_id node) (auxiliary_input_root cut) (pn_token_count node), nodes').
Proof.
  intros Ht Hd Hi. apply derive_input_cut_Ok in Hd as (fam & aux & Hf & Haux & Hn & En & ->); [|done].
  cbn [auxiliary_input_root].
  set (context := hmac_sha256 key (context_message tenant s fam aux)) in *.
  set (parent := hmac_sha256 key (root_message context)) in *.
  assert (Z.of_nat i * PREFIX_BLOCK_TOKENS < zlen tokens) as Hib.
  { apply lookup_lt_Some in Hi. rewrite En, length_expected_nodes in Hi.
    pose proof (length_token_blocks tokens) as Hl.
    unfold div_ceil, PREFIX_BLOCK_TOKENS in *. assert (Z.of_nat i < (zlen tokens + 256 - 1) / 256) as Hlt by lia.
    clear -Hlt. Z.to_euclidean_division_equations. lia. }
  destruct (expected_nodes_lookup key context parent tokens 0 i) as [id Hid]; [done..|]. rewrite <-En, Hi in Hid.
  injection Hid as ->.
  cbn [pn_token_count pn_id]. set (count := Z.min _ _).
  assert (count = Z.min (Z.of_nat (S i) * PREFIX_BLOCK_TOKENS) (zlen tokens)) as Ec by (unfold count; f_equal; lia).
  clearbody count. split; [unfold PREFIX_BLOCK_TOKENS in *; pose proof (zlen_nonneg tokens); lia|].
  assert (take (Z.to_nat count) tokens = take (S i * Z.to_nat PREFIX_BLOCK_TOKENS) tokens) as Etake.
  { change (Z.to_nat PREFIX_BLOCK_TOKENS) with 256%nat. unfold PREFIX_BLOCK_TOKENS in Ec.
    destruct (decide (Z.of_nat (S i) * 256 ≤ zlen tokens)); [f_equal; lia|].
    rewrite !take_ge; [done|..]; unfold zlen in *; lia. }
  assert (zlen (take (Z.to_nat count) tokens) = count) as El by (unfold zlen in *; rewrite length_take;
    unfold PREFIX_BLOCK_TOKENS in *; lia).
  assert (prefix_context_root key tenant s f aux = Ok context) as Hc by (apply prefix_context_root_Ok; eauto).
  exists (take (S i) nodes). unfold derive_input_cut. rewrite Haux. cbn [mbind outcome_bind].
  assert (zlen (take (Z.to_nat count) tokens) < u64_bound) as Hlt by lia.
  rewrite (chain_prefix_nodes_eq _ _ _ _ _ _ _ Hlt Hc). cbn [mbind outcome_bind]. fold parent.
  assert (expected_nodes key context parent 0 (token_blocks (take (Z.to_nat count) tokens)) =
    take (S i) nodes) as Enodes.
  { rewrite Etake. unfold token_blocks in *. rewrite chunks_take by apply block_size_pos. rewrite En.
    rewrite <-(take_drop (S i) (chunks _ tokens)) at 2. rewrite expected_nodes_app, take_app_length'; [done|].
    rewrite length_expected_nodes, length_take. apply lookup_lt_Some in Hi. rewrite En, length_expected_nodes in Hi.
    lia. }
  rewrite Enodes. assert (list.last (take (S i) nodes) =
    Some (mkPrefixNode count id ((Z.of_nat i + 1) * PREFIX_BLOCK_TOKENS <=? zlen tokens))) as ->.
  { rewrite (take_S_r _ _ _ Hi), last_snoc. rewrite Ec. do 3 f_equal. lia. }
  cbn [mbind outcome_bind pn_id]. rewrite (proj2 (try_from_Some _ _ _)) by (split; [done|lia]).
  cbn [ok_or mbind outcome_bind]. unfold mret, outcome_ret. congruence.
Qed.
Lemma expected_cuts_node aux nodes n cut : expected_cuts aux nodes !! n = Some cut →
  ∃ i node, nodes !! i = Some node ∧ cut = mkInputCutId (pn_id node) aux (pn_token_count node) ∧ pn_token_count node =
    n.
Proof.
  unfold expected_cuts. induction nodes as [|node nodes IH] using rev_ind; [done|]. rewrite foldl_app. cbn [foldl].
  rewrite lookup_insert_Some.
  intros [[Hn <-]|[_ Hc]].
  - exists (length nodes), node. rewrite lookup_app_r, Nat.sub_diag by lia. done.
  - destruct (IH Hc) as (i & node' & Hi & E1 & E2). exists i, node'. split; [by apply lookup_app_l_Some|done].
Qed.
End cuts.

(** ** Ranking *)
#[export] Instance option_id_cmp_total {A} (f : A → option Id32) : TotalCmp (λ a b, option_id_cmp (f a) (f b)).
Proof.
  split.
  - intros a b. destruct (f a), (f b); try done. cbn. apply bytes_cmp_antisym.
  - intros a b c. destruct (f a) as [x|], (f b) as [y|], (f c) as [z|]; try done. cbn.
    apply (cmp_trans (cmp:=λ a b, bytes_cmp a b) x y z).
Qed.
#[export] Instance candidate_cmp_total : TotalCmp candidate_cmp.
Proof.
  unfold candidate_cmp. apply then_cmp_total; [|apply then_cmp_total; apply _]. split.
  - intros a b. apply Z.compare_antisym.
  - intros a b c. rewrite !Z.compare_ngt_iff. lia.
Qed.
#[export] Instance candidate_le_total : Total candidate_le.
Proof. intros a b. unfold candidate_le. rewrite (cmp_antisym (cmp:=candidate_cmp) a b).
  destruct (candidate_cmp a b); naive_solver. Qed.
#[export] Instance candidate_le_trans : Transitive candidate_le.
Proof. intros a b c. apply (cmp_trans (cmp:=candidate_cmp)). Qed.
Definition candidate_lt (a b : RestoreCandidate) : Prop := candidate_cmp a b = Lt.
Lemma lt_le_trans a b c : candidate_lt a b → candidate_le b c → candidate_lt a c.
Proof.
  unfold candidate_lt, candidate_le. intros Hab Hbc. destruct (candidate_cmp a c) eqn:E; [|done|].
  - exfalso. assert (candidate_cmp c a ≠ Gt) as Hca by by rewrite (cmp_antisym (cmp:=candidate_cmp) a c), E.
    apply (cmp_trans (cmp:=candidate_cmp) b c a Hbc) in Hca.
    by rewrite (cmp_antisym (cmp:=candidate_cmp) a b), Hab in Hca.
  - exfalso. apply (cmp_trans (cmp:=candidate_cmp) a b c) in Hbc; [done|]. by rewrite Hab.
Qed.
(** Candidates of one request with the same count have the same cut. *)
Definition in_scope (scope : CandidateScope) (c : RestoreCandidate) : Prop :=
  sc_expected_cuts scope !! token_count (rc_matched_cut c) = Some (rc_matched_cut c).
Lemma cmp_Eq_same scope a b : in_scope scope a → in_scope scope b → candidate_cmp a b = Eq → same_source b a = true.
Proof.
  unfold in_scope, candidate_cmp, then_cmp. intros Ha Hb. destruct (Z.compare _ _) eqn:E1; [|done..].
  apply Z.compare_eq in E1.
  destruct (Z.compare (tier_order _) _) eqn:E2; [|done..]. apply Z.compare_eq in E2. intros E3. unfold same_source.
  assert (rc_source_identity b = rc_source_identity a) as ->.
  { destruct (rc_source_identity a), (rc_source_identity b); cbn in E3; try done. by apply bytes_cmp_eq in E3 as ->. }
  rewrite E1, Ha in Hb. injection Hb as ->. rewrite !bool_decide_true; try done. by destruct (rc_tier a), (rc_tier b).
Qed.
Lemma dedup_strict scope kept l : in_scope scope kept → Forall (in_scope scope) l →
  StronglySorted candidate_le (kept :: l) →
  StronglySorted candidate_lt (kept :: dedup_from kept l) ∧ dedup_from kept l ⊆ l.
Proof.
  revert kept. induction l as [|c l IH]; intros kept Hk Hall Hs; [cbn; by repeat constructor|].
  apply Forall_cons in Hall as [Hc Hall]. apply StronglySorted_inv in Hs as [Hs Hle].
  apply Forall_cons in Hle as [Hkc Hkl]. cbn [dedup_from].
  destruct (same_source c kept) eqn:Es.
  - destruct (IH kept Hk Hall) as [H1 H2]; [|split; [done|set_solver]].
    constructor; [by apply StronglySorted_inv in Hs as [? _]|done].
  - destruct (IH c Hc Hall Hs) as [H1 H2]. assert (candidate_lt kept c) as Hlt.
    { unfold candidate_lt, candidate_le in *. destruct (candidate_cmp kept c) eqn:E; [|done..].
      rewrite (cmp_Eq_same scope) in Es; done. }
    split; [|set_solver]. constructor; [done|]. apply StronglySorted_inv in Hs as [_ Hcl]. constructor; [done|].
    apply list.Forall_forall. intros x Hx%H2. apply (lt_le_trans kept c x Hlt).
    by apply (proj1 (list.Forall_forall _ _) Hcl).
Qed.
Lemma StronglySorted_take {A} (R : A → A → Prop) n l : StronglySorted R l → StronglySorted R (take n l).
Proof.
  intros Hs. revert n. induction Hs as [|a l Hs IH Ha]; intros n; [by rewrite take_nil; constructor|].
  destruct n; [constructor|]. cbn. constructor; [done|].
  by apply Forall_take.
Qed.
Lemma rank_ok store scope maximum cs : 1 ≤ maximum → Forall (in_scope scope) cs →
  ∃ ranked, rank_candidates store scope maximum cs = ranked ++ [recompute_candidate store scope] ∧
    StronglySorted candidate_lt ranked ∧ ranked ⊆ cs ∧ zlen ranked ≤ maximum - 1.
Proof.
  intros Hm Hall. unfold rank_candidates. eexists. split; [done|].
  rewrite <-(merge_sort_Permutation candidate_le cs) in Hall.
  pose proof (StronglySorted_merge_sort candidate_le cs) as Hs.
  pose proof (merge_sort_Permutation candidate_le cs) as Hp.
  assert (StronglySorted candidate_lt (dedup_candidates (merge_sort candidate_le cs)) ∧
    dedup_candidates (merge_sort candidate_le cs) ⊆ cs) as [H1 H2].
  { destruct (merge_sort candidate_le cs) as [|c l]; cbn [dedup_candidates]; [split; [constructor|set_solver]|].
    apply Forall_cons in Hall as [Hc Hall]. destruct (dedup_strict scope c l Hc Hall Hs) as [H1 H2]. split; [done|].
    intros x Hx. rewrite <-Hp. set_solver. }
  split_and!; [by apply StronglySorted_take|intros x (i & Hi & _)%elem_of_take; apply H2;
    by eapply list_elem_of_lookup_2|].
  unfold zlen. rewrite length_take. lia.
Qed.

(** ** Whole requests *)
Section requests.
Context `{CL : CryptoLaws} (store : StoreView) (ctx : ValidationContext) (VO : view_ok store).
(** The cut is the one of a nonempty prefix of the requested tokens. *)
Definition prefix_cut (request : RestoreRequest) (cut : InputCutId) : Prop :=
  ∃ keys, sv_schedule store (sv_key_epoch store) = Ok keys ∧ 0 < token_count cut ≤ zlen (rr_input_tokens request) ∧
    ∃ nodes, derive_input_cut (ks_prefix keys) (sv_tenant_namespace store) (rr_semantic_model request) (rr_family
      request)
      (take (Z.to_nat (token_count cut)) (rr_input_tokens request)) (rr_auxiliary_inputs request) = Ok (cut, nodes).
Lemma scope_cuts request scope nodes n cut : zlen (rr_input_tokens request) < u64_bound →
  request_scope store request = Ok (scope, nodes) → sc_expected_cuts scope !! n = Some cut → token_count cut = n ∧
    prefix_cut request cut.
Proof.
  intros Ht Hs Hn. unfold request_scope in Hs. inv_ok. destruct x1 as [requested nodes']. inv_ok.
  destruct x1 as [zero zn]. inv_ok. simplify_eq.
  repeat match goal with H : of_pack _ = Ok _ |- _ => apply of_pack_Ok in H end. cbn [sc_expected_cuts] in Hn.
  apply expected_cuts_node in Hn as (i & node & Hi & -> & <-). split; [done|].
  match goal with H : derive_input_cut _ _ _ _ (rr_input_tokens request) _ =
    Ok _ |- _ => destruct (node_cut _ _ _ _ _ _ _ _ _ _ Ht H Hi) as [Hb [nodes'' Hd]] end.
  exists x0. split_and!; [done|apply Hb..|]. eauto.
Qed.
Lemma hints_in_scope scope sources : Forall (in_scope scope) (hint_candidates store scope sources).
Proof.
  unfold hint_candidates. apply list.Forall_forall. intros c (source & _ & Hc)%list_elem_of_omap.
  unfold hint_candidate in Hc.
  apply bind_Some in Hc as (c' & _ & Hc). destruct (hint_rejected scope c') eqn:Hr; [done|]. injection Hc as ->.
  unfold hint_rejected in Hr. bools. done.
Qed.
Lemma hints_not_local scope sources c : c ∈ hint_candidates store scope sources → rc_tier c ≠ Tier_Local.
Proof.
  intros (source & _ & Hc)%list_elem_of_omap. unfold hint_candidate in Hc. apply bind_Some in Hc as (c' & Hs & Hc).
  destruct (hint_rejected scope c'); [done|]. injection Hc as ->.
  destruct source; [|destruct (_ || _); [done|]]; by injection Hs as <-.
Qed.
Lemma candidates_ok request sources cs : zlen (rr_input_tokens request) < u64_bound →
  restore_candidates_with_sources store ctx request sources = Ok cs →
  ∃ scope nodes ranked, request_scope store request = Ok (scope, nodes) ∧ cs =
    ranked ++ [recompute_candidate store scope] ∧
    StronglySorted candidate_lt ranked ∧ zlen cs ≤ rr_maximum_candidates request ∧
    Forall (λ c, prefix_cut request (rc_matched_cut c) ∧
      (rc_tier c = Tier_Local → describes store ctx scope c)) ranked.
Proof.
  intros Ht Hc. unfold restore_candidates_with_sources in Hc. inv_ok. destruct x as [scope nodes]. inv_ok. bools.
  rename x into local.
  pose proof (scope_cuts request scope nodes) as Hcuts.
  match goal with H : local_candidates _ _ _ _ _ _ = Ok _ |- _ =>
    apply local_candidates_ok in H as Hl; [|done| |apply coherent_empty|intros k v; by rewrite lookup_empty] end.
  2:{ intros n cut Hn. by destruct (Hcuts n cut Ht ltac:(done) Hn). }
  destruct (rank_ok store scope (rr_maximum_candidates request) (local ++ hint_candidates store scope sources)) as
    (ranked & Er & Hs & Hsub & Hlen); [lia| |].
  { apply Forall_app. split; [|apply hints_in_scope]. eapply list.Forall_impl; [exact Hl|].
    intros c (_ & _ & _ & _ & _ & Hin & _). exact Hin. }
  exists scope, nodes, ranked. rewrite Er in *. subst cs. split_and!; [done..| |].
  { rewrite zlen_app. change (zlen [_]) with 1. lia. }
  apply list.Forall_forall. intros c Hin%Hsub%elem_of_app.
  assert (in_scope scope c ∧ (rc_tier c = Tier_Local → describes store ctx scope c)) as [Hscope Hd].
  { destruct Hin as [Hin|Hin].
    - pose proof (proj1 (list.Forall_forall _ _) Hl c Hin) as Hdes. split; [apply Hdes|done].
    - split; [by apply (proj1 (list.Forall_forall _ _) (hints_in_scope scope sources))|]. intros E.
      by apply hints_not_local in Hin. }
  split; [|done]. by destruct (Hcuts _ _ Ht ltac:(done) Hscope).
Qed.
End requests.
