(* ===== verification/RestoreParallel.v ===== *)
(** * Parallel restores (crates/kvpack/src/restore/plan.rs, restore_operations_parallel)

    Workers claim ordinals from a shared cursor, decode and send to a bounded
    channel; the caller's thread receives and writes.  A run is a sequence of
    actions chosen by the scheduler: a worker claims, works on what it claimed
    or sends what it holds, the receiver takes a result, somebody cancels.  A
    decoding that panics has no action; [io_ok] excludes it. *)
From Stdlib Require Import ZArith Lia.
From stdpp Require Import base tactics numbers list strings option sorting gmap.
From S2P Require Import Prelude Bytes Canonical Wire State Identity Manifest Frame Deps Validator.
From S2P Require Import ValidatorLaws Crypto Ids Chunk ChunkLaws Pack StorePolicy RestorePlan.
From S2P Require Import ScatterPlan RestorePins RestoreExec RestoreLaws RestorePlanes.

Notation Result := (bytes * RetainedPin + StoreError)%type.
Inductive Worker := Idle | Claimed (ordinal : nat) | Holding (ordinal : nat) (result : Result) | Stopped.
Inductive Action := Claim (worker : nat) | Work (worker : nat) | Send (worker : nat) | Receive | Cancel.
#[global] Instance action_eq_dec : EqDecision Action.
Proof. solve_decision. Defined.
Record ParallelState {S : Type} := mkParallel {
  pr_next : nat;
  pr_failed : bool;
  pr_cancelled : bool;
  pr_workers : list Worker;
  pr_channel : list (nat * Result);
  pr_pins : list (nat * RetainedPin);
  pr_error : option StoreError;
  pr_sink : S;
  pr_world : RestoreWorld
}.
Arguments ParallelState : clear implicits.
Arguments mkParallel {S} _ _ _ _ _ _ _ _ _.

Section parallel.
Context `{Crypto} `{PinCatalog} (io : RestoreIO) (plan : AuthenticatedRestorePlan) (pin_ids : list Id32) (parallelism : nat).
Context {S : Type} `{VerifiedRestoreSink S}.
Implicit Types (p : ParallelState S) (s : S) (w : RestoreWorld).
Definition total : nat := length (ap_operations plan).
Definition worker_count : nat := Nat.max (Nat.min parallelism total) 1.
Definition parallel_start s w : ParallelState S :=
  mkParallel 0 false false (replicate worker_count Idle) [] [] None s w.
Definition set_worker (i : nat) (v : Worker) p : ParallelState S :=
  mkParallel (pr_next p) (pr_failed p) (pr_cancelled p) (<[i := v]> (pr_workers p)) (pr_channel p) (pr_pins p)
    (pr_error p)
    (pr_sink p) (pr_world p).
Definition set_next (next : nat) p : ParallelState S :=
  mkParallel next (pr_failed p) (pr_cancelled p) (pr_workers p) (pr_channel p) (pr_pins p) (pr_error p) (pr_sink p)
    (pr_world p).
Definition set_world (w : RestoreWorld) p : ParallelState S :=
  mkParallel (pr_next p) (pr_failed p) (pr_cancelled p) (pr_workers p) (pr_channel p) (pr_pins p) (pr_error p)
    (pr_sink p) w.
Definition set_channel (channel : list (nat * Result)) p : ParallelState S :=
  mkParallel (pr_next p) (pr_failed p) (pr_cancelled p) (pr_workers p) channel (pr_pins p) (pr_error p) (pr_sink p)
    (pr_world p).
(** [next.fetch_add(1)] *)
Definition claim (i : nat) p : option (ParallelState S) :=
  match pr_workers p !! i with
  | Some Idle =>
      let ordinal := pr_next p in
      let p := set_next (1 + ordinal) p in
      Some (if (ordinal <? total)%nat then set_worker i (Claimed ordinal) p else set_worker i Stopped p)
  | _ => None
  end.
Definition work (i : nat) p : option (ParallelState S) :=
  match pr_workers p !! i with
  | Some (Claimed ordinal) =>
      operation ← ap_operations plan !! ordinal;
      pin_id ← pin_ids !! ordinal;
      if pr_cancelled p || pr_failed p then
        Some (set_worker i Stopped (set_world (release_retained_source_pins [pin_id] (pr_world p)).2 p))
      else
        match decode_operation io operation pin_id (pr_world p) with
        | (Ok decoded, w) => Some (set_worker i (Holding ordinal (inl decoded)) (set_world w p))
        | (Err e, w) => Some (set_worker i (Holding ordinal (inr e)) (set_world w p))
        | (Panic _, _) => None
        end
  | _ => None
  end.
(** A send waits for room in the channel; a worker stops after an error. *)
Definition send (i : nat) p : option (ParallelState S) :=
  match pr_workers p !! i with
  | Some (Holding ordinal result) =>
      if (parallelism <=? length (pr_channel p))%nat then None else
      let p := set_channel (pr_channel p ++ [(ordinal, result)]) p in
      Some (set_worker i (match result with inl _ => Idle | inr _ => Stopped end) p)
  | _ => None
  end.
Definition receive p : option (ParallelState S) :=
  match pr_channel p with
  | [] => None
  | (ordinal, inl (plaintext, pin)) :: channel =>
      operation ← ap_operations plan !! ordinal;
      let '(error, sink) :=
        match pr_error p with
        | Some e => (Some e, pr_sink p)
        | None =>
            if pr_cancelled p then (Some SCancelled, pr_sink p)
            else write_verified_chunk (ro_state_key operation) (ro_target_offset operation) plaintext (pr_sink p)
        end in
      Some (mkParallel (pr_next p) (pr_failed p ||
        bool_decide (is_Some error)) (pr_cancelled p) (pr_workers p) channel
              (pr_pins p ++ [(ordinal, pin)]) error sink (pr_world p))
  | (ordinal, inr e) :: channel =>
      Some (mkParallel (pr_next p) true (pr_cancelled p) (pr_workers p) channel (pr_pins p)
              (Some (default e (pr_error p))) (pr_sink p) (pr_world p))
  end.
Definition cancel p : ParallelState S :=
  mkParallel (pr_next p) (pr_failed p) true (pr_workers p) (pr_channel p) (pr_pins p) (pr_error p) (pr_sink p)
    (pr_world p).
Definition act (a : Action) p : option (ParallelState S) :=
  match a with
  | Claim i => claim i p
  | Work i => work i p
  | Send i => send i p
  | Receive => receive p
  | Cancel => Some (cancel p)
  end.
Fixpoint run_actions (actions : list Action) p : option (ParallelState S) :=
  match actions with
  | [] => Some p
  | a :: actions => p ← act a p; run_actions actions p
  end.
(** Every worker has returned and the channel is drained. *)
Definition is_stopped (v : Worker) : bool := match v with Stopped => true | _ => false end.
Definition finished p : bool := forallb is_stopped (pr_workers p) && bool_decide (pr_channel p = []).
Definition ordinal_le (a b : nat * RetainedPin) : Prop := (a.1 ≤ b.1)%nat.
#[export] Instance ordinal_le_dec a b : Decision (ordinal_le a b).
Proof. unfold ordinal_le. apply _. Defined.
(** What the call returns. *)
Definition finish p : sresult (list RetainedPin) * S * RestoreWorld :=
  let claimed := Nat.min (pr_next p) total in
  match pr_error p with
  | Some e => (Err e, pr_sink p, release_restore_pin_batch (pr_pins p).*2 (drop claimed pin_ids) (pr_world p))
  | None => (Ok (merge_sort ordinal_le (pr_pins p)).*2, pr_sink p, pr_world p)
  end.
End parallel.
(** The results a call may return, by the schedule it gets. *)
Definition restore_operations_parallel `{Crypto} `{PinCatalog} (io : RestoreIO) (plan : AuthenticatedRestorePlan) {S}
  `{VerifiedRestoreSink S}
    (entropy : nat → option Id32) (parallelism : nat) (actions : list Action) (s : S) (w : RestoreWorld)
    : option (sresult (list RetainedPin) * S * RestoreWorld) :=
  match pin_chunks_batch io (operation_references plan) entropy w with
  | (Err e, w) => Some (Err e, s, w)
  | (Panic m, w) => Some (Panic m, s, w)
  | (Ok pin_ids, w) =>
      p ← run_actions io plan pin_ids parallelism actions (parallel_start plan parallelism s w);
      if finished p then Some (finish plan pin_ids p) else None
  end.
(** A schedule that does not finish is no call: it has no result. *)
Definition restore_parallel `{Crypto} `{PinCatalog} (io : RestoreIO) (plan : AuthenticatedRestorePlan) {S} `{VerifiedRestoreSink S}
    (draw : option Id32) (entropy : nat → option Id32) (parallelism : nat) (actions : list Action)
    (cancelled_before cancelled_after : bool) (s : S) (w : RestoreWorld) : sresult InstalledRestore * S * RestoreWorld
      :=
  if (parallelism <? 2)%nat then (Err (SExpectation "parallel restore requires at least two tasks"), s, w) else
  restore plan
    (λ s w, default (Panic "unfinished schedule", s,
      w) (restore_operations_parallel io plan entropy parallelism actions s w))
    draw (Z.of_nat parallelism) cancelled_before cancelled_after s w.

(** * Laws of parallel restores

    Whatever the schedule: an ordinal is unclaimed, in the hands of one
    worker, in the channel, retained or released, and never two of these; a
    failed run releases every pin; an uncancelled run that succeeds returns
    the pins of the sequential one and has written every chunk once. *)
(** ** Where the ordinals are *)
Definition worker_live (v : Worker) : list nat :=
  match v with Claimed o => [o] | Holding o (inl _) => [o] | _ => [] end.
Definition worker_errs (v : Worker) : list nat := match v with Holding o (inr _) => [o] | _ => [] end.
Definition entry_live (e : nat * Result) : list nat := match e.2 with inl _ => [e.1] | inr _ => [] end.
Definition entry_errs (e : nat * Result) : list nat := match e.2 with inl _ => [] | inr _ => [e.1] end.
Lemma bind_update {A B} (f : A → list B) (l : list A) i v : l !! i = Some v →
  ∃ rest, l ≫= f ≡ₚ f v ++ rest ∧ ∀ v', <[i := v']> l ≫= f ≡ₚ f v' ++ rest.
Proof.
  intros Hi. exists ((take i l ≫= f) ++ (drop (S i) l ≫= f)). split.
  - rewrite <-(take_drop_middle l i v Hi) at 1. rewrite bind_app, bind_cons. solve_Permutation.
  - intros v'. rewrite insert_take_drop by (by eapply lookup_lt_Some). rewrite bind_app, bind_cons. solve_Permutation.
Qed.

Lemma omap_seq {A} (l : list A) : omap (λ o, l !! o) (seq 0 (length l)) = l.
Proof.
  induction l as [|x l IH]; [done|]. cbn [length seq]. rewrite <-fmap_S_seq. cbn. f_equal. rewrite <-IH at 2.
  generalize (seq 0 (length l)). induction l0 as [|o l0 IH0]; [done|]. cbn. by rewrite IH0.
Qed.
Lemma replay_app {T} `{VerifiedRestoreSink T} a b (s : T) :
  replay (a ++ b) s = match replay a s with (None, s) => replay b s | (Some e, s) => (Some e, s) end.
Proof. revert s. induction a as [|c a IH]; intros s; [done|]. cbn.
  destruct (write_verified_chunk _ _ _ _) as [[e|] s1]; [done|]. apply IH. Qed.
Section parallel.
Context `{CL : CryptoLaws} `{PC : PinCatalog} (io : RestoreIO) (IO : io_ok io).
Context (plan : AuthenticatedRestorePlan) (ids : list Id32) (parallelism : nat).
Context {T : Type} `{VerifiedRestoreSink T} (s0 : T) (P : gset Id32) (holds : gmap Id32 RestoreHold).
Context (IDS : length ids = total plan) (NDI : NoDup ids) (DIS : list_to_set ids ## P).
Implicit Types (p : ParallelState T) (o : nat) (l : list nat).
Notation ops := (ap_operations plan).
Notation total := (total plan).

Definition unclaimed p : list nat := seq (pr_next p) (total - pr_next p).
Definition live p : list nat :=
  unclaimed p ++ (pr_workers p ≫= worker_live) ++ (pr_channel p ≫= entry_live) ++ (pr_pins p).*1.
Definition errs p : list nat := (pr_workers p ≫= worker_errs) ++ (pr_channel p ≫= entry_errs).
Definition rows l : gset Id32 := list_to_set (omap (λ o, ids !! o) l).
Definition result_ok o (r : Result) : Prop :=
  match r with
  | inl (plaintext, pin) => ∃ op id, ops !! o = Some op ∧ ids !! o = Some id ∧ fetch io op = Ok plaintext ∧
      pin = mkRetainedPin id (cr_object_bytes (ro_reference op))
  | inr _ => True
  end.
Definition worker_ok (v : Worker) : Prop := match v with Holding o r => result_ok o r | _ => True end.
(** The chunk of a retained ordinal. *)
Definition written (e : nat * RetainedPin) (c : StagedChunk) : Prop :=
  ∃ op, ops !! e.1 = Some op ∧ fetch io op = Ok (st_plaintext c) ∧ st_state c = ro_state_key op ∧ st_offset c =
    ro_target_offset op.
Record parallel_inv p : Prop := {
  pi_nodup : NoDup (live p);
  pi_range : Forall (λ o, (o < total)%nat) (live p);
  pi_rows : rows (live p) ∪ P ⊆ rw_pins (pr_world p) ∧ rw_pins (pr_world p) ⊆ list_to_set ids ∪ P ∧
    (deletions_succeed → rw_pins (pr_world p) = rows (live p) ∪ P);
  pi_holds : rw_holds (pr_world p) = holds;
  pi_workers : Forall worker_ok (pr_workers p);
  pi_channel : Forall (λ e, result_ok e.1 e.2) (pr_channel p);
  pi_pins : Forall (λ e, ∃ b, result_ok e.1 (inl (b, e.2))) (pr_pins p);
  pi_failed : pr_failed p = true → is_Some (pr_error p);
  pi_all : pr_cancelled p = false → pr_error p = None → live p ++ errs p ≡ₚ seq 0 total;
  pi_stop : Stopped ∈ pr_workers p → pr_cancelled p = false → pr_error p = None →
    (total ≤ pr_next p)%nat ∨ (pr_channel p ≫= entry_errs) ≠ [];
  pi_sink : pr_error p = None → ∃ chunks, Forall2 written (pr_pins p) chunks ∧ replay chunks s0 = (None, pr_sink p)
}.
Lemma claimed_rows_perm l l' : l ≡ₚ l' → rows l = rows l'.
Proof. intros Hp. unfold rows. apply set_eq. intros x. rewrite !elem_of_list_to_set, Hp. done. Qed.
Lemma rows_cons o l id : ids !! o = Some id → rows (o :: l) = {[id]} ∪ rows l.
Proof. intros Hid. unfold rows. cbn. by rewrite Hid. Qed.
Lemma rows_remove o l id : NoDup (o :: l) → ids !! o = Some id → (rows (o :: l) ∪ P) ∖ {[id]} = rows l ∪ P.
Proof.
  intros [Ho _]%NoDup_cons Hid. unfold rows. cbn. rewrite Hid. cbn.
  assert (id ∉ P) by (intros Hin; apply (DIS id); [apply elem_of_list_to_set; by eapply list_elem_of_lookup_2|done]).
  assert (id ∉ omap (λ o, ids !! o) l).
  { intros (o' & Hin & Ho')%list_elem_of_omap. apply Ho. by rewrite (NoDup_lookup _ _ _ _ NDI Hid Ho'). }
  set_solver.
Qed.
Lemma start_inv w : rw_pins w = list_to_set ids ∪ P → rw_holds w = holds →
  parallel_inv (parallel_start plan parallelism s0 w).
Proof.
  intros Hp Hh. assert ((replicate (worker_count plan parallelism) Idle ≫= worker_live) =
    []) as E1 by (generalize (worker_count plan parallelism); induction n; done).
  assert ((replicate (worker_count plan parallelism) Idle ≫= worker_errs) =
    []) as E2 by (generalize (worker_count plan parallelism); induction n; done).
  assert (live (parallel_start plan parallelism s0 w) = seq 0 total) as El.
  { unfold live, unclaimed. cbn. by rewrite E1, Nat.sub_0_r, app_nil_r. }
  split; rewrite ?El; try done.
  - apply NoDup_seq.
  - apply list.Forall_forall. intros o Ho%elem_of_seq. lia.
  - cbn. rewrite Hp. assert (rows (seq 0 total) = list_to_set ids) as ->; [|by split_and!].
    unfold rows. apply set_eq. intros x. rewrite !elem_of_list_to_set, list_elem_of_omap. split.
    + intros (i & _ & Hi). by eapply list_elem_of_lookup_2.
    + intros [i Hi]%list_elem_of_lookup_1. exists i. split; [|done]. apply elem_of_seq. apply lookup_lt_Some in Hi.
      lia.
  - cbn. by apply Forall_replicate.
  - intros _ _. unfold errs. cbn. by rewrite E2, app_nil_r.
  - cbn. by intros [? _]%elem_of_replicate.
  - intros _. exists []. split; [constructor|done].
Qed.
(** An action that keeps the live ordinals, the errors and the result. *)
Lemma inv_keep p p' : parallel_inv p → live p' ≡ₚ live p → pr_world p' = pr_world p → pr_error p' = pr_error p →
  pr_failed p' = pr_failed p → pr_pins p' = pr_pins p → pr_sink p' = pr_sink p →
  Forall worker_ok (pr_workers p') → Forall (λ e, result_ok e.1 e.2) (pr_channel p') →
  (pr_cancelled p' = false → pr_cancelled p = false ∧ errs p' ≡ₚ errs p ∧
    (Stopped ∈ pr_workers p' → pr_error p = None → (total ≤ pr_next p')%nat ∨ (pr_channel p' ≫= entry_errs) ≠ [])) →
  parallel_inv p'.
Proof.
  intros [I1 I2 I3 I4 I5 I6 I7 I8 I9 I10 I11] El Ew Ee Ef Ep Es Hw Hc Hk.
  split; rewrite ?Ew, ?Ee, ?Ef, ?Ep, ?Es, ?El; try done.
  - by rewrite (claimed_rows_perm _ _ El).
  - intros Hcan Herr. destruct (Hk Hcan) as (Hcan' & Her & _). rewrite Her. by apply I9.
  - intros Hst Hcan Herr. by apply (Hk Hcan).
Qed.
Lemma claim_inv i p p' : parallel_inv p → claim plan i p = Some p' → parallel_inv p'.
Proof.
  intros Inv Hc. unfold claim in Hc. destruct (pr_workers p !! i) as [[]|] eqn:Hi; try done. injection Hc as <-.
  destruct (bind_update worker_live _ _ _ Hi) as (rl & El & Ul).
  destruct (bind_update worker_errs _ _ _ Hi) as (re & Ee & Ue).
  destruct (pr_next p <? total)%nat eqn:Hlt; [apply Nat.ltb_lt in Hlt|apply Nat.ltb_ge in Hlt].
  - apply (inv_keep p); try done.
    + unfold live, unclaimed. cbn. rewrite El, Ul.
      replace (total - pr_next p)%nat with (1 + (total - (1 + pr_next p)))%nat by lia.
      rewrite seq_app. cbn. replace (pr_next p + 1)%nat with (1 + pr_next p)%nat by lia. solve_Permutation.
    + cbn. apply Forall_insert; [apply (pi_workers _ Inv)|done].
    + apply (pi_channel _ Inv).
    + intros Hcan. split_and!; [done|unfold errs; cbn; by rewrite Ee, Ue|]. cbn. intros Hst Herr.
      assert (Stopped ∈ pr_workers p) as Hin.
      { apply list_elem_of_lookup_1 in Hst as [j Hj].
        destruct (decide (i = j)) as [->|]; [|rewrite list_lookup_insert_ne in Hj by done;
          by eapply list_elem_of_lookup_2].
        rewrite list_lookup_insert_eq in Hj by (by eapply lookup_lt_Some). done. }
      destruct (pi_stop _ Inv Hin Hcan Herr); [left; lia|by right].
  - apply (inv_keep p); try done.
    + unfold live, unclaimed. cbn. rewrite El, Ul. replace (total - pr_next p)%nat with 0%nat by lia.
      replace (total - S (pr_next p))%nat with 0%nat by lia. done.
    + cbn. apply Forall_insert; [apply (pi_workers _ Inv)|done].
    + apply (pi_channel _ Inv).
    + intros Hcan. split_and!; [done|unfold errs; cbn; by rewrite Ee, Ue|]. cbn. left. lia.
Qed.
Lemma stopped_insert i v (ws : list Worker) : Stopped ∈ <[i := v]> ws → v ≠ Stopped → Stopped ∈ ws.
Proof.
  intros Hst Hv. apply list_elem_of_lookup_1 in Hst as [j Hj].
  destruct (decide (i = j ∧ (j < length ws)%nat)) as [[-> Hl]|Hn].
  - rewrite list_lookup_insert_eq in Hj by done. congruence.
  - destruct (decide (i = j)) as [->|]; [rewrite list_insert_ge in Hj by lia|rewrite list_lookup_insert_ne in Hj by
      done]; by eapply list_elem_of_lookup_2.
Qed.
Lemma send_inv i p p' : parallel_inv p → send parallelism i p = Some p' → parallel_inv p'.
Proof.
  intros Inv Hs. unfold send in Hs. destruct (pr_workers p !! i) as [[|?|o r|]|] eqn:Hi; try done.
  destruct (_ <=? _)%nat; [done|]. injection Hs as <-.
  destruct (bind_update worker_live _ _ _ Hi) as (rl & El & Ul).
  destruct (bind_update worker_errs _ _ _ Hi) as (re & Ee & Ue).
  pose proof (Forall_lookup_1 _ _ _ _ (pi_workers _ Inv) Hi) as Hr. cbn in Hr. apply (inv_keep p); try done.
  - unfold live, unclaimed. cbn. rewrite bind_app, El, Ul. cbn. destruct r as [[b pin]|e]; cbn; solve_Permutation.
  - cbn. apply Forall_insert; [apply (pi_workers _ Inv)|by destruct r].
  - cbn. apply Forall_app. split; [apply (pi_channel _ Inv)|by constructor].
  - intros Hcan. split_and!; [done| |].
    + unfold errs. cbn. rewrite bind_app, Ee, Ue. cbn. destruct r as [[b pin]|e]; cbn; solve_Permutation.
    + cbn. intros Hst Herr. rewrite bind_app. cbn. destruct r as [[b pin]|e]; cbn.
      * apply stopped_insert in Hst; [|done]. rewrite app_nil_r. by apply (pi_stop _ Inv).
      * right. by destruct (pr_channel p ≫= entry_errs).
Qed.
Lemma cancel_inv p : parallel_inv p → parallel_inv (cancel p).
Proof. intros Inv. apply (inv_keep p); try done; apply Inv. Qed.
(** An action that releases the pin of one live ordinal. *)
Lemma inv_release p p' o l id : parallel_inv p → live p ≡ₚ o :: l → live p' ≡ₚ l → ids !! o = Some id →
  released [id] (pr_world p) (pr_world p') → pr_error p' = pr_error p →
  pr_failed p' = pr_failed p → pr_pins p' = pr_pins p → pr_sink p' = pr_sink p →
  Forall worker_ok (pr_workers p') → Forall (λ e, result_ok e.1 e.2) (pr_channel p') →
  (pr_cancelled p' = false → pr_error p = None → pr_cancelled p = false ∧ errs p' ≡ₚ o :: errs p ∧
    (Stopped ∈ pr_workers p' → (total ≤ pr_next p')%nat ∨ (pr_channel p' ≫= entry_errs) ≠ [])) →
  parallel_inv p'.
Proof.
  intros [I1 I2 I3 I4 I5 I6 I7 I8 I9 I10 I11] El El' Hid Ew Ee Ef Ep Es Hw Hc Hk. rewrite El in I1, I2.
  split; rewrite ?Ee, ?Ef, ?Ep, ?Es, ?El'; try done.
  - by apply NoDup_cons in I1 as [_ ?].
  - by apply Forall_cons in I2 as [_ ?].
  - rewrite (claimed_rows_perm _ _ El'). rewrite (claimed_rows_perm _ _ El) in I3. destruct I3 as (J1 & J2 & J3).
    destruct Ew as [_ W2 W3 W4]. cbn in W2, W4. pose proof (rows_remove o l id I1 Hid) as Hrem.
    split_and!; [set_solver|set_solver|]. intros Hd.
    rewrite W4, J3 by (done || (unfold zlen, MAX_RELEASED_PINS; cbn; lia)). set_solver.
  - by rewrite (re_holds _ _ _ Ew).
  - intros Hcan Herr. destruct (Hk Hcan Herr) as (Hcan' & Her & _). rewrite Her, <-(I9 Hcan' Herr), El.
    solve_Permutation.
  - intros Hst Hcan Herr. by apply (Hk Hcan Herr).
Qed.
Lemma work_inv i p p' : parallel_inv p → work io plan ids i p = Some p' → parallel_inv p'.
Proof.
  intros Inv Hw. unfold work in Hw. destruct (pr_workers p !! i) as [[|o|?|]|] eqn:Hi; try done.
  destruct (ops !! o) as [op|] eqn:Hop; [|done]. destruct (ids !! o) as [id|] eqn:Hid; [|done].
  cbn [mbind option_bind] in Hw.
  destruct (bind_update worker_live _ _ _ Hi) as (rl & El & Ul).
  destruct (bind_update worker_errs _ _ _ Hi) as (re & Ee & Ue).
  set (rest := unclaimed p ++ rl ++ (pr_channel p ≫= entry_live) ++ (pr_pins p).*1).
  assert (live p ≡ₚ o :: rest) as Hl by (unfold live, rest; rewrite El; cbn; solve_Permutation).
  assert (∀ v w, worker_live v = [] → live (set_worker i v (set_world w p)) ≡ₚ rest) as Hl'.
  { intros v w Hv. unfold live, rest, unclaimed. cbn. rewrite Ul, Hv. done. }
  destruct (pr_cancelled p || pr_failed p) eqn:Hcf.
  { injection Hw as <-.
    apply (inv_release p _ o rest id); try done; try apply Hl'; try done.
    - apply release_source_pins_ok.
    - cbn. apply Forall_insert; [apply (pi_workers _ Inv)|done].
    - apply (pi_channel _ Inv).
    - cbn. intros Hcan Herr. rewrite Hcan in Hcf. apply (pi_failed _ Inv) in Hcf as [? ?]. congruence. }
  rewrite decode_operation_fetch in Hw. destruct (fetch io op) as [plaintext|e|m] eqn:Hf; [| |done];
    injection Hw as <-.
  - apply (inv_keep p); try done.
    + unfold live, unclaimed. cbn. rewrite El, Ul. done.
    + cbn. apply Forall_insert; [apply (pi_workers _ Inv)|]. cbn. eauto 10.
    + apply (pi_channel _ Inv).
    + intros Hcan. split_and!; [done|unfold errs; cbn; by rewrite Ee, Ue|]. cbn. intros Hst Herr.
      apply stopped_insert in Hst; [|done].
      by apply (pi_stop _ Inv).
  - apply (inv_release p _ o rest id); try done; try (by apply Hl').
    + by apply fetch_release_ok.
    + cbn. apply Forall_insert; [apply (pi_workers _ Inv)|done].
    + apply (pi_channel _ Inv).
    + cbn. intros Hcan Herr. split_and!; [done|unfold errs; cbn; rewrite Ee, Ue; cbn; solve_Permutation|].
      intros Hst. apply stopped_insert in Hst; [|done]. by apply (pi_stop _ Inv).
Qed.
Lemma receive_inv p p' : parallel_inv p → receive plan p = Some p' → parallel_inv p'.
Proof.
  intros Inv Hr. unfold receive in Hr. destruct (pr_channel p) as [|[o [[b pin]|e]] channel] eqn:Hch; [done| |].
  - destruct (ops !! o) as [op|] eqn:Hop; [|done]. cbn [mbind option_bind] in Hr.
    set (out := match pr_error p with Some e => _ | None => _ end) in Hr. destruct out as [error sink] eqn:Eout.
    injection Hr as <-.
    pose proof (pi_channel _ Inv) as Hc. rewrite Hch in Hc. apply Forall_cons in Hc as [Hr Hc]. cbn [fst snd] in Hr.
    set (p' := mkParallel _ _ _ _ _ _ _ _ _).
    assert (live p' ≡ₚ live p) as El by (unfold live, unclaimed; cbn; rewrite Hch, fmap_app; cbn; solve_Permutation).
    assert (errs p' = errs p) as Eer by (unfold errs; cbn; by rewrite Hch).
    assert (error = None → pr_error p = None ∧ pr_cancelled p = false ∧
      write_verified_chunk (ro_state_key op) (ro_target_offset op) b (pr_sink p) = (None, sink)) as Hnone.
    { intros ->. unfold out in Eout. destruct (pr_error p); [done|]. by destruct (pr_cancelled p). }
    destruct Inv as [I1 I2 I3 I4 I5 I6 I7 I8 I9 I10 I11]. split; rewrite ?El, ?Eer; try done.
    + by rewrite (claimed_rows_perm _ _ El).
    + cbn. apply Forall_app. split; [done|]. constructor; [by exists b|done].
    + cbn. intros [Hf|Hb]%orb_true_iff; [|by bools]. destruct (I8 Hf) as [x Hx]. unfold out in Eout.
      rewrite Hx in Eout. injection Eout as <- _. eauto.
    + cbn. intros Hcan (Herr & _)%Hnone. by apply I9.
    + cbn. intros Hst Hcan (Herr & _)%Hnone. specialize (I10 Hst Hcan Herr). by rewrite Hch in I10.
    + cbn. intros (Herr & _ & Hw)%Hnone. destruct (I11 Herr) as (chunks & Hall & Hrep).
      exists (chunks ++ [mkStagedChunk (ro_state_key op) (ro_target_offset op) b]).
      split; [apply Forall2_app; [done|]|].
      * constructor; [|constructor]. destruct Hr as (op' & id & E1 & _ & E3 & _). rewrite Hop in E1.
        injection E1 as <-. exists op. done.
      * rewrite replay_app, Hrep. cbn. by rewrite Hw.
  - injection Hr as <-. destruct Inv as [I1 I2 I3 I4 I5 I6 I7 I8 I9 I10 I11].
    set (p' := mkParallel _ _ _ _ _ _ _ _ _).
    rewrite Hch in I6. apply Forall_cons in I6 as [_ I6].
    assert (live p' = live p) as El by (unfold live, unclaimed; cbn; by rewrite Hch).
    split; rewrite ?El; try done; cbn; eauto; done.
Qed.
Lemma act_inv a p p' : parallel_inv p → act io plan ids parallelism a p = Some p' → parallel_inv p'.
Proof.
  intros Inv Ha. destruct a; cbn in Ha; [by eapply claim_inv|by eapply work_inv|by eapply send_inv|by eapply
    receive_inv|].
  injection Ha as <-. by apply cancel_inv.
Qed.
Lemma run_inv actions p p' : parallel_inv p → run_actions io plan ids parallelism actions p = Some p' →
  parallel_inv p'.
Proof.
  revert p. induction actions as [|a actions IH]; intros p Inv Hr; cbn in Hr; [by injection Hr as <-|].
  apply bind_Some in Hr as (p1 & Ha & Hr). apply (IH p1); [by eapply act_inv|done].
Qed.
Lemma act_cancelled a p p' : act io plan ids parallelism a p = Some p' → a ≠ Cancel → pr_cancelled p' =
  pr_cancelled p.
Proof.
  intros Ha Hn. destruct a as [i|i|i| |]; cbn in Ha; [..|done].
  - unfold claim in Ha. destruct (pr_workers p !! i) as [[]|]; try done. injection Ha as <-. by destruct (_ <? _)%nat.
  - unfold work in Ha. destruct (pr_workers p !! i) as [[]|]; try done. apply bind_Some in Ha as (op & _ & Ha).
    apply bind_Some in Ha as (id & _ & Ha).
    destruct (_ || _); [by injection Ha as <-|].
    destruct (decode_operation _ _ _ _) as [[]]; try done; by injection Ha as <-.
  - unfold send in Ha. destruct (pr_workers p !! i) as [[]|]; try done. destruct (_ <=? _)%nat; [done|].
    by injection Ha as <-.
  - unfold receive in Ha. destruct (pr_channel p) as [|[o [[b pin]|e]] channel]; [done| |by injection Ha as <-].
    apply bind_Some in Ha as (op & _ & Ha). destruct (match pr_error p with Some e => _ | None => _ end).
    by injection Ha as <-.
Qed.
Lemma run_uncancelled actions p p' : run_actions io plan ids parallelism actions p = Some p' → Cancel ∉ actions →
  pr_cancelled p = false →
  pr_cancelled p' = false.
Proof.
  revert p. induction actions as [|a actions IH]; intros p Hr Hn Hc; cbn in Hr; [by injection Hr as <-|].
  apply not_elem_of_cons in Hn as [Ha Hn]. apply bind_Some in Hr as (p1 & Hact & Hr). apply (IH p1 Hr Hn).
  by rewrite (act_cancelled _ _ _ Hact).
Qed.
(** ** The end of a run *)
Lemma finished_live p : finished p = true → live p = unclaimed p ++ (pr_pins p).*1 ∧ errs p = [] ∧ pr_channel p = [] ∧
  Forall (λ v, v = Stopped) (pr_workers p).
Proof.
  unfold finished. intros Hf. bools. match goal with H : pr_channel p = [] |- _ => rename H into Hc end.
  assert (Forall (λ v, v = Stopped) (pr_workers p)) as Hw.
  { apply list.Forall_forall. intros v Hv.
    match goal with H : forallb _ _ = true |- _ => rewrite forallb_forall in H; specialize (H v) end.
    rewrite <-list_elem_of_In in *. destruct v; naive_solver. }
  assert (∀ f : Worker → list nat, f Stopped = [] → pr_workers p ≫= f = []) as Hb.
  { intros f Hs. induction Hw as [|v ws -> _ IH]; [done|]. by rewrite bind_cons, Hs, IH. }
  unfold live, errs. by rewrite Hc, !Hb.
Qed.
Lemma rows_drop p : rows (unclaimed p) = list_to_set (drop (Nat.min (pr_next p) total) ids).
Proof.
  unfold rows, unclaimed. apply set_eq. intros x. rewrite !elem_of_list_to_set, list_elem_of_omap. split.
  - intros (o & Ho%elem_of_seq & Hx). apply list_elem_of_lookup. exists (o - pr_next p)%nat. rewrite lookup_drop.
    rewrite <-Hx. f_equal. lia.
  - intros [i Hi]%list_elem_of_lookup_1. rewrite lookup_drop in Hi. eexists. split; [|exact Hi].
    apply lookup_lt_Some in Hi. apply elem_of_seq. lia.
Qed.
Lemma rows_pins p : parallel_inv p → rows (pr_pins p).*1 = list_to_set (rt_pin_id <$> (pr_pins p).*2).
Proof.
  intros Inv. pose proof (pi_pins _ Inv) as Hp. unfold rows.
  induction Hp as [|[o pin] pins (b & op & id & _ & Hid & _ & Epin) _ IH]; [done|].
  cbn in *. subst pin. rewrite Hid. cbn. by rewrite IH.
Qed.
Lemma rows_app l l' : rows (l ++ l') = rows l ∪ rows l'.
Proof. unfold rows. by rewrite omap_app, list_to_set_app_L. Qed.
Lemma rows_subset l : rows l ⊆ list_to_set ids.
Proof.
  intros x. unfold rows. rewrite !elem_of_list_to_set, list_elem_of_omap. intros (o & _ & Ho).
  by eapply list_elem_of_lookup_2.
Qed.
Lemma finished_length p : parallel_inv p → finished p = true →
  zlen ((rt_pin_id <$> (pr_pins p).*2) ++ drop (Nat.min (pr_next p) total) ids) ≤ Z.of_nat total.
Proof.
  intros Inv Hf. destruct (finished_live p Hf) as (El & _). pose proof (pi_nodup _ Inv) as Hnd. rewrite El in Hnd.
  apply NoDup_app in Hnd as (_ & Hx & Hnd). pose proof (pi_range _ Inv) as Hrg. rewrite El in Hrg.
  apply Forall_app in Hrg as [_ Hrg].
  assert (length (pr_pins p).*1 ≤ Nat.min (pr_next p) total)%nat as Hl.
  { rewrite <-(length_seq (Nat.min (pr_next p) total) 0). apply submseteq_length, NoDup_submseteq; [done|].
    intros o Ho. apply elem_of_seq. pose proof (proj1 (list.Forall_forall _ _) Hrg o Ho) as Hot. cbn in Hot.
    destruct (decide (pr_next p ≤ o)%nat); [|lia]. exfalso. apply (Hx o); [|done]. apply elem_of_seq. lia. }
  unfold zlen. rewrite length_app, !length_fmap, length_drop in *. lia.
Qed.
(** A run that failed has released every pin, as far as the catalog lets it. *)
Lemma finish_failed p e w : parallel_inv p → finished p = true → pr_error p = Some e → rw_pins w = P →
  rw_holds w = holds → ∃ w', finish plan ids p = (Err e, pr_sink p, w') ∧
  spared (list_to_set ids) (deletions_succeed ∧ Z.of_nat total ≤ MAX_RELEASED_PINS) w w'.
Proof.
  intros Inv Hf He Hw Hh. destruct (finished_live p Hf) as (El & _). unfold finish. rewrite He. eexists.
  split; [reflexivity|].
  pose proof (release_batch_ok (pr_pins p).*2 (drop (Nat.min (pr_next p) total) ids) (pr_world p)) as [R1 R2 R3 R4].
  destruct (pi_rows _ Inv) as (J1 & J2 & J3). rewrite El, rows_app in J1, J3.
  pose proof (rows_subset (unclaimed p)) as Hs1. pose proof (rows_subset (pr_pins p).*1) as Hs2.
  rewrite list_to_set_app_L, <-rows_drop, <-(rows_pins p Inv) in R2, R4. rewrite <-Hw in *.
  split; [by rewrite R1, (pi_holds _ Inv)|set_solver|set_solver|]. intros [Hd Hm].
  rewrite <-(world_eta w), <-(world_eta (release_restore_pin_batch _ _ _)), R1, (pi_holds _ Inv), Hh. f_equal.
  rewrite R4, J3 by (done || (etrans; [by apply finished_length|done])). set_solver.
Qed.
(** *** Success *)
Lemma finished_complete p : parallel_inv p → finished p = true → pr_workers p ≠ [] → pr_cancelled p = false →
  pr_error p = None →
  (pr_pins p).*1 ≡ₚ seq 0 total ∧ rows (live p) = list_to_set ids.
Proof.
  intros Inv Hf Hw Hc He. destruct (finished_live p Hf) as (El & Eer & Ech & Hst).
  pose proof (pi_all _ Inv Hc He) as Hall.
  assert ((total ≤ pr_next p)%nat) as Hn.
  { destruct (pi_stop _ Inv) as [?|Hne]; try done.
    - destruct (pr_workers p) as [|v ws]; [done|]. apply Forall_cons in Hst as [-> _]. left.
    - by rewrite Ech in Hne. }
  assert (unclaimed p = []) as Eu by (unfold unclaimed; by replace (total - pr_next p)%nat with 0%nat by lia).
  rewrite Eer, app_nil_r in Hall. rewrite El, Eu in *. cbn [app] in *. split; [done|].
  rewrite (claimed_rows_perm _ _ Hall).
  unfold rows. apply set_eq. intros x. rewrite !elem_of_list_to_set, list_elem_of_omap. split.
  - intros (o & _ & Ho). by eapply list_elem_of_lookup_2.
  - intros [i Hi]%list_elem_of_lookup_1. exists i. split; [|done]. apply elem_of_seq. apply lookup_lt_Some in Hi. lia.
Qed.
#[local] Instance ordinal_le_total : Total ordinal_le.
Proof. intros a b. unfold ordinal_le. lia. Qed.
#[local] Instance ordinal_le_trans : Transitive ordinal_le.
Proof. intros a b c. unfold ordinal_le. lia. Qed.
Lemma StronglySorted_seq a n : StronglySorted le (seq a n).
Proof.
  revert a. induction n as [|n IH]; intros a; cbn; [constructor|]. constructor; [done|]. apply list.Forall_forall.
  intros x Hx%elem_of_seq. lia.
Qed.
Lemma sorted_ordinals (l : list (nat * RetainedPin)) n : l.*1 ≡ₚ seq 0 n → (merge_sort ordinal_le l).*1 = seq 0 n.
Proof.
  intros Hp. apply (StronglySorted_unique le).
  - pose proof (StronglySorted_merge_sort ordinal_le l) as Hs. induction Hs as [|e l' _ IH Hall]; [constructor|]. cbn.
    constructor; [done|].
    apply Forall_fmap. exact Hall.
  - apply StronglySorted_seq.
  - by rewrite merge_sort_Permutation.
Qed.
Lemma sorted_pins p : parallel_inv p → (pr_pins p).*1 ≡ₚ seq 0 total → (merge_sort ordinal_le (pr_pins p)).*2 =
  retained (zip ops ids).
Proof.
  intros Inv Hp. pose proof (sorted_ordinals _ _ Hp) as Hs. pose proof (pi_pins _ Inv) as Hok.
  assert (∀ e, e ∈ merge_sort ordinal_le (pr_pins p) → ∃ b, result_ok e.1 (inl (b, e.2))) as Hel.
  { intros e He. rewrite merge_sort_Permutation in He. by apply (proj1 (list.Forall_forall _ _) Hok). }
  assert (length (merge_sort ordinal_le (pr_pins p)) = total) as Hlen by (by rewrite <-(length_fmap fst), Hs,
    length_seq).
  apply list_eq. intros i. destruct (decide (i < total)%nat) as [Hi|Hi].
  - destruct (lookup_lt_is_Some_2 (merge_sort ordinal_le (pr_pins p)) i) as [[o pin] He]; [lia|].
    destruct (Hel _ (list_elem_of_lookup_2 _ _ _ He)) as (b & op & id & Hop & Hid & _ & Epin). cbn in Hop, Hid, Epin.
    assert (o = i) as ->. { assert ((merge_sort ordinal_le (pr_pins p)).*1 !! i =
      Some o) as Ho by (by rewrite list_lookup_fmap, He). rewrite Hs in Ho. by apply lookup_seq in Ho as [-> _]. }
    unfold retained. rewrite !list_lookup_fmap, He. cbn. rewrite lookup_zip_with, Hop, Hid. cbn. by rewrite Epin.
  - rewrite !lookup_ge_None_2; [done|..]; unfold retained; rewrite !length_fmap, ?length_zip_with;
      unfold RestoreParallel.total in *; lia.
Qed.
(** Every operation was fetched, and its chunk written once. *)
Lemma fetched_all p chunks : parallel_inv p → (pr_pins p).*1 ≡ₚ seq 0 total → Forall2 written (pr_pins p) chunks →
  ∃ chunks', fetch_all io ops = Ok chunks' ∧ chunks ≡ₚ chunks'.
Proof.
  intros Inv Hp Hw.
  assert (∀ i op, ops !! i = Some op → ∃ b, fetch io op = Ok b) as Hf.
  { intros i op Hop. assert (i ∈ (pr_pins p).*1) as Hin by (rewrite Hp; apply elem_of_seq;
      apply lookup_lt_Some in Hop; unfold RestoreParallel.total; lia).
    apply list_elem_of_fmap in Hin as (e & -> & He).
    destruct (proj1 (list.Forall_forall _ _) (pi_pins _ Inv) e He) as (b & op' & id & Hop' & _ & Hb & _).
    rewrite Hop in Hop'. injection Hop' as <-. eauto. }
  assert (∃ chunks', fetch_all io ops = Ok chunks' ∧ length chunks' = length ops ∧ ∀ i op b, ops !! i = Some op →
    fetch io op = Ok b →
    chunks' !! i = Some (mkStagedChunk (ro_state_key op) (ro_target_offset op) b)) as (chunks' & Hfa & Hl & Hlk).
  { clear -Hf. revert Hf. generalize ops. induction l as [|op l IH]; intros Hf; [by exists []|].
    destruct (IH (λ i, Hf (Datatypes.S i))) as (cs & E & El & Hc). destruct (Hf 0%nat op eq_refl) as [b Hb]. cbn.
    rewrite Hb. cbn. rewrite E. cbn.
    eexists. split; [done|]. split; [by cbn; rewrite El|]. intros [|i] op' b' Ho Hb'; cbn in *; [|eauto]. simplify_eq.
    by rewrite Hb in Hb'; simplify_eq. }
  exists chunks'. split; [done|]. assert (chunks = omap (λ o, chunks' !! o) (pr_pins p).*1) as ->.
  { clear -Hw Hlk. induction Hw as [|e c pins chunks (op & Ho & Hb & Es & Eo) _ IH]; [done|]. cbn.
    rewrite (Hlk _ _ _ Ho Hb). f_equal; [|done]. destruct c; cbn in *; congruence. }
  rewrite Hp. unfold RestoreParallel.total. by rewrite <-Hl, omap_seq.
Qed.
Lemma finish_succeeded p : parallel_inv p → finished p = true → pr_workers p ≠ [] → pr_cancelled p = false →
  pr_error p = None →
  finish plan ids p = (Ok (retained (zip ops ids)), pr_sink p, mkWorld (list_to_set ids ∪ P) holds) ∧
  ∃ chunks chunks', fetch_all io ops = Ok chunks' ∧ chunks ≡ₚ chunks' ∧ replay chunks s0 = (None, pr_sink p).
Proof.
  intros Inv Hf Hw Hc He. destruct (finished_complete p Inv Hf Hw Hc He) as [Hp Hr]. split.
  - unfold finish. rewrite He, (sorted_pins p Inv Hp). do 2 f_equal.
    destruct (pi_rows _ Inv) as (J1 & J2 & _). rewrite Hr in J1. rewrite <-(world_eta (pr_world p)), (pi_holds _ Inv).
    f_equal. by apply (anti_symm (⊆)).
  - destruct (pi_sink _ Inv He) as (chunks & Hall & Hrep).
    destruct (fetched_all p chunks Inv Hp Hall) as (chunks' & Hfa & Hperm). eauto.
Qed.
Lemma act_workers a p p' : act io plan ids parallelism a p = Some p' → length (pr_workers p') = length (pr_workers p).
Proof.
  intros Ha. destruct a as [i|i|i| |]; cbn in Ha; [..|by injection Ha as <-].
  - unfold claim in Ha. destruct (pr_workers p !! i) as [[]|]; try done. injection Ha as <-.
    destruct (_ <? _)%nat; cbn; by rewrite length_insert.
  - unfold work in Ha. destruct (pr_workers p !! i) as [[]|]; try done. apply bind_Some in Ha as (op & _ & Ha).
    apply bind_Some in Ha as (id & _ & Ha).
    destruct (_ || _); [injection Ha as <-; cbn; by rewrite length_insert|].
    destruct (decode_operation _ _ _ _) as [[]]; try done; injection Ha as <-; cbn; by rewrite length_insert.
  - unfold send in Ha. destruct (pr_workers p !! i) as [[]|]; try done. destruct (_ <=? _)%nat; [done|].
    injection Ha as <-. cbn. by rewrite length_insert.
  - unfold receive in Ha. destruct (pr_channel p) as [|[o [[b pin]|e]] channel]; [done| |by injection Ha as <-].
    apply bind_Some in Ha as (op & _ & Ha). destruct (match pr_error p with Some e => _ | None => _ end).
    by injection Ha as <-.
Qed.
Lemma run_workers actions p p' : run_actions io plan ids parallelism actions p = Some p' → length (pr_workers p') =
  length (pr_workers p).
Proof.
  revert p. induction actions as [|a actions IH]; intros p Hr; cbn in Hr; [by injection Hr as <-|].
  apply bind_Some in Hr as (p1 & Ha & Hr). by rewrite (IH _ Hr), (act_workers _ _ _ Ha).
Qed.
(** ** Progress *)
(** Unless the run has finished, some worker or the receiver can act. *)
Lemma progress p : Forall operation_ok ops → (0 < parallelism)%nat → parallel_inv p → finished p = false →
  ∃ a, a ≠ Cancel ∧ is_Some (act io plan ids parallelism a p).
Proof.
  intros Hops Hpar Inv Hf. destruct (pr_channel p) as [|[o r] channel] eqn:Hch.
  - unfold finished in Hf. rewrite Hch, bool_decide_true, andb_true_r in Hf by done.
    assert (∃ i v, pr_workers p !! i = Some v ∧ v ≠ Stopped) as (i & v & Hi & Hv).
    { clear -Hf. induction (pr_workers p) as [|v ws IH]; [done|]. cbn in Hf.
      destruct v; try by (exists 0%nat; eexists; split; [done|]; done).
      destruct (IH Hf) as (i & v & Hi & Hv). by exists (Datatypes.S i), v. }
    destruct v as [|o|o r|]; [| | |done].
    + exists (Claim i). split; [done|]. cbn. unfold claim. rewrite Hi. eauto.
    + exists (Work i). split; [done|]. cbn. unfold work. rewrite Hi.
      assert (o < total)%nat as Ho. { apply (proj1 (list.Forall_forall _ _) (pi_range _ Inv)). unfold live. apply
        elem_of_app. right. apply elem_of_app. left.
        apply list_elem_of_bind. exists (Claimed o). split; [by left|by eapply list_elem_of_lookup_2]. }
      destruct (lookup_lt_is_Some_2 ops o Ho) as [op Hop]. rewrite Hop. cbn.
      destruct (lookup_lt_is_Some_2 ids o) as [id Hid]; [lia|]. rewrite Hid. cbn.
      destruct (_ || _); [eauto|]. rewrite decode_operation_fetch.
      pose proof (fetch_no_panic io op IO (Forall_lookup_1 _ _ _ _ Hops Hop)) as Hnp.
      destruct (fetch io op); [eauto|eauto|by destruct Hnp].
    + exists (Send i). split; [done|]. cbn. unfold send. rewrite Hi, Hch. cbn. destruct parallelism; [lia|]. eauto.
  - exists Receive. split; [done|]. cbn. unfold receive. rewrite Hch. destruct r as [[b pin]|e]; [|eauto].
    pose proof (pi_channel _ Inv) as Hc. rewrite Hch in Hc. apply Forall_cons in Hc as [(op & id & Hop & _) _].
    cbn in Hop. rewrite Hop. cbn.
    destruct (match pr_error p with Some e => _ | None => _ end). eauto.
Qed.
(** Every action but a cancellation uses up a part of this. *)
Definition worker_weight (v : Worker) : nat := match v with Idle => 1 | Claimed _ => 4 | Holding _ _ => 3 |
  Stopped => 0 end.
Definition weight p : nat := (4 * (total - pr_next p) + sum_list (worker_weight <$> pr_workers p) + length (pr_channel
  p))%nat.
Lemma weight_update i v v' (ws : list Worker) : ws !! i = Some v →
  (sum_list (worker_weight <$> <[i := v']> ws) + worker_weight v =
    sum_list (worker_weight <$> ws) + worker_weight v')%nat.
Proof. revert i. induction ws as [|u ws IH]; intros [|i] Hi; csimpl; [done..|simplify_eq/=; lia|].
  specialize (IH _ Hi). lia. Qed.
Lemma act_weight a p p' : act io plan ids parallelism a p = Some p' → a ≠ Cancel → (weight p' < weight p)%nat.
Proof.
  intros Ha Hn. unfold weight. destruct a as [i|i|i| |]; cbn in Ha; [..|done].
  - unfold claim in Ha. destruct (pr_workers p !! i) as [[]|] eqn:Hi; try done. injection Ha as <-.
    destruct (_ <? _)%nat eqn:Hl; cbn.
    + apply Nat.ltb_lt in Hl. pose proof (weight_update i _ (Claimed (pr_next p)) _ Hi) as Hw. cbn in Hw. lia.
    + pose proof (weight_update i _ Stopped _ Hi) as Hw. cbn in Hw. lia.
  - unfold work in Ha. destruct (pr_workers p !! i) as [[|o| |]|] eqn:Hi; try done.
    apply bind_Some in Ha as (op & _ & Ha). apply bind_Some in Ha as (id & _ & Ha).
    destruct (_ || _); [injection Ha as <-; cbn; pose proof (weight_update i _ Stopped _ Hi) as Hw; cbn in Hw; lia|].
    destruct (decode_operation _ _ _ _) as [[d|e|]]; try done; injection Ha as <-; cbn;
      match goal with |- context [<[i := ?v]> _] => pose proof (weight_update i _ v _ Hi) as Hw; cbn in Hw; lia end.
  - unfold send in Ha. destruct (pr_workers p !! i) as [[| |o r|]|] eqn:Hi; try done. destruct (_ <=? _)%nat; [done|].
    injection Ha as <-. cbn.
    rewrite length_app. cbn. match goal with |- context [<[i := ?v]> _] => pose proof (weight_update i _ v _ Hi) as Hw
      end. destruct r; cbn in Hw; lia.
  - unfold receive in Ha. destruct (pr_channel p) as [|[o [[b pin]|e]] channel];
      [done| |injection Ha as <-; cbn; lia].
    apply bind_Some in Ha as (op & _ & Ha). destruct (match pr_error p with Some e => _ | None => _ end).
    injection Ha as <-. cbn. lia.
Qed.
Lemma act_cancel_weight p : weight (cancel p) = weight p.
Proof. done. Qed.
Definition steps (actions : list Action) : nat := length (filter (λ a, a ≠ Cancel) actions).
Lemma run_steps actions p p' : run_actions io plan ids parallelism actions p = Some p' →
  (steps actions + weight p' ≤ weight p)%nat.
Proof.
  unfold steps. revert p. induction actions as [|a actions IH]; intros p Hr; cbn in Hr;
    [injection Hr as <-; cbn; lia|].
  apply bind_Some in Hr as (p1 & Ha & Hr). specialize (IH _ Hr). destruct (decide (a = Cancel)) as [->|Hn].
  - rewrite list.filter_cons_False by (by intros []). cbn in Ha. injection Ha as <-. done.
  - rewrite list.filter_cons_True by done. cbn [length]. pose proof (act_weight _ _ _ Ha Hn). lia.
Qed.
End parallel.

(** ** Calls *)
(** Two chunks a sink takes in either order, with the same effect. *)
Definition commutes {T} `{VerifiedRestoreSink T} (c1 c2 : StagedChunk) : Prop :=
  ∀ s s' : T, replay [c1; c2] s = (None, s') → replay [c2; c1] s = (None, s').
Lemma replay_perm {T} `{VerifiedRestoreSink T} chunks chunks' (s s' : T) : chunks ≡ₚ chunks' →
  (∀ c1 c2, c1 ∈ chunks → c2 ∈ chunks → commutes (T:=T) c1 c2) → replay chunks s = (None, s') → replay chunks' s =
    (None, s').
Proof.
  intros Hp. revert s s'. induction Hp as [|c l l' Hp IH|c1 c2 l|l1 l2 l3 Hp1 IH1 Hp2 IH2]; intros s s' Hc Hr.
  - done.
  - cbn in *. destruct (write_verified_chunk _ _ _ _) as [[|] s1]; [done|]. apply IH; [|done].
    intros; apply Hc; by right.
  - change (replay ([c1; c2] ++ l) s = (None, s')). change (replay ([c2; c1] ++ l) s = (None, s')) in Hr.
    rewrite replay_app in Hr |- *.
    destruct (replay [c2; c1] s) as [[|] s1] eqn:E; [done|]. apply Hc in E; [|by left|by right; left]. by rewrite E.
  - apply IH2; [|by apply IH1]. intros c1 c2 H1 H2. apply Hc; by rewrite Hp1.
Qed.
Section calls.
Context `{CL : CryptoLaws} `{PC : PinCatalog} (io : RestoreIO) (IO : io_ok io) (plan : AuthenticatedRestorePlan).
Context {T : Type} `{VerifiedRestoreSink T}.
Implicit Types (s : T) (w : RestoreWorld).
Lemma parallel_start_inv entropy w ids w1 parallelism s : pin_chunks_batch io (operation_references plan) entropy w =
  (Ok ids, w1) →
  length ids = total plan ∧ NoDup ids ∧ list_to_set ids ## rw_pins w ∧
  w1 = mkWorld (list_to_set ids ∪ rw_pins w) (rw_holds w) ∧ drawn_ids plan entropy = list_to_set ids ∧
  parallel_inv io plan ids s (rw_pins w) (rw_holds w) (parallel_start plan parallelism s w1).
Proof.
  intros (Hl & Hnd & Hd & -> & Er)%pin_chunks_batch_ok. unfold operation_references in Hl. rewrite length_fmap in Hl.
  split_and!; try done; [unfold drawn_ids; by rewrite Er|]. by apply start_inv.
Qed.
(** A failed call gives back every pin it took, as far as the catalog lets it. *)
Lemma parallel_failed entropy parallelism actions s w e s' w' :
  restore_operations_parallel io plan entropy parallelism actions s w = Some (Err e, s', w') →
  spared (drawn_ids plan entropy) (releasable plan) w w'.
Proof using IO CL.
  intros Hr. unfold restore_operations_parallel in Hr. destruct (pin_chunks_batch _ _ _ _) as [[ids| |] w1] eqn:Ep.
  2:{ apply pin_chunks_batch_ok in Ep as ->. injection Hr as -> -> ->. apply spared_refl. }
  2: done.
  destruct (parallel_start_inv _ _ _ _ parallelism s Ep) as (Hl & Hnd & Hd & _ & -> & Inv).
  apply bind_Some in Hr as (p & Hrun & Hr).
  pose proof (run_inv _ IO _ _ _ _ _ _ Hl Hnd Hd _ _ _ Inv Hrun) as Hinv. destruct (finished p) eqn:Hf; [|done].
  injection Hr as Hfin. destruct (pr_error p) as [e'|] eqn:He; [|unfold finish in Hfin; by rewrite He in Hfin].
  destruct (finish_failed io IO plan ids s (rw_pins w) (rw_holds w) Hl Hnd Hd p e' w Hinv Hf He eq_refl eq_refl) as (w2 & E & Hs).
  rewrite E in Hfin. by injection Hfin as _ _ <-.
Qed.
(** The state an uncancelled call that succeeds ends in. *)
Lemma parallel_completed entropy parallelism actions s w pins s' w' : Cancel ∉ actions →
  restore_operations_parallel io plan entropy parallelism actions s w = Some (Ok pins, s', w') →
  ∃ ids chunks chunks', pin_chunks_batch io (operation_references plan) entropy w =
      (Ok ids, mkWorld (list_to_set ids ∪ rw_pins w) (rw_holds w)) ∧ length ids = total plan ∧
    list_to_set ids ## rw_pins w ∧ drawn_ids plan entropy = list_to_set ids ∧
    pins = retained (zip (ap_operations plan) ids) ∧ w' = mkWorld (list_to_set ids ∪ rw_pins w) (rw_holds w) ∧
    fetch_all io (ap_operations plan) = Ok chunks' ∧ chunks ≡ₚ chunks' ∧ replay chunks s = (None, s').
Proof using IO CL.
  intros Hnc Hr. unfold restore_operations_parallel in Hr.
  destruct (pin_chunks_batch _ _ _ _) as [[ids| |] w1] eqn:Ep; [|done..].
  destruct (parallel_start_inv _ _ _ _ parallelism s Ep) as (Hl & Hnd & Hd & -> & Edr & Inv).
  apply bind_Some in Hr as (p & Hrun & Hr).
  pose proof (run_inv _ IO _ _ _ _ _ _ Hl Hnd Hd _ _ _ Inv Hrun) as Hinv. destruct (finished p) eqn:Hf; [|done].
  injection Hr as Hfin.
  destruct (pr_error p) as [e|] eqn:He; [unfold finish in Hfin; by rewrite He in Hfin|].
  pose proof (run_uncancelled _ _ _ _ _ _ _ Hrun Hnc eq_refl) as Hc.
  assert (pr_workers p ≠ []) as Hw.
  { pose proof (run_workers _ _ _ _ _ _ _ Hrun) as Hlen. cbn in Hlen. rewrite length_replicate in Hlen. intros E.
    rewrite E in Hlen. unfold worker_count in Hlen. cbn in Hlen. lia. }
  destruct (finish_succeeded _ _ _ _ _ _ Hl p Hinv Hf Hw Hc He) as (E & chunks & chunks' & Hfa & Hperm & Hrep).
  rewrite E in Hfin. injection Hfin as <- <- <-. exists ids, chunks, chunks'. by split_and!.
Qed.
Lemma retained_ids work : rt_pin_id <$> retained work = work.*2.
Proof. unfold retained. by rewrite <-list_fmap_compose. Qed.
(** What an uncancelled parallel run does to the pins. *)
Lemma parallel_ok entropy parallelism actions s w : Cancel ∉ actions →
  run_ok (drawn_ids plan entropy) (releasable plan)
    (∃ s w, restore_operations_parallel io plan entropy parallelism actions s w = None)
    (default (Panic "unfinished schedule", s, w) (restore_operations_parallel io plan entropy parallelism actions s w))
    w.
Proof using IO CL.
  intros Hnc. destruct (restore_operations_parallel _ _ _ _ _ _ _) as [[[r s'] w']|] eqn:E; cbn [default]; [|by exists s, w].
  destruct r as [pins|e|m].
  - destruct (parallel_completed _ _ _ _ _ _ _ _ Hnc E) as (ids & _ & _ & _ & Hl & Hd & -> & -> & -> & _).
    cbv [run_ok default id from_option]. pose proof (retained_ids (zip (ap_operations plan) ids)) as ->.
    rewrite snd_zip by (unfold total in Hl; lia). split_and!; [done|done| |done].
    intros [? Hm]. split; [done|]. unfold retained. rewrite zlen_fmap. unfold zlen in *. rewrite length_zip. lia.
  - by eapply parallel_failed.
  - exfalso. unfold restore_operations_parallel in E. destruct (pin_chunks_batch _ _ _ _) as [[ids| |] w1] eqn:Ep;
      [|done|by apply pin_chunks_batch_ok in Ep].
    apply bind_Some in E as (p & _ & E). destruct (finished p); [|done]. injection E as E. unfold finish in E.
    by destruct (pr_error p).
Qed.
(** Every two chunks of the plan commute in the sink. *)
Definition writes_commute : Prop := ∀ chunks c1 c2, fetch_all io (ap_operations plan) = Ok chunks → c1 ∈ chunks →
  c2 ∈ chunks → commutes (T:=T) c1 c2.
(** An uncancelled call that succeeds returns what the sequential one returns. *)
Lemma parallel_succeeded entropy parallelism actions s w pins s' w' : Cancel ∉ actions → writes_commute →
  restore_operations_parallel io plan entropy parallelism actions s w = Some (Ok pins, s', w') →
  restore_operations_sequential io plan entropy (λ _, false) s w = (Ok pins, s', w').
Proof using IO CL.
  intros Hnc Hcom Hr. destruct (parallel_completed _ _ _ _ _ _ _ _ Hnc Hr) as (ids & chunks & chunks' & Ep & Hl & _ &
    _ & -> & -> & Hfa & Hperm & Hrep).
  unfold restore_operations_sequential. rewrite Ep.
  apply (replay_perm _ _ _ _ Hperm) in Hrep; [|intros c1 c2 H1 H2; apply (Hcom chunks'); [done|by rewrite <-Hperm..]].
  assert ((zip (ap_operations plan) ids).*1 = ap_operations plan) as Ez by (apply fst_zip; unfold total in Hl; lia).
  pose proof (restore_each_replay io (λ _, false) 1 (zip (ap_operations plan) ids) [] s (mkWorld (list_to_set ids ∪
    rw_pins w) (rw_holds w)) chunks') as HR.
  rewrite Ez in HR. specialize (HR ltac:(done) Hfa). destruct (restore_each _ _ _ _ _ _ _) as [[r t] w3] eqn:Ere.
  rewrite Hrep in HR. destruct HR as [-> ->].
  cbn [fst snd app] in *. apply restore_each_Ok in Ere as (-> & _). done.
Qed.
End calls.

(** * Parallel writes of a tiling plan

    The chunks of a plan that tiles its planes commute in the reference sink,
    so a parallel restore fills the planes as the sequential one does. *)
Lemma splice_at (a x d rest : bytes) off : off = zlen a → zlen x = zlen d → splice off d (a ++ x ++ rest) =
  a ++ d ++ rest.
Proof. intros -> Hx. rewrite splice_app, <-Hx, zdrop_app_exact by done. by rewrite <-app_assoc. Qed.
Lemma split_plane (plane : bytes) off n : 0 ≤ off → 0 ≤ n → off + n ≤ zlen plane →
  ∃ a x rest, plane = a ++ x ++ rest ∧ zlen a = off ∧ zlen x = n.
Proof.
  intros Ho Hn Hb. exists (ztake off plane), (ztake n (zdrop off plane)), (zdrop n (zdrop off plane)).
  rewrite !ztake_zdrop, zlen_ztake, zlen_ztake; [done|rewrite zlen_zdrop; lia|lia].
Qed.
Lemma splice_comm (plane d1 d2 : bytes) o1 o2 : 0 ≤ o1 → o1 + zlen d1 ≤ o2 → o2 + zlen d2 ≤ zlen plane →
  splice o1 d1 (splice o2 d2 plane) = splice o2 d2 (splice o1 d1 plane).
Proof.
  intros H1 H2 H3. pose proof (zlen_nonneg d1). pose proof (zlen_nonneg d2).
  destruct (split_plane plane o1 (zlen d1)) as (a & x & rest & -> & Ea & Ex); [lia..|]. rewrite !zlen_app in H3.
  destruct (split_plane rest (o2 - o1 - zlen d1) (zlen d2)) as (b & y & c & -> & Eb & Ey); [lia..|].
  rewrite (splice_at a x d1) by lia. replace (a ++ x ++ b ++ y ++ c) with ((a ++ x ++ b) ++ y ++ c) by (by rewrite
    <-!app_assoc).
  replace (a ++ d1 ++ b ++ y ++ c) with ((a ++ d1 ++ b) ++ y ++ c) by (by rewrite <-!app_assoc).
  rewrite (splice_at (a ++ x ++ b) y d2), (splice_at (a ++ d1 ++ b) y d2) by (rewrite ?zlen_app; lia).
  rewrite <-!app_assoc. by apply splice_at.
Qed.
Lemma zlen_splice off (d plane : bytes) : 0 ≤ off → off + zlen d ≤ zlen plane → zlen (splice off d plane) =
  zlen plane.
Proof.
  intros Ho Hb. pose proof (zlen_nonneg d).
  destruct (split_plane plane off (zlen d)) as (a & x & rest & -> & Ea & Ex); [lia..|].
  rewrite splice_at by lia. rewrite !zlen_app. lia.
Qed.
Definition disjoint_chunks (c1 c2 : StagedChunk) : Prop :=
  st_state c1 ≠ st_state c2 ∨ st_offset c1 + zlen (st_plaintext c1) ≤ st_offset c2 ∨
    st_offset c2 + zlen (st_plaintext c2) ≤ st_offset c1.
Lemma plane_commutes c1 c2 : 0 ≤ st_offset c1 → 0 ≤ st_offset c2 → disjoint_chunks c1 c2 →
  commutes (T:=PlaneSink) c1 c2.
Proof.
  intros H1 H2 Hd [planes engine] s'. cbn. unfold plane_write. cbn [pk_shadow pk_engine].
  destruct (planes !! st_state c1) as [pl1|] eqn:E1; [|done]. destruct (_ <? _) eqn:B1; [done|]. cbn.
  destruct (decide (st_state c1 = st_state c2)) as [Es|Es].
  - rewrite <-Es, lookup_insert_eq, E1. destruct Hd as [|Hd]; [done|]. bools. rewrite zlen_splice by lia.
    destruct (_ <? _) eqn:B2; [done|]. cbn. intros [= <-].
    rewrite lookup_insert_eq. bools. rewrite zlen_splice by lia. rewrite (proj2 (Z.ltb_ge _ _)) by lia. cbn.
    rewrite !insert_insert_eq.
    assert (splice (st_offset c1) (st_plaintext c1) (splice (st_offset c2) (st_plaintext c2) pl1) =
            splice (st_offset c2) (st_plaintext c2) (splice (st_offset c1) (st_plaintext c1) pl1)) as ->; [|done].
    destruct Hd; [by apply splice_comm|symmetry; by apply splice_comm].
  - rewrite lookup_insert_ne by done. destruct (planes !! st_state c2) as [pl2|] eqn:E2; [|done].
    destruct (zlen pl2 <? st_offset c2 + zlen (st_plaintext c2)) eqn:B2; [done|]. cbn [replay]. intros [= <-].
    cbn [pk_shadow pk_engine]. rewrite lookup_insert_ne, E1 by done. rewrite B1. by rewrite insert_insert_ne.
Qed.
Lemma ops_tile_disjoint off l off' i j o1 o2 : ops_tile off l off' → (i < j)%nat → l !! i = Some o1 → l !! j =
  Some o2 →
  ro_target_offset o1 + cs_plaintext_bytes (ro_span o1) ≤ ro_target_offset o2.
Proof.
  intros Ht. revert i j. induction Ht as [|off o l off' Ho Hp Hr Ht IH]; intros i j Hij H1 H2; [done|].
  destruct j as [|j]; [lia|]. cbn in H2. destruct i as [|i]; cbn in H1; [|apply (IH i j); [lia|done..]]. simplify_eq.
  apply list_elem_of_lookup_2, (ops_tile_bounds _ _ _ _ Ht) in H2. lia.
Qed.
Section plans.
Context `{CL : CryptoLaws} (io : RestoreIO) (IO : io_ok io) (plan : AuthenticatedRestorePlan) (PT : plan_tiles plan).
Lemma fetch_all_each ops chunks : fetch_all io ops = Ok chunks →
  Forall2 (λ o c, fetch io o = Ok (st_plaintext c) ∧ st_state c = ro_state_key o ∧ st_offset c =
    ro_target_offset o) ops chunks.
Proof. clear. revert chunks. induction ops as [|o ops IH]; intros chunks Hf; cbn in Hf; inv_ok; subst; constructor;
    auto. Qed.
Lemma plan_commutes chunks c1 c2 : fetch_all io (ap_operations plan) = Ok chunks → c1 ∈ chunks → c2 ∈ chunks →
  commutes (T:=PlaneSink) c1 c2.
Proof.
  intros Hf H1 H2. destruct (decide (c1 = c2)) as [->|Hne]; [by intros s s'|].
  pose proof (fetch_all_each _ _ Hf) as Hall.
  assert (∀ c, c ∈ chunks → ∃ o, o ∈ ap_operations plan ∧ fetch io o = Ok (st_plaintext c) ∧ st_state c =
    ro_state_key o ∧ st_offset c = ro_target_offset o ∧
    zlen (st_plaintext c) = cs_plaintext_bytes (ro_span o)) as Hc.
  { intros c Hin. apply list_elem_of_lookup_1 in Hin as [i Hi].
    destruct (Forall2_lookup_r _ _ _ _ _ Hall Hi) as (o & Ho & Hb & Es & Eo).
    exists o. split; [by eapply list_elem_of_lookup_2|]. split_and!; [done..|]. rewrite (fetch_length io IO o _ Hb).
    destruct (operation_state plan PT o) as (p & _ & _ & _ & _ & E); [by eapply list_elem_of_lookup_2|done]. }
  destruct (Hc _ H1) as (o1 & I1 & F1 & S1 & O1 & L1), (Hc _ H2) as (o2 & I2 & F2 & S2 & O2 & L2).
  destruct (operation_state plan PT o1 I1) as (p1 & P1 & K1 & Z1 & _),
    (operation_state plan PT o2 I2) as (p2 & P2 & K2 & Z2 & _).
  apply plane_commutes; [lia..|]. unfold disjoint_chunks. rewrite S1, S2, O1, O2, L1, L2.
  destruct (decide (ro_state_key o1 = ro_state_key o2)) as [Es|]; [right|by left].
  destruct (proj1 (list.Forall_forall _ _) (pt_exact _ PT) p1 P1) as [Ht _]. rewrite K1 in Ht.
  assert (o1 ∈ ops_for (ro_state_key o1) (ap_operations plan)) as [i Hi]%list_elem_of_lookup_1 by by apply
    list_elem_of_filter.
  assert (o2 ∈ ops_for (ro_state_key o1) (ap_operations plan)) as [j Hj]%list_elem_of_lookup_1 by by apply
    list_elem_of_filter.
  destruct (Nat.lt_trichotomy i j) as [Hij|[->|Hij]].
  - left. by apply (ops_tile_disjoint _ _ _ i j _ _ Ht).
  - exfalso. rewrite Hi in Hj. injection Hj as ->. apply Hne. destruct c1, c2; cbn in *. congruence.
  - right. by apply (ops_tile_disjoint _ _ _ j i _ _ Ht).
Qed.
End plans.
