(* ===== verification/ScatterTransfer.v ===== *)
(** * Scatter transfers and statistics (crates/kvpack/src/restore/plan.rs, restore/helpers.rs)

    A transfer hands an engine pinned files and authenticated descriptors, in
    batches of at most sixteen; dropping a batch releases its pins, and so does
    a failed preparation.  Also the sidecars of a plan's chunks and the chain a
    compaction reads. *)
From Stdlib Require Import ZArith Lia.
From stdpp Require Import base tactics numbers list strings option sorting gmap.
From S2P Require Import Prelude Bytes Canonical Wire State Identity Manifest Frame Deps Validator.
From S2P Require Import ValidatorLaws Crypto Ids PrefixChain Stats Chunk ChunkLaws Pack.
From S2P Require Import StorePolicy RestorePlan ScatterPlan RestorePins RestoreExec RestoreLaws.

Definition MAX_SCATTER_FDS_PER_BATCH : Z := 16.
Record PinnedScatterBatch := mkScatterBatch {
  pb_batch_number : Z;
  pb_total_batches : Z;
  pb_descriptors : list AuthenticatedScatterDescriptor;
  pb_files : list ChunkFile;
  pb_pins : list RetainedPin
}.
Record PreparedScatterTransfer := mkScatterTransfer {
  tr_manifest_id : Id32;
  tr_attempt : Id32;
  tr_resources : RestoreResourceRequirements;
  tr_batches : list PinnedScatterBatch
}.
Definition batches_pins (batches : list PinnedScatterBatch) : list RetainedPin := batches ≫= pb_pins.
Definition transfer_batch (transfer : PreparedScatterTransfer) (number : Z) : option PinnedScatterBatch :=
  tr_batches transfer !! Z.to_nat number.
Definition transfer_pin_ids (transfer : PreparedScatterTransfer) : list Id32 :=
  rt_pin_id <$> batches_pins (tr_batches transfer).

Section transfers.
Context `{Crypto} `{PC : PinCatalog} (io : RestoreIO).
(** Duplicating the descriptor of an open file may fail. *)
Context (duplicate : ChunkFile → sresult ChunkFile).
Implicit Types (plan : AuthenticatedRestorePlan) (w : RestoreWorld) (ops : list RestoreChunkOperation).

(** The references and pin identities of one batch, with their ordinals. *)
Fixpoint batch_entries plan (attempt : Id32) (batch_index fd_index : Z) ops : sresult (list (Z * (ChunkRef * Id32)))
  :=
  match ops with
  | [] => Ok []
  | operation :: ops =>
      chunk_ordinal ← ok_or (base ← checked_mul batch_index MAX_SCATTER_FDS_PER_BATCH; checked_add base fd_index)
                        (SState "scatter chunk ordinal overflow");
      pin_id ← scatter_pin_identity (ap_tenant_namespace plan) (ap_manifest_id plan) attempt chunk_ordinal
                 (cr_object_key (ro_reference operation));
      entries ← batch_entries plan attempt batch_index (fd_index + 1) ops;
      Ok ((chunk_ordinal, (ro_reference operation, pin_id)) :: entries)
  end.
Definition scatter_descriptor plan (attempt : Id32) (batch_number fd_index chunk_ordinal atomic_group : Z)
    (operation : RestoreChunkOperation) : AuthenticatedScatterDescriptor :=
  let reference := ro_reference operation in
  let descriptor digest :=
    mkScatterDescriptor (ap_manifest_id plan) (ro_state_key operation) chunk_ordinal batch_number fd_index 0
      (cr_object_bytes reference) (cr_object_key reference) (cr_object_digest reference) (cr_object_bytes reference)
      (cr_plaintext_bytes reference) (cr_key_epoch reference) (ro_target_offset operation)
      (cs_plaintext_bytes (ro_span operation)) atomic_group attempt digest in
  descriptor (scatter_descriptor_digest (descriptor (replicate 32 0))).
(** The descriptors and files of one batch, from its pinned chunks. *)
Fixpoint batch_files plan (attempt : Id32) (groups : gmap StateKey Z) (batch_number fd_index : Z) (ordinals : list Z)
  ops
    (pinned : list (ChunkFile * RetainedPin)) : sresult (list (AuthenticatedScatterDescriptor * ChunkFile *
      RetainedPin)) :=
  match ops with
  | [] => Ok []
  | operation :: ops =>
      chunk_ordinal ← expect (ordinals !! Z.to_nat fd_index) "index out of bounds";
      match pinned with
      | [] => state_error "scatter pin batch is incomplete"
      | (file, pin) :: pinned =>
          file ← duplicate file;
          if u32_bound <=? fd_index then state_error "scatter FD index exceeds u32" else
          atomic_group ← ok_or (groups !! ro_state_key operation) (SAuthentication
            "scatter state has no atomic group");
          rest ← batch_files plan attempt groups batch_number (fd_index + 1) ordinals ops pinned;
          Ok ((scatter_descriptor plan attempt batch_number fd_index chunk_ordinal atomic_group operation, file,
            pin) :: rest)
      end
  end.
(** A failure drops the batches prepared so far and the pins of the current one. *)
Fixpoint scatter_batches plan (attempt : Id32) (groups : gmap StateKey Z) (total_batches batch_index : Z)
    (chunks : list (list RestoreChunkOperation)) (batches : list PinnedScatterBatch) w
    : sresult (list PinnedScatterBatch) * RestoreWorld :=
  match chunks with
  | [] => (Ok batches, w)
  | ops :: chunks =>
      match if u32_bound <=? batch_index then state_error "scatter batch number exceeds u32"
            else batch_entries plan attempt batch_index 0 ops with
      | Err e => (Err e, drop_pins (batches_pins batches) w)
      | Panic m => (Panic m, drop_pins (batches_pins batches) w)
      | Ok entries =>
          match pin_chunks_with_ids io entries.*2 w with
          | (Err e, w) => (Err e, drop_pins (batches_pins batches) w)
          | (Panic m, w) => (Panic m, drop_pins (batches_pins batches) w)
          | (Ok pinned, w) =>
              match batch_files plan attempt groups batch_index 0 entries.*1 ops pinned with
              | Err e => (Err e, drop_pins (batches_pins batches) (drop_pins pinned.*2 w))
              | Panic m => (Panic m, drop_pins (batches_pins batches) (drop_pins pinned.*2 w))
              | Ok files =>
                  scatter_batches plan attempt groups total_batches (batch_index + 1) chunks
                    (batches ++ [mkScatterBatch batch_index total_batches files.*1.*1 files.*1.*2 files.*2]) w
              end
          end
      end
  end.
Definition state_groups plan : gmap StateKey Z :=
  list_to_map (reverse ((λ state, (sd_key (rp_declaration state), rp_atomic_group state)) <$> ap_states plan)).
Definition prepare_scatter_transfer plan (attempt : Id32) w : sresult PreparedScatterTransfer * RestoreWorld :=
  if is_zero_id attempt then (Err (SExpectation "scatter transfer attempt must be nonzero"), w) else
  if requires_guided_recompute plan then
    (Err (SExpectation "guided-recompute plan must not serve tombstoned chunk bytes"), w) else
  let chunked := chunks (Z.to_nat MAX_SCATTER_FDS_PER_BATCH) (ap_operations plan) in
  if u32_bound <=? zlen chunked then (state_error "scatter batch count exceeds u32", w) else
  match scatter_batches plan attempt (state_groups plan) (zlen chunked) 0 chunked [] w with
  | (Err e, w) => (Err e, w)
  | (Panic m, w) => (Panic m, w)
  | (Ok [], w) => (auth_error "authenticated scatter plan has no chunk operations", w)
  | (Ok batches, w) => (Ok (mkScatterTransfer (ap_manifest_id plan) attempt (ap_resources plan) batches), w)
  end.

(** ** Statistics sidecars *)
(** The pin is dropped whether the chunk decodes or not. *)
Definition decode_operation_sidecar (operation : RestoreChunkOperation) (pin_id : Id32) w : sresult (option
  StatsSidecar) * RestoreWorld :=
  match read_pinned_chunk_object io (ro_reference operation) pin_id w with
  | (Err e, w) => (Err e, w)
  | (Panic m, w) => (Panic m, w)
  | (Ok (object, pin), w) =>
      ((keys ← io_schedule io (cr_key_epoch (ro_reference operation));
        '(_, sidecar) ← of_pack (decode_chunk_with_stats object (ro_reference operation) (ro_span operation)
          (ro_tenant_namespace operation) (ro_family operation) (ro_state_key operation) keys);
        Ok sidecar), drop_pins [pin] w)
  end.
Fixpoint sidecars_each (entries : list (RestoreChunkOperation * Id32)) (sidecars : list (option StatsSidecar)) w
    : sresult (list (option StatsSidecar)) * RestoreWorld :=
  match entries with
  | [] => (Ok sidecars, w)
  | (operation, pin_id) :: entries =>
      match decode_operation_sidecar operation pin_id w with
      | (Ok sidecar, w) => sidecars_each entries (sidecars ++ [sidecar]) w
      | (Err e, w) => (Err e, release_restore_pin_batch [] entries.*2 w)
      | (Panic m, w) => (Panic m, w)
      end
  end.
Definition chunk_stats_sidecars plan (entropy : nat →
  option Id32) w : sresult (list (option StatsSidecar)) * RestoreWorld :=
  if requires_guided_recompute plan then
    (Err (SExpectation "guided-recompute plan has no bytes to read statistics from"), w) else
  match pin_chunks_batch io (operation_references plan) entropy w with
  | (Err e, w) => (Err e, w)
  | (Panic m, w) => (Panic m, w)
  | (Ok pin_ids, w) => sidecars_each (zip (ap_operations plan) pin_ids) [] w
  end.

(** ** Compaction *)
Definition authenticated_chain_for_compaction (store : StoreView) (leaf_id : Id32) (minimum_key_epoch : Z)
    (semantic_model : SemanticModelId) (family : RepresentationFamilyId) (cut : InputCutId) (context :
      ValidationContext)
    : sresult (list CutManifest) :=
  family_id ← of_pack (representation_family_id family);
  chain ← authenticate_chain store leaf_id minimum_key_epoch (Some (semantic_model_id semantic_model, family_id, cut))
    context;
  Ok (map am_manifest chain).
End transfers.

(** * Laws of scatter transfers

    A prepared transfer pins the chunks of its plan under the identities the
    plan derives, and its descriptors are the plan's operations in order; a
    failed one, or reading the statistics, leaves the pins as they were. *)
Implicit Types (w : RestoreWorld) (P : gset Id32) (pins : list RetainedPin) (ids : list Id32) (entries : list
  (ChunkRef * Id32)).

(** ** Pins under given identities *)
Lemma open_pinned_ok io entries opened files r : open_pinned io entries opened = (r, files) →
  ∃ new, files = opened ++ new ∧ (rt_pin_id <$> new.*2) `prefix_of` entries.*2 ∧
    (r = Ok tt → rt_pin_id <$> new.*2 = entries.*2).
Proof.
  revert opened. induction entries as [|[r' id] entries IH]; intros opened; cbn [open_pinned].
  { intros [= <- <-]. exists []. by rewrite app_nil_r. }
  destruct (io_open _ _) as [file|e|m].
  2,3: intros [= <- <-]; exists []; rewrite app_nil_r; split_and!; [done|apply prefix_nil|done].
  intros (new & -> & Hp & Hr)%IH. eexists. rewrite <-app_assoc. split; [done|]. cbn. split.
  - by apply prefix_cons.
  - intros E. by rewrite Hr.
Qed.
Lemma open_pinned_no_panic io entries opened : io_ok io → ¬ panics (open_pinned io entries opened).1.
Proof.
  intros IO. revert opened. induction entries as [|[r id] entries IH]; intros opened; cbn; [by intros []|].
  pose proof (io_open_total _ IO (cr_object_key r)) as Hnp. destruct (io_open _ _); [apply IH|by intros []|done].
Qed.
Lemma check_opened_no_panic io files entries : io_ok io → ¬ panics (check_opened io files entries).
Proof.
  intros IO. revert entries. induction files as [|[f p] files IH]; intros [|[r id] entries]; cbn; unfold auth_error;
    no_panic. apply IO.
Qed.
Lemma pin_chunks_with_ids_ok `{PinCatalog} io entries w r w' : io_ok io → zlen entries ≤ MAX_RELEASED_PINS →
  pin_chunks_with_ids io entries w = (r, w') →
  match r with
  | Ok files => rt_pin_id <$> files.*2 = entries.*2 ∧ NoDup entries.*2 ∧ list_to_set entries.*2 ## rw_pins w ∧
                w' = set_pins (list_to_set entries.*2 ∪ rw_pins w) w
  | Err _ => rw_holds w' = rw_holds w ∧ rw_pins w ∖ list_to_set entries.*2 ⊆ rw_pins w' ∧
             (deletions_succeed → rw_pins w' ⊆ rw_pins w)
  | Panic _ => False
  end.
Proof.
  intros IO Hlen. unfold pin_chunks_with_ids.
  destruct (existsb _ entries); [intros [= <- <-]; split_and!; [done|set_solver|done]|].
  destruct (pin_chunk_rows _ _ _ _) as [r1 w1] eqn:Ep. apply pin_chunk_rows_ok in Ep; [|by rewrite !length_fmap].
  assert (zlen entries.*2 ≤ MAX_RELEASED_PINS) as Hb by by rewrite zlen_fmap.
  destruct r1 as [[]|e|m]; [|subst w1; intros [= <- <-]|done].
  2:{ destruct (release_source_pins_ok entries.*2 w) as [R1 R2 R3 R4]. by split_and!. }
  destruct Ep as (Hnd & Hdis & ->). destruct (open_pinned io entries []) as [opening files] eqn:Eo.
  pose proof (open_pinned_no_panic io entries [] IO) as Hop. rewrite Eo in Hop. cbn [fst] in Hop.
  destruct (open_pinned_ok _ _ _ _ _ Eo) as (new & -> & Hpre & Hall). cbn [app].
  assert (∀ w1, drop_pins new.*2 (set_pins (list_to_set entries.*2 ∪ rw_pins w) w) = w1 →
    let w' := (release_retained_source_pins entries.*2 w1).2 in
    rw_holds w' = rw_holds w ∧ rw_pins w ∖ list_to_set entries.*2 ⊆ rw_pins w' ∧
    (deletions_succeed → rw_pins w' ⊆ rw_pins w)) as Hrel.
  { intros w1 E. destruct (drop_pins_ok new.*2 (set_pins (list_to_set entries.*2 ∪ rw_pins w) w)) as [D1 D2 D3 _].
    rewrite E in D1, D2, D3. destruct (release_source_pins_ok entries.*2 w1) as [R1 R2 R3 R4]. cbn in *.
    destruct Hpre as [rest Hpre]. rewrite Hpre in *. rewrite list_to_set_app_L in *.
    split_and!; [congruence|set_solver|]. intros Hd. rewrite R4 by done. set_solver. }
  pose proof (check_opened_no_panic io new entries IO) as Hcp.
  destruct opening as [[]|e|m]; cbn [mbind outcome_bind]; [|intros [= <- <-]; by apply Hrel|by destruct Hop].
  destruct (check_opened io new entries) as [[]|e|m]; [| |by destruct Hcp]; intros [= <- <-]; [|by apply Hrel].
  by rewrite Hall.
Qed.

(** ** Batches *)
Section batches.
Context `{Crypto} `{PC : PinCatalog} (io : RestoreIO) (IO : io_ok io) (duplicate : ChunkFile → sresult ChunkFile) (DT : ∀ f,
  ¬ panics (duplicate f)).
Context (plan : AuthenticatedRestorePlan) (attempt : Id32).
Implicit Types (ops : list RestoreChunkOperation) (batches : list PinnedScatterBatch).
Notation identity o op := (scatter_pin_identity (ap_tenant_namespace plan) (ap_manifest_id plan) attempt o
  (cr_object_key (ro_reference op))).
(** No identity this attempt derives for these operations is pinned yet. *)
Definition fresh_from (o : Z) ops P : Prop := ∀ i op id, ops !! i = Some op → identity (o + Z.of_nat i) op = Ok id →
  id ∉ P.
Lemma fresh_app o ops ops' P : fresh_from o (ops ++ ops') P → fresh_from o ops P ∧ fresh_from (o + zlen ops) ops' P.
Proof.
  intros Hf. split; intros i op id Hi Hid.
  - apply (Hf i op id); [by apply lookup_app_l_Some|done].
  - apply (Hf (length ops + i)%nat op id); [by rewrite lookup_app_r, Nat.add_sub' by lia|]. rewrite <-Hid. f_equal.
    unfold zlen. lia.
Qed.
Lemma identity_no_panic o op : ¬ panics (identity o op).
Proof. unfold scatter_pin_identity. no_panic. Qed.
Lemma batch_entries_no_panic b fd ops : ¬ panics (batch_entries plan attempt b fd ops).
Proof. revert fd. induction ops as [|op ops IH]; intros fd; cbn [batch_entries]; no_panic. apply identity_no_panic.
  Qed.
(** The entries of a batch are the identities the plan derives, in order. *)
Lemma batch_entries_ok b fd ops E : 0 ≤ fd → batch_entries plan attempt b fd ops = Ok E →
  scatter_pin_ids_from plan attempt (b * 16 + fd) ops = Ok E.*2.*2 ∧ E.*1 = seqZ (b * 16 + fd) (zlen ops) ∧
  length E = length ops ∧ ∀ P, fresh_from (b * 16 + fd) ops P → list_to_set E.*2.*2 ## P.
Proof.
  revert fd E. induction ops as [|op ops IH]; intros fd E Hfd He; cbn [batch_entries] in He; inv_ok; subst;
    cbn [scatter_pin_ids_from].
  { split_and!; [done|done|done|set_solver]. }
  match goal with Hm : mbind _ _ = Some _ |- _ => apply bind_Some in Hm as (base & [-> ?]%checked_mul_Some & [->
    ?]%checked_add_Some) end.
  unfold MAX_SCATTER_FDS_PER_BATCH in *. rename select (scatter_pin_identity _ _ _ _ _ = _) into Hid.
  match goal with Hr : batch_entries _ _ _ _ _ = Ok _ |- _ => apply IH in Hr as (A1 & A2 & A3 & A4); [|lia] end.
  rewrite (proj2 (Z.leb_gt _ _)) by done. rewrite Hid. cbn [mbind outcome_bind].
  replace (b * 16 + fd + 1) with (b * 16 + (fd + 1)) by lia.
  rewrite A1. cbn. split_and!; [done| |by rewrite A3|].
  - rewrite A2, zlen_cons, (seqZ_cons (b * 16 + fd)) by (pose proof (zlen_nonneg ops); lia). f_equal. f_equal; lia.
  - intros P Hf. destruct (fresh_app _ [op] ops P Hf) as [Hf1 Hf2]. rewrite zlen_cons, zlen_nil in Hf2.
    assert (list_to_set x1.*2.*2 ## P) as Hd by (apply A4;
      by replace (b * 16 + (fd + 1)) with (b * 16 + fd + (1 + 0)) by lia).
    pose proof (Hf1 0%nat op x0 eq_refl) as Hn. replace (b * 16 + fd + Z.of_nat 0) with (b * 16 + fd) in Hn by lia.
    specialize (Hn Hid). set_solver.
Qed.
(** What a descriptor says of the operation with the ordinal [o]. *)
Definition describes_op (groups : gmap StateKey Z) (o : Z) op (d : AuthenticatedScatterDescriptor) : Prop :=
  ∃ group, groups !! ro_state_key op = Some group ∧ d =
    scatter_descriptor plan attempt (o / 16) (o mod 16) o group op.
Lemma descriptor_verifies b fd o group op : verify_digest (scatter_descriptor plan attempt b fd o group op) = true.
Proof. apply bytes_eqb_refl. Qed.
Lemma batch_files_no_panic groups b fd ordinals ops pinned : 0 ≤ fd →
  (Z.to_nat fd + length ops ≤ length ordinals)%nat →
  ¬ panics (batch_files duplicate plan attempt groups b fd ordinals ops pinned).
Proof using DT.
  revert fd pinned. induction ops as [|op ops IH]; intros fd pinned Hfd Hl; cbn [batch_files length] in *;
    [by intros []|].
  apply bind_no_panic.
  - destruct (lookup_lt_is_Some_2 ordinals (Z.to_nat fd)) as [x Hx]; [lia|]. rewrite Hx. by intros [].
  - intros o _. destruct pinned as [|[file pin] pinned]; [by intros []|]. no_panic. apply IH; lia.
Qed.
Lemma batch_files_ok groups b fd ops pinned files : 0 ≤ b → 0 ≤ fd → fd + zlen ops ≤ 16 →
  batch_files duplicate plan attempt groups b fd (seqZ (b * 16) (fd + zlen ops)) ops pinned = Ok files →
    length pinned = length ops →
  files.*2 = pinned.*2 ∧
  Forall2 (λ e d, describes_op groups e.1 e.2 d) (zip (seqZ (b * 16 + fd) (zlen ops)) ops) files.*1.*1.
Proof.
  intros Hb. revert fd pinned files. induction ops as [|op ops IH]; intros fd pinned files Hfd Hlen Hf Hl;
    cbn [batch_files] in Hf; inv_ok; subst.
  { destruct pinned; [|done]. split; [done|]. constructor. }
  rewrite zlen_cons in *. pose proof (zlen_nonneg ops). destruct pinned as [|[file pin] pinned]; [done|]. inv_ok.
  bools. subst.
  match goal with Hx : expect _ _ = Ok ?x |- _ => assert (x = b * 16 + fd) as -> end.
  { match goal with Hx : expect _ _ = Ok _ |- _ => unfold expect in Hx; rewrite lookup_seqZ_lt in Hx by lia end.
    match goal with Hx : Ok _ = Ok _ |- _ => apply Ok_inj in Hx end. lia. }
  match goal with Hr : batch_files _ _ _ _ _ _ _ _ _ = Ok _ |- _ =>
    replace (fd + (1 + zlen ops)) with (fd + 1 + zlen ops) in Hr by lia; apply IH in Hr as [A1 A2];
      [|lia|lia|by injection Hl] end.
  cbn. rewrite A1. split; [done|]. rewrite (seqZ_cons (b * 16 + fd)) by lia. cbn. constructor.
  - eexists. split; [done|]. f_equal; cbn; [|].
    + rewrite Z.div_add_l, Z.div_small; lia.
    + rewrite Z.add_comm, Z.mod_add, Z.mod_small; lia.
  - replace (Z.succ (b * 16 + fd)) with (b * 16 + (fd + 1)) by lia.
    by replace (Z.pred (1 + zlen ops)) with (zlen ops) by lia.
Qed.
Definition held_ids batches : list Id32 := rt_pin_id <$> batches_pins batches.
Lemma held_app batches batches' : held_ids (batches ++ batches') = held_ids batches ++ held_ids batches'.
Proof. unfold held_ids, batches_pins. by rewrite bind_app, fmap_app. Qed.
Lemma pin_ids_app o ops ops' ids ids' : scatter_pin_ids_from plan attempt o ops = Ok ids →
  scatter_pin_ids_from plan attempt (o + zlen ops) ops' = Ok ids' →
    scatter_pin_ids_from plan attempt o (ops ++ ops') = Ok (ids ++ ids').
Proof.
  revert o ids. induction ops as [|op ops IH]; intros o ids H1 H2; cbn [scatter_pin_ids_from app] in *; inv_ok; subst.
  { by rewrite zlen_nil, Z.add_0_r in H2. }
  rewrite zlen_cons in H2. match goal with Hs : scatter_pin_identity _ _ _ _ _ = Ok _ |- _ => rewrite Hs end.
  cbn [mbind outcome_bind]. match goal with Hr : scatter_pin_ids_from _ _ _ ops =
    Ok _ |- _ => rewrite (IH _ _ Hr) end; [done|].
  by replace (o + 1 + zlen ops) with (o + (1 + zlen ops)) by lia.
Qed.
Lemma pin_ids_length o ops ids : scatter_pin_ids_from plan attempt o ops = Ok ids → length ids = length ops.
Proof. revert o ids. induction ops as [|op ops IH]; intros o ids Hi; cbn in Hi; inv_ok; subst; [done|]. cbn. f_equal.
  eauto. Qed.
(** The pins held for the batches so far, and nothing else, come on top of [P]. *)
Definition batched batches P w : Prop :=
  NoDup (held_ids batches) ∧ list_to_set (held_ids batches) ## P ∧ rw_pins w = list_to_set (held_ids batches) ∪ P.
Lemma drop_batches batches P w w1 : batched batches P w → rw_holds w1 = rw_holds w → P ⊆ rw_pins w1 →
  (deletions_succeed → rw_pins w1 ⊆ list_to_set (held_ids batches) ∪ P) →
  settled P w (drop_pins (batches_pins batches) w1).
Proof.
  intros (_ & Hd & _) Hh Hk Hx. destruct (drop_pins_ok (batches_pins batches) w1) as [D1 D2 _ _].
  unfold held_ids in *. split; [congruence|set_solver|]. intros Hdel. rewrite drop_pins_all by done.
  specialize (Hx Hdel). set_solver.
Qed.
Lemma take_short {A} (l : list A) : drop 16 l = [] → take 16 l = l.
Proof. intros Hd. rewrite <-(take_drop 16 l) at 2. by rewrite Hd, app_nil_r. Qed.
(** The batches [new] pin and describe the operations from ordinal [b * 16] on. *)
Record extends groups (b : Z) ops batches P w new w' : Prop := {
  ex_ids : scatter_pin_ids_from plan attempt (b * 16) ops = Ok (held_ids new);
  ex_pins : batched (batches ++ new) P w';
  ex_holds : rw_holds w' = rw_holds w;
  ex_described : Forall2 (λ e d, describes_op groups e.1 e.2 d) (zip (seqZ (b * 16) (zlen ops)) ops)
                   (new ≫= pb_descriptors);
  ex_bounded : Forall (λ batch, zlen (pb_descriptors batch) ≤ 16) new
}.
Notation run groups total := (scatter_batches io duplicate plan attempt groups total).
(** One batch is either added or fails without a trace. *)
Lemma one_batch groups total now rest b batches P w : 0 ≤ b → zlen now ≤ 16 → batched batches P w →
  (∃ batch w1, extends groups b now batches P w [batch] w1 ∧
    run groups total b (now :: rest) batches w = run groups total (b + 1) rest (batches ++ [batch]) w1) ∨
  (∃ e w', run groups total b (now :: rest) batches w = (Err e, w') ∧
    (fresh_from (b * 16) now P → settled P w w')).
Proof using IO DT.
  intros Hb Hl Hbat. cbn [scatter_batches]. pose proof (λ w1, drop_batches batches P w w1 Hbat) as Hdrop.
  assert (settled P w (drop_pins (batches_pins batches) w)) as Hdrop0.
  { destruct Hbat as (_ & _ & C3). apply Hdrop; [done|rewrite C3; set_solver|by rewrite C3]. }
  destruct (u32_bound <=? b); [right; by do 2 eexists|].
  pose proof (batch_entries_no_panic b 0 now) as Hnp.
  destruct (batch_entries plan attempt b 0 now) as [entries|e|m] eqn:Ee;
    [clear Hnp|right; by do 2 eexists|by destruct Hnp].
  apply batch_entries_ok in Ee as (A1 & A2 & A3 & A4); [|lia]. rewrite Z.add_0_r in *.
  destruct (pin_chunks_with_ids io entries.*2 w) as [pinned w1] eqn:Ep. apply pin_chunks_with_ids_ok in Ep; [|done|].
  2:{ unfold zlen, MAX_RELEASED_PINS in *. rewrite length_fmap, A3. lia. }
  destruct pinned as [pinned|e|m]; [|right|done].
  2:{ do 2 eexists. split; [done|]. intros Hf. destruct Ep as (B1 & B2 & B3). apply A4 in Hf.
      destruct Hbat as (_ & _ & C3). rewrite C3 in *. apply Hdrop; [done|set_solver|]. intros Hd. by apply B3. }
  destruct Ep as (B1 & B2 & B3 & B4). destruct Hbat as (C1 & C2 & C3). assert (length pinned = length now) as Hlp.
  { apply (f_equal length) in B1. rewrite !length_fmap in B1. lia. }
  rewrite A2. pose proof (batch_files_no_panic groups b 0 (seqZ (b * 16) (zlen now)) now pinned) as Hnp.
  destruct (batch_files duplicate plan attempt groups b 0 (seqZ (b * 16) (zlen now)) now pinned) as [files|e|m]
    eqn:Ef;
    [clear Hnp|right|destruct Hnp; [lia|rewrite length_seqZ; unfold zlen; lia|done]].
  2:{ do 2 eexists. split; [done|]. intros _. destruct (drop_pins_ok pinned.*2 w1) as [D1 D2 _ _].
      rewrite B1, B4 in D2. rewrite C3 in *. cbn in D2.
      apply Hdrop; [by rewrite D1, B4|set_solver|]. intros Hd. rewrite drop_pins_all, B1, B4 by done. cbn. set_solver. }
  apply (batch_files_ok groups b 0) in Ef as [D1 D2]; [|lia|lia|lia|done]. rewrite Z.add_0_r in D2.
  left. do 2 eexists. split; [|reflexivity].
  assert (∀ t, held_ids [mkScatterBatch b t files.*1.*1 files.*1.*2 files.*2] = entries.*2.*2) as Hheld.
  { intros t. unfold held_ids, batches_pins. cbn. by rewrite app_nil_r, D1, B1. }
  split; [by rewrite Hheld| |by rewrite B4|by cbn; rewrite app_nil_r|].
  - unfold batched. rewrite held_app, Hheld, list_to_set_app_L. rewrite B4. cbn. rewrite C3 in *.
    split_and!; [|set_solver|set_solver].
    apply NoDup_app. split_and!; [done| |done]. intros x Hx Hx'. apply (B3 x); set_solver.
  - repeat constructor. cbn. apply Forall2_length in D2. unfold zlen in *. rewrite length_zip, length_seqZ in D2. lia.
Qed.
Lemma extends_app groups b now ops batches P w new w1 new' w' : zlen now = 16 →
  extends groups b now batches P w new w1 →
  extends groups (b + 1) ops (batches ++ new) P w1 new' w' →
    extends groups b (now ++ ops) batches P w (new ++ new') w'.
Proof.
  intros Hl [A1 A2 A3 A4 A5] [B1 B2 B3 B4 B5]. replace ((b + 1) * 16) with (b * 16 + 16) in * by lia.
  split; [|by rewrite app_assoc|by rewrite B3| |by apply Forall_app].
  - rewrite held_app. apply pin_ids_app; [done|]. by rewrite Hl.
  - rewrite zlen_app, Hl, seqZ_app by (pose proof (zlen_nonneg ops); lia). rewrite bind_app. rewrite Hl in A4.
    rewrite zip_with_app by (rewrite length_seqZ; unfold zlen in Hl; lia). by apply Forall2_app.
Qed.
Lemma scatter_batches_ok groups total ops : ∀ b batches P w r w', 0 ≤ b → batched batches P w →
  run groups total b (chunks 16 ops) batches w = (r, w') →
  match r with
  | Ok batches' => ∃ new, batches' = batches ++ new ∧ extends groups b ops batches P w new w'
  | Err _ => fresh_from (b * 16) ops P → settled P w w'
  | Panic _ => False
  end.
Proof using IO DT.
  induction ops as [|ops Hne IH] using (chunks_ind 16 ltac:(lia)); intros b batches P w r w' Hb Hbat.
  { cbn. intros [= <- <-]. exists []. rewrite app_nil_r. split; [done|].
    split; rewrite ?app_nil_r; done || constructor. }
  rewrite chunks_cons by (done || lia). assert (zlen (take 16 ops) ≤ 16) as Hl by (unfold zlen; rewrite length_take;
    lia).
  destruct (one_batch groups total (take 16 ops) (chunks 16 (drop 16 ops)) b batches P w Hb Hl Hbat)
    as [(batch & w1 & Hx & ->)|(e & w1 & -> & Hf)].
  2:{ intros [= <- <-] Hfr. apply Hf. rewrite <-(take_drop 16 ops) in Hfr. by apply fresh_app in Hfr as [? _]. }
  destruct (decide (drop 16 ops = [])) as [Hd|Hd].
  - rewrite Hd. cbn. intros [= <- <-]. rewrite take_short in Hx by done. by exists [batch].
  - assert (zlen (take 16 ops) = 16) as Hlt.
    { unfold zlen. rewrite length_take. destruct (drop 16 ops) eqn:E; [done|]. apply (f_equal length) in E.
      rewrite length_drop in E. cbn in E. lia. }
    intros Hrun. apply (IH (b + 1) (batches ++ [batch]) P) in Hrun; [|lia|apply (ex_pins _ _ _ _ _ _ _ _ Hx)].
    destruct r as [batches'|e|m]; [|intros Hf|done].
    + destruct Hrun as (new & -> & Hy). exists ([batch] ++ new). rewrite <-app_assoc. split; [done|].
      rewrite <-(take_drop 16 ops). by eapply extends_app.
    + rewrite <-(take_drop 16 ops) in Hf. apply fresh_app in Hf as [_ Hf]. rewrite Hlt in Hf.
      destruct Hrun as [S1 S2 S3]; [by replace ((b + 1) * 16) with (b * 16 + 16) by lia|].
      split; [by rewrite S1, (ex_holds _ _ _ _ _ _ _ _ Hx)|done..].
Qed.
(** ** Whole transfers *)
Lemma prepare_ok w r w' : prepare_scatter_transfer io duplicate plan attempt w = (r, w') →
  match r with
  | Ok transfer => scatter_pin_ids plan attempt = Ok (transfer_pin_ids transfer) ∧ NoDup (transfer_pin_ids transfer) ∧
      list_to_set (transfer_pin_ids transfer) ## rw_pins w ∧
      w' = set_pins (list_to_set (transfer_pin_ids transfer) ∪ rw_pins w) w ∧
      Forall2 (λ e d, describes_op (state_groups plan) e.1 e.2 d) (zip (seqZ 0 (zlen (ap_operations plan)))
        (ap_operations plan))
        (tr_batches transfer ≫= pb_descriptors) ∧
      Forall (λ batch, zlen (pb_descriptors batch) ≤ 16) (tr_batches transfer)
  | Err _ => fresh_from 0 (ap_operations plan) (rw_pins w) → settled (rw_pins w) w w'
  | Panic _ => False
  end.
Proof using IO DT.
  unfold prepare_scatter_transfer, scatter_pin_ids. destruct (is_zero_id attempt); [intros [= <- <-]; done|].
  destruct (requires_guided_recompute plan); [intros [= <- <-]; done|]. cbv zeta.
  destruct (u32_bound <=? _); [intros [= <- <-]; done|].
  assert (batched [] (rw_pins w) w) as Hb by (split_and!; [constructor|set_solver|set_solver]).
  destruct (scatter_batches _ _ _ _ _ _ _ _ _ _) as [[batches|e|m] w1] eqn:Es;
    apply (scatter_batches_ok _ _ _ 0 [] _ _ _ _ ltac:(lia) Hb) in Es.
  - destruct Es as (new & -> & [A1 (A2 & A3 & A4) A5 A6 A7]). cbn [app] in *. rewrite Z.mul_0_l in *.
    assert (w1 = set_pins (list_to_set (held_ids new) ∪ rw_pins w) w) as Hw by (destruct w1; cbn in *; by subst).
    destruct new as [|batch new]; intros [= <- <-]; [|by split_and!].
    intros _. rewrite Hw. split; [done|set_solver|]. intros _. cbn. set_solver.
  - intros [= <- <-] Hf. by apply Es.
  - done.
Qed.
End batches.

(** ** Statistics *)
Section statistics.
Context `{CL : CryptoLaws} `{PC : PinCatalog} (io : RestoreIO) (IO : io_ok io).
Implicit Types (op : RestoreChunkOperation) (work : list (RestoreChunkOperation * Id32)).
(** The sidecar of one chunk, whatever its pin. *)
Definition fetch_sidecar op : sresult (option StatsSidecar) :=
  object ← (file ← io_open io (cr_object_key (ro_reference op)); read_opened io file (ro_reference op));
  keys ← io_schedule io (cr_key_epoch (ro_reference op));
  '(_, sidecar) ← of_pack (decode_chunk_with_stats object (ro_reference op) (ro_span op) (ro_tenant_namespace op)
    (ro_family op)
    (ro_state_key op) keys);
  Ok sidecar.
Lemma decode_sidecar_fetch op id w : decode_operation_sidecar io op id w = (fetch_sidecar op, fetch_release io op id w).
Proof.
  unfold decode_operation_sidecar, read_pinned_chunk_object, fetch_sidecar, fetch_release.
  destruct (io_open _ _) as [file| |]; cbn [mbind outcome_bind]; [|done..]. by destruct (read_opened _ _ _).
Qed.
Lemma fetch_sidecar_no_panic op : operation_ok op → ¬ panics (fetch_sidecar op).
Proof using IO CL.
  intros Hop Hp. apply (fetch_no_panic io op IO Hop). revert Hp.
  unfold fetch_sidecar, fetch, decode_read, decode_chunk.
  destruct (file ← io_open _ _; read_opened _ _ _) as [object| |]; cbn [mbind outcome_bind]; [|done..].
  destruct (io_schedule _ _) as [keys| |]; cbn [mbind outcome_bind]; [|done..].
  by destruct (decode_chunk_with_stats _ _ _ _ _ _ _) as [[]| |].
Qed.
Lemma sidecars_each_ok work sidecars w r w' : Forall operation_ok work.*1 →
  sidecars_each io work sidecars w = (r, w') → ¬ panics r ∧ released work.*2 w w' ∧
  ∀ all, r = Ok all → ∃ new, all = sidecars ++ new ∧ Forall2 (λ op s, fetch_sidecar op = Ok s) work.*1 new.
Proof using IO CL.
  revert sidecars w. induction work as [|[op id] work IH]; intros sidecars w Hf; cbn [sidecars_each].
  { intros [= <- <-]. split_and!; [by intros []|apply released_nil|]. intros all [= <-]. exists []. by rewrite app_nil_r. }
  cbn in *. apply Forall_cons in Hf as [Hop Hf]. rewrite decode_sidecar_fetch.
  pose proof (fetch_release_ok io op id w IO) as Hrel. pose proof (fetch_sidecar_no_panic op Hop) as Hnp.
  destruct (fetch_sidecar op) as [s|e|m] eqn:Es; [|clear Hnp|by destruct Hnp].
  - intros Hr. apply IH in Hr as (A1 & A2 & A3); [|done].
    split_and!; [done|exact (released_app [_] _ _ _ _ Hrel A2)|].
    intros all Hall. destruct (A3 all Hall) as (new & -> & Hn). exists (s :: new). split; [by rewrite <-app_assoc|].
    by constructor.
  - intros [= <- <-]. split_and!; [by intros []| |done].
    exact (released_app [_] _ _ _ _ Hrel (release_batch_ok [] work.*2 _)).
Qed.
Lemma sidecars_ok plan entropy w r w' : Forall operation_ok (ap_operations plan) →
  chunk_stats_sidecars io plan entropy w = (r, w') → ¬ panics r ∧
  spared (drawn_ids plan entropy) (releasable plan) w w' ∧
  ∀ all, r = Ok all → Forall2 (λ op s, fetch_sidecar op = Ok s) (ap_operations plan) all.
Proof using IO CL.
  intros Hf. unfold chunk_stats_sidecars. pose proof (spared_refl (drawn_ids plan entropy) (releasable plan) w) as Hs.
  destruct (requires_guided_recompute plan); [intros [= <- <-]; split_and!; [by intros []|done..]|].
  destruct (pin_chunks_batch _ _ _ _) as [[ids|e|m] w1] eqn:Ep; apply pin_chunks_batch_ok in Ep;
    [|subst; intros [= <- <-]; split_and!; [by intros []|done..]|done].
  destruct Ep as (A1 & A2 & A3 & -> & Er). unfold operation_references in A1. rewrite length_fmap in A1.
  assert ((zip (ap_operations plan) ids).*1 = ap_operations plan) as E1 by (apply fst_zip; lia).
  assert ((zip (ap_operations plan) ids).*2 = ids) as E2 by (apply snd_zip; lia).
  intros Hr. apply sidecars_each_ok in Hr as (B1 & B2 & B3); rewrite ?E1, ?E2 in *; [|done].
  split_and!; [done| |]. 2:{ intros all Hall. by destruct (B3 all Hall) as (new & -> & Hn). }
  apply (released_spared _ _ ids w (set_pins (list_to_set ids ∪ rw_pins w) w)); try done.
  - unfold drawn_ids. by rewrite Er.
  - intros [? ?]. split; [done|]. unfold zlen in *. by rewrite A1.
Qed.
End statistics.
