(* ===== verification/RestoreSamples.v ===== *)
(** * A small store to restore from

    Seventeen tokens of the one-layer cache of [Samples]: a full manifest of
    the first sixteen and a delta of the last, their four chunk objects, and
    the catalog and files of a store that holds them. *)
From Stdlib Require Import ZArith Lia.
From stdpp Require Import base tactics numbers list strings option sorting gmap.
From S2P Require Import Prelude Bytes Canonical Wire State Identity Manifest Frame Deps Validator.
From S2P Require Import ValidatorLaws Crypto Ids Chunk ChunkLaws Pack Samples StorePolicy.
From S2P Require Import RestorePlan ScatterPlan ChainLaws RestorePins RestoreExec RestoreLaws.
From S2P Require Import RestorePlanes RestoreCandidates.
Import ToyInstances.

Module RestoreSample.
Import Sample.
Definition tokens : list Z := seqZ 100 17.
Definition no_cut : InputCutId := mkInputCutId [] [] 0.
Definition cut_of (n : nat) : InputCutId :=
  fst (the (no_cut, []) (derive_input_cut (ks_prefix keys) tenant semantic family (take n tokens) [])).
Definition root_cut : InputCutId := Eval vm_compute in cut_of 16.
Definition leaf_cut : InputCutId := Eval vm_compute in cut_of 17.

(** Chunks: the states of the first sixteen tokens, then of the last. *)
Definition root_span : ChunkSpan := mkChunkSpan 0 16 0 64.
Definition leaf_span : ChunkSpan := mkChunkSpan 16 1 64 4.
Definition plain (b n : Z) : bytes := Z.land 255 <$> seqZ b n.
Definition object (k : StateKey) (span : ChunkSpan) (p : bytes) : ChunkObject :=
  the no_object (encode_chunk p (mkChunkEncoding tenant family k span epoch false None) keys None None).
Definition root_k : ChunkObject := object key_k root_span (plain 0 64).
Definition root_v : ChunkObject := object key_v root_span (plain 64 64).
Definition leaf_k : ChunkObject := object key_k leaf_span (plain 128 4).
Definition leaf_v : ChunkObject := object key_v leaf_span (plain 132 4).

(** Manifests. *)
Definition shape_of (n : Z) : Shape := the (mkShape [] 0) (Shape_new [n; 2]).
Definition realized_root (k : StateKey) : RealizedStateSchema :=
  mkRealizedStateSchema k (shape_of 16) (shape_of 16) [2; 1] 0 16 0 64 64 16 0 [root_span].
Definition realized_leaf (k : StateKey) : RealizedStateSchema :=
  mkRealizedStateSchema k (shape_of 17) (shape_of 1) [2; 1] 16 1 64 4 68 17 0 [leaf_span].
Definition groups : list AtomicGroup := [mkAtomicGroup 1 [key_k; key_v]].
Definition states (k v : ChunkObject) : list StateManifest :=
  [mkStateManifest key_k [chunk_ref_of k epoch]; mkStateManifest key_v [chunk_ref_of v epoch]].
Definition root : CutManifest :=
  mkCutManifest tenant epoch semantic root_cut family
    (mkRealizedCutSchemaId Full [realized_root key_k; realized_root key_v] groups 128 128) (states root_k root_v).
Definition id_of (m : CutManifest) : Id32 := manifest_id (the [] (manifest_encode_canonical m)).
Definition root_id : Id32 := Eval vm_compute in id_of root.
Definition leaf : CutManifest :=
  mkCutManifest tenant epoch semantic leaf_cut family
    (mkRealizedCutSchemaId (Delta root_id root_cut 1) [realized_leaf key_k; realized_leaf key_v] groups 8 136)
    (states leaf_k leaf_v).
Definition leaf_id : Id32 := Eval vm_compute in id_of leaf.
Definition pack_of (m : CutManifest) : bytes :=
  ep_bytes (the (mkEncodedPack [] []) (encode_authenticated_pack m keys false context None None)).
Definition root_pack : bytes := pack_of root.
Definition leaf_pack : bytes := pack_of leaf.

(** The store. *)
Definition objects : list ChunkObject := [root_k; root_v; leaf_k; leaf_v].
Definition find_object (key : Id32) : option ChunkObject := head (filter (λ o, co_object_key o = key) objects).
Definition row_of (o : ChunkObject) : StoredChunkAvailabilityRow :=
  let r := chunk_ref_of o epoch in
  mkStoredChunkAvailabilityRow (cr_chunk_id r) (cr_object_digest r) epoch (cr_plaintext_bytes r) (cr_object_bytes r) 0
    "LOCAL".
Definition schedule (e : Z) : sresult KeySchedule := if e =? epoch then Ok keys else Err SNotFound.
Definition family_id : Id32 := Eval vm_compute in the [] (representation_family_id family).
Definition checkpoint (id : Id32) (c : InputCutId) : CheckpointRow :=
  mkCheckpointRow (semantic_model_id semantic) family_id (token_root c) id (token_count c).
Definition manifest_file (id : Id32) : sresult bytes :=
  if bool_decide (id = root_id) then Ok root_pack else if bool_decide (id =
    leaf_id) then Ok leaf_pack else Err SNotFound.
Definition view : StoreView :=
  mkStoreView tenant epoch 1 manifest_file schedule
    (λ key, row_of <$> find_object key) (λ key, (λ o, (true, zlen (co_bytes o))) <$> find_object key)
    [checkpoint root_id root_cut; checkpoint leaf_id leaf_cut]
    (λ id, if bool_decide (id ∈ [root_id; leaf_id]) then Some epoch else None) (λ _, true).
Definition io : RestoreIO :=
  mkRestoreIO
    (λ key digest, o ← find_object key; if bool_decide (co_object_digest o =
      digest) then Some (zlen (co_bytes o)) else None)
    (λ key, match find_object key with Some o => Ok (mkChunkFile true (zlen (co_bytes o)) (Ok (co_bytes o))) |
      None => Err SNotFound end)
    (λ _, Ok tt) schedule.
Definition no_plan : AuthenticatedRestorePlan :=
  mkPlan [] [] semantic family (cm_realized_schema root) 0 no_cut no_cut [] [] [] RestoreResourceRequirements_default
    RestoreLimits_default.
Definition plan : AuthenticatedRestorePlan := the no_plan (build_exact_manifest view leaf_id 1 RestoreLimits_default
  context).
Definition request : RestoreRequest := mkRestoreRequest semantic family tokens [] 1 8.
Definition draw : option Id32 := Some (id 90).
Definition entropy (n : nat) : option Id32 := Some (id (100 + Z.of_nat n)).
(** A catalog whose statements succeed, and one that cannot delete. *)
Definition sound_catalog : PinCatalog := λ _ _, None.
Definition stuck_catalog : PinCatalog :=
  λ q _, match q with DeletePin _ => Some (SState "database is locked") | _ => None end.
#[export] Existing Instance sound_catalog.
Definition world : RestoreWorld := mkWorld {[id 99]} ∅.
Definition engine : PlaneSink := mkPlaneSink ∅ None.
End RestoreSample.

(** ** Facts about the sample, by evaluation *)
Module RestoreSampleFacts.
Import Sample RestoreSample.
Lemma view_fine : view_ok view.
Proof.
  split.
  - intros i b. cbn [view sv_manifest_bytes]. unfold manifest_file.
    case_bool_decide; [intros <-%Ok_inj; apply bytes_okb_ok; vm_compute; reflexivity|].
    case_bool_decide; [intros <-%Ok_inj; apply bytes_okb_ok; vm_compute; reflexivity|discriminate].
  - intros i. cbn [view sv_manifest_bytes]. unfold manifest_file. repeat case_bool_decide; intros [].
  - intros e. cbn [view sv_schedule]. unfold schedule. destruct (_ =? _); intros [].
Qed.
Lemma objects_bytes o : o ∈ objects → bytes_ok (co_bytes o).
Proof.
  intros Hin. apply bytes_okb_ok. revert o Hin. apply list.Forall_forall.
  repeat (apply Forall_cons_2; [vm_compute; reflexivity|]). apply Forall_nil_2.
Qed.
Lemma find_object_in key o : find_object key = Some o → o ∈ objects.
Proof. unfold find_object. intros Hh. apply head_Some_elem_of in Hh. by apply list_elem_of_filter in Hh as [_ ?]. Qed.
Lemma io_fine : io_ok io.
Proof.
  split.
  - intros key. cbn [io io_open]. destruct (find_object key); intros [].
  - intros r. intros [].
  - intros e. cbn [io io_schedule]. unfold schedule. destruct (_ =? _); intros [].
  - intros key file. cbn [io io_open]. destruct (find_object key); [|discriminate]. intros <-%Ok_inj [].
  - intros key file b. cbn [io io_open]. destruct (find_object key) as [o|] eqn:Ho; [|discriminate].
    intros <-%Ok_inj <-%Ok_inj.
    apply objects_bytes. by eapply find_object_in.
Qed.
Lemma plan_built : build_exact_manifest view leaf_id 1 RestoreLimits_default context = Ok plan.
Proof. vm_compute. reflexivity. Qed.
Lemma plan_facts : plan_ok plan ∧ plan_tiles plan ∧ ap_states plan ≠ [] ∧ ap_manifest_id plan = leaf_id.
Proof.
  pose proof (build_exact_ok view context view_fine leaf_id 1 RestoreLimits_default plan plan_built) as (A1 & A2 &
    A3 & A4 & A5 & _).
  split; [split; [exact A1|]|exact (conj A2 (conj A3 A4))].
  etrans; [exact (within_pins _ _ A5)|]. vm_compute. discriminate.
Qed.
Lemma sound_deletions : deletions_succeed.
Proof. intros rows. done. Qed.
Definition restored : sresult InstalledRestore * PlaneSink * RestoreWorld :=
  restore_sequential io plan draw entropy (λ _, false) engine world.
Lemma restored_installs :
  restore_sequential io plan draw entropy (λ _, false) engine world =
    (Ok (mkInstalled (id 90) leaf_id), restored.1.2, restored.2).
Proof.
  fold restored. assert (restored.1.1 = Ok (mkInstalled (id 90) leaf_id)) as E by (vm_compute; reflexivity).
  destruct restored as [[r s] w]. cbn in *. by subst.
Qed.
End RestoreSampleFacts.
