(* ===== verification/RestoreProperties.v ===== *)
(** * Properties of restores

    What holds of every restore of a stored prefix: the chain it trusts, the
    plan it builds, the candidates it ranks, the planes it fills, the pins and
    holds it takes, and the two ways it may run: staged in a shadow first, or
    by parallel workers. *)
From Stdlib Require Import ZArith Lia.
From stdpp Require Import base tactics numbers list strings option sorting gmap.
From S2P Require Import Prelude Bytes Canonical Wire State Identity Manifest Frame Deps Validator.
From S2P Require Import ValidatorLaws Crypto Ids Chunk ChunkLaws Pack StorePolicy Samples.
From S2P Require Import RestorePlan ScatterPlan ChainLaws RestorePins RestoreExec RestoreLaws.
From S2P Require Import RestorePlanes RestoreCandidates RestoreParallel ScatterTransfer.
From S2P Require Import RestoreSamples.

Section restores.
Context `{CL : CryptoLaws} `{PC : PinCatalog}.
Implicit Types (store : StoreView) (ctx : ValidationContext) (io : RestoreIO) (plan : AuthenticatedRestorePlan) (w :
  RestoreWorld).

(** C6: Authentication of a chain never panics and ends for every graph of
parents; it returns a chain exactly when the chain is authentic (a full root, every
delta linked to the manifest before it, all loaded, validated and compatible with the
leaf) and the leaf matches what was expected; a cache of loaded manifests changes nothing. *)
Theorem chain_authentication_decides store ctx minimum id expected cache : view_ok store →
  coherent store minimum ctx cache →
  ¬ panics (authenticate_chain_cached store id minimum expected ctx cache) ∧
  (∀ chain, fst <$> authenticate_chain_cached store id minimum expected ctx cache = Ok chain ↔
    ∃ leaf, authentic store minimum ctx id leaf chain ∧ matches expected (am_manifest leaf)) ∧
  fst <$> authenticate_chain_cached store id minimum expected ctx cache =
    authenticate_chain store id minimum expected ctx.
Proof.
  intros VO Hc. destruct (authenticate_ok store minimum ctx VO id expected cache Hc) as [Hnp Hok].
  split_and!; [exact Hnp| |by apply authenticate_cached]. intros chain. split.
  - destruct (authenticate_chain_cached _ _ _ _ _ _) as [[c cache']| |] eqn:E; cbn; intros [= ->].
    destruct (Hok _ _ eq_refl) as (_ & leaf & ?). by exists leaf.
  - intros (leaf & Ha & Hm). by apply (authenticate_complete store minimum ctx VO id expected leaf).
Qed.

(** C7: A plan built for a manifest restores exactly that manifest: its operations are the
chunks of an authentic chain in order, and in plan order they fill each state's plane once,
from its first byte to its last.  An operation is marked for recomputation exactly when its
chunk is tombstoned; every other chunk has an untombstoned row and a regular file of the
size.  The plan's account counts its operations and their bytes and is within the limits. *)
Theorem exact_plan_tiles store ctx id minimum limits plan : view_ok store →
  build_exact_manifest store id minimum limits ctx = Ok plan →
  Forall operation_ok (ap_operations plan) ∧ plan_tiles plan ∧ ap_states plan ≠ [] ∧ ap_manifest_id plan = id ∧
  within_limits plan limits ∧
  Forall (λ o, if ro_recompute o then tombstoned store (ro_reference o) else available store (ro_reference o))
    (ap_operations plan) ∧
  ∃ leaf chain, authentic store (Z.max minimum (sv_minimum_readable_key_epoch store)) ctx id leaf chain ∧
    ap_matched_cut plan = cm_input_cut (am_manifest leaf) ∧
    ro_reference <$> ap_operations plan = chain_references chain.
Proof. intros VO Hb. exact (build_exact_ok store ctx VO id minimum limits plan Hb). Qed.

(** C30: Candidates of a request are strictly ranked (longest match, then tier, then
source), bounded, end with recomputation, and match cuts of prefixes of the requested
tokens; a local one builds, on the unchanged store, the plan of the chain it describes,
unless the limits refuse it. *)
Theorem candidates_ranked store ctx request sources cs : view_ok store → zlen (rr_input_tokens request) < u64_bound →
  restore_candidates_with_sources store ctx request sources = Ok cs →
  ∃ scope nodes ranked, request_scope store request = Ok (scope, nodes) ∧ cs =
    ranked ++ [recompute_candidate store scope] ∧
    StronglySorted candidate_lt ranked ∧ zlen cs ≤ rr_maximum_candidates request ∧
    Forall (λ c, prefix_cut store request (rc_matched_cut c)) ranked ∧
    ∀ c limits, c ∈ ranked → rc_tier c = Tier_Local → ∃ id leaf chain d,
      authentic store (sc_minimum_key_epoch scope) ctx id leaf chain ∧
      build store ctx c limits =
        _ ← validate_limits (rc_resources c) limits 1;
        plan_of_chain store id chain d (rc_resources c) limits (rc_matched_cut c) (rc_requested_cut c).
Proof.
  intros VO Hz Hr. destruct (candidates_ok store ctx VO request sources cs Hz Hr) as (scope & nodes & ranked & A1 & A2
    & A3 & A4 & A5).
  exists scope, nodes, ranked. split_and!; try done.
  - apply (list.Forall_impl _ _ _ A5). by intros c [? _].
  - intros c limits Hin Ht. destruct (proj1 (list.Forall_forall _ _) A5 c Hin) as [_ Hd].
    destruct (described_build store ctx scope c limits (Hd Ht)) as (id & leaf & chain & d & Ha & _ & Hb).
    by exists id, leaf, chain, d.
Qed.

(** C8: A restore of well-formed operations into any sink, sequential with any
cancellations or parallel under any schedule without one, never panics.  When it fails, the
holds are as before and no pin row that was there is gone; when it installs, freeing the
engine succeeds and leaves that state.  The rows it may leave are identities it drew itself,
and it leaves none when the catalog's deletions succeed and the plan has at most the 10^6
pins one release transaction takes.  (Only an unfinished schedule has no result.) *)
Theorem restore_leaves_no_trace {T} `{VerifiedRestoreSink T} io plan draw entropy (s : T) w : io_ok io →
  Forall operation_ok (ap_operations plan) →
  (∀ cancelled, balanced (drawn_ids plan entropy) (releasable plan) False w
     (restore_sequential io plan draw entropy cancelled s w)) ∧
  (∀ parallelism actions before after, Cancel ∉ actions →
     balanced (drawn_ids plan entropy) (releasable plan)
       (∃ (s : T) w, restore_operations_parallel io plan entropy parallelism actions s w = None) w
       (restore_parallel io plan draw entropy parallelism actions before after s w)).
Proof.
  intros IO Hops. split.
  - intros cancelled. by apply sequential_balanced.
  - intros parallelism actions before after Hc. unfold restore_parallel.
    destruct (_ <? _)%nat; [apply spared_refl|]. apply restore_balanced. intros s' w'. by apply parallel_ok.
Qed.

(** C9: Once a restore installs, the engine's plane of each state has the declared size and
holds the decoded chunks of the state's operations one after the other. *)
Theorem restore_fills_planes io plan draw entropy cancelled (s : PlaneSink) w installed s' w' : io_ok io →
  plan_tiles plan →
  restore_sequential io plan draw entropy cancelled s w = (Ok installed, s', w') →
  ∃ chunks planes, fetch_all io (ap_operations plan) = Ok chunks ∧ s' = mkPlaneSink ∅ (Some planes) ∧
    ∀ p, p ∈ ap_states plan → planes !! sd_key (rp_declaration p) =
      Some (plane_bytes (sd_key (rp_declaration p)) chunks) ∧
      zlen (plane_bytes (sd_key (rp_declaration p)) chunks) = rp_plaintext_bytes p.
Proof. intros IO PT Hr. exact (restored_planes io IO plan PT draw entropy cancelled s w installed s' w' Hr). Qed.


(** C31: Over every sequence of reservations, attachments and releases, whether the catalog
deletes the pins or fails to, the charges of all restore holds together stay within the
declared limits without overflow; a reservation is
granted exactly when the identity is new and the total leaves room. *)
Theorem holds_within_limits limits actions w : Forall hold_action_ok actions → accounted limits w →
  let w' := foldl (λ w action, hold_step limits action w) w actions in
  accounted limits w' ∧
  ∀ id charge, charge_nonneg charge →
    (∃ w'', reserve_restore_resources id charge limits w' = Ok w'') ↔
    rw_holds w' !! id = None ∧ charge_fits (charge_plus (total_charge (hold_values (rw_holds w'))) charge) ∧
    charge_within_limits (charge_plus (total_charge (hold_values (rw_holds w'))) charge) limits = true.
Proof.
  intros Hok Ha. assert (accounted limits (foldl (λ w action, hold_step limits action w) w actions)) as Hacc.
  { revert w Ha. induction Hok as [|action actions Ho _ IH]; intros w Ha; [done|]. cbn [foldl]. apply IH.
    by apply hold_step_accounted. }
  split; [exact Hacc|]. intros id charge Hn. rewrite (reserve_accounted limits id charge _ Hn Hacc). split.
  - intros [w'' Hr]. case_bool_decide as Hid; [done|]. destruct (decide _) as [Hf|]; [|done].
    destruct (charge_within_limits _ _) eqn:Hl; [|done].
    split_and!; [|exact Hf|reflexivity]. destruct (_ !! id); [exfalso; eauto|done].
  - intros (Hid & Hf & Hl). rewrite Hid. rewrite bool_decide_eq_false_2 by (by intros [? ?]).
    destruct (decide _) as [_|]; [|done]. rewrite Hl. eauto.
Qed.

(** C11: Under every schedule of the workers without a cancellation, a parallel run of the
operations that succeeds returns the pins, leaves the sink and leaves the catalog exactly as
the sequential run does, in any sink where the writes of the plan's chunks commute (the
reference sink of C9 is one, for a plan that tiles).  Under every schedule a run that returns
an error has given back the pins it took: what may be left are identities it drew, and none
when the deletions succeed and the pins fit one transaction.  A cancellation that only the
workers see is not returned as an error, and is not covered. *)
Theorem parallel_is_sequential {T} `{VerifiedRestoreSink T} io plan entropy parallelism actions (s : T) w r s' w' :
  io_ok io → restore_operations_parallel io plan entropy parallelism actions s w = Some (r, s', w') →
  (writes_commute io plan (T:=T) → Cancel ∉ actions → ∀ pins, r = Ok pins →
     restore_operations_sequential io plan entropy (λ _, false) s w = (Ok pins, s', w')) ∧
  (∀ e, r = Err e → spared (drawn_ids plan entropy) (releasable plan) w w').
Proof.
  intros IO Hr. split.
  - intros Hcom Hc pins ->. exact (parallel_succeeded io IO plan entropy parallelism actions s w pins s' w' Hc Hcom Hr).
  - intros e ->. by eapply parallel_failed.
Qed.

(** C12: Parallel restores neither deadlock nor run on: after any schedule, unless every
worker has stopped and the channel is empty, some thread can act, and no schedule has more
than four actions per chunk and one per worker. *)
Theorem parallel_terminates {T} `{VerifiedRestoreSink T} io plan entropy parallelism actions (s : T) w ids w1 p :
  io_ok io → Forall operation_ok (ap_operations plan) → (0 < parallelism)%nat →
  pin_chunks_batch io (operation_references plan) entropy w = (Ok ids, w1) →
  run_actions io plan ids parallelism actions (parallel_start plan parallelism s w1) = Some p →
  (finished p = true ∨ ∃ a, a ≠ Cancel ∧ is_Some (act io plan ids parallelism a p)) ∧
  (steps actions ≤ 4 * length (ap_operations plan) + worker_count plan parallelism)%nat.
Proof.
  intros IO Hf Hp Hb Hr. destruct (parallel_start_inv io plan entropy w ids w1 parallelism s Hb) as (Hl & Hnd & Hdis &
    -> & _ & Hinv).
  split.
  - destruct (finished p) eqn:E; [by left|right]. eapply progress; eauto. eapply run_inv; eauto.
  - pose proof (run_steps io plan ids parallelism Hl actions _ _ Hr) as Hs. unfold weight, parallel_start in Hs.
    cbn in Hs.
    assert (∀ n, sum_list (worker_weight <$> replicate n Idle) = n) as Hw by (induction n; cbn; [done|by f_equal]).
    rewrite Hw in Hs. unfold total in Hs. lia.
Qed.
End restores.

(** ** On the sample store *)
Module RestoreWitnesses.
Import ToyInstances Sample RestoreSample RestoreSampleFacts.

Lemma chain_authentication_decides_witness : ∃ chain leaf,
  authenticate_chain view leaf_id 1 None context = Ok chain ∧ length chain = 2%nat ∧
    authentic view 1 context leaf_id leaf chain.
Proof.
  destruct (chain_authentication_decides view context 1 leaf_id None ∅ view_fine (coherent_empty view 1 context)) as
    (_ & Hiff & Heq).
  assert (length <$> authenticate_chain view leaf_id 1 None context = Ok 2%nat) as Hlen by (vm_compute; reflexivity).
  rewrite Heq in Hiff. destruct (authenticate_chain view leaf_id 1 None context) as [chain| |]; [|discriminate..].
  destruct (proj1 (Hiff chain) eq_refl) as (leaf & Ha & _). apply Ok_inj in Hlen.
  exists chain, leaf. exact (conj eq_refl (conj Hlen Ha)).
Defined.
Lemma exact_plan_tiles_witness : build_exact_manifest view leaf_id 1 RestoreLimits_default context = Ok plan ∧
  plan_tiles plan ∧ within_limits plan RestoreLimits_default ∧
  ro_target_offset <$> ap_operations plan = [0; 0; 64; 64] ∧ ro_recompute <$> ap_operations plan = [false; false; false; false].
Proof.
  destruct (exact_plan_tiles view context leaf_id 1 RestoreLimits_default plan view_fine plan_built) as (_ & Ht &
    _ & _ & Hw & _).
  exact (conj plan_built (conj Ht (conj Hw (conj eq_refl eq_refl)))).
Defined.
Definition gateway : RestoreAvailableSource :=
  Gateway leaf_cut leaf_id leaf_id epoch 136 (mkRequirements 136 0 8256 0 0 64 0 0).
Lemma candidates_ranked_witness : ∃ cs ranked, restore_candidates_with_sources view context request [gateway] =
  Ok cs ∧
  rc_tier <$> cs = [Tier_Local; Tier_Gateway; Tier_Recompute] ∧ length ranked = 2%nat ∧
  Forall (λ c, prefix_cut view request (rc_matched_cut c)) ranked.
Proof.
  assert (match restore_candidates_with_sources view context request [gateway] with Ok cs => map rc_tier cs |
    _ => [] end =
    [Tier_Local; Tier_Gateway; Tier_Recompute]) as Ht by (vm_compute; reflexivity).
  destruct (restore_candidates_with_sources view context request [gateway]) as [cs| |] eqn:E; [|discriminate..].
  assert (zlen (rr_input_tokens request) < u64_bound) as Hz by (vm_compute; reflexivity).
  destruct (candidates_ranked view context request [gateway] cs view_fine Hz E) as (scope & nodes & ranked & _ & Hcs &
    _ & _ & Hc & _).
  exists cs, ranked. split; [reflexivity|split; [exact Ht|split; [|exact Hc]]].
  apply (f_equal length) in Ht. rewrite length_fmap, Hcs, length_app in Ht. cbn in Ht. lia.
Defined.
Lemma restore_leaves_no_trace_witness : ∃ w', restored.2 = w' ∧ rw_pins w' ≠ rw_pins world ∧
  engine_free (mkInstalled (id 90) leaf_id) w' = (Ok tt, world).
Proof.
  destruct (restore_leaves_no_trace io plan draw entropy engine world io_fine (po_families _ (proj1 plan_facts))) as [H _].
  specialize (H (λ _, false)). rewrite restored_installs in H. destruct H as (_ & w'' & He & Hs).
  rewrite (sp_exact _ _ _ _ Hs (conj sound_deletions (po_pins _ (proj1 plan_facts)))) in He. exists restored.2.
  split; [reflexivity|split; [|exact He]]. apply (bool_decide_unpack _). vm_compute. reflexivity.
Defined.
Lemma restore_fills_planes_witness : ∃ planes, pk_engine restored.1.2 = Some planes ∧
  planes !! key_v = Some (plain 64 64 ++ plain 132 4).
Proof.
  destruct (restore_fills_planes io plan draw entropy (λ _,
    false) engine world _ _ _ io_fine (proj1 (proj2 plan_facts)) restored_installs)
    as (chunks & planes & _ & Hs & _).
  exists planes. rewrite Hs. split; [reflexivity|].
  assert ((pk_engine restored.1.2 ≫= lookup key_v) = Some (plain 64 64 ++ plain 132 4)) as Hv by (vm_compute;
    reflexivity).
  rewrite Hs in Hv. exact Hv.
Defined.
Definition one_pin : RestoreResourceCharge := mkCharge 68 8192 8256 0 0 64 1 1.
Definition one_restore : RestoreLimits := mkLimits 68 8192 8256 0 0 64 1 1 1.
Lemma holds_within_limits_witness :
  accounted one_restore (foldl (λ w action, hold_step one_restore action w) (mkWorld ∅ ∅) [Reserve (id 1) one_pin;
    Reserve (id 2) one_pin]) ∧
  rw_holds (foldl (λ w action, hold_step one_restore action w) (mkWorld ∅ ∅) [Reserve (id 1) one_pin;
    Reserve (id 2) one_pin]) !! id 2 = None.
Proof.
  split; [|vm_compute; reflexivity].
  apply (holds_within_limits one_restore [Reserve (id 1) one_pin; Reserve (id 2) one_pin] (mkWorld ∅ ∅)).
  - assert (charge_nonneg one_pin) as Hn by (vm_compute; repeat (apply Forall_cons_2; [discriminate|]);
      apply Forall_nil_2).
    apply Forall_cons_2; [exact Hn|]. apply Forall_cons_2; [exact Hn|apply Forall_nil_2].
  - split; [apply Forall_nil_2|exact default_fits|vm_compute; reflexivity].
Defined.
(** Two workers take the chunks out of order. *)
Definition schedule : list Action :=
  [Claim 0; Claim 1; Work 1; Send 1; Claim 1; Work 1; Work 0; Receive; Send 0; Send 1; Claim 0; Receive; Receive;
    Work 0; Send 0; Receive; Claim 0; Claim 1].
Lemma parallel_is_sequential_witness : ∃ pins s' w',
  restore_operations_parallel io plan entropy 2 schedule (plane_begin leaf_id (ap_states plan) engine).2 world =
    Some (Ok pins, s', w') ∧
  length pins = 4%nat ∧
  restore_operations_sequential io plan entropy (λ _, false) (plane_begin leaf_id (ap_states plan) engine).2 world =
    (Ok pins, s', w').
Proof.
  assert (match restore_operations_parallel io plan entropy 2 schedule (plane_begin leaf_id (ap_states plan) engine).2
    world with
          | Some (Ok pins, _, _) => length pins | _ => O end = 4%nat) as Hlen by (vm_compute; reflexivity).
  destruct (restore_operations_parallel io plan entropy 2 schedule _ world) as [[[[pins| |] s'] w']|] eqn:E;
    [|discriminate..].
  exists pins, s', w'. split; [reflexivity|split; [exact Hlen|]].
  apply (parallel_is_sequential io plan entropy 2 schedule _ world _ _ _ io_fine E).
  - intros chunks c1 c2 Hf H1 H2. exact (plan_commutes io io_fine plan (proj1 (proj2 plan_facts)) chunks c1 c2 Hf H1 H2).
  - apply (bool_decide_unpack _). vm_compute. reflexivity.
  - reflexivity.
Defined.
Lemma parallel_terminates_witness : ∃ ids w1 p, pin_chunks_batch io (operation_references plan) entropy world =
  (Ok ids, w1) ∧
  run_actions io plan ids 2 [Claim 0; Cancel; Work 0] (parallel_start plan 2 engine w1) = Some p ∧ finished p =
    false ∧
  ∃ a, a ≠ Cancel ∧ is_Some (act io plan ids 2 a p).
Proof.
  assert (match pin_chunks_batch io (operation_references plan) entropy world with
          | (Ok ids, w1) => finished <$> run_actions io plan ids 2 [Claim 0; Cancel;
            Work 0] (parallel_start plan 2 engine w1) | _ => None end = Some false)
    as Hf by (vm_compute; reflexivity).
  destruct (pin_chunks_batch io (operation_references plan) entropy world) as [[ids| |] w1] eqn:Eb; [|discriminate..].
  destruct (run_actions io plan ids 2 [Claim 0; Cancel; Work 0] (parallel_start plan 2 engine w1)) as [p|] eqn:Er;
    [|discriminate].
  apply (inj Some) in Hf. exists ids, w1, p. split; [reflexivity|split; [exact Er|split; [exact Hf|]]].
  destruct (parallel_terminates io plan entropy 2 [Claim 0; Cancel;
    Work 0] engine world ids w1 p io_fine (po_families plan (proj1 plan_facts))
    ltac:(lia) Eb Er) as [[H|H] _]; [congruence|exact H].
Defined.

(** ** Where the code does otherwise *)
(** A cancellation that only the workers see: the operations end without an
    error and with no pins, so the restore reports that the pins disagree with
    the plan instead of the cancellation, and the pin rows of the two chunks
    nobody claimed stay in the catalog. *)
Definition cancelled_schedule : list Action := [Claim 0; Claim 1; Cancel; Work 0; Work 1].
Lemma cancelled_parallel_leaks :
  let '(r, _, w') := restore_parallel io plan draw entropy 2 cancelled_schedule false true engine world in
  (match r with Err e => Some e | _ => None end, size (rw_holds w'), size (rw_pins world), size (rw_pins w')) =
  (Some (SAuthentication "retained source pins disagree with authenticated plan resources"), 0%nat, 1%nat, 3%nat).
Proof. vm_compute. reflexivity. Qed.
(** A restore that is cancelled before its third chunk, on a catalog that deletes and on one
    that cannot: there the rows of its own four pins stay, and nothing else. *)
Lemma stuck_catalog_leaves_rows :
  let run PC := restore_sequential (PC := PC) io plan draw entropy (λ n, bool_decide (n = 3)%nat) engine world in
  (size (rw_pins (run sound_catalog).2), size (rw_pins (run stuck_catalog).2),
   bool_decide (rw_pins (run stuck_catalog).2 = drawn_ids plan entropy ∪ rw_pins world),
   size (rw_holds (run stuck_catalog).2)) = (1, 5, true, 0)%nat.
Proof. vm_compute. reflexivity. Qed.
(** Pinning with identities that are already pinned releases the earlier pins. *)
Lemma pinned_twice_releases :
  let entries := zip (operation_references plan) [id 1; id 2; id 3; id 4] in
  let '(first, w1) := pin_chunks_with_ids io entries world in
  let '(second, w2) := pin_chunks_with_ids io entries w1 in
  (is_ok first, size (rw_pins w1), is_ok second, size (rw_pins w2)) = (true, 5%nat, false, 1%nat).
Proof. vm_compute. reflexivity. Qed.
End RestoreWitnesses.
