(* ===== verification/Capacity.v ===== *)
(** * The capacity worksheet of a deployment (kvpack, capacity.rs)

    Integer planning rules for one deployment: from measured rates and counts to
    the quotas, file systems and line rates it needs.  All inputs are [u64];
    products are taken in [u128] and every result must fit [u64] again.  The
    contract is stated with least and greatest capacities: a quota is the
    smallest number of bytes that satisfies the policy, not a formula. *)
From Stdlib Require Import ZArith Lia.
From stdpp Require Import base tactics numbers list strings option sorting gmap.
From S2P Require Import Prelude Bytes StorePolicy.

(** ** Policy constants *)
Definition CAPACITY_WORKSHEET_SCHEMA_VERSION : Z := 1.
Definition PRODUCTION_CAPACITY_RATIO_MILLIS : Z := 1000.
Definition PRODUCTION_DURABLE_TARGET_MILLIS : Z := 750.
Definition PRODUCTION_QUARANTINE_MILLIS : Z := 10.
Definition PRODUCTION_INTERNAL_TARGET_MILLIS : Z := 750.
Definition PRODUCTION_WRITE_AMPLIFICATION_LIMIT_MILLIS : Z := 1300.
Definition PRODUCTION_GATEWAY_DATA_STREAMS : Z := 4.
Definition PRODUCTION_GATEWAY_RECEIVE_BUFFERS_PER_STREAM : Z := 2.
Definition PRODUCTION_GATEWAY_RECEIVE_BUFFER_BYTES : Z := 4 * 1024 * 1024.
Definition PRODUCTION_GATEWAY_IN_FLIGHT_BYTES : Z :=
  PRODUCTION_GATEWAY_DATA_STREAMS * PRODUCTION_GATEWAY_RECEIVE_BUFFERS_PER_STREAM
  * PRODUCTION_GATEWAY_RECEIVE_BUFFER_BYTES.
Definition MAX_CAPACITY_CONCURRENCY : Z := 1000000.
Definition MAX_CAPACITY_GATEWAY_INSTANCES : Z := 65536.
Definition MAX_CAPACITY_CATALOG_BYTES_PER_ROW : Z := 1024 * 1024.
Definition MAX_CAPACITY_WRITE_AMPLIFICATION_MILLIS : Z := 10000.
Definition MAX_CAPACITY_NETWORK_UTILIZATION_MILLIS : Z := 950.
Definition MAX_CAPACITY_BACKUP_GENERATIONS : Z := 3650.

(** ** Data *)
Record CapacityWorksheetInput := {
  ci_retained_unique_kv_bytes : Z;
  ci_retained_object_overhead_bytes : Z;
  ci_pinned_object_bytes : Z;
  ci_catalog_row_count : Z;
  ci_catalog_bytes_per_row : Z;
  ci_catalog_fixed_bytes : Z;
  ci_wal_reserve_bytes : Z;
  ci_concurrent_uploads : Z;
  ci_maximum_upload_bytes : Z;
  ci_concurrent_restores : Z;
  ci_maximum_agent_plan_bytes : Z;
  ci_source_pins_per_restore : Z;
  ci_source_fds_per_restore : Z;
  ci_gateway_instances : Z;
  ci_daily_unique_kv_bytes : Z;
  ci_peak_five_minute_unique_kv_bytes : Z;
  ci_peak_five_minute_new_object_bytes : Z;
  ci_physical_write_amplification_millis : Z;
  ci_device_write_budget_bytes_per_day : Z;
  ci_peak_network_payload_bytes_per_second : Z;
  ci_network_target_utilization_millis : Z;
  ci_backup_bytes_per_generation : Z;
  ci_retained_backup_generations : Z;
}.

Record CapacityWorksheet := {
  cw_schema_version : Z;
  cw_input : CapacityWorksheetInput;
  cw_retained_object_bytes : Z;
  cw_pinned_object_bytes : Z;
  cw_evictable_object_bytes : Z;
  cw_staging_quota_bytes : Z;
  cw_store_quota_bytes : Z;
  cw_quarantine_cap_bytes : Z;
  cw_minimum_object_filesystem_bytes : Z;
  cw_estimated_catalog_live_bytes : Z;
  cw_wal_reserve_bytes : Z;
  cw_catalog_backup_temporary_bytes : Z;
  cw_minimum_internal_filesystem_bytes : Z;
  cw_agent_admission_capacity_bytes : Z;
  cw_gateway_transport_window_bytes : Z;
  cw_admission_and_window_bytes : Z;
  cw_maximum_active_grants : Z;
  cw_required_source_pins : Z;
  cw_required_source_fds : Z;
  cw_endurance_bytes_per_five_minutes : Z;
  cw_physical_write_bytes_per_five_minutes : Z;
  cw_physical_write_bytes_per_day : Z;
  cw_device_write_budget_bytes_per_day : Z;
  cw_endurance_within_device_budget : bool;
  cw_physical_write_amplification_within_v1_gate : bool;
  cw_required_network_bits_per_second : Z;
  cw_backup_retention_bytes : Z;
}.

Inductive CapacityPlanningError :=
  | Invalid (message : string)
  | Overflow (message : string).

(** ** Checked arithmetic *)
Definition checked_mul_u128 (a b : Z) : option Z :=
  if a * b <? u128_bound then Some (a * b) else None.

Definition capacity_add (left right : Z) (label : string) : outcome CapacityPlanningError Z :=
  ok_or (checked_add left right) (Overflow label).
Definition capacity_multiply (left right : Z) (label : string) : outcome CapacityPlanningError Z :=
  value ← ok_or (checked_mul_u128 left right) (Overflow label);
  ok_or (try_from u64_bound value) (Overflow label).
(** Division by zero is the one way these helpers could panic. *)
Definition scale_ceil (value numerator denominator : Z) (label : string)
    : outcome CapacityPlanningError Z :=
  scaled ← ok_or (checked_mul_u128 value numerator) (Overflow label);
  if denominator =? 0 then Panic "division by zero" else
  ok_or (try_from u64_bound (div_ceil scaled denominator)) (Overflow label).
Definition scale_floor (value numerator denominator : Z) (label : string)
    : outcome CapacityPlanningError Z :=
  scaled ← ok_or (checked_mul_u128 value numerator) (Overflow label);
  if denominator =? 0 then Panic "division by zero" else
  ok_or (try_from u64_bound (scaled / denominator)) (Overflow label).

(** ** Validation of the inputs *)
Definition capacity_validate (input : CapacityWorksheetInput) : outcome CapacityPlanningError unit :=
  if ci_retained_unique_kv_bytes input =? 0 then
    Err (Invalid "retained unique KV bytes must be nonzero") else
  if (ci_catalog_row_count input =? 0) || (ci_catalog_bytes_per_row input =? 0)
     || (MAX_CAPACITY_CATALOG_BYTES_PER_ROW <? ci_catalog_bytes_per_row input)
     || (ci_catalog_fixed_bytes input =? 0) || (ci_wal_reserve_bytes input =? 0) then
    Err (Invalid "catalog rows, row size, fixed bytes, or WAL reserve are outside bounds") else
  if (ci_concurrent_uploads input =? 0)
     || (MAX_CAPACITY_CONCURRENCY <? ci_concurrent_uploads input)
     || (ci_maximum_upload_bytes input =? 0) then
    Err (Invalid "upload concurrency or maximum upload bytes are outside bounds") else
  if (ci_concurrent_restores input =? 0)
     || (MAX_CAPACITY_CONCURRENCY <? ci_concurrent_restores input)
     || (ci_maximum_agent_plan_bytes input =? 0)
     || (MAX_CAPACITY_CONCURRENCY <? ci_source_pins_per_restore input)
     || (ci_source_pins_per_restore input <? ci_source_fds_per_restore input) then
    Err (Invalid "restore concurrency, plan bytes, pins, or descriptors are outside bounds") else
  if (ci_gateway_instances input =? 0)
     || (MAX_CAPACITY_GATEWAY_INSTANCES <? ci_gateway_instances input) then
    Err (Invalid "gateway instance count is outside bounds") else
  if (ci_daily_unique_kv_bytes input =? 0)
     || (ci_daily_unique_kv_bytes input <? ci_peak_five_minute_unique_kv_bytes input)
     || (ci_peak_five_minute_new_object_bytes input =? 0)
     || (ci_physical_write_amplification_millis input =? 0)
     || (MAX_CAPACITY_WRITE_AMPLIFICATION_MILLIS
         <? ci_physical_write_amplification_millis input)
     || (ci_device_write_budget_bytes_per_day input =? 0) then
    Err (Invalid "write rate, amplification, or device budget is outside bounds") else
  if (ci_peak_network_payload_bytes_per_second input =? 0)
     || (ci_network_target_utilization_millis input =? 0)
     || (MAX_CAPACITY_NETWORK_UTILIZATION_MILLIS
         <? ci_network_target_utilization_millis input) then
    Err (Invalid "network payload rate or target utilization is outside bounds") else
  if (ci_backup_bytes_per_generation input =? 0)
     || (ci_retained_backup_generations input =? 0)
     || (MAX_CAPACITY_BACKUP_GENERATIONS <? ci_retained_backup_generations input) then
    Err (Invalid "backup generation bytes or retention count are outside bounds") else
  Ok tt.

(** ** The worksheet *)
Definition production_v1 (input : CapacityWorksheetInput)
    : outcome CapacityPlanningError CapacityWorksheet :=
  _ ← capacity_validate input;
  retained ← capacity_add (ci_retained_unique_kv_bytes input)
    (ci_retained_object_overhead_bytes input) "retained object bytes";
  if retained <? ci_pinned_object_bytes input then
    Err (Invalid "pinned object bytes exceed retained object bytes") else
  let evictable := retained - ci_pinned_object_bytes input in
  staging ← capacity_multiply (ci_concurrent_uploads input) (ci_maximum_upload_bytes input)
    "staging quota";
  retained_target_quota ← scale_ceil retained PRODUCTION_CAPACITY_RATIO_MILLIS
    PRODUCTION_DURABLE_TARGET_MILLIS "retained-data store quota";
  retained_plus_staging ← capacity_add retained staging "retained plus staging bytes";
  let quota := Z.max retained_target_quota retained_plus_staging in
  quarantine ← scale_floor quota PRODUCTION_QUARANTINE_MILLIS
    PRODUCTION_CAPACITY_RATIO_MILLIS "quarantine cap";
  object_filesystem ← capacity_add quota quarantine "object filesystem capacity";
  rows ← capacity_multiply (ci_catalog_row_count input) (ci_catalog_bytes_per_row input)
    "catalog row estimate";
  live ← capacity_add (ci_catalog_fixed_bytes input) rows "live catalog estimate";
  let backup_temporary := live in
  live_and_wal ← capacity_add live (ci_wal_reserve_bytes input) "catalog plus WAL reserve";
  with_backup ← capacity_add live_and_wal backup_temporary "catalog backup working set";
  internal_filesystem ← scale_ceil with_backup PRODUCTION_CAPACITY_RATIO_MILLIS
    PRODUCTION_INTERNAL_TARGET_MILLIS "internal filesystem capacity";
  admission ← capacity_multiply (ci_concurrent_restores input)
    (ci_maximum_agent_plan_bytes input) "agent admission capacity";
  window ← capacity_multiply (ci_gateway_instances input) PRODUCTION_GATEWAY_IN_FLIGHT_BYTES
    "gateway transport windows";
  admission_and_window ← capacity_add admission window "admission and gateway window capacity";
  pins ← capacity_multiply (ci_concurrent_restores input) (ci_source_pins_per_restore input)
    "source pin count";
  fds ← capacity_multiply (ci_concurrent_restores input) (ci_source_fds_per_restore input)
    "source descriptor count";
  writes_five_minutes ← scale_ceil (ci_peak_five_minute_unique_kv_bytes input)
    (ci_physical_write_amplification_millis input) PRODUCTION_CAPACITY_RATIO_MILLIS
    "five-minute physical writes";
  writes_day ← scale_ceil (ci_daily_unique_kv_bytes input)
    (ci_physical_write_amplification_millis input) PRODUCTION_CAPACITY_RATIO_MILLIS
    "daily physical writes";
  payload_bits ← capacity_multiply (ci_peak_network_payload_bytes_per_second input) 8
    "network payload bits";
  network ← scale_ceil payload_bits PRODUCTION_CAPACITY_RATIO_MILLIS
    (ci_network_target_utilization_millis input) "network line rate";
  backups ← capacity_multiply (ci_backup_bytes_per_generation input)
    (ci_retained_backup_generations input) "backup retention";
  Ok {| cw_schema_version := CAPACITY_WORKSHEET_SCHEMA_VERSION;
        cw_input := input;
        cw_retained_object_bytes := retained;
        cw_pinned_object_bytes := ci_pinned_object_bytes input;
        cw_evictable_object_bytes := evictable;
        cw_staging_quota_bytes := staging;
        cw_store_quota_bytes := quota;
        cw_quarantine_cap_bytes := quarantine;
        cw_minimum_object_filesystem_bytes := object_filesystem;
        cw_estimated_catalog_live_bytes := live;
        cw_wal_reserve_bytes := ci_wal_reserve_bytes input;
        cw_catalog_backup_temporary_bytes := backup_temporary;
        cw_minimum_internal_filesystem_bytes := internal_filesystem;
        cw_agent_admission_capacity_bytes := admission;
        cw_gateway_transport_window_bytes := window;
        cw_admission_and_window_bytes := admission_and_window;
        cw_maximum_active_grants := ci_concurrent_restores input;
        cw_required_source_pins := pins;
        cw_required_source_fds := fds;
        cw_endurance_bytes_per_five_minutes := ci_peak_five_minute_new_object_bytes input;
        cw_physical_write_bytes_per_five_minutes := writes_five_minutes;
        cw_physical_write_bytes_per_day := writes_day;
        cw_device_write_budget_bytes_per_day := ci_device_write_budget_bytes_per_day input;
        cw_endurance_within_device_budget :=
          writes_day <=? ci_device_write_budget_bytes_per_day input;
        cw_physical_write_amplification_within_v1_gate :=
          ci_physical_write_amplification_millis input
          <=? PRODUCTION_WRITE_AMPLIFICATION_LIMIT_MILLIS;
        cw_required_network_bits_per_second := network;
        cw_backup_retention_bytes := backups |}.

(** ** The contract *)
Definition least (P : Z → Prop) (v : Z) : Prop := P v ∧ ∀ v', P v' → v ≤ v'.
Definition greatest (P : Z → Prop) (v : Z) : Prop := P v ∧ ∀ v', P v' → v' ≤ v.

(** Machine words, and the bounds of a meaningful deployment. *)
Definition inputs_in_u64 (i : CapacityWorksheetInput) : Prop :=
  Forall in_u64
    [ci_retained_unique_kv_bytes i; ci_retained_object_overhead_bytes i;
     ci_pinned_object_bytes i; ci_catalog_row_count i; ci_catalog_bytes_per_row i;
     ci_catalog_fixed_bytes i; ci_wal_reserve_bytes i; ci_concurrent_uploads i;
     ci_maximum_upload_bytes i; ci_concurrent_restores i; ci_maximum_agent_plan_bytes i;
     ci_source_pins_per_restore i; ci_source_fds_per_restore i; ci_gateway_instances i;
     ci_daily_unique_kv_bytes i; ci_peak_five_minute_unique_kv_bytes i;
     ci_peak_five_minute_new_object_bytes i; ci_physical_write_amplification_millis i;
     ci_device_write_budget_bytes_per_day i; ci_peak_network_payload_bytes_per_second i;
     ci_network_target_utilization_millis i; ci_backup_bytes_per_generation i;
     ci_retained_backup_generations i].
Definition inputs_valid (i : CapacityWorksheetInput) : Prop :=
  0 < ci_retained_unique_kv_bytes i ∧ 0 < ci_catalog_row_count i ∧
  0 < ci_catalog_bytes_per_row i ≤ 1048576 ∧ 0 < ci_catalog_fixed_bytes i ∧
  0 < ci_wal_reserve_bytes i ∧ 0 < ci_concurrent_uploads i ≤ 1000000 ∧
  0 < ci_maximum_upload_bytes i ∧ 0 < ci_concurrent_restores i ≤ 1000000 ∧
  0 < ci_maximum_agent_plan_bytes i ∧
  ci_source_fds_per_restore i ≤ ci_source_pins_per_restore i ≤ 1000000 ∧
  0 < ci_gateway_instances i ≤ 65536 ∧ 0 < ci_daily_unique_kv_bytes i ∧
  ci_peak_five_minute_unique_kv_bytes i ≤ ci_daily_unique_kv_bytes i ∧
  0 < ci_peak_five_minute_new_object_bytes i ∧
  0 < ci_physical_write_amplification_millis i ≤ 10000 ∧
  0 < ci_device_write_budget_bytes_per_day i ∧
  0 < ci_peak_network_payload_bytes_per_second i ∧
  0 < ci_network_target_utilization_millis i ≤ 950 ∧
  0 < ci_backup_bytes_per_generation i ∧ 0 < ci_retained_backup_generations i ≤ 3650.

(** What the object store needs: the smallest quota of which the retained data
    take at most 75% and which still holds the staged uploads, plus the largest
    quarantine of at most 1% of it. *)
Definition object_store_meets (i : CapacityWorksheetInput) (w : CapacityWorksheet) : Prop :=
  cw_retained_object_bytes w
    = ci_retained_unique_kv_bytes i + ci_retained_object_overhead_bytes i ∧
  cw_pinned_object_bytes w = ci_pinned_object_bytes i ∧
  cw_pinned_object_bytes w ≤ cw_retained_object_bytes w ∧
  cw_evictable_object_bytes w = cw_retained_object_bytes w - cw_pinned_object_bytes w ∧
  cw_staging_quota_bytes w = ci_concurrent_uploads i * ci_maximum_upload_bytes i ∧
  least (λ q, cw_retained_object_bytes w * 1000 ≤ q * 750 ∧
              cw_retained_object_bytes w + cw_staging_quota_bytes w ≤ q)
    (cw_store_quota_bytes w) ∧
  greatest (λ c, c * 1000 ≤ cw_store_quota_bytes w * 10) (cw_quarantine_cap_bytes w) ∧
  cw_minimum_object_filesystem_bytes w = cw_store_quota_bytes w + cw_quarantine_cap_bytes w.

(** What the catalog needs: the smallest file system of which the live catalog,
    its temporary backup and the log take at most 75%. *)
Definition catalog_meets (i : CapacityWorksheetInput) (w : CapacityWorksheet) : Prop :=
  cw_estimated_catalog_live_bytes w
    = ci_catalog_fixed_bytes i + ci_catalog_row_count i * ci_catalog_bytes_per_row i ∧
  cw_wal_reserve_bytes w = ci_wal_reserve_bytes i ∧
  cw_catalog_backup_temporary_bytes w = cw_estimated_catalog_live_bytes w ∧
  least (λ f, (2 * cw_estimated_catalog_live_bytes w + ci_wal_reserve_bytes i) * 1000 ≤ f * 750)
    (cw_minimum_internal_filesystem_bytes w) ∧
  cw_backup_retention_bytes w = ci_backup_bytes_per_generation i * ci_retained_backup_generations i.

(** What the restores need: eight receive buffers of 4 MiB per gateway. *)
Definition admission_meets (i : CapacityWorksheetInput) (w : CapacityWorksheet) : Prop :=
  cw_agent_admission_capacity_bytes w = ci_concurrent_restores i * ci_maximum_agent_plan_bytes i ∧
  cw_gateway_transport_window_bytes w = ci_gateway_instances i * 33554432 ∧
  cw_admission_and_window_bytes w
    = cw_agent_admission_capacity_bytes w + cw_gateway_transport_window_bytes w ∧
  cw_maximum_active_grants w = ci_concurrent_restores i ∧
  cw_required_source_pins w = ci_concurrent_restores i * ci_source_pins_per_restore i ∧
  cw_required_source_fds w = ci_concurrent_restores i * ci_source_fds_per_restore i.

(** What the device and the network carry: amplified writes and the smallest
    line rate whose permitted share covers the payload. *)
Definition rates_meet (i : CapacityWorksheetInput) (w : CapacityWorksheet) : Prop :=
  cw_endurance_bytes_per_five_minutes w = ci_peak_five_minute_new_object_bytes i ∧
  least (λ b, ci_peak_five_minute_unique_kv_bytes i * ci_physical_write_amplification_millis i
              ≤ b * 1000) (cw_physical_write_bytes_per_five_minutes w) ∧
  least (λ b, ci_daily_unique_kv_bytes i * ci_physical_write_amplification_millis i ≤ b * 1000)
    (cw_physical_write_bytes_per_day w) ∧
  cw_device_write_budget_bytes_per_day w = ci_device_write_budget_bytes_per_day i ∧
  (cw_endurance_within_device_budget w = true ↔
     ci_daily_unique_kv_bytes i * ci_physical_write_amplification_millis i
     ≤ ci_device_write_budget_bytes_per_day i * 1000) ∧
  (cw_physical_write_amplification_within_v1_gate w = true ↔
     ci_physical_write_amplification_millis i ≤ 1300) ∧
  least (λ b, ci_peak_network_payload_bytes_per_second i * 8 * 1000
              ≤ b * ci_network_target_utilization_millis i)
    (cw_required_network_bits_per_second w).

Definition worksheet_meets (i : CapacityWorksheetInput) (w : CapacityWorksheet) : Prop :=
  cw_schema_version w = CAPACITY_WORKSHEET_SCHEMA_VERSION ∧ cw_input w = i ∧
  object_store_meets i w ∧ catalog_meets i w ∧ admission_meets i w ∧ rates_meet i w.

Definition worksheet_fits (w : CapacityWorksheet) : Prop :=
  Forall (λ v, v < u64_bound)
    [cw_staging_quota_bytes w; cw_minimum_object_filesystem_bytes w;
     cw_minimum_internal_filesystem_bytes w; cw_admission_and_window_bytes w;
     cw_required_source_pins w; cw_required_source_fds w;
     cw_physical_write_bytes_per_five_minutes w; cw_physical_write_bytes_per_day w;
     cw_required_network_bits_per_second w; cw_backup_retention_bytes w].

(** ** Laws of the arithmetic *)
Lemma least_unique P v w : least P v → least P w → v = w.
Proof. intros [Hv Lv] [Hw Lw]. specialize (Lv _ Hw). specialize (Lw _ Hv). lia. Qed.
Lemma greatest_unique P v w : greatest P v → greatest P w → v = w.
Proof. intros [Hv Lv] [Hw Lw]. specialize (Lv _ Hw). specialize (Lw _ Hv). lia. Qed.
Lemma div_ceil_least n d : 0 < d → least (λ q, n ≤ q * d) (div_ceil n d).
Proof.
  intros Hd. unfold div_ceil.
  pose proof (Z.div_mod (n + d - 1) d ltac:(lia)). pose proof (Z.mod_pos_bound (n + d - 1) d Hd).
  split; [nia|intros q Hq]. apply Z.lt_succ_r, Z.div_lt_upper_bound; nia.
Qed.
Lemma div_greatest n d : 0 < d → greatest (λ q, q * d ≤ n) (n / d).
Proof.
  intros Hd. pose proof (Z.div_mod n d ltac:(lia)). pose proof (Z.mod_pos_bound n d Hd).
  split; [nia|intros q Hq]. apply Z.div_le_lower_bound; nia.
Qed.
Lemma least_and P Q p q :
  (∀ x y, x ≤ y → P x → P y) → (∀ x y, x ≤ y → Q x → Q y) →
  least P p → least Q q → least (λ x, P x ∧ Q x) (Z.max p q).
Proof.
  intros HP HQ [Pp Lp] [Qq Lq].
  split; [split; [eapply HP|eapply HQ]; [| eassumption| |eassumption]; lia|].
  intros x [Px Qx]. specialize (Lp _ Px). specialize (Lq _ Qx). lia.
Qed.

(** The only failure of the helpers is an overflow. *)
Definition only_overflow {A} (m : outcome CapacityPlanningError A) : Prop :=
  match m with Err (Invalid _) | Panic _ => False | _ => True end.
Lemma only_overflow_bind {A B} (m : outcome CapacityPlanningError A)
    (f : A → outcome CapacityPlanningError B) :
  only_overflow m → (∀ a, only_overflow (f a)) → only_overflow (m ≫= f).
Proof. destruct m as [a|[]|]; simpl; auto. Qed.
Lemma add_only_overflow a b l : only_overflow (capacity_add a b l).
Proof. unfold capacity_add. by destruct (checked_add a b). Qed.
Lemma multiply_only_overflow a b l : only_overflow (capacity_multiply a b l).
Proof. unfold capacity_multiply. destruct (checked_mul_u128 a b); simpl; [|done]. by destruct (try_from _ _). Qed.
Lemma scale_ceil_only_overflow v n d l : d ≠ 0 → only_overflow (scale_ceil v n d l).
Proof.
  intros Hd%Z.eqb_neq. unfold scale_ceil. destruct (checked_mul_u128 v n); simpl; [|done].
  rewrite Hd. by destruct (try_from _ _).
Qed.
Lemma scale_floor_only_overflow v n d l : d ≠ 0 → only_overflow (scale_floor v n d l).
Proof.
  intros Hd%Z.eqb_neq. unfold scale_floor. destruct (checked_mul_u128 v n); simpl; [|done].
  rewrite Hd. by destruct (try_from _ _).
Qed.
Lemma add_Ok a b l r : capacity_add a b l = Ok r ↔ r = a + b ∧ a + b < u64_bound.
Proof. unfold capacity_add. by rewrite ok_or_Ok, checked_add_Some. Qed.
Lemma multiply_Ok a b l r : capacity_multiply a b l = Ok r ↔ r = a * b ∧ a * b < u64_bound.
Proof.
  unfold capacity_multiply, checked_mul_u128. rewrite bind_Ok.
  assert (u64_bound < u128_bound) by done. split.
  - intros (x & Hx & Hr). case_match; simplify_eq/=. by apply ok_or_Ok, try_from_Some in Hr as [-> ?].
  - intros [-> Hb]. exists (a * b). destruct (Z.ltb_spec (a * b) u128_bound); [|lia].
    split; [done|]. by apply ok_or_Ok, try_from_Some.
Qed.
Lemma product_u128 v n : in_u64 v → in_u64 n → checked_mul_u128 v n = Some (v * n).
Proof.
  intros Hv Hn. unfold checked_mul_u128.
  destruct (Z.ltb_spec (v * n) u128_bound) as [|H]; [done|].
  unfold in_u64, u64_bound, u128_bound in *. exfalso. nia.
Qed.
Lemma scale_ceil_Ok v n d l r : in_u64 v → in_u64 n → 0 < d →
  scale_ceil v n d l = Ok r ↔ least (λ q, v * n ≤ q * d) r ∧ r < u64_bound.
Proof.
  intros Hv Hn Hd. unfold scale_ceil. rewrite product_u128 by done. simpl.
  destruct (Z.eqb_spec d 0); [lia|]. rewrite ok_or_Ok, try_from_Some.
  pose proof (div_ceil_least (v * n) d Hd). split.
  - by intros [-> ?].
  - intros [Hr ?]. by assert (r = div_ceil (v * n) d) as -> by by eapply least_unique.
Qed.
Lemma scale_floor_Ok v n d l r : in_u64 v → in_u64 n → 0 < d →
  scale_floor v n d l = Ok r ↔ greatest (λ q, q * d ≤ v * n) r ∧ r < u64_bound.
Proof.
  intros Hv Hn Hd. unfold scale_floor. rewrite product_u128 by done. simpl.
  destruct (Z.eqb_spec d 0); [lia|]. rewrite ok_or_Ok, try_from_Some.
  pose proof (div_greatest (v * n) d Hd). split.
  - by intros [-> ?].
  - intros [Hr ?]. by assert (r = v * n / d) as -> by by eapply greatest_unique.
Qed.

(** Validation decides [inputs_valid] and reports only [Invalid]. *)
Lemma validate_decides i : inputs_in_u64 i →
  match capacity_validate i with
  | Ok _ => inputs_valid i | Err (Invalid _) => ¬ inputs_valid i | _ => False
  end.
Proof.
  unfold inputs_in_u64. rewrite !Forall_cons, Forall_nil. unfold in_u64. intros Hi.
  unfold capacity_validate, inputs_valid, MAX_CAPACITY_CATALOG_BYTES_PER_ROW, MAX_CAPACITY_CONCURRENCY,
    MAX_CAPACITY_GATEWAY_INSTANCES, MAX_CAPACITY_WRITE_AMPLIFICATION_MILLIS,
    MAX_CAPACITY_NETWORK_UTILIZATION_MILLIS, MAX_CAPACITY_BACKUP_GENERATIONS.
  repeat match goal with |- context [if ?b then _ else _] => destruct b eqn:? end;
    repeat match goal with H : (_ || _)%bool = true |- _ => apply orb_true_iff in H as [H|H] end;
    bools; lia.
Qed.

(** ** The worksheet meets its contract, and nothing smaller than an overflow
    keeps it from being produced *)
Lemma add_inv a b l r : capacity_add a b l = Ok r → in_u64 a → in_u64 b → r = a + b ∧ in_u64 r.
Proof. intros [-> ?]%add_Ok [??] [??]. split; [done|split; lia]. Qed.
Lemma multiply_inv a b l r : capacity_multiply a b l = Ok r → in_u64 a → in_u64 b → r = a * b ∧ in_u64 r.
Proof. intros [-> ?]%multiply_Ok [??] [??]. split; [done|split; [nia|lia]]. Qed.
Lemma scale_ceil_inv v n d l r : scale_ceil v n d l = Ok r → in_u64 v → in_u64 n → 0 < d →
  least (λ q, v * n ≤ q * d) r ∧ in_u64 r.
Proof.
  intros H Hv Hn Hd. apply scale_ceil_Ok in H as [Hr ?]; [|done..].
  split; [done|]. destruct Hr as [Hr _], Hv, Hn. split; [|lia]. nia.
Qed.
Lemma scale_floor_inv v n d l r : scale_floor v n d l = Ok r → in_u64 v → in_u64 n → 0 < d →
  greatest (λ q, q * d ≤ v * n) r ∧ in_u64 r.
Proof.
  intros H Hv Hn Hd. apply scale_floor_Ok in H as [Hr ?]; [|done..].
  split; [done|]. destruct Hr as [_ Hr], Hv, Hn. split; [|lia]. apply Hr. nia.
Qed.

Lemma in_u64_max a b : in_u64 a → in_u64 b → in_u64 (Z.max a b).
Proof. unfold in_u64. lia. Qed.
Lemma least_le_iff x d r y : 0 < d → least (λ b, x ≤ b * d) r → r ≤ y ↔ x ≤ y * d.
Proof. intros Hd [Hr Hl]. split; [nia|apply Hl]. Qed.
Lemma least_ext P Q v : (∀ x, P x ↔ Q x) → least P v → least Q v.
Proof. intros HPQ [Hv Hl]. split; [by apply HPQ|]. intros x Hx%HPQ. by apply Hl. Qed.
Lemma least_quota r s q : least (λ b, r * 1000 ≤ b * 750) q →
  least (λ b, r * 1000 ≤ b * 750 ∧ r + s ≤ b) (Z.max q (r + s)).
Proof. intros Hq. apply least_and; [intros; lia|intros; lia|done|]. by split; [|intros]. Qed.
(** Walks forward through a successful run of checked steps. *)
Ltac u64 := first [assumption | apply in_u64_max; assumption | by vm_compute | lia].
Ltac arith_inv Hr :=
  first [apply add_inv in Hr as [? ?]; [|u64..] | apply multiply_inv in Hr as [? ?]; [|u64..]
        |apply scale_ceil_inv in Hr as [? ?]; [|u64..] | apply scale_floor_inv in Hr as [? ?]; [|u64..]].
Ltac arith_run H := repeat
  match type of H with
  | mbind _ _ = Ok _ => let r := fresh "r" in let Hr := fresh "Hr" in
      apply bind_Ok in H as (r & Hr & H); arith_inv Hr
  | (if ?b then Err _ else _) = Ok _ => let E := fresh "Hg" in destruct b eqn:E; [discriminate H|]
  end.
Ltac u64_inputs Hi Hv :=
  unfold inputs_in_u64 in Hi; rewrite !Forall_cons, Forall_nil in Hi; unfold inputs_valid in Hv;
  destruct_and! Hi; destruct_and! Hv.

Lemma production_sound i w :
  inputs_in_u64 i → production_v1 i = Ok w → inputs_valid i ∧ worksheet_meets i w ∧ worksheet_fits w.
Proof.
  intros Hi H. pose proof (validate_decides i Hi) as Hv. unfold production_v1 in H.
  apply bind_Ok in H as ([] & Hval & H). rewrite Hval in Hv. split; [done|].
  u64_inputs Hi Hv.
  unfold PRODUCTION_CAPACITY_RATIO_MILLIS, PRODUCTION_DURABLE_TARGET_MILLIS, PRODUCTION_QUARANTINE_MILLIS,
    PRODUCTION_INTERNAL_TARGET_MILLIS in H.
  arith_run H. bools. apply Ok_inj in H. subst w.
  assert (PRODUCTION_GATEWAY_IN_FLIGHT_BYTES = 33554432) as EG by done. rewrite EG in *.
  unfold worksheet_meets, object_store_meets, catalog_meets, admission_meets, rates_meet, worksheet_fits. simpl.
  rewrite !Forall_cons, Forall_nil.
  repeat match goal with H : in_u64 _ |- _ => destruct H end. subst.
  split_and!; try done; try lia; try (by apply least_quota).
  - eapply least_ext; [|eassumption]. simpl. intros x. split; lia.
  - rewrite Z.leb_le. by apply least_le_iff.
  - by rewrite Z.leb_le.
Qed.

(** The same steps forward: each goes on with its value as long as it fits. *)
Lemma add_run {B} a b l (f : Z → outcome CapacityPlanningError B) :
  a + b < u64_bound → capacity_add a b l ≫= f = f (a + b).
Proof. intros H. by rewrite (proj2 (add_Ok a b l _) (conj eq_refl H)). Qed.
Lemma multiply_run {B} a b l (f : Z → outcome CapacityPlanningError B) :
  a * b < u64_bound → capacity_multiply a b l ≫= f = f (a * b).
Proof. intros H. by rewrite (proj2 (multiply_Ok a b l _) (conj eq_refl H)). Qed.
Lemma scale_ceil_run {B} r v n d l (f : Z → outcome CapacityPlanningError B) :
  in_u64 v → in_u64 n → 0 < d → least (λ q, v * n ≤ q * d) r → r < u64_bound →
  scale_ceil v n d l ≫= f = f r.
Proof. intros Hv Hn Hd Hl Hr. by rewrite (proj2 (scale_ceil_Ok v n d l r Hv Hn Hd) (conj Hl Hr)). Qed.
Lemma scale_floor_run {B} r v n d l (f : Z → outcome CapacityPlanningError B) :
  in_u64 v → in_u64 n → 0 < d → greatest (λ q, q * d ≤ v * n) r → r < u64_bound →
  scale_floor v n d l ≫= f = f r.
Proof. intros Hv Hn Hd Hl Hr. by rewrite (proj2 (scale_floor_Ok v n d l r Hv Hn Hd) (conj Hl Hr)). Qed.
Lemma eqb_of_iff (b : bool) x y : (b = true ↔ x ≤ y) → (x <=? y) = b.
Proof. destruct b, (Z.leb_spec x y); naive_solver lia. Qed.

(** Nothing between the inputs and a worksheet that fits can overflow. *)
(** A value never exceeds its scaled-up capacity. *)
Lemma least_scaled x n d r b : 0 < d ≤ n → 0 ≤ x → least (λ q, x * n ≤ q * d) r → r < b → x < b.
Proof. intros Hd Hx [Hr _] Hb. nia. Qed.
Lemma greatest_nonneg P r : P 0 → greatest P r → 0 ≤ r.
Proof. intros H0 [_ Hg]. by apply Hg. Qed.

Ltac fits := first [assumption | lia | split; lia | by vm_compute].
Lemma production_complete i w : inputs_in_u64 i → inputs_valid i →
  worksheet_meets i w → worksheet_fits w → production_v1 i = Ok w.
Proof.
  intros Hi Hv Hm Hf. pose proof (validate_decides i Hi) as Hd.
  unfold production_v1. destruct (capacity_validate i) as [[]|[]|]; [|done..]. clear Hd. simpl.
  u64_inputs Hi Hv. destruct w. unfold worksheet_fits in Hf. rewrite !Forall_cons, Forall_nil in Hf.
  unfold worksheet_meets, object_store_meets, catalog_meets, admission_meets, rates_meet in Hm.
  simpl in *. destruct_and! Hm. destruct_and! Hf.
  subst. set (retained := ci_retained_unique_kv_bytes i + _) in *.
  set (staging := ci_concurrent_uploads i * _) in *.
  pose proof (div_ceil_least (retained * 1000) 750 ltac:(lia)) as Hq.
  assert (cw_store_quota_bytes0 = Z.max (div_ceil (retained * 1000) 750) (retained + staging)) as -> by
    (eapply least_unique; [eassumption|by apply least_quota]).
  set (q := div_ceil _ _) in *.
  repeat match goal with H : in_u64 _ |- _ => destruct H end.
  assert (0 ≤ staging) by (unfold staging; nia).
  assert (0 ≤ ci_catalog_row_count i * ci_catalog_bytes_per_row i) by nia.
  assert (0 ≤ cw_quarantine_cap_bytes0) by (eapply greatest_nonneg; [|eassumption]; simpl; lia).
  assert (2 * (ci_catalog_fixed_bytes i + ci_catalog_row_count i * ci_catalog_bytes_per_row i)
    + ci_wal_reserve_bytes i < u64_bound) by (eapply (least_scaled _ 1000 750); [..|eassumption|lia]; lia).
  assert (ci_peak_network_payload_bytes_per_second i * 8 < u64_bound)
    by (eapply (least_scaled _ 1000); [..|eassumption|lia]; lia).
  rewrite add_run by lia.
  fold retained. destruct (Z.ltb_spec retained (ci_pinned_object_bytes i)); [lia|].
  rewrite multiply_run by done. fold staging.
  rewrite (scale_ceil_run q) by fits.
  rewrite add_run by lia.
  rewrite (scale_floor_run cw_quarantine_cap_bytes0) by fits.
  rewrite add_run by lia.
  rewrite multiply_run, add_run, add_run, add_run by lia.
  rewrite (scale_ceil_run cw_minimum_internal_filesystem_bytes0); cycle 1;
    [split; lia|done|done| |done|].
  { eapply least_ext; [|eassumption]. simpl. intros x.
    unfold PRODUCTION_CAPACITY_RATIO_MILLIS, PRODUCTION_INTERNAL_TARGET_MILLIS. split; lia. }
  assert (PRODUCTION_GATEWAY_IN_FLIGHT_BYTES = 33554432) as -> by done.
  rewrite multiply_run, multiply_run, add_run by nia.
  rewrite multiply_run, multiply_run by done.
  rewrite (scale_ceil_run cw_physical_write_bytes_per_five_minutes0) by fits.
  rewrite (scale_ceil_run cw_physical_write_bytes_per_day0) by fits.
  rewrite multiply_run by done.
  rewrite (scale_ceil_run cw_required_network_bits_per_second0) by fits.
  rewrite multiply_run by done. do 2 f_equal.
  - apply eqb_of_iff. match goal with H : _ ↔ _ ≤ _ * 1000 |- _ => rewrite H end.
    symmetry. by apply least_le_iff.
  - by apply eqb_of_iff.
Qed.

(** The three ways a worksheet can end. *)
Lemma production_cases i : inputs_in_u64 i →
  match production_v1 i with
  | Ok _ => inputs_valid i
  | Err (Invalid _) => ¬ inputs_valid i ∨
      ci_retained_unique_kv_bytes i + ci_retained_object_overhead_bytes i < ci_pinned_object_bytes i
  | Err (Overflow _) => inputs_valid i ∧
      ci_pinned_object_bytes i ≤ ci_retained_unique_kv_bytes i + ci_retained_object_overhead_bytes i
  | Panic _ => False
  end.
Proof.
  intros Hi. pose proof (validate_decides i Hi) as Hv. unfold production_v1.
  destruct (capacity_validate i) as [[]|[]|]; simpl; [|by left|done..].
  assert (ci_network_target_utilization_millis i ≠ 0) by (unfold inputs_valid in Hv; lia).
  pose proof (add_only_overflow (ci_retained_unique_kv_bytes i)
    (ci_retained_object_overhead_bytes i) "retained object bytes") as Ho.
  destruct (capacity_add _ _ _) as [r|[]|] eqn:Er; simpl in *; [|done| |done].
  2: { split; [done|]. unfold capacity_add, checked_add in Er.
    case_match; simplify_eq/=. bools. unfold inputs_in_u64, in_u64 in Hi.
    rewrite !Forall_cons in Hi. lia. }
  clear Ho.
  apply add_Ok in Er as [-> _]. destruct (_ <? ci_pinned_object_bytes i) eqn:Hp; [right; by bools|].
  match goal with |- match ?m with _ => _ end => assert (only_overflow m) as Ho end.
  { repeat (apply only_overflow_bind; [auto using add_only_overflow, multiply_only_overflow,
      scale_ceil_only_overflow, scale_floor_only_overflow with lia|intros ?]). done. }
  destruct (_ ≫= _) as [|[]|]; [done..| |done]. split; [done|by bools].
Qed.

(** ** The property *)

(** C29: A capacity worksheet is exact: when the planner succeeds, every number is
    the policy's (the store quota is the smallest one of which the retained data
    take at most three quarters and which also holds the staged uploads, the
    quarantine the largest within one percent, the internal file system and the
    line rate the smallest that satisfy their utilisation targets, the write
    budget test exact in integers), and all fit 64 bits; it reports an invalid
    input exactly for inputs outside their bounds or pins beyond the retained
    data, an overflow exactly if the inputs are valid
    and no worksheet of the policy fits 64 bits, and it
    never panics. *)
Theorem capacity_worksheet_exact i : inputs_in_u64 i →
  match production_v1 i with
  | Ok w => inputs_valid i ∧ worksheet_meets i w ∧ worksheet_fits w
  | Err (Invalid _) => ¬ inputs_valid i ∨
      ci_retained_unique_kv_bytes i + ci_retained_object_overhead_bytes i < ci_pinned_object_bytes i
  | Err (Overflow _) =>
      (inputs_valid i ∧
       ci_pinned_object_bytes i ≤ ci_retained_unique_kv_bytes i + ci_retained_object_overhead_bytes i) ∧
      ∀ w, worksheet_meets i w → ¬ worksheet_fits w
  | Panic _ => False
  end.
Proof.
  intros Hi. pose proof (production_cases i Hi) as Hc.
  destruct (production_v1 i) as [w|[]|] eqn:Hp; [by apply production_sound|done| |done].
  split; [done|]. destruct Hc as [Hv _]. intros w Hm Hf. by rewrite (production_complete i w) in Hp.
Qed.

Module CapacityWitnesses.
(** The sample of the repository's own test, and one whose uploads overflow. *)
Definition capacity_sample (uploads : Z) : CapacityWorksheetInput :=
  {| ci_retained_unique_kv_bytes := 750; ci_retained_object_overhead_bytes := 0;
     ci_pinned_object_bytes := 250; ci_catalog_row_count := 10; ci_catalog_bytes_per_row := 10;
     ci_catalog_fixed_bytes := 50; ci_wal_reserve_bytes := 75; ci_concurrent_uploads := 2;
     ci_maximum_upload_bytes := uploads; ci_concurrent_restores := 3;
     ci_maximum_agent_plan_bytes := 200; ci_source_pins_per_restore := 4;
     ci_source_fds_per_restore := 2; ci_gateway_instances := 2; ci_daily_unique_kv_bytes := 1000;
     ci_peak_five_minute_unique_kv_bytes := 100; ci_peak_five_minute_new_object_bytes := 110;
     ci_physical_write_amplification_millis := 1300; ci_device_write_budget_bytes_per_day := 1300;
     ci_peak_network_payload_bytes_per_second := 100; ci_network_target_utilization_millis := 800;
     ci_backup_bytes_per_generation := 50; ci_retained_backup_generations := 3 |}.

Lemma sample_in_u64 uploads : in_u64 uploads → inputs_in_u64 (capacity_sample uploads).
Proof. intros. unfold inputs_in_u64. simpl. repeat constructor; try done; by destruct H. Qed.

Lemma capacity_worksheet_exact_witness :
  (∃ w, production_v1 (capacity_sample 100) = Ok w ∧ cw_store_quota_bytes w = 1000 ∧
        cw_quarantine_cap_bytes w = 10 ∧ cw_required_network_bits_per_second w = 1000 ∧
        worksheet_meets (capacity_sample 100) w) ∧
  production_v1 (capacity_sample (u64_bound - 1)) = Err (Overflow "staging quota") ∧
  (∀ w, worksheet_meets (capacity_sample (u64_bound - 1)) w → ¬ worksheet_fits w).
Proof.
  split_and!.
  - pose proof (capacity_worksheet_exact (capacity_sample 100) (sample_in_u64 100 ltac:(done))) as H.
    destruct (production_v1 (capacity_sample 100)) as [w| |] eqn:E; [|vm_compute in E; discriminate E..].
    exists w. destruct H as (_ & Hm & _). vm_compute in E. apply Ok_inj in E as <-. by split_and!.
  - vm_compute. reflexivity.
  - exact (proj2 (capacity_worksheet_exact (capacity_sample (u64_bound - 1))
      (sample_in_u64 (u64_bound - 1) ltac:(done)))).
Defined.
End CapacityWitnesses.
