(* ===== verification/PrefillLayout.v ===== *)
(** * Prefill layouts (kvpack, prefill/v2/mod.rs and gguf_layout/mod.rs)

    A portable prefill is admitted by a named layout: classes of layers with
    their head geometry, an optional sliding window and a pinned rotary
    configuration.  This file has the layout tables, the registry, the
    validation of layouts that come from outside it, and the text form of
    rotary scaling factors.

    [OwnedLayoutClassV2] and [LayoutClassView] repeat the fields of
    [PortablePrefillLayoutClassV2] with other lifetimes, and the conversions
    between the three copy them; the model has one record.  Strings are their
    UTF-8 bytes.  A frequency base is the bit pattern of its [f64]. *)
From Stdlib Require Import ZArith Lia SpecFloat.
From stdpp Require Import base tactics numbers list strings option sorting gmap pretty.
From S2P Require Import Prelude Bytes Wire State Stats StorePolicy.

Notation lit s := (ascii_bytes s%string) (only parsing).
Notation expectation why := (Err (SExpectation why%string)).

(** ** binary64 *)

(** [f64::from_bits] *)
Definition f64_from_bits (bits : Z) : spec_float :=
  let sign := Z.testbit bits 63 in
  let exponent := Z.land (Z.shiftr bits 52) 2047 in
  let mantissa := Z.land bits (2 ^ 52 - 1) in
  if exponent =? 2047 then if mantissa =? 0 then S754_infinity sign else S754_nan else
  match (if exponent =? 0 then mantissa else mantissa + 2 ^ 52) with
  | Zpos m => S754_finite sign m (Z.max exponent 1 - 1075)
  | _ => S754_zero sign
  end.
Definition f64_of_Z (n : Z) : spec_float := binary_normalize prec64 emax64 n 0 false.
Definition f64_is_finite (x : spec_float) : bool :=
  match x with S754_zero _ | S754_finite _ _ _ => true | _ => false end.
(** [>] and [<=]: false on NaN. *)
Definition f64_gtb (x y : spec_float) : bool := SFltb y x.
Definition f64_leb (x y : spec_float) : bool := SFleb x y.
Definition f64_eqb (x y : spec_float) : bool := SFeqb x y.

(** [str::parse::<f64>] on the nearest double of [m * 10^e], ties to even. *)
Definition f64_of_decimal (negative : bool) (m e : Z) : spec_float :=
  match m with
  | Zpos p =>
      if 0 <=? e then
        binary_normalize prec64 emax64 (if negative then - (m * 10 ^ e) else m * 10 ^ e) 0 negative
      else
        SFdiv prec64 emax64 (S754_finite negative p 0) (S754_finite false (Z.to_pos (10 ^ - e)) 0)
  | _ => S754_zero negative
  end.

(** Decimal digits at the front of a text: their value, count and the rest. *)
Fixpoint take_digits (text : bytes) (value count : Z) : Z * Z * bytes :=
  match text with
  | c :: rest =>
      if (48 <=? c) && (c <=? 57) then take_digits rest (value * 10 + (c - 48)) (count + 1)
      else (value, count, text)
  | [] => (value, count, text)
  end.
Definition take_sign (text : bytes) : bool * bytes :=
  match text with
  | c :: rest => if c =? 45 then (true, rest) else if c =? 43 then (false, rest) else (false, text)
  | [] => (false, text)
  end.
Definition ascii_lower (c : Z) : Z := if (65 <=? c) && (c <=? 90) then c + 32 else c.
(** The exponent part [e±digits], which must end the text. *)
Definition parse_exponent (text : bytes) : option Z :=
  match text with
  | [] => Some 0
  | c :: rest =>
      if negb (ascii_lower c =? 101) then None else
      let '(negative, rest) := take_sign rest in
      let '(value, count, rest) := take_digits rest 0 0 in
      if (count =? 0) || negb (bytes_eqb rest []) then None
      else Some (if negative then - value else value)
  end.
Definition parse_f64 (text : bytes) : option spec_float :=
  let '(negative, body) := take_sign text in
  let word := ascii_lower <$> body in
  if bytes_eqb word (lit "inf") || bytes_eqb word (lit "infinity") then Some (S754_infinity negative) else
  if bytes_eqb word (lit "nan") then Some S754_nan else
  let '(whole, whole_count, rest) := take_digits body 0 0 in
  let '(value, fraction_count, rest) :=
    match rest with
    | c :: tail =>
        if c =? 46 then
          let '(value, count, rest) := take_digits tail whole 0 in (value, count, rest)
        else (whole, 0, rest)
    | [] => (whole, 0, rest)
    end in
  if whole_count + fraction_count =? 0 then None else
  exponent ← parse_exponent rest;
  Some (f64_of_decimal negative value (exponent - fraction_count)).

(** [Display] of a positive finite double prints the shortest decimal that reads
    back as the same value, without an exponent. *)
Definition scaled_floor (m : positive) (e p : Z) : Z :=
  (Zpos m * 2 ^ Z.max e 0 * 10 ^ Z.max p 0) / (2 ^ Z.max (- e) 0 * 10 ^ Z.max (- p) 0).
(** The first power of ten above the value, from an estimate below it. *)
Fixpoint decimal_point (fuel : nat) (m : positive) (e k : Z) : Z :=
  match fuel with
  | O => k
  | S fuel => if scaled_floor m e (- k) =? 0 then k else decimal_point fuel m e (k + 1)
  end.
(** The nearer of the two [n]-digit neighbours that read back as [x]. *)
Definition shortest_candidate (x : spec_float) (m : positive) (e p : Z) : option Z :=
  let low := scaled_floor m e p in
  let reads c := f64_eqb (f64_of_decimal false c (- p)) x in
  let nearer_low := scaled_floor m (e + 1) p <=? 2 * low in
  match reads low, reads (low + 1) with
  | true, true => Some (if nearer_low then low else low + 1)
  | true, false => Some low
  | false, true => Some (low + 1)
  | false, false => None
  end.
Fixpoint shortest_digits (fuel : nat) (x : spec_float) (m : positive) (e k n : Z) : Z * Z :=
  match fuel with
  | O => (scaled_floor m e (n - k), k - n)
  | S fuel =>
      match shortest_candidate x m e (n - k) with
      | Some c => (c, k - n)
      | None => shortest_digits fuel x m e k (n + 1)
      end
  end.
(** The upper neighbour may be a power of ten. *)
Fixpoint strip_zeros (fuel : nat) (c q : Z) : Z * Z :=
  match fuel with
  | O => (c, q)
  | S fuel => if c mod 10 =? 0 then strip_zeros fuel (c / 10) (q + 1) else (c, q)
  end.
Definition print_Z (n : Z) : bytes := ascii_bytes (pretty (Z.to_N n)).
Definition print_decimal (c q : Z) : bytes :=
  let digits := print_Z c in
  if 0 <=? q then digits ++ replicate (Z.to_nat q) 48 else
  let point := zlen digits + q in
  if 0 <? point then ztake point digits ++ [46] ++ zdrop point digits
  else lit "0." ++ replicate (Z.to_nat (- point)) 48 ++ digits.
Definition display_f64 (x : spec_float) : bytes :=
  match x with
  | S754_finite false m e =>
      let k := decimal_point 4 m e ((Z.log2 (Zpos m) + e) * 30103 / 100000 - 1) in
      let '(c, q) := shortest_digits 17 x m e k 1 in
      let '(c, q) := strip_zeros 17 c q in print_decimal c q
  | _ => []
  end.

(** ** gguf_layout/mod.rs *)
Inductive RopeConvention := Neox | Interleaved | NoRope.
#[export] Instance RopeConvention_eq_dec : EqDecision RopeConvention.
Proof. solve_decision. Defined.
Definition RopeConvention_as_str (c : RopeConvention) : bytes :=
  match c with Neox => lit "neox" | Interleaved => lit "interleaved" | NoRope => lit "none" end.
Definition RopeConvention_from_label (label : bytes) : option RopeConvention :=
  if bytes_eqb label (lit "neox") then Some Neox else
  if bytes_eqb label (lit "interleaved") then Some Interleaved else
  if bytes_eqb label (lit "none") then Some NoRope else None.

Definition ROPE_SCALING_TYPES : list bytes := [lit "linear"; lit "ntk"; lit "yarn"].
Definition rope_scaling_label (kind : bytes) (factor : spec_float) : option bytes :=
  if negb (existsb (bytes_eqb kind) ROPE_SCALING_TYPES) || negb (f64_is_finite factor)
     || f64_leb factor (S754_zero false) then None
  else Some (kind ++ [58] ++ display_f64 factor).
(** [split_once(':')] *)
Fixpoint split_colon (text : bytes) : option (bytes * bytes) :=
  match text with
  | [] => None
  | c :: rest =>
      if c =? 58 then Some ([], rest)
      else '(kind, factor) ← split_colon rest; Some (c :: kind, factor)
  end.
Definition is_canonical_rope_scaling (label : bytes) : bool :=
  if bytes_eqb label (lit "none") then true else
  match split_colon label with
  | None => false
  | Some (kind, factor) =>
      match parse_f64 factor with
      | None => false
      | Some factor => bool_decide (rope_scaling_label kind factor = Some label)
      end
  end.

(** ** Layout tables *)
Record PortablePrefillLayoutClassV2 := mkLayoutClass {
  pc_class : bytes;
  pc_from : Z;
  pc_until : Z;
  pc_step : Z;
  pc_except : list Z;
  pc_kv_heads : Z;
  pc_head_dim : Z;
  pc_window_tokens : Z;
  pc_rope_freq_base_bits : Z;
  pc_rope_dimension_count : Z;
  pc_rope_scaling : bytes;
  pc_rope_convention : RopeConvention;
}.
#[export] Instance PortablePrefillLayoutClassV2_eq_dec : EqDecision PortablePrefillLayoutClassV2.
Proof. solve_decision. Defined.
Record PortablePrefillLayoutV2 := mkLayout {
  pl_name : bytes;
  pl_num_layers : Z;
  pl_classes : list PortablePrefillLayoutClassV2;
}.
#[export] Instance PortablePrefillLayoutV2_eq_dec : EqDecision PortablePrefillLayoutV2.
Proof. solve_decision. Defined.

(** [(from..until).step_by(step.max(1)).filter(|l| !except.contains(l))] *)
Definition stride (from until step : Z) : list Z :=
  (λ i, from + i * step) <$> seqZ 0 (div_ceil (until - from) step).
Definition pc_layers (c : PortablePrefillLayoutClassV2) : list Z :=
  filter (λ l, l ∉ pc_except c) (stride (pc_from c) (pc_until c) (Z.max (pc_step c) 1)).

Definition MLA_LATENT_LAYOUT_CLASS : bytes := lit "mla-latent".
Definition MLA_LATENT_STATE_NAME : bytes := lit "attn.kv_latent".
Definition class_state_names (class : bytes) : list bytes :=
  if bytes_eqb class MLA_LATENT_LAYOUT_CLASS then [MLA_LATENT_STATE_NAME]
  else [lit "attn.k"; lit "attn.v"].
Definition effective_window_tokens (window_tokens cached_token_count : Z) : Z :=
  if window_tokens =? 0 then cached_token_count else Z.min window_tokens cached_token_count.

(** The registry; the bit patterns are [1e6], [150000], [1e4], [5e5] and [0]. *)
Definition QWEN25_7B_V2_CLASSES : list PortablePrefillLayoutClassV2 :=
  [mkLayoutClass (lit "gqa-full") 0 28 1 [] 4 128 0 4696837146684686336 128 (lit "none") Neox].
Definition GPT_OSS_120B_CLASSES : list PortablePrefillLayoutClassV2 :=
  [mkLayoutClass (lit "gqa-windowed") 0 36 2 [] 8 64 128 4684393973593145344 64 (lit "yarn:32") Neox;
   mkLayoutClass (lit "gqa-full") 1 36 2 [] 8 64 0 4684393973593145344 64 (lit "yarn:32") Neox].
Definition GEMMA4_31B_FULL_EXCEPT : list Z := [5; 11; 17; 23; 29; 35; 41; 47; 53; 59].
Definition GEMMA4_31B_CLASSES : list PortablePrefillLayoutClassV2 :=
  [mkLayoutClass (lit "gqa-windowed") 0 60 1 GEMMA4_31B_FULL_EXCEPT 16 256 1024
     4666723172467343360 256 (lit "none") Neox;
   mkLayoutClass (lit "gqa-full") 5 60 6 [] 4 512 0 4696837146684686336 512 (lit "none") Neox].
Definition MUSE_GLIMMER_30B_FULL_LAYERS : list Z := [3; 7; 11; 15; 19; 23; 27; 31; 35; 39; 43; 47; 51].
Definition MUSE_GLIMMER_30B_CLASSES : list PortablePrefillLayoutClassV2 :=
  [mkLayoutClass (lit "gqa-windowed") 0 52 1 MUSE_GLIMMER_30B_FULL_LAYERS 2 128 2048
     4692333547057315840 128 (lit "none") Interleaved;
   mkLayoutClass (lit "gqa-full") 3 52 4 [] 2 128 0 0 0 (lit "none") NoRope].
Definition PORTABLE_PREFILL_LAYOUTS_V2 : list PortablePrefillLayoutV2 :=
  [mkLayout (lit "qwen2.5-7b") 28 QWEN25_7B_V2_CLASSES;
   mkLayout (lit "gpt-oss-120b") 36 GPT_OSS_120B_CLASSES;
   mkLayout (lit "gemma4-31b") 60 GEMMA4_31B_CLASSES;
   mkLayout (lit "muse-glimmer-30b") 52 MUSE_GLIMMER_30B_CLASSES].

Definition portable_prefill_layout_v2 (name : bytes) : sresult PortablePrefillLayoutV2 :=
  ok_or (snd <$> list_find (λ l, pl_name l = name) PORTABLE_PREFILL_LAYOUTS_V2)
    (SExpectation "portable prefill layout is outside the registered v2 layouts").

(** Geometry equality; the name is provenance. *)
Definition class_matches (derived registered : PortablePrefillLayoutClassV2) : bool :=
  bytes_eqb (pc_class derived) (pc_class registered) &&
  (pc_from derived =? pc_from registered) && (pc_until derived =? pc_until registered) &&
  (pc_step derived =? pc_step registered) && bytes_eqb (pc_except derived) (pc_except registered) &&
  (pc_kv_heads derived =? pc_kv_heads registered) && (pc_head_dim derived =? pc_head_dim registered) &&
  (pc_window_tokens derived =? pc_window_tokens registered) &&
  (pc_rope_freq_base_bits derived =? pc_rope_freq_base_bits registered) &&
  (pc_rope_dimension_count derived =? pc_rope_dimension_count registered) &&
  bytes_eqb (pc_rope_scaling derived) (pc_rope_scaling registered) &&
  bool_decide (pc_rope_convention derived = pc_rope_convention registered).
Definition matches_registry (layout registry : PortablePrefillLayoutV2) : bool :=
  (pl_num_layers layout =? pl_num_layers registry) &&
  (zlen (pl_classes layout) =? zlen (pl_classes registry)) &&
  forallb (λ '(d, r), class_matches d r) (zip (pl_classes layout) (pl_classes registry)).
Definition portable_prefill_layout_name_v2 (layout : PortablePrefillLayoutV2) : option bytes :=
  (λ e, pl_name e.2) <$> list_find (λ e, matches_registry layout e) PORTABLE_PREFILL_LAYOUTS_V2.

(** ** Validation of a layout from outside the registry *)
Definition class_bounds_bad (num_layers : Z) (c : PortablePrefillLayoutClassV2) : bool :=
  (pc_until c <=? pc_from c) || (num_layers <? pc_until c) || (pc_step c =? 0)
  || (pc_kv_heads c =? 0) || (pc_head_dim c =? 0) || bytes_eqb (pc_class c) []
  || existsb (λ l, (l <? pc_from c) || (pc_until c <=? l)) (pc_except c).
(** [for layer in class.layers() { if !covered.insert(layer) { Err } }] *)
Fixpoint insert_layers (layers : list Z) (covered : gset Z) : sresult (gset Z) :=
  match layers with
  | [] => Ok covered
  | l :: layers =>
      if bool_decide (l ∈ covered) then
        expectation "portable prefill v2 owned layout classes overlap"
      else insert_layers layers ({[l]} ∪ covered)
  end.
Fixpoint cover_classes (num_layers : Z) (classes : list PortablePrefillLayoutClassV2)
    (covered : gset Z) : sresult (gset Z) :=
  match classes with
  | [] => Ok covered
  | c :: classes =>
      if class_bounds_bad num_layers c then
        expectation "portable prefill v2 owned layout class bounds are outside the v2 bounds" else
      covered ← insert_layers (pc_layers c) covered;
      if bytes_eqb (pc_class c) MLA_LATENT_LAYOUT_CLASS
         && (negb (pc_kv_heads c =? 1) || negb (pc_window_tokens c =? 0)) then
        expectation "portable prefill v2 mla-latent class must be a single-vector full-coverage record"
      else cover_classes num_layers classes covered
  end.
Definition validate_owned_layout_v2 (layout : PortablePrefillLayoutV2) : sresult unit :=
  if (pl_num_layers layout =? 0) || (zlen (pl_classes layout) =? 0) then
    expectation "portable prefill v2 owned layout has no layers or no classes" else
  covered ← cover_classes (pl_num_layers layout) (pl_classes layout) ∅;
  if negb (Z.of_nat (size covered) =? pl_num_layers layout) then
    expectation "portable prefill v2 owned layout classes do not partition the layer range"
  else Ok tt.

Definition validate_class_rope_v2 (c : PortablePrefillLayoutClassV2) : sresult unit :=
  let freq_base := f64_from_bits (pc_rope_freq_base_bits c) in
  if bool_decide (pc_rope_convention c = NoRope) then
    if negb (f64_eqb freq_base (S754_zero false)) || negb (pc_rope_dimension_count c =? 0) then
      expectation "NoPE class (rope_convention None) must have freq_base 0 and dimension_count 0"
    else Ok tt
  else
  if negb (f64_is_finite freq_base) || f64_leb freq_base (f64_of_Z 1) then
    expectation "portable prefill v2 rope freq_base is outside the supported bounds" else
  if (pc_rope_dimension_count c <? 2) || negb (pc_rope_dimension_count c mod 2 =? 0)
     || (pc_head_dim c <? pc_rope_dimension_count c) then
    expectation "portable prefill v2 rope dimension_count is outside the v2 bounds" else
  if negb (is_canonical_rope_scaling (pc_rope_scaling c)) then
    expectation "portable prefill v2 rope scaling label is not canonical"
  else Ok tt.

(** ** Laws *)
Lemma elem_of_stride from until step l : 0 < step →
  l ∈ stride from until step ↔ from ≤ l < until ∧ (step | l - from).
Proof.
  intros Hs. unfold stride. rewrite list_elem_of_fmap. split.
  - intros (i & -> & Hi%elem_of_seqZ). unfold div_ceil in Hi.
    pose proof (Z.mul_div_le (until - from + step - 1) step Hs).
    split; [nia|]. exists i. lia.
  - intros [Hl [i Hi]]. exists i. split; [lia|]. apply elem_of_seqZ. unfold div_ceil.
    split; [nia|]. rewrite Z.add_0_l. apply Z.lt_le_trans with (i + 1); [lia|].
    apply Z.div_le_lower_bound; nia.
Qed.
Lemma stride_nodup from until step : 0 < step → NoDup (stride from until step).
Proof. intros Hs. unfold stride. apply NoDup_fmap_2; [intros i j; nia|apply NoDup_seqZ]. Qed.

Lemma elem_of_pc_layers c l :
  l ∈ pc_layers c ↔
  pc_from c ≤ l < pc_until c ∧ (Z.max (pc_step c) 1 | l - pc_from c) ∧ l ∉ pc_except c.
Proof. unfold pc_layers. rewrite list_elem_of_filter, elem_of_stride by lia. tauto. Qed.
Lemma pc_layers_nodup c : NoDup (pc_layers c).
Proof. apply NoDup_filter, stride_nodup. lia. Qed.

Lemma insert_layers_Ok layers covered r :
  insert_layers layers covered = Ok r ↔
  r = list_to_set layers ∪ covered ∧ NoDup layers ∧ (∀ l, l ∈ layers → l ∉ covered).
Proof.
  revert covered. induction layers as [|l layers IH]; intros covered; simpl.
  { rewrite union_empty_l_L. split; [intros [= ->]; split_and!; [done|constructor|set_solver]|]. by intros (-> & _). }
  rewrite NoDup_cons. case_bool_decide as Hl.
  { split; [done|]. intros (_ & _ & H). by destruct (H l); [left|]. }
  rewrite IH. split.
  - intros (-> & Hn & Hd). split_and!; [set_solver| |done|set_solver]. intros Hin%Hd. set_solver.
  - intros (-> & [Hl' Hn] & Hd). split_and!; [set_solver|done|set_solver].
Qed.

(** What a class must satisfy by itself. *)
Definition class_admissible (num_layers : Z) (c : PortablePrefillLayoutClassV2) : Prop :=
  pc_from c < pc_until c ≤ num_layers ∧ pc_step c ≠ 0 ∧ pc_kv_heads c ≠ 0 ∧ pc_head_dim c ≠ 0 ∧
  pc_class c ≠ [] ∧ Forall (λ l, pc_from c ≤ l < pc_until c) (pc_except c) ∧
  (pc_class c = MLA_LATENT_LAYOUT_CLASS → pc_kv_heads c = 1 ∧ pc_window_tokens c = 0).
Definition all_layers (classes : list PortablePrefillLayoutClassV2) : list Z := classes ≫= pc_layers.

Lemma existsb_false_Forall {A} (P : A → Prop) (f : A → bool) l :
  (∀ a, f a = false ↔ P a) → existsb f l = false ↔ Forall P l.
Proof.
  intros Hf. induction l as [|a l IH]; simpl; [by split|].
  by rewrite orb_false_iff, Hf, IH, Forall_cons.
Qed.
Lemma class_bounds_good n c : class_bounds_bad n c = false ↔
  pc_from c < pc_until c ≤ n ∧ pc_step c ≠ 0 ∧ pc_kv_heads c ≠ 0 ∧ pc_head_dim c ≠ 0 ∧
  pc_class c ≠ [] ∧ Forall (λ l, pc_from c ≤ l < pc_until c) (pc_except c).
Proof.
  unfold class_bounds_bad. rewrite !orb_false_iff, Z.leb_gt, Z.ltb_ge, !Z.eqb_neq.
  unfold bytes_eqb. rewrite bool_decide_eq_false.
  rewrite (existsb_false_Forall (λ l, pc_from c ≤ l < pc_until c)); [tauto|].
  intros l. rewrite orb_false_iff, Z.ltb_ge, Z.leb_gt. tauto.
Qed.

Lemma mla_record_good c :
  bytes_eqb (pc_class c) MLA_LATENT_LAYOUT_CLASS
    && (negb (pc_kv_heads c =? 1) || negb (pc_window_tokens c =? 0)) = false ↔
  (pc_class c = MLA_LATENT_LAYOUT_CLASS → pc_kv_heads c = 1 ∧ pc_window_tokens c = 0).
Proof.
  unfold bytes_eqb. case_bool_decide; simpl; [|by split].
  rewrite orb_false_iff, !negb_false_iff, !Z.eqb_eq. tauto.
Qed.
Lemma class_admissible_alt n c : class_admissible n c ↔
  class_bounds_bad n c = false ∧
  bytes_eqb (pc_class c) MLA_LATENT_LAYOUT_CLASS
    && (negb (pc_kv_heads c =? 1) || negb (pc_window_tokens c =? 0)) = false.
Proof. rewrite class_bounds_good, mla_record_good. unfold class_admissible. tauto. Qed.

Lemma cover_classes_Ok n classes covered r :
  cover_classes n classes covered = Ok r ↔
  Forall (class_admissible n) classes ∧ r = list_to_set (all_layers classes) ∪ covered ∧
  NoDup (all_layers classes) ∧ (∀ l, l ∈ all_layers classes → l ∉ covered).
Proof.
  revert covered. induction classes as [|c classes IH]; intros covered; cbn [cover_classes].
  { unfold all_layers. simpl. rewrite union_empty_l_L.
    split; [intros [= ->]; split_and!; [done..|constructor|set_solver]|]. by intros (_ & -> & _). }
  unfold all_layers in *. rewrite Forall_cons, bind_cons, list_to_set_app_L, NoDup_app, class_admissible_alt.
  pose proof (pc_layers_nodup c) as Hc. set (mla := (bytes_eqb _ _ && _)%bool). split.
  - destruct (class_bounds_bad n c); [done|]. intros (s & (-> & _ & Hd)%insert_layers_Ok & H)%bind_Ok.
    destruct mla; [done|]. apply IH in H as (Hf & -> & Hn & Hd').
    split_and!; [done..| |done| |done|]; [set_solver| |]; intros l; rewrite ?elem_of_app; set_solver.
  - intros ([[-> ->] Hf] & -> & (_ & Hx & Hn) & Hd). apply bind_Ok.
    exists (list_to_set (pc_layers c) ∪ covered). rewrite insert_layers_Ok, IH.
    split_and!; [done..|set_solver|done|set_solver|done|]. intros l Hl. specialize (Hd l). set_solver.
Qed.

(** A validated layout assigns every layer below [num_layers] to one class. *)
Definition layout_partitions (layout : PortablePrefillLayoutV2) : Prop :=
  0 < pl_num_layers layout ∧ Forall (class_admissible (pl_num_layers layout)) (pl_classes layout) ∧
  NoDup (all_layers (pl_classes layout)) ∧
  (∀ l, l ∈ all_layers (pl_classes layout) ↔ 0 ≤ l < pl_num_layers layout).
(** The fields that bound layer numbers are [u32]. *)
Definition layout_unsigned (layout : PortablePrefillLayoutV2) : Prop :=
  0 ≤ pl_num_layers layout ∧ Forall (λ c, 0 ≤ pc_from c) (pl_classes layout).

Lemma nodup_full (l : list Z) n : NoDup l → (∀ x, x ∈ l → 0 ≤ x < n) → zlen l = n →
  ∀ x, x ∈ l ↔ 0 ≤ x < n.
Proof.
  intros Hn Hb Hl x. split; [apply Hb|intros Hx].
  assert (l ≡ₚ seqZ 0 n) as ->; [|by apply elem_of_seqZ].
  apply submseteq_length_Permutation.
  - apply NoDup_submseteq; [done|]. intros y Hy. apply elem_of_seqZ. specialize (Hb y Hy). lia.
  - rewrite length_seqZ. unfold zlen in Hl. lia.
Qed.

Lemma validate_owned_layout_decides layout : layout_unsigned layout →
  validate_owned_layout_v2 layout = Ok tt ↔ layout_partitions layout.
Proof.
  intros [Hu Hf]. unfold validate_owned_layout_v2, layout_partitions.
  set (n := pl_num_layers layout) in *. set (classes := pl_classes layout) in *.
  assert (∀ covered, cover_classes n classes ∅ = Ok covered →
    Z.of_nat (size covered) = zlen (all_layers classes)) as Hsize.
  { intros covered (_ & -> & Hn & _)%cover_classes_Ok. by rewrite union_empty_r_L, size_list_to_set. }
  assert (Forall (class_admissible n) classes → ∀ l, l ∈ all_layers classes → 0 ≤ l < n) as Hb.
  { intros Ha l (c & Hl & Hc)%list_elem_of_bind. rewrite list.Forall_forall in Ha, Hf.
    apply elem_of_pc_layers in Hl. destruct (Ha c Hc). specialize (Hf c Hc). simpl in *. lia. }
  split.
  - intros H. inv_ok. bools. rewrite (Hsize x) in Hg0 by done.
    match goal with H : cover_classes _ _ _ = _ |- _ => apply cover_classes_Ok in H as (Ha & _ & Hn & _) end.
    split_and!; [lia|done..|]. apply nodup_full; auto.
  - intros (Hpos & Ha & Hn & Hl).
    assert (zlen (all_layers classes) = n) as Hlen.
    { assert (all_layers classes ≡ₚ seqZ 0 n) as E.
      { apply NoDup_Permutation; [done|apply NoDup_seqZ|]. intros l. rewrite Hl, elem_of_seqZ. lia. }
      unfold zlen. rewrite E, length_seqZ. lia. }
    destruct (Z.eqb_spec n 0); [lia|]. destruct (Z.eqb_spec (zlen classes) 0) as [Hz|].
    { destruct classes; [|by rewrite zlen_cons in Hz; zlen_facts; lia]. simpl in Hlen. rewrite zlen_nil in Hlen.
      lia. }
    simpl. apply bind_Ok. exists (list_to_set (all_layers classes) ∪ ∅).
    assert (cover_classes n classes ∅ = Ok (list_to_set (all_layers classes) ∪ ∅)) as Hc
      by (apply cover_classes_Ok; split_and!; [done..|set_solver]).
    split; [done|]. by rewrite (Hsize _ Hc), Hlen, Z.eqb_refl.
Qed.

Lemma class_matches_eq d r : class_matches d r = true ↔ d = r.
Proof.
  unfold class_matches, bytes_eqb. rewrite !andb_true_iff, !bool_decide_eq_true, !Z.eqb_eq.
  destruct d, r; simpl. split; [by intros; destruct_and!; subst|intros [= -> -> -> -> -> -> -> -> -> -> -> ->];
    tauto].
Qed.
(** The registry is consulted by geometry alone. *)
Lemma matches_registry_iff layout registry : matches_registry layout registry = true ↔
  pl_num_layers layout = pl_num_layers registry ∧ pl_classes layout = pl_classes registry.
Proof.
  unfold matches_registry. rewrite !andb_true_iff, !Z.eqb_eq. generalize (pl_classes registry).
  assert (∀ l k, zlen l = zlen k → forallb (λ '(d, r), class_matches d r) (zip l k) = true ↔ l = k) as Hz.
  { induction l as [|d l IH]; intros [|r k] Hk; try done; rewrite ?zlen_cons, ?zlen_nil in Hk; zlen_facts; [lia..|].
    simpl. rewrite andb_true_iff, class_matches_eq, IH by lia. naive_solver. }
  intros k. split; [intros [[-> Hk] H]; by rewrite Hz in H|]. intros [-> ->]. by rewrite Hz.
Qed.

(** Every registered layout passes the validation that unregistered layouts get,
    has sound rotary configurations, and is found by its name and its geometry. *)
Definition registered_sound (layout : PortablePrefillLayoutV2) : Prop :=
  validate_owned_layout_v2 layout = Ok tt ∧
  Forall (λ c, validate_class_rope_v2 c = Ok tt) (pl_classes layout) ∧
  portable_prefill_layout_v2 (pl_name layout) = Ok layout ∧
  portable_prefill_layout_name_v2 layout = Some (pl_name layout) ∧ layout_unsigned layout.
Lemma registry_sound : Forall registered_sound PORTABLE_PREFILL_LAYOUTS_V2.
Proof.
  unfold PORTABLE_PREFILL_LAYOUTS_V2, registered_sound, layout_unsigned.
  repeat match goal with |- Forall _ _ => constructor | |- _ ∧ _ => split end;
    first [vm_compute; reflexivity | simpl; lia].
Qed.
