(* ===== verification/PrefillDescriptor.v ===== *)
(** * Prefill descriptors (kvpack, prefill/mod.rs, v1.rs and v2/mod.rs)

    From the validated fields of a transfer and a layout to the durable
    identities of a portable prefill: the semantic model, the representation
    family with one state per layer and plane, the export declarations and the
    byte bounds. *)
From Stdlib Require Import ZArith Lia SpecFloat.
From stdpp Require Import base tactics numbers list strings option sorting gmap.
From S2P Require Import Prelude Bytes Canonical Wire State Identity Crypto Ids Validator Stats.
From S2P Require Import Manifest Deps ValidatorLaws StorePolicy RestorePlan PrefillLayout.

(** ** Data *)
Record ExportStateDeclaration := mkExportState {
  es_key : StateKey;
  es_strides : list Z;
  es_atomic_group : Z;
}.
Record PortablePrefillDescriptorV1 := mkDescriptor {
  pd_semantic_model : SemanticModelId;
  pd_family : RepresentationFamilyId;
  pd_states : list ExportStateDeclaration;
  pd_bytes_per_state : Z;
  pd_restored_bytes : Z;
}.
Record PreRopeKernelPinV1 := mkKernelPin {
  kp_engine : bytes;
  kp_kernel : bytes;
  kp_dtype_path : bytes;
  kp_convention : RopeConvention;
}.
Record PortablePrefillDescriptorInputV2 := mkDescriptorInput {
  di_model_sha256 : Id32;
  di_adapter_sha256 : Id32;
  di_tokenizer_sha256 : Id32;
  di_chat_template_sha256 : Id32;
  di_context_policy_sha256 : Id32;
  di_model_revision : bytes;
  di_tokenizer_revision : bytes;
  di_producer_engine_abi : bytes;
  di_consumer_engine_abi : bytes;
  di_portable_abi : bytes;
  di_compute_precision : bytes;
  di_kv_precision : bytes;
  di_weight_precision : bytes;
  di_cached_token_count : Z;
  di_max_context_tokens : Z;
  di_layout_name : bytes;
  di_transform : option Id32;
  di_prerope_kernel_pin : option PreRopeKernelPinV1;
}.

Definition PORTABLE_PREFILL_ABI_V2 : bytes := lit "canonical-kv-v2".
Definition PORTABLE_PREFILL_ABI_V2_PREROPE : bytes := lit "canonical-kv-prerope-v2".
Definition WEIGHT_PRECISIONS : list bytes :=
  [lit "q4_k_m"; lit "q4_k_xl"; lit "nvfp4"; lit "mxfp4"; lit "bf16"].

(** A length and the text, the length cast to [u32]. *)
Definition prefixed32 (text : bytes) : bytes := put_u32 (zlen text mod u32_bound) ++ text.
(** Parts framed for [domain_id]. *)
Definition framed (parts : list bytes) : bytes :=
  concat ((λ part, put_u64 (zlen part) ++ part) <$> parts).

Definition identity_bytes (pin : PreRopeKernelPinV1) : bytes :=
  concat (prefixed32 <$> [kp_engine pin; kp_kernel pin; kp_dtype_path pin]) ++
  prefixed32 (RopeConvention_as_str (kp_convention pin)).

(** ** Guards *)
Definition is_prerope (input : PortablePrefillDescriptorInputV2) : bool :=
  bytes_eqb (di_portable_abi input) PORTABLE_PREFILL_ABI_V2_PREROPE.
Definition identity_text_bad (value : bytes) : bool :=
  (zlen value =? 0) || (1024 <? zlen value) || existsb (λ c, 128 <=? c) value.
Definition input_unqualified (input : PortablePrefillDescriptorInputV2) : bool :=
  (di_cached_token_count input =? 0)
  || (di_max_context_tokens input <=? di_cached_token_count input)
  || (131072 <? di_max_context_tokens input)
  || negb (bytes_eqb (di_portable_abi input) PORTABLE_PREFILL_ABI_V2 || is_prerope input)
  || negb (bytes_eqb (di_compute_precision input) (lit "float16"))
  || negb (bytes_eqb (di_kv_precision input) (lit "float16"))
  || negb (existsb (bytes_eqb (di_weight_precision input)) WEIGHT_PRECISIONS).
Definition validate_input (input : PortablePrefillDescriptorInputV2) : sresult unit :=
  if input_unqualified input then
    expectation "portable prefill v2 descriptor is outside the qualified bounds" else
  match is_prerope input, di_prerope_kernel_pin input with
  | true, None =>
      expectation "portable prefill v2 pre-rope representation requires the pinned rotation kernel identity"
  | false, Some _ =>
      expectation "portable prefill v2 pinned rotation kernel identity requires the pre-rope representation label"
  | _, _ =>
      if existsb identity_text_bad
           [di_model_revision input; di_tokenizer_revision input;
            di_producer_engine_abi input; di_consumer_engine_abi input] then
        expectation "portable prefill identity strings must be bounded nonempty ASCII" else
      match di_prerope_kernel_pin input with
      | Some pin =>
          if existsb identity_text_bad [kp_engine pin; kp_kernel pin; kp_dtype_path pin] then
            expectation "portable prefill identity strings must be bounded nonempty ASCII"
          else Ok tt
      | None => Ok tt
      end
  end.

(** ** Geometry bytes *)
Definition class_geometry (c : PortablePrefillLayoutClassV2) : bytes :=
  put_u32 (pc_from c) ++ put_u32 (pc_until c) ++ put_u32 (pc_step c) ++ put_u32 (pc_kv_heads c) ++
  put_u32 (pc_head_dim c) ++ put_u32 (pc_window_tokens c) ++ put_list put_u32 (pc_except c).
(** What the v3 form adds after the numbers: label, state names, rotary
    configuration. *)
Definition class_labels (c : PortablePrefillLayoutClassV2) : bytes :=
  let names := class_state_names (pc_class c) in
  prefixed32 (pc_class c) ++ put_u32 (zlen names) ++ concat (prefixed32 <$> names) ++
  put_u64 (pc_rope_freq_base_bits c) ++ put_u32 (pc_rope_dimension_count c) ++
  prefixed32 (pc_rope_scaling c) ++ prefixed32 (RopeConvention_as_str (pc_rope_convention c)).

Definition validate_pinned_class (pin : PreRopeKernelPinV1) (c : PortablePrefillLayoutClassV2)
    : sresult unit :=
  if negb (bool_decide (kp_convention pin = pc_rope_convention c)) then
    expectation "portable prefill v2 pre-rope kernel pin convention disagrees with the class rope convention" else
  if bytes_eqb (pc_class c) MLA_LATENT_LAYOUT_CLASS then
    expectation "portable prefill v2 pre-rope representation does not support mla-latent classes" else
  if bool_decide (pc_rope_convention c = NoRope) then
    expectation "portable prefill v2 pre-rope representation does not support NoPE (rope_convention None) classes"
  else Ok tt.

(** The loop over the classes: both byte strings grow together, and the labelled
    one copies the numbers from the end of the other. *)
Fixpoint geometry_loop (pin : option PreRopeKernelPinV1)
    (classes : list PortablePrefillLayoutClassV2) (geometry labeled : bytes)
    : sresult (bytes * bytes) :=
  match classes with
  | [] => Ok (geometry, labeled)
  | c :: classes =>
      _ ← validate_class_rope_v2 c;
      _ ← match pin with Some pin => validate_pinned_class pin c | None => Ok tt end;
      let geometry := geometry ++ class_geometry c in
      numbers ← slice geometry (zlen geometry - (6 + zlen (pc_except c)) * 4) (zlen geometry);
      geometry_loop pin classes geometry (labeled ++ numbers ++ class_labels c)
  end.

(** ** States *)
Definition descriptor_state (layer : Z) (name : bytes) (dtype : DType) (rule : TokenAxisRule)
    (elements kv_heads head_dim : Z) : FamilyState :=
  {| fs_key := mkStateKey layer name; fs_cache_kind := OrdinaryKv; fs_dtype := dtype;
     fs_codec := Raw; fs_codec_version := 1; fs_layout := Contiguous; fs_token_axis_rule := rule;
     fs_token_axis := 0; fs_elements_per_token := elements;
     fs_dimensions := [Token; Fixed kv_heads; Fixed head_dim]; fs_dependencies := [] |}.

(** The vectors and the byte bounds the loops fill. *)
Record StatesBuilder := mkStatesBuilder {
  sb_family_states : list FamilyState;
  sb_states : list ExportStateDeclaration;
  sb_bytes_per_state : Z;
  sb_restored_bytes : Z;
}.
Definition state_width (prerope : bool) (name : bytes) : DType * Z :=
  if prerope && bytes_eqb name (lit "attn.k") then (F32, 4) else (F16, 2).
Definition axis_rule (c : PortablePrefillLayoutClassV2) : TokenAxisRule :=
  if pc_window_tokens c =? 0 then Direct else TailWindow.
(** One plane of one layer. *)
Definition push_state (prerope : bool) (cached : Z) (layer : Z) (c : PortablePrefillLayoutClassV2)
    (elements : Z) (name : bytes) (b : StatesBuilder) : sresult StatesBuilder :=
  let window := effective_window_tokens (pc_window_tokens c) cached in
  let '(dtype, element_bytes) := state_width prerope name in
  state_bytes ← ok_or (v ← checked_mul window elements; checked_mul v element_bytes)
    (SState "prefill state byte bound overflow");
  group ← expect (try_from u32_bound (layer + 1)) "attempt to add with overflow";
  restored ← ok_or (checked_add (sb_restored_bytes b) state_bytes)
    (SState "prefill restored-byte bound overflow");
  Ok {| sb_family_states := sb_family_states b ++
          [descriptor_state layer name dtype (axis_rule c) elements (pc_kv_heads c) (pc_head_dim c)];
        sb_states := sb_states b ++ [mkExportState (mkStateKey layer name) [elements; pc_head_dim c; 1] group];
        sb_bytes_per_state := Z.max (sb_bytes_per_state b) state_bytes;
        sb_restored_bytes := restored |}.
Fixpoint push_names (prerope : bool) (cached layer : Z) (c : PortablePrefillLayoutClassV2)
    (elements : Z) (names : list bytes) (b : StatesBuilder) : sresult StatesBuilder :=
  match names with
  | [] => Ok b
  | name :: names =>
      b ← push_state prerope cached layer c elements name b;
      push_names prerope cached layer c elements names b
  end.
Fixpoint push_layers (prerope : bool) (cached : Z)
    (ordered : list (Z * PortablePrefillLayoutClassV2)) (b : StatesBuilder) : sresult StatesBuilder :=
  match ordered with
  | [] => Ok b
  | (layer, c) :: ordered =>
      elements ← ok_or (checked_mul (pc_kv_heads c) (pc_head_dim c))
        (SState "prefill elements-per-token overflow");
      b ← push_names prerope cached layer c elements (class_state_names (pc_class c)) b;
      push_layers prerope cached ordered b
  end.
(** [sort_by_key(|(layer, _)| *layer)] of the layers of all classes. *)
Definition layer_le (a b : Z * PortablePrefillLayoutClassV2) : Prop := a.1 ≤ b.1.
#[export] Instance layer_le_dec a b : Decision (layer_le a b).
Proof. unfold layer_le. apply _. Defined.
Definition ordered_layers (classes : list PortablePrefillLayoutClassV2)
    : list (Z * PortablePrefillLayoutClassV2) :=
  merge_sort layer_le (classes ≫= λ c, (λ l, (l, c)) <$> pc_layers c).

(** ** Identities *)
Section descriptor.
Context `{Crypto}.

Definition domain_id (domain : bytes) (parts : list bytes) : Id32 := sha256 [domain; framed parts].
Definition portable_prefill_token_ids_sha256 (token_ids : list Z) : Id32 :=
  sha256 [label "kvpack-live-token-ids-v1"; put_list put_u32 token_ids].

Definition descriptor_semantic_model (input : PortablePrefillDescriptorInputV2) : SemanticModelId :=
  {| weights_config := domain_id (label "kvpack/spark-prefill/weights-config/v1")
       [di_model_sha256 input; di_model_revision input; di_weight_precision input];
     adapters := domain_id (label "kvpack/spark-prefill/adapters/v1") [di_adapter_sha256 input];
     tokenizer_template := domain_id (label "kvpack/spark-prefill/tokenizer-template/v1")
       [di_tokenizer_sha256 input; di_chat_template_sha256 input; di_tokenizer_revision input];
     position_semantics := domain_id (label "kvpack/spark-prefill/position-semantics/v1")
       [di_context_policy_sha256 input; put_u32 (di_max_context_tokens input)];
     qualified_math := domain_id (label "kvpack/spark-prefill/qualified-math/v1")
       [di_producer_engine_abi input; di_consumer_engine_abi input;
        di_compute_precision input; di_kv_precision input] |}.

Definition engine_cache_abi_parts (input : PortablePrefillDescriptorInputV2) (labeled : bytes)
    : list bytes :=
  [di_portable_abi input; di_consumer_engine_abi input; labeled;
   match di_transform input with Some id => id | None => [] end] ++
  match di_prerope_kernel_pin input with Some pin => [identity_bytes pin] | None => [] end.

Definition derive_portable_prefill_descriptor_v2_core (input : PortablePrefillDescriptorInputV2)
    (classes : list PortablePrefillLayoutClassV2) : sresult PortablePrefillDescriptorV1 :=
  _ ← validate_input input;
  '(geometry, labeled) ← geometry_loop (di_prerope_kernel_pin input) classes [] [];
  let geometry := geometry ++ put_u32 (di_max_context_tokens input) in
  let labeled := labeled ++ put_u32 (di_max_context_tokens input) in
  b ← push_layers (is_prerope input) (di_cached_token_count input) (ordered_layers classes)
        (mkStatesBuilder [] [] 0 0);
  let family := {|
    engine_cache_abi := domain_id (label "kvpack/spark-prefill/engine-cache-abi/v3")
      (engine_cache_abi_parts input labeled);
    mode := Portable;
    page_size_tokens := PREFIX_BLOCK_TOKENS;
    topology := domain_id (label "kvpack/spark-prefill/topology/v2") [geometry];
    shard_map := domain_id (label "kvpack/spark-prefill/shard-map/v2")
      [lit "single-rank-layout-table-declared-order"];
    family_states := sb_family_states b |} in
  _ ← of_pack (validate_family family);
  Ok {| pd_semantic_model := descriptor_semantic_model input; pd_family := family;
        pd_states := sb_states b; pd_bytes_per_state := sb_bytes_per_state b;
        pd_restored_bytes := sb_restored_bytes b |}.

Definition derive_portable_prefill_descriptor_v2 (input : PortablePrefillDescriptorInputV2)
    : sresult PortablePrefillDescriptorV1 :=
  layout ← portable_prefill_layout_v2 (di_layout_name input);
  derive_portable_prefill_descriptor_v2_core input (pl_classes layout).
Definition derive_portable_prefill_descriptor_v2_from_layout (input : PortablePrefillDescriptorInputV2)
    (layout : PortablePrefillLayoutV2) : sresult PortablePrefillDescriptorV1 :=
  _ ← validate_owned_layout_v2 layout;
  derive_portable_prefill_descriptor_v2_core input (pl_classes layout).

(** ** The closed tuples of version 1 *)
Definition PORTABLE_PREFILL_ABI_V1 : bytes := lit "canonical-kv-f16-le-v1".
Definition PORTABLE_PREFILL_MAX_CONTEXT_V1 : Z := 32768.
Record PortablePrefillGeometryV1 := mkGeometry {
  pg_name : bytes;
  pg_num_layers : Z;
  pg_num_kv_heads : Z;
  pg_head_dim : Z;
}.
Definition PORTABLE_PREFILL_GEOMETRIES_V1 : list PortablePrefillGeometryV1 :=
  [mkGeometry (lit "qwen2.5-0.5b") 24 2 64; mkGeometry (lit "qwen2.5-7b") 28 4 128].
Definition portable_prefill_geometry_v1 (num_layers num_kv_heads head_dim : Z)
    : sresult PortablePrefillGeometryV1 :=
  ok_or (snd <$> list_find (λ g, pg_num_layers g = num_layers ∧ pg_num_kv_heads g = num_kv_heads ∧
                                 pg_head_dim g = head_dim) PORTABLE_PREFILL_GEOMETRIES_V1)
    (SExpectation "portable prefill geometry is outside the qualified closed tuples").
Record PortablePrefillDescriptorInputV1 := mkDescriptorInputV1 {
  d1_model_sha256 : Id32;
  d1_adapter_sha256 : Id32;
  d1_tokenizer_sha256 : Id32;
  d1_chat_template_sha256 : Id32;
  d1_context_policy_sha256 : Id32;
  d1_model_revision : bytes;
  d1_tokenizer_revision : bytes;
  d1_producer_engine_abi : bytes;
  d1_consumer_engine_abi : bytes;
  d1_portable_abi : bytes;
  d1_compute_precision : bytes;
  d1_kv_precision : bytes;
  d1_weight_precision : bytes;
  d1_cached_token_count : Z;
  d1_num_layers : Z;
  d1_num_kv_heads : Z;
  d1_head_dim : Z;
  d1_max_context_tokens : Z;
}.
Definition v1_semantic_model (input : PortablePrefillDescriptorInputV1) : SemanticModelId :=
  {| weights_config := domain_id (label "kvpack/spark-prefill/weights-config/v1")
       [d1_model_sha256 input; d1_model_revision input; d1_weight_precision input];
     adapters := domain_id (label "kvpack/spark-prefill/adapters/v1") [d1_adapter_sha256 input];
     tokenizer_template := domain_id (label "kvpack/spark-prefill/tokenizer-template/v1")
       [d1_tokenizer_sha256 input; d1_chat_template_sha256 input; d1_tokenizer_revision input];
     position_semantics := domain_id (label "kvpack/spark-prefill/position-semantics/v1")
       [d1_context_policy_sha256 input; put_u32 (d1_max_context_tokens input)];
     qualified_math := domain_id (label "kvpack/spark-prefill/qualified-math/v1")
       [d1_producer_engine_abi input; d1_consumer_engine_abi input;
        d1_compute_precision input; d1_kv_precision input] |}.
Definition v1_unqualified (input : PortablePrefillDescriptorInputV1) : bool :=
  (d1_cached_token_count input =? 0)
  || (PORTABLE_PREFILL_MAX_CONTEXT_V1 <=? d1_cached_token_count input)
  || negb (d1_max_context_tokens input =? PORTABLE_PREFILL_MAX_CONTEXT_V1)
  || negb (bytes_eqb (d1_portable_abi input) PORTABLE_PREFILL_ABI_V1)
  || negb (bytes_eqb (d1_compute_precision input) (lit "float16"))
  || negb (bytes_eqb (d1_kv_precision input) (lit "float16"))
  || negb (bytes_eqb (d1_weight_precision input) (lit "q4_k_m")).
(** A registered geometry has at most 28 layers: [layer + 1] cannot overflow. *)
Definition v1_keys (num_layers : Z) : list StateKey :=
  seqZ 0 num_layers ≫= λ l, [mkStateKey l (lit "attn.k"); mkStateKey l (lit "attn.v")].
Definition derive_portable_prefill_descriptor_v1 (input : PortablePrefillDescriptorInputV1)
    : sresult PortablePrefillDescriptorV1 :=
  _ ← portable_prefill_geometry_v1 (d1_num_layers input) (d1_num_kv_heads input) (d1_head_dim input);
  if v1_unqualified input then
    expectation "portable prefill descriptor is outside the qualified Qwen2.5 tuple" else
  if existsb identity_text_bad
       [d1_model_revision input; d1_tokenizer_revision input;
        d1_producer_engine_abi input; d1_consumer_engine_abi input] then
    expectation "portable prefill identity strings must be bounded nonempty ASCII" else
  let geometry := put_u32 <$> [d1_num_layers input; d1_num_kv_heads input; d1_head_dim input;
                               d1_max_context_tokens input] in
  elements ← ok_or (checked_mul (d1_num_kv_heads input) (d1_head_dim input))
    (SState "prefill elements-per-token overflow");
  let keys := v1_keys (d1_num_layers input) in
  let family := {|
    engine_cache_abi := domain_id (label "kvpack/spark-prefill/engine-cache-abi/v1")
      ([d1_portable_abi input; d1_consumer_engine_abi input] ++ geometry);
    mode := Portable;
    page_size_tokens := PREFIX_BLOCK_TOKENS;
    topology := domain_id (label "kvpack/spark-prefill/topology/v1") geometry;
    shard_map := domain_id (label "kvpack/spark-prefill/shard-map/v1")
      [lit "single-rank-layer-ascending-k-then-v"];
    family_states := (λ k, descriptor_state (layer k) (state_name k) F16 Direct elements
                             (d1_num_kv_heads input) (d1_head_dim input)) <$> keys |} in
  _ ← of_pack (validate_family family);
  bytes_per_state ← ok_or (v ← checked_mul (d1_cached_token_count input) elements; checked_mul v 2)
    (SState "prefill state byte bound overflow");
  restored_bytes ← ok_or (checked_mul bytes_per_state (d1_num_layers input * 2))
    (SState "prefill restored-byte bound overflow");
  Ok {| pd_semantic_model := v1_semantic_model input; pd_family := family;
        pd_states := (λ k, mkExportState k [elements; d1_head_dim input; 1] (layer k + 1)) <$> keys;
        pd_bytes_per_state := bytes_per_state; pd_restored_bytes := restored_bytes |}.

(** ** Scalar math of the weights *)
Record WeightsScalarMathV1 := mkScalarMath {
  wm_qk_scale_factor_bits : Z;
  wm_output_multiplier_bits : Z;
  wm_final_logit_softcapping_bits : Z;
  wm_post_norm_eps_bits : Z;
}.
Definition positive_bad (x : spec_float) : bool := negb (f64_is_finite x) || f64_leb x (S754_zero false).
Definition bind_weights_scalar_math_v2 (d : PortablePrefillDescriptorV1) (s : WeightsScalarMathV1)
    : sresult PortablePrefillDescriptorV1 :=
  let softcap := f64_from_bits (wm_final_logit_softcapping_bits s) in
  if positive_bad (f64_from_bits (wm_qk_scale_factor_bits s))
     || positive_bad (f64_from_bits (wm_output_multiplier_bits s))
     || (negb (f64_is_finite softcap) || SFltb softcap (S754_zero false))
     || positive_bad (f64_from_bits (wm_post_norm_eps_bits s)) then
    expectation "portable prefill v2 weights scalar-math fields are outside the supported bounds" else
  let m := pd_semantic_model d in
  Ok {| pd_semantic_model := {|
          weights_config := domain_id (label "kvpack/spark-prefill/weights-config-scalar-math/v1")
            [weights_config m; put_u64 (wm_qk_scale_factor_bits s);
             put_u64 (wm_output_multiplier_bits s); put_u64 (wm_final_logit_softcapping_bits s);
             put_u64 (wm_post_norm_eps_bits s)];
          adapters := adapters m; tokenizer_template := tokenizer_template m;
          position_semantics := position_semantics m; qualified_math := qualified_math m |};
        pd_family := pd_family d; pd_states := pd_states d;
        pd_bytes_per_state := pd_bytes_per_state d; pd_restored_bytes := pd_restored_bytes d |}.
End descriptor.

(** ** Reference description

    The descriptor of an admitted layout, read off layer by layer: every layer
    has one class, every class names its planes. *)
Definition plane : Type := Z * PortablePrefillLayoutClassV2 * bytes.
Definition class_at (classes : list PortablePrefillLayoutClassV2) (l : Z)
    : option PortablePrefillLayoutClassV2 :=
  snd <$> list_find (λ c, l ∈ pc_layers c) classes.
Definition layer_table (num_layers : Z) (classes : list PortablePrefillLayoutClassV2)
    : list (Z * PortablePrefillLayoutClassV2) :=
  omap (λ l, (l,.) <$> class_at classes l) (seqZ 0 num_layers).
Definition planes_of (table : list (Z * PortablePrefillLayoutClassV2)) : list plane :=
  table ≫= λ '(l, c), (λ name, (l, c, name)) <$> class_state_names (pc_class c).
Definition plane_bytes (prerope : bool) (cached : Z) (p : plane) : Z :=
  let '(_, c, name) := p in
  effective_window_tokens (pc_window_tokens c) cached * (pc_kv_heads c * pc_head_dim c)
  * (state_width prerope name).2.
Definition plane_state (prerope : bool) (p : plane) : FamilyState :=
  let '(l, c, name) := p in
  descriptor_state l name (state_width prerope name).1 (axis_rule c)
    (pc_kv_heads c * pc_head_dim c) (pc_kv_heads c) (pc_head_dim c).
Definition plane_declaration (p : plane) : ExportStateDeclaration :=
  let '(l, c, name) := p in
  mkExportState (mkStateKey l name) [pc_kv_heads c * pc_head_dim c; pc_head_dim c; 1] (l + 1).
Arguments plane_bytes : simpl never.
Definition geometry_bytes (classes : list PortablePrefillLayoutClassV2) (context : Z) : bytes :=
  concat (class_geometry <$> classes) ++ put_u32 context.
Definition labeled_geometry_bytes (classes : list PortablePrefillLayoutClassV2) (context : Z) : bytes :=
  concat ((λ c, class_geometry c ++ class_labels c) <$> classes) ++ put_u32 context.

(** What a class must satisfy to enter the identity. *)
Definition class_bindable (pin : option PreRopeKernelPinV1) (c : PortablePrefillLayoutClassV2) : Prop :=
  validate_class_rope_v2 c = Ok tt ∧
  match pin with
  | Some pin => kp_convention pin = pc_rope_convention c ∧ pc_rope_convention c ≠ NoRope ∧
      pc_class c ≠ MLA_LATENT_LAYOUT_CLASS
  | None => True
  end.

(** The numeric fields are [u32] and [u64]. *)
Definition class_words (c : PortablePrefillLayoutClassV2) : Prop :=
  Forall in_u32 [pc_from c; pc_until c; pc_step c; pc_kv_heads c; pc_head_dim c; pc_window_tokens c;
                 pc_rope_dimension_count c] ∧
  Forall in_u32 (pc_except c) ∧ in_u64 (pc_rope_freq_base_bits c) ∧
  zlen (pc_class c) < u32_bound ∧ zlen (pc_rope_scaling c) < u32_bound.

(** ** Laws of the loops *)
Lemma zlen_class_geometry c : zlen (class_geometry c) = (6 + zlen (pc_except c)) * 4.
Proof. unfold class_geometry. rewrite !zlen_app, !zlen_put_u32,
    (zlen_put_list put_u32 4) by (intros; apply zlen_put_u32). lia. Qed.

Lemma validate_pinned_class_Ok pin c : validate_pinned_class pin c = Ok tt ↔
  kp_convention pin = pc_rope_convention c ∧ pc_rope_convention c ≠ NoRope ∧
  pc_class c ≠ MLA_LATENT_LAYOUT_CLASS.
Proof. unfold validate_pinned_class, bytes_eqb. repeat case_bool_decide; naive_solver. Qed.

Lemma geometry_tail {A} g c (k : bytes → sresult A) :
  slice (g ++ class_geometry c) (zlen (g ++ class_geometry c) - (6 + zlen (pc_except c)) * 4)
    (zlen (g ++ class_geometry c)) ≫= k = k (class_geometry c).
Proof.
  rewrite (proj2 (slice_Ok _ _ _ (class_geometry c))); [done|]. rewrite <- zlen_class_geometry, zlen_app.
  pose proof (get_range_app g (class_geometry c) [] (zlen g) (zlen g + zlen (class_geometry c))) as E.
  rewrite app_nil_r in E. rewrite <- E by done. f_equal; lia.
Qed.
Lemma geometry_loop_Ok pin classes g l r :
  geometry_loop pin classes g l = Ok r ↔
  Forall (class_bindable pin) classes ∧
  r = (g ++ concat (class_geometry <$> classes),
       l ++ concat ((λ c, class_geometry c ++ class_labels c) <$> classes)).
Proof.
  revert g l. induction classes as [|c classes IH]; intros g l; cbn [geometry_loop].
  { rewrite !app_nil_r. split; [by intros [= ->]|]. by intros [_ ->]. }
  rewrite Forall_cons, !fmap_cons, !concat_cons, geometry_tail. unfold class_bindable at 1.
  rewrite bind_Ok. split.
  - intros ([] & Hrope & ([] & Hpin & (Hf & ->)%IH)%bind_Ok).
    split; [|by rewrite <- !app_assoc]. split; [|done]. split; [done|].
    destruct pin; [by apply validate_pinned_class_Ok|done].
  - intros [[[Hrope Hpin] Hf] ->]. exists tt. split; [done|]. apply bind_Ok. exists tt. split.
    + destruct pin; [by apply validate_pinned_class_Ok|done].
    + apply IH. split; [done|]. by rewrite <- !app_assoc.
Qed.

Lemma state_width_pos prerope name : 0 < (state_width prerope name).2.
Proof. unfold state_width. by case_match. Qed.
Lemma checked_mul3 w e k : 0 ≤ w → 0 ≤ e → 0 < k → ∀ r,
  (v ← checked_mul w e; checked_mul v k) = Some r ↔ r = w * e * k ∧ w * e * k < u64_bound.
Proof.
  intros Hw He Hk r. rewrite bind_Some. split.
  - by intros (v & [-> _]%checked_mul_Some & [-> ?]%checked_mul_Some).
  - intros [-> Hb]. exists (w * e). rewrite !checked_mul_Some. split; [split; [done|]|done]. nia.
Qed.

(** The two nested loops are one loop over the planes. *)
Fixpoint push_planes (prerope : bool) (cached : Z) (planes : list plane) (b : StatesBuilder)
    : sresult StatesBuilder :=
  match planes with
  | [] => Ok b
  | (l, c, name) :: planes =>
      b ← push_state prerope cached l c (pc_kv_heads c * pc_head_dim c) name b;
      push_planes prerope cached planes b
  end.
Lemma push_planes_app prerope cached p q b :
  push_planes prerope cached (p ++ q) b =
  (b ← push_planes prerope cached p b; push_planes prerope cached q b).
Proof.
  revert b. induction p as [|[[l c] name] p IH]; intros b; [done|]. cbn [app push_planes].
  destruct (push_state _ _ _ _ _ _ _); [apply IH|done..].
Qed.
Lemma push_names_planes prerope cached l c names b :
  push_names prerope cached l c (pc_kv_heads c * pc_head_dim c) names b =
  push_planes prerope cached ((λ name, (l, c, name)) <$> names) b.
Proof.
  revert b. induction names as [|name names IH]; intros b; [done|]. simpl.
  destruct (push_state _ _ _ _ _ _ _); [apply IH|done..].
Qed.
Lemma elements_fit c : class_words c →
  checked_mul (pc_kv_heads c) (pc_head_dim c) = Some (pc_kv_heads c * pc_head_dim c) ∧
  0 ≤ pc_kv_heads c * pc_head_dim c.
Proof.
  intros [Hw _]. rewrite !Forall_cons in Hw. unfold in_u32, u32_bound in Hw.
  split; [|nia]. apply checked_mul_Some. split; [done|]. unfold u64_bound. nia.
Qed.
Lemma push_layers_planes prerope cached table b : Forall (λ e, class_words e.2) table →
  push_layers prerope cached table b = push_planes prerope cached (planes_of table) b.
Proof.
  intros Ht. revert b. induction Ht as [|[l c] table Hc _ IH]; intros b; [done|].
  unfold planes_of. cbn [push_layers mbind list_bind]. rewrite push_planes_app.
  rewrite (proj1 (elements_fit c Hc)). cbn [ok_or mbind outcome_bind]. rewrite push_names_planes.
  destruct (push_planes _ _ _ b); [apply IH|done..].
Qed.

(** One loop over planes adds exactly their states, declarations and bytes, as
    long as the total fits. *)
Definition plane_words (p : plane) : Prop := let '(l, c, _) := p in 0 ≤ l < u32_bound - 1 ∧ class_words c.
Definition extend_builder (prerope : bool) (cached : Z) (planes : list plane) (b : StatesBuilder)
    : StatesBuilder :=
  {| sb_family_states := sb_family_states b ++ (plane_state prerope <$> planes);
     sb_states := sb_states b ++ (plane_declaration <$> planes);
     sb_bytes_per_state := foldl Z.max (sb_bytes_per_state b) (plane_bytes prerope cached <$> planes);
     sb_restored_bytes := sb_restored_bytes b + zsum (plane_bytes prerope cached <$> planes) |}.
Lemma plane_bytes_nonneg prerope cached p : 0 ≤ cached → plane_words p → 0 ≤ plane_bytes prerope cached p.
Proof.
  destruct p as [[l c] name]. intros Hc [_ Hw]. unfold plane_bytes.
  pose proof (proj2 (elements_fit c Hw)). pose proof (state_width_pos prerope name).
  assert (0 ≤ effective_window_tokens (pc_window_tokens c) cached).
  { destruct Hw as [Hw _]. rewrite !Forall_cons in Hw. unfold effective_window_tokens, in_u32 in *. case_match; lia. }
  apply Z.mul_nonneg_nonneg; [|lia]. by apply Z.mul_nonneg_nonneg.
Qed.
Lemma push_state_Ok prerope cached l c name b b' :
  0 ≤ cached → plane_words (l, c, name) →
  push_state prerope cached l c (pc_kv_heads c * pc_head_dim c) name b = Ok b' ↔
  b' = extend_builder prerope cached [(l, c, name)] b ∧
  plane_bytes prerope cached (l, c, name) < u64_bound ∧
  sb_restored_bytes b + plane_bytes prerope cached (l, c, name) < u64_bound.
Proof.
  intros Hcached Hp. pose proof (plane_bytes_nonneg prerope cached _ Hcached Hp) as Hnn. destruct Hp as [Hl Hw].
  assert (0 ≤ effective_window_tokens (pc_window_tokens c) cached) as Hwin.
  { destruct Hw as [Hw _]. rewrite !Forall_cons in Hw. unfold effective_window_tokens, in_u32 in *. case_match; lia. }
  pose proof (checked_mul3 _ _ (state_width prerope name).2 Hwin (proj2 (elements_fit c Hw)) (state_width_pos _ _)) as
    Hmul.
  unfold push_state, extend_builder, plane_bytes, plane_state, plane_declaration in *. simpl.
  destruct (state_width prerope name) as [dtype width]. simpl in *. rewrite Z.add_0_r. split.
  - intros (bytes & [-> Hb]%ok_or_Ok%Hmul & H)%bind_Ok.
    unfold try_from in H. destruct (Z.ltb_spec (l + 1) u32_bound); [|lia]. simpl in H.
    apply bind_Ok in H as (r & [-> Hr]%ok_or_Ok%checked_add_Some & [= <-]). done.
  - intros (-> & Hb & Hr). rewrite (proj2 (Hmul _) (conj eq_refl Hb)). simpl.
    unfold try_from. destruct (Z.ltb_spec (l + 1) u32_bound); [|lia]. simpl.
    by rewrite (proj2 (checked_add_Some _ _ _) (conj eq_refl Hr)).
Qed.
Lemma zsum_nonneg l : Forall (Z.le 0) l → 0 ≤ zsum l.
Proof. induction 1; simpl; lia. Qed.
Lemma push_planes_Ok prerope cached planes b b' :
  0 ≤ cached → Forall plane_words planes → 0 ≤ sb_restored_bytes b < u64_bound →
  push_planes prerope cached planes b = Ok b' ↔
  b' = extend_builder prerope cached planes b ∧
  sb_restored_bytes b + zsum (plane_bytes prerope cached <$> planes) < u64_bound.
Proof.
  intros Hc Hp. revert b. induction Hp as [|[[l c] name] planes Hw Hps IH]; intros b Hb; cbn [push_planes].
  { unfold extend_builder. simpl. rewrite !app_nil_r, Z.add_0_r. destruct b; simpl in *.
    split; [intros [= <-]; split; [done|lia]|]. by intros [-> _]. }
  rewrite bind_Ok. pose proof (plane_bytes_nonneg prerope cached _ Hc Hw) as Hnn.
  assert (0 ≤ zsum (plane_bytes prerope cached <$> planes)) as Hs.
  { apply zsum_nonneg. apply Forall_fmap. eapply Forall_impl; [done|]. intros p. by apply plane_bytes_nonneg. }
  assert (extend_builder prerope cached planes (extend_builder prerope cached [(l, c, name)] b) =
    extend_builder prerope cached ((l, c, name) :: planes) b) as He.
  { unfold extend_builder. cbn [sb_family_states sb_states sb_bytes_per_state sb_restored_bytes fmap list_fmap zsum
      foldr foldl].
    rewrite <- !app_assoc. f_equal. fold (zsum (plane_bytes prerope cached <$> planes)). lia. }
  rewrite fmap_cons. cbn [zsum foldr]. fold (zsum (plane_bytes prerope cached <$> planes)). split.
  - intros (b1 & (-> & _ & Hr)%push_state_Ok & H); [|done..].
    apply IH in H as [-> Ht]; [|simpl in *; lia]. rewrite He in *. simpl in *. split; [done|lia].
  - intros [-> Ht]. exists (extend_builder prerope cached [(l, c, name)] b).
    rewrite push_state_Ok by done. split; [split_and!; [done|lia..]|]. rewrite IH by (simpl; lia).
    split; [by symmetry|simpl; lia].
Qed.

(** ** The sorted table *)
Lemma bind_owner {A B} (f : A → list B) (l : list A) x y b :
  NoDup (l ≫= f) → x ∈ l → y ∈ l → b ∈ f x → b ∈ f y → x = y.
Proof.
  induction l as [|a l IH]; [by intros _ ?%not_elem_of_nil|]. rewrite bind_cons, NoDup_app, !elem_of_cons.
  intros (_ & Hd & Hn) [->|Hx] [->|Hy] Hbx Hby; [done|..|by apply IH].
  - destruct (Hd b Hbx). apply list_elem_of_bind. eauto.
  - destruct (Hd b Hby). apply list_elem_of_bind. eauto.
Qed.
Lemma class_at_Some classes l c : NoDup (all_layers classes) →
  class_at classes l = Some c ↔ c ∈ classes ∧ l ∈ pc_layers c.
Proof.
  intros Hn. unfold class_at. rewrite fmap_Some. split.
  - intros ([i c'] & (Hi & Hl & _)%list_find_Some & ->). split; [by eapply list_elem_of_lookup_2|done].
  - intros [Hc Hl]. destruct (list_find_elem_of (λ c, l ∈ pc_layers c) classes c Hc Hl) as [[i c'] Hf].
    exists (i, c'). split; [done|]. apply list_find_Some in Hf as (Hi & Hl' & _).
    eapply bind_owner; [exact Hn|done|by eapply list_elem_of_lookup_2|done..].
Qed.
Lemma omap_pair_fst {A B} (g : A → option B) l : (∀ a, a ∈ l → is_Some (g a)) →
  (omap (λ a, (a,.) <$> g a) l).*1 = l.
Proof.
  induction l as [|a l IH]; intros H; [done|]. simpl.
  destruct (H a) as [b ->]; [by left|]. simpl. f_equal. apply IH. intros; apply H. by right.
Qed.
Lemma seqZ_sorted m n : StronglySorted Z.lt (seqZ m n).
Proof.
  destruct (Z.le_gt_cases 0 n) as [Hn|]; [|by rewrite seqZ_nil by lia; constructor]. revert m.
  pattern n. apply natlike_ind; [|intros k Hk IH m|done]; [intros; constructor|].
  rewrite seqZ_cons, Z.pred_succ by lia. constructor; [apply IH|].
  apply list.Forall_forall. intros x ?%elem_of_seqZ. lia.
Qed.

Lemma layer_table_layers layout : layout_partitions layout →
  (layer_table (pl_num_layers layout) (pl_classes layout)).*1 = seqZ 0 (pl_num_layers layout).
Proof.
  intros (_ & _ & Hn & Hl). apply omap_pair_fst. intros l Hin%elem_of_seqZ.
  assert (l ∈ all_layers (pl_classes layout)) as (c & Hlc & Hc)%list_elem_of_bind by (apply Hl; lia).
  exists c. by apply class_at_Some.
Qed.
Lemma elem_of_layer_table layout l c : layout_partitions layout →
  (l, c) ∈ layer_table (pl_num_layers layout) (pl_classes layout) ↔
  c ∈ pl_classes layout ∧ l ∈ pc_layers c.
Proof.
  intros (_ & _ & Hn & Hl). unfold layer_table. rewrite list_elem_of_omap. split.
  - intros (l' & _ & (c' & Hc & [= -> ->])%fmap_Some). by apply class_at_Some.
  - intros [Hc Hlc]. exists l. split.
    + apply elem_of_seqZ. rewrite Z.add_0_l. apply Hl, list_elem_of_bind. eauto.
    + rewrite (proj2 (class_at_Some _ _ _ Hn) (conj Hc Hlc)). done.
Qed.
Lemma sorted_by_layer (table : list (Z * PortablePrefillLayoutClassV2)) :
  StronglySorted Z.lt table.*1 → StronglySorted layer_le table.
Proof.
  induction table as [|x t IH]; [constructor|]. rewrite fmap_cons. intros [Hs Hx]%StronglySorted_inv.
  constructor; [auto|]. apply list.Forall_forall. intros y Hy. unfold layer_le.
  apply Z.lt_le_incl, (proj1 (list.Forall_forall _ _) Hx), list_elem_of_fmap. eauto.
Qed.
Lemma tagged_layers classes :
  (classes ≫= λ c, (λ l, (l, c)) <$> pc_layers c).*1 = all_layers classes.
Proof.
  unfold all_layers. induction classes as [|c classes IH]; [done|]. rewrite !bind_cons, fmap_app, IH.
  f_equal. rewrite <- list_fmap_compose. apply list_fmap_id.
Qed.
Lemma ordered_layers_table layout : layout_partitions layout →
  ordered_layers (pl_classes layout) = layer_table (pl_num_layers layout) (pl_classes layout).
Proof.
  intros Hp. pose proof (layer_table_layers layout Hp) as Hfst. pose proof Hp as (_ & _ & Hn & _).
  set (table := layer_table _ _) in *.
  assert (ordered_layers (pl_classes layout) ≡ₚ table) as Hperm.
  { unfold ordered_layers. rewrite merge_sort_Permutation. apply NoDup_Permutation.
    - apply (NoDup_fmap_1 fst). by rewrite tagged_layers.
    - apply (NoDup_fmap_1 fst). rewrite Hfst. apply NoDup_seqZ.
    - intros [l c]. unfold table. rewrite elem_of_layer_table, list_elem_of_bind by done. split.
      + by intros (c' & (l' & [= -> ->] & Hl)%list_elem_of_fmap & Hc).
      + intros [Hc Hl]. exists c. split; [apply list_elem_of_fmap; eauto|done]. }
  apply (StronglySorted_unique_strong layer_le); [| | |done].
  - intros [l c] [l' c'] H1 H2 H3 H4. rewrite Hperm in H1. unfold layer_le in *. simpl in *.
    assert (l = l') as -> by lia. unfold table in H1, H2. rewrite elem_of_layer_table in H1, H2 by done.
    destruct H1, H2. f_equal. by eapply bind_owner.
  - apply StronglySorted_merge_sort; [intros ???; unfold layer_le; lia|intros ??; unfold layer_le; lia].
  - apply sorted_by_layer. rewrite Hfst. apply seqZ_sorted.
Qed.

(** ** The family of the planes is valid *)
Definition plane_key (p : plane) : StateKey := let '(l, _, name) := p in mkStateKey l name.
Lemma state_names_ok c name : name ∈ class_state_names c → state_name_ok name ∧ string_ok name.
Proof.
  assert (∀ n : bytes, n ∈ [lit "attn.k"; lit "attn.v"; MLA_LATENT_STATE_NAME] →
    state_name_ok n ∧ string_ok n) as H.
  { assert (Forall (λ n : bytes, (0 <? zlen n) && (zlen n <=? 255) && bool_decide (0 ∉ n) &&
      bytes_okb n && utf8_valid n = true) [lit "attn.k"; lit "attn.v"; MLA_LATENT_STATE_NAME]) as Hf
      by (repeat constructor).
    intros n Hn. apply (proj1 (list.Forall_forall _ _) Hf) in Hn. bools. unfold state_name_ok, string_ok.
    unfold MAX_STATE_NAME_BYTES, u16_bound. split_and!; [lia..|done|lia|by apply bytes_okb_ok|done]. }
  unfold class_state_names. case_match; intros Hn; apply H; set_solver.
Qed.
Lemma keys_sorted_layer l c : StronglySorted key_lt
  (plane_key <$> ((λ name, (l, c, name)) <$> class_state_names (pc_class c))).
Proof.
  unfold class_state_names. case_match; simpl; repeat constructor.
  unfold key_lt, StateKey_ltb, StateKey_cmp. simpl. by rewrite Z.compare_refl.
Qed.
Lemma plane_keys_sorted table : StronglySorted Z.lt table.*1 →
  StronglySorted key_lt (plane_key <$> planes_of table).
Proof.
  induction table as [|[l c] table IH]; [constructor|]. rewrite fmap_cons.
  intros [Hs Hl]%StronglySorted_inv. unfold planes_of. rewrite bind_cons, fmap_app.
  apply StronglySorted_app_2; [|apply keys_sorted_layer|by apply IH].
  intros k k' (p & -> & (name & -> & _)%list_elem_of_fmap)%list_elem_of_fmap.
  intros (p' & -> & ([l' c'] & (name' & -> & _)%list_elem_of_fmap & Hin)%list_elem_of_bind)%list_elem_of_fmap.
  assert (l < l') as Hlt by (apply (proj1 (list.Forall_forall _ _) Hl), list_elem_of_fmap; by exists (l', c')).
  unfold key_lt, StateKey_ltb, StateKey_cmp. simpl. by rewrite (proj2 (Z.compare_lt_iff l l')).
Qed.

Definition spec_planes (layout : PortablePrefillLayoutV2) : list plane :=
  planes_of (layer_table (pl_num_layers layout) (pl_classes layout)).
Definition layout_words (layout : PortablePrefillLayoutV2) : Prop :=
  in_u32 (pl_num_layers layout) ∧ Forall class_words (pl_classes layout).
Lemma layout_words_unsigned layout : layout_words layout → layout_unsigned layout.
Proof.
  intros [[Hn _] Hc]. split; [done|]. eapply Forall_impl; [exact Hc|]. intros c [Hw _].
  rewrite !Forall_cons in Hw. by destruct Hw as [[? _] _].
Qed.
Lemma elem_of_spec_planes layout l c name : layout_partitions layout →
  (l, c, name) ∈ spec_planes layout ↔
  c ∈ pl_classes layout ∧ l ∈ pc_layers c ∧ name ∈ class_state_names (pc_class c).
Proof.
  intros Hp. unfold spec_planes, planes_of. rewrite list_elem_of_bind. split.
  - intros ([l' c'] & (n & [= <- <- <-] & Hn)%list_elem_of_fmap & [Hc Hl]%elem_of_layer_table); [done|done].
  - intros (Hc & Hl & Hn). exists (l, c). split; [apply list_elem_of_fmap; eauto|].
    by apply elem_of_layer_table.
Qed.
Lemma spec_planes_words layout : layout_words layout → layout_partitions layout →
  Forall (λ p : plane, 0 ≤ p.1.1 < pl_num_layers layout ∧ class_words p.1.2 ∧
    0 < pc_kv_heads p.1.2 ∧ 0 < pc_head_dim p.1.2 ∧
    p.2 ∈ class_state_names (pc_class p.1.2)) (spec_planes layout).
Proof.
  intros [_ Hw] Hp. apply list.Forall_forall. intros [[l c] name] (Hc & Hl & Hn)%elem_of_spec_planes; [|done].
  simpl. pose proof Hp as (_ & Ha & _ & Hlay).
  pose proof (proj1 (list.Forall_forall _ _) Hw c Hc) as Hcw.
  destruct (proj1 (list.Forall_forall _ _) Ha c Hc) as (_ & _ & Hk & Hd & _).
  split; [apply Hlay, list_elem_of_bind; eauto|]. split; [done|].
  destruct Hcw as [Hcw _]. rewrite !Forall_cons in Hcw. unfold in_u32 in Hcw. split_and!; [lia..|done].
Qed.

Lemma layer_table_words layout : layout_words layout → layout_partitions layout →
  Forall (λ e, class_words e.2) (layer_table (pl_num_layers layout) (pl_classes layout)).
Proof.
  intros [_ Hw] Hp. apply list.Forall_forall. intros [l c] [Hc _]%elem_of_layer_table; [|done].
  by apply (proj1 (list.Forall_forall _ _) Hw).
Qed.

Section reference.
Context `{CL : CryptoLaws}.
Implicit Types (input : PortablePrefillDescriptorInputV2) (layout : PortablePrefillLayoutV2).

Definition descriptor_family input layout : RepresentationFamilyId :=
  let context := di_max_context_tokens input in
  {| engine_cache_abi := domain_id (label "kvpack/spark-prefill/engine-cache-abi/v3")
       (engine_cache_abi_parts input (labeled_geometry_bytes (pl_classes layout) context));
     mode := Portable;
     page_size_tokens := PREFIX_BLOCK_TOKENS;
     topology := domain_id (label "kvpack/spark-prefill/topology/v2")
       [geometry_bytes (pl_classes layout) context];
     shard_map := domain_id (label "kvpack/spark-prefill/shard-map/v2")
       [lit "single-rank-layout-table-declared-order"];
     family_states := plane_state (is_prerope input) <$> spec_planes layout |}.
Definition descriptor_of input layout : PortablePrefillDescriptorV1 :=
  let sizes := plane_bytes (is_prerope input) (di_cached_token_count input) <$> spec_planes layout in
  {| pd_semantic_model := descriptor_semantic_model input;
     pd_family := descriptor_family input layout;
     pd_states := plane_declaration <$> spec_planes layout;
     pd_bytes_per_state := foldl Z.max 0 sizes;
     pd_restored_bytes := zsum sizes |}.
(** What a transfer and a layout must satisfy to have a descriptor. *)
Definition descriptor_admitted input layout : Prop :=
  layout_partitions layout ∧ validate_input input = Ok tt ∧
  Forall (class_bindable (di_prerope_kernel_pin input)) (pl_classes layout) ∧
  pd_restored_bytes (descriptor_of input layout) < u64_bound ∧
  zlen (spec_planes layout) ≤ MAX_STATES ∧
  is_zero_id (engine_cache_abi (descriptor_family input layout)) = false ∧
  is_zero_id (topology (descriptor_family input layout)) = false ∧
  is_zero_id (shard_map (descriptor_family input layout)) = false.

Lemma planes_nonempty layout : layout_partitions layout → 0 < zlen (spec_planes layout).
Proof.
  intros Hp. pose proof Hp as (Hpos & _ & _ & Hl).
  assert (0 ∈ all_layers (pl_classes layout)) as (c & H0 & Hc)%list_elem_of_bind by (apply Hl; lia).
  destruct (class_state_names (pc_class c)) as [|name names] eqn:E.
  { unfold class_state_names in E. by case_match. }
  assert ((0, c, name) ∈ spec_planes layout) as Hin.
  { apply elem_of_spec_planes; [done|]. rewrite E. split_and!; [done..|by left]. }
  destruct (spec_planes layout); [by apply not_elem_of_nil in Hin|]. rewrite zlen_cons. zlen_facts. lia.
Qed.
Lemma plane_state_ok prerope l c name :
  in_u32 l → class_words c → 0 < pc_kv_heads c → 0 < pc_head_dim c → name ∈ class_state_names (pc_class c) →
  FamilyState_ok (plane_state prerope (l, c, name)) ∧
  family_state_valid Portable (plane_state prerope (l, c, name)).
Proof.
  intros Hl Hw Hk Hd [Hn1 Hn2]%state_names_ok. pose proof (elements_fit c Hw) as [He%checked_mul_Some He0].
  destruct Hw as [Hw _]. rewrite !Forall_cons in Hw. unfold in_u32, u32_bound in Hw.
  assert (∀ v, 0 < v < 4294967296 → dim_ok v) as Hdim by (intros v ?; unfold dim_ok, in_u64, u64_bound; lia).
  unfold FamilyState_ok, family_state_valid, StateKey_ok, plane_state, descriptor_state. simpl. split.
  - split_and!; try done; [split; [done|apply He]|]. repeat constructor; apply Hdim; lia.
  - split_and!; try done.
    + intros [|[|[|i]]]; simpl; split; intros; try done; lia.
    + unfold fixed_dimensions, zprod. simpl. lia.
    + unfold layout_rule_ok. simpl. split; [|done]. intros _. unfold axis_rule. by case_match.
Qed.

Lemma descriptor_family_valid input layout : layout_words layout → layout_partitions layout →
  zlen (spec_planes layout) ≤ MAX_STATES →
  validate_family (descriptor_family input layout) = Ok tt ↔
  is_zero_id (engine_cache_abi (descriptor_family input layout)) = false ∧
  is_zero_id (topology (descriptor_family input layout)) = false ∧
  is_zero_id (shard_map (descriptor_family input layout)) = false.
Proof.
  intros Hw Hp Hmax. pose proof (spec_planes_words layout Hw Hp) as Hpl.
  assert (Forall (λ s, FamilyState_ok s ∧ family_state_valid Portable s)
    (plane_state (is_prerope input) <$> spec_planes layout)) as Hst.
  { apply list.Forall_fmap. eapply Forall_impl; [exact Hpl|]. intros [[l c] name] (Hl & Hc & Hk & Hd & Hn).
    destruct Hw as [Hn32 _]. unfold in_u32 in Hn32. simpl in *.
    apply plane_state_ok; [unfold in_u32; lia|done..]. }
  assert (StronglySorted key_lt (fs_key <$> (plane_state (is_prerope input) <$> spec_planes layout))) as Hk.
  { rewrite <- list_fmap_compose. erewrite list_fmap_ext; [apply plane_keys_sorted|].
    - rewrite layer_table_layers by done. apply seqZ_sorted.
    - by intros ? [[l c] name] _. }
  rewrite validate_family_Ok; [unfold family_valid; simpl|].
  - split; [tauto|]. intros (? & ? & ?). split_and!; try done.
    + eapply Forall_impl; [exact Hst|]. by intros ? [].
    + apply list.Forall_fmap, list.Forall_forall. intros [[l c] name] _. split; simpl; [constructor|].
      by intros ? ?%not_elem_of_nil.
    + assert (∀ a b, ¬ dep_edge (plane_state (is_prerope input) <$> spec_planes layout) a b) as Hno.
      { intros a b (s & ([[l c] name] & -> & _)%list_elem_of_fmap & _ & Hb). by apply not_elem_of_nil in Hb. }
      intros a Ha. by destruct Ha as [? ? ?%Hno|? ? ? ?%Hno].
  - unfold RepresentationFamilyId_ok. simpl. rewrite zlen_fmap.
    pose proof (planes_nonempty layout Hp). split_and!; try apply sha256_id; try done.
    eapply Forall_impl; [exact Hst|]. by intros ? [].
Qed.

Lemma of_pack_unit (r : result unit) : of_pack r = Ok tt ↔ r = Ok tt.
Proof. by destruct r as [[]| |]. Qed.
Lemma validate_family_count f : validate_family f = Ok tt → zlen (family_states f) ≤ MAX_STATES.
Proof. unfold validate_family. intros H. inv_ok. bools. lia. Qed.
Lemma push_spec input layout b :
  layout_words layout → 0 ≤ di_cached_token_count input → layout_partitions layout →
  push_layers (is_prerope input) (di_cached_token_count input)
    (ordered_layers (pl_classes layout)) (mkStatesBuilder [] [] 0 0) = Ok b ↔
  b = extend_builder (is_prerope input) (di_cached_token_count input) (spec_planes layout)
        (mkStatesBuilder [] [] 0 0) ∧ pd_restored_bytes (descriptor_of input layout) < u64_bound.
Proof.
  intros Hw Hc Hp. pose proof (spec_planes_words layout Hw Hp) as Hpl.
  rewrite ordered_layers_table, push_layers_planes by auto using layer_table_words.
  rewrite push_planes_Ok; [simpl; by rewrite Z.add_0_l|done| |done].
  eapply Forall_impl; [exact Hpl|]. intros [[l c] name] (Hl & Hcw & _). split; [|done].
  destruct Hw as [[_ Hn] _]. simpl in *. lia.
Qed.
(** The derivation computes the reference description of every admitted layout. *)
Lemma descriptor_refines input layout d :
  layout_words layout → in_u32 (di_cached_token_count input) →
  derive_portable_prefill_descriptor_v2_from_layout input layout = Ok d ↔
  descriptor_admitted input layout ∧ d = descriptor_of input layout.
Proof.
  intros Hw [Hc0 _]. unfold derive_portable_prefill_descriptor_v2_from_layout, descriptor_admitted.
  unfold derive_portable_prefill_descriptor_v2_core.
  pose proof (validate_owned_layout_decides layout (layout_words_unsigned _ Hw)) as Hval.
  pose proof (λ b, push_spec input layout b Hw Hc0) as Hpush.
  split.
  - intros ([] & Hp%Hval & ([] & Hin & ([g l] & (Hb & [-> ->]%pair_equal_spec)%geometry_loop_Ok &
      H)%bind_Ok)%bind_Ok)%bind_Ok.
    apply bind_Ok in H as (b & (-> & Ht)%Hpush & ([] & Hf%of_pack_unit & <-%Ok_inj)%bind_Ok); [|done].
    assert (validate_family (descriptor_family input layout) = Ok tt) as Hv by exact Hf.
    pose proof (validate_family_count _ Hv) as Hmax. simpl in Hmax. rewrite zlen_fmap in Hmax.
    split; [|done]. apply descriptor_family_valid in Hv; [|done..]. by destruct Hv as (? & ? & ?); split_and!.
  - intros [(Hp & Hin & Hb & Ht & Hmax & Hz) ->]. rewrite (proj2 Hval Hp), Hin. simpl.
    rewrite (proj2 (geometry_loop_Ok _ _ [] [] _) (conj Hb eq_refl)). simpl.
    rewrite (proj2 (Hpush _ Hp) (conj eq_refl Ht)).
    apply (descriptor_family_valid input layout Hw Hp Hmax) in Hz. cbn [mbind outcome_bind].
    apply bind_Ok. exists tt. split; [|done]. by apply of_pack_unit.
Qed.

Lemma validate_input_no_panic input : ¬ panics (validate_input input).
Proof. unfold validate_input. repeat case_match; by intros []. Qed.
Lemma validate_class_rope_no_panic c : ¬ panics (validate_class_rope_v2 c).
Proof. unfold validate_class_rope_v2. repeat case_match; by intros []. Qed.
Lemma insert_layers_no_panic layers covered : ¬ panics (insert_layers layers covered).
Proof. revert covered. induction layers; intros covered; simpl; [by intros []|]. case_match; [by intros []|auto]. Qed.
Lemma validate_owned_layout_no_panic layout : ¬ panics (validate_owned_layout_v2 layout).
Proof.
  assert (∀ n classes covered, ¬ panics (cover_classes n classes covered)) as Hc.
  { intros n. induction classes as [|c classes IH]; intros covered; cbn [cover_classes]; [by intros []|].
    no_panic; auto using insert_layers_no_panic. }
  unfold validate_owned_layout_v2. no_panic.
Qed.
Lemma geometry_loop_no_panic pin classes g l : ¬ panics (geometry_loop pin classes g l).
Proof.
  revert g l. induction classes as [|c classes IH]; intros g l; cbn [geometry_loop]; [by intros []|].
  rewrite geometry_tail. apply bind_no_panic; [apply validate_class_rope_no_panic|intros _ _].
  apply bind_no_panic; [|intros _ _; apply IH]. destruct pin; [|by intros []].
  unfold validate_pinned_class. no_panic.
Qed.
Lemma push_planes_no_panic prerope cached planes b :
  Forall plane_words planes → ¬ panics (push_planes prerope cached planes b).
Proof.
  intros Hp. revert b. induction Hp as [|[[l c] name] planes [Hl _] _ IH]; intros b; cbn [push_planes];
    [by intros []|].
  apply bind_no_panic; [|auto]. unfold push_state. destruct (state_width prerope name).
  unfold try_from. destruct (Z.ltb_spec (l + 1) u32_bound); [|lia]. no_panic.
Qed.
Lemma derivation_no_panic input layout : layout_words layout →
  ¬ panics (derive_portable_prefill_descriptor_v2_from_layout input layout).
Proof.
  intros Hw. unfold derive_portable_prefill_descriptor_v2_from_layout, derive_portable_prefill_descriptor_v2_core.
  apply bind_no_panic; [apply validate_owned_layout_no_panic|intros [] Hv].
  apply validate_owned_layout_decides in Hv as Hp; [|by apply layout_words_unsigned].
  apply bind_no_panic; [apply validate_input_no_panic|intros _ _].
  apply bind_no_panic; [apply geometry_loop_no_panic|intros [g l] _].
  apply bind_no_panic; [|intros b _; apply bind_no_panic; [|by intros _ _ []]].
  - pose proof (spec_planes_words layout Hw Hp) as Hpl.
    rewrite ordered_layers_table, push_layers_planes by auto using layer_table_words.
    apply push_planes_no_panic. eapply Forall_impl; [exact Hpl|].
    intros [[l' c] name] (Hl & Hcw & _). split; [|done]. destruct Hw as [[_ Hn] _]. simpl in *. lia.
  - pose proof (validate_family_no_panic) as Hn. match goal with |- ¬ panics (of_pack (validate_family ?f)) =>
      specialize (Hn f); by destruct (validate_family f) end.
Qed.
End reference.

(** ** The engine identity binds the layout *)
Lemma prefixed32_inj a b x y : zlen a < u32_bound → zlen b < u32_bound →
  prefixed32 a ++ x = prefixed32 b ++ y → a = b ∧ x = y.
Proof.
  intros Ha Hb H. unfold prefixed32 in H. rewrite <- !app_assoc in H.
  apply app_inj_zlen in H as [Hl H]; [|by rewrite !zlen_put_u32].
  rewrite !Z.mod_small in Hl by zlia. apply put_u32_inj in Hl; [|split; zlia..].
  by apply app_inj_zlen in H.
Qed.
Lemma framed_inj p q : Forall (λ s, zlen s < u64_bound) p → Forall (λ s, zlen s < u64_bound) q →
  framed p = framed q → p = q.
Proof.
  intros Hp. revert q. induction Hp as [|s p Hs _ IH]; intros q Hq H; unfold framed in H.
  - destruct q as [|t q]; [done|]. apply (f_equal zlen) in H.
    rewrite fmap_cons, concat_cons, !zlen_app, zlen_put_u64 in H. cbn in H. zlia.
  - destruct Hq as [|t q Ht Hq]; rewrite !fmap_cons, !concat_cons in H.
    { apply (f_equal zlen) in H. rewrite !zlen_app, zlen_put_u64 in H. cbn in H. zlia. }
    rewrite <- !app_assoc in H. apply app_inj_zlen in H as [Hl H]; [|by rewrite !zlen_put_u64].
    apply put_u64_inj in Hl; [|split; zlia..]. apply app_inj_zlen in H as [-> H]; [|done].
    f_equal. by apply IH.
Qed.
Lemma convention_inj a b : RopeConvention_as_str a = RopeConvention_as_str b → a = b.
Proof. by destruct a, b. Qed.
Lemma convention_short c : zlen (RopeConvention_as_str c) < u32_bound.
Proof. by destruct c. Qed.
Lemma state_names_short c : Forall (λ n, zlen n < u32_bound) (class_state_names c).
Proof. unfold class_state_names. case_match; by repeat constructor. Qed.

Lemma class_geometry_inj c c' x y : class_words c → class_words c' →
  zlen (pc_except c) = zlen (pc_except c') →
  class_geometry c ++ x = class_geometry c' ++ y →
  (pc_from c, pc_until c, pc_step c, pc_kv_heads c, pc_head_dim c, pc_window_tokens c, pc_except c) =
  (pc_from c', pc_until c', pc_step c', pc_kv_heads c', pc_head_dim c', pc_window_tokens c', pc_except c')
  ∧ x = y.
Proof.
  intros (Hw & He & _) (Hw' & He' & _) Hlen H. rewrite !Forall_cons in Hw, Hw'.
  apply app_inj_zlen in H as [H ->]; [|by rewrite !zlen_class_geometry, Hlen].
  destruct_and! Hw. destruct_and! Hw'. unfold class_geometry in H.
  unframe. match goal with H : put_list _ _ = put_list _ _ |- _ => apply put_list_u32_inj in H; [|done..] end.
  split; [congruence|done].
Qed.
Lemma class_bytes_inj c c' x y : class_words c → class_words c' →
  zlen (pc_except c) = zlen (pc_except c') →
  (class_geometry c ++ class_labels c) ++ x = (class_geometry c' ++ class_labels c') ++ y →
  c = c' ∧ x = y.
Proof.
  intros Hw Hw' Hlen H. rewrite <- !app_assoc in H.
  apply class_geometry_inj in H as [Hg H]; [|done..]. injection Hg as ???????.
  destruct Hw as (Hw & _ & Hb & Hc & Hs), Hw' as (Hw' & _ & Hb' & Hc' & Hs').
  rewrite !Forall_cons in Hw, Hw'. destruct_and! Hw. destruct_and! Hw'.
  unfold class_labels in H. rewrite <- !app_assoc in H.
  apply prefixed32_inj in H as [Hcl H]; [|done..]. rewrite Hcl in H.
  apply app_inj_zlen in H as [_ H]; [|done]. apply app_inj_zlen in H as [_ H]; [|done].
  apply app_inj_zlen in H as [Hf H]; [|by rewrite !zlen_put_u64]. apply put_u64_inj in Hf; [|done..].
  apply app_inj_zlen in H as [Hd H]; [|by rewrite !zlen_put_u32]. apply put_u32_inj in Hd; [|done..].
  apply prefixed32_inj in H as [Hr H]; [|done..].
  apply prefixed32_inj in H as [Hv H]; [|apply convention_short..]. apply convention_inj in Hv.
  destruct c, c'; simpl in *. by subst.
Qed.
(** The byte string of a class list has no count of the exceptions of a class, so
    that it is read back only against lists with as many of them. *)
Definition same_exceptions (c c' : PortablePrefillLayoutClassV2) : Prop :=
  zlen (pc_except c) = zlen (pc_except c').
Lemma labeled_inj cs cs' n n' : Forall class_words cs → Forall class_words cs' →
  Forall2 same_exceptions cs cs' → in_u32 n → in_u32 n' →
  labeled_geometry_bytes cs n = labeled_geometry_bytes cs' n' → cs = cs' ∧ n = n'.
Proof.
  intros Hw Hw' He Hn Hn'. unfold labeled_geometry_bytes.
  revert Hw Hw'. induction He as [|c c' cs cs' Hc _ IH]; intros Hw Hw' H.
  { split; [done|]. by apply put_u32_inj in H. }
  apply Forall_cons in Hw as [Hw Hws], Hw' as [Hw' Hws'].
  rewrite !fmap_cons, !concat_cons in H. rewrite <- (app_assoc (_ ++ _)),
    <- (app_assoc (class_geometry c' ++ _)) in H.
  apply class_bytes_inj in H as [-> H]; [|done..]. destruct (IH Hws Hws' H) as [-> ->]. done.
Qed.
Lemma pin_inj a b : Forall (λ s, zlen s < u32_bound) [kp_engine a; kp_kernel a; kp_dtype_path a] →
  Forall (λ s, zlen s < u32_bound) [kp_engine b; kp_kernel b; kp_dtype_path b] →
  identity_bytes a = identity_bytes b → a = b.
Proof.
  rewrite !Forall_cons. intros (? & ? & ? & _) (? & ? & ? & _) He. unfold identity_bytes in He.
  rewrite !fmap_cons, !concat_cons, <- !app_assoc in He.
  do 3 (apply prefixed32_inj in He as [? He]; [|done..]).
  simpl in He. apply (f_equal (λ l, l ++ [])) in He.
  apply (prefixed32_inj _ _ [] []) in He as [Hv%convention_inj _]; [|apply convention_short..].
  destruct a, b; simpl in *. by subst.
Qed.
