(* ===== verification/PrefillSession.v ===== *)
(** * Sessions and relocation (kvpack, prefill/session.rs and prefill/relocate.rs)

    Resuming a saved session checks identities and the coverage of sliding
    windows; relocating it to another position rotates the key planes of rotary
    classes in place and leaves every other plane alone.  [f64::powf], [cos] and
    [sin] have an unspecified precision: they are the class [F64Math], and
    nothing is assumed of them. *)
From Stdlib Require Import ZArith Lia SpecFloat.
From stdpp Require Import base tactics numbers list strings option sorting gmap.
From S2P Require Import Prelude Bytes Canonical Wire State Identity Crypto Ids Half Stats Deps.
From S2P Require Import StorePolicy RestorePlan PrefillLayout PrefillDescriptor.

(** ** session.rs *)
Record TailCoverageShortfall := mkShortfall {
  ts_key : StateKey;
  ts_required_tokens : Z;
  ts_present_tokens : Z;
}.
Definition class_keys (c : PortablePrefillLayoutClassV2) : list StateKey :=
  pc_layers c ≫= λ l, mkStateKey l <$> class_state_names (pc_class c).
Definition class_shortfalls (cached : Z) (coverage : gmap StateKey Z) (c : PortablePrefillLayoutClassV2)
    : list TailCoverageShortfall :=
  if pc_window_tokens c =? 0 then [] else
  let required := effective_window_tokens (pc_window_tokens c) cached in
  omap (λ key, let present := default 0 (coverage !! key) in
               if present <? required then Some (mkShortfall key required present) else None)
    (class_keys c).
Definition muse_session_tail_shortfalls (layout : PortablePrefillLayoutV2) (cached : Z)
    (coverage : gmap StateKey Z) : list TailCoverageShortfall :=
  pl_classes layout ≫= class_shortfalls cached coverage.

Definition muse_session_resume_preconditions `{Crypto} (stored runtime : PortablePrefillDescriptorV1)
    (layout : PortablePrefillLayoutV2) (cached : Z) (coverage : gmap StateKey Z) : sresult unit :=
  if negb (bytes_eqb (semantic_model_id (pd_semantic_model stored))
             (semantic_model_id (pd_semantic_model runtime))) then
    auth_error "muse session resume: semantic model identity mismatch (weights/adapters/tokenizer/position-semantics/qualified-math digest disagrees) — fail closed, never a best-effort restore" else
  stored_family ← of_pack (representation_family_id (pd_family stored));
  runtime_family ← of_pack (representation_family_id (pd_family runtime));
  if negb (bytes_eqb stored_family runtime_family) then
    auth_error "muse session resume: representation family identity mismatch (engine cache ABI / geometry disagrees) — fail closed, never a best-effort restore" else
  match muse_session_tail_shortfalls layout cached coverage with
  | [] => Ok tt
  | _ :: _ => Err SNotFound
  end.

Fixpoint verify_nope_keys (states : list FamilyState) (keys : list StateKey) : sresult unit :=
  match keys with
  | [] => Ok tt
  | key :: keys =>
      state ← ok_or (snd <$> list_find (λ s, fs_key s = key) states)
        (SExpectation "muse session save: a NoPE-class state is missing from the descriptor");
      if negb (bool_decide (fs_token_axis_rule state = Direct))
         || negb (bool_decide (fs_dtype state = F16)) then
        expectation "muse session save: a NoPE-class plane carries a windowed axis or a non-F16 dtype — the rotation / pre-rotation-capture path must never be invoked for a NoPE class"
      else verify_nope_keys states keys
  end.
Fixpoint verify_nope_classes (states : list FamilyState)
    (classes : list PortablePrefillLayoutClassV2) : sresult unit :=
  match classes with
  | [] => Ok tt
  | c :: classes =>
      _ ← (if bool_decide (pc_rope_convention c = NoRope) then verify_nope_keys states (class_keys c)
           else Ok tt);
      verify_nope_classes states classes
  end.
Definition verify_nope_planes_require_no_rotation (d : PortablePrefillDescriptorV1)
    (layout : PortablePrefillLayoutV2) : sresult unit :=
  verify_nope_classes (family_states (pd_family d)) (pl_classes layout).
(** Placement in the ring of a live engine is refused: the mapping is not known. *)
Definition place_windowed_tail_into_engine_ring (layer : Z) (state_name linear_tail_tokens : bytes)
    : sresult unit :=
  expectation "TODO(producer-spike): SWA ring cell->position mapping is not yet available — see results/muse-20260810/producer-spike.md (ferrite-research); wraparound remains unproven, so this stays stubbed and is not required for the wire artifact itself".

(** ** relocate.rs *)
Class F64Math := {
  f64_powf : spec_float → spec_float → spec_float;
  f64_cos : spec_float → spec_float;
  f64_sin : spec_float → spec_float;
}.
Inductive RelocateAction := MemcpyNoOp | DeltaRotated | IdentityDelta.
Definition bytes_are_unchanged (a : RelocateAction) : bool :=
  match a with MemcpyNoOp | IdentityDelta => true | DeltaRotated => false end.
#[export] Instance RelocateAction_eq_dec : EqDecision RelocateAction.
Proof. solve_decision. Defined.
Inductive PairingConvention := SplitHalf | Adjacent.
Definition pair_offsets (p : PairingConvention) (i half : Z) : Z * Z :=
  match p with SplitHalf => (i, i + half) | Adjacent => (2 * i, 2 * i + 1) end.

(** [f32 as f64], also of infinities and NaNs. *)
Definition f64_of_f32 (bits : Z) : spec_float :=
  if f32_is_finite bits then f32_to_f64 bits
  else if f32_is_nan bits then S754_nan else S754_infinity (f32_sign bits =? 1).
Definition f64_mul := SFmul prec64 emax64.
Definition f64_add := SFadd prec64 emax64.
Definition f64_sub := SFsub prec64 emax64.
Definition f64_div := SFdiv prec64 emax64.
(** The two halves of a rotated pair, back in half precision. *)
Definition rotate_halves (c s : spec_float) (h0 h1 : Z) : Z * Z :=
  let x0 := f64_of_f32 (f16_to_f32 h0) in
  let x1 := f64_of_f32 (f16_to_f32 h1) in
  (f32_to_f16 (f64_to_f32 (f64_sub (f64_mul x0 c) (f64_mul x1 s))),
   f32_to_f16 (f64_to_f32 (f64_add (f64_mul x0 s) (f64_mul x1 c)))).

Arguments rotate_halves : simpl never.
Definition read_u16 (b : bytes) (at_ : Z) : sresult Z :=
  b0 ← index b at_; b1 ← index b (at_ + 1); Ok (le_val [b0; b1]).
Definition rotate_pair (lo hi : Z) (c s : spec_float) (b : bytes) : sresult bytes :=
  h0 ← read_u16 b lo;
  h1 ← read_u16 b hi;
  let '(y0, y1) := rotate_halves c s h0 h1 in
  b ← write b lo (le_bytes 2 y0);
  write b hi (le_bytes 2 y1).
(** [for a in list { b = f(a, b)?; }] *)
Fixpoint for_each {A} (f : A → bytes → sresult bytes) (list : list A) (b : bytes) : sresult bytes :=
  match list with
  | [] => Ok b
  | a :: list => b ← f a b; for_each f list b
  end.

Section relocate.
Context `{F64Math}.

Definition cos_sin (freq_base : spec_float) (rotary delta half : Z) : list (spec_float * spec_float) :=
  (λ i, let exponent := f64_div (f64_mul (f64_of_Z (-2)) (f64_of_Z i)) (f64_of_Z rotary) in
        let angle := f64_mul (f64_of_Z delta) (f64_powf freq_base exponent) in
        (f64_cos angle, f64_sin angle)) <$> seqZ 0 half.

Definition rotate_k_inplace (c : PortablePrefillLayoutClassV2) (pairing : PairingConvention) (delta : Z)
    (b : bytes) : sresult bytes :=
  let head_dim := pc_head_dim c in
  let kv_heads := pc_kv_heads c in
  let rotary := pc_rope_dimension_count c in
  if (rotary =? 0) || negb (rotary mod 2 =? 0) || (head_dim <? rotary) || (kv_heads =? 0) then
    expectation "relocate: invalid rotary width / kv_heads for delta-rotation" else
  let freq_base := f64_from_bits (pc_rope_freq_base_bits c) in
  if negb (f64_gtb freq_base (f64_of_Z 1)) then
    expectation "relocate: delta-rotation requires freq_base > 1.0 (a NoPE class must dispatch through the RopeConvention::None no-op path, never here)" else
  elems_per_token ← expect (checked_mul kv_heads head_dim) "attempt to multiply with overflow";
  bytes_per_token ← expect (checked_mul elems_per_token 2) "attempt to multiply with overflow";
  if (bytes_per_token =? 0) || negb (zlen b mod bytes_per_token =? 0) then
    expectation "relocate: plane byte length is not a whole number of tokens for this class's geometry" else
  let token_count := zlen b / bytes_per_token in
  let half := rotary / 2 in
  let table := cos_sin freq_base rotary delta half in
  for_each (λ token, for_each (λ head,
    let head_base := token * bytes_per_token + head * head_dim * 2 in
    for_each (λ '(i, (co, si)),
      let '(off0, off1) := pair_offsets pairing i half in
      rotate_pair (head_base + off0 * 2) (head_base + off1 * 2) co si) (zip (seqZ 0 half) table))
    (seqZ 0 kv_heads)) (seqZ 0 token_count) b.

Definition relocate_plane_bytes (c : PortablePrefillLayoutClassV2) (name : bytes) (delta : Z) (b : bytes)
    : sresult (RelocateAction * bytes) :=
  if bool_decide (pc_rope_convention c = NoRope) || negb (bytes_eqb name (lit "attn.k")) then
    Ok (MemcpyNoOp, b) else
  if delta =? 0 then Ok (IdentityDelta, b) else
  pairing ← match pc_rope_convention c with
            | Neox => Ok SplitHalf
            | Interleaved => Ok Adjacent
            | NoRope => Panic "handled by the early return above"
            end;
  b ← rotate_k_inplace c pairing delta b;
  Ok (DeltaRotated, b).

Record SessionRelocateReport := mkReport {
  sr_memcpy_planes : Z;
  sr_rotated_planes : Z;
  sr_identity_delta_planes : Z;
  sr_nope_bytes_identical : bool;
}.
Definition count_action (a : RelocateAction) (identical : bool) (r : SessionRelocateReport)
    : SessionRelocateReport :=
  {| sr_memcpy_planes := sr_memcpy_planes r + (if a is MemcpyNoOp then 1 else 0);
     sr_rotated_planes := sr_rotated_planes r + (if a is DeltaRotated then 1 else 0);
     sr_identity_delta_planes := sr_identity_delta_planes r + (if a is IdentityDelta then 1 else 0);
     sr_nope_bytes_identical := sr_nope_bytes_identical r && identical |}.
(** The planes are mutated in place: an error leaves those relocated so far. *)
Fixpoint relocate_loop (delta : Z) (work : list plane) (r : SessionRelocateReport)
    (planes : gmap StateKey bytes) : sresult SessionRelocateReport * gmap StateKey bytes :=
  match work with
  | [] => (Ok r, planes)
  | (l, c, name) :: work =>
      let key := mkStateKey l name in
      match planes !! key with
      | None => (Err SNotFound, planes)
      | Some b =>
          match relocate_plane_bytes c name delta b with
          | Ok (action, b') =>
              let identical := negb (bool_decide (pc_rope_convention c = NoRope)) || bytes_eqb b' b in
              relocate_loop delta work (count_action action identical r) (<[key := b']> planes)
          | Err e => (Err e, planes)
          | Panic w => (Panic w, planes)
          end
      end
  end.
Definition relocate_session_planes (layout : PortablePrefillLayoutV2) (delta : Z)
    (planes : gmap StateKey bytes) : sresult SessionRelocateReport * gmap StateKey bytes :=
  relocate_loop delta
    (pl_classes layout ≫= λ c, pc_layers c ≫= λ l, (λ name, (l, c, name)) <$> class_state_names (pc_class c))
    (mkReport 0 0 0 true) planes.
End relocate.

(** ** In-place rotation is the rotation of disjoint pairs *)
Definition half_at (b : bytes) (e : Z) : option bytes := get_range b (2 * e) (2 * e + 2).
Definition job : Type := Z * Z * (spec_float * spec_float).
Definition run_job (j : job) : bytes → sresult bytes :=
  let '(e0, e1, (c, s)) := j in rotate_pair (2 * e0) (2 * e1) c s.
Definition job_elements (j : job) : list Z := [j.1.1; j.1.2].
(** What a job does to the two halves it names. *)
Definition job_done (b b' : bytes) (j : job) : Prop :=
  ∃ h0 h1, half_at b j.1.1 = Some h0 ∧ half_at b j.1.2 = Some h1 ∧
    half_at b' j.1.1 = Some (le_bytes 2 (rotate_halves j.2.1 j.2.2 (le_val h0) (le_val h1)).1) ∧
    half_at b' j.1.2 = Some (le_bytes 2 (rotate_halves j.2.1 j.2.2 (le_val h0) (le_val h1)).2).

Lemma half_at_some b n e : zlen b = 2 * n → 0 ≤ e < n → ∃ x y, half_at b e = Some [x; y] ∧
  read_u16 b (2 * e) = Ok (le_val [x; y]).
Proof.
  intros Hb He. unfold half_at, read_u16, index. zlen_facts. unfold zlen in Hb.
  destruct (lookup_lt_is_Some_2 b (Z.to_nat (2 * e))) as [x Hx]; [lia|].
  destruct (lookup_lt_is_Some_2 b (Z.to_nat (2 * e + 1))) as [y Hy]; [lia|].
  exists x, y. split.
  - apply get_range_Some. unfold zlen. split_and!; [lia..|]. unfold ztake, zdrop.
    replace (Z.to_nat (2 * e + 2 - 2 * e)) with 2%nat by lia.
    rewrite (drop_S _ x) by done. replace (S (Z.to_nat (2 * e))) with (Z.to_nat (2 * e + 1)) by lia.
    by rewrite (drop_S _ y).
  - destruct (Z.leb_spec 0 (2 * e)); [|lia]. destruct (Z.leb_spec 0 (2 * e + 1)); [|lia].
    by rewrite Hx, Hy.
Qed.
Lemma half_at_patch_same b n e v : zlen b = 2 * n → 0 ≤ e < n →
  half_at (patch b (2 * e) (le_bytes 2 v)) e = Some (le_bytes 2 v).
Proof.
  intros Hb He. pose proof (zlen_le_bytes 2 v) as Hl. unfold half_at.
  rewrite <- (get_range_patch_same b (2 * e) (le_bytes 2 v)) by lia. by rewrite Hl.
Qed.
Lemma half_at_patch_other b n e e' v : zlen b = 2 * n → 0 ≤ e < n → e ≠ e' →
  half_at (patch b (2 * e) (le_bytes 2 v)) e' = half_at b e'.
Proof.
  intros Hb He Hne. pose proof (zlen_le_bytes 2 v). unfold half_at.
  apply get_range_patch_other; lia.
Qed.

Lemma run_job_spec j b n : zlen b = 2 * n → 0 ≤ j.1.1 < n → 0 ≤ j.1.2 < n → j.1.1 ≠ j.1.2 →
  ∃ b', run_job j b = Ok b' ∧ zlen b' = 2 * n ∧ job_done b b' j ∧
    (∀ e, e ∉ job_elements j → half_at b' e = half_at b e).
Proof.
  destruct j as [[e0 e1] [c s]]. unfold job_done, job_elements. cbn [fst snd run_job]. intros Hb H0 H1 Hne.
  destruct (half_at_some b n e0) as (x0 & y0 & Hx & Hr0); [done..|].
  destruct (half_at_some b n e1) as (x1 & y1 & Hy & Hr1); [done..|].
  unfold rotate_pair. rewrite Hr0, Hr1. cbn [mbind outcome_bind].
  destruct (rotate_halves c s (le_val [x0; y0]) (le_val [x1; y1])) as [v0 v1] eqn:Ev.
  pose proof (zlen_le_bytes 2 v0). pose proof (zlen_le_bytes 2 v1).
  assert (zlen (patch b (2 * e0) (le_bytes 2 v0)) = 2 * n) as Hp by (rewrite zlen_patch; lia).
  rewrite write_Ok by lia. cbn [mbind outcome_bind]. rewrite write_Ok by lia.
  eexists. split; [done|]. split; [rewrite zlen_patch; lia|]. split.
  - exists [x0; y0], [x1; y1]. rewrite Ev. cbn [fst snd]. split_and!; [done..| |].
    + rewrite (half_at_patch_other _ n) by (done || lia). by apply (half_at_patch_same _ n).
    + by apply (half_at_patch_same _ n).
  - intros e He. rewrite !(half_at_patch_other _ n) by (done || set_solver). done.
Qed.

Lemma job_first j : j.1.1 ∈ job_elements j. Proof. left. Qed.
Lemma job_second j : j.1.2 ∈ job_elements j. Proof. right. left. Qed.
Lemma run_jobs_spec jobs b n : zlen b = 2 * n →
  Forall (λ e, 0 ≤ e < n) (jobs ≫= job_elements) → NoDup (jobs ≫= job_elements) →
  ∃ b', for_each run_job jobs b = Ok b' ∧ zlen b' = 2 * n ∧
    (∀ j, j ∈ jobs → job_done b b' j) ∧ (∀ e, e ∉ jobs ≫= job_elements → half_at b' e = half_at b e).
Proof.
  revert b. induction jobs as [|j jobs IH]; intros b Hb Hf Hn.
  { exists b. simpl. split_and!; [done..|by intros ? ?%not_elem_of_nil|done]. }
  rewrite bind_cons in *. apply Forall_app in Hf as [Hj Hf]. apply NoDup_app in Hn as (Hnj & Hd & Hn).
  assert (0 ≤ j.1.1 < n ∧ 0 ≤ j.1.2 < n ∧ j.1.1 ≠ j.1.2) as (H0 & H1 & Hne).
  { unfold job_elements in *. rewrite !Forall_cons in Hj. apply NoDup_cons in Hnj as [? _]. set_solver. }
  destruct (run_job_spec j b n) as (b1 & Hr & Hb1 & Hdone & Hother); [done..|].
  destruct (IH b1) as (b' & Hr' & Hb' & Hdone' & Hother'); [done..|].
  exists b'. cbn [for_each]. rewrite Hr. split; [done|]. split; [done|].
  assert (∀ e, e ∈ job_elements j → half_at b' e = half_at b1 e) as Hkeep by (intros; apply Hother', Hd; done).
  split.
  - intros k [->|Hk]%elem_of_cons.
    + unfold job_done in *. rewrite !Hkeep by auto using job_first, job_second. exact Hdone.
    + destruct (Hdone' k Hk) as (h0 & h1 & E0 & E1 & Hrest). exists h0, h1.
      assert (∀ e, e ∈ job_elements k → half_at b1 e = half_at b e) as Hsame.
      { intros e He. apply Hother. intros Hj'. destruct (Hd e Hj'). apply list_elem_of_bind. eauto. }
      rewrite <- !Hsame by auto using job_first, job_second. exact (conj E0 (conj E1 Hrest)).
  - intros e [He1 He2]%not_elem_of_app. by rewrite Hother', Hother.
Qed.

Lemma for_each_ext {A} (f g : A → bytes → sresult bytes) l b :
  (∀ a b, a ∈ l → f a b = g a b) → for_each f l b = for_each g l b.
Proof.
  revert b. induction l as [|a l IH]; intros b Hfg; [done|]. cbn [for_each].
  rewrite Hfg by (by left). destruct (g a b); [|done..]. apply IH. intros; apply Hfg. by right.
Qed.
Lemma for_each_app {A} (f : A → bytes → sresult bytes) l k b :
  for_each f (l ++ k) b = (b ← for_each f l b; for_each f k b).
Proof.
  revert b. induction l as [|a l IH]; intros b; [done|]. cbn [app for_each].
  destruct (f a b); [apply IH|done..].
Qed.
Lemma for_each_bind {A B} (f : A → bytes → sresult bytes) (g : B → list A) l b :
  for_each (λ x, for_each f (g x)) l b = for_each f (l ≫= g) b.
Proof.
  revert b. induction l as [|x l IH]; intros b; [done|]. rewrite bind_cons, for_each_app. cbn [for_each].
  destruct (for_each f (g x) b); [apply IH|done..].
Qed.
Lemma for_each_fmap {A B} (f : A → bytes → sresult bytes) (g : B → A) l b :
  for_each f (g <$> l) b = for_each (λ x, f (g x)) l b.
Proof.
  revert b. induction l as [|x l IH]; intros b; [done|]. cbn [for_each fmap list_fmap].
  destruct (f (g x) b); [apply IH|done..].
Qed.

(** The element of a key plane: row-major over tokens, heads and channels. *)
Definition element (kv_heads head_dim token head o : Z) : Z := (token * kv_heads + head) * head_dim + o.
Definition head_jobs (kv_heads head_dim : Z) (pairing : PairingConvention) (half : Z)
    (table : list (spec_float * spec_float)) (token head : Z) : list job :=
  (λ '(i, cs), let '(off0, off1) := pair_offsets pairing i half in
     (element kv_heads head_dim token head off0, element kv_heads head_dim token head off1, cs))
  <$> zip (seqZ 0 half) table.
Definition rotation_jobs (kv_heads head_dim : Z) (pairing : PairingConvention) (half : Z)
    (table : list (spec_float * spec_float)) (tokens : Z) : list job :=
  seqZ 0 tokens ≫= λ token, seqZ 0 kv_heads ≫= head_jobs kv_heads head_dim pairing half table token.

Lemma rotation_loop_jobs kv hd pairing half table tokens b :
  for_each (λ token, for_each (λ head,
    let head_base := token * (kv * hd * 2) + head * hd * 2 in
    for_each (λ '(i, (co, si)),
      let '(off0, off1) := pair_offsets pairing i half in
      rotate_pair (head_base + off0 * 2) (head_base + off1 * 2) co si) (zip (seqZ 0 half) table))
    (seqZ 0 kv)) (seqZ 0 tokens) b =
  for_each run_job (rotation_jobs kv hd pairing half table tokens) b.
Proof.
  unfold rotation_jobs. rewrite <- for_each_bind. apply for_each_ext. intros token b1 _.
  rewrite <- for_each_bind. apply for_each_ext. intros head b2 _.
  unfold head_jobs. rewrite for_each_fmap. apply for_each_ext. intros [i [co si]] b3 _.
  destruct (pair_offsets pairing i half) as [off0 off1]. cbn [run_job]. unfold element. f_equal; lia.
Qed.

Lemma pair_offsets_inj pairing half i i' o : 0 ≤ i < half → 0 ≤ i' < half →
  o ∈ [(pair_offsets pairing i half).1; (pair_offsets pairing i half).2] →
  o ∈ [(pair_offsets pairing i' half).1; (pair_offsets pairing i' half).2] → i = i'.
Proof. rewrite !elem_of_cons. destruct pairing; simpl;
    intros ?? [->|[->|[]%not_elem_of_nil]] [?|[?|[]%not_elem_of_nil]]; lia. Qed.
Lemma pair_offsets_range pairing half i : 0 ≤ i < half →
  0 ≤ (pair_offsets pairing i half).1 < 2 * half ∧ 0 ≤ (pair_offsets pairing i half).2 < 2 * half ∧
  (pair_offsets pairing i half).1 ≠ (pair_offsets pairing i half).2.
Proof. destruct pairing; simpl; lia. Qed.

Lemma element_inj kv hd t h o t' h' o' : 0 ≤ h < kv → 0 ≤ h' < kv → 0 ≤ o < hd → 0 ≤ o' < hd →
  element kv hd t h o = element kv hd t' h' o' → t = t' ∧ h = h' ∧ o = o'.
Proof.
  unfold element. intros Hh Hh' Ho Ho' E.
  assert (t * kv + h = t' * kv + h') by nia. assert (t = t') by nia. nia.
Qed.
Lemma element_range kv hd tokens t h o : 0 ≤ t < tokens → 0 ≤ h < kv → 0 ≤ o < hd →
  0 ≤ element kv hd t h o < tokens * kv * hd.
Proof. unfold element. intros. assert (0 ≤ t * kv + h < tokens * kv) by nia. nia. Qed.
Lemma elem_of_head_jobs kv hd pairing half table t h j : length table = Z.to_nat half →
  j ∈ head_jobs kv hd pairing half table t h ↔
  ∃ i cs, 0 ≤ i < half ∧ table !! Z.to_nat i = Some cs ∧
    j = (element kv hd t h (pair_offsets pairing i half).1, element kv hd t h (pair_offsets pairing i half).2, cs).
Proof.
  intros Hlen. unfold head_jobs. rewrite list_elem_of_fmap. split.
  - intros ([i cs] & -> & (k & Hk)%list_elem_of_lookup).
    apply lookup_zip_with_Some in Hk as (i' & cs' & [= -> ->] & Hi & Hcs).
    apply lookup_seqZ in Hi as [-> Hi]. exists (0 + Z.of_nat k), cs'. split; [lia|]. rewrite Z.add_0_l, Nat2Z.id.
    split; [done|]. by destruct (pair_offsets _ _ _).
  - intros (i & cs & Hi & Hcs & ->). exists (i, cs). split; [by destruct (pair_offsets _ _ _)|].
    apply list_elem_of_lookup. exists (Z.to_nat i). apply lookup_zip_with_Some. exists i, cs.
    split_and!; [done| |done]. apply lookup_seqZ. lia.
Qed.

Section rotation.
Context (kv hd half tokens : Z) (pairing : PairingConvention) (table : list (spec_float * spec_float)).
Context (Hkv : 0 < kv) (Hhd : 2 * half ≤ hd) (Hlen : length table = Z.to_nat half).
Notation jobs := (rotation_jobs kv hd pairing half table tokens).

Lemma elem_of_jobs j : j ∈ jobs ↔ ∃ t h i cs, 0 ≤ t < tokens ∧ 0 ≤ h < kv ∧ 0 ≤ i < half ∧
  table !! Z.to_nat i = Some cs ∧
  j = (element kv hd t h (pair_offsets pairing i half).1, element kv hd t h (pair_offsets pairing i half).2, cs).
Proof.
  unfold rotation_jobs. rewrite list_elem_of_bind. split.
  - intros (t & (h & Hj & Hh%elem_of_seqZ)%list_elem_of_bind & Ht%elem_of_seqZ).
    apply elem_of_head_jobs in Hj as (i & cs & Hi & Hcs & ->); [|done].
    exists t, h, i, cs. split_and!; [lia..|done|done].
  - intros (t & h & i & cs & Ht & Hh & Hi & Hcs & ->). exists t. split; [|apply elem_of_seqZ; lia].
    apply list_elem_of_bind. exists h. split; [|apply elem_of_seqZ; lia].
    apply elem_of_head_jobs; [done|]. eauto.
Qed.
(** An element belongs to at most one pair of one head of one token. *)
Lemma job_owner t h i t' h' i' cs cs' e :
  0 ≤ h < kv → 0 ≤ h' < kv → 0 ≤ i < half → 0 ≤ i' < half →
  e ∈ job_elements (element kv hd t h (pair_offsets pairing i half).1,
                    element kv hd t h (pair_offsets pairing i half).2, cs) →
  e ∈ job_elements (element kv hd t' h' (pair_offsets pairing i' half).1,
                    element kv hd t' h' (pair_offsets pairing i' half).2, cs') →
  t = t' ∧ h = h' ∧ i = i'.
Proof.
  intros Hh Hh' Hi Hi'. pose proof (pair_offsets_range pairing half i Hi) as (R1 & R2 & _).
  pose proof (pair_offsets_range pairing half i' Hi') as (R1' & R2' & _).
  pose proof (pair_offsets_inj pairing half i i') as Hinj.
  destruct (pair_offsets pairing i half) as [o0 o1], (pair_offsets pairing i' half) as [p0 p1].
  unfold job_elements. simpl in *. rewrite !elem_of_cons.
  intros [->|[->|[]%not_elem_of_nil]] [E|[E|[]%not_elem_of_nil]];
    apply element_inj in E as (-> & -> & ->); try lia;
    (split_and!; [done..|]; first [apply (Hinj p0); set_solver | apply (Hinj p1); set_solver]).
Qed.
Lemma jobs_nodup : NoDup (jobs ≫= job_elements).
Proof.
  assert (∀ j j' e, j ∈ jobs → j' ∈ jobs → e ∈ job_elements j → e ∈ job_elements j' → j = j') as Howner.
  { intros j j' e (t & h & i & cs & Ht & Hh & Hi & Hcs & ->)%elem_of_jobs.
    intros (t' & h' & i' & cs' & Ht' & Hh' & Hi' & Hcs' & ->)%elem_of_jobs He He'.
    destruct (job_owner t h i t' h' i' cs cs' e) as (-> & -> & ->); [done..|]. congruence. }
  apply NoDup_bind; [done| |].
  - intros j (t & h & i & cs & Ht & Hh & Hi & Hcs & ->)%elem_of_jobs. unfold job_elements. simpl.
    pose proof (pair_offsets_range pairing half i Hi) as (R1 & R2 & Hne).
    apply NoDup_cons. split; [|apply NoDup_singleton]. intros E%list_elem_of_singleton.
    apply element_inj in E; lia.
  - unfold rotation_jobs. apply NoDup_bind; [| |apply NoDup_seqZ].
    + intros t t' j Ht%elem_of_seqZ Ht'%elem_of_seqZ (h & Hj & Hh%elem_of_seqZ)%list_elem_of_bind.
      intros (h' & Hj' & Hh'%elem_of_seqZ)%list_elem_of_bind.
      apply elem_of_head_jobs in Hj as (i & cs & Hi & Hcs & ->), Hj' as (i' & cs' & Hi' & Hcs' & E); [|done..].
      eapply (job_owner t h i t' h' i' cs cs'); [lia..|apply job_first|]. rewrite E. apply job_first.
    + intros t Ht. apply NoDup_bind; [| |apply NoDup_seqZ].
      * intros h h' j Hh%elem_of_seqZ Hh'%elem_of_seqZ Hj Hj'.
        apply elem_of_head_jobs in Hj as (i & cs & Hi & Hcs & ->), Hj' as (i' & cs' & Hi' & Hcs' & E); [|done..].
        eapply (job_owner t h i t h' i' cs cs'); [lia..|apply job_first|]. rewrite E. apply job_first.
      * intros h Hh%elem_of_seqZ. unfold head_jobs. apply NoDup_fmap_2_strong.
        -- intros [i cs] [i' cs'] (k & Hk)%list_elem_of_lookup (k' & Hk')%list_elem_of_lookup E.
           apply lookup_zip_with_Some in Hk as (? & ? & [= <- <-] & Hi & Hcs),
             Hk' as (? & ? & [= <- <-] & Hi' & Hcs').
           apply lookup_seqZ in Hi as [-> Hi], Hi' as [-> Hi'].
           assert (0 + Z.of_nat k = 0 + Z.of_nat k') as Ek; [|].
           { eapply (job_owner t h _ t h _ cs cs'); [lia..|apply job_first|].
             destruct (pair_offsets pairing (0 + Z.of_nat k) half), (pair_offsets pairing (0 + Z.of_nat k') half).
             simpl in *. rewrite <- E. unfold job_elements. left. }
           assert (k = k') as -> by lia. congruence.
        -- apply (NoDup_fmap_1 fst). rewrite fst_zip; [apply NoDup_seqZ|]. rewrite length_seqZ. lia.
Qed.
Lemma jobs_range : Forall (λ e, 0 ≤ e < tokens * kv * hd) (jobs ≫= job_elements).
Proof.
  apply list.Forall_forall. intros e (j & He & (t & h & i & cs & Ht & Hh & Hi & Hcs &
    ->)%elem_of_jobs)%list_elem_of_bind.
  pose proof (pair_offsets_range pairing half i Hi) as (R1 & R2 & _). unfold job_elements in He. simpl in He.
  apply elem_of_cons in He as [->|He]; [apply element_range; lia|].
  apply list_elem_of_singleton in He as ->. apply element_range; lia.
Qed.

(** Every pair of every head of every token is rotated from its old values, and
    the channels beyond the rotary width keep theirs. *)
Definition plane_rotated (b b' : bytes) : Prop :=
  zlen b' = zlen b ∧
  (∀ t h i cs, 0 ≤ t < tokens → 0 ≤ h < kv → 0 ≤ i < half → table !! Z.to_nat i = Some cs →
     job_done b b' (element kv hd t h (pair_offsets pairing i half).1,
                    element kv hd t h (pair_offsets pairing i half).2, cs)) ∧
  (∀ t h o, 0 ≤ t < tokens → 0 ≤ h < kv → 2 * half ≤ o < hd →
     half_at b' (element kv hd t h o) = half_at b (element kv hd t h o)).
Lemma rotation_jobs_rotate b : 0 ≤ half → zlen b = tokens * (kv * hd * 2) →
  ∃ b', for_each run_job jobs b = Ok b' ∧ plane_rotated b b'.
Proof.
  intros Hhalf Hb. destruct (run_jobs_spec jobs b (tokens * kv * hd)) as (b' & Hr & Hl & Hd & Ho);
    [lia|apply jobs_range|apply jobs_nodup|].
  exists b'. split; [done|]. split; [lia|]. split.
  - intros t h i cs Ht Hh Hi Hcs. apply Hd, elem_of_jobs. exists t, h, i, cs. done.
  - intros t h o Ht Hh Hr'. apply Ho. intros (j & He & Hj)%list_elem_of_bind.
    apply elem_of_jobs in Hj as (t' & h' & i & cs & Ht' & Hh' & Hi & Hcs & ->).
    pose proof (pair_offsets_range pairing half i Hi) as (R1 & R2 & _). unfold job_elements in He. simpl in He.
    apply elem_of_cons in He as [E|E%list_elem_of_singleton]; apply element_inj in E; lia.
Qed.
End rotation.

Section relocate_laws.
Context `{F64Math}.

(** The rotary configuration a rotation needs, and the shape of its plane. *)
Definition rotation_ready (c : PortablePrefillLayoutClassV2) (b : bytes) : Prop :=
  0 < pc_rope_dimension_count c ≤ pc_head_dim c ∧ pc_rope_dimension_count c mod 2 = 0 ∧
  0 < pc_kv_heads c ∧ f64_gtb (f64_from_bits (pc_rope_freq_base_bits c)) (f64_of_Z 1) = true ∧
  zlen b mod (pc_kv_heads c * pc_head_dim c * 2) = 0.
Definition class_table (c : PortablePrefillLayoutClassV2) (delta : Z) : list (spec_float * spec_float) :=
  cos_sin (f64_from_bits (pc_rope_freq_base_bits c)) (pc_rope_dimension_count c) delta
    (pc_rope_dimension_count c / 2).
Definition relocated (c : PortablePrefillLayoutClassV2) (pairing : PairingConvention) (delta : Z)
    (b b' : bytes) : Prop :=
  plane_rotated (pc_kv_heads c) (pc_head_dim c) (pc_rope_dimension_count c / 2)
    (zlen b / (pc_kv_heads c * pc_head_dim c * 2)) pairing (class_table c delta) b b'.

(** The bytes of a token do not fit a [usize]; the code multiplies unchecked. *)
Definition token_overflows (c : PortablePrefillLayoutClassV2) : Prop :=
  u64_bound ≤ pc_kv_heads c * pc_head_dim c * 2.
Lemma rotate_k_inplace_spec c pairing delta b : class_words c →
  match rotate_k_inplace c pairing delta b with
  | Ok b' => rotation_ready c b ∧ relocated c pairing delta b b'
  | Err (SExpectation _) => ¬ rotation_ready c b
  | Err _ => False
  | Panic _ => token_overflows c
  end.
Proof.
  intros Hw. pose proof (elements_fit c Hw) as [He He0]. pose proof (zlen_nonneg b).
  destruct Hw as [Hw _]. rewrite !Forall_cons in Hw. unfold in_u32 in Hw.
  unfold rotate_k_inplace, rotation_ready.
  destruct (_ || _)%bool eqn:Hg.
  { intros (Hr & Hm & Hk & _). rewrite !orb_true_iff, negb_true_iff in Hg.
    destruct Hg as [[[?|?]|?]|?]; bools; lia. }
  bools. destruct (f64_gtb _ _); [|naive_solver]. cbn [negb].
  rewrite He. cbn [expect mbind outcome_bind].
  destruct (Z.lt_ge_cases (pc_kv_heads c * pc_head_dim c * 2) u64_bound) as [Hfit|Hover].
  2: { destruct (checked_mul _ 2) eqn:E; [|done]. apply checked_mul_Some in E as [_ ?]. lia. }
  rewrite (proj2 (checked_mul_Some _ 2 _) (conj eq_refl Hfit)). cbn [expect mbind outcome_bind].
  assert (0 < pc_kv_heads c * pc_head_dim c * 2) as Hpos by nia.
  destruct (Z.eqb_spec (pc_kv_heads c * pc_head_dim c * 2) 0); [lia|]. cbn [orb].
  destruct (Z.eqb_spec (zlen b mod (pc_kv_heads c * pc_head_dim c * 2)) 0) as [Hz|]; cbn [negb]; [|naive_solver].
  rewrite rotation_loop_jobs.
  pose proof (Z.div_mod (pc_rope_dimension_count c) 2 ltac:(lia)).
  destruct (rotation_jobs_rotate (pc_kv_heads c) (pc_head_dim c) (pc_rope_dimension_count c / 2)
    (zlen b / (pc_kv_heads c * pc_head_dim c * 2)) pairing (class_table c delta)) with b as (b' & Hr & Hrot).
  - lia.
  - lia.
  - unfold class_table, cos_sin. by rewrite length_fmap, length_seqZ.
  - lia.
  - pose proof (Z.div_mod (zlen b) (pc_kv_heads c * pc_head_dim c * 2) ltac:(lia)). lia.
  - unfold class_table in Hr at 1. rewrite Hr. split; [|exact Hrot]. split_and!; try done; lia.
Qed.

(** The action depends on the class, the role and the shift alone. *)
Definition plane_action (c : PortablePrefillLayoutClassV2) (name : bytes) (delta : Z) : RelocateAction :=
  if bool_decide (pc_rope_convention c = NoRope) || negb (bytes_eqb name (lit "attn.k")) then MemcpyNoOp
  else if delta =? 0 then IdentityDelta else DeltaRotated.
Definition class_pairing (c : PortablePrefillLayoutClassV2) : PairingConvention :=
  match pc_rope_convention c with Interleaved => Adjacent | _ => SplitHalf end.
Definition plane_relocated (delta : Z) (p : plane) (b b' : bytes) : Prop :=
  let '(_, c, name) := p in
  match plane_action c name delta with
  | DeltaRotated => rotation_ready c b ∧ relocated c (class_pairing c) delta b b'
  | _ => b' = b
  end.

Lemma relocate_plane_spec l c name delta b : class_words c →
  match relocate_plane_bytes c name delta b with
  | Ok (a, b') => a = plane_action c name delta ∧ plane_relocated delta (l, c, name) b b'
  | Err (SExpectation _) => plane_action c name delta = DeltaRotated ∧ ¬ rotation_ready c b
  | Err _ => False
  | Panic _ => plane_action c name delta = DeltaRotated ∧ token_overflows c
  end.
Proof.
  intros Hw. unfold relocate_plane_bytes, plane_relocated, plane_action.
  destruct (bool_decide (pc_rope_convention c = NoRope)) eqn:Hn; [done|]. bools. cbn [orb].
  destruct (negb (bytes_eqb name (lit "attn.k"))); [done|]. destruct (delta =? 0); [done|].
  unfold class_pairing. destruct (pc_rope_convention c) eqn:Ec; [..|done]; cbn [mbind outcome_bind].
  - pose proof (rotate_k_inplace_spec c SplitHalf delta b Hw) as Hs.
    destruct (rotate_k_inplace c SplitHalf delta b) as [b'|[]|]; done.
  - pose proof (rotate_k_inplace_spec c Adjacent delta b Hw) as Hs.
    destruct (rotate_k_inplace c Adjacent delta b) as [b'|[]|]; done.
Qed.

Definition count_planes (a : RelocateAction) (delta : Z) (work : list plane) : Z :=
  zlen (filter (λ p : plane, plane_action p.1.2 p.2 delta = a) work).
Definition report_of (delta : Z) (work : list plane) (r : SessionRelocateReport) : SessionRelocateReport :=
  {| sr_memcpy_planes := sr_memcpy_planes r + count_planes MemcpyNoOp delta work;
     sr_rotated_planes := sr_rotated_planes r + count_planes DeltaRotated delta work;
     sr_identity_delta_planes := sr_identity_delta_planes r + count_planes IdentityDelta delta work;
     sr_nope_bytes_identical := sr_nope_bytes_identical r |}.
Lemma report_cons delta l c name work r :
  report_of delta work (count_action (plane_action c name delta) true r) = report_of delta ((l, c, name) :: work) r.
Proof.
  unfold report_of, count_planes, count_action. rewrite !filter_cons. cbn [fst snd].
  destruct (plane_action c name delta); simpl; rewrite ?zlen_cons, andb_true_r; f_equal; lia.
Qed.
(** A position-free plane compares equal to the copy taken before. *)
Lemma nope_identical delta l c name b b' : plane_relocated delta (l, c, name) b b' →
  (negb (bool_decide (pc_rope_convention c = NoRope)) || bytes_eqb b' b)%bool = true.
Proof.
  unfold plane_relocated, plane_action. case_bool_decide; [|done]. simpl. intros ->. apply bytes_eqb_refl.
Qed.

(** What the loop over the planes of a session does. *)
Definition session_relocated (delta : Z) (work : list plane) (planes planes' : gmap StateKey bytes) : Prop :=
  (∀ p, p ∈ work → ∃ b b', planes !! plane_key p = Some b ∧ planes' !! plane_key p = Some b' ∧
     plane_relocated delta p b b') ∧
  (∀ k, k ∉ plane_key <$> work → planes' !! k = planes !! k).
Definition plane_missing (delta : Z) (planes : gmap StateKey bytes) (e : StoreError) (p : plane) : Prop :=
  (e = SNotFound ∧ planes !! plane_key p = None) ∨
  (∃ b why, e = SExpectation why ∧ planes !! plane_key p = Some b ∧
     plane_action p.1.2 p.2 delta = DeltaRotated ∧ ¬ rotation_ready p.1.2 b).

Definition plane_overflows (delta : Z) (p : plane) : Prop :=
  plane_action p.1.2 p.2 delta = DeltaRotated ∧ token_overflows p.1.2.

Lemma relocate_loop_spec delta work r planes :
  NoDup (plane_key <$> work) → Forall (λ p : plane, class_words p.1.2) work →
  match relocate_loop delta work r planes with
  | (Ok r', planes') => r' = report_of delta work r ∧ session_relocated delta work planes planes'
  | (Err e, _) => ∃ p, p ∈ work ∧ plane_missing delta planes e p
  | (Panic _, _) => ∃ p, p ∈ work ∧ plane_overflows delta p
  end.
Proof.
  intros Hn Hf. revert r planes Hn. induction Hf as [|[[l c] name] work Hp Hf IH]; intros r planes Hn.
  { simpl. split; [|split; [by intros ? ?%not_elem_of_nil|done]]. unfold report_of, count_planes. simpl.
    rewrite !Z.add_0_r. by destruct r. }
  rewrite fmap_cons in Hn. apply NoDup_cons in Hn as [Hk Hn]. cbn [relocate_loop].
  change (mkStateKey l name) with (plane_key (l, c, name)).
  destruct (planes !! plane_key (l, c, name)) as [b|] eqn:Eb.
  2: { exists (l, c, name). split; [by left|]. by left. }
  pose proof (relocate_plane_spec l c name delta b Hp) as Hs.
  destruct (relocate_plane_bytes c name delta b) as [[a b']|[]|]; try done.
  3: { exists (l, c, name). split; [by left|done]. }
  2: { destruct Hs. exists (l, c, name). split; [by left|]. right. eauto 10. }
  destruct Hs as [-> Hrel]. rewrite (nope_identical _ _ _ _ _ _ Hrel).
  set (planes1 := <[plane_key (l, c, name) := b']> planes).
  assert (∀ p, p ∈ work → planes1 !! plane_key p = planes !! plane_key p) as Hsame.
  { intros p Hpw. apply lookup_insert_ne. intros E. apply Hk. rewrite E. apply list_elem_of_fmap. eauto. }
  specialize (IH (count_action (plane_action c name delta) true r) planes1 Hn).
  destruct (relocate_loop _ _ _ _) as [[r'|e|] planes'].
  3: { destruct IH as (p & Hpw & Hm). exists p. split; [by right|done]. }
  - destruct IH as [-> [Hw Ho]]. split; [apply report_cons|]. split.
    + intros p [->|Hpw]%elem_of_cons; [|rewrite <- Hsame by done; auto].
      exists b, b'. split_and!; [done| |done]. rewrite Ho by done. apply lookup_insert_eq.
    + intros k [Hk1 Hk2]%not_elem_of_cons. rewrite Ho by done. by apply lookup_insert_ne.
  - destruct IH as (p & Hpw & Hm). exists p. split; [by right|]. unfold plane_missing in *.
    by rewrite <- Hsame.
Qed.

Definition session_planes (layout : PortablePrefillLayoutV2) : list plane :=
  pl_classes layout ≫= λ c, pc_layers c ≫= λ l, (λ name, (l, c, name)) <$> class_state_names (pc_class c).
Lemma elem_of_session_planes layout l c name :
  (l, c, name) ∈ session_planes layout ↔
  c ∈ pl_classes layout ∧ l ∈ pc_layers c ∧ name ∈ class_state_names (pc_class c).
Proof.
  unfold session_planes. rewrite list_elem_of_bind. split.
  - intros (c' & (l' & (n & [= <- <- <-] & Hn)%list_elem_of_fmap & Hl)%list_elem_of_bind & Hc). done.
  - intros (Hc & Hl & Hn). exists c. split; [|done]. apply list_elem_of_bind. exists l. split; [|done].
    apply list_elem_of_fmap. eauto.
Qed.
Lemma class_state_names_nodup c : NoDup (class_state_names c).
Proof.
  unfold class_state_names. case_match; [apply NoDup_singleton|]. apply NoDup_cons. split; [|apply NoDup_singleton].
  intros E%list_elem_of_singleton. vm_compute in E. discriminate E.
Qed.
Lemma session_keys_nodup layout : NoDup (all_layers (pl_classes layout)) →
  NoDup (plane_key <$> session_planes layout).
Proof.
  intros Hn. unfold session_planes, all_layers in *. induction (pl_classes layout) as [|c classes IH]; [constructor|].
  rewrite bind_cons in Hn. apply NoDup_app in Hn as (Hc & Hd & Hn). rewrite bind_cons, fmap_app.
  apply NoDup_app. split; [|split; [|by apply IH]].
  - induction Hc as [|l ls Hl Hls IHl]; [constructor|]. rewrite bind_cons, fmap_app.
    apply NoDup_app. split_and!.
    + rewrite <- list_fmap_compose. apply NoDup_fmap_2; [by intros ?? [= ->]|apply class_state_names_nodup].
    + intros k (p & -> & (n & -> & _)%list_elem_of_fmap)%list_elem_of_fmap.
      intros (p' & E & (l' & (n' & -> & _)%list_elem_of_fmap & Hl')%list_elem_of_bind)%list_elem_of_fmap.
      injection E as -> _. done.
    + apply IHl. intros x Hx. apply Hd. by right.
  - intros k (p & -> & (l & (n & -> & _)%list_elem_of_fmap & Hl)%list_elem_of_bind)%list_elem_of_fmap.
    intros (p' & E & (c' & (l' & (n' & -> & _)%list_elem_of_fmap & Hl')%list_elem_of_bind &
      Hc')%list_elem_of_bind)%list_elem_of_fmap.
    injection E as -> _. apply (Hd l' Hl). apply list_elem_of_bind. eauto.
Qed.
End relocate_laws.
