(* ===== verification/PrefillProperties.v ===== *)
(** * Properties of prefill layouts, descriptors and sessions

    A layout that passes validation partitions the layers; the descriptor of a
    transfer is the reference description of its layout; the engine identity
    binds what the description depends on; a relocated session differs from the
    saved one by one rotation of its rotary key planes. *)
From Stdlib Require Import ZArith Lia SpecFloat.
From stdpp Require Import base tactics numbers list strings option sorting gmap.
From S2P Require Import Prelude Bytes Canonical Wire State Identity Crypto Ids Deps Validator.
From S2P Require Import ValidatorLaws Half Stats StorePolicy RestorePlan PrefillLayout.
From S2P Require Import PrefillDescriptor PrefillSession.

Section prefill.
Context `{CL : CryptoLaws}.
Implicit Types (input : PortablePrefillDescriptorInputV2) (layout : PortablePrefillLayoutV2).

(** What a reader of the descriptor may rely on. *)
Definition describes input layout (d : PortablePrefillDescriptorV1) : Prop :=
  validate_family (pd_family d) = Ok tt ∧
  StronglySorted key_lt (es_key <$> pd_states d) ∧
  es_key <$> pd_states d = fs_key <$> family_states (pd_family d) ∧
  (∀ l name, mkStateKey l name ∈ es_key <$> pd_states d ↔
     ∃ c, c ∈ pl_classes layout ∧ l ∈ pc_layers c ∧ name ∈ class_state_names (pc_class c)) ∧
  pd_restored_bytes d =
    zsum (plane_bytes (is_prerope input) (di_cached_token_count input) <$> spec_planes layout) ∧
  (∀ p, p ∈ spec_planes layout →
     plane_bytes (is_prerope input) (di_cached_token_count input) p ≤ pd_bytes_per_state d).

Lemma fold_max_ge l m x : x ∈ l → x ≤ foldl Z.max m l.
Proof.
  assert (∀ l m, m ≤ foldl Z.max m l) as Hm.
  { clear. induction l as [|y l IH]; intros m; simpl; [lia|]. specialize (IH (Z.max m y)). lia. }
  revert m. induction l as [|y l IH]; intros m; [by intros ?%not_elem_of_nil|].
  intros [->|Hx]%elem_of_cons; simpl; [|by apply IH]. specialize (Hm l (Z.max m y)). lia.
Qed.
Lemma declaration_keys prerope (planes : list plane) :
  es_key <$> (plane_declaration <$> planes) = fs_key <$> (plane_state prerope <$> planes) ∧
  es_key <$> (plane_declaration <$> planes) = plane_key <$> planes.
Proof.
  rewrite <- !list_fmap_compose. split; apply list_fmap_ext; by intros ? [[l c] name] _.
Qed.
Lemma admitted_describes input layout : layout_words layout → descriptor_admitted input layout →
  describes input layout (descriptor_of input layout).
Proof.
  intros Hw (Hp & _ & _ & _ & Hmax & Hz). unfold describes. simpl.
  destruct (declaration_keys (is_prerope input) (spec_planes layout)) as [Hk1 Hk2].
  split_and!.
  - by apply descriptor_family_valid.
  - rewrite Hk2. apply plane_keys_sorted. rewrite layer_table_layers by done. apply seqZ_sorted.
  - exact Hk1.
  - intros l name. rewrite Hk2, list_elem_of_fmap. split.
    + intros ([[l' c] n] & [= -> ->] & Hin%elem_of_spec_planes); [|done]. by exists c.
    + intros (c & Hc). exists (l, c, name). split; [done|]. by apply elem_of_spec_planes.
  - done.
  - intros p Hin. apply fold_max_ge, list_elem_of_fmap. eauto.
Qed.

(** C21: The descriptor of a portable prefill is exact: derivation from a layout
    never panics; it succeeds exactly when the layout partitions its layers
    into admissible classes, the transfer is qualified, every class has a sound
    rotary configuration that agrees with the pinned kernel, and the totals and
    counts fit; the result is the reference description, a valid family with one
    state per layer and plane in ascending order, whose byte bounds are the sum
    and a bound of the planes.  Deriving by a registered name is deriving from
    the registered layout. *)
Theorem prefill_descriptor_exact input layout :
  layout_words layout → in_u32 (di_cached_token_count input) →
  ¬ panics (derive_portable_prefill_descriptor_v2_from_layout input layout) ∧
  (∀ d, derive_portable_prefill_descriptor_v2_from_layout input layout = Ok d ↔
     descriptor_admitted input layout ∧ d = descriptor_of input layout) ∧
  (∀ d, derive_portable_prefill_descriptor_v2_from_layout input layout = Ok d → describes input layout d) ∧
  (portable_prefill_layout_v2 (di_layout_name input) = Ok layout →
     derive_portable_prefill_descriptor_v2 input =
     derive_portable_prefill_descriptor_v2_from_layout input layout).
Proof.
  intros Hw Hc. split_and!.
  - by apply derivation_no_panic.
  - intros d. by apply descriptor_refines.
  - intros d [Ha ->]%descriptor_refines; [|done..]. by apply admitted_describes.
  - intros Hl. unfold derive_portable_prefill_descriptor_v2, derive_portable_prefill_descriptor_v2_from_layout.
    rewrite Hl. cbn [mbind outcome_bind].
    assert (registered_sound layout) as (Hv & _); [|by rewrite Hv].
    apply ok_or_Ok, fmap_Some in Hl as ([i l'] & (Hi & _)%list_find_Some & ->).
    apply (proj1 (list.Forall_forall _ _) registry_sound). by eapply list_elem_of_lookup_2.
Qed.

(** The message hashed into the engine identity. *)
Definition engine_message input layout : bytes :=
  label "kvpack/spark-prefill/engine-cache-abi/v3" ++
  framed (engine_cache_abi_parts input
    (labeled_geometry_bytes (pl_classes layout) (di_max_context_tokens input))).
Definition bound_fields input layout :=
  (di_portable_abi input, di_consumer_engine_abi input, di_max_context_tokens input,
   di_transform input, di_prerope_kernel_pin input, pl_classes layout).
(** [u32] fields, 32-byte transform identities, byte strings that fit memory. *)
Definition input_words input layout : Prop :=
  in_u32 (di_cached_token_count input) ∧ in_u32 (di_max_context_tokens input) ∧
  (∀ id, di_transform input = Some id → zlen id = 32) ∧
  slice_len_ok (labeled_geometry_bytes (pl_classes layout) (di_max_context_tokens input)).

Lemma identity_text_short s : identity_text_bad s = false → zlen s ≤ 1024.
Proof. unfold identity_text_bad. intros H. bools. lia. Qed.
Lemma validate_input_short input : validate_input input = Ok tt →
  zlen (di_portable_abi input) ≤ 1024 ∧ zlen (di_consumer_engine_abi input) ≤ 1024 ∧
  ∀ pin, di_prerope_kernel_pin input = Some pin →
    Forall (λ s, zlen s ≤ 1024) [kp_engine pin; kp_kernel pin; kp_dtype_path pin].
Proof.
  unfold validate_input, input_unqualified, is_prerope. intros H.
  destruct (_ || _ || _ || _ || _ || _ || _)%bool eqn:Hq; [done|]. bools.
  split.
  { match goal with H : (_ || _)%bool = true |- _ => apply orb_true_iff in H as [E|E]; apply bytes_eqb_eq in E as ->;
      by vm_compute end. }
  assert (∀ p, existsb identity_text_bad p = false → Forall (λ s, zlen s ≤ 1024) p) as Hshort.
  { intros p. rewrite (existsb_false_Forall (λ s, identity_text_bad s = false)) by done.
    intros Hp. eapply Forall_impl; [exact Hp|]. apply identity_text_short. }
  destruct (bytes_eqb (di_portable_abi input) PORTABLE_PREFILL_ABI_V2_PREROPE),
    (di_prerope_kernel_pin input) as [pin|]; try done.
  all: destruct (existsb identity_text_bad [_; _; _; _]) eqn:Hs; [done|].
  all: apply Hshort in Hs; rewrite !Forall_cons in Hs; split; [tauto|].
  - destruct (existsb _ _) eqn:Hp in H; [done|]. by intros ? [= <-]; apply Hshort.
  - done.
Qed.
Lemma engine_parts_fit input layout : input_words input layout → validate_input input = Ok tt →
  Forall (λ s, zlen s < u64_bound) (engine_cache_abi_parts input
    (labeled_geometry_bytes (pl_classes layout) (di_max_context_tokens input))).
Proof.
  intros (_ & _ & Ht & Hl) (Hp & Hc & Hpin)%validate_input_short. unfold engine_cache_abi_parts, slice_len_ok in *.
  apply Forall_app. split.
  - repeat apply Forall_cons_2; [unfold u64_bound; lia..| |constructor].
    destruct (di_transform input) as [id|] eqn:E; [by rewrite (Ht id)|by vm_compute].
  - destruct (di_prerope_kernel_pin input) as [pin|]; [|constructor]. apply Forall_singleton.
    specialize (Hpin pin eq_refl). rewrite !Forall_cons in Hpin. unfold identity_bytes, prefixed32.
    rewrite !fmap_cons, !concat_cons, fmap_nil, concat_nil.
    pose proof (convention_short (kp_convention pin)) as Hs. unfold u32_bound in Hs.
    rewrite !zlen_app, !zlen_put_u32, zlen_nil. unfold u64_bound. lia.
Qed.

(** C26: The engine identity binds the layout: two derived descriptors with the
    same engine cache ABI come from the same portable and consumer ABI, context
    length, transform, pinned kernel and layer classes, rotary configuration and
    class labels included, or the two hashed messages are an explicit collision
    of SHA-256; for class lists whose classes except as many layers each, since
    the hashed bytes carry no count of them. *)
Theorem prefill_identity_binds input1 layout1 d1 input2 layout2 d2 :
  layout_words layout1 → layout_words layout2 → input_words input1 layout1 → input_words input2 layout2 →
  derive_portable_prefill_descriptor_v2_from_layout input1 layout1 = Ok d1 →
  derive_portable_prefill_descriptor_v2_from_layout input2 layout2 = Ok d2 →
  Forall2 same_exceptions (pl_classes layout1) (pl_classes layout2) →
  engine_cache_abi (pd_family d1) = engine_cache_abi (pd_family d2) →
  bound_fields input1 layout1 = bound_fields input2 layout2 ∨
  collides sha256_digest (engine_message input1 layout1) (engine_message input2 layout2).
Proof.
  intros Hw1 Hw2 Hi1 Hi2 H1 H2 Hx He.
  apply descriptor_refines in H1 as [(_ & Hv1 & _) ->]; [|done|apply Hi1].
  apply descriptor_refines in H2 as [(_ & Hv2 & _) ->]; [|done|apply Hi2].
  unfold descriptor_of, descriptor_family in He. cbn [pd_family engine_cache_abi] in He.
  apply sha256_eq_or in He. unfold engine_message. cbn [concat] in He. rewrite !app_nil_r in He.
  destruct He as [He|He]; [left|by right]. apply app_inv_head in He.
  apply framed_inj in He; [|by apply engine_parts_fit..].
  destruct Hi1 as (_ & Hc1 & Ht1 & _), Hi2 as (_ & Hc2 & Ht2 & _).
  destruct (validate_input_short _ Hv1) as (_ & _ & Hp1), (validate_input_short _ Hv2) as (_ & _ & Hp2).
  unfold engine_cache_abi_parts in He. injection He as Hpa Hca Hlab Htr Hpin.
  apply labeled_inj in Hlab as [Hcl Hcx]; [|apply Hw1|apply Hw2|done..].
  unfold bound_fields. rewrite Hpa, Hca, Hcl, Hcx. do 2 f_equal; [f_equal|].
  - destruct (di_transform input1) as [a|], (di_transform input2) as [b|]; try done; [by subst|..];
      [specialize (Ht1 _ eq_refl)|specialize (Ht2 _ eq_refl)]; by subst.
  - destruct (di_prerope_kernel_pin input1) as [a|], (di_prerope_kernel_pin input2) as [b|]; try done.
    assert (identity_bytes a = identity_bytes b) as Eab by congruence. f_equal. apply pin_inj; [..|exact Eab].
    + eapply Forall_impl; [exact (Hp1 a eq_refl)|]. intros s Hs. cbn in Hs. unfold u32_bound. lia.
    + eapply Forall_impl; [exact (Hp2 b eq_refl)|]. intros s Hs. cbn in Hs. unfold u32_bound. lia.
Qed.

(** The digest of a token sequence identifies it. *)
Lemma token_ids_bound a b : Forall in_u32 a → Forall in_u32 b →
  portable_prefill_token_ids_sha256 a = portable_prefill_token_ids_sha256 b →
  a = b ∨ collides sha256_digest (label "kvpack-live-token-ids-v1" ++ put_list put_u32 a)
            (label "kvpack-live-token-ids-v1" ++ put_list put_u32 b).
Proof.
  intros Ha Hb [He|He]%sha256_eq_or; cbn [concat] in He; rewrite !app_nil_r in He; [left|by right].
  apply app_inv_head in He. by apply put_list_u32_inj.
Qed.

Lemma zero_shift_unchanged `{F64Math} work planes planes' :
  session_relocated 0 work planes planes' → planes' = planes.
Proof.
  intros [Hw Ho]. apply map_eq. intros k.
  destruct (decide (k ∈ plane_key <$> work)) as [Hin|]; [|by apply Ho].
  apply list_elem_of_fmap in Hin as ([[l c] name] & -> & Hp). destruct (Hw _ Hp) as (b & b' & Hb & Hb' & Hr).
  rewrite Hb, Hb'. f_equal. unfold plane_relocated, plane_action in Hr. by repeat case_match.
Qed.
Lemma count_planes_total `{F64Math} delta work :
  count_planes MemcpyNoOp delta work + count_planes DeltaRotated delta work
  + count_planes IdentityDelta delta work = zlen work.
Proof.
  unfold count_planes. induction work as [|p work IH]; [done|]. rewrite !filter_cons, zlen_cons.
  destruct (plane_action p.1.2 p.2 delta); simpl; rewrite ?zlen_cons; lia.
Qed.

(** C22: For a layout of machine words that puts no layer in two classes,
    relocating a session changes exactly what it must: when it succeeds, in
    every rotary key plane every pair of every head of every token is the
    rotation, by the shift, of its old halves, with the channels beyond the
    rotary width kept, although pairs are overwritten in place; every other
    plane of the layout and every other entry is untouched, a shift of zero
    changes nothing, and the report counts every plane once and finds the
    position-free planes identical.  It fails only for a plane that is missing,
    or that needs a rotation its class or length does not support, and panics
    only at a plane to rotate whose tokens take 2^64 bytes or more, a product
    the code does not check (a build without overflow checks would wrap). *)
Theorem relocation_exact `{F64Math} layout delta planes :
  NoDup (all_layers (pl_classes layout)) → Forall class_words (pl_classes layout) →
  match relocate_session_planes layout delta planes with
  | (Ok r, planes') =>
      session_relocated delta (session_planes layout) planes planes' ∧
      (delta = 0 → planes' = planes) ∧
      sr_memcpy_planes r = count_planes MemcpyNoOp delta (session_planes layout) ∧
      sr_rotated_planes r = count_planes DeltaRotated delta (session_planes layout) ∧
      sr_memcpy_planes r + sr_rotated_planes r + sr_identity_delta_planes r = zlen (session_planes layout) ∧
      sr_nope_bytes_identical r = true
  | (Err e, _) => ∃ p, p ∈ session_planes layout ∧ plane_missing delta planes e p
  | (Panic _, _) => ∃ p, p ∈ session_planes layout ∧ plane_overflows delta p
  end.
Proof.
  intros Hn Hf. unfold relocate_session_planes. fold (session_planes layout).
  assert (Forall (λ p : plane, class_words p.1.2) (session_planes layout)) as Hwords.
  { apply list.Forall_forall. intros [[l c] name] (Hc & _)%elem_of_session_planes.
    by apply (proj1 (list.Forall_forall _ _) Hf) in Hc. }
  pose proof (relocate_loop_spec delta (session_planes layout) (mkReport 0 0 0 true) planes
    (session_keys_nodup layout Hn) Hwords) as Hs.
  destruct (relocate_loop _ _ _ _) as [[r|e|] planes']; [|done..]. destruct Hs as [-> Hs].
  pose proof (count_planes_total delta (session_planes layout)). cbn. split_and!; try done.
  intros ->. by eapply zero_shift_unchanged.
Qed.

(** ** Resuming *)
Lemma semantic_id_inj a b : SemanticModelId_ok a → SemanticModelId_ok b →
  semantic_model_id a = semantic_model_id b →
  a = b ∨ collides sha256_digest (concat (semantic_parts a)) (concat (semantic_parts b)).
Proof.
  intros Ha Hb [He|He]%sha256_eq_or; [left|by right]. unfold SemanticModelId_ok, id_ok in *.
  unfold semantic_parts in He. cbn [concat] in He. rewrite !app_nil_r in He. apply app_inv_head in He.
  destruct a, b. cbn in *. destruct_and! Ha. destruct_and! Hb.
  do 4 (apply app_inj_zlen in He as [-> He]; [|congruence]). by subst.
Qed.
(** A saved session whose sliding windows are all shipped. *)
Definition tails_covered layout (cached : Z) (coverage : gmap StateKey Z) : Prop :=
  ∀ c l name, c ∈ pl_classes layout → pc_window_tokens c ≠ 0 → l ∈ pc_layers c →
    name ∈ class_state_names (pc_class c) →
    effective_window_tokens (pc_window_tokens c) cached ≤ default 0 (coverage !! mkStateKey l name).
Lemma no_shortfalls layout cached coverage :
  muse_session_tail_shortfalls layout cached coverage = [] ↔ tails_covered layout cached coverage.
Proof.
  unfold muse_session_tail_shortfalls, tails_covered. split.
  - intros H c l name Hc Hw Hl Hn. apply Z.nlt_ge. intros Hlt.
    assert (mkShortfall (mkStateKey l name) (effective_window_tokens (pc_window_tokens c) cached)
      (default 0 (coverage !! mkStateKey l name)) ∈ pl_classes layout ≫= class_shortfalls cached coverage) as Hin.
    { apply list_elem_of_bind. exists c. split; [|done]. unfold class_shortfalls.
      destruct (Z.eqb_spec (pc_window_tokens c) 0); [done|]. apply list_elem_of_omap.
      exists (mkStateKey l name). split.
      - apply list_elem_of_bind. exists l. split; [apply list_elem_of_fmap; eauto|done].
      - simpl. by rewrite (proj2 (Z.ltb_lt _ _)). }
    rewrite H in Hin. by apply not_elem_of_nil in Hin.
  - intros Hc. destruct (_ ≫= _) as [|s rest] eqn:E; [done|].
    assert (s ∈ pl_classes layout ≫= class_shortfalls cached coverage) as (c & Hs & Hin)%list_elem_of_bind
      by (rewrite E; by left).
    unfold class_shortfalls in Hs. destruct (Z.eqb_spec (pc_window_tokens c) 0); [by apply not_elem_of_nil in Hs|].
    apply list_elem_of_omap in Hs as (key & (l & (name & -> & Hn)%list_elem_of_fmap & Hl)%list_elem_of_bind & Hk).
    simpl in Hk. case_match; [|done]. bools. specialize (Hc c l name Hin ltac:(done) Hl Hn). lia.
Qed.

(** A session resumes only onto what it was saved from: the gate succeeds
    exactly when both identities agree and every sliding window of every layer
    is shipped in full, and agreeing identities mean the same semantic model and
    the same representation family, up to explicit collisions of SHA-256. *)
Theorem session_resume_sound stored runtime layout cached coverage c1 c2 :
  SemanticModelId_ok (pd_semantic_model stored) → SemanticModelId_ok (pd_semantic_model runtime) →
  RepresentationFamilyId_ok (pd_family stored) → RepresentationFamilyId_ok (pd_family runtime) →
  family_encode_canonical (pd_family stored) = Ok c1 → slice_len_ok c1 →
  family_encode_canonical (pd_family runtime) = Ok c2 →
  (muse_session_resume_preconditions stored runtime layout cached coverage = Ok tt ↔
     semantic_model_id (pd_semantic_model stored) = semantic_model_id (pd_semantic_model runtime) ∧
     representation_family_id (pd_family stored) = representation_family_id (pd_family runtime) ∧
     tails_covered layout cached coverage) ∧
  (muse_session_resume_preconditions stored runtime layout cached coverage = Ok tt →
     (pd_semantic_model stored = pd_semantic_model runtime ∨
      collides sha256_digest (concat (semantic_parts (pd_semantic_model stored)))
        (concat (semantic_parts (pd_semantic_model runtime)))) ∧
     (pd_family stored = pd_family runtime ∨
      collides sha256_digest (family_message c1) (family_message c2))).
Proof.
  intros Hs Hr Fs Fr E1 Hl E2.
  assert (∃ i1, representation_family_id (pd_family stored) = Ok i1) as [i1 I1]
    by (unfold representation_family_id; rewrite E1; by eexists).
  assert (∃ i2, representation_family_id (pd_family runtime) = Ok i2) as [i2 I2]
    by (unfold representation_family_id; rewrite E2; by eexists).
  assert (muse_session_resume_preconditions stored runtime layout cached coverage = Ok tt ↔
     semantic_model_id (pd_semantic_model stored) = semantic_model_id (pd_semantic_model runtime) ∧
     representation_family_id (pd_family stored) = representation_family_id (pd_family runtime) ∧
     tails_covered layout cached coverage) as Hiff.
  { unfold muse_session_resume_preconditions. rewrite I1, I2, <- no_shortfalls. simpl. unfold bytes_eqb, auth_error.
    repeat case_bool_decide; simpl; [|naive_solver..]. case_match; naive_solver. }
  split; [done|]. intros (Hm & Hfam & _)%Hiff. split; [by apply semantic_id_inj|].
  rewrite I1, I2 in Hfam. apply Ok_inj in Hfam as ->. by eapply family_id_inj.
Qed.
End prefill.

Module PrefillWitnesses.
#[local] Existing Instance toy.
#[local] Existing Instance toy_laws.

(** A rotary layer with a window and a position-free one. *)
Definition rotary_class : PortablePrefillLayoutClassV2 :=
  mkLayoutClass (lit "gqa-windowed") 0 1 1 [] 1 4 8 4696837146684686336 2 (lit "yarn:32") Neox.
Definition free_class : PortablePrefillLayoutClassV2 :=
  mkLayoutClass (lit "gqa-full") 1 2 1 [] 1 2 0 0 0 (lit "none") NoRope.
Definition sample_layout : PortablePrefillLayoutV2 :=
  mkLayout (lit "sample") 2 [rotary_class; free_class].
Definition sample_input (context : Z) : PortablePrefillDescriptorInputV2 :=
  mkDescriptorInput (replicate 32 1) (replicate 32 2) (replicate 32 3) (replicate 32 4) (replicate 32 5)
    (lit "model") (lit "tokenizer") (lit "producer") (lit "consumer") PORTABLE_PREFILL_ABI_V2
    (lit "float16") (lit "float16") (lit "q4_k_m") 10 context (lit "sample") None None.

Lemma sample_words : layout_words sample_layout.
Proof. unfold layout_words, class_words. split; [done|]. repeat constructor; by vm_compute. Qed.
Lemma sample_partitions : layout_partitions sample_layout.
Proof.
  apply validate_owned_layout_decides; [by apply layout_words_unsigned, sample_words|].
  vm_compute. reflexivity.
Qed.

Lemma prefill_descriptor_exact_witness :
  ∃ d, derive_portable_prefill_descriptor_v2_from_layout (sample_input 100) sample_layout = Ok d ∧
    pd_restored_bytes d = 8 * 4 * 2 * 2 + 10 * 2 * 2 * 2 ∧ zlen (pd_states d) = 4 ∧
    describes (sample_input 100) sample_layout d.
Proof.
  destruct (prefill_descriptor_exact (sample_input 100) sample_layout sample_words ltac:(done)) as (_ & _ & Hd & _).
  destruct (derive_portable_prefill_descriptor_v2_from_layout (sample_input 100) sample_layout) as [d| |] eqn:E;
    [|vm_compute in E; discriminate E..].
  assert (pd_restored_bytes d = 8 * 4 * 2 * 2 + 10 * 2 * 2 * 2 ∧ zlen (pd_states d) = 4) as [H1 H2].
  { clear Hd. vm_compute in E. apply Ok_inj in E as <-. split; reflexivity. }
  exists d. exact (conj eq_refl (conj H1 (conj H2 (Hd d eq_refl)))).
Defined.

(** The same layout under two names has one engine identity, and the witness
    reads the bound fields back. *)
Definition renamed_layout : PortablePrefillLayoutV2 := mkLayout (lit "renamed") 2 [rotary_class; free_class].
Lemma sample_input_words : input_words (sample_input 100) sample_layout.
Proof.
  split; [by vm_compute|]. split; [by vm_compute|]. split; [intros id Hid; discriminate Hid|].
  vm_compute. reflexivity.
Qed.
Lemma renamed_exceptions : Forall2 same_exceptions (pl_classes sample_layout) (pl_classes renamed_layout).
Proof. repeat constructor. Qed.
Lemma prefill_identity_binds_witness :
  ∃ d1 d2, derive_portable_prefill_descriptor_v2_from_layout (sample_input 100) sample_layout = Ok d1 ∧
    derive_portable_prefill_descriptor_v2_from_layout (sample_input 100) renamed_layout = Ok d2 ∧
    (bound_fields (sample_input 100) sample_layout = bound_fields (sample_input 100) renamed_layout ∨
     collides sha256_digest (engine_message (sample_input 100) sample_layout)
       (engine_message (sample_input 100) renamed_layout)).
Proof.
  destruct (derive_portable_prefill_descriptor_v2_from_layout (sample_input 100) sample_layout) as [d1| |] eqn:E1;
    [|vm_compute in E1; discriminate E1..].
  destruct (derive_portable_prefill_descriptor_v2_from_layout (sample_input 100) renamed_layout) as [d2| |] eqn:E2;
    [|vm_compute in E2; discriminate E2..].
  assert (engine_cache_abi (pd_family d1) = engine_cache_abi (pd_family d2)) as He.
  { vm_compute in E1, E2. apply Ok_inj in E1 as <-, E2 as <-. reflexivity. }
  exists d1, d2. split; [reflexivity|]. split; [reflexivity|].
  exact (prefill_identity_binds (sample_input 100) sample_layout d1 (sample_input 100) renamed_layout d2
    sample_words sample_words sample_input_words sample_input_words E1 E2 renamed_exceptions He).
Defined.

(** A quarter turn: cosine 0 and sine 1 whatever the angle. *)
#[local] Instance quarter_turn : F64Math := {|
  f64_powf _ _ := f64_of_Z 1; f64_cos _ := S754_zero false; f64_sin _ := f64_of_Z 1 |}.
(** One token of the rotary keys, [1, 5, 2, 7] in half precision; the first and
    second channel form the pair, the last two are beyond the rotary width. *)
Definition sample_planes : gmap StateKey bytes :=
  list_to_map [(mkStateKey 0 (lit "attn.k"), [0; 60; 0; 69; 0; 64; 0; 71]);
               (mkStateKey 0 (lit "attn.v"), [1; 2; 3; 4; 5; 6; 7; 8]);
               (mkStateKey 1 (lit "attn.k"), [9; 10; 11; 12]);
               (mkStateKey 1 (lit "attn.v"), [13; 14; 15; 16])].
Lemma sample_class_words : Forall class_words (pl_classes sample_layout).
Proof. exact (proj2 sample_words). Qed.
Lemma relocation_exact_witness :
  (relocate_session_planes sample_layout 3 sample_planes).2 !! mkStateKey 0 (lit "attn.k") =
    Some [0; 197; 0; 60; 0; 64; 0; 71] ∧
  session_relocated 3 (session_planes sample_layout) sample_planes
    (relocate_session_planes sample_layout 3 sample_planes).2 ∧
  ∃ p, p ∈ session_planes sample_layout ∧ plane_missing 3 ∅ SNotFound p.
Proof.
  split; [vm_compute; reflexivity|]. split.
  - pose proof (relocation_exact sample_layout 3 sample_planes (proj1 (proj2 (proj2 sample_partitions))) sample_class_words) as H.
    assert (is_ok (relocate_session_planes sample_layout 3 sample_planes).1 = true) as Hok
      by (vm_compute; reflexivity).
    revert H Hok. generalize (relocate_session_planes sample_layout 3 sample_planes).
    intros [[r|e|] planes'] H Hok; [exact (proj1 H)|discriminate Hok..].
  - pose proof (relocation_exact sample_layout 3 ∅ (proj1 (proj2 (proj2 sample_partitions))) sample_class_words) as H. exact H.
Defined.

(** ** Recorded behaviour

    The hashed geometry of a class has no count of its exceptions: a class that
    excepts one layer off its stride and a class whose label starts with the
    length that exception spells are both valid, differ, and share the engine
    identity. *)
Definition odd_class : PortablePrefillLayoutClassV2 :=
  mkLayoutClass (lit "gqa-full") 1 14 2 [] 1 2 0 4696837146684686336 2 (lit "none") Neox.
Definition excepting_class : PortablePrefillLayoutClassV2 :=
  mkLayoutClass (lit "gqa-fullx") 0 14 2 [13] 1 2 0 4696837146684686336 2 (lit "none") Neox.
Definition labelled_class : PortablePrefillLayoutClassV2 :=
  mkLayoutClass ([9; 0; 0; 0] ++ lit "gqa-fullx") 0 14 2 [] 1 2 0 4696837146684686336 2 (lit "none") Neox.
Lemma exceptions_not_counted :
  let first := mkLayout (lit "a") 14 [excepting_class; odd_class] in
  let second := mkLayout (lit "b") 14 [labelled_class; odd_class] in
  pl_classes first ≠ pl_classes second ∧
  ∃ d1 d2, derive_portable_prefill_descriptor_v2_from_layout (sample_input 100) first = Ok d1 ∧
    derive_portable_prefill_descriptor_v2_from_layout (sample_input 100) second = Ok d2 ∧
    engine_cache_abi (pd_family d1) = engine_cache_abi (pd_family d2).
Proof.
  split; [discriminate|]. eexists. eexists. split; [vm_compute; reflexivity|]. split; [vm_compute; reflexivity|].
  vm_compute. reflexivity.
Qed.

(** Of the two closed tuples of version 1 only the larger one is a registered
    layout of version 2. *)
Lemma small_tuple_not_registered :
  is_ok (portable_prefill_geometry_v1 24 2 64) = true ∧
  is_ok (portable_prefill_layout_v2 (lit "qwen2.5-0.5b")) = false ∧
  portable_prefill_layout_name_v2 (mkLayout (lit "qwen2.5-0.5b") 24
    [mkLayoutClass (lit "gqa-full") 0 24 1 [] 2 64 0 4696837146684686336 64 (lit "none") Neox]) = None.
Proof. vm_compute. split_and!; reflexivity. Qed.
Definition seven_b : PortablePrefillLayoutV2 := mkLayout (lit "qwen2.5-7b") 28 QWEN25_7B_V2_CLASSES.
Lemma seven_b_count : zlen (spec_planes seven_b) = 56.
Proof. vm_compute. reflexivity. Qed.
Lemma seven_b_class : Forall (λ p : plane, p.1.2 =
  mkLayoutClass (lit "gqa-full") 0 28 1 [] 4 128 0 4696837146684686336 128 (lit "none") Neox) (spec_planes seven_b).
Proof. apply (bool_decide_unpack _). vm_compute. exact I. Qed.
(** The larger one describes the same states and bytes in both versions. *)
Lemma v1_described_by_v2 i1 i2 d1 d2 :
  d1_num_layers i1 = 28 → d1_num_kv_heads i1 = 4 → d1_head_dim i1 = 128 →
  d1_cached_token_count i1 = di_cached_token_count i2 → in_u32 (di_cached_token_count i2) →
  di_portable_abi i2 = PORTABLE_PREFILL_ABI_V2 →
  derive_portable_prefill_descriptor_v1 i1 = Ok d1 →
  derive_portable_prefill_descriptor_v2_from_layout i2 seven_b = Ok d2 →
  family_states (pd_family d1) = family_states (pd_family d2) ∧ pd_states d1 = pd_states d2 ∧
  pd_restored_bytes d1 = pd_restored_bytes d2.
Proof.
  intros Hl Hk Hh Hc Hu Ha H1 H2. apply descriptor_refines in H2 as [_ ->]; [|split; [done|]|done].
  2: { unfold QWEN25_7B_V2_CLASSES, class_words. repeat constructor; by vm_compute. }
  unfold derive_portable_prefill_descriptor_v1 in H1. rewrite Hl, Hk, Hh, Hc in H1. inv_ok. subst d1.
  unfold descriptor_of, descriptor_family, is_prerope. rewrite Ha.
  cbn [pd_family family_states pd_states pd_restored_bytes].
  assert (bytes_eqb PORTABLE_PREFILL_ABI_V2 PORTABLE_PREFILL_ABI_V2_PREROPE = false) as -> by done.
  repeat match goal with H : checked_mul _ _ = Some _ |- _ => apply checked_mul_Some in H as [-> _] end.
  apply bind_Some in H2 as (? & [-> _]%checked_mul_Some & [-> _]%checked_mul_Some).
  split; [vm_compute; reflexivity|]. split; [vm_compute; reflexivity|].
  rewrite (zsum_const _ (di_cached_token_count i2 * 512 * 2)); [rewrite seven_b_count; lia|].
  intros [[l c] name] Hp. apply (proj1 (list.Forall_forall _ _) seven_b_class) in Hp. simpl in Hp. by subst c.
Qed.
End PrefillWitnesses.
