(* ===== verification/PrefillGguf.v ===== *)
(** * Layouts from model files (kvpack, gguf_layout/parse.rs, gguf_layout/derive.rs, mla.rs)

    The header and the key/value section of a GGUF file are parsed under fixed
    bounds, and a layout is derived from them or refused.  The file is its byte
    string; a short read is an I/O error.  A [f32] or [f64] value is its bit
    pattern. *)
From Stdlib Require Import ZArith Lia SpecFloat.
From stdpp Require Import base tactics numbers list strings option sorting gmap.
From S2P Require Import Prelude Bytes Canonical Wire State Half Stats StorePolicy PrefillLayout.
From S2P Require Import PrefillDescriptor.

(** ** Values *)
Inductive GgufValue :=
  | GUint8 (v : Z) | GInt8 (v : Z) | GUint16 (v : Z) | GInt16 (v : Z) | GUint32 (v : Z) | GInt32 (v : Z)
  | GFloat32 (bits : Z) | GBool (b : bool) | GString (s : bytes) | GArray (l : list GgufValue)
  | GUint64 (v : Z) | GInt64 (v : Z) | GFloat64 (bits : Z).
Notation GgufMetadata := (gmap bytes GgufValue).

Definition gguf_as_str (v : GgufValue) : option bytes :=
  match v with GString s => Some s | _ => None end.
Definition gguf_as_u64 (v : GgufValue) : option Z :=
  match v with
  | GUint8 v | GUint16 v | GUint32 v | GUint64 v => Some v
  | GInt8 v | GInt16 v | GInt32 v | GInt64 v => if v <? 0 then None else Some v
  | _ => None
  end.

(** ** parse.rs *)
Definition GGUF_MAGIC : bytes := lit "GGUF".
Definition GGUF_SUPPORTED_VERSION : Z := 3.
Definition GGUF_MAX_METADATA_PAIRS : Z := 1048576.
Definition GGUF_MAX_STRING_BYTES : Z := 16777216.
Definition GGUF_MAX_ARRAY_ELEMENTS : Z := 1048576.

(** A reader returns a value and the bytes it has not consumed. *)
Definition Rd (A : Type) : Type := bytes → sresult (A * bytes).
#[global] Instance rd_ret : MRet Rd := λ A a input, Ok (a, input).
#[global] Instance rd_bind : MBind Rd := λ A B f m input,
  match m input with Ok (a, rest) => f a rest | Err e => Err e | Panic w => Panic w end.
Definition rd_fail {A} (why : string) : Rd A := λ _, expectation why.
Definition gguf_read_exact (op : string) (n : Z) : Rd bytes := λ input,
  if zlen input <? n then Err (SIo op) else Ok (ztake n input, zdrop n input).
Definition read_word (n : Z) : Rd Z := b ← gguf_read_exact "read gguf metadata" n; mret (le_val b).
(** Two's complement of [bits] bits. *)
Definition as_signed (bits v : Z) : Z := if v <? 2 ^ (bits - 1) then v else v - 2 ^ bits.

Definition read_gguf_string : Rd bytes :=
  length ← read_word 8;
  if GGUF_MAX_STRING_BYTES <? length then rd_fail "gguf metadata string is outside the parse bounds" else
  b ← gguf_read_exact "read gguf metadata" length;
  if utf8_valid b then mret b else rd_fail "gguf metadata string is not valid utf-8".
Definition read_gguf_scalar (value_type : Z) : Rd GgufValue :=
  match value_type with
  | 0 => v ← read_word 1; mret (GUint8 v)
  | 1 => v ← read_word 1; mret (GInt8 (as_signed 8 v))
  | 2 => v ← read_word 2; mret (GUint16 v)
  | 3 => v ← read_word 2; mret (GInt16 (as_signed 16 v))
  | 4 => v ← read_word 4; mret (GUint32 v)
  | 5 => v ← read_word 4; mret (GInt32 (as_signed 32 v))
  | 6 => v ← read_word 4; mret (GFloat32 v)
  | 7 => v ← read_word 1; mret (GBool (negb (v =? 0)))
  | 8 => s ← read_gguf_string; mret (GString s)
  | 10 => v ← read_word 8; mret (GUint64 v)
  | 11 => v ← read_word 8; mret (GInt64 (as_signed 64 v))
  | 12 => v ← read_word 8; mret (GFloat64 v)
  | _ => rd_fail "gguf metadata value type is outside the v3 grammar"
  end.
Fixpoint read_elements (n : nat) (element_type : Z) : Rd (list GgufValue) :=
  match n with
  | O => mret []
  | S n => v ← read_gguf_scalar element_type; l ← read_elements n element_type; mret (v :: l)
  end.
Definition read_gguf_value : Rd GgufValue :=
  value_type ← read_word 4;
  if negb (value_type =? 9) then read_gguf_scalar value_type else
  element_type ← read_word 4;
  if (element_type =? 9) || (12 <? element_type) then
    rd_fail "gguf metadata array element type is outside the v3 grammar" else
  length ← read_word 8;
  if GGUF_MAX_ARRAY_ELEMENTS <? length then rd_fail "gguf metadata array is outside the parse bounds" else
  l ← read_elements (Z.to_nat length) element_type; mret (GArray l).
Fixpoint read_pairs (n : nat) (m : GgufMetadata) : Rd GgufMetadata :=
  match n with
  | O => mret m
  | S n => key ← read_gguf_string; value ← read_gguf_value; read_pairs n (<[key := value]> m)
  end.
Definition read_gguf_metadata : Rd GgufMetadata :=
  magic ← gguf_read_exact "read gguf header" 4;
  if negb (bytes_eqb magic GGUF_MAGIC) then rd_fail "gguf metadata has a bad magic" else
  version ← read_word 4;
  if negb (version =? GGUF_SUPPORTED_VERSION) then
    rd_fail "gguf metadata version is outside the supported v3 grammar" else
  _ ← read_word 8;
  metadata_count ← read_word 8;
  if GGUF_MAX_METADATA_PAIRS <? metadata_count then
    rd_fail "gguf metadata pair count is outside the parse bounds" else
  read_pairs (Z.to_nat metadata_count) ∅.

(** ** derive.rs *)
Definition DERIVABLE_ARCHITECTURES : list bytes := [lit "llama"; lit "qwen2"; lit "gpt-oss"].
Definition MAX_LAYOUT_LAYERS : Z := 4096.
Definition pinned_rope_convention (architecture : bytes) : option RopeConvention :=
  if existsb (bytes_eqb architecture) [lit "llama"; lit "qwen2"; lit "gpt-oss"; lit "deepseek2"]
  then Some Neox else None.

(** The bit pattern of [f64::from] of a [f32]. *)
Definition f64_bits_of_f32 (bits : Z) : Z :=
  let sign := Z.shiftl (f32_sign bits) 63 in
  let e := f32_exponent bits in
  let m := f32_mantissa bits in
  if e =? 255 then Z.lor sign (Z.lor (Z.shiftl 2047 52) (Z.shiftl m 29)) else
  if e =? 0 then
    if m =? 0 then sign else
    let k := Z.log2 m in
    Z.lor sign (Z.lor (Z.shiftl (k - 149 + 1023) 52) (Z.shiftl (m - 2 ^ k) (52 - k)))
  else Z.lor sign (Z.lor (Z.shiftl (e - 127 + 1023) 52) (Z.shiftl m 29)).

(** [as u32] *)
Definition as_u32 (v : Z) : Z := v mod u32_bound.
Record RopeFieldsV2 := mkRopeFields {
  rf_freq_base_bits : Z;
  rf_dimension_count : Z;
  rf_scaling : bytes;
  rf_convention : RopeConvention;
}.
Definition optional_u64 (m : GgufMetadata) (key : bytes) : sresult (option Z) :=
  match m !! key with
  | None => Ok None
  | Some value =>
      v ← ok_or (gguf_as_u64 value)
        (SExpectation "gguf layout underivable: a geometry key is not an integer");
      Ok (Some v)
  end.
Definition required_u64 (m : GgufMetadata) (key : bytes) : sresult Z :=
  v ← optional_u64 m key;
  ok_or v (SExpectation
    "gguf layout underivable: a required geometry key is missing or not an integer").
(** [format!("{architecture}.{suffix}")] *)
Definition arch_key (architecture : bytes) (suffix : bytes) : bytes := architecture ++ [46] ++ suffix.

Definition float_value (value : option GgufValue) (not_float missing : string) : sresult Z :=
  match value with
  | Some (GFloat32 bits) => Ok (f64_bits_of_f32 bits)
  | Some (GFloat64 bits) => Ok bits
  | Some _ => expectation not_float
  | None => expectation missing
  end.
Definition scaling_of (m : GgufMetadata) (architecture : bytes) : sresult bytes :=
  let factor_key := arch_key architecture (lit "rope.scaling.factor") in
  match m !! arch_key architecture (lit "rope.scaling.type") with
  | None =>
      if bool_decide (is_Some (m !! factor_key)) then
        expectation "gguf rope config underivable: rope.scaling.factor requires a scaling type"
      else Ok (lit "none")
  | Some (GString kind) =>
      factor ← float_value (m !! factor_key)
        "gguf rope config underivable: rope.scaling.factor is not a float"
        "gguf rope config underivable: rope.scaling.factor is missing";
      ok_or (rope_scaling_label kind (f64_from_bits factor))
        (SExpectation "gguf rope config underivable: rope.scaling is outside the closed canonical set")
  | Some _ => expectation "gguf rope config underivable: rope.scaling.type is not a string"
  end.
Definition rope_fields_from_gguf (m : GgufMetadata) (architecture : bytes)
    (head_dim default_dimension_count : Z) : sresult RopeFieldsV2 :=
  freq_base_bits ← float_value (m !! arch_key architecture (lit "rope.freq_base"))
    "gguf rope config underivable: rope.freq_base is not a float"
    "gguf rope config underivable: rope.freq_base is missing";
  let freq_base := f64_from_bits freq_base_bits in
  if negb (f64_is_finite freq_base) || f64_leb freq_base (f64_of_Z 1) then
    expectation "gguf rope config underivable: rope.freq_base is outside the supported bounds" else
  dimension_count ← match m !! arch_key architecture (lit "rope.dimension_count") with
    | None => Ok default_dimension_count
    | Some value => ok_or (gguf_as_u64 value)
        (SExpectation "gguf rope config underivable: rope.dimension_count is not an integer")
    end;
  if (dimension_count <? 2) || negb (dimension_count mod 2 =? 0) || (head_dim <? dimension_count)
     || (u32_bound - 1 <? dimension_count) then
    expectation "gguf rope config underivable: rope.dimension_count is outside the v2 bounds" else
  scaling ← scaling_of m architecture;
  convention ← ok_or (pinned_rope_convention architecture)
    (SExpectation "gguf rope config underivable: architecture has no pinned rope convention");
  Ok (mkRopeFields freq_base_bits (as_u32 dimension_count) scaling convention).

Definition starts_with (prefix s : bytes) : bool := bytes_eqb (ztake (zlen prefix) s) prefix.
Definition ends_with (suffix s : bytes) : bool :=
  (zlen suffix <=? zlen s) && bytes_eqb (zdrop (zlen s - zlen suffix) s) suffix.
Definition swa_key (architecture name : bytes) : bool :=
  (starts_with (arch_key architecture (lit "attention.")) name
   && (ends_with (lit "_swa") name || ends_with (lit "sliding_window") name
       || ends_with (lit "sliding_window_pattern") name))
  || (starts_with (arch_key architecture (lit "rope.")) name && ends_with (lit "_swa") name).

(** The integers of the array, in a set. *)
Fixpoint distinct_counts (counts : list GgufValue) (distinct : gset Z) : sresult (gset Z) :=
  match counts with
  | [] => Ok distinct
  | count :: counts =>
      v ← ok_or (gguf_as_u64 count)
        (SExpectation "gguf layout underivable: attention.head_count_kv is not an integer array");
      distinct_counts counts ({[v]} ∪ distinct)
  end.
Definition head_count_kv_of (value : option GgufValue) : sresult Z :=
  match value with
  | Some (GArray counts) =>
      distinct ← distinct_counts counts ∅;
      match elements distinct with
      | [count] => Ok count
      | _ => expectation
          "gguf layout underivable: per-layer attention.head_count_kv requires a sidecar descriptor"
      end
  | Some value => ok_or (gguf_as_u64 value)
      (SExpectation "gguf layout underivable: attention.head_count_kv is not an integer")
  | None => expectation "gguf layout underivable: attention.head_count_kv is missing"
  end.
Definition head_dim_of (m : GgufMetadata) (architecture : bytes) (head_count : Z) (key_length : option Z)
    : sresult Z :=
  match key_length with
  | Some length => Ok length
  | None =>
      embedding ← required_u64 m (arch_key architecture (lit "embedding_length"));
      if negb (embedding mod head_count =? 0) then
        expectation "gguf layout underivable: embedding_length is not divisible by attention.head_count"
      else Ok (embedding / head_count)
  end.
Definition architecture_of (m : GgufMetadata) (missing : string) : sresult bytes :=
  ok_or (m !! lit "general.architecture" ≫= gguf_as_str) (SExpectation missing).
Definition name_of (m : GgufMetadata) (architecture : bytes) : bytes :=
  default architecture (m !! lit "general.name" ≫= gguf_as_str).
Definition single_class_layout (name class : bytes) (num_layers kv_heads head_dim : Z) (rope : RopeFieldsV2)
    : PortablePrefillLayoutV2 :=
  mkLayout name (as_u32 num_layers)
    [mkLayoutClass class 0 (as_u32 num_layers) 1 [] kv_heads (as_u32 head_dim) 0 (rf_freq_base_bits rope)
       (rf_dimension_count rope) (rf_scaling rope) (rf_convention rope)].

(** [if let Some(value_length) = .. && value_length != head_dim] *)
Definition value_length_differs (value_length : option Z) (head_dim : Z) : bool :=
  match value_length with Some v => negb (v =? head_dim) | None => false end.

Definition derive_layout_from_metadata (m : GgufMetadata) : sresult PortablePrefillLayoutV2 :=
  architecture ← architecture_of m "gguf layout underivable: general.architecture is missing";
  if existsb (λ e, swa_key architecture e.1) (map_to_list m) then
    expectation "gguf layout underivable: hybrid sliding-window geometry requires a sidecar descriptor" else
  if negb (existsb (bytes_eqb architecture) DERIVABLE_ARCHITECTURES) then
    expectation "gguf layout underivable: architecture is outside the derivation allowlist" else
  let key := λ suffix, arch_key architecture suffix in
  num_layers ← required_u64 m (key (lit "block_count"));
  head_count ← required_u64 m (key (lit "attention.head_count"));
  if head_count =? 0 then expectation "gguf layout underivable: attention.head_count is zero" else
  head_count_kv ← head_count_kv_of (m !! key (lit "attention.head_count_kv"));
  if head_count_kv =? 0 then expectation "gguf layout underivable: attention.head_count_kv is zero" else
  key_length ← optional_u64 m (key (lit "attention.key_length"));
  value_length ← optional_u64 m (key (lit "attention.value_length"));
  head_dim ← head_dim_of m architecture head_count key_length;
  if value_length_differs value_length head_dim then
    expectation "gguf layout underivable: key_length and value_length differ" else
  if (head_dim =? 0) || (num_layers =? 0) || (MAX_LAYOUT_LAYERS <? num_layers)
     || (u32_bound - 1 <? head_count_kv) || (u32_bound - 1 <? head_dim) then
    expectation "gguf layout underivable: geometry is outside the v2 bounds" else
  rope ← rope_fields_from_gguf m architecture head_dim head_dim;
  Ok (single_class_layout (name_of m architecture) (lit "gqa-full") num_layers (as_u32 head_count_kv)
        head_dim rope).
Definition derive_layout_from_gguf (file : bytes) : sresult PortablePrefillLayoutV2 :=
  '(metadata, _) ← read_gguf_metadata file;
  derive_layout_from_metadata metadata.

(** ** The latent layouts of mla.rs *)
Definition MLA_MAX_LATENT_DIM : Z := 65536.
Definition MLA_MAX_ROPE_DIM : Z := 1024.
Definition mla_metadata_u64 (m : GgufMetadata) (key : bytes) : sresult (option Z) :=
  match m !! key with
  | None => Ok None
  | Some value =>
      v ← ok_or (gguf_as_u64 value)
        (SExpectation "gguf mla layout underivable: a geometry key is not an integer");
      Ok (Some v)
  end.
Definition mla_required (m : GgufMetadata) (key : bytes) (missing : string) : sresult Z :=
  v ← mla_metadata_u64 m key; ok_or v (SExpectation missing).
Definition derive_mla_layout_from_metadata (m : GgufMetadata) : sresult PortablePrefillLayoutV2 :=
  architecture ← architecture_of m "gguf mla layout underivable: general.architecture is missing";
  latent_dim ← mla_required m (arch_key architecture (lit "attention.kv_lora_rank"))
    "gguf mla layout underivable: not an MLA model (attention.kv_lora_rank is missing)";
  rope_dim ← mla_required m (arch_key architecture (lit "attention.qk_rope_head_dim"))
    "gguf mla layout underivable: not an MLA model (attention.qk_rope_head_dim is missing)";
  num_layers ← mla_required m (arch_key architecture (lit "block_count"))
    "gguf mla layout underivable: block_count is missing";
  record ← ok_or (checked_add latent_dim rope_dim)
    (SExpectation "gguf mla layout underivable: latent record dim overflows");
  if (latent_dim =? 0) || (MLA_MAX_LATENT_DIM <? latent_dim) || (rope_dim =? 0)
     || (MLA_MAX_ROPE_DIM <? rope_dim) || (num_layers =? 0) || (u32_bound - 1 <? num_layers)
     || (u32_bound - 1 <? record) then
    expectation "gguf mla layout underivable: geometry is outside the v2 bounds" else
  rope ← rope_fields_from_gguf m architecture record rope_dim;
  Ok (single_class_layout (name_of m architecture) MLA_LATENT_LAYOUT_CLASS num_layers 1 record rope).

(** ** The grammar *)
Definition word_enc (n : nat) (b : bytes) (v : Z) : Prop := 0 ≤ v < 256 ^ Z.of_nat n ∧ b = le_bytes n v.
Definition int_enc (n : nat) (b : bytes) (v : Z) : Prop :=
  let bits := 8 * Z.of_nat n in - 2 ^ (bits - 1) ≤ v < 2 ^ (bits - 1) ∧ b = le_bytes n (v mod 2 ^ bits).
Definition string_enc (b s : bytes) : Prop :=
  zlen s ≤ GGUF_MAX_STRING_BYTES ∧ utf8_valid s = true ∧ b = le_bytes 8 (zlen s) ++ s.
(** A scalar of a type code. *)
Definition scalar_enc (t : Z) (b : bytes) (v : GgufValue) : Prop :=
  match v with
  | GUint8 v => t = 0 ∧ word_enc 1 b v
  | GInt8 v => t = 1 ∧ int_enc 1 b v
  | GUint16 v => t = 2 ∧ word_enc 2 b v
  | GInt16 v => t = 3 ∧ int_enc 2 b v
  | GUint32 v => t = 4 ∧ word_enc 4 b v
  | GInt32 v => t = 5 ∧ int_enc 4 b v
  | GFloat32 v => t = 6 ∧ word_enc 4 b v
  | GBool x => t = 7 ∧ ∃ v, word_enc 1 b v ∧ x = negb (v =? 0)
  | GString s => t = 8 ∧ string_enc b s
  | GUint64 v => t = 10 ∧ word_enc 8 b v
  | GInt64 v => t = 11 ∧ int_enc 8 b v
  | GFloat64 v => t = 12 ∧ word_enc 8 b v
  | GArray _ => False
  end.
Fixpoint elements_enc (t : Z) (b : bytes) (l : list GgufValue) : Prop :=
  match l with
  | [] => b = []
  | v :: l => ∃ b1 b2, b = b1 ++ b2 ∧ scalar_enc t b1 v ∧ elements_enc t b2 l
  end.
Definition value_enc (b : bytes) (v : GgufValue) : Prop :=
  (∃ t b', t ≠ 9 ∧ in_u32 t ∧ b = le_bytes 4 t ++ b' ∧ scalar_enc t b' v) ∨
  (∃ t b' l, 0 ≤ t ≤ 12 ∧ t ≠ 9 ∧ zlen l ≤ GGUF_MAX_ARRAY_ELEMENTS ∧ v = GArray l ∧
     b = le_bytes 4 9 ++ le_bytes 4 t ++ le_bytes 8 (zlen l) ++ b' ∧ elements_enc t b' l).
Fixpoint pairs_enc (b : bytes) (l : list (bytes * GgufValue)) : Prop :=
  match l with
  | [] => b = []
  | (key, v) :: l => ∃ b1 b2 b3, b = b1 ++ b2 ++ b3 ∧ string_enc b1 key ∧ value_enc b2 v ∧ pairs_enc b3 l
  end.
(** The pairs, a later one replacing an earlier one with its key. *)
Definition metadata_of (l : list (bytes * GgufValue)) (m : GgufMetadata) : GgufMetadata :=
  foldl (λ m e, <[e.1 := e.2]> m) m l.
Definition gguf_enc (b : bytes) (m : GgufMetadata) : Prop :=
  ∃ tensors pairs b', in_u64 tensors ∧ zlen pairs ≤ GGUF_MAX_METADATA_PAIRS ∧
    b = lit "GGUF" ++ le_bytes 4 3 ++ le_bytes 8 tensors ++ le_bytes 8 (zlen pairs) ++ b' ∧
    pairs_enc b' pairs ∧ m = metadata_of pairs ∅.

(** ** Laws of the parser

    A reader that accepts exactly the encodings of [R], and never panics. *)
Definition accepts {A} (R : bytes → A → Prop) (r : Rd A) : Prop := ∀ input, bytes_ok input →
  ¬ panics (r input) ∧ ∀ a rest, r input = Ok (a, rest) ↔ ∃ b, input = b ++ rest ∧ R b a.
Lemma accepts_iff {A} (R S : bytes → A → Prop) r : accepts R r → (∀ b a, bytes_ok b → R b a ↔ S b a) → accepts S r.
Proof.
  intros Hr Hs input Hi. destruct (Hr input Hi) as [Hp Hr']. split; [done|]. intros a rest. rewrite Hr'.
  apply exist_proper. intros b. split; intros [-> Hb]; (split; [done|]); apply Hs; try done;
    by apply bytes_ok_app in Hi as [??].
Qed.
Lemma accepts_ret {A} (a : A) : accepts (λ b v, b = [] ∧ v = a) (mret a).
Proof.
  intros input _. split; [by intros []|]. intros v rest. unfold mret, rd_ret. split.
  - intros [= -> ->]. by exists [].
  - by intros (? & -> & -> & ->).
Qed.
Lemma accepts_fail {A} why : accepts (λ _ _, False) (rd_fail (A:=A) why).
Proof. intros input _. split; [by intros []|]. intros a rest. split; [done|]. by intros (? & _ & []). Qed.
Lemma accepts_bind {A B} (R : bytes → A → Prop) (S : A → bytes → B → Prop) (r : Rd A) (f : A → Rd B) :
  accepts R r → (∀ b a, R b a → accepts (S a) (f a)) →
  accepts (λ b v, ∃ b1 b2 a, b = b1 ++ b2 ∧ R b1 a ∧ S a b2 v) (r ≫= f).
Proof.
  intros Hr Hf input Hi. destruct (Hr input Hi) as [Hp Hr']. unfold mbind, rd_bind.
  assert (∀ a rest, r input = Ok (a, rest) → bytes_ok rest) as Hrest.
  { intros a rest (b & -> & _)%Hr'. by apply bytes_ok_app in Hi as [??]. }
  destruct (r input) as [[a rest]|e|w] eqn:E.
  - destruct (proj1 (Hr' a rest) eq_refl) as (b & Hb & HR).
    destruct (Hf b a HR rest (Hrest _ _ eq_refl)) as [Hp' Hf']. split; [done|]. intros v rest'. rewrite Hf'. split.
    + intros (b2 & -> & HS). exists (b ++ b2). rewrite <- app_assoc. split; [done|]. by exists b, b2, a.
    + intros (? & Hin & b1 & b2 & a' & -> & HR' & HS). rewrite <- app_assoc in Hin.
      assert (Ok (a, rest) = Ok (E:=StoreError) (a', b2 ++ rest')) as [= -> ->]; [|by exists b2].
      apply Hr'. by exists b1.
  - split; [by intros []|]. intros v rest. split; [done|].
    intros (? & Hin & b1 & b2 & a & -> & HR & _). rewrite <- app_assoc in Hin.
    assert (Err e = Ok (a, b2 ++ rest)) as [=]. apply Hr'. by exists b1.
  - by destruct Hp.
Qed.
Lemma accepts_guard {A} (R : bytes → A → Prop) (c : bool) why r : accepts R r →
  accepts (λ b a, c = false ∧ R b a) (if c then rd_fail why else r).
Proof.
  intros Hr. destruct c.
  - eapply accepts_iff; [apply accepts_fail|]. naive_solver.
  - eapply accepts_iff; [exact Hr|]. naive_solver.
Qed.
Lemma accepts_exact op n : 0 ≤ n → accepts (λ b a, b = a ∧ zlen a = n) (gguf_read_exact op n).
Proof.
  intros Hn input _. unfold gguf_read_exact. destruct (Z.ltb_spec (zlen input) n).
  - split; [by intros []|]. intros a rest. split; [done|]. intros (b & -> & -> & Hl).
    rewrite zlen_app in *. pose proof (zlen_nonneg rest). lia.
  - split; [by intros []|]. intros a rest. split.
    + intros [= <- <-]. exists (ztake n input). rewrite ztake_zdrop. split; [done|]. split; [done|].
      apply zlen_ztake. lia.
    + intros (b & -> & -> & Hl). by rewrite ztake_app_exact, zdrop_app_exact.
Qed.
Lemma accepts_word (n : nat) : accepts (word_enc n) (read_word (Z.of_nat n)).
Proof.
  eapply accepts_iff; [eapply accepts_bind; [apply accepts_exact; lia|intros; apply accepts_ret]|].
  intros b v Hb. cbv beta. unfold word_enc. split.
  - intros (? & ? & w & -> & [-> Hl] & -> & ->). rewrite app_nil_r in *. rewrite <- Hl.
    split; [by apply le_val_bound|]. assert (n = length w) as -> by (unfold zlen in Hl; lia).
    by rewrite le_bytes_le_val.
  - intros [Hv ->]. exists (le_bytes n v), [], (le_bytes n v). rewrite app_nil_r, zlen_le_bytes.
    by rewrite le_val_le_bytes_small.
Qed.
Lemma as_signed_inverse bits v w : 0 < bits → 0 ≤ w < 2 ^ bits →
  v = as_signed bits w ↔ - 2 ^ (bits - 1) ≤ v < 2 ^ (bits - 1) ∧ w = v mod 2 ^ bits.
Proof.
  intros Hb Hw. unfold as_signed. assert (2 ^ bits = 2 * 2 ^ (bits - 1)) as E.
  { rewrite <- Z.pow_succ_r by lia. f_equal. lia. }
  set (h := 2 ^ (bits - 1)) in *. rewrite E in *. destruct (Z.ltb_spec w h); split.
  - intros ->. split; [lia|]. symmetry. apply Z.mod_small. lia.
  - intros [Hv ->]. destruct (Z.lt_ge_cases v 0); [|rewrite Z.mod_small; lia].
    rewrite <- (Z_mod_plus_full _ 1), Z.mod_small in * by lia. lia.
  - intros ->. split; [lia|]. rewrite <- (Z_mod_plus_full _ 1), Z.mod_small by lia. lia.
  - intros [Hv ->]. destruct (Z.lt_ge_cases v 0).
    + rewrite <- (Z_mod_plus_full _ 1), Z.mod_small by lia. lia.
    + rewrite Z.mod_small in * by lia. lia.
Qed.
(** A word mapped to a value. *)
Lemma accepts_word_map {A} (n : nat) (f : Z → A) :
  accepts (λ b a, ∃ v, word_enc n b v ∧ a = f v) (v ← read_word (Z.of_nat n); mret (f v)).
Proof.
  eapply accepts_iff; [eapply accepts_bind; [apply accepts_word|intros; apply accepts_ret]|].
  intros b a _. cbv beta. split.
  - intros (b1 & ? & v & -> & Hv & -> & ->). rewrite app_nil_r. by exists v.
  - intros (v & Hv & ->). exists b, [], v. by rewrite app_nil_r.
Qed.
Lemma word_signed n b v : (0 < n)%nat → 
  (∃ w, word_enc n b w ∧ v = as_signed (8 * Z.of_nat n) w) ↔ int_enc n b v.
Proof.
  intros Hn. assert (256 ^ Z.of_nat n = 2 ^ (8 * Z.of_nat n)) as E by (by rewrite Z.pow_mul_r by lia).
  unfold word_enc, int_enc. rewrite E. split.
  - intros (w & [Hw ->] & (Hv & ->)%as_signed_inverse); [done|lia|done].
  - intros [Hv ->]. exists (v mod 2 ^ (8 * Z.of_nat n)).
    assert (0 ≤ v mod 2 ^ (8 * Z.of_nat n) < 2 ^ (8 * Z.of_nat n)).
    { apply Z.mod_pos_bound, Z.pow_pos_nonneg; lia. }
    split; [done|]. apply as_signed_inverse; [lia|done..].
Qed.
Lemma accepts_string : accepts string_enc read_gguf_string.
Proof.
  eapply accepts_iff.
  { eapply accepts_bind; [apply (accepts_word 8)|]. intros b0 l [Hl _]. apply accepts_guard.
    eapply accepts_bind; [apply accepts_exact; lia|]. intros b1 b _.
    instantiate (1 := λ b c s, utf8_valid b = true ∧ c = [] ∧ s = b). cbv beta.
    destruct (utf8_valid b); eapply accepts_iff; [apply accepts_ret| |apply accepts_fail|]; naive_solver. }
  intros b s _. cbv beta. unfold word_enc, string_enc. split.
  - intros (? & ? & l & -> & [Hl ->] & Hg & ? & ? & c & -> & [-> Hc] & Hu & -> & ->). subst l. bools.
    by rewrite app_nil_r.
  - intros (Hl & Hu & ->). exists (le_bytes 8 (zlen s)), s, (zlen s). pose proof (zlen_nonneg s).
    split_and!; [done|lia|unfold GGUF_MAX_STRING_BYTES in Hl; lia|done|by apply Z.ltb_ge|].
    exists s, [], s. by rewrite app_nil_r.
Qed.
Lemma accepts_scalar t : accepts (scalar_enc t) (read_gguf_scalar t).
Proof.
  assert (∀ (n : nat) (f : Z → GgufValue), (∀ b a, (∃ v, word_enc n b v ∧ a = f v) ↔ scalar_enc t b a) →
    accepts (scalar_enc t) (v ← read_word (Z.of_nat n); mret (f v))) as Hw.
  { intros n f Hf. eapply accepts_iff; [apply accepts_word_map|]. intros b a _. apply Hf. }
  assert (∀ n (c : Z → GgufValue), (0 < n)%nat → 
    (∀ b a, (∃ v, int_enc n b v ∧ a = c v) ↔ scalar_enc t b a) →
    accepts (scalar_enc t) (v ← read_word (Z.of_nat n); mret (c (as_signed (8 * Z.of_nat n) v)))) as Hs.
  { intros n c Hn Hc. apply (Hw n (λ v, c (as_signed (8 * Z.of_nat n) v))). intros b a. rewrite <- Hc. split.
    - intros (v & Hv & ->). eexists. split; [|done]. apply word_signed; [done|]. by exists v.
    - intros (v & Hv & ->). apply word_signed in Hv as (w & Hw' & ->); [|done]. by exists w. }
  destruct (decide (t ∈ [0; 1; 2; 3; 4; 5; 6; 7; 8; 10; 11; 12])) as [Hin|Hn].
  - rewrite !elem_of_cons, elem_of_nil in Hin.
    repeat (destruct Hin as [->|Hin]);
      [apply (Hw 1%nat)|apply (Hs 1%nat); [lia|]|apply (Hw 2%nat)|apply (Hs 2%nat); [lia|]|apply (Hw 4%nat)
      |apply (Hs 4%nat); [lia|]|apply (Hw 4%nat)|apply (Hw 1%nat)| |apply (Hw 8%nat)|apply (Hs 8%nat); [lia|]
      |apply (Hw 8%nat)|done].
    all: try (intros b a; split; [intros (v & Hv & ->); cbn; eauto|destruct a; naive_solver]).
    eapply accepts_iff; [eapply accepts_bind; [apply accepts_string|intros; apply accepts_ret]|].
    intros b a _. cbv beta. split.
    + intros (? & ? & s & -> & Hs' & -> & ->). by rewrite app_nil_r.
    + destruct a; try naive_solver. intros [_ Hs']. exists b, [], s. by rewrite app_nil_r.
  - assert (read_gguf_scalar t = rd_fail "gguf metadata value type is outside the v3 grammar") as ->.
    { unfold read_gguf_scalar. repeat case_match; try done; destruct Hn; subst; set_solver. }
    eapply accepts_iff; [apply accepts_fail|]. intros b a _. split; [done|]. intros Ha. destruct Hn.
    destruct a; simpl in Ha; try done; destruct Ha as [-> _]; set_solver.
Qed.
Lemma accepts_elements t n :
  accepts (λ b l, length l = n ∧ elements_enc t b l) (read_elements n t).
Proof.
  induction n as [|n IH].
  - eapply accepts_iff; [apply accepts_ret|]. intros b [|v l] _; naive_solver.
  - eapply accepts_iff.
    { eapply accepts_bind; [apply accepts_scalar|intros b0 v _].
      eapply accepts_bind; [apply IH|intros; apply accepts_ret]. }
    intros b l _. cbv beta. split.
    + intros (b1 & ? & v & -> & Hv & b2 & ? & l' & -> & [<- Hl] & -> & ->). rewrite app_nil_r.
      split; [done|]. by exists b1, b2.
    + destruct l as [|v l]; [naive_solver|]. intros ([= <-] & b1 & b2 & -> & Hv & Hl).
      exists b1, b2, v. split_and!; [done..|]. exists b2, [], l. by rewrite app_nil_r.
Qed.
Lemma accepts_array : accepts (λ b v, ∃ t b' l, 0 ≤ t ≤ 12 ∧ t ≠ 9 ∧ zlen l ≤ GGUF_MAX_ARRAY_ELEMENTS ∧
    v = GArray l ∧ b = le_bytes 4 t ++ le_bytes 8 (zlen l) ++ b' ∧ elements_enc t b' l)
  (element_type ← read_word 4;
   if (element_type =? 9) || (12 <? element_type) then
     rd_fail "gguf metadata array element type is outside the v3 grammar" else
   length ← read_word 8;
   if GGUF_MAX_ARRAY_ELEMENTS <? length then rd_fail "gguf metadata array is outside the parse bounds" else
   l ← read_elements (Z.to_nat length) element_type; mret (GArray l)).
Proof.
  eapply accepts_iff.
  { eapply accepts_bind; [apply (accepts_word 4)|intros b0 t _]. apply accepts_guard.
    eapply accepts_bind; [apply (accepts_word 8)|intros b1 n _]. apply accepts_guard.
    eapply accepts_bind; [apply accepts_elements|intros; apply accepts_ret]. }
  intros b v _. cbv beta. unfold word_enc. split.
  - intros (? & ? & t & -> & [Ht ->] & Hg & ? & ? & n & -> & [Hn ->] & Hm & b' & ? & l & -> & [Hl He] & -> & ->).
    bools. exists t, b', l. assert (zlen l = n) as <- by (unfold zlen; lia). rewrite app_nil_r.
    split_and!; try done; lia.
  - intros (t & b' & l & Ht & Ht' & Hl & -> & -> & He). exists (le_bytes 4 t), (le_bytes 8 (zlen l) ++ b'), t.
    pose proof (zlen_nonneg l). unfold GGUF_MAX_ARRAY_ELEMENTS in *.
    split_and!; [done|lia|lia|done|apply orb_false_iff; lia|]. exists (le_bytes 8 (zlen l)), b', (zlen l).
    split_and!; [done|lia|lia|done|by apply Z.ltb_ge|]. exists b', [], l. rewrite app_nil_r.
    split_and!; try done. unfold zlen. lia.
Qed.
Lemma accepts_value : accepts value_enc read_gguf_value.
Proof.
  eapply accepts_iff.
  { eapply accepts_bind; [apply (accepts_word 4)|intros b0 t _].
    instantiate (1 := λ t b v, (t ≠ 9 ∧ scalar_enc t b v) ∨ (t = 9 ∧ ∃ t b' l, 0 ≤ t ≤ 12 ∧ t ≠ 9 ∧
      zlen l ≤ GGUF_MAX_ARRAY_ELEMENTS ∧ v = GArray l ∧
      b = le_bytes 4 t ++ le_bytes 8 (zlen l) ++ b' ∧ elements_enc t b' l)).
    cbv beta. destruct (Z.eqb_spec t 9); simpl.
    - eapply accepts_iff; [apply accepts_array|]. cbv beta. naive_solver.
    - eapply accepts_iff; [apply accepts_scalar|]. naive_solver. }
  intros b v _. cbv beta. unfold word_enc, value_enc. split.
  - intros (? & b' & t & -> & [Ht ->] & [[Hn Hs]|(-> & t' & b'' & l & Hl)]).
    + left. exists t, b'. split_and!; try done; lia.
    + right. exists t', b'', l. destruct_and! Hl. subst. by rewrite <- ?app_assoc.
  - intros [(t & b' & Hn & Ht & -> & Hs)|(t & b' & l & ? & ? & ? & -> & -> & ?)].
    + exists (le_bytes 4 t), b', t. unfold in_u32, u32_bound in Ht. split_and!; try done; try lia. by left.
    + exists (le_bytes 4 9), (le_bytes 4 t ++ le_bytes 8 (zlen l) ++ b'), 9. split_and!; try done.
      right. split; [done|]. by exists t, b', l.
Qed.
Lemma accepts_pairs n m : accepts (λ b m', ∃ l, length l = n ∧ pairs_enc b l ∧ m' = metadata_of l m)
  (read_pairs n m).
Proof.
  revert m. induction n as [|n IH]; intros m.
  - eapply accepts_iff; [apply accepts_ret|]. intros b m' _. split.
    + intros [-> ->]. by exists [].
    + intros ([|] & Hl & Hb & ->); [done|discriminate].
  - eapply accepts_iff.
    { eapply accepts_bind; [apply accepts_string|intros b0 key _].
      eapply accepts_bind; [apply accepts_value|intros b1 v _]. apply IH. }
    intros b m' _. cbv beta. split.
    + intros (b1 & ? & key & -> & Hk & b2 & b3 & v & -> & Hv & l & <- & Hl & ->).
      exists ((key, v) :: l). split_and!; [done| |done]. by exists b1, b2, b3.
    + intros ([|[key v] l] & [= <-] & (b1 & b2 & b3 & -> & Hk & Hv & Hl) & ->).
      exists b1, (b2 ++ b3), key. split_and!; [done..|]. exists b2, b3, v. split_and!; [done..|]. by exists l.
Qed.
Lemma accepts_metadata : accepts gguf_enc read_gguf_metadata.
Proof.
  eapply accepts_iff.
  { eapply accepts_bind; [apply accepts_exact; lia|intros b0 magic _]. apply accepts_guard.
    eapply accepts_bind; [apply (accepts_word 4)|intros b1 version _]. apply accepts_guard.
    eapply accepts_bind; [apply (accepts_word 8)|intros b2 tensors _].
    eapply accepts_bind; [apply (accepts_word 8)|intros b3 n _]. apply accepts_guard. apply accepts_pairs. }
  intros b m _. cbv beta. unfold word_enc, gguf_enc. split.
  - intros (? & ? & magic & -> & [-> _] & Hg & ? & ? & version & -> & [_ ->] & Hv & ? & ? & tensors & -> &
      [Ht ->] & ? & b' & n & -> & [Hn ->] & Hm & l & Hl & Hb & ->).
    apply negb_false_iff, bytes_eqb_eq in Hg. bools. subst magic version.
    exists tensors, l, b'. assert (zlen l = n) as <- by (unfold zlen; lia). split_and!; try done; lia.
  - intros (tensors & l & b' & Ht & Hl & -> & Hb & ->). unfold in_u64, u64_bound in Ht.
    pose proof (zlen_nonneg l). unfold GGUF_MAX_METADATA_PAIRS in *.
    eexists _, _, (lit "GGUF"). split; [done|]. split; [done|]. split; [done|].
    eexists _, _, 3. split; [done|]. split; [done|]. split; [done|].
    eexists _, _, tensors. split; [done|]. split; [split; [lia|done]|].
    eexists _, _, (zlen l). split; [done|]. split; [split; [lia|done]|]. split; [by apply Z.ltb_ge|].
    exists l. split_and!; try done. unfold zlen. lia.
Qed.

(** ** Laws of the derivation

    The values of a parsed file are integers of their width. *)
Fixpoint value_ok (v : GgufValue) : Prop :=
  match v with
  | GUint8 v | GUint16 v | GUint32 v | GUint64 v | GFloat64 v => in_u64 v
  | GFloat32 v => in_u32 v
  | GInt8 v | GInt16 v | GInt32 v | GInt64 v => v < u64_bound
  | GArray l => (fix all (l : list GgufValue) : Prop :=
      match l with [] => True | v :: l => value_ok v ∧ all l end) l
  | GBool _ | GString _ => True
  end.
Definition metadata_ok (m : GgufMetadata) : Prop := map_Forall (λ _ v, value_ok v) m.
Lemma value_ok_array l : value_ok (GArray l) ↔ Forall value_ok l.
Proof. simpl. induction l; [by split|]. rewrite Forall_cons, <- IHl. done. Qed.
Lemma word_enc_u64 n b v : (n ≤ 8)%nat → word_enc n b v → in_u64 v.
Proof.
  intros Hn [Hv _]. assert (256 ^ Z.of_nat n ≤ 256 ^ 8) by (apply Z.pow_le_mono_r; lia).
  split; [lia|]. change u64_bound with (256 ^ 8). lia.
Qed.
Lemma int_enc_u64 n b v : (n ≤ 8)%nat → int_enc n b v → v < u64_bound.
Proof.
  intros Hn [Hv _]. assert (2 ^ (8 * Z.of_nat n - 1) ≤ 2 ^ 64) by (apply Z.pow_le_mono_r; lia).
  change u64_bound with (2 ^ 64). lia.
Qed.
Lemma scalar_enc_ok t b v : scalar_enc t b v → value_ok v.
Proof.
  destruct v; cbn; try done; intros [_ H];
    try (by eapply word_enc_u64 in H; [|lia]); try (by eapply int_enc_u64 in H; [|lia]).
  by destruct H as [? _].
Qed.
Lemma value_enc_ok b v : value_enc b v → value_ok v.
Proof.
  intros [(t & b' & _ & _ & _ & Hs)|(t & b' & l & _ & _ & _ & -> & _ & He)]; [by eapply scalar_enc_ok|].
  apply value_ok_array. revert b' He. induction l as [|v l IH]; intros b'; [done|].
  intros (b1 & b2 & -> & Hv & Hl). constructor; [by eapply scalar_enc_ok|by eapply IH].
Qed.
Lemma metadata_of_ok l m b : pairs_enc b l → metadata_ok m → metadata_ok (metadata_of l m).
Proof.
  revert m b. induction l as [|[key v] l IH]; intros m b; [done|].
  intros (b1 & b2 & b3 & -> & _ & Hv & Hl) Hm. eapply IH; [exact Hl|]. apply map_Forall_insert_2; [|done].
  by eapply value_enc_ok.
Qed.
Lemma gguf_enc_ok b m : gguf_enc b m → metadata_ok m.
Proof.
  intros (? & l & b' & _ & _ & _ & Hl & ->). eapply metadata_of_ok; [exact Hl|]. apply map_Forall_empty.
Qed.

(** An integer the metadata declares. *)
Definition declared (m : GgufMetadata) (key : bytes) (v : Z) : Prop := m !! key ≫= gguf_as_u64 = Some v.
Lemma as_u64_ok x v : value_ok x → gguf_as_u64 x = Some v → in_u64 v.
Proof.
  intros Hx Hv. destruct x; simpl in *; simplify_eq; try done; destruct (Z.ltb_spec v0 0); simplify_eq; by split.
Qed.
Lemma declared_u64 m key v : metadata_ok m → declared m key v → in_u64 v.
Proof. intros Hm (x & Hx & Hv)%bind_Some. by eapply as_u64_ok; [eapply Hm|]. Qed.
Lemma optional_u64_Ok m key o : optional_u64 m key = Ok o ↔
  match o with Some v => declared m key v | None => m !! key = None end.
Proof.
  unfold optional_u64, declared. destruct (m !! key) as [x|]; simpl.
  - destruct (gguf_as_u64 x), o; simpl; naive_solver.
  - destruct o; naive_solver.
Qed.
Lemma required_u64_Ok m key v : required_u64 m key = Ok v ↔ declared m key v.
Proof.
  unfold required_u64. rewrite bind_Ok. setoid_rewrite ok_or_Ok. split.
  - by intros (? & H%optional_u64_Ok & ->).
  - intros H. exists (Some v). split; [by apply optional_u64_Ok|done].
Qed.
(** One count for all layers. *)
Definition uniform_count (x : GgufValue) (v : Z) : Prop :=
  match x with
  | GArray l => l ≠ [] ∧ Forall (λ x, gguf_as_u64 x = Some v) l
  | x => gguf_as_u64 x = Some v
  end.
Lemma uniform_count_u64 x v : value_ok x → uniform_count x v → in_u64 v.
Proof.
  destruct x as [| | | | | | | | |[|x l]| | |]; try apply as_u64_ok; [by intros _ []|].
  intros [Hx _]%value_ok_array%Forall_cons [_ [Hv _]%Forall_cons]. by eapply as_u64_ok.
Qed.
Lemma distinct_counts_Ok l s s' : distinct_counts l s = Ok s' ↔
  ∃ vs, gguf_as_u64 <$> l = Some <$> vs ∧ s' = list_to_set vs ∪ s.
Proof.
  revert s. induction l as [|x l IH]; intros s; cbn [distinct_counts fmap list_fmap].
  - split; [intros [= <-]; exists []; split; [done|]; set_solver|].
    intros ([|] & H & ->); [|done]. f_equal. set_solver.
  - rewrite bind_Ok. setoid_rewrite ok_or_Ok. setoid_rewrite IH. split.
    + intros (v & -> & vs & Hl & ->). exists (v :: vs). cbn. rewrite Hl. split; [done|set_solver].
    + intros ([|v vs] & H & ->); [done|]. injection H as Hv Hl. exists v. split; [done|].
      exists vs. split; [done|set_solver].
Qed.
Lemma head_count_kv_Ok value v : head_count_kv_of value = Ok v ↔
  ∃ x, value = Some x ∧ uniform_count x v.
Proof.
  unfold head_count_kv_of. destruct value as [x|]; [|naive_solver].
  assert (∀ P, (∃ y, Some x = Some y ∧ P y) ↔ P x) as -> by naive_solver.
  destruct x as [| | | | | | | | |l| | |]; try apply ok_or_Ok. cbn [uniform_count]. split.
  - intros (s & (vs & Hl & ->)%distinct_counts_Ok & H)%bind_Ok.
    rewrite union_empty_r_L in H. destruct (elements _) as [|w [|]] eqn:E; try done. simplify_eq.
    assert (∀ w, w ∈ vs ↔ w = v) as Hv.
    { intros w. rewrite <- (elem_of_list_to_set (C:=gset Z)), <- elem_of_elements, E. set_solver. }
    split; [intros ->; destruct vs; [|done]; specialize (Hv v); set_solver|].
    apply list.Forall_forall. intros x Hx. apply (list_elem_of_fmap_2 gguf_as_u64) in Hx. rewrite Hl in Hx.
    apply list_elem_of_fmap in Hx as (w & -> & ->%Hv). done.
  - intros [Hne Hl]. apply bind_Ok. exists {[v]}. split.
    + apply distinct_counts_Ok. exists (replicate (length l) v). split.
      * rewrite fmap_replicate. clear Hne. induction Hl as [|x l Hx _ IH]; [done|]. cbn. by rewrite Hx, IH.
      * destruct l as [|x l]; [done|]. apply set_eq. intros w. rewrite elem_of_union, elem_of_list_to_set.
        rewrite elem_of_replicate. simpl. set_solver.
    + by rewrite elements_singleton.
Qed.

(** The geometry the keys of an architecture declare. *)
Definition head_dim_declared (m : GgufMetadata) (arch : bytes) (heads dim : Z) : Prop :=
  declared m (arch_key arch (lit "attention.key_length")) dim ∨
  m !! arch_key arch (lit "attention.key_length") = None ∧
  declared m (arch_key arch (lit "embedding_length")) (dim * heads).
Definition value_length_agrees (m : GgufMetadata) (arch : bytes) (dim : Z) : Prop :=
  m !! arch_key arch (lit "attention.value_length") = None ∨
  declared m (arch_key arch (lit "attention.value_length")) dim.
Definition uniform_layout (m : GgufMetadata) (arch class : bytes) (layers kv dim : Z) (rope : RopeFieldsV2)
    : PortablePrefillLayoutV2 :=
  mkLayout (name_of m arch) layers
    [mkLayoutClass class 0 layers 1 [] kv dim 0 (rf_freq_base_bits rope) (rf_dimension_count rope)
       (rf_scaling rope) (rf_convention rope)].
Definition no_sliding_window (m : GgufMetadata) (arch : bytes) : Prop :=
  ∀ key, is_Some (m !! key) → swa_key arch key = false.
Definition gguf_geometry (m : GgufMetadata) (arch : bytes) (layers kv dim : Z) : Prop :=
  m !! lit "general.architecture" = Some (GString arch) ∧ arch ∈ DERIVABLE_ARCHITECTURES ∧
  no_sliding_window m arch ∧
  declared m (arch_key arch (lit "block_count")) layers ∧ 0 < layers ≤ MAX_LAYOUT_LAYERS ∧
  (∃ heads, declared m (arch_key arch (lit "attention.head_count")) heads ∧ 0 < heads ∧
     head_dim_declared m arch heads dim) ∧
  (∃ x, m !! arch_key arch (lit "attention.head_count_kv") = Some x ∧ uniform_count x kv) ∧
  0 < kv < u32_bound ∧ 0 < dim < u32_bound ∧ value_length_agrees m arch dim.

Lemma swa_keys_absent m arch :
  existsb (λ e, swa_key arch e.1) (map_to_list m) = false ↔ no_sliding_window m arch.
Proof.
  rewrite (existsb_false_Forall (λ e, swa_key arch e.1 = false)) by done.
  rewrite list.Forall_forall. unfold no_sliding_window. split.
  - intros H key [v Hv%elem_of_map_to_list]. by apply H in Hv.
  - intros H [key v] Hv%elem_of_map_to_list. apply H. eauto.
Qed.
Lemma existsb_bytes s l : existsb (bytes_eqb s) l = true ↔ s ∈ l.
Proof.
  rewrite existsb_exists. setoid_rewrite bytes_eqb_eq. setoid_rewrite <- list_elem_of_In. naive_solver.
Qed.
Lemma architecture_of_Ok m missing arch : architecture_of m missing = Ok arch ↔
  m !! lit "general.architecture" = Some (GString arch).
Proof.
  unfold architecture_of. rewrite ok_or_Ok. destruct (m !! _) as [[]|]; simpl; naive_solver.
Qed.
Lemma head_dim_of_Ok m arch heads o dim : metadata_ok m → 0 < heads →
  optional_u64 m (arch_key arch (lit "attention.key_length")) = Ok o →
  head_dim_of m arch heads o = Ok dim ↔ head_dim_declared m arch heads dim.
Proof.
  intros Hm Hh Ho%optional_u64_Ok. unfold head_dim_of, head_dim_declared. destruct o as [v|].
  - split; [intros [= ->]; by left|]. intros [H|[H _]]; unfold declared in *; simplify_eq; [congruence|].
    by rewrite H in Ho.
  - rewrite bind_Ok. setoid_rewrite required_u64_Ok. split.
    + intros (e & He & H). inv_ok. bools. right. split; [done|]. subst.
      pose proof (Z.div_mod e heads). by replace (e / heads * heads) with e by lia.
    + intros [H|[_ H]]; [unfold declared in H; by rewrite Ho in H|]. exists (dim * heads).
      split; [done|]. rewrite Z.mod_mul, Z.div_mul by lia. done.
Qed.
Lemma value_length_Ok m arch o dim :
  optional_u64 m (arch_key arch (lit "attention.value_length")) = Ok o →
  value_length_differs o dim = false ↔ value_length_agrees m arch dim.
Proof.
  intros Ho%optional_u64_Ok. unfold value_length_differs, value_length_agrees, declared in *. destruct o as [v|].
  - rewrite negb_false_iff, Z.eqb_eq. rewrite Ho. destruct (m !! _); naive_solver.
  - naive_solver.
Qed.

Lemma head_dim_nonneg m arch heads dim : metadata_ok m → 0 < heads → head_dim_declared m arch heads dim → 0 ≤ dim.
Proof. intros Hm Hh [H|[_ H]]; apply declared_u64 in H; try done; unfold in_u64 in H; nia. Qed.

(** What a parsed rotary configuration satisfies. *)
Definition rope_sound (dim : Z) (r : RopeFieldsV2) : Prop :=
  in_u64 (rf_freq_base_bits r) ∧
  f64_is_finite (f64_from_bits (rf_freq_base_bits r)) = true ∧
  f64_leb (f64_from_bits (rf_freq_base_bits r)) (f64_of_Z 1) = false ∧
  2 ≤ rf_dimension_count r ≤ dim ∧ rf_dimension_count r < u32_bound ∧ rf_dimension_count r mod 2 = 0 ∧
  rf_convention r = Neox ∧
  (rf_scaling r = lit "none" ∨ ∃ kind factor, rope_scaling_label kind factor = Some (rf_scaling r)).

Lemma lor_field sign e m : 0 ≤ sign ≤ 1 → 0 ≤ e < 2 ^ 11 → 0 ≤ m < 2 ^ 52 →
  in_u64 (Z.lor (Z.shiftl sign 63) (Z.lor (Z.shiftl e 52) m)).
Proof.
  intros Hs He Hm. rewrite (lor_shiftl_add e m 52) by lia.
  rewrite lor_shiftl_add by lia. unfold in_u64, u64_bound. lia.
Qed.
Lemma f64_bits_of_f32_u64 bits : in_u32 bits → in_u64 (f64_bits_of_f32 bits).
Proof.
  intros Hb. unfold f64_bits_of_f32.
  assert (∀ x n, 0 ≤ n → 0 ≤ Z.land x (Z.ones n) < 2 ^ n) as Hland.
  { intros x n Hn. rewrite Z.land_ones by done. by apply Z.mod_pos_bound, Z.pow_pos_nonneg. }
  pose proof (Hland (Z.shiftr bits 31) 1 ltac:(lia)) as Hs.
  pose proof (Hland (Z.shiftr bits 23) 8 ltac:(lia)) as He.
  pose proof (Hland bits 23 ltac:(lia)) as Hm.
  change (0 ≤ f32_sign bits < 2) in Hs. change (0 ≤ f32_exponent bits < 256) in He.
  change (0 ≤ f32_mantissa bits < 2 ^ 23) in Hm. clear Hland.
  destruct (Z.eqb_spec (f32_exponent bits) 255).
  { apply lor_field; [lia..|]. rewrite Z.shiftl_mul_pow2 by lia. lia. }
  destruct (Z.eqb_spec (f32_exponent bits) 0).
  - destruct (Z.eqb_spec (f32_mantissa bits) 0).
    + rewrite Z.shiftl_mul_pow2 by lia. unfold in_u64, u64_bound. lia.
    + destruct (Z.log2_spec (f32_mantissa bits)) as [Hl Hu]; [lia|].
      set (k := Z.log2 _) in *. assert (0 ≤ k < 23).
      { split; [apply Z.log2_nonneg|]. apply Z.log2_lt_pow2; lia. }
      apply lor_field; [lia..|]. rewrite Z.shiftl_mul_pow2 by lia.
      rewrite Z.pow_succ_r in Hu by lia. assert (2 ^ 52 = 2 ^ k * 2 ^ (52 - k)) as ->.
      { rewrite <- Z.pow_add_r by lia. f_equal. lia. }
      assert (0 < 2 ^ (52 - k)) by (apply Z.pow_pos_nonneg; lia). nia.
  - apply lor_field; [lia..|]. rewrite Z.shiftl_mul_pow2 by lia. lia.
Qed.
Lemma float_value_u64 m key e1 e2 bits : metadata_ok m → float_value (m !! key) e1 e2 = Ok bits → in_u64 bits.
Proof.
  intros Hm. unfold float_value. destruct (m !! key) as [x|] eqn:E; [|done]. specialize (Hm key x E).
  destruct x; try done; intros [= <-]; [by apply f64_bits_of_f32_u64|done].
Qed.
Lemma as_u32_small v : 0 ≤ v < u32_bound → as_u32 v = v.
Proof. apply Z.mod_small. Qed.
Lemma rope_fields_sound m arch dim dflt r : metadata_ok m →
  rope_fields_from_gguf m arch dim dflt = Ok r → rope_sound dim r.
Proof.
  intros Hm H. unfold rope_fields_from_gguf in H.
  apply bind_Ok in H as (bits & Hbits & H). destruct (negb _ || _)%bool eqn:Hf in H; [done|].
  apply bind_Ok in H as (count & _ & H). destruct (_ || _ || _ || _)%bool eqn:Hc in H; [done|].
  apply bind_Ok in H as (scaling & Hs & H). apply bind_Ok in H as (conv & Hconv & H). injection H as <-.
  bools. unfold rope_sound. cbn. rewrite as_u32_small by (unfold u32_bound in *; lia).
  split_and!; try done; try lia.
  - by eapply float_value_u64.
  - apply ok_or_Ok in Hconv. unfold pinned_rope_convention in Hconv. by case_match; simplify_eq.
  - unfold scaling_of in Hs. destruct (m !! arch_key arch (lit "rope.scaling.type")) as [[]|]; try done.
    + right. apply bind_Ok in Hs as (factor & _ & Hs%ok_or_Ok). eexists _, _. exact Hs.
    + left. inv_ok. done.
Qed.

Lemma single_class_uniform m arch class layers kv dim r : 0 ≤ layers < u32_bound → 0 ≤ dim < u32_bound →
  rope_sound dim r →
  single_class_layout (name_of m arch) class layers kv dim r = uniform_layout m arch class layers kv dim r.
Proof.
  intros Hl Hd (_ & _ & _ & Hc & Hc' & _). unfold single_class_layout, uniform_layout.
  rewrite !as_u32_small by lia. done.
Qed.
(** Derivation accepts exactly the uniform geometries. *)
Definition gguf_layout (m : GgufMetadata) (layout : PortablePrefillLayoutV2) : Prop :=
  ∃ arch layers kv dim rope, gguf_geometry m arch layers kv dim ∧
    rope_fields_from_gguf m arch dim dim = Ok rope ∧
    layout = uniform_layout m arch (lit "gqa-full") layers kv dim rope.
Lemma derive_layout_sound m layout : metadata_ok m →
  derive_layout_from_metadata m = Ok layout → gguf_layout m layout.
Proof.
  intros Hm. unfold derive_layout_from_metadata. intros (arch & Ha%architecture_of_Ok & H)%bind_Ok.
  destruct (existsb _ (map_to_list m)) eqn:Hswa; [done|]. apply swa_keys_absent in Hswa.
  destruct (existsb _ DERIVABLE_ARCHITECTURES) eqn:Hd; [|done]. apply existsb_bytes in Hd. cbn [negb] in H.
  apply bind_Ok in H as (layers & Hl%required_u64_Ok & H).
  apply bind_Ok in H as (heads & Hh%required_u64_Ok & H).
  destruct (Z.eqb_spec heads 0); [done|]. apply bind_Ok in H as (kv & Hkv%head_count_kv_Ok & H).
  destruct (Z.eqb_spec kv 0); [done|]. apply bind_Ok in H as (o & Ho & H).
  apply bind_Ok in H as (o' & Ho' & H). apply bind_Ok in H as (dim & Hdim & H).
  pose proof (declared_u64 _ _ _ Hm Hl) as Hlu. pose proof (declared_u64 _ _ _ Hm Hh) as Hhu.
  unfold in_u64 in *. apply head_dim_of_Ok in Hdim; [|done|lia|done].
  destruct (value_length_differs o' dim) eqn:Hv; [done|]. apply (value_length_Ok _ _ _ _ Ho') in Hv.
  destruct (_ || _ || _ || _ || _)%bool eqn:Hb in H; [done|]. bools.
  apply bind_Ok in H as (rope & Hr & H). injection H as <-.
  assert (0 ≤ kv) as Hkv0.
  { destruct Hkv as (x & Hx & Hu). specialize (Hm _ _ Hx). by apply uniform_count_u64 in Hu as [? _]. }
  pose proof (head_dim_nonneg _ _ heads _ Hm ltac:(lia) Hdim) as Hdim0. unfold MAX_LAYOUT_LAYERS in *.
  pose proof (rope_fields_sound _ _ _ _ _ Hm Hr) as Hrs. unfold u32_bound in *.
  exists arch, layers, kv, dim, rope. split_and!; [|done|].
  - unfold gguf_geometry, MAX_LAYOUT_LAYERS, u32_bound. split_and!; try done; try lia. exists heads.
    by split_and!; [|lia|].
  - rewrite as_u32_small by (unfold u32_bound; lia). apply single_class_uniform; unfold u32_bound; try done; lia.
Qed.
Lemma optional_u64_total m key v : m !! key = None ∨ declared m key v → ∃ o, optional_u64 m key = Ok o.
Proof. intros [H|H]; [exists None|exists (Some v)]; by apply optional_u64_Ok. Qed.
Lemma derive_layout_complete m layout : metadata_ok m →
  gguf_layout m layout → derive_layout_from_metadata m = Ok layout.
Proof.
  intros Hm (arch & layers & kv & dim & rope & Hg & Hr & ->). unfold derive_layout_from_metadata.
  destruct Hg as (Ha & Hd & Hswa & Hl & Hlb & (heads & Hh & Hh0 & Hdim) & Hkv & Hkvb & Hdb & Hv).
  rewrite (proj2 (architecture_of_Ok m _ arch) Ha). cbn [mbind outcome_bind].
  rewrite (proj2 (swa_keys_absent m arch) Hswa), (proj2 (existsb_bytes _ _) Hd). cbn [negb].
  rewrite (proj2 (required_u64_Ok _ _ _) Hl). cbn [mbind outcome_bind].
  rewrite (proj2 (required_u64_Ok _ _ _) Hh). cbn [mbind outcome_bind].
  rewrite (proj2 (Z.eqb_neq _ _)) by lia. rewrite (proj2 (head_count_kv_Ok _ _) Hkv). cbn [mbind outcome_bind].
  rewrite (proj2 (Z.eqb_neq _ _)) by lia.
  destruct (optional_u64_total m (arch_key arch (lit "attention.key_length")) dim) as [o Ho].
  { destruct Hdim as [?|[? _]]; [by right|by left]. }
  destruct (optional_u64_total _ _ _ Hv) as [o' Ho']. rewrite Ho, Ho'. cbn [mbind outcome_bind].
  rewrite (proj2 (head_dim_of_Ok m arch heads o dim Hm Hh0 Ho) Hdim). cbn [mbind outcome_bind].
  rewrite (proj2 (value_length_Ok m arch o' dim Ho') Hv).
  assert ((dim =? 0) || (layers =? 0) || (MAX_LAYOUT_LAYERS <? layers) || (u32_bound - 1 <? kv)
    || (u32_bound - 1 <? dim) = false) as -> by (rewrite !orb_false_iff; lia).
  rewrite Hr. cbn [mbind outcome_bind]. f_equal. pose proof (rope_fields_sound _ _ _ _ _ Hm Hr) as Hrs.
  unfold MAX_LAYOUT_LAYERS, u32_bound in *. rewrite as_u32_small by (unfold u32_bound; lia).
  apply single_class_uniform; unfold u32_bound; try done; lia.
Qed.

(** ** Latent layouts *)
Lemma mla_required_Ok m key missing v : mla_required m key missing = Ok v ↔ declared m key v.
Proof.
  unfold mla_required, mla_metadata_u64, declared. destruct (m !! key) as [x|]; simpl; [|naive_solver].
  destruct (gguf_as_u64 x); simpl; naive_solver.
Qed.
Definition mla_geometry (m : GgufMetadata) (arch : bytes) (layers latent rope_dim : Z) : Prop :=
  m !! lit "general.architecture" = Some (GString arch) ∧
  declared m (arch_key arch (lit "attention.kv_lora_rank")) latent ∧ 0 < latent ≤ MLA_MAX_LATENT_DIM ∧
  declared m (arch_key arch (lit "attention.qk_rope_head_dim")) rope_dim ∧ 0 < rope_dim ≤ MLA_MAX_ROPE_DIM ∧
  declared m (arch_key arch (lit "block_count")) layers ∧ 0 < layers < u32_bound.
Definition mla_layout (m : GgufMetadata) (layout : PortablePrefillLayoutV2) : Prop :=
  ∃ arch layers latent rope_dim rope, mla_geometry m arch layers latent rope_dim ∧
    rope_fields_from_gguf m arch (latent + rope_dim) rope_dim = Ok rope ∧
    layout = uniform_layout m arch MLA_LATENT_LAYOUT_CLASS layers 1 (latent + rope_dim) rope.
Lemma derive_mla_sound m layout : metadata_ok m →
  derive_mla_layout_from_metadata m = Ok layout → mla_layout m layout.
Proof.
  intros Hm. unfold derive_mla_layout_from_metadata. intros (arch & Ha%architecture_of_Ok & H)%bind_Ok.
  apply bind_Ok in H as (latent & Hl%mla_required_Ok & H). apply bind_Ok in H as (rd & Hrd%mla_required_Ok & H).
  apply bind_Ok in H as (layers & Hn%mla_required_Ok & H). apply bind_Ok in H as (rec & Hrec & H).
  apply ok_or_Ok, checked_add_Some in Hrec as [-> _].
  destruct (_ || _ || _ || _ || _ || _ || _)%bool eqn:Hb in H; [done|]. bools.
  apply bind_Ok in H as (rope & Hr & H). injection H as <-.
  pose proof (declared_u64 _ _ _ Hm Hl) as Hl0. pose proof (declared_u64 _ _ _ Hm Hrd) as Hrd0.
  pose proof (declared_u64 _ _ _ Hm Hn) as Hn0. pose proof (rope_fields_sound _ _ _ _ _ Hm Hr) as Hrs.
  unfold in_u64, u32_bound, MLA_MAX_LATENT_DIM, MLA_MAX_ROPE_DIM in *.
  exists arch, layers, latent, rd, rope. split_and!; [|done|].
  - unfold mla_geometry, u32_bound, MLA_MAX_LATENT_DIM, MLA_MAX_ROPE_DIM. split_and!; try done; lia.
  - apply single_class_uniform; unfold u32_bound; try done; lia.
Qed.
Lemma derive_mla_complete m layout : metadata_ok m →
  mla_layout m layout → derive_mla_layout_from_metadata m = Ok layout.
Proof.
  intros Hm (arch & layers & latent & rd & rope & (Ha & Hl & Hlb & Hrd & Hrb & Hn & Hnb) & Hr & ->).
  unfold derive_mla_layout_from_metadata. rewrite (proj2 (architecture_of_Ok m _ arch) Ha). cbn [mbind outcome_bind].
  rewrite (proj2 (mla_required_Ok _ _ _ _) Hl). cbn [mbind outcome_bind].
  rewrite (proj2 (mla_required_Ok _ _ _ _) Hrd). cbn [mbind outcome_bind].
  rewrite (proj2 (mla_required_Ok _ _ _ _) Hn). cbn [mbind outcome_bind].
  pose proof (rope_fields_sound _ _ _ _ _ Hm Hr) as Hrs. unfold MLA_MAX_LATENT_DIM, MLA_MAX_ROPE_DIM in *.
  rewrite (proj2 (checked_add_Some latent rd (latent + rd))) by (unfold u64_bound; lia).
  cbn [ok_or mbind outcome_bind].
  assert ((latent =? 0) || (65536 <? latent) || (rd =? 0) || (1024 <? rd) || (layers =? 0)
    || (u32_bound - 1 <? layers) || (u32_bound - 1 <? latent + rd) = false) as ->.
  { unfold u32_bound in *. rewrite !orb_false_iff. lia. }
  rewrite Hr. cbn [mbind outcome_bind]. f_equal. unfold u32_bound in *.
  apply single_class_uniform; unfold u32_bound; try done; lia.
Qed.

(** ** Derived layouts are admissible *)
Definition layout_admitted (layout : PortablePrefillLayoutV2) : Prop :=
  layout_partitions layout ∧ validate_owned_layout_v2 layout = Ok tt ∧
  ∃ c, pl_classes layout = [c] ∧ pc_window_tokens c = 0 ∧ pc_rope_convention c = Neox ∧
    (is_canonical_rope_scaling (pc_rope_scaling c) = true → validate_class_rope_v2 c = Ok tt) ∧
    (zlen (pc_rope_scaling c) < u32_bound → layout_words layout).
Lemma uniform_admitted m arch class layers kv dim rope :
  class = lit "gqa-full" ∨ class = MLA_LATENT_LAYOUT_CLASS ∧ kv = 1 →
  0 < layers < u32_bound → 0 < kv < u32_bound → 0 < dim < u32_bound → rope_sound dim rope →
  layout_admitted (uniform_layout m arch class layers kv dim rope).
Proof.
  intros Hc Hl Hk Hd (Hb & Hf & Hle & Hdc & Hdc' & Hm2 & Hn & Hs). unfold uniform_layout.
  set (c := mkLayoutClass _ _ _ _ _ _ _ _ _ _ _ _). set (layout := mkLayout _ _ _).
  assert (layout_partitions layout) as Hp.
  { unfold layout_partitions, all_layers. cbn [pl_classes layout pl_num_layers].
    rewrite bind_cons. cbn [mbind list_bind]. rewrite app_nil_r.
    split_and!; [lia| |apply pc_layers_nodup|].
    - apply Forall_singleton. unfold class_admissible. cbn. split_and!; try lia.
      + by destruct Hc as [->|[-> _]].
      + apply Forall_nil_2.
      + intros E. destruct Hc as [->|[_ ->]]; [discriminate E|done].
    - intros l. rewrite elem_of_pc_layers. cbn. split; [lia|]. intros. split_and!; [lia..| |].
      + apply Z.divide_1_l.
      + apply not_elem_of_nil. }
  split; [done|]. split.
  { apply validate_owned_layout_decides; [|done]. split; [cbn; lia|]. apply Forall_singleton. cbn. lia. }
  exists c. split_and!; try done.
  - intros Hcan. unfold validate_class_rope_v2.
    cbn [c pc_rope_freq_base_bits pc_rope_convention pc_rope_dimension_count
      pc_head_dim pc_rope_scaling] in *. rewrite Hn. rewrite bool_decide_false by done.
    rewrite Hf, Hle, Hcan, Hm2. rewrite (proj2 (Z.ltb_ge _ 2)), (proj2 (Z.ltb_ge dim _)) by lia. done.
  - intros Hsl. split; [cbn; unfold in_u32; lia|]. apply Forall_singleton. unfold class_words. cbn.
    split_and!; [|apply Forall_nil_2|done|by destruct Hc as [->|[-> _]]|done].
    repeat apply Forall_cons_2; [unfold in_u32, u32_bound in *; lia..|apply Forall_nil_2].
Qed.
Lemma derived_admitted m layout : metadata_ok m → gguf_layout m layout ∨ mla_layout m layout →
  layout_admitted layout.
Proof.
  intros Hm [(arch & layers & kv & dim & rope & Hg & Hr & ->)|
    (arch & layers & latent & rd & rope & Hg & Hr & ->)]; apply rope_fields_sound in Hr; try done.
  - destruct Hg as (_ & _ & _ & _ & Hl & _ & _ & Hk & Hd & _). unfold MAX_LAYOUT_LAYERS in Hl.
    apply uniform_admitted; try done; [by left|]. unfold u32_bound. lia.
  - destruct Hg as (_ & _ & Hl & _ & Hrd & _ & Hn). unfold MLA_MAX_LATENT_DIM, MLA_MAX_ROPE_DIM in *.
    apply uniform_admitted; try done; [by right|]. unfold u32_bound. lia.
Qed.
Lemma optional_u64_no_panic m key : ¬ panics (optional_u64 m key).
Proof. unfold optional_u64. destruct (m !! key); no_panic. Qed.
Lemma required_u64_no_panic m key : ¬ panics (required_u64 m key).
Proof. unfold required_u64. pose proof (optional_u64_no_panic m key). no_panic; done. Qed.
Lemma mla_required_no_panic m key missing : ¬ panics (mla_required m key missing).
Proof. unfold mla_required, mla_metadata_u64. destruct (m !! key); no_panic. Qed.
Lemma float_value_no_panic x e1 e2 : ¬ panics (float_value x e1 e2).
Proof. unfold float_value. repeat case_match; no_panic. Qed.
Lemma scaling_of_no_panic m arch : ¬ panics (scaling_of m arch).
Proof.
  unfold scaling_of. repeat case_match; no_panic. apply float_value_no_panic.
Qed.
Lemma head_count_kv_no_panic x : ¬ panics (head_count_kv_of x).
Proof.
  assert (∀ l s, ¬ panics (distinct_counts l s)) as Hd.
  { induction l as [|y l IH]; intros s; cbn [distinct_counts]; no_panic. }
  unfold head_count_kv_of. repeat case_match; no_panic; repeat case_match; no_panic.
Qed.
Lemma head_dim_no_panic m arch heads o : ¬ panics (head_dim_of m arch heads o).
Proof. unfold head_dim_of. case_match; no_panic. apply required_u64_no_panic. Qed.
#[local] Hint Resolve optional_u64_no_panic required_u64_no_panic mla_required_no_panic
  float_value_no_panic scaling_of_no_panic head_count_kv_no_panic head_dim_no_panic : no_panic.
Lemma rope_fields_no_panic m arch dim dflt : ¬ panics (rope_fields_from_gguf m arch dim dflt).
Proof. unfold rope_fields_from_gguf. no_panic; case_match; no_panic. Qed.
#[local] Hint Resolve rope_fields_no_panic : no_panic.
Lemma derive_no_panic m :
  ¬ panics (derive_layout_from_metadata m) ∧ ¬ panics (derive_mla_layout_from_metadata m).
Proof.
  unfold derive_layout_from_metadata, derive_mla_layout_from_metadata, architecture_of.
  split; no_panic.
Qed.

(** The metadata parser accepts exactly the v3 grammar within its bounds: on
    every byte string it returns without panicking, and it returns a map and the
    bytes it did not consume exactly when the file is an encoding of the map
    followed by these bytes. *)
Theorem gguf_metadata_exact file : bytes_ok file →
  ¬ panics (read_gguf_metadata file) ∧
  (∀ m rest, read_gguf_metadata file = Ok (m, rest) ↔ ∃ b, file = b ++ rest ∧ gguf_enc b m) ∧
  (∀ m rest, read_gguf_metadata file = Ok (m, rest) → metadata_ok m).
Proof.
  intros Hf. destruct (accepts_metadata file Hf) as [Hp Hr]. split_and!; [done..|].
  intros m rest (b & _ & Hb)%Hr. by eapply gguf_enc_ok.
Qed.

(** C27: A layout is derived from a model file exactly when the file declares
    one: on every byte string parsing and derivation return without panicking,
    and they return a layout exactly when the file starts with an encoding, in
    the v3 grammar and within the caps, of metadata that declare a uniform
    geometry within the bounds and a rotary configuration that parses, a
    repeated key taking its last value.  Latent layouts are derived from exactly
    the metadata that declare a latent and a rotary width, stated for layouts of
    at most [MAX_LAYOUT_LAYERS] layers: this path does not enforce the cap, and
    nothing is claimed of the layouts above it ([latent_layers_uncapped] shows
    one).  Every such layout partitions its layers into one full-attention class and passes the
    validation of layouts, and its rotary configuration passes the validation
    of classes when its scaling label is canonical. *)
Theorem gguf_layout_exact file : bytes_ok file →
  ¬ panics (derive_layout_from_gguf file) ∧
  (∀ layout, derive_layout_from_gguf file = Ok layout ↔
     ∃ b rest m, file = b ++ rest ∧ gguf_enc b m ∧ gguf_layout m layout) ∧
  (∀ layout, derive_layout_from_gguf file = Ok layout → layout_admitted layout) ∧
  (∀ m rest, read_gguf_metadata file = Ok (m, rest) →
     ¬ panics (derive_mla_layout_from_metadata m) ∧
     ∀ layout, pl_num_layers layout ≤ MAX_LAYOUT_LAYERS →
       (derive_mla_layout_from_metadata m = Ok layout ↔ mla_layout m layout) ∧
       (mla_layout m layout → layout_admitted layout)).
Proof.
  intros Hf. destruct (accepts_metadata file Hf) as [Hp Hr].
  assert (∀ m rest, read_gguf_metadata file = Ok (m, rest) → metadata_ok m) as Hm.
  { intros m rest (b & _ & Hb)%Hr. by eapply gguf_enc_ok. }
  assert (∀ layout, derive_layout_from_gguf file = Ok layout ↔
    ∃ m rest, read_gguf_metadata file = Ok (m, rest) ∧ gguf_layout m layout) as Hd.
  { intros layout. unfold derive_layout_from_gguf. rewrite bind_Ok. split.
    - intros ([m rest] & H & Hl). exists m, rest. split; [done|]. apply derive_layout_sound; [by eapply Hm|done].
    - intros (m & rest & H & Hl). exists (m, rest). split; [done|].
      apply derive_layout_complete; [by eapply Hm|done]. }
  split_and!.
  - unfold derive_layout_from_gguf. apply bind_no_panic; [done|]. intros [m rest] _. apply derive_no_panic.
  - intros layout. rewrite Hd. setoid_rewrite Hr. naive_solver.
  - intros layout (m & rest & H & Hl)%Hd. eapply derived_admitted; [by eapply Hm|by left].
  - intros m rest H. apply Hm in H. split; [apply derive_no_panic|]. intros layout _. split.
    + split; [by apply derive_mla_sound|by apply derive_mla_complete].
    + intros Hl. eapply derived_admitted; [done|by right].
Qed.

Module GgufWitnesses.
Definition gstr (s : bytes) : bytes := le_bytes 8 (zlen s) ++ s.
Definition pair_u32 (key : string) (v : Z) : bytes := gstr (lit key) ++ le_bytes 4 4 ++ le_bytes 4 v.
(** A model of 28 layers, 28 heads, 4 of them key heads, of width 128, base
    frequency 10000 as a [f32]. *)
Definition model_file : bytes :=
  lit "GGUF" ++ le_bytes 4 3 ++ le_bytes 8 0 ++ le_bytes 8 6 ++
  gstr (lit "general.architecture") ++ le_bytes 4 8 ++ gstr (lit "qwen2") ++
  pair_u32 "qwen2.block_count" 28 ++ pair_u32 "qwen2.attention.head_count" 28 ++
  gstr (lit "qwen2.attention.head_count_kv") ++ le_bytes 4 9 ++ le_bytes 4 4 ++ le_bytes 8 2
    ++ le_bytes 4 4 ++ le_bytes 4 4 ++
  pair_u32 "qwen2.embedding_length" 3584 ++
  gstr (lit "qwen2.rope.freq_base") ++ le_bytes 4 6 ++ le_bytes 4 0x461C4000.
Definition model_layout : PortablePrefillLayoutV2 :=
  mkLayout (lit "qwen2") 28
    [mkLayoutClass (lit "gqa-full") 0 28 1 [] 4 128 0 0x40C3880000000000 128 (lit "none") Neox].
Lemma model_file_ok : bytes_ok model_file.
Proof. apply bytes_okb_ok. by vm_compute. Qed.
Lemma gguf_layout_exact_witness :
  derive_layout_from_gguf model_file = Ok model_layout ∧ layout_admitted model_layout ∧
  ∃ b rest m, model_file = b ++ rest ∧ gguf_enc b m ∧ gguf_layout m model_layout.
Proof.
  destruct (gguf_layout_exact model_file model_file_ok) as (_ & Hl & Ha & _).
  assert (derive_layout_from_gguf model_file = Ok model_layout) as H by (vm_compute; reflexivity).
  split; [exact H|]. split; [by apply Ha|by apply Hl].
Defined.
(** Latent layouts are not held to the cap on layers of the other ones. *)
Definition deep_metadata : GgufMetadata :=
  list_to_map [(lit "general.architecture", GString (lit "deepseek2"));
    (lit "deepseek2.attention.kv_lora_rank", GUint32 512);
    (lit "deepseek2.attention.qk_rope_head_dim", GUint32 64);
    (lit "deepseek2.block_count", GUint32 4294967295);
    (lit "deepseek2.rope.freq_base", GFloat32 0x461C4000)].
Lemma latent_layers_uncapped :
  ∃ layout, derive_mla_layout_from_metadata deep_metadata = Ok layout ∧ MAX_LAYOUT_LAYERS < pl_num_layers layout.
Proof. eexists. split; [vm_compute; reflexivity|by vm_compute]. Qed.
End GgufWitnesses.
