(* ===== verification/MlaExpansion.v ===== *)
(** * Expansion of latent records (kvpack, mla.rs)

    A latent record holds the compressed key/value vector of a token and its
    rotary key.  The expansion multiplies the vector by the up-projection
    matrix into per-head keys and values.  A [f32] is an IEEE number of
    [SpecFloat] with 24 bits of precision; a buffer write outside its bounds and
    an allocation beyond [isize::MAX] bytes panic. *)
From Stdlib Require Import ZArith Lia SpecFloat.
From stdpp Require Import base tactics numbers list strings option.
From S2P Require Import Prelude Bytes Wire State Stats StorePolicy PrefillLayout PrefillGguf.

(** ** The descriptor *)
Definition MLA_EXPANSION_DESCRIPTOR_SCHEMA_V1 : Z := 1.
Definition MLA_MAX_HEADS : Z := 1024.
Definition MLA_MAX_HEAD_DIM : Z := 1024.
Inductive MlaTargetLayout := NaivePerHead | AbsorbedMqa.
#[export] Instance MlaTargetLayout_eq_dec : EqDecision MlaTargetLayout.
Proof. solve_decision. Defined.
Record MlaExpansionDescriptor := mkMlaDescriptor {
  me_schema_version : Z;
  me_w_kvb_sha256 : bytes;
  me_rope_config_sha256 : bytes;
  me_latent_dim : Z;
  me_rope_dim : Z;
  me_num_heads : Z;
  me_head_dim : Z;
  me_target_layout : MlaTargetLayout;
}.
Definition valid_sha256_hex (value : bytes) : bool :=
  (zlen value =? 64)
  && forallb (λ byte, (48 <=? byte) && (byte <=? 57) || (97 <=? byte) && (byte <=? 102)) value.
Definition w_kvb_elements (d : MlaExpansionDescriptor) : sresult Z :=
  ok_or (value ← checked_mul (me_latent_dim d) 2; value ← checked_mul value (me_num_heads d);
         checked_mul value (me_head_dim d))
    (SExpectation "mla expansion descriptor W_KVb element count overflows").
Definition record_elements (d : MlaExpansionDescriptor) : Z := me_latent_dim d + me_rope_dim d.
Definition mla_validate (d : MlaExpansionDescriptor) : sresult unit :=
  if negb (me_schema_version d =? MLA_EXPANSION_DESCRIPTOR_SCHEMA_V1) then
    expectation "mla expansion descriptor schema version is unsupported" else
  if negb (valid_sha256_hex (me_w_kvb_sha256 d)) || negb (valid_sha256_hex (me_rope_config_sha256 d)) then
    expectation "mla expansion descriptor hashes must be 64 lowercase hexadecimal digits" else
  if (me_latent_dim d =? 0) || (MLA_MAX_LATENT_DIM <? me_latent_dim d)
     || (me_rope_dim d =? 0) || (MLA_MAX_ROPE_DIM <? me_rope_dim d)
     || (me_num_heads d =? 0) || (MLA_MAX_HEADS <? me_num_heads d)
     || (me_head_dim d =? 0) || (MLA_MAX_HEAD_DIM <? me_head_dim d) then
    expectation "mla expansion descriptor geometry is outside the bounded nonzero dims" else
  _ ← w_kvb_elements d;
  Ok tt.
(** [from_str] is the JSON reader of serde. *)
Definition parse_mla_expansion_descriptor (from_str : bytes → option MlaExpansionDescriptor) (json : bytes)
    : sresult MlaExpansionDescriptor :=
  descriptor ← ok_or (from_str json) (SExpectation "mla expansion descriptor is not valid json");
  _ ← mla_validate descriptor;
  Ok descriptor.

(** ** Buffers and loops *)
Notation f32 := spec_float (only parsing).
Definition f32_zero : f32 := S754_zero false.
Definition f32_mul : f32 → f32 → f32 := SFmul 24 128.
Definition f32_add : f32 → f32 → f32 := SFadd 24 128.
Definition isize_max : Z := 2 ^ 63 - 1.
(** [vec![0.0f32; n]] *)
Definition vec_f32 (n : Z) : sresult (list f32) :=
  if isize_max <? n * 4 then Panic "capacity overflow" else Ok (replicate (Z.to_nat n) f32_zero).
(** [buffer[i..j].copy_from_slice(src)] *)
Definition copy_range (buffer : list f32) (i j : Z) (src : list f32) : sresult (list f32) :=
  if (0 <=? i) && (i <=? j) && (j <=? zlen buffer) && (j - i =? zlen src)
  then Ok (ztake i buffer ++ src ++ zdrop j buffer) else Panic "slice index out of range".
(** [buffer[i] = x] *)
Definition set_at (buffer : list f32) (i : Z) (x : f32) : sresult (list f32) :=
  copy_range buffer i (i + 1) [x].
Fixpoint for_loop {A S} (f : A → S → sresult S) (l : list A) (s : S) : sresult S :=
  match l with [] => Ok s | a :: l => s ← f a s; for_loop f l s end.

(** ** The expansion *)
Record MlaExpandedKv := mkExpanded { mk_k_nope : list f32; mk_v : list f32; mk_k_rope : list f32 }.

Section expansion.
Context (d : MlaExpansionDescriptor) (w_kvb latents : list f32).
Definition kv_cols : Z := me_num_heads d * me_head_dim d.

(** One row of the products of a column. *)
Definition accumulate (column : Z) (e : Z * f32) (sums : f32 * f32) : sresult (f32 * f32) :=
  let '(row, c) := e in
  let weight_base := row * 2 * kv_cols in
  wk ← index w_kvb (weight_base + column);
  wv ← index w_kvb (weight_base + kv_cols + column);
  Ok (f32_add sums.1 (f32_mul c wk), f32_add sums.2 (f32_mul c wv)).
Definition expand_cell (token head : Z) (c_kv : list f32) (dim : Z) (kv : list f32 * list f32)
    : sresult (list f32 * list f32) :=
  let column := head * me_head_dim d + dim in
  '(k_sum, v_sum) ← for_loop (accumulate column) (zip (seqZ 0 (zlen c_kv)) c_kv) (f32_zero, f32_zero);
  k ← set_at kv.1 (token * kv_cols + column) k_sum;
  v ← set_at kv.2 (token * kv_cols + column) v_sum;
  Ok (k, v).
Definition expand_token (token : Z) (s : list f32 * list f32 * list f32)
    : sresult (list f32 * list f32 * list f32) :=
  let '(k_nope, v, k_rope) := s in
  let record := record_elements d in
  let record_base := token * record in
  c_kv ← slice latents record_base (record_base + me_latent_dim d);
  rope ← slice latents (record_base + me_latent_dim d) (record_base + record);
  k_rope ← copy_range k_rope (token * me_rope_dim d) ((token + 1) * me_rope_dim d) rope;
  '(k_nope, v) ← for_loop (λ head, for_loop (expand_cell token head c_kv) (seqZ 0 (me_head_dim d)))
    (seqZ 0 (me_num_heads d)) (k_nope, v);
  Ok (k_nope, v, k_rope).
Definition expand_mla_latents : sresult MlaExpandedKv :=
  _ ← mla_validate d;
  if negb (bool_decide (me_target_layout d = NaivePerHead)) then
    expectation "mla expansion target absorbed-mqa consumes latents without expansion" else
  let record := record_elements d in
  if (zlen latents =? 0) || negb (zlen latents mod record =? 0) then
    expectation "mla latent stream is empty or not a whole number of per-token records" else
  let tokens := zlen latents / record in
  expected_w_kvb ← w_kvb_elements d;
  if negb (zlen w_kvb =? expected_w_kvb) then
    expectation "mla W_KVb element count does not match the descriptor geometry" else
  cells ← expect (checked_mul tokens kv_cols) "attempt to multiply with overflow";
  k_nope ← vec_f32 cells;
  v ← vec_f32 cells;
  rope_cells ← expect (checked_mul tokens (me_rope_dim d)) "attempt to multiply with overflow";
  k_rope ← vec_f32 rope_cells;
  '(k_nope, v, k_rope) ← for_loop expand_token (seqZ 0 tokens) (k_nope, v, k_rope);
  Ok (mkExpanded k_nope v k_rope).

(** ** The matrix product *)
Definition token_count : Z := zlen latents / record_elements d.
(** Entry [i] of a token's record; entry [column] of a row of the matrix. *)
Definition latent_at (token i : Z) : f32 :=
  default f32_zero (latents !! Z.to_nat (token * record_elements d + i)).
Definition weight_at (row column : Z) : f32 :=
  default f32_zero (w_kvb !! Z.to_nat (row * (2 * kv_cols) + column)).
(** The product of the compressed vector of a token and a column, rounded after
    every step, from the first row on. *)
Definition product (token column : Z) : f32 :=
  foldl (λ sum row, f32_add sum (f32_mul (latent_at token row) (weight_at row column))) f32_zero
    (seqZ 0 (me_latent_dim d)).
Definition expands (r : MlaExpandedKv) : Prop :=
  zlen (mk_k_nope r) = token_count * kv_cols ∧ zlen (mk_v r) = token_count * kv_cols ∧
  zlen (mk_k_rope r) = token_count * me_rope_dim d ∧
  ∀ token head dim, 0 ≤ token < token_count → 0 ≤ head < me_num_heads d → 0 ≤ dim < me_head_dim d →
    let column := head * me_head_dim d + dim in
    mk_k_nope r !! Z.to_nat (token * kv_cols + column) = Some (product token column) ∧
    mk_v r !! Z.to_nat (token * kv_cols + column) = Some (product token (kv_cols + column)) ∧
    (∀ i, 0 ≤ i < me_rope_dim d →
       mk_k_rope r !! Z.to_nat (token * me_rope_dim d + i) = Some (latent_at token (me_latent_dim d + i))).
Definition expansion_admitted : Prop :=
  mla_validate d = Ok tt ∧ me_target_layout d = NaivePerHead ∧ latents ≠ [] ∧
  (record_elements d | zlen latents) ∧ zlen w_kvb = me_latent_dim d * (2 * kv_cols).
End expansion.

(** ** Laws of loops and buffers *)
Lemma for_loop_seq {St} (f : Z → St → sresult St) (inv : Z → St) (n : Z) : 0 ≤ n →
  (∀ i, 0 ≤ i < n → f i (inv i) = Ok (inv (i + 1))) → for_loop f (seqZ 0 n) (inv 0) = Ok (inv n).
Proof.
  assert (∀ (k : nat) m, (∀ i, m ≤ i < m + Z.of_nat k → f i (inv i) = Ok (inv (i + 1))) →
    for_loop f (seqZ m (Z.of_nat k)) (inv m) = Ok (inv (m + Z.of_nat k))) as Hk.
  { induction k as [|k IH]; intros m Hf; [simpl; f_equal; f_equal; lia|].
    rewrite seqZ_cons by lia. cbn [for_loop]. rewrite Hf by lia. cbn [mbind outcome_bind].
    replace (Z.pred (Z.of_nat (S k))) with (Z.of_nat k) by lia. unfold Z.succ. rewrite IH; [f_equal; f_equal; lia|].
    intros i Hi. apply Hf. lia. }
  intros Hn Hf. specialize (Hk (Z.to_nat n) 0). rewrite Z2Nat.id in Hk by done. apply Hk. intros i Hi. apply Hf. lia.
Qed.
(** A loop over the elements of a list with their positions. *)
Lemma for_loop_enumerate {St} (f : Z * f32 → St → sresult St) (g : St → Z → St) (l : list f32) (s : St) :
  (∀ i x s, l !! Z.to_nat i = Some x → 0 ≤ i < zlen l → f (i, x) s = Ok (g s i)) →
  for_loop f (zip (seqZ 0 (zlen l)) l) s = Ok (foldl g s (seqZ 0 (zlen l))).
Proof.
  assert (∀ l m s, (∀ i x s, l !! Z.to_nat (i - m) = Some x → m ≤ i < m + zlen l → f (i, x) s = Ok (g s i)) →
    for_loop f (zip (seqZ m (zlen l)) l) s = Ok (foldl g s (seqZ m (zlen l)))) as Hl.
  { clear. induction l as [|x l IH]; intros m s Hf; [done|]. rewrite zlen_cons in *. pose proof (zlen_nonneg l).
    rewrite seqZ_cons by lia. replace (Z.pred (1 + zlen l)) with (zlen l) by lia. cbn [zip zip_with for_loop foldl].
    rewrite (Hf m x s); [|by rewrite Z.sub_diag|lia]. cbn [mbind outcome_bind]. apply IH. intros i y s' Hy Hi.
    apply Hf; [|lia]. replace (i - m) with (Z.succ (i - Z.succ m)) by lia. by rewrite Z2Nat.inj_succ by lia. }
  intros Hf. apply Hl. intros i x s' Hx Hi. apply Hf; [|lia]. by rewrite Z.sub_0_r in Hx.
Qed.
Lemma foldl_pair {A B C} (f : A → C → A) (g : B → C → B) (a : A) (b : B) (l : list C) :
  foldl (λ s x, (f s.1 x, g s.2 x)) (a, b) l = (foldl f a l, foldl g b l).
Proof. revert a b. induction l as [|x l IH]; intros a b; [done|]. cbn [foldl]. apply IH. Qed.

(** A zeroed buffer whose first [n] entries have been written. *)
Definition filled (full : list f32) (n : Z) : list f32 :=
  ztake n full ++ replicate (Z.to_nat (zlen full - n)) f32_zero.
Lemma zlen_replicate {A} n (x : A) : 0 ≤ n → zlen (replicate (Z.to_nat n) x) = n.
Proof. intros. unfold zlen. rewrite length_replicate. lia. Qed.
Lemma filled_0 full : filled full 0 = replicate (Z.to_nat (zlen full)) f32_zero.
Proof. unfold filled. by rewrite Z.sub_0_r. Qed.
Lemma filled_all full : filled full (zlen full) = full.
Proof.
  unfold filled. rewrite Z.sub_diag. simpl. rewrite app_nil_r. unfold ztake, zlen. rewrite Nat2Z.id. apply firstn_all.
Qed.
Lemma copy_filled full n m src : 0 ≤ n → 0 ≤ m → n + m ≤ zlen full → src = ztake m (zdrop n full) →
  copy_range (filled full n) n (n + m) src = Ok (filled full (n + m)).
Proof.
  intros Hn Hm Hf ->. unfold copy_range, filled.
  assert (zlen (ztake n full) = n) as E1 by (apply zlen_ztake; lia).
  assert (zlen (ztake m (zdrop n full)) = m) as E2 by (apply zlen_ztake; rewrite zlen_zdrop; lia).
  rewrite E2, zlen_app, zlen_replicate, E1 by lia.
  rewrite (proj2 (Z.leb_le 0 n)), (proj2 (Z.leb_le n (n + m))), (proj2 (Z.leb_le (n + m) _)), (proj2 (Z.eqb_eq _ _))
    by lia. cbn [andb]. f_equal. rewrite ztake_app_exact by done.
  assert (∀ k, zdrop (n + m) (ztake n full ++ replicate k f32_zero) = replicate (k - Z.to_nat m) f32_zero) as ->.
  { intros k. rewrite <- zdrop_zdrop by lia. rewrite zdrop_app_exact by done. apply drop_replicate. }
  rewrite app_assoc. f_equal; [|f_equal; lia]. unfold ztake, zdrop. rewrite Z2Nat.inj_add by lia.
  rewrite take_take_drop. done.
Qed.
Lemma set_filled full n x : 0 ≤ n < zlen full → full !! Z.to_nat n = Some x →
  set_at (filled full n) n x = Ok (filled full (n + 1)).
Proof.
  intros Hn Hx. apply copy_filled; [lia..|]. unfold ztake, zdrop. change (Z.to_nat 1) with 1%nat.
  rewrite (drop_S _ x) by done. done.
Qed.
Lemma lookup_table (f : Z → f32) n i : 0 ≤ i < n → (f <$> seqZ 0 n) !! Z.to_nat i = Some (f i).
Proof. intros Hi. rewrite list_lookup_fmap, lookup_seqZ_lt by lia. simpl. do 2 f_equal. lia. Qed.
Lemma zlen_table (f : Z → f32) n : 0 ≤ n → zlen (f <$> seqZ 0 n) = n.
Proof. intros. unfold zlen. rewrite length_fmap, length_seqZ. lia. Qed.

(** ** Laws of the expansion *)
Definition mla_fields_unsigned (d : MlaExpansionDescriptor) : Prop :=
  0 ≤ me_latent_dim d ∧ 0 ≤ me_rope_dim d ∧ 0 ≤ me_num_heads d ∧ 0 ≤ me_head_dim d.
Lemma mla_validate_bounds d : mla_fields_unsigned d → mla_validate d = Ok tt →
  0 < me_latent_dim d ≤ 65536 ∧ 0 < me_rope_dim d ≤ 1024 ∧ 0 < me_num_heads d ≤ 1024 ∧ 0 < me_head_dim d ≤ 1024.
Proof.
  intros Hu H. unfold mla_validate in H. destruct (negb _) in H; [done|]. destruct (_ || _)%bool in H; [done|].
  destruct (_ || _ || _ || _ || _ || _ || _ || _)%bool eqn:E in H; [done|]. bools.
  unfold mla_fields_unsigned, MLA_MAX_LATENT_DIM, MLA_MAX_ROPE_DIM, MLA_MAX_HEADS, MLA_MAX_HEAD_DIM in *. lia.
Qed.
Lemma w_kvb_elements_fit d : mla_fields_unsigned d → mla_validate d = Ok tt →
  w_kvb_elements d = Ok (me_latent_dim d * (2 * kv_cols d)).
Proof.
  intros Hu Hv. pose proof (mla_validate_bounds d Hu Hv). unfold w_kvb_elements, kv_cols.
  rewrite (proj2 (checked_mul_Some (me_latent_dim d) 2 _)) by (split; [done|]; unfold u64_bound; lia).
  cbn [mbind option_bind].
  rewrite (proj2 (checked_mul_Some _ (me_num_heads d) _)) by (split; [done|]; unfold u64_bound; nia).
  cbn [mbind option_bind]. assert (0 ≤ me_latent_dim d * 2 * me_num_heads d ≤ 65536 * 2 * 1024) by nia.
  rewrite (proj2 (checked_mul_Some _ (me_head_dim d) _)) by (split; [done|]; unfold u64_bound; nia).
  cbn [ok_or]. f_equal. lia.
Qed.

Section laws.
Context (d : MlaExpansionDescriptor) (w_kvb latents : list f32).
Hypothesis Hunsigned : mla_fields_unsigned d.
Hypothesis Hvalid : mla_validate d = Ok tt.
Hypothesis Hweights : zlen w_kvb = me_latent_dim d * (2 * kv_cols d).
Hypothesis Hrecords : (record_elements d | zlen latents).

Let latent := me_latent_dim d.
Let rope := me_rope_dim d.
Let cols := kv_cols d.
Let tokens := token_count d latents.
Lemma dims_pos : 0 < latent ∧ 0 < rope ∧ 0 < me_num_heads d ∧ 0 < me_head_dim d ∧ 0 < cols ≤ 1048576 ∧ 0 ≤ tokens.
Proof.
  pose proof (mla_validate_bounds d Hunsigned Hvalid). unfold latent, rope, cols, kv_cols, tokens, token_count.
  split_and!; try lia; [nia..|]. apply Z.div_pos; [apply zlen_nonneg|]. unfold record_elements. lia.
Qed.
Lemma zlen_latents : zlen latents = tokens * (latent + rope).
Proof.
  pose proof dims_pos. destruct Hrecords as [n Hn]. unfold tokens, token_count. rewrite Hn.
  fold latent rope. change (record_elements d) with (latent + rope) in *. rewrite Z.div_mul by lia. lia.
Qed.

Definition k_cells : list f32 := (λ i, product d w_kvb latents (i / cols) (i mod cols)) <$> seqZ 0 (tokens * cols).
Definition v_cells : list f32 :=
  (λ i, product d w_kvb latents (i / cols) (cols + i mod cols)) <$> seqZ 0 (tokens * cols).
Definition rope_cells : list f32 :=
  (λ i, latent_at d latents (i / rope) (latent + i mod rope)) <$> seqZ 0 (tokens * rope).

Lemma lookup_default (l : list f32) i : 0 ≤ i < zlen l → l !! Z.to_nat i = Some (default f32_zero (l !! Z.to_nat i)).
Proof. intros Hi. destruct (lookup_lt_is_Some_2 l (Z.to_nat i)) as [x ->]; [|done]. unfold zlen in Hi. lia. Qed.
Lemma index_default {E} (l : list f32) i : 0 ≤ i < zlen l →
  index (E:=E) l i = Ok (default f32_zero (l !! Z.to_nat i)).
Proof. intros Hi. unfold index. rewrite (proj2 (Z.leb_le 0 i)) by lia. by rewrite lookup_default at 1. Qed.
Lemma divmod_cell a i n : 0 ≤ i < n → (a * n + i) / n = a ∧ (a * n + i) mod n = i.
Proof.
  intros Hi. split; [rewrite Z.div_add_l, Z.div_small by lia; lia|].
  by rewrite Z.add_comm, Z.mod_add, Z.mod_small by lia.
Qed.

Lemma column_sums token c_kv column : 0 ≤ token < tokens → 0 ≤ column < cols →
  slice latents (token * (latent + rope)) (token * (latent + rope) + latent) = Ok (E:=StoreError) c_kv →
  for_loop (accumulate d w_kvb column) (zip (seqZ 0 (zlen c_kv)) c_kv) (f32_zero, f32_zero) =
  Ok (product d w_kvb latents token column, product d w_kvb latents token (cols + column)).
Proof.
  intros Ht Hc Hs%slice_Ok. pose proof dims_pos. 
  assert (zlen c_kv = latent) as Hlen by (rewrite (get_range_len _ _ _ _ Hs); ring).
  apply get_range_Some in Hs as (_ & _ & _ & Hs).
  rewrite (for_loop_enumerate _ (λ s row,
    (f32_add s.1 (f32_mul (latent_at d latents token row) (weight_at d w_kvb row column)),
     f32_add s.2 (f32_mul (latent_at d latents token row) (weight_at d w_kvb row (cols + column)))))).
  - f_equal. unfold product. fold latent. rewrite Hlen.
    apply (foldl_pair (λ s row, f32_add s (f32_mul (latent_at d latents token row) (weight_at d w_kvb row column)))
      (λ s row, f32_add s (f32_mul (latent_at d latents token row) (weight_at d w_kvb row (cols + column))))).
  - intros i x s Hx Hi. assert (latent_at d latents token i = x) as <-.
    { unfold latent_at. change (record_elements d) with (latent + rope). rewrite Hs in Hx. unfold ztake, zdrop in Hx.
      rewrite lookup_take_Some, lookup_drop, <- Z2Nat.inj_add in Hx by nia. by destruct Hx as [-> _]. }
    unfold accumulate, weight_at. fold cols.
    rewrite !index_default by (rewrite Hweights; fold latent cols; nia). cbn [mbind outcome_bind].
    do 2 f_equal; do 3 f_equal; f_equal; lia.
Qed.
Lemma cell_written token head c_kv dim :
  0 ≤ token < tokens → 0 ≤ head < me_num_heads d → 0 ≤ dim < me_head_dim d →
  slice latents (token * (latent + rope)) (token * (latent + rope) + latent) = Ok (E:=StoreError) c_kv →
  let n := token * cols + (head * me_head_dim d + dim) in
  expand_cell d w_kvb token head c_kv dim (filled k_cells n, filled v_cells n) =
  Ok (filled k_cells (n + 1), filled v_cells (n + 1)).
Proof.
  intros Ht Hh Hd Hs. pose proof dims_pos as (_ & _ & _ & _ & Hcols & _).
  set (column := head * me_head_dim d + dim). cbv zeta.
  assert (0 ≤ column < cols) as Hc by (unfold column, cols, kv_cols; nia).
  destruct (divmod_cell token column cols Hc) as [Hdiv Hmod].
  assert (0 ≤ token * cols + column < tokens * cols) as Hn by nia.
  unfold expand_cell. fold column cols. rewrite (column_sums token) by done. cbn [mbind outcome_bind fst snd].
  rewrite (set_filled k_cells); [|by unfold k_cells; rewrite zlen_table by lia|].
  2: { unfold k_cells. rewrite lookup_table by done. by rewrite Hdiv, Hmod. }
  cbn [mbind outcome_bind].
  rewrite (set_filled v_cells); [done|by unfold v_cells; rewrite zlen_table by lia|].
  unfold v_cells. rewrite lookup_table by done. by rewrite Hdiv, Hmod.
Qed.
Lemma rope_slice token : 0 ≤ token < tokens →
  slice latents (token * (latent + rope) + latent) (token * (latent + rope) + (latent + rope)) =
  Ok (E:=StoreError) (ztake rope (zdrop (token * rope) rope_cells)).
Proof.
  intros Ht. pose proof dims_pos. pose proof zlen_latents as Hl. apply slice_Ok, get_range_Some.
  split_and!; [nia..|]. unfold rope_cells. apply list_eq. intros i. unfold ztake, zdrop.
  destruct (decide (Z.of_nat i < rope)) as [Hi|Hi].
  - rewrite !lookup_take_lt by lia. rewrite !lookup_drop.
    replace (Z.to_nat (token * rope) + i)%nat with (Z.to_nat (token * rope + Z.of_nat i)) by nia.
    rewrite lookup_table by nia. destruct (divmod_cell token (Z.of_nat i) rope) as [-> ->]; [lia|].
    unfold latent_at. change (record_elements d) with (latent + rope).
    rewrite <- lookup_default by nia. f_equal. nia.
  - rewrite !lookup_take_ge by lia. done.
Qed.
Lemma token_written token : 0 ≤ token < tokens →
  expand_token d w_kvb latents token
    (filled k_cells (token * cols), filled v_cells (token * cols), filled rope_cells (token * rope)) =
  Ok (filled k_cells ((token + 1) * cols), filled v_cells ((token + 1) * cols),
      filled rope_cells ((token + 1) * rope)).
Proof.
  intros Ht. pose proof dims_pos as (Hlat & Hrope & Hh & Hd & Hcols & _). pose proof zlen_latents as Hl.
  unfold expand_token. change (record_elements d) with (latent + rope). fold latent rope.
  assert (∃ c_kv, slice (E:=StoreError) latents (token * (latent + rope)) (token * (latent + rope) + latent) =
    Ok c_kv)
    as [c_kv Hs] by (eexists; apply slice_Ok, get_range_Some; split_and!; [nia..|done]).
  rewrite Hs, rope_slice by done. cbn [mbind outcome_bind].
  assert (zlen rope_cells = tokens * rope) as Hr by (apply zlen_table; nia).
  replace ((token + 1) * rope) with (token * rope + rope) by lia.
  rewrite copy_filled by (done || nia). cbn [mbind outcome_bind].
  pose (at_ n := (filled k_cells (token * cols + n), filled v_cells (token * cols + n))).
  assert (∀ head, 0 ≤ head < me_num_heads d →
    for_loop (expand_cell d w_kvb token head c_kv) (seqZ 0 (me_head_dim d)) (at_ (head * me_head_dim d)) =
    Ok (at_ ((head + 1) * me_head_dim d))) as Hhead.
  { intros head Hhd. pose proof (for_loop_seq (expand_cell d w_kvb token head c_kv)
      (λ dim, at_ (head * me_head_dim d + dim)) (me_head_dim d) ltac:(lia)) as Hloop. cbv beta in Hloop.
    rewrite Z.add_0_r in Hloop. rewrite Hloop; [f_equal; f_equal; lia|]. intros dim Hdim. unfold at_.
    rewrite cell_written by done. by rewrite <- !Z.add_assoc. }
  pose proof (for_loop_seq (λ head, for_loop (expand_cell d w_kvb token head c_kv) (seqZ 0 (me_head_dim d)))
    (λ head, at_ (head * me_head_dim d)) (me_num_heads d) ltac:(lia) Hhead) as Hloop.
  unfold at_ in Hloop at 1. rewrite Z.mul_0_l, Z.add_0_r in Hloop. rewrite Hloop. unfold at_.
  cbn [mbind outcome_bind].
  change (me_num_heads d * me_head_dim d) with cols.
  by replace (token * cols + cols) with ((token + 1) * cols) by lia.
Qed.

Lemma expands_cells : expands d w_kvb latents (mkExpanded k_cells v_cells rope_cells).
Proof.
  pose proof dims_pos as (Hlat & Hrope & Hh & Hd & Hcols & Htok). unfold expands. fold tokens cols rope latent.
  cbn [mk_k_nope mk_v mk_k_rope].
  split_and!; [apply zlen_table; nia..|]. intros token head dim Ht Hhd Hdim. cbv zeta.
  set (column := head * me_head_dim d + dim).
  assert (0 ≤ column < cols) as Hc by (unfold column, cols, kv_cols; nia).
  destruct (divmod_cell token column cols Hc) as [Hdiv Hmod]. unfold k_cells, v_cells, rope_cells.
  split_and!; [rewrite lookup_table by nia; by rewrite Hdiv, Hmod..|].
  intros i Hi. rewrite lookup_table by nia. by destruct (divmod_cell token i rope Hi) as [-> ->].
Qed.
Lemma expansion_runs : me_target_layout d = NaivePerHead → latents ≠ [] →
  tokens * cols * 4 ≤ isize_max → zlen latents * 4 ≤ isize_max →
  expand_mla_latents d w_kvb latents = Ok (mkExpanded k_cells v_cells rope_cells).
Proof.
  intros Ht Hne Hfit Hin. pose proof dims_pos as (Hlat & Hrope & Hh & Hd & Hcols & Htok).
  pose proof zlen_latents as Hl.
  unfold expand_mla_latents. rewrite Hvalid. cbn [mbind outcome_bind]. rewrite bool_decide_true by done. cbn [negb].
  assert (zlen latents ≠ 0) as Hz by (destruct latents; [done|]; rewrite zlen_cons in *; pose proof (zlen_nonneg l);
    lia).
  rewrite (proj2 (Z.eqb_neq _ _) Hz). cbn [orb].
  assert (zlen latents mod record_elements d = 0) as ->.
  { apply Z.mod_divide; [|done]. change (record_elements d) with (latent + rope). lia. }
  cbn [Z.eqb negb].
  rewrite w_kvb_elements_fit by done. cbn [mbind outcome_bind]. rewrite Hweights, Z.eqb_refl. cbn [negb].
  change (zlen latents / record_elements d) with tokens. fold cols rope.
  assert (tokens * rope * 4 ≤ isize_max) as Hfit' by nia. unfold isize_max in *.
  rewrite !(proj2 (checked_mul_Some _ _ _)) by (split; [done|]; unfold u64_bound; lia).
  cbn [expect mbind outcome_bind]. unfold vec_f32, isize_max.
  rewrite !(proj2 (Z.ltb_ge _ _)) by lia. cbn [mbind outcome_bind].
  assert (zlen k_cells = tokens * cols) as Hk by (apply zlen_table; nia).
  assert (zlen v_cells = tokens * cols) as Hv by (apply zlen_table; nia).
  assert (zlen rope_cells = tokens * rope) as Hr by (apply zlen_table; nia).
  pose proof (for_loop_seq (expand_token d w_kvb latents) (λ t, (filled k_cells (t * cols), filled v_cells (t * cols),
    filled rope_cells (t * rope))) tokens Htok token_written) as Hloop. cbv beta in Hloop.
  rewrite !Z.mul_0_l, !filled_0, Hk, Hv, Hr in Hloop. rewrite Hloop. cbn [mbind outcome_bind].
  by rewrite <- Hr, filled_all, <- Hk, filled_all, Hk, <- Hv, filled_all.
Qed.
End laws.

Lemma expansion_guards d w_kvb latents : mla_fields_unsigned d →
  (∃ e, expand_mla_latents d w_kvb latents = Err e) ∨ expansion_admitted d w_kvb latents.
Proof.
  intros Hu. unfold expand_mla_latents, expansion_admitted.
  destruct (mla_validate d) as [[]|e|] eqn:Hv; [|left; by exists e|].
  2: { exfalso. assert (¬ panics (mla_validate d)) as Hp; [|by rewrite Hv in Hp].
       unfold mla_validate, w_kvb_elements. no_panic. }
  cbn [mbind outcome_bind]. pose proof (mla_validate_bounds d Hu Hv).
  case_bool_decide; cbn [negb]; [|left; eauto]. destruct (Z.eqb_spec (zlen latents) 0) as [|Hz]; [left; eauto|].
  destruct (Z.eqb_spec (zlen latents mod record_elements d) 0) as [Hm|]; cbn [orb negb]; [|left; eauto].
  rewrite w_kvb_elements_fit by done. cbn [mbind outcome_bind].
  destruct (Z.eqb_spec (zlen w_kvb) (me_latent_dim d * (2 * kv_cols d))); cbn [negb]; [right|left; eauto].
  split_and!; try done; [by intros ->|]. apply Z.mod_divide; [unfold record_elements; lia|done].
Qed.

(** C28: The expansion of latent records is the matrix product: on inputs whose
    output fits the address space it never panics, and it succeeds exactly for
    a valid descriptor with the per-head target, a whole positive number of
    records and a matrix of the declared size; then every key and value cell is
    the product of the token's compressed vector and its column, keys from the
    first half of the columns and values from the second, and the rotary keys
    are passed through unchanged. *)
Theorem mla_expansion_exact d w_kvb latents : mla_fields_unsigned d →
  token_count d latents * kv_cols d * 4 ≤ isize_max → zlen latents * 4 ≤ isize_max →
  match expand_mla_latents d w_kvb latents with
  | Ok r => expansion_admitted d w_kvb latents ∧ expands d w_kvb latents r
  | Err _ => ¬ expansion_admitted d w_kvb latents
  | Panic _ => False
  end.
Proof.
  intros Hu Hfit Hin.
  assert (expansion_admitted d w_kvb latents → ∃ r, expand_mla_latents d w_kvb latents = Ok r ∧
    expands d w_kvb latents r) as Hrun.
  { intros (Hv & Ht & Hne & Hd & Hw). eexists. split; [by apply expansion_runs|by apply expands_cells]. }
  destruct (expansion_guards d w_kvb latents Hu) as [[e He]|Ha].
  - rewrite He. intros (r & Hr & _)%Hrun. by rewrite He in Hr.
  - destruct (Hrun Ha) as (r & -> & Hr). done.
Qed.

Module MlaWitnesses.
Definition num (n : Z) : f32 := binary_normalize 24 128 n 0 false.
Definition small : MlaExpansionDescriptor :=
  mkMlaDescriptor 1 (replicate 64 97) (replicate 64 98) 2 1 1 2 NaivePerHead.
(** Rows [1 2 | 3 4] and [5 6 | 7 8]; tokens [10 1] with rotary key 9 and [0 2] with 8. *)
Definition weights : list f32 := num <$> [1; 2; 3; 4; 5; 6; 7; 8].
Definition records : list f32 := num <$> [10; 1; 9; 0; 2; 8].
Lemma mla_expansion_exact_witness :
  expand_mla_latents small weights records =
    Ok (mkExpanded (num <$> [15; 26; 10; 12]) (num <$> [37; 48; 14; 16]) (num <$> [9; 8])) ∧
  expansion_admitted small weights records ∧
  expands small weights records
    (mkExpanded (num <$> [15; 26; 10; 12]) (num <$> [37; 48; 14; 16]) (num <$> [9; 8])).
Proof.
  assert (expand_mla_latents small weights records =
    Ok (mkExpanded (num <$> [15; 26; 10; 12]) (num <$> [37; 48; 14; 16]) (num <$> [9; 8]))) as H
    by (vm_compute; reflexivity).
  split; [exact H|].
  pose proof (mla_expansion_exact small weights records ltac:(split_and!; discriminate) ltac:(discriminate)
    ltac:(discriminate)) as Hx.
  rewrite H in Hx. exact Hx.
Defined.
End MlaWitnesses.
